(* ===== verification/_CoqProject ===== *)
-Q . S2P
Prelude.v
Codec.v
Utf8.v
Incremental.v
Varint.v
Integer.v
HuffmanTable.v
Huffman.v
Header.v
StaticTable.v
DynamicTable.v
Wire.v
EncoderStream.v
DecoderStream.v
QpackEncoder.v
QpackDecoder.v
Qpack.v
Settings.v
Frame.v
Error.v
Stream.v
WtStream.v
FrameStream.v
ControlStream.v
RequestStream.v
UriSyntax.v
Validation.v
FlowControl.v
WtError.v
Capsule.v
Datagram.v
Session.v
SessionFlow.v
SfParser.v
Connect.v
Display.v
Event.v
WtSession.v
Connection.v
ConnInvariant.v
ConnNegotiation.v
ConnWtSession.v
ConnWtStream.v
ConnReceive.v
ConnSafety.v
ConnSend.v
ConnSendSafety.v
ConnRun.v
ConnEvents.v
ConnExchange.v
ConnClose.v
ConnOutgoing.v
ConnEndToEnd.v
ConnMidway.v
S2nSession.v
S2nState.v
S2nTasks.v
S2nGather.v
S2nExchange.v
S2nConnect.v
S2nStreams.v
S2nHandshake.v
NgDriver.v
NgEndpoint.v
NgClient.v
NgServer.v
NgWtServer.v
