(* ===== verification/Prelude.v ===== *)
(** Verification development for http3-rs, a Sans I/O implementation of HTTP/3
    (RFC 9114), QPACK (RFC 9204) and WebTransport over HTTP/3. Paths below are relative
    to the root of the repository.

    * The program and this library

    The crate does no I/O: the caller feeds it bytes that arrived on QUIC streams and
    takes bytes to send from it. Its parts build on each other in layers, and the files
    of the library follow them. The two crates under crates/ drive it with a QUIC library.

    Wire primitives
    - [Varint]: src/varint.rs, QUIC variable-length integers.
    - [Integer]: src/qpack/integer.rs, prefix integers, and [QpackError] of src/error.rs.
    - [HuffmanTable], [Huffman]: src/qpack/huffman.rs, the code and its two loops with
      their 64-bit accumulators.
    - [Wire]: src/qpack/wire.rs, string literals with or without Huffman coding.
    - [Header]: src/qpack/header.rs, header fields and the checks that construct them.

    QPACK
    - [StaticTable], [DynamicTable]: src/qpack/table.rs and src/qpack/dynamic_table.rs.
    - [EncoderStream], [DecoderStream]: src/qpack/encoder_stream.rs and
      src/qpack/decoder_stream.rs, both ends of the two instruction streams.
    - [QpackEncoder], [QpackDecoder]: src/qpack/encoder.rs and src/qpack/decoder.rs.
    - [Qpack]: no code of its own; encoder, decoder and the two streams put together.

    HTTP/3
    - [Settings]: src/settings.rs, src/webtransport/settings.rs,
      src/webtransport/connect/draft.rs and [SettingsPayload] of src/frame/mod.rs.
    - [Frame]: src/frame/mod.rs, src/frame/decoder.rs, src/frame/encoder.rs.
    - [Error]: src/error.rs.
    - [Stream]: src/stream/mod.rs, stream kinds and states, the two buffers.
    - [FrameStream], [ControlStream], [RequestStream]: src/stream/control.rs and
      src/stream/request.rs; [FrameStream] holds what the two have in common.
    - [Utf8], [UriSyntax], [Validation]: src/validation.rs, the messages that are well
      formed, with the UTF-8 and URI checks they use.

    WebTransport
    - [WtStream]: src/webtransport/stream.rs, headers of WebTransport streams.
    - [WtError]: src/webtransport/error.rs, error codes.
    - [Capsule], [Datagram]: src/webtransport/capsule.rs and src/webtransport/datagram.rs.
    - [FlowControl], [Session], [SessionFlow]: src/webtransport/session/, the session an
      application keeps; [SessionFlow] puts two of them together.
    - [SfParser], [Connect]: src/webtransport/connect/, CONNECT requests and responses
      and the Structured Fields they carry.

    Connection
    - [Event]: src/event.rs.
    - [WtSession]: src/connection/wt_types.rs, what a connection keeps of a session.
    - [Connection]: the state of src/connection/mod.rs, its construction and the parts
      the methods share; [ConnInvariant] the invariant and the rules to prove it.
    - [ConnNegotiation], [ConnWtSession], [ConnWtStream]: src/connection/wt_session.rs,
      src/connection/wt_capsule.rs and src/connection/wt_stream.rs.
    - [ConnReceive], [ConnSafety]: the receiving half of src/connection/mod.rs and the
      invariant for it; [ConnSend], [ConnSendSafety]: the sending half.
    - [ConnRun]: src/connection/client.rs and src/connection/server.rs, the public
      methods as calls in any order, and the properties of their runs.
    - [ConnEvents], [ConnExchange], [ConnClose], [ConnOutgoing], [ConnEndToEnd],
      [ConnMidway]: no code of their own; the queue of events, its polling and what it
      says of sessions, a client and a server put together, the close of a session
      arriving, what waits to be sent, a request and its response on their way between
      the two, and the same while events are taken in between.
    - [Display]: the [Display] implementations of the crate, with the escaping and the
      redaction of header fields in src/qpack/header.rs.

    Adapters
    - [S2nSession], [S2nState]: crates/tokio-s2n-quic/src, the flow control, the stream
      headers and the handshake of its sessions, and the state its tasks share
      (internal/connection_state.rs).
    - [S2nTasks]: h3/client.rs and h3/server.rs of the same crate, the tasks that send a
      request, accept one and answer it, read the peer's streams and write the QPACK
      streams. [S2nGather], [S2nExchange]: no code of their own; what the loops make of
      the events, and a client's and a server's tasks put together.
    - [S2nHandshake]: webtransport/client.rs and server.rs of that crate, how a session
      comes about; [S2nConnect]: the two tasks of its CONNECT stream, [close] and [drop];
      [S2nStreams]: its streams and the tasks that route those of the peer.
    - [NgDriver]: crates/tokio-ngtcp2/src/lib.rs and h3.rs, the loop between QUIC and the
      connection. [NgEndpoint]: client.rs, the turn of a connection in server.rs, and
      client and server sessions in webtransport.rs. [NgClient]: connecting, and
      everything a client's application can call. [NgServer]: the rest of server.rs, all
      connections of a server and the accepting of new ones; [NgWtServer]: the same of the
      WebTransport server in webtransport.rs, with the sessions of each connection.

    Shared
    - [Prelude]: results, machine integers, slices, bytes, bit operations, automation.
    - [Codec]: the interfaces between codecs. [Writes w bs] is the promise of a function
      that writes into a borrowed slice; [PrefixCode] is the promise of an encoder and a
      slice decoder: what is encoded reads back whatever follows it, what is accepted is
      accepted with more bytes as well. Every wire format of the crate has an instance or
      a lemma of this form, and the stream receivers rely on nothing else.
    - [Incremental]: a receiver that keeps incomplete input and is called again with
      more. Its section proves for every such receiver that the loop ends and that the
      outcome does not depend on how the bytes were cut into chunks; [EncoderStream],
      [ControlStream] and [RequestStream] instantiate it.

    * Correspondence

    Definitions keep the names of the source; where two structs have a method of the same
    name, or a name is a keyword here, a prefix tells them apart ([dec_process],
    [control_process], [settings_iter]). A struct is a [Record] with the fields of the
    source, an enum an [Inductive] with its constructors, a method that changes its
    receiver a function that returns the new receiver. [Result] is [result], with the
    error first; [?] is the bind of that type. Where a call can panic, its model returns
    [option] and [None] is the panic, and theorems say when there is none. Integers are
    [Z]: 64-bit operations that can wrap or overflow in the source are written out
    ([u64], [checked_add], [saturating_add]), as are casts. Bytes are integers below 256
    ([bytes_ok]), a [&[u8]] or [Vec<u8>] is a list of them. A [VecDeque] is a list with
    the front first, a [HashMap] a [gmap]. The methods of a connection are [action]s: from
    a state to nothing (a panic) or to the state after the call with its result, since an
    early return keeps what was changed before it. QUIC itself is not under src/: the
    adapters take it as a [Transport], a class of its operations, and [TransportLaws] names
    what the loops rely on: events come out in the order they were queued, writing and
    opening streams take none away, flushing only adds some, and waiting gets an event only
    finitely often before it times out. [TestQuic] is a transport with these laws. A task of the s2n-quic
    crate is an [action] on the shared state, its own stream and its channel; what happens
    while it waits (a chunk, a notification, a turn of another task) is a list, and the
    theorems hold for every list.

    * Theorems

    The properties are the theorems under a "Properties" heading, each with its number.
    - Wire primitives: encoders and decoders are inverse to each other, for exactly the
      values the format covers, on exactly the buffers that are long enough; nothing
      wraps, and strictness rules (Huffman padding, 2^62 - 1) hold in both directions.
    - QPACK tables and streams: the dynamic table is a bounded FIFO with pinned entries;
      the decoder's table follows the encoder's for every chunking of the encoder stream;
      an entry an unacknowledged section may use is not evicted; the Known Received Count
      and the number of blocked streams keep their bounds.
    - QPACK sections: a section decodes to the header list that was encoded, or blocks
      until the insertions it needs have arrived, and depends on nothing else.
    - Frames and settings: round trips, refusals, duplicate identifiers, draft selection.
    - Streams: the buffers refine a byte queue; what one endpoint's control or request
      stream sends is what the other's delivers, for every chunking; on arbitrary bytes
      nothing panics, and what is delivered obeys the order RFC 9114 demands.
    - Messages: validation accepts exactly the requests, responses and trailers of a
      grammar written out in [Validation] and [UriSyntax]: the structure of RFC 9114, and
      of RFC 3986 what the code checks; content-length is checked against the body.
    - WebTransport: capsules, CONNECT requests and responses and protocol lists round
      trip, within limits that are stated; a session only moves forward; of two sessions
      the sender never uses what the receiver refuses, both know the same limits once the
      capsules are delivered, and a blocked sender is let go on.
    - Connections: whatever is called and whatever arrives, nothing panics, what the peer
      can make a connection hold is bounded, a recorded connection error stays and is what
      every call that looks for one returns (sending a datagram, taking bytes and
      registering streams do not look), and settings, GOAWAY identifiers and ended sessions
      are never taken back.
    - Events: the queue is first in, first out and loses nothing, and polling it comes to
      an end, after at most one error of a stream, when no stream still registered as
      blocked could go on; no session that was established ends without an event that says
      so.
    - A client and a server: a request with its body, and the response to it, arrive as
      they were sent, for every chunking and in every reachable state of both.
    - Adapters: both keep the connection in its reachable states, so that all of the
      above holds between their calls. The ngtcp2 drivers take the events of a connection
      in order and without loss, and give QUIC exactly what waits; a connection that fails
      takes no other one of its server with it, and no sessions but its own. The flow
      control of the s2n-quic crate agrees with that of [Session] on flow control capsules;
      its tasks never panic, return what the events of their stream say and nothing else
      (they drop the events of other streams, which they take from the same queue), and a
      request and a response that one application sends are what the other gets. Its
      WebTransport sessions are followed from a new connection to their end: while the task
      of a session runs, a listening application has been told every event for it in
      order, and once it has ended, that the session is over (or, after a FIN, the
      connection still has that event); a close arrives with its code and reason, and a
      stream of a session with its bytes. A stream goes to a session by the type and the id
      it begins with; the server does not check the id of unidirectional ones.
    - Messages for logs: an error message about a header of the peer's making is bounded,
      printable ASCII on one line, and shows the name unambiguously.
    - Lemmas next to these show behaviour that the RFC or a comment rules out.

    * Fuel

    Loops without a structural measure take a [nat]. Decoders that consume at least one
    byte per round get the length of their input; the loops over continuation bytes get
    the number of bytes a 62-bit value can take; eviction gets the number of entries.
    The loops of a connection ([stream_loop], [control_stream_loop], [wt_capsule_loop])
    get one unit more than the bytes that are buffered, as every round but the last takes
    some; a section that stays blocked ends its round. The loops of the ngtcp2 driver wait
    for QUIC, so their fuel is found from the events QUIC has and will have; the theorems
    say that every larger fuel gives the same.
    Each has a lemma that this is enough ([decode_lines_fuel], [cont_bytes_fuel],
    [run_loop_fuel] and the [_spec] lemmas of the loops), so no theorem is true for lack
    of fuel.

    * Not modelled

    - [Debug], except that of a header field; getters that only return a field.
    - The order in which a [HashMap] is walked: the model takes the order of the keys'
      encoding, and the lemmas about these walks are proved for lists in any order.
    - Memory: allocation never fails, and a [usize] has 64 bits.
    - Of the crates under crates/: how tasks are started and scheduled, locks and
      timeouts, and the configuration of TLS and sockets. They decide when the modelled
      calls are made, and the theorems hold for every order.
    - After a FIN on the CONNECT stream the theorems about the receiving task leave open
      whether the event that ends the session has been delivered or is still queued.
    - The examples, the interoperability programs, the tests and the fuzzers. *)

From stdpp Require Export prelude list gmap.
From Stdlib Require Export ZArith Lia.

#[export] Set Default Goal Selector "!".
#[global] Open Scope Z_scope.

(** ** Results: the [Result<A, E>] of the source. *)
Inductive result (E A : Type) : Type :=
| Ok (a : A)
| Err (e : E).
Arguments Ok {E A} a.
Arguments Err {E A} e.

#[export] Instance result_bind {E} : MBind (result E) := fun A B f m =>
  match m with Ok a => f a | Err e => Err e end.
#[export] Instance result_ret {E} : MRet (result E) := fun A a => Ok a.
#[export] Instance result_fmap {E} : FMap (result E) := fun A B f m =>
  match m with Ok a => Ok (f a) | Err e => Err e end.

#[export] Instance result_eq_dec {E A} `{EqDecision E, EqDecision A} :
  EqDecision (result E A).
Proof. solve_decision. Defined.

(** [map_err], [Option::ok_or] and [Result::ok]. *)
Definition map_err {E F A} (f : E -> F) (r : result E A) : result F A :=
  match r with Ok a => Ok a | Err e => Err (f e) end.
Definition ok_or {E A} (o : option A) (e : E) : result E A :=
  match o with Some a => Ok a | None => Err e end.
Definition ok {E A} (r : result E A) : option A :=
  match r with Ok a => Some a | Err _ => None end.

Definition is_ok {E A} (r : result E A) : bool :=
  match r with Ok _ => true | Err _ => false end.

Lemma result_bind_Ok {E A B} (m : result E A) (f : A -> result E B) b :
  (m ≫= f) = Ok b <-> exists a, m = Ok a /\ f a = Ok b.
Proof. destruct m; cbn; naive_solver. Qed.

Lemma ok_or_Ok {E A} (o : option A) (e : E) a : ok_or o e = Ok a <-> o = Some a.
Proof. destruct o; naive_solver. Qed.

Lemma map_err_Ok {E F A} (f : E -> F) (r : result E A) a :
  map_err f r = Ok a <-> r = Ok a.
Proof. destruct r; naive_solver. Qed.

(** ** Machine integers: [as u8] ... [as u64] and the 64-bit operations. *)
Definition u8_of (z : Z) : Z := z mod 2 ^ 8.
Definition u16_of (z : Z) : Z := z mod 2 ^ 16.
Definition u32_of (z : Z) : Z := z mod 2 ^ 32.
Definition u64_of (z : Z) : Z := z mod 2 ^ 64.
Definition U64_MAX : Z := 2 ^ 64 - 1.

Definition is_u64 (z : Z) : Prop := 0 <= z < 2 ^ 64.

(** [checked_add] on [u64]. *)
Definition checked_add (a b : Z) : option Z :=
  if a + b <=? U64_MAX then Some (a + b) else None.

(** [saturating_add] and [saturating_sub] on [u64]. *)
Definition saturating_add (a b : Z) : Z := Z.min (a + b) U64_MAX.
Definition saturating_sub (a b : Z) : Z := Z.max (a - b) 0.

(** ** Bytes and slices. A [u8] is an integer below 256. *)
Definition is_byte (b : Z) : Prop := 0 <= b < 256.
Notation bytes := (list Z).
Notation bytes_ok := (Forall is_byte).

#[export] Instance is_byte_dec b : Decision (is_byte b).
Proof. unfold is_byte. apply _. Defined.

(** [slice.len()] as a [usize]. *)
Definition len {A} (l : list A) : Z := Z.of_nat (length l).

(** [slice.get(i)]: [None] out of range. *)
Definition get_at {A} (l : list A) (i : Z) : option A :=
  if (0 <=? i) && (i <? len l) then l !! Z.to_nat i else None.

(** [&l[n..]] and [&l[..n]]. *)
Definition drop_z {A} (n : Z) (l : list A) : list A := drop (Z.to_nat n) l.
Definition take_z {A} (n : Z) (l : list A) : list A := take (Z.to_nat n) l.

(** [buf[off..off + bs.len()].copy_from_slice(bs)]. *)
Definition write_at (off : Z) (bs : bytes) (buf : bytes) : bytes :=
  take_z off buf ++ bs ++ drop_z (off + len bs) buf.

(** [to_be_bytes] / [from_be_bytes]. *)
Fixpoint to_be_bytes (n : nat) (v : Z) : bytes :=
  match n with
  | O => []
  | S m => u8_of (v / 2 ^ (8 * Z.of_nat m)) :: to_be_bytes m v
  end.
Fixpoint from_be_bytes (bs : bytes) : Z :=
  match bs with
  | [] => 0
  | b :: r => b * 2 ^ (8 * len r) + from_be_bytes r
  end.

(** ** Automation: side conditions on lengths and widths are closed by [zlen],
    byte ranges by the [bytes] database. *)
Create HintDb bytes.
Create HintDb widths.

Lemma len_nonneg {A} (l : list A) : 0 <= len l.
Proof. unfold len; lia. Qed.
Lemma len_nil {A} : len (@nil A) = 0.
Proof. done. Qed.
Lemma len_cons {A} (x : A) l : len (x :: l) = 1 + len l.
Proof. unfold len; cbn [length]; lia. Qed.
Lemma len_app {A} (l k : list A) : len (l ++ k) = len l + len k.
Proof. unfold len; rewrite length_app; lia. Qed.
Lemma len_drop {A} n (l : list A) : 0 <= n <= len l -> len (drop_z n l) = len l - n.
Proof. unfold len, drop_z; rewrite length_drop; lia. Qed.
Lemma len_take {A} n (l : list A) : 0 <= n <= len l -> len (take_z n l) = n.
Proof. unfold len, take_z; rewrite length_take; lia. Qed.
Lemma len_zero {A} (l : list A) : len l = 0 -> l = [].
Proof. destruct l; [done|rewrite len_cons; pose proof (len_nonneg l); lia]. Qed.
Lemma len_to_nat {A} (l : list A) : Z.to_nat (len l) = length l.
Proof. unfold len; lia. Qed.
Lemma len_replicate {A} n (x : A) : len (replicate n x) = Z.of_nat n.
Proof. unfold len. by rewrite length_replicate. Qed.

#[export] Hint Rewrite @len_nil @len_cons @len_app : widths.

(** Arithmetic goals over [len]: normalise, add the non-negativity facts, [lia]. *)
Ltac len_facts :=
  repeat match goal with
  | |- context [len ?l] =>
    lazymatch goal with H : 0 <= len l |- _ => fail | _ => pose proof (len_nonneg l) end
  | _ : context [len ?l] |- _ =>
    lazymatch goal with H : 0 <= len l |- _ => fail | _ => pose proof (len_nonneg l) end
  end.
Ltac zlen := autorewrite with widths in *; len_facts; lia.

(** Boolean comparisons, reflected into hypotheses. *)
Ltac zify_bool :=
  repeat match goal with
  | H : (_ <? _) = true |- _ => apply Z.ltb_lt in H
  | H : (_ <? _) = false |- _ => apply Z.ltb_ge in H
  | H : (_ <=? _) = true |- _ => apply Z.leb_le in H
  | H : (_ <=? _) = false |- _ => apply Z.leb_gt in H
  | H : (_ =? _) = true |- _ => apply Z.eqb_eq in H
  | H : (_ =? _) = false |- _ => apply Z.eqb_neq in H
  | H : (_ && _) = true |- _ => apply andb_true_iff in H as [? ?]
  | H : (_ || _) = false |- _ => apply orb_false_iff in H as [? ?]
  | H : negb _ = true |- _ => apply negb_true_iff in H
  | H : negb _ = false |- _ => apply negb_false_iff in H
  end.

(** Split on the first integer comparison of the goal. *)
Ltac case_z :=
  match goal with
  | |- context [?a <? ?b] => destruct (Z.ltb_spec a b)
  | |- context [?a <=? ?b] => destruct (Z.leb_spec a b)
  | |- context [?a =? ?b] => destruct (Z.eqb_spec a b)
  end.

Tactic Notation "case_z" "in" hyp(Hin) := revert Hin; case_z; intros Hin.

(** The assignment of [v] to the field [proj] of a record whose eta expansion is [eta]. *)
Ltac assign_field eta proj v :=
  let body := eval unfold eta in eta in
  let body := eval pattern proj in body in
  lazymatch body with
  | ?others _ => let t := eval cbv beta in (others (fun _ => v)) in exact t
  end.

(** Resolve a comparison whose outcome [zlen] can prove. *)
Ltac solve_cmp :=
  repeat (match goal with
  | |- context [?a <? ?b] =>
      first [ replace (a <? b) with true by (symmetry; apply Z.ltb_lt; zlen)
            | replace (a <? b) with false by (symmetry; apply Z.ltb_ge; zlen) ]
  | |- context [?a <=? ?b] =>
      first [ replace (a <=? b) with true by (symmetry; apply Z.leb_le; zlen)
            | replace (a <=? b) with false by (symmetry; apply Z.leb_gt; zlen) ]
  | |- context [?a =? ?b] =>
      first [ replace (a =? b) with true by (symmetry; apply Z.eqb_eq; zlen)
            | replace (a =? b) with false by (symmetry; apply Z.eqb_neq; zlen) ]
  end; cbn [andb orb negb]).

(** ** Slices *)
Lemma drop_z_app_len {A} (l k : list A) : drop_z (len l) (l ++ k) = k.
Proof. unfold drop_z. by rewrite len_to_nat, drop_app_length. Qed.
Lemma take_z_app_len {A} (l k : list A) : take_z (len l) (l ++ k) = l.
Proof. unfold take_z. by rewrite len_to_nat, take_app_length. Qed.
Lemma drop_z_0 {A} (l : list A) : drop_z 0 l = l.
Proof. done. Qed.
Lemma take_drop_z {A} n (l : list A) : take_z n l ++ drop_z n l = l.
Proof. apply take_drop. Qed.
Lemma drop_z_app_eq {A} n (l k : list A) : n = len l -> drop_z n (l ++ k) = k.
Proof. intros ->. apply drop_z_app_len. Qed.
Lemma take_z_app_eq {A} n (l k : list A) : n = len l -> take_z n (l ++ k) = l.
Proof. intros ->. apply take_z_app_len. Qed.
Lemma drop_z_drop_z {A} n m (l : list A) :
  0 <= n -> 0 <= m -> drop_z n (drop_z m l) = drop_z (m + n) l.
Proof. intros. unfold drop_z. rewrite drop_drop. f_equal. lia. Qed.
Lemma drop_z_all {A} n (l : list A) : len l <= n -> drop_z n l = [].
Proof. intros. unfold drop_z. apply drop_ge. unfold len in *; lia. Qed.
Lemma drop_z_cons {A} n (x : A) l : 0 <= n -> drop_z (1 + n) (x :: l) = drop_z n l.
Proof. intros. unfold drop_z. by replace (Z.to_nat (1 + n)) with (S (Z.to_nat n)) by lia. Qed.
Lemma take_z_cons {A} n (x : A) l : 0 <= n -> take_z (1 + n) (x :: l) = x :: take_z n l.
Proof. intros. unfold take_z. by replace (Z.to_nat (1 + n)) with (S (Z.to_nat n)) by lia. Qed.
Lemma take_z_take_z {A} n m (l : list A) :
  0 <= n <= m -> take_z n (take_z m l) = take_z n l.
Proof. intros. unfold take_z. rewrite take_take. f_equal. lia. Qed.

Lemma take_z_app_le {A} n (l k : list A) : n <= len l -> take_z n (l ++ k) = take_z n l.
Proof. intros. unfold take_z. apply take_app_le. unfold len in *; lia. Qed.
Lemma drop_z_app_le {A} n (l k : list A) :
  n <= len l -> drop_z n (l ++ k) = drop_z n l ++ k.
Proof. intros. unfold drop_z. apply drop_app_le. unfold len in *; lia. Qed.

Lemma get_at_Some {A} (l : list A) i x :
  get_at l i = Some x <-> 0 <= i /\ l !! Z.to_nat i = Some x.
Proof.
  unfold get_at. split.
  - intros H. destruct (_ && _) eqn:E in H; [|done]. zify_bool. done.
  - intros [? H]. pose proof (lookup_lt_Some _ _ _ H).
    replace (0 <=? i) with true by lia. unfold len.
    by replace (i <? _) with true by (symmetry; apply Z.ltb_lt; lia).
Qed.
Lemma get_at_None {A} (l : list A) i : 0 <= i -> (get_at l i = None <-> len l <= i).
Proof.
  intros. unfold get_at. replace (0 <=? i) with true by lia. cbn.
  case_z; [|naive_solver lia]. split; [|lia].
  intros ?%lookup_ge_None. unfold len in *; lia.
Qed.

Lemma Forall2_map_diag {A B C} (P : B -> C -> Prop) (f : A -> B) (g : A -> C) l :
  (forall x, x ∈ l -> P (f x) (g x)) -> Forall2 P (map f l) (map g l).
Proof.
  induction l as [|x l IH]; intros H; constructor.
  - apply H. by left.
  - apply IH. intros y Hy. apply H. by right.
Qed.

(** ** Bytes *)
Lemma is_byte_u8 z : is_byte (u8_of z).
Proof. unfold is_byte, u8_of. pose proof (Z.mod_pos_bound z (2 ^ 8)). lia. Qed.
#[export] Hint Resolve is_byte_u8 : bytes.
Lemma u8_of_byte b : is_byte b -> u8_of b = b.
Proof. intros. apply Z.mod_small. apply H. Qed.

(** Concrete bytes. *)
Ltac solve_bytes :=
  repeat (apply List.Forall_cons; [vm_compute; split; [discriminate|reflexivity]|]); constructor.

Lemma bytes_ok_cons b l : is_byte b -> bytes_ok l -> bytes_ok (b :: l).
Proof. by constructor. Qed.
Lemma bytes_ok_app l k : bytes_ok (l ++ k) <-> bytes_ok l /\ bytes_ok k.
Proof. apply Forall_app. Qed.
Lemma bytes_ok_drop n l : bytes_ok l -> bytes_ok (drop_z n l).
Proof. apply Forall_drop. Qed.
Lemma bytes_ok_take n l : bytes_ok l -> bytes_ok (take_z n l).
Proof. apply Forall_take. Qed.
#[export] Hint Resolve bytes_ok_drop bytes_ok_take bytes_ok_cons Forall_nil_2 : bytes.
#[export] Hint Resolve <- bytes_ok_app : bytes.

(** ** Bit operations on disjoint ranges *)
Lemma land_ones_mod z k : 0 <= k -> Z.land z (2 ^ k - 1) = z mod 2 ^ k.
Proof.
  intros. rewrite <- Z.land_ones by lia. f_equal. rewrite Z.ones_equiv. lia.
Qed.

(** The top [b] bits of an [a]-bit number. *)
Lemma div_pow2_range v a b : 0 <= b <= a -> 0 <= v < 2 ^ a -> 0 <= v / 2 ^ (a - b) < 2 ^ b.
Proof.
  intros Hb Hv. assert (0 < 2 ^ (a - b)) by (apply Z.pow_pos_nonneg; lia).
  split; [apply Z.div_pos; lia|]. apply Z.div_lt_upper_bound; [lia|].
  rewrite <- Z.pow_add_r by lia. replace (a - b + b) with a by lia. lia.
Qed.

(** [a | (b << k)] with [a < 2^k] is an addition. *)
Lemma lor_disjoint a b k :
  0 <= k -> 0 <= a < 2 ^ k -> Z.lor a (b * 2 ^ k) = a + b * 2 ^ k.
Proof.
  intros Hk Ha.
  assert (Z.land a (b * 2 ^ k) = 0) as Hl.
  { apply Z.bits_inj'. intros n Hn.
    rewrite Z.land_spec, Z.bits_0, <- Z.shiftl_mul_pow2 by lia.
    destruct (Z.lt_ge_cases n k).
    - rewrite (Z.shiftl_spec_low b k n) by lia. apply andb_false_r.
    - rewrite <- (Z.mod_small a (2 ^ k)) by lia.
      by rewrite Z.mod_pow2_bits_high by lia. }
  rewrite <- Z.lxor_lor by done. symmetry. by apply Z.add_nocarry_lxor.
Qed.

(** Testing one bit: [x & (1 << k) != 0]. *)
Lemma land_pow2_eqb x k : 0 <= k -> (Z.land x (2 ^ k) =? 0) = negb (Z.testbit x k).
Proof.
  intros Hk. destruct (Z.testbit x k) eqn:E.
  - apply Z.eqb_neq. intros H. apply (f_equal (fun z => Z.testbit z k)) in H.
    rewrite Z.land_spec, Z.pow2_bits_true, E, Z.bits_0 in H by lia. done.
  - apply Z.eqb_eq. apply Z.bits_inj'. intros n Hn.
    rewrite Z.land_spec, Z.bits_0, Z.pow2_bits_eqb by lia.
    destruct (Z.eqb_spec k n) as [->|]; [by rewrite E|apply andb_false_r].
Qed.

Lemma flag_test x k : 0 <= k -> (Z.land x (2 ^ k) =? 0) = (x mod 2 ^ (k + 1) <? 2 ^ k).
Proof.
  intros Hk. assert (0 < 2 ^ k) by (apply Z.pow_pos_nonneg; lia).
  rewrite land_pow2_eqb by lia. rewrite Z.pow_add_r, Z.rem_mul_r by (change (2 ^ 1) with 2; lia).
  pose proof (Z.mod_pos_bound x (2 ^ k) ltac:(lia)). change (2 ^ 1) with 2.
  destruct (Z.testbit x k) eqn:E.
  - apply Z.testbit_true in E as ->; [|lia]. symmetry. apply Z.ltb_ge. lia.
  - apply Z.testbit_false in E as ->; [|lia]. symmetry. apply Z.ltb_lt. lia.
Qed.

(** Decide the flag bits [x & 0x80 != 0] ... of a byte whose range [lia] knows. *)
Ltac solve_flags :=
  repeat match goal with
  | |- context [Z.land ?x ?b =? 0] =>
    let k := eval vm_compute in (Z.log2 b) in
    let lo := eval vm_compute in (2 ^ k) in
    let hi := eval vm_compute in (2 ^ (k + 1)) in
    let H := fresh in
    pose proof (flag_test x k ltac:(lia)) as H; change (2 ^ k) with b in H;
    change (2 ^ (k + 1)) with hi in H; rewrite H; clear H;
    first [ replace (x mod hi <? b) with true by (symmetry; apply Z.ltb_lt; Z.div_mod_to_equations; lia)
          | replace (x mod hi <? b) with false by (symmetry; apply Z.ltb_ge; Z.div_mod_to_equations; lia) ];
    cbn [negb]
  end.

(** ** Big-endian integers *)
Lemma len_to_be_bytes n v : len (to_be_bytes n v) = Z.of_nat n.
Proof. induction n; [done|]. cbn [to_be_bytes]. rewrite len_cons. lia. Qed.
#[export] Hint Rewrite len_to_be_bytes : widths.
Lemma to_be_bytes_ok n v : bytes_ok (to_be_bytes n v).
Proof. induction n; constructor; auto with bytes. Qed.
#[export] Hint Resolve to_be_bytes_ok : bytes.

Lemma from_to_be_bytes n v :
  from_be_bytes (to_be_bytes n v) = v mod 2 ^ (8 * Z.of_nat n).
Proof.
  induction n as [|n IH]; [symmetry; apply Z.mod_1_r|].
  cbn [to_be_bytes from_be_bytes]. rewrite IH, len_to_be_bytes. unfold u8_of.
  replace (8 * Z.of_nat (S n)) with (8 * Z.of_nat n + 8) by lia.
  rewrite Z.pow_add_r, Z.rem_mul_r by lia. lia.
Qed.

Lemma from_be_bytes_range bs : bytes_ok bs -> 0 <= from_be_bytes bs < 2 ^ (8 * len bs).
Proof.
  induction 1 as [|b r Hb _ IH]; [by split|].
  cbn [from_be_bytes]. rewrite len_cons.
  replace (8 * (1 + len r)) with (8 + 8 * len r) by lia.
  pose proof (len_nonneg r). rewrite Z.pow_add_r by lia.
  unfold is_byte in Hb. change (2 ^ 8) with 256.
  generalize dependent (2 ^ (8 * len r)). intros P IH.
  assert (0 <= b * P <= 255 * P) by (split; nia). lia.
Qed.

(** The low bytes do not see what is added above them. *)
Lemma to_be_bytes_high m k c v :
  Z.of_nat m <= k -> to_be_bytes m (c * 2 ^ (8 * k) + v) = to_be_bytes m v.
Proof.
  revert k c v. induction m as [|m IHm]; intros k c v Hk; [done|].
  cbn [to_be_bytes]. rewrite IHm by lia. f_equal. unfold u8_of.
  replace (8 * k) with (8 * (k - Z.of_nat m - 1) + 8 + 8 * Z.of_nat m) by lia.
  rewrite !Z.pow_add_r by lia. rewrite !Z.mul_assoc, Z.div_add_l by lia.
  rewrite Z.add_comm. apply Z.mod_add. lia.
Qed.

Lemma to_from_be_bytes bs :
  bytes_ok bs -> to_be_bytes (length bs) (from_be_bytes bs) = bs.
Proof.
  induction 1 as [|b r Hb Hr IH]; [done|].
  cbn [length to_be_bytes from_be_bytes]. change (Z.of_nat (length r)) with (len r).
  pose proof (from_be_bytes_range r Hr). pose proof (len_nonneg r). f_equal.
  - rewrite Z.div_add_l, Z.div_small, Z.add_0_r by lia. by apply u8_of_byte.
  - rewrite to_be_bytes_high by (unfold len; lia). done.
Qed.
