(* ===== verification/Codec.v ===== *)
(** Interfaces between the codecs of the crate.

    [writer] is a function that takes a [&mut [u8]] and returns the buffer as the
    call leaves it together with the [Option<usize>] the source returns.
    [Writes w bs] states what a writer promises its callers; [PrefixCode] states
    what a pair of an encoder and a slice decoder promises theirs. *)

From S2P Require Import Prelude.

(** ** Writers into a borrowed slice *)
Definition writer : Type := bytes -> bytes * option Z.

(** [w(&mut buf[off..])]. *)
Definition at_offset (off : Z) (w : writer) : writer := fun buf =>
  let '(tail, r) := w (drop_z off buf) in (take_z off buf ++ tail, r).

(** [let off = w1(buf)?; let n = w2(&mut buf[off..])?; Some(off + n)]. *)
Definition then_write (w1 w2 : writer) : writer := fun buf =>
  match w1 buf with
  | (b1, None) => (b1, None)
  | (b1, Some off) =>
    match at_offset off w2 b1 with
    | (b2, None) => (b2, None)
    | (b2, Some n) => (b2, Some (off + n))
    end
  end.

(** [if buf.len() < data.len() { return None } buf[..data.len()].copy_from_slice(data)]. *)
Definition copy_slice (data : bytes) : writer := fun buf =>
  if len buf <? len data then (buf, None) else (write_at 0 data buf, Some (len data)).

(** A loop that writes one item after the other. *)
Fixpoint write_each {A} (f : A -> writer) (l : list A) : writer := fun buf =>
  match l with
  | [] => (buf, Some 0)
  | x :: r => then_write (f x) (write_each f r) buf
  end.

(** The contract: when [bs] fits it is written at the front, the rest of the
    buffer is untouched and its length is returned; otherwise [None], and the
    buffer keeps its size. *)
Class Writes (w : writer) (bs : bytes) : Prop := {
  writes_fit buf :
    len bs <= len buf -> w buf = (bs ++ drop_z (len bs) buf, Some (len bs));
  writes_short buf :
    len buf < len bs -> exists buf', w buf = (buf', None) /\ len buf' = len buf }.

#[export] Instance writes_copy_slice data : Writes (copy_slice data) data.
Proof.
  split; intros buf H; unfold copy_slice.
  - solve_cmp. unfold write_at. by rewrite Z.add_0_l.
  - solve_cmp. by exists buf.
Qed.

#[export] Instance writes_then w1 w2 b1 b2 :
  Writes w1 b1 -> Writes w2 b2 -> Writes (then_write w1 w2) (b1 ++ b2).
Proof.
  intros H1 H2. split; intros buf Hb; rewrite len_app in Hb; unfold then_write, at_offset.
  - pose proof (len_nonneg b2). pose proof (len_nonneg b1).
    rewrite (writes_fit (w := w1) (bs := b1)) by lia.
    rewrite drop_z_app_len, take_z_app_len.
    rewrite (writes_fit (w := w2) (bs := b2)) by (rewrite len_drop; lia).
    rewrite drop_z_drop_z by lia. by rewrite len_app, <- app_assoc.
  - pose proof (len_nonneg b1). pose proof (len_nonneg b2).
    destruct (Z.lt_ge_cases (len buf) (len b1)) as [Hs|Hs].
    + destruct (writes_short (w := w1) (bs := b1) buf) as (b' & -> & ?); eauto.
    + rewrite (writes_fit (w := w1) (bs := b1)) by lia.
      rewrite drop_z_app_len, take_z_app_len.
      destruct (writes_short (w := w2) (bs := b2) (drop_z (len b1) buf)) as (b' & -> & Hl).
      { rewrite len_drop; lia. }
      eexists; split; [done|]. rewrite len_drop in Hl by lia. zlen.
Qed.

Lemma writes_ext w w' bs : (forall buf, w buf = w' buf) -> Writes w' bs -> Writes w bs.
Proof. intros E H. split; intros buf; rewrite E; apply H. Qed.

#[export] Instance writes_each {A} (f : A -> writer) (g : A -> bytes) l :
  (forall x, x ∈ l -> Writes (f x) (g x)) ->
  Writes (write_each f l) (concat (map g l)).
Proof.
  induction l as [|x l IH]; intros H; cbn [write_each concat map].
  - split; intros buf Hb; [by rewrite drop_z_0|].
    pose proof (len_nonneg buf). rewrite len_nil in Hb. lia.
  - apply writes_then.
    + apply H. by left.
    + apply IH. intros y Hy. apply H. by right.
Qed.

(** What a caller that got a length finds in the buffer. *)
Lemma writes_result w bs buf buf' n : Writes w bs -> w buf = (buf', Some n) ->
  n = len bs /\ take_z n buf' = bs /\ len buf' = len buf.
Proof.
  intros Hw E. destruct (Z.lt_ge_cases (len buf) (len bs)) as [Hl|Hl].
  - destruct (writes_short (w := w) (bs := bs) buf Hl) as (b & E' & _). congruence.
  - rewrite (writes_fit (w := w) (bs := bs) buf Hl) in E. injection E as <- <-.
    pose proof (len_nonneg bs). rewrite take_z_app_len, len_app, len_drop by lia. split_and!; done || lia.
Qed.

(** The bytes a writer promises are determined by the writer. *)
Lemma writes_inj w b1 b2 : Writes w b1 -> Writes w b2 -> b1 = b2.
Proof.
  intros H1 H2.
  pose (buf := replicate (length b1 + length b2) 0).
  assert (len buf = len b1 + len b2) as Hl by (unfold buf; rewrite len_replicate; unfold len; lia).
  pose proof (len_nonneg b1). pose proof (len_nonneg b2).
  pose proof (writes_fit (w := w) (bs := b1) buf ltac:(lia)) as E.
  rewrite (writes_fit (w := w) (bs := b2)) in E by lia.
  injection E as E El. apply (f_equal (take_z (len b1))) in E.
  by rewrite take_z_app_len, <- El, take_z_app_len in E.
Qed.

(** ** Prefix codes: an encoder and the slice decoder that reads it back.

    [short] is the error the decoder returns when the input ends before the
    item does; any other outcome is final, whatever bytes follow. *)
Class PrefixCode {A E} (enc : A -> bytes) (dec : bytes -> result E (A * Z))
    (valid : A -> Prop) (short : E) : Prop := {
  pc_decode a rest : valid a -> dec (enc a ++ rest) = Ok (a, len (enc a));
  pc_consumed bs a n : bytes_ok bs -> dec bs = Ok (a, n) -> 0 < n <= len bs;
  pc_stable bs tail : bytes_ok bs -> dec bs <> Err short -> dec (bs ++ tail) = dec bs }.

Section prefix_code.
Context {A E : Type} (enc : A -> bytes) (dec : bytes -> result E (A * Z)).
Context (valid : A -> Prop) (short : E) `{!PrefixCode enc dec valid short}.

(** No encoding is a prefix of another one. *)
Lemma pc_prefix_free a b r s : valid a -> valid b -> enc a ++ r = enc b ++ s -> a = b /\ r = s.
Proof using All.
  intros Ha Hb H. pose proof (pc_decode a r Ha) as E1.
  rewrite H, (pc_decode b s Hb) in E1. injection E1 as -> _. split; [done|].
  by apply app_inv_head in H.
Qed.

Lemma pc_injective a b : valid a -> valid b -> enc a = enc b -> a = b.
Proof using All. intros Ha Hb H. apply (pc_prefix_free a b [] []); by rewrite ?app_nil_r. Qed.

(** A part of an encoding is too short. *)
Lemma pc_partial `{!EqDecision E} a p q : valid a -> bytes_ok (enc a) -> p ++ q = enc a -> q <> [] -> dec p = Err short.
Proof using All.
  intros Ha Hb H Hq. pose proof (pc_decode a [] Ha) as E1. rewrite app_nil_r, <- H in E1.
  assert (bytes_ok p) as Hp by (rewrite <- H in Hb; by apply bytes_ok_app in Hb as [? _]).
  destruct (dec p) as [[b n]|e] eqn:Ep.
  - pose proof (pc_consumed _ _ _ Hp Ep) as Hn. rewrite pc_stable, Ep in E1 by (done || by rewrite Ep).
    injection E1 as _ ->. rewrite len_app in Hn. destruct q as [|x q]; [done|]. rewrite len_cons in Hn. pose proof (len_nonneg q). lia.
  - destruct (decide (e = short)) as [->|Hne]; [done|]. rewrite pc_stable, Ep in E1 by (done || by rewrite Ep; congruence). done.
Qed.
End prefix_code.
