(* ===== verification/Utf8.v ===== *)
(** UTF-8 as the program uses it: [str::from_utf8], [str::is_char_boundary], and the
    truncation of a message at a character boundary. A [String] is the bytes of a
    well-formed string ([is_utf8]). *)

From S2P Require Import Prelude.

(** [str::from_utf8(l).is_ok()]: the well-formed byte sequences of RFC 3629 Section 4. *)
Definition in_bytes (lo hi b : Z) : bool := (lo <=? b) && (b <=? hi).
Definition is_utf8_tail (b : Z) : bool := in_bytes 0x80 0xbf b.

Fixpoint is_utf8 (l : bytes) : bool :=
  match l with
  | [] => true
  | b :: r =>
    if b <? 0x80 then is_utf8 r
    else match r with
    | [] => false
    | c1 :: r1 =>
      if in_bytes 0xc2 0xdf b then is_utf8_tail c1 && is_utf8 r1
      else match r1 with
      | [] => false
      | c2 :: r2 =>
        let low1 := if b =? 0xe0 then 0xa0 else if b =? 0xf0 then 0x90 else 0x80 in
        let high1 := if b =? 0xed then 0x9f else if b =? 0xf4 then 0x8f else 0xbf in
        if negb (in_bytes low1 high1 c1 && is_utf8_tail c2) then false
        else if in_bytes 0xe0 0xef b then is_utf8 r2
        else match r2 with
        | [] => false
        | c3 :: r3 => in_bytes 0xf0 0xf4 b && is_utf8_tail c3 && is_utf8 r3
        end
      end
    end
  end.

(** [s.is_char_boundary(i)]: the end, or the first byte of a character. *)
Definition is_char_boundary (l : bytes) (i : nat) : bool :=
  match l !! i with
  | None => bool_decide (i = length l)
  | Some b => bool_decide (i = O) || negb (is_utf8_tail b)
  end.

(** [while end > 0 && !s.is_char_boundary(end) { end -= 1; }] *)
Fixpoint char_floor (l : bytes) (fin : nat) : nat :=
  match fin with
  | O => O
  | S fin' => if is_char_boundary l fin then fin else char_floor l fin'
  end.

(** Truncation to [max] bytes at a character boundary. *)
Definition truncate_utf8 (max : nat) (l : bytes) : bytes :=
  if (length l <=? max)%nat then l else take (char_floor l max) l.

(** ** Characters *)

(** What the proofs need of one encoded character. *)
Definition utf8_char (c : bytes) : Prop :=
  exists b r, c = b :: r /\ is_utf8_tail b = false /\ Forall (fun x => is_utf8_tail x = true) r /\
    (length r <= 3)%nat /\ forall rest, is_utf8 (c ++ rest) = is_utf8 rest.

Lemma utf8_tail_range lo hi x : in_bytes lo hi x = true -> 0x80 <= lo -> hi <= 0xbf -> is_utf8_tail x = true.
Proof. unfold is_utf8_tail, in_bytes. intros. zify_bool. apply andb_true_iff; split; lia. Qed.

Lemma not_tail b : b < 0x80 \/ 0xc0 <= b -> is_utf8_tail b = false.
Proof. unfold is_utf8_tail, in_bytes. intros. apply andb_false_iff. lia. Qed.

Lemma utf8_tail3 (b c1 : Z) :
  in_bytes (if b =? 0xe0 then 0xa0 else if b =? 0xf0 then 0x90 else 0x80)
           (if b =? 0xed then 0x9f else if b =? 0xf4 then 0x8f else 0xbf) c1 = true ->
  is_utf8_tail c1 = true.
Proof. intros H. eapply utf8_tail_range; [exact H|..]; repeat case_match; lia. Qed.

Lemma in_bytes_false lo hi b : b < lo \/ hi < b -> in_bytes lo hi b = false.
Proof. unfold in_bytes. intros. apply andb_false_iff. lia. Qed.

(** A well-formed string is a sequence of characters. *)
Lemma is_utf8_cons l : is_utf8 l = true -> l = [] \/ exists c r, l = c ++ r /\ utf8_char c /\ is_utf8 r = true.
Proof.
  destruct l as [|b r]; [by left|]. intros H. right. cbn [is_utf8] in H.
  destruct (Z.ltb_spec b 0x80) as [Hb|Hb].
  { exists [b], r. split_and!; [done| |done]. exists b, []. split_and!; [done|by apply not_tail; left|done|cbn; lia|].
    intros rest. cbn. by solve_cmp. }
  destruct r as [|c1 r1]; [done|]. destruct (in_bytes 0xc2 0xdf b) eqn:E2.
  { apply andb_true_iff in H as [H1 H]. exists [b; c1], r1. split_and!; [done| |done].
    exists b, [c1]. unfold in_bytes in E2. zify_bool.
    split_and!; [done|apply not_tail; lia|by constructor|cbn; lia|].
    intros rest. cbn [app is_utf8]. solve_cmp. unfold in_bytes at 1. solve_cmp. by rewrite H1. }
  destruct r1 as [|c2 r2]; [done|]. destruct (negb _) eqn:E3 in H; [done|].
  apply negb_false_iff, andb_true_iff in E3 as [E3 H2]. pose proof (utf8_tail3 _ _ E3) as H1.
  destruct (in_bytes 0xe0 0xef b) eqn:E4.
  { exists [b; c1; c2], r2. split_and!; [done| |done]. exists b, [c1; c2].
    pose proof E4 as E4'. unfold in_bytes in E4. zify_bool.
    split_and!; [done|apply not_tail; lia|by repeat constructor|cbn; lia|].
    intros rest. cbn [app is_utf8]. rewrite (proj2 (Z.ltb_ge b 0x80)) by lia. rewrite E2, E3, H2, E4'. done. }
  destruct r2 as [|c3 r3]; [done|]. apply andb_true_iff in H as [[E5 H3]%andb_true_iff H].
  exists [b; c1; c2; c3], r3. split_and!; [done| |done]. exists b, [c1; c2; c3].
  pose proof E5 as E5'. unfold in_bytes in E5'. zify_bool.
  split_and!; [done|apply not_tail; lia|by repeat constructor|cbn; lia|].
  intros rest. cbn [app is_utf8]. rewrite (proj2 (Z.ltb_ge b 0x80)) by lia. rewrite E2, E3, H2, E4, E5, H3. done.
Qed.

Lemma is_utf8_ind (P : bytes -> Prop) :
  P [] -> (forall c r, utf8_char c -> is_utf8 r = true -> P r -> P (c ++ r)) ->
  forall l, is_utf8 l = true -> P l.
Proof.
  intros H0 Hc l. induction l as [l IH] using (induction_ltof1 _ (@length Z)). unfold ltof in IH.
  intros H. apply is_utf8_cons in H as [->|(c & r & -> & Hch & Hr)]; [done|].
  apply Hc; [done..|]. apply IH; [|done]. destruct Hch as (b & r0 & -> & _). cbn. rewrite length_app. lia.
Qed.

Lemma is_utf8_app l k : is_utf8 l = true -> is_utf8 (l ++ k) = is_utf8 k.
Proof.
  intros H. pattern l. apply is_utf8_ind; [done| |done].
  intros c r (b & r0 & -> & _ & _ & _ & Hrest) _ IH. by rewrite <- app_assoc, Hrest.
Qed.

(** A character is one byte below 0x80 or consists of bytes from 0x80 on. *)
Lemma utf8_char_bytes c : utf8_char c -> (exists b, c = [b] /\ b < 0x80) \/ Forall (fun x => 0x80 <= x) c.
Proof.
  intros (b & r & -> & Hb & Hr & _ & Hrest). destruct (Z.ltb_spec b 0x80) as [Hlt|Hge].
  - left. exists b. split; [|done]. destruct r as [|x r]; [done|]. apply Forall_cons in Hr as [Hx _].
    specialize (Hrest []). rewrite app_nil_r in Hrest. cbn [is_utf8] in Hrest. rewrite (proj2 (Z.ltb_lt b 0x80)) in Hrest by done.
    unfold is_utf8_tail, in_bytes in Hx. zify_bool. rewrite (proj2 (Z.ltb_ge x 0x80)) in Hrest by lia.
    rewrite (in_bytes_false 0xc2 0xdf x) in Hrest by lia. rewrite (in_bytes_false 0xe0 0xef x), (in_bytes_false 0xf0 0xf4 x) in Hrest by lia.
    destruct r as [|y [|z r]]; repeat case_match; done.
  - right. constructor; [done|]. eapply Forall_impl; [exact Hr|]. intros x Hx. unfold is_utf8_tail, in_bytes in Hx. zify_bool. lia.
Qed.

(** ** Truncation *)
Lemma boundary_prefix l i : is_utf8 l = true -> (i <= length l)%nat -> is_char_boundary l i = true ->
  is_utf8 (take i l) = true.
Proof.
  intros H. revert i. pattern l. apply is_utf8_ind; [|clear l H|done].
  - intros i _ _. by destruct i.
  - intros c r Hc Hr IH i Hi Hb. destruct (decide (i = O)) as [->|Hne]; [done|].
    pose proof Hc as (b & r0 & -> & _ & Ht & _ & Hrest).
    destruct (decide (i < length (b :: r0))%nat) as [Hlt|Hge].
    + exfalso. unfold is_char_boundary in Hb. rewrite lookup_app_l in Hb by done.
      destruct ((b :: r0) !! i) as [x|] eqn:Ex; [|by apply lookup_ge_None in Ex; lia].
      destruct i; [done|]. cbn in Ex. rewrite Forall_lookup in Ht. rewrite (Ht _ _ Ex) in Hb.
      rewrite bool_decide_eq_false_2 in Hb by done. done.
    + rewrite take_app_ge by lia. rewrite Hrest. rewrite length_app in Hi.
      destruct (decide (i = length (b :: r0))) as [->|]; [by rewrite Nat.sub_diag, take_0|].
      apply IH; [lia|]. unfold is_char_boundary in *. rewrite lookup_app_r, length_app in Hb by lia.
      destruct (r !! _) as [x|] eqn:Ex.
      * rewrite bool_decide_eq_false_2 in Hb by done. cbn in Hb. by rewrite Hb, orb_true_r.
      * apply bool_decide_eq_true in Hb. apply bool_decide_eq_true. lia.
Qed.

Lemma char_floor_le l n : (char_floor l n <= n)%nat.
Proof. induction n as [|n IH]; cbn; [lia|]. case_match; lia. Qed.

Lemma char_floor_boundary l n : char_floor l n = O \/ is_char_boundary l (char_floor l n) = true.
Proof. induction n as [|n IH]; cbn [char_floor]; [by left|]. destruct (is_char_boundary l (S n)) eqn:E; [by right|done]. Qed.

Lemma char_floor_ge l n i : (i <= n)%nat -> is_char_boundary l i = true -> (i <= char_floor l n)%nat.
Proof.
  intros Hi Hb. induction n as [|n IH]; [by assert (i = O) as -> by lia|]. cbn [char_floor].
  destruct (is_char_boundary l (S n)) eqn:E; [lia|]. apply IH.
  destruct (decide (i = S n)) as [->|]; [congruence|lia].
Qed.

(** A boundary is never further than three bytes away. *)
Lemma boundary_near l n : is_utf8 l = true -> (n <= length l)%nat ->
  exists i, (i <= n <= i + 3)%nat /\ is_char_boundary l i = true.
Proof.
  intros H. revert n. pattern l. apply is_utf8_ind; [|clear l H|done].
  - intros n Hn. exists O. cbn in Hn. split; [lia|done].
  - intros c r Hc Hr IH n Hn. pose proof Hc as (b & r0 & -> & Hb & Ht & Hlen & _). rewrite length_app in Hn.
    destruct (decide (n < length (b :: r0))%nat) as [Hlt|Hge].
    { exists O. cbn in Hlt. split; [lia|done]. }
    destruct (IH (n - length (b :: r0))%nat) as (i & Hi & Hbd); [lia|].
    exists (length (b :: r0) + i)%nat. split; [lia|]. unfold is_char_boundary in *.
    rewrite lookup_app_r, length_app by lia. replace (_ + i - _)%nat with i by lia.
    destruct (r !! i) as [x|] eqn:Ex.
    + destruct i as [|i]; [|apply orb_true_iff; right; by apply orb_true_iff in Hbd as [?%bool_decide_eq_true|?]].
      rewrite bool_decide_eq_false_2 by (cbn; lia). cbn [orb].
      apply is_utf8_cons in Hr as [->|(c' & r' & -> & (b' & r0' & -> & Hb' & _) & _)]; [done|].
      cbn in Ex. simplify_eq. by rewrite Hb'.
    + apply bool_decide_eq_true in Hbd. apply bool_decide_eq_true. lia.
Qed.

(** Truncation gives a well-formed prefix, at most three bytes short of [max]. *)
Lemma truncate_utf8_spec max l : is_utf8 l = true ->
  let t := truncate_utf8 max l in
  is_utf8 t = true /\ (length t <= max)%nat /\ (exists k, t = take k l) /\
  ((length l <= max)%nat -> t = l) /\ ((max < length l)%nat -> (max <= length t + 3)%nat).
Proof.
  intros H t. unfold t, truncate_utf8. destruct (Nat.leb_spec (length l) max) as [Hle|Hlt].
  { split_and!; [done..| |done|lia]. exists (length l). by rewrite firstn_all. }
  pose proof (char_floor_le l max) as Hf. rewrite length_take, Nat.min_l by lia. split_and!.
  - destruct (char_floor_boundary l max) as [->|Hb]; [done|]. apply boundary_prefix; [done|lia|done].
  - done.
  - by eexists.
  - lia.
  - intros _. destruct (boundary_near l max H) as (i & Hi & Hb); [lia|].
    pose proof (char_floor_ge l max i ltac:(lia) Hb). lia.
Qed.

Lemma truncate_utf8_idem max l : is_utf8 l = true -> truncate_utf8 max (truncate_utf8 max l) = truncate_utf8 max l.
Proof.
  intros H. destruct (truncate_utf8_spec max l H) as (Hu & Hlen & _).
  by destruct (truncate_utf8_spec max _ Hu) as (_ & _ & _ & -> & _).
Qed.

Lemma take_bytes_ok k l : bytes_ok l -> bytes_ok (take k l).
Proof. apply Forall_take. Qed.

Lemma truncate_utf8_bytes max l : bytes_ok l -> bytes_ok (truncate_utf8 max l).
Proof. unfold truncate_utf8. case_match; [done|]. apply take_bytes_ok. Qed.
