(* ===== verification/Incremental.v ===== *)
(** Incremental readers: what the receivers of the crate have in common.

    A receiver keeps the bytes that arrived and are not used up yet. A step parses
    one item off the front of the buffer and applies it to the receiver's state; an
    item that is not complete yet is no error, the step waits for more bytes. The
    caller repeats the step until it has nothing left to deliver.

    The section proves once what every receiver gets from a parser that is a
    prefix code: the loop ends, and what it delivers does not depend on how the
    peer's bytes were cut into chunks. *)

From S2P Require Import Prelude Codec.

Section reader.
Context {S I E : Type} `{!EqDecision E}.
(** The parser, which may look at the state, the error it returns for an incomplete item, and the effect of an
    item: the new state, whether its bytes are dropped, and the error if any. *)
Context (parse : S -> bytes -> result E (I * Z)) (short : E).
Context (apply : I -> S -> S * bool * option E).

Definition run_step (buf : bytes) (s : S) : bytes * S * result E (option I) :=
  match parse s buf with
  | Err e => (buf, s, if decide (e = short) then Ok None else Err e)
  | Ok (i, n) =>
    let '(s', consumed, err) := apply i s in
    (if consumed then drop_z n buf else buf, s',
     match err with None => Ok (Some i) | Some e => Err e end)
  end.

(** [while let Some(i) = process(..)? { .. }] with the delivered items listed. *)
Fixpoint run_loop (fuel : nat) (buf : bytes) (s : S) : bytes * S * result E (list I) :=
  match run_step buf s with
  | (buf', s', Ok None) => (buf', s', Ok [])
  | (buf', s', Err e) => (buf', s', Err e)
  | (buf', s', Ok (Some i)) =>
    match fuel with
    | O => (buf', s', Ok [i])
    | Datatypes.S fuel' =>
      let '(buf'', s'', r) := run_loop fuel' buf' s' in (buf'', s'', cons i <$> r)
    end
  end.
Definition run_all (buf : bytes) (s : S) : bytes * S * result E (list I) :=
  run_loop (length buf) buf s.

(** One call per chunk, as long as none of them failed. *)
Fixpoint feed (chunks : list bytes) (buf : bytes) (s : S) : bytes * S * result E (list I) :=
  match chunks with
  | [] => (buf, s, Ok [])
  | c :: r =>
    match run_all (buf ++ c) s with
    | (buf', s', Ok l) => let '(buf'', s'', res) := feed r buf' s' in (buf'', s'', app l <$> res)
    | (buf', s', Err e) => (buf', s', Err e)
    end
  end.

Definition deliver (l : list I) (x : bytes * S * result E (list I)) : bytes * S * result E (list I) :=
  let '(buf, s, r) := x in (buf, s, app l <$> r).

Context (parse_nil : forall s, parse s [] = Err short).
Context (parse_consumed : forall s bs i n, bytes_ok bs -> parse s bs = Ok (i, n) -> 0 < n <= len bs).
Context (parse_stable : forall s bs tail, bytes_ok bs -> parse s bs <> Err short ->
  parse s (bs ++ tail) = parse s bs).
Context (apply_consumes : forall i s s' b, apply i s = (s', b, None) -> b = true).

Lemma fmap_app_nil (r : result E (list I)) : app [] <$> r = r.
Proof. by destruct r. Qed.
Lemma fmap_app_app l k (r : result E (list I)) : app l <$> (app k <$> r) = app (l ++ k) <$> r.
Proof. destruct r; cbn; [by rewrite app_assoc|done]. Qed.
Lemma deliver_nil x : deliver [] x = x.
Proof. destruct x as [[? ?] ?]. cbn. by rewrite fmap_app_nil. Qed.
Lemma deliver_app l k x : deliver l (deliver k x) = deliver (l ++ k) x.
Proof. destruct x as [[? ?] ?]. cbn. by rewrite fmap_app_app. Qed.

(** A delivered item used up at least one byte. *)
Lemma run_step_progress buf s buf' s' i :
  bytes_ok buf -> run_step buf s = (buf', s', Ok (Some i)) ->
  bytes_ok buf' /\ (length buf' < length buf)%nat /\
  exists n, parse s buf = Ok (i, n) /\ buf' = drop_z n buf /\ apply i s = (s', true, None) /\ 0 < n <= len buf.
Proof using All.
  intros Hb. unfold run_step. destruct (parse s buf) as [[j n]|e] eqn:Ep; [|by case_decide].
  destruct (apply j s) as [[s1 b] [e|]] eqn:Ea; [done|]. pose proof (apply_consumes _ _ _ _ Ea) as ->.
  intros [= <- <- <-]. pose proof (parse_consumed _ _ _ _ Hb Ep) as Hn.
  split_and!; [auto with bytes| |by exists n].
  unfold drop_z. rewrite length_drop. unfold len in Hn. lia.
Qed.

(** One unit of fuel per byte is enough: more changes nothing. *)
Lemma run_loop_fuel f1 f2 buf s :
  bytes_ok buf -> (length buf <= f1)%nat -> (length buf <= f2)%nat ->
  run_loop f1 buf s = run_loop f2 buf s.
Proof using All.
  revert f2 buf s. induction f1 as [|f1 IH]; intros [|f2] buf s Hb H1 H2; try done; cbn [run_loop].
  1, 2: destruct buf as [|? ?]; cbn in H1, H2; [|lia]; unfold run_step; rewrite parse_nil;
    by rewrite decide_True.
  destruct (run_step buf s) as [[buf' s'] [[i|]|e]] eqn:Es; try done.
  apply run_step_progress in Es as (Hb' & Hl & _); [|done].
  by rewrite (IH f2 buf' s') by (done || lia).
Qed.

Lemma run_all_unfold buf s : bytes_ok buf ->
  run_all buf s =
  match run_step buf s with
  | (buf', s', Ok None) => (buf', s', Ok [])
  | (buf', s', Err e) => (buf', s', Err e)
  | (buf', s', Ok (Some i)) => deliver [i] (run_all buf' s')
  end.
Proof using All.
  intros Hb. unfold run_all. destruct (length buf) as [|f] eqn:El; cbn [run_loop].
  - destruct buf; [|done]. unfold run_step. rewrite parse_nil. by rewrite decide_True.
  - destruct (run_step buf s) as [[buf' s'] [[i|]|e]] eqn:Es; try done.
    apply run_step_progress in Es as (Hb' & Hl & _); [|done].
    rewrite (run_loop_fuel f (length buf') buf' s') by (done || lia). unfold deliver.
    destruct (run_loop (length buf') buf' s') as [[? ?] [|]]; done.
Qed.

(** The loop stops because the buffer holds no complete item, or at an error. *)
Lemma run_all_rest buf s buf' s' l :
  bytes_ok buf -> run_all buf s = (buf', s', Ok l) ->
  bytes_ok buf' /\ (exists used, buf = used ++ buf') /\ parse s' buf' = Err short.
Proof using All.
  remember (length buf) as k eqn:Ek. revert buf Ek s buf' s' l.
  induction (lt_wf k) as [k _ IH]; intros buf -> s buf' s' l Hb. rewrite run_all_unfold by done.
  destruct (run_step buf s) as [[b1 s1] [[i|]|e]] eqn:Es; [| |done].
  - apply run_step_progress in Es as (Hb1 & Hl & n & _ & Eb & _); [|done].
    destruct (run_all b1 s1) as [[b2 s2] [l2|]] eqn:Er; cbn [deliver]; [|done].
    intros [= <- <- <-]. destruct (IH _ Hl _ eq_refl _ _ _ _ Hb1 Er) as (? & [u Eu] & ?).
    split_and!; [done| |done]. exists (take_z n buf ++ u).
    by rewrite <- app_assoc, <- Eu, Eb, take_drop_z.
  - revert Es. unfold run_step. destruct (parse s buf) as [[j n]|e] eqn:Ep.
    + destruct (apply j s) as [[? ?] [?|]]; done.
    + case_decide as Hd; [|done]. subst. intros [= <- <-] [= <- <- <-].
      split_and!; [done|by exists []|done].
Qed.

(** A step does not look past the item it delivers. *)
Lemma run_step_app buf s tail :
  bytes_ok buf ->
  match run_step buf s with
  | (_, _, Ok None) => True
  | (buf', s', r) => run_step (buf ++ tail) s = (buf' ++ tail, s', r)
  end.
Proof using All.
  intros Hb. unfold run_step at 1. destruct (parse s buf) as [[i n]|e] eqn:Ep.
  - pose proof (parse_consumed _ _ _ _ Hb Ep) as Hn.
    assert (parse s (buf ++ tail) = Ok (i, n)) as Ep'
      by (rewrite parse_stable; [done..|by rewrite Ep]).
    destruct (apply i s) as [[s' b] err] eqn:Ea. unfold run_step.
    rewrite Ep', Ea. replace (if b then drop_z n (buf ++ tail) else buf ++ tail) with
      ((if b then drop_z n buf else buf) ++ tail) by (destruct b; [by rewrite drop_z_app_le by lia|done]).
    by destruct err.
  - case_decide as Hd; [done|]. unfold run_step. rewrite parse_stable, Ep by (done || congruence).
    by rewrite decide_False.
Qed.

(** What arrives later does not change what was delivered. *)
Lemma run_all_app a b s : bytes_ok a -> bytes_ok b ->
  run_all (a ++ b) s =
  match run_all a s with
  | (a', s', Ok l) => deliver l (run_all (a' ++ b) s')
  | (a', s', Err e) => (a' ++ b, s', Err e)
  end.
Proof using All.
  intros Ha Hb. remember (length a) as k eqn:Ek. revert a Ek s Ha.
  induction (lt_wf k) as [k _ IH]; intros a -> s Ha.
  assert (bytes_ok (a ++ b)) as Hab by (by apply bytes_ok_app).
  rewrite (run_all_unfold a) by done. pose proof (run_step_app a s b Ha) as Happ.
  destruct (run_step a s) as [[a1 s1] [[i|]|e]] eqn:Es.
  - rewrite run_all_unfold, Happ by done.
    apply run_step_progress in Es as (Ha1 & Hl & _); [|done].
    rewrite (IH _ Hl a1 eq_refl s1 Ha1). destruct (run_all a1 s1) as [[a2 s2] [l|e]]; [|done].
    cbn [deliver]. by rewrite deliver_app.
  - rewrite deliver_nil. revert Es. unfold run_step. destruct (parse s a) as [[j n]|e] eqn:Ep.
    + destruct (apply j s) as [[? ?] [?|]]; done.
    + case_decide; [|done]. by intros [= <- <-].
  - by rewrite run_all_unfold, Happ by done.
Qed.

(** Cutting the bytes into chunks changes nothing but where the loop is left. *)
Lemma feed_run_all chunks buf s :
  bytes_ok buf -> Forall (fun c => bytes_ok c) chunks -> parse s buf = Err short ->
  match run_all (buf ++ concat chunks) s with
  | (buf', s', Ok l) => feed chunks buf s = (buf', s', Ok l)
  | (_, s', Err e) => exists buf', feed chunks buf s = (buf', s', Err e)
  end.
Proof using All.
  intros Hb Hc. revert buf s Hb. induction Hc as [|c r Hc Hr IH]; intros buf s Hb Hp.
  - cbn. rewrite app_nil_r, run_all_unfold by done. unfold run_step.
    rewrite Hp. by rewrite decide_True.
  - cbn [feed concat]. assert (bytes_ok (concat r)) as Hcr by (by apply Forall_concat).
    assert (bytes_ok (buf ++ c)) as Hbc by (by apply bytes_ok_app).
    rewrite app_assoc, run_all_app by done.
    destruct (run_all (buf ++ c) s) as [[b1 s1] [l1|e1]] eqn:E1; [|by eexists].
    destruct (run_all_rest _ _ _ _ _ Hbc E1) as (Hb1 & _ & Hp1).
    specialize (IH b1 s1 Hb1 Hp1).
    destruct (run_all (b1 ++ concat r) s1) as [[b2 s2] [l2|e2]]; cbn [deliver fmap result_fmap].
    + by rewrite IH.
    + destruct IH as [b' ->]. by eexists.
Qed.

(** ** Reading back what the peer encoded *)
Context (enc : I -> bytes) (valid : S -> I -> Prop).
Context (parse_enc : forall s i rest, valid s i -> parse s (enc i ++ rest) = Ok (i, len (enc i))).
Context (enc_ok : forall s i, valid s i -> bytes_ok (enc i)).

(** The items take the state from [s] to [s'], each of them accepted. *)
Inductive accepted : list I -> S -> S -> Prop :=
| accepted_nil s : accepted [] s s
| accepted_cons i l s s1 s2 :
    valid s i -> apply i s = (s1, true, None) -> accepted l s1 s2 -> accepted (i :: l) s s2.

Lemma accepted_bytes_ok l s s' : accepted l s s' -> bytes_ok (concat (map enc l)).
Proof using enc_ok. induction 1; cbn [map concat]; [constructor|apply bytes_ok_app; eauto]. Qed.

Lemma run_all_encoded l s s' rest : bytes_ok rest -> accepted l s s' ->
  run_all (concat (map enc l) ++ rest) s = deliver l (run_all rest s').
Proof using All.
  intros Hrest. induction 1 as [s|i l s s1 s2 Hv Ha Hl IH]; [by rewrite deliver_nil|].
  cbn [map concat]. rewrite <- app_assoc. pose proof (accepted_bytes_ok _ _ _ Hl).
  rewrite run_all_unfold by (rewrite !bytes_ok_app; eauto).
  unfold run_step. rewrite parse_enc, Ha, drop_z_app_len, IH by done.
  by rewrite deliver_app.
Qed.

Lemma run_all_nil s : run_all [] s = ([], s, Ok []).
Proof using parse_nil. unfold run_all. cbn. unfold run_step. by rewrite parse_nil, decide_True. Qed.

(** Every chunking of the encoding of accepted items delivers exactly them, without error. *)
Lemma feed_encoded chunks l s s' :
  Forall (fun c => bytes_ok c) chunks -> accepted l s s' -> concat chunks = concat (map enc l) ->
  feed chunks [] s = ([], s', Ok l).
Proof using All.
  intros Hc Hl Hcat. pose proof (feed_run_all chunks [] s ltac:(constructor) Hc (parse_nil s)) as H.
  rewrite Hcat, app_nil_l, <- (app_nil_r (concat _)) in H.
  rewrite (run_all_encoded l s s' []), run_all_nil in H by (done || constructor).
  cbn in H. by rewrite app_nil_r in H.
Qed.
End reader.

(** ** Readers that keep some items to themselves

    A call of [process] may consume items its caller never sees (the type byte of a
    stream, a frame of unknown type): it goes on until it has something to deliver.
    [out] is what the caller gets for an item. *)
Section visible.
Context {S I E V : Type} `{!EqDecision E}.
Context (parse : S -> bytes -> result E (I * Z)) (short : E).
Context (apply : I -> S -> S * bool * option E) (out : I -> option V).

Fixpoint run_next (fuel : nat) (buf : bytes) (s : S) : bytes * S * result E (option V) :=
  match run_step parse short apply buf s with
  | (buf', s', Ok (Some i)) =>
    match out i with
    | Some v => (buf', s', Ok (Some v))
    | None => match fuel with O => (buf', s', Ok None) | Datatypes.S fuel' => run_next fuel' buf' s' end
    end
  | (buf', s', Ok None) => (buf', s', Ok None)
  | (buf', s', Err e) => (buf', s', Err e)
  end.

(** The caller's loop over [process]. *)
Fixpoint drain_loop (fuel : nat) (buf : bytes) (s : S) : bytes * S * result E (list V) :=
  match run_next (length buf) buf s with
  | (buf', s', Ok None) => (buf', s', Ok [])
  | (buf', s', Err e) => (buf', s', Err e)
  | (buf', s', Ok (Some v)) =>
    match fuel with
    | O => (buf', s', Ok [v])
    | Datatypes.S fuel' => deliver [v] (drain_loop fuel' buf' s')
    end
  end.
Definition drain_all (buf : bytes) (s : S) : bytes * S * result E (list V) :=
  drain_loop (length buf) buf s.

Fixpoint feed_visible (chunks : list bytes) (buf : bytes) (s : S) : bytes * S * result E (list V) :=
  match chunks with
  | [] => (buf, s, Ok [])
  | c :: r =>
    match drain_all (buf ++ c) s with
    | (buf', s', Ok l) => deliver l (feed_visible r buf' s')
    | (buf', s', Err e) => (buf', s', Err e)
    end
  end.

Definition visible_items (l : list I) : list V := omap out l.
Definition only_visible (x : bytes * S * result E (list I)) : bytes * S * result E (list V) :=
  let '(buf, s, r) := x in (buf, s, visible_items <$> r).

Context (parse_nil : forall s, parse s [] = Err short).
Context (parse_consumed : forall s bs i n, bytes_ok bs -> parse s bs = Ok (i, n) -> 0 < n <= len bs).
Context (parse_stable : forall s bs tail, bytes_ok bs -> parse s bs <> Err short ->
  parse s (bs ++ tail) = parse s bs).
Context (apply_consumes : forall i s s' b, apply i s = (s', b, None) -> b = true).

Lemma only_visible_deliver i x :
  only_visible (deliver [i] x) =
  match out i with Some v => deliver [v] (only_visible x) | None => only_visible x end.
Proof.
  destruct x as [[? ?] [l|]]; cbn; [|by destruct (out i)]. unfold visible_items. cbn. by destruct (out i).
Qed.

Lemma run_step_waits buf s buf' s' : bytes_ok buf ->
  run_step parse short apply buf s = (buf', s', Ok None) -> bytes_ok buf'.
Proof using.
  intros Hb. unfold run_step. destruct (parse s buf) as [[j n]|e].
  - by destruct (apply j s) as [[? ?] [?|]].
  - case_decide; [by intros [= <- _]|done].
Qed.

(** One call: the invisible items in front are passed over. *)
Lemma run_next_all fuel buf s : bytes_ok buf -> (length buf <= fuel)%nat ->
  match run_next fuel buf s with
  | (buf', s', Ok None) => bytes_ok buf' /\ only_visible (run_all parse short apply buf s) = (buf', s', Ok [])
  | (buf', s', Err e) => only_visible (run_all parse short apply buf s) = (buf', s', Err e)
  | (buf', s', Ok (Some v)) =>
    bytes_ok buf' /\ (length buf' < length buf)%nat /\
    only_visible (run_all parse short apply buf s) =
      deliver [v] (only_visible (run_all parse short apply buf' s'))
  end.
Proof using All.
  revert buf s. induction fuel as [|fuel IH]; intros buf s Hb Hl; cbn [run_next];
    rewrite run_all_unfold by done; destruct (run_step _ _ _ buf s) as [[b1 s1] [[i|]|e]] eqn:Es; try done.
  all: try (assert (bytes_ok b1) by (eapply run_step_waits; done); done).
  all: pose proof (run_step_progress _ _ _ parse_nil parse_consumed parse_stable apply_consumes _ _ _ _ _ Hb Es)
      as (Hb1 & Hlt & _).
  - lia.
  - rewrite only_visible_deliver. destruct (out i) as [v|] eqn:Ev; [by split_and!|].
    specialize (IH b1 s1 Hb1 ltac:(lia)).
    destruct (run_next fuel b1 s1) as [[b2 s2] [[j|]|e]]; [|done|done].
    destruct IH as (? & ? & ?). split_and!; [done|lia|done].
Qed.

Lemma drain_loop_all fuel buf s : bytes_ok buf -> (length buf <= fuel)%nat ->
  drain_loop fuel buf s = only_visible (run_all parse short apply buf s).
Proof using All.
  revert buf s. induction fuel as [|fuel IH]; intros buf s Hb Hl; cbn [drain_loop];
    pose proof (run_next_all (length buf) buf s Hb ltac:(lia)) as H;
    destruct (run_next _ buf s) as [[b1 s1] [[v|]|e]]; try done.
  - destruct H as (_ & Hlt & _). lia.
  - by destruct H as [_ ->].
  - destruct H as (Hb1 & Hlt & ->). by rewrite IH by (done || lia).
  - by destruct H as [_ ->].
Qed.

Lemma drain_all_run_all buf s : bytes_ok buf ->
  drain_all buf s = only_visible (run_all parse short apply buf s).
Proof using All. intros. by apply drain_loop_all. Qed.

Lemma feed_visible_feed chunks buf s : bytes_ok buf -> Forall (fun c => bytes_ok c) chunks ->
  feed_visible chunks buf s = only_visible (feed parse short apply chunks buf s).
Proof using All.
  intros Hb Hc. revert buf s Hb. induction Hc as [|c r Hc _ IH]; intros buf s Hb; [done|].
  cbn [feed_visible feed]. assert (bytes_ok (buf ++ c)) as Hbc by (by apply bytes_ok_app).
  rewrite drain_all_run_all by done.
  destruct (run_all _ _ _ (buf ++ c) s) as [[b1 s1] [l|e]] eqn:Er; [|done]. cbn [only_visible fmap result_fmap].
  apply run_all_rest in Er as (Hb1 & _ & _); [|done..].
  rewrite IH by done. destruct (feed _ _ _ r b1 s1) as [[b2 s2] [k|e]]; cbn; [|done]. unfold visible_items. by rewrite omap_app.
Qed.

(** ** Objects that implement such a reader

    [process] and [receive] are methods of an object [C]; the outer [None] is a panic.
    [rep c buf s] relates the object to the reader's buffer and state. *)
Context {C F : Type} (process : C -> option (C * result F (option V))) (receive : C -> bytes -> C).
Context (pending : C -> bytes) (lift : F -> E).

Fixpoint process_all_loop (fuel : nat) (c : C) : option (C * result F (list V)) :=
  '(c', r) ← process c;
  match r with
  | Err e => Some (c', Err e)
  | Ok None => Some (c', Ok [])
  | Ok (Some v) =>
    match fuel with
    | O => Some (c', Ok [v])
    | Datatypes.S fuel' => '(c'', r) ← process_all_loop fuel' c'; Some (c'', fmap (M := result F) (cons v) r)
    end
  end.
(** The caller's loop after each chunk, as long as there is no error. *)
Fixpoint receive_chunks (chunks : list bytes) (c : C) : option (C * result F (list V)) :=
  match chunks with
  | [] => Some (c, Ok [])
  | data :: chunks =>
    let c := receive c data in
    '(c', r) ← process_all_loop (length (pending c)) c;
    match r with
    | Err e => Some (c', Err e)
    | Ok l => '(c'', r) ← receive_chunks chunks c'; Some (c'', fmap (M := result F) (app l) r)
    end
  end.

Context (rep : C -> bytes -> S -> Prop).
Context (rep_pending : forall c buf s, rep c buf s -> pending c = buf).
Context (rep_receive : forall c buf s data, rep c buf s -> bytes_ok data -> rep (receive c data) (buf ++ data) s).
Context (rep_process : forall c buf s, rep c buf s -> bytes_ok buf ->
  exists c' buf' s' r, process c = Some (c', r) /\
    run_next (length buf) buf s = (buf', s', map_err lift r) /\ rep c' buf' s').

Lemma process_all_loop_drain fuel c buf s : rep c buf s -> bytes_ok buf ->
  exists c' buf' s' r, process_all_loop fuel c = Some (c', r) /\
    drain_loop fuel buf s = (buf', s', map_err lift r) /\ rep c' buf' s'.
Proof using All.
  revert c buf s. induction fuel as [|fuel IH]; intros c buf s Hr Hb; cbn [process_all_loop drain_loop];
    destruct (rep_process c buf s Hr Hb) as (c1 & b1 & s1 & r1 & -> & En & Hr1);
    pose proof (run_next_all (length buf) buf s Hb ltac:(lia)) as Hn; rewrite En in Hn |- *;
    cbn [mbind option_bind]; destruct r1 as [[v|]|e]; cbn [map_err] in *;
    try (eexists _, _, _, _; by split_and!).
  destruct Hn as (Hb1 & _). destruct (IH c1 b1 s1 Hr1 Hb1) as (c2 & b2 & s2 & r2 & -> & -> & Hr2).
  cbn [mbind option_bind]. eexists _, _, _, _. split_and!; [done| |done]. cbn. by destruct r2.
Qed.

Lemma receive_chunks_feed chunks c buf s : rep c buf s -> bytes_ok buf -> Forall (fun d => bytes_ok d) chunks ->
  exists c' buf' s' r, receive_chunks chunks c = Some (c', r) /\
    feed_visible chunks buf s = (buf', s', map_err lift r) /\ rep c' buf' s'.
Proof using All.
  intros Hr Hb Hc. revert c buf s Hr Hb. induction Hc as [|d chunks Hd _ IH]; intros c buf s Hr Hb;
    cbn [receive_chunks feed_visible]; [by eexists _, _, _, (Ok [])|].
  assert (bytes_ok (buf ++ d)) as Hbd by (by apply bytes_ok_app).
  pose proof (rep_receive _ _ _ d Hr Hd) as Hr'. rewrite (rep_pending _ _ _ Hr').
  destruct (process_all_loop_drain (length (buf ++ d)) _ _ _ Hr' Hbd) as (c1 & b1 & s1 & r1 & -> & Ed & Hr1).
  unfold drain_all. rewrite Ed. cbn [mbind option_bind]. destruct r1 as [l|e]; cbn [map_err].
  2: { eexists _, _, _, _. by split_and!. }
  rewrite drain_loop_all in Ed by done.
  destruct (run_all _ _ _ (buf ++ d) s) as [[b2 s2] [k|]] eqn:Er; [|done]. injection Ed as -> -> _.
  apply run_all_rest in Er as (Hb1 & _ & _); [|done..].
  destruct (IH c1 b1 s1 Hr1 Hb1) as (c3 & b3 & s3 & r3 & -> & -> & Hr3). cbn [mbind option_bind].
  eexists _, _, _, _. split_and!; [done| |done]. cbn. by destruct r3.
Qed.
End visible.
