(* ===== verification/Varint.v ===== *)
(** QUIC variable-length integers: src/varint.rs (RFC 9000 Section 16).

    A [VarInt] is the integer it wraps; [varint_ok] is the range its
    constructors guarantee. *)

From S2P Require Import Prelude Codec.

Definition VARINT_MAX : Z := 2 ^ 62 - 1.
Definition varint_ok (v : Z) : Prop := 0 <= v <= VARINT_MAX.

Inductive VarIntError := OutOfRange (value : Z).
Inductive DecodeError := DecodeBufferTooShort.
Inductive EncodeError := EncodeBufferTooShort.

(** [VarInt::new]. *)
Definition varint_new (value : Z) : result VarIntError Z :=
  if VARINT_MAX <? value then Err (OutOfRange value) else Ok value.

(** [VarInt::encoded_len]. *)
Definition encoded_len (v : Z) : Z :=
  if v <? 64 then 1
  else if v <? 16384 then 2
  else if v <? 1073741824 then 4
  else 8.

(** [encode]: the bytes stored in each arm, then the checked write. *)
Definition encode_raw (v : Z) : bytes :=
  let n := encoded_len v in
  if n =? 1 then [u8_of v]
  else if n =? 2 then to_be_bytes 2 (Z.lor (u16_of v) 0x4000)
  else if n =? 4 then to_be_bytes 4 (Z.lor (u32_of v) 0x80000000)
  else to_be_bytes 8 (Z.lor v 0xc000000000000000).

Definition encode (buf : bytes) (v : Z) : bytes * result EncodeError Z :=
  let n := encoded_len v in
  if len buf <? n then (buf, Err EncodeBufferTooShort)
  else (write_at 0 (encode_raw v) buf, Ok n).

(** [encode_into_vec]: [resize] by [encoded_len] zero bytes, then [encode] there. *)
Definition encode_into_vec (buf : bytes) (v : Z) : bytes :=
  let start := len buf in
  let grown := buf ++ replicate (Z.to_nat (encoded_len v)) 0 in
  let '(tail, _) := encode (drop_z start grown) v in
  take_z start grown ++ tail.

(** [decode]. *)
Definition decode (buf : bytes) : result DecodeError (Z * Z) :=
  match buf with
  | [] => Err DecodeBufferTooShort
  | b0 :: _ =>
    let prefix := Z.shiftr b0 6 in
    let n := Z.shiftl 1 prefix in
    if len buf <? n then Err DecodeBufferTooShort
    else
      let value :=
        if n =? 1 then Z.land b0 0x3f
        else if n =? 2 then Z.land (from_be_bytes (take_z 2 buf)) 0x3fff
        else if n =? 4 then Z.land (from_be_bytes (take_z 4 buf)) 0x3fffffff
        else Z.land (from_be_bytes (take_z 8 buf)) 0x3fffffffffffffff in
      Ok (value, n)
  end.

(** [peek_len]. *)
Definition peek_len (buf : bytes) : option Z :=
  match buf with [] => None | b :: _ => Some (Z.shiftl 1 (Z.shiftr b 6)) end.

Definition varint_writer (v : Z) : writer := fun buf =>
  let '(b, r) := encode buf v in (b, ok r).

(** ** The wire format as arithmetic *)

(** Length class and 2-bit prefix of a value. *)
Definition varint_class (v : Z) : Z :=
  if v <? 64 then 0 else if v <? 16384 then 1 else if v <? 1073741824 then 2 else 3.

Lemma encoded_len_class v : encoded_len v = 2 ^ varint_class v.
Proof. unfold encoded_len, varint_class. by repeat case_z. Qed.

(** Every arm of [encode] stores [prefix << (8n - 2) | v] big-endian in n bytes. *)
Lemma encode_raw_spec v :
  varint_ok v ->
  encode_raw v = to_be_bytes (Z.to_nat (encoded_len v))
                   (v + varint_class v * 2 ^ (8 * encoded_len v - 2)).
Proof.
  unfold varint_ok, VARINT_MAX, encode_raw, encoded_len, varint_class. intros Hv.
  repeat case_z; try lia; cbn [Z.eqb Pos.eqb].
  - change (Z.to_nat 1) with 1%nat. cbn [to_be_bytes]. f_equal. f_equal.
    rewrite Z.mul_0_l, Z.add_0_r. symmetry. apply Z.div_1_r.
  - change (Z.to_nat 2) with 2%nat. f_equal. unfold u16_of. rewrite Z.mod_small by lia.
    apply (lor_disjoint v 1 14); lia.
  - change (Z.to_nat 4) with 4%nat. f_equal. unfold u32_of. rewrite Z.mod_small by lia.
    apply (lor_disjoint v 2 30); lia.
  - change (Z.to_nat 8) with 8%nat. f_equal. apply (lor_disjoint v 3 62); lia.
Qed.

(** [decode] reads the same format. *)
Lemma decode_spec b0 r :
  is_byte b0 ->
  let n := 2 ^ (b0 / 64) in
  decode (b0 :: r) =
    if len (b0 :: r) <? n then Err DecodeBufferTooShort
    else Ok (from_be_bytes (take_z n (b0 :: r)) mod 2 ^ (8 * n - 2), n).
Proof.
  intros Hb n. unfold decode. rewrite Z.shiftr_div_pow2, Z.shiftl_mul_pow2, Z.mul_1_l;
    [|apply Z.div_pos; unfold is_byte in Hb; lia|lia].
  change (2 ^ 6) with 64. fold n. case_z; [done|]. repeat f_equal.
  assert (b0 / 64 = 0 \/ b0 / 64 = 1 \/ b0 / 64 = 2 \/ b0 / 64 = 3) as Hc.
  { unfold is_byte in Hb. pose proof (Z.div_pos b0 64). pose proof (Z.div_lt_upper_bound b0 64 4). lia. }
  subst n. destruct Hc as [-> | [-> | [-> | ->]]].
  - change 63 with (2 ^ 6 - 1). rewrite land_ones_mod by lia.
    change (2 ^ 0) with 1. cbn [Z.eqb Pos.eqb].
    change (from_be_bytes (take_z 1 (b0 :: r))) with (b0 * 1 + 0).
    by rewrite Z.add_0_r, Z.mul_1_r.
  - apply (land_ones_mod _ 14); lia.
  - apply (land_ones_mod _ 30); lia.
  - apply (land_ones_mod _ 62); lia.
Qed.

Lemma encoded_len_cases v : encoded_len v ∈ [1; 2; 4; 8].
Proof. unfold encoded_len. repeat case_z; set_solver. Qed.

Lemma encoded_len_pos v : 0 < encoded_len v <= 8.
Proof. unfold encoded_len. repeat case_z; lia. Qed.

Lemma len_encode_raw v : varint_ok v -> len (encode_raw v) = encoded_len v.
Proof.
  intros Hv. rewrite encode_raw_spec by done. rewrite len_to_be_bytes.
  pose proof (encoded_len_pos v). lia.
Qed.

Lemma encode_raw_ok v : bytes_ok (encode_raw v).
Proof. unfold encode_raw. repeat case_z; auto with bytes. Qed.
#[export] Hint Resolve encode_raw_ok : bytes.

Lemma varint_class_range v : 0 <= varint_class v <= 3.
Proof. unfold varint_class. repeat case_z; lia. Qed.

(** The value fits below the prefix. *)
Lemma varint_value_range v : varint_ok v -> 0 <= v < 2 ^ (8 * encoded_len v - 2).
Proof.
  unfold varint_ok, VARINT_MAX, encoded_len. intros. repeat case_z; lia.
Qed.

(** The first byte carries the length class in its two top bits. *)
Lemma encode_raw_head v :
  varint_ok v -> exists b r, encode_raw v = b :: r /\ is_byte b /\ b / 64 = varint_class v.
Proof.
  intros Hv. pose proof (varint_value_range v Hv) as Hr. pose proof (varint_class_range v) as Hc.
  rewrite encode_raw_spec by done. pose proof (encoded_len_pos v) as Hl.
  set (n := encoded_len v) in *. destruct (Z.to_nat n) as [|m] eqn:En; [lia|].
  cbn [to_be_bytes]. eexists _, _; split; [done|]; split; [auto with bytes|].
  unfold u8_of. set (c := varint_class v) in *.
  replace (8 * n - 2) with (6 + 8 * Z.of_nat m) in * by lia.
  rewrite Z.pow_add_r, Z.mul_assoc in * by lia.
  rewrite Z.div_add by lia. change (2 ^ 6) with 64 in *. change (2 ^ 8) with 256.
  assert (0 <= v / 2 ^ (8 * Z.of_nat m) < 64).
  { split; [apply Z.div_pos; lia|]. apply Z.div_lt_upper_bound; lia. }
  rewrite Z.mod_small by lia. rewrite Z.div_add, Z.div_small by lia. lia.
Qed.

(** Decoding what [encode] wrote, whatever follows it. *)
Lemma decode_encode_raw v rest :
  varint_ok v -> decode (encode_raw v ++ rest) = Ok (v, encoded_len v).
Proof.
  intros Hv. pose proof (len_encode_raw v Hv) as Hl.
  destruct (encode_raw_head v Hv) as (b & r & E & Hb & Hc).
  rewrite E in *. cbn [app]. rewrite decode_spec by done. cbn zeta.
  rewrite Hc, <- encoded_len_class, app_comm_cons, len_app, Hl.
  pose proof (len_nonneg rest). solve_cmp. rewrite take_z_app_eq by done.
  rewrite <- E, encode_raw_spec, from_to_be_bytes by done.
  pose proof (encoded_len_pos v). rewrite Z2Nat.id by lia.
  pose proof (varint_value_range v Hv). pose proof (varint_class_range v).
  replace (8 * encoded_len v) with (8 * encoded_len v - 2 + 2) at 2 by lia.
  rewrite (Z.mod_small _ (2 ^ (_ + 2))) by (rewrite Z.pow_add_r by lia; nia).
  rewrite Z.mod_add, Z.mod_small by lia. done.
Qed.

(** [decode] looks at no byte past the ones it consumes. *)
Lemma decode_inv bs v n :
  bytes_ok bs -> decode bs = Ok (v, n) ->
  varint_ok v /\ 0 < n <= len bs /\ peek_len bs = Some n /\ n ∈ [1; 2; 4; 8] /\
  encoded_len v <= n /\ forall tail, decode (bs ++ tail) = Ok (v, n).
Proof.
  intros Hok. destruct bs as [|b r]; [done|]. inversion_clear Hok as [|?? Hb Hr].
  rewrite decode_spec by done. cbn zeta.
  assert (b / 64 = 0 \/ b / 64 = 1 \/ b / 64 = 2 \/ b / 64 = 3) as Hcase.
  { unfold is_byte in Hb. pose proof (Z.div_pos b 64). pose proof (Z.div_lt_upper_bound b 64 4). lia. }
  case_z; [done|]. intros [= <- <-].
  set (x := from_be_bytes _).
  assert (0 <= x mod 2 ^ (8 * 2 ^ (b / 64) - 2) < 2 ^ (8 * 2 ^ (b / 64) - 2)) as Hm.
  { apply Z.mod_pos_bound. apply Z.pow_pos_nonneg; [lia|].
    destruct Hcase as [-> | [-> | [-> | ->]]]; lia. }
  split_and!; try done.
  - unfold varint_ok, VARINT_MAX. destruct Hcase as [E | [E | [E | E]]]; rewrite E in *; lia.
  - apply Z.pow_pos_nonneg; [lia|]. apply Z.div_pos; unfold is_byte in Hb; lia.
  - cbn. rewrite Z.shiftr_div_pow2, Z.shiftl_mul_pow2, Z.mul_1_l; [done| |lia].
    apply Z.div_pos; unfold is_byte in Hb; lia.
  - destruct Hcase as [-> | [-> | [-> | ->]]]; set_solver.
  - unfold encoded_len. repeat case_z; destruct Hcase as [E | [E | [E | E]]];
      rewrite E in *; cbn in Hm |- *; lia.
  - intros tail. cbn [app]. rewrite decode_spec by done. cbn zeta.
    rewrite app_comm_cons, len_app. pose proof (len_nonneg tail). solve_cmp.
    rewrite take_z_app_le by lia. done.
Qed.

#[export] Instance varint_prefix_code :
  PrefixCode encode_raw decode varint_ok DecodeBufferTooShort.
Proof.
  split.
  - intros. rewrite decode_encode_raw, len_encode_raw by done. done.
  - intros bs a n ? H. eapply decode_inv in H; naive_solver.
  - intros bs tail Hok H. destruct (decode bs) as [[v n]|[]] eqn:E; [|done].
    eapply decode_inv in E; naive_solver.
Qed.

#[export] Instance writes_varint v : varint_ok v -> Writes (varint_writer v) (encode_raw v).
Proof.
  intros Hv. pose proof (len_encode_raw v Hv) as Hl.
  split; intros buf Hb; unfold varint_writer, encode; rewrite Hl in Hb.
  - solve_cmp. cbn. unfold write_at. by rewrite Z.add_0_l, Hl.
  - solve_cmp. by exists buf.
Qed.

Lemma encode_into_vec_app buf v :
  varint_ok v -> encode_into_vec buf v = buf ++ encode_raw v.
Proof.
  intros Hv. unfold encode_into_vec. rewrite drop_z_app_len, take_z_app_len.
  pose proof (encoded_len_pos v). pose proof (len_encode_raw v Hv) as Hl.
  unfold encode. rewrite len_replicate, Z2Nat.id by lia. solve_cmp.
  unfold write_at. rewrite Hl, Z.add_0_l. cbn [take_z take Z.to_nat app].
  rewrite drop_z_all by (rewrite len_replicate; lia). by rewrite app_nil_r.
Qed.

(** ** Properties *)

(** Variable-length integers (RFC 9000 Section 16): [encode] writes [encoded_len]
    bytes at the start of the buffer, or nothing at all if they do not fit; decoding
    them, whatever follows, gives the value back, and [peek_len] announces their
    number; no byte string that decodes to the value is shorter. *)
Theorem varint_codec v buf tail : varint_ok v ->
  (len buf < encoded_len v -> encode buf v = (buf, Err EncodeBufferTooShort)) /\
  (encoded_len v <= len buf -> exists bs, encode buf v = (bs ++ drop_z (encoded_len v) buf, Ok (encoded_len v)) /\
    len bs = encoded_len v /\ decode (bs ++ tail) = Ok (v, encoded_len v) /\ peek_len (bs ++ tail) = Some (encoded_len v)) /\
  (forall bs n, bytes_ok bs -> decode bs = Ok (v, n) -> encoded_len v <= n /\ n ∈ [1; 2; 4; 8]).
Proof.
  intros Hv. pose proof (len_encode_raw v Hv) as Hl. split_and!.
  - intros Hb. unfold encode. by solve_cmp.
  - intros Hb. exists (encode_raw v). split_and!; [|done|by apply decode_encode_raw|].
    + unfold encode, write_at. solve_cmp. by rewrite Z.add_0_l, Hl.
    + pose proof (decode_encode_raw v [] Hv) as Hd. rewrite app_nil_r in Hd.
      apply decode_inv in Hd as (_ & _ & Hp & _); [|apply encode_raw_ok].
      destruct (encode_raw_head v Hv) as (b & r & E & _). by rewrite E in *.
  - intros bs n Hb (_ & _ & _ & ? & ? & _)%decode_inv; done.
Qed.

Lemma varint_codec_witness :
  decode ([0x7b; 0xbd] ++ [1]) = Ok (15293, 2) /\ encode [0] 15293 = ([0], Err EncodeBufferTooShort).
Proof.
  destruct (varint_codec 15293 [0; 0; 0] [1]) as (_ & H & _); [split; vm_compute; discriminate|].
  destruct (varint_codec 15293 [0] [1]) as (Hs & _ & _); [split; vm_compute; discriminate|].
  destruct H as (bs & E & _ & Hd & _); [vm_compute; discriminate|]. split; [|apply Hs; reflexivity].
  vm_compute in E. destruct bs as [|a [|b [|c [|d r]]]]; try discriminate E. injection E as <- <-. exact Hd.
Defined.
