(* ===== verification/Integer.v ===== *)
(** Prefix integers: src/qpack/integer.rs (RFC 7541 Section 5.1, as used by
    RFC 9204 Section 4.1.1), and the size estimate of src/qpack/encoder.rs. *)

From S2P Require Import Prelude Codec Varint.

(** [QpackError] of src/error.rs. *)
Inductive QpackError :=
| BufferTooShort
| InvalidIndex (idx : Z)
| InvalidHuffman
| DecodeFailed
| DynamicTableDisabled
| CapacityExceeded.

#[export] Instance QpackError_eq_dec : EqDecision QpackError.
Proof. solve_decision. Defined.

(** [buf[i] = b] with [i] in range. *)
Definition set_at (buf : bytes) (i b : Z) : bytes := <[Z.to_nat i := b]> buf.

(** A 64-bit [remaining] is below 128 after nine shifts by 7; the tenth unit of
    fuel is never reached ([cont_bytes_fuel]). *)
Definition cont_fuel : nat := 10.

(** The [while remaining >= 128] loop of [encode_integer] and the byte after it. *)
Fixpoint encode_cont (fuel : nat) (buf : bytes) (offset remaining : Z) : bytes * option Z :=
  match fuel with
  | S fuel' =>
    if 128 <=? remaining then
      if len buf <=? offset then (buf, None)
      else encode_cont fuel' (set_at buf offset (Z.lor 0x80 (u8_of (Z.land remaining 0x7f))))
             (offset + 1) (Z.shiftr remaining 7)
    else if len buf <=? offset then (buf, None)
    else (set_at buf offset (u8_of remaining), Some (offset + 1))
  | O =>
    if len buf <=? offset then (buf, None)
    else (set_at buf offset (u8_of remaining), Some (offset + 1))
  end.

(** [encode_integer]. *)
Definition encode_integer (value prefix_bits prefix : Z) : writer := fun buf =>
  if (prefix_bits =? 0) || (8 <? prefix_bits) then (buf, None)
  else
    let max_prefix := Z.shiftl 1 prefix_bits - 1 in
    if value <? max_prefix then
      if len buf =? 0 then (buf, None)
      else (set_at buf 0 (Z.lor prefix (u8_of value)), Some 1)
    else if len buf =? 0 then (buf, None)
    else encode_cont cont_fuel (set_at buf 0 (Z.lor prefix (u8_of max_prefix)))
           1 (value - max_prefix).

(** The same loop in [encode_integer_to_vec], as the bytes it pushes. *)
Fixpoint cont_bytes (fuel : nat) (remaining : Z) : bytes :=
  match fuel with
  | S fuel' =>
    if 128 <=? remaining then
      Z.lor 0x80 (u8_of (Z.land remaining 0x7f)) :: cont_bytes fuel' (Z.shiftr remaining 7)
    else [u8_of remaining]
  | O => [u8_of remaining]
  end.

(** [encode_integer_to_vec]. *)
Definition encode_integer_to_vec (buf : bytes) (value prefix_bits prefix : Z) : bytes :=
  if (prefix_bits =? 0) || (8 <? prefix_bits) then buf
  else
    let max_prefix := Z.shiftl 1 prefix_bits - 1 in
    if value <? max_prefix then buf ++ [Z.lor prefix (u8_of value)]
    else (buf ++ [Z.lor prefix (u8_of max_prefix)]) ++ cont_bytes cont_fuel (value - max_prefix).

(** The [loop] of [decode_integer] over the bytes after the first; [value] is a
    [u64], so the shift and the addition are taken modulo 2^64. *)
Fixpoint decode_cont (rest : bytes) (value shift offset : Z) : result QpackError (Z * Z) :=
  match rest with
  | [] => Err BufferTooShort
  | byte :: rest' =>
    let value := u64_of (value + u64_of (Z.shiftl (Z.land byte 0x7f) shift)) in
    let offset := offset + 1 in
    if Z.land byte 0x80 =? 0 then Ok (value, offset)
    else
      let shift := shift + 7 in
      if 56 <? shift then Err DecodeFailed else decode_cont rest' value shift offset
  end.

(** [decode_integer]. *)
Definition decode_integer (data : bytes) (prefix_bits : Z) : result QpackError (Z * Z) :=
  match data with
  | [] => Err BufferTooShort
  | b0 :: rest =>
    if (prefix_bits =? 0) || (8 <? prefix_bits) then Err DecodeFailed
    else
      let mask := u8_of (Z.shiftl 1 prefix_bits - 1) in
      let prefix_value := Z.land b0 mask in
      if prefix_value <? mask then Ok (prefix_value, 1)
      else
        '(value, offset) ← decode_cont rest prefix_value 0 1;
        if VARINT_MAX <? value then Err DecodeFailed else Ok (value, offset)
  end.

(** [encoded_integer_len] of encoder.rs. *)
Fixpoint cont_len (fuel : nat) (remaining l : Z) : Z :=
  match fuel with
  | S fuel' => if 128 <=? remaining then cont_len fuel' (Z.shiftr remaining 7) (l + 1) else l + 1
  | O => l + 1
  end.
Definition encoded_integer_len (value prefix_bits : Z) : Z :=
  let max_prefix := Z.shiftl 1 prefix_bits - 1 in
  if value <? max_prefix then 1 else cont_len cont_fuel (value - max_prefix) 1.

Example encode_integer_rfc : encode_integer_to_vec [] 1337 5 0 = [31; 154; 10].
Proof. reflexivity. Qed.
Example decode_integer_rfc : decode_integer [31; 154; 10; 7] 5 = Ok (1337, 3).
Proof. reflexivity. Qed.

(** ** Bytes of the encoding *)

(** The flag bits of the first byte leave room for the prefix integer. *)
Definition prefix_ok (prefix_bits prefix : Z) : Prop :=
  1 <= prefix_bits <= 8 /\ is_byte prefix /\ prefix mod 2 ^ prefix_bits = 0.

#[export] Instance prefix_ok_dec pb p : Decision (prefix_ok pb p).
Proof. unfold prefix_ok. apply _. Defined.

Definition integer_bytes (value prefix_bits prefix : Z) : bytes :=
  encode_integer_to_vec [] value prefix_bits prefix.

Lemma encode_integer_to_vec_app buf value pb prefix :
  encode_integer_to_vec buf value pb prefix = buf ++ integer_bytes value pb prefix.
Proof.
  unfold integer_bytes, encode_integer_to_vec. case_match; [by rewrite app_nil_r|].
  case_match; [done|]. by rewrite <- app_assoc.
Qed.

Lemma prefix_bits_range pb prefix : prefix_ok pb prefix ->
  (pb =? 0) || (8 <? pb) = false /\ 2 <= 2 ^ pb <= 256 /\ Z.shiftl 1 pb - 1 = 2 ^ pb - 1.
Proof.
  intros (Hpb & _). split_and!.
  - by solve_cmp.
  - apply (Z.pow_le_mono_r 2 1); lia.
  - change 256 with (2 ^ 8). apply Z.pow_le_mono_r; lia.
  - rewrite Z.shiftl_mul_pow2 by lia. lia.
Qed.

(** Flag bits and integer bits do not overlap. *)
Lemma prefix_lor pb prefix x :
  prefix_ok pb prefix -> 0 <= x < 2 ^ pb ->
  Z.lor prefix x = prefix + x /\ is_byte (prefix + x) /\
  Z.land (prefix + x) (u8_of (Z.shiftl 1 pb - 1)) = x.
Proof.
  intros Hp Hx. destruct (prefix_bits_range pb prefix Hp) as (_ & Hr & Hm).
  destruct Hp as (Hpb & Hb & Hmod).
  apply Z.mod_divide in Hmod as [q ->]; [|lia]. rewrite Hm.
  assert (0 <= q * 2 ^ pb + x < 256) as Hbyte.
  { assert (256 = 2 ^ (8 - pb) * 2 ^ pb) as H8 by (rewrite <- Z.pow_add_r by lia; by replace (8 - pb + pb) with 8 by lia).
    unfold is_byte in Hb. assert (0 <= q < 2 ^ (8 - pb)) by nia. nia. }
  split_and!.
  - rewrite Z.lor_comm, lor_disjoint by lia. lia.
  - unfold is_byte; lia.
  - unfold u8_of. rewrite (Z.mod_small (2 ^ pb - 1)) by lia.
    rewrite land_ones_mod, Z.add_comm, Z.mod_add, Z.mod_small by lia. done.
Qed.

(** The first byte of an encoding: the flag bits and the saturated value. *)
Lemma integer_bytes_head value pb prefix :
  prefix_ok pb prefix -> 0 <= value ->
  exists r, integer_bytes value pb prefix = (prefix + Z.min value (2 ^ pb - 1)) :: r.
Proof.
  intros Hp Hv. destruct (prefix_bits_range _ _ Hp) as (E & Hr & Hm).
  unfold integer_bytes, encode_integer_to_vec. rewrite E, Hm. case_z.
  - exists []. unfold u8_of. rewrite Z.mod_small, (proj1 (prefix_lor pb prefix value Hp ltac:(lia))) by lia.
    by rewrite Z.min_l by lia.
  - eexists. cbn [app]. unfold u8_of. rewrite Z.mod_small by lia.
    rewrite (proj1 (prefix_lor pb prefix (2 ^ pb - 1) Hp ltac:(lia))).
    by rewrite Z.min_r by lia.
Qed.

Lemma cont_byte_more r : 0 <= r -> let b := Z.lor 0x80 (u8_of (Z.land r 0x7f)) in
  is_byte b /\ Z.land b 0x7f = r mod 128 /\ (Z.land b 0x80 =? 0) = false.
Proof.
  intros Hr. cbn zeta. change 0x7f with (2 ^ 7 - 1). rewrite !land_ones_mod by lia.
  pose proof (Z.mod_pos_bound r (2 ^ 7) ltac:(lia)) as Hm. unfold u8_of. rewrite (Z.mod_small (r mod _)) by lia.
  assert (Z.lor 0x80 (r mod 2 ^ 7) = r mod 2 ^ 7 + 1 * 2 ^ 7) as ->
    by (rewrite Z.lor_comm; apply (lor_disjoint _ 1 7); lia).
  split_and!.
  - unfold is_byte; lia.
  - rewrite Z.mod_add, Z.mod_mod by lia. done.
  - change 0x80 with (2 ^ 7). rewrite land_pow2_eqb by lia.
    replace (Z.testbit _ 7) with true; [done|]. symmetry. apply Z.testbit_true; [lia|].
    rewrite Z.div_add, Z.div_small by lia. done.
Qed.

Lemma cont_byte_last r : 0 <= r < 128 ->
  Z.land (u8_of r) 0x7f = r /\ (Z.land (u8_of r) 0x80 =? 0) = true.
Proof.
  intros Hr. unfold u8_of. rewrite Z.mod_small by lia. split.
  - change 0x7f with (2 ^ 7 - 1). rewrite land_ones_mod, Z.mod_small by lia. done.
  - change 0x80 with (2 ^ 7). rewrite land_pow2_eqb by lia.
    replace (Z.testbit _ 7) with false; [done|]. symmetry. apply Z.testbit_false; [lia|].
    by rewrite Z.div_small by lia.
Qed.

Lemma shiftr7_bound r k : 0 <= k -> 0 <= r < 2 ^ (k + 7) -> 0 <= Z.shiftr r 7 < 2 ^ k.
Proof.
  intros Hk Hr. rewrite Z.shiftr_div_pow2 by lia. split; [apply Z.div_pos; lia|].
  apply Z.div_lt_upper_bound; [lia|]. rewrite Z.pow_add_r in Hr by lia. lia.
Qed.

(** The fuel never runs out: the loop equation of the source holds on [u64]. *)
Lemma cont_bytes_fuel n m r :
  (9 <= n)%nat -> (9 <= m)%nat -> 0 <= r < 2 ^ 64 -> cont_bytes n r = cont_bytes m r.
Proof.
  intros Hn Hm Hr.
  assert (forall j n m r, (j <= n)%nat -> (j <= m)%nat -> 0 <= r < 2 ^ (7 * Z.of_nat j + 7) ->
    cont_bytes n r = cont_bytes m r) as H.
  { clear. induction j as [|j IH]; intros n m r Hn Hm Hr.
    - destruct n, m; cbn [cont_bytes]; try done; by solve_cmp.
    - destruct n as [|n], m as [|m]; try lia. cbn [cont_bytes].
      case_z; [|done]. f_equal. apply IH; [lia..|].
      apply shiftr7_bound; [lia|]. by replace (_ + 7) with (7 * Z.of_nat (S j) + 7) by lia. }
  apply (H 9%nat); lia.
Qed.

(** ** Decoding *)

Lemma decode_cont_bytes fuel r value k offset rest :
  0 <= k <= 8 -> (8 - Z.to_nat k <= fuel)%nat -> 0 <= r < 2 ^ (63 - 7 * k) ->
  0 <= value -> value + r * 2 ^ (7 * k) < 2 ^ 64 ->
  decode_cont (cont_bytes fuel r ++ rest) value (7 * k) offset =
    Ok (value + r * 2 ^ (7 * k), offset + len (cont_bytes fuel r)).
Proof.
  revert r value k offset. induction fuel as [|fuel IH]; intros r value k offset Hk Hf Hr Hv Hs.
  all: assert (0 < 2 ^ (7 * k)) as Hp by (apply Z.pow_pos_nonneg; lia).
  all: cbn [cont_bytes].
  - replace k with 8 in * by lia. change (63 - 7 * 8) with 7 in Hr.
    cbn [app decode_cont]. destruct (cont_byte_last r) as [-> ->]; [lia|].
    unfold u64_of. rewrite Z.shiftl_mul_pow2 by lia.
    rewrite (Z.mod_small (_ * _)) by lia. rewrite Z.mod_small by lia. done.
  - destruct (Z.leb_spec 128 r); cycle 1.
    + cbn [app decode_cont]. destruct (cont_byte_last r) as [-> ->]; [lia|].
      unfold u64_of. rewrite Z.shiftl_mul_pow2 by lia.
      rewrite (Z.mod_small (_ * _)) by nia. rewrite Z.mod_small by lia. done.
    + assert (k < 8).
      { destruct (Z.eq_dec k 8) as [->|]; [|lia]. change (63 - 7 * 8) with 7 in Hr. lia. }
      cbn [app decode_cont]. destruct (cont_byte_more r) as (_ & -> & ->); [lia|].
      pose proof (Z.div_mod r 128 ltac:(lia)) as Hdm. pose proof (Z.mod_pos_bound r 128 ltac:(lia)).
      assert (Z.shiftr r 7 = r / 128) as Hsh by (rewrite Z.shiftr_div_pow2; [done|lia]).
      assert (0 <= r / 128) by (apply Z.div_pos; lia).
      assert (2 ^ (7 * k + 7) = 128 * 2 ^ (7 * k)) as Hp7 by (rewrite Z.pow_add_r; lia).
      rewrite Z.shiftl_mul_pow2 by lia. unfold u64_of.
      rewrite (Z.mod_small (_ * _)) by nia. rewrite (Z.mod_small (_ + _)) by nia.
      solve_cmp. replace (7 * k + 7) with (7 * (k + 1)) in * by lia.
      rewrite IH; [|lia|lia| |nia|].
      * rewrite Hsh, len_cons, Hp7. f_equal. f_equal; [|lia]. rewrite Hdm at 3. lia.
      * apply shiftr7_bound; [lia|]. by replace (_ + 7) with (63 - 7 * k) by lia.
      * rewrite Hsh, Hp7. nia.
Qed.

Lemma len_cont_bytes_pos fuel r : 0 < len (cont_bytes fuel r).
Proof.
  destruct fuel; cbn [cont_bytes]; [done|]. case_z; [zlen|done].
Qed.

Lemma decode_integer_bytes value pb prefix rest :
  prefix_ok pb prefix -> varint_ok value ->
  decode_integer (integer_bytes value pb prefix ++ rest) pb =
    Ok (value, len (integer_bytes value pb prefix)).
Proof.
  intros Hp Hv. unfold varint_ok, VARINT_MAX in Hv.
  destruct (prefix_bits_range _ _ Hp) as (E & Hr & Hm).
  unfold integer_bytes, encode_integer_to_vec. rewrite E, Hm.
  destruct (Z.ltb_spec value (2 ^ pb - 1)).
  - cbn [app decode_integer]. rewrite E, (u8_of_byte value) by (unfold is_byte; lia).
    destruct (prefix_lor pb prefix value Hp) as (-> & _ & ->); [lia|].
    rewrite Hm, u8_of_byte by (unfold is_byte; lia). by solve_cmp.
  - cbn [app decode_integer]. rewrite E, (u8_of_byte (2 ^ pb - 1)) by (unfold is_byte; lia).
    destruct (prefix_lor pb prefix (2 ^ pb - 1) Hp) as (-> & _ & ->); [lia|].
    rewrite Hm, u8_of_byte, Z.ltb_irrefl by (unfold is_byte; lia).
    pose proof (decode_cont_bytes cont_fuel (value - (2 ^ pb - 1)) (2 ^ pb - 1) 0 1 rest) as Hd.
    change (7 * 0) with 0 in Hd. change (2 ^ 0) with 1 in Hd. change (2 ^ (63 - 0)) with (2 ^ 63) in Hd.
    rewrite Hd by (unfold cont_fuel; lia). cbn [mbind result_bind]. rewrite Z.mul_1_r.
    replace (2 ^ pb - 1 + (value - (2 ^ pb - 1))) with value by lia.
    unfold VARINT_MAX. solve_cmp. rewrite len_cons. done.
Qed.

Lemma decode_cont_inv rest value shift offset v n :
  bytes_ok rest -> decode_cont rest value shift offset = Ok (v, n) ->
  0 <= v < 2 ^ 64 /\ offset < n <= offset + len rest.
Proof.
  intros Hok. revert value shift offset. induction Hok as [|b r Hb _ IH]; intros value shift offset;
    [done|]. cbn [decode_cont]. rewrite len_cons. pose proof (len_nonneg r). case_match.
  - intros [= <- <-]. split; [apply Z.mod_pos_bound; lia|lia].
  - case_z; [done|]. intros ?%IH. lia.
Qed.

Lemma decode_cont_stable rest value shift offset tail :
  decode_cont rest value shift offset <> Err BufferTooShort ->
  decode_cont (rest ++ tail) value shift offset = decode_cont rest value shift offset.
Proof.
  revert value shift offset. induction rest as [|b r IH]; intros value shift offset; [done|].
  cbn [app decode_cont]. case_match; [done|]. case_z; [done|]. apply IH.
Qed.

Lemma decode_integer_inv data pb v n :
  bytes_ok data -> 0 <= pb -> decode_integer data pb = Ok (v, n) ->
  varint_ok v /\ 0 < n <= len data /\ 1 <= pb <= 8.
Proof.
  intros Hok Hpb. destruct data as [|b r]; [done|]. inversion_clear Hok as [|?? Hb Hr].
  cbn [decode_integer]. case_match eqn:E; [done|]. apply orb_false_iff in E as [E1 E2]. zify_bool.
  rewrite len_cons. pose proof (len_nonneg r).
  assert (is_byte (u8_of (Z.shiftl 1 pb - 1))) as Hm by auto with bytes.
  assert (0 <= Z.land b (u8_of (Z.shiftl 1 pb - 1))) by (apply Z.land_nonneg; unfold is_byte in Hb; lia).
  unfold is_byte, varint_ok, VARINT_MAX in *. case_z.
  - intros [= <- <-]. lia.
  - intros ([v' n'] & Hd & Hx)%result_bind_Ok. apply decode_cont_inv in Hd; [|done].
    case_z in Hx; simplify_eq. lia.
Qed.

Lemma decode_integer_stable data pb tail :
  decode_integer data pb <> Err BufferTooShort ->
  decode_integer (data ++ tail) pb = decode_integer data pb.
Proof.
  destruct data as [|b r]; [done|]. cbn [app decode_integer]. case_match; [done|].
  case_z; [done|]. intros Hne. rewrite decode_cont_stable; [done|].
  intros E. by rewrite E in Hne.
Qed.

#[export] Instance integer_prefix_code pb prefix :
  prefix_ok pb prefix ->
  PrefixCode (fun v => integer_bytes v pb prefix) (fun data => decode_integer data pb)
    varint_ok BufferTooShort.
Proof.
  intros Hp. split.
  - intros. by apply decode_integer_bytes.
  - intros bs v n ? H. apply decode_integer_inv in H; [naive_solver|done|]. destruct Hp; lia.
  - intros. by apply decode_integer_stable.
Qed.

Lemma cont_bytes_ok fuel r : 0 <= r -> bytes_ok (cont_bytes fuel r).
Proof.
  revert r. induction fuel as [|fuel IH]; intros r Hr; cbn [cont_bytes].
  - auto with bytes.
  - case_z; [|auto with bytes]. constructor; [by apply cont_byte_more|].
    apply IH. by apply Z.shiftr_nonneg.
Qed.

Lemma integer_bytes_ok value pb prefix :
  prefix_ok pb prefix -> 0 <= value -> bytes_ok (integer_bytes value pb prefix).
Proof.
  intros Hp Hv. destruct (prefix_bits_range _ _ Hp) as (E & Hr & Hm).
  unfold integer_bytes, encode_integer_to_vec. rewrite E, Hm. cbn [app]. unfold u8_of. case_z.
  - rewrite Z.mod_small by lia. destruct (prefix_lor pb prefix value Hp) as (-> & ? & _); [lia|].
    auto with bytes.
  - rewrite Z.mod_small by lia.
    destruct (prefix_lor pb prefix (2 ^ pb - 1) Hp) as (-> & ? & _); [lia|].
    constructor; [done|]. apply cont_bytes_ok. lia.
Qed.

(** The loop of [decode_integer] over unbounded integers. *)
Fixpoint decode_cont_Z (rest : bytes) (value shift offset : Z) : result QpackError (Z * Z) :=
  match rest with
  | [] => Err BufferTooShort
  | byte :: rest' =>
    let value := value + (byte mod 128) * 2 ^ shift in
    if byte <? 128 then Ok (value, offset + 1)
    else if 56 <? shift + 7 then Err DecodeFailed
    else decode_cont_Z rest' value (shift + 7) (offset + 1)
  end.

Lemma decode_cont_Z_grows rest value shift offset v n :
  bytes_ok rest -> 0 <= shift -> decode_cont_Z rest value shift offset = Ok (v, n) -> value <= v.
Proof.
  intros Hok. revert value shift offset. induction Hok as [|b r Hb _ IH]; intros value shift offset Hs;
    cbn [decode_cont_Z]; [done|].
  assert (0 <= (b mod 128) * 2 ^ shift) by
    (apply Z.mul_nonneg_nonneg; [apply Z.mod_pos_bound; lia|apply Z.pow_nonneg; lia]).
  repeat case_match; try done.
  - intros [= <- _]. lia.
  - intros Hd%IH; lia.
Qed.

Lemma byte_flag b : is_byte b -> (Z.land b 0x80 =? 0) = (b <? 128).
Proof.
  intros Hb. change 0x80 with (2 ^ 7). rewrite land_pow2_eqb by lia. unfold is_byte in Hb.
  case_z.
  - replace (Z.testbit b 7) with false; [done|]. symmetry. apply Z.testbit_false; [lia|].
    by rewrite Z.div_small by lia.
  - replace (Z.testbit b 7) with true; [done|]. symmetry. apply Z.testbit_true; [lia|].
    replace b with (1 * 2 ^ 7 + (b - 128)) by lia. by rewrite Z.div_add_l, Z.div_small by lia.
Qed.

(** The [shift > 56] guard keeps the accumulator below 2^64: no bit is lost. *)
Lemma decode_cont_no_wrap rest value k offset :
  bytes_ok rest -> 0 <= k <= 8 -> 0 <= value < 256 + 2 ^ (7 * k) ->
  decode_cont rest value (7 * k) offset = decode_cont_Z rest value (7 * k) offset.
Proof.
  intros Hok. revert value k offset. induction Hok as [|b r Hb _ IH]; intros value k offset Hk Hv;
    [done|]. cbn [decode_cont decode_cont_Z]. rewrite byte_flag by done.
  change 0x7f with (2 ^ 7 - 1). rewrite land_ones_mod, Z.shiftl_mul_pow2 by lia.
  change (2 ^ 7) with 128. pose proof (Z.mod_pos_bound b 128 ltac:(lia)).
  assert (0 < 2 ^ (7 * k) <= 2 ^ 56) by (split; [apply Z.pow_pos_nonneg|apply Z.pow_le_mono_r]; lia).
  assert (0 <= (b mod 128) * 2 ^ (7 * k) <= 127 * 2 ^ (7 * k)) by nia.
  unfold u64_of. rewrite (Z.mod_small (_ * _)) by lia. rewrite Z.mod_small by lia.
  case_z; [done|]. case_z; [done|]. replace (7 * k + 7) with (7 * (k + 1)) by lia.
  apply IH; [lia|]. replace (7 * (k + 1)) with (7 * k + 7) by lia. rewrite Z.pow_add_r by lia. lia.
Qed.

(** ** The slice encoder writes the same bytes as the [Vec] encoder *)
Lemma set_at_app done_ b x rest :
  set_at (done_ ++ x :: rest) (len done_) b = (done_ ++ [b]) ++ rest.
Proof.
  unfold set_at. rewrite len_to_nat, <- (Nat.add_0_r (length done_)), insert_app_r.
  cbn. by rewrite <- app_assoc.
Qed.

Lemma length_set_at buf i b : len (set_at buf i b) = len buf.
Proof. unfold len, set_at. by rewrite length_insert. Qed.

Lemma encode_cont_spec fuel d rest r :
  let bs := cont_bytes fuel r in
  (len bs <= len rest ->
   encode_cont fuel (d ++ rest) (len d) r = (d ++ bs ++ drop_z (len bs) rest, Some (len d + len bs))) /\
  (len rest < len bs ->
   exists buf', encode_cont fuel (d ++ rest) (len d) r = (buf', None) /\ len buf' = len d + len rest).
Proof.
  revert d rest r. induction fuel as [|fuel IH]; intros d rest r bs; subst bs;
    cbn [encode_cont cont_bytes]; rewrite len_app; destruct rest as [|x rest].
  - rewrite len_cons, !len_nil. solve_cmp. split; [lia|]. eexists; split; [done|zlen].
  - rewrite !len_cons, set_at_app. pose proof (len_nonneg rest). rewrite len_nil. solve_cmp.
    split; [|lia]. intros _. by rewrite <- app_assoc.
  - pose proof (len_nonneg (cont_bytes fuel (Z.shiftr r 7))).
    case_z; rewrite len_cons, ?len_nil; solve_cmp; (split; [lia|eexists; split; [done|zlen]]).
  - rewrite !set_at_app. pose proof (len_nonneg rest). case_z; cycle 1.
    { rewrite !len_cons, len_nil. solve_cmp. split; [|lia]. intros _. by rewrite <- app_assoc. }
    set (b := Z.lor _ _). replace (len d + 1) with (len (d ++ [b])) by zlen.
    specialize (IH (d ++ [b]) rest (Z.shiftr r 7)) as [IHf IHs].
    pose proof (len_nonneg (cont_bytes fuel (Z.shiftr r 7))). rewrite !len_cons. solve_cmp. split.
    + intros ?. rewrite IHf by lia. rewrite <- app_assoc. cbn [app]. f_equal.
      * f_equal. f_equal. f_equal. unfold drop_z.
        replace (Z.to_nat (1 + _)) with (S (Z.to_nat (len (cont_bytes fuel (Z.shiftr r 7))))) by lia.
        done.
      * rewrite len_app, len_cons, len_nil. f_equal. lia.
    + intros ?. destruct IHs as (b' & -> & Hl); [lia|]. eexists; split; [done|].
      rewrite Hl, len_app, len_cons, len_nil. lia.
Qed.

#[export] Instance writes_integer value pb prefix :
  prefix_ok pb prefix ->
  Writes (encode_integer value pb prefix) (integer_bytes value pb prefix).
Proof.
  intros Hp. destruct (prefix_bits_range _ _ Hp) as (E & _ & _).
  unfold integer_bytes, encode_integer_to_vec, encode_integer.
  split; intros buf; rewrite E; cbn [app].
  all: set (mp := Z.shiftl 1 pb - 1); pose proof (len_nonneg (cont_bytes cont_fuel (value - mp))).
  all: destruct (encode_cont_spec cont_fuel [Z.lor prefix (u8_of mp)] (tail buf) (value - mp)) as [Hf Hs].
  all: change (len [Z.lor prefix (u8_of mp)]) with 1 in *.
  all: destruct buf as [|x buf]; [rewrite len_nil; case_z; rewrite len_cons, ?len_nil;
    intros; try lia; rewrite ?Z.eqb_refl; eexists; by split|].
  all: cbn [tail] in *; rewrite len_cons; pose proof (len_nonneg buf); case_z;
    rewrite len_cons, ?len_nil; intros Hb; try lia; solve_cmp.
  all: change (set_at (x :: buf) 0 ?b) with ([b] ++ buf).
  - done.
  - rewrite Hf by lia. cbn [app]. f_equal. f_equal. f_equal. unfold drop_z.
    by replace (Z.to_nat (1 + _)) with (S (Z.to_nat (len (cont_bytes cont_fuel (value - mp))))) by lia.
  - apply Hs. lia.
Qed.

(** [encoded_integer_len] is the length of the encoding. *)
Lemma cont_len_spec fuel r l : cont_len fuel r l = l + len (cont_bytes fuel r).
Proof.
  revert r l. induction fuel as [|fuel IH]; intros r l; cbn [cont_len cont_bytes]; [done|].
  case_z; [|done]. rewrite IH, len_cons. lia.
Qed.

Lemma encoded_integer_len_spec value pb prefix :
  prefix_ok pb prefix -> encoded_integer_len value pb = len (integer_bytes value pb prefix).
Proof.
  intros Hp. destruct (prefix_bits_range _ _ Hp) as (E & _ & _).
  unfold encoded_integer_len, integer_bytes, encode_integer_to_vec. rewrite E. cbn [app].
  case_match; [done|]. by rewrite cont_len_spec, len_cons.
Qed.

(** ** Decoding over unbounded integers *)
Definition decode_integer_Z (data : bytes) (prefix_bits : Z) : result QpackError (Z * Z) :=
  match data with
  | [] => Err BufferTooShort
  | b0 :: rest =>
    let prefix_value := b0 mod 2 ^ prefix_bits in
    if prefix_value <? 2 ^ prefix_bits - 1 then Ok (prefix_value, 1)
    else
      '(value, offset) ← decode_cont_Z rest prefix_value 0 1;
      if VARINT_MAX <? value then Err DecodeFailed else Ok (value, offset)
  end.

Lemma decode_integer_exact data pb : bytes_ok data -> 1 <= pb <= 8 ->
  decode_integer data pb = decode_integer_Z data pb.
Proof.
  intros Hok Hpb. destruct Hok as [|b r Hb Hr]; [done|]. cbn [decode_integer decode_integer_Z]. solve_cmp.
  assert (1 <= 2 ^ pb <= 2 ^ 8) as Hp.
  { split; [change 1 with (2 ^ 0)|]; apply Z.pow_le_mono_r; lia. }
  rewrite Z.shiftl_mul_pow2, Z.mul_1_l by lia. rewrite u8_of_byte by (unfold is_byte; lia).
  rewrite land_ones_mod by lia. pose proof (Z.mod_pos_bound b (2 ^ pb) ltac:(lia)).
  case_z; [done|]. pose proof (decode_cont_no_wrap r (b mod 2 ^ pb) 0 1 Hr ltac:(lia)) as Hd.
  change (7 * 0) with 0 in Hd. rewrite Hd; [done|]. change (2 ^ 0) with 1. lia.
Qed.

(** ** Properties *)

(** Prefix integers (RFC 9204 Section 4.1.1): a value up to 2^62 - 1 encodes behind any
    flag bits, fails to be written only if the buffer is too short, and decodes to itself
    whatever follows; and on arbitrary bytes [decode_integer] computes what arithmetic on
    unbounded integers gives: the 64-bit accumulator never wraps, and a value beyond
    2^62 - 1 is an error. *)
Theorem integer_codec pb prefix : prefix_ok pb prefix ->
  (forall value buf rest, varint_ok value ->
    let bs := integer_bytes value pb prefix in
    decode_integer (bs ++ rest) pb = Ok (value, len bs) /\ encoded_integer_len value pb = len bs /\
    (len bs <= len buf -> encode_integer value pb prefix buf = (bs ++ drop_z (len bs) buf, Some (len bs))) /\
    (len buf < len bs -> snd (encode_integer value pb prefix buf) = None)) /\
  (forall data, bytes_ok data ->
    decode_integer data pb = decode_integer_Z data pb /\
    forall v n, decode_integer data pb = Ok (v, n) -> varint_ok v /\ 0 < n <= len data).
Proof.
  intros Hp. split.
  - intros value buf rest Hv bs. pose proof (writes_integer value pb prefix Hp) as Hw. split_and!.
    + by apply decode_integer_bytes.
    + by apply encoded_integer_len_spec.
    + apply writes_fit.
    + intros Hb. destruct (writes_short buf Hb) as (b & E & _). by rewrite E.
  - intros data Hd. split; [apply decode_integer_exact; [done|by destruct Hp]|].
    intros v n (? & ? & _)%decode_integer_inv; [done..|]. destruct Hp. lia.
Qed.

Lemma integer_codec_witness :
  decode_integer ([0xbf; 0x9a; 0x0a] ++ [7]) 5 = Ok (1337, 3) /\
  decode_integer [0x1f; 0xff; 0xff; 0xff; 0xff; 0xff; 0xff; 0xff; 0xff; 0x7f] 5 =
    decode_integer_Z [0x1f; 0xff; 0xff; 0xff; 0xff; 0xff; 0xff; 0xff; 0xff; 0x7f] 5.
Proof.
  destruct (integer_codec 5 0xa0) as [H1 H2]; [apply (bool_decide_unpack _); vm_compute; exact I|]. split.
  - destruct (H1 1337 [] [7]) as (E & _); [split; vm_compute; discriminate|]. exact E.
  - destruct (H2 [0x1f; 0xff; 0xff; 0xff; 0xff; 0xff; 0xff; 0xff; 0xff; 0x7f]) as [E _].
    + repeat (apply List.Forall_cons; [split; [discriminate|reflexivity]|]). constructor.
    + exact E.
Defined.
