(* ===== verification/HuffmanTable.v ===== *)
(** The Huffman code of src/qpack/huffman.rs (RFC 7541 Appendix B): for every
    symbol its length and its left-aligned 32-bit code word, in the order of the
    source array; entry 256 is EOS. *)

From S2P Require Import Prelude.

Record HuffmanSym := mkSym { bits : Z; code : Z }.

Definition HUFFMAN_TABLE : list HuffmanSym := [
  mkSym 13 0xffc00000; mkSym 23 0xffffb000; mkSym 28 0xfffffe20; mkSym 28 0xfffffe30;
  mkSym 28 0xfffffe40; mkSym 28 0xfffffe50; mkSym 28 0xfffffe60; mkSym 28 0xfffffe70;
  mkSym 28 0xfffffe80; mkSym 24 0xffffea00; mkSym 30 0xfffffff0; mkSym 28 0xfffffe90;
  mkSym 28 0xfffffea0; mkSym 30 0xfffffff4; mkSym 28 0xfffffeb0; mkSym 28 0xfffffec0;
  mkSym 28 0xfffffed0; mkSym 28 0xfffffee0; mkSym 28 0xfffffef0; mkSym 28 0xffffff00;
  mkSym 28 0xffffff10; mkSym 28 0xffffff20; mkSym 30 0xfffffff8; mkSym 28 0xffffff30;
  mkSym 28 0xffffff40; mkSym 28 0xffffff50; mkSym 28 0xffffff60; mkSym 28 0xffffff70;
  mkSym 28 0xffffff80; mkSym 28 0xffffff90; mkSym 28 0xffffffa0; mkSym 28 0xffffffb0;
  mkSym 6 0x50000000; mkSym 10 0xfe000000; mkSym 10 0xfe400000; mkSym 12 0xffa00000;
  mkSym 13 0xffc80000; mkSym 6 0x54000000; mkSym 8 0xf8000000; mkSym 11 0xff400000;
  mkSym 10 0xfe800000; mkSym 10 0xfec00000; mkSym 8 0xf9000000; mkSym 11 0xff600000;
  mkSym 8 0xfa000000; mkSym 6 0x58000000; mkSym 6 0x5c000000; mkSym 6 0x60000000;
  mkSym 5 0x00000000; mkSym 5 0x08000000; mkSym 5 0x10000000; mkSym 6 0x64000000;
  mkSym 6 0x68000000; mkSym 6 0x6c000000; mkSym 6 0x70000000; mkSym 6 0x74000000;
  mkSym 6 0x78000000; mkSym 6 0x7c000000; mkSym 7 0xb8000000; mkSym 8 0xfb000000;
  mkSym 15 0xfff80000; mkSym 6 0x80000000; mkSym 12 0xffb00000; mkSym 10 0xff000000;
  mkSym 13 0xffd00000; mkSym 6 0x84000000; mkSym 7 0xba000000; mkSym 7 0xbc000000;
  mkSym 7 0xbe000000; mkSym 7 0xc0000000; mkSym 7 0xc2000000; mkSym 7 0xc4000000;
  mkSym 7 0xc6000000; mkSym 7 0xc8000000; mkSym 7 0xca000000; mkSym 7 0xcc000000;
  mkSym 7 0xce000000; mkSym 7 0xd0000000; mkSym 7 0xd2000000; mkSym 7 0xd4000000;
  mkSym 7 0xd6000000; mkSym 7 0xd8000000; mkSym 7 0xda000000; mkSym 7 0xdc000000;
  mkSym 7 0xde000000; mkSym 7 0xe0000000; mkSym 7 0xe2000000; mkSym 7 0xe4000000;
  mkSym 8 0xfc000000; mkSym 7 0xe6000000; mkSym 8 0xfd000000; mkSym 13 0xffd80000;
  mkSym 19 0xfffe0000; mkSym 13 0xffe00000; mkSym 14 0xfff00000; mkSym 6 0x88000000;
  mkSym 15 0xfffa0000; mkSym 5 0x18000000; mkSym 6 0x8c000000; mkSym 5 0x20000000;
  mkSym 6 0x90000000; mkSym 5 0x28000000; mkSym 6 0x94000000; mkSym 6 0x98000000;
  mkSym 6 0x9c000000; mkSym 5 0x30000000; mkSym 7 0xe8000000; mkSym 7 0xea000000;
  mkSym 6 0xa0000000; mkSym 6 0xa4000000; mkSym 6 0xa8000000; mkSym 5 0x38000000;
  mkSym 6 0xac000000; mkSym 7 0xec000000; mkSym 6 0xb0000000; mkSym 5 0x40000000;
  mkSym 5 0x48000000; mkSym 6 0xb4000000; mkSym 7 0xee000000; mkSym 7 0xf0000000;
  mkSym 7 0xf2000000; mkSym 7 0xf4000000; mkSym 7 0xf6000000; mkSym 15 0xfffc0000;
  mkSym 11 0xff800000; mkSym 14 0xfff40000; mkSym 13 0xffe80000; mkSym 28 0xffffffc0;
  mkSym 20 0xfffe6000; mkSym 22 0xffff4800; mkSym 20 0xfffe7000; mkSym 20 0xfffe8000;
  mkSym 22 0xffff4c00; mkSym 22 0xffff5000; mkSym 22 0xffff5400; mkSym 23 0xffffb200;
  mkSym 22 0xffff5800; mkSym 23 0xffffb400; mkSym 23 0xffffb600; mkSym 23 0xffffb800;
  mkSym 23 0xffffba00; mkSym 23 0xffffbc00; mkSym 24 0xffffeb00; mkSym 23 0xffffbe00;
  mkSym 24 0xffffec00; mkSym 24 0xffffed00; mkSym 22 0xffff5c00; mkSym 23 0xffffc000;
  mkSym 24 0xffffee00; mkSym 23 0xffffc200; mkSym 23 0xffffc400; mkSym 23 0xffffc600;
  mkSym 23 0xffffc800; mkSym 21 0xfffee000; mkSym 22 0xffff6000; mkSym 23 0xffffca00;
  mkSym 22 0xffff6400; mkSym 23 0xffffcc00; mkSym 23 0xffffce00; mkSym 24 0xffffef00;
  mkSym 22 0xffff6800; mkSym 21 0xfffee800; mkSym 20 0xfffe9000; mkSym 22 0xffff6c00;
  mkSym 22 0xffff7000; mkSym 23 0xffffd000; mkSym 23 0xffffd200; mkSym 21 0xfffef000;
  mkSym 23 0xffffd400; mkSym 22 0xffff7400; mkSym 22 0xffff7800; mkSym 24 0xfffff000;
  mkSym 21 0xfffef800; mkSym 22 0xffff7c00; mkSym 23 0xffffd600; mkSym 23 0xffffd800;
  mkSym 21 0xffff0000; mkSym 21 0xffff0800; mkSym 22 0xffff8000; mkSym 21 0xffff1000;
  mkSym 23 0xffffda00; mkSym 22 0xffff8400; mkSym 23 0xffffdc00; mkSym 23 0xffffde00;
  mkSym 20 0xfffea000; mkSym 22 0xffff8800; mkSym 22 0xffff8c00; mkSym 22 0xffff9000;
  mkSym 23 0xffffe000; mkSym 22 0xffff9400; mkSym 22 0xffff9800; mkSym 23 0xffffe200;
  mkSym 26 0xfffff800; mkSym 26 0xfffff840; mkSym 20 0xfffeb000; mkSym 19 0xfffe2000;
  mkSym 22 0xffff9c00; mkSym 23 0xffffe400; mkSym 22 0xffffa000; mkSym 25 0xfffff600;
  mkSym 26 0xfffff880; mkSym 26 0xfffff8c0; mkSym 26 0xfffff900; mkSym 27 0xfffffbc0;
  mkSym 27 0xfffffbe0; mkSym 26 0xfffff940; mkSym 24 0xfffff100; mkSym 25 0xfffff680;
  mkSym 19 0xfffe4000; mkSym 21 0xffff1800; mkSym 26 0xfffff980; mkSym 27 0xfffffc00;
  mkSym 27 0xfffffc20; mkSym 26 0xfffff9c0; mkSym 27 0xfffffc40; mkSym 24 0xfffff200;
  mkSym 21 0xffff2000; mkSym 21 0xffff2800; mkSym 26 0xfffffa00; mkSym 26 0xfffffa40;
  mkSym 28 0xffffffd0; mkSym 27 0xfffffc60; mkSym 27 0xfffffc80; mkSym 27 0xfffffca0;
  mkSym 20 0xfffec000; mkSym 24 0xfffff300; mkSym 20 0xfffed000; mkSym 21 0xffff3000;
  mkSym 22 0xffffa400; mkSym 21 0xffff3800; mkSym 21 0xffff4000; mkSym 23 0xffffe600;
  mkSym 22 0xffffa800; mkSym 22 0xffffac00; mkSym 25 0xfffff700; mkSym 25 0xfffff780;
  mkSym 24 0xfffff400; mkSym 24 0xfffff500; mkSym 26 0xfffffa80; mkSym 23 0xffffe800;
  mkSym 26 0xfffffac0; mkSym 27 0xfffffcc0; mkSym 26 0xfffffb00; mkSym 26 0xfffffb40;
  mkSym 27 0xfffffce0; mkSym 27 0xfffffd00; mkSym 27 0xfffffd20; mkSym 27 0xfffffd40;
  mkSym 27 0xfffffd60; mkSym 28 0xffffffe0; mkSym 27 0xfffffd80; mkSym 27 0xfffffda0;
  mkSym 27 0xfffffdc0; mkSym 27 0xfffffde0; mkSym 27 0xfffffe00; mkSym 26 0xfffffb80;
  mkSym 30 0xfffffffc
].

Example huffman_table_len : length HUFFMAN_TABLE = 257%nat.
Proof. reflexivity. Qed.
