(* ===== verification/Huffman.v ===== *)
(** Huffman coding: src/qpack/huffman.rs (RFC 7541 Section 5.2, Appendix B).

    [encoded_len], [encode] and [decode] are the functions of the source, with
    their 64-bit accumulators. The proofs go through bit strings: [zbits n v] is
    the n low bits of v, most significant first, and [sym_code s] the code word of
    symbol s. *)

From S2P Require Import Prelude Codec Integer HuffmanTable.

(** [HUFFMAN_TABLE[s]]; [s] is always a byte or 256. *)
Definition sym (s : Z) : HuffmanSym := default (mkSym 0 0) (HUFFMAN_TABLE !! Z.to_nat s).

Definition bits_total (data : bytes) : Z := foldr (fun b n => bits (sym b) + n) 0 data.

(** [encoded_len]: [bits.div_ceil(8)]. *)
Definition huffman_len (data : bytes) : Z := (bits_total data + 7) / 8.

(** The inner [while acc_bits >= 8] loop of [encode]; it runs [acc_bits / 8] times. *)
Fixpoint flush (fuel : nat) (buf : bytes) (offset acc acc_bits : Z) : bytes * Z * Z * Z :=
  match fuel with
  | S fuel' =>
    if 8 <=? acc_bits then
      flush fuel' (set_at buf offset (u8_of (Z.shiftr acc 56))) (offset + 1)
        (u64_of (Z.shiftl acc 8)) (acc_bits - 8)
    else (buf, offset, acc, acc_bits)
  | O => (buf, offset, acc, acc_bits)
  end.

(** The [for] loop of [encode]. *)
Fixpoint encode_loop (data buf : bytes) (offset acc acc_bits : Z) : bytes * Z * Z * Z :=
  match data with
  | [] => (buf, offset, acc, acc_bits)
  | byte :: data' =>
    let s := sym byte in
    let code_64 := Z.shiftl (code s) 32 in
    let acc := Z.lor acc (Z.shiftr code_64 acc_bits) in
    let acc_bits := acc_bits + bits s in
    let '(buf, offset, acc, acc_bits) := flush (Z.to_nat (acc_bits / 8)) buf offset acc acc_bits in
    encode_loop data' buf offset acc acc_bits
  end.

(** [encode]. *)
Definition huffman_encode (data : bytes) : writer := fun buf =>
  if len buf <? huffman_len data then (buf, None)
  else
    let '(buf, offset, acc, acc_bits) := encode_loop data buf 0 0 0 in
    if 0 <? acc_bits then
      let padding_mask := Z.shiftl 1 (8 - acc_bits) - 1 in
      let byte := Z.lor (u8_of (Z.shiftr acc 56)) (u8_of padding_mask) in
      (set_at buf offset byte, Some (offset + 1))
    else (buf, Some offset).

(** The test of one table entry: [sym.bits <= acc_bits] and the masked comparison. *)
Definition sym_matches (s : HuffmanSym) (current acc_bits : Z) : bool :=
  (bits s <=? acc_bits) &&
  (let mask := if 32 <=? bits s then 0xffffffff
               else 0xffffffff - (Z.shiftl 1 (32 - bits s) - 1) in
   Z.land current mask =? code s).

(** The table search of [decode]: the first entry that matches the top bits. *)
Fixpoint find_sym (table : list HuffmanSym) (idx current acc_bits : Z) : option (Z * HuffmanSym) :=
  match table with
  | [] => None
  | s :: table' =>
    if sym_matches s current acc_bits then Some (idx, s)
    else find_sym table' (idx + 1) current acc_bits
  end.

(** The ['decode: while acc_bits >= 5] loop. A match removes at least 5 bits, so
    [acc_bits] units of fuel are enough. *)
Fixpoint decode_syms (fuel : nat) (out : bytes) (acc acc_bits : Z)
    : result QpackError (bytes * Z * Z) :=
  match fuel with
  | S fuel' =>
    if 5 <=? acc_bits then
      let current := if 32 <=? acc_bits then u32_of (Z.shiftr acc (acc_bits - 32))
                     else u32_of (Z.shiftl acc (32 - acc_bits)) in
      match find_sym HUFFMAN_TABLE 0 current acc_bits with
      | Some (sym_idx, s) =>
        if sym_idx =? 256 then Err InvalidHuffman
        else
          let acc_bits := acc_bits - bits s in
          let acc := if 0 <? acc_bits then Z.land acc (Z.shiftl 1 acc_bits - 1) else 0 in
          decode_syms fuel' (out ++ [u8_of sym_idx]) acc acc_bits
      | None => Ok (out, acc, acc_bits)
      end
    else Ok (out, acc, acc_bits)
  | O => Ok (out, acc, acc_bits)
  end.

(** The [for] loop over the input. *)
Fixpoint decode_loop (data out : bytes) (acc acc_bits : Z) : result QpackError (bytes * Z * Z) :=
  match data with
  | [] => Ok (out, acc, acc_bits)
  | byte :: data' =>
    let acc := Z.lor (u64_of (Z.shiftl acc 8)) byte in
    let acc_bits := acc_bits + 8 in
    '(out, acc, acc_bits) ← decode_syms (Z.to_nat acc_bits) out acc acc_bits;
    decode_loop data' out acc acc_bits
  end.

(** [decode]. *)
Definition huffman_decode (data : bytes) : result QpackError bytes :=
  '(out, acc, acc_bits) ← decode_loop data [] 0 0;
  if (0 <? acc_bits) && (acc_bits <=? 7) then
    let mask := Z.shiftl 1 acc_bits - 1 in
    if Z.land acc mask =? mask then Ok out else Err InvalidHuffman
  else if 7 <? acc_bits then Err InvalidHuffman
  else Ok out.

(** "www.example.com", RFC 7541 Appendix C.4.1. *)
Example huffman_rfc :
  let url := [119; 119; 119; 46; 101; 120; 97; 109; 112; 108; 101; 46; 99; 111; 109] in
  let coded := [241; 227; 194; 229; 242; 58; 107; 160; 171; 144; 244; 255] in
  huffman_encode url (replicate 14 0) = (coded ++ [0; 0], Some 12) /\ huffman_decode coded = Ok url.
Proof. split; vm_compute; reflexivity. Qed.

(** ** Bit strings *)
Fixpoint zbits (n : nat) (v : Z) : list bool :=
  match n with O => [] | S m => Z.testbit v (Z.of_nat m) :: zbits m v end.
Definition zbits_z (n v : Z) : list bool := zbits (Z.to_nat n) v.
Definition bits_of_bytes (l : bytes) : list bool := concat (map (zbits 8) l).
Definition sym_code (s : Z) : list bool :=
  zbits_z (bits (sym s)) (code (sym s) / 2 ^ (32 - bits (sym s))).
Definition sym_codes (l : list Z) : list bool := concat (map sym_code l).

Lemma length_zbits n v : length (zbits n v) = n.
Proof. induction n; cbn; auto. Qed.

Lemma zbits_app n m v : zbits (n + m) v = zbits n (v / 2 ^ Z.of_nat m) ++ zbits m v.
Proof.
  induction n as [|n IH]; [done|]. cbn [zbits app Nat.add]. rewrite IH. f_equal.
  rewrite <- Z.shiftr_div_pow2, Z.shiftr_spec by lia. f_equal. lia.
Qed.

Lemma zbits_mod n v : zbits n (v mod 2 ^ Z.of_nat n) = zbits n v.
Proof.
  assert (forall k v, (n <= k)%nat -> zbits n (v mod 2 ^ Z.of_nat k) = zbits n v) as H; [|by apply H].
  clear v. induction n as [|n IH]; intros k v Hk; [done|]. cbn [zbits].
  rewrite IH by lia. f_equal. by rewrite Z.mod_pow2_bits_low by lia.
Qed.

Lemma zbits_inj n v w :
  0 <= v < 2 ^ Z.of_nat n -> 0 <= w < 2 ^ Z.of_nat n -> zbits n v = zbits n w -> v = w.
Proof.
  intros Hv Hw H. apply Z.bits_inj'. intros i Hi.
  destruct (Z.lt_ge_cases i (Z.of_nat n)).
  - assert (forall v, zbits n v !! (n - 1 - Z.to_nat i)%nat = Some (Z.testbit v i)) as Hl.
    { clear -Hi H0. induction n as [|n IH]; intros v; [lia|]. cbn [zbits].
      destruct (decide (Z.of_nat n = i)) as [<-|].
      - by replace (S n - 1 - Z.to_nat (Z.of_nat n))%nat with O by lia.
      - replace (S n - 1 - Z.to_nat i)%nat with (S (n - 1 - Z.to_nat i)) by lia.
        apply IH. lia. }
    pose proof (Hl v) as E. rewrite H, Hl in E. congruence.
  - rewrite <- (Z.mod_small v (2 ^ Z.of_nat n)), <- (Z.mod_small w (2 ^ Z.of_nat n)) by done.
    by rewrite !Z.mod_pow2_bits_high by lia.
Qed.

Lemma length_zbits_z n v : 0 <= n -> len (zbits_z n v) = n.
Proof. intros. unfold len, zbits_z. rewrite length_zbits. lia. Qed.

(** Appending [m] bits. *)
Lemma zbits_z_app n m v : 0 <= n -> 0 <= m -> zbits_z (n + m) v = zbits_z n (v / 2 ^ m) ++ zbits_z m v.
Proof.
  intros. unfold zbits_z. rewrite Z2Nat.inj_add by lia. rewrite zbits_app. by rewrite Z2Nat.id by lia.
Qed.
Lemma zbits_z_snoc n m v c :
  0 <= n -> 0 <= m -> 0 <= c < 2 ^ m -> zbits_z (n + m) (v * 2 ^ m + c) = zbits_z n v ++ zbits_z m c.
Proof.
  intros. rewrite zbits_z_app by lia. rewrite Z.div_add_l, Z.div_small, Z.add_0_r by lia. f_equal.
  unfold zbits_z. rewrite <- (zbits_mod _ (_ + _)). rewrite Z2Nat.id by lia.
  by rewrite Z.add_comm, Z.mod_add, Z.mod_small by lia.
Qed.
Lemma zbits_z_split n m v :
  0 <= m <= n -> zbits_z n v = zbits_z m (v / 2 ^ (n - m)) ++ zbits_z (n - m) (v mod 2 ^ (n - m)).
Proof.
  intros. replace n with (m + (n - m)) at 1 by lia. rewrite zbits_z_app by lia. f_equal.
  unfold zbits_z. rewrite <- (zbits_mod _ v). by rewrite Z2Nat.id by lia.
Qed.
Lemma zbits_z_inj n v w : 0 <= n ->
  0 <= v < 2 ^ n -> 0 <= w < 2 ^ n -> zbits_z n v = zbits_z n w -> v = w.
Proof. intros. eapply (zbits_inj (Z.to_nat n)); rewrite ?Z2Nat.id; eauto. Qed.

Lemma zbits_z_ones n : 0 <= n -> zbits_z n (2 ^ n - 1) = replicate (Z.to_nat n) true.
Proof.
  intros Hn. unfold zbits_z. rewrite <- Z.pred_succ with (n := 2 ^ n - 1).
  replace (Z.pred (Z.succ (2 ^ n - 1))) with (Z.ones n) by (rewrite Z.ones_equiv; lia).
  assert (forall m, (Z.of_nat m <= n) -> zbits m (Z.ones n) = replicate m true) as H; [|apply H; lia].
  induction m as [|m IH]; intros Hm; [done|]. cbn [zbits replicate]. rewrite IH by lia. f_equal.
  rewrite Z.testbit_ones_nonneg by lia. lia.
Qed.

Lemma bits_of_bytes_app l k : bits_of_bytes (l ++ k) = bits_of_bytes l ++ bits_of_bytes k.
Proof. unfold bits_of_bytes. by rewrite map_app, concat_app. Qed.
Lemma sym_codes_app l k : sym_codes (l ++ k) = sym_codes l ++ sym_codes k.
Proof. unfold sym_codes. by rewrite map_app, concat_app. Qed.

Lemma len_bits_of_bytes l : len (bits_of_bytes l) = 8 * len l.
Proof.
  induction l as [|b l IH]; [done|]. unfold bits_of_bytes in *. cbn [map concat].
  rewrite len_app, IH, len_cons. unfold len at 1. rewrite length_zbits. lia.
Qed.

Lemma bits_of_bytes_inj l k :
  bytes_ok l -> bytes_ok k -> bits_of_bytes l = bits_of_bytes k -> l = k.
Proof.
  intros Hl. revert k. induction Hl as [|b l Hb _ IH]; intros k Hk H.
  - destruct k; [done|]. by apply (f_equal len) in H.
  - destruct Hk as [|c k Hc Hk]; [by apply (f_equal len) in H|].
    unfold bits_of_bytes in H. cbn [map concat] in H.
    apply app_inj_1 in H as [H1 H2]; [|by rewrite !length_zbits].
    rewrite (IH k) by done. f_equal. by apply (zbits_inj 8).
Qed.

(** ** The code is a complete prefix code *)
Definition is_sym (s : Z) : Prop := 0 <= s <= 256.

Definition sym_wf (s : HuffmanSym) : bool :=
  (5 <=? bits s) && (bits s <=? 30) && (0 <=? code s) && (code s <? 2 ^ 32) &&
  (code s mod 2 ^ (32 - bits s) =? 0).

Lemma table_wf : forallb sym_wf HUFFMAN_TABLE = true.
Proof. vm_compute. reflexivity. Qed.

Lemma sym_lookup s : is_sym s -> HUFFMAN_TABLE !! Z.to_nat s = Some (sym s).
Proof.
  intros Hs. unfold sym. destruct (HUFFMAN_TABLE !! Z.to_nat s) eqn:E; [done|].
  apply lookup_ge_None in E. rewrite huffman_table_len in E. unfold is_sym in Hs. lia.
Qed.

Lemma sym_bounds s : is_sym s ->
  5 <= bits (sym s) <= 30 /\ 0 <= code (sym s) / 2 ^ (32 - bits (sym s)) < 2 ^ bits (sym s) /\
  code (sym s) = code (sym s) / 2 ^ (32 - bits (sym s)) * 2 ^ (32 - bits (sym s)).
Proof.
  intros Hs. pose proof table_wf as Hw. rewrite forallb_forall in Hw.
  specialize (Hw (sym s)). unfold sym_wf in Hw.
  destruct (andb_prop _ _ (Hw ltac:(apply list_elem_of_In; eapply list_elem_of_lookup; eauto using sym_lookup))).
  zify_bool. assert (0 < 2 ^ (32 - bits (sym s))) by (apply Z.pow_pos_nonneg; lia).
  split_and!; try lia.
  - apply Z.div_pos; lia.
  - apply Z.div_lt_upper_bound; [lia|]. rewrite <- Z.pow_add_r by lia.
    by replace (32 - bits (sym s) + bits (sym s)) with 32 by lia.
  - pose proof (Z.div_mod (code (sym s)) (2 ^ (32 - bits (sym s)))). lia.
Qed.

Lemma len_sym_code s : is_sym s -> len (sym_code s) = bits (sym s).
Proof. intros Hs. apply length_zbits_z. apply sym_bounds in Hs. lia. Qed.

Definition all_codes : list (Z * list bool) :=
  map (fun i => (Z.of_nat i, sym_code (Z.of_nat i))) (seq 0 257).

Lemma all_codes_elem s : is_sym s -> (s, sym_code s) ∈ all_codes.
Proof.
  intros Hs. unfold is_sym in Hs. apply list_elem_of_In, in_map_iff. exists (Z.to_nat s).
  rewrite Z2Nat.id by lia. split; [done|]. apply in_seq. lia.
Qed.

Lemma all_codes_inv s c : (s, c) ∈ all_codes -> is_sym s /\ c = sym_code s.
Proof.
  intros H%list_elem_of_In. apply in_map_iff in H as (i & [= <- <-] & H%in_seq).
  unfold is_sym. split; [lia|done].
Qed.

Fixpoint prefixb (a b : list bool) : bool :=
  match a, b with
  | [], _ => true
  | x :: a', y :: b' => Bool.eqb x y && prefixb a' b'
  | _, [] => false
  end.

Lemma prefixb_spec a b : prefixb a b = true <-> a `prefix_of` b.
Proof.
  revert b. induction a as [|x a IH]; intros b; cbn.
  - split; [intros _; apply prefix_nil|done].
  - destruct b as [|y b]; [split; [done|intros [k Hk]; done]|].
    rewrite andb_true_iff, IH, eqb_true_iff. split.
    + intros [-> [k ->]]. by exists k.
    + intros [k [= -> ->]]. split; [done|]. by exists k.
Qed.

Lemma codes_prefix_free_check :
  let cs := all_codes in
  forallb (fun '(i, a) => forallb (fun '(j, b) => (i =? j) || negb (prefixb a b)) cs) cs = true.
Proof. vm_compute. reflexivity. Qed.

Lemma sym_code_prefix_free i j :
  is_sym i -> is_sym j -> sym_code i `prefix_of` sym_code j -> i = j.
Proof.
  intros Hi Hj Hp. pose proof codes_prefix_free_check as H. cbn zeta in H.
  rewrite forallb_forall in H.
  specialize (H _ (proj1 (list_elem_of_In _ _) (all_codes_elem i Hi))). cbn beta iota in H.
  rewrite forallb_forall in H.
  specialize (H _ (proj1 (list_elem_of_In _ _) (all_codes_elem j Hj))). cbn beta iota in H.
  apply prefixb_spec in Hp. rewrite Hp, orb_false_r in H. lia.
Qed.

(** Every string of 30 bits starts with a code word. *)
Definition tails_of (b : bool) (cs : list (list bool)) : list (list bool) :=
  omap (fun c => match c with x :: r => if Bool.eqb x b then Some r else None | [] => None end) cs.
Fixpoint covers (depth : nat) (cs : list (list bool)) : bool :=
  if existsb (fun c => match c with [] => true | _ => false end) cs then true
  else match depth with
  | O => false
  | S d => if covers d (tails_of true cs) then covers d (tails_of false cs) else false
  end.

Lemma covers_spec d cs l :
  covers d cs = true -> (d <= length l)%nat -> exists c, c ∈ cs /\ c `prefix_of` l.
Proof.
  revert cs l. induction d as [|d IH]; intros cs l; cbn [covers];
    destruct (existsb _ cs) eqn:H; intros Hc Hl; try done.
  1, 2: apply existsb_exists in H as ([|] & Hin & H); [|done];
    exists []; split; [by apply list_elem_of_In|apply prefix_nil].
  destruct l as [|b l]; [cbn in Hl; lia|].
  destruct (covers d (tails_of true cs)) eqn:Ht; [rename Hc into Hf|done].
  assert (exists c, c ∈ tails_of b cs /\ c `prefix_of` l) as (c & Hc & [k ->]).
  { destruct b; [apply (IH (tails_of true cs))|apply (IH (tails_of false cs))]; auto; cbn in Hl; lia. }
  unfold tails_of in Hc. apply list_elem_of_omap in Hc as ([|x r] & Hx & E); [done|].
  destruct (Bool.eqb_spec x b) as [->|]; [|done]. simplify_eq. exists (b :: c).
  split; [done|]. by exists k.
Qed.

Lemma codes_complete_check : covers 30 (map snd all_codes) = true.
Proof. vm_compute. reflexivity. Qed.

Lemma codes_complete l : 30 <= len l -> exists s, is_sym s /\ sym_code s `prefix_of` l.
Proof.
  intros Hl. destruct (covers_spec 30 _ l codes_complete_check) as (c & Hc & Hp);
    [unfold len in Hl; lia|].
  apply list_elem_of_In, in_map_iff in Hc as ([s c'] & <- & Hc%list_elem_of_In).
  apply all_codes_inv in Hc as [? ->]. by exists s.
Qed.

(** No code word is a prefix of [l]: the decoder waits for more bits. *)
Definition no_code (l : list bool) : Prop := forall s, is_sym s -> ~ sym_code s `prefix_of` l.

Lemma no_code_short l : no_code l -> len l < 30.
Proof.
  intros H. destruct (Z.lt_ge_cases (len l) 30); [done|].
  destruct (codes_complete l) as (s & Hs & Hp); [done|]. by destruct (H s Hs).
Qed.

Lemma sym_code_long s l : is_sym s -> sym_code s `prefix_of` l -> 5 <= len l.
Proof.
  intros Hs [k ->]. rewrite len_app, len_sym_code by done. pose proof (sym_bounds s Hs).
  pose proof (len_nonneg k). lia.
Qed.

(** Up to seven 1 bits (the EOS padding) hold no code word. *)
Lemma no_code_padding_check :
  forallb (fun '(_, c) => negb (prefixb c (replicate 7 true))) all_codes = true.
Proof. vm_compute. reflexivity. Qed.

Lemma no_code_padding k : (k <= 7)%nat -> no_code (replicate k true).
Proof.
  intros Hk s Hs [r Hr]. pose proof no_code_padding_check as H. rewrite forallb_forall in H.
  specialize (H _ (proj1 (list_elem_of_In _ _) (all_codes_elem s Hs))). cbn beta iota in H.
  apply negb_true_iff, not_true_iff_false in H. apply H, prefixb_spec.
  replace 7%nat with (k + (7 - k))%nat by lia. rewrite replicate_add, Hr, <- app_assoc.
  by eexists.
Qed.

(** Parsing is unique: a parse that stops without a code word ahead is the longest one. *)
Lemma parse_prefix l1 l2 s1 s2 :
  Forall is_sym l1 -> Forall is_sym l2 -> no_code s1 ->
  sym_codes l1 ++ s1 = sym_codes l2 ++ s2 -> l2 `prefix_of` l1.
Proof.
  intros H1 H2 Hn. revert l1 H1. induction H2 as [|x l2 Hx H2 IH]; intros l1 H1 E;
    [apply prefix_nil|].
  unfold sym_codes in E. cbn [map concat] in E. rewrite <- app_assoc in E.
  destruct H1 as [|y l1 Hy H1]; cbn [map concat app] in E.
  - destruct (Hn x Hx). rewrite E. by eexists.
  - rewrite <- app_assoc in E. assert (y = x) as ->.
    { apply app_eq_inv in E as [(k & E1 & _)|(k & E1 & _)].
      - symmetry. apply sym_code_prefix_free; [done..|]. by exists k.
      - apply sym_code_prefix_free; [done..|]. by exists k. }
    apply app_inv_head in E. apply prefix_cons, IH; done.
Qed.

#[local] Opaque HUFFMAN_TABLE sym.

(** ** The decoder *)

(** [current] of [decode]: the bits held in [acc], left-aligned in 32 bits. *)
Definition current_of (acc acc_bits : Z) : Z :=
  if 32 <=? acc_bits then u32_of (Z.shiftr acc (acc_bits - 32))
  else u32_of (Z.shiftl acc (32 - acc_bits)).

Lemma land_shiftl x y k : 0 <= k ->
  Z.land x (Z.shiftl y k) = Z.shiftl (Z.land (Z.shiftr x k) y) k.
Proof.
  intros Hk. apply Z.bits_inj'. intros n Hn. rewrite Z.land_spec, !Z.shiftl_spec, Z.land_spec by lia.
  destruct (Z.lt_ge_cases n k).
  - rewrite !(Z.testbit_neg_r _ (n - k)) by lia. by rewrite andb_false_r.
  - rewrite Z.shiftr_spec by lia. do 2 f_equal. lia.
Qed.

(** Masking [current] keeps its top [m] bits: the top [m] bits of [acc]. *)
Lemma current_masked v ab m :
  0 <= ab <= 64 -> 0 <= v < 2 ^ ab -> 0 < m <= ab -> m <= 31 ->
  Z.land (current_of v ab) (0xffffffff - (Z.shiftl 1 (32 - m) - 1)) =
    v / 2 ^ (ab - m) * 2 ^ (32 - m).
Proof.
  intros Hab Hv Hm Hm'. rewrite Z.shiftl_mul_pow2, Z.mul_1_l by lia.
  replace (0xffffffff - (2 ^ (32 - m) - 1)) with (Z.shiftl (2 ^ m - 1) (32 - m)).
  2: { rewrite Z.shiftl_mul_pow2, Z.mul_sub_distr_r, <- Z.pow_add_r by lia.
       replace (m + (32 - m)) with 32 by lia. lia. }
  rewrite land_shiftl, Z.shiftl_mul_pow2, land_ones_mod, Z.shiftr_div_pow2 by lia. f_equal.
  pose proof (div_pow2_range v ab m ltac:(lia) Hv) as Hlt.
  assert (current_of v ab / 2 ^ (32 - m) = v / 2 ^ (ab - m)) as ->; [|by apply Z.mod_small].
  unfold current_of, u32_of. case_z.
  - pose proof (div_pow2_range v ab 32 ltac:(lia) Hv).
    rewrite Z.shiftr_div_pow2, Z.mod_small by lia.
    assert (0 < 2 ^ (ab - 32) /\ 0 < 2 ^ (32 - m)) by (split; apply Z.pow_pos_nonneg; lia).
    rewrite Z.div_div, <- Z.pow_add_r by lia. do 2 f_equal. lia.
  - assert (2 ^ ab * 2 ^ (32 - ab) = 2 ^ 32) as Hp by (rewrite <- Z.pow_add_r by lia; f_equal; lia).
    assert (0 < 2 ^ (32 - ab)) by (apply Z.pow_pos_nonneg; lia).
    rewrite Z.shiftl_mul_pow2, Z.mod_small by nia.
    replace (32 - m) with (ab - m + (32 - ab)) by lia. rewrite Z.pow_add_r by lia.
    rewrite Z.div_mul_cancel_r; [done|apply Z.pow_nonzero; lia|lia].
Qed.

(** The table test of [decode] is the prefix test on bit strings. *)
Lemma sym_test i v ab :
  is_sym i -> 0 <= ab <= 64 -> 0 <= v < 2 ^ ab ->
  sym_matches (sym i) (current_of v ab) ab = true <-> sym_code i `prefix_of` zbits_z ab v.
Proof.
  intros Hi Hab Hv. destruct (sym_bounds i Hi) as (Hb & Hc & Hcode).
  unfold sym_matches. cbn zeta. solve_cmp. set (m := bits (sym i)) in *. set (c := code (sym i) / 2 ^ (32 - m)) in *.
  rewrite andb_true_iff, Z.leb_le, Z.eqb_eq.
  destruct (Z.lt_ge_cases ab m).
  { split; [lia|]. intros [k Hk]. apply (f_equal len) in Hk.
    rewrite len_app, len_sym_code, length_zbits_z in Hk by (done || lia).
    pose proof (len_nonneg k). lia. }
  rewrite current_masked by lia. rewrite Hcode.
  assert (0 < 2 ^ (32 - m)) by (apply Z.pow_pos_nonneg; lia).
  rewrite (zbits_z_split ab m) by lia. unfold sym_code. fold m. fold c. split.
  - intros [_ E]. apply Z.mul_reg_r in E; [|lia]. rewrite E. by eexists.
  - intros [k Hk]. split; [done|]. f_equal.
    apply app_inj_1 in Hk as [Hk _]; [|unfold zbits_z; by rewrite !length_zbits].
    apply zbits_z_inj in Hk; [done|lia| |lia]. apply div_pow2_range; [lia|done].
Qed.

Lemma find_sym_spec v ab :
  0 <= ab <= 64 -> 0 <= v < 2 ^ ab ->
  match find_sym HUFFMAN_TABLE 0 (current_of v ab) ab with
  | Some (i, s) => is_sym i /\ s = sym i /\ sym_code i `prefix_of` zbits_z ab v
  | None => no_code (zbits_z ab v)
  end.
Proof.
  intros Hab Hv.
  assert (forall n idx, (n <= 257)%nat -> idx = 257 - Z.of_nat n ->
    match find_sym (drop (257 - n) HUFFMAN_TABLE) idx (current_of v ab) ab with
    | Some (i, s) => is_sym i /\ s = sym i /\ sym_code i `prefix_of` zbits_z ab v
    | None => forall i, idx <= i <= 256 -> ~ sym_code i `prefix_of` zbits_z ab v
    end) as H.
  { induction n as [|n IH]; intros idx Hn Hidx.
    - rewrite drop_ge by (rewrite huffman_table_len; lia). cbn [find_sym]. lia.
    - assert (is_sym idx) as Hi by (unfold is_sym; lia).
      erewrite drop_S by (rewrite <- (sym_lookup idx Hi); f_equal; lia). cbn [find_sym].
      destruct (sym_matches _ _ _) eqn:E.
      + apply sym_test in E; done.
      + specialize (IH (idx + 1) ltac:(lia) ltac:(lia)).
        replace (S (257 - S n)) with (257 - n)%nat by lia.
        destruct (find_sym _ _ _ _) as [[]|]; [done|].
        intros i Hii. destruct (Z.eq_dec i idx) as [->|]; [|apply IH; lia].
        rewrite <- sym_test, E by done. done. }
  specialize (H 257%nat 0 ltac:(lia) ltac:(lia)). cbn [drop Nat.sub] in H.
  destruct (find_sym _ _ _ _) as [[]|]; [done|]. exact H.
Qed.

(** [acc & ((1 << n) - 1)] after a match: the bits behind the code word. *)
Lemma acc_rest v n : 0 <= n ->
  (if 0 <? n then Z.land v (Z.shiftl 1 n - 1) else 0) = v mod 2 ^ n.
Proof.
  intros Hn. case_z.
  - rewrite Z.shiftl_mul_pow2, Z.mul_1_l by lia. by apply land_ones_mod.
  - replace n with 0 by lia. by rewrite Z.mod_1_r.
Qed.

Lemma decode_syms_spec fuel out v ab :
  0 <= ab <= 64 -> 0 <= v < 2 ^ ab -> (Z.to_nat ab <= fuel)%nat ->
  match decode_syms fuel out v ab with
  | Ok (out', v', ab') =>
    exists l, out' = out ++ l /\ bytes_ok l /\ zbits_z ab v = sym_codes l ++ zbits_z ab' v' /\
      0 <= ab' <= ab /\ 0 <= v' < 2 ^ ab' /\ no_code (zbits_z ab' v')
  | Err e => e = InvalidHuffman /\
    exists l r, bytes_ok l /\ zbits_z ab v = sym_codes (l ++ [256]) ++ r
  end.
Proof.
  revert out v ab. induction fuel as [|fuel IH]; intros out v ab Hab Hv Hf.
  all: assert (forall s, ab < 5 -> is_sym s -> ~ sym_code s `prefix_of` zbits_z ab v) as Hshort
    by (intros s ? Hs Hp; apply sym_code_long in Hp; [rewrite length_zbits_z in Hp by lia; lia|done]).
  - cbn. exists []. rewrite app_nil_r. split_and!; try (done || lia).
    intros s Hs. apply Hshort; [lia|done].
  - cbn [decode_syms]. fold (current_of v ab). destruct (Z.leb_spec 5 ab); cycle 1.
    { exists []. rewrite app_nil_r. split_and!; try (done || lia).
      intros s Hs. by apply Hshort. }
    pose proof (find_sym_spec v ab ltac:(lia) Hv) as Hfind.
    destruct (find_sym _ _ _ _) as [[i s]|]; cycle 1.
    { exists []. rewrite app_nil_r. split_and!; try (done || lia). }
    destruct Hfind as (Hi & -> & Hp). destruct (sym_bounds i Hi) as (Hb & _ & _).
    pose proof Hp as Hp'. destruct Hp as [k Hk].
    assert (bits (sym i) <= ab) as Hle.
    { apply (f_equal len) in Hk. rewrite len_app, len_sym_code, length_zbits_z in Hk by (done || lia).
      pose proof (len_nonneg k). lia. }
    rewrite (zbits_z_split ab (bits (sym i))) in Hk by lia.
    apply app_inj_1 in Hk as [Hc _]; [|unfold sym_code, zbits_z; rewrite !length_zbits; reflexivity].
    assert (0 <= v mod 2 ^ (ab - bits (sym i)) < 2 ^ (ab - bits (sym i))) as Hrem
      by (apply Z.mod_pos_bound, Z.pow_pos_nonneg; lia).
    destruct (Z.eqb_spec i 256) as [->|Hne].
    { split; [done|]. exists []. eexists. split; [apply Forall_nil_2|].
      rewrite (zbits_z_split ab (bits (sym 256))), Hc by lia. unfold sym_codes. cbn [app map concat].
      rewrite (app_nil_r (sym_code 256)). reflexivity. }
    rewrite acc_rest by lia.
    specialize (IH (out ++ [u8_of i]) (v mod 2 ^ (ab - bits (sym i))) (ab - bits (sym i))
      ltac:(lia) Hrem ltac:(lia)).
    assert (is_byte i) as Hbi by (unfold is_sym, is_byte in *; lia).
    rewrite u8_of_byte in * by done. rewrite (zbits_z_split ab (bits (sym i))), Hc by lia.
    destruct (decode_syms _ _ _ _) as [[[out' v'] ab']|e].
    + destruct IH as (l & -> & Hl & -> & ? & ? & ?). exists (i :: l).
      rewrite <- app_assoc. split_and!; try (done || lia); [by apply bytes_ok_cons|].
      unfold sym_codes. cbn [map concat]. by rewrite app_assoc.
    + destruct IH as (-> & l & r & Hl & ->). split; [done|]. exists (i :: l), r.
      split; [by apply bytes_ok_cons|]. unfold sym_codes. cbn [app map concat]. by rewrite app_assoc.
Qed.

Lemma decode_loop_spec data out v ab :
  bytes_ok data -> 0 <= ab -> 0 <= v < 2 ^ ab -> no_code (zbits_z ab v) ->
  match decode_loop data out v ab with
  | Ok (out', v', ab') =>
    exists l, out' = out ++ l /\ bytes_ok l /\
      zbits_z ab v ++ bits_of_bytes data = sym_codes l ++ zbits_z ab' v' /\
      0 <= ab' /\ 0 <= v' < 2 ^ ab' /\ no_code (zbits_z ab' v')
  | Err e => e = InvalidHuffman /\
    exists l r, bytes_ok l /\ zbits_z ab v ++ bits_of_bytes data = sym_codes (l ++ [256]) ++ r
  end.
Proof.
  intros Hd. revert out v ab. induction Hd as [|b data Hb _ IH]; intros out v ab Hab Hv Hn.
  - cbn. exists []. rewrite !app_nil_r. split_and!; try (done || lia).
  - cbn [decode_loop]. pose proof (no_code_short _ Hn) as Hs. rewrite length_zbits_z in Hs by lia.
    assert (2 ^ ab <= 2 ^ 29) as Hp by (apply Z.pow_le_mono_r; lia).
    assert (Z.lor (u64_of (Z.shiftl v 8)) b = v * 2 ^ 8 + b) as ->.
    { unfold u64_of. rewrite Z.shiftl_mul_pow2, Z.mod_small by lia.
      rewrite Z.lor_comm, lor_disjoint by (unfold is_byte in Hb; lia). lia. }
    assert (0 <= v * 2 ^ 8 + b < 2 ^ (ab + 8)) as Hv'
      by (rewrite Z.pow_add_r by lia; unfold is_byte in Hb; lia).
    assert (zbits_z ab v ++ bits_of_bytes (b :: data) =
      zbits_z (ab + 8) (v * 2 ^ 8 + b) ++ bits_of_bytes data) as Ebits.
    { rewrite zbits_z_snoc by (unfold is_byte in Hb; lia). by rewrite <- app_assoc. }
    pose proof (decode_syms_spec (Z.to_nat (ab + 8)) out (v * 2 ^ 8 + b) (ab + 8)
      ltac:(lia) Hv' ltac:(lia)) as Hsyms. rewrite Ebits.
    destruct (decode_syms _ _ _ _) as [[[out1 v1] ab1]|e]; cbn [mbind result_bind].
    + destruct Hsyms as (l & -> & Hl & -> & ? & ? & Hn1).
      specialize (IH (out ++ l) v1 ab1 ltac:(lia) ltac:(lia) Hn1).
      destruct (decode_loop _ _ _ _) as [[[out2 v2] ab2]|e].
      * destruct IH as (l2 & -> & Hl2 & E & ? & ? & ?). exists (l ++ l2).
        rewrite sym_codes_app, <- !app_assoc, E. split_and!; try (done || lia).
        by apply bytes_ok_app.
      * destruct IH as (-> & l2 & r & Hl2 & E). split; [done|]. exists (l ++ l2), r.
        split; [by apply bytes_ok_app|]. by rewrite <- !app_assoc, E, (sym_codes_app l), app_assoc.
    + destruct Hsyms as (-> & l & r & Hl & ->). split; [done|]. exists l, (r ++ bits_of_bytes data).
      split; [done|]. by rewrite app_assoc.
Qed.

(** ** The encoder *)

Lemma byte_is_sym b : is_byte b -> is_sym b.
Proof. unfold is_byte, is_sym. lia. Qed.
Lemma bytes_are_syms l : bytes_ok l -> Forall is_sym l.
Proof. intros H. eapply Forall_impl; eauto using byte_is_sym. Qed.

Lemma len_sym_codes l : bytes_ok l -> len (sym_codes l) = bits_total l.
Proof.
  induction 1 as [|b l Hb _ IH]; [done|]. unfold sym_codes in *. cbn [map concat bits_total foldr].
  rewrite len_app, IH, len_sym_code by auto using byte_is_sym. done.
Qed.

Lemma bits_total_nonneg l : bytes_ok l -> 0 <= bits_total l.
Proof. intros. rewrite <- len_sym_codes by done. apply len_nonneg. Qed.

(** The accumulator of [encode] holds its [ab] bits at the top of 64. *)
Lemma flush_spec fuel d rest v ab :
  0 <= ab <= 64 -> 0 <= v < 2 ^ ab -> (Z.to_nat (ab / 8) <= fuel)%nat -> ab / 8 <= len rest ->
  exists out v',
    flush fuel (d ++ rest) (len d) (v * 2 ^ (64 - ab)) ab =
      ((d ++ out) ++ drop_z (len out) rest, len (d ++ out), v' * 2 ^ (64 - ab mod 8), ab mod 8) /\
    bytes_ok out /\ len out = ab / 8 /\ 0 <= v' < 2 ^ (ab mod 8) /\
    zbits_z ab v = bits_of_bytes out ++ zbits_z (ab mod 8) v'.
Proof.
  revert d rest v ab. induction fuel as [|fuel IH]; intros d rest v ab Hab Hv Hf Hr.
  all: assert (ab < 8 -> ab / 8 = 0 /\ ab mod 8 = ab) as Hsmall
    by (intros; split; [apply Z.div_small|apply Z.mod_small]; lia).
  all: assert (8 <= ab -> 1 <= ab / 8) as Hbig by (intros; apply Z.div_le_lower_bound; lia).
  - destruct (Z.lt_ge_cases ab 8); [|specialize (Hbig ltac:(lia)); lia].
    destruct (Hsmall ltac:(lia)) as [E1 E2]. rewrite E1, E2. exists [], v.
    rewrite !app_nil_r. split_and!; try (done || lia).
  - cbn [flush]. case_z; cycle 1.
    { destruct (Hsmall ltac:(lia)) as [E1 E2]. rewrite E1, E2. exists [], v.
      rewrite !app_nil_r. split_and!; try (done || lia). }
    specialize (Hbig ltac:(lia)). destruct rest as [|x rest]; [rewrite len_nil in Hr; lia|].
    rewrite set_at_app. set (b := u8_of _).
    pose proof (div_pow2_range v ab 8 ltac:(lia) Hv) as Htop.
    assert (b = v / 2 ^ (ab - 8)) as Eb.
    { subst b. unfold u8_of. rewrite Z.shiftr_div_pow2 by lia.
      replace (2 ^ 56) with (2 ^ (ab - 8) * 2 ^ (64 - ab)) by (rewrite <- Z.pow_add_r by lia; f_equal; lia).
      rewrite Z.div_mul_cancel_r by (apply Z.pow_nonzero; lia). by apply Z.mod_small. }
    assert (0 < 2 ^ (ab - 8)) by (apply Z.pow_pos_nonneg; lia).
    assert (u64_of (Z.shiftl (v * 2 ^ (64 - ab)) 8) = v mod 2 ^ (ab - 8) * 2 ^ (64 - (ab - 8))) as ->.
    { unfold u64_of. rewrite Z.shiftl_mul_pow2, <- Z.mul_assoc, <- Z.pow_add_r by lia.
      replace (64 - ab + 8) with (64 - (ab - 8)) by lia.
      replace (2 ^ 64) with (2 ^ (ab - 8) * 2 ^ (64 - (ab - 8))) by (rewrite <- Z.pow_add_r by lia; f_equal; lia).
      apply Z.mul_mod_distr_r; apply Z.pow_nonzero; lia. }
    replace (len d + 1) with (len (d ++ [b])) by zlen.
    assert (ab / 8 = (ab - 8) / 8 + 1 /\ ab mod 8 = (ab - 8) mod 8) as [Ed Em].
    { replace ab with (ab - 8 + 1 * 8) at 1 3 by lia. rewrite Z.div_add, Z.mod_add by lia. lia. }
    rewrite len_cons in Hr.
    destruct (IH (d ++ [b]) rest (v mod 2 ^ (ab - 8)) (ab - 8)) as (out & v' & -> & ? & ? & ? & E);
      [lia|by apply Z.mod_pos_bound|lia|lia|].
    exists (b :: out), v'. rewrite Em. split_and!; try done; try lia.
    + rewrite len_cons, drop_z_cons by apply len_nonneg. by rewrite <- !app_assoc.
    + apply bytes_ok_cons; [|done]. rewrite Eb. done.
    + rewrite len_cons. lia.
    + rewrite (zbits_z_split ab 8), E, <- Eb by lia. done.
Qed.

Lemma encode_loop_spec data d rest v ab :
  bytes_ok data -> 0 <= ab < 8 -> 0 <= v < 2 ^ ab -> (ab + bits_total data) / 8 <= len rest ->
  exists out v' ab',
    encode_loop data (d ++ rest) (len d) (v * 2 ^ (64 - ab)) ab =
      ((d ++ out) ++ drop_z (len out) rest, len (d ++ out), v' * 2 ^ (64 - ab'), ab') /\
    bytes_ok out /\ 0 <= ab' < 8 /\ 0 <= v' < 2 ^ ab' /\
    zbits_z ab v ++ sym_codes data = bits_of_bytes out ++ zbits_z ab' v'.
Proof.
  intros Hd. revert d rest v ab. induction Hd as [|b data Hb Hd IH]; intros d rest v ab Hab Hv Hr.
  - exists [], v, ab. rewrite !app_nil_r. split_and!; try (done || lia).
  - cbn [encode_loop]. destruct (sym_bounds b (byte_is_sym b Hb)) as (Hm & Hc & Ecode).
    unfold sym_codes. cbn [bits_total foldr map concat] in *. fold (bits_total data) in *.
    fold (sym_codes data). unfold sym_code.
    set (m := bits (sym b)) in *. set (c := code (sym b) / 2 ^ (32 - m)) in *.
    assert (Z.lor (v * 2 ^ (64 - ab)) (Z.shiftr (Z.shiftl (code (sym b)) 32) ab) =
            (v * 2 ^ m + c) * 2 ^ (64 - (ab + m))) as ->.
    { rewrite Ecode, Z.shiftl_mul_pow2, Z.shiftr_div_pow2, <- Z.mul_assoc, <- Z.pow_add_r by lia.
      replace (32 - m + 32) with (64 - (ab + m) + ab) by lia. rewrite Z.pow_add_r by lia.
      rewrite Z.mul_assoc, Z.div_mul by (apply Z.pow_nonzero; lia).
      assert (0 < 2 ^ (64 - (ab + m))) by (apply Z.pow_pos_nonneg; lia).
      replace (64 - ab) with (m + (64 - (ab + m))) by lia. rewrite Z.pow_add_r by lia.
      rewrite Z.mul_assoc, Z.lor_comm, <- Z.mul_assoc, <- Z.pow_add_r, lor_disjoint by
        (try rewrite Z.pow_add_r by lia; try nia; lia).
      rewrite Z.pow_add_r by lia. lia. }
    assert (0 <= v * 2 ^ m + c < 2 ^ (ab + m)) as Hv' by (rewrite Z.pow_add_r by lia; nia).
    pose proof (bits_total_nonneg data Hd).
    assert ((ab + m) / 8 <= (ab + (m + bits_total data)) / 8) by (apply Z.div_le_mono; lia).
    destruct (flush_spec (Z.to_nat ((ab + m) / 8)) d rest (v * 2 ^ m + c) (ab + m))
      as (o1 & v1 & -> & Ho1 & Hl1 & Hv1 & E1); [lia|done|lia|lia|].
    pose proof (Z.mod_pos_bound (ab + m) 8 ltac:(lia)).
    assert (((ab + m) mod 8 + bits_total data) / 8 = (ab + (m + bits_total data)) / 8 - len o1) as Hrest.
    { rewrite Hl1. pose proof (Z.div_mod (ab + m) 8 ltac:(lia)).
      replace (ab + (m + bits_total data)) with ((ab + m) mod 8 + bits_total data + (ab + m) / 8 * 8) by lia.
      rewrite Z.div_add by lia. lia. }
    destruct (IH (d ++ o1) (drop_z (len o1) rest) v1 ((ab + m) mod 8))
      as (o2 & v2 & ab2 & -> & Ho2 & ? & ? & E2); [lia|done|rewrite len_drop; zlen|].
    exists (o1 ++ o2), v2, ab2. rewrite drop_z_drop_z by apply len_nonneg.
    rewrite <- !app_assoc. split_and!; try (done || lia).
    + rewrite !len_app. by rewrite Z.add_assoc.
    + by apply bytes_ok_app.
    + rewrite app_assoc, <- zbits_z_snoc, E1, <- app_assoc, E2 by lia.
      by rewrite bits_of_bytes_app, <- app_assoc.
Qed.

(** [encode] fills [huffman_len] bytes with the code words and a padding of 1s. *)
Lemma huffman_encode_spec data buf :
  bytes_ok data -> huffman_len data <= len buf ->
  exists hb k, huffman_encode data buf = (hb ++ drop_z (len hb) buf, Some (len hb)) /\
    bytes_ok hb /\ len hb = huffman_len data /\ (k <= 7)%nat /\
    bits_of_bytes hb = sym_codes data ++ replicate k true.
Proof.
  intros Hd Hb. unfold huffman_encode. solve_cmp.
  assert (bits_total data / 8 <= huffman_len data) as Hle by (apply Z.div_le_mono; lia).
  destruct (encode_loop_spec data [] buf 0 0) as (out & v & ab & E & Ho & Hab & Hv & Ebits);
    [done|lia|done|rewrite Z.add_0_l; lia|].
  cbn [app] in E. change (len (@nil Z)) with 0 in E. change (0 * 2 ^ (64 - 0)) with 0 in E.
  rewrite E. change (zbits_z 0 0) with (@nil bool) in Ebits. cbn [app] in Ebits.
  assert (bits_total data = 8 * len out + ab) as Hbits.
  { rewrite <- len_sym_codes, Ebits, len_app, len_bits_of_bytes, length_zbits_z by (done || lia). lia. }
  case_z.
  - assert (huffman_len data = len out + 1) as Hhl.
    { unfold huffman_len. rewrite Hbits.
      replace (8 * len out + ab + 7) with (ab - 1 + (len out + 1) * 8) by lia.
      rewrite Z.div_add, Z.div_small by lia. lia. }
    set (byte := Z.lor _ _).
    assert (byte = v * 2 ^ (8 - ab) + (2 ^ (8 - ab) - 1)) as Ebyte.
    { assert (0 < 2 ^ (8 - ab)) by (apply Z.pow_pos_nonneg; lia).
      assert (2 ^ (8 - ab) * 2 ^ ab = 256) by (rewrite <- Z.pow_add_r by lia; by replace (8 - ab + ab) with 8 by lia).
      subst byte. rewrite Z.shiftl_mul_pow2, Z.mul_1_l, Z.shiftr_div_pow2 by lia.
      replace (64 - ab) with (8 - ab + 56) by lia.
      rewrite Z.pow_add_r, Z.mul_assoc, Z.div_mul by lia.
      rewrite !u8_of_byte by (unfold is_byte; nia). rewrite Z.lor_comm, lor_disjoint by lia. lia. }
    destruct (drop_z (len out) buf) as [|x rest] eqn:Ed.
    { apply (f_equal len) in Ed. rewrite len_drop, len_nil in Ed by (pose proof (len_nonneg out); lia). lia. }
    exists (out ++ [byte]), (Z.to_nat (8 - ab)). rewrite set_at_app. rewrite !len_app.
    change (len [byte]) with 1. assert (is_byte byte) as Hbyte.
    { rewrite Ebyte. assert (0 < 2 ^ (8 - ab)) by (apply Z.pow_pos_nonneg; lia).
      assert (2 ^ (8 - ab) * 2 ^ ab = 256) by (rewrite <- Z.pow_add_r by lia; by replace (8 - ab + ab) with 8 by lia).
      unfold is_byte. nia. }
    split_and!; try (done || lia); [| |].
    + f_equal. f_equal. rewrite <- drop_z_drop_z, Ed by (try apply len_nonneg; lia). done.
    + apply bytes_ok_app. split; [done|]. by apply bytes_ok_cons.
    + rewrite Ebits, bits_of_bytes_app, <- app_assoc. f_equal.
      change (bits_of_bytes [byte]) with (zbits_z 8 byte ++ []). rewrite app_nil_r, Ebyte.
      replace 8 with (ab + (8 - ab)) at 1 by lia.
      assert (0 < 2 ^ (8 - ab)) by (apply Z.pow_pos_nonneg; lia).
      rewrite zbits_z_snoc, zbits_z_ones by lia. done.
  - assert (ab = 0) as -> by lia. exists out, 0%nat. split_and!; try (done || lia).
    + unfold huffman_len. rewrite Hbits. replace (8 * len out + 0 + 7) with (7 + len out * 8) by lia.
      rewrite Z.div_add, Z.div_small by lia. lia.
    + rewrite Ebits. cbn. by rewrite !app_nil_r.
Qed.

(** The bytes [encode] produces for [data]. *)
Definition huffman_bytes (data : bytes) : bytes :=
  let n := huffman_len data in
  take_z n (fst (huffman_encode data (replicate (Z.to_nat n) 0))).

Lemma huffman_len_nonneg data : bytes_ok data -> 0 <= huffman_len data.
Proof. intros. unfold huffman_len. pose proof (bits_total_nonneg data H). apply Z.div_pos; lia. Qed.

Lemma huffman_bytes_spec data :
  bytes_ok data ->
  bytes_ok (huffman_bytes data) /\ len (huffman_bytes data) = huffman_len data /\
  exists k, (k <= 7)%nat /\ bits_of_bytes (huffman_bytes data) = sym_codes data ++ replicate k true.
Proof.
  intros Hd. pose proof (huffman_len_nonneg data Hd).
  destruct (huffman_encode_spec data (replicate (Z.to_nat (huffman_len data)) 0))
    as (hb & k & E & Hok & Hl & Hk & Hbits); [done|rewrite len_replicate; lia|].
  unfold huffman_bytes. rewrite E. cbn [fst]. rewrite take_z_app_eq by done.
  split_and!; [done..|]. by exists k.
Qed.

(** Two padded encodings of the same code words are the same bytes. *)
Lemma padded_inj c h1 h2 k1 k2 :
  bytes_ok h1 -> bytes_ok h2 -> (k1 <= 7)%nat -> (k2 <= 7)%nat ->
  bits_of_bytes h1 = c ++ replicate k1 true -> bits_of_bytes h2 = c ++ replicate k2 true -> h1 = h2.
Proof.
  intros O1 O2 H1 H2 E1 E2. apply bits_of_bytes_inj; [done..|].
  pose proof (len_bits_of_bytes h1) as L1. pose proof (len_bits_of_bytes h2) as L2.
  rewrite E1 in L1. rewrite E2 in L2. rewrite len_app, len_replicate in *.
  assert (k1 = k2) as <- by lia. by rewrite E1, E2.
Qed.

#[export] Instance writes_huffman data :
  bytes_ok data -> Writes (huffman_encode data) (huffman_bytes data).
Proof.
  intros Hd. destruct (huffman_bytes_spec data Hd) as (Hok & Hl & k & Hk & Hbits).
  split; intros buf Hb; rewrite Hl in Hb.
  - destruct (huffman_encode_spec data buf Hd Hb) as (hb & k' & -> & Hok' & Hl' & Hk' & Hbits').
    by rewrite (padded_inj (sym_codes data) hb (huffman_bytes data) k' k).
  - unfold huffman_encode. solve_cmp. by exists buf.
Qed.

Lemma decode_padding v ab (out : bytes) :
  0 <= ab -> 0 <= v < 2 ^ ab ->
  (if (0 <? ab) && (ab <=? 7) then
     let mask := Z.shiftl 1 ab - 1 in
     if Z.land v mask =? mask then Ok out else Err InvalidHuffman
   else if 7 <? ab then Err InvalidHuffman else Ok out) =
  if bool_decide (ab <= 7 /\ zbits_z ab v = replicate (Z.to_nat ab) true)
  then Ok out else Err InvalidHuffman.
Proof.
  intros Hab Hv. assert (0 < 2 ^ ab) by lia. rewrite <- zbits_z_ones by lia. cbn zeta.
  rewrite Z.shiftl_mul_pow2, Z.mul_1_l, land_ones_mod, Z.mod_small by lia.
  destruct (Z.leb_spec ab 7); [destruct (Z.ltb_spec 0 ab)|]; cbn [andb].
  - case_z; case_bool_decide as Hd; try done; exfalso.
    + apply Hd. split; [done|]. by f_equal.
    + destruct Hd as [_ Hd]. apply zbits_z_inj in Hd; lia.
  - assert (ab = 0) as -> by lia. by rewrite bool_decide_true by done.
  - rewrite andb_false_r. solve_cmp. rewrite bool_decide_false; [done|lia].
Qed.

(** [decode] accepts exactly the padded encodings. *)
Lemma huffman_decode_iff d out :
  bytes_ok d ->
  huffman_decode d = Ok out <->
  bytes_ok out /\ exists k, (k <= 7)%nat /\ bits_of_bytes d = sym_codes out ++ replicate k true.
Proof.
  intros Hd. unfold huffman_decode.
  pose proof (decode_loop_spec d [] 0 0 Hd ltac:(lia) ltac:(done)) as H.
  change (zbits_z 0 0) with (@nil bool) in H.
  specialize (H (no_code_padding 0 ltac:(lia))). cbn [app] in H.
  destruct (decode_loop d [] 0 0) as [[[out' v] ab]|e]; cbn [mbind result_bind].
  - destruct H as (l & -> & Hl & E & Hab & Hv & Hn). cbn [app]. rewrite decode_padding by done. split.
    + case_bool_decide as Hp; [|done]. intros [= <-]. destruct Hp as [Hp Hones].
      split; [done|]. exists (Z.to_nat ab). rewrite <- Hones. split; [lia|done].
    + intros (Ho & k & Hk & E'). rewrite E' in E.
      assert (l = out) as ->.
      { apply (prefix_length_eq l out).
        - eapply parse_prefix; [by apply bytes_are_syms..| |exact E]. by apply no_code_padding.
        - apply prefix_length. eapply parse_prefix; [by apply bytes_are_syms..|exact Hn|symmetry; exact E]. }
      apply app_inv_head in E. rewrite bool_decide_true; [done|].
      pose proof (f_equal len E) as El. rewrite len_replicate, length_zbits_z in El by done.
      split; [lia|]. rewrite <- E. f_equal. lia.
  - destruct H as (-> & l & r & Hl & E). split; [done|].
    intros (Ho & k & Hk & E'). exfalso. rewrite E' in E.
    assert ((l ++ [256]) `prefix_of` out) as [t ->].
    { eapply parse_prefix; [by apply bytes_are_syms| |by apply (no_code_padding k)|exact E].
      apply Forall_app. split; [by apply bytes_are_syms|]. repeat constructor; done. }
    rewrite !Forall_app in Ho. destruct Ho as [[_ Ho] _]. inversion_clear Ho. unfold is_byte in *. lia.
Qed.

Lemma huffman_decode_err d e : bytes_ok d -> huffman_decode d = Err e -> e = InvalidHuffman.
Proof.
  intros Hd. unfold huffman_decode.
  pose proof (decode_loop_spec d [] 0 0 Hd ltac:(lia) ltac:(done) (no_code_padding 0 ltac:(lia))) as H.
  destruct (decode_loop d [] 0 0) as [[[out' v] ab]|e']; cbn [mbind result_bind].
  - destruct H as (_ & _ & _ & _ & Hab & Hv & _). rewrite decode_padding by done.
    case_bool_decide; [done|]. by intros [= <-].
  - destruct H as [-> _]. by intros [= <-].
Qed.

Lemma huffman_decode_encode data : bytes_ok data -> huffman_decode (huffman_bytes data) = Ok data.
Proof.
  intros Hd. destruct (huffman_bytes_spec data Hd) as (Hok & _ & Hk).
  by apply huffman_decode_iff.
Qed.
Lemma huffman_encode_decode d out :
  bytes_ok d -> huffman_decode d = Ok out -> bytes_ok out /\ d = huffman_bytes out.
Proof.
  intros Hd H. apply huffman_decode_iff in H as (Ho & k & Hk & E); [|done]. split; [done|].
  destruct (huffman_bytes_spec out Ho) as (Hok & _ & k' & Hk' & E').
  by apply (padded_inj (sym_codes out) _ _ k k').
Qed.

(** ** Properties *)

(** C40. The Huffman code of RFC 7541 Appendix B is decoded strictly: a byte string decodes
    to [out] if and only if it is the encoding of [out], so EOS, a padding of eight bits
    or more and a padding with a 0 are all refused, as [InvalidHuffman]; and [encode] writes
    that encoding, [encoded_len] bytes, whenever the buffer holds them. *)
Theorem huffman_codec d buf : bytes_ok d ->
  (forall out, huffman_decode d = Ok out <-> bytes_ok out /\ d = huffman_bytes out) /\
  (forall e, huffman_decode d = Err e -> e = InvalidHuffman) /\
  len (huffman_bytes d) = huffman_len d /\
  (huffman_len d <= len buf ->
    huffman_encode d buf = (huffman_bytes d ++ drop_z (huffman_len d) buf, Some (huffman_len d))) /\
  (len buf < huffman_len d -> huffman_encode d buf = (buf, None)).
Proof.
  intros Hd. destruct (huffman_bytes_spec d Hd) as (_ & Hl & _). pose proof (writes_huffman d Hd). split_and!; [|..].
  - intros out. split; [by apply huffman_encode_decode|]. intros [Ho ->]. by apply huffman_decode_encode.
  - intros e. by apply huffman_decode_err.
  - done.
  - intros Hb. rewrite <- Hl in Hb |- *. by apply writes_fit.
  - intros Hb. unfold huffman_encode. by solve_cmp.
Qed.

Lemma huffman_codec_witness :
  huffman_bytes [0x61] = [0x1f] /\ huffman_decode [0x1f] = Ok [0x61] /\ huffman_decode [0x1e] <> Ok [0x61].
Proof.
  split; [vm_compute; reflexivity|]. split.
  - apply (proj1 (huffman_codec [0x1f] [] ltac:(apply List.Forall_cons; [split; [discriminate|reflexivity]|constructor]))).
    split; [apply List.Forall_cons; [split; [discriminate|reflexivity]|constructor]|vm_compute; reflexivity].
  - intros E. apply (proj1 (huffman_codec [0x1e] [] ltac:(apply List.Forall_cons; [split; [discriminate|reflexivity]|constructor]))) in E.
    destruct E as [_ E]. vm_compute in E. discriminate E.
Defined.
