(* ===== verification/Header.v ===== *)
(** Header fields: src/qpack/header.rs (RFC 9114 Section 4.2, RFC 9110 Section 5).

    [check_header] is the construction-time check behind [Header::new] and
    [Header::from_static]; [header_grammar] is the grammar it is meant to enforce. *)

From Stdlib Require Import String Ascii.
From S2P Require Import Prelude.

(** A byte-string literal [b"..."]. *)
Definition str (s : string) : bytes := map (fun c => Z.of_N (N_of_ascii c)) (list_ascii_of_string s).
Arguments str s%_string.

Definition bytes_eqb (a b : bytes) : bool := bool_decide (a = b).

(** ** Character classes *)
Definition in_range (lo hi b : Z) : bool := (lo <=? b) && (b <=? hi).
Definition is_digit (b : Z) : bool := in_range 48 57 b.
Definition is_upper (b : Z) : bool := in_range 65 90 b.
Definition is_lower (b : Z) : bool := in_range 97 122 b.
Definition is_alpha (b : Z) : bool := is_upper b || is_lower b.
Definition is_alnum (b : Z) : bool := is_alpha b || is_digit b.

Definition token_punct : bytes := str "!#$%&'*+-.^_`|~".
Definition is_lowercase_token_byte (b : Z) : bool :=
  existsb (Z.eqb b) token_punct || is_digit b || is_lower b.
Definition is_tchar (b : Z) : bool :=
  existsb (Z.eqb b) token_punct || is_digit b || is_upper b || is_lower b.
Definition is_field_vchar (b : Z) : bool := in_range 0x21 0x7e b || in_range 0x80 0xff b.

Definition KNOWN_PSEUDO_HEADERS : list bytes :=
  [str ":method"; str ":scheme"; str ":authority"; str ":path"; str ":status"; str ":protocol"].
Definition is_known_pseudo_header (name : bytes) : bool :=
  existsb (fun k => bytes_eqb k name) KNOWN_PSEUDO_HEADERS.

(** [HeaderError]. *)
Inductive HeaderError :=
| EmptyFieldName
| UppercaseFieldName (name : bytes)
| InvalidFieldNameByte (name : bytes) (byte : Z)
| InvalidFieldValueByte (name : bytes) (byte : Z)
| FieldValueLeadingOrTrailingWhitespace (name : bytes)
| UnknownPseudoHeader (name : bytes)
| InvalidPseudoHeaderValue (name value : bytes).

(** [CheckResult]: [None] is [CheckResult::Ok], [Some k] one of the errors, which
    [Header::new] completes with the name and the value. *)
Inductive CheckError :=
| CEmptyFieldName
| CUppercaseFieldName
| CInvalidFieldNameByte (byte : Z)
| CInvalidFieldValueByte (byte : Z)
| CFieldValueLeadingOrTrailingWhitespace
| CUnknownPseudoHeader
| CInvalidPseudoHeaderValue.

(** The [while] loops of [check_header]. *)
Fixpoint check_name_bytes (l : bytes) : option CheckError :=
  match l with
  | [] => None
  | b :: r =>
    if is_upper b then Some CUppercaseFieldName
    else if negb (is_lowercase_token_byte b) then Some (CInvalidFieldNameByte b)
    else check_name_bytes r
  end.
Fixpoint check_value_bytes (l : bytes) : option CheckError :=
  match l with
  | [] => None
  | b :: r =>
    if negb (is_field_vchar b || (b =? 32) || (b =? 9)) then Some (CInvalidFieldValueByte b)
    else check_value_bytes r
  end.

(** The index of the first slash in [check_upgrade_token]. *)
Fixpoint find_slash (l : bytes) (i : Z) : option Z :=
  match l with
  | [] => None
  | b :: r => if b =? 47 then Some i else find_slash r (i + 1)
  end.

Definition check_upgrade_token (value : bytes) : option CheckError :=
  if len value =? 0 then Some CInvalidPseudoHeaderValue
  else match find_slash value 0 with
  | None => if forallb is_tchar value then None else Some CInvalidPseudoHeaderValue
  | Some slash =>
    if slash =? 0 then Some CInvalidPseudoHeaderValue
    else if negb (forallb is_tchar (take_z slash value)) then Some CInvalidPseudoHeaderValue
    else if len value <=? slash + 1 then Some CInvalidPseudoHeaderValue
    else if negb (forallb is_tchar (drop_z (slash + 1) value)) then Some CInvalidPseudoHeaderValue
    else None
  end.

Definition check_pseudo_value (name value : bytes) : option CheckError :=
  if bytes_eqb name (str ":method") then
    if len value =? 0 then Some CInvalidPseudoHeaderValue
    else if forallb is_tchar value then None else Some CInvalidPseudoHeaderValue
  else if bytes_eqb name (str ":scheme") then
    match value with
    | [] => Some CInvalidPseudoHeaderValue
    | first :: r =>
      if negb (is_alpha first) then Some CInvalidPseudoHeaderValue
      else if forallb (fun b => is_alnum b || (b =? 43) || (b =? 45) || (b =? 46)) r
      then None else Some CInvalidPseudoHeaderValue
    end
  else if bytes_eqb name (str ":status") then
    if negb (len value =? 3) then Some CInvalidPseudoHeaderValue
    else if forallb is_digit value then None else Some CInvalidPseudoHeaderValue
  else if bytes_eqb name (str ":protocol") then check_upgrade_token value
  else None.

Definition check_header (name value : bytes) : option CheckError :=
  match name with
  | [] => Some CEmptyFieldName
  | c :: rest =>
    let is_pseudo := c =? 58 in
    match check_name_bytes (if is_pseudo then rest else name) with
    | Some e => Some e
    | None =>
      if is_pseudo && (len name =? 1) then Some CUnknownPseudoHeader
      else if is_pseudo && negb (is_known_pseudo_header name) then Some CUnknownPseudoHeader
      else match check_value_bytes value with
      | Some e => Some e
      | None =>
        let bad_edge := match head value, last value with
          | Some first, Some last => negb (is_field_vchar first) || negb (is_field_vchar last)
          | _, _ => false
          end in
        if bad_edge then Some CFieldValueLeadingOrTrailingWhitespace
        else if is_pseudo then check_pseudo_value name value
        else None
      end
    end
  end.

(** [Header] and its constructors. *)
Record Header := mkHeader { name : bytes; value : bytes; never_indexed : bool }.

#[export] Instance Header_eq_dec : EqDecision Header.
Proof. solve_decision. Defined.

Definition header_error (n v : bytes) (e : CheckError) : HeaderError :=
  match e with
  | CEmptyFieldName => EmptyFieldName
  | CUppercaseFieldName => UppercaseFieldName n
  | CInvalidFieldNameByte b => InvalidFieldNameByte n b
  | CInvalidFieldValueByte b => InvalidFieldValueByte n b
  | CFieldValueLeadingOrTrailingWhitespace => FieldValueLeadingOrTrailingWhitespace n
  | CUnknownPseudoHeader => UnknownPseudoHeader n
  | CInvalidPseudoHeaderValue => InvalidPseudoHeaderValue n v
  end.

Definition header_new (n v : bytes) : result HeaderError Header :=
  match check_header n v with
  | None => Ok (mkHeader n v false)
  | Some e => Err (header_error n v e)
  end.

(** [Header::from_validated_parts_internal]. *)
Definition from_validated_parts_internal (n v : bytes) : Header := mkHeader n v false.
Definition with_never_indexed (h : Header) (b : bool) : Header := mkHeader (name h) (value h) b.
Definition header_size (h : Header) : Z := len (name h) + len (value h) + 32.

Definition header_ok (h : Header) : Prop := bytes_ok (name h) /\ bytes_ok (value h).

(** ** The grammar *)
Definition token (f : Z -> bool) (l : bytes) : Prop := l <> [] /\ Forall (fun b => f b = true) l.

(** protocol = token [ "/" token ] (RFC 9110 Section 7.8). *)
Definition upgrade_token (v : bytes) : Prop :=
  token is_tchar v \/
  exists n ver, token is_tchar n /\ token is_tchar ver /\ v = n ++ 47 :: ver.

Definition scheme_grammar (v : bytes) : Prop :=
  exists c r, v = c :: r /\ is_alpha c = true /\
    Forall (fun b => is_alnum b || (b =? 43) || (b =? 45) || (b =? 46) = true) r.

Definition pseudo_value_grammar (n v : bytes) : Prop :=
  (n = str ":method" -> token is_tchar v) /\
  (n = str ":scheme" -> scheme_grammar v) /\
  (n = str ":status" -> len v = 3 /\ Forall (fun b => is_digit b = true) v) /\
  (n = str ":protocol" -> upgrade_token v).

(** field-value: visible characters, with blanks only between them. *)
Definition value_grammar (v : bytes) : Prop :=
  Forall (fun b => is_field_vchar b = true \/ b = 32 \/ b = 9) v /\
  (forall b r, v = b :: r -> is_field_vchar b = true) /\
  (forall b r, v = r ++ [b] -> is_field_vchar b = true).

Definition header_grammar (n v : bytes) : Prop :=
  (token is_lowercase_token_byte n \/ n ∈ KNOWN_PSEUDO_HEADERS) /\
  value_grammar v /\ pseudo_value_grammar n v.

(** ** [check_header] decides the grammar *)
Lemma bytes_eqb_eq a b : bytes_eqb a b = true <-> a = b.
Proof. apply bool_decide_eq_true. Qed.
Lemma bytes_eqb_neq a b : bytes_eqb a b = false <-> a <> b.
Proof. apply bool_decide_eq_false. Qed.

Lemma punct_cases b : existsb (Z.eqb b) token_punct = true -> b ∈ token_punct.
Proof. intros (x & Hx & ->%Z.eqb_eq)%existsb_exists. by apply list_elem_of_In. Qed.

Lemma lowercase_not_upper b : is_lowercase_token_byte b = true -> is_upper b = false /\ b <> 58.
Proof.
  unfold is_lowercase_token_byte, is_digit, is_lower, is_upper, in_range.
  destruct (existsb _ _) eqn:E; cbn [orb].
  - intros _. apply punct_cases in E. vm_compute in E. set_unfold in E.
    destruct_or!; try done; subst; by split.
  - rewrite !orb_true_iff, !andb_true_iff. intros [?|?]; zify_bool; split;
      (try apply andb_false_iff); lia.
Qed.

Lemma check_name_bytes_None l :
  check_name_bytes l = None <-> Forall (fun b => is_lowercase_token_byte b = true) l.
Proof.
  induction l as [|b r IH]; cbn; [by split|]. rewrite Forall_cons, <- IH.
  destruct (is_lowercase_token_byte b) eqn:E; cbn [negb].
  - destruct (lowercase_not_upper b E) as [-> _]. naive_solver.
  - destruct (is_upper b); naive_solver.
Qed.

Lemma check_value_bytes_None l :
  check_value_bytes l = None <->
  Forall (fun b => is_field_vchar b = true \/ b = 32 \/ b = 9) l.
Proof.
  induction l as [|b r IH]; cbn; [by split|]. rewrite Forall_cons, <- IH.
  destruct (is_field_vchar b); cbn [orb negb]; [naive_solver|].
  destruct (Z.eqb_spec b 32), (Z.eqb_spec b 9); cbn; naive_solver.
Qed.

Lemma forallb_Forall_true {A} (f : A -> bool) l :
  forallb f l = true <-> Forall (fun x => f x = true) l.
Proof. rewrite forallb_forall, List.Forall_forall. done. Qed.

Lemma find_slash_spec l i :
  match find_slash l i with
  | None => Forall (fun b => b <> 47) l
  | Some j => exists a r, l = a ++ 47 :: r /\ Forall (fun b => b <> 47) a /\ j = i + len a
  end.
Proof.
  revert i. induction l as [|b r IH]; intros i; cbn [find_slash]; [done|].
  destruct (Z.eqb_spec b 47) as [->|].
  - exists [], r. split_and!; [done..|rewrite len_nil; lia].
  - specialize (IH (i + 1)). destruct (find_slash r (i + 1)).
    + destruct IH as (a & r' & -> & Ha & ->). exists (b :: a), r'.
      split_and!; [done|by constructor|rewrite len_cons; lia].
    + by constructor.
Qed.

Lemma tchar_not_slash l : Forall (fun b => is_tchar b = true) l -> Forall (fun b => b <> 47) l.
Proof. intros H. eapply Forall_impl; [exact H|]. intros b Hb ->. vm_compute in Hb. done. Qed.

(** The first slash of [a ++ / ++ r] is unique. *)
Lemma slash_unique a r a' r' :
  a ++ 47 :: r = a' ++ 47 :: r' -> Forall (fun b => b <> 47) a -> Forall (fun b => b <> 47) a' ->
  a = a' /\ r = r'.
Proof.
  revert a'. induction a as [|x a IH]; intros [|y a'] E H H'; cbn in E; simplify_eq; try done.
  - inversion_clear H'. done.
  - inversion_clear H. done.
  - inversion_clear H. inversion_clear H'. destruct (IH a'); naive_solver.
Qed.

Lemma check_upgrade_token_None v : check_upgrade_token v = None <-> upgrade_token v.
Proof.
  unfold check_upgrade_token, upgrade_token, token.
  destruct (Z.eqb_spec (len v) 0) as [E|E].
  { apply len_zero in E as ->. split; [done|]. intros [[? _]|(n & ver & _ & _ & H)]; [done|].
    by apply app_cons_not_nil in H. }
  assert (v <> []) as Hne by (intros ->; done).
  pose proof (find_slash_spec v 0) as Hs. destruct (find_slash v 0) as [j|].
  - destruct Hs as (a & r & -> & Ha & ->). rewrite Z.add_0_l, take_z_app_len.
    replace (drop_z (len a + 1) (a ++ 47 :: r)) with r.
    2: { unfold drop_z. replace (Z.to_nat _) with (length a + 1)%nat by (unfold len; lia).
         by rewrite <- drop_drop, drop_app_length. }
    rewrite len_app, len_cons. pose proof (len_nonneg a). pose proof (len_nonneg r).
    assert (forall c : bool, (if c then Some CInvalidPseudoHeaderValue else None) = None <-> c = false)
      as Hif by (by intros []).
    split.
    + intros Hc. right. exists a, r.
      destruct (Z.eqb_spec (len a) 0); [done|]. destruct (forallb is_tchar a) eqn:E1; [|done].
      revert Hc. cbn [negb]. case_z; [done|]. destruct (forallb is_tchar r) eqn:E2; [|done].
      rewrite forallb_Forall_true in *. intros _.
      split_and!; try done; intros ->; rewrite len_nil in *; lia.
    + intros [[_ Hall]|(n & ver & [Hn Hn'] & [Hv Hv'] & E')].
      * apply tchar_not_slash, Forall_app in Hall as [_ Hall]. inversion_clear Hall. done.
      * apply slash_unique in E' as [-> ->]; auto using tchar_not_slash.
        apply forallb_Forall_true in Hn', Hv'. rewrite Hn', Hv'. cbn [negb].
        destruct n; [done|]. destruct ver; [done|]. rewrite !len_cons in *.
        pose proof (len_nonneg n). pose proof (len_nonneg ver). by solve_cmp.
  - destruct (forallb is_tchar v) eqn:E1.
    + rewrite forallb_Forall_true in E1. split; [|done]. intros _. left. done.
    + split; [done|]. intros [[_ H]|(n & ver & _ & _ & ->)].
      * apply forallb_Forall_true in H. congruence.
      * apply Forall_app in Hs as [_ Hs]. inversion_clear Hs. done.
Qed.

Lemma is_nil_len {A} (l : list A) : (len l =? 0) = false <-> l <> [].
Proof. destruct l; [done|]. rewrite len_cons. pose proof (len_nonneg l). solve_cmp. done. Qed.

Lemma if_none {A} (c : bool) (x : A) : (if c then None else Some x) = None <-> c = true.
Proof. by destruct c. Qed.

Lemma check_pseudo_value_None n v : check_pseudo_value n v = None <-> pseudo_value_grammar n v.
Proof.
  unfold check_pseudo_value, pseudo_value_grammar, token, scheme_grammar.
  destruct (bytes_eqb n (str ":method")) eqn:E1; [apply bytes_eqb_eq in E1 as ->|apply bytes_eqb_neq in E1].
  { destruct (len v =? 0) eqn:E.
    - split; [done|]. intros [H _]. destruct H as [H _]; [done|]. by apply is_nil_len in H; rewrite E in H.
    - apply is_nil_len in E. rewrite if_none, forallb_Forall_true. naive_solver. }
  destruct (bytes_eqb n (str ":scheme")) eqn:E2; [apply bytes_eqb_eq in E2 as ->|apply bytes_eqb_neq in E2].
  { destruct v as [|c r]; [split; [done|]; intros (_ & H & _); destruct H as (? & ? & ? & _); done|].
    destruct (is_alpha c) eqn:Ec; cbn [negb].
    - rewrite if_none, forallb_Forall_true. split; [intros; split_and!; try done; eauto|].
      intros (_ & H & _). destruct H as (? & ? & [= <- <-] & _ & H); done.
    - split; [done|]. intros (_ & H & _). destruct H as (? & ? & [= <- <-] & H & _); congruence. }
  destruct (bytes_eqb n (str ":status")) eqn:E3; [apply bytes_eqb_eq in E3 as ->|apply bytes_eqb_neq in E3].
  { case_z; cbn [negb]; [rewrite if_none, forallb_Forall_true; naive_solver|]. naive_solver. }
  destruct (bytes_eqb n (str ":protocol")) eqn:E4; [apply bytes_eqb_eq in E4 as ->|apply bytes_eqb_neq in E4].
  { rewrite check_upgrade_token_None. naive_solver. }
  naive_solver.
Qed.

Lemma known_pseudo_elem n : is_known_pseudo_header n = true <-> n ∈ KNOWN_PSEUDO_HEADERS.
Proof.
  unfold is_known_pseudo_header. rewrite existsb_exists, list_elem_of_In. split.
  - intros (k & Hk & ->%bytes_eqb_eq). done.
  - intros H. exists n. by rewrite bytes_eqb_eq.
Qed.

(** A known pseudo-header name is a colon and a lowercase token. *)
Lemma known_pseudo_shape n : n ∈ KNOWN_PSEUDO_HEADERS ->
  exists r, n = 58 :: r /\ r <> [] /\ check_name_bytes r = None.
Proof.
  intros H. vm_compute in H. set_unfold in H. destruct_or!; try done; subst;
    eexists; (split; [done|split; [done|vm_compute; done]]).
Qed.

Lemma edges_ok v :
  match head v, last v with
  | Some first, Some last => negb (is_field_vchar first) || negb (is_field_vchar last)
  | _, _ => false
  end = false <->
  (forall b r, v = b :: r -> is_field_vchar b = true) /\
  (forall b r, v = r ++ [b] -> is_field_vchar b = true).
Proof.
  destruct v as [|b0 r0] using rev_ind.
  - cbn. split; [|done]. intros _. split; [done|]. intros b r H. by apply app_cons_not_nil in H.
  - rewrite last_snoc. destruct (r0 ++ [b0]) as [|c k] eqn:E; [by symmetry in E; apply app_cons_not_nil in E|].
    cbn [head]. rewrite orb_false_iff, !negb_false_iff. split.
    + intros [Hc Hb]. split; [intros b r [= <- <-]; done|].
      intros b r H. rewrite <- E in H. apply app_inj_tail in H as [_ ->]. done.
    + intros [H1 H2]. split; [by eapply H1|]. eapply (H2 b0 r0). by rewrite E.
Qed.

Lemma check_header_grammar n v : check_header n v = None <-> header_grammar n v.
Proof.
  unfold header_grammar, value_grammar. rewrite <- edges_ok, <- check_value_bytes_None.
  rewrite <- check_pseudo_value_None. unfold token. rewrite <- check_name_bytes_None.
  unfold check_header. destruct n as [|c rest].
  { split; [done|]. intros ([[? _]|Hk] & _); [done|]. by apply known_pseudo_shape in Hk as (r & [=] & _). }
  set (edge := match head v with Some _ => _ | None => _ end).
  destruct (Z.eqb_spec c 58) as [->|Hc].
  - cbn [andb]. assert (check_name_bytes (58 :: rest) <> None) as Hn by (vm_compute; done).
    split.
    + destruct (check_name_bytes rest) eqn:En; [done|].
      case_z; [done|]. destruct (is_known_pseudo_header _) eqn:Ek; [|done]. cbn [negb].
      apply known_pseudo_elem in Ek.
      destruct (check_value_bytes v); [done|]. destruct edge; [done|]. naive_solver.
    + intros ([[_ ?]|Hk] & (Hv & He) & Hp); [done|].
      pose proof (known_pseudo_shape _ Hk) as (r & [= <-] & Hr & ->). rewrite Hv, He, Hp.
      apply known_pseudo_elem in Hk as ->. rewrite len_cons. apply is_nil_len in Hr.
      pose proof (len_nonneg rest). zify_bool. by solve_cmp.
  - cbn [andb].
    assert (check_pseudo_value (c :: rest) v = None) as Hpv.
    { apply check_pseudo_value_None. unfold pseudo_value_grammar.
      split_and!; intros Hx; vm_compute in Hx; simplify_eq. }
    split.
    + destruct (check_name_bytes (c :: rest)) eqn:En; [done|].
      destruct (check_value_bytes v); [done|]. destruct edge; [done|]. naive_solver.
    + intros ([[_ ->]|Hk] & (-> & ->) & _); [done|].
      apply known_pseudo_shape in Hk as (? & [= -> ->] & _). done.
Qed.

(** ** Properties *)

(** [Header::new] accepts exactly the header lines of the grammar: the name a lowercase
    token or one of the six known pseudo-headers, the value visible characters with
    blanks inside but not at its ends, and a pseudo-header's value of its own syntax
    (method token, scheme, three status digits, protocol token with an optional
    version); an accepted header holds the name and the value unchanged, and an error
    names the header it refuses. *)
Theorem header_new_grammar n v :
  (header_grammar n v <-> header_new n v = Ok (mkHeader n v false)) /\
  (~ header_grammar n v -> exists e, check_header n v = Some e /\ header_new n v = Err (header_error n v e)).
Proof.
  pose proof (check_header_grammar n v) as Hg. unfold header_new. destruct (check_header n v) as [e|]; split.
  - split; [by intros ?%Hg|done].
  - intros _. by exists e.
  - split; [done|]. intros _. by apply Hg.
  - intros Hn. destruct Hn. by apply Hg.
Qed.

Lemma header_new_grammar_witness :
  header_grammar (str ":status") (str "204") /\
  header_new (str ":status") (str "20x") = Err (InvalidPseudoHeaderValue (str ":status") (str "20x")).
Proof.
  split.
  - apply (proj1 (header_new_grammar (str ":status") (str "204"))). vm_compute. reflexivity.
  - destruct (proj2 (header_new_grammar (str ":status") (str "20x"))) as (e & _ & E).
    + intros H. apply (proj1 (header_new_grammar (str ":status") (str "20x"))) in H. vm_compute in H. discriminate H.
    + vm_compute. reflexivity.
Defined.
