(* ===== verification/StaticTable.v ===== *)
(** The QPACK static table: src/qpack/table.rs (RFC 9204 Appendix A), and the
    search loop it shares with the dynamic table. *)

From Stdlib Require Import String.
From S2P Require Import Prelude Header.

#[local] Notation "n ~> v" := (mkHeader (str n%string) (str v%string) false) (at level 60).

Definition STATIC_TABLE : list Header := [
  ":authority" ~> "";
  ":path" ~> "/";
  "age" ~> "0";
  "content-disposition" ~> "";
  "content-length" ~> "0";
  "cookie" ~> "";
  "date" ~> "";
  "etag" ~> "";
  "if-modified-since" ~> "";
  "if-none-match" ~> "";
  "last-modified" ~> "";
  "link" ~> "";
  "location" ~> "";
  "referer" ~> "";
  "set-cookie" ~> "";
  ":method" ~> "CONNECT";
  ":method" ~> "DELETE";
  ":method" ~> "GET";
  ":method" ~> "HEAD";
  ":method" ~> "OPTIONS";
  ":method" ~> "POST";
  ":method" ~> "PUT";
  ":scheme" ~> "http";
  ":scheme" ~> "https";
  ":status" ~> "103";
  ":status" ~> "200";
  ":status" ~> "304";
  ":status" ~> "404";
  ":status" ~> "503";
  "accept" ~> "*/*";
  "accept" ~> "application/dns-message";
  "accept-encoding" ~> "gzip, deflate, br";
  "accept-ranges" ~> "bytes";
  "access-control-allow-headers" ~> "cache-control";
  "access-control-allow-headers" ~> "content-type";
  "access-control-allow-origin" ~> "*";
  "cache-control" ~> "max-age=0";
  "cache-control" ~> "max-age=2592000";
  "cache-control" ~> "max-age=604800";
  "cache-control" ~> "no-cache";
  "cache-control" ~> "no-store";
  "cache-control" ~> "public, max-age=31536000";
  "content-encoding" ~> "br";
  "content-encoding" ~> "gzip";
  "content-type" ~> "application/dns-message";
  "content-type" ~> "application/javascript";
  "content-type" ~> "application/json";
  "content-type" ~> "application/x-www-form-urlencoded";
  "content-type" ~> "image/gif";
  "content-type" ~> "image/jpeg";
  "content-type" ~> "image/png";
  "content-type" ~> "text/css";
  "content-type" ~> "text/html; charset=utf-8";
  "content-type" ~> "text/plain";
  "content-type" ~> "text/plain;charset=utf-8";
  "range" ~> "bytes=0-";
  "strict-transport-security" ~> "max-age=31536000";
  "strict-transport-security" ~> "max-age=31536000; includesubdomains";
  "strict-transport-security" ~> "max-age=31536000; includesubdomains; preload";
  "vary" ~> "accept-encoding";
  "vary" ~> "origin";
  "x-content-type-options" ~> "nosniff";
  "x-xss-protection" ~> "1; mode=block";
  ":status" ~> "100";
  ":status" ~> "204";
  ":status" ~> "206";
  ":status" ~> "302";
  ":status" ~> "400";
  ":status" ~> "403";
  ":status" ~> "421";
  ":status" ~> "425";
  ":status" ~> "500";
  "accept-language" ~> "";
  "access-control-allow-credentials" ~> "FALSE";
  "access-control-allow-credentials" ~> "TRUE";
  "access-control-allow-headers" ~> "*";
  "access-control-allow-methods" ~> "get";
  "access-control-allow-methods" ~> "get, post, options";
  "access-control-allow-methods" ~> "options";
  "access-control-expose-headers" ~> "content-length";
  "access-control-request-headers" ~> "content-type";
  "access-control-request-method" ~> "get";
  "access-control-request-method" ~> "post";
  "alt-svc" ~> "clear";
  "authorization" ~> "";
  "content-security-policy" ~> "script-src 'none'; object-src 'none'; base-uri 'none'";
  "early-data" ~> "1";
  "expect-ct" ~> "";
  "forwarded" ~> "";
  "if-range" ~> "";
  "origin" ~> "";
  "purpose" ~> "prefetch";
  "server" ~> "";
  "timing-allow-origin" ~> "*";
  "upgrade-insecure-requests" ~> "1";
  "user-agent" ~> "";
  "x-forwarded-for" ~> "";
  "x-frame-options" ~> "deny";
  "x-frame-options" ~> "sameorigin"
].

Definition STATIC_TABLE_LEN : Z := 99.

(** [get_static_entry]. *)
Definition get_static_entry (index : Z) : option Header := get_at STATIC_TABLE index.

(** ** The search loop: an exact match, or the first match on the name.

    [find_static_entry] runs it over the array with its positions,
    [DynamicTable::find_entry] over the entries with their absolute indices. *)
Fixpoint find_match (l : list (Z * (bytes * bytes))) (n v : bytes) (name_match : option Z)
    : option Z * option Z :=
  match l with
  | [] => (None, name_match)
  | (i, (en, ev)) :: l' =>
    if bytes_eqb en n then
      if bytes_eqb ev v then (Some i, Some i)
      else find_match l' n v (match name_match with None => Some i | Some _ => name_match end)
    else find_match l' n v name_match
  end.

Definition static_pairs : list (Z * (bytes * bytes)) :=
  imap (fun i h => (Z.of_nat i, (name h, value h))) STATIC_TABLE.

(** [find_static_entry]. *)
Definition find_static_entry (n v : bytes) : option Z * option Z :=
  find_match static_pairs n v None.

Lemma find_match_spec l n v nm :
  match find_match l n v nm with
  | (Some i, _) => (i, (n, v)) ∈ l
  | (None, Some i) => nm = Some i \/ exists v', (i, (n, v')) ∈ l
  | (None, None) => nm = None /\ forall i v', (i, (n, v')) ∉ l
  end.
Proof.
  revert nm. induction l as [|[i [en ev]] l IH]; intros nm; cbn [find_match].
  - destruct nm; [by left|]. split; [done|]. intros i v'. apply not_elem_of_nil.
  - destruct (bytes_eqb en n) eqn:En; [apply bytes_eqb_eq in En as ->|apply bytes_eqb_neq in En].
    + destruct (bytes_eqb ev v) eqn:Ev; [apply bytes_eqb_eq in Ev as ->; by left|].
      specialize (IH (match nm with None => Some i | Some _ => nm end)).
      destruct (find_match _ _ _ _) as [[j|] [k|]].
      1, 2: by right.
      * destruct IH as [IH|[v' IH]]; [|right; exists v'; by right].
        destruct nm; simplify_eq; [by left|]. right. exists ev. by left.
      * destruct nm; by destruct IH.
    + specialize (IH nm). destruct (find_match _ _ _ _) as [[j|] [k|]].
      1, 2: by right.
      * destruct IH as [IH|[v' IH]]; [by left|]. right. exists v'. by right.
      * destruct IH as [-> IH]. split; [done|]. intros j v' Hin.
        apply elem_of_cons in Hin as [?|Hin]; [by simplify_eq|]. by eapply IH.
Qed.

Lemma static_pairs_elem i n v :
  (i, (n, v)) ∈ static_pairs <->
  exists h, get_static_entry i = Some h /\ name h = n /\ value h = v.
Proof.
  unfold static_pairs, get_static_entry. rewrite elem_of_lookup_imap. split.
  - intros (k & h & [= -> -> ->] & Hk). exists h. split; [|done]. apply get_at_Some.
    split; [lia|]. by rewrite Nat2Z.id.
  - intros (h & [Hi Hk]%get_at_Some & <- & <-). exists (Z.to_nat i), h.
    by rewrite Z2Nat.id by lia.
Qed.

Lemma find_static_spec n v :
  match find_static_entry n v with
  | (Some i, _) => (i, (n, v)) ∈ static_pairs
  | (None, Some i) => None = Some i \/ exists v', (i, (n, v')) ∈ static_pairs
  | (None, None) => None = @None Z /\ forall i v', (i, (n, v')) ∉ static_pairs
  end.
Proof. exact (find_match_spec static_pairs n v None). Qed.

Lemma get_static_entry_range i h : get_static_entry i = Some h -> 0 <= i < STATIC_TABLE_LEN.
Proof. intros [? H]%get_at_Some. apply lookup_lt_Some in H. vm_compute length in H. unfold STATIC_TABLE_LEN. lia. Qed.

(** Every literal of the table passes the check of [Header::from_static]. *)
Lemma static_table_checked :
  forallb (fun h => match check_header (name h) (value h) with None => true | Some _ => false end)
    STATIC_TABLE = true.
Proof. vm_compute. reflexivity. Qed.

(** The entries are made of bytes, and none of them is marked never-indexed. *)
Lemma get_static_entry_ok k h : get_static_entry k = Some h -> header_ok h /\ never_indexed h = false.
Proof.
  intros [_ H%list_elem_of_lookup_2]%get_at_Some. revert h H.
  assert (Forall (fun h => header_ok h /\ never_indexed h = false) STATIC_TABLE) as Hall.
  { assert (forallb (fun h => bool_decide (bytes_ok (name h)) && bool_decide (bytes_ok (value h)) &&
      negb (never_indexed h)) STATIC_TABLE = true) as E by (vm_compute; reflexivity).
    apply List.Forall_forall. intros h Hin. eapply forallb_forall in E; [|exact Hin].
    zify_bool. by repeat match goal with H : bool_decide _ = true |- _ => apply bool_decide_eq_true in H end. }
  rewrite Forall_forall in Hall. exact Hall.
Qed.
