(* ===== verification/DynamicTable.v ===== *)
(** The QPACK dynamic table: src/qpack/dynamic_table.rs (RFC 9204 Section 3.2).

    [entries] is the [VecDeque] of the source, newest first. *)

From S2P Require Import Prelude Header StaticTable.

Definition ENTRY_OVERHEAD : Z := 32.

Record DynamicEntry := mkEntry {
  entry_name : bytes; entry_value : bytes; absolute_index : Z }.

#[export] Instance DynamicEntry_eq_dec : EqDecision DynamicEntry.
Proof. solve_decision. Defined.

Definition size_of (n v : bytes) : Z := ENTRY_OVERHEAD + len n + len v.
Definition entry_size (e : DynamicEntry) : Z := size_of (entry_name e) (entry_value e).

Record DynamicTable := mkTable {
  entries : list DynamicEntry;
  max_capacity : Z;
  current_size : Z;
  insert_count : Z;
  dropped_count : Z;
  eviction_limit : Z }.

(** [DynamicTable::new] and [with_capacity]. *)
Definition with_capacity (capacity : Z) : DynamicTable := mkTable [] capacity 0 0 0 0.
Definition table_new : DynamicTable := with_capacity 0.

Definition is_empty (t : DynamicTable) : bool := match entries t with [] => true | _ => false end.

(** [set_eviction_limit]. *)
Definition set_eviction_limit (t : DynamicTable) (limit : Z) : DynamicTable :=
  mkTable (entries t) (max_capacity t) (current_size t) (insert_count t) (dropped_count t) limit.

(** One turn of the loop of [evict_to_fit]: [pop_back] and the two counters. *)
Definition pop_oldest (t : DynamicTable) (e : DynamicEntry) : DynamicTable :=
  mkTable (removelast (entries t)) (max_capacity t) (current_size t - entry_size e)
    (insert_count t) (dropped_count t + 1) (eviction_limit t).

(** [evict_to_fit]. Every turn removes an entry, so one unit of fuel per entry is enough. *)
Fixpoint evict_loop (fuel : nat) (required_size : Z) (t : DynamicTable) : DynamicTable :=
  if max_capacity t <? current_size t + required_size then
    match last (entries t) with
    | Some e =>
      if absolute_index e <? eviction_limit t then t
      else match fuel with
        | S fuel' => evict_loop fuel' required_size (pop_oldest t e)
        | O => t
        end
    | None => t
    end
  else t.
Definition evict_to_fit (t : DynamicTable) (required_size : Z) : DynamicTable :=
  evict_loop (length (entries t)) required_size t.

(** [set_capacity]. *)
Definition set_capacity (t : DynamicTable) (capacity : Z) : DynamicTable :=
  evict_to_fit (mkTable (entries t) capacity (current_size t) (insert_count t)
    (dropped_count t) (eviction_limit t)) 0.

(** The end of [insert]: the new entry goes to the front. *)
Definition push_entry (t : DynamicTable) (n v : bytes) : DynamicTable :=
  let e := mkEntry n v (insert_count t) in
  mkTable (e :: entries t) (max_capacity t) (current_size t + entry_size e)
    (insert_count t + 1) (dropped_count t) (eviction_limit t).

(** [insert]. *)
Definition insert (t : DynamicTable) (n v : bytes) : DynamicTable * option Z :=
  let sz := size_of n v in
  if max_capacity t <? sz then (t, None)
  else
    let t := evict_to_fit t sz in
    if max_capacity t <? current_size t + sz then (t, None)
    else (push_entry t n v, Some (insert_count t)).

(** The lookups. *)
Definition get_by_relative_index_encoder (t : DynamicTable) (relative_index : Z) : option DynamicEntry :=
  get_at (entries t) relative_index.
Definition get_by_absolute_index (t : DynamicTable) (i : Z) : option DynamicEntry :=
  if i <? dropped_count t then None
  else if insert_count t <=? i then None
  else get_at (entries t) (insert_count t - 1 - i).
Definition get_by_relative_index_repr (t : DynamicTable) (relative_index base : Z) : option DynamicEntry :=
  if base <=? relative_index then None
  else get_by_absolute_index t (base - relative_index - 1).
Definition get_by_post_base_index (t : DynamicTable) (post_base_index base : Z) : option DynamicEntry :=
  i ← checked_add base post_base_index; get_by_absolute_index t i.

(** [duplicate]. *)
Definition duplicate (t : DynamicTable) (relative_index : Z) : DynamicTable * option Z :=
  match get_by_relative_index_encoder t relative_index with
  | None => (t, None)
  | Some e => insert t (entry_name e) (entry_value e)
  end.

(** [find_entry]. *)
Definition entry_pairs (t : DynamicTable) : list (Z * (bytes * bytes)) :=
  map (fun e => (absolute_index e, (entry_name e, entry_value e))) (entries t).
Definition find_entry (t : DynamicTable) (n v : bytes) : option Z * option Z :=
  find_match (entry_pairs t) n v None.

(** [clear]. *)
Definition clear (t : DynamicTable) : DynamicTable :=
  mkTable [] (max_capacity t) 0 (insert_count t) (dropped_count t + len (entries t)) (eviction_limit t).

(** ** Invariant *)
Fixpoint total_size (l : list DynamicEntry) : Z :=
  match l with [] => 0 | e :: l' => entry_size e + total_size l' end.

(** The entries carry consecutive absolute indices below [n], newest first. *)
Fixpoint indexed (n : Z) (l : list DynamicEntry) : Prop :=
  match l with [] => True | e :: l' => absolute_index e = n - 1 /\ indexed (n - 1) l' end.

Definition entry_ok (e : DynamicEntry) : Prop := bytes_ok (entry_name e) /\ bytes_ok (entry_value e).

Record table_wf (t : DynamicTable) : Prop := {
  wf_size : current_size t = total_size (entries t);
  wf_indexed : indexed (insert_count t) (entries t);
  wf_count : insert_count t = dropped_count t + len (entries t);
  wf_dropped : 0 <= dropped_count t;
  wf_entries : Forall entry_ok (entries t) }.

(** The table of a decoder, where nothing is pinned, also stays within its capacity. *)
Definition table_fits (t : DynamicTable) : Prop := current_size t <= max_capacity t.

(** ** Lemmas *)
Lemma entry_size_pos e : 32 <= entry_size e.
Proof. unfold entry_size, size_of, ENTRY_OVERHEAD. zlen. Qed.
Lemma total_size_app l k : total_size (l ++ k) = total_size l + total_size k.
Proof. induction l; cbn [app total_size]; lia. Qed.
Lemma total_size_nonneg l : 0 <= total_size l.
Proof. induction l as [|e l IH]; cbn [total_size]; [lia|]. pose proof (entry_size_pos e). lia. Qed.

Lemma indexed_app n l k : indexed n (l ++ k) <-> indexed n l /\ indexed (n - len l) k.
Proof.
  revert n. induction l as [|e l IH]; intros n; cbn [app indexed].
  - rewrite len_nil, Z.sub_0_r. tauto.
  - rewrite IH, len_cons. replace (n - 1 - len l) with (n - (1 + len l)) by lia. tauto.
Qed.

Lemma indexed_lookup n l i e :
  indexed n l -> l !! i = Some e -> absolute_index e = n - 1 - Z.of_nat i.
Proof.
  revert n i. induction l as [|x l IH]; intros n i H Hi; [done|]. destruct H as [Hx H].
  destruct i as [|i]; cbn in Hi; [simplify_eq; lia|]. apply (IH _ _ H) in Hi. lia.
Qed.

Lemma removelast_last {A} (l : list A) e : last l = Some e -> l = removelast l ++ [e].
Proof.
  destruct l as [|x l _] using rev_ind; [done|]. rewrite last_snoc. intros [= ->].
  by rewrite removelast_last.
Qed.

Lemma pop_oldest_wf t e : table_wf t -> last (entries t) = Some e -> table_wf (pop_oldest t e).
Proof.
  intros [Hs Hi Hc Hd He] Hl. apply removelast_last in Hl. rewrite Hl in Hs, Hi, Hc, He.
  apply indexed_app in Hi as [Hi _]. apply Forall_app in He as [He _].
  rewrite total_size_app in Hs. cbn [total_size] in Hs. rewrite len_app in Hc.
  change (len [e]) with 1 in Hc. split; cbn; try done; lia.
Qed.

(** [evict_to_fit] drops a run of oldest entries, none of them pinned; it drops no
    more than needed, and stops when the new entry fits or a pinned one is met. *)
Record evicted (sz : Z) (t t' : DynamicTable) (dropped : list DynamicEntry) : Prop := {
  ev_entries : entries t = entries t' ++ dropped;
  ev_table : t' = mkTable (entries t') (max_capacity t) (current_size t - total_size dropped)
    (insert_count t) (dropped_count t + len dropped) (eviction_limit t);
  ev_unpinned : Forall (fun e => eviction_limit t <= absolute_index e) dropped;
  ev_wf : table_wf t';
  ev_needed : dropped = [] \/ max_capacity t < current_size t - total_size (tail dropped) + sz;
  ev_stop : current_size t' + sz <= max_capacity t \/ entries t' = [] \/
    exists e, last (entries t') = Some e /\ absolute_index e < eviction_limit t }.

Lemma evicted_nil sz t : table_wf t ->
  (current_size t + sz <= max_capacity t \/ entries t = [] \/
   exists e, last (entries t) = Some e /\ absolute_index e < eviction_limit t) ->
  evicted sz t t [].
Proof.
  intros Hw Hs. split; rewrite ?app_nil_r; try done; [|by left].
  cbn [total_size]. rewrite Z.sub_0_r, len_nil, Z.add_0_r. by destruct t.
Qed.

Lemma evict_loop_spec fuel sz t :
  table_wf t -> (length (entries t) <= fuel)%nat ->
  exists dropped, evicted sz t (evict_loop fuel sz t) dropped.
Proof.
  revert t. induction fuel as [|fuel IH]; intros t Hw Hf; cbn [evict_loop].
  all: case_z; [|exists []; apply evicted_nil; auto].
  all: destruct (last (entries t)) as [e|] eqn:El;
    [|exists []; apply evicted_nil; [done|]; right; left; by apply last_None].
  all: case_z; [exists []; apply evicted_nil; eauto|].
  - destruct (entries t); [done|cbn in Hf; lia].
  - pose proof (removelast_last _ _ El) as Hsplit.
    destruct (IH (pop_oldest t e)) as [d [E1 E2 E3 E4 E5 E6]].
    { by apply pop_oldest_wf. }
    { apply (f_equal length) in Hsplit. rewrite length_app in Hsplit. cbn in *. lia. }
    set (t' := evict_loop _ _ _) in *. cbn [entries pop_oldest current_size max_capacity
      insert_count dropped_count eviction_limit] in *.
    exists (d ++ [e]). split; try done.
    + by rewrite Hsplit, E1, app_assoc.
    + rewrite E2 at 1. f_equal; [rewrite total_size_app; cbn [total_size]; lia|].
      rewrite len_app. change (len [e]) with 1. lia.
    + apply Forall_app. split; [done|by repeat constructor].
    + right. destruct d as [|x d]; cbn [app tail total_size] in *; [lia|].
      destruct E5 as [?|E5]; [done|]. rewrite total_size_app. cbn [total_size]. lia.
Qed.

Lemma evict_to_fit_spec sz t :
  table_wf t -> exists dropped, evicted sz t (evict_to_fit t sz) dropped.
Proof. intros. by apply evict_loop_spec. Qed.

(** A table with nothing pinned is evicted until the entry fits or nothing is left. *)
Lemma evict_to_fit_unpinned sz t :
  table_wf t -> eviction_limit t = 0 -> sz <= max_capacity t ->
  current_size (evict_to_fit t sz) + sz <= max_capacity t.
Proof.
  intros Hw Hl Hsz. destruct (evict_to_fit_spec sz t Hw) as [d [E1 E2 E3 E4 E5 [E6|[E6|(e & He & Hi)]]]].
  - done.
  - destruct E4 as [Hs _ _ _ _]. rewrite E6 in Hs. cbn in Hs. lia.
  - destruct E4 as [_ Hi' Hc Hd _]. pose proof (removelast_last _ _ He) as Hsplit.
    rewrite Hsplit in Hi'. apply indexed_app in Hi' as [_ [Hi' _]].
    rewrite Hsplit, len_app in Hc. change (len [e]) with 1 in Hc. lia.
Qed.

(** ** Every operation keeps the invariant *)
Lemma with_capacity_wf c : table_wf (with_capacity c).
Proof. by split. Qed.

Lemma set_eviction_limit_wf t l : table_wf t -> table_wf (set_eviction_limit t l).
Proof. intros []; by split. Qed.

(** Only the capacity field changes before the eviction. *)
Lemma set_capacity_field_wf t c : table_wf t ->
  table_wf (mkTable (entries t) c (current_size t) (insert_count t) (dropped_count t) (eviction_limit t)).
Proof. intros []. by split. Qed.

Lemma set_capacity_wf t c : table_wf t -> table_wf (set_capacity t c).
Proof.
  intros []. unfold set_capacity.
  edestruct evict_to_fit_spec as [d []]; [|done]. by split.
Qed.

Lemma push_entry_wf t n v :
  table_wf t -> bytes_ok n -> bytes_ok v -> table_wf (push_entry t n v).
Proof.
  intros [Hs Hi Hc Hd He] Hn Hv. split; cbn [push_entry entries current_size insert_count dropped_count].
  - cbn [total_size]. lia.
  - cbn [indexed absolute_index]. by replace (insert_count t + 1 - 1) with (insert_count t) by lia.
  - rewrite len_cons. lia.
  - done.
  - by constructor.
Qed.

Lemma insert_wf t n v : table_wf t -> bytes_ok n -> bytes_ok v -> table_wf (fst (insert t n v)).
Proof.
  intros Hw Hn Hv. unfold insert. case_z; [done|].
  destruct (evict_to_fit_spec (size_of n v) t Hw) as [d []].
  case_z; [done|]. by apply push_entry_wf.
Qed.

Lemma get_relative_ok t i e :
  table_wf t -> get_by_relative_index_encoder t i = Some e -> entry_ok e.
Proof.
  intros [] [_ H]%get_at_Some. apply list_elem_of_lookup_2 in H.
  rewrite Forall_forall in wf_entries0. by apply wf_entries0.
Qed.

Lemma duplicate_wf t i : table_wf t -> table_wf (fst (duplicate t i)).
Proof.
  intros Hw. unfold duplicate. destruct (get_by_relative_index_encoder t i) as [e|] eqn:E; [|done].
  apply get_relative_ok in E as []; [|done]. by apply insert_wf.
Qed.

Lemma clear_wf t : table_wf t -> table_wf (clear t).
Proof.
  intros [Hs Hi Hc Hd He]. pose proof (len_nonneg (entries t)).
  split; cbn; try done; unfold len in *; cbn; lia.
Qed.

(** ** Lookups *)
Lemma get_by_absolute_index_spec t i e :
  table_wf t ->
  get_by_absolute_index t i = Some e <-> e ∈ entries t /\ absolute_index e = i.
Proof.
  intros [Hs Hi Hc Hd He]. unfold get_by_absolute_index. split.
  - case_z; [done|]. case_z; [done|]. intros [? Hl]%get_at_Some.
    pose proof (indexed_lookup _ _ _ _ Hi Hl). split; [by eapply list_elem_of_lookup_2|]. lia.
  - intros [[k Hk]%list_elem_of_lookup <-]. rewrite (indexed_lookup _ _ _ _ Hi Hk).
    pose proof (lookup_lt_Some _ _ _ Hk). unfold len in Hc. solve_cmp.
    apply get_at_Some. split; [lia|]. rewrite <- Hk. f_equal. lia.
Qed.

(** The live absolute indices are exactly those from [dropped_count] to [insert_count]. *)
Lemma get_by_absolute_index_live t i :
  table_wf t -> is_Some (get_by_absolute_index t i) <-> dropped_count t <= i < insert_count t.
Proof.
  intros [Hs Hi Hc Hd He]. unfold get_by_absolute_index. split.
  - case_z; [by intros []|]. case_z; [by intros []|]. lia.
  - intros ?. solve_cmp. destruct (get_at _ _) eqn:E; [done|].
    apply get_at_None in E; lia.
Qed.

Lemma entry_in_range t e : table_wf t -> e ∈ entries t ->
  dropped_count t <= absolute_index e < insert_count t /\ entry_ok e.
Proof.
  intros Hw He. split.
  - apply get_by_absolute_index_live; [done|]. exists e. by apply get_by_absolute_index_spec.
  - destruct Hw. rewrite Forall_forall in wf_entries0. by apply wf_entries0.
Qed.

Lemma entry_pairs_elem t i n v :
  (i, (n, v)) ∈ entry_pairs t <-> mkEntry n v i ∈ entries t.
Proof.
  unfold entry_pairs. rewrite list_elem_of_In, in_map_iff, list_elem_of_In. split.
  - intros ([] & [= <- <- <-] & H). done.
  - intros H. by exists (mkEntry n v i).
Qed.

(** [find_entry] returns live entries of the table. *)
Lemma find_entry_spec t n v :
  table_wf t ->
  match find_entry t n v with
  | (Some i, _) => get_by_absolute_index t i = Some (mkEntry n v i)
  | (None, Some i) => exists v', get_by_absolute_index t i = Some (mkEntry n v' i)
  | (None, None) => forall e, e ∈ entries t -> entry_name e <> n
  end.
Proof.
  intros Hw. pose proof (find_match_spec (entry_pairs t) n v None) as H.
  unfold find_entry. destruct (find_match _ _ _ _) as [[i|] [j|]].
  1, 2: apply get_by_absolute_index_spec; [done|]; by rewrite entry_pairs_elem in H.
  - destruct H as [?|[v' H]]; [done|]. exists v'. apply get_by_absolute_index_spec; [done|].
    by rewrite entry_pairs_elem in H.
  - destruct H as [_ H]. intros [n' v' i] He <-. apply (H i v'). by apply entry_pairs_elem.
Qed.

(** ** [insert] *)

(** The outcome of [insert]: refused, or the new entry ahead of the surviving ones. *)
Lemma insert_outcome t n v :
  table_wf t -> bytes_ok n -> bytes_ok v ->
  match insert t n v with
  | (t', Some i) =>
    i = insert_count t /\ table_wf t' /\ table_fits t' /\
    insert_count t' = insert_count t + 1 /\ max_capacity t' = max_capacity t /\
    eviction_limit t' = eviction_limit t /\
    exists kept dropped, entries t = kept ++ dropped /\ entries t' = mkEntry n v i :: kept /\
      Forall (fun e => eviction_limit t <= absolute_index e) dropped /\
      (dropped = [] \/ max_capacity t < size_of n v + total_size kept + entry_size (hd (mkEntry n v i) dropped))
  | (t', None) =>
    table_wf t' /\ insert_count t' = insert_count t /\
    (max_capacity t < size_of n v \/
     max_capacity t < total_size (entries t') + size_of n v /\
     (eviction_limit t = 0 -> False))
  end.
Proof.
  intros Hw Hn Hv. unfold insert. case_z; [auto|].
  destruct (evict_to_fit_spec (size_of n v) t Hw) as [d Hev].
  pose proof (evict_to_fit_unpinned (size_of n v) t Hw) as Hunp.
  destruct Hev as [E1 E2 E3 E4 E5 _]. set (t1 := evict_to_fit t _) in *.
  assert (max_capacity t1 = max_capacity t /\ insert_count t1 = insert_count t /\
          eviction_limit t1 = eviction_limit t) as (M & I & L) by (rewrite E2; done).
  destruct Hw as [Hs _ _ _ _]. rewrite E1, total_size_app in Hs.
  pose proof E4 as [Hs1 _ _ _ _].
  case_z.
  - split_and!; try done. right. split; [lia|]. intros Hl. specialize (Hunp Hl). lia.
  - split_and!; try done.
    + by apply push_entry_wf.
    + unfold table_fits. cbn. unfold entry_size. cbn. lia.
    + exists (entries t1), d. split_and!; try done.
      * destruct E5 as [?|E5]; [by left|]. destruct d as [|e d]; [by left|]. right.
        cbn [tail total_size hd] in *. lia.
Qed.

(** ** A decoder's table follows the encoder's *)

(** Equal but for the pins, which only an encoder sets. *)
Definition same_table (te td : DynamicTable) : Prop :=
  td = set_eviction_limit te 0.

Lemma same_table_fields te td : same_table te td ->
  entries td = entries te /\ max_capacity td = max_capacity te /\ current_size td = current_size te /\
  insert_count td = insert_count te /\ dropped_count td = dropped_count te /\ eviction_limit td = 0.
Proof. by intros ->. Qed.

Lemma same_table_wf te td : same_table te td -> table_wf te -> table_wf td.
Proof. intros ->. apply set_eviction_limit_wf. Qed.

Lemma same_table_get te td i : same_table te td ->
  get_by_absolute_index td i = get_by_absolute_index te i.
Proof. by intros ->. Qed.

Lemma evict_loop_same fuel sz te :
  table_wf te ->
  let te' := evict_loop fuel sz te in
  current_size te' + sz <= max_capacity te' ->
  same_table te' (evict_loop fuel sz (set_eviction_limit te 0)).
Proof.
  revert te. induction fuel as [|fuel IH]; intros te Hw; cbn [evict_loop].
  all: cbn [max_capacity current_size entries set_eviction_limit eviction_limit].
  all: case_z; [|done]; destruct (last (entries te)) as [e|] eqn:El; [|done].
  all: pose proof (removelast_last _ _ El) as Hsplit.
  all: assert (0 <= absolute_index e) by
    (destruct (entry_in_range te e Hw) as [? _];
      [rewrite Hsplit; apply elem_of_app; right; by left|destruct Hw; lia]).
  all: solve_cmp; case_z; cbn zeta; intros Hf; [lia|].
  - lia.
  - apply (IH (pop_oldest te e)); [by apply pop_oldest_wf|done].
Qed.

Lemma evict_to_fit_same sz te td :
  table_wf te -> same_table te td ->
  current_size (evict_to_fit te sz) + sz <= max_capacity (evict_to_fit te sz) ->
  same_table (evict_to_fit te sz) (evict_to_fit td sz).
Proof. intros Hw -> H. by apply evict_loop_same. Qed.

Lemma evict_to_fit_capacity t sz : table_wf t -> max_capacity (evict_to_fit t sz) = max_capacity t.
Proof. intros Hw. destruct (evict_to_fit_spec sz t Hw) as [d []]. by rewrite ev_table0. Qed.

Lemma insert_same te td n v te' i :
  table_wf te -> same_table te td -> insert te n v = (te', Some i) ->
  exists td', insert td n v = (td', Some i) /\ same_table te' td'.
Proof.
  intros Hw Hsame. unfold insert.
  destruct (same_table_fields _ _ Hsame) as (_ & Em & _ & Ei & _). rewrite Em.
  case_z; [done|].
  pose proof (evict_to_fit_same (size_of n v) te td Hw Hsame) as Hs.
  pose proof (evict_to_fit_capacity te (size_of n v) Hw) as Hc.
  case_z; [done|]. intros [= <- <-]. rewrite Hc in Hs. specialize (Hs ltac:(lia)).
  destruct (same_table_fields _ _ Hs) as (_ & Em' & Ec' & Ei' & _).
  rewrite Ec'. solve_cmp. rewrite Ei'. eexists. split; [done|]. rewrite Hs. done.
Qed.

Lemma duplicate_same te td k te' i :
  table_wf te -> same_table te td -> duplicate te k = (te', Some i) ->
  exists td', duplicate td k = (td', Some i) /\ same_table te' td'.
Proof.
  intros Hw Hsame. unfold duplicate, get_by_relative_index_encoder.
  destruct (same_table_fields _ _ Hsame) as (-> & _). destruct (get_at _ _); [|done].
  by apply insert_same.
Qed.

Lemma set_capacity_same te td c :
  table_wf te -> same_table te td -> table_fits (set_capacity te c) ->
  same_table (set_capacity te c) (set_capacity td c).
Proof.
  intros Hw -> Hf. unfold set_capacity in *. apply evict_to_fit_same; [|done|].
  - destruct Hw; by split.
  - unfold table_fits in Hf. lia.
Qed.

(** ** Properties *)

(** The dynamic table (RFC 9204 Section 3.2) is a bounded FIFO: an insertion either
    succeeds, with the next absolute index, in front of the surviving entries, evicting
    oldest entries only, none of them pinned and no more than needed, and leaves the
    table within its capacity; or it fails and adds nothing, because the entry is larger
    than the capacity or a pinned entry is in the way. An inserted entry is found by its
    index and by [find_entry], which never returns anything but live entries. *)
Theorem dynamic_table_insert t n v : table_wf t -> bytes_ok n -> bytes_ok v ->
  match insert t n v with
  | (t', Some i) =>
    i = insert_count t /\ table_wf t' /\ table_fits t' /\ insert_count t' = insert_count t + 1 /\
    get_by_absolute_index t' i = Some (mkEntry n v i) /\ fst (find_entry t' n v) = Some i /\
    exists kept dropped, entries t = kept ++ dropped /\ entries t' = mkEntry n v i :: kept /\
      Forall (fun e => eviction_limit t <= absolute_index e) dropped /\
      (dropped = [] \/ max_capacity t < size_of n v + total_size kept + entry_size (hd (mkEntry n v i) dropped))
  | (t', None) =>
    table_wf t' /\ insert_count t' = insert_count t /\
    (max_capacity t < size_of n v \/ (eviction_limit t <> 0 /\ max_capacity t < total_size (entries t') + size_of n v))
  end.
Proof.
  intros Hw Hn Hv. pose proof (insert_outcome t n v Hw Hn Hv) as H. destruct (insert t n v) as [t' [i|]].
  - destruct H as (Hi & Hw' & Hf & Hc & _ & _ & kept & dropped & E & E' & Hd & Hm).
    split_and!; try done; [| |by exists kept, dropped].
    + apply get_by_absolute_index_spec; [done|]. split; [rewrite E'; by left|done].
    + unfold find_entry, entry_pairs. rewrite E'. cbn. by rewrite !(proj2 (bytes_eqb_eq _ _) eq_refl).
  - destruct H as (? & ? & [?|[? Hl]]); [by auto|]. split_and!; [done..|]. right. by split.
Qed.

Lemma dynamic_table_insert_witness :
  get_by_absolute_index (mkTable [mkEntry [3] [4] 0] 40 34 1 0 0) 0 = Some (mkEntry [3] [4] 0) /\
  insert (with_capacity 40) [3] [4] = (mkTable [mkEntry [3] [4] 0] 40 34 1 0 0, Some 0).
Proof.
  assert (insert (with_capacity 40) [3] [4] = (mkTable [mkEntry [3] [4] 0] 40 34 1 0 0, Some 0)) as E by reflexivity.
  split; [|exact E].
  pose proof (dynamic_table_insert (with_capacity 40) [3] [4] (with_capacity_wf 40)) as H. rewrite E in H.
  destruct H as (_ & _ & _ & _ & Hg & _); [..|exact Hg];
    (apply List.Forall_cons; [split; [discriminate|reflexivity]|constructor]).
Defined.
