(* ===== verification/Wire.v ===== *)
(** String literals (RFC 7541 Section 5.2, RFC 9204 Section 4.1.1):
    src/qpack/wire.rs, used by the field-section codecs, and the helpers at the
    end of src/qpack/encoder_stream.rs, used by the instruction codecs. *)

From S2P Require Import Prelude Codec Varint Integer Huffman.

(** [w(buf)?; Some(n)]. *)
Definition ret_len (n : Z) (w : writer) : writer := fun buf =>
  match w buf with (b, Some _) => (b, Some n) | (b, None) => (b, None) end.

(** ** wire.rs *)

(** [wire::encode_string_with_prefix]. *)
Definition encode_string_with_prefix (data : bytes) (prefix_bits prefix : Z) (use_huffman : bool)
    : writer :=
  let huffman_len := huffman_len data in
  if use_huffman && (huffman_len <? len data) then
    let h_bit := u8_of (Z.shiftl 1 prefix_bits) in
    then_write (encode_integer huffman_len prefix_bits (Z.lor prefix h_bit))
      (ret_len huffman_len (huffman_encode data))
  else then_write (encode_integer (len data) prefix_bits prefix) (copy_slice data).

(** [wire::encode_string]. *)
Definition encode_string (data : bytes) (use_huffman : bool) : writer :=
  let huffman_len := huffman_len data in
  if use_huffman && (huffman_len <? len data) then
    then_write (encode_integer huffman_len 7 0x80) (ret_len huffman_len (huffman_encode data))
  else then_write (encode_integer (len data) 7 0x00) (copy_slice data).

(** The end of the decoders: the slice, Huffman-decoded when the H bit is set. *)
Definition decode_literal (encoded : bytes) (is_huffman : bool) : result QpackError bytes :=
  if is_huffman then huffman_decode encoded else Ok encoded.

(** [wire::decode_string_with_len]. *)
Definition decode_string_with_len (data : bytes) (length : Z) (is_huffman : bool)
    : result QpackError (bytes * Z) :=
  if len data <? length then Err BufferTooShort
  else decoded ← decode_literal (take_z length data) is_huffman; Ok (decoded, length).

(** [decode_string_with_prefix] of encoder_stream.rs; [wire::decode_string] is its
    7-bit instance. *)
Definition decode_string_with_prefix (data : bytes) (prefix_bits : Z)
    : result QpackError (bytes * Z) :=
  match data with
  | [] => Err BufferTooShort
  | b0 :: _ =>
    let huffman_flag := u8_of (Z.shiftl 1 prefix_bits) in
    let is_huffman := negb (Z.land b0 huffman_flag =? 0) in
    '(length, prefix_len) ← decode_integer data prefix_bits;
    let total_len := prefix_len + length in
    if len data <? total_len then Err BufferTooShort
    else
      decoded ← decode_literal (drop_z prefix_len (take_z total_len data)) is_huffman;
      Ok (decoded, total_len)
  end.
Definition decode_string (data : bytes) : result QpackError (bytes * Z) :=
  decode_string_with_prefix data 7.

(** ** encoder_stream.rs: the same encoding appended to a [Vec] *)
Definition push_string_with_prefix (buf data : bytes) (prefix_bits base : Z) : bytes :=
  let huffman_len := huffman_len data in
  if huffman_len <? len data then
    let huffman_flag := u8_of (Z.shiftl 1 prefix_bits) in
    let buf := encode_integer_to_vec buf huffman_len prefix_bits (Z.lor base huffman_flag) in
    let start := len buf in
    let buf := buf ++ replicate (Z.to_nat huffman_len) 0 in
    fst (at_offset start (huffman_encode data) buf)
  else encode_integer_to_vec buf (len data) prefix_bits base ++ data.
Definition push_string (buf data : bytes) : bytes := push_string_with_prefix buf data 7 0x00.

(** ** The bytes of a string literal *)
Definition string_bytes (data : bytes) (prefix_bits prefix : Z) (use_huffman : bool) : bytes :=
  if use_huffman && (huffman_len data <? len data) then
    integer_bytes (huffman_len data) prefix_bits (prefix + 2 ^ prefix_bits) ++ huffman_bytes data
  else integer_bytes (len data) prefix_bits prefix ++ data.

(** The H bit sits right above the length prefix, the flag bits above it. *)
Definition string_prefix_ok (prefix_bits prefix : Z) : Prop :=
  1 <= prefix_bits <= 7 /\ is_byte prefix /\ prefix mod 2 ^ (prefix_bits + 1) = 0.

#[export] Instance string_prefix_ok_dec pb p : Decision (string_prefix_ok pb p).
Proof. unfold string_prefix_ok. apply _. Defined.

(** A string a QPACK implementation can announce: its length is a varint. *)
Definition string_ok (data : bytes) : Prop := bytes_ok data /\ len data <= VARINT_MAX.

Lemma string_prefix_h pb prefix : string_prefix_ok pb prefix ->
  prefix_ok pb prefix /\ prefix_ok pb (prefix + 2 ^ pb) /\
  Z.lor prefix (u8_of (Z.shiftl 1 pb)) = prefix + 2 ^ pb /\ u8_of (Z.shiftl 1 pb) = 2 ^ pb.
Proof.
  intros (Hpb & Hb & Hm). assert (0 < 2 ^ pb <= 128) as Hp.
  { split; [apply Z.pow_pos_nonneg; lia|]. change 128 with (2 ^ 7). apply Z.pow_le_mono_r; lia. }
  rewrite Z.pow_add_r in Hm by lia. apply Z.mod_divide in Hm as [q Eq]; [|lia].
  assert (u8_of (Z.shiftl 1 pb) = 2 ^ pb) as Eu.
  { rewrite Z.shiftl_mul_pow2, Z.mul_1_l by lia. apply u8_of_byte. unfold is_byte; lia. }
  assert (is_byte (prefix + 2 ^ pb)) as Hb'.
  { assert (256 = 2 ^ (7 - pb) * (2 ^ pb * 2)) as H8.
    { replace (2 ^ pb * 2) with (2 ^ (pb + 1)) by (rewrite Z.pow_add_r; lia).
      rewrite <- Z.pow_add_r by lia. by replace (7 - pb + (pb + 1)) with 8 by lia. }
    unfold is_byte in *. change (2 ^ 1) with 2 in Eq. assert (0 <= q < 2 ^ (7 - pb)) by nia. nia. }
  change (2 ^ 1) with 2 in Eq. split_and!.
  - split_and!; [lia..| |]; [done|]. rewrite Eq. apply Z.mod_divide; [lia|]. exists (q * 2). lia.
  - split_and!; [lia..| |]; [done|]. rewrite Eq. apply Z.mod_divide; [lia|]. exists (q * 2 + 1). lia.
  - rewrite Eu. replace prefix with (q * 2 ^ (pb + 1)) by (rewrite Z.pow_add_r; lia).
    rewrite Z.lor_comm, lor_disjoint; [lia|lia|]. rewrite Z.pow_add_r by lia. lia.
  - done.
Qed.

(** The H bit of the first byte tells the two forms apart. *)
Lemma h_bit_clear pb prefix x : string_prefix_ok pb prefix -> 0 <= x < 2 ^ pb ->
  Z.land (prefix + x) (2 ^ pb) =? 0 = true.
Proof.
  intros (Hpb & Hb & Hm) Hx. rewrite land_pow2_eqb by lia. apply negb_true_iff.
  apply Z.testbit_false; [lia|]. rewrite Z.pow_add_r in Hm by lia.
  apply Z.mod_divide in Hm as [q ->]; [|change (2 ^ 1) with 2; lia]. change (2 ^ 1) with 2.
  replace (q * (2 ^ pb * 2) + x) with (x + (q * 2) * 2 ^ pb) by lia.
  rewrite Z.div_add, Z.div_small by lia. by rewrite Z.add_0_l, Z.mod_mul.
Qed.
Lemma h_bit_set pb prefix x : string_prefix_ok pb prefix -> 0 <= x < 2 ^ pb ->
  Z.land (prefix + 2 ^ pb + x) (2 ^ pb) =? 0 = false.
Proof.
  intros (Hpb & Hb & Hm) Hx. rewrite land_pow2_eqb by lia. apply negb_false_iff.
  apply Z.testbit_true; [lia|]. rewrite Z.pow_add_r in Hm by lia.
  apply Z.mod_divide in Hm as [q ->]; [|change (2 ^ 1) with 2; lia]. change (2 ^ 1) with 2.
  replace (q * (2 ^ pb * 2) + 2 ^ pb + x) with (x + (1 + q * 2) * 2 ^ pb) by lia.
  rewrite Z.div_add, Z.div_small by lia. by rewrite Z.add_0_l, Z.mod_add.
Qed.

(** ** The writers implement the byte format *)
#[export] Instance writes_ret_len w bs n : Writes w bs -> n = len bs -> Writes (ret_len n w) bs.
Proof.
  intros Hw ->. split; intros buf Hb; unfold ret_len.
  - by rewrite (writes_fit (w := w) (bs := bs)).
  - destruct (writes_short (w := w) (bs := bs) buf Hb) as (b' & -> & ?). eauto.
Qed.

Lemma len_huffman_bytes data : bytes_ok data -> len (huffman_bytes data) = huffman_len data.
Proof. intros Hd. apply huffman_bytes_spec in Hd as (_ & ? & _). done. Qed.
Lemma huffman_bytes_ok data : bytes_ok data -> bytes_ok (huffman_bytes data).
Proof. intros Hd. apply huffman_bytes_spec in Hd as (? & _). done. Qed.

#[export] Instance writes_string_with_prefix data pb prefix h :
  string_prefix_ok pb prefix -> bytes_ok data ->
  Writes (encode_string_with_prefix data pb prefix h) (string_bytes data pb prefix h).
Proof.
  intros Hp Hd. destruct (string_prefix_h _ _ Hp) as (Hp1 & Hp2 & E & _).
  unfold encode_string_with_prefix, string_bytes. rewrite E. case_match.
  - apply writes_then; [by apply writes_integer|]. apply writes_ret_len; [by apply writes_huffman|].
    by rewrite len_huffman_bytes.
  - apply writes_then; [by apply writes_integer|apply writes_copy_slice].
Qed.

Lemma encode_string_is_prefix7 data h buf :
  encode_string data h buf = encode_string_with_prefix data 7 0 h buf.
Proof. done. Qed.

#[export] Instance writes_string data h :
  bytes_ok data -> Writes (encode_string data h) (string_bytes data 7 0 h).
Proof.
  intros Hd. eapply writes_ext; [apply encode_string_is_prefix7|].
  apply writes_string_with_prefix; [|done]. by split_and!.
Qed.

Lemma push_string_with_prefix_app buf data pb base :
  string_prefix_ok pb base -> bytes_ok data ->
  push_string_with_prefix buf data pb base = buf ++ string_bytes data pb base true.
Proof.
  intros Hp Hd. destruct (string_prefix_h _ _ Hp) as (Hp1 & Hp2 & E & _).
  unfold push_string_with_prefix, string_bytes. rewrite E. cbn [andb]. case_z.
  - rewrite encode_integer_to_vec_app. unfold at_offset. rewrite drop_z_app_len, take_z_app_len.
    pose proof (huffman_len_nonneg data Hd). pose proof (writes_huffman data Hd).
    rewrite (writes_fit (w := huffman_encode data) (bs := huffman_bytes data)).
    + cbn [fst]. rewrite drop_z_all; [by rewrite app_nil_r, <- app_assoc|].
      rewrite len_replicate, len_huffman_bytes by done. lia.
    + rewrite len_replicate, len_huffman_bytes by done. lia.
  - by rewrite encode_integer_to_vec_app, <- app_assoc.
Qed.

Lemma string_bytes_ok data pb prefix h :
  string_prefix_ok pb prefix -> bytes_ok data -> bytes_ok (string_bytes data pb prefix h).
Proof.
  intros Hp Hd. destruct (string_prefix_h _ _ Hp) as (Hp1 & Hp2 & _).
  pose proof (huffman_len_nonneg data Hd). pose proof (len_nonneg data).
  unfold string_bytes. case_match; apply bytes_ok_app; split; auto using integer_bytes_ok, huffman_bytes_ok.
Qed.

(** Huffman coding is only used when it is shorter: the plain form is an upper bound. *)
Lemma cont_bytes_mono fuel r s : 0 <= r <= s -> len (cont_bytes fuel r) <= len (cont_bytes fuel s).
Proof.
  revert r s. induction fuel as [|fuel IH]; intros r s Hrs; [done|]. cbn [cont_bytes].
  repeat case_z; rewrite ?len_cons, ?len_nil; try lia.
  - assert (len (cont_bytes fuel (Z.shiftr r 7)) <= len (cont_bytes fuel (Z.shiftr s 7))); [|lia].
    apply IH. rewrite !Z.shiftr_div_pow2 by lia. split; [apply Z.div_pos; lia|].
    apply Z.div_le_mono; lia.
  - pose proof (len_cont_bytes_pos fuel (Z.shiftr s 7)). lia.
Qed.

Lemma encoded_integer_len_mono r s pb : 1 <= pb <= 8 -> 0 <= r <= s ->
  encoded_integer_len r pb <= encoded_integer_len s pb.
Proof.
  intros Hpb Hrs. unfold encoded_integer_len. repeat case_z; rewrite ?cont_len_spec; try lia.
  - pose proof (len_cont_bytes_pos cont_fuel (s - (Z.shiftl 1 pb - 1))). lia.
  - pose proof (cont_bytes_mono cont_fuel (r - (Z.shiftl 1 pb - 1)) (s - (Z.shiftl 1 pb - 1))). lia.
Qed.

Lemma len_string_bytes_le data pb prefix h :
  string_prefix_ok pb prefix -> bytes_ok data ->
  len (string_bytes data pb prefix h) <= encoded_integer_len (len data) pb + len data.
Proof.
  intros Hp Hd. destruct (string_prefix_h _ _ Hp) as (Hp1 & Hp2 & _).
  pose proof (huffman_len_nonneg data Hd). destruct Hp as [Hpb _].
  unfold string_bytes. destruct h; cbn [andb]; [case_z|]; rewrite len_app.
  - rewrite len_huffman_bytes, <- encoded_integer_len_spec by done.
    pose proof (encoded_integer_len_mono (huffman_len data) (len data) pb). lia.
  - by rewrite <- encoded_integer_len_spec.
  - by rewrite <- encoded_integer_len_spec.
Qed.

(** ** Decoding *)
Lemma decode_string_inv data pb s n :
  bytes_ok data -> 0 <= pb -> decode_string_with_prefix data pb = Ok (s, n) ->
  bytes_ok s /\ 0 < n <= len data.
Proof.
  intros Hd Hpb. unfold decode_string_with_prefix. destruct data as [|b0 r]; [done|].
  intros ([l p] & Hi & Ho)%result_bind_Ok. apply decode_integer_inv in Hi as (Hv & Hn & _); [|done..].
  case_z in Ho; [done|]. apply result_bind_Ok in Ho as (s' & Hs & [= <- <-]).
  unfold varint_ok in Hv. split; [|lia]. unfold decode_literal in Hs. case_match.
  - apply huffman_encode_decode in Hs as [? _]; [done|]. auto with bytes.
  - injection Hs as <-. auto with bytes.
Qed.

Lemma decode_string_stable data pb tail :
  bytes_ok data -> 0 <= pb -> decode_string_with_prefix data pb <> Err BufferTooShort ->
  decode_string_with_prefix (data ++ tail) pb = decode_string_with_prefix data pb.
Proof.
  intros Hd Hpb. unfold decode_string_with_prefix at 1 3. destruct data as [|b0 r]; [done|].
  cbn [app]. rewrite app_comm_cons. intros Hne.
  unfold decode_string_with_prefix. rewrite decode_integer_stable by (intros E; by rewrite E in Hne).
  destruct (decode_integer (b0 :: r) pb) as [[l p]|e] eqn:Ei; [|done]. cbn [mbind result_bind] in *.
  apply decode_integer_inv in Ei as (Hv & Hn & _); [|done..]. unfold varint_ok in Hv.
  rewrite len_app. pose proof (len_nonneg tail). revert Hne. case_z; [done|]. intros _. solve_cmp.
  by rewrite take_z_app_le by lia.
Qed.

Lemma decode_string_bytes data pb prefix h rest :
  string_prefix_ok pb prefix -> string_ok data ->
  decode_string_with_prefix (string_bytes data pb prefix h ++ rest) pb =
    Ok (data, len (string_bytes data pb prefix h)).
Proof.
  intros Hp [Hd Hl]. destruct (string_prefix_h _ _ Hp) as (Hp1 & Hp2 & _ & Eu).
  pose proof (huffman_len_nonneg data Hd). pose proof (len_nonneg data).
  assert (0 < 2 ^ pb) by (apply Z.pow_pos_nonneg; destruct Hp; lia).
  assert (forall l flags body, prefix_ok pb flags -> varint_ok l -> len body = l ->
    (Z.land (flags + Z.min l (2 ^ pb - 1)) (2 ^ pb) =? 0) = bool_decide (flags = prefix) ->
    decode_literal body (negb (bool_decide (flags = prefix))) = Ok data ->
    decode_string_with_prefix ((integer_bytes l pb flags ++ body) ++ rest) pb =
      Ok (data, len (integer_bytes l pb flags ++ body))) as Hgen.
  { intros l flags body Hf Hv Hlen Hbit Hlit. rewrite <- app_assoc.
    destruct (integer_bytes_head l pb flags Hf ltac:(unfold varint_ok in Hv; lia)) as [r Er].
    unfold decode_string_with_prefix. rewrite Er at 1. cbn [app].
    rewrite Eu, Hbit, decode_integer_bytes by done. cbn [mbind result_bind].
    rewrite !len_app, Hlen. pose proof (len_nonneg rest). solve_cmp.
    rewrite app_assoc, take_z_app_eq by (rewrite len_app; lia).
    rewrite drop_z_app_len, Hlit. done. }
  unfold string_bytes. destruct h; cbn [andb]; [case_z|].
  - apply Hgen; [done|unfold varint_ok; lia|by apply len_huffman_bytes|..];
      rewrite bool_decide_false by lia.
    + apply h_bit_set; [done|lia].
    + by apply huffman_decode_encode.
  - apply Hgen; [done|unfold varint_ok; lia|done|..]; rewrite bool_decide_true by done; [|done].
    apply h_bit_clear; [done|lia].
  - apply Hgen; [done|unfold varint_ok; lia|done|..]; rewrite bool_decide_true by done; [|done].
    apply h_bit_clear; [done|lia].
Qed.

#[export] Instance string_prefix_code pb prefix h :
  string_prefix_ok pb prefix ->
  PrefixCode (fun s => string_bytes s pb prefix h) (fun data => decode_string_with_prefix data pb)
    string_ok BufferTooShort.
Proof.
  intros Hp. assert (0 <= pb) by (destruct Hp; lia). split.
  - intros. by apply decode_string_bytes.
  - intros bs s n ? Hs. by apply decode_string_inv in Hs as [_ ?].
  - intros. by apply decode_string_stable.
Qed.
