(* ===== verification/EncoderStream.v ===== *)
(** The encoder stream: src/qpack/encoder_stream.rs (RFC 9204 Section 4.3).

    Part [EncoderStream] queues instructions, part [EncoderStreamReceiver] decodes
    them and updates the decoder's table. A call that mutates its receiver and
    returns a [Result] is a function to the new state and the result; on [Err] the
    state is the one the call leaves behind. *)

From Stdlib Require Import String.
From S2P Require Import Prelude Codec Varint Integer Huffman Wire Header.
From S2P Require Import StaticTable DynamicTable Incremental.

Inductive EncoderInstruction :=
| SetDynamicTableCapacity (capacity : Z)
| InsertWithNameReference (is_static : bool) (name_index : Z) (value : bytes)
| InsertWithLiteralName (name value : bytes)
| Duplicate (relative_index : Z).

#[export] Instance EncoderInstruction_eq_dec : EqDecision EncoderInstruction.
Proof. solve_decision. Defined.

(** ** Sender *)
Record EncoderStream := mkEncoderStream { send_buffer : bytes; max_table_capacity : Z }.

Definition encoder_stream_new : EncoderStream := mkEncoderStream [] 0.
Definition write_stream_type (s : EncoderStream) : EncoderStream :=
  mkEncoderStream (send_buffer s ++ [0x02]) (max_table_capacity s).
Definition set_max_table_capacity (s : EncoderStream) (capacity : Z) : EncoderStream :=
  mkEncoderStream (send_buffer s) capacity.

Definition encode_set_capacity (s : EncoderStream) (capacity : Z)
    : EncoderStream * result QpackError unit :=
  if max_table_capacity s =? 0 then (s, Err DynamicTableDisabled)
  else if max_table_capacity s <? capacity then (s, Err CapacityExceeded)
  else (mkEncoderStream (encode_integer_to_vec (send_buffer s) capacity 5 0x20)
          (max_table_capacity s), Ok tt).

Definition encode_insert_with_name_ref (s : EncoderStream) (is_static : bool) (name_index : Z)
    (value : bytes) : EncoderStream * result QpackError unit :=
  if max_table_capacity s =? 0 then (s, Err DynamicTableDisabled)
  else
    let prefix := if is_static then 0xc0 else 0x80 in
    let buf := encode_integer_to_vec (send_buffer s) name_index 6 prefix in
    (mkEncoderStream (push_string buf value) (max_table_capacity s), Ok tt).

Definition encode_insert_with_literal_name (s : EncoderStream) (name value : bytes)
    : EncoderStream * result QpackError unit :=
  if max_table_capacity s =? 0 then (s, Err DynamicTableDisabled)
  else
    let buf := push_string_with_prefix (send_buffer s) name 5 0x40 in
    (mkEncoderStream (push_string buf value) (max_table_capacity s), Ok tt).

Definition encode_duplicate (s : EncoderStream) (relative_index : Z)
    : EncoderStream * result QpackError unit :=
  if max_table_capacity s =? 0 then (s, Err DynamicTableDisabled)
  else (mkEncoderStream (encode_integer_to_vec (send_buffer s) relative_index 5 0x00)
          (max_table_capacity s), Ok tt).

(** The call that sends an instruction. *)
Definition encode_instruction (s : EncoderStream) (i : EncoderInstruction)
    : EncoderStream * result QpackError unit :=
  match i with
  | SetDynamicTableCapacity c => encode_set_capacity s c
  | InsertWithNameReference st k v => encode_insert_with_name_ref s st k v
  | InsertWithLiteralName n v => encode_insert_with_literal_name s n v
  | Duplicate k => encode_duplicate s k
  end.

(** [consume_data], the same code in decoder_stream.rs. *)
Definition consume_buffer (buf : bytes) (n : Z) : bytes :=
  if len buf <=? n then [] else drop_z n buf.
Definition consume_data (s : EncoderStream) (n : Z) : EncoderStream :=
  mkEncoderStream (consume_buffer (send_buffer s) n) (max_table_capacity s).

(** ** Receiver *)
Record EncoderStreamReceiver := mkReceiver { recv_buffer : bytes; recv_max_table_capacity : Z }.

Definition receiver_new : EncoderStreamReceiver := mkReceiver [] 0.
Definition receiver_set_max_table_capacity (r : EncoderStreamReceiver) (capacity : Z) :=
  mkReceiver (recv_buffer r) capacity.

Definition receive (r : EncoderStreamReceiver) (data : bytes) : EncoderStreamReceiver :=
  mkReceiver (recv_buffer r ++ data) (recv_max_table_capacity r).

(** [self.recv_buffer.drain(..consumed)]. *)
Definition drain (r : EncoderStreamReceiver) (consumed : Z) : EncoderStreamReceiver :=
  mkReceiver (drop_z consumed (recv_buffer r)) (recv_max_table_capacity r).

(** What a decoding step leaves: the receiver, the table and the result. *)
Definition step_result : Type :=
  EncoderStreamReceiver * DynamicTable * result QpackError (option EncoderInstruction).

Definition decode_set_capacity (r : EncoderStreamReceiver) (t : DynamicTable) : step_result :=
  match decode_integer (recv_buffer r) 5 with
  | Err e => (r, t, Err e)
  | Ok (capacity, consumed) =>
    if recv_max_table_capacity r <? capacity then (r, t, Err DecodeFailed)
    else (drain r consumed, set_capacity t capacity, Ok (Some (SetDynamicTableCapacity capacity)))
  end.

Definition decode_insert_with_name_ref (r : EncoderStreamReceiver) (t : DynamicTable) : step_result :=
  let is_static := negb (Z.land (default 0 (head (recv_buffer r))) 0x40 =? 0) in
  match decode_integer (recv_buffer r) 6 with
  | Err e => (r, t, Err e)
  | Ok (name_index, consumed) =>
    match decode_string (drop_z consumed (recv_buffer r)) with
    | Err e => (r, t, Err e)
    | Ok (value, value_len) =>
      let consumed := consumed + value_len in
      let name := if is_static then option_map name (get_static_entry name_index)
                  else option_map entry_name (get_by_relative_index_encoder t name_index) in
      match name with
      | None => (r, t, Err (InvalidIndex name_index))
      | Some n =>
        match insert t n value with
        | (t', None) => (drain r consumed, t', Err DecodeFailed)
        | (t', Some _) =>
          (drain r consumed, t', Ok (Some (InsertWithNameReference is_static name_index value)))
        end
      end
    end
  end.

Definition decode_insert_with_literal_name (r : EncoderStreamReceiver) (t : DynamicTable) : step_result :=
  match decode_string_with_prefix (recv_buffer r) 5 with
  | Err e => (r, t, Err e)
  | Ok (n, consumed) =>
    match decode_string (drop_z consumed (recv_buffer r)) with
    | Err e => (r, t, Err e)
    | Ok (v, value_len) =>
      let consumed := consumed + value_len in
      match insert t n v with
      | (t', None) => (drain r consumed, t', Err DecodeFailed)
      | (t', Some _) => (drain r consumed, t', Ok (Some (InsertWithLiteralName n v)))
      end
    end
  end.

Definition decode_duplicate (r : EncoderStreamReceiver) (t : DynamicTable) : step_result :=
  match decode_integer (recv_buffer r) 5 with
  | Err e => (r, t, Err e)
  | Ok (relative_index, consumed) =>
    match duplicate t relative_index with
    | (t', None) => (drain r consumed, t', Err (InvalidIndex relative_index))
    | (t', Some _) => (drain r consumed, t', Ok (Some (Duplicate relative_index)))
    end
  end.

(** The dispatch of [process] on the first byte. *)
Definition decode_one (first : Z) (r : EncoderStreamReceiver) (t : DynamicTable) : step_result :=
  if negb (Z.land first 0x80 =? 0) then decode_insert_with_name_ref r t
  else if negb (Z.land first 0x40 =? 0) then decode_insert_with_literal_name r t
  else if negb (Z.land first 0x20 =? 0) then decode_set_capacity r t
  else decode_duplicate r t.

(** [process]: a partial instruction is not an error. *)
Definition process (r : EncoderStreamReceiver) (t : DynamicTable) : step_result :=
  match recv_buffer r with
  | [] => (r, t, Ok None)
  | first :: _ =>
    match decode_one first r t with
    | (r', t', Err BufferTooShort) => (r', t', Ok None)
    | other => other
    end
  end.

(** The [while let Some(_) = process(..)?] loop of [Connection::process_encoder_stream].
    Every instruction takes at least one byte, so one unit of fuel per byte is enough. *)
Fixpoint process_loop (fuel : nat) (r : EncoderStreamReceiver) (t : DynamicTable)
    : EncoderStreamReceiver * DynamicTable * result QpackError (list EncoderInstruction) :=
  match process r t with
  | (r', t', Ok None) => (r', t', Ok [])
  | (r', t', Err e) => (r', t', Err e)
  | (r', t', Ok (Some i)) =>
    match fuel with
    | O => (r', t', Ok [i])
    | S fuel' =>
      let '(r'', t'', res) := process_loop fuel' r' t' in
      (r'', t'', cons i <$> res)
    end
  end.
Definition process_all (r : EncoderStreamReceiver) (t : DynamicTable) :=
  process_loop (length (recv_buffer r)) r t.

(** ** The instruction format and what an instruction does *)
Definition instruction_bytes (i : EncoderInstruction) : bytes :=
  match i with
  | SetDynamicTableCapacity c => integer_bytes c 5 0x20
  | InsertWithNameReference st k v =>
    integer_bytes k 6 (if st then 0xc0 else 0x80) ++ string_bytes v 7 0x00 true
  | InsertWithLiteralName n v => string_bytes n 5 0x40 true ++ string_bytes v 7 0x00 true
  | Duplicate k => integer_bytes k 5 0x00
  end.

Definition instruction_ok (i : EncoderInstruction) : Prop :=
  match i with
  | SetDynamicTableCapacity c => varint_ok c
  | InsertWithNameReference _ k v => varint_ok k /\ string_ok v
  | InsertWithLiteralName n v => string_ok n /\ string_ok v
  | Duplicate k => varint_ok k
  end.

(** The parser of one instruction, apart from its effect. *)
Definition parse_instruction (buf : bytes) : result QpackError (EncoderInstruction * Z) :=
  match buf with
  | [] => Err BufferTooShort
  | first :: _ =>
    if negb (Z.land first 0x80 =? 0) then
      '(k, n) ← decode_integer buf 6;
      '(v, m) ← decode_string (drop_z n buf);
      Ok (InsertWithNameReference (negb (Z.land first 0x40 =? 0)) k v, n + m)
    else if negb (Z.land first 0x40 =? 0) then
      '(nm, n) ← decode_string_with_prefix buf 5;
      '(v, m) ← decode_string (drop_z n buf);
      Ok (InsertWithLiteralName nm v, n + m)
    else if negb (Z.land first 0x20 =? 0) then
      '(c, n) ← decode_integer buf 5; Ok (SetDynamicTableCapacity c, n)
    else '(k, n) ← decode_integer buf 5; Ok (Duplicate k, n)
  end.

(** The name an insertion refers to. *)
Definition name_of (t : DynamicTable) (is_static : bool) (k : Z) : option bytes :=
  if is_static then option_map name (get_static_entry k)
  else option_map entry_name (get_by_relative_index_encoder t k).

(** The table after the instruction, whether its bytes are dropped, and the error. *)
Definition apply_instruction (max : Z) (i : EncoderInstruction) (t : DynamicTable)
    : DynamicTable * bool * option QpackError :=
  let insert n v := match insert t n v with
    | (t', Some _) => (t', true, None)
    | (t', None) => (t', true, Some DecodeFailed)
    end in
  match i with
  | SetDynamicTableCapacity c =>
    if max <? c then (t, false, Some DecodeFailed) else (set_capacity t c, true, None)
  | InsertWithNameReference st k v =>
    match name_of t st k with
    | None => (t, false, Some (InvalidIndex k))
    | Some n => insert n v
    end
  | InsertWithLiteralName n v => insert n v
  | Duplicate k =>
    match duplicate t k with
    | (t', Some _) => (t', true, None)
    | (t', None) => (t', true, Some (InvalidIndex k))
    end
  end.

(** The receiver is the incremental reader of this parser and this effect. *)
Notation reader_step max := (run_step (fun _ : DynamicTable => parse_instruction) BufferTooShort (apply_instruction max)).
Notation reader_all max := (run_all (fun _ : DynamicTable => parse_instruction) BufferTooShort (apply_instruction max)).
Notation reader_feed max := (feed (fun _ : DynamicTable => parse_instruction) BufferTooShort (apply_instruction max)).

Lemma drain_eq r n : drain r n = mkReceiver (drop_z n (recv_buffer r)) (recv_max_table_capacity r).
Proof. done. Qed.

Ltac reader_case E :=
  match goal with |- context [mbind _ ?d] => destruct d as [[? ?]|[]] eqn:E end;
  cbn [mbind result_bind]; [|done..].

Lemma process_reader r t :
  process r t =
    let '(buf, t', res) := reader_step (recv_max_table_capacity r) (recv_buffer r) t in
    (mkReceiver buf (recv_max_table_capacity r), t', res).
Proof.
  destruct r as [buf max]. unfold process, run_step. cbn [recv_buffer recv_max_table_capacity].
  destruct buf as [|first rest]; [done|].
  unfold decode_one, decode_insert_with_name_ref, decode_insert_with_literal_name,
    decode_set_capacity, decode_duplicate, parse_instruction, drain.
  cbn [head default recv_buffer recv_max_table_capacity].
  destruct (negb (Z.land first 0x80 =? 0)); [|destruct (negb (Z.land first 0x40 =? 0));
    [|destruct (negb (Z.land first 0x20 =? 0))]].
  - reader_case E1. reader_case E2. cbn [apply_instruction]. unfold name_of.
    destruct (if negb _ then _ else _); [|done]. destruct (insert _ _ _) as [? [|]]; done.
  - reader_case E1. reader_case E2. cbn [apply_instruction].
    destruct (insert _ _ _) as [? [|]]; done.
  - reader_case E1. cbn [apply_instruction]. by case_z.
  - reader_case E1. cbn [apply_instruction]. destruct (duplicate _ _) as [? [|]]; done.
Qed.

Lemma process_loop_reader fuel r t :
  process_loop fuel r t =
    let '(buf, t', res) := run_loop (fun _ : DynamicTable => parse_instruction) BufferTooShort
      (apply_instruction (recv_max_table_capacity r)) fuel (recv_buffer r) t in
    (mkReceiver buf (recv_max_table_capacity r), t', res).
Proof.
  revert r t. induction fuel as [|fuel IH]; intros r t; cbn [process_loop run_loop].
  all: rewrite process_reader; destruct (run_step _ _ _ _ t) as [[b t'] [[i|]|e]]; try done.
  rewrite IH. cbn [recv_buffer recv_max_table_capacity]. by destruct (run_loop _ _ _ _ _ _) as [[? ?] ?].
Qed.

Lemma process_all_reader r t :
  process_all r t =
    let '(buf, t', res) := reader_all (recv_max_table_capacity r) (recv_buffer r) t in
    (mkReceiver buf (recv_max_table_capacity r), t', res).
Proof. apply process_loop_reader. Qed.

(** ** The parser is a prefix code *)

(** The strings of an instruction are made of bytes, its capacity is a [u64]. *)
Definition instruction_wf (i : EncoderInstruction) : Prop :=
  match i with
  | InsertWithNameReference _ _ v => bytes_ok v
  | InsertWithLiteralName n v => bytes_ok n /\ bytes_ok v
  | SetDynamicTableCapacity c => 0 <= c
  | Duplicate _ => True
  end.

Ltac case_flags := repeat match goal with
  |- context [if negb (Z.land ?x ?b =? 0) then _ else _] => destruct (negb (Z.land x b =? 0)) end.

Lemma parse_instruction_consumed buf i n :
  bytes_ok buf -> parse_instruction buf = Ok (i, n) ->
  0 < n <= len buf /\ instruction_wf i.
Proof.
  intros Hb. unfold parse_instruction. destruct buf as [|first rest]; [done|]. case_flags.
  - intros ([k n1] & (Hk & Hn1 & _)%decode_integer_inv & Ho)%result_bind_Ok; [|done..].
    apply result_bind_Ok in Ho as ([v m] & [? Hm]%decode_string_inv & [= <- <-]); [|auto with bytes|done].
    rewrite len_drop in Hm by lia. split; [lia|done].
  - intros ([k n1] & [? Hn1]%decode_string_inv & Ho)%result_bind_Ok; [|done..].
    apply result_bind_Ok in Ho as ([v m] & [? Hm]%decode_string_inv & [= <- <-]); [|auto with bytes|done].
    rewrite len_drop in Hm by lia. split; [lia|done].
  - intros ([k n1] & ([Hk _] & Hn1 & _)%decode_integer_inv & [= <- <-])%result_bind_Ok; [|done..]. done.
  - intros ([k n1] & (Hk & Hn1 & _)%decode_integer_inv & [= <- <-])%result_bind_Ok; [|done..]. done.
Qed.

Lemma parse_instruction_stable buf tail :
  bytes_ok buf -> parse_instruction buf <> Err BufferTooShort ->
  parse_instruction (buf ++ tail) = parse_instruction buf.
Proof.
  intros Hb. unfold parse_instruction. destruct buf as [|first rest]; [done|].
  cbn [app]. rewrite !app_comm_cons. case_flags.
  - destruct (decode_integer (first :: rest) 6) as [[k n]|e] eqn:E1.
    + pose proof E1 as (_ & Hn & _)%decode_integer_inv; [|done..].
      rewrite decode_integer_stable, E1 by (by rewrite E1). cbn [mbind result_bind]. intros Hne.
      rewrite drop_z_app_le by lia. unfold decode_string in *. rewrite decode_string_stable; [done|auto with bytes|done|].
      intros E2. by rewrite E2 in Hne.
    + intros Hne. rewrite decode_integer_stable by (rewrite E1; naive_solver). by rewrite E1.
  - destruct (decode_string_with_prefix (first :: rest) 5) as [[k n]|e] eqn:E1.
    + pose proof E1 as (_ & Hn)%decode_string_inv; [|done..].
      rewrite decode_string_stable, E1 by (done || by rewrite E1). cbn [mbind result_bind]. intros Hne.
      rewrite drop_z_app_le by lia. unfold decode_string in *. rewrite decode_string_stable; [done|auto with bytes|done|].
      intros E2. by rewrite E2 in Hne.
    + intros Hne. rewrite decode_string_stable by (done || rewrite E1; naive_solver). by rewrite E1.
  - intros Hne. rewrite decode_integer_stable; [done|]. intros E1. by rewrite E1 in Hne.
  - intros Hne. rewrite decode_integer_stable; [done|]. intros E1. by rewrite E1 in Hne.
Qed.

Lemma instruction_bytes_ok i : instruction_ok i -> bytes_ok (instruction_bytes i).
Proof.
  assert (string_prefix_ok 7 0 /\ string_prefix_ok 5 0x40) as [? ?] by (by vm_compute; intuition).
  destruct i as [c|st k v|n v|k]; cbn [instruction_ok instruction_bytes]; unfold varint_ok, string_ok.
  - intros. apply integer_bytes_ok; [by split_and!|lia].
  - intros [? []]. apply bytes_ok_app; split; [|by apply string_bytes_ok].
    apply integer_bytes_ok; [|lia]. destruct st; by split_and!.
  - intros [[] []]. apply bytes_ok_app; split; by apply string_bytes_ok.
  - intros. apply integer_bytes_ok; [by split_and!|lia].
Qed.

(** The flag bits of the first byte, above a prefix integer of [pb] bits. *)
Lemma string_bytes_head data pb prefix h :
  string_prefix_ok pb prefix -> bytes_ok data ->
  exists x r, string_bytes data pb prefix h = (prefix + x) :: r /\ 0 <= x < 2 ^ (pb + 1).
Proof.
  intros Hp Hd. destruct (string_prefix_h _ _ Hp) as (Hp1 & Hp2 & _).
  pose proof (huffman_len_nonneg data Hd). pose proof (len_nonneg data).
  assert (0 < 2 ^ pb /\ 2 ^ (pb + 1) = 2 ^ pb * 2) as [? ->]
    by (destruct Hp; split; [apply Z.pow_pos_nonneg; lia|rewrite Z.pow_add_r by lia; lia]).
  unfold string_bytes. case_match.
  - destruct (integer_bytes_head (huffman_len data) pb _ Hp2) as [r ->]; [done|].
    eexists (2 ^ pb + Z.min (huffman_len data) (2 ^ pb - 1)), _. cbn [app]. split; [f_equal; lia|lia].
  - destruct (integer_bytes_head (len data) pb _ Hp1) as [r ->]; [done|].
    eexists (Z.min (len data) (2 ^ pb - 1)), _. split; [done|lia].
Qed.

Lemma integer_bytes_head_x v pb prefix : prefix_ok pb prefix -> varint_ok v ->
  exists x r, integer_bytes v pb prefix = (prefix + x) :: r /\ 0 <= x < 2 ^ pb.
Proof.
  intros Hp Hv. destruct (prefix_bits_range _ _ Hp) as (_ & ? & _). unfold varint_ok in Hv.
  destruct (integer_bytes_head v pb prefix Hp ltac:(lia)) as [r Er].
  eexists _, r. split; [exact Er|]. lia.
Qed.

Lemma parse_instruction_bytes i rest : instruction_ok i ->
  parse_instruction (instruction_bytes i ++ rest) = Ok (i, len (instruction_bytes i)).
Proof.
  assert (string_prefix_ok 7 0 /\ string_prefix_ok 5 0x40) as [Hp7 Hp5] by (by vm_compute; intuition).
  destruct i as [c|st k v|n v|k]; cbn [instruction_ok instruction_bytes].
  - intros Hc. assert (prefix_ok 5 0x20) as Hp by (by split_and!).
    pose proof (decode_integer_bytes c 5 0x20 rest Hp Hc) as Hdec.
    destruct (integer_bytes_head_x c 5 0x20 Hp Hc) as (x & r & Er & Hx). change (2 ^ 5) with 32 in Hx.
    unfold parse_instruction. rewrite Er in *. cbn [app] in *. solve_flags. by rewrite Hdec.
  - intros [Hk Hv]. set (flags := if st then 0xc0 else 0x80).
    assert (prefix_ok 6 flags) as Hp by (by destruct st; split_and!).
    rewrite <- app_assoc.
    pose proof (decode_integer_bytes k 6 flags (string_bytes v 7 0 true ++ rest) Hp Hk) as Hdec.
    destruct (integer_bytes_head_x k 6 flags Hp Hk) as (x & r & Er & Hx). change (2 ^ 6) with 64 in Hx.
    assert (negb (Z.land (flags + x) 0x40 =? 0) = st) as Hst
      by (unfold flags; destruct st; by solve_flags).
    assert (128 <= flags <= 192) as Hf by (unfold flags; destruct st; lia).
    rewrite len_app. unfold parse_instruction. rewrite Er in *. cbn [app] in *. rewrite Hst.
    solve_flags. rewrite Hdec. cbn [mbind result_bind].
    rewrite app_comm_cons, drop_z_app_len. unfold decode_string.
    by rewrite (decode_string_bytes v 7 0 true rest).
  - intros [Hn Hv]. rewrite <- app_assoc.
    pose proof (decode_string_bytes n 5 0x40 true (string_bytes v 7 0 true ++ rest) Hp5 Hn) as Hdec.
    destruct (string_bytes_head n 5 0x40 true Hp5 (proj1 Hn)) as (x & r & Er & Hx).
    change (2 ^ (5 + 1)) with 64 in Hx. rewrite len_app.
    unfold parse_instruction. rewrite Er in *. cbn [app] in *. solve_flags. rewrite Hdec.
    cbn [mbind result_bind]. rewrite app_comm_cons, drop_z_app_len. unfold decode_string.
    by rewrite (decode_string_bytes v 7 0 true rest).
  - intros Hc. assert (prefix_ok 5 0) as Hp by (by split_and!).
    pose proof (decode_integer_bytes k 5 0 rest Hp Hc) as Hdec.
    destruct (integer_bytes_head_x k 5 0 Hp Hc) as (x & r & Er & Hx). change (2 ^ 5) with 32 in Hx.
    unfold parse_instruction. rewrite Er in *. cbn [app] in *. solve_flags. by rewrite Hdec.
Qed.

#[export] Instance instruction_prefix_code :
  PrefixCode instruction_bytes parse_instruction instruction_ok BufferTooShort.
Proof.
  split.
  - intros. by apply parse_instruction_bytes.
  - intros bs i n Hb H. by apply parse_instruction_consumed in H as [? _].
  - intros. by apply parse_instruction_stable.
Qed.

(** ** The sender *)

(** What the sender refuses (RFC 9204 Section 3.2.3). *)
Definition instruction_refused (max : Z) (i : EncoderInstruction) : option QpackError :=
  if max =? 0 then Some DynamicTableDisabled
  else match i with
    | SetDynamicTableCapacity c => if max <? c then Some CapacityExceeded else None
    | _ => None
    end.

Lemma encode_instruction_spec s i : instruction_ok i ->
  encode_instruction s i =
    match instruction_refused (max_table_capacity s) i with
    | Some e => (s, Err e)
    | None => (mkEncoderStream (send_buffer s ++ instruction_bytes i) (max_table_capacity s), Ok tt)
    end.
Proof.
  assert (string_prefix_ok 7 0 /\ string_prefix_ok 5 0x40) as [Hp7 Hp5] by (by vm_compute; intuition).
  intros Hi. destruct i as [c|st k v|n v|k]; cbn [encode_instruction instruction_bytes instruction_ok] in *.
  - unfold encode_set_capacity, instruction_refused. rewrite encode_integer_to_vec_app.
    by repeat case_z.
  - unfold encode_insert_with_name_ref, instruction_refused. case_z; [done|]. unfold push_string.
    destruct Hi as [_ []]. rewrite push_string_with_prefix_app, encode_integer_to_vec_app by done.
    by rewrite <- app_assoc.
  - unfold encode_insert_with_literal_name, instruction_refused. case_z; [done|]. unfold push_string.
    destruct Hi as [[] []]. rewrite !push_string_with_prefix_app by done. by rewrite <- app_assoc.
  - unfold encode_duplicate, instruction_refused. case_z; [done|].
    by rewrite encode_integer_to_vec_app.
Qed.

(** ** Effects on the table *)
Lemma name_of_ok t st k n : table_wf t -> name_of t st k = Some n -> bytes_ok n.
Proof.
  intros Hw. unfold name_of. destruct st.
  - destruct (get_static_entry k) eqn:E; [|done]. intros [= <-]. by apply get_static_entry_ok in E as [[] _].
  - destruct (get_by_relative_index_encoder t k) eqn:E; [|done]. intros [= <-].
    by apply get_relative_ok in E as [].
Qed.

Lemma apply_instruction_wf max i t :
  table_wf t -> instruction_wf i -> table_wf (fst (fst (apply_instruction max i t))).
Proof.
  intros Hw Hi.
  assert (forall n v, bytes_ok n -> bytes_ok v -> table_wf (fst (fst (match insert t n v with
    | (t', Some _) => (t', true, None) | (t', None) => (t', true, Some DecodeFailed) end)))) as Hins.
  { intros n v Hn Hv. pose proof (insert_wf t n v Hw Hn Hv). by destruct (insert t n v) as [? [|]]. }
  destruct i as [c|st k v|n v|k]; cbn [apply_instruction].
  - case_z; [done|]. by apply set_capacity_wf.
  - destruct (name_of t st k) eqn:E; [|done]. apply Hins; [by eapply name_of_ok|done].
  - by apply Hins; destruct Hi.
  - pose proof (duplicate_wf t k Hw). by destruct (duplicate t k) as [? [|]].
Qed.

Lemma insert_capacity t n v : table_wf t -> max_capacity (fst (insert t n v)) = max_capacity t.
Proof.
  intros Hw. unfold insert. case_z; [done|]. pose proof (evict_to_fit_capacity t (size_of n v) Hw).
  by case_z.
Qed.

Lemma insert_limit t n v : table_wf t -> eviction_limit (fst (insert t n v)) = eviction_limit t.
Proof.
  intros Hw. unfold insert. case_z; [done|].
  destruct (evict_to_fit_spec (size_of n v) t Hw) as [d [_ E _ _ _ _]].
  case_z; rewrite E; done.
Qed.

(** An accepted instruction changes the capacity or inserts an entry. *)
Lemma apply_instruction_changes max i t t' : apply_instruction max i t = (t', true, None) ->
  (exists c, i = SetDynamicTableCapacity c /\ c <= max /\ t' = set_capacity t c) \/
  (exists n v j, insert t n v = (t', Some j)).
Proof.
  destruct i as [c|st k v|n v|k]; cbn [apply_instruction].
  - case_z; [done|]. intros [= <-]. left. by exists c.
  - destruct (name_of t st k) as [n|]; [|done]. destruct (insert t n v) as [t1 [j|]] eqn:E; [|done].
    intros [= <-]. right. by exists n, v, j.
  - destruct (insert t n v) as [t1 [j|]] eqn:E; [|done]. intros [= <-]. right. by exists n, v, j.
  - unfold duplicate. destruct (get_by_relative_index_encoder t k) as [e|]; [|done].
    destruct (insert t _ _) as [t1 [j|]] eqn:E; [|done]. intros [= <-]. right. eauto.
Qed.

(** The decoder's table: nothing pinned, and never above the advertised limit. *)
Definition decoder_table (max : Z) (t : DynamicTable) : Prop :=
  table_wf t /\ eviction_limit t = 0 /\ table_fits t /\ max_capacity t <= max.

Lemma insert_fits t n v : table_wf t -> eviction_limit t = 0 -> table_fits t ->
  table_fits (fst (insert t n v)).
Proof.
  intros Hw Hl Hf. unfold insert. case_z; [done|].
  pose proof (evict_to_fit_unpinned (size_of n v) t Hw Hl ltac:(lia)) as Hu.
  pose proof (evict_to_fit_capacity t (size_of n v) Hw) as Hc.
  unfold table_fits in *. case_z; cbn; [lia|]. unfold entry_size. cbn. lia.
Qed.

Lemma insert_result_fits t n v i : table_wf t -> snd (insert t n v) = Some i -> table_fits (fst (insert t n v)).
Proof.
  intros Hw. unfold insert. case_z; [done|]. case_z; [done|]. intros _.
  pose proof (evict_to_fit_capacity t (size_of n v) Hw). unfold table_fits.
  cbn [fst push_entry max_capacity current_size]. unfold entry_size. cbn [entry_name entry_value]. lia.
Qed.

Lemma apply_instruction_decoder_table max i t :
  decoder_table max t -> instruction_wf i ->
  decoder_table max (fst (fst (apply_instruction max i t))).
Proof.
  intros (Hw & Hl & Hf & Hm) Hi. split; [by apply apply_instruction_wf|].
  assert (forall n v t' r, insert t n v = (t', r) ->
    eviction_limit t' = 0 /\ table_fits t' /\ max_capacity t' <= max) as Hins.
  { intros n v t' r E. pose proof (insert_limit t n v Hw). pose proof (insert_capacity t n v Hw).
    pose proof (insert_fits t n v Hw Hl Hf). rewrite E in *. cbn in *. split_and!; [lia|done|lia]. }
  destruct i as [c|st k v|n v|k]; cbn [apply_instruction].
  - case_z; [done|]. cbn [fst]. unfold set_capacity.
    set (t0 := mkTable _ c _ _ _ _). assert (table_wf t0) as Hw0 by (destruct Hw; by split).
    pose proof (evict_to_fit_capacity t0 0 Hw0) as Hc.
    pose proof (evict_to_fit_unpinned 0 t0 Hw0 Hl Hi) as Hfit.
    destruct (evict_to_fit_spec 0 t0 Hw0) as [d [_ E _ _ _ _]].
    unfold table_fits. rewrite Hc. cbn [max_capacity t0] in *. split_and!; [by rewrite E|lia|done].
  - destruct (name_of t st k); [|done]. destruct (insert t _ v) as [t' [|]] eqn:E; by apply Hins in E.
  - destruct (insert t n v) as [t' [|]] eqn:E; by apply Hins in E.
  - unfold duplicate. destruct (get_by_relative_index_encoder t k) as [e|]; [|done].
    destruct (insert t _ _) as [t' [|]] eqn:E; by apply Hins in E.
Qed.

(** The same instruction on the encoder's table and on a table that follows it. *)
Lemma apply_instruction_same max i te td te' :
  table_wf te -> same_table te td ->
  (match i with SetDynamicTableCapacity c => table_fits (set_capacity te c) | _ => True end) ->
  apply_instruction max i te = (te', true, None) ->
  exists td', apply_instruction max i td = (td', true, None) /\ same_table te' td'.
Proof.
  intros Hw Hs Hfit. 
  assert (forall n v, (match insert te n v with
      | (t', Some _) => (t', true, None) | (t', None) => (t', true, Some DecodeFailed) end) = (te', true, None) ->
    exists td', (match insert td n v with
      | (t', Some _) => (t', true, None) | (t', None) => (t', true, Some DecodeFailed) end) = (td', true, None)
      /\ same_table te' td') as Hins.
  { intros n v. destruct (insert te n v) as [t1 [j|]] eqn:E; [|done]. intros [= <-].
    destruct (insert_same _ _ _ _ _ _ Hw Hs E) as (td' & -> & ?). eauto. }
  destruct i as [c|st k v|n v|k]; cbn [apply_instruction].
  - case_z; [done|]. intros [= <-]. eexists. split; [done|]. by apply set_capacity_same.
  - assert (name_of td st k = name_of te st k) as -> by (by rewrite Hs).
    destruct (name_of te st k); [apply Hins|done].
  - apply Hins.
  - destruct (duplicate te k) as [t1 [j|]] eqn:E; [|done]. intros [= <-].
    destruct (duplicate_same _ _ _ _ _ Hw Hs E) as (td' & -> & ?). eauto.
Qed.

(** ** The receiver *)

(** One step keeps the table well formed and its remaining input a suffix. *)
Lemma process_wf r t r' t' res :
  bytes_ok (recv_buffer r) -> table_wf t -> process r t = (r', t', res) ->
  table_wf t' /\ bytes_ok (recv_buffer r') /\
  recv_max_table_capacity r' = recv_max_table_capacity r.
Proof.
  intros Hb Hw. rewrite process_reader. unfold run_step.
  destruct (parse_instruction (recv_buffer r)) as [[i n]|e] eqn:E.
  - apply parse_instruction_consumed in E as [_ Hi]; [|done].
    pose proof (apply_instruction_wf (recv_max_table_capacity r) i t Hw Hi) as Hw'.
    destruct (apply_instruction _ i t) as [[t1 [|]] err]; intros [= <- <- <-]; cbn; auto with bytes.
  - intros [= <- <- <-]. done.
Qed.

Lemma apply_instruction_consumes max i t t' b :
  apply_instruction max i t = (t', b, None) -> b = true.
Proof.
  destruct i as [c|st k v|n v|k]; cbn [apply_instruction].
  - case_z; [done|]. congruence.
  - destruct (name_of t st k); [|done]. destruct (insert _ _ _) as [? [|]]; congruence.
  - destruct (insert _ _ _) as [? [|]]; congruence.
  - destruct (duplicate _ _) as [? [|]]; congruence.
Qed.

(** The decoder's table keeps its invariant through any bytes the peer sends. *)
Lemma process_decoder_table r t :
  bytes_ok (recv_buffer r) -> decoder_table (recv_max_table_capacity r) t ->
  decoder_table (recv_max_table_capacity r) (snd (fst (process r t))).
Proof.
  intros Hb Ht. rewrite process_reader. unfold run_step.
  destruct (parse_instruction (recv_buffer r)) as [[i n]|e] eqn:E; [|done].
  pose proof E as [_ Hi]%parse_instruction_consumed; [|done].
  destruct (apply_instruction _ i t) as [[t1 b] err] eqn:Ea. cbn [fst snd].
  change t1 with (fst (fst (t1, b, err))). rewrite <- Ea. by apply apply_instruction_decoder_table.
Qed.

Lemma process_loop_decoder_table fuel r t r' t' res :
  bytes_ok (recv_buffer r) -> decoder_table (recv_max_table_capacity r) t ->
  process_loop fuel r t = (r', t', res) ->
  decoder_table (recv_max_table_capacity r) t' /\ bytes_ok (recv_buffer r') /\
  recv_max_table_capacity r' = recv_max_table_capacity r.
Proof.
  revert r t r' t' res. induction fuel as [|fuel IH]; intros r t r' t' res Hb Ht; cbn [process_loop].
  all: pose proof (process_decoder_table r t Hb Ht) as Ht1; destruct (process r t) as [[r1 t1] res1] eqn:Ep;
    destruct (process_wf _ _ _ _ _ Hb (proj1 Ht) Ep) as (_ & Hb1 & Em1); cbn [fst snd] in Ht1.
  - destruct res1 as [[i|]|e]; by intros [= <- <- <-].
  - destruct res1 as [[i|]|e]; [|by intros [= <- <- <-]..].
    destruct (process_loop fuel r1 t1) as [[r2 t2] res2] eqn:El. intros [= <- <- <-].
    rewrite <- Em1 in Ht1. destruct (IH _ _ _ _ _ Hb1 Ht1 El) as (? & ? & ?). by rewrite <- Em1.
Qed.

(** ** Chunks and the whole stream *)

(** [Connection] feeds the receiver a chunk at a time. *)
Fixpoint receive_all (chunks : list bytes) (r : EncoderStreamReceiver) (t : DynamicTable)
    : EncoderStreamReceiver * DynamicTable * result QpackError (list EncoderInstruction) :=
  match chunks with
  | [] => (r, t, Ok [])
  | c :: rest =>
    match process_all (receive r c) t with
    | (r', t', Ok l) => let '(r'', t'', res) := receive_all rest r' t' in (r'', t'', app l <$> res)
    | (r', t', Err e) => (r', t', Err e)
    end
  end.

Lemma receive_all_reader chunks r t :
  receive_all chunks r t =
    let '(buf, t', res) := reader_feed (recv_max_table_capacity r) chunks (recv_buffer r) t in
    (mkReceiver buf (recv_max_table_capacity r), t', res).
Proof.
  revert r t. induction chunks as [|c rest IH]; intros [buf max] t; [done|].
  cbn [receive_all feed receive recv_buffer recv_max_table_capacity].
  rewrite process_all_reader. cbn [recv_buffer recv_max_table_capacity].
  destruct (run_all _ _ _ _ t) as [[b1 t1] [l|e]]; [|done]. rewrite IH.
  cbn [recv_buffer recv_max_table_capacity]. by destruct (feed _ _ _ _ _ _) as [[? ?] ?].
Qed.

Lemma instruction_ok_wf i : instruction_ok i -> instruction_wf i.
Proof. destruct i; cbn; unfold varint_ok, string_ok; naive_solver. Qed.

(** The instructions an encoder can send: each one took its own table a step further.
    Between two of them it may pin and unpin entries. *)
Inductive encoder_run (max : Z) : list EncoderInstruction -> DynamicTable -> DynamicTable -> Prop :=
| run_done t : encoder_run max [] t t
| run_next i l t t1 t2 :
    instruction_ok i -> apply_instruction max i t = (t1, true, None) ->
    (match i with SetDynamicTableCapacity c => table_fits t1 | _ => True end) ->
    encoder_run max l t1 t2 -> encoder_run max (i :: l) t t2
| run_limit limit l t t2 :
    encoder_run max l (set_eviction_limit t limit) t2 -> encoder_run max l t t2.

Lemma encoder_run_fits max l t t' : encoder_run max l t t' ->
  table_wf t -> table_fits t -> max_capacity t <= max ->
  table_wf t' /\ table_fits t' /\ max_capacity t' <= max.
Proof.
  induction 1 as [t|i l t t1 t2 Hi Ha Hf _ IH|limit l t t2 _ IH]; intros Hw Hfit Hm; [done| |].
  - pose proof (apply_instruction_wf max i t Hw (instruction_ok_wf _ Hi)) as Hw'. rewrite Ha in Hw'.
    destruct (apply_instruction_changes _ _ _ _ Ha) as [(c & -> & Hc & ->)|(n & v & j & Hins)].
    + apply IH; [done|done|]. unfold set_capacity.
      rewrite evict_to_fit_capacity by (by apply set_capacity_field_wf). done.
    + pose proof (insert_result_fits t n v j Hw) as H1. pose proof (insert_capacity t n v Hw) as H2.
      rewrite Hins in H1, H2. apply IH; [done|by apply H1|cbn in H2; lia].
  - apply IH; [by apply set_eviction_limit_wf|done..].
Qed.

Lemma encoder_run_follow max l te te' td :
  table_wf te -> encoder_run max l te te' -> same_table te td ->
  exists td', accepted (apply_instruction max) (fun _ : DynamicTable => instruction_ok) l td td' /\ same_table te' td'.
Proof.
  intros Hw Hr. revert td Hw. induction Hr as [t|i l t t1 t2 Hi Ha Hf _ IH|limit l t t2 _ IH]; intros td Hw Hs.
  - exists td. split; [constructor|done].
  - destruct (apply_instruction_same max i t td t1) as (td1 & Ha' & Hs1); [done..| |done|].
    { destruct i; try done. cbn [apply_instruction] in Ha. revert Ha. case_z; [done|]. by intros [= <-]. }
    destruct (IH td1) as (td' & Hacc & Hs'); [|done|].
    { change t1 with (fst (fst (t1, true, @None QpackError))). rewrite <- Ha.
      apply apply_instruction_wf; [done|by apply instruction_ok_wf]. }
    exists td'. split; [|done]. by econstructor.
  - apply IH; [by apply set_eviction_limit_wf|]. by rewrite Hs.
Qed.

(** The bytes queued by sending the instructions one after the other. *)
Fixpoint send_all (s : EncoderStream) (l : list EncoderInstruction) : EncoderStream :=
  match l with [] => s | i :: l' => send_all (fst (encode_instruction s i)) l' end.

Lemma send_all_bytes max l te te' buf :
  0 < max -> encoder_run max l te te' ->
  send_all (mkEncoderStream buf max) l = mkEncoderStream (buf ++ concat (map instruction_bytes l)) max.
Proof.
  intros Hm Hr. revert buf. induction Hr as [t|i l t t1 t2 Hi Ha _ _ IH|]; intros buf; [| |done]; cbn [send_all map concat].
  - by rewrite app_nil_r.
  - rewrite encode_instruction_spec by done. unfold instruction_refused. cbn [max_table_capacity send_buffer].
    replace (match i with SetDynamicTableCapacity c => if max <? c then Some CapacityExceeded else None | _ => None end)
      with (@None QpackError).
    + solve_cmp. cbn [fst]. by rewrite IH, <- app_assoc.
    + destruct i; try done. cbn [apply_instruction] in Ha. revert Ha. by case_z.
Qed.

(** The receiver reads back what the sender queued, and its table follows. *)
Lemma receive_follows max l te te' td chunks :
  0 < max -> table_wf te -> encoder_run max l te te' -> same_table te td ->
  Forall (fun c => bytes_ok c) chunks ->
  concat chunks = send_buffer (send_all (mkEncoderStream [] max) l) ->
  exists td', receive_all chunks (mkReceiver [] max) td = (mkReceiver [] max, td', Ok l) /\
    same_table te' td'.
Proof.
  intros Hm Hw Hr Hs Hc Hcat. rewrite (send_all_bytes _ _ _ _ _ Hm Hr) in Hcat.
  destruct (encoder_run_follow _ _ _ _ _ Hw Hr Hs) as (td' & Hacc & Hs'). exists td'.
  rewrite receive_all_reader. cbn [recv_buffer recv_max_table_capacity].
  rewrite (feed_encoded (fun _ : DynamicTable => parse_instruction) BufferTooShort (apply_instruction max)) with
    (enc := instruction_bytes) (valid := fun _ => instruction_ok) (l := l) (s' := td'); try done.
  - intros _ ??? Hb H. by apply parse_instruction_consumed in H as [? _].
  - intros _. apply parse_instruction_stable.
  - apply apply_instruction_consumes.
  - intros _. apply parse_instruction_bytes.
  - intros _. apply instruction_bytes_ok.
Qed.

Lemma encoder_run_capacity max l t t' : encoder_run max l t t' -> table_wf t ->
  0 <= max_capacity t -> 0 <= max_capacity t'.
Proof.
  induction 1 as [t|i l t t1 t2 Hi Ha Hf _ IH|limit l t t2 _ IH]; intros Hw Hm; [done| |].
  - pose proof (apply_instruction_wf max i t Hw (instruction_ok_wf _ Hi)) as Hw'. rewrite Ha in Hw'.
    apply IH; [done|].
    destruct (apply_instruction_changes _ _ _ _ Ha) as [(c & -> & Hc & ->)|(n & v & j & Hins)].
    + unfold set_capacity. rewrite evict_to_fit_capacity by (by apply set_capacity_field_wf).
      destruct Hi. done.
    + pose proof (insert_capacity t n v Hw) as H2. rewrite Hins in H2. cbn in H2. lia.
  - apply IH; [by apply set_eviction_limit_wf|done].
Qed.

(** ** Properties *)

(** C24. The decoder's table follows the encoder's: if the encoder took its table from
    [te] to [te'] by instructions it queued on the encoder stream, and the bytes of
    the stream reach the decoder in chunks of any sizes, then the receiver reports
    exactly those instructions, keeps no byte back, and turns a table equal to [te]
    (but for the pins) into one equal to [te']. *)
Theorem encoder_stream_sync max l te te' td chunks :
  0 < max -> table_wf te -> encoder_run max l te te' -> same_table te td ->
  Forall (fun c => bytes_ok c) chunks ->
  concat chunks = send_buffer (send_all (mkEncoderStream [] max) l) ->
  exists td', receive_all chunks (mkReceiver [] max) td = (mkReceiver [] max, td', Ok l) /\
    same_table te' td'.
Proof.
  apply receive_follows.
Qed.

(** Partial arrival is no error: processing what came first and then the rest
    gives the same instructions, table and remaining bytes as processing everything
    at once, and a violation is reported with the same error either way. *)
Theorem encoder_stream_chunking max buf tail t :
  bytes_ok buf -> bytes_ok tail ->
  process_all (mkReceiver (buf ++ tail) max) t =
    match process_all (mkReceiver buf max) t with
    | (r', t', Ok l) => let '(r'', t'', res) := process_all (receive r' tail) t' in (r'', t'', app l <$> res)
    | (r', t', Err e) => (receive r' tail, t', Err e)
    end.
Proof.
  intros Hb Ht. rewrite !process_all_reader. cbn [recv_buffer recv_max_table_capacity].
  rewrite (run_all_app (fun _ : DynamicTable => parse_instruction) BufferTooShort (apply_instruction max));
    [|done|intros ???? ? H; by apply parse_instruction_consumed in H as [? _]
     |intros _; apply parse_instruction_stable|apply apply_instruction_consumes|done..].
  destruct (run_all _ _ _ buf t) as [[b1 t1] [l|e]]; [|done].
  rewrite process_all_reader. cbn [recv_buffer recv_max_table_capacity receive].
  by destruct (run_all _ _ _ (b1 ++ tail) t1) as [[? ?] ?].
Qed.

(** Whatever the peer sends on the encoder stream, the decoder's table stays well
    formed, within its capacity, and its capacity within the advertised maximum. *)
Theorem decoder_table_safe r t r' t' res :
  bytes_ok (recv_buffer r) -> decoder_table (recv_max_table_capacity r) t ->
  process_all r t = (r', t', res) -> decoder_table (recv_max_table_capacity r) t'.
Proof. intros Hb Ht H. by apply process_loop_decoder_table in H as [? _]. Qed.

(** The session of RFC 9204 Appendix B: capacity 220, two insertions, a duplicate. *)
Definition rfc_session : list EncoderInstruction :=
  [SetDynamicTableCapacity 220;
   InsertWithNameReference true 0 (str "www.example.com"%string);
   InsertWithLiteralName (str "custom-key"%string) (str "custom-value"%string);
   Duplicate 1].

Lemma encoder_stream_sync_witness :
  let te' := snd (fst (process_all (mkReceiver (concat (map instruction_bytes rfc_session)) 220) table_new)) in
  exists td', receive_all (map (fun b => [b]) (concat (map instruction_bytes rfc_session)))
      (mkReceiver [] 220) table_new = (mkReceiver [] 220, td', Ok rfc_session) /\ same_table te' td'.
Proof.
  cbn zeta. apply (encoder_stream_sync 220 rfc_session table_new).
  - lia.
  - apply with_capacity_wf.
  - repeat (eapply run_next; [by vm_compute; repeat (split || constructor)|vm_compute; reflexivity|by vm_compute|]).
    vm_compute. apply run_done.
  - reflexivity.
  - apply (bool_decide_unpack _). vm_compute. exact I.
  - vm_compute. reflexivity.
Defined.

Lemma encoder_stream_chunking_witness :
  process_all (mkReceiver ([0x3f; 0xbd] ++ [0x01; 0x00]) 220) table_new =
  (mkReceiver [] 220, set_capacity table_new 220, Err (InvalidIndex 0)).
Proof. rewrite encoder_stream_chunking; [vm_compute; reflexivity|by repeat constructor..]. Defined.

Lemma decoder_table_safe_witness :
  decoder_table 220 (snd (fst (process_all (mkReceiver [0x3f; 0xbd; 0x01; 0xc0; 0x01; 0x61; 0x3f] 220) table_new))).
Proof.
  eapply (decoder_table_safe (mkReceiver [0x3f; 0xbd; 0x01; 0xc0; 0x01; 0x61; 0x3f] 220) table_new).
  - by repeat constructor.
  - split_and!; [apply with_capacity_wf|done|by vm_compute|by vm_compute].
  - vm_compute. reflexivity.
Defined.
