(* ===== verification/DecoderStream.v ===== *)
(** The decoder stream: src/qpack/decoder_stream.rs (RFC 9204 Section 4.4).

    Part [DecoderStream] queues acknowledgments, part [DecoderStreamReceiver]
    decodes them on the encoder's side and counts the insertions the decoder is
    known to have received. *)

From S2P Require Import Prelude Codec Varint Integer Incremental EncoderStream.

Inductive DecoderInstruction :=
| SectionAcknowledgment (stream_id : Z)
| StreamCancellation (stream_id : Z)
| InsertCountIncrement (increment : Z).

#[export] Instance DecoderInstruction_eq_dec : EqDecision DecoderInstruction.
Proof. solve_decision. Defined.

(** ** Sender: the state is [send_buffer] *)
Definition decoder_stream_new : bytes := [].
Definition write_decoder_stream_type (send_buffer : bytes) : bytes := send_buffer ++ [0x03].
Definition encode_section_acknowledgment (send_buffer : bytes) (stream_id : Z) : bytes :=
  encode_integer_to_vec send_buffer stream_id 7 0x80.
Definition encode_stream_cancellation (send_buffer : bytes) (stream_id : Z) : bytes :=
  encode_integer_to_vec send_buffer stream_id 6 0x40.
Definition encode_insert_count_increment (send_buffer : bytes) (increment : Z) : bytes :=
  encode_integer_to_vec send_buffer increment 6 0x00.

Definition encode_decoder_instruction (send_buffer : bytes) (i : DecoderInstruction) : bytes :=
  match i with
  | SectionAcknowledgment s => encode_section_acknowledgment send_buffer s
  | StreamCancellation s => encode_stream_cancellation send_buffer s
  | InsertCountIncrement n => encode_insert_count_increment send_buffer n
  end.

Definition consume_decoder_data (send_buffer : bytes) (n : Z) : bytes := consume_buffer send_buffer n.

(** ** Receiver *)
Record DecoderStreamReceiver := mkDecReceiver { dec_recv_buffer : bytes; known_received_count : Z }.
Definition dec_receiver_new : DecoderStreamReceiver := mkDecReceiver [] 0.
Definition dec_receive (r : DecoderStreamReceiver) (data : bytes) : DecoderStreamReceiver :=
  mkDecReceiver (dec_recv_buffer r ++ data) (known_received_count r).

Definition dec_step_result : Type := DecoderStreamReceiver * result QpackError (option DecoderInstruction).

Definition dec_drain (r : DecoderStreamReceiver) (consumed : Z) : DecoderStreamReceiver :=
  mkDecReceiver (drop_z consumed (dec_recv_buffer r)) (known_received_count r).

Definition decode_section_acknowledgment (r : DecoderStreamReceiver) : dec_step_result :=
  match decode_integer (dec_recv_buffer r) 7 with
  | Err e => (r, Err e)
  | Ok (stream_id, consumed) => (dec_drain r consumed, Ok (Some (SectionAcknowledgment stream_id)))
  end.

Definition decode_stream_cancellation (r : DecoderStreamReceiver) : dec_step_result :=
  match decode_integer (dec_recv_buffer r) 6 with
  | Err e => (r, Err e)
  | Ok (stream_id, consumed) => (dec_drain r consumed, Ok (Some (StreamCancellation stream_id)))
  end.

(** The sum is a [u64] operation; [known_received_count <= total_insert_count] and a
    62-bit increment keep it in range ([increment_no_overflow]). *)
Definition decode_insert_count_increment (r : DecoderStreamReceiver) (total_insert_count : Z)
    : dec_step_result :=
  match decode_integer (dec_recv_buffer r) 6 with
  | Err e => (r, Err e)
  | Ok (increment, consumed) =>
    if increment =? 0 then (r, Err DecodeFailed)
    else
      let new_known := known_received_count r + increment in
      if total_insert_count <? new_known then (r, Err DecodeFailed)
      else (mkDecReceiver (drop_z consumed (dec_recv_buffer r)) new_known,
            Ok (Some (InsertCountIncrement increment)))
  end.

Definition dec_process (r : DecoderStreamReceiver) (total_insert_count : Z) : dec_step_result :=
  match dec_recv_buffer r with
  | [] => (r, Ok None)
  | first :: _ =>
    match
      (if negb (Z.land first 0x80 =? 0) then decode_section_acknowledgment r
       else if negb (Z.land first 0x40 =? 0) then decode_stream_cancellation r
       else decode_insert_count_increment r total_insert_count)
    with
    | (r', Err BufferTooShort) => (r', Ok None)
    | other => other
    end
  end.

(** ** The instruction format and its effect on the count *)
Definition dec_instruction_bytes (i : DecoderInstruction) : bytes :=
  match i with
  | SectionAcknowledgment s => integer_bytes s 7 0x80
  | StreamCancellation s => integer_bytes s 6 0x40
  | InsertCountIncrement n => integer_bytes n 6 0x00
  end.

Definition dec_instruction_ok (i : DecoderInstruction) : Prop :=
  match i with
  | SectionAcknowledgment s | StreamCancellation s => varint_ok s
  | InsertCountIncrement n => varint_ok n
  end.

Definition parse_dec_instruction (buf : bytes) : result QpackError (DecoderInstruction * Z) :=
  match buf with
  | [] => Err BufferTooShort
  | first :: _ =>
    if negb (Z.land first 0x80 =? 0) then
      '(s, n) ← decode_integer buf 7; Ok (SectionAcknowledgment s, n)
    else if negb (Z.land first 0x40 =? 0) then
      '(s, n) ← decode_integer buf 6; Ok (StreamCancellation s, n)
    else '(k, n) ← decode_integer buf 6; Ok (InsertCountIncrement k, n)
  end.

Definition apply_dec_instruction (total : Z) (i : DecoderInstruction) (known : Z)
    : Z * bool * option QpackError :=
  match i with
  | InsertCountIncrement n =>
    if (n =? 0) || (total <? known + n) then (known, false, Some DecodeFailed)
    else (known + n, true, None)
  | _ => (known, true, None)
  end.

Lemma dec_process_reader r total :
  dec_process r total =
    let '(buf, known, res) := run_step (fun _ : Z => parse_dec_instruction) BufferTooShort
      (apply_dec_instruction total) (dec_recv_buffer r) (known_received_count r) in
    (mkDecReceiver buf known, res).
Proof.
  destruct r as [buf known]. unfold dec_process, run_step.
  cbn [dec_recv_buffer known_received_count]. destruct buf as [|first rest]; [done|].
  unfold decode_section_acknowledgment, decode_stream_cancellation, decode_insert_count_increment,
    parse_dec_instruction, dec_drain. cbn [dec_recv_buffer known_received_count].
  case_flags; destruct (decode_integer _ _) as [[k n]|[]]; cbn [mbind result_bind]; try done.
  cbn [apply_dec_instruction]. by repeat case_z.
Qed.

#[export] Instance dec_instruction_prefix_code :
  PrefixCode dec_instruction_bytes parse_dec_instruction dec_instruction_ok BufferTooShort.
Proof.
  split.
  - assert (forall v pb flags rest, prefix_ok pb flags -> varint_ok v ->
      exists x r, integer_bytes v pb flags ++ rest = flags + x :: r /\ 0 <= x < 2 ^ pb /\
        decode_integer (flags + x :: r) pb = Ok (v, len (integer_bytes v pb flags))) as Hgen.
    { intros v pb flags rest Hp Hv. destruct (integer_bytes_head_x v pb flags Hp Hv) as (x & r & Er & Hx).
      exists x, (r ++ rest). rewrite app_comm_cons, <- Er. split_and!; [done|lia..|].
      by apply decode_integer_bytes. }
    intros [s|s|n] rest Hv; cbn [dec_instruction_bytes dec_instruction_ok] in *.
    + destruct (Hgen s 7 0x80 rest ltac:(by split_and!) Hv) as (x & r & -> & Hx & Hd).
      change (2 ^ 7) with 128 in Hx. unfold parse_dec_instruction. solve_flags. by rewrite Hd.
    + destruct (Hgen s 6 0x40 rest ltac:(by split_and!) Hv) as (x & r & -> & Hx & Hd).
      change (2 ^ 6) with 64 in Hx. unfold parse_dec_instruction. solve_flags. by rewrite Hd.
    + destruct (Hgen n 6 0 rest ltac:(by split_and!) Hv) as (x & r & -> & Hx & Hd).
      change (2 ^ 6) with 64 in Hx. unfold parse_dec_instruction. solve_flags. by rewrite Hd.
  - intros bs i n Hb. unfold parse_dec_instruction. destruct bs as [|first rest]; [done|].
    case_flags; intros ([k n1] & (Hk & Hn1 & _)%decode_integer_inv & [= <- <-])%result_bind_Ok; done.
  - intros bs tail Hb. unfold parse_dec_instruction. destruct bs as [|first rest]; [done|].
    cbn [app]. rewrite !app_comm_cons.
    case_flags; intros Hne; (rewrite decode_integer_stable; [done|]); intros E; by rewrite E in Hne.
Qed.

Lemma parse_dec_instruction_ok buf i n : bytes_ok buf ->
  parse_dec_instruction buf = Ok (i, n) -> dec_instruction_ok i.
Proof.
  intros Hb. unfold parse_dec_instruction. destruct buf as [|first rest]; [done|].
  case_flags; intros ([k n1] & (Hk & Hn1 & _)%decode_integer_inv & [= <- <-])%result_bind_Ok; done.
Qed.

Lemma dec_instruction_bytes_ok i : dec_instruction_ok i -> bytes_ok (dec_instruction_bytes i).
Proof.
  unfold dec_instruction_ok, dec_instruction_bytes, varint_ok.
  destruct i; intros; (apply integer_bytes_ok; [by split_and!|lia]).
Qed.

Lemma encode_decoder_instruction_app buf i :
  encode_decoder_instruction buf i = buf ++ dec_instruction_bytes i.
Proof. destruct i; apply encode_integer_to_vec_app. Qed.

(** ** The count *)

(** A 62-bit increment cannot overflow the [u64] sum. *)
Lemma increment_no_overflow r total k n :
  0 <= known_received_count r <= total -> total <= VARINT_MAX ->
  bytes_ok (dec_recv_buffer r) -> decode_integer (dec_recv_buffer r) 6 = Ok (k, n) ->
  is_u64 (known_received_count r + k).
Proof.
  intros Hk Ht Hb (Hv & _ & _)%decode_integer_inv; [|done..].
  unfold varint_ok, VARINT_MAX, is_u64 in *. lia.
Qed.

(** What one call may do to the count: only an increment of at least one moves it,
    and never past the insertions the encoder made. *)
Lemma dec_process_count r total r' res :
  bytes_ok (dec_recv_buffer r) -> 0 <= known_received_count r <= total ->
  dec_process r total = (r', res) ->
  known_received_count r <= known_received_count r' <= total /\
  bytes_ok (dec_recv_buffer r') /\
  known_received_count r' = known_received_count r +
    match res with Ok (Some (InsertCountIncrement n)) => n | _ => 0 end.
Proof.
  intros Hb Hk. rewrite dec_process_reader. unfold run_step.
  destruct (parse_dec_instruction (dec_recv_buffer r)) as [[i n]|e] eqn:E.
  - pose proof (parse_dec_instruction_ok _ _ _ Hb E) as Hi.
    destruct i as [s|s|k]; cbn [apply_dec_instruction].
    1, 2: intros [= <- <-]; cbn; split_and!; auto with bytes; lia.
    unfold dec_instruction_ok, varint_ok in Hi.
    destruct (_ || _) eqn:Ho; zify_bool; intros [= <- <-]; cbn; split_and!; auto with bytes; lia.
  - intros [= <- <-]. cbn. split_and!; try done; try lia. case_decide; lia.
Qed.

(** ** Properties *)

(** Section acknowledgments, cancellations and increments read back as sent: a
    receiver whose buffer starts with an encoded instruction returns that instruction
    and keeps the bytes after it; an increment is accepted exactly when it is not zero
    and stays within the number of insertions. *)
Theorem dec_process_encoded i rest known total :
  dec_instruction_ok i ->
  dec_process (mkDecReceiver (encode_decoder_instruction [] i ++ rest) known) total =
    match i with
    | InsertCountIncrement n =>
      if (n =? 0) || (total <? known + n)
      then (mkDecReceiver (encode_decoder_instruction [] i ++ rest) known, Err DecodeFailed)
      else (mkDecReceiver rest (known + n), Ok (Some i))
    | _ => (mkDecReceiver rest known, Ok (Some i))
    end.
Proof.
  intros Hi. rewrite dec_process_reader, encode_decoder_instruction_app. unfold run_step.
  cbn [dec_recv_buffer known_received_count app].
  rewrite (pc_decode (PrefixCode := dec_instruction_prefix_code)) by done.
  destruct i as [s|s|n]; cbn [apply_dec_instruction]; rewrite ?drop_z_app_len; try done.
  by destruct (_ || _); rewrite ?drop_z_app_len.
Qed.

Lemma dec_process_encoded_witness :
  dec_process (mkDecReceiver (encode_decoder_instruction [] (InsertCountIncrement 100) ++ [0x84]) 3) 103 =
    (mkDecReceiver [0x84] 103, Ok (Some (InsertCountIncrement 100))).
Proof. rewrite dec_process_encoded; [reflexivity|]. unfold dec_instruction_ok, varint_ok, VARINT_MAX. lia. Defined.

(** The Known Received Count never decreases and never exceeds the number of
    insertions of the encoder, whatever the peer sends. *)
Theorem known_received_count_bounded r total r' res :
  bytes_ok (dec_recv_buffer r) -> 0 <= known_received_count r <= total ->
  dec_process r total = (r', res) ->
  known_received_count r <= known_received_count r' <= total.
Proof. intros Hb Hk H. by apply dec_process_count in H as [? _]. Qed.

Lemma known_received_count_bounded_witness :
  3 <= known_received_count (fst (dec_process (mkDecReceiver [0x02] 3) 9)) <= 9.
Proof.
  eapply (known_received_count_bounded (mkDecReceiver [0x02] 3) 9).
  - by repeat constructor.
  - cbn. lia.
  - vm_compute. reflexivity.
Defined.
