(* ===== verification/QpackEncoder.v ===== *)
(** The QPACK encoder: src/qpack/encoder.rs (RFC 9204 Sections 2.1, 4.5).

    [DynamicEncoder] (of which [Encoder] is an alias) compresses field sections with
    the static and the dynamic table, and tracks what the decoder has acknowledged. *)

From Stdlib Require Import String.
From S2P Require Import Prelude Codec Varint Integer Huffman Wire Header.
From S2P Require Import StaticTable DynamicTable EncoderStream DecoderStream.

(** ** Size estimation *)
Definition encoded_string_len (data_len prefix_bits : Z) : Z :=
  encoded_integer_len data_len prefix_bits + data_len.

Definition estimate_header (h : Header) : Z :=
  match find_static_entry (name h) (value h) with
  | (Some index, _) => encoded_integer_len index 6
  | (None, Some index) => encoded_integer_len index 4 + encoded_string_len (len (value h)) 7
  | (None, None) => encoded_string_len (len (name h)) 3 + encoded_string_len (len (value h)) 7
  end.
Definition estimate_encoded_size (headers : list Header) : Z :=
  fold_left (fun size h => size + estimate_header h) headers 2.

(** ** State *)
Record DynamicEncoder := mkEncoder {
  enc_table : DynamicTable;
  use_huffman : bool;
  enc_max_table_capacity : Z;
  enc_known_received_count : Z;
  enc_last_ric : Z;
  peer_max_blocked_streams : Z;
  unacked_section_rics : gmap Z (list Z) }.

Definition encoder_new : DynamicEncoder := mkEncoder table_new true 0 0 0 0 ∅.

Definition with_table (e : DynamicEncoder) (t : DynamicTable) : DynamicEncoder :=
  mkEncoder t (use_huffman e) (enc_max_table_capacity e) (enc_known_received_count e)
    (enc_last_ric e) (peer_max_blocked_streams e) (unacked_section_rics e).
Definition with_known (e : DynamicEncoder) (known : Z) : DynamicEncoder :=
  mkEncoder (enc_table e) (use_huffman e) (enc_max_table_capacity e) known
    (enc_last_ric e) (peer_max_blocked_streams e) (unacked_section_rics e).
Definition with_last_ric (e : DynamicEncoder) (ric : Z) : DynamicEncoder :=
  mkEncoder (enc_table e) (use_huffman e) (enc_max_table_capacity e) (enc_known_received_count e)
    ric (peer_max_blocked_streams e) (unacked_section_rics e).
Definition with_unacked (e : DynamicEncoder) (m : gmap Z (list Z)) : DynamicEncoder :=
  mkEncoder (enc_table e) (use_huffman e) (enc_max_table_capacity e) (enc_known_received_count e)
    (enc_last_ric e) (peer_max_blocked_streams e) m.

Definition encoder_set_max_table_capacity (e : DynamicEncoder) (capacity : Z) : DynamicEncoder :=
  mkEncoder (enc_table e) (use_huffman e) capacity (enc_known_received_count e)
    (enc_last_ric e) (peer_max_blocked_streams e) (unacked_section_rics e).
Definition set_peer_max_blocked_streams (e : DynamicEncoder) (max : Z) : DynamicEncoder :=
  mkEncoder (enc_table e) (use_huffman e) (enc_max_table_capacity e) (enc_known_received_count e)
    (enc_last_ric e) max (unacked_section_rics e).

Definition encoder_set_table_capacity (e : DynamicEncoder) (capacity : Z)
    : DynamicEncoder * result QpackError unit :=
  if enc_max_table_capacity e <? capacity then (e, Err CapacityExceeded)
  else (with_table e (set_capacity (enc_table e) capacity), Ok tt).

Definition encoder_insert (e : DynamicEncoder) (n v : bytes) : DynamicEncoder * option Z :=
  let '(t, r) := insert (enc_table e) n v in (with_table e t, r).

(** ** Acknowledgments *)

(** The largest Required Insert Count of the sections not acknowledged yet. *)
Definition max_unacked_ric (m : gmap Z (list Z)) : Z :=
  foldr Z.max 0 (concat (map snd (map_to_list m))).

Definition update_eviction_limit (e : DynamicEncoder) : DynamicEncoder :=
  with_table e (set_eviction_limit (enc_table e) (max_unacked_ric (unacked_section_rics e))).

Definition acknowledge (e : DynamicEncoder) (count : Z) : DynamicEncoder :=
  let e := if enc_known_received_count e <? count then with_known e count else e in
  update_eviction_limit e.

Definition track_section (e : DynamicEncoder) (stream_id ric : Z) : DynamicEncoder :=
  if 0 <? ric then
    let rics := default [] (unacked_section_rics e !! stream_id) in
    update_eviction_limit (with_unacked e (<[stream_id := rics ++ [ric]]> (unacked_section_rics e)))
  else e.

Definition ack_section (e : DynamicEncoder) (stream_id : Z) : DynamicEncoder * result QpackError unit :=
  match unacked_section_rics e !! stream_id with
  | None => (e, Err DecodeFailed)
  | Some [] => (e, Err DecodeFailed)
  | Some (ric :: rics) =>
    let m := match rics with
      | [] => delete stream_id (unacked_section_rics e)
      | _ => <[stream_id := rics]> (unacked_section_rics e)
      end in
    let e := with_unacked e m in
    let e := if enc_known_received_count e <? ric then with_known e ric else e in
    (update_eviction_limit e, Ok tt)
  end.

Definition cancel_stream (e : DynamicEncoder) (stream_id : Z) : DynamicEncoder :=
  update_eviction_limit (with_unacked e (delete stream_id (unacked_section_rics e))).

Definition blocked_streams_count (e : DynamicEncoder) : Z :=
  Z.of_nat (size (unacked_section_rics e)).

(** [Connection::process_decoder_stream]: the acknowledgments of the peer, with every
    error turned into QPACK_DECODER_STREAM_ERROR. One unit of fuel per byte. *)
Definition on_decoder_instruction (e : DynamicEncoder) (known : Z) (i : DecoderInstruction)
    : DynamicEncoder * result QpackError unit :=
  match i with
  | InsertCountIncrement _ => (acknowledge e known, Ok tt)
  | SectionAcknowledgment s => ack_section e s
  | StreamCancellation s => (cancel_stream e s, Ok tt)
  end.

Fixpoint decoder_stream_loop (fuel : nat) (r : DecoderStreamReceiver) (e : DynamicEncoder) (total : Z)
    : DecoderStreamReceiver * DynamicEncoder * bool :=
  match dec_process r total with
  | (r', Ok None) => (r', e, true)
  | (r', Err _) => (r', e, false)
  | (r', Ok (Some i)) =>
    match on_decoder_instruction e (known_received_count r') i with
    | (e', Err _) => (r', e', false)
    | (e', Ok _) =>
      match fuel with
      | O => (r', e', true)
      | S fuel' => decoder_stream_loop fuel' r' e' total
      end
    end
  end.
Definition process_decoder_stream (r : DecoderStreamReceiver) (e : DynamicEncoder) :=
  decoder_stream_loop (length (dec_recv_buffer r)) r e (insert_count (enc_table e)).

(** ** Field lines *)
Definition put_byte (b : Z) : writer := fun buf =>
  match buf with [] => ([], None) | _ :: r => (b :: r, Some 1) end.

Section encode.
Context (e : DynamicEncoder).

Definition encode_indexed_field_static (index : Z) : writer := encode_integer index 6 0xc0.

(** [absolute_index < base] holds whenever the encoder calls these two
    ([encoder_index_below_base]), so the subtraction does not wrap. *)
Definition encode_indexed_field_dynamic (absolute_index base : Z) : writer :=
  encode_integer (base - absolute_index - 1) 6 0x80.

Definition encode_literal_with_name_ref_static (index : Z) (value : bytes) (never_indexed : bool) : writer :=
  then_write (encode_integer index 4 (if never_indexed then 0x70 else 0x50))
    (encode_string value (use_huffman e)).

Definition encode_literal_with_name_ref_dynamic (absolute_index : Z) (value : bytes) (base : Z)
    (never_indexed : bool) : writer :=
  then_write (encode_integer (base - absolute_index - 1) 4 (if never_indexed then 0x60 else 0x40))
    (encode_string value (use_huffman e)).

Definition encode_literal_with_literal_name (name value : bytes) (never_indexed : bool) : writer :=
  then_write (encode_string_with_prefix name 3 (if never_indexed then 0x30 else 0x20) (use_huffman e))
    (encode_string value (use_huffman e)).

Definition encode_header_static_only (h : Header) : writer :=
  match find_static_entry (name h) (value h) with
  | (Some index, _) => encode_indexed_field_static index
  | (None, Some index) => encode_literal_with_name_ref_static index (value h) (never_indexed h)
  | (None, None) => encode_literal_with_literal_name (name h) (value h) (never_indexed h)
  end.

Definition encode_header_with_dynamic (base : Z) (h : Header) : writer :=
  let '(dyn_exact, dyn_name) := find_entry (enc_table e) (name h) (value h) in
  let '(static_exact, static_name) := find_static_entry (name h) (value h) in
  match dyn_exact, static_exact, dyn_name, static_name with
  | Some abs_index, _, _, _ => encode_indexed_field_dynamic abs_index base
  | None, Some index, _, _ => encode_indexed_field_static index
  | None, None, Some abs_index, _ =>
    encode_literal_with_name_ref_dynamic abs_index (value h) base (never_indexed h)
  | None, None, None, Some index =>
    encode_literal_with_name_ref_static index (value h) (never_indexed h)
  | None, None, None, None =>
    encode_literal_with_literal_name (name h) (value h) (never_indexed h)
  end.

Definition encode_static_only (headers : list Header) : writer :=
  then_write (put_byte 0x00) (then_write (put_byte 0x00)
    (write_each encode_header_static_only headers)).

Definition encode_required_insert_count (req_insert_count : Z) : Z :=
  if req_insert_count =? 0 then 0
  else
    let max_entries := enc_max_table_capacity e / 32 in
    if max_entries =? 0 then 0
    else
      let full_range := 2 * max_entries in
      req_insert_count mod full_range + 1.

(** The first loop of [encode_with_dynamic]. *)
Definition required_insert_count (headers : list Header) : Z :=
  fold_left (fun ric h =>
    match find_entry (enc_table e) (name h) (value h) with
    | (Some idx, _) | (None, Some idx) => if ric <? idx + 1 then idx + 1 else ric
    | (None, None) => ric
    end) headers 0.

Definition encode_with_dynamic (headers : list Header) : writer :=
  let ric := required_insert_count headers in
  then_write (encode_integer (encode_required_insert_count ric) 8 0x00)
    (then_write (put_byte 0x00) (write_each (encode_header_with_dynamic ric) headers)).
End encode.

(** [encode]: the encoder with its last Required Insert Count, and the writer it runs. *)
Definition encode_section (e : DynamicEncoder) (headers : list Header) (blocked_streams_count : Z)
    : DynamicEncoder * writer :=
  if is_empty (enc_table e) || (enc_max_table_capacity e =? 0) ||
     (peer_max_blocked_streams e <=? blocked_streams_count)
  then (with_last_ric e 0, encode_static_only e headers)
  else (with_last_ric e (required_insert_count e headers), encode_with_dynamic e headers).

(** ** The bytes of a field line *)

(** The representations of RFC 9204 Section 4.5 that the encoder uses. *)
Inductive FieldLine :=
| IndexedStatic (index : Z)
| IndexedDynamic (relative_index : Z)
| NameRefStatic (index : Z) (value : bytes) (never_indexed : bool)
| NameRefDynamic (relative_index : Z) (value : bytes) (never_indexed : bool)
| LiteralName (name value : bytes) (never_indexed : bool).

Definition field_line_bytes (huffman : bool) (l : FieldLine) : bytes :=
  match l with
  | IndexedStatic i => integer_bytes i 6 0xc0
  | IndexedDynamic i => integer_bytes i 6 0x80
  | NameRefStatic i v n => integer_bytes i 4 (if n then 0x70 else 0x50) ++ string_bytes v 7 0 huffman
  | NameRefDynamic i v n => integer_bytes i 4 (if n then 0x60 else 0x40) ++ string_bytes v 7 0 huffman
  | LiteralName nm v n =>
    string_bytes nm 3 (if n then 0x30 else 0x20) huffman ++ string_bytes v 7 0 huffman
  end.

Definition static_line (h : Header) : FieldLine :=
  match find_static_entry (name h) (value h) with
  | (Some i, _) => IndexedStatic i
  | (None, Some i) => NameRefStatic i (value h) (never_indexed h)
  | (None, None) => LiteralName (name h) (value h) (never_indexed h)
  end.

Definition dynamic_line (t : DynamicTable) (base : Z) (h : Header) : FieldLine :=
  match find_entry t (name h) (value h), find_static_entry (name h) (value h) with
  | (Some i, _), _ => IndexedDynamic (base - i - 1)
  | (None, _), (Some i, _) => IndexedStatic i
  | (None, Some i), (None, _) => NameRefDynamic (base - i - 1) (value h) (never_indexed h)
  | (None, None), (None, Some i) => NameRefStatic i (value h) (never_indexed h)
  | (None, None), (None, None) => LiteralName (name h) (value h) (never_indexed h)
  end.

Definition line_strings_ok (l : FieldLine) : Prop :=
  match l with
  | NameRefStatic _ v _ | NameRefDynamic _ v _ => bytes_ok v
  | LiteralName n v _ => bytes_ok n /\ bytes_ok v
  | _ => True
  end.

(** The writer of a representation, as the encoder's methods build it. *)
Definition encode_line (e : DynamicEncoder) (l : FieldLine) : writer :=
  match l with
  | IndexedStatic i => encode_integer i 6 0xc0
  | IndexedDynamic i => encode_integer i 6 0x80
  | NameRefStatic i v n => encode_literal_with_name_ref_static e i v n
  | NameRefDynamic i v n =>
    then_write (encode_integer i 4 (if n then 0x60 else 0x40)) (encode_string v (use_huffman e))
  | LiteralName nm v n => encode_literal_with_literal_name e nm v n
  end.

#[export] Instance writes_line e l : line_strings_ok l ->
  Writes (encode_line e l) (field_line_bytes (use_huffman e) l).
Proof.
  destruct l as [i|i|i v n|i v n|nm v n]; cbn [line_strings_ok encode_line field_line_bytes].
  1, 2: intros _; apply writes_integer; by split_and!.
  1, 2: intros Hv; apply writes_then; [|by apply writes_string];
    apply writes_integer; destruct n; by split_and!.
  intros [Hn Hv]. apply writes_then; [|by apply writes_string].
  apply writes_string_with_prefix; [|done]. destruct n; by split_and!.
Qed.

Lemma encode_header_static_only_line e h :
  encode_header_static_only e h = encode_line e (static_line h).
Proof.
  unfold encode_header_static_only, static_line.
  by destruct (find_static_entry _ _) as [[i|] [j|]].
Qed.

Lemma encode_header_with_dynamic_line e base h :
  encode_header_with_dynamic e base h = encode_line e (dynamic_line (enc_table e) base h).
Proof.
  unfold encode_header_with_dynamic, dynamic_line.
  destruct (find_entry _ _ _) as [[i|] [j|]]; destruct (find_static_entry (name h) (value h)) as [[k|] [m|]]; done.
Qed.

Lemma static_line_ok h : header_ok h -> line_strings_ok (static_line h).
Proof. intros []. unfold static_line. by destruct (find_static_entry _ _) as [[i|] [j|]]. Qed.
Lemma dynamic_line_ok t base h : header_ok h -> line_strings_ok (dynamic_line t base h).
Proof.
  intros []. unfold dynamic_line.
  destruct (find_entry _ _ _) as [[i|] [j|]]; destruct (find_static_entry (name h) (value h)) as [[k|] [m|]]; done.
Qed.

#[export] Instance writes_put_byte b : Writes (put_byte b) [b].
Proof.
  split; intros [|x r] Hb; cbn in *; try done.
  - by exists [].
  - rewrite len_cons in Hb. change (len [b]) with 1 in Hb. pose proof (len_nonneg r). lia.
Qed.

(** The field section, with the Required Insert Count and Base it is encoded against. *)
Definition section_bytes (huffman : bool) (enc_ric : Z) (lines : list FieldLine) : bytes :=
  integer_bytes enc_ric 8 0 ++ [0] ++ concat (map (field_line_bytes huffman) lines).

Definition section_lines (e : DynamicEncoder) (headers : list Header) : list FieldLine :=
  map (dynamic_line (enc_table e) (required_insert_count e headers)) headers.

Lemma writes_static_section e headers : Forall header_ok headers ->
  Writes (encode_static_only e headers) (section_bytes (use_huffman e) 0 (map static_line headers)).
Proof.
  intros Hh. unfold section_bytes. change (integer_bytes 0 8 0) with [0].
  apply writes_then; [apply writes_put_byte|]. apply writes_then; [apply writes_put_byte|].
  rewrite map_map. apply writes_each. intros h Hin.
  eapply writes_ext; [intros buf; by rewrite encode_header_static_only_line|].
  apply writes_line, static_line_ok. by rewrite Forall_forall in Hh; apply Hh.
Qed.

Lemma writes_dynamic_section e headers : Forall header_ok headers ->
  Writes (encode_with_dynamic e headers)
    (section_bytes (use_huffman e) (encode_required_insert_count e (required_insert_count e headers))
      (section_lines e headers)).
Proof.
  intros Hh. unfold section_bytes, section_lines, encode_with_dynamic.
  apply writes_then; [apply writes_integer; by split_and!|].
  apply writes_then; [apply writes_put_byte|].
  rewrite map_map. apply writes_each. intros h Hin.
  eapply writes_ext; [intros buf; by rewrite encode_header_with_dynamic_line|].
  apply writes_line, dynamic_line_ok. by rewrite Forall_forall in Hh; apply Hh.
Qed.

(** ** The size estimate *)
Lemma len_string_bytes_est data pb prefix h : string_prefix_ok pb prefix -> bytes_ok data ->
  len (string_bytes data pb prefix h) <= encoded_string_len (len data) pb.
Proof. intros. unfold encoded_string_len. by apply len_string_bytes_le. Qed.

Lemma estimate_header_bound huffman h : header_ok h ->
  len (field_line_bytes huffman (static_line h)) <= estimate_header h.
Proof.
  intros [Hn Hv]. unfold static_line, estimate_header.
  destruct (find_static_entry _ _) as [[i|] [j|]]; cbn [field_line_bytes].
  1, 2: rewrite <- (encoded_integer_len_spec i 6 0xc0); [lia|by split_and!].
  - rewrite len_app. set (f := if never_indexed h then _ else _).
    rewrite <- (encoded_integer_len_spec j 4 f) by (unfold f; destruct (never_indexed h); by split_and!).
    pose proof (len_string_bytes_est (value h) 7 0 huffman ltac:(by split_and!) Hv). lia.
  - rewrite len_app. set (f := if never_indexed h then _ else _).
    assert (string_prefix_ok 3 f) as Hf by (unfold f; destruct (never_indexed h); by split_and!).
    pose proof (len_string_bytes_est (name h) 3 f huffman Hf Hn).
    pose proof (len_string_bytes_est (value h) 7 0 huffman ltac:(by split_and!) Hv). lia.
Qed.

Lemma estimate_fold_shift headers k :
  fold_left (fun size h => size + estimate_header h) headers k =
  k + foldr (fun h s => estimate_header h + s) 0 headers.
Proof. revert k. induction headers as [|h l IH]; intros k; cbn; [lia|]. rewrite IH. lia. Qed.

Lemma len_static_section_bound huffman headers : Forall header_ok headers ->
  len (section_bytes huffman 0 (map static_line headers)) <= estimate_encoded_size headers.
Proof.
  intros Hh. unfold section_bytes, estimate_encoded_size. change (integer_bytes 0 8 0) with [0].
  rewrite estimate_fold_shift, !len_app. change (len [0]) with 1.
  enough (len (concat (map (field_line_bytes huffman) (map static_line headers))) <=
    foldr (fun h s => estimate_header h + s) 0 headers) by lia.
  induction Hh as [|h l Hh _ IH]; [done|]. cbn [map concat foldr]. rewrite len_app.
  pose proof (estimate_header_bound huffman h Hh). lia.
Qed.

(** ** Invariant of the encoder *)
Lemma max_unacked_ric_spec m :
  0 <= max_unacked_ric m /\
  (forall s l r, m !! s = Some l -> r ∈ l -> r <= max_unacked_ric m) /\
  (max_unacked_ric m = 0 \/ exists s l, m !! s = Some l /\ max_unacked_ric m ∈ l).
Proof.
  assert (forall k : list Z, 0 <= foldr Z.max 0 k /\ (forall r, r ∈ k -> r <= foldr Z.max 0 k) /\
    (foldr Z.max 0 k = 0 \/ foldr Z.max 0 k ∈ k)) as Hmax.
  { induction k as [|x k (IH0 & IH1 & IH2)]; cbn [foldr].
    - split_and!; [done| |by left]. intros r Hr. by apply elem_of_nil in Hr.
    - split_and!; [lia| |].
      + intros r [->|Hr]%elem_of_cons; [lia|]. specialize (IH1 r Hr). lia.
      + destruct (Z.max_spec x (foldr Z.max 0 k)) as [[? ->]|[? ->]].
        * destruct IH2 as [?|?]; [by left|right; by right].
        * right. by left. }
  unfold max_unacked_ric.
  set (k := concat (map snd (map_to_list m))). destruct (Hmax k) as (H0 & H1 & H2).
  assert (forall r, r ∈ k <-> exists s l, m !! s = Some l /\ r ∈ l) as Hk.
  { intros r. unfold k. rewrite list_elem_of_In, in_concat. setoid_rewrite in_map_iff.
    split.
    - intros (l & ([s l'] & <- & Hs) & Hr). exists s, l'. cbn in *.
      rewrite list_elem_of_In. split; [|done]. apply elem_of_map_to_list, list_elem_of_In, Hs.
    - intros (s & l & Hs & Hr). exists l. split; [|by apply list_elem_of_In].
      exists (s, l). split; [done|]. by apply list_elem_of_In, elem_of_map_to_list. }
  split_and!; [done| |].
  - intros s l r Hs Hr. apply H1, Hk. eauto.
  - destruct H2 as [?|H2%Hk]; [by left|by right].
Qed.

Record encoder_wf (e : DynamicEncoder) : Prop := {
  ew_table : table_wf (enc_table e);
  ew_limit : eviction_limit (enc_table e) = max_unacked_ric (unacked_section_rics e);
  ew_unacked : map_Forall (fun _ l => l <> [] /\ Forall (fun r => 0 < r <= insert_count (enc_table e)) l)
    (unacked_section_rics e);
  ew_known : 0 <= enc_known_received_count e <= insert_count (enc_table e) }.

(** Every operation of the encoder that changes its state. *)
Inductive encoder_step (e : DynamicEncoder) : DynamicEncoder -> Prop :=
| step_insert n v : bytes_ok n -> bytes_ok v -> encoder_step e (fst (encoder_insert e n v))
| step_capacity c : encoder_step e (fst (encoder_set_table_capacity e c))
| step_max_capacity c : encoder_step e (encoder_set_max_table_capacity e c)
| step_max_blocked n : encoder_step e (set_peer_max_blocked_streams e n)
| step_acknowledge n : n <= insert_count (enc_table e) -> encoder_step e (acknowledge e n)
| step_ack_section s : encoder_step e (fst (ack_section e s))
| step_cancel s : encoder_step e (cancel_stream e s)
| step_track s ric : ric <= insert_count (enc_table e) -> encoder_step e (track_section e s ric)
| step_encode headers n : encoder_step e (fst (encode_section e headers n)).

Lemma update_limit_wf e :
  table_wf (enc_table e) -> 0 <= enc_known_received_count e <= insert_count (enc_table e) ->
  map_Forall (fun _ l => l <> [] /\ Forall (fun r => 0 < r <= insert_count (enc_table e)) l)
    (unacked_section_rics e) ->
  encoder_wf (update_eviction_limit e).
Proof. intros. split; [by apply set_eviction_limit_wf|done..]. Qed.

Lemma insert_counts t n v : table_wf t -> bytes_ok n -> bytes_ok v ->
  insert_count t <= insert_count (fst (insert t n v)).
Proof.
  intros Hw Hn Hv. pose proof (insert_outcome t n v Hw Hn Hv) as H.
  destruct (insert t n v) as [t' [i|]]; cbn; [destruct H as (_ & _ & _ & -> & _)|destruct H as (_ & -> & _)]; lia.
Qed.

Lemma set_capacity_counts t c : table_wf t ->
  insert_count (set_capacity t c) = insert_count t /\
  eviction_limit (set_capacity t c) = eviction_limit t.
Proof.
  intros Hw. unfold set_capacity. destruct (evict_to_fit_spec 0 _ (set_capacity_field_wf t c Hw)) as [d [_ E _ _ _ _]].
  by rewrite E.
Qed.

Lemma with_table_wf e t : encoder_wf e -> table_wf t ->
  eviction_limit t = eviction_limit (enc_table e) ->
  insert_count (enc_table e) <= insert_count t -> encoder_wf (with_table e t).
Proof.
  intros [Ht Hl Hu Hk] Hw El Hc.
  split; cbn [with_table enc_table unacked_section_rics enc_known_received_count]; [done|congruence| |lia].
  intros s l [? Hall]%Hu. split; [done|]. eapply Forall_impl; [done|]. cbn. intros; lia.
Qed.

Lemma encoder_step_wf e e' : encoder_wf e -> encoder_step e e' -> encoder_wf e'.
Proof.
  intros Hw Hs. pose proof Hw as [Ht Hl Hu Hk].
  destruct Hs as [n v Hn Hv|c|c|n|n Hc|s|s|s ric Hr|headers n]; try by split.
  - unfold encoder_insert. pose proof (insert_wf _ n v Ht Hn Hv). pose proof (insert_counts _ n v Ht Hn Hv).
    pose proof (insert_limit (enc_table e) n v Ht).
    destruct (insert (enc_table e) n v) as [t r]. cbn [fst] in *. by apply with_table_wf.
  - unfold encoder_set_table_capacity. case_z; [done|]. cbn [fst].
    destruct (set_capacity_counts (enc_table e) c Ht) as [E1 E2].
    apply with_table_wf; [done|by apply set_capacity_wf|done|lia].
  - unfold acknowledge. apply update_limit_wf; case_z; cbn; done || lia.
  - unfold ack_section. destruct (unacked_section_rics e !! s) as [[|r rics]|] eqn:Es; [by split| |by split].
    destruct (Hu _ _ Es) as [_ Hall]. inversion_clear Hall as [|?? Hr Hrs]. cbn [fst].
    assert (map_Forall (fun _ l => l <> [] /\ Forall (fun r => 0 < r <= insert_count (enc_table e)) l)
      (match rics with [] => delete s (unacked_section_rics e) | _ => <[s:=rics]> (unacked_section_rics e) end)).
    { destruct rics; [by apply map_Forall_delete|by apply map_Forall_insert_2]. }
    apply update_limit_wf; case_z; cbn; done || lia.
  - apply update_limit_wf; cbn; [done..|]. by apply map_Forall_delete.
  - unfold track_section. case_z; [|by split]. apply update_limit_wf; cbn; [done..|].
    apply map_Forall_insert_2; [|done]. split; [by destruct (default _ _)|].
    apply Forall_app. split; [|repeat constructor; lia].
    destruct (unacked_section_rics e !! s) as [l|] eqn:Es; [|constructor]. by destruct (Hu _ _ Es).
  - unfold encode_section. case_match; by split.
Qed.

(** ** Referenced entries are not evicted *)

(** Entries below an unacknowledged Required Insert Count. *)
Definition pinned (e : DynamicEncoder) (x : DynamicEntry) : Prop :=
  exists s l r, unacked_section_rics e !! s = Some l /\ r ∈ l /\ absolute_index x < r.

Lemma pinned_limit e x : encoder_wf e -> pinned e x -> absolute_index x < eviction_limit (enc_table e).
Proof.
  intros [_ -> _ _] (s & l & r & Hs & Hr & Hx).
  destruct (max_unacked_ric_spec (unacked_section_rics e)) as (_ & H & _). specialize (H _ _ _ Hs Hr). lia.
Qed.

Lemma evicted_keeps sz t t' d x : evicted sz t t' d -> x ∈ entries t ->
  absolute_index x < eviction_limit t -> x ∈ entries t'.
Proof.
  intros [E _ Hd _ _ _]. rewrite E. intros [?|Hx]%elem_of_app Hlt; [done|].
  rewrite Forall_forall in Hd. specialize (Hd _ Hx). lia.
Qed.

Lemma insert_keeps t n v x : table_wf t -> x ∈ entries t -> absolute_index x < eviction_limit t ->
  x ∈ entries (fst (insert t n v)).
Proof.
  intros Hw Hx Hlt. unfold insert. case_z; [done|].
  destruct (evict_to_fit_spec (size_of n v) t Hw) as [d Hev].
  pose proof (evicted_keeps _ _ _ _ _ Hev Hx Hlt). case_z; [done|]. by right.
Qed.

Lemma set_capacity_keeps t c x : table_wf t -> x ∈ entries t -> absolute_index x < eviction_limit t ->
  x ∈ entries (set_capacity t c).
Proof.
  intros Hw Hx Hlt. unfold set_capacity. destruct (evict_to_fit_spec 0 _ (set_capacity_field_wf t c Hw)) as [d Hev].
  by apply (evicted_keeps _ _ _ _ _ Hev).
Qed.

Lemma encoder_step_keeps e e' x : encoder_wf e -> encoder_step e e' ->
  x ∈ entries (enc_table e) -> pinned e x -> x ∈ entries (enc_table e').
Proof.
  intros Hw Hs Hx Hp. pose proof (pinned_limit _ _ Hw Hp) as Hlt. destruct Hw as [Ht _ _ _].
  destruct Hs as [n v Hn Hv|c|c|n|n Hc|s|s|s ric Hr|headers n]; try done.
  - unfold encoder_insert. pose proof (insert_keeps _ n v _ Ht Hx Hlt). by destruct (insert _ _ _).
  - unfold encoder_set_table_capacity. case_z; [done|]. by apply set_capacity_keeps.
  - unfold acknowledge. by case_z.
  - unfold ack_section. destruct (unacked_section_rics e !! s) as [[|r rics]|]; try done. cbn. by case_z.
  - unfold track_section. by case_z.
  - unfold encode_section. by case_match.
Qed.

(** Runs of the encoder along which [x] stays pinned until the last step. *)
Inductive pinned_run (x : DynamicEntry) : DynamicEncoder -> DynamicEncoder -> Prop :=
| pinned_refl e : pinned_run x e e
| pinned_next e e' e'' : pinned e x -> encoder_step e e' -> pinned_run x e' e'' -> pinned_run x e e''.

(** ** The acknowledgments of the peer *)
Lemma decoder_instruction_step e known i :
  known <= insert_count (enc_table e) ->
  encoder_step e (fst (on_decoder_instruction e known i)) /\
  insert_count (enc_table (fst (on_decoder_instruction e known i))) = insert_count (enc_table e).
Proof.
  intros Hk. destruct i as [s|s|n]; cbn [on_decoder_instruction].
  - split; [constructor|]. unfold ack_section. destruct (_ !! s) as [[|r rics]|]; try done. cbn. by case_z.
  - split; [constructor|done].
  - split; [by constructor|]. unfold acknowledge. cbn. by case_z.
Qed.

Inductive encoder_steps : DynamicEncoder -> DynamicEncoder -> Prop :=
| steps_refl e : encoder_steps e e
| steps_next e e' e'' : encoder_step e e' -> encoder_steps e' e'' -> encoder_steps e e''.

Lemma encoder_steps_wf e e' : encoder_wf e -> encoder_steps e e' -> encoder_wf e'.
Proof. intros Hw Hs. revert Hw. induction Hs; eauto using encoder_step_wf. Qed.

Lemma decoder_stream_loop_spec fuel r e total r' e' ok :
  bytes_ok (dec_recv_buffer r) -> 0 <= known_received_count r <= total ->
  total = insert_count (enc_table e) ->
  decoder_stream_loop fuel r e total = (r', e', ok) ->
  encoder_steps e e' /\ known_received_count r <= known_received_count r' <= total /\
  insert_count (enc_table e') = total.
Proof.
  revert r e. induction fuel as [|fuel IH]; intros r e Hb Hk Ht; cbn [decoder_stream_loop].
  all: destruct (dec_process r total) as [r1 res] eqn:Ep;
    destruct (dec_process_count _ _ _ _ Hb Hk Ep) as (Hk1 & Hb1 & _).
  all: destruct res as [[i|]|er]; [|intros [= <- <- <-]; split_and!; (constructor || lia)..].
  all: destruct (decoder_instruction_step e (known_received_count r1) i ltac:(lia)) as [Hs Hc];
    destruct (on_decoder_instruction e (known_received_count r1) i) as [e1 [[]|er]]; cbn [fst] in *.
  1, 2, 4: intros [= <- <- <-]; split_and!; try lia; (econstructor; [exact Hs|constructor]).
  intros Hl. destruct (IH r1 e1 Hb1 ltac:(lia) ltac:(lia) Hl) as (Hs' & ? & ?).
  split_and!; try lia. by econstructor.
Qed.

(** ** Properties *)

(** C37. An entry that an unacknowledged field section may refer to is never evicted:
    as long as some section whose Required Insert Count lies above the entry waits for
    its acknowledgment, insertions, capacity changes and every other operation leave
    the entry in the encoder's table. *)
Theorem referenced_entry_survives x e e' :
  encoder_wf e -> x ∈ entries (enc_table e) -> pinned_run x e e' -> x ∈ entries (enc_table e').
Proof.
  intros Hw Hx Hr. revert Hw Hx. induction Hr as [|e e1 e2 Hp Hs _ IH]; intros Hw Hx; [done|].
  apply IH; [by apply (encoder_step_wf e)|by apply (encoder_step_keeps e)].
Qed.

(** Whatever bytes arrive on the decoder stream, the encoder only goes through its
    own operations: its invariant holds afterwards, no insertion is lost or invented,
    and the Known Received Count of encoder and receiver stay within the insertions. *)
Theorem decoder_stream_safe r e r' e' ok :
  bytes_ok (dec_recv_buffer r) -> encoder_wf e ->
  0 <= known_received_count r <= insert_count (enc_table e) ->
  process_decoder_stream r e = (r', e', ok) ->
  encoder_wf e' /\ insert_count (enc_table e') = insert_count (enc_table e) /\
  0 <= enc_known_received_count e' <= insert_count (enc_table e) /\
  known_received_count r <= known_received_count r' <= insert_count (enc_table e).
Proof.
  intros Hb Hw Hk H. destruct (decoder_stream_loop_spec _ _ _ _ _ _ _ Hb Hk eq_refl H) as (Hs & Hr & Hc).
  pose proof (encoder_steps_wf _ _ Hw Hs) as Hw'.
  pose proof (ew_known _ Hw') as Hkn. rewrite Hc in Hkn. split_and!; done || lia.
Qed.

(** The encoder keeps the peer's limit on blocked streams: sending a section with
    the count of streams that wait for acknowledgments never takes that count above
    SETTINGS_QPACK_BLOCKED_STREAMS. *)
Theorem blocked_streams_limit e headers stream_id :
  blocked_streams_count e <= peer_max_blocked_streams e ->
  let e1 := fst (encode_section e headers (blocked_streams_count e)) in
  let e2 := track_section e1 stream_id (enc_last_ric e1) in
  blocked_streams_count e2 <= peer_max_blocked_streams e2.
Proof.
  intros Hb. unfold encode_section. destruct (_ || _) eqn:E; cbn [fst]; [done|]. zify_bool.
  cbn zeta. unfold track_section. case_z; [|done].
  unfold blocked_streams_count in *. cbn [unacked_section_rics update_eviction_limit with_table with_unacked
    with_last_ric peer_max_blocked_streams].
  set (m := unacked_section_rics e) in *. set (l := default _ _).
  destruct (m !! stream_id) as [l0|] eqn:Es.
  - rewrite map_size_insert_Some; [done|]. by exists l0.
  - rewrite map_size_insert_None by done. lia.
Qed.

(** Section Acknowledgments are answered in the order the sections were sent: one
    for a stream with unacknowledged sections releases the oldest of them and raises
    the Known Received Count to its Required Insert Count; for any other stream it is
    an error and changes nothing. *)
Theorem ack_section_fifo e stream_id :
  encoder_wf e ->
  match unacked_section_rics e !! stream_id with
  | Some (ric :: rics) => exists e', ack_section e stream_id = (e', Ok tt) /\
      default [] (unacked_section_rics e' !! stream_id) = rics /\
      (forall s, s <> stream_id -> unacked_section_rics e' !! s = unacked_section_rics e !! s) /\
      enc_known_received_count e' = Z.max ric (enc_known_received_count e)
  | _ => ack_section e stream_id = (e, Err DecodeFailed)
  end.
Proof.
  intros [_ _ Hu _]. unfold ack_section. destruct (unacked_section_rics e !! stream_id) as [[|ric rics]|]; try done.
  eexists. split; [done|]. split_and!.
  - destruct rics; case_z; cbn [update_eviction_limit with_table with_known with_unacked unacked_section_rics];
      by rewrite ?lookup_delete_eq, ?lookup_insert_eq.
  - intros s Hs. destruct rics; case_z; cbn [update_eviction_limit with_table with_known with_unacked
      unacked_section_rics]; by rewrite ?lookup_delete_ne, ?lookup_insert_ne by done.
  - destruct rics; case_z; cbn [update_eviction_limit with_table with_known with_unacked enc_known_received_count] in *; lia.
Qed.

(** ** A sample encoder: room for two small entries, one section unacknowledged *)
Lemma encoder_new_wf : encoder_wf encoder_new.
Proof. split; [apply with_capacity_wf|done|apply map_Forall_empty|done]. Qed.

Definition sample_ready : DynamicEncoder :=
  fst (encoder_set_table_capacity (set_peer_max_blocked_streams
    (encoder_set_max_table_capacity encoder_new 128) 2) 80).
Definition sample_filled : DynamicEncoder :=
  fst (encoder_insert (fst (encoder_insert sample_ready (str "a") (str "1"))) (str "b") (str "2")).
Definition sample_tracked : DynamicEncoder := track_section sample_filled 4 2.

Lemma sample_filled_wf : encoder_wf sample_filled.
Proof.
  assert (encoder_wf sample_ready) as H.
  { eapply encoder_step_wf; [|apply step_capacity]. eapply encoder_step_wf; [|apply step_max_blocked].
    eapply encoder_step_wf; [|apply step_max_capacity]. apply encoder_new_wf. }
  eapply encoder_step_wf; [|apply step_insert; by repeat constructor].
  eapply encoder_step_wf; [|apply step_insert; by repeat constructor]. done.
Qed.
Lemma sample_tracked_wf : encoder_wf sample_tracked.
Proof. eapply encoder_step_wf; [apply sample_filled_wf|]. apply step_track. vm_compute. done. Qed.

Lemma referenced_entry_survives_witness :
  mkEntry (str "a") (str "1") 0 ∈ entries (enc_table (fst (encoder_insert sample_tracked (str "c") (str "3")))).
Proof.
  apply (referenced_entry_survives _ sample_tracked).
  - apply sample_tracked_wf.
  - apply (bool_decide_unpack _). vm_compute. exact I.
  - eapply pinned_next; [|apply step_insert; by repeat constructor|apply pinned_refl].
    exists 4, [2], 2. split_and!; [vm_compute; reflexivity|by left|vm_compute; reflexivity].
Defined.

Lemma decoder_stream_safe_witness :
  encoder_wf (snd (fst (process_decoder_stream (mkDecReceiver [0x84; 0x02] 0) sample_tracked))).
Proof.
  eapply (decoder_stream_safe (mkDecReceiver [0x84; 0x02] 0) sample_tracked).
  - by repeat constructor.
  - apply sample_tracked_wf.
  - vm_compute. by split.
  - vm_compute. reflexivity.
Defined.

Lemma blocked_streams_limit_witness :
  let e1 := fst (encode_section sample_tracked [mkHeader (str "a") (str "1") false] 1) in
  blocked_streams_count (track_section e1 8 (enc_last_ric e1)) <= 2.
Proof.
  pose proof (blocked_streams_limit sample_tracked [mkHeader (str "a") (str "1") false] 8) as H.
  vm_compute in H |- *. apply H. vm_compute. done.
Defined.

Lemma ack_section_fifo_witness :
  exists e', ack_section sample_tracked 4 = (e', Ok tt) /\ enc_known_received_count e' = 2.
Proof.
  pose proof (ack_section_fifo sample_tracked 4 sample_tracked_wf) as H.
  replace (unacked_section_rics sample_tracked !! 4) with (Some [2]) in H by (vm_compute; reflexivity).
  destruct H as (e' & E & _ & _ & K). exists e'. split; [exact E|]. rewrite K. vm_compute. reflexivity.
Defined.
