(* ===== verification/QpackDecoder.v ===== *)
(** The QPACK decoder: src/qpack/decoder.rs (RFC 9204 Sections 2.2, 4.5).

    [Decoder] knows the static table only; [DynamicDecoder] also uses the dynamic
    table, and reports a section that needs insertions it has not seen as blocked. *)

From S2P Require Import Prelude Codec Varint Integer Huffman Wire Header StaticTable DynamicTable.

Inductive DecodeOutput :=
| Decoded (headers : list Header)
| Blocked.

Definition header_from_decoded (n v : bytes) : Header := from_validated_parts_internal n v.

(** The loop over the field lines, the same in both decoders. Every line takes at
    least one byte, so one unit of fuel per byte is enough ([decode_lines_fuel]). *)
Fixpoint decode_lines (decode_header : bytes -> result QpackError (Header * Z)) (max_size : Z)
    (fuel : nat) (data : bytes) (total_size : Z) : result QpackError (list Header) :=
  match data with
  | [] => Ok []
  | _ =>
    match fuel with
    | O => Err DecodeFailed
    | S fuel' =>
      '(h, consumed) ← decode_header data;
      let total_size := total_size + header_size h in
      if max_size <? total_size then Err DecodeFailed
      else hs ← decode_lines decode_header max_size fuel' (drop_z consumed data) total_size; Ok (h :: hs)
    end
  end.

(** An entry of the static table, the index checked first. *)
Definition static_entry (index : Z) : result QpackError Header :=
  if STATIC_TABLE_LEN <=? index then Err (InvalidIndex index)
  else ok_or (get_static_entry index) (InvalidIndex index).

(** ** Decoder: the static table only *)
Definition decode_indexed_field_static (data : bytes) : result QpackError (Header * Z) :=
  if Z.land (default 0 (head data)) 0x40 =? 0 then Err DecodeFailed
  else
    '(index, consumed) ← decode_integer data 6;
    entry ← static_entry index;
    Ok (entry, consumed).

Definition decode_literal_with_name_ref_static (data : bytes) : result QpackError (Header * Z) :=
  if Z.land (default 0 (head data)) 0x10 =? 0 then Err DecodeFailed
  else
    '(index, index_len) ← decode_integer data 4;
    entry ← static_entry index;
    '(v, value_len) ← decode_string (drop_z index_len data);
    Ok (header_from_decoded (name entry) v, index_len + value_len).

Definition decode_literal_with_literal_name (data : bytes) : result QpackError (Header * Z) :=
  '(name_len_value, prefix_len) ← decode_integer data 3;
  let is_huffman := negb (Z.land (default 0 (head data)) 0x08 =? 0) in
  '(n, name_bytes) ← decode_string_with_len (drop_z prefix_len data) name_len_value is_huffman;
  let offset := prefix_len + name_bytes in
  '(v, value_len) ← decode_string (drop_z offset data);
  Ok (header_from_decoded n v, offset + value_len).

Definition decode_header_static (data : bytes) : result QpackError (Header * Z) :=
  match data with
  | [] => Err BufferTooShort
  | first :: _ =>
    if negb (Z.land first 0x80 =? 0) then decode_indexed_field_static data
    else if negb (Z.land first 0x40 =? 0) then decode_literal_with_name_ref_static data
    else if negb (Z.land first 0x20 =? 0) then decode_literal_with_literal_name data
    else Err DecodeFailed
  end.

(** [Decoder::decode] with the decoder's [max_field_section_size]. *)
Definition decode_static (max_field_section_size : Z) (data : bytes) : result QpackError (list Header) :=
  if len data <? 2 then Err BufferTooShort
  else
    '(ric, ric_len) ← decode_integer data 8;
    if negb (ric =? 0) then Err DecodeFailed
    else if len data <=? ric_len then Err BufferTooShort
    else
      '(_, delta_len) ← decode_integer (drop_z ric_len data) 7;
      let rest := drop_z (ric_len + delta_len) data in
      decode_lines decode_header_static max_field_section_size (length rest) rest 0.

(** ** DynamicDecoder *)
Record DynamicDecoder := mkDecoder {
  dec_table : DynamicTable;
  dec_max_field_section_size : Z;
  dec_max_table_capacity : Z;
  dec_last_ric : Z }.

Definition decoder_new : DynamicDecoder := mkDecoder table_new (16 * 1024) 0 0.
Definition set_max_field_section_size (d : DynamicDecoder) (size : Z) : DynamicDecoder :=
  mkDecoder (dec_table d) size (dec_max_table_capacity d) (dec_last_ric d).
Definition decoder_set_max_table_capacity (d : DynamicDecoder) (capacity : Z) : DynamicDecoder :=
  mkDecoder (dec_table d) (dec_max_field_section_size d) capacity (dec_last_ric d).
Definition decoder_set_table_capacity (d : DynamicDecoder) (capacity : Z) : DynamicDecoder :=
  mkDecoder (set_capacity (dec_table d) capacity) (dec_max_field_section_size d)
    (dec_max_table_capacity d) (dec_last_ric d).
Definition decoder_insert (d : DynamicDecoder) (n v : bytes) : DynamicDecoder * option Z :=
  let '(t, r) := insert (dec_table d) n v in
  (mkDecoder t (dec_max_field_section_size d) (dec_max_table_capacity d) (dec_last_ric d), r).

Definition decode_required_insert_count (d : DynamicDecoder) (enc_insert_count : Z) : result QpackError Z :=
  if enc_insert_count =? 0 then Ok 0
  else
    let max_entries := dec_max_table_capacity d / 32 in
    if max_entries =? 0 then Err DecodeFailed
    else
      let full_range := 2 * max_entries in
      if full_range <? enc_insert_count then Err DecodeFailed
      else
        let total_inserts := insert_count (dec_table d) in
        let max_value := total_inserts + max_entries in
        let max_wrapped := (max_value / full_range) * full_range in
        let req_insert_count := max_wrapped + enc_insert_count - 1 in
        let wrapped :=
          if max_value <? req_insert_count then
            if req_insert_count <=? full_range then Err DecodeFailed
            else Ok (req_insert_count - full_range)
          else Ok req_insert_count in
        req ← wrapped;
        if req =? 0 then Err DecodeFailed else Ok req.

(** The entry a relative index names; [index >= base] falls through to the failing
    lookup, as in the source. *)
Definition relative_entry (t : DynamicTable) (index base ric : Z) : result QpackError DynamicEntry :=
  if (index <? base) && (ric <=? base - index - 1) then Err DecodeFailed
  else ok_or (get_by_relative_index_repr t index base) (InvalidIndex index).

Definition post_base_entry (t : DynamicTable) (post_base_index base ric : Z) : result QpackError DynamicEntry :=
  absolute_index ← ok_or (checked_add base post_base_index) DecodeFailed;
  if ric <=? absolute_index then Err DecodeFailed
  else ok_or (get_by_post_base_index t post_base_index base) (InvalidIndex post_base_index).

Definition header_of_entry (e : DynamicEntry) : Header := header_from_decoded (entry_name e) (entry_value e).

Section decode.
Context (t : DynamicTable) (base ric : Z).

Definition decode_indexed_field (data : bytes) : result QpackError (Header * Z) :=
  let is_static := negb (Z.land (default 0 (head data)) 0x40 =? 0) in
  '(index, consumed) ← decode_integer data 6;
  if is_static then entry ← static_entry index; Ok (entry, consumed)
  else entry ← relative_entry t index base ric; Ok (header_of_entry entry, consumed).

Definition decode_indexed_field_post_base (data : bytes) : result QpackError (Header * Z) :=
  '(post_base_index, consumed) ← decode_integer data 4;
  entry ← post_base_entry t post_base_index base ric;
  Ok (header_of_entry entry, consumed).

Definition decode_literal_with_name_ref (data : bytes) : result QpackError (Header * Z) :=
  let is_static := negb (Z.land (default 0 (head data)) 0x10 =? 0) in
  '(index, index_len) ← decode_integer data 4;
  n ← (if is_static then entry ← static_entry index; Ok (name entry)
       else entry ← relative_entry t index base ric; Ok (entry_name entry));
  '(v, value_len) ← decode_string (drop_z index_len data);
  Ok (header_from_decoded n v, index_len + value_len).

Definition decode_literal_with_post_base_name_ref (data : bytes) : result QpackError (Header * Z) :=
  '(post_base_index, index_len) ← decode_integer data 3;
  entry ← post_base_entry t post_base_index base ric;
  '(v, value_len) ← decode_string (drop_z index_len data);
  Ok (header_from_decoded (entry_name entry) v, index_len + value_len).

Definition decode_header (data : bytes) : result QpackError (Header * Z) :=
  match data with
  | [] => Err BufferTooShort
  | first :: _ =>
    if negb (Z.land first 0x80 =? 0) then decode_indexed_field data
    else if negb (Z.land first 0x40 =? 0) then decode_literal_with_name_ref data
    else if negb (Z.land first 0x20 =? 0) then decode_literal_with_literal_name data
    else if negb (Z.land first 0x10 =? 0) then decode_indexed_field_post_base data
    else decode_literal_with_post_base_name_ref data
  end.
End decode.

(** The sign bit and the Delta Base. *)
Definition decode_base (ric delta_base : Z) (sign : bool) : result QpackError Z :=
  if sign then
    if ric <=? delta_base then Err DecodeFailed else Ok (ric - delta_base - 1)
  else ok_or (checked_add ric delta_base) DecodeFailed.

(** [decode]: the decoder remembers the section's Required Insert Count. *)
Definition decode_section (d : DynamicDecoder) (data : bytes)
    : DynamicDecoder * result QpackError DecodeOutput :=
  if len data <? 2 then (d, Err BufferTooShort)
  else
    match ('(enc_insert_count, ric_len) ← decode_integer data 8;
           ric ← decode_required_insert_count d enc_insert_count; Ok (ric, ric_len)) with
    | Err e => (d, Err e)
    | Ok (ric, ric_len) =>
      let d := mkDecoder (dec_table d) (dec_max_field_section_size d) (dec_max_table_capacity d) ric in
      (d,
       if (0 <? ric) && (insert_count (dec_table d) <? ric) then Ok Blocked
       else if len data <=? ric_len then Err BufferTooShort
       else
         let sign := negb (Z.land (default 0 (get_at data ric_len)) 0x80 =? 0) in
         '(delta_base, delta_len) ← decode_integer (drop_z ric_len data) 7;
         base ← decode_base ric delta_base sign;
         let rest := drop_z (ric_len + delta_len) data in
         hs ← decode_lines (decode_header (dec_table d) base ric)
           (dec_max_field_section_size d) (length rest) rest 0;
         Ok (Decoded hs))
    end.

(** ** What a decoded line takes *)
Lemma static_entry_ok index h :
  static_entry index = Ok h <-> get_static_entry index = Some h.
Proof.
  unfold static_entry. split; [case_z; [done|]; by rewrite ok_or_Ok|].
  intros Hg. pose proof (get_static_entry_range _ _ Hg). solve_cmp. by rewrite Hg.
Qed.

(** A line read from [data]: made of bytes, and at least one byte was used. *)
Definition line_inv (data : bytes) (h : Header) (n : Z) : Prop := 0 < n <= len data /\ header_ok h.

Section line_inv.
Context (t : DynamicTable) (base ric : Z).
Context (Hw : table_wf t).

Lemma get_by_absolute_ok i e : get_by_absolute_index t i = Some e -> entry_ok e.
Proof using Hw. intros [He _]%get_by_absolute_index_spec; [|done]. by apply entry_in_range in He as [_ ?]. Qed.

Lemma relative_entry_ok index e : relative_entry t index base ric = Ok e ->
  get_by_absolute_index t (base - index - 1) = Some e /\ base - index - 1 < ric /\ entry_ok e.
Proof using Hw.
  unfold relative_entry, get_by_relative_index_repr. destruct (_ && _) eqn:Ec; [done|].
  rewrite ok_or_Ok. case_z; [done|]. intros Hg. pose proof (get_by_absolute_ok _ _ Hg).
  split_and!; [done| |done]. apply andb_false_iff in Ec as [?|?]; lia.
Qed.

Lemma post_base_entry_ok index e : post_base_entry t index base ric = Ok e ->
  get_by_absolute_index t (base + index) = Some e /\ base + index < ric /\ entry_ok e.
Proof using Hw.
  unfold post_base_entry, get_by_post_base_index, checked_add.
  case_z; cbn [ok_or mbind result_bind option_bind]; [|done]. case_z; [done|].
  rewrite ok_or_Ok. intros Hg. pose proof (get_by_absolute_ok _ _ Hg). done.
Qed.

Lemma literal_name_inv data h n :
  bytes_ok data -> decode_literal_with_literal_name data = Ok (h, n) -> line_inv data h n.
Proof using.
  intros Hb ([l p] & (Hl & Hp & _)%decode_integer_inv & Ho)%result_bind_Ok; [|done..].
  apply result_bind_Ok in Ho as ([nm k] & Hn & Ho). unfold decode_string_with_len in Hn.
  revert Hn. case_z; [done|]. intros (s & Hs & [= <- <-])%result_bind_Ok.
  unfold varint_ok in Hl. rewrite len_drop in * by lia.
  apply result_bind_Ok in Ho as ([v m] & [? Hm]%decode_string_inv & [= <- <-]); [|auto with bytes|done].
  rewrite len_drop in Hm by lia. split; [lia|]. split; [|done]. cbn.
  unfold decode_literal in Hs. case_match.
  - apply huffman_encode_decode in Hs as [? _]; auto with bytes.
  - injection Hs as <-. auto with bytes.
Qed.

Lemma decode_header_inv data h n :
  bytes_ok data -> decode_header t base ric data = Ok (h, n) -> line_inv data h n.
Proof using Hw.
  intros Hb. unfold decode_header. destruct data as [|first rest]; [done|].
  set (data := first :: rest) in *.
  destruct (negb _); [|destruct (negb _); [|destruct (negb _); [|destruct (negb _)]]].
  - intros ([k c] & (Hk & Hc & _)%decode_integer_inv & Ho)%result_bind_Ok; [|done..].
    destruct (negb _); apply result_bind_Ok in Ho as (e & He & [= <- <-]); (split; [done|]).
    + apply static_entry_ok in He. by apply get_static_entry_ok in He as [? _].
    + by apply relative_entry_ok in He as (_ & _ & ?).
  - intros ([k c] & (Hk & Hc & _)%decode_integer_inv & Ho)%result_bind_Ok; [|done..].
    apply result_bind_Ok in Ho as (nm & Hn & Ho).
    apply result_bind_Ok in Ho as ([v m] & [? Hm]%decode_string_inv & [= <- <-]); [|auto with bytes|done].
    rewrite len_drop in Hm by lia. split; [lia|]. split; [|done]. cbn.
    destruct (negb _); apply result_bind_Ok in Hn as (e & He & [= <-]).
    + apply static_entry_ok in He. by apply get_static_entry_ok in He as [[] _].
    + by apply relative_entry_ok in He as (_ & _ & []).
  - by apply literal_name_inv.
  - intros ([k c] & (Hk & Hc & _)%decode_integer_inv & Ho)%result_bind_Ok; [|done..].
    apply result_bind_Ok in Ho as (e & He & [= <- <-]). split; [done|].
    by apply post_base_entry_ok in He as (_ & _ & ?).
  - intros ([k c] & (Hk & Hc & _)%decode_integer_inv & Ho)%result_bind_Ok; [|done..].
    apply result_bind_Ok in Ho as (e & He & Ho).
    apply result_bind_Ok in Ho as ([v m] & [? Hm]%decode_string_inv & [= <- <-]); [|auto with bytes|done].
    rewrite len_drop in Hm by lia. split; [lia|]. split; [|done]. cbn.
    by apply post_base_entry_ok in He as (_ & _ & []).
Qed.
End line_inv.

(** ** The loop over the field lines *)
Section lines.
Context (dec : bytes -> result QpackError (Header * Z)) (max : Z).
Context (Hdec : forall data h n, bytes_ok data -> dec data = Ok (h, n) -> line_inv data h n).

Lemma line_shrinks data h n : bytes_ok data -> dec data = Ok (h, n) ->
  bytes_ok (drop_z n data) /\ (length (drop_z n data) < length data)%nat.
Proof using Hdec.
  intros Hb Hd. destruct (Hdec _ _ _ Hb Hd) as [Hn _]. split; [auto with bytes|].
  unfold drop_z. rewrite length_drop. unfold len in Hn. lia.
Qed.

Lemma decode_lines_fuel f1 f2 data total :
  bytes_ok data -> (length data <= f1)%nat -> (length data <= f2)%nat ->
  decode_lines dec max f1 data total = decode_lines dec max f2 data total.
Proof using Hdec.
  revert f2 data total. induction f1 as [|f1 IH]; intros [|f2] [|b data] total Hb H1 H2;
    cbn [length] in *; try done; try lia. cbn [decode_lines].
  destruct (dec (b :: data)) as [[h n]|e] eqn:E; [|done]. cbn [mbind result_bind].
  destruct (line_shrinks _ _ _ Hb E) as [Hb' Hl]. cbn [length] in Hl.
  by rewrite (IH f2) by (done || lia).
Qed.

(** The sum of the header sizes, as the decoder counts them. *)
Definition total_header_size (hs : list Header) : Z := foldr (fun h s => header_size h + s) 0 hs.

Lemma decode_lines_inv fuel data total hs :
  bytes_ok data -> decode_lines dec max fuel data total = Ok hs ->
  Forall header_ok hs /\ (hs = [] \/ total + total_header_size hs <= max).
Proof using Hdec.
  revert data total hs. induction fuel as [|fuel IH]; intros [|b data] total hs Hb; cbn [decode_lines].
  1, 3: intros [= <-]; auto.
  - done.
  - intros ([h n] & E & Ho)%result_bind_Ok. revert Ho. case_z; [done|].
    intros (hs' & Hl & [= <-])%result_bind_Ok. destruct (line_shrinks _ _ _ Hb E) as [Hb' _].
    destruct (IH _ _ _ Hb' Hl) as [Hok Hs]. destruct (Hdec _ _ _ Hb E) as [_ ?].
    split; [by constructor|]. right. cbn [total_header_size foldr] in *.
    destruct Hs as [->|Hs]; cbn; [lia|]. unfold total_header_size in Hs. lia.
Qed.

(** Reading back a list of lines, each of which is read back by [dec]. *)
Lemma decode_lines_encoded {A} (enc : A -> bytes) (strip : A -> Header) (l : list A) fuel total :
  (forall x rest, x ∈ l -> bytes_ok rest -> dec (enc x ++ rest) = Ok (strip x, len (enc x))) ->
  (forall x, x ∈ l -> enc x <> [] /\ bytes_ok (enc x)) ->
  (length (concat (map enc l)) <= fuel)%nat ->
  total + total_header_size (map strip l) <= max ->
  decode_lines dec max fuel (concat (map enc l)) total = Ok (map strip l).
Proof using.
  revert fuel total. induction l as [|x l IH]; intros fuel total Hd Hne Hf Ht; [by destruct fuel|].
  cbn [map concat] in *. assert (bytes_ok (concat (map enc l))) as Hbl.
  { apply Forall_concat, List.Forall_forall. intros y (z & <- & Hz)%in_map_iff.
    apply Hne. right. by apply list_elem_of_In. }
  pose proof (Hd x (concat (map enc l)) ltac:(by left) Hbl) as Hx.
  destruct (Hne x ltac:(by left)) as [Hnx _]. rewrite length_app in Hf.
  destruct (enc x ++ concat (map enc l)) as [|b r] eqn:Eb; [by destruct (enc x)|].
  assert (0 < length (enc x))%nat by (destruct (enc x); [done|cbn; lia]).
  destruct fuel as [|fuel]; [lia|]. cbn [decode_lines]. rewrite Hx. cbn [mbind result_bind].
  cbn [total_header_size foldr] in Ht.
  assert (0 <= total_header_size (map strip l)).
  { clear. induction l as [|y l IH]; cbn; [done|]. unfold total_header_size, header_size in *.
    pose proof (len_nonneg (name (strip y))). pose proof (len_nonneg (value (strip y))). lia. }
  unfold total_header_size in *. solve_cmp. rewrite <- Eb, drop_z_app_len.
  rewrite IH; [done| | |lia|lia].
  - intros y rest Hy. apply Hd. by right.
  - intros y Hy. apply Hne. by right.
Qed.
End lines.

Lemma decode_lines_ext dec1 dec2 max fuel data total :
  (forall data, dec1 data = dec2 data) ->
  decode_lines dec1 max fuel data total = decode_lines dec2 max fuel data total.
Proof.
  intros He. revert data total. induction fuel as [|fuel IH]; intros [|b data] total; try done.
  cbn [decode_lines]. rewrite He. destruct (dec2 (b :: data)) as [[h n]|e]; [|done].
  cbn [mbind result_bind]. by rewrite IH.
Qed.

(** ** A section depends only on the entries below its Required Insert Count *)
Definition agree_below (ric : Z) (t t' : DynamicTable) : Prop :=
  forall i, i < ric -> get_by_absolute_index t i = get_by_absolute_index t' i.

#[export] Instance agree_below_equivalence ric : Equivalence (agree_below ric).
Proof.
  split.
  - by intros t i _.
  - intros t t' H i Hi. symmetry. by apply H.
  - intros t t' t'' H H' i Hi. rewrite H by done. by apply H'.
Qed.

#[export] Instance relative_entry_proper ric :
  Proper (agree_below ric ==> eq ==> eq ==> eq) (fun t i b => relative_entry t i b ric).
Proof.
  intros t t' Ht i ? <- b ? <-. unfold relative_entry, get_by_relative_index_repr.
  destruct (Z.leb_spec b i); [done|]. solve_cmp. case_z; [done|]. by rewrite Ht by lia.
Qed.

#[export] Instance post_base_entry_proper ric :
  Proper (agree_below ric ==> eq ==> eq ==> eq) (fun t i b => post_base_entry t i b ric).
Proof.
  intros t t' Ht i ? <- b ? <-. unfold post_base_entry, get_by_post_base_index, checked_add.
  case_z; [|done]. cbn [ok_or mbind result_bind option_bind]. case_z; [done|]. by rewrite Ht by lia.
Qed.

Lemma decode_header_agree t t' base ric data :
  agree_below ric t t' -> decode_header t base ric data = decode_header t' base ric data.
Proof.
  intros Ht. unfold decode_header, decode_indexed_field, decode_literal_with_name_ref,
    decode_indexed_field_post_base, decode_literal_with_post_base_name_ref.
  destruct data as [|first rest]; [done|].
  destruct (negb _); [|destruct (negb _); [|destruct (negb _); [done|destruct (negb _)]]];
    destruct (decode_integer _ _) as [[k n]|]; cbn [mbind result_bind]; try done.
  - destruct (negb _); [done|]. by rewrite (relative_entry_proper ric _ _ Ht k k eq_refl base base eq_refl).
  - destruct (negb _); [done|]. by rewrite (relative_entry_proper ric _ _ Ht k k eq_refl base base eq_refl).
  - by rewrite (post_base_entry_proper ric _ _ Ht k k eq_refl base base eq_refl).
  - by rewrite (post_base_entry_proper ric _ _ Ht k k eq_refl base base eq_refl).
Qed.

(** ** The Required Insert Count *)

(** The count the prefix can name: within [max_entries] of the decoder's own. *)
Definition ric_window (capacity total ric : Z) : Prop :=
  total - capacity / 32 < ric <= total + capacity / 32.

Lemma decode_ric_window d ric :
  0 < ric -> 0 <= dec_max_table_capacity d -> 
  ric_window (dec_max_table_capacity d) (insert_count (dec_table d)) ric ->
  decode_required_insert_count d (ric mod (2 * (dec_max_table_capacity d / 32)) + 1) = Ok ric.
Proof.
  unfold ric_window, decode_required_insert_count. set (m := dec_max_table_capacity d / 32).
  set (total := insert_count (dec_table d)). intros Hr Hc [Hlo Hhi].
  assert (0 < m) as Hm by lia.
  pose proof (Z.mod_pos_bound ric (2 * m) ltac:(lia)) as Hb.
  pose proof (Z.div_mod ric (2 * m) ltac:(lia)) as Hd.
  pose proof (Z.mod_pos_bound (total + m) (2 * m) ltac:(lia)) as Hb'.
  pose proof (Z.div_mod (total + m) (2 * m) ltac:(lia)) as Hd'.
  set (q := ric / (2 * m)) in *. set (x := ric mod (2 * m)) in *.
  set (q' := (total + m) / (2 * m)) in *. set (y := (total + m) mod (2 * m)) in *.
  clearbody q q' x y m total. clear Hc.
  replace (x + 1 =? 0) with false by lia. replace (m =? 0) with false by lia.
  replace (2 * m <? x + 1) with false by lia. 
  assert (q = q' \/ q = q' - 1) as Hq by nia. cbn zeta. unfold mbind, result_bind.
  destruct Hq as [-> | ->].
  - replace (total + m <? q' * (2 * m) + (x + 1) - 1) with false by nia.
    replace (q' * (2 * m) + (x + 1) - 1) with ric by lia. by solve_cmp.
  - replace (total + m <? q' * (2 * m) + (x + 1) - 1) with true by nia.
    assert (0 <= q' - 1) by nia.
    replace (q' * (2 * m) + (x + 1) - 1 <=? 2 * m) with false.
    + replace (q' * (2 * m) + (x + 1) - 1 - 2 * m) with ric by lia. by solve_cmp.
    + symmetry. apply Z.leb_gt. nia.
Qed.

(** What is accepted is in the window, and never zero unless the prefix says so. *)
Lemma decode_ric_inv d enc ric :
  0 <= enc -> 0 <= dec_max_table_capacity d -> 0 <= insert_count (dec_table d) ->
  decode_required_insert_count d enc = Ok ric ->
  (enc = 0 /\ ric = 0) \/
  (0 < ric /\ ric_window (dec_max_table_capacity d) (insert_count (dec_table d)) ric /\
   enc = ric mod (2 * (dec_max_table_capacity d / 32)) + 1).
Proof.
  intros He Hc Ht. unfold decode_required_insert_count, ric_window.
  set (m := dec_max_table_capacity d / 32). set (total := insert_count (dec_table d)) in *.
  assert (0 <= m) by (unfold m; apply Z.div_pos; lia).
  destruct (Z.eqb_spec enc 0) as [->|]; [intros [= <-]; by left|].
  destruct (Z.eqb_spec m 0); [done|]. destruct (Z.ltb_spec (2 * m) enc); [done|].
  pose proof (Z.mod_pos_bound (total + m) (2 * m) ltac:(lia)) as Hb'.
  pose proof (Z.div_mod (total + m) (2 * m) ltac:(lia)) as Hd'.
  set (q' := (total + m) / (2 * m)) in *. set (y := (total + m) mod (2 * m)) in *. cbn zeta.
  intros (r & Hr & Ho)%result_bind_Ok. revert Ho. destruct (Z.eqb_spec r 0); [done|]. intros [= <-]. right.
  assert (0 <= q') by (unfold q'; apply Z.div_pos; lia).
  revert Hr. destruct (Z.ltb_spec (total + m) (q' * (2 * m) + enc - 1)).
  - destruct (Z.leb_spec (q' * (2 * m) + enc - 1) (2 * m)); [done|]. intros [= <-].
    assert (1 <= q') by nia. split; [nia|]. split; [nia|].
    replace (q' * (2 * m) + enc - 1 - 2 * m) with (enc - 1 + (q' - 1) * (2 * m)) by lia.
    rewrite Z.mod_add, Z.mod_small by lia. lia.
  - intros [= <-]. split; [nia|]. split; [nia|].
    replace (q' * (2 * m) + enc - 1) with (enc - 1 + q' * (2 * m)) by lia.
    rewrite Z.mod_add, Z.mod_small by lia. lia.
Qed.

(** ** The static decoder is the dynamic one without a table *)
Lemma decode_header_static_dynamic t base ric data r :
  decode_header_static data = Ok r -> decode_header t base ric data = Ok r.
Proof.
  unfold decode_header_static, decode_header. destruct data as [|first rest]; [done|].
  set (data := first :: rest).
  destruct (negb (Z.land first 0x80 =? 0)); [|destruct (negb (Z.land first 0x40 =? 0));
    [|by destruct (negb (Z.land first 0x20 =? 0))]].
  - unfold decode_indexed_field_static, decode_indexed_field.
    destruct (Z.land _ 0x40 =? 0); [done|]. done.
  - unfold decode_literal_with_name_ref_static, decode_literal_with_name_ref.
    destruct (Z.land _ 0x10 =? 0); [done|]. cbn [negb].
    destruct (decode_integer data 4) as [[k n]|]; [|done]. cbn [mbind result_bind].
    by destruct (static_entry k).
Qed.

Lemma decode_lines_static_dynamic t base ric max fuel data total hs :
  decode_lines decode_header_static max fuel data total = Ok hs ->
  decode_lines (decode_header t base ric) max fuel data total = Ok hs.
Proof.
  revert data total hs. induction fuel as [|fuel IH]; intros [|b data] total hs; try done.
  cbn [decode_lines]. intros ([h n] & E & Ho)%result_bind_Ok.
  rewrite (decode_header_static_dynamic _ _ _ _ _ E). cbn [mbind result_bind].
  revert Ho. case_z; [done|]. intros (hs' & El & [= <-])%result_bind_Ok. by rewrite (IH _ _ _ El).
Qed.

(** The sign bit of the second prefix byte. *)
Definition section_sign (data : bytes) : bool := negb (Z.land (default 0 (get_at data 1)) 0x80 =? 0).

Lemma decode_integer_zero data n : bytes_ok data -> decode_integer data 8 = Ok (0, n) -> n = 1.
Proof.
  intros Hb. unfold decode_integer. destruct data as [|b r]; [done|]. 
  change ((8 =? 0) || (8 <? 8)) with false. cbn iota zeta. inversion_clear Hb as [|?? Hbyte Hr].
  change (u8_of (Z.shiftl 1 8 - 1)) with (2 ^ 8 - 1). rewrite land_ones_mod by lia.
  unfold is_byte in Hbyte. rewrite Z.mod_small by lia. case_z; [by intros [= _ <-]|].
  intros ([v m] & Hd & Hv)%result_bind_Ok. revert Hv. case_z; [done|]. intros [= -> _].
  pose proof (decode_cont_no_wrap r b 0 1 Hr ltac:(lia) ltac:(lia)) as E.
  change (7 * 0) with 0 in E. rewrite E in Hd.
  apply decode_cont_Z_grows in Hd; [|done|lia]. lia.
Qed.

(** With no dynamic reference and a clear sign bit the two decoders agree. *)
Lemma decode_static_dynamic max data d hs :
  bytes_ok data -> section_sign data = false -> dec_max_field_section_size d = max ->
  decode_static max data = Ok hs -> snd (decode_section d data) = Ok (Decoded hs).
Proof.
  intros Hb Hs <-. unfold decode_static, decode_section. case_z; [done|].
  destruct (decode_integer data 8) as [[enc n]|e] eqn:E8; [|done]. cbn [mbind result_bind].
  destruct (Z.eqb_spec enc 0) as [->|]; [|done]. cbn [negb].
  pose proof (decode_integer_zero _ _ Hb E8) as ->.
  unfold decode_required_insert_count. cbn [Z.eqb mbind result_bind snd dec_table dec_max_field_section_size].
  change (0 <? 0) with false. cbn [andb]. case_z; [done|].
  unfold section_sign in Hs. rewrite Hs.
  destruct (decode_integer (drop_z 1 data) 7) as [[delta k]|e] eqn:E7; [|done]. cbn [mbind result_bind].
  intros Hl. unfold decode_base, checked_add.
  pose proof E7 as ([Hd1 Hd2] & _)%decode_integer_inv; [|auto with bytes|done].
  unfold VARINT_MAX, U64_MAX in *. solve_cmp. cbn [ok_or mbind result_bind].
  by rewrite (decode_lines_static_dynamic _ _ _ _ _ _ _ _ Hl).
Qed.
