(* ===== verification/Qpack.v ===== *)
(** QPACK end to end: what [DynamicEncoder::encode] writes, [DynamicDecoder::decode]
    reads back, given tables that agree on the entries the section refers to. *)

From Stdlib Require Import String.
From S2P Require Import Prelude Codec Varint Integer Huffman Wire Header.
From S2P Require Import StaticTable DynamicTable Incremental EncoderStream DecoderStream QpackEncoder QpackDecoder.

#[local] Opaque STATIC_TABLE static_pairs find_static_entry.

(** ** One field line *)

(** The header a representation stands for, with the never-indexed mark dropped. *)
Definition resolve (t : DynamicTable) (base : Z) (l : FieldLine) : option Header :=
  match l with
  | IndexedStatic i => get_static_entry i
  | IndexedDynamic i => option_map header_of_entry (get_by_absolute_index t (base - i - 1))
  | NameRefStatic i v _ => option_map (fun h => header_from_decoded (name h) v) (get_static_entry i)
  | NameRefDynamic i v _ =>
    option_map (fun e => header_from_decoded (entry_name e) v) (get_by_absolute_index t (base - i - 1))
  | LiteralName n v _ => Some (header_from_decoded n v)
  end.

(** Indices and strings a decoder can read; dynamic references below [ric]. *)
Definition line_ok (base ric : Z) (l : FieldLine) : Prop :=
  match l with
  | IndexedStatic i => varint_ok i
  | IndexedDynamic i => varint_ok i /\ i < base /\ base - i - 1 < ric
  | NameRefStatic i v _ => varint_ok i /\ string_ok v
  | NameRefDynamic i v _ => varint_ok i /\ i < base /\ base - i - 1 < ric /\ string_ok v
  | LiteralName n v _ => string_ok n /\ string_ok v
  end.

(** The literal-name decoder reads the name like the prefix-string decoder does. *)
Lemma decode_name_with_len data s n :
  bytes_ok data -> decode_string_with_prefix data 3 = Ok (s, n) ->
  exists l p, decode_integer data 3 = Ok (l, p) /\ n = p + l /\
    decode_string_with_len (drop_z p data) l (negb (Z.land (default 0 (head data)) 0x08 =? 0)) = Ok (s, l).
Proof.
  intros Hb. unfold decode_string_with_prefix. destruct data as [|b0 r]; [done|].
  intros ([l p] & Hi & Ho)%result_bind_Ok. exists l, p. split; [done|].
  apply decode_integer_inv in Hi as (Hv & Hp & _); [|done..]. unfold varint_ok in Hv.
  case_z in Ho; [done|]. apply result_bind_Ok in Ho as (s' & Hs & [= <- <-]). split; [done|].
  unfold decode_string_with_len. rewrite len_drop by lia. solve_cmp.
  change (u8_of (Z.shiftl 1 3)) with 8 in Hs. cbn [head default from_option id].
  replace (take_z l (drop_z p (b0 :: r))) with (drop_z p (take_z (p + l) (b0 :: r))).
  - by rewrite Hs.
  - unfold drop_z, take_z. rewrite take_drop_commute. f_equal. f_equal. lia.
Qed.

Lemma relative_entry_live t i base ric e :
  0 <= i -> i < base -> base - i - 1 < ric -> get_by_absolute_index t (base - i - 1) = Some e ->
  relative_entry t i base ric = Ok e.
Proof.
  intros. unfold relative_entry, get_by_relative_index_repr. solve_cmp. by apply ok_or_Ok.
Qed.

Lemma string_prefix_7 : string_prefix_ok 7 0.
Proof. by split_and!. Qed.
#[local] Hint Resolve string_prefix_7 : core.

Ltac read_integer v pb flags rest :=
  let Hp := fresh "Hp" in let Hd := fresh "Hd" in
  assert (prefix_ok pb flags) as Hp by (by split_and!);
  pose proof (decode_integer_bytes v pb flags rest Hp ltac:(done)) as Hd;
  let x := fresh "x" in let r := fresh "r" in let Er := fresh "Er" in let Hx := fresh "Hx" in
  destruct (integer_bytes_head_x v pb flags Hp ltac:(done)) as (x & r & Er & Hx);
  let k := eval vm_compute in (2 ^ pb) in change (2 ^ pb) with k in Hx;
  rewrite Er in *; cbn [app] in *;
  unfold decode_header; solve_flags;
  unfold decode_indexed_field, decode_literal_with_name_ref; cbn [head default from_option id]; solve_flags;
  rewrite Hd; cbn [mbind result_bind].

Lemma decode_line t base ric huffman l h rest :
  line_ok base ric l -> resolve t base l = Some h -> bytes_ok rest ->
  decode_header t base ric (field_line_bytes huffman l ++ rest) =
    Ok (h, len (field_line_bytes huffman l)).
Proof.
  intros Hl Hr Hrest. destruct l as [i|i|i v n|i v n|nm v n]; cbn [line_ok resolve field_line_bytes] in *.
  - read_integer i 6 0xc0 rest. apply static_entry_ok in Hr as ->. done.
  - destruct Hl as (Hi & Hb & Hric). read_integer i 6 0x80 rest.
    destruct (get_by_absolute_index _ _) as [e|] eqn:Ee; [|done]. injection Hr as <-.
    unfold varint_ok in Hi. rewrite (relative_entry_live _ _ _ _ e) by (done || lia). done.
  - destruct Hl as (Hi & Hv). rewrite <- app_assoc.
    destruct (get_static_entry i) as [e|] eqn:Ee; [|done]. injection Hr as <-.
    apply static_entry_ok in Ee. destruct n.
    all: rewrite len_app.
    1: read_integer i 4 0x70 (string_bytes v 7 0 huffman ++ rest).
    2: read_integer i 4 0x50 (string_bytes v 7 0 huffman ++ rest).
    all: rewrite Ee; cbn [mbind result_bind]; rewrite app_comm_cons, drop_z_app_len; unfold decode_string;
      by rewrite (decode_string_bytes v 7 0 huffman rest).
  - destruct Hl as (Hi & Hb & Hric & Hv). rewrite <- app_assoc.
    destruct (get_by_absolute_index _ _) as [e|] eqn:Ee; [|done]. injection Hr as <-.
    assert (relative_entry t i base ric = Ok e) as He
      by (unfold varint_ok in Hi; apply relative_entry_live; done || lia).
    destruct n; rewrite len_app.
    1: read_integer i 4 0x60 (string_bytes v 7 0 huffman ++ rest).
    2: read_integer i 4 0x40 (string_bytes v 7 0 huffman ++ rest).
    all: rewrite He; cbn [mbind result_bind]; rewrite app_comm_cons, drop_z_app_len; unfold decode_string;
      by rewrite (decode_string_bytes v 7 0 huffman rest).
  - destruct Hl as (Hn & Hv). injection Hr as <-. rewrite <- app_assoc.
    set (f := if n then 0x30 else 0x20). assert (string_prefix_ok 3 f) as Hf by (by destruct n; split_and!).
    assert (0x20 <= f <= 0x30) as Hfr by (unfold f; destruct n; lia).
    pose proof (decode_string_bytes nm 3 f huffman (string_bytes v 7 0 huffman ++ rest) Hf Hn) as Hd.
    apply decode_name_with_len in Hd as (l & p & Hi & E & Hs).
    2: { apply bytes_ok_app. split; [apply string_bytes_ok; [done|apply Hn]|].
         apply bytes_ok_app. split; [apply string_bytes_ok; [done|apply Hv]|done]. }
    destruct (string_bytes_head nm 3 f huffman Hf (proj1 Hn)) as (x & r & Er & Hx).
    change (2 ^ (3 + 1)) with 16 in Hx. rewrite len_app.
    unfold decode_header. rewrite Er in *. cbn [app] in *. solve_flags.
    unfold decode_literal_with_literal_name. rewrite Hi. cbn [mbind result_bind].
    rewrite Hs. cbn [mbind result_bind]. rewrite <- E.
    rewrite app_comm_cons, drop_z_app_len. unfold decode_string.
    by rewrite (decode_string_bytes v 7 0 huffman rest).
Qed.

(** ** The section *)
Lemma field_line_bytes_ok base ric huffman l : line_ok base ric l ->
  field_line_bytes huffman l <> [] /\ bytes_ok (field_line_bytes huffman l).
Proof.
  assert (forall v pb f rest, prefix_ok pb f -> varint_ok v -> bytes_ok rest ->
    integer_bytes v pb f ++ rest <> [] /\ bytes_ok (integer_bytes v pb f ++ rest)) as Hint.
  { intros v pb f rest Hp Hv Hr. destruct (integer_bytes_head_x v pb f Hp Hv) as (x & r & E & _).
    split; [by rewrite E|]. apply bytes_ok_app. split; [|done]. apply integer_bytes_ok; [done|].
    unfold varint_ok in Hv. lia. }
  destruct l as [i|i|i v n|i v n|nm v n]; cbn [line_ok field_line_bytes].
  - intros. rewrite <- (app_nil_r (integer_bytes _ _ _)). apply Hint; [by split_and!|done|constructor].
  - intros []. rewrite <- (app_nil_r (integer_bytes _ _ _)). apply Hint; [by split_and!|done|constructor].
  - intros [? []]. apply Hint; [destruct n; by split_and!|done|by apply string_bytes_ok].
  - intros (? & ? & ? & []). apply Hint; [destruct n; by split_and!|done|by apply string_bytes_ok].
  - intros [[] []]. set (f := if n then _ else _). assert (string_prefix_ok 3 f) as Hf by (by destruct n; split_and!).
    destruct (string_bytes_head nm 3 f huffman Hf ltac:(done)) as (x & r & E & _).
    split; [by rewrite E|]. apply bytes_ok_app. split; by apply string_bytes_ok.
Qed.

Lemma decode_section_bytes d huffman enc_ric ric lines hs :
  varint_ok enc_ric -> decode_required_insert_count d enc_ric = Ok ric ->
  0 <= ric <= U64_MAX -> 0 <= insert_count (dec_table d) ->
  (ric <= insert_count (dec_table d) ->
   Forall2 (fun l h => line_ok ric ric l /\ resolve (dec_table d) ric l = Some h) lines hs /\
   total_header_size hs <= dec_max_field_section_size d) ->
  decode_section d (section_bytes huffman enc_ric lines) =
    (mkDecoder (dec_table d) (dec_max_field_section_size d) (dec_max_table_capacity d) ric,
     Ok (if insert_count (dec_table d) <? ric then Blocked else Decoded hs)).
Proof.
  intros He Hric Hr Hcnt Hlines. assert (prefix_ok 8 0) as Hp8 by (by split_and!).
  unfold decode_section, section_bytes. set (body := concat _).
  destruct (integer_bytes_head_x enc_ric 8 0 Hp8 He) as (x & r & Er & _).
  pose proof (decode_integer_bytes enc_ric 8 0 ([0] ++ body) Hp8 He) as Hd.
  set (pre := integer_bytes enc_ric 8 0) in *.
  assert (0 < len pre) as Hpre by (rewrite Er, len_cons; pose proof (len_nonneg r); lia).
  pose proof (len_nonneg body) as Hbl. rewrite !len_app. change (len [0]) with 1. solve_cmp.
  rewrite Hd. cbn [mbind result_bind]. rewrite Hric. cbn [mbind result_bind dec_table dec_max_field_section_size].
  f_equal. destruct (Z.ltb_spec (insert_count (dec_table d)) ric) as [Hb|Hb].
  { by solve_cmp. }
  rewrite andb_false_r. destruct (Hlines Hb) as [Hall Htot].
  assert (get_at (pre ++ [0] ++ body) (len pre) = Some 0) as ->.
  { apply get_at_Some. split; [lia|]. rewrite len_to_nat, lookup_app_r, Nat.sub_diag by lia. done. }
  rewrite drop_z_app_len. cbn [from_option default id].
  change (negb (Z.land 0 0x80 =? 0)) with false.
  change (decode_integer ([0] ++ body) 7) with (@Ok QpackError _ (0, 1)). cbn [mbind result_bind].
  unfold decode_base, checked_add. solve_cmp. cbn [ok_or mbind result_bind].
  rewrite Z.add_0_r. replace (drop_z (len pre + 1) (pre ++ [0] ++ body)) with body
    by (rewrite app_assoc, drop_z_app_eq; [done|rewrite len_app; done]).
  assert (exists strip, hs = map strip lines /\ forall l, l ∈ lines ->
    line_ok ric ric l /\ resolve (dec_table d) ric l = Some (strip l)) as (strip & -> & Hs).
  { exists (fun l => default (mkHeader [] [] false) (resolve (dec_table d) ric l)).
    clear -Hall. induction Hall as [|l h ls hs [Hl Hh] _ [-> IH]]; [split; [done|]; by intros ? ?%elem_of_nil|].
    cbn [map]. rewrite Hh. split; [done|]. intros l' [->|Hin]%elem_of_cons; [by rewrite Hh|]. by apply IH. }
  subst body. rewrite (decode_lines_encoded _ _ (field_line_bytes huffman) strip); [done| | |done|by rewrite Z.add_0_l].
  - intros l rest Hin Hrest. destruct (Hs l Hin). by apply decode_line.
  - intros l Hin. destruct (Hs l Hin) as [Hl _]. by eapply field_line_bytes_ok.
Qed.

(** ** The lines the encoder chooses *)

(** The dynamic entry counted for a header: an exact match, or a match on the name. *)
Definition entry_found (t : DynamicTable) (h : Header) : option Z :=
  match find_entry t (name h) (value h) with
  | (Some i, _) | (None, Some i) => Some i
  | (None, None) => None
  end.

Lemma required_insert_count_found e headers :
  required_insert_count e headers =
  fold_left (fun ric h => match entry_found (enc_table e) h with Some i => Z.max ric (i + 1) | None => ric end)
    headers 0.
Proof.
  unfold required_insert_count, entry_found. generalize 0 as k.
  induction headers as [|h l IH]; intros k; [done|]. cbn [fold_left]. rewrite IH. f_equal.
  destruct (find_entry _ _ _) as [[i|] [j|]]; try done; case_z; lia.
Qed.

(** The count is one above the highest entry used, zero without any. *)
Lemma required_insert_count_spec e headers :
  let ric := required_insert_count e headers in
  0 <= ric /\
  (forall h i, h ∈ headers -> entry_found (enc_table e) h = Some i -> i < ric) /\
  (ric = 0 \/ exists h i, h ∈ headers /\ ric = i + 1 /\ entry_found (enc_table e) h = Some i).
Proof.
  cbn zeta. rewrite required_insert_count_found. generalize 0 as k.
  induction headers as [|h l IH]; intros k; cbn [fold_left].
  { split_and!; [lia| |by left]. intros h i Hin. by apply elem_of_nil in Hin. }
  destruct (entry_found (enc_table e) h) as [i|] eqn:Ef.
  - destruct (IH (Z.max k (i + 1))) as (H1 & H2 & H3). split_and!; [lia| |].
    + intros h' j [->|Hin]%elem_of_cons Hf; [simplify_eq; lia|by apply (H2 h')].
    + destruct H3 as [->|(h' & j & Hin & -> & Hf)].
      * destruct (Z.max_spec k (i + 1)) as [[_ ->]|[_ ->]]; [right|by left].
        exists h, i. split_and!; [by left|done..].
      * right. exists h', j. split_and!; [by right|done..].
  - destruct (IH k) as (H1 & H2 & H3). split_and!; [lia| |].
    + intros h' j [->|Hin]%elem_of_cons Hf; [congruence|by apply (H2 h')].
    + destruct H3 as [->|(h' & j & Hin & -> & Hf)]; [by left|].
      right. exists h', j. split_and!; [by right|done..].
Qed.

Lemma entry_found_get t h i : table_wf t -> entry_found t h = Some i ->
  is_Some (get_by_absolute_index t i).
Proof.
  intros Hw. unfold entry_found. pose proof (find_entry_spec t (name h) (value h) Hw) as Hf.
  destruct (find_entry _ _ _) as [[j|] [k|]]; intros [= ->].
  1, 2: by rewrite Hf.
  destruct Hf as [v' ->]. done.
Qed.

Lemma entry_found_live t h i : table_wf t -> entry_found t h = Some i ->
  0 <= i < insert_count t.
Proof.
  intros Hw Hf%entry_found_get; [|done]. apply get_by_absolute_index_live in Hf; [|done].
  destruct Hw. lia.
Qed.

(** What the decoder hands on: the header without its never-indexed mark. *)
Definition unmarked (h : Header) : Header := mkHeader (name h) (value h) false.

Definition header_encodable (h : Header) : Prop := string_ok (name h) /\ string_ok (value h).

Lemma static_found n v i j : find_static_entry n v = (Some i, j) ->
  get_static_entry i = Some (mkHeader n v false) /\ varint_ok i.
Proof.
  intros E. pose proof (find_static_spec n v) as H. rewrite E in H. apply static_pairs_elem in H as ([n' v' b] & Hg & <- & <-).
  pose proof (get_static_entry_ok _ _ Hg) as [_ Hb]. cbn in Hb. subst b.
  apply get_static_entry_range in Hg as ?. split; [done|].
  unfold varint_ok, VARINT_MAX, STATIC_TABLE_LEN in *. lia.
Qed.

Lemma static_found_name n v i : find_static_entry n v = (None, Some i) ->
  (exists h, get_static_entry i = Some h /\ name h = n) /\ varint_ok i.
Proof.
  intros E. pose proof (find_static_spec n v) as H. rewrite E in H. destruct H as [?|[v' H]]; [done|].
  apply static_pairs_elem in H as (h & Hg & <- & _). apply get_static_entry_range in Hg as ?.
  split; [by exists h|]. unfold varint_ok, VARINT_MAX, STATIC_TABLE_LEN in *. lia.
Qed.

Lemma static_line_resolves t base ric h : header_encodable h ->
  line_ok base ric (static_line h) /\ resolve t base (static_line h) = Some (unmarked h).
Proof.
  intros [Hn Hv]. unfold static_line. destruct (find_static_entry _ _) as [[i|] [j|]] eqn:E.
  - apply static_found in E as [Hg ?]. by split.
  - apply static_found in E as [Hg ?]. by split.
  - apply static_found_name in E as [(h' & Hg & Hn') ?]. split; [done|]. cbn. rewrite Hg. cbn.
    by rewrite Hn'.
  - done.
Qed.

(** Against a decoder that has the referenced entries, the chosen line means the header. *)
Lemma dynamic_line_resolves te td ric h :
  table_wf te -> header_encodable h -> 0 <= ric <= VARINT_MAX ->
  (forall i, entry_found te h = Some i -> i < ric) ->
  (forall i e, i < ric -> get_by_absolute_index te i = Some e -> get_by_absolute_index td i = Some e) ->
  line_ok ric ric (dynamic_line te ric h) /\ resolve td ric (dynamic_line te ric h) = Some (unmarked h).
Proof.
  intros Hw [Hn Hv] Hric Hf Hag. pose proof (static_line_resolves td ric ric h ltac:(by split)) as Hst.
  pose proof (find_entry_spec te (name h) (value h) Hw) as Hspec.
  pose proof (entry_found_live te h) as Hlive.
  unfold entry_found, dynamic_line, static_line in *.
  destruct (find_entry te _ _) as [[i|] [j|]].
  1, 2: specialize (Hf i eq_refl); specialize (Hlive i Hw eq_refl); cbn [line_ok resolve];
    replace (ric - (ric - i - 1) - 1) with i by lia; rewrite (Hag i _ Hf Hspec);
    unfold varint_ok; split; [lia|done].
  - destruct (find_static_entry _ _) as [[k|] m]; [done|].
    specialize (Hf j eq_refl). specialize (Hlive j Hw eq_refl). destruct Hspec as [v' Hspec].
    cbn [line_ok resolve]. replace (ric - (ric - j - 1) - 1) with j by lia. rewrite (Hag j _ Hf Hspec).
    unfold varint_ok. split; [split_and!; done || lia|done].
  - destruct (find_static_entry _ _) as [[k|] [m|]]; done.
Qed.

(** ** Encoder and decoder *)

(** What the decoder needs to read a section with Required Insert Count [ric]: the same
    capacity limit, a count the prefix can name, and, once it has seen the insertions,
    the entries below [ric] that the encoder has. *)
Record decoder_ready (e : DynamicEncoder) (d : DynamicDecoder) (ric : Z) : Prop := {
  dr_capacity : dec_max_table_capacity d = enc_max_table_capacity e;
  dr_count : 0 <= insert_count (dec_table d);
  dr_window : 0 < ric -> ric_window (dec_max_table_capacity d) (insert_count (dec_table d)) ric;
  dr_entries : ric <= insert_count (dec_table d) -> forall i x, i < ric ->
    get_by_absolute_index (enc_table e) i = Some x -> get_by_absolute_index (dec_table d) i = Some x }.

Lemma required_insert_count_range e headers : table_wf (enc_table e) ->
  0 <= required_insert_count e headers <= insert_count (enc_table e).
Proof.
  intros Hw. destruct (required_insert_count_spec e headers) as (H0 & _ & [E|(h & i & _ & E & Hf)]).
  - rewrite E in *. split; [done|]. destruct Hw. pose proof (len_nonneg (entries (enc_table e))). lia.
  - split; [done|]. apply entry_found_live in Hf; [|done]. lia.
Qed.

(** The bytes of a section, by either way of encoding. *)
Lemma encode_section_bytes e headers blocked :
  table_wf (enc_table e) -> Forall header_encodable headers -> insert_count (enc_table e) < VARINT_MAX ->
  0 <= enc_max_table_capacity e ->
  let '(e', w) := encode_section e headers blocked in
  exists enc_ric lines,
    Writes w (section_bytes (use_huffman e) enc_ric lines) /\ varint_ok enc_ric /\
    0 <= enc_last_ric e' <= insert_count (enc_table e) /\
    (enc_table e' = enc_table e) /\
    forall d, decoder_ready e d (enc_last_ric e') ->
      decode_required_insert_count d enc_ric = Ok (enc_last_ric e') /\
      (enc_last_ric e' <= insert_count (dec_table d) ->
       Forall2 (fun l h => line_ok (enc_last_ric e') (enc_last_ric e') l /\
         resolve (dec_table d) (enc_last_ric e') l = Some h) lines (map unmarked headers)).
Proof.
  intros Hw Hh Hic Hcap. assert (Forall header_ok headers) as Hok
    by (eapply Forall_impl; [exact Hh|]; by intros h [[] []]).
  unfold encode_section. destruct (_ || _); cbn [with_last_ric enc_last_ric enc_table].
  - exists 0, (map static_line headers). split; [by apply writes_static_section|].
    split; [unfold varint_ok, VARINT_MAX; lia|]. split.
    { destruct Hw. pose proof (len_nonneg (entries (enc_table e))). lia. }
    split; [done|]. intros d Hd. split; [done|]. intros _. apply Forall2_map_diag.
    rewrite Forall_forall in Hh. intros h Hin. by apply static_line_resolves, Hh.
  - set (ric := required_insert_count e headers).
    destruct (required_insert_count_spec e headers) as (H0 & Hused & _). fold ric in H0, Hused.
    pose proof (required_insert_count_range e headers Hw) as Hr. fold ric in Hr.
    exists (encode_required_insert_count e ric), (section_lines e headers).
    split; [by apply writes_dynamic_section|]. split; [|split; [done|split; [done|]]].
    + unfold encode_required_insert_count, varint_ok. case_z; [unfold VARINT_MAX; lia|].
      assert (0 <= enc_max_table_capacity e / 32) by (apply Z.div_pos; lia).
      case_z; [unfold VARINT_MAX; lia|].
      pose proof (Z.mod_pos_bound ric (2 * (enc_max_table_capacity e / 32)) ltac:(lia)).
      pose proof (Z.mod_le ric (2 * (enc_max_table_capacity e / 32)) H0 ltac:(lia)). lia.
    + intros d [Hc Hcnt Hwin Hent]. split.
      * unfold encode_required_insert_count. destruct (Z.eqb_spec ric 0) as [E|]; [by rewrite E|]. specialize (Hwin ltac:(lia)).
        rewrite <- Hc in *. case_z; [unfold ric_window in Hwin; lia|].
        by apply decode_ric_window; [lia|..].
      * intros Hle. unfold section_lines. fold ric. apply Forall2_map_diag. intros h Hin. rewrite Forall_forall in Hh.
        apply (dynamic_line_resolves (enc_table e)); [done|by apply Hh|lia| |by apply Hent].
        intros i. by apply Hused.
Qed.

Lemma total_header_size_unmarked headers :
  total_header_size (map unmarked headers) = total_header_size headers.
Proof. induction headers as [|h l IH]; [done|]. cbn. unfold total_header_size in IH. by rewrite IH. Qed.

(** ** A table that follows the encoder's is ready *)
Lemma live_entries_bound t : table_wf t -> table_fits t -> 0 <= max_capacity t ->
  len (entries t) <= max_capacity t / 32.
Proof.
  intros [Hs _ _ _ _] Hf Hm. unfold table_fits in Hf. rewrite Hs in Hf.
  assert (32 * len (entries t) <= total_size (entries t)).
  { clear. induction (entries t) as [|x l IH]; [done|]. rewrite len_cons. cbn [total_size].
    pose proof (entry_size_pos x). lia. }
  apply Z.div_le_lower_bound; lia.
Qed.

Lemma same_table_ready e d headers :
  table_wf (enc_table e) -> table_fits (enc_table e) -> 
  0 <= max_capacity (enc_table e) <= enc_max_table_capacity e ->
  dec_max_table_capacity d = enc_max_table_capacity e -> same_table (enc_table e) (dec_table d) ->
  decoder_ready e d (required_insert_count e headers).
Proof.
  intros Hw Hf Hm Hc Hs. destruct (same_table_fields _ _ Hs) as (_ & _ & _ & Ei & _).
  pose proof (required_insert_count_range e headers Hw) as Hr.
  split; rewrite ?Ei; [done|lia| |].
  - intros Hpos. rewrite Hc. unfold ric_window.
    pose proof (live_entries_bound _ Hw Hf ltac:(lia)) as Hlive.
    assert (max_capacity (enc_table e) / 32 <= enc_max_table_capacity e / 32) by (apply Z.div_le_mono; lia).
    destruct (required_insert_count_spec e headers) as (_ & _ & [E|(h & i & _ & E & Hfound)]); [lia|].
    assert (dropped_count (enc_table e) <= i) as Hd.
    { apply entry_found_get in Hfound; [|done]. apply get_by_absolute_index_live in Hfound; [|done]. lia. }
    destruct Hw. pose proof (len_nonneg (entries (enc_table e))). lia.
  - intros _ i x _. by rewrite (same_table_get _ _ i Hs).
Qed.

Lemma encode_section_ready e d headers blocked :
  table_wf (enc_table e) -> table_fits (enc_table e) ->
  0 <= max_capacity (enc_table e) <= enc_max_table_capacity e ->
  dec_max_table_capacity d = enc_max_table_capacity e -> same_table (enc_table e) (dec_table d) ->
  decoder_ready e d (enc_last_ric (fst (encode_section e headers blocked))).
Proof.
  intros Hw Hf Hm Hc Hs. pose proof (same_table_ready e d headers Hw Hf Hm Hc Hs) as Hr.
  unfold encode_section. destruct (_ || _); [|done]. cbn. destruct Hr as [? ? ? He]. split; [done|done|lia|].
  intros _ i x _. by rewrite (same_table_get _ _ i Hs).
Qed.

(** ** Inversion of the decoder *)
Lemma decode_section_inv d data d' hs :
  bytes_ok data -> decode_section d data = (d', Ok (Decoded hs)) ->
  exists ric base rest, bytes_ok rest /\
    d' = mkDecoder (dec_table d) (dec_max_field_section_size d) (dec_max_table_capacity d) ric /\
    (ric <= 0 \/ ric <= insert_count (dec_table d)) /\
    decode_lines (decode_header (dec_table d) base ric) (dec_max_field_section_size d)
      (length rest) rest 0 = Ok hs.
Proof.
  intros Hb. unfold decode_section. case_z; [done|].
  destruct (mbind _ _) as [[ric n]|e]; [|done]. intros [= <- Hd]. revert Hd.
  cbn [dec_table dec_max_field_section_size].
  destruct ((0 <? ric) && (insert_count (dec_table d) <? ric)) eqn:Eb; [done|].
  case_z; [done|]. intros ([delta k] & _ & Hd)%result_bind_Ok.
  apply result_bind_Ok in Hd as (base & _ & Hd). apply result_bind_Ok in Hd as (hs' & Hl & [= <-]).
  eexists ric, base, _. split; [|split; [done|split; [|exact Hl]]]; [auto with bytes|].
  apply andb_false_iff in Eb as [?|?]; zify_bool; lia.
Qed.

(** The same prefix names the same count at another insert count of the window. *)
Lemma decode_ric_other d t enc ric :
  0 <= enc -> 0 <= dec_max_table_capacity d -> 0 <= insert_count (dec_table d) ->
  decode_required_insert_count d enc = Ok ric ->
  (0 < ric -> ric <= insert_count t < ric + dec_max_table_capacity d / 32) ->
  decode_required_insert_count
    (mkDecoder t (dec_max_field_section_size d) (dec_max_table_capacity d) (dec_last_ric d)) enc = Ok ric.
Proof.
  intros He Hc Ht Hr Hw. apply decode_ric_inv in Hr as [[-> ->]|(Hpos & Hwin & ->)]; [done| |done..].
  specialize (Hw Hpos). unfold ric_window in Hwin.
  apply (decode_ric_window (mkDecoder t _ (dec_max_table_capacity d) _)); [done|done|].
  unfold ric_window. cbn [dec_table dec_max_table_capacity]. lia.
Qed.

(** ** Properties *)

(** C25. A field section reads back: what [encode] writes to the buffer, a decoder that
    is ready for the section's Required Insert Count decodes to the same header list
    (names and values in order), or reports it as blocked when it has not seen that
    many insertions yet; either way it records the section's Required Insert Count. *)
Theorem section_roundtrip e d headers blocked buf buf' n :
  table_wf (enc_table e) -> Forall header_encodable headers ->
  insert_count (enc_table e) < VARINT_MAX -> 0 <= enc_max_table_capacity e ->
  total_header_size headers <= dec_max_field_section_size d ->
  let '(e', w) := encode_section e headers blocked in
  decoder_ready e d (enc_last_ric e') ->
  w buf = (buf', Some n) ->
  exists d', dec_last_ric d' = enc_last_ric e' /\ dec_table d' = dec_table d /\
    decode_section d (take_z n buf') =
      (d', Ok (if insert_count (dec_table d) <? enc_last_ric e' then Blocked
               else Decoded (map unmarked headers))).
Proof.
  intros Hw Hh Hic Hcap Hsz. pose proof (encode_section_bytes e headers blocked Hw Hh Hic Hcap) as Henc.
  destruct (encode_section e headers blocked) as [e' w]. intros Hd Hbuf.
  destruct Henc as (enc_ric & lines & Hwr & Hv & Hr & _ & Hdec). destruct (Hdec d Hd) as [Hric Hlines].
  destruct (writes_result _ _ _ _ _ Hwr Hbuf) as (_ & -> & _).
  rewrite (decode_section_bytes d _ _ (enc_last_ric e') lines (map unmarked headers)); [|done|done| | |].
  - eexists. split; [|split; [|reflexivity]]; done.
  - unfold VARINT_MAX, U64_MAX in *. lia.
  - apply Hd.
  - intros Hle. split; [by apply Hlines|]. by rewrite total_header_size_unmarked.
Qed.

(** C26. Encoder stream and field section together: the encoder built its table by
    instructions queued on the encoder stream; once the decoder has received that
    stream, cut anyhow, the next section the encoder writes decodes at once to the
    header list that was encoded. *)
Theorem qpack_end_to_end cap l e d headers blocked chunks buf buf' n :
  0 < cap <= VARINT_MAX -> enc_max_table_capacity e = cap -> dec_max_table_capacity d = cap ->
  encoder_run cap l table_new (enc_table e) -> dec_table d = table_new ->
  Forall (fun c => bytes_ok c) chunks ->
  concat chunks = send_buffer (send_all (mkEncoderStream [] cap) l) ->
  insert_count (enc_table e) < VARINT_MAX ->
  Forall header_encodable headers -> total_header_size headers <= dec_max_field_section_size d ->
  snd (encode_section e headers blocked) buf = (buf', Some n) ->
  exists td, receive_all chunks (mkReceiver [] cap) (dec_table d) = (mkReceiver [] cap, td, Ok l) /\
    snd (decode_section (mkDecoder td (dec_max_field_section_size d) cap (dec_last_ric d)) (take_z n buf')) =
      Ok (Decoded (map unmarked headers)).
Proof.
  intros Hcap Hec Hdc Hrun Htd Hch Hcat Hic Hh Hsz Hbuf.
  destruct (encoder_run_fits cap l table_new _ Hrun (with_capacity_wf 0)) as (Hw & Hf & Hm); [done|cbn; lia|].
  pose proof (encoder_run_capacity cap l table_new _ Hrun (with_capacity_wf 0) ltac:(done)) as Hm0.
  destruct (receive_follows cap l table_new (enc_table e) (dec_table d) chunks) as (td & Hrec & Hsame);
    [lia|apply with_capacity_wf|done|by rewrite Htd|done|done|].
  exists td. split; [done|]. set (d2 := mkDecoder td _ _ _).
  pose proof (encode_section_bytes e headers blocked Hw Hh Hic ltac:(lia)) as Henc.
  pose proof (encode_section_ready e d2 headers blocked Hw Hf ltac:(lia) ltac:(done) Hsame) as Hready.
  destruct (encode_section e headers blocked) as [e' w]. cbn [fst snd] in *.
  destruct Henc as (enc_ric & lines & Hwr & Hv & Hr & _ & Hdec). destruct (Hdec d2 Hready) as [Hric Hlines].
  destruct (writes_result _ _ _ _ _ Hwr Hbuf) as (_ & -> & _).
  destruct (same_table_fields _ _ Hsame) as (_ & _ & _ & Ei & _).
  rewrite (decode_section_bytes d2 _ _ (enc_last_ric e') lines (map unmarked headers)); [|done|done| | |].
  - cbn [snd dec_table d2]. rewrite Ei. by solve_cmp.
  - unfold VARINT_MAX, U64_MAX in *. lia.
  - apply Hready.
  - intros Hle. split; [by apply Hlines|]. by rewrite total_header_size_unmarked.
Qed.

(** The size estimate is enough: with the static table only, a buffer of
    [estimate_encoded_size] bytes always takes the section, whatever the headers and
    whether Huffman coding is used or not. *)
Theorem estimate_suffices e headers buf :
  Forall header_ok headers -> estimate_encoded_size headers <= len buf ->
  exists n, snd (encode_static_only e headers buf) = Some n /\ n <= estimate_encoded_size headers.
Proof.
  intros Hh Hb. pose proof (writes_static_section e headers Hh) as Hw.
  pose proof (len_static_section_bound (use_huffman e) headers Hh) as Hl.
  rewrite (writes_fit (w := encode_static_only e headers)) by lia. by eexists.
Qed.

(** The static decoder and the dynamic one agree: a section the static [Decoder]
    accepts, with a clear sign bit, decodes to the same headers on every dynamic
    decoder with the same size limit, whatever its table holds. *)
Theorem static_decoder_agrees max data d hs :
  bytes_ok data -> section_sign data = false -> dec_max_field_section_size d = max ->
  decode_static max data = Ok hs -> snd (decode_section d data) = Ok (Decoded hs).
Proof. apply decode_static_dynamic. Qed.

(** The Required Insert Count is recovered modulo twice the table's maximum number
    of entries: a non-zero prefix value decodes to [ric] exactly when [ric] is the one
    positive count in the window around the decoder's insert count that it encodes. *)
Theorem required_insert_count_decodes d enc ric :
  0 < enc -> 0 <= dec_max_table_capacity d -> 0 <= insert_count (dec_table d) ->
  decode_required_insert_count d enc = Ok ric <->
  0 < ric /\ ric_window (dec_max_table_capacity d) (insert_count (dec_table d)) ric /\
  enc = ric mod (2 * (dec_max_table_capacity d / 32)) + 1.
Proof.
  intros He Hc Ht. split.
  - intros H. apply decode_ric_inv in H as [[-> _]|H]; [lia|done|lia|done|done].
  - intros (Hr & Hw & ->). by apply decode_ric_window.
Qed.

(** What comes out of the decoder for any input: headers made of bytes whose total
    size, counted with 32 per field, is within the limit, and only when all insertions
    up to the section's Required Insert Count have arrived. *)
Theorem decode_section_safe d data d' hs :
  bytes_ok data -> table_wf (dec_table d) -> 0 <= dec_max_field_section_size d ->
  decode_section d data = (d', Ok (Decoded hs)) ->
  Forall header_ok hs /\ total_header_size hs <= dec_max_field_section_size d /\
  dec_last_ric d' <= insert_count (dec_table d) /\ dec_table d' = dec_table d.
Proof.
  intros Hb Hw Hm H. apply decode_section_inv in H as (ric & base & rest & Hb' & -> & Hr & Hl); [|done].
  apply decode_lines_inv in Hl as [Hok Hs]; [|intros ???; by apply decode_header_inv|done].
  cbn [dec_last_ric dec_table]. split_and!; [done| | |done].
  - destruct Hs as [->|Hs]; [done|lia].
  - destruct Hw. pose proof (len_nonneg (entries (dec_table d))). lia.
Qed.

(** A decoded section does not depend on insertions beyond its Required Insert
    Count: another table with the same entries below it decodes to the same headers,
    as long as the count is still the one the prefix names there. *)
Theorem decode_section_stable d t data d' hs :
  bytes_ok data -> 0 <= dec_max_table_capacity d -> 0 <= insert_count (dec_table d) ->
  decode_section d data = (d', Ok (Decoded hs)) ->
  agree_below (dec_last_ric d') (dec_table d) t ->
  (0 < dec_last_ric d' ->
   dec_last_ric d' <= insert_count t < dec_last_ric d' + dec_max_table_capacity d / 32) ->
  decode_section (mkDecoder t (dec_max_field_section_size d) (dec_max_table_capacity d) (dec_last_ric d)) data =
    (mkDecoder t (dec_max_field_section_size d) (dec_max_table_capacity d) (dec_last_ric d'), Ok (Decoded hs)).
Proof.
  intros Hb Hc Ht. unfold decode_section at 1. case_z; [done|].
  destruct (decode_integer data 8) as [[enc n]|e] eqn:E8; [|done]. cbn [mbind result_bind].
  destruct (decode_required_insert_count d enc) as [ric|e] eqn:Er; [|done]. cbn [mbind result_bind].
  intros [= <- Hd] Hag Hic. cbn [dec_table dec_last_ric dec_max_field_section_size] in *.
  apply decode_integer_inv in E8 as Hn; [|done..]. destruct Hn as ([He _] & _).
  unfold decode_section. solve_cmp. rewrite E8. cbn [mbind result_bind].
  rewrite (decode_ric_other d t enc ric) by done. cbn [mbind result_bind dec_table dec_max_field_section_size].
  f_equal. destruct ((0 <? ric) && (insert_count (dec_table d) <? ric)) eqn:Eb; [done|].
  replace ((0 <? ric) && (insert_count t <? ric)) with false.
  2: { symmetry. apply andb_false_iff. destruct (Z.ltb_spec 0 ric); [|by left]. right. apply Z.ltb_ge. lia. }
  revert Hd. case_z; [done|]. intros ([delta k] & -> & Hd)%result_bind_Ok. cbn [mbind result_bind].
  apply result_bind_Ok in Hd as (base & -> & Hd). cbn [mbind result_bind].
  rewrite <- Hd. f_equal. apply decode_lines_ext. intros l. symmetry. by apply decode_header_agree.
Qed.

(** ** Behaviour the RFC rules out *)

(** The static [Decoder] does not check the sign bit: it accepts a section whose
    Base would be negative (RFC 9204 Section 4.5.1.2 makes it invalid), which
    [DynamicDecoder] refuses. *)
Theorem static_decoder_accepts_negative_base :
  decode_static (16 * 1024) [0x00; 0x80; 0xd1] = Ok [mkHeader (str ":method") (str "GET") false] /\
  snd (decode_section decoder_new [0x00; 0x80; 0xd1]) = Err DecodeFailed.
Proof. split; vm_compute; reflexivity. Qed.

(** A Section Acknowledgment does not advance the receiver's own Known Received
    Count: with two insertions, of which the acknowledgment already confirmed both, an
    Insert Count Increment of 2 is still accepted, although it takes the count beyond
    what the encoder sent (RFC 9204 Section 4.4.3 makes it an error). *)
Theorem increment_after_ack_accepted :
  insert_count (enc_table sample_tracked) = 2 /\
  exists e', process_decoder_stream (mkDecReceiver [0x84; 0x02] 0) sample_tracked =
      (mkDecReceiver [] 2, e', true) /\ enc_known_received_count e' = 2.
Proof. split; [vm_compute; reflexivity|]. eexists. split; vm_compute; reflexivity. Qed.

(** ** Witnesses *)
Lemma get_by_absolute_negative t i : 0 <= dropped_count t -> i < 0 -> get_by_absolute_index t i = None.
Proof. intros. unfold get_by_absolute_index. by solve_cmp. Qed.

Definition sample_headers : list Header :=
  [mkHeader (str ":authority") (str "www.example.com") false;
   mkHeader (str "custom-key") (str "other") true;
   mkHeader (str ":path") (str "/") false;
   mkHeader (str "x-name") (str "value") false].
Definition sample_session_table : DynamicTable :=
  snd (fst (process_all (mkReceiver (concat (map instruction_bytes rfc_session)) 220) table_new)).
Definition sample_encoder : DynamicEncoder := mkEncoder sample_session_table true 220 0 0 10 ∅.
Definition sample_decoder (t : DynamicTable) : DynamicDecoder := mkDecoder t 16384 220 0.
Definition sample_output : bytes * option Z :=
  snd (encode_section sample_encoder sample_headers 0) (replicate 64 0).

Lemma sample_run : encoder_run 220 rfc_session table_new sample_session_table.
Proof.
  repeat (eapply run_next; [by vm_compute; repeat (split || constructor)|vm_compute; reflexivity|by vm_compute|]).
  vm_compute. apply run_done.
Qed.

Lemma sample_encodable : Forall header_encodable sample_headers.
Proof. repeat constructor; by vm_compute. Qed.

Lemma qpack_end_to_end_witness :
  exists td, receive_all (map (fun b => [b]) (concat (map instruction_bytes rfc_session)))
      (mkReceiver [] 220) table_new = (mkReceiver [] 220, td, Ok rfc_session) /\
    snd (decode_section (mkDecoder td 16384 220 0)
      (take_z (default 0 (snd sample_output)) (fst sample_output))) =
      Ok (Decoded (map unmarked sample_headers)).
Proof.
  apply (qpack_end_to_end 220 rfc_session sample_encoder (sample_decoder table_new) sample_headers 0 _
    (replicate 64 0)).
  - unfold VARINT_MAX. lia.
  - reflexivity.
  - reflexivity.
  - apply sample_run.
  - reflexivity.
  - apply (bool_decide_unpack _). vm_compute. exact I.
  - vm_compute. reflexivity.
  - vm_compute. reflexivity.
  - apply sample_encodable.
  - vm_compute. discriminate.
  - vm_compute. reflexivity.
Defined.

Lemma section_roundtrip_witness :
  exists d', dec_last_ric d' = 3 /\ dec_table d' = table_new /\
    decode_section (sample_decoder table_new) (take_z (default 0 (snd sample_output)) (fst sample_output)) =
      (d', Ok Blocked).
Proof.
  pose proof (section_roundtrip sample_encoder (sample_decoder table_new) sample_headers 0 (replicate 64 0)
    (fst sample_output) (default 0 (snd sample_output))) as H.
  destruct (encode_section sample_encoder sample_headers 0) as [e' w] eqn:E.
  assert (w (replicate 64 0) = (fst sample_output, Some (default 0 (snd sample_output)))) as Hw.
  { unfold sample_output. rewrite E. cbn [snd]. apply (f_equal snd) in E. cbn [snd] in E. subst w.
    vm_compute. reflexivity. }
  apply (f_equal (fun p => enc_last_ric (fst p))) in E. cbn [fst] in E.
  replace (enc_last_ric _) with 3 in E at 1 by (vm_compute; reflexivity). rewrite <- E in H.
  apply H; [..|exact Hw].
  - destruct (encoder_run_fits _ _ _ _ sample_run (with_capacity_wf 0)) as [? _]; done.
  - apply sample_encodable.
  - vm_compute. reflexivity.
  - vm_compute. discriminate.
  - vm_compute. discriminate.
  - split; [reflexivity|vm_compute; discriminate|intros _; split; vm_compute; done|intros Hx; vm_compute in Hx; done].
Defined.

Lemma estimate_suffices_witness :
  exists n, snd (encode_static_only sample_encoder sample_headers (replicate 70 0)) = Some n /\ n <= 51.
Proof.
  destruct (estimate_suffices sample_encoder sample_headers (replicate 70 0)) as (n & H & Hn).
  - eapply Forall_impl; [apply sample_encodable|]. by intros h [[] []].
  - vm_compute. discriminate.
  - exists n. split; [exact H|]. vm_compute in Hn |- *. exact Hn.
Defined.

Lemma static_decoder_agrees_witness :
  snd (decode_section (sample_decoder sample_session_table) [0x00; 0x00; 0xd1; 0xc1]) =
    Ok (Decoded [mkHeader (str ":method") (str "GET") false; mkHeader (str ":path") (str "/") false]).
Proof.
  apply (static_decoder_agrees 16384).
  - by repeat constructor.
  - reflexivity.
  - reflexivity.
  - vm_compute. reflexivity.
Defined.

Lemma required_insert_count_decodes_witness :
  decode_required_insert_count (sample_decoder sample_session_table) 4 = Ok 3.
Proof. apply required_insert_count_decodes; [lia|vm_compute; discriminate..|split_and!; vm_compute; done]. Defined.

Lemma decode_section_safe_witness :
  total_header_size (map unmarked sample_headers) <= 16384.
Proof.
  eapply (decode_section_safe (sample_decoder sample_session_table)
    (take_z (default 0 (snd sample_output)) (fst sample_output))).
  - apply (bool_decide_unpack _). vm_compute. exact I.
  - destruct (encoder_run_fits _ _ _ _ sample_run (with_capacity_wf 0)) as [? _]; done.
  - vm_compute. discriminate.
  - vm_compute. reflexivity.
Defined.

Lemma decode_section_stable_witness :
  snd (decode_section (sample_decoder (fst (insert sample_session_table (str "k") (str "v"))))
    (take_z (default 0 (snd sample_output)) (fst sample_output))) =
    Ok (Decoded (map unmarked sample_headers)).
Proof.
  rewrite (decode_section_stable (sample_decoder sample_session_table)
    (fst (insert sample_session_table (str "k") (str "v"))) _
    (mkDecoder sample_session_table 16384 220 3) (map unmarked sample_headers)).
  - reflexivity.
  - apply (bool_decide_unpack _). vm_compute. exact I.
  - vm_compute. discriminate.
  - vm_compute. discriminate.
  - vm_compute. reflexivity.
  - intros i Hi. cbn [dec_last_ric] in Hi. destruct (Z.lt_ge_cases i 0); [|assert (i = 0 \/ i = 1 \/ i = 2) as [-> | [-> | ->]] by lia; vm_compute; reflexivity].
    rewrite !get_by_absolute_negative by (done || (vm_compute; discriminate)). reflexivity.
  - intros _. vm_compute. split; [discriminate|reflexivity].
Defined.
