(* ===== verification/Settings.v ===== *)
(** SETTINGS parameters: src/settings.rs, src/webtransport/settings.rs,
    src/webtransport/connect/draft.rs and the [SettingsPayload] of src/frame/mod.rs
    (RFC 9114 Section 7.2.4).

    Values of type [VarInt] are integers below 2^62 ([setting_ok]). *)

From S2P Require Import Prelude Varint.

(** ** Identifiers *)
Definition ID_QPACK_MAX_TABLE_CAPACITY : Z := 0x01.
Definition ID_MAX_FIELD_SECTION_SIZE : Z := 0x06.
Definition ID_QPACK_BLOCKED_STREAMS : Z := 0x07.
Definition ID_ENABLE_CONNECT_PROTOCOL : Z := 0x08.
Definition ID_H3_DATAGRAM : Z := 0x33.
Definition ID_WT_INITIAL_MAX_DATA : Z := 0x2b61.
Definition ID_WT_INITIAL_MAX_STREAMS_UNI : Z := 0x2b64.
Definition ID_WT_INITIAL_MAX_STREAMS_BIDI : Z := 0x2b65.
Definition ID_ENABLE_WEBTRANSPORT_DRAFT02 : Z := 0x2b603742.
Definition ID_WT_MAX_SESSIONS_DRAFT14 : Z := 0x14e9cd29.
Definition ID_WT_ENABLED : Z := 0x2c7cf000.
Definition ID_WT_ENABLED_DRAFT17 : Z := 0x20b8933b.
Definition ID_WEBTRANSPORT_MAX_SESSIONS_DRAFT07 : Z := 0xc671706a.

Definition is_http2_only_id (id : Z) : bool := (0x02 <=? id) && (id <=? 0x05).

(** ** One parameter *)
Inductive Setting :=
| QpackMaxTableCapacity (v : Z)
| MaxFieldSectionSize (v : Z)
| QpackBlockedStreams (v : Z)
| EnableConnectProtocol (b : bool)
| H3Datagram (b : bool)
| WtEnabled (v : Z)
| WtEnabledDraft17 (v : Z)
| WtMaxSessionsDraft14 (v : Z)
| EnableWebTransportDraft02 (b : bool)
| WebTransportMaxSessionsDraft07 (v : Z)
| WtInitialMaxData (v : Z)
| WtInitialMaxStreamsUni (v : Z)
| WtInitialMaxStreamsBidi (v : Z)
| UnknownSetting (id v : Z).

#[export] Instance Setting_eq_dec : EqDecision Setting.
Proof. solve_decision. Defined.

Inductive SettingError :=
| Http2OnlyId (id : Z)
| InvalidBooleanValue (id v : Z)
| DuplicateId (id : Z).

#[export] Instance SettingError_eq_dec : EqDecision SettingError.
Proof. solve_decision. Defined.

Definition check_bool (id v : Z) : result SettingError bool :=
  if v =? 0 then Ok false else if v =? 1 then Ok true else Err (InvalidBooleanValue id v).

Definition from_wire (id v : Z) : result SettingError Setting :=
  if is_http2_only_id id then Err (Http2OnlyId id)
  else if id =? ID_QPACK_MAX_TABLE_CAPACITY then Ok (QpackMaxTableCapacity v)
  else if id =? ID_MAX_FIELD_SECTION_SIZE then Ok (MaxFieldSectionSize v)
  else if id =? ID_QPACK_BLOCKED_STREAMS then Ok (QpackBlockedStreams v)
  else if id =? ID_ENABLE_CONNECT_PROTOCOL then b ← check_bool id v; Ok (EnableConnectProtocol b)
  else if id =? ID_H3_DATAGRAM then b ← check_bool id v; Ok (H3Datagram b)
  else if id =? ID_WT_ENABLED then Ok (WtEnabled v)
  else if id =? ID_WT_ENABLED_DRAFT17 then Ok (WtEnabledDraft17 v)
  else if id =? ID_WT_MAX_SESSIONS_DRAFT14 then Ok (WtMaxSessionsDraft14 v)
  else if id =? ID_ENABLE_WEBTRANSPORT_DRAFT02 then b ← check_bool id v; Ok (EnableWebTransportDraft02 b)
  else if id =? ID_WEBTRANSPORT_MAX_SESSIONS_DRAFT07 then Ok (WebTransportMaxSessionsDraft07 v)
  else if id =? ID_WT_INITIAL_MAX_DATA then Ok (WtInitialMaxData v)
  else if id =? ID_WT_INITIAL_MAX_STREAMS_UNI then Ok (WtInitialMaxStreamsUni v)
  else if id =? ID_WT_INITIAL_MAX_STREAMS_BIDI then Ok (WtInitialMaxStreamsBidi v)
  else Ok (UnknownSetting id v).

Definition bool_v (b : bool) : Z := if b then 1 else 0.

Definition as_wire (s : Setting) : Z * Z :=
  match s with
  | QpackMaxTableCapacity v => (ID_QPACK_MAX_TABLE_CAPACITY, v)
  | MaxFieldSectionSize v => (ID_MAX_FIELD_SECTION_SIZE, v)
  | QpackBlockedStreams v => (ID_QPACK_BLOCKED_STREAMS, v)
  | EnableConnectProtocol b => (ID_ENABLE_CONNECT_PROTOCOL, bool_v b)
  | H3Datagram b => (ID_H3_DATAGRAM, bool_v b)
  | WtEnabled v => (ID_WT_ENABLED, v)
  | WtEnabledDraft17 v => (ID_WT_ENABLED_DRAFT17, v)
  | WtMaxSessionsDraft14 v => (ID_WT_MAX_SESSIONS_DRAFT14, v)
  | EnableWebTransportDraft02 b => (ID_ENABLE_WEBTRANSPORT_DRAFT02, bool_v b)
  | WebTransportMaxSessionsDraft07 v => (ID_WEBTRANSPORT_MAX_SESSIONS_DRAFT07, v)
  | WtInitialMaxData v => (ID_WT_INITIAL_MAX_DATA, v)
  | WtInitialMaxStreamsUni v => (ID_WT_INITIAL_MAX_STREAMS_UNI, v)
  | WtInitialMaxStreamsBidi v => (ID_WT_INITIAL_MAX_STREAMS_BIDI, v)
  | UnknownSetting id v => (id, v)
  end.

Definition setting_id (s : Setting) : Z := fst (as_wire s).

(** ** The payload of a SETTINGS frame: no identifier twice *)
Record SettingsPayload := mkPayload { settings : list Setting; seen_ids : gset Z }.

Definition payload_new : SettingsPayload := mkPayload [] ∅.

Definition payload_add (p : SettingsPayload) (s : Setting) : SettingsPayload * result SettingError unit :=
  let id := setting_id s in
  if decide (id ∈ seen_ids p) then (p, Err (DuplicateId id))
  else (mkPayload (settings p ++ [s]) (seen_ids p ∪ {[id]}), Ok tt).

(** ** WebTransport settings *)
Inductive DraftVersion := Draft02 | Draft07 | Draft14 | Draft15 | Draft17.

#[export] Instance DraftVersion_eq_dec : EqDecision DraftVersion.
Proof. solve_decision. Defined.

Record WtSettings := mkWt {
  wt_enabled : Z;
  wt_enabled_draft17 : Z;
  wt_initial_max_streams_uni : Z;
  wt_initial_max_streams_bidi : Z;
  wt_initial_max_data : Z;
  enable_webtransport_draft02 : option bool;
  webtransport_max_sessions_draft07 : option Z;
  wt_max_sessions_draft14 : option Z }.

#[export] Instance WtSettings_eq_dec : EqDecision WtSettings.
Proof. solve_decision. Defined.

Definition wt_new : WtSettings := mkWt 0 0 0 0 0 None None None.

Definition set_wt_enabled (w : WtSettings) (v : Z) : WtSettings :=
  mkWt v (wt_enabled_draft17 w) (wt_initial_max_streams_uni w) (wt_initial_max_streams_bidi w)
    (wt_initial_max_data w) (enable_webtransport_draft02 w) (webtransport_max_sessions_draft07 w)
    (wt_max_sessions_draft14 w).
Definition set_wt_enabled_draft17 (w : WtSettings) (v : Z) : WtSettings :=
  mkWt (wt_enabled w) v (wt_initial_max_streams_uni w) (wt_initial_max_streams_bidi w)
    (wt_initial_max_data w) (enable_webtransport_draft02 w) (webtransport_max_sessions_draft07 w)
    (wt_max_sessions_draft14 w).
Definition set_streams_uni (w : WtSettings) (v : Z) : WtSettings :=
  mkWt (wt_enabled w) (wt_enabled_draft17 w) v (wt_initial_max_streams_bidi w)
    (wt_initial_max_data w) (enable_webtransport_draft02 w) (webtransport_max_sessions_draft07 w)
    (wt_max_sessions_draft14 w).
Definition set_streams_bidi (w : WtSettings) (v : Z) : WtSettings :=
  mkWt (wt_enabled w) (wt_enabled_draft17 w) (wt_initial_max_streams_uni w) v
    (wt_initial_max_data w) (enable_webtransport_draft02 w) (webtransport_max_sessions_draft07 w)
    (wt_max_sessions_draft14 w).
Definition set_max_data (w : WtSettings) (v : Z) : WtSettings :=
  mkWt (wt_enabled w) (wt_enabled_draft17 w) (wt_initial_max_streams_uni w)
    (wt_initial_max_streams_bidi w) v (enable_webtransport_draft02 w)
    (webtransport_max_sessions_draft07 w) (wt_max_sessions_draft14 w).
Definition set_draft02 (w : WtSettings) (b : option bool) : WtSettings :=
  mkWt (wt_enabled w) (wt_enabled_draft17 w) (wt_initial_max_streams_uni w)
    (wt_initial_max_streams_bidi w) (wt_initial_max_data w) b
    (webtransport_max_sessions_draft07 w) (wt_max_sessions_draft14 w).
Definition set_draft07 (w : WtSettings) (v : option Z) : WtSettings :=
  mkWt (wt_enabled w) (wt_enabled_draft17 w) (wt_initial_max_streams_uni w)
    (wt_initial_max_streams_bidi w) (wt_initial_max_data w) (enable_webtransport_draft02 w) v
    (wt_max_sessions_draft14 w).
Definition set_draft14 (w : WtSettings) (v : option Z) : WtSettings :=
  mkWt (wt_enabled w) (wt_enabled_draft17 w) (wt_initial_max_streams_uni w)
    (wt_initial_max_streams_bidi w) (wt_initial_max_data w) (enable_webtransport_draft02 w)
    (webtransport_max_sessions_draft07 w) v.

(** [webtransport::Settings::from_payload]: the fields, and whether any was found. *)
Definition wt_apply (acc : WtSettings * bool) (s : Setting) : WtSettings * bool :=
  let '(w, found) := acc in
  match s with
  | WtEnabled v => (set_wt_enabled w v, true)
  | WtEnabledDraft17 v => (set_wt_enabled_draft17 w v, true)
  | WtInitialMaxStreamsUni v => (set_streams_uni w v, true)
  | WtInitialMaxStreamsBidi v => (set_streams_bidi w v, true)
  | WtInitialMaxData v => (set_max_data w v, true)
  | EnableWebTransportDraft02 b => (set_draft02 w (Some b), true)
  | WebTransportMaxSessionsDraft07 v => (set_draft07 w (Some v), true)
  | WtMaxSessionsDraft14 v => (set_draft14 w (Some v), true)
  | _ => (w, found)
  end.
Definition wt_from_payload (l : list Setting) : option WtSettings :=
  let '(w, found) := fold_left wt_apply l (wt_new, false) in
  if found then Some w else None.

Definition some_if {A} (b : bool) (x : A) : option A := if b then Some x else None.
Fixpoint flatten {A} (l : list (option A)) : list A :=
  match l with [] => [] | Some x :: l' => x :: flatten l' | None :: l' => flatten l' end.

(** [webtransport::Settings::iter]. *)
Definition wt_iter (w : WtSettings) : list Setting := flatten [
  some_if (negb (wt_enabled w =? 0)) (WtEnabled (wt_enabled w));
  some_if (negb (wt_enabled_draft17 w =? 0)) (WtEnabledDraft17 (wt_enabled_draft17 w));
  some_if (negb (wt_initial_max_streams_uni w =? 0)) (WtInitialMaxStreamsUni (wt_initial_max_streams_uni w));
  some_if (negb (wt_initial_max_streams_bidi w =? 0)) (WtInitialMaxStreamsBidi (wt_initial_max_streams_bidi w));
  some_if (negb (wt_initial_max_data w =? 0)) (WtInitialMaxData (wt_initial_max_data w));
  option_map EnableWebTransportDraft02 (enable_webtransport_draft02 w);
  option_map WebTransportMaxSessionsDraft07 (webtransport_max_sessions_draft07 w);
  option_map WtMaxSessionsDraft14 (wt_max_sessions_draft14 w)].

(** ** Draft versions *)
Definition DRAFT_SELECTION_ORDER : list DraftVersion := [Draft17; Draft15; Draft07; Draft14; Draft02].

Definition is_some_and {A} (f : A -> bool) (o : option A) : bool :=
  match o with Some x => f x | None => false end.

Definition advertises_draft_version (w : WtSettings) (version : DraftVersion) : bool :=
  match version with
  | Draft17 => 0 <? wt_enabled_draft17 w
  | Draft15 => 0 <? wt_enabled w
  | Draft14 => is_some_and (fun v => 0 <? v) (wt_max_sessions_draft14 w)
  | Draft07 => is_some_and (fun v => 0 <? v) (webtransport_max_sessions_draft07 w)
  | Draft02 => bool_decide (enable_webtransport_draft02 w = Some true)
  end.

Definition advertised_draft_versions (w : WtSettings) : list DraftVersion :=
  List.filter (advertises_draft_version w) DRAFT_SELECTION_ORDER.
Definition first_mutual_draft (w peer : WtSettings) : option DraftVersion :=
  List.find (fun v => advertises_draft_version w v && advertises_draft_version peer v) DRAFT_SELECTION_ORDER.
Definition advertises_any_draft_version (w : WtSettings) : bool :=
  existsb (advertises_draft_version w) DRAFT_SELECTION_ORDER.
Definition advertises_wt_enabled (w : WtSettings) : bool :=
  (0 <? wt_enabled w) || (0 <? wt_enabled_draft17 w).
Definition detect_draft_pattern (w : WtSettings) : option DraftVersion :=
  List.find (advertises_draft_version w) DRAFT_SELECTION_ORDER.
Definition wt_is_enabled (w : WtSettings) : bool := advertises_any_draft_version w.

Definition declares_flow_control (w : WtSettings) : bool :=
  let sends_wt_enabled := negb (wt_enabled w =? 0) || negb (wt_enabled_draft17 w =? 0) in
  let draft14 := negb sends_wt_enabled && is_some_and (fun v => 1 <? v) (wt_max_sessions_draft14 w) in
  draft14 || negb (wt_initial_max_streams_uni w =? 0) || negb (wt_initial_max_streams_bidi w =? 0) ||
  negb (wt_initial_max_data w =? 0).
Definition flow_control_enabled_with_peer (w peer : WtSettings) : bool :=
  declares_flow_control w && declares_flow_control peer.
Definition requires_initial_capsule_flow_control_compat (w : WtSettings) : bool :=
  match detect_draft_pattern w with
  | Some Draft14 => true
  | Some Draft07 => negb (wt_initial_max_streams_uni w =? 0) ||
      negb (wt_initial_max_streams_bidi w =? 0) || negb (wt_initial_max_data w =? 0)
  | _ => false
  end.

(** [for_draft_versions]. *)
Definition advertise (max_sessions : Z) (w : WtSettings) (version : DraftVersion) : WtSettings :=
  match version with
  | Draft02 => set_draft02 w (Some true)
  | Draft07 => set_draft07 w (some_if (negb (max_sessions =? 0)) max_sessions)
  | Draft14 => set_draft14 w (some_if (negb (max_sessions =? 0)) max_sessions)
  | Draft15 => set_wt_enabled w 1
  | Draft17 => set_wt_enabled_draft17 w 1
  end.
Definition for_draft_versions (versions : list DraftVersion) (max_sessions : Z) : WtSettings :=
  fold_left (advertise max_sessions) versions wt_new.

Record ServerSettingsParams := mkParams {
  max_sessions : Z; initial_max_streams_uni : Z; initial_max_streams_bidi : Z; initial_max_data : Z }.

Definition with_initial_limits (w : WtSettings) (p : ServerSettingsParams) : WtSettings :=
  set_max_data (set_streams_bidi (set_streams_uni w (initial_max_streams_uni p))
    (initial_max_streams_bidi p)) (initial_max_data p).

Definition build_server_settings (version : DraftVersion) (p : ServerSettingsParams) : WtSettings :=
  match version with
  | Draft17 => with_initial_limits (set_wt_enabled_draft17 wt_new 1) p
  | Draft15 => with_initial_limits (set_wt_enabled wt_new 1) p
  | Draft14 => set_draft07 (set_draft14 wt_new (Some (max_sessions p))) (Some (max_sessions p))
  | Draft07 => set_draft07 wt_new (Some (max_sessions p))
  | Draft02 => set_draft02 wt_new (Some true)
  end.
Definition build_client_settings (version : DraftVersion) (p : ServerSettingsParams) : WtSettings :=
  match version with
  | Draft17 => with_initial_limits (set_wt_enabled_draft17 wt_new 1) p
  | Draft15 => with_initial_limits (set_wt_enabled wt_new 1) p
  | Draft14 => with_initial_limits (set_draft14 wt_new (Some (max_sessions p))) p
  | Draft07 => set_draft07 wt_new (Some (max_sessions p))
  | Draft02 => set_draft02 wt_new (Some true)
  end.

Definition requires_initial_capsule_flow_control (v : DraftVersion) : bool :=
  match v with Draft14 => true | _ => false end.
Definition requires_enable_connect_protocol (v : DraftVersion) : bool :=
  match v with Draft02 => false | _ => true end.
Definition requires_reset_stream_at (v : DraftVersion) : bool :=
  match v with Draft14 | Draft15 | Draft17 => true | _ => false end.

(** ** The logical settings of a connection *)
Record Settings := mkSettings {
  qpack_max_table_capacity : option Z;
  max_field_section_size : option Z;
  qpack_blocked_streams : option Z;
  enable_connect_protocol : option bool;
  h3_datagram : option bool;
  wt_settings : option WtSettings }.

Definition settings_new : Settings := mkSettings None None None None None None.

Record Limits := mkLimits {
  limit_field_section_size : Z;
  limit_table_capacity : Z;
  limit_blocked_streams : Z;
  limit_received_body_size : Z }.
Definition default_limits : Limits := mkLimits (16 * 1024) 4096 100 (16 * 1024 * 1024).

(** The builders of [Limits] and of [Settings]. *)
Definition with_max_field_section_size (size : Z) (l : Limits) : Limits :=
  mkLimits size (limit_table_capacity l) (limit_blocked_streams l) (limit_received_body_size l).
Definition with_qpack_max_table_capacity (capacity : Z) (l : Limits) : Limits :=
  mkLimits (limit_field_section_size l) capacity (limit_blocked_streams l) (limit_received_body_size l).
Definition with_qpack_blocked_streams (streams : Z) (l : Limits) : Limits :=
  mkLimits (limit_field_section_size l) (limit_table_capacity l) streams (limit_received_body_size l).
Definition with_max_received_body_size (size : Z) (l : Limits) : Limits :=
  mkLimits (limit_field_section_size l) (limit_table_capacity l) (limit_blocked_streams l) size.

Definition set_qpack_max_table_capacity (capacity : Z) (s : Settings) : Settings :=
  mkSettings (Some capacity) (max_field_section_size s) (qpack_blocked_streams s)
    (enable_connect_protocol s) (h3_datagram s) (wt_settings s).
Definition set_max_field_section_size (size : Z) (s : Settings) : Settings :=
  mkSettings (qpack_max_table_capacity s) (Some size) (qpack_blocked_streams s)
    (enable_connect_protocol s) (h3_datagram s) (wt_settings s).
Definition set_qpack_blocked_streams (streams : Z) (s : Settings) : Settings :=
  mkSettings (qpack_max_table_capacity s) (max_field_section_size s) (Some streams)
    (enable_connect_protocol s) (h3_datagram s) (wt_settings s).
Definition set_enable_connect_protocol (enable : bool) (s : Settings) : Settings :=
  mkSettings (qpack_max_table_capacity s) (max_field_section_size s) (qpack_blocked_streams s)
    (Some enable) (h3_datagram s) (wt_settings s).
Definition set_h3_datagram (enable : bool) (s : Settings) : Settings :=
  mkSettings (qpack_max_table_capacity s) (max_field_section_size s) (qpack_blocked_streams s)
    (enable_connect_protocol s) (Some enable) (wt_settings s).
Definition webtransport_draft_pattern (s : Settings) : option DraftVersion := w ← wt_settings s; detect_draft_pattern w.

Definition from_limits (l : Limits) : result VarIntError Settings :=
  c ← varint_new (limit_table_capacity l);
  f ← varint_new (limit_field_section_size l);
  b ← varint_new (limit_blocked_streams l);
  Ok (mkSettings (Some c) (Some f) (Some b) None None None).

Definition enable_webtransport_server (s : Settings) (wt : WtSettings) : Settings :=
  mkSettings (qpack_max_table_capacity s) (max_field_section_size s) (qpack_blocked_streams s)
    (Some true) (Some true) (Some wt).
Definition enable_webtransport_client (s : Settings) (wt : WtSettings) : Settings :=
  mkSettings (qpack_max_table_capacity s) (max_field_section_size s) (qpack_blocked_streams s)
    (enable_connect_protocol s) (Some true) (Some wt).
Definition is_webtransport_enabled (s : Settings) : bool := is_some_and wt_is_enabled (wt_settings s).

Definition apply_setting (s : Settings) (x : Setting) : Settings :=
  match x with
  | QpackMaxTableCapacity v => mkSettings (Some v) (max_field_section_size s) (qpack_blocked_streams s)
      (enable_connect_protocol s) (h3_datagram s) (wt_settings s)
  | MaxFieldSectionSize v => mkSettings (qpack_max_table_capacity s) (Some v) (qpack_blocked_streams s)
      (enable_connect_protocol s) (h3_datagram s) (wt_settings s)
  | QpackBlockedStreams v => mkSettings (qpack_max_table_capacity s) (max_field_section_size s) (Some v)
      (enable_connect_protocol s) (h3_datagram s) (wt_settings s)
  | EnableConnectProtocol b => mkSettings (qpack_max_table_capacity s) (max_field_section_size s)
      (qpack_blocked_streams s) (Some b) (h3_datagram s) (wt_settings s)
  | H3Datagram b => mkSettings (qpack_max_table_capacity s) (max_field_section_size s)
      (qpack_blocked_streams s) (enable_connect_protocol s) (Some b) (wt_settings s)
  | _ => s
  end.

(** [Settings::from_payload]. *)
Definition from_payload (p : SettingsPayload) : Settings :=
  let s := fold_left apply_setting (settings p) settings_new in
  mkSettings (qpack_max_table_capacity s) (max_field_section_size s) (qpack_blocked_streams s)
    (enable_connect_protocol s) (h3_datagram s) (wt_from_payload (settings p)).

(** [Settings::iter]. *)
Definition settings_iter (s : Settings) : list Setting := flatten [
  option_map QpackMaxTableCapacity (qpack_max_table_capacity s);
  option_map MaxFieldSectionSize (max_field_section_size s);
  option_map QpackBlockedStreams (qpack_blocked_streams s);
  option_map EnableConnectProtocol (enable_connect_protocol s);
  option_map H3Datagram (h3_datagram s)].

(** [SettingsPayload::from_settings]: a failing [add] would be a panic, [None] here. *)
Fixpoint payload_add_all (p : SettingsPayload) (l : list Setting) : option SettingsPayload :=
  match l with
  | [] => Some p
  | s :: l' => match payload_add p s with (p', Ok _) => payload_add_all p' l' | _ => None end
  end.
Definition from_settings (s : Settings) : option SettingsPayload :=
  p ← payload_add_all payload_new (settings_iter s);
  p ← payload_add_all p (match wt_settings s with Some w => wt_iter w | None => [] end);
  grease ← ok (from_wire 0x21 0);
  payload_add_all p [grease].

(** [Settings::len]. *)
Definition settings_len (s : Settings) : Z :=
  len (settings_iter s) + match wt_settings s with Some w => len (wt_iter w) | None => 0 end.

Definition settings_is_empty (s : Settings) : bool := settings_len s =? 0.

(** ** The wire form of a parameter *)
Definition known_id (id : Z) : bool :=
  is_http2_only_id id || bool_decide (id ∈ [ID_QPACK_MAX_TABLE_CAPACITY; ID_MAX_FIELD_SECTION_SIZE;
    ID_QPACK_BLOCKED_STREAMS; ID_ENABLE_CONNECT_PROTOCOL; ID_H3_DATAGRAM; ID_WT_ENABLED;
    ID_WT_ENABLED_DRAFT17; ID_WT_MAX_SESSIONS_DRAFT14; ID_ENABLE_WEBTRANSPORT_DRAFT02;
    ID_WEBTRANSPORT_MAX_SESSIONS_DRAFT07; ID_WT_INITIAL_MAX_DATA; ID_WT_INITIAL_MAX_STREAMS_UNI;
    ID_WT_INITIAL_MAX_STREAMS_BIDI]).

(** What the private constructor of an unknown setting guarantees. *)
Definition setting_ok (s : Setting) : Prop :=
  varint_ok (fst (as_wire s)) /\ varint_ok (snd (as_wire s)) /\
  match s with UnknownSetting id _ => known_id id = false | _ => True end.

Lemma from_wire_unknown id v : known_id id = false -> from_wire id v = Ok (UnknownSetting id v).
Proof.
  unfold known_id. intros [Hh Hn]%orb_false_iff.
  unfold from_wire. rewrite Hh. apply bool_decide_eq_false in Hn. rewrite !not_elem_of_cons in Hn.
  destruct_and!. repeat match goal with H : id <> ?x |- _ =>
    rewrite (proj2 (Z.eqb_neq id x) H); clear H end. done.
Qed.

Lemma from_wire_as_wire s : setting_ok s -> from_wire (fst (as_wire s)) (snd (as_wire s)) = Ok s.
Proof.
  intros (_ & _ & Hu). destruct s; try reflexivity; try (destruct b; reflexivity).
  by apply from_wire_unknown.
Qed.

Lemma check_bool_Ok id v b : check_bool id v = Ok b -> v = bool_v b.
Proof. unfold check_bool. case_z; [by intros [= <-]|]. case_z; [by intros [= <-]|done]. Qed.

Lemma from_wire_inv id v s : varint_ok id -> varint_ok v -> from_wire id v = Ok s ->
  setting_ok s /\ as_wire s = (id, v).
Proof.
  intros Hid Hv. destruct (known_id id) eqn:Ek.
  - unfold from_wire. destruct (is_http2_only_id id) eqn:Eh; [done|].
    unfold known_id in Ek. rewrite Eh in Ek. apply bool_decide_eq_true in Ek.
    repeat match type of Ek with _ ∈ _ :: _ => apply elem_of_cons in Ek as [->|Ek] end;
      [..|by apply elem_of_nil in Ek]; cbn [Z.eqb Pos.eqb];
      match goal with
      | |- context [check_bool] => intros (b & ->%check_bool_Ok & [= <-])%result_bind_Ok
      | |- _ => intros [= <-]
      end; done.
  - rewrite from_wire_unknown by done. intros [= <-]. done.
Qed.

(** ** Payloads *)
Record payload_wf (p : SettingsPayload) : Prop := {
  pw_ids : seen_ids p = list_to_set (map setting_id (settings p));
  pw_nodup : NoDup (map setting_id (settings p));
  pw_settings : Forall setting_ok (settings p) }.

Lemma payload_new_wf : payload_wf payload_new.
Proof. split; cbn; [done|constructor|constructor]. Qed.

Lemma payload_add_spec p s : payload_wf p -> setting_ok s ->
  match payload_add p s with
  | (p', Ok _) => payload_wf p' /\ settings p' = settings p ++ [s] /\ setting_id s ∉ map setting_id (settings p)
  | (p', Err e) => p' = p /\ e = DuplicateId (setting_id s) /\ setting_id s ∈ map setting_id (settings p)
  end.
Proof.
  intros [Hi Hn Hs] Hok. unfold payload_add. rewrite Hi.
  destruct (decide _) as [Hd|Hd]; rewrite elem_of_list_to_set in Hd; [done|].
  split_and!; [|done|done]. split; cbn [settings seen_ids].
  - rewrite map_app, list_to_set_app_L. cbn. set_solver.
  - rewrite map_app. apply NoDup_app. split_and!; [done| |apply NoDup_singleton].
    intros x Hx ->%list_elem_of_singleton. done.
  - apply Forall_app. by split; [|constructor].
Qed.

Lemma payload_add_all_spec p l : payload_wf p -> Forall setting_ok l ->
  NoDup (map setting_id (settings p ++ l)) ->
  exists p', payload_add_all p l = Some p' /\ payload_wf p' /\ settings p' = settings p ++ l.
Proof.
  intros Hw Hl. revert p Hw. induction Hl as [|s l Hs _ IH]; intros p Hw Hn; cbn [payload_add_all].
  - exists p. by rewrite app_nil_r.
  - pose proof (payload_add_spec p s Hw Hs) as Ha. destruct (payload_add p s) as [p1 [[]|e]].
    + destruct Ha as (Hw1 & E1 & _). destruct (IH p1 Hw1) as (p' & Hp & Hw' & E').
      { by rewrite E1, <- app_assoc. }
      exists p'. rewrite E', E1, <- app_assoc. done.
    + destruct Ha as (_ & _ & Hin). rewrite map_app in Hn. apply NoDup_app in Hn as (_ & Hn & _).
      exfalso. apply (Hn _ Hin). by left.
Qed.

(** ** From logical settings to the payload and back *)
Definition settings_ids : list Z := [ID_QPACK_MAX_TABLE_CAPACITY; ID_MAX_FIELD_SECTION_SIZE;
  ID_QPACK_BLOCKED_STREAMS; ID_ENABLE_CONNECT_PROTOCOL; ID_H3_DATAGRAM].
Definition wt_ids : list Z := [ID_WT_ENABLED; ID_WT_ENABLED_DRAFT17; ID_WT_INITIAL_MAX_STREAMS_UNI;
  ID_WT_INITIAL_MAX_STREAMS_BIDI; ID_WT_INITIAL_MAX_DATA; ID_ENABLE_WEBTRANSPORT_DRAFT02;
  ID_WEBTRANSPORT_MAX_SESSIONS_DRAFT07; ID_WT_MAX_SESSIONS_DRAFT14].

Lemma flatten_ids (l : list (option Setting)) ids :
  Forall2 (fun o id => forall s, o = Some s -> setting_id s = id) l ids ->
  map setting_id (flatten l) `sublist_of` ids.
Proof.
  induction 1 as [|[s|] id l ids Hs _ IH]; cbn [flatten map]; [constructor| |].
  - rewrite (Hs s eq_refl). by constructor.
  - by constructor.
Qed.

Lemma settings_iter_ids s : map setting_id (settings_iter s) `sublist_of` settings_ids.
Proof. apply flatten_ids. repeat constructor; intros x Hx; destruct s as [[] [] [] [] [] ?]; cbn in Hx; by simplify_eq. Qed.

Lemma wt_iter_ids w : map setting_id (wt_iter w) `sublist_of` wt_ids.
Proof.
  apply flatten_ids. destruct w as [a b c d e f g h]; cbn.
  repeat (apply List.Forall2_cons; [intros x; unfold some_if, option_map; repeat case_match; intros; by simplify_eq|]).
  constructor.
Qed.

Definition opt_varint (o : option Z) : Prop := match o with Some v => varint_ok v | None => True end.
Definition wt_ok (w : WtSettings) : Prop :=
  varint_ok (wt_enabled w) /\ varint_ok (wt_enabled_draft17 w) /\ varint_ok (wt_initial_max_streams_uni w) /\
  varint_ok (wt_initial_max_streams_bidi w) /\ varint_ok (wt_initial_max_data w) /\
  opt_varint (webtransport_max_sessions_draft07 w) /\ opt_varint (wt_max_sessions_draft14 w).
Definition settings_ok (s : Settings) : Prop :=
  opt_varint (qpack_max_table_capacity s) /\ opt_varint (max_field_section_size s) /\
  opt_varint (qpack_blocked_streams s) /\
  match wt_settings s with Some w => wt_ok w | None => True end.

(** The values of settings that were read are varints. *)
Lemma apply_settings_ok l : Forall setting_ok l -> forall s, settings_ok s -> settings_ok (fold_left apply_setting l s).
Proof.
  induction 1 as [|x l (_ & Hv & _) _ IH]; intros s Hs; [done|]. cbn [fold_left]. apply IH. destruct Hs as (H1 & H2 & H3 & H4).
  destruct x; try done; by split_and!.
Qed.
Lemma wt_apply_ok l : Forall setting_ok l -> forall acc, wt_ok (fst acc) -> wt_ok (fst (fold_left wt_apply l acc)).
Proof.
  induction 1 as [|x l (_ & Hv & _) _ IH]; intros [w found] Hw; [done|]. cbn [fold_left fst] in *. apply IH.
  destruct Hw as (H1 & H2 & H3 & H4 & H5 & H6 & H7). destruct x; try (by split_and!); exact Hw.
Qed.
Lemma from_payload_ok p : Forall setting_ok (settings p) -> settings_ok (from_payload p).
Proof.
  intros Hp. destruct (apply_settings_ok _ Hp settings_new) as (H1 & H2 & H3 & _); [done|]. split_and!; [done..|]. cbn.
  unfold wt_from_payload. assert (wt_ok (fst (wt_new, false))) as H0 by (unfold wt_ok, varint_ok, VARINT_MAX; cbn; repeat split; lia).
  pose proof (wt_apply_ok _ Hp _ H0) as Hw. by destruct (fold_left wt_apply _ _) as [w []].
Qed.

Lemma flatten_Forall {A} (P : A -> Prop) l :
  Forall (fun o => match o with Some x => P x | None => True end) l -> Forall P (flatten l).
Proof. induction 1 as [|[x|] l Hx _ IH]; cbn; auto. Qed.

Lemma bool_v_ok b : varint_ok (bool_v b).
Proof. destruct b; unfold varint_ok, VARINT_MAX; cbn; lia. Qed.
Lemma small_id_ok id : (0 <=? id) && (id <=? VARINT_MAX) = true -> varint_ok id.
Proof. unfold varint_ok. intros. zify_bool. lia. Qed.

Lemma settings_iter_ok s : settings_ok s -> Forall setting_ok (settings_iter s).
Proof.
  intros (Ha & Hb & Hc & _). apply flatten_Forall. destruct s as [a b c d e w].
  unfold option_map, opt_varint in *. cbn in Ha, Hb, Hc |- *.
  repeat (apply List.Forall_cons; [repeat case_match; try done; simplify_eq; unfold setting_ok; cbn [as_wire fst snd];
    split_and!; try done; try apply bool_v_ok; by apply small_id_ok|]). constructor.
Qed.

Lemma wt_iter_ok w : wt_ok w -> Forall setting_ok (wt_iter w).
Proof.
  intros (Ha & Hb & Hc & Hd & He & Hg & Hh). apply flatten_Forall. destruct w as [a b c d e f g h].
  unfold option_map, opt_varint in *. cbn in Ha, Hb, Hc, Hd, He, Hg, Hh |- *.
  repeat (apply List.Forall_cons; [unfold some_if; repeat case_match; try done; simplify_eq; unfold setting_ok;
    cbn [as_wire fst snd]; split_and!; try done; try apply bool_v_ok; by apply small_id_ok|]). constructor.
Qed.

(** The H3 fields only see H3 parameters, the WebTransport fields only theirs. *)
Definition is_wt (s : Setting) : bool :=
  match s with
  | WtEnabled _ | WtEnabledDraft17 _ | WtMaxSessionsDraft14 _ | EnableWebTransportDraft02 _
  | WebTransportMaxSessionsDraft07 _ | WtInitialMaxData _ | WtInitialMaxStreamsUni _
  | WtInitialMaxStreamsBidi _ => true
  | _ => false
  end.

Lemma fold_apply_wt l s : Forall (fun x => is_wt x = true) l -> fold_left apply_setting l s = s.
Proof. intros H. revert s. induction H as [|x l Hx _ IH]; intros s; [done|]. destruct x; try done; apply IH. Qed.
Lemma fold_wt_h3 l acc : Forall (fun x => is_wt x = false) l -> fold_left wt_apply l acc = acc.
Proof.
  intros H. revert acc. induction H as [|x l Hx _ IH]; intros [w f]; [done|].
  destruct x; try done; apply IH.
Qed.

Lemma wt_iter_is_wt w : Forall (fun x => is_wt x = true) (wt_iter w).
Proof.
  apply flatten_Forall. destruct w. unfold option_map, some_if.
  repeat (apply List.Forall_cons; [repeat case_match; simplify_eq; done|]). constructor.
Qed.
Lemma settings_iter_is_h3 s : Forall (fun x => is_wt x = false) (settings_iter s).
Proof. apply flatten_Forall. destruct s as [[] [] [] [] [] ?]; by repeat constructor. Qed.

Lemma wt_fold_iter w : fold_left wt_apply (wt_iter w) (wt_new, false) =
  (w, match wt_iter w with [] => false | _ => true end).
Proof.
  destruct w as [a b c d e f g h]. unfold wt_iter. cbn [wt_enabled wt_enabled_draft17
    wt_initial_max_streams_uni wt_initial_max_streams_bidi wt_initial_max_data enable_webtransport_draft02
    webtransport_max_sessions_draft07 wt_max_sessions_draft14].
  destruct (Z.eqb_spec a 0) as [->|], (Z.eqb_spec b 0) as [->|], (Z.eqb_spec c 0) as [->|],
    (Z.eqb_spec d 0) as [->|], (Z.eqb_spec e 0) as [->|], f, g, h; reflexivity.
Qed.

(** What comes back: WebTransport settings without any parameter are not seen. *)
Definition normalize (s : Settings) : Settings :=
  mkSettings (qpack_max_table_capacity s) (max_field_section_size s) (qpack_blocked_streams s)
    (enable_connect_protocol s) (h3_datagram s)
    (match wt_settings s with Some w => if decide (wt_iter w = []) then None else Some w | None => None end).

Definition wt_part (s : Settings) : list Setting := match wt_settings s with Some w => wt_iter w | None => [] end.

Lemma from_settings_spec s : settings_ok s ->
  exists p, from_settings s = Some p /\ payload_wf p /\
    settings p = settings_iter s ++ wt_part s ++ [UnknownSetting 0x21 0].
Proof.
  intros Hs. assert (Forall setting_ok (wt_part s)) as Hwt.
  { unfold wt_part. destruct Hs as (_ & _ & _ & Hw). destruct (wt_settings s); [by apply wt_iter_ok|done]. }
  assert (NoDup (map setting_id (settings_iter s ++ wt_part s ++ [UnknownSetting 0x21 0]))) as Hn.
  { eapply (sublist_NoDup _ (settings_ids ++ wt_ids ++ [0x21])).
    - apply (bool_decide_unpack _). vm_compute. exact I.
    - rewrite !map_app. apply sublist_app; [apply settings_iter_ids|]. apply sublist_app; [|done].
      unfold wt_part. destruct (wt_settings s); [apply wt_iter_ids|]. apply sublist_nil_l. }
  unfold from_settings. fold (wt_part s).
  destruct (payload_add_all_spec payload_new (settings_iter s)) as (p1 & -> & Hw1 & E1);
    [apply payload_new_wf|by apply settings_iter_ok| |].
  { rewrite !map_app in Hn. apply NoDup_app in Hn as (Hn & _ & _). done. }
  cbn [mbind option_bind]. cbn [settings payload_new app] in E1.
  destruct (payload_add_all_spec p1 (wt_part s)) as (p2 & -> & Hw2 & E2); [done|done| |].
  { rewrite E1. rewrite app_assoc, map_app in Hn. by apply NoDup_app in Hn as (Hn & _ & _). }
  cbn [mbind option_bind]. change (ok (from_wire 0x21 0)) with (Some (UnknownSetting 0x21 0)).
  cbn [mbind option_bind].
  destruct (payload_add_all_spec p2 [UnknownSetting 0x21 0]) as (p3 & -> & Hw3 & E3); [done| | |].
  { constructor; [|done]. split_and!; [by apply small_id_ok..|done]. }
  { by rewrite E2, E1, <- app_assoc. }
  exists p3. by rewrite E3, E2, E1, <- app_assoc.
Qed.

Lemma from_settings_length s p : settings_ok s -> from_settings s = Some p -> len (settings p) <= 14.
Proof.
  intros Hs Hp. destruct (from_settings_spec s Hs) as (p' & Hp' & _ & E). rewrite Hp in Hp'. injection Hp' as <-.
  rewrite E, !len_app. change (len [UnknownSetting 0x21 0]) with 1.
  pose proof (sublist_length _ _ (settings_iter_ids s)) as H1. rewrite length_map in H1. change (length settings_ids) with 5%nat in H1.
  assert (length (wt_part s) <= 8)%nat as H2.
  { unfold wt_part. destruct (wt_settings s) as [w|]; [|cbn; lia].
    pose proof (sublist_length _ _ (wt_iter_ids w)) as H. by rewrite length_map in H. }
  unfold len. lia.
Qed.

Lemma from_payload_from_settings s p : settings_ok s -> from_settings s = Some p ->
  from_payload p = normalize s.
Proof.
  intros Hs Hp. destruct (from_settings_spec s Hs) as (p' & Hp' & _ & E).
  rewrite Hp in Hp'. injection Hp' as <-. unfold from_payload, wt_from_payload, normalize. rewrite E.
  rewrite !fold_left_app, (fold_wt_h3 (settings_iter s)) by apply settings_iter_is_h3.
  assert (Forall (fun x => is_wt x = true) (wt_part s)) as Hw.
  { unfold wt_part. destruct (wt_settings s); [apply wt_iter_is_wt|done]. }
  rewrite (fold_apply_wt (wt_part s)) by done. cbn [fold_left apply_setting].
  assert (match wt_apply (fold_left wt_apply (wt_part s) (wt_new, false)) (UnknownSetting 0x21 0) with
      (w, true) => Some w | (w, false) => None end =
    match wt_settings s with Some w => if decide (wt_iter w = []) then None else Some w | None => None end) as ->.
  { unfold wt_part. destruct (wt_settings s) as [w|]; [|done]. rewrite wt_fold_iter. cbn [wt_apply].
    destruct (wt_iter w); [by rewrite decide_True|by rewrite decide_False]. }
  destruct s as [[] [] [] [] [] w]; reflexivity.
Qed.

(** ** Draft selection *)
Lemma find_first {A} (f : A -> bool) l x : List.find f l = Some x ->
  exists a r, l = a ++ x :: r /\ f x = true /\ Forall (fun y => f y = false) a.
Proof.
  induction l as [|y l IH]; cbn; [done|]. destruct (f y) eqn:E.
  - intros [= ->]. by exists [], l.
  - intros (a & r & -> & ? & ?)%IH. exists (y :: a), r. by repeat constructor.
Qed.

Lemma advertises_after n w x v : 0 <= n ->
  advertises_draft_version (advertise n w x) v =
  if decide (v = x) then (0 <? n) || negb (bool_decide (v ∈ [Draft07; Draft14]))
  else advertises_draft_version w v.
Proof.
  intros Hn. destruct (Z.eqb_spec n 0) as [->|].
  - destruct w, x, v; reflexivity.
  - assert (0 <? n = true) as Hp by (apply Z.ltb_lt; lia). assert (n =? 0 = false) as He by lia.
    destruct w, x, v; cbn; rewrite ?He; cbn; rewrite ?Hp; reflexivity.
Qed.

Lemma for_draft_versions_advertises vs n v : 0 <= n ->
  advertises_draft_version (for_draft_versions vs n) v = true <->
  v ∈ vs /\ (0 < n \/ v ∉ [Draft07; Draft14]).
Proof.
  intros Hn. unfold for_draft_versions. induction vs as [|x vs IH] using rev_ind.
  - cbn. split; [by destruct v|]. by intros [?%elem_of_nil _].
  - rewrite fold_left_app. cbn [fold_left]. rewrite advertises_after by done.
    rewrite elem_of_app, list_elem_of_singleton. case_decide as Hd.
    + rewrite orb_true_iff, negb_true_iff, bool_decide_eq_false, Z.ltb_lt. naive_solver.
    + rewrite IH. naive_solver.
Qed.

(** ** Properties *)

(** The wire form of a parameter: [from_wire] accepts a pair exactly when it is the
    wire form of a valid setting, and returns that setting; what it refuses are the
    HTTP/2 identifiers and booleans other than 0 and 1. *)
Theorem from_wire_correct id v : varint_ok id -> varint_ok v ->
  match from_wire id v with
  | Ok s => setting_ok s /\ as_wire s = (id, v)
  | Err (Http2OnlyId i) => i = id /\ 0x02 <= id <= 0x05
  | Err (InvalidBooleanValue i w) => i = id /\ w = v /\ 1 < v /\
      id ∈ [ID_ENABLE_CONNECT_PROTOCOL; ID_H3_DATAGRAM; ID_ENABLE_WEBTRANSPORT_DRAFT02]
  | Err (DuplicateId _) => False
  end /\ (forall s, setting_ok s -> as_wire s = (id, v) -> from_wire id v = Ok s).
Proof.
  intros Hid Hv. split.
  - destruct (from_wire id v) as [s|e] eqn:E; [by apply from_wire_inv|].
    unfold from_wire in E. destruct (is_http2_only_id id) eqn:Eh.
    + injection E as <-. unfold is_http2_only_id in Eh. zify_bool. lia.
    + unfold varint_ok in Hv. unfold check_bool in E.
      repeat (match type of E with context [if id =? ?x then _ else _] =>
        destruct (Z.eqb_spec id x) as [->|] end; cbn iota in E;
        [first [done|revert E; destruct (Z.eqb_spec v 0); [done|]; destruct (Z.eqb_spec v 1); [done|];
          intros [= <-]; split_and!; [done|done|lia|set_solver]]|]). done.
  - intros s Hs E. pose proof (from_wire_as_wire s Hs) as H. by rewrite E in H.
Qed.

(** SETTINGS round trip: the payload built from the logical settings always exists,
    has no identifier twice, carries the reserved parameter 0x21, and reading it back
    gives the same settings (WebTransport settings without any parameter vanish). *)
Theorem settings_roundtrip s : settings_ok s ->
  exists p, from_settings s = Some p /\ NoDup (map setting_id (settings p)) /\
    Forall setting_ok (settings p) /\ UnknownSetting 0x21 0 ∈ settings p /\
    from_payload p = normalize s.
Proof.
  intros Hs. destruct (from_settings_spec s Hs) as (p & Hp & [_ Hn Hok] & E). exists p.
  split_and!; [done|done|done| |by apply from_payload_from_settings].
  rewrite E. set_solver.
Qed.

(** Version selection: both endpoints pick the same WebTransport draft from the two
    SETTINGS; it is one that both advertise, and no draft that comes before it in the
    order of preference is advertised by both. Without one, no draft is advertised by both. *)
Theorem draft_selection w peer :
  first_mutual_draft w peer = first_mutual_draft peer w /\
  match first_mutual_draft w peer with
  | Some v => v ∈ advertised_draft_versions w /\ v ∈ advertised_draft_versions peer /\
      forall before after, DRAFT_SELECTION_ORDER = before ++ v :: after ->
        forall u, u ∈ before -> ~ (u ∈ advertised_draft_versions w /\ u ∈ advertised_draft_versions peer)
  | None => forall u, ~ (u ∈ advertised_draft_versions w /\ u ∈ advertised_draft_versions peer)
  end.
Proof.
  assert (forall x u, u ∈ advertised_draft_versions x <-> advertises_draft_version x u = true) as Hadv.
  { intros x u. unfold advertised_draft_versions. rewrite list_elem_of_In, filter_In, <- list_elem_of_In.
    split; [by intros [_ ?]|]. intros ?. split; [|done]. destruct u; set_solver. }
  assert (forall a b u, (advertises_draft_version a u && advertises_draft_version b u = false) <->
    ~ (u ∈ advertised_draft_versions a /\ u ∈ advertised_draft_versions b)) as Hno.
  { intros a b u. rewrite !Hadv. destruct (advertises_draft_version a u), (advertises_draft_version b u); naive_solver. }
  unfold first_mutual_draft. split.
  { unfold List.find, DRAFT_SELECTION_ORDER. rewrite !(andb_comm (advertises_draft_version w _)). done. }
  destruct (List.find _ _) as [v|] eqn:E.
  - apply find_first in E as (a & r & Eo & Hv & Ha). apply andb_true_iff in Hv as [Hv1 Hv2].
    rewrite !Hadv. split_and!; [done|done|]. intros before after Eo' u Hu. apply Hno.
    assert (a = before) as ->.
    { rewrite Eo in Eo'. assert (NoDup (a ++ v :: r)) as Hn by (rewrite <- Eo; apply (bool_decide_unpack _); vm_compute; exact I).
      clear -Eo' Hn. revert before Eo'. induction a as [|x a IH]; intros [|y b] E; cbn in *; simplify_eq; try done.
      - apply NoDup_cons in Hn as [Hn _]. set_solver.
      - apply NoDup_cons in Hn as [Hn _]. set_solver.
      - f_equal. apply IH; [by apply NoDup_cons in Hn as [_ ?]|done]. }
    rewrite Forall_forall in Ha. by apply Ha.
  - intros u. apply Hno. eapply find_none in E; [exact E|]. destruct u; cbn; tauto.
Qed.

Definition sample_settings : Settings :=
  enable_webtransport_server (mkSettings (Some 4096) (Some 16384) (Some 100) None None None)
    (for_draft_versions [Draft17; Draft07] 1).

Lemma from_wire_correct_witness : from_wire 0x33 1 = Ok (H3Datagram true).
Proof.
  destruct (from_wire_correct 0x33 1) as [_ H]; [by apply small_id_ok..|].
  apply H; [|reflexivity]. split_and!; [by apply small_id_ok..|exact I].
Defined.

Lemma settings_roundtrip_witness :
  exists p, from_settings sample_settings = Some p /\ from_payload p = sample_settings.
Proof.
  destruct (settings_roundtrip sample_settings) as (p & Hp & _ & _ & _ & E).
  - repeat split; vm_compute; discriminate.
  - exists p. split; [exact Hp|]. rewrite E. reflexivity.
Defined.
