(* ===== verification/Frame.v ===== *)
(** HTTP/3 frames: src/frame/mod.rs, src/frame/decoder.rs, src/frame/encoder.rs
    (RFC 9114 Section 7) and [FrameDecodeError] of src/error.rs. [usize] has 64 bits. *)

From S2P Require Import Prelude Codec Varint Settings.

(** ** Frame types *)
Inductive FrameType := TData | THeaders | TCancelPush | TSettings | TPushPromise | TGoaway | TMaxPushId.

Definition frame_type_code (t : FrameType) : Z :=
  match t with
  | TData => 0x00 | THeaders => 0x01 | TCancelPush => 0x03 | TSettings => 0x04
  | TPushPromise => 0x05 | TGoaway => 0x07 | TMaxPushId => 0x0d
  end.

(** [FrameType::from_type]. *)
Definition from_type (t : Z) : option FrameType :=
  if t =? 0x00 then Some TData
  else if t =? 0x01 then Some THeaders
  else if t =? 0x03 then Some TCancelPush
  else if t =? 0x04 then Some TSettings
  else if t =? 0x05 then Some TPushPromise
  else if t =? 0x07 then Some TGoaway
  else if t =? 0x0d then Some TMaxPushId
  else None.

Definition is_http2_only (t : Z) : bool := (t =? 0x02) || (t =? 0x06) || (t =? 0x08) || (t =? 0x09).

(** ** Frames *)
Inductive Frame :=
| Data (data : bytes)
| Headers (encoded_field_section : bytes)
| SettingsFrame (payload : SettingsPayload)
| Goaway (id : Z)
| MaxPushId (id : Z)
| Unknown (frame_type : Z) (payload : bytes).

(** [Frame::frame_type]. *)
Definition frame_type (f : Frame) : Z :=
  match f with
  | Data _ => frame_type_code TData
  | Headers _ => frame_type_code THeaders
  | SettingsFrame _ => frame_type_code TSettings
  | Goaway _ => frame_type_code TGoaway
  | MaxPushId _ => frame_type_code TMaxPushId
  | Unknown t _ => t
  end.

Inductive UnknownFrameError := KnownFrameType (t : Z) | Http2OnlyFrameType (t : Z).

(** [UnknownFrame::new]. *)
Definition unknown_frame_new (t : Z) (payload : bytes) : result UnknownFrameError Frame :=
  match from_type t with
  | Some _ => Err (KnownFrameType t)
  | None => if is_http2_only t then Err (Http2OnlyFrameType t) else Ok (Unknown t payload)
  end.

Inductive FrameDecodeError :=
| FrameBufferTooShort
| InvalidLength
| InvalidSetting (e : SettingError)
| Http2Frame (t : Z)
| ServerPushNotSupported (t : Z).

#[export] Instance FrameDecodeError_eq_dec : EqDecision FrameDecodeError.
Proof. solve_decision. Defined.

(** ** Decoder *)
Record FrameHeader := mkFrameHeader { fh_type : Z; payload_len : Z; header_len : Z }.

#[export] Instance FrameHeader_eq_dec : EqDecision FrameHeader.
Proof. solve_decision. Defined.

Definition total_len (h : FrameHeader) : option Z := checked_add (header_len h) (payload_len h).

Definition decode_frame_type (buf : bytes) : option Z := option_map fst (ok (decode buf)).

Definition short {A} (r : result DecodeError A) : result FrameDecodeError A :=
  map_err (fun _ => FrameBufferTooShort) r.
Definition truncated {A} (r : result DecodeError A) : result FrameDecodeError A :=
  map_err (fun _ => InvalidLength) r.

Definition decode_frame_header (buf : bytes) : result FrameDecodeError FrameHeader :=
  if len buf =? 0 then Err FrameBufferTooShort
  else
    '(t, type_len) ← short (decode buf);
    if len buf <? type_len then Err FrameBufferTooShort
    else
      '(l, len_len) ← short (decode (drop_z type_len buf));
      if is_http2_only t then Err (Http2Frame t)
      else Ok (mkFrameHeader t l (type_len + len_len)).

(** The loop of [decode_settings_frame]; a parameter takes at least two bytes, so one
    unit of fuel per byte is enough. *)
Fixpoint decode_settings_loop (fuel : nat) (payload : bytes) (p : SettingsPayload)
    : result FrameDecodeError SettingsPayload :=
  match payload with
  | [] => Ok p
  | _ =>
    match fuel with
    | O => Err InvalidLength
    | S fuel' =>
      '(id, id_len) ← truncated (decode payload);
      '(v, value_len) ← truncated (decode (drop_z id_len payload));
      setting ← map_err InvalidSetting (from_wire id v);
      match payload_add p setting with
      | (p', Ok _) => decode_settings_loop fuel' (drop_z (id_len + value_len) payload) p'
      | (_, Err e) => Err (InvalidSetting e)
      end
    end
  end.
Definition decode_settings_frame (payload : bytes) : result FrameDecodeError Frame :=
  p ← decode_settings_loop (length payload) payload payload_new; Ok (SettingsFrame p).

Definition decode_goaway_frame (payload : bytes) : result FrameDecodeError Frame :=
  '(id, consumed) ← truncated (decode payload);
  if negb (consumed =? len payload) then Err InvalidLength else Ok (Goaway id).

Definition decode_max_push_id_frame (payload : bytes) : result FrameDecodeError Frame :=
  '(id, consumed) ← truncated (decode payload);
  if negb (consumed =? len payload) then Err InvalidLength else Ok (MaxPushId id).

(** The [match] on the type; [UnknownFrame::new(..).expect(..)] never panics
    ([unknown_frame_new_ok]). *)
Definition decode_payload (t : Z) (payload : bytes) : result FrameDecodeError Frame :=
  match from_type t with
  | Some TData => Ok (Data payload)
  | Some THeaders => Ok (Headers payload)
  | Some TSettings => decode_settings_frame payload
  | Some TGoaway => decode_goaway_frame payload
  | Some TMaxPushId => decode_max_push_id_frame payload
  | Some TCancelPush | Some TPushPromise => Err (ServerPushNotSupported t)
  | None => Ok (Unknown t payload)
  end.

Definition decode_frame (buf : bytes) : result FrameDecodeError (Frame * Z) :=
  header ← decode_frame_header buf;
  total ← ok_or (total_len header) InvalidLength;
  if len buf <? total then Err FrameBufferTooShort
  else
    frame ← decode_payload (fh_type header) (drop_z (header_len header) (take_z total buf));
    Ok (frame, total).

(** ** Encoder *)
Definition refuse : writer := fun buf => (buf, None).

Definition encode_frame_header (t l : Z) : writer := fun buf =>
  if len buf <? encoded_len t + encoded_len l then (buf, None)
  else then_write (varint_writer t) (varint_writer l) buf.

Fixpoint settings_payload_total (l : list Setting) (total : Z) : option Z :=
  match l with
  | [] => Some total
  | s :: l' =>
    let '(id, v) := as_wire s in
    total ← checked_add total (encoded_len id);
    total ← checked_add total (encoded_len v);
    settings_payload_total l' total
  end.
Definition encoded_settings_payload_len (p : SettingsPayload) : option Z :=
  total ← settings_payload_total (settings p) 0; ok (varint_new total).

Definition encoded_frame_len (f : Frame) : option Z :=
  '(t, l) ← match f with
    | Data d => l ← ok (varint_new (len d)); Some (frame_type_code TData, l)
    | Headers h => l ← ok (varint_new (len h)); Some (frame_type_code THeaders, l)
    | SettingsFrame p => l ← encoded_settings_payload_len p; Some (frame_type_code TSettings, l)
    | Goaway id => Some (frame_type_code TGoaway, encoded_len id)
    | MaxPushId id => Some (frame_type_code TMaxPushId, encoded_len id)
    | Unknown t p => l ← ok (varint_new (len p)); Some (t, l)
    end;
  checked_add (encoded_len t + encoded_len l) l.

(** The copy of a payload; the length is known to fit when it runs. *)
Definition encode_payload_frame (t : Z) (payload : bytes) : writer :=
  match varint_new (len payload) with
  | Err _ => refuse
  | Ok l => then_write (encode_frame_header t l) (copy_slice payload)
  end.
Definition encode_data_frame (data : bytes) : writer := encode_payload_frame (frame_type_code TData) data.
Definition encode_headers_frame (h : bytes) : writer := encode_payload_frame (frame_type_code THeaders) h.

Definition encode_setting (s : Setting) : writer :=
  let '(id, v) := as_wire s in then_write (varint_writer id) (varint_writer v).
Definition encode_settings_frame (p : SettingsPayload) : writer :=
  match encoded_settings_payload_len p with
  | None => refuse
  | Some l => then_write (encode_frame_header (frame_type_code TSettings) l) (write_each encode_setting (settings p))
  end.
Definition encode_goaway_frame (id : Z) : writer :=
  then_write (encode_frame_header (frame_type_code TGoaway) (encoded_len id)) (varint_writer id).
Definition encode_max_push_id_frame (id : Z) : writer :=
  then_write (encode_frame_header (frame_type_code TMaxPushId) (encoded_len id)) (varint_writer id).
Definition encode_unknown_frame (t : Z) (payload : bytes) : writer :=
  if t =? 0x41 then refuse else encode_payload_frame t payload.

Definition encode_frame (f : Frame) : writer := fun buf =>
  match encoded_frame_len f with
  | None => (buf, None)
  | Some required =>
    if len buf <? required then (buf, None)
    else match f with
      | Data d => encode_data_frame d buf
      | Headers h => encode_headers_frame h buf
      | SettingsFrame p => encode_settings_frame p buf
      | Goaway id => encode_goaway_frame id buf
      | MaxPushId id => encode_max_push_id_frame id buf
      | Unknown t p => encode_unknown_frame t p buf
      end
  end.

(** ** The wire format *)
Definition setting_bytes (s : Setting) : bytes := encode_raw (fst (as_wire s)) ++ encode_raw (snd (as_wire s)).
Definition payload_bytes (f : Frame) : bytes :=
  match f with
  | Data d => d
  | Headers h => h
  | SettingsFrame p => concat (map setting_bytes (settings p))
  | Goaway id | MaxPushId id => encode_raw id
  | Unknown _ p => p
  end.
Definition frame_bytes (f : Frame) : bytes :=
  encode_raw (frame_type f) ++ encode_raw (len (payload_bytes f)) ++ payload_bytes f.

(** What the constructors guarantee. *)
Definition frame_ok (f : Frame) : Prop :=
  match f with
  | Data d => bytes_ok d
  | Headers h => bytes_ok h
  | SettingsFrame p => payload_wf p
  | Goaway id | MaxPushId id => varint_ok id
  | Unknown t p => varint_ok t /\ bytes_ok p /\ from_type t = None /\ is_http2_only t = false
  end.

(** Frames with a length that can be announced, WT_STREAM not being one. *)
Definition frame_encodable (f : Frame) : Prop :=
  frame_ok f /\ len (payload_bytes f) <= VARINT_MAX /\ frame_type f <> 0x41.

Lemma unknown_frame_new_ok t payload :
  varint_ok t -> bytes_ok payload ->
  match unknown_frame_new t payload with
  | Ok f => f = Unknown t payload /\ frame_ok f
  | Err (KnownFrameType u) => u = t /\ is_Some (from_type t)
  | Err (Http2OnlyFrameType u) => u = t /\ is_http2_only t = true
  end.
Proof.
  intros Ht Hp. unfold unknown_frame_new. destruct (from_type t) eqn:E; [by eauto|].
  destruct (is_http2_only t) eqn:E2; [done|]. by split_and!.
Qed.

(** ** Writers *)
Lemma frame_type_ok f : frame_ok f -> varint_ok (frame_type f).
Proof.
  destruct f; cbn; try (intros [? _]; done); intros; unfold varint_ok, VARINT_MAX; lia.
Qed.

#[export] Instance writes_frame_header t l : varint_ok t -> varint_ok l ->
  Writes (encode_frame_header t l) (encode_raw t ++ encode_raw l).
Proof.
  intros Ht Hl. pose proof (writes_varint t Ht). pose proof (writes_varint l Hl).
  assert (Writes (then_write (varint_writer t) (varint_writer l)) (encode_raw t ++ encode_raw l)) as Hw
    by (by apply writes_then).
  split; intros buf Hb; unfold encode_frame_header; rewrite len_app, !len_encode_raw in Hb by done.
  - solve_cmp. apply writes_fit. by rewrite len_app, !len_encode_raw.
  - solve_cmp. by exists buf.
Qed.

#[export] Instance writes_setting s : setting_ok s -> Writes (encode_setting s) (setting_bytes s).
Proof.
  intros (Hi & Hv & _). unfold encode_setting, setting_bytes. destruct (as_wire s).
  apply writes_then; by apply writes_varint.
Qed.

Lemma len_setting_bytes s : setting_ok s ->
  len (setting_bytes s) = encoded_len (fst (as_wire s)) + encoded_len (snd (as_wire s)).
Proof. intros (? & ? & _). unfold setting_bytes. by rewrite len_app, !len_encode_raw. Qed.

Lemma settings_payload_total_spec l total : Forall setting_ok l -> 0 <= total <= U64_MAX ->
  settings_payload_total l total = checked_add total (len (concat (map setting_bytes l))).
Proof.
  intros Hl. revert total. induction Hl as [|s l Hs _ IH]; intros total Ht; cbn [settings_payload_total map concat].
  - unfold checked_add. rewrite len_nil, Z.add_0_r. by solve_cmp.
  - rewrite len_app, (len_setting_bytes s Hs). pose proof (len_nonneg (concat (map setting_bytes l))) as Hn.
    destruct (as_wire s) as [id v]. cbn [fst snd]. pose proof (encoded_len_pos id). pose proof (encoded_len_pos v).
    unfold checked_add in *. destruct (Z.leb_spec (total + encoded_len id) U64_MAX); cbn [mbind option_bind];
      [destruct (Z.leb_spec (total + encoded_len id + encoded_len v) U64_MAX); cbn [mbind option_bind]|].
    + rewrite IH by lia. by rewrite !Z.add_assoc.
    + by solve_cmp.
    + by solve_cmp.
Qed.

Lemma encoded_settings_payload_len_spec p : payload_wf p ->
  len (payload_bytes (SettingsFrame p)) <= VARINT_MAX ->
  encoded_settings_payload_len p = Some (len (payload_bytes (SettingsFrame p))).
Proof.
  intros [_ _ Hs] Hl. unfold encoded_settings_payload_len. cbn [payload_bytes] in *.
  pose proof (len_nonneg (concat (map setting_bytes (settings p)))).
  rewrite settings_payload_total_spec; [|done|unfold U64_MAX; lia].
  unfold checked_add, U64_MAX, VARINT_MAX in *. solve_cmp. cbn [mbind option_bind].
  unfold varint_new, VARINT_MAX. by solve_cmp.
Qed.

Lemma varint_new_ok v : v <= VARINT_MAX -> varint_new v = Ok v.
Proof. intros. unfold varint_new. by solve_cmp. Qed.

Lemma encoded_frame_len_spec f : frame_ok f -> len (payload_bytes f) <= VARINT_MAX ->
  encoded_frame_len f = Some (len (frame_bytes f)).
Proof.
  intros Hf Hl. pose proof (len_nonneg (payload_bytes f)) as Hn.
  pose proof (frame_type_ok f Hf) as Ht.
  assert (encoded_frame_len f = checked_add (encoded_len (frame_type f) + encoded_len (len (payload_bytes f)))
    (len (payload_bytes f))) as ->.
  { unfold encoded_frame_len. destruct f as [d|h|p|id|id|t p]; cbn [payload_bytes frame_type frame_ok] in *.
    - by rewrite varint_new_ok.
    - by rewrite varint_new_ok.
    - by rewrite encoded_settings_payload_len_spec.
    - by rewrite len_encode_raw.
    - by rewrite len_encode_raw.
    - by rewrite varint_new_ok. }
  unfold frame_bytes. rewrite !len_app, !len_encode_raw by (done || by split).
  pose proof (encoded_len_pos (frame_type f)). pose proof (encoded_len_pos (len (payload_bytes f))).
  unfold checked_add, U64_MAX, VARINT_MAX in *. solve_cmp. f_equal. lia.
Qed.

Lemma writes_payload_frame t p : varint_ok t -> len p <= VARINT_MAX ->
  Writes (encode_payload_frame t p) (encode_raw t ++ encode_raw (len p) ++ p).
Proof.
  intros Ht Hl. pose proof (len_nonneg p). unfold encode_payload_frame. rewrite varint_new_ok by done.
  rewrite app_assoc. apply writes_then; [|apply writes_copy_slice].
  by apply writes_frame_header; [|split].
Qed.

#[export] Instance writes_frame f : frame_encodable f -> Writes (encode_frame f) (frame_bytes f).
Proof.
  intros (Hf & Hl & Hne). pose proof (frame_type_ok f Hf) as Ht.
  pose proof (len_nonneg (payload_bytes f)) as Hn.
  assert (exists w, Writes w (frame_bytes f) /\ forall buf, len (frame_bytes f) <= len buf ->
    encode_frame f buf = w buf) as (w & Hw & Heq).
  { unfold encode_frame. rewrite encoded_frame_len_spec by done.
    exists (match f with
      | Data d => encode_data_frame d
      | Headers h => encode_headers_frame h
      | SettingsFrame p => encode_settings_frame p
      | Goaway id => encode_goaway_frame id
      | MaxPushId id => encode_max_push_id_frame id
      | Unknown t p => encode_unknown_frame t p
      end). split.
    2: { intros buf Hb. solve_cmp. by destruct f. }
    destruct f as [d|h|p|id|id|t p]; unfold frame_bytes; cbn [payload_bytes frame_type frame_ok] in *.
    - by apply writes_payload_frame.
    - by apply writes_payload_frame.
    - unfold encode_settings_frame. rewrite encoded_settings_payload_len_spec by done.
      rewrite app_assoc. apply writes_then; [by apply writes_frame_header; [|split]|].
      apply writes_each. intros s Hs. apply writes_setting. destruct Hf as [_ _ Hall].
      rewrite Forall_forall in Hall. by apply Hall.
    - unfold encode_goaway_frame. rewrite app_assoc, len_encode_raw by done.
      apply writes_then; [|by apply writes_varint]. apply writes_frame_header; [done|].
      rewrite <- (len_encode_raw id) by done. by split.
    - unfold encode_max_push_id_frame. rewrite app_assoc, len_encode_raw by done.
      apply writes_then; [|by apply writes_varint]. apply writes_frame_header; [done|].
      rewrite <- (len_encode_raw id) by done. by split.
    - unfold encode_unknown_frame. case_z; [done|]. by apply writes_payload_frame. }
  split; intros buf Hb.
  - rewrite Heq by done. by apply writes_fit.
  - unfold encode_frame. rewrite encoded_frame_len_spec by done. solve_cmp. by exists buf.
Qed.

(** ** Reading frames back *)
Lemma decode_header_bytes t l rest : varint_ok t -> varint_ok l -> is_http2_only t = false ->
  decode_frame_header (encode_raw t ++ encode_raw l ++ rest) =
    Ok (mkFrameHeader t l (len (encode_raw t) + len (encode_raw l))).
Proof.
  intros Ht Hl Hh. pose proof (len_encode_raw t Ht) as Et. pose proof (len_encode_raw l Hl) as El.
  pose proof (encoded_len_pos t). pose proof (encoded_len_pos l). pose proof (len_nonneg rest).
  unfold decode_frame_header. rewrite !len_app. solve_cmp.
  rewrite decode_encode_raw by done. unfold short. cbn [map_err mbind result_bind]. solve_cmp.
  rewrite drop_z_app_eq by done. rewrite decode_encode_raw by done. cbn [map_err mbind result_bind].
  rewrite Hh. by rewrite Et, El.
Qed.

Lemma decode_header_refused t l rest : varint_ok t -> varint_ok l -> is_http2_only t = true ->
  decode_frame_header (encode_raw t ++ encode_raw l ++ rest) = Err (Http2Frame t).
Proof.
  intros Ht Hl Hh. pose proof (len_encode_raw t Ht) as Et.
  pose proof (encoded_len_pos t). pose proof (len_nonneg (encode_raw l)). pose proof (len_nonneg rest).
  unfold decode_frame_header. rewrite !len_app. solve_cmp.
  rewrite decode_encode_raw by done. unfold short. cbn [map_err mbind result_bind]. solve_cmp.
  rewrite drop_z_app_eq by done. rewrite decode_encode_raw by done. cbn [map_err mbind result_bind].
  by rewrite Hh.
Qed.

(** A complete frame is decoded by its type and payload alone. *)
Lemma decode_frame_complete t payload rest : varint_ok t -> len payload <= VARINT_MAX ->
  is_http2_only t = false ->
  decode_frame (encode_raw t ++ encode_raw (len payload) ++ payload ++ rest) =
    (f ← decode_payload t payload; Ok (f, len (encode_raw t) + len (encode_raw (len payload)) + len payload)).
Proof.
  intros Ht Hl Hh. pose proof (len_nonneg payload) as Hn. pose proof (len_nonneg rest).
  assert (varint_ok (len payload)) as Hlen by done.
  unfold decode_frame. rewrite decode_header_bytes by done. cbn [mbind result_bind].
  unfold total_len. cbn [header_len payload_len fh_type].
  set (th := encode_raw t). set (lh := encode_raw (len payload)).
  assert (len th <= 8 /\ len lh <= 8) as [? ?].
  { unfold th, lh. rewrite !len_encode_raw by done.
    pose proof (encoded_len_pos t). pose proof (encoded_len_pos (len payload)). lia. }
  pose proof (len_nonneg th). pose proof (len_nonneg lh).
  unfold checked_add, U64_MAX, VARINT_MAX in *. solve_cmp. cbn [ok_or mbind result_bind].
  rewrite !len_app. solve_cmp.
  replace (drop_z (len th + len lh) (take_z (len th + len lh + len payload)
    (th ++ lh ++ payload ++ rest))) with payload; [done|].
  rewrite !app_assoc. rewrite take_z_app_eq by (rewrite !len_app; lia).
  by rewrite drop_z_app_eq by (rewrite !len_app; lia).
Qed.

(** A well-formed payload is determined by its list. *)
Lemma payload_wf_eq p q : payload_wf p -> payload_wf q -> settings p = settings q -> p = q.
Proof. intros [Hp _ _] [Hq _ _] E. destruct p, q. cbn in *. by subst. Qed.

Lemma decode_settings_loop_bytes l p fuel : payload_wf p -> Forall setting_ok l ->
  NoDup (map setting_id (settings p ++ l)) -> (length (concat (map setting_bytes l)) <= fuel)%nat ->
  exists q, decode_settings_loop fuel (concat (map setting_bytes l)) p = Ok q /\ payload_wf q /\
    settings q = settings p ++ l.
Proof.
  intros Hp Hl. revert p fuel Hp. induction Hl as [|s l Hs _ IH]; intros p fuel Hp Hn Hf; cbn [map concat] in *.
  - exists p. rewrite app_nil_r. by destruct fuel.
  - pose proof Hs as (Hi & Hv & _). pose proof (from_wire_as_wire s Hs) as Hw.
    pose proof (payload_add_spec p s Hp Hs) as Hadd.
    change (setting_bytes s) with (encode_raw (fst (as_wire s)) ++ encode_raw (snd (as_wire s))) in *.
    destruct (as_wire s) as [id v]. cbn [fst snd] in *.
    destruct (encode_raw_head id Hi) as (b & r & Eb & _).
    assert (0 < length (encode_raw id))%nat as Hpos by (rewrite Eb; cbn; lia).
    rewrite <- app_assoc in *. rewrite !length_app in Hf.
    destruct fuel as [|fuel]; [lia|]. cbn [decode_settings_loop].
    pose proof (decode_encode_raw id (encode_raw v ++ concat (map setting_bytes l)) Hi) as Hd.
    destruct (encode_raw id ++ _) as [|c k] eqn:Eck; [by rewrite Eb in Eck|]. rewrite <- Eck in *.
    rewrite Hd. unfold truncated. cbn [map_err mbind result_bind].
    rewrite drop_z_app_eq by (symmetry; by apply len_encode_raw).
    rewrite decode_encode_raw by done. cbn [map_err mbind result_bind]. rewrite Hw. cbn [map_err mbind result_bind].
    destruct (payload_add p s) as [p1 [[]|e]].
    + destruct Hadd as (Hp1 & E1 & _).
      replace (drop_z (encoded_len id + encoded_len v) (encode_raw id ++ encode_raw v ++ concat (map setting_bytes l)))
        with (concat (map setting_bytes l)).
      2: { rewrite app_assoc, drop_z_app_eq; [done|]. by rewrite len_app, !len_encode_raw. }
      destruct (IH p1 fuel Hp1) as (q & -> & Hq & Eq).
      { by rewrite E1, <- app_assoc. }
      { lia. }
      exists q. by rewrite Eq, E1, <- app_assoc.
    + destruct Hadd as (_ & _ & Hin). rewrite map_app in Hn. apply NoDup_app in Hn as (_ & Hn & _).
      exfalso. apply (Hn _ Hin). by left.
Qed.

Lemma decode_settings_frame_bytes p : payload_wf p ->
  decode_settings_frame (payload_bytes (SettingsFrame p)) = Ok (SettingsFrame p).
Proof.
  intros Hp. pose proof Hp as [_ Hn Hs]. unfold decode_settings_frame. cbn [payload_bytes].
  destruct (decode_settings_loop_bytes (settings p) payload_new
    (length (concat (map setting_bytes (settings p))))) as (q & -> & Hq & Eq); [apply payload_new_wf|done..|].
  cbn [mbind result_bind]. by rewrite (payload_wf_eq q p).
Qed.

Lemma decode_payload_bytes f : frame_ok f -> decode_payload (frame_type f) (payload_bytes f) = Ok f.
Proof.
  intros Hf. destruct f as [d|h|p|id|id|t p]; try done; cbn [frame_ok frame_type payload_bytes] in *.
  - by apply decode_settings_frame_bytes.
  - unfold decode_payload. cbn [from_type frame_type_code Z.eqb Pos.eqb].
    unfold decode_goaway_frame. rewrite <- (app_nil_r (encode_raw id)) at 1. rewrite decode_encode_raw by done.
    unfold truncated. cbn [map_err mbind result_bind]. rewrite len_encode_raw, Z.eqb_refl by done. done.
  - unfold decode_payload. cbn [from_type frame_type_code Z.eqb Pos.eqb].
    unfold decode_max_push_id_frame. rewrite <- (app_nil_r (encode_raw id)) at 1. rewrite decode_encode_raw by done.
    unfold truncated. cbn [map_err mbind result_bind]. rewrite len_encode_raw, Z.eqb_refl by done. done.
  - destruct Hf as (_ & _ & Hk & _). unfold decode_payload. by rewrite Hk.
Qed.

Lemma frame_type_not_http2 f : frame_ok f -> is_http2_only (frame_type f) = false.
Proof. destruct f; try done. by intros (_ & _ & _ & ?). Qed.

Lemma decode_frame_bytes f rest : frame_ok f -> len (payload_bytes f) <= VARINT_MAX ->
  decode_frame (frame_bytes f ++ rest) = Ok (f, len (frame_bytes f)).
Proof.
  intros Hf Hl. unfold frame_bytes. rewrite <- !app_assoc.
  rewrite decode_frame_complete by (done || by apply frame_type_ok || by apply frame_type_not_http2).
  rewrite decode_payload_bytes by done. cbn [mbind result_bind]. rewrite !len_app. f_equal. f_equal. lia.
Qed.

(** ** What the decoder accepts *)
Lemma short_Ok {A} (r : result DecodeError A) a : short r = Ok a <-> r = Ok a.
Proof. apply map_err_Ok. Qed.
Lemma truncated_Ok {A} (r : result DecodeError A) a : truncated r = Ok a <-> r = Ok a.
Proof. apply map_err_Ok. Qed.

Lemma decode_frame_header_inv bs h : bytes_ok bs -> decode_frame_header bs = Ok h ->
  varint_ok (fh_type h) /\ varint_ok (payload_len h) /\ is_http2_only (fh_type h) = false /\
  0 < header_len h <= 16 /\ header_len h <= len bs.
Proof.
  intros Hb. unfold decode_frame_header. destruct (Z.eqb_spec (len bs) 0) as [|Hne]; [done|].
  intros ([t n] & Ht%short_Ok & Ho)%result_bind_Ok. pose proof (decode_inv _ _ _ Hb Ht) as (Ht' & Hn & _ & Hc & _).
  case_z in Ho; [done|]. apply result_bind_Ok in Ho as ([l m] & Hl%short_Ok & Ho).
  apply decode_inv in Hl as (Hl' & Hm & _ & Hd & _); [|auto with bytes]. rewrite len_drop in Hm by lia.
  destruct (is_http2_only t) eqn:E; [done|]. injection Ho as <-. cbn.
  assert (n <= 8 /\ m <= 8) by (set_unfold in Hc; set_unfold in Hd; lia). split_and!; try done; lia.
Qed.

Lemma decode_frame_header_stable bs tail : bytes_ok bs ->
  decode_frame_header bs <> Err FrameBufferTooShort ->
  decode_frame_header (bs ++ tail) = decode_frame_header bs.
Proof.
  intros Hb. unfold decode_frame_header. pose proof (len_nonneg tail). pose proof (len_nonneg bs).
  destruct (Z.eqb_spec (len bs) 0) as [|Hz]; [done|]. rewrite len_app. solve_cmp.
  destruct (decode bs) as [[t n]|[]] eqn:Ed; [|done].
  pose proof (decode_inv _ _ _ Hb Ed) as (_ & Hn & _ & _ & _ & Happ). rewrite Happ.
  unfold short. cbn [map_err mbind result_bind]. solve_cmp.
  rewrite drop_z_app_le by lia.
  destruct (decode (drop_z n bs)) as [[l m]|[]] eqn:El; [|done].
  apply decode_inv in El as (_ & _ & _ & _ & _ & Happ'); [|auto with bytes]. by rewrite Happ'.
Qed.

Lemma decode_settings_loop_inv fuel payload p q : bytes_ok payload -> payload_wf p ->
  decode_settings_loop fuel payload p = Ok q -> payload_wf q.
Proof.
  revert payload p. induction fuel as [|fuel IH]; intros [|b payload] p Hb Hp; cbn [decode_settings_loop];
    [by intros [= <-]|done|by intros [= <-]|].
  intros ([id n] & Hi%truncated_Ok & Ho)%result_bind_Ok. apply decode_inv in Hi as (Hid & _); [|done].
  apply result_bind_Ok in Ho as ([v m] & Hv%truncated_Ok & Ho). apply decode_inv in Hv as (Hv & _); [|auto with bytes].
  apply result_bind_Ok in Ho as (s & Hs%map_err_Ok & Ho). apply from_wire_inv in Hs as [Hs _]; [|done..].
  pose proof (payload_add_spec p s Hp Hs) as Hadd. destruct (payload_add p s) as [p1 [|e]]; [|done].
  destruct Hadd as (Hp1 & _). apply IH in Ho; auto with bytes.
Qed.

Lemma decode_payload_inv t payload f : varint_ok t -> bytes_ok payload -> is_http2_only t = false ->
  decode_payload t payload = Ok f -> frame_ok f /\ frame_type f = t.
Proof.
  intros Ht Hb Hh. unfold decode_payload, from_type.
  repeat (match goal with |- context [if t =? ?x then _ else _] => destruct (Z.eqb_spec t x) as [->|?Hne] end).
  - by intros [= <-].
  - by intros [= <-].
  - done.
  - unfold decode_settings_frame. intros (p & Hp & [= <-])%result_bind_Ok.
    apply decode_settings_loop_inv in Hp; [done|done|apply payload_new_wf].
  - done.
  - unfold decode_goaway_frame. intros ([id n] & Hd%truncated_Ok & Ho)%result_bind_Ok.
    apply decode_inv in Hd as (? & _); [|done]. destruct (negb _); [done|]. by injection Ho as <-.
  - unfold decode_max_push_id_frame. intros ([id n] & Hd%truncated_Ok & Ho)%result_bind_Ok.
    apply decode_inv in Hd as (? & _); [|done]. destruct (negb _); [done|]. by injection Ho as <-.
  - intros [= <-]. split; [|done]. split_and!; try done.
    unfold from_type. repeat match goal with H : t <> ?x |- _ => rewrite (proj2 (Z.eqb_neq t x) H); clear H end. done.
Qed.

Lemma total_len_inv h total : total_len h = Some total -> total = header_len h + payload_len h.
Proof. unfold total_len, checked_add. case_z; [by intros [= <-]|done]. Qed.

Lemma decode_frame_inv bs f n : bytes_ok bs -> decode_frame bs = Ok (f, n) ->
  frame_ok f /\ 0 < n <= len bs.
Proof.
  intros Hb (h & Hh & Ho)%result_bind_Ok. apply decode_frame_header_inv in Hh as (Ht & Hl & Hn & Hp & Hle); [|done].
  apply result_bind_Ok in Ho as (total & Htot%ok_or_Ok%total_len_inv & Ho).
  case_z in Ho; [done|]. apply result_bind_Ok in Ho as (f' & Hf & [= <- <-]).
  apply decode_payload_inv in Hf as [? _]; [|done|auto with bytes|done].
  unfold varint_ok in Hl. split; [done|]. lia.
Qed.

Lemma decode_frame_stable bs tail : bytes_ok bs -> decode_frame bs <> Err FrameBufferTooShort ->
  decode_frame (bs ++ tail) = decode_frame bs.
Proof.
  intros Hb Hne. unfold decode_frame in *. destruct (decode_frame_header bs) as [h|e] eqn:Eh.
  - rewrite decode_frame_header_stable, Eh by (done || by rewrite Eh). cbn [mbind result_bind] in *.
    destruct (total_len h) as [total|] eqn:Et; [|done]. cbn [ok_or mbind result_bind] in *.
    revert Hne. case_z; [done|]. intros _. rewrite len_app. pose proof (len_nonneg tail). solve_cmp.
    by rewrite take_z_app_le by lia.
  - rewrite decode_frame_header_stable; [by rewrite Eh|done|]. rewrite Eh. by intros [= ->].
Qed.

#[export] Instance frame_prefix_code :
  PrefixCode frame_bytes decode_frame
    (fun f => frame_ok f /\ len (payload_bytes f) <= VARINT_MAX) FrameBufferTooShort.
Proof.
  split.
  - intros f rest [? ?]. by apply decode_frame_bytes.
  - intros bs f n Hb H. by apply decode_frame_inv in H as [_ ?].
  - intros. by apply decode_frame_stable.
Qed.

(** ** Properties *)

(** C38. Frames round trip through the slice encoder: a frame is written exactly when
    the buffer holds [encoded_frame_len] bytes, the rest of the buffer is untouched,
    and decoding the written bytes, whatever follows them, gives the frame back and
    the number of bytes that were written. *)
Theorem frame_roundtrip f buf tail : frame_encodable f ->
  exists n, encoded_frame_len f = Some n /\
    (len buf < n -> snd (encode_frame f buf) = None) /\
    (n <= len buf -> exists bs, encode_frame f buf = (bs ++ drop_z n buf, Some n) /\ len bs = n /\
       decode_frame (bs ++ tail) = Ok (f, n)).
Proof.
  intros Hf. pose proof Hf as (Hok & Hl & _). pose proof (writes_frame f Hf). exists (len (frame_bytes f)).
  split; [by apply encoded_frame_len_spec|]. split.
  - intros Hb. destruct (writes_short (w := encode_frame f) (bs := frame_bytes f) buf Hb) as (b & -> & _). done.
  - intros Hb. exists (frame_bytes f). rewrite (writes_fit (w := encode_frame f) (bs := frame_bytes f)) by done.
    split_and!; [done..|]. by apply decode_frame_bytes.
Qed.

(** C39. What the decoder accepts is a valid frame, found within the input: its length is
    positive and within the bytes given, no reserved or known type hides in an unknown
    frame, a SETTINGS payload has no identifier twice, and bytes that arrive later do
    not change the outcome unless it was "buffer too short". *)
Theorem decode_frame_sound bs : bytes_ok bs ->
  (forall f n, decode_frame bs = Ok (f, n) -> frame_ok f /\ 0 < n <= len bs) /\
  (forall tail, decode_frame bs <> Err FrameBufferTooShort -> decode_frame (bs ++ tail) = decode_frame bs).
Proof.
  intros Hb. split; [intros f n; by apply decode_frame_inv|intros tail; by apply decode_frame_stable].
Qed.

(** Frames that must not be used are refused by their type: an HTTP/2 frame type as
    soon as the frame header is complete, CANCEL_PUSH and PUSH_PROMISE once their payload
    has arrived; GOAWAY and MAX_PUSH_ID payloads that are not exactly one integer are
    malformed. *)
Theorem frame_refusals t payload rest : varint_ok t -> bytes_ok payload -> bytes_ok rest ->
  len payload <= VARINT_MAX ->
  let bs := encode_raw t ++ encode_raw (len payload) ++ payload ++ rest in
  (is_http2_only t = true ->
    decode_frame (encode_raw t ++ encode_raw (len payload)) = Err (Http2Frame t) /\
    decode_frame bs = Err (Http2Frame t)) /\
  (t = 0x03 \/ t = 0x05 -> decode_frame bs = Err (ServerPushNotSupported t)) /\
  (t = 0x07 \/ t = 0x0d -> (forall v, decode payload <> Ok (v, len payload)) ->
    decode_frame bs = Err InvalidLength).
Proof.
  intros Ht Hp Hr Hl. cbn zeta. pose proof (len_nonneg payload) as Hn.
  assert (varint_ok (len payload)) as Hlen by done. split.
  - intros Hh. assert (decode_frame_header (encode_raw t ++ encode_raw (len payload)) = Err (Http2Frame t)) as E.
    { rewrite <- (app_nil_r (encode_raw (len payload))). by apply decode_header_refused. }
    assert (decode_frame (encode_raw t ++ encode_raw (len payload)) = Err (Http2Frame t)) as E2
      by (unfold decode_frame; by rewrite E).
    split; [done|]. rewrite app_assoc, decode_frame_stable, E2; [done|auto with bytes|by rewrite E2].
  - assert (is_http2_only t = false -> decode_frame (encode_raw t ++ encode_raw (len payload) ++ payload ++ rest) =
      (f ← decode_payload t payload; Ok (f, len (encode_raw t) + len (encode_raw (len payload)) + len payload))) as Hd
      by (intros; by apply decode_frame_complete).
    split.
    + intros Hpush. rewrite Hd by (by destruct Hpush as [-> | ->]). by destruct Hpush as [-> | ->].
    + intros Hid Hbad. rewrite Hd by (by destruct Hid as [-> | ->]).
      assert (forall (k : Z -> Frame), ('(id, consumed) ← truncated (decode payload);
        if negb (consumed =? len payload) then Err InvalidLength else Ok (k id)) = Err InvalidLength) as Hk.
      { intros k. destruct (decode payload) as [[v n]|]; [|done]. unfold truncated. cbn [map_err mbind result_bind].
        destruct (Z.eqb_spec n (len payload)) as [->|]; [|done]. by destruct (Hbad v). }
      destruct Hid as [-> | ->]; cbn [decode_payload from_type Z.eqb Pos.eqb];
        unfold decode_goaway_frame, decode_max_push_id_frame; by rewrite Hk.
Qed.

(** [encoded_frame_len] promises a length for an unknown frame of type 0x41, which
    [encode_frame] never writes, although its comment says that callers allocate by it
    and that it therefore returns no untrue length. *)
Theorem encoded_frame_len_wt_stream :
  encoded_frame_len (Unknown 0x41 [1; 2]) = Some 5 /\
  snd (encode_frame (Unknown 0x41 [1; 2]) (replicate 5 0)) = None /\ frame_ok (Unknown 0x41 [1; 2]).
Proof.
  split_and!; [vm_compute; reflexivity..|]. split_and!; [|by repeat constructor|done|done].
  unfold varint_ok, VARINT_MAX. lia.
Qed.

Definition sample_frame : Frame :=
  SettingsFrame (mkPayload [QpackMaxTableCapacity 4096; H3Datagram true; UnknownSetting 0x21 0]
    (list_to_set [ID_QPACK_MAX_TABLE_CAPACITY; ID_H3_DATAGRAM; 0x21])).

Lemma frame_roundtrip_witness :
  exists bs, encode_frame sample_frame (replicate 20 9) = (bs ++ drop_z 9 (replicate 20 9), Some 9) /\
    decode_frame (bs ++ [1; 2; 3]) = Ok (sample_frame, 9).
Proof.
  destruct (frame_roundtrip sample_frame (replicate 20 9) [1; 2; 3]) as (n & Hn & _ & Hw).
  - split; [|split; [vm_compute; discriminate|vm_compute; discriminate]]. split.
    + vm_compute. reflexivity.
    + apply (bool_decide_unpack _). vm_compute. exact I.
    + repeat constructor; vm_compute; discriminate.
  - vm_compute in Hn. injection Hn as <-. destruct Hw as (bs & E & _ & Hd); [vm_compute; discriminate|].
    exists bs. split; [exact E|exact Hd].
Defined.

Lemma decode_frame_sound_witness :
  decode_frame ([0x07; 0x01; 0x08] ++ [0xff; 0x03]) = Ok (Goaway 8, 3) /\ frame_ok (Goaway 8).
Proof.
  destruct (decode_frame_sound [0x07; 0x01; 0x08]) as [S H]; [by repeat constructor|].
  split; [|exact (proj1 (S (Goaway 8) 3 eq_refl))].
  rewrite H by (vm_compute; discriminate). reflexivity.
Defined.

Lemma frame_refusals_witness :
  decode_frame [0x06; 0x02] = Err (Http2Frame 0x06) /\
  decode_frame [0x05; 0x01; 0x00; 0xff] = Err (ServerPushNotSupported 0x05).
Proof.
  split.
  - destruct (frame_refusals 0x06 [0; 0] []) as (H & _);
      [vm_compute; split; discriminate|by repeat constructor|constructor|vm_compute; discriminate|].
    apply H. reflexivity.
  - destruct (frame_refusals 0x05 [0] [0xff]) as (_ & H & _);
      [vm_compute; split; discriminate|by repeat constructor|by repeat constructor|vm_compute; discriminate|].
    apply H. by right.
Defined.
