(* ===== verification/Error.v ===== *)
(** error.rs: the HTTP/3 error codes (RFC 9114 Section 8.1) and the error type of the
    crate. [FrameDecodeError] and [QpackError] are in [Frame] and [Integer]. *)

From S2P Require Import Prelude Integer Frame.

Inductive ErrorCode :=
| NoError | GeneralProtocolError | InternalError | StreamCreationError | ClosedCriticalStream
| FrameUnexpected | FrameError | ExcessiveLoad | IdError | SettingsError | MissingSettings
| RequestRejected | RequestCancelled | RequestIncomplete | MessageError
| QpackDecompressionFailed | QpackEncoderStreamError | QpackDecoderStreamError | H3DatagramError.

#[export] Instance ErrorCode_eq_dec : EqDecision ErrorCode.
Proof. solve_decision. Defined.

(** The discriminants of the [#[repr(u64)]] enum. *)
Definition error_code (c : ErrorCode) : Z :=
  match c with
  | NoError => 0x100 | GeneralProtocolError => 0x101 | InternalError => 0x102
  | StreamCreationError => 0x103 | ClosedCriticalStream => 0x104 | FrameUnexpected => 0x105
  | FrameError => 0x106 | ExcessiveLoad => 0x107 | IdError => 0x108 | SettingsError => 0x109
  | MissingSettings => 0x10a | RequestRejected => 0x10b | RequestCancelled => 0x10c
  | RequestIncomplete => 0x10d | MessageError => 0x10e | QpackDecompressionFailed => 0x200
  | QpackEncoderStreamError => 0x201 | QpackDecoderStreamError => 0x202 | H3DatagramError => 0x33
  end.

Definition from_code (code : Z) : option ErrorCode :=
  if code =? 0x100 then Some NoError
  else if code =? 0x101 then Some GeneralProtocolError
  else if code =? 0x102 then Some InternalError
  else if code =? 0x103 then Some StreamCreationError
  else if code =? 0x104 then Some ClosedCriticalStream
  else if code =? 0x105 then Some FrameUnexpected
  else if code =? 0x106 then Some FrameError
  else if code =? 0x107 then Some ExcessiveLoad
  else if code =? 0x108 then Some IdError
  else if code =? 0x109 then Some SettingsError
  else if code =? 0x10a then Some MissingSettings
  else if code =? 0x10b then Some RequestRejected
  else if code =? 0x10c then Some RequestCancelled
  else if code =? 0x10d then Some RequestIncomplete
  else if code =? 0x10e then Some MessageError
  else if code =? 0x200 then Some QpackDecompressionFailed
  else if code =? 0x201 then Some QpackEncoderStreamError
  else if code =? 0x202 then Some QpackDecoderStreamError
  else if code =? 0x33 then Some H3DatagramError
  else None.

Inductive WtSetupError :=
| PeerSettingsNotReceived | WebTransportNotEnabled | UnknownDraftVersion
| EnableConnectProtocolMissing | H3DatagramNotEnabled | TransportNotVerified
| ResetStreamAtNotSupported | ProtocolMismatch.

#[export] Instance WtSetupError_eq_dec : EqDecision WtSetupError.
Proof. solve_decision. Defined.

(** The two wrapping variants are named after what they wrap. *)
Inductive Error :=
| ConnectionError (c : ErrorCode)
| StreamError (c : ErrorCode)
| StreamNotFound (id : Z)
| StreamClosed (id : Z)
| FrameDecode (e : FrameDecodeError)
| Qpack (e : QpackError)
| WtSessionDraining (id : Z)
| WtSetup (e : WtSetupError).

#[export] Instance Error_eq_dec : EqDecision Error.
Proof. solve_decision. Defined.

(** The codes and the enum are in bijection. *)
Lemma from_code_code c : from_code (error_code c) = Some c.
Proof. by destruct c. Qed.

Lemma from_code_Some code c : from_code code = Some c -> error_code c = code.
Proof.
  unfold from_code.
  repeat (case_match; [intros [= <-]; symmetry; by apply Z.eqb_eq|]). done.
Qed.
