(* ===== verification/Stream.v ===== *)
(** stream/mod.rs: stream types and kinds, the state of a stream's two directions, and
    the send and receive buffers. Both buffers implement a byte queue; the interface
    [ByteQueue] is what the control and the request stream rely on. *)

From S2P Require Import Prelude.

(** [Role] of connection/mod.rs. *)
Inductive Role := Client | Server.

#[export] Instance Role_eq_dec : EqDecision Role.
Proof. solve_decision. Defined.

(** ** Unidirectional stream types (RFC 9114 Section 6.2) *)
Inductive UniStreamType := UniControl | UniPush | UniQpackEncoder | UniQpackDecoder | UniWebTransport.

Definition uni_type_code (t : UniStreamType) : Z :=
  match t with
  | UniControl => 0x00 | UniPush => 0x01 | UniQpackEncoder => 0x02 | UniQpackDecoder => 0x03
  | UniWebTransport => 0x54
  end.

Definition uni_from_type (t : Z) : option UniStreamType :=
  if t =? 0x00 then Some UniControl
  else if t =? 0x01 then Some UniPush
  else if t =? 0x02 then Some UniQpackEncoder
  else if t =? 0x03 then Some UniQpackDecoder
  else if t =? 0x54 then Some UniWebTransport
  else None.

Definition is_reserved (t : Z) : bool := (0x21 <=? t) && ((t - 0x21) mod 0x1f =? 0).

(** ** Stream kinds: the two low bits of the stream id *)
Inductive StreamKind := ClientBidi | ServerBidi | ClientUni | ServerUni.

#[export] Instance StreamKind_eq_dec : EqDecision StreamKind.
Proof. solve_decision. Defined.

(** [None] is the [unreachable!()] of the source. *)
Definition from_stream_id (stream_id : Z) : option StreamKind :=
  let k := Z.land stream_id 0x03 in
  if k =? 0x00 then Some ClientBidi
  else if k =? 0x01 then Some ServerBidi
  else if k =? 0x02 then Some ClientUni
  else if k =? 0x03 then Some ServerUni
  else None.

Definition is_bidirectional (k : StreamKind) : bool :=
  match k with ClientBidi | ServerBidi => true | _ => false end.
Definition is_unidirectional (k : StreamKind) : bool :=
  match k with ClientUni | ServerUni => true | _ => false end.
Definition is_client_initiated (k : StreamKind) : bool :=
  match k with ClientBidi | ClientUni => true | _ => false end.
Definition is_server_initiated (k : StreamKind) : bool :=
  match k with ServerBidi | ServerUni => true | _ => false end.

(** ** The state of the two directions *)
Inductive StreamState := Open | LocalClosed | RemoteClosed | Closed | Reset.

#[export] Instance StreamState_eq_dec : EqDecision StreamState.
Proof. solve_decision. Defined.

Definition close_local (s : StreamState) : StreamState :=
  match s with Open => LocalClosed | RemoteClosed => Closed | other => other end.
Definition close_remote (s : StreamState) : StreamState :=
  match s with Open => RemoteClosed | LocalClosed => Closed | other => other end.
Definition reset (s : StreamState) : StreamState := Reset.
Definition is_reset (s : StreamState) : bool := match s with Reset => true | _ => false end.
Definition can_send (s : StreamState) : bool :=
  match s with Open | RemoteClosed => true | _ => false end.
Definition can_receive (s : StreamState) : bool :=
  match s with Open | LocalClosed => true | _ => false end.

(** ** Buffers: the bytes, how many of them are used up, and the FIN flags *)
Record SendBuffer := mkSendBuffer {
  send_data : bytes; send_consumed : Z; send_fin : bool; send_fin_sent : bool }.
Record RecvBuffer := mkRecvBuffer { recv_data : bytes; recv_consumed : Z; recv_fin : bool }.

(** [consume] of both buffers: used bytes are dropped once they are half of what is
    stored. [Vec::drain] panics ([None]) when it is asked for more than there is. *)
Definition drain_half (data : bytes) (consumed : Z) : option (bytes * Z) :=
  if len data / 2 <=? consumed
  then if len data <? consumed then None else Some (drop_z consumed data, 0)
  else Some (data, consumed).

Definition send_new : SendBuffer := mkSendBuffer [] 0 false false.
Definition send_push (b : SendBuffer) (data : bytes) : SendBuffer :=
  mkSendBuffer (send_data b ++ data) (send_consumed b) (send_fin b) (send_fin_sent b).
Definition send_set_fin (b : SendBuffer) : SendBuffer :=
  mkSendBuffer (send_data b) (send_consumed b) true (send_fin_sent b).
Definition send_peek (b : SendBuffer) : bytes := drop_z (send_consumed b) (send_data b).
Definition send_consume (b : SendBuffer) (n : Z) : option SendBuffer :=
  '(data, consumed) ← drain_half (send_data b) (send_consumed b + n);
  Some (mkSendBuffer data consumed (send_fin b) (send_fin_sent b)).
Definition send_discard (b : SendBuffer) : SendBuffer := mkSendBuffer [] 0 false false.
Definition send_has_pending (b : SendBuffer) : bool :=
  (send_consumed b <? len (send_data b)) || (send_fin b && negb (send_fin_sent b)).
Definition is_data_consumed (b : SendBuffer) : bool := len (send_data b) <=? send_consumed b.
Definition send_mark_fin_sent (b : SendBuffer) : SendBuffer :=
  mkSendBuffer (send_data b) (send_consumed b) (send_fin b) true.
Definition send_is_complete (b : SendBuffer) : bool :=
  (len (send_data b) <=? send_consumed b) && send_fin b && send_fin_sent b.

Definition recv_new : RecvBuffer := mkRecvBuffer [] 0 false.
Definition recv_push (b : RecvBuffer) (data : bytes) : RecvBuffer :=
  mkRecvBuffer (recv_data b ++ data) (recv_consumed b) (recv_fin b).
Definition recv_set_fin (b : RecvBuffer) : RecvBuffer :=
  mkRecvBuffer (recv_data b) (recv_consumed b) true.
Definition recv_peek (b : RecvBuffer) : bytes := drop_z (recv_consumed b) (recv_data b).
Definition recv_consume (b : RecvBuffer) (n : Z) : option RecvBuffer :=
  '(data, consumed) ← drain_half (recv_data b) (recv_consumed b + n);
  Some (mkRecvBuffer data consumed (recv_fin b)).
Definition has_data (b : RecvBuffer) : bool := recv_consumed b <? len (recv_data b).
Definition recv_is_complete (b : RecvBuffer) : bool := negb (has_data b) && recv_fin b.

(** ** The byte queue behind both buffers *)
Class ByteQueue (B : Type) := {
  q_new : B;
  q_push : B -> bytes -> B;
  q_consume : B -> Z -> option B;
  q_peek : B -> bytes;
  q_stored : B -> Z;
  q_wf : B -> Prop }.

(** Pushing appends, consuming drops from the front and panics exactly when it asks for
    more than is there; what is stored is at most twice what is pending. *)
Class ByteQueueLaws (B : Type) `{ByteQueue B} : Prop := {
  q_new_wf : q_wf q_new;
  q_new_peek : q_peek q_new = [];
  q_push_wf b data : q_wf b -> q_wf (q_push b data);
  q_push_peek b data : q_wf b -> q_peek (q_push b data) = q_peek b ++ data;
  q_consume_fits b n : q_wf b -> 0 <= n <= len (q_peek b) ->
    exists b', q_consume b n = Some b' /\ q_wf b' /\ q_peek b' = drop_z n (q_peek b);
  q_consume_panics b n : q_wf b -> len (q_peek b) < n -> q_consume b n = None;
  q_stored_bound b : q_wf b -> q_stored b <= 2 * len (q_peek b) }.

(** [consumed] is 0 or less than half of the stored bytes. *)
Definition offset_ok (data : bytes) (consumed : Z) : Prop :=
  consumed = 0 \/ 0 < consumed < len data / 2.

#[export] Instance send_queue : ByteQueue SendBuffer := {|
  q_new := send_new; q_push := send_push; q_consume := send_consume; q_peek := send_peek;
  q_stored b := len (send_data b); q_wf b := offset_ok (send_data b) (send_consumed b) |}.
#[export] Instance recv_queue : ByteQueue RecvBuffer := {|
  q_new := recv_new; q_push := recv_push; q_consume := recv_consume; q_peek := recv_peek;
  q_stored b := len (recv_data b); q_wf b := offset_ok (recv_data b) (recv_consumed b) |}.

Lemma offset_ok_range data consumed : offset_ok data consumed -> 0 <= consumed <= len data.
Proof. unfold offset_ok. pose proof (len_nonneg data). Z.div_mod_to_equations. lia. Qed.

Lemma offset_ok_app data consumed more : offset_ok data consumed -> offset_ok (data ++ more) consumed.
Proof. unfold offset_ok. rewrite len_app. pose proof (len_nonneg more). Z.div_mod_to_equations. lia. Qed.

Lemma drain_half_fits data consumed n : offset_ok data consumed ->
  0 <= n <= len data - consumed ->
  exists data' consumed', drain_half data (consumed + n) = Some (data', consumed') /\
    offset_ok data' consumed' /\ drop_z consumed' data' = drop_z n (drop_z consumed data).
Proof.
  intros Hw Hn. pose proof (offset_ok_range _ _ Hw). unfold drain_half.
  destruct (Z.leb_spec (len data / 2) (consumed + n)).
  - solve_cmp. exists (drop_z (consumed + n) data), 0. split; [done|]. split; [by left|].
    rewrite drop_z_0. symmetry. apply drop_z_drop_z; lia.
  - exists data, (consumed + n). split; [done|]. split; [unfold offset_ok; lia|].
    symmetry. apply drop_z_drop_z; lia.
Qed.

Lemma drain_half_panics data consumed : len data < consumed -> drain_half data consumed = None.
Proof.
  intros. unfold drain_half. pose proof (len_nonneg data).
  assert (len data / 2 <= consumed) by (Z.div_mod_to_equations; lia). by solve_cmp.
Qed.

Lemma stored_bound data consumed : offset_ok data consumed ->
  len data <= 2 * len (drop_z consumed data).
Proof.
  intros Hw. pose proof (offset_ok_range _ _ Hw). rewrite len_drop by lia.
  unfold offset_ok in Hw. Z.div_mod_to_equations. lia.
Qed.

(** Both instances satisfy the laws for the same reasons. *)
Ltac byte_queue :=
  split; cbn -[len drop_z]; rewrite ?drop_z_0;
  [ by left | done
  | intros b data; apply offset_ok_app
  | intros b data Hw; pose proof (offset_ok_range _ _ Hw); apply drop_z_app_le; lia
  | intros b n Hw Hn; pose proof (offset_ok_range _ _ Hw); rewrite len_drop in Hn by lia;
    destruct (drain_half_fits _ _ n Hw Hn) as (d & c & E & Hw' & Hd); rewrite E; by eexists
  | intros b n Hw Hn; pose proof (offset_ok_range _ _ Hw); rewrite len_drop in Hn by lia;
    by rewrite drain_half_panics by lia
  | intros b; apply stored_bound ].

#[export] Instance send_queue_laws : ByteQueueLaws SendBuffer.
Proof. unfold send_queue, send_push, send_consume, send_peek, send_new. byte_queue. Qed.
#[export] Instance recv_queue_laws : ByteQueueLaws RecvBuffer.
Proof. unfold recv_queue, recv_push, recv_consume, recv_peek, recv_new. byte_queue. Qed.

(** ** Runs of a queue *)
Inductive queue_op := Push (data : bytes) | Consume (n : Z).

(** What was consumed in all, and the queue afterwards; [None] when a call panics. *)
Fixpoint run_queue {B} `{ByteQueue B} (ops : list queue_op) (b : B) (out : bytes) : option (bytes * B) :=
  match ops with
  | [] => Some (out, b)
  | Push data :: ops => run_queue ops (q_push b data) out
  | Consume n :: ops => b' ← q_consume b n; run_queue ops b' (out ++ take_z n (q_peek b))
  end.

(** The same operations on a plain byte string. *)
Fixpoint run_bytes (ops : list queue_op) (pending out : bytes) : option (bytes * bytes) :=
  match ops with
  | [] => Some (out, pending)
  | Push data :: ops => run_bytes ops (pending ++ data) out
  | Consume n :: ops =>
    if len pending <? n then None else run_bytes ops (drop_z n pending) (out ++ take_z n pending)
  end.

Definition op_ok (o : queue_op) : Prop := match o with Push _ => True | Consume n => 0 <= n end.

Lemma run_queue_bytes {B} `{ByteQueueLaws B} ops (b : B) out :
  Forall op_ok ops -> q_wf b ->
  match run_queue ops b out with
  | Some (out', b') => q_wf b' /\ run_bytes ops (q_peek b) out = Some (out', q_peek b')
  | None => run_bytes ops (q_peek b) out = None
  end.
Proof.
  intros Hops. revert b out. induction Hops as [|[data|n] ops Ho _ IH]; intros b out Hw; cbn [run_queue run_bytes];
    [done| |].
  - rewrite <- q_push_peek by done. apply IH. by apply q_push_wf.
  - cbn in Ho. case_z; [by rewrite q_consume_panics by done|].
    destruct (q_consume_fits b n) as (b' & -> & Hw' & <-); [done|lia|]. cbn [mbind option_bind]. by apply IH.
Qed.

Lemma run_bytes_fifo ops pending out out' pending' : Forall op_ok ops ->
  run_bytes ops pending out = Some (out', pending') ->
  out' ++ pending' = out ++ pending ++
    concat (map (fun o => match o with Push data => data | Consume _ => [] end) ops).
Proof.
  intros Hops. revert pending out. induction Hops as [|[data|n] ops Ho _ IH]; intros pending out; cbn [run_bytes map concat].
  - intros [= <- <-]. by rewrite app_nil_r.
  - intros E%IH. by rewrite E, <- !app_assoc.
  - case_z; [done|]. intros E%IH. rewrite E, <- !app_assoc. f_equal. rewrite app_assoc. by rewrite take_drop_z.
Qed.

(** What a buffer promises for a sequence of calls on a new one. *)
Definition queue_contract {B} `{ByteQueue B} (ops : list queue_op) : Prop :=
  match run_queue ops (q_new : B) [] with
  | Some (out, b) =>
    run_bytes ops [] [] = Some (out, q_peek b) /\ q_stored b <= 2 * len (q_peek b) /\
    out ++ q_peek b = concat (map (fun o => match o with Push data => data | Consume _ => [] end) ops)
  | None => run_bytes ops [] [] = None
  end.

Lemma queue_contract_holds {B} `{ByteQueueLaws B} ops : Forall op_ok ops -> queue_contract (B := B) ops.
Proof.
  intros Hops. unfold queue_contract. pose proof (run_queue_bytes ops (q_new : B) [] Hops q_new_wf) as Hr.
  rewrite q_new_peek in Hr. destruct (run_queue ops q_new []) as [[out b]|]; [|done]. destruct Hr as [Hw Hr].
  split_and!; [done|by apply q_stored_bound|]. by rewrite (run_bytes_fifo _ _ _ _ _ Hops Hr).
Qed.

(** ** Properties *)

(** Both stream buffers refine a plain byte queue: for every sequence of pushes and
    consumes, a run panics exactly when some call consumes more than is pending, and
    otherwise the consumed bytes followed by the pending ones are the pushed bytes in
    order; a buffer never stores more than twice what is still pending. *)
Theorem buffers_refine_queue ops : Forall op_ok ops ->
  queue_contract (B := SendBuffer) ops /\ queue_contract (B := RecvBuffer) ops.
Proof. split; by apply queue_contract_holds. Qed.

Lemma buffers_refine_queue_witness :
  run_queue [Push [1; 2; 3; 4; 5]; Consume 1; Push [6]; Consume 3] (q_new : SendBuffer) [] =
    Some ([1; 2; 3; 4], mkSendBuffer [5; 6] 0 false false) /\
  queue_contract (B := SendBuffer) [Push [1; 2; 3; 4; 5]; Consume 1; Push [6]; Consume 3].
Proof.
  split; [reflexivity|].
  apply (buffers_refine_queue [Push [1; 2; 3; 4; 5]; Consume 1; Push [6]; Consume 3]).
  repeat (apply List.Forall_cons; [cbn; lia|]). constructor.
Defined.
