(* ===== verification/WtStream.v ===== *)
(** webtransport/stream.rs: the headers of WebTransport streams, the classification of
    unidirectional streams, and the byte counters of a stream. *)

From S2P Require Import Prelude Codec Varint Frame.

Definition UNIDIRECTIONAL_STREAM_TYPE : Z := 0x54.
Definition BIDIRECTIONAL_SIGNAL_VALUE : Z := 0x41.

Definition is_wt_stream_frame_type (buf : bytes) : bool :=
  match decode_frame_type buf with Some t => t =? BIDIRECTIONAL_SIGNAL_VALUE | None => false end.

(** [decode_varint]: [None] when the buffer is too short. *)
Definition decode_varint (buf : bytes) : option (Z * Z) := ok (decode buf).

Record StreamHeader := mkStreamHeader { session_id : Z }.

Inductive StreamHeaderDecodeError :=
| HeaderBufferTooShort | InvalidFormat | InvalidSessionId | SessionIdOutOfRange.

#[export] Instance StreamHeaderDecodeError_eq_dec : EqDecision StreamHeaderDecodeError.
Proof. solve_decision. Defined.

Definition stream_header_new (session_id : Z) : result StreamHeaderDecodeError StreamHeader :=
  match varint_new session_id with
  | Err _ => Err SessionIdOutOfRange
  | Ok _ =>
    if negb (session_id mod 4 =? 0) then Err InvalidSessionId else Ok (mkStreamHeader session_id)
  end.

(** [session_id_to_varint] panics ([None]) on a value that is no varint; a header that
    [new] or a decoder returned holds a varint. *)
Definition session_id_to_varint (session_id : Z) : option Z := ok (varint_new session_id).

Definition encode_stream_header (type : Z) (buf : bytes) (h : StreamHeader) : option bytes :=
  v ← session_id_to_varint (session_id h);
  Some (encode_into_vec (encode_into_vec buf type) v).
Definition encode_unidirectional (buf : bytes) (h : StreamHeader) : option bytes :=
  encode_stream_header UNIDIRECTIONAL_STREAM_TYPE buf h.
Definition encode_bidirectional (buf : bytes) (h : StreamHeader) : option bytes :=
  encode_stream_header BIDIRECTIONAL_SIGNAL_VALUE buf h.

(** The two checked decoders differ in the type they expect. *)
Definition decode_stream_header (type : Z) (buf : bytes) : result StreamHeaderDecodeError (StreamHeader * Z) :=
  '(stream_type, n) ← ok_or (decode_varint buf) HeaderBufferTooShort;
  if negb (stream_type =? type) then Err InvalidFormat
  else
    '(id, m) ← ok_or (decode_varint (drop_z n buf)) HeaderBufferTooShort;
    if negb (id mod 4 =? 0) then Err InvalidSessionId else Ok (mkStreamHeader id, n + m).
Definition decode_unidirectional_checked (buf : bytes) := decode_stream_header UNIDIRECTIONAL_STREAM_TYPE buf.
Definition decode_bidirectional_checked (buf : bytes) := decode_stream_header BIDIRECTIONAL_SIGNAL_VALUE buf.
Definition decode_unidirectional (buf : bytes) : option (StreamHeader * Z) := ok (decode_unidirectional_checked buf).
Definition decode_bidirectional (buf : bytes) : option (StreamHeader * Z) := ok (decode_bidirectional_checked buf).

Definition encoded_size (h : StreamHeader) : option Z :=
  v ← session_id_to_varint (session_id h);
  Some (encoded_len BIDIRECTIONAL_SIGNAL_VALUE + encoded_len v).

(** ** The counters of an open stream *)
Record WtStream := mkWtStream {
  ws_stream_id : Z; ws_session_id : Z; ws_bidirectional : bool; bytes_sent : Z; bytes_received : Z }.

Definition wt_stream_new (stream_id session_id : Z) (bidirectional : bool) : WtStream :=
  mkWtStream stream_id session_id bidirectional 0 0.
Definition add_bytes_sent (s : WtStream) (n : Z) : WtStream :=
  mkWtStream (ws_stream_id s) (ws_session_id s) (ws_bidirectional s)
    (saturating_add (bytes_sent s) n) (bytes_received s).
Definition add_bytes_received (s : WtStream) (n : Z) : WtStream :=
  mkWtStream (ws_stream_id s) (ws_session_id s) (ws_bidirectional s)
    (bytes_sent s) (saturating_add (bytes_received s) n).

(** ** Classification *)
Inductive ClassifiedUniStream :=
| WebTransportUni (session_id data_offset : Z)
| Http3Uni (stream_type data_offset : Z).

Definition classify_uni_stream_checked (buf : bytes) : result StreamHeaderDecodeError ClassifiedUniStream :=
  '(stream_type, type_len) ← ok_or (ok (decode buf)) HeaderBufferTooShort;
  if stream_type =? UNIDIRECTIONAL_STREAM_TYPE then
    '(id, id_len) ← ok_or (ok (decode (drop_z type_len buf))) HeaderBufferTooShort;
    if negb (id mod 4 =? 0) then Err InvalidSessionId
    else Ok (WebTransportUni id (type_len + id_len))
  else Ok (Http3Uni stream_type type_len).

Definition id_is_client_initiated (stream_id : Z) : bool := Z.land stream_id 0x01 =? 0.
Definition id_is_server_initiated (stream_id : Z) : bool := negb (Z.land stream_id 0x01 =? 0).
Definition id_is_bidirectional (stream_id : Z) : bool := Z.land stream_id 0x02 =? 0.
Definition id_is_unidirectional (stream_id : Z) : bool := negb (Z.land stream_id 0x02 =? 0).

(** ** Specification *)
Definition header_valid (h : StreamHeader) : Prop := varint_ok (session_id h) /\ session_id h mod 4 = 0.

Definition stream_header_bytes (type : Z) (h : StreamHeader) : bytes :=
  encode_raw type ++ encode_raw (session_id h).

Definition wt_stream_type (type : Z) : Prop :=
  type = UNIDIRECTIONAL_STREAM_TYPE \/ type = BIDIRECTIONAL_SIGNAL_VALUE.

Lemma wt_stream_type_ok type : wt_stream_type type -> varint_ok type.
Proof. by intros [-> | ->]. Qed.

Lemma varint_new_Ok v w : 0 <= v -> varint_new v = Ok w <-> v = w /\ varint_ok v.
Proof. intros. unfold varint_new, varint_ok. case_z; naive_solver lia. Qed.

Lemma stream_header_new_spec id h : 0 <= id ->
  stream_header_new id = Ok h <-> h = mkStreamHeader id /\ header_valid h.
Proof.
  intros. unfold stream_header_new, header_valid, varint_new, varint_ok.
  case_z; [naive_solver lia|]. case_z; naive_solver lia.
Qed.

Lemma encode_stream_header_spec type buf h : wt_stream_type type -> header_valid h ->
  encode_stream_header type buf h = Some (buf ++ stream_header_bytes type h).
Proof.
  intros Ht%wt_stream_type_ok [Hv _]. unfold encode_stream_header, session_id_to_varint, varint_new.
  unfold varint_ok in Hv. solve_cmp. cbn [ok mbind option_bind].
  by rewrite !encode_into_vec_app, <- app_assoc.
Qed.

Lemma decode_stream_header_stable type bs tail : bytes_ok bs ->
  decode_stream_header type bs <> Err HeaderBufferTooShort ->
  decode_stream_header type (bs ++ tail) = decode_stream_header type bs.
Proof.
  intros Hb. unfold decode_stream_header, decode_varint.
  destruct (decode bs) as [[t n]|] eqn:E; [|done].
  pose proof (decode_inv _ _ _ Hb E) as (_ & Hn & _ & _ & _ & ->). cbn [ok ok_or mbind result_bind].
  destruct (negb _); [done|]. rewrite drop_z_app_le by lia.
  destruct (decode (drop_z n bs)) as [[id m]|] eqn:E2; [|done].
  by apply decode_inv in E2 as (_ & _ & _ & _ & _ & ->); [|auto with bytes].
Qed.

#[export] Instance stream_header_prefix_code type : wt_stream_type type ->
  PrefixCode (stream_header_bytes type) (decode_stream_header type) header_valid HeaderBufferTooShort.
Proof.
  intros Ht. split.
  - intros h rest [Hv Hm]. unfold decode_stream_header, decode_varint, stream_header_bytes.
    rewrite <- app_assoc, decode_encode_raw by by apply wt_stream_type_ok.
    cbn [ok ok_or mbind result_bind]. rewrite Z.eqb_refl. cbn [negb].
    rewrite <- len_encode_raw, drop_z_app_len, decode_encode_raw by (done || by apply wt_stream_type_ok).
    cbn [ok ok_or mbind result_bind]. rewrite Hm. cbn [negb Z.eqb].
    rewrite len_app, <- len_encode_raw by done. by destruct h.
  - intros bs h n Hb. unfold decode_stream_header, decode_varint.
    destruct (decode bs) as [[t k]|] eqn:E; [|done]. apply decode_inv in E as (_ & Hk & _); [|done].
    cbn [ok ok_or mbind result_bind]. destruct (negb _); [done|].
    destruct (decode (drop_z k bs)) as [[id m]|] eqn:E2; [|done].
    apply decode_inv in E2 as (_ & Hm & _); [|auto with bytes]. rewrite len_drop in Hm by lia.
    cbn [ok ok_or mbind result_bind]. destruct (negb _); [done|]. intros [= _ <-]. lia.
  - intros. by apply decode_stream_header_stable.
Qed.

Lemma classify_spec buf :
  classify_uni_stream_checked buf =
  match decode_unidirectional_checked buf with
  | Ok (h, n) => Ok (WebTransportUni (session_id h) n)
  | Err InvalidFormat =>
    match decode buf with Ok (t, n) => Ok (Http3Uni t n) | Err _ => Err HeaderBufferTooShort end
  | Err e => Err e
  end.
Proof.
  unfold classify_uni_stream_checked, decode_unidirectional_checked, decode_stream_header, decode_varint.
  destruct (decode buf) as [[t n]|]; [|done]. cbn [ok ok_or mbind result_bind].
  destruct (Z.eqb_spec t UNIDIRECTIONAL_STREAM_TYPE); cbn [negb]; [|done].
  destruct (decode (drop_z n buf)) as [[id m]|]; [|done]. cbn [ok ok_or mbind result_bind].
  by destruct (negb _).
Qed.

(** ** Properties *)

(** WebTransport stream headers round trip: [new] accepts exactly the client-initiated
    bidirectional stream ids in range, and the header it returns encodes without a panic,
    for either kind of stream, to [encoded_size] bytes that decode to the same header
    and that, on a unidirectional stream, are classified as WebTransport with the data
    right behind them. *)
Theorem stream_header_roundtrip id h rest : 0 <= id -> stream_header_new id = Ok h ->
  (id <= VARINT_MAX /\ id mod 4 = 0 /\ session_id h = id) /\
  exists ub bb, encode_unidirectional [] h = Some ub /\ encode_bidirectional [] h = Some bb /\
    encoded_size h = Some (len ub) /\ encoded_size h = Some (len bb) /\
    decode_unidirectional_checked (ub ++ rest) = Ok (h, len ub) /\
    decode_bidirectional_checked (bb ++ rest) = Ok (h, len bb) /\
    classify_uni_stream_checked (ub ++ rest) = Ok (WebTransportUni id (len ub)).
Proof.
  intros Hid (-> & Hv)%stream_header_new_spec; [|done]. split; [unfold header_valid, varint_ok in Hv; cbn in *; lia|].
  pose proof (stream_header_prefix_code UNIDIRECTIONAL_STREAM_TYPE ltac:(by left)) as Hu.
  pose proof (stream_header_prefix_code BIDIRECTIONAL_SIGNAL_VALUE ltac:(by right)) as Hb.
  exists (stream_header_bytes UNIDIRECTIONAL_STREAM_TYPE (mkStreamHeader id)),
    (stream_header_bytes BIDIRECTIONAL_SIGNAL_VALUE (mkStreamHeader id)).
  assert (forall t, wt_stream_type t -> encoded_size (mkStreamHeader id) = Some (len (stream_header_bytes t (mkStreamHeader id)))) as Hs.
  { intros t Ht. destruct Hv as [Hv _]. cbn in Hv. unfold encoded_size, session_id_to_varint, varint_new. cbn [session_id].
    unfold varint_ok in Hv. solve_cmp. cbn [ok mbind option_bind]. unfold stream_header_bytes.
    rewrite len_app, !len_encode_raw by (done || by apply wt_stream_type_ok). by destruct Ht as [-> | ->]. }
  split_and!; [apply encode_stream_header_spec; [by left|done] |apply encode_stream_header_spec; [by right|done]
    |apply Hs; by left|apply Hs; by right|by apply (@pc_decode _ _ _ _ _ _ Hu)|by apply (@pc_decode _ _ _ _ _ _ Hb)|].
  rewrite classify_spec. unfold decode_unidirectional_checked.
  by rewrite (@pc_decode _ _ _ _ _ _ Hu _ rest Hv).
Qed.

Lemma stream_header_roundtrip_witness :
  decode_bidirectional_checked ([0x40; 0x41; 0x08] ++ [7]) = Ok (mkStreamHeader 8, 3) /\
  encoded_size (mkStreamHeader 8) = Some 3.
Proof.
  destruct (stream_header_roundtrip 8 (mkStreamHeader 8) [7]) as (_ & ub & bb & Eu & Eb & _ & Hs & _ & Hd & _);
    [lia|reflexivity|].
  vm_compute in Eb. injection Eb as <-. split; [exact Hd|exact Hs].
Defined.
