(* ===== verification/FrameStream.v ===== *)
(** What the control and the request stream share: queueing one frame, and reading the
    frame at the front of a receive buffer. *)

From S2P Require Import Prelude Codec Varint Settings Frame Error WtStream.

(** [encoded_frame_len], a buffer of that length, [encode_frame]; [None] is a panic of
    one of the two [expect]s. *)
Definition frame_to_vec (f : Frame) : option bytes :=
  frame_len ← encoded_frame_len f;
  match encode_frame f (replicate (Z.to_nat frame_len) 0) with
  | (buf, Some _) => Some buf
  | (_, None) => None
  end.

(** Both [process] functions read a frame alike: [wt] is the error for a WT_STREAM frame
    type where it is refused, [settings] the one for a SETTINGS frame that is refused by
    its type alone, [decode_err] how an error of [decode_frame] is reported. [Err None]
    stands for a frame that is not complete yet. *)
Definition read_frame (wt settings : option Error) (decode_err : FrameDecodeError -> Error) (data : bytes)
    : result (option Error) (Frame * Z) :=
  match (if is_wt_stream_frame_type data then wt else None) with
  | Some e => Err (Some e)
  | None =>
    match decode_frame_header data with
    | Err FrameBufferTooShort => Err None
    | Err (Http2Frame _) => Err (Some (ConnectionError FrameUnexpected))
    | Err InvalidLength => Err (Some (ConnectionError FrameError))
    | Err e => Err (Some (FrameDecode e))
    | Ok header =>
      match total_len header with
      | None => Err (Some (ConnectionError FrameError))
      | Some total_len =>
        if len data <? total_len then Err None
        else
          match (if fh_type header =? 0x04 then settings else None) with
          | Some e => Err (Some e)
          | None => map_err (fun e => Some (decode_err e)) (decode_frame data)
          end
      end
    end
  end.

(** ** Queueing *)
Lemma frame_to_vec_spec f : frame_encodable f -> frame_to_vec f = Some (frame_bytes f).
Proof.
  intros Hf. pose proof Hf as (Hok & Hl & _). pose proof (writes_frame f Hf).
  unfold frame_to_vec. rewrite encoded_frame_len_spec by done. cbn [mbind option_bind].
  rewrite (writes_fit (w := encode_frame f) (bs := frame_bytes f)) by (rewrite len_replicate, len_to_nat; done).
  rewrite drop_z_all by (rewrite len_replicate, len_to_nat; done). by rewrite app_nil_r.
Qed.

Lemma payload_bytes_ok f : frame_ok f -> bytes_ok (payload_bytes f).
Proof.
  destruct f as [d|h|p|id|id|t p]; cbn; try done; try (intros; auto with bytes; fail).
  - intros [_ _ Hs]. apply Forall_concat, Forall_map. apply (Forall_impl _ _ _ Hs).
    intros s _. unfold setting_bytes. auto with bytes.
  - by intros (_ & ? & _).
Qed.

Lemma frame_bytes_ok f : frame_ok f -> bytes_ok (frame_bytes f).
Proof.
  intros Hf. unfold frame_bytes. pose proof (payload_bytes_ok f Hf). rewrite !bytes_ok_app. auto using encode_raw_ok.
Qed.

(** The SETTINGS frame of an endpoint always fits. *)
Lemma settings_frame_encodable s p : settings_ok s -> from_settings s = Some p ->
  frame_encodable (SettingsFrame p).
Proof.
  intros Hs Hp. destruct (from_settings_spec s Hs) as (p' & Hp' & Hw & _). rewrite Hp in Hp'. injection Hp' as <-.
  pose proof (from_settings_length s p Hs Hp) as Hl. pose proof Hw as [_ _ Hok]. split_and!; [done| |done].
  assert (len (payload_bytes (SettingsFrame p)) <= 16 * len (settings p)).
  { cbn [payload_bytes]. clear -Hok. induction Hok as [|x l Hx _ IH]; [done|]. cbn [map concat].
    rewrite len_app, len_cons, len_setting_bytes by done.
    pose proof (encoded_len_pos (fst (as_wire x))). pose proof (encoded_len_pos (snd (as_wire x))). lia. }
  unfold VARINT_MAX. lia.
Qed.

Lemma goaway_encodable id : varint_ok id -> frame_encodable (Goaway id).
Proof.
  intros Hid. split_and!; [done| |done]. cbn [payload_bytes]. rewrite len_encode_raw by done.
  pose proof (encoded_len_pos id). unfold VARINT_MAX. lia.
Qed.

(** ** Reading *)
Lemma is_wt_stream_frame_type_encoded t rest : varint_ok t ->
  is_wt_stream_frame_type (encode_raw t ++ rest) = (t =? 0x41).
Proof.
  intros Ht. unfold is_wt_stream_frame_type, decode_frame_type. by rewrite decode_encode_raw.
Qed.

Section read_frame.
Context (wt settings : option Error) (decode_err : FrameDecodeError -> Error).
Notation read := (read_frame wt settings decode_err).

Lemma read_frame_nil : read [] = Err None.
Proof using. done. Qed.

Lemma read_frame_decode bs f n : read bs = Ok (f, n) -> decode_frame bs = Ok (f, n).
Proof using.
  unfold read_frame. destruct (if is_wt_stream_frame_type bs then wt else None); [done|].
  destruct (decode_frame_header bs) as [h|[]]; try done. destruct (total_len h); [|done].
  case_z; [done|]. destruct (if fh_type h =? 4 then settings else None); [done|]. by rewrite map_err_Ok.
Qed.

Lemma read_frame_consumed bs f n : bytes_ok bs -> read bs = Ok (f, n) -> 0 < n <= len bs.
Proof using. intros Hb H%read_frame_decode. by apply decode_frame_inv in H as [_ ?]. Qed.

Lemma is_wt_stream_frame_type_true bs tail : bytes_ok bs -> is_wt_stream_frame_type bs = true ->
  is_wt_stream_frame_type (bs ++ tail) = true.
Proof using.
  intros Hb. unfold is_wt_stream_frame_type, decode_frame_type.
  destruct (decode bs) as [[t n]|] eqn:E; [|done]. by apply decode_inv in E as (_ & _ & _ & _ & _ & ->).
Qed.

Lemma is_wt_stream_frame_type_stable bs tail : bytes_ok bs -> decode_frame_header bs <> Err FrameBufferTooShort ->
  is_wt_stream_frame_type (bs ++ tail) = is_wt_stream_frame_type bs.
Proof using.
  intros Hb Hne. unfold is_wt_stream_frame_type, decode_frame_type.
  destruct (decode bs) as [[t n]|] eqn:E.
  - by apply decode_inv in E as (_ & _ & _ & _ & _ & ->).
  - destruct Hne. unfold decode_frame_header. rewrite E. by destruct (len bs =? 0).
Qed.

(** A frame that is there as a whole does not depend on what follows it. *)
Lemma decode_frame_whole bs tail h t : bytes_ok bs -> decode_frame_header bs = Ok h ->
  total_len h = Some t -> t <= len bs -> decode_frame (bs ++ tail) = decode_frame bs.
Proof using.
  intros Hb Eh Et Hl. unfold decode_frame. rewrite decode_frame_header_stable, Eh by (done || by rewrite Eh).
  cbn [mbind result_bind]. rewrite Et. cbn [ok_or mbind result_bind]. rewrite len_app.
  pose proof (len_nonneg tail). solve_cmp. by rewrite take_z_app_le by lia.
Qed.

Lemma read_frame_stable bs tail : bytes_ok bs -> read bs <> Err None -> read (bs ++ tail) = read bs.
Proof using.
  intros Hb. unfold read_frame. destruct (decide (decode_frame_header bs = Err FrameBufferTooShort)) as [E|Hne].
  - rewrite E. destruct (is_wt_stream_frame_type bs) eqn:Ew; [|done]. rewrite is_wt_stream_frame_type_true by done.
    by destruct wt.
  - rewrite is_wt_stream_frame_type_stable, decode_frame_header_stable by done.
    destruct (if is_wt_stream_frame_type bs then wt else None); [done|].
    destruct (decode_frame_header bs) as [h|e] eqn:Eh; [|done].
    destruct (total_len h) as [t|] eqn:Et; [|done]. case_z; [done|]. intros _.
    rewrite len_app. pose proof (len_nonneg tail). solve_cmp.
    destruct (if fh_type h =? 4 then settings else None); [done|]. f_equal. by eapply decode_frame_whole.
Qed.

(** Frames the reader is to let pass. *)
Definition frame_readable (f : Frame) : Prop :=
  frame_ok f /\ len (payload_bytes f) <= VARINT_MAX /\
  (wt <> None -> frame_type f <> 0x41) /\ (settings <> None -> frame_type f <> 0x04).

Lemma read_frame_bytes f rest : frame_readable f ->
  read (frame_bytes f ++ rest) = Ok (f, len (frame_bytes f)).
Proof using.
  intros (Hok & Hl & Hwt & Hs). pose proof (decode_frame_bytes f rest Hok Hl) as Hd.
  pose proof (frame_type_ok f Hok) as Ht. pose proof (len_nonneg (payload_bytes f)).
  unfold read_frame, frame_bytes. rewrite <- !app_assoc.
  rewrite is_wt_stream_frame_type_encoded by done.
  replace (if frame_type f =? 0x41 then wt else None) with (@None Error).
  2: { destruct wt; [|by destruct (_ =? _)]. destruct (Z.eqb_spec (frame_type f) 0x41); [|done]. by destruct Hwt. }
  rewrite decode_header_bytes by (done || by apply frame_type_not_http2).
  unfold total_len, checked_add. cbn [header_len payload_len fh_type].
  pose proof (encoded_len_pos (frame_type f)). pose proof (encoded_len_pos (len (payload_bytes f))).
  rewrite <- !len_encode_raw in * by done. unfold U64_MAX, VARINT_MAX in *.
  pose proof (len_nonneg rest). solve_cmp. rewrite !len_app. solve_cmp.
  replace (if frame_type f =? 4 then settings else None) with (@None Error).
  2: { destruct settings; [|by destruct (_ =? _)]. destruct (Z.eqb_spec (frame_type f) 4); [|done]. by destruct Hs. }
  unfold frame_bytes in Hd. rewrite <- !app_assoc in Hd. rewrite Hd. by rewrite !len_app.
Qed.

Lemma read_frame_settings e p rest : settings = Some e -> frame_encodable (SettingsFrame p) ->
  read (frame_bytes (SettingsFrame p) ++ rest) = Err (Some e).
Proof using.
  intros Es (Hok & Hl & _). pose proof (len_nonneg (payload_bytes (SettingsFrame p))).
  unfold read_frame, frame_bytes. rewrite <- !app_assoc. cbn [frame_type] in *.
  rewrite is_wt_stream_frame_type_encoded by done. cbn [Z.eqb Pos.eqb].
  rewrite decode_header_bytes by done.
  unfold total_len, checked_add. cbn [header_len payload_len fh_type].
  pose proof (encoded_len_pos (frame_type (SettingsFrame p))). pose proof (encoded_len_pos (len (payload_bytes (SettingsFrame p)))).
  rewrite <- !len_encode_raw in * by done. unfold U64_MAX, VARINT_MAX in *. cbn [frame_type] in *.
  pose proof (len_nonneg rest). solve_cmp. rewrite Es.
  by destruct wt.
Qed.
End read_frame.
