(* ===== verification/ControlStream.v ===== *)
(** stream/control.rs: the sending and the receiving half of the control stream
    (RFC 9114 Section 6.2.1). *)

From S2P Require Import Prelude Codec Incremental Varint Settings Frame Error Stream WtStream FrameStream.

(** ** Sending *)
Inductive ControlSendState := SendInitial | SendReady.

Record ControlStreamSend := mkControlSend {
  cs_stream_id : option Z; cs_send_buf : SendBuffer; cs_send_state : ControlSendState }.

Definition control_send_new : ControlStreamSend := mkControlSend None send_new SendInitial.
Definition control_send_set_stream_id (c : ControlStreamSend) (id : Z) : ControlStreamSend :=
  mkControlSend (Some id) (cs_send_buf c) (cs_send_state c).

(** [None] is a panic: settings with a repeated identifier, or a frame that does not fit. *)
Definition send_settings (c : ControlStreamSend) (s : Settings) : option ControlStreamSend :=
  match cs_send_state c with
  | SendReady => Some c
  | SendInitial =>
    payload ← from_settings s;
    frame ← frame_to_vec (SettingsFrame payload);
    Some (mkControlSend (cs_stream_id c) (send_push (cs_send_buf c) (0x00 :: frame)) SendReady)
  end.

Definition send_goaway (c : ControlStreamSend) (id : Z) : option (ControlStreamSend * result Error unit) :=
  match cs_send_state c with
  | SendInitial => Some (c, Err (ConnectionError ClosedCriticalStream))
  | SendReady =>
    frame ← frame_to_vec (Goaway id);
    Some (mkControlSend (cs_stream_id c) (send_push (cs_send_buf c) frame) SendReady, Ok ())
  end.

Definition control_get_data (c : ControlStreamSend) : bytes := send_peek (cs_send_buf c).
Definition control_consume_data (c : ControlStreamSend) (n : Z) : option ControlStreamSend :=
  b ← send_consume (cs_send_buf c) n; Some (mkControlSend (cs_stream_id c) b (cs_send_state c)).
Definition control_has_pending (c : ControlStreamSend) : bool := send_has_pending (cs_send_buf c).

(** ** Receiving *)
Inductive ControlRecvState := WaitingType | WaitingSettings | RecvReady.

#[export] Instance ControlRecvState_eq_dec : EqDecision ControlRecvState.
Proof. solve_decision. Defined.

Record ControlStreamRecv := mkControlRecv {
  cr_stream_id : option Z; cr_recv_buf : RecvBuffer; cr_recv_state : ControlRecvState }.

Definition control_recv_new : ControlStreamRecv := mkControlRecv None recv_new WaitingType.
Definition control_recv_set_stream_id (c : ControlStreamRecv) (id : Z) : ControlStreamRecv :=
  mkControlRecv (Some id) (cr_recv_buf c) (cr_recv_state c).
Definition with_recv_state (c : ControlStreamRecv) (st : ControlRecvState) : ControlStreamRecv :=
  mkControlRecv (cr_stream_id c) (cr_recv_buf c) st.
Definition skip_stream_type (c : ControlStreamRecv) : ControlStreamRecv :=
  match cr_recv_state c with WaitingType => with_recv_state c WaitingSettings | _ => c end.
Definition control_receive (c : ControlStreamRecv) (data : bytes) : ControlStreamRecv :=
  mkControlRecv (cr_stream_id c) (recv_push (cr_recv_buf c) data) (cr_recv_state c).
Definition has_pending_data (c : ControlStreamRecv) : bool :=
  match recv_peek (cr_recv_buf c) with [] => false | _ => true end.
Definition control_consume (c : ControlStreamRecv) (n : Z) : option ControlStreamRecv :=
  b ← recv_consume (cr_recv_buf c) n; Some (mkControlRecv (cr_stream_id c) b (cr_recv_state c)).

(** How an error of [decode_frame] ends the connection. *)
Definition control_decode_error (e : FrameDecodeError) : Error :=
  match e with
  | ServerPushNotSupported _ => ConnectionError FrameUnexpected
  | InvalidSetting _ => ConnectionError SettingsError
  | InvalidLength => ConnectionError FrameError
  | other => FrameDecode other
  end.

Definition control_wt_error (st : ControlRecvState) : ErrorCode :=
  match st with WaitingSettings => MissingSettings | _ => FrameUnexpected end.

(** [process]. The outer [None] is a panic (or fuel that ran out: the loop goes round at
    most twice, since only the stream type is passed over). *)
Fixpoint control_loop (fuel : nat) (c : ControlStreamRecv)
    : option (ControlStreamRecv * result Error (option Frame)) :=
  match fuel with
  | O => None
  | S fuel =>
    let data := recv_peek (cr_recv_buf c) in
    match data with
    | [] => Some (c, Ok None)
    | first :: _ =>
      match cr_recv_state c with
      | WaitingType =>
        if negb (first =? 0x00) then Some (c, Err (ConnectionError StreamCreationError))
        else
          c ← control_consume c 1;
          control_loop fuel (with_recv_state c WaitingSettings)
      | st =>
        match read_frame (Some (ConnectionError (control_wt_error st))) None control_decode_error data with
        | Err None => Some (c, Ok None)
        | Err (Some e) => Some (c, Err e)
        | Ok (frame, consumed) =>
          c ← control_consume c consumed;
          match st, frame with
          | WaitingSettings, SettingsFrame _ => Some (with_recv_state c RecvReady, Ok (Some frame))
          | WaitingSettings, _ => Some (c, Err (ConnectionError MissingSettings))
          | _, (SettingsFrame _ | Data _ | Headers _) => Some (c, Err (ConnectionError FrameUnexpected))
          | _, _ => Some (c, Ok (Some frame))
          end
        end
      end
    end
  end.
Definition control_process (c : ControlStreamRecv) : option (ControlStreamRecv * result Error (option Frame)) :=
  control_loop 2 c.

(** [Connection] receives a chunk and calls [process] until it returns nothing. *)
Definition control_receive_chunks (chunks : list bytes) (c : ControlStreamRecv) :=
  receive_chunks control_process control_receive (fun c => recv_peek (cr_recv_buf c)) chunks c.

(** ** The receiver as an incremental reader *)

(** Items are the type byte ([None]) and the frames. *)
Definition parse_control (st : ControlRecvState) (data : bytes) : result (option Error) (option Frame * Z) :=
  match st with
  | WaitingType =>
    match data with
    | [] => Err None
    | first :: _ => if negb (first =? 0x00) then Err (Some (ConnectionError StreamCreationError)) else Ok (None, 1)
    end
  | _ =>
    '(f, n) ← read_frame (Some (ConnectionError (control_wt_error st))) None control_decode_error data;
    Ok (Some f, n)
  end.

(** What a frame may be next. *)
Definition control_refuses (st : ControlRecvState) (f : Frame) : option ErrorCode :=
  match st, f with
  | WaitingSettings, SettingsFrame _ => None
  | WaitingSettings, _ => Some MissingSettings
  | _, (SettingsFrame _ | Data _ | Headers _) => Some FrameUnexpected
  | _, _ => None
  end.

Definition next_state (st : ControlRecvState) : ControlRecvState :=
  match st with WaitingSettings => RecvReady | _ => st end.

Definition apply_control (i : option Frame) (st : ControlRecvState)
    : ControlRecvState * bool * option (option Error) :=
  match i with
  | None => (WaitingSettings, true, None)
  | Some f =>
    match control_refuses st f with
    | Some code => (st, true, Some (Some (ConnectionError code)))
    | None => (next_state st, true, None)
    end
  end.

Definition control_rep (c : ControlStreamRecv) (buf : bytes) (st : ControlRecvState) : Prop :=
  q_wf (cr_recv_buf c) /\ recv_peek (cr_recv_buf c) = buf /\ cr_recv_state c = st.

Lemma control_consume_spec c buf st n : control_rep c buf st -> 0 <= n <= len buf ->
  exists c', control_consume c n = Some c' /\ forall st', control_rep (with_recv_state c' st') (drop_z n buf) st'.
Proof.
  intros (Hw & <- & Hs) Hn.
  destruct (q_consume_fits (cr_recv_buf c) n Hw Hn) as (b & Hb & Hw' & Hp). cbn [q_consume recv_queue] in Hb.
  unfold control_consume. rewrite Hb. eexists. split; [done|]. by intros st'.
Qed.

Lemma with_recv_state_id c : with_recv_state c (cr_recv_state c) = c.
Proof. by destruct c. Qed.

Lemma parse_control_nil st : parse_control st [] = Err None.
Proof. by destruct st. Qed.

Lemma parse_control_consumed st bs i n : bytes_ok bs -> parse_control st bs = Ok (i, n) -> 0 < n <= len bs.
Proof.
  intros Hb. unfold parse_control. destruct st.
  - destruct bs as [|first r]; [done|]. destruct (negb _); [done|]. intros [= _ <-].
    rewrite len_cons. pose proof (len_nonneg r). lia.
  - intros ([f m] & Hr & [= <- <-])%result_bind_Ok. by eapply read_frame_consumed.
  - intros ([f m] & Hr & [= <- <-])%result_bind_Ok. by eapply read_frame_consumed.
Qed.

Lemma parse_control_stable st bs tail : bytes_ok bs -> parse_control st bs <> Err None ->
  parse_control st (bs ++ tail) = parse_control st bs.
Proof.
  intros Hb. unfold parse_control. destruct st; [by destruct bs| |].
  all: intros Hne; rewrite read_frame_stable; [done|done|]; intros E; by rewrite E in Hne.
Qed.

Lemma apply_control_consumes i st st' b : apply_control i st = (st', b, None) -> b = true.
Proof. unfold apply_control. destruct i as [f|]; [destruct (control_refuses st f)|]; naive_solver. Qed.

(** One round of the loop on a frame. *)
Lemma control_loop_frame fuel c buf st : control_rep c buf st -> bytes_ok buf -> st <> WaitingType ->
  exists c' buf' st' r, control_loop (S fuel) c = Some (c', r) /\ control_rep c' buf' st' /\
    forall k, run_next parse_control None apply_control id k buf st = (buf', st', map_err Some r).
Proof.
  intros Hr Hb Hst. pose proof Hr as (Hw & Hp & Hs). cbn [control_loop]. rewrite Hp, Hs.
  destruct buf as [|first rest] eqn:Ebuf.
  { exists c, [], st, (Ok None). split_and!; try done. intros k. destruct k; by destruct st. }
  rewrite <- Ebuf in *.
  assert (forall k, run_next parse_control None apply_control id k buf st =
    match read_frame (Some (ConnectionError (control_wt_error st))) None control_decode_error buf with
    | Ok (f, n) =>
      (drop_z n buf, match control_refuses st f with Some _ => st | None => RecvReady end,
       match control_refuses st f with Some code => Err (Some (ConnectionError code)) | None => Ok (Some f) end)
    | Err None => (buf, st, Ok None)
    | Err e => (buf, st, Err e)
    end) as Hn.
  { intros k. destruct k; cbn [run_next]; unfold run_step, parse_control; destruct st; try done.
    all: destruct (read_frame _ _ _ _) as [[f n]|[e|]]; try done.
    all: cbn [mbind result_bind]; unfold apply_control; by destruct (control_refuses _ f). }
  assert (forall n, 0 <= n <= len buf -> exists c', control_consume c n = Some c' /\ cr_recv_state c' = st /\
    forall st', control_rep (with_recv_state c' st') (drop_z n buf) st') as Hc.
  { intros n Hn'. destruct (control_consume_spec c buf st n Hr Hn') as (c' & E & H). exists c'. split_and!; [done| |done].
    revert E. unfold control_consume. by destruct (recv_consume _ _); [intros [= <-]|]. }
  destruct st; [done| |]; destruct (read_frame _ _ _ buf) as [[f n]|[e|]] eqn:Ef;
    try (eexists _, _, _, _; by split_and!).
  - apply read_frame_consumed in Ef; [|done]. destruct (Hc n ltac:(lia)) as (c' & -> & Es & Hr').
    pose proof (Hr' WaitingSettings) as Hid. rewrite <- Es, with_recv_state_id in Hid at 1.
    destruct f; eexists _, _, _, _; (split; [reflexivity|]); split; done.
  - apply read_frame_consumed in Ef; [|done]. destruct (Hc n ltac:(lia)) as (c' & -> & Es & Hr').
    pose proof (Hr' RecvReady) as Hid. rewrite <- Es, with_recv_state_id in Hid at 1.
    destruct f; eexists _, _, _, _; (split; [reflexivity|]); split; done.
Qed.

Lemma control_process_rep c buf st : control_rep c buf st -> bytes_ok buf ->
  exists c' buf' st' r, control_process c = Some (c', r) /\
    run_next parse_control None apply_control id (length buf) buf st = (buf', st', map_err Some r) /\
    control_rep c' buf' st'.
Proof.
  intros Hr Hb. destruct (decide (st = WaitingType)) as [->|Hst].
  2: { destruct (control_loop_frame 1 c buf st Hr Hb Hst) as (c' & b' & s' & r & E & Hr' & En).
       exists c', b', s', r. by split_and!. }
  pose proof Hr as (Hw & Hp & Hs). unfold control_process. cbn [control_loop]. rewrite Hp, Hs.
  destruct buf as [|first rest]; [by exists c, [], WaitingType, (Ok None)|].
  cbn [length run_next]. unfold run_step at 1, parse_control at 1.
  destruct (Z.eqb_spec first 0) as [->|]; cbn [negb].
  2: { by exists c, (first :: rest), WaitingType, (Err (ConnectionError StreamCreationError)). }
  destruct (control_consume_spec c (0 :: rest) WaitingType 1 Hr) as (c1 & -> & Hr1).
  { rewrite len_cons. pose proof (len_nonneg rest). lia. }
  cbn [mbind option_bind apply_control id].
  apply Forall_inv_tail in Hb.
  destruct (control_loop_frame 0 _ rest WaitingSettings (Hr1 WaitingSettings) Hb) as (c' & b' & s' & r & E & Hr' & En);
    [done|]. exists c', b', s', r. split_and!; [done| |done]. apply (En (length rest)).
Qed.

(** ** What a sequence of frames leads to *)
(** The frames delivered, or the error of the first one that is refused. *)
Fixpoint control_verdict (st : ControlRecvState) (fs : list Frame) : result Error (list Frame) :=
  match fs with
  | [] => Ok []
  | f :: fs =>
    match control_refuses st f with
    | Some code => Err (ConnectionError code)
    | None => cons f <$> control_verdict (next_state st) fs
    end
  end.

(** Frames with a length that can be announced, WT_STREAM not being one of them. *)
Notation frames_ok := (Forall (fun f => frame_encodable f)).

Lemma parse_control_frame st f rest : st <> WaitingType -> frame_encodable f ->
  parse_control st (frame_bytes f ++ rest) = Ok (Some f, len (frame_bytes f)).
Proof.
  intros Hst (Hok & Hl & Ht). unfold parse_control. destruct st; [done| |];
    (rewrite read_frame_bytes; [done|by split_and!]).
Qed.

Notation control_run := (run_all parse_control None apply_control).

(** The loop on the encoding of a list of frames. *)
Lemma control_run_frames st fs : st <> WaitingType -> frames_ok fs ->
  match control_verdict st fs with
  | Ok l => exists st', control_run (concat (map frame_bytes fs)) st = ([], st', Ok (map Some l))
  | Err e => exists buf st', control_run (concat (map frame_bytes fs)) st = (buf, st', Err (Some e))
  end.
Proof.
  intros Hst Hfs. revert st Hst. induction Hfs as [|f fs Hf Hfs IH]; intros st Hst.
  { exists st. unfold run_all. cbn. unfold run_step. by rewrite parse_control_nil. }
  cbn [map concat control_verdict].
  assert (bytes_ok (concat (map frame_bytes fs))) as Hb.
  { apply Forall_concat, Forall_map. apply (Forall_impl _ _ _ Hfs). intros g [? _]. by apply frame_bytes_ok. }
  assert (bytes_ok (frame_bytes f)) as Hb' by (apply frame_bytes_ok, Hf).
  rewrite (run_all_unfold parse_control None apply_control parse_control_nil parse_control_consumed
    parse_control_stable apply_control_consumes) by by apply bytes_ok_app.
  unfold run_step. rewrite parse_control_frame by done. cbn [apply_control].
  rewrite drop_z_app_len. destruct (control_refuses st f) as [code|]; [by eexists _, _|].
  specialize (IH (next_state st) ltac:(by destruct st)).
  destruct (control_verdict (next_state st) fs) as [l|e]; cbn [fmap result_fmap].
  - destruct IH as [st' ->]. by exists st'.
  - destruct IH as (buf & st' & ->). by exists buf, st'.
Qed.

Lemma visible_map_Some {A} (l : list A) : visible_items id (map Some l) = l.
Proof. induction l as [|x l IH]; [done|]. unfold visible_items in *. cbn. by rewrite IH. Qed.

(** From any chunks to the reader's loop over all the bytes. *)
Lemma control_receive_run chunks : Forall (fun c => bytes_ok c) chunks ->
  exists c buf st r, control_receive_chunks chunks control_recv_new = Some (c, r) /\ control_rep c buf st /\
    match control_run (concat chunks) WaitingType with
    | (buf', st', Ok l) => buf = buf' /\ st = st' /\ r = Ok (visible_items id l)
    | (_, _, Err e) => map_err Some r = Err e
    end.
Proof.
  intros Hc.
  destruct (receive_chunks_feed parse_control None apply_control id parse_control_nil parse_control_consumed
    parse_control_stable apply_control_consumes control_process control_receive
    (fun c => recv_peek (cr_recv_buf c)) Some control_rep) with (chunks := chunks) (c := control_recv_new)
    (buf := @nil Z) (s := WaitingType) as (c & buf & st & r & E & Ef & Hr).
  - by intros c buf st (_ & ? & _).
  - intros c buf st data (Hw & <- & Hs) _. split_and!; [exact (q_push_wf (B := RecvBuffer) _ data Hw)| |done].
    apply (q_push_peek (B := RecvBuffer) _ data Hw).
  - apply control_process_rep.
  - split_and!; [by left|done|done].
  - constructor.
  - done.
  - exists c, buf, st, r. split_and!; [done..|].
    rewrite (feed_visible_feed parse_control None apply_control id parse_control_nil parse_control_consumed
      parse_control_stable apply_control_consumes) in Ef by (done || constructor).
    pose proof (feed_run_all parse_control None apply_control parse_control_nil parse_control_consumed
      parse_control_stable apply_control_consumes chunks [] WaitingType (Forall_nil_2 _) Hc eq_refl) as H.
    cbn [app] in H. destruct (control_run (concat chunks) WaitingType) as [[b1 s1] [l|e]].
    + rewrite H in Ef. injection Ef as -> -> Er. split_and!; [done..|]. destruct r; [by injection Er as ->|done].
    + destruct H as [b' H]. rewrite H in Ef. injection Ef as _ _ Er. done.
Qed.

(** The type byte comes first. *)
Lemma control_run_type bs : bytes_ok bs ->
  control_run (0x00 :: bs) WaitingType = deliver [None] (control_run bs WaitingSettings).
Proof.
  intros Hb. assert (bytes_ok (0 :: bs)) as Hb' by (constructor; [done|done]).
  by rewrite (run_all_unfold parse_control None apply_control parse_control_nil parse_control_consumed
    parse_control_stable apply_control_consumes (0 :: bs)) by done.
Qed.

Lemma control_receive_frames chunks fs : Forall (fun c => bytes_ok c) chunks -> frames_ok fs ->
  concat chunks = 0x00 :: concat (map frame_bytes fs) ->
  exists c, control_receive_chunks chunks control_recv_new = Some (c, control_verdict WaitingSettings fs) /\
    (is_ok (control_verdict WaitingSettings fs) = true -> has_pending_data c = false).
Proof.
  intros Hc Hfs Hcat. destruct (control_receive_run chunks Hc) as (c & buf & st & r & E & (_ & Hp & _) & H).
  exists c. rewrite Hcat, control_run_type in H.
  2: { apply Forall_concat in Hc. rewrite Hcat in Hc. by apply Forall_inv_tail in Hc. }
  pose proof (control_run_frames WaitingSettings fs ltac:(done) Hfs) as Hv. rewrite E. unfold has_pending_data.
  destruct (control_verdict WaitingSettings fs) as [l|e].
  - destruct Hv as [st' Hv]. rewrite Hv in H. cbn [deliver fmap result_fmap] in H. destruct H as (-> & _ & ->).
    cbn [app]. change (visible_items id (None :: map Some l)) with (visible_items id (map Some l)).
    rewrite visible_map_Some. by rewrite Hp.
  - destruct Hv as (b' & st' & Hv). rewrite Hv in H. cbn in H. destruct r; [done|]. by injection H as ->.
Qed.

(** ** The sender's bytes *)
Fixpoint send_goaways (c : ControlStreamSend) (ids : list Z) : option (ControlStreamSend * list (result Error unit)) :=
  match ids with
  | [] => Some (c, [])
  | id :: ids => '(c, r) ← send_goaway c id; '(c, rs) ← send_goaways c ids; Some (c, r :: rs)
  end.

Lemma send_goaways_spec c ids : cs_send_state c = SendReady -> q_wf (cs_send_buf c) -> Forall varint_ok ids ->
  exists c', send_goaways c ids = Some (c', map (fun _ => Ok ()) ids) /\
    control_get_data c' = control_get_data c ++ concat (map frame_bytes (map Goaway ids)).
Proof.
  intros Hs Hw Hids. revert c Hs Hw. induction Hids as [|id ids Hid _ IH]; intros c Hs Hw.
  { exists c. by rewrite app_nil_r. }
  cbn [send_goaways map concat]. unfold send_goaway. rewrite Hs.
  rewrite frame_to_vec_spec by by apply goaway_encodable. cbn [mbind option_bind].
  destruct (IH (mkControlSend (cs_stream_id c) (send_push (cs_send_buf c) (frame_bytes (Goaway id))) SendReady))
    as (c' & -> & E); [done|exact (q_push_wf (B := SendBuffer) _ _ Hw)|].
  cbn [mbind option_bind]. exists c'. split; [done|]. rewrite E. unfold control_get_data. cbn [cs_send_buf].
  pose proof (q_push_peek (B := SendBuffer) (cs_send_buf c) (frame_bytes (Goaway id)) Hw) as Hpp.
  cbn [q_peek q_push send_queue] in Hpp. by rewrite Hpp, <- app_assoc.
Qed.

(** ** Any bytes *)
Definition past_type (st : ControlRecvState) : ControlRecvState :=
  match st with WaitingType => WaitingSettings | _ => st end.

Lemma parse_control_ok st buf i n : bytes_ok buf -> parse_control st buf = Ok (i, n) ->
  match i with Some f => st <> WaitingType /\ frame_ok f | None => st = WaitingType end.
Proof.
  intros Hb. unfold parse_control. destruct st.
  - destruct buf; [done|]. destruct (negb _); [done|]. by intros [= <- _].
  - intros ([f m] & Hr%read_frame_decode & [= <- _])%result_bind_Ok. by apply decode_frame_inv in Hr as [? _].
  - intros ([f m] & Hr%read_frame_decode & [= <- _])%result_bind_Ok. by apply decode_frame_inv in Hr as [? _].
Qed.

(** What is delivered is well formed and in order. *)
Lemma control_run_ok buf st buf' st' l : bytes_ok buf -> control_run buf st = (buf', st', Ok l) ->
  Forall (fun f => frame_ok f) (visible_items id l) /\
  control_verdict (past_type st) (visible_items id l) = Ok (visible_items id l).
Proof.
  remember (length buf) as k eqn:Ek. revert buf Ek st buf' st' l.
  induction (lt_wf k) as [k _ IH]; intros buf -> st buf' st' l Hb.
  rewrite (run_all_unfold parse_control None apply_control parse_control_nil parse_control_consumed
    parse_control_stable apply_control_consumes) by done.
  destruct (run_step _ _ _ buf st) as [[b1 s1] [[i|]|e]] eqn:Es; [|by intros [= _ _ <-]|done].
  apply (run_step_progress parse_control None apply_control parse_control_nil parse_control_consumed
    parse_control_stable apply_control_consumes) in Es as (Hb1 & Hl & n & Ep & _ & Ha & _); [|done].
  destruct (control_run b1 s1) as [[b2 s2] [l2|]] eqn:Er; cbn [deliver fmap result_fmap]; [|done].
  intros [= _ _ <-]. destruct (IH _ Hl _ eq_refl _ _ _ _ Hb1 Er) as [Hok Hv].
  apply parse_control_ok in Ep; [|done]. destruct i as [f|]; cbn [apply_control] in Ha.
  - destruct Ep as [Hst Hf]. revert Ha. destruct (control_refuses st f) eqn:Ec; [done|]. intros [= <-].
    cbn [app]. change (visible_items id (Some f :: l2)) with (f :: visible_items id l2).
    split; [by constructor|]. cbn [control_verdict]. replace (past_type st) with st by (by destruct st). rewrite Ec.
    replace (past_type (next_state st)) with (next_state st) in Hv by (by destruct st). by rewrite Hv.
  - subst st. injection Ha as <-. cbn [app]. done.
Qed.

Definition is_control_frame (f : Frame) : Prop :=
  match f with SettingsFrame _ | Data _ | Headers _ => False | _ => True end.

(** SETTINGS first and only once, no DATA or HEADERS. *)
Definition control_order (l : list Frame) : Prop :=
  match l with
  | [] => True
  | SettingsFrame _ :: l => Forall is_control_frame l
  | _ => False
  end.

Lemma control_verdict_ready l : control_verdict RecvReady l = Ok l <-> Forall is_control_frame l.
Proof.
  induction l as [|f l IH]; [by split|]. cbn [control_verdict next_state].
  assert ((exists code, control_refuses RecvReady f = Some code) /\ ~ is_control_frame f \/
    control_refuses RecvReady f = None /\ is_control_frame f) as [[[code ->] Hf] | [-> Hf]].
  { destruct f; cbn; naive_solver. }
  - split; [done|]. by intros ?%Forall_inv.
  - split.
    + intros E. constructor; [done|]. apply IH. destruct (control_verdict RecvReady l); [by injection E as ->|done].
    + intros [_ Hl]%Forall_cons. apply IH in Hl. by rewrite Hl.
Qed.

Lemma control_verdict_order l : control_verdict WaitingSettings l = Ok l <-> control_order l.
Proof.
  destruct l as [|f l]; [done|]. cbn [control_verdict control_order]. destruct f; cbn [control_refuses]; try done.
  rewrite <- control_verdict_ready. cbn [next_state].
  destruct (control_verdict RecvReady l); cbn; split; try done; by intros [= ->].
Qed.

(** ** Properties *)

(** C28. The control stream works end to end: sending the settings and then GOAWAY frames
    never panics and never fails, and a receiver that gets the sent bytes, in whatever
    chunks, delivers exactly the SETTINGS frame, whose content is the settings that were
    sent, and the GOAWAY frames in order, with nothing left over. *)
Theorem control_stream_end_to_end s ids chunks :
  settings_ok s -> Forall varint_ok ids -> Forall (fun c => bytes_ok c) chunks ->
  exists c1 c2 p, send_settings control_send_new s = Some c1 /\
    send_goaways c1 ids = Some (c2, map (fun _ => Ok ()) ids) /\ from_payload p = normalize s /\
    (concat chunks = control_get_data c2 ->
      exists r, control_receive_chunks chunks control_recv_new = Some (r, Ok (SettingsFrame p :: map Goaway ids)) /\
        has_pending_data r = false).
Proof.
  intros Hs Hids Hc. destruct (from_settings_spec s Hs) as (p & Hp & _).
  pose proof (settings_frame_encodable s p Hs Hp) as Hf.
  set (c1 := mkControlSend None (send_push send_new (0 :: frame_bytes (SettingsFrame p))) SendReady).
  assert (send_settings control_send_new s = Some c1) as E1.
  { unfold send_settings. cbn [cs_send_state control_send_new]. rewrite Hp. cbn [mbind option_bind].
    by rewrite frame_to_vec_spec. }
  destruct (send_goaways_spec c1 ids) as (c2 & E2 & Hd); [done|by left|done|].
  exists c1, c2, p. split_and!; [done|done|by apply from_payload_from_settings|]. intros Hcat.
  assert (control_verdict WaitingSettings (SettingsFrame p :: map Goaway ids) = Ok (SettingsFrame p :: map Goaway ids)) as Hv.
  { apply control_verdict_order. cbn. apply Forall_map. by apply (Forall_impl _ _ _ Hids). }
  destruct (control_receive_frames chunks (SettingsFrame p :: map Goaway ids) Hc) as (r & E & Hr).
  - constructor; [done|]. apply Forall_map. apply (Forall_impl _ _ _ Hids). apply goaway_encodable.
  - by rewrite Hcat, Hd.
  - rewrite Hv in E, Hr. exists r. split; [done|by apply Hr].
Qed.

(** What a peer's frames lead to on the control stream, however the bytes are cut:
    after the type byte, the frames up to the first refused one are delivered; the first
    frame must be SETTINGS (else H3_MISSING_SETTINGS), and a later SETTINGS, DATA or
    HEADERS frame is H3_FRAME_UNEXPECTED. *)
Theorem control_stream_verdict chunks fs : Forall (fun c => bytes_ok c) chunks -> frames_ok fs ->
  concat chunks = 0x00 :: concat (map frame_bytes fs) ->
  exists c, control_receive_chunks chunks control_recv_new = Some (c, control_verdict WaitingSettings fs).
Proof.
  intros Hc Hfs Hcat. destruct (control_receive_frames chunks fs Hc Hfs Hcat) as (c & E & _). by exists c.
Qed.

(** Whatever bytes a peer sends on the control stream, the receiver does not panic,
    its outcome does not depend on how the bytes are cut into chunks, and the frames it
    delivers are well formed, SETTINGS first and never again, without DATA or HEADERS. *)
Theorem control_stream_safe chunks1 chunks2 :
  Forall (fun c => bytes_ok c) chunks1 -> Forall (fun c => bytes_ok c) chunks2 -> concat chunks1 = concat chunks2 ->
  exists c1 c2 r, control_receive_chunks chunks1 control_recv_new = Some (c1, r) /\
    control_receive_chunks chunks2 control_recv_new = Some (c2, r) /\
    match r with Ok l => Forall (fun f => frame_ok f) l /\ control_order l | Err _ => True end.
Proof.
  intros H1 H2 Hcat. destruct (control_receive_run chunks1 H1) as (c1 & b1 & s1 & r1 & E1 & _ & R1).
  destruct (control_receive_run chunks2 H2) as (c2 & b2 & s2 & r2 & E2 & _ & R2).
  rewrite <- Hcat in R2. exists c1, c2, r1. rewrite E1, E2.
  destruct (control_run (concat chunks1) WaitingType) as [[b st] [l|e]] eqn:Er.
  - destruct R1 as (_ & _ & ->), R2 as (_ & _ & ->). apply control_run_ok in Er as [Hok Hv]; [|by apply Forall_concat].
    split; [done|]. split; [done|]. split; [done|]. by apply control_verdict_order.
  - destruct r1 as [|e1]; [done|]. destruct r2 as [|e2]; [done|]. rewrite <- R2 in R1. by injection R1 as ->.
Qed.

Lemma control_stream_end_to_end_witness :
  exists c p, control_receive_chunks [[0x00; 0x04]; []; [0x04; 0x33; 0x01; 0x21; 0x00; 0x07]; [0x01; 0x08]] control_recv_new =
    Some (c, Ok [SettingsFrame p; Goaway 8]).
Proof.
  destruct (control_stream_end_to_end (mkSettings None None None None (Some true) None) [8]
    [[0x00; 0x04]; []; [0x04; 0x33; 0x01; 0x21; 0x00; 0x07]; [0x01; 0x08]]) as (c1 & c2 & p & E1 & E2 & _ & H).
  - repeat split; vm_compute; discriminate.
  - repeat (apply List.Forall_cons; [vm_compute; split; discriminate|]). constructor.
  - repeat (apply List.Forall_cons; [solve_bytes|]).
    constructor.
  - vm_compute in E1. injection E1 as <-. vm_compute in E2. injection E2 as <-.
    destruct H as (r & E & _); [reflexivity|]. exists r, p. exact E.
Defined.

Lemma control_stream_verdict_witness :
  exists c, control_receive_chunks [[0x00; 0x07]; [0x01; 0x08]] control_recv_new = Some (c, Err (ConnectionError MissingSettings)).
Proof.
  destruct (control_stream_verdict [[0x00; 0x07]; [0x01; 0x08]] [Goaway 8]) as (c & E).
  - repeat (apply List.Forall_cons; [solve_bytes|]).
    constructor.
  - apply List.Forall_cons; [|constructor]. apply goaway_encodable. vm_compute. split; discriminate.
  - reflexivity.
  - exists c. exact E.
Defined.

Lemma control_stream_safe_witness :
  exists c1 c2 r, control_receive_chunks [[0x00; 0x04; 0x00]; [0x00; 0x01; 0xff]] control_recv_new = Some (c1, r) /\
    control_receive_chunks [[0x00; 0x04; 0x00; 0x00; 0x01; 0xff]] control_recv_new = Some (c2, r).
Proof.
  destruct (control_stream_safe [[0x00; 0x04; 0x00]; [0x00; 0x01; 0xff]] [[0x00; 0x04; 0x00; 0x00; 0x01; 0xff]])
    as (c1 & c2 & r & E1 & E2 & _); [..|exists c1, c2, r; split; [exact E1|exact E2]].
  - repeat (apply List.Forall_cons; [solve_bytes|]).
    constructor.
  - repeat (apply List.Forall_cons; [solve_bytes|]).
    constructor.
  - reflexivity.
Defined.
