(* ===== verification/RequestStream.v ===== *)
(** stream/request.rs: a request stream (RFC 9114 Section 6.1), which carries one request
    and its responses as frames in both directions. *)

From S2P Require Import Prelude Codec Incremental Varint Header Settings Frame Error Stream WtStream FrameStream.

Inductive RequestSendState :=
| ReqInitial | InterimResponseSent | HeadersSent | SendingBody | TrailersSent | SendComplete.
Inductive RequestRecvState := WaitingHeaders | ReceivingBody | TrailersReceived | RecvComplete.

#[export] Instance RequestSendState_eq_dec : EqDecision RequestSendState.
Proof. solve_decision. Defined.
#[export] Instance RequestRecvState_eq_dec : EqDecision RequestRecvState.
Proof. solve_decision. Defined.

Definition DEFAULT_MAX_RECEIVED_BODY_SIZE : Z := 16 * 1024 * 1024.

Record RequestStream := mkRequest {
  rq_stream_id : Z;
  rq_send_buf : SendBuffer;
  rq_recv_buf : RecvBuffer;
  rq_send_state : RequestSendState;
  rq_recv_state : RequestRecvState;
  rq_state : StreamState;
  rq_recv_headers : list Header;
  rq_recv_body : bytes;
  rq_max_received_body_size : Z;
  rq_is_head_request : bool;
  rq_is_connect_request : bool;
  rq_is_connect : bool;
  rq_qpack_blocked : bool;
  rq_qpack_ricnt : Z;
  rq_qpack_blocked_header : option (bytes * bool);
  rq_is_wt_connect : bool;
  rq_role : Role;
  rq_first_frame_processed : bool }.

Inductive RawReceivedData :=
| RawHeaders (encoded : bytes) | RawTrailers (encoded : bytes) | RawData (data : bytes) | StreamEnd.

Definition request_new (stream_id : Z) (role : Role) : RequestStream :=
  mkRequest stream_id send_new recv_new ReqInitial WaitingHeaders Open [] []
    DEFAULT_MAX_RECEIVED_BODY_SIZE false false false false 0 None false role false.

(** Updates: the fields of the sending half, and those of the receiving half. *)
Definition with_send (r : RequestStream) (b : SendBuffer) (s : RequestSendState) (st : StreamState) : RequestStream :=
  mkRequest (rq_stream_id r) b (rq_recv_buf r) s (rq_recv_state r) st (rq_recv_headers r) (rq_recv_body r)
    (rq_max_received_body_size r) (rq_is_head_request r) (rq_is_connect_request r) (rq_is_connect r)
    (rq_qpack_blocked r) (rq_qpack_ricnt r) (rq_qpack_blocked_header r) (rq_is_wt_connect r) (rq_role r)
    (rq_first_frame_processed r).
Definition with_recv_buf (r : RequestStream) (b : RecvBuffer) : RequestStream :=
  mkRequest (rq_stream_id r) (rq_send_buf r) b (rq_send_state r) (rq_recv_state r) (rq_state r)
    (rq_recv_headers r) (rq_recv_body r) (rq_max_received_body_size r) (rq_is_head_request r)
    (rq_is_connect_request r) (rq_is_connect r) (rq_qpack_blocked r) (rq_qpack_ricnt r)
    (rq_qpack_blocked_header r) (rq_is_wt_connect r) (rq_role r) (rq_first_frame_processed r).
Definition with_recv (r : RequestStream) (s : RequestRecvState) (st : StreamState) (body : bytes) (first : bool)
    : RequestStream :=
  mkRequest (rq_stream_id r) (rq_send_buf r) (rq_recv_buf r) (rq_send_state r) s st (rq_recv_headers r) body
    (rq_max_received_body_size r) (rq_is_head_request r) (rq_is_connect_request r) (rq_is_connect r)
    (rq_qpack_blocked r) (rq_qpack_ricnt r) (rq_qpack_blocked_header r) (rq_is_wt_connect r) (rq_role r) first.
Definition with_flags (r : RequestStream) (head connect_request connect wt : bool) : RequestStream :=
  mkRequest (rq_stream_id r) (rq_send_buf r) (rq_recv_buf r) (rq_send_state r) (rq_recv_state r) (rq_state r)
    (rq_recv_headers r) (rq_recv_body r) (rq_max_received_body_size r) head connect_request connect
    (rq_qpack_blocked r) (rq_qpack_ricnt r) (rq_qpack_blocked_header r) wt (rq_role r) (rq_first_frame_processed r).
Definition with_decoded (r : RequestStream) (headers : list Header) (max : Z) (blocked : bool) (ric : Z)
    (blocked_header : option (bytes * bool)) : RequestStream :=
  mkRequest (rq_stream_id r) (rq_send_buf r) (rq_recv_buf r) (rq_send_state r) (rq_recv_state r) (rq_state r)
    headers (rq_recv_body r) max (rq_is_head_request r) (rq_is_connect_request r) (rq_is_connect r)
    blocked ric blocked_header (rq_is_wt_connect r) (rq_role r) (rq_first_frame_processed r).

Definition set_max_received_body_size (r : RequestStream) (size : Z) : RequestStream :=
  with_decoded r (rq_recv_headers r) size (rq_qpack_blocked r) (rq_qpack_ricnt r) (rq_qpack_blocked_header r).
Definition set_recv_headers (r : RequestStream) (headers : list Header) : RequestStream :=
  with_decoded r headers (rq_max_received_body_size r) (rq_qpack_blocked r) (rq_qpack_ricnt r) (rq_qpack_blocked_header r).
Definition set_qpack_blocked (r : RequestStream) (blocked : bool) (ricnt : Z) (h : option (bytes * bool)) : RequestStream :=
  with_decoded r (rq_recv_headers r) (rq_max_received_body_size r) blocked ricnt h.
Definition take_qpack_blocked_header (r : RequestStream) : RequestStream * option (bytes * bool) :=
  (set_qpack_blocked r (rq_qpack_blocked r) (rq_qpack_ricnt r) None, rq_qpack_blocked_header r).
Definition set_is_head_request (r : RequestStream) (v : bool) : RequestStream :=
  with_flags r v (rq_is_connect_request r) (rq_is_connect r) (rq_is_wt_connect r).
Definition set_connect_request (r : RequestStream) : RequestStream :=
  with_flags r (rq_is_head_request r) true (rq_is_connect r) (rq_is_wt_connect r).
Definition set_connect (r : RequestStream) : RequestStream :=
  with_flags r (rq_is_head_request r) (rq_is_connect_request r) true (rq_is_wt_connect r).
Definition set_wt_connect (r : RequestStream) : RequestStream :=
  with_flags r (rq_is_head_request r) (rq_is_connect_request r) (rq_is_connect r) true.

(** ** Sending *)

(** The guard of [send_encoded_headers] on the send state. *)
Definition headers_refused (r : RequestStream) (is_interim : bool) : option Error :=
  match rq_send_state r with
  | ReqInitial | InterimResponseSent => None
  | HeadersSent | SendingBody =>
    if rq_is_connect r then Some (StreamError FrameUnexpected)
    else if is_interim then Some (StreamError FrameUnexpected)
    else None
  | TrailersSent | SendComplete => Some (StreamError FrameUnexpected)
  end.

(** [if fin { set_fin; close_local; Complete }], the end of both sending calls. *)
Definition finish_send (r : RequestStream) (fin : bool) : RequestStream :=
  if fin then with_send r (send_set_fin (rq_send_buf r)) SendComplete (close_local (rq_state r)) else r.

(** [None] is a panic: a frame longer than a varint can say. The last case of the state
    transition is unreachable in the source too, [headers_refused] having returned. *)
Definition send_encoded_headers (r : RequestStream) (encoded : bytes) (fin is_interim : bool)
    : option (RequestStream * result Error unit) :=
  if negb (can_send (rq_state r)) then Some (r, Err (StreamClosed (rq_stream_id r)))
  else
    match headers_refused r is_interim with
    | Some e => Some (r, Err e)
    | None =>
      if is_interim && fin then Some (r, Err (StreamError MessageError))
      else
        frame ← frame_to_vec (Headers encoded);
        let state :=
          match rq_send_state r with
          | ReqInitial | InterimResponseSent => if is_interim then InterimResponseSent else HeadersSent
          | _ => TrailersSent
          end in
        Some (finish_send (with_send r (send_push (rq_send_buf r) frame) state (rq_state r)) fin, Ok ())
    end.

Definition send_body (r : RequestStream) (data : bytes) (fin : bool) : option (RequestStream * result Error unit) :=
  if negb (can_send (rq_state r)) then Some (r, Err (StreamClosed (rq_stream_id r)))
  else
    match rq_send_state r with
    | HeadersSent | SendingBody =>
      match data with
      | [] => Some (finish_send r fin, Ok ())
      | _ =>
        frame ← frame_to_vec (Data data);
        Some (finish_send (with_send r (send_push (rq_send_buf r) frame) SendingBody (rq_state r)) fin, Ok ())
      end
    | _ => Some (r, Err (StreamError FrameUnexpected))
    end.

Definition has_fin_pending (r : RequestStream) : bool :=
  send_fin (rq_send_buf r) && is_data_consumed (rq_send_buf r) && negb (send_fin_sent (rq_send_buf r)).
Definition get_send_data (r : RequestStream) : bytes * bool := (send_peek (rq_send_buf r), has_fin_pending r).
Definition is_send_complete (r : RequestStream) : bool :=
  if send_fin (rq_send_buf r) then send_fin_sent (rq_send_buf r) else is_data_consumed (rq_send_buf r).
Definition consume_send_data (r : RequestStream) (n : Z) : option RequestStream :=
  b ← send_consume (rq_send_buf r) n; Some (with_send r b (rq_send_state r) (rq_state r)).
Definition discard_send_data (r : RequestStream) : RequestStream :=
  with_send r (send_discard (rq_send_buf r)) (rq_send_state r) (rq_state r).
Definition mark_fin_sent (r : RequestStream) : RequestStream :=
  with_send r (send_mark_fin_sent (rq_send_buf r)) (rq_send_state r) (rq_state r).
Definition has_pending_send (r : RequestStream) : bool := send_has_pending (rq_send_buf r).

(** ** Receiving *)
Definition request_receive (r : RequestStream) (data : bytes) (fin : bool) : RequestStream :=
  let b := recv_push (rq_recv_buf r) data in
  with_recv_buf r (if fin then recv_set_fin b else b).

Definition notify_informational (r : RequestStream) : RequestStream :=
  match rq_recv_state r with
  | ReceivingBody => with_recv r WaitingHeaders (rq_state r) (rq_recv_body r) (rq_first_frame_processed r)
  | _ => r
  end.

(** The frame type 0x41 is let pass on the first frame of a client's stream at the server. *)
Definition server_first_frame (r : RequestStream) : bool :=
  bool_decide (rq_role r = Server) && negb (rq_first_frame_processed r) &&
  bool_decide (from_stream_id (rq_stream_id r) = Some ClientBidi).

Definition request_decode_error (e : FrameDecodeError) : Error :=
  match e with
  | ServerPushNotSupported _ => ConnectionError FrameUnexpected
  | other => FrameDecode other
  end.

(** The frame at the front of the receive buffer. *)
Definition read_request_frame (r : RequestStream) (data : bytes) : result (option Error) (Frame * Z) :=
  read_frame (if server_first_frame r then None else Some (ConnectionError FrameUnexpected))
    (Some (ConnectionError FrameUnexpected)) request_decode_error data.

(** The [match frame] of [process_raw]: the stream afterwards, and what is delivered
    ([None] goes round the loop). *)
Definition handle_frame (r : RequestStream) (f : Frame) : RequestStream * result Error (option RawReceivedData) :=
  let set_recv_state s := with_recv r s (rq_state r) (rq_recv_body r) (rq_first_frame_processed r) in
  match f with
  | Headers h =>
    match rq_recv_state r with
    | TrailersReceived => (r, Err (ConnectionError FrameUnexpected))
    | ReceivingBody =>
      if rq_is_connect r then (r, Err (ConnectionError FrameUnexpected))
      else (set_recv_state TrailersReceived, Ok (Some (RawTrailers h)))
    | _ => (set_recv_state ReceivingBody, Ok (Some (RawHeaders h)))
    end
  | Data d =>
    match rq_recv_state r with
    | WaitingHeaders | TrailersReceived => (r, Err (ConnectionError FrameUnexpected))
    | _ =>
      if rq_is_wt_connect r then (r, Ok (Some (RawData d)))
      else if rq_max_received_body_size r <? saturating_add (len (rq_recv_body r)) (len d)
      then (r, Err (ConnectionError ExcessiveLoad))
      else
        (with_recv r (rq_recv_state r) (rq_state r) (rq_recv_body r ++ d) (rq_first_frame_processed r),
         Ok (Some (RawData d)))
    end
  | Unknown _ _ => (r, Ok None)
  | SettingsFrame _ | Goaway _ | MaxPushId _ => (r, Err (ConnectionError FrameUnexpected))
  end.

(** [process_raw]. The outer [None] is a panic, or fuel that ran out: each round but the
    last consumes a frame, so one unit per buffered byte and one more is enough. *)
Fixpoint process_raw_loop (fuel : nat) (r : RequestStream)
    : option (RequestStream * result Error (option RawReceivedData)) :=
  match fuel with
  | O => None
  | S fuel =>
    let data := recv_peek (rq_recv_buf r) in
    match data with
    | [] =>
      if recv_fin (rq_recv_buf r) && negb (bool_decide (rq_recv_state r = RecvComplete)) then
        match rq_recv_state r with
        | WaitingHeaders => Some (r, Err (StreamError MessageError))
        | _ =>
          Some (with_recv r RecvComplete (close_remote (rq_state r)) (rq_recv_body r) (rq_first_frame_processed r),
            Ok (Some StreamEnd))
        end
      else Some (r, Ok None)
    | _ =>
      match read_request_frame r data with
      | Err None =>
        if recv_fin (rq_recv_buf r) then Some (r, Err (ConnectionError FrameError)) else Some (r, Ok None)
      | Err (Some e) => Some (r, Err e)
      | Ok (frame, consumed) =>
        b ← recv_consume (rq_recv_buf r) consumed;
        let r := with_recv (with_recv_buf r b) (rq_recv_state r) (rq_state r) (rq_recv_body r) true in
        match handle_frame r frame with
        | (r, Ok None) => process_raw_loop fuel r
        | (r, res) => Some (r, res)
        end
      end
    end
  end.
Definition process_raw (r : RequestStream) : option (RequestStream * result Error (option RawReceivedData)) :=
  process_raw_loop (S (length (recv_peek (rq_recv_buf r)))) r.

(** ** The caller's side of receiving

    Between two calls of [process_raw] the connection decodes the headers it got. Of
    what it then does to the stream, these calls matter for the frames that follow. *)
Record reaction := mkReaction { informational : bool; connect : bool; wt_connect : bool }.

Section receiving.
Context (decoded : bytes -> reaction).

Definition on_event (ev : RawReceivedData) (r : RequestStream) : RequestStream :=
  match ev with
  | RawHeaders h =>
    let r := if informational (decoded h) then notify_informational r else r in
    let r := if connect (decoded h) then set_connect r else r in
    if wt_connect (decoded h) then set_wt_connect r else r
  | _ => r
  end.

Definition process_request (r : RequestStream) : option (RequestStream * result Error (option RawReceivedData)) :=
  '(r', res) ← process_raw r;
  Some (match res with Ok (Some ev) => on_event ev r' | _ => r' end, res).

Definition request_receive_chunks (chunks : list bytes) (r : RequestStream) :=
  receive_chunks process_request (fun r data => request_receive r data false)
    (fun r => recv_peek (rq_recv_buf r)) chunks r.

(** All the chunks, and then the FIN. *)
Definition request_receive_stream (chunks : list bytes) (r : RequestStream)
    : option (RequestStream * result Error (list RawReceivedData)) :=
  '(r', res) ← request_receive_chunks chunks r;
  match res with
  | Err e => Some (r', Err e)
  | Ok l =>
    '(r'', last) ← process_request (request_receive r' [] true);
    Some (r'', fmap (M := result Error) (fun o => l ++ match o with Some ev => [ev] | None => [] end) last)
  end.

(** ** The receiver as an incremental reader: the state is the stream without its buffer *)
Definition processed (r : RequestStream) : RequestStream :=
  with_recv r (rq_recv_state r) (rq_state r) (rq_recv_body r) true.

Definition event_of (r : RequestStream) (f : Frame) : option RawReceivedData :=
  match handle_frame (processed r) f with (_, Ok o) => o | (_, Err _) => None end.

Definition parse_request (r : RequestStream) (data : bytes)
    : result (option Error) ((Frame * option RawReceivedData) * Z) :=
  '(f, n) ← read_request_frame r data; Ok ((f, event_of r f), n).

Definition apply_request (i : Frame * option RawReceivedData) (r : RequestStream)
    : RequestStream * bool * option (option Error) :=
  match handle_frame (processed r) (fst i) with
  | (r', Err e) => (r', true, Some (Some e))
  | (r', Ok None) => (r', true, None)
  | (r', Ok (Some ev)) => (on_event ev r', true, None)
  end.

Definition request_rep (c : RequestStream) (buf : bytes) (r : RequestStream) : Prop :=
  q_wf (rq_recv_buf c) /\ recv_peek (rq_recv_buf c) = buf /\ recv_fin (rq_recv_buf c) = false /\
  r = with_recv_buf c recv_new.

Lemma parse_request_nil r : parse_request r [] = Err None.
Proof. done. Qed.

Lemma parse_request_consumed r bs i n : bytes_ok bs -> parse_request r bs = Ok (i, n) -> 0 < n <= len bs.
Proof. intros Hb ([f m] & Hr & [= _ <-])%result_bind_Ok. by eapply read_frame_consumed. Qed.

Lemma parse_request_stable r bs tail : bytes_ok bs -> parse_request r bs <> Err None ->
  parse_request r (bs ++ tail) = parse_request r bs.
Proof.
  intros Hb. unfold parse_request, read_request_frame. intros Hne. rewrite read_frame_stable; [done|done|].
  intros E. by rewrite E in Hne.
Qed.

Lemma apply_request_consumes i r r' b : apply_request i r = (r', b, None) -> b = true.
Proof. unfold apply_request. destruct (handle_frame _ _) as [? [[?|]|?]]; naive_solver. Qed.

(** The receive buffer plays no part in what a frame does. *)
Lemma handle_frame_buf r b f :
  handle_frame (with_recv_buf r b) f = (with_recv_buf (fst (handle_frame r f)) b, snd (handle_frame r f)).
Proof.
  destruct f; try done; unfold handle_frame; cbn.
  - destruct (rq_recv_state r); try done; destruct (rq_is_wt_connect r); try done; by case_z.
  - destruct (rq_recv_state r); try done; by destruct (rq_is_connect r).
Qed.

Lemma handle_frame_recv_buf r f : rq_recv_buf (fst (handle_frame r f)) = rq_recv_buf r.
Proof.
  destruct f; try done; unfold handle_frame; cbn.
  - destruct (rq_recv_state r); try done; destruct (rq_is_wt_connect r); try done; by case_z.
  - destruct (rq_recv_state r); try done; by destruct (rq_is_connect r).
Qed.

Lemma on_event_buf ev r b : on_event ev (with_recv_buf r b) = with_recv_buf (on_event ev r) b.
Proof.
  destruct ev as [h| | |]; try done. cbn [on_event]. unfold notify_informational.
  destruct (decoded h) as [[] [] []], r as [???? [] ?????????????]; done.
Qed.

Lemma on_event_recv_buf ev r : rq_recv_buf (on_event ev r) = rq_recv_buf r.
Proof.
  destruct ev as [h| | |]; try done. cbn [on_event]. unfold notify_informational.
  destruct (decoded h) as [[] [] []], r as [???? [] ?????????????]; done.
Qed.

Lemma request_step_rep fuel : forall c buf r, request_rep c buf r -> bytes_ok buf -> (length buf <= fuel)%nat ->
  exists c' r' res, process_raw_loop (S fuel) c = Some (c', res) /\
    run_next parse_request None apply_request snd fuel buf r = (recv_peek (rq_recv_buf c'), r', map_err Some res) /\
    request_rep (match res with Ok (Some ev) => on_event ev c' | _ => c' end) (recv_peek (rq_recv_buf c')) r'.
Proof.
  induction fuel as [|fuel IH]; intros c buf r Hr Hb Hl; pose proof Hr as (Hw & Hp & Hfin & ->).
  - destruct buf; [|cbn in Hl; lia]. exists c, (with_recv_buf c recv_new), (Ok None).
    cbn [process_raw_loop]. rewrite Hp, Hfin. by split_and!.
  - remember (S fuel) as k eqn:Ek. cbn [process_raw_loop]. rewrite Hp. destruct buf as [|first rest] eqn:Ebuf.
    { exists c, (with_recv_buf c recv_new), (Ok None). rewrite Hp, Hfin. subst k. by split_and!. }
    rewrite <- Ebuf in *.
    replace (run_next parse_request None apply_request snd k) with (run_next parse_request None apply_request snd (S fuel))
      by (by rewrite Ek). cbn [run_next]. unfold run_step, parse_request.
    change (read_request_frame (with_recv_buf c recv_new) buf) with (read_request_frame c buf).
    destruct (read_request_frame c buf) as [[f n]|[e|]] eqn:Ef; cbn [mbind result_bind].
    + pose proof (read_frame_consumed _ _ _ _ _ _ Hb Ef) as Hn.
      destruct (q_consume_fits (rq_recv_buf c) n Hw) as (b & Eb & Hwb & Hpb); [rewrite <- Hp in Hn; cbn; lia|].
      cbn [q_consume q_peek recv_queue] in Eb, Hpb. rewrite Eb. cbn [mbind option_bind].
      assert (recv_fin b = false) as Hfb.
      { revert Eb. unfold recv_consume. destruct (drain_half _ _) as [[? ?]|]; [|done]. by intros [= <-]. }
      assert (with_recv (with_recv_buf c b) (rq_recv_state c) (rq_state c) (rq_recv_body c) true =
        with_recv_buf (processed c) b) as -> by done.
      cbn [rq_recv_state rq_state rq_recv_body with_recv_buf].
      unfold event_of, apply_request. cbn [fst snd].
      assert (processed (with_recv_buf c recv_new) = with_recv_buf (processed c) recv_new) as -> by done.
      rewrite !handle_frame_buf.
      pose proof (handle_frame_recv_buf (processed c) f) as Hbuf.
      destruct (handle_frame (processed c) f) as [c1 [[ev|]|e]]; cbn [fst snd] in *.
      * exists (with_recv_buf c1 b), (on_event ev (with_recv_buf c1 recv_new)), (Ok (Some ev)).
        change (rq_recv_buf (with_recv_buf c1 b)) with b. rewrite Hpb, Hp, !on_event_buf.
        split; [done|]. split; [done|]. split_and!; [done| |done|done]. change (recv_peek b = drop_z n buf). by rewrite Hpb, Hp.
      * rewrite Hp in Hpb.
        destruct (IH (with_recv_buf c1 b) (drop_z n buf) (with_recv_buf c1 recv_new)) as (c' & r' & res & E & En & Hr').
        { by split_and!. }
        { auto with bytes. }
        { unfold drop_z. rewrite length_drop. unfold len in Hn. lia. }
        subst k. exists c', r', res. by split_and!.
      * exists (with_recv_buf c1 b), (with_recv_buf c1 recv_new), (Err e).
        change (rq_recv_buf (with_recv_buf c1 b)) with b. rewrite Hpb, Hp.
        split; [done|]. split; [done|]. split_and!; [done| |done|done]. change (recv_peek b = drop_z n buf). by rewrite Hpb, Hp.
    + exists c, (with_recv_buf c recv_new), (Err e). rewrite decide_False by done. by rewrite Hp.
    + exists c, (with_recv_buf c recv_new), (Ok None). rewrite Hfin, decide_True by done. by rewrite Hp.
Qed.

Lemma process_request_rep c buf r : request_rep c buf r -> bytes_ok buf ->
  exists c' buf' r' res, process_request c = Some (c', res) /\
    run_next parse_request None apply_request snd (length buf) buf r = (buf', r', map_err Some res) /\
    request_rep c' buf' r'.
Proof.
  intros Hr Hb. pose proof Hr as (_ & Hp & _).
  destruct (request_step_rep (length buf) c buf r Hr Hb ltac:(lia)) as (c' & r' & res & E & En & Hr').
  unfold process_request, process_raw. rewrite Hp, E. cbn [mbind option_bind].
  eexists _, _, r', res. by split_and!.
Qed.

(** ** What a sequence of frames leads to *)
Fixpoint request_verdict (r : RequestStream) (fs : list Frame) : RequestStream * result Error (list RawReceivedData) :=
  match fs with
  | [] => (r, Ok [])
  | f :: fs =>
    match handle_frame (processed r) f with
    | (r', Err e) => (r', Err e)
    | (r', Ok None) => request_verdict r' fs
    | (r', Ok (Some ev)) =>
      let '(r'', res) := request_verdict (on_event ev r') fs in (r'', cons ev <$> res)
    end
  end.

(** And after the FIN. *)
Definition fin_verdict (r : RequestStream) : result Error (list RawReceivedData) :=
  match rq_recv_state r with
  | WaitingHeaders => Err (StreamError MessageError)
  | RecvComplete => Ok []
  | _ => Ok [StreamEnd]
  end.

Notation request_run := (run_all parse_request None apply_request).

Lemma parse_request_frame r f rest : frame_encodable f -> frame_type f <> 0x04 ->
  parse_request r (frame_bytes f ++ rest) = Ok ((f, event_of r f), len (frame_bytes f)).
Proof.
  intros (Hok & Hl & Ht) Hs. unfold parse_request, read_request_frame. rewrite read_frame_bytes; [done|by split_and!].
Qed.

Lemma parse_request_settings r p rest : frame_encodable (SettingsFrame p) ->
  parse_request r (frame_bytes (SettingsFrame p) ++ rest) = Err (Some (ConnectionError FrameUnexpected)).
Proof.
  intros (Hok & Hl & Ht). unfold parse_request, read_request_frame.
  by rewrite (read_frame_settings _ _ request_decode_error (ConnectionError FrameUnexpected) p rest).
Qed.

Lemma frame_type_settings f : frame_ok f -> frame_type f = 0x04 -> exists p, f = SettingsFrame p.
Proof.
  destruct f as [| |p| | |t q]; try done; [by exists p|]. cbn. intros (_ & _ & Hn & _) ->. done.
Qed.

Lemma request_run_unfold buf r : bytes_ok buf ->
  request_run buf r =
  match run_step parse_request None apply_request buf r with
  | (buf', r', Ok None) => (buf', r', Ok [])
  | (buf', r', Err e) => (buf', r', Err e)
  | (buf', r', Ok (Some i)) => deliver [i] (request_run buf' r')
  end.
Proof.
  apply (run_all_unfold parse_request None apply_request parse_request_nil parse_request_consumed
    parse_request_stable apply_request_consumes).
Qed.

Lemma apply_request_handle i r : apply_request i r =
  match handle_frame (processed r) (fst i) with
  | (r', Err e) => (r', true, Some (Some e))
  | (r', Ok None) => (r', true, None)
  | (r', Ok (Some ev)) => (on_event ev r', true, None)
  end.
Proof. done. Qed.

Lemma request_run_frames r fs : Forall (fun f => frame_encodable f) fs ->
  match request_verdict r fs with
  | (r', Ok l) => exists items, request_run (concat (map frame_bytes fs)) r = ([], r', Ok items) /\
      visible_items snd items = l
  | (_, Err e) => exists buf r', request_run (concat (map frame_bytes fs)) r = (buf, r', Err (Some e))
  end.
Proof.
  intros Hfs. revert r. induction Hfs as [|f fs Hf Hfs IH]; intros r; [by exists []|].
  cbn [map concat request_verdict].
  assert (bytes_ok (concat (map frame_bytes fs))) as Hb.
  { apply Forall_concat, Forall_map. apply (Forall_impl _ _ _ Hfs). intros g [? _]. by apply frame_bytes_ok. }
  assert (bytes_ok (frame_bytes f)) as Hb' by (apply frame_bytes_ok, Hf).
  rewrite request_run_unfold by by apply bytes_ok_app. unfold run_step.
  destruct (decide (frame_type f = 0x04)) as [Hs|Hs].
  - apply frame_type_settings in Hs as [p ->]; [|apply Hf]. rewrite parse_request_settings by done.
    cbn [handle_frame]. by eexists _, _.
  - rewrite parse_request_frame by done. rewrite drop_z_app_len, apply_request_handle. cbn [fst].
    destruct (handle_frame (processed r) f) as [r1 [[ev|]|e]] eqn:Eh; cbn [fst snd].
    + specialize (IH (on_event ev r1)). destruct (request_verdict (on_event ev r1) fs) as [r2 [l|e]]; cbn [fmap result_fmap].
      * destruct IH as (items & -> & <-). eexists. split; [done|]. unfold event_of. by rewrite Eh.
      * destruct IH as (buf & r' & ->). by exists buf, r'.
    + specialize (IH r1). destruct (request_verdict r1 fs) as [r2 [l|e]].
      * destruct IH as (items & -> & <-). eexists. split; [done|]. unfold event_of. by rewrite Eh.
      * destruct IH as (buf & r' & ->). by exists buf, r'.
    + by exists (concat (map frame_bytes fs)), r1.
Qed.

(** ** From chunks to the reader's loop over all the bytes *)
Lemma request_receive_run c r chunks : request_rep c [] r -> Forall (fun d => bytes_ok d) chunks ->
  exists c' buf r' res, request_receive_chunks chunks c = Some (c', res) /\ request_rep c' buf r' /\
    match request_run (concat chunks) r with
    | (buf', r2, Ok l) => buf = buf' /\ r' = r2 /\ res = Ok (visible_items snd l)
    | (_, _, Err e) => map_err Some res = Err e
    end.
Proof.
  intros Hr Hc.
  destruct (receive_chunks_feed parse_request None apply_request snd parse_request_nil parse_request_consumed
    parse_request_stable apply_request_consumes process_request (fun r data => request_receive r data false)
    (fun r => recv_peek (rq_recv_buf r)) Some request_rep) with (chunks := chunks) (c := c)
    (buf := @nil Z) (s := r) as (c' & buf & r' & res & E & Ef & Hr'); try done.
  - by intros ??? (_ & ? & _).
  - intros c0 buf r0 data (Hw & <- & Hf & ->) _. split_and!; [exact (q_push_wf (B := RecvBuffer) _ data Hw)| |done|done].
    apply (q_push_peek (B := RecvBuffer) _ data Hw).
  - apply process_request_rep.
  - exists c', buf, r', res. split_and!; [done..|].
    rewrite (feed_visible_feed parse_request None apply_request snd parse_request_nil parse_request_consumed
      parse_request_stable apply_request_consumes) in Ef by (done || constructor).
    pose proof (feed_run_all parse_request None apply_request parse_request_nil parse_request_consumed
      parse_request_stable apply_request_consumes chunks [] r (Forall_nil_2 _) Hc eq_refl) as H.
    cbn [app] in H. destruct (request_run (concat chunks) r) as [[b1 s1] [l|e]].
    + rewrite H in Ef. injection Ef as -> -> Er. split_and!; [done..|]. destruct res; [by injection Er as ->|done].
    + destruct H as [b' H]. rewrite H in Ef. injection Ef as _ _ Er. done.
Qed.

(** The FIN on a stream whose buffer holds no complete frame. *)
Lemma process_request_fin c buf r : request_rep c buf r -> bytes_ok buf -> parse_request r buf = Err None ->
  exists c', process_request (request_receive c [] true) =
    Some (c', match buf with
              | [] => fmap (M := result Error) head (fin_verdict r)
              | _ => Err (ConnectionError FrameError)
              end).
Proof.
  intros (Hw & Hp & Hf & ->) Hb Hn. unfold process_request, process_raw.
  assert (recv_peek (rq_recv_buf (request_receive c [] true)) = buf) as Hp'.
  { rewrite <- Hp. cbn. unfold recv_peek. cbn. by rewrite app_nil_r. }
  cbn [process_raw_loop]. rewrite Hp'. destruct buf as [|b rest] eqn:Eb.
  - cbn. unfold fin_verdict. cbn. destruct (rq_recv_state c); by eexists.
  - rewrite <- Eb in *. unfold parse_request in Hn.
    change (read_request_frame (with_recv_buf c recv_new) buf) with (read_request_frame c buf) in Hn.
    change (read_request_frame (request_receive c [] true) buf) with (read_request_frame c buf).
    destruct (read_request_frame c buf) as [[? ?]|[?|]]; try done. by eexists.
Qed.

(** The outcome for a whole stream. *)
Lemma request_receive_stream_run c r chunks : request_rep c [] r -> Forall (fun d => bytes_ok d) chunks ->
  exists c', request_receive_stream chunks c = Some (c',
    match request_run (concat chunks) r with
    | ([], r', Ok l) => app (visible_items snd l) <$> fin_verdict r'
    | (_, _, Ok l) => Err (ConnectionError FrameError)
    | (_, _, Err e) => Err (default (ConnectionError InternalError) e)
    end).
Proof.
  intros Hr Hc. destruct (request_receive_run c r chunks Hr Hc) as (c1 & buf & r1 & res & E & Hr1 & H).
  unfold request_receive_stream. rewrite E. cbn [mbind option_bind].
  destruct (request_run (concat chunks) r) as [[b2 r2] [l|e]] eqn:Er.
  - destruct H as (-> & -> & ->).
    apply (run_all_rest parse_request None apply_request parse_request_nil parse_request_consumed
      parse_request_stable apply_request_consumes) in Er as (Hb & _ & Hn); [|by apply Forall_concat].
    destruct (process_request_fin c1 b2 r2 Hr1 Hb Hn) as (c2 & ->). cbn [mbind option_bind]. exists c2.
    f_equal. f_equal. destruct b2; [|done]. unfold fin_verdict.
    destruct (rq_recv_state r2); cbn; by rewrite ?app_nil_r.
  - destruct res as [|e']; [done|]. exists c1. cbn in H. injection H as <-. by destruct b2.
Qed.

Lemma request_receive_stream_frames c r chunks fs : request_rep c [] r -> Forall (fun d => bytes_ok d) chunks ->
  Forall (fun f => frame_encodable f) fs -> concat chunks = concat (map frame_bytes fs) ->
  exists c', request_receive_stream chunks c = Some (c',
    match request_verdict r fs with
    | (r', Ok l) => app l <$> fin_verdict r'
    | (_, Err e) => Err e
    end).
Proof.
  intros Hr Hc Hfs Hcat. destruct (request_receive_stream_run c r chunks Hr Hc) as (c' & ->). exists c'.
  f_equal. f_equal. rewrite Hcat. pose proof (request_run_frames r fs Hfs) as H.
  destruct (request_verdict r fs) as [r' [l|e]].
  - by destruct H as (items & -> & <-).
  - destruct H as (buf & r2 & ->). by destruct buf.
Qed.

(** ** The order of the events *)
Definition event_step (st : RequestRecvState) (ev : RawReceivedData) : option RequestRecvState :=
  match st, ev with
  | WaitingHeaders, RawHeaders h => Some (if informational (decoded h) then WaitingHeaders else ReceivingBody)
  | ReceivingBody, RawData _ => Some ReceivingBody
  | ReceivingBody, RawTrailers _ => Some TrailersReceived
  | (ReceivingBody | TrailersReceived), StreamEnd => Some RecvComplete
  | _, _ => None
  end.
Fixpoint event_run (st : RequestRecvState) (l : list RawReceivedData) : option RequestRecvState :=
  match l with [] => Some st | ev :: l => st' ← event_step st ev; event_run st' l end.

Definition data_of (l : list RawReceivedData) : bytes :=
  concat (map (fun ev => match ev with RawData d => d | _ => [] end) l).

(** The stream keeps the body within its limit, or keeps none of it. *)
Definition body_within (r : RequestStream) : Prop := len (rq_recv_body r) <= rq_max_received_body_size r.

Record stream_kept (r r' : RequestStream) (l : list RawReceivedData) : Prop := {
  kept_max : rq_max_received_body_size r' = rq_max_received_body_size r;
  kept_order : event_run (rq_recv_state r) l = Some (rq_recv_state r');
  kept_open : rq_recv_state r' <> RecvComplete;
  kept_within : body_within r -> body_within r';
  kept_wt : rq_is_wt_connect r = false -> (forall h, wt_connect (decoded h) = false) -> rq_is_wt_connect r' = false;
  kept_body : rq_is_wt_connect r = false -> (forall h, wt_connect (decoded h) = false) ->
    rq_recv_body r' = rq_recv_body r ++ data_of l }.

Lemma stream_kept_refl r : rq_recv_state r <> RecvComplete -> stream_kept r r [].
Proof. intros. split; try done. by rewrite app_nil_r. Qed.

Lemma event_run_app st l k : event_run st (l ++ k) = (st' ← event_run st l; event_run st' k).
Proof. revert st. induction l as [|ev l IH]; intros st; [done|]. cbn. destruct (event_step st ev); [apply IH|done]. Qed.

Lemma stream_kept_trans r1 r2 r3 l k : stream_kept r1 r2 l -> stream_kept r2 r3 k -> stream_kept r1 r3 (l ++ k).
Proof.
  intros H1 H2. split.
  - by rewrite (kept_max _ _ _ H2), (kept_max _ _ _ H1).
  - rewrite event_run_app, (kept_order _ _ _ H1). apply (kept_order _ _ _ H2).
  - apply (kept_open _ _ _ H2).
  - intros. by apply (kept_within _ _ _ H2), (kept_within _ _ _ H1).
  - intros Hw Hd. apply (kept_wt _ _ _ H2); [|done]. by apply (kept_wt _ _ _ H1).
  - intros Hw Hd. pose proof (kept_wt _ _ _ H1 Hw Hd) as Hw2.
    rewrite (kept_body _ _ _ H2 Hw2 Hd), (kept_body _ _ _ H1 Hw Hd), <- app_assoc. unfold data_of. by rewrite map_app, concat_app.
Qed.

(** One frame that is let pass. *)
Lemma handle_frame_kept r f r' o : rq_recv_state r <> RecvComplete -> rq_max_received_body_size r < U64_MAX ->
  handle_frame (processed r) f = (r', Ok o) ->
  stream_kept r (match o with Some ev => on_event ev r' | None => r' end) (match o with Some ev => [ev] | None => [] end).
Proof.
  intros Hs Hm. destruct f; unfold handle_frame; cbn [rq_recv_state rq_is_wt_connect rq_is_connect processed with_recv];
    try done.
  - destruct (rq_recv_state r) eqn:Er; try done. destruct (rq_is_wt_connect r) eqn:Ew.
    + intros [= <- <-]. split; cbn; rewrite ?Er; try done; by rewrite Ew.
    + cbn. case_z; [done|]. intros [= <- <-]. unfold saturating_add in *.
      split; cbn; rewrite ?Er; try done; [unfold body_within; cbn; rewrite len_app; lia|].
      intros _ _. unfold data_of. cbn. by rewrite app_nil_r.
  - destruct (rq_recv_state r) eqn:Er; try done.
    + intros [= <- <-]. unfold on_event, notify_informational.
      split; try (intros Hw Hd; specialize (Hd encoded_field_section)); rewrite ?Er; cbn [event_run event_step];
        destruct (decoded _) as [[] [] []]; cbn in *; rewrite ?Er, ?app_nil_r; done.
    + destruct (rq_is_connect r); [done|]. intros [= <- <-]. split; cbn; rewrite ?Er; try done. by rewrite app_nil_r.
  - intros [= <- <-]. split; cbn; try done. by rewrite app_nil_r.
Qed.

Lemma parse_request_event r buf i n : parse_request r buf = Ok (i, n) -> snd i = event_of r (fst i).
Proof. unfold parse_request. destruct (read_request_frame r buf) as [[f m]|]; [|done]. by intros [= <- _]. Qed.

Lemma request_run_kept buf r buf' r' items : bytes_ok buf -> rq_recv_state r <> RecvComplete ->
  rq_max_received_body_size r < U64_MAX -> request_run buf r = (buf', r', Ok items) ->
  stream_kept r r' (visible_items snd items).
Proof.
  remember (length buf) as k eqn:Ek. revert buf Ek r buf' r' items.
  induction (lt_wf k) as [k _ IH]; intros buf -> r buf' r' items Hb Hs Hm. rewrite request_run_unfold by done.
  destruct (run_step _ _ _ buf r) as [[b1 r1] [[i|]|e]] eqn:Es; [|revert Es|done].
  - apply (run_step_progress parse_request None apply_request parse_request_nil parse_request_consumed
      parse_request_stable apply_request_consumes) in Es as (Hb1 & Hl & n & Ep & _ & Ha & _); [|done].
    assert (stream_kept r r1 (match snd i with Some ev => [ev] | None => [] end)) as Hk.
    { rewrite (parse_request_event _ _ _ _ Ep). unfold event_of. revert Ha. unfold apply_request.
      destruct (handle_frame (processed r) (fst i)) as [r2 [o|e]] eqn:Eh; [|done].
      pose proof (handle_frame_kept r _ _ _ Hs Hm Eh). by destruct o; intros [= <-]. }
    destruct (request_run b1 r1) as [[b2 r2] [l2|]] eqn:Er; cbn [deliver fmap result_fmap]; [|done].
    intros [= _ <- <-]. assert (visible_items snd (i :: l2) =
      match snd i with Some ev => [ev] | None => [] end ++ visible_items snd l2) as ->
      by (unfold visible_items; cbn; by destruct (snd i)).
    eapply stream_kept_trans; [done|]. eapply IH; [exact Hl|done|done| | |done].
    + apply (kept_open _ _ _ Hk).
    + by rewrite (kept_max _ _ _ Hk).
  - unfold run_step. destruct (parse_request r buf) as [[j n]|e].
    + destruct (apply_request j r) as [[? ?] [?|]]; done.
    + case_decide; [|done]. intros [= <- <-] [= _ <- <-]. by apply stream_kept_refl.
Qed.

(** ** The sending half *)
Inductive send_op :=
| SendHeaders (encoded : bytes) (fin is_interim : bool)
| SendBody (data : bytes) (fin : bool).

Definition run_send (s : RequestStream) (o : send_op) : option (RequestStream * result Error unit) :=
  match o with
  | SendHeaders h fin interim => send_encoded_headers s h fin interim
  | SendBody d fin => send_body s d fin
  end.
Fixpoint run_sends (s : RequestStream) (ops : list send_op) : option (RequestStream * list (result Error unit)) :=
  match ops with
  | [] => Some (s, [])
  | o :: ops => '(s, r) ← run_send s o; '(s, rs) ← run_sends s ops; Some (s, r :: rs)
  end.

Definition send_op_ok (o : send_op) : Prop :=
  match o with
  | SendHeaders h _ interim =>
    bytes_ok h /\ len h <= VARINT_MAX /\ decoded h = mkReaction interim false false
  | SendBody d _ => bytes_ok d /\ len d <= VARINT_MAX
  end.

(** What the peer is to get for the calls that returned [Ok]. *)
Fixpoint sent_events (head_sent : bool) (ops : list send_op) (results : list (result Error unit))
    : list RawReceivedData :=
  match ops, results with
  | SendHeaders h _ interim :: ops, Ok _ :: rs =>
    (if head_sent then RawTrailers h else RawHeaders h) :: sent_events (head_sent || negb interim) ops rs
  | SendBody d _ :: ops, Ok _ :: rs =>
    match d with [] => sent_events head_sent ops rs | _ => RawData d :: sent_events head_sent ops rs end
  | _ :: ops, Err _ :: rs => sent_events head_sent ops rs
  | _, _ => []
  end.

(** The sending half [s] and the receiving half [r] of the peer are at the same point. *)
Definition in_step (s r : RequestStream) : Prop :=
  rq_is_connect s = false /\ rq_is_connect r = false /\ rq_is_wt_connect r = false /\ q_wf (rq_send_buf s) /\
  match rq_send_state s with
  | ReqInitial | InterimResponseSent => rq_recv_state r = WaitingHeaders /\ send_fin (rq_send_buf s) = false
  | HeadersSent | SendingBody => rq_recv_state r = ReceivingBody /\ send_fin (rq_send_buf s) = false
  | TrailersSent => rq_recv_state r = TrailersReceived /\ send_fin (rq_send_buf s) = false
  | SendComplete => (rq_recv_state r = ReceivingBody \/ rq_recv_state r = TrailersReceived) /\
      send_fin (rq_send_buf s) = true
  end.
Definition head_sent (s : RequestStream) : bool :=
  match rq_send_state s with ReqInitial | InterimResponseSent => false | _ => true end.

(** The frames a call adds to the buffer. *)
Definition op_frames (o : send_op) : list Frame :=
  match o with SendHeaders h _ _ => [Headers h] | SendBody [] _ => [] | SendBody d _ => [Data d] end.

Lemma headers_encodable h : bytes_ok h -> len h <= VARINT_MAX -> frame_encodable (Headers h).
Proof. intros. by split_and!. Qed.
Lemma data_encodable d : bytes_ok d -> len d <= VARINT_MAX -> frame_encodable (Data d).
Proof. intros. by split_and!. Qed.

Lemma finish_send_peek s fin : send_peek (rq_send_buf (finish_send s fin)) = send_peek (rq_send_buf s).
Proof. by destruct fin. Qed.

Definition op_data (o : send_op) : bytes := match o with SendBody d _ => d | SendHeaders _ _ _ => [] end.

(** The peer's view of a call that returned [Ok]. *)
Definition followed (s r s' : RequestStream) (o : send_op) : Prop :=
  exists r', request_verdict r (op_frames o) = (r', Ok (sent_events (head_sent s) [o] [Ok ()])) /\
    in_step s' r' /\ rq_max_received_body_size r' = rq_max_received_body_size r /\
    rq_recv_body r' = rq_recv_body r ++ op_data o.

(** HEADERS at a point where the peer waits for them. *)
Lemma verdict_headers r h interim : rq_recv_state r = WaitingHeaders -> decoded h = mkReaction interim false false ->
  request_verdict r [Headers h] =
    (with_recv r (if interim then WaitingHeaders else ReceivingBody) (rq_state r) (rq_recv_body r) true,
     Ok [RawHeaders h]).
Proof.
  intros Hs Hd. cbn [request_verdict handle_frame processed with_recv rq_recv_state]. rewrite Hs. cbn [on_event].
  rewrite Hd. cbn [informational connect wt_connect]. unfold notify_informational. by destruct interim.
Qed.

Lemma verdict_trailers r h : rq_recv_state r = ReceivingBody -> rq_is_connect r = false ->
  request_verdict r [Headers h] =
    (with_recv r TrailersReceived (rq_state r) (rq_recv_body r) true, Ok [RawTrailers h]).
Proof.
  intros Hs Hc. cbn [request_verdict handle_frame processed with_recv rq_recv_state rq_is_connect]. by rewrite Hs, Hc.
Qed.

Lemma verdict_data r d : rq_recv_state r = ReceivingBody -> rq_is_wt_connect r = false ->
  len (rq_recv_body r) + len d <= rq_max_received_body_size r ->
  request_verdict r [Data d] =
    (with_recv r ReceivingBody (rq_state r) (rq_recv_body r ++ d) true, Ok [RawData d]).
Proof.
  intros Hs Hw Hl. cbn [request_verdict handle_frame processed with_recv rq_recv_state rq_is_wt_connect].
  rewrite Hs, Hw. change (rq_max_received_body_size (processed r)) with (rq_max_received_body_size r).
  change (rq_recv_body (processed r)) with (rq_recv_body r). unfold saturating_add.
  destruct (Z.ltb_spec (rq_max_received_body_size r) (Z.min (len (rq_recv_body r) + len d) U64_MAX)); [lia|done].
Qed.

Lemma send_push_wf b data : q_wf b -> q_wf (send_push b data).
Proof. exact (q_push_wf (B := SendBuffer) b data). Qed.
Lemma send_push_peek b data : q_wf b -> send_peek (send_push b data) = send_peek b ++ data.
Proof. exact (q_push_peek (B := SendBuffer) b data). Qed.

Lemma finish_send_wf s fin : q_wf (rq_send_buf s) -> q_wf (rq_send_buf (finish_send s fin)).
Proof. by destruct fin. Qed.

(** The state the receiver reaches with a call's frames; a FIN may follow. *)
Lemma in_step_finish s r fin : in_step s r -> head_sent s = true -> rq_send_state s <> SendComplete ->
  in_step (finish_send s fin) r.
Proof.
  intros (Hsc & Hrc & Hrw & Hw & Hst) Hh Hn. destruct fin; [|done].
  split_and!; [done..|]. cbn. split; [|done]. unfold head_sent in Hh.
  destruct (rq_send_state s); try done; destruct Hst; by (left + right).
Qed.

(** What a call promises. *)
Definition call_spec (s r : RequestStream) (o : send_op) : Prop :=
  exists s' res, run_send s o = Some (s', res) /\
    match res with
    | Err _ => s' = s
    | Ok _ =>
      q_wf (rq_send_buf s') /\
      send_peek (rq_send_buf s') = send_peek (rq_send_buf s) ++ concat (map frame_bytes (op_frames o)) /\
      head_sent s' = head_sent s || match o with SendHeaders _ _ i => negb i | SendBody _ _ => false end /\
      (len (rq_recv_body r) + len (op_data o) <= rq_max_received_body_size r -> followed s r s' o)
    end.

Lemma send_headers_spec s r h fin interim : send_op_ok (SendHeaders h fin interim) -> in_step s r ->
  call_spec s r (SendHeaders h fin interim).
Proof.
  intros (Hb & Hl & Hd) Hi. pose proof Hi as (Hsc & Hrc & Hrw & Hw & Hst). unfold call_spec. cbn [run_send].
  unfold send_encoded_headers. destruct (can_send (rq_state s)); cbn [negb]; [|by eexists _, _].
  destruct (headers_refused s interim) eqn:Er; [by eexists _, _|].
  destruct (interim && fin) eqn:Eif; [by eexists _, _|].
  rewrite frame_to_vec_spec by by apply headers_encodable. cbn [mbind option_bind].
  set (st := match rq_send_state s with
    | ReqInitial | InterimResponseSent => if interim then InterimResponseSent else HeadersSent
    | _ => TrailersSent end).
  set (s1 := with_send s (send_push (rq_send_buf s) (frame_bytes (Headers h))) st (rq_state s)).
  exists (finish_send s1 fin), (Ok ()). split; [done|]. split; [by apply finish_send_wf, send_push_wf|].
  split; [rewrite finish_send_peek; cbn [op_frames map concat]; rewrite app_nil_r; by apply send_push_peek|].
  assert (head_sent (finish_send s1 fin) = head_sent s || negb interim /\ rq_send_state s1 <> SendComplete /\
    (interim = true -> fin = false)) as (Hh & Hn & Hif).
  { unfold head_sent, headers_refused, s1, st in *. destruct fin, interim, (rq_send_state s), (rq_is_connect s); by split_and!. }
  split; [done|]. intros _.
  assert (exists r', request_verdict r [Headers h] = (r', Ok (sent_events (head_sent s) [SendHeaders h fin interim] [Ok ()])) /\
    in_step s1 r' /\ rq_max_received_body_size r' = rq_max_received_body_size r /\ rq_recv_body r' = rq_recv_body r)
    as (r' & Hv & Hi' & Hm & Hbody).
  { cbn [sent_events]. unfold headers_refused, head_sent in *. destruct (rq_send_state s) eqn:Es; destruct Hst as [Hst Hf]; try done.
    1, 2: rewrite (verdict_headers r h interim) by done; eexists; split; [done|]; split; [|done].
    3, 4: rewrite Hsc in Er; rewrite verdict_trailers by done; eexists; split; [done|]; split; [|done].
    all: unfold s1, st; rewrite ?Es; split_and!; try done; try (by apply send_push_wf); cbn; by destruct interim. }
  exists r'. cbn [op_frames op_data]. rewrite Hbody, app_nil_r. split_and!; try done.
  destruct interim; [by rewrite Hif|]. apply in_step_finish; [done| |done].
  unfold head_sent, s1, st. cbn. by destruct (rq_send_state s).
Qed.

Lemma send_body_spec s r d fin : send_op_ok (SendBody d fin) -> in_step s r -> call_spec s r (SendBody d fin).
Proof.
  intros [Hb Hl] Hi. pose proof Hi as (Hsc & Hrc & Hrw & Hw & Hst). unfold call_spec. cbn [run_send].
  unfold send_body. destruct (can_send (rq_state s)); cbn [negb]; [|by eexists _, _].
  destruct (decide (rq_send_state s = HeadersSent \/ rq_send_state s = SendingBody)) as [Hs|Hs].
  2: { exists s, (Err (StreamError FrameUnexpected)). split; [|done]. destruct (rq_send_state s); naive_solver. }
  assert (rq_recv_state r = ReceivingBody /\ send_fin (rq_send_buf s) = false /\ head_sent s = true /\
    rq_send_state s <> SendComplete) as (Hr & Hf & Hh & Hn).
  { unfold head_sent. destruct Hs as [Hs|Hs]; rewrite Hs in Hst |- *; destruct Hst; by split_and!. }
  destruct d as [|x d].
  - exists (finish_send s fin), (Ok ()). split; [by destruct Hs as [-> | ->]|]. split; [by apply finish_send_wf|].
    split; [by rewrite finish_send_peek, app_nil_r|]. split; [rewrite Hh; by destruct fin|].
    intros _. exists r. split; [done|]. split; [by apply in_step_finish|]. by rewrite app_nil_r.
  - set (s1 := with_send s (send_push (rq_send_buf s) (frame_bytes (Data (x :: d)))) SendingBody (rq_state s)).
    exists (finish_send s1 fin), (Ok ()).
    split; [rewrite frame_to_vec_spec by (by apply data_encodable); by destruct Hs as [-> | ->]|].
    split; [by apply finish_send_wf, send_push_wf|].
    split; [rewrite finish_send_peek; cbn [op_frames map concat]; rewrite app_nil_r; by apply send_push_peek|].
    split; [rewrite Hh; by destruct fin|]. intros Hmax. unfold followed. cbn [op_frames op_data sent_events] in *.
    rewrite verdict_data by done. eexists. split; [done|]. split; [|done].
    apply in_step_finish; [|done|done]. split_and!; try done. by apply send_push_wf.
Qed.

Lemma run_send_spec s r o : send_op_ok o -> in_step s r -> call_spec s r o.
Proof. destruct o; [apply send_headers_spec|apply send_body_spec]. Qed.

Lemma request_verdict_app r a b r' l : request_verdict r a = (r', Ok l) ->
  request_verdict r (a ++ b) = (let '(r'', res) := request_verdict r' b in (r'', app l <$> res)).
Proof.
  revert r l. induction a as [|f a IH]; intros r l; cbn [request_verdict app].
  - intros [= <- <-]. by destruct (request_verdict r b) as [? [?|?]].
  - destruct (handle_frame (processed r) f) as [r1 [[ev|]|e]]; [|apply IH|done].
    destruct (request_verdict (on_event ev r1) a) as [r2 [k|e]] eqn:Ea; [|done].
    intros [= -> <-]. rewrite (IH _ _ Ea). by destruct (request_verdict r' b) as [? [?|?]].
Qed.

Lemma sent_events_cons h o ops rs :
  sent_events h (o :: ops) (Ok () :: rs) = sent_events h [o] [Ok ()] ++
    sent_events (h || match o with SendHeaders _ _ i => negb i | SendBody _ _ => false end) ops rs.
Proof. destruct o as [? ? ?|[|x d] ?]; cbn; by rewrite ?orb_false_r. Qed.

Lemma data_of_sent h o : data_of (sent_events h [o] [Ok ()]) = op_data o.
Proof. destruct o as [? ? ?|[|x d] ?]; cbn; [by destruct h|done|]. unfold data_of. cbn. by rewrite app_nil_r. Qed.

Lemma data_of_app l k : data_of (l ++ k) = data_of l ++ data_of k.
Proof. unfold data_of. by rewrite map_app, concat_app. Qed.

Lemma op_frames_encodable o : send_op_ok o -> Forall (fun f => frame_encodable f) (op_frames o).
Proof.
  destruct o as [h ? ?|[|x d] ?]; cbn [op_frames]; [| |].
  - intros (? & ? & _). constructor; [by apply headers_encodable|done].
  - constructor.
  - intros [? ?]. constructor; [by apply data_encodable|done].
Qed.

(** The frames of the calls that returned [Ok]. *)
Fixpoint sent_frames (ops : list send_op) (results : list (result Error unit)) : list Frame :=
  match ops, results with
  | o :: ops, Ok _ :: rs => op_frames o ++ sent_frames ops rs
  | _ :: ops, Err _ :: rs => sent_frames ops rs
  | _, _ => []
  end.

Lemma sent_frames_encodable ops rs : Forall send_op_ok ops -> Forall (fun f => frame_encodable f) (sent_frames ops rs).
Proof.
  intros Hops. revert rs. induction Hops as [|o ops Ho _ IH]; intros [|[[]|] rs]; cbn [sent_frames]; try done.
  apply Forall_app. split; [by apply op_frames_encodable|done].
Qed.

(** Some peer is at the same point, whatever limit this one has. *)
Lemma in_step_next s r o s' : send_op_ok o -> in_step s r -> run_send s o = Some (s', Ok ()) ->
  exists r', in_step s' r'.
Proof.
  intros Ho Hi E. set (r0 := set_max_received_body_size r (len (rq_recv_body r) + len (op_data o))).
  destruct (run_send_spec s r0 o Ho Hi) as (s1 & res & E1 & H). rewrite E in E1. injection E1 as <- <-.
  destruct H as (_ & _ & _ & Hf). destruct Hf as (r' & _ & Hr' & _); [cbn; lia|]. by exists r'.
Qed.

(** No sequence of calls panics, and what is queued are the frames of the calls that succeeded. *)
Lemma run_sends_total ops s r : Forall send_op_ok ops -> in_step s r ->
  exists s' results, run_sends s ops = Some (s', results) /\
    send_peek (rq_send_buf s') = send_peek (rq_send_buf s) ++ concat (map frame_bytes (sent_frames ops results)).
Proof.
  intros Hops. revert s r. induction Hops as [|o ops Ho _ IH]; intros s r Hi.
  { exists s, []. by rewrite app_nil_r. }
  destruct (run_send_spec s r o Ho Hi) as (s1 & res & E & H). cbn [run_sends]. rewrite E. cbn [mbind option_bind].
  destruct res as [[]|e].
  - destruct (in_step_next s r o s1 Ho Hi E) as (r1 & Hi1). destruct (IH s1 r1 Hi1) as (s2 & rs & -> & Hp).
    exists s2, (Ok () :: rs). split; [done|]. destruct H as (_ & Hp1 & _). cbn [sent_frames].
    by rewrite Hp, Hp1, map_app, concat_app, app_assoc.
  - subst s1. destruct (IH s r Hi) as (s2 & rs & -> & Hp). by exists s2, (Err e :: rs).
Qed.

(** A peer with room for the body gets the events of the calls that succeeded. *)
Lemma run_sends_followed ops s r s' results : Forall send_op_ok ops -> in_step s r ->
  run_sends s ops = Some (s', results) ->
  len (rq_recv_body r) + len (data_of (sent_events (head_sent s) ops results)) <= rq_max_received_body_size r ->
  exists r', request_verdict r (sent_frames ops results) = (r', Ok (sent_events (head_sent s) ops results)) /\
    in_step s' r' /\ rq_recv_body r' = rq_recv_body r ++ data_of (sent_events (head_sent s) ops results).
Proof.
  intros Hops. revert s r results. induction Hops as [|o ops Ho _ IH]; intros s r results Hi.
  { intros [= <- <-] _. exists r. by rewrite app_nil_r. }
  destruct (run_send_spec s r o Ho Hi) as (s1 & res & E & H). cbn [run_sends]. rewrite E. cbn [mbind option_bind].
  destruct (run_sends s1 ops) as [[s2 rs]|] eqn:Er; [|done]. cbn [mbind option_bind]. intros [= -> <-].
  destruct res as [[]|e].
  2: { subst s1. assert (sent_events (head_sent s) (o :: ops) (Err e :: rs) = sent_events (head_sent s) ops rs)
         as -> by by destruct o. by apply IH. }
  destruct H as (_ & _ & Hh & Hf). rewrite sent_events_cons, <- Hh, data_of_app, data_of_sent, len_app. intros Hm.
  pose proof (len_nonneg (data_of (sent_events (head_sent s1) ops rs))).
  destruct Hf as (r1 & Hv & Hi1 & Hmax & Hbody); [lia|].
  destruct (IH s1 r1 rs Hi1 Er) as (r' & Hv' & Hi' & Hb'); [rewrite Hmax, Hbody, len_app; lia|].
  exists r'. cbn [sent_frames]. rewrite (request_verdict_app _ _ _ _ _ Hv), Hv'. cbn [fmap result_fmap].
  split_and!; [done|done|]. by rewrite Hb', Hbody, app_assoc.
Qed.
End receiving.

(** ** A whole message *)
Record message := mkMessage { interims : list bytes; msg_head : bytes; msg_body : list bytes; msg_trailers : option bytes }.

(** The calls that send it. *)
Definition message_ops (m : message) : list send_op :=
  map (fun h => SendHeaders h false true) (interims m) ++ SendHeaders (msg_head m) false false ::
  map (fun d => SendBody d false) (msg_body m) ++
  [match msg_trailers m with Some t => SendHeaders t true false | None => SendBody [] true end].

Definition message_events (m : message) : list RawReceivedData :=
  map RawHeaders (interims m) ++ RawHeaders (msg_head m) ::
  map RawData (List.filter (fun d => match d with [] => false | _ => true end) (msg_body m)) ++
  match msg_trailers m with Some t => [RawTrailers t] | None => [] end.

Definition field_ok (h : bytes) : Prop := bytes_ok h /\ len h <= VARINT_MAX.
Definition message_ok (m : message) : Prop :=
  Forall field_ok (interims m) /\ field_ok (msg_head m) /\ Forall field_ok (msg_body m) /\
  match msg_trailers m with Some t => field_ok t | None => True end.

(** Ready for more, at one of the given points. *)
Definition sending (states : list RequestSendState) (s : RequestStream) : Prop :=
  rq_state s = Open /\ rq_is_connect s = false /\ q_wf (rq_send_buf s) /\ send_fin (rq_send_buf s) = false /\
  send_fin_sent (rq_send_buf s) = false /\ rq_send_state s ∈ states.

Lemma run_sends_app s a b : run_sends s (a ++ b) =
  ('(s1, r1) ← run_sends s a; '(s2, r2) ← run_sends s1 b; Some (s2, r1 ++ r2)).
Proof.
  revert s. induction a as [|o a IH]; intros s; cbn [app run_sends].
  - cbn. by destruct (run_sends s b) as [[? ?]|].
  - destruct (run_send s o) as [[s1 r]|]; [|done]. cbn [mbind option_bind]. rewrite IH.
    destruct (run_sends s1 a) as [[s2 rs]|]; [|done]. cbn [mbind option_bind].
    by destruct (run_sends s2 b) as [[? ?]|].
Qed.

Lemma can_send_headers s h (interim : bool) : field_ok h ->
  sending (if interim then [ReqInitial; InterimResponseSent] else [ReqInitial; InterimResponseSent; HeadersSent; SendingBody]) s ->
  exists s', run_send s (SendHeaders h false interim) = Some (s', Ok ()) /\
    sending (if interim then [ReqInitial; InterimResponseSent]
             else if head_sent s then [TrailersSent] else [HeadersSent; SendingBody]) s'.
Proof.
  intros [Hb Hl] (Hs & Hc & Hw & Hf & Hfs & Hst). cbn [run_send]. unfold send_encoded_headers, headers_refused.
  rewrite Hs, Hc, frame_to_vec_spec by by apply headers_encodable. unfold head_sent. cbn [can_send negb mbind option_bind].
  destruct interim; set_unfold in Hst; destruct (rq_send_state s) eqn:E; try naive_solver; eexists; (split; [done|]);
    split_and!; try done; try (by apply send_push_wf); set_solver.
Qed.

Lemma can_send_body s d : field_ok d -> sending [HeadersSent; SendingBody] s ->
  exists s', run_send s (SendBody d false) = Some (s', Ok ()) /\ sending [HeadersSent; SendingBody] s'.
Proof.
  intros [Hb Hl] H. pose proof H as (Hs & Hc & Hw & Hf & Hfs & Hst). cbn [run_send]. unfold send_body. rewrite Hs.
  cbn [can_send negb]. set_unfold in Hst. destruct d as [|x d].
  - exists s. split; [|done]. by destruct Hst as [-> | [-> | ?]].
  - rewrite frame_to_vec_spec by by apply data_encodable. cbn [mbind option_bind].
    eexists. split; [by destruct Hst as [-> | [-> | ?]]|]. split_and!; try done; [by apply send_push_wf|set_solver].
Qed.

Lemma can_send_all {A} (f : A -> send_op) l s states : sending states s ->
  (forall x s, x ∈ l -> sending states s -> exists s', run_send s (f x) = Some (s', Ok ()) /\ sending states s') ->
  exists s', run_sends s (map f l) = Some (s', map (fun _ => Ok ()) (map f l)) /\ sending states s'.
Proof.
  revert s. induction l as [|x l IH]; intros s Hs Hf; [by exists s|].
  destruct (Hf x s ltac:(by left) Hs) as (s1 & E & Hs1).
  destruct (IH s1 Hs1) as (s2 & E2 & Hs2); [intros y s3 Hy; apply Hf; by right|].
  exists s2. cbn [map run_sends]. rewrite E. cbn [mbind option_bind]. rewrite E2. done.
Qed.

(** The last call sets the FIN. *)
Lemma can_send_last s t : match t with Some t => field_ok t | None => True end -> sending [HeadersSent; SendingBody] s ->
  exists s', run_send s (match t with Some t => SendHeaders t true false | None => SendBody [] true end) = Some (s', Ok ()) /\
    q_wf (rq_send_buf s') /\ send_fin (rq_send_buf s') = true /\ send_fin_sent (rq_send_buf s') = false /\
    rq_state s' = LocalClosed.
Proof.
  intros Ht (Hs & Hc & Hw & Hf & Hfs & Hst). set_unfold in Hst. destruct t as [t|]; cbn [run_send].
  - destruct Ht. unfold send_encoded_headers, headers_refused. rewrite Hs, Hc.
    rewrite frame_to_vec_spec by by apply headers_encodable. cbn [can_send negb].
    destruct Hst as [-> | [-> | ?]]; [| |done]; cbn; rewrite ?Hs; eexists; (split; [done|]); split_and!; try done;
      by apply send_push_wf.
  - unfold send_body. rewrite Hs. cbn [can_send negb].
    destruct Hst as [-> | [-> | ?]]; [| |done]; cbn; rewrite ?Hs; eexists; (split; [done|]); by split_and!.
Qed.

Lemma sent_events_app h a b rs : sent_events h (a ++ b) (map (fun _ => Ok ()) a ++ rs) =
  sent_events h a (map (fun _ => Ok ()) a) ++
  sent_events (h || existsb (fun o => match o with SendHeaders _ _ i => negb i | SendBody _ _ => false end) a) b rs.
Proof.
  revert h. induction a as [|o a IH]; intros h; [by rewrite orb_false_r|].
  cbn [app map]. rewrite sent_events_cons, IH, (sent_events_cons h o a), <- app_assoc. cbn [existsb]. by rewrite orb_assoc.
Qed.

Lemma message_sent_events m : sent_events false (message_ops m) (map (fun _ => Ok ()) (message_ops m)) = message_events m.
Proof.
  assert (forall l : list bytes, sent_events false (map (fun h => SendHeaders h false true) l) (map (fun _ => Ok ()) (map (fun h : bytes => SendHeaders h false true) l)) =
    map RawHeaders l /\ existsb (fun o => match o with SendHeaders _ _ i => negb i | SendBody _ _ => false end)
      (map (fun h => SendHeaders h false true) l) = false) as Hi.
  { induction l as [|h l [IH1 IH2]]; [done|]. cbn. by rewrite IH1, IH2. }
  assert (forall (l : list bytes) k rs, sent_events true (map (fun d => SendBody d false) l ++ k) (map (fun _ => Ok ()) (map (fun d => SendBody d false) l) ++ rs) =
    map RawData (List.filter (fun d => match d with [] => false | _ => true end) l) ++ sent_events true k rs) as Hb.
  { intros l k rs. induction l as [|[|x d] l IH]; [done|exact IH|]. cbn. by rewrite IH. }
  unfold message_ops, message_events. rewrite map_app, sent_events_app. destruct (Hi (interims m)) as [-> ->].
  f_equal. cbn [map orb sent_events negb]. rewrite map_app, Hb. by destruct (msg_trailers m).
Qed.

Lemma is_data_consumed_peek b : q_wf b -> is_data_consumed b = (len (send_peek b) =? 0).
Proof.
  intros Hw%offset_ok_range. unfold is_data_consumed, send_peek. rewrite len_drop by lia.
  destruct (Z.leb_spec (len (send_data b)) (send_consumed b)); by solve_cmp.
Qed.

(** ** Properties *)

Lemma request_new_rep id role : request_rep (request_new id role) [] (request_new id role).
Proof. split_and!; [by left|done..]. Qed.

Lemma request_new_in_step id1 role1 id2 role2 : in_step (request_new id1 role1) (request_new id2 role2).
Proof. split_and!; try done. by left. Qed.

(** C27. A request stream works end to end: no sequence of sending calls panics; whatever
    calls are made, some accepted and some refused, a peer whose header decoder agrees
    on which headers are interim ones and that gets the queued bytes in any chunks never
    fails and delivers exactly the headers, data and trailers of the accepted calls, the
    body being the concatenation of the data; once a call has set the FIN, the peer that
    gets the FIN as well sees the end of the stream. *)
Theorem request_stream_end_to_end decoded id role1 role2 ops chunks :
  Forall (send_op_ok decoded) ops -> Forall (fun c => bytes_ok c) chunks ->
  exists s results, run_sends (request_new id role1) ops = Some (s, results) /\
    let events := sent_events false ops results in
    (concat chunks = fst (get_send_data s) -> len (data_of events) <= DEFAULT_MAX_RECEIVED_BODY_SIZE ->
      (exists r, request_receive_chunks decoded chunks (request_new id role2) = Some (r, Ok events) /\
        rq_recv_body r = data_of events) /\
      (send_fin (rq_send_buf s) = true ->
        exists r, request_receive_stream decoded chunks (request_new id role2) = Some (r, Ok (events ++ [StreamEnd])))).
Proof.
  intros Hops Hc. pose proof (request_new_in_step id role1 id role2) as Hi.
  destruct (run_sends_total decoded ops _ _ Hops Hi) as (s & results & E & Hp).
  exists s, results. split; [done|]. cbn zeta. intros Hcat Hl. cbn [get_send_data fst] in Hcat. rewrite Hp in Hcat.
  cbn [request_new rq_send_buf send_new] in Hcat. change (send_peek send_new) with (@nil Z) in Hcat. cbn [app] in Hcat.
  destruct (run_sends_followed decoded ops _ _ _ _ Hops Hi E) as (r' & Hv & Hi' & Hb); [done|].
  cbn [head_sent request_new rq_send_state rq_recv_body app] in Hv, Hb.
  pose proof (sent_frames_encodable decoded ops results Hops) as Hfs. split.
  - destruct (request_receive_run decoded _ _ chunks (request_new_rep id role2) Hc) as (c & buf & r2 & res & Er & Hrep & H).
    pose proof (request_run_frames decoded (request_new id role2) (sent_frames ops results) Hfs) as Hrun.
    rewrite Hv in Hrun. destruct Hrun as (items & Hrun & Hitems). rewrite Hcat, Hrun in H. destruct H as (-> & -> & ->).
    exists c. rewrite Er, Hitems. split; [done|]. destruct Hrep as (_ & _ & _ & ->). done.
  - intros Hfin. destruct (request_receive_stream_frames decoded _ _ chunks _ (request_new_rep id role2) Hc Hfs Hcat) as (c & ->).
    exists c. rewrite Hv. unfold fin_verdict. destruct Hi' as (_ & _ & _ & _ & Hst). rewrite Hfin in Hst.
    destruct (rq_send_state s); destruct Hst as [Hst Hf]; try done. by destruct Hst as [-> | ->].
Qed.

(** A complete message can always be sent: interim headers, the final headers, body
    chunks and trailers (or a FIN on their own) are all accepted on a new stream, in
    this order, and stand for exactly the events of the message. The FIN is handed out
    once, after all the data: while bytes are left it is not pending, after the last
    byte it is, and once it is marked as sent it is not again and sending is complete.
    After the message every further call is refused and changes nothing. *)
Theorem request_message_sendable id role m : message_ok m ->
  exists s, run_sends (request_new id role) (message_ops m) = Some (s, map (fun _ => Ok ()) (message_ops m)) /\
    sent_events false (message_ops m) (map (fun _ => Ok ()) (message_ops m)) = message_events m /\
    (forall n, 0 <= n <= len (fst (get_send_data s)) ->
      exists s1, consume_send_data s n = Some s1 /\
        get_send_data s1 = (drop_z n (fst (get_send_data s)), n =? len (fst (get_send_data s))) /\
        is_send_complete s1 = false /\
        (n = len (fst (get_send_data s)) ->
          get_send_data (mark_fin_sent s1) = ([], false) /\ is_send_complete (mark_fin_sent s1) = true)) /\
    forall o, exists e, run_send s o = Some (s, Err e).
Proof.
  intros (Hi & Hh & Hb & Ht). unfold message_ops.
  destruct (can_send_all (fun h => SendHeaders h false true) (interims m) (request_new id role)
    [ReqInitial; InterimResponseSent]) as (s1 & E1 & H1).
  { split_and!; try done; [by left|set_solver]. }
  { intros h s Hin. rewrite Forall_forall in Hi. apply (can_send_headers s h true). by apply Hi. }
  destruct (can_send_headers s1 (msg_head m) false Hh) as (s2 & E2 & H2).
  { destruct H1 as (? & ? & ? & ? & ? & ?). split_and!; try done. set_solver. }
  assert (head_sent s1 = false) as Hs1.
  { destruct H1 as (_ & _ & _ & _ & _ & Hst). set_unfold in Hst. unfold head_sent. by destruct Hst as [-> | [-> | ?]]. }
  rewrite Hs1 in H2.
  destruct (can_send_all (fun d => SendBody d false) (msg_body m) s2 [HeadersSent; SendingBody] H2) as (s3 & E3 & H3).
  { intros d s Hin. rewrite Forall_forall in Hb. apply can_send_body. by apply Hb. }
  destruct (can_send_last s3 (msg_trailers m) Ht H3) as (s4 & E4 & Hw & Hf & Hfs & Hst).
  exists s4. split; [|split; [apply message_sent_events|split]].
  - rewrite run_sends_app, E1. cbn [mbind option_bind run_sends]. rewrite E2. cbn [mbind option_bind].
    rewrite run_sends_app, E3. cbn [mbind option_bind run_sends]. rewrite E4. cbn [mbind option_bind].
    rewrite map_app. cbn [map]. by rewrite map_app.
  - cbn [get_send_data fst]. intros n Hn.
    destruct (q_consume_fits (rq_send_buf s4) n Hw Hn) as (b & Eb & Hwb & Hp). cbn [q_consume q_peek send_queue] in Eb, Hp.
    assert (send_fin b = true /\ send_fin_sent b = false) as [Hfb Hfsb].
    { revert Eb. unfold send_consume. destruct (drain_half _ _) as [[? ?]|]; [|done]. intros [= <-]. done. }
    unfold consume_send_data. rewrite Eb. cbn [mbind option_bind]. eexists. split; [done|].
    unfold get_send_data, has_fin_pending, is_send_complete, mark_fin_sent.
    cbn [rq_send_buf with_send send_mark_fin_sent send_fin send_fin_sent negb].
    rewrite Hfb, Hfsb, is_data_consumed_peek, Hp, andb_false_r by done. cbn [andb negb].
    rewrite len_drop by done. split_and!; [|done|].
    2: { intros ->. change (send_peek (send_mark_fin_sent b)) with (send_peek b). by rewrite Hp, drop_z_all by lia. }
    rewrite andb_true_r. f_equal. destruct (Z.eqb_spec n (len (send_peek (rq_send_buf s4)))); by solve_cmp.
  - intros [h fin interim|d fin]; cbn [run_send]; unfold send_encoded_headers, send_body; rewrite Hst; by eexists.
Qed.

(** Whatever bytes a peer sends on a request stream, followed by a FIN, and whatever
    the connection makes of the headers: [process_raw] does not panic, the outcome does
    not depend on how the bytes are cut into chunks, and what is delivered is a request or
    response in order (interim headers, the headers, data, at most one trailer section,
    the end), the body kept being the data delivered and within its limit. *)
Theorem request_receive_safe decoded id role max chunks1 chunks2 :
  0 <= max < U64_MAX ->
  Forall (fun c => bytes_ok c) chunks1 -> Forall (fun c => bytes_ok c) chunks2 -> concat chunks1 = concat chunks2 ->
  let r0 := set_max_received_body_size (request_new id role) max in
  (exists c1 c2 res, request_receive_stream decoded chunks1 r0 = Some (c1, res) /\
    request_receive_stream decoded chunks2 r0 = Some (c2, res) /\
    forall l, res = Ok l -> event_run decoded WaitingHeaders l = Some RecvComplete) /\
  exists c res, request_receive_chunks decoded chunks1 r0 = Some (c, res) /\
    forall l, res = Ok l -> event_run decoded WaitingHeaders l = Some (rq_recv_state c) /\
      len (rq_recv_body c) <= max /\
      ((forall h, wt_connect (decoded h) = false) -> rq_recv_body c = data_of l).
Proof.
  intros Hm H1 H2 Hcat r0. assert (request_rep r0 [] r0) as Hr by (split_and!; [by left|done..]).
  assert (forall b r items, run_all parse_request None (apply_request decoded) (concat chunks1) r0 = (b, r, Ok items) ->
    stream_kept decoded r0 r (visible_items snd items)) as Hk.
  { intros b r items E. eapply request_run_kept; [|done| |exact E]; [by apply Forall_concat|cbn; lia]. }
  split.
  - destruct (request_receive_stream_run decoded r0 r0 chunks1 Hr H1) as (c1 & ->).
    destruct (request_receive_stream_run decoded r0 r0 chunks2 Hr H2) as (c2 & ->). rewrite <- Hcat.
    eexists c1, c2, _. split; [done|]. split; [done|].
    destruct (run_all parse_request None (apply_request decoded) (concat chunks1) r0) as [[b r] [items|e]] eqn:E; [|by destruct b].
    destruct b; [|done]. intros l. pose proof (Hk _ _ _ eq_refl) as [_ Ho Hc _ _ _]. unfold fin_verdict.
    cbn [rq_recv_state r0] in Ho. destruct (rq_recv_state r) eqn:Es; try done; intros [= <-];
      change (rq_recv_state r0) with WaitingHeaders in Ho; by rewrite event_run_app, Ho.
  - destruct (request_receive_run decoded r0 r0 chunks1 Hr H1) as (c & b & r & res & E & (_ & _ & _ & Er) & H).
    exists c, res. split; [done|]. intros l ->.
    destruct (run_all parse_request None (apply_request decoded) (concat chunks1) r0) as [[b' r'] [items|e]] eqn:Erun; [|done].
    destruct H as (_ & -> & [= ->]). pose proof (Hk _ _ _ eq_refl) as [Hmax Ho _ Hw _ Hb]. rewrite Er in *.
    split; [exact Ho|]. split.
    + unfold body_within in Hw. rewrite Hmax in Hw. apply Hw. change (0 <= max). lia.
    + intros Hd. exact (Hb eq_refl Hd).
Qed.

(** A decoder that takes the one-byte section [[1]] for interim headers. *)
Definition sample_decoded (h : bytes) : reaction := mkReaction (bytes_eqb h [1]) false false.

Definition sample_message : message := mkMessage [[1]] [2] [[10; 11]; []; [12]] (Some [3]).

Definition sample_chunks : list bytes := [[0x01; 0x01; 0x01; 0x01]; [0x01; 0x02; 0x00; 0x02; 10]; [11; 0x00; 0x01; 12; 0x01; 0x01; 0x03]].

Lemma request_stream_end_to_end_witness :
  exists r, request_receive_stream sample_decoded sample_chunks (request_new 0 Server) =
    Some (r, Ok [RawHeaders [1]; RawHeaders [2]; RawData [10; 11]; RawData [12]; RawTrailers [3]; StreamEnd]).
Proof.
  destruct (request_stream_end_to_end sample_decoded 0 Client Server
    ((SendBody [9] false :: message_ops sample_message) ++ [SendBody [9] true]) sample_chunks) as (s & rs & E & H).
  - cbn. repeat (apply List.Forall_cons; [split; [solve_bytes|first [split; [discriminate|reflexivity]|discriminate]]|]). constructor.
  - repeat (apply List.Forall_cons; [solve_bytes|]). constructor.
  - vm_compute in E. injection E as <- <-. destruct H as [_ H]; [reflexivity|vm_compute; discriminate|].
    apply H. reflexivity.
Defined.

Lemma request_message_sendable_witness :
  exists s, run_sends (request_new 0 Client) (message_ops sample_message) = Some (s, map (fun _ => Ok ()) (message_ops sample_message)) /\
    has_fin_pending s = false.
Proof.
  destruct (request_message_sendable 0 Client sample_message) as (s & E & _ & H & _).
  - split; [|split; [|split]]; cbn; repeat (apply List.Forall_cons; [split; [solve_bytes|discriminate]|]); try constructor;
      try solve_bytes; discriminate.
  - exists s. split; [exact E|]. vm_compute in E. injection E as <-. reflexivity.
Defined.

Lemma request_receive_safe_witness :
  exists c1 c2 res, request_receive_stream sample_decoded [[0x01; 0x01]; [0x02; 0x00]] (set_max_received_body_size (request_new 4 Client) 10) = Some (c1, res) /\
    request_receive_stream sample_decoded [[0x01; 0x01; 0x02; 0x00]] (set_max_received_body_size (request_new 4 Client) 10) = Some (c2, res).
Proof.
  destruct (request_receive_safe sample_decoded 4 Client 10 [[0x01; 0x01]; [0x02; 0x00]] [[0x01; 0x01; 0x02; 0x00]])
    as [(c1 & c2 & res & E1 & E2 & _) _].
  - split; [discriminate|reflexivity].
  - repeat (apply List.Forall_cons; [solve_bytes|]). constructor.
  - repeat (apply List.Forall_cons; [solve_bytes|]). constructor.
  - reflexivity.
  - exists c1, c2, res. split; [exact E1|exact E2].
Defined.
