(* ===== verification/UriSyntax.v ===== *)
(** The URI syntax of validation.rs (RFC 3986, RFC 9110 Section 7.1): which bytes the
    values of [:path], [:authority] and [host] may be made of.

    A [while] loop over an index is a recursion over the bytes from that index on. *)

From Stdlib Require Import String Ascii.
From S2P Require Import Prelude Header.

(** ** Slices: [iter().position], [iter().rposition] *)
Fixpoint position (f : Z -> bool) (l : bytes) : option Z :=
  match l with
  | [] => None
  | b :: r => if f b then Some 0 else i ← position f r; Some (i + 1)
  end.

Fixpoint rposition (f : Z -> bool) (l : bytes) : option Z :=
  match l with
  | [] => None
  | b :: r =>
    match rposition f r with
    | Some i => Some (i + 1)
    | None => if f b then Some 0 else None
    end
  end.

(** ** Character classes *)
Definition is_hexdigit (b : Z) : bool := is_digit b || in_range 65 70 b || in_range 97 102 b.

Definition sub_delims : bytes := str "!$&'()*+,;=".
Definition is_sub_delim (b : Z) : bool := existsb (Z.eqb b) sub_delims.

Definition is_pchar (b : Z) : bool :=
  is_alnum b || existsb (Z.eqb b) (str "-._~") || is_sub_delim b || existsb (Z.eqb b) (str ":@").

Definition is_reg_name_char (b : Z) : bool :=
  is_alnum b || existsb (Z.eqb b) (str "-._~") || is_sub_delim b || (b =? 37).

(** ** Paths and queries *)

(** The bytes from [pos] on. *)
Definition is_valid_pct_encoded (rest : bytes) : bool :=
  match rest with
  | _ :: h1 :: h2 :: _ => is_hexdigit h1 && is_hexdigit h2
  | _ => false
  end.

Fixpoint is_valid_path_chars (path : bytes) : bool :=
  match path with
  | [] => true
  | b :: r =>
    if b =? 47 then is_valid_path_chars r
    else if b =? 37 then
      if negb (is_valid_pct_encoded path) then false
      else match r with _ :: _ :: r' => is_valid_path_chars r' | _ => true end
    else if negb (is_pchar b) then false
    else is_valid_path_chars r
  end.

Fixpoint is_valid_query_chars (query : bytes) : bool :=
  match query with
  | [] => true
  | b :: r =>
    if (b =? 47) || (b =? 63) then is_valid_query_chars r
    else if b =? 37 then
      if negb (is_valid_pct_encoded query) then false
      else match r with _ :: _ :: r' => is_valid_query_chars r' | _ => true end
    else if negb (is_pchar b) then false
    else is_valid_query_chars r
  end.

Definition is_valid_http_path (path method : bytes) : bool :=
  match path with
  | [] => false
  | first :: _ =>
    if bytes_eqb method (str "OPTIONS") && bytes_eqb path (str "*") then true
    else if negb (first =? 47) then false
    else if existsb (Z.eqb 35) path then false
    else
      let '(path_part, query_part) :=
        match position (Z.eqb 63) path with
        | Some pos => (take_z pos path, Some (drop_z (pos + 1) path))
        | None => (path, None)
        end in
      if negb (is_valid_path_chars path_part) then false
      else match query_part with
        | Some query => if negb (is_valid_query_chars query) then false else true
        | None => true
        end
  end.

(** ** Hosts and authorities *)
Fixpoint is_valid_reg_name (host : bytes) : bool :=
  match host with
  | [] => true
  | b :: r =>
    if b =? 37 then
      match r with
      | h1 :: h2 :: r' => if negb (is_hexdigit h1) || negb (is_hexdigit h2) then false else is_valid_reg_name r'
      | _ => false
      end
    else if is_reg_name_char b then is_valid_reg_name r
    else false
  end.

Definition is_ip_future_char (b : Z) : bool :=
  is_hexdigit b || existsb (Z.eqb b) (str ".:-_~") || is_sub_delim b.

Definition is_valid_ip_literal_content (content : bytes) : bool :=
  match content with
  | [] => false
  | first :: r =>
    if first =? 118 then (4 <=? len content) && existsb (Z.eqb 46) r && forallb is_ip_future_char r
    else forallb (fun b => is_hexdigit b || (b =? 58) || (b =? 46)) content
  end.

Definition is_valid_authority (value : bytes) : bool :=
  match value with
  | [] => false
  | first :: _ =>
    if first =? 91 then
      match position (Z.eqb 93) value with
      | None => false
      | Some bracket_end =>
        if negb (is_valid_ip_literal_content (drop_z 1 (take_z bracket_end value))) then false
        else match drop_z (bracket_end + 1) value with
          | [] => true
          | c :: port => if negb (c =? 58) then false else forallb is_digit port
          end
      end
    else
      match rposition (Z.eqb 58) value with
      | Some colon_pos =>
        let host := take_z colon_pos value in
        let port := drop_z (colon_pos + 1) value in
        if negb (bool_decide (port = [])) && forallb is_digit port
        then negb (bool_decide (host = [])) && is_valid_reg_name host
        else is_valid_reg_name value
      | None => is_valid_reg_name value
      end
  end.

Definition is_valid_connect_authority (value : bytes) : bool :=
  match value with
  | [] => false
  | first :: _ =>
    if first =? 91 then
      match position (Z.eqb 93) value with
      | None => false
      | Some bracket_end =>
        if (len value <=? bracket_end + 1) || negb (bool_decide (get_at value (bracket_end + 1) = Some 58))
        then false
        else if negb (is_valid_ip_literal_content (drop_z 1 (take_z bracket_end value))) then false
        else
          let port := drop_z (bracket_end + 2) value in
          negb (bool_decide (port = [])) && forallb is_digit port
      end
    else
      match rposition (Z.eqb 58) value with
      | None => false
      | Some colon_pos =>
        let host := take_z colon_pos value in
        let port := drop_z (colon_pos + 1) value in
        negb (bool_decide (host = [])) && negb (bool_decide (port = [])) &&
        is_valid_reg_name host && forallb is_digit port
      end
  end.

(** ** The grammar

    A string over a set of characters, where a percent sign starts an escape of two
    hexadecimal digits. *)
Inductive pct_string (f : Z -> bool) : bytes -> Prop :=
| pct_nil : pct_string f []
| pct_char b r : f b = true -> b <> 37 -> pct_string f r -> pct_string f (b :: r)
| pct_escape h1 h2 r : is_hexdigit h1 = true -> is_hexdigit h2 = true -> pct_string f r ->
    pct_string f (37 :: h1 :: h2 :: r).

Definition digits (l : bytes) : Prop := Forall (fun b => is_digit b = true) l.

Definition is_path_char (b : Z) : bool := is_pchar b || (b =? 47).
Definition is_query_char (b : Z) : bool := is_pchar b || (b =? 47) || (b =? 63).

(** path-absolute [ "?" query ], and "*" for OPTIONS. *)
Definition path_grammar (method p : bytes) : Prop :=
  (method = str "OPTIONS" /\ p = str "*") \/
  exists a, pct_string is_path_char a /\
    (p = 47 :: a \/ exists q, pct_string is_query_char q /\ p = 47 :: a ++ 63 :: q).

Definition reg_name_grammar (h : bytes) : Prop := h <> [] /\ pct_string is_reg_name_char h.

(** The content of the brackets: IPvFuture is checked for its characters, a dot and its
    length, an IPv6 address for its characters. *)
Definition ip_literal_grammar (c : bytes) : Prop :=
  (exists r, c = 118 :: r /\ 3 <= len r /\ 46 ∈ r /\ Forall (fun b => is_ip_future_char b = true) r) \/
  (c <> [] /\ Forall (fun b => is_hexdigit b || (b =? 58) || (b =? 46) = true) c).

Definition bracketed (c : bytes) : bytes := 91 :: c ++ [93].

(** uri-host [ ":" port ], where the port may be empty after a bracket only. *)
Definition authority_grammar (v : bytes) : Prop :=
  reg_name_grammar v \/
  (exists h p, reg_name_grammar h /\ p <> [] /\ digits p /\ v = h ++ 58 :: p) \/
  (exists c, ip_literal_grammar c /\
    (v = bracketed c \/ exists p, digits p /\ v = bracketed c ++ 58 :: p)).

(** uri-host ":" port *)
Definition connect_authority_grammar (v : bytes) : Prop :=
  exists h p, (reg_name_grammar h \/ exists c, ip_literal_grammar c /\ h = bracketed c) /\
    p <> [] /\ digits p /\ v = h ++ 58 :: p.

(** ** Positions *)
Lemma position_spec c l :
  match position (Z.eqb c) l with
  | None => c ∉ l
  | Some i => exists a r, l = a ++ c :: r /\ c ∉ a /\ i = len a
  end.
Proof.
  induction l as [|b r IH]; cbn [position]; [by apply not_elem_of_nil|].
  destruct (Z.eqb_spec c b) as [->|Hb].
  { exists [], r. split_and!; [done|by apply not_elem_of_nil|done]. }
  destruct (position (Z.eqb c) r) as [i|]; cbn.
  - destruct IH as (a & r' & -> & Ha & ->). exists (b :: a), r'.
    split_and!; [done|by apply not_elem_of_cons|rewrite len_cons; lia].
  - by apply not_elem_of_cons.
Qed.

Lemma rposition_spec c l :
  match rposition (Z.eqb c) l with
  | None => c ∉ l
  | Some i => exists a r, l = a ++ c :: r /\ c ∉ r /\ i = len a
  end.
Proof.
  induction l as [|b r IH]; cbn [rposition]; [by apply not_elem_of_nil|].
  destruct (rposition (Z.eqb c) r) as [i|].
  - destruct IH as (a & r' & -> & Hr & ->). exists (b :: a), r'.
    split_and!; [done..|rewrite len_cons; lia].
  - destruct (Z.eqb_spec c b) as [->|Hb]; [|by apply not_elem_of_cons].
    exists [], r. split_and!; done.
Qed.

Lemma position_app c a r : c ∉ a -> position (Z.eqb c) (a ++ c :: r) = Some (len a).
Proof.
  induction a as [|b a IH]; cbn [position app].
  - intros _. by rewrite Z.eqb_refl.
  - intros [? Ha]%not_elem_of_cons. replace (c =? b) with false by lia.
    rewrite IH by done. cbn. rewrite len_cons. f_equal. lia.
Qed.

Lemma position_None c l : c ∉ l -> position (Z.eqb c) l = None.
Proof.
  intros H. pose proof (position_spec c l) as S. destruct (position _ l); [|done].
  destruct S as (a & r & -> & _). destruct H. set_solver.
Qed.

Lemma rposition_app c a r : c ∉ r -> rposition (Z.eqb c) (a ++ c :: r) = Some (len a).
Proof.
  intros H. induction a as [|b a IH]; cbn [rposition app].
  - pose proof (rposition_spec c r) as S. destruct (rposition _ r); [|by rewrite Z.eqb_refl].
    destruct S as (a & r' & -> & _). destruct H. set_solver.
  - rewrite IH, len_cons. f_equal. lia.
Qed.

Lemma rposition_None c l : c ∉ l -> rposition (Z.eqb c) l = None.
Proof.
  intros H. pose proof (rposition_spec c l) as S. destruct (rposition _ l); [|done].
  destruct S as (a & r & -> & _). destruct H. set_solver.
Qed.

(** The slices on both sides of a position. *)
Lemma drop_z_app_cons {A} (a : list A) c r : drop_z (len a + 1) (a ++ c :: r) = r.
Proof.
  replace (a ++ c :: r) with ((a ++ [c]) ++ r) by by rewrite <- app_assoc.
  apply drop_z_app_eq. zlen.
Qed.

(** ** Strings with escapes *)
Lemma existsb_eqb c l : existsb (Z.eqb c) l = true <-> c ∈ l.
Proof.
  rewrite existsb_exists, list_elem_of_In. split; [intros (x & ? & ->%Z.eqb_eq); done|].
  intros. exists c. by rewrite Z.eqb_refl.
Qed.
Lemma existsb_eqb_false c l : existsb (Z.eqb c) l = false <-> c ∉ l.
Proof. by rewrite <- existsb_eqb, not_true_iff_false. Qed.

Lemma pct_string_not_elem f c l : is_hexdigit c = false -> f c = false -> c <> 37 ->
  pct_string f l -> c ∉ l.
Proof.
  intros Hh Hf Hc H. induction H; [by apply not_elem_of_nil|..]; rewrite !not_elem_of_cons;
    split_and!; try done; congruence.
Qed.

Lemma pct_string_percent f r :
  pct_string f (37 :: r) <->
  exists h1 h2 r', r = h1 :: h2 :: r' /\ is_hexdigit h1 = true /\ is_hexdigit h2 = true /\ pct_string f r'.
Proof.
  split.
  - intros H. inversion H; subst; [done|]. eauto 10.
  - intros (h1 & h2 & r' & -> & ? & ? & ?). by constructor.
Qed.

Lemma pct_string_char f b r : b <> 37 -> pct_string f (b :: r) <-> f b = true /\ pct_string f r.
Proof.
  intros Hb. split; [intros H; inversion H; subst; done|]. intros [? ?]. by constructor.
Qed.

Section escapes.
Context (f : Z -> bool) (check : bytes -> bool).
Hypothesis check_nil : check [] = true.
Hypothesis check_char : forall b r, b <> 37 -> check (b :: r) = f b && check r.
Hypothesis check_escape : forall h1 h2 r,
  check (37 :: h1 :: h2 :: r) = is_hexdigit h1 && is_hexdigit h2 && check r.
Hypothesis check_short : forall r, len r < 2 -> check (37 :: r) = false.

(** A loop with these equations decides [pct_string]. *)
Lemma check_pct_string l : check l = true <-> pct_string f l.
Proof.
  induction l as [l IH] using (induction_ltof1 _ (@length Z)). unfold ltof in IH.
  destruct l as [|b r]; [rewrite check_nil; split; [constructor|done]|].
  destruct (decide (b = 37)) as [->|Hb].
  - rewrite pct_string_percent. destruct r as [|h1 [|h2 r]].
    1-2: rewrite check_short by done; split; [done|]; intros (? & ? & ? & ? & _); done.
    rewrite check_escape, !andb_true_iff, IH by (cbn; lia). naive_solver.
  - rewrite check_char, pct_string_char, andb_true_iff, IH by (done || (cbn; lia)). done.
Qed.
End escapes.

Lemma if_negb_false (b c : bool) : (if negb b then false else c) = b && c.
Proof. by destruct b. Qed.

Lemma short_lists (r : bytes) : len r < 2 -> r = [] \/ exists b, r = [b].
Proof. intros H. destruct r as [|b [|c r]]; [by left|right; by exists b|zlen]. Qed.

Lemma is_valid_path_chars_spec l : is_valid_path_chars l = true <-> pct_string is_path_char l.
Proof.
  apply check_pct_string; [done|..].
  - intros b r Hb. cbn [is_valid_path_chars]. unfold is_path_char.
    replace (b =? 37) with false by lia. rewrite if_negb_false.
    by destruct (b =? 47); rewrite ?orb_true_r, ?orb_false_r.
  - intros h1 h2 r. cbn. by destruct (is_hexdigit h1), (is_hexdigit h2).
  - intros r [->|[b ->]]%short_lists; done.
Qed.

Lemma is_valid_query_chars_spec l : is_valid_query_chars l = true <-> pct_string is_query_char l.
Proof.
  apply check_pct_string; [done|..].
  - intros b r Hb. cbn [is_valid_query_chars]. unfold is_query_char.
    replace (b =? 37) with false by lia. rewrite if_negb_false, <- orb_assoc.
    by destruct ((b =? 47) || (b =? 63)); rewrite ?orb_true_r, ?orb_false_r.
  - intros h1 h2 r. cbn. by destruct (is_hexdigit h1), (is_hexdigit h2).
  - intros r [->|[b ->]]%short_lists; done.
Qed.

Lemma is_valid_reg_name_spec l : is_valid_reg_name l = true <-> pct_string is_reg_name_char l.
Proof.
  apply check_pct_string; [done|..].
  - intros b r Hb. cbn [is_valid_reg_name]. replace (b =? 37) with false by lia.
    by destruct (is_reg_name_char b).
  - intros h1 h2 r. cbn. by destruct (is_hexdigit h1), (is_hexdigit h2).
  - intros r [->|[b ->]]%short_lists; done.
Qed.

(** ** Paths *)
Lemma path_char_no_mark a : pct_string is_path_char a -> 63 ∉ a /\ 35 ∉ a.
Proof. intros H. by split; revert H; apply pct_string_not_elem. Qed.

Lemma query_char_no_hash q : pct_string is_query_char q -> 35 ∉ q.
Proof. by apply pct_string_not_elem. Qed.

Lemma path_slash a : pct_string is_path_char (47 :: a) <-> pct_string is_path_char a.
Proof. rewrite pct_string_char by done. naive_solver. Qed.

Lemma is_valid_http_path_spec p m : is_valid_http_path p m = true <-> path_grammar m p.
Proof.
  unfold is_valid_http_path, path_grammar. destruct p as [|first r].
  { split; [done|]. intros [[_ ?]|(a & _ & [?|(q & _ & ?)])]; done. }
  destruct (bytes_eqb m (str "OPTIONS") && bytes_eqb (first :: r) (str "*")) eqn:Eo.
  { apply andb_true_iff in Eo as [E1%bytes_eqb_eq E2%bytes_eqb_eq]. split; [|done]. by left. }
  assert (~ (m = str "OPTIONS" /\ first :: r = str "*")) as Hno.
  { intros [E1%bytes_eqb_eq E2%bytes_eqb_eq]. by rewrite E1, E2 in Eo. }
  destruct (Z.eqb_spec first 47) as [->|Hf]; cbn [negb]; [|split; [done|naive_solver]].
  destruct (existsb (Z.eqb 35) (47 :: r)) eqn:Eh.
  - apply existsb_eqb in Eh. split; [done|]. intros [?|(a & Ha & H)]; [naive_solver|].
    apply path_char_no_mark in Ha. destruct H as [E|(q & Hq & E)]; simplify_eq; [set_solver|].
    apply query_char_no_hash in Hq. set_solver.
  - pose proof (position_spec 63 (47 :: r)) as Hp. destruct (position _ (47 :: r)) as [i|].
    + destruct Hp as (a & q & E & Hq & ->). rewrite E, take_z_app_len, drop_z_app_cons.
      destruct a as [|x a]; simplify_eq/=.
      transitivity (pct_string is_path_char (47 :: a) /\ pct_string is_query_char q).
      { rewrite <- is_valid_path_chars_spec, <- is_valid_query_chars_spec.
        destruct (is_valid_path_chars _), (is_valid_query_chars _); cbn; naive_solver. }
      rewrite path_slash. split; [naive_solver|].
      intros [?|(a' & Ha & [E|(q' & Hq' & E)])]; [naive_solver|..].
      * simplify_eq. apply path_char_no_mark in Ha. set_solver.
      * simplify_eq. pose proof (proj1 (path_char_no_mark _ Ha)). apply not_elem_of_cons in Hq as [_ Hq].
        pose proof (position_app 63 a q Hq) as P1. rewrite E in P1.
        rewrite position_app in P1 by done. simplify_eq.
        apply app_inj_1 in E as [-> ?]; [|unfold len in *; lia]. by simplify_eq.
    + transitivity (pct_string is_path_char (47 :: r)).
      { rewrite <- is_valid_path_chars_spec. by destruct (is_valid_path_chars _). }
      rewrite path_slash. split; [naive_solver|].
      intros [?|(a' & Ha & [E|(q' & Hq' & E)])]; [naive_solver|by simplify_eq|].
      simplify_eq. set_solver.
Qed.

(** ** Authorities *)
Lemma is_valid_ip_literal_content_spec c : is_valid_ip_literal_content c = true <-> ip_literal_grammar c.
Proof.
  unfold is_valid_ip_literal_content, ip_literal_grammar. destruct c as [|first r].
  { split; [done|naive_solver]. }
  destruct (Z.eqb_spec first 118) as [->|Hf].
  - rewrite !andb_true_iff, forallb_Forall_true, existsb_eqb, Z.leb_le, len_cons.
    split; [intros [[? ?] ?]; left; exists r; split_and!; (done || lia)|].
    intros [(r' & [= <-] & ? & ? & ?)|[_ H]]; [split_and!; (done || lia)|].
    by inversion H.
  - rewrite forallb_Forall_true. split; [by right|]. intros [(r' & [= ? _] & _)|[_ H]]; done.
Qed.

Lemma ip_literal_no_bracket c : ip_literal_grammar c -> 93 ∉ c.
Proof.
  assert (forall f l, f 93 = false -> Forall (fun b => f b = true) l -> 93 ∉ l) as Hno.
  { intros f l Hf Hl Hin. rewrite Forall_forall in Hl. specialize (Hl _ Hin). congruence. }
  intros [(r & -> & _ & _ & H)|[_ H]].
  - apply not_elem_of_cons. split; [done|]. by eapply (Hno _ _ _ H).
  - by eapply (Hno (fun b => is_hexdigit b || (b =? 58) || (b =? 46))).
Unshelve. all: vm_compute; reflexivity.
Qed.

Lemma digits_no_colon p : digits p -> 58 ∉ p.
Proof. intros H Hin. unfold digits in H. rewrite Forall_forall in H. by specialize (H _ Hin). Qed.

Lemma reg_name_no_colon h : pct_string is_reg_name_char h -> 58 ∉ h.
Proof. by apply pct_string_not_elem. Qed.

Lemma reg_name_no_bracket h : pct_string is_reg_name_char h -> 91 ∉ h.
Proof. by apply pct_string_not_elem. Qed.

(** A string that opens with a bracket, cut at the first closing one. *)
Lemma bracketed_cut c rest : 93 ∉ c ->
  let v := bracketed c ++ rest in
  exists i, position (Z.eqb 93) v = Some i /\ i = len c + 1 /\
    drop_z 1 (take_z i v) = c /\ drop_z (i + 1) v = rest.
Proof.
  intros Hc v. assert (v = (91 :: c) ++ 93 :: rest) as Ev.
  { unfold v, bracketed. cbn. by rewrite <- app_assoc. }
  exists (len (91 :: c)). rewrite Ev, position_app, take_z_app_len, drop_z_app_cons.
  2: { apply not_elem_of_cons. by split. }
  split_and!; [done|rewrite len_cons; lia|done..].
Qed.

(** A string that opens with a bracket is a bracketed one or has no closing one. *)
Lemma bracket_cases r :
  93 ∉ 91 :: r \/ exists c rest, 91 :: r = bracketed c ++ rest /\ 93 ∉ c.
Proof.
  pose proof (position_spec 93 (91 :: r)) as H. destruct (position _ _); [|by left].
  destruct H as (a & rest & E & Ha & _). right. destruct a as [|x a]; simplify_eq/=.
  exists a, rest. unfold bracketed. cbn. rewrite <- app_assoc. apply not_elem_of_cons in Ha as [_ Ha]. done.
Qed.

Lemma bracketed_inj c c' rest rest' : 93 ∉ c -> 93 ∉ c' ->
  bracketed c ++ rest = bracketed c' ++ rest' -> c = c' /\ rest = rest'.
Proof.
  intros H1 H2 E.
  destruct (bracketed_cut c rest H1) as (i & P1 & _ & D1 & R1).
  destruct (bracketed_cut c' rest' H2) as (i' & P2 & _ & D2 & R2).
  rewrite E in P1, D1, R1. simplify_eq. by split.
Qed.

Lemma colon_unique h p h' p' : 58 ∉ p -> 58 ∉ p' -> h ++ 58 :: p = h' ++ 58 :: p' -> h = h' /\ p = p'.
Proof.
  intros H1 H2 E. pose proof (rposition_app 58 h p H1) as P. rewrite E, rposition_app in P by done.
  simplify_eq. apply app_inj_1 in E as [-> ?]; [by simplify_eq|unfold len in *; lia].
Qed.

Lemma nonempty_true {A} `{EqDecision A} (l : list A) : negb (bool_decide (l = [])) = true <-> l <> [].
Proof. rewrite negb_true_iff, bool_decide_eq_false. done. Qed.

Lemma bracketed_not_reg_name c rest : ~ pct_string is_reg_name_char (bracketed c ++ rest).
Proof. intros H%reg_name_no_bracket. unfold bracketed in H. cbn in H. set_solver. Qed.

Lemma reg_name_not_bracketed h p c rest : reg_name_grammar h -> h ++ p <> bracketed c ++ rest.
Proof.
  intros [Hne H%reg_name_no_bracket] E. destruct h as [|b h]; [done|].
  unfold bracketed in E. cbn in E. simplify_eq. set_solver.
Qed.

Lemma is_valid_authority_spec v : is_valid_authority v = true <-> authority_grammar v.
Proof.
  unfold is_valid_authority, authority_grammar. destruct v as [|first r].
  { split; [done|]. intros [[? _]|[(h & p & _ & _ & _ & E)|(c & _ & [?|(p & _ & ?)])]]; try done.
    by apply app_cons_not_nil in E. }
  destruct (Z.eqb_spec first 91) as [->|Hf].
  - destruct (bracket_cases r) as [Hno|(c & rest & E & Hc)].
    { rewrite position_None by done. split; [done|].
      intros [[_ H%reg_name_no_bracket]|[(h & p & Hh & _ & _ & E)|(c & _ & H)]].
      - set_solver.
      - destruct (reg_name_not_bracketed h (58 :: p) [] [] Hh). exfalso.
        destruct Hh as [Hh H%reg_name_no_bracket]. destruct h; [done|]. simplify_eq/=. set_solver.
      - destruct Hno. destruct H as [E|(p & _ & E)]; rewrite E; unfold bracketed; set_solver. }
    destruct (bracketed_cut c rest Hc) as (i & P & _ & D & R). rewrite E, P, D, R.
    transitivity (ip_literal_grammar c /\ (rest = [] \/ exists p, digits p /\ rest = 58 :: p)).
    { rewrite <- is_valid_ip_literal_content_spec.
      destruct (is_valid_ip_literal_content c); cbn [negb]; [|naive_solver].
      destruct rest as [|b port]; [naive_solver|]. destruct (Z.eqb_spec b 58) as [->|]; cbn [negb].
      - rewrite forallb_Forall_true. split; [intros H; split; [done|]; right; by exists port|].
        intros [_ [?|(p & ? & [= ->])]]; done.
      - split; [done|]. naive_solver. }
    split.
    + intros [Hi Hr]. right; right. exists c. split; [done|]. destruct Hr as [->|(p & ? & ->)]; [|by eauto].
      rewrite app_nil_r. by left.
    + intros [[_ H]|[(h & p & Hh & _ & _ & E')|(c' & Hi & Hr)]].
      * by apply bracketed_not_reg_name in H.
      * symmetry in E'. by apply reg_name_not_bracketed in E'.
      * pose proof (ip_literal_no_bracket _ Hi).
        assert (exists rest', bracketed c ++ rest = bracketed c' ++ rest' /\
          (rest' = [] \/ exists p, digits p /\ rest' = 58 :: p)) as (rest' & E' & Hr').
        { destruct Hr as [->|(p & ? & ->)]; [exists []; rewrite app_nil_r|exists (58 :: p)]; eauto. }
        apply bracketed_inj in E' as [-> ->]; done.
  - set (v := first :: r).
    assert (~ exists c rest, v = bracketed c ++ rest) as Hnb.
    { intros (c & rest & E). unfold v, bracketed in E. by simplify_eq/=. }
    transitivity (reg_name_grammar v \/
      exists h p, reg_name_grammar h /\ p <> [] /\ digits p /\ v = h ++ 58 :: p).
    2: { split; [naive_solver|]. intros [?|[?|(c & _ & H)]]; [by left|by right|]. destruct Hnb.
         destruct H as [E|(p & _ & E)]; [exists c, []; by rewrite app_nil_r|by eauto]. }
    assert (is_valid_reg_name v = true <-> reg_name_grammar v) as Hreg.
    { rewrite is_valid_reg_name_spec. unfold reg_name_grammar. naive_solver. }
    pose proof (rposition_spec 58 v) as Hp. destruct (rposition _ v) as [i|].
    + destruct Hp as (h & p & E & Hp & ->). rewrite E, take_z_app_len, drop_z_app_cons, <- E.
      assert (~ reg_name_grammar v) as Hnr.
      { intros [_ H%reg_name_no_colon]. rewrite E in H. set_solver. }
      destruct (_ && forallb is_digit p) eqn:Ep.
      * apply andb_true_iff in Ep as [E1%nonempty_true E2%forallb_Forall_true].
        rewrite andb_true_iff, nonempty_true, is_valid_reg_name_spec. split; [intros []; right; by exists h, p|].
        intros [?|(h' & p' & [? ?] & ? & ?%digits_no_colon & E')]; [done|]. rewrite E in E'.
        apply colon_unique in E' as [-> ->]; done.
      * rewrite Hreg. split; [done|]. intros [?|(h' & p' & ? & Hp' & Hd & E')]; [done|].
        pose proof (digits_no_colon _ Hd). rewrite E in E'. apply colon_unique in E' as [-> ->]; [|done..].
        apply nonempty_true in Hp'. apply forallb_Forall_true in Hd. by rewrite Hp', Hd in Ep.
    + rewrite Hreg. split; [by left|]. intros [?|(h' & p' & _ & _ & _ & E)]; [done|]. rewrite E in Hp. set_solver.
Qed.

Lemma is_valid_connect_authority_spec v :
  is_valid_connect_authority v = true <-> connect_authority_grammar v.
Proof.
  unfold is_valid_connect_authority, connect_authority_grammar. destruct v as [|first r].
  { split; [done|]. intros (h & p & _ & _ & _ & E). by apply app_cons_not_nil in E. }
  destruct (Z.eqb_spec first 91) as [->|Hf].
  - destruct (bracket_cases r) as [Hno|(c & rest & E & Hc)].
    { rewrite position_None by done. split; [done|].
      intros (h & p & [Hh|(c & _ & ->)] & _ & _ & E).
      - destruct Hh as [Hh H%reg_name_no_bracket]. destruct h; [done|]. simplify_eq/=. set_solver.
      - destruct Hno. rewrite E. unfold bracketed. set_solver. }
    destruct (bracketed_cut c rest Hc) as (i & P & -> & D & R). rewrite E, P, D.
    assert (len (bracketed c ++ rest) = len c + 2 + len rest) as ->.
    { unfold bracketed. zlen. }
    transitivity (ip_literal_grammar c /\ exists p, p <> [] /\ digits p /\ rest = 58 :: p).
    { replace (drop_z (len c + 1 + 2) _) with (drop_z 1 rest).
      2: { pose proof (drop_z_drop_z 1 (len c + 1 + 1) (bracketed c ++ rest)) as H.
           rewrite R in H. rewrite H by zlen. f_equal. lia. }
      destruct rest as [|b p]; [rewrite len_nil; solve_cmp; naive_solver|].
      assert (get_at (bracketed c ++ b :: p) (len c + 1 + 1) = Some b) as ->.
      { apply get_at_Some. split; [zlen|].
        rewrite lookup_app_r by (unfold bracketed, len; cbn; rewrite length_app; cbn; lia).
        unfold bracketed, len. cbn [length]. rewrite length_app. cbn [length].
        by replace (_ - _)%nat with O by lia. }
      rewrite len_cons. pose proof (len_nonneg p). solve_cmp.
      destruct (decide (b = 58)) as [->|]; cbn [orb].
      2: { rewrite (bool_decide_eq_false_2 (Some b = Some 58)) by congruence. cbn. naive_solver. }
      rewrite (bool_decide_eq_true_2 (Some 58 = Some 58)) by done. cbn [negb].
      rewrite <- is_valid_ip_literal_content_spec.
      destruct (is_valid_ip_literal_content c); cbn [negb]; [|naive_solver].
      replace (drop_z 1 (58 :: p)) with p by done.
      rewrite andb_true_iff, nonempty_true, forallb_Forall_true. naive_solver. }
    split.
    + intros [Hi (p & ? & ? & ->)]. exists (bracketed c), p. eauto 10.
    + intros (h & p & [Hh|(c' & Hi & ->)] & ? & ? & E').
      * symmetry in E'. by apply reg_name_not_bracketed in E'.
      * apply bracketed_inj in E' as [-> ->]; eauto using ip_literal_no_bracket.
  - set (v := first :: r). pose proof (rposition_spec 58 v) as Hp. destruct (rposition _ v) as [i|].
    + destruct Hp as (h & p & E & Hp & ->). rewrite E, take_z_app_len, drop_z_app_cons.
      rewrite !andb_true_iff, !nonempty_true, is_valid_reg_name_spec, forallb_Forall_true. split.
      * intros [[[? ?] ?] ?]. exists h, p. unfold reg_name_grammar. naive_solver.
      * intros (h' & p' & Hh & ? & Hd & E'). pose proof (digits_no_colon _ Hd).
        apply colon_unique in E' as [-> ->]; [|done..].
        destruct Hh as [[? ?]|(c & _ & ->)]; [done|].
        exfalso. unfold v, bracketed in E. by simplify_eq/=.
    + split; [done|]. intros (h & p & _ & _ & _ & E). rewrite E in Hp. set_solver.
Qed.
