(* ===== verification/Validation.v ===== *)
(** validation.rs: is a header section a well-formed request, response or trailer section
    (RFC 9114 Sections 4.1.2, 4.2, 4.3, 4.4), and does the body have the announced length.

    The checks are re-done here for headers that the QPACK decoder constructs without
    them; [check_header] of [Header] is the other implementation. *)

From Stdlib Require Import String Ascii.
From S2P Require Import Prelude Utf8 Integer Frame Error Header UriSyntax Stream.

Definition CONNECTION_SPECIFIC_FIELDS : list bytes :=
  [str "connection"; str "keep-alive"; str "proxy-connection"; str "transfer-encoding"; str "upgrade"].

Definition message_error : Error := StreamError MessageError.

(** [if b { return Err(Error::StreamError(ErrorCode::MessageError)); }] *)
Definition refuse_if (b : bool) : result Error unit := if b then Err message_error else Ok ().

Definition is_some {A} (o : option A) : bool := match o with Some _ => true | None => false end.

(** [matches!(o, Some(x) if f(x))], and the guards [if let Some(x) = o && f(x)]. *)
Definition some_and {A} (o : option A) (f : A -> bool) : bool :=
  match o with Some x => f x | None => false end.

(** ** Fields *)
Definition is_valid_method (method : bytes) : bool :=
  negb (bool_decide (method = [])) && forallb is_tchar method.

Definition is_valid_scheme (scheme : bytes) : bool :=
  match scheme with
  | [] => false
  | first :: r =>
    if negb (is_alpha first) then false
    else forallb (fun b => is_alnum b || (b =? 43) || (b =? 45) || (b =? 46)) r
  end.

(** [value.splitn(2, |b| *b == b'/')] gives the name, and the version after a slash. *)
Definition is_valid_protocol (value : bytes) : bool :=
  match value with
  | [] => false
  | _ =>
    let '(name, version) := match position (Z.eqb 47) value with
      | Some slash => (take_z slash value, Some (drop_z (slash + 1) value))
      | None => (value, None)
      end in
    if bool_decide (name = []) || negb (forallb is_tchar name) then false
    else if some_and version (fun v => bool_decide (v = []) || negb (forallb is_tchar v)) then false
    else true
  end.

Definition is_valid_field_name (name : bytes) : bool :=
  negb (bool_decide (name = [])) && forallb is_lowercase_token_byte name.

Definition is_valid_field_value (value : bytes) : bool :=
  match head value, last value with
  | Some first, Some last =>
    if negb (is_field_vchar first) || negb (is_field_vchar last) then false
    else forallb (fun b => is_field_vchar b || (b =? 32) || (b =? 9)) value
  | _, _ => true
  end.

(** [name.starts_with(b":")] *)
Definition is_pseudo (h : Header) : bool :=
  match name h with c :: _ => c =? 58 | [] => false end.

Definition is_connection_specific (n : bytes) : bool := existsb (bytes_eqb n) CONNECTION_SPECIFIC_FIELDS.

(** ** Requests: what the loop over the headers remembers *)
Record RequestFields := mkFields {
  rf_method : option bytes; rf_scheme : option bytes; rf_path : option bytes;
  rf_authority : option bytes; rf_protocol : option bytes; rf_host : option bytes;
  rf_pseudo_done : bool }.

Definition no_fields : RequestFields := mkFields None None None None None None false.

Definition request_pseudo (s : RequestFields) (h : Header) : result Error RequestFields :=
  let '(mkFields m sc p a pr ho done) := s in
  let v := Some (value h) in
  if bytes_eqb (name h) (str ":method") then
    if is_some m then Err message_error else Ok (mkFields v sc p a pr ho done)
  else if bytes_eqb (name h) (str ":scheme") then
    if is_some sc then Err message_error else Ok (mkFields m v p a pr ho done)
  else if bytes_eqb (name h) (str ":path") then
    if is_some p then Err message_error else Ok (mkFields m sc v a pr ho done)
  else if bytes_eqb (name h) (str ":authority") then
    if is_some a then Err message_error else Ok (mkFields m sc p v pr ho done)
  else if bytes_eqb (name h) (str ":protocol") then
    if is_some pr then Err message_error else Ok (mkFields m sc p a v ho done)
  else Err message_error.

Definition request_field (s : RequestFields) (h : Header) : result Error RequestFields :=
  let '(mkFields m sc p a pr ho _) := s in
  _ ← refuse_if (negb (is_valid_field_name (name h)));
  _ ← refuse_if (is_connection_specific (name h));
  _ ← refuse_if (bytes_eqb (name h) (str "te") && negb (bytes_eqb (value h) (str "trailers")));
  _ ← refuse_if (negb (is_valid_field_value (value h)));
  if bytes_eqb (name h) (str "host") then
    _ ← refuse_if (is_some ho); Ok (mkFields m sc p a pr (Some (value h)) true)
  else Ok (mkFields m sc p a pr ho true).

Fixpoint request_loop (s : RequestFields) (headers : list Header) : result Error RequestFields :=
  match headers with
  | [] => Ok s
  | h :: headers =>
    s ← (if is_pseudo h then
           _ ← refuse_if (rf_pseudo_done s);
           _ ← refuse_if (negb (is_valid_field_value (value h)));
           request_pseudo s h
         else request_field s h);
    request_loop s headers
  end.

Definition is_http_or_https (s : bytes) : bool := bytes_eqb s (str "http") || bytes_eqb s (str "https").

(** [if let (Some(a), Some(h)) = (authority, host) && a != h] *)
Definition authority_mismatch (authority host : option bytes) : bool :=
  match authority, host with Some a, Some h => negb (bytes_eqb a h) | _, _ => false end.

Definition is_empty_bytes (l : bytes) : bool := bool_decide (l = []).

(** The three branches on the method. *)
Definition check_extended_connect (s : RequestFields) (method : bytes) : result Error unit :=
  _ ← refuse_if (negb (is_some (rf_scheme s)) || negb (is_some (rf_path s)));
  _ ← refuse_if (some_and (rf_protocol s) (fun p => negb (is_valid_protocol p)));
  _ ← refuse_if (some_and (rf_scheme s) (fun c => negb (is_valid_scheme c)));
  _ ← refuse_if (some_and (rf_path s) (fun p => negb (is_valid_http_path p method)));
  _ ← refuse_if (some_and (rf_scheme s) is_http_or_https && negb (is_some (rf_authority s)) && negb (is_some (rf_host s)));
  _ ← refuse_if (authority_mismatch (rf_authority s) (rf_host s));
  _ ← refuse_if (some_and (rf_authority s) is_empty_bytes);
  refuse_if (some_and (rf_host s) is_empty_bytes).

Definition check_plain_connect (s : RequestFields) : result Error unit :=
  _ ← refuse_if (is_some (rf_scheme s) || is_some (rf_path s));
  match rf_authority s with
  | None | Some [] => Err message_error
  | Some v => refuse_if (negb (is_valid_connect_authority v))
  end.

Definition check_other_method (s : RequestFields) (method : bytes) : result Error unit :=
  _ ← refuse_if (is_some (rf_protocol s));
  _ ← refuse_if (negb (is_some (rf_scheme s)) || negb (is_some (rf_path s)));
  _ ← refuse_if (some_and (rf_scheme s) (fun c => negb (is_valid_scheme c)));
  let http := some_and (rf_scheme s) is_http_or_https in
  _ ← (match rf_path s with
       | Some p =>
         _ ← refuse_if (is_empty_bytes p);
         refuse_if (http && negb (is_valid_http_path p method))
       | None => Ok ()
       end);
  refuse_if (http && negb (is_some (rf_authority s)) && negb (is_some (rf_host s))).

Definition is_connect (method : bytes) : bool := bytes_eqb method (str "CONNECT").

Definition check_request (s : RequestFields) : result Error unit :=
  method ← ok_or (rf_method s) message_error;
  _ ← refuse_if (negb (is_valid_method method));
  _ ← (if is_connect method && is_some (rf_protocol s) then check_extended_connect s method
       else if is_connect method then check_plain_connect s
       else check_other_method s method);
  _ ← refuse_if (authority_mismatch (rf_authority s) (rf_host s));
  _ ← refuse_if (some_and (rf_authority s) is_empty_bytes && negb (is_connect method));
  _ ← refuse_if (some_and (rf_host s) is_empty_bytes);
  _ ← refuse_if (negb (is_some (rf_authority s)) && some_and (rf_host s) (fun h => negb (is_valid_authority h)));
  _ ← refuse_if (some_and (rf_scheme s) is_http_or_https && some_and (rf_authority s) (existsb (Z.eqb 64)));
  refuse_if ((negb (is_connect method) || is_some (rf_protocol s)) &&
             some_and (rf_authority s) (fun a => negb (is_valid_authority a))).

Definition validate_request_headers (headers : list Header) : result Error unit :=
  s ← request_loop no_fields headers; check_request s.

(** ** Responses and trailers *)
Definition response_field (h : Header) : result Error unit :=
  _ ← refuse_if (negb (is_valid_field_name (name h)));
  _ ← refuse_if (is_connection_specific (name h));
  _ ← refuse_if (bytes_eqb (name h) (str "te"));
  refuse_if (negb (is_valid_field_value (value h))).

Fixpoint response_loop (status : option bytes) (pseudo_done : bool) (headers : list Header)
    : result Error (option bytes) :=
  match headers with
  | [] => Ok status
  | h :: headers =>
    if is_pseudo h then
      _ ← refuse_if pseudo_done;
      if bytes_eqb (name h) (str ":status") then
        _ ← refuse_if (is_some status);
        _ ← refuse_if (negb (len (value h) =? 3) || negb (forallb is_digit (value h)));
        _ ← refuse_if (bytes_eqb (value h) (str "101"));
        response_loop (Some (value h)) pseudo_done headers
      else Err message_error
    else
      _ ← response_field h;
      response_loop status true headers
  end.

Definition validate_response_headers (headers : list Header) : result Error unit :=
  status ← response_loop None false headers;
  _ ← ok_or status message_error; Ok ().

Definition validate_headers (headers : list Header) (role : Role) : result Error unit :=
  match role with
  | Server => validate_request_headers headers
  | Client => validate_response_headers headers
  end.

Fixpoint validate_trailer_headers (headers : list Header) : result Error unit :=
  match headers with
  | [] => Ok ()
  | h :: headers =>
    _ ← refuse_if (is_pseudo h);
    _ ← response_field h;
    validate_trailer_headers headers
  end.

(** ** The announced length *)

(** [str::parse::<u64>]: an optional plus sign and at least one digit, within 64 bits. *)
Fixpoint parse_digits (acc : Z) (l : bytes) : option Z :=
  match l with
  | [] => Some acc
  | b :: r =>
    if is_digit b && (acc * 10 + (b - 48) <=? U64_MAX) then parse_digits (acc * 10 + (b - 48)) r else None
  end.
Definition parse_u64 (l : bytes) : option Z :=
  match (match l with c :: r => if c =? 43 then r else l | [] => [] end) with
  | [] => None
  | ds => parse_digits 0 ds
  end.

Fixpoint content_length_loop (content_length : option Z) (headers : list Header) : result Error (option Z) :=
  match headers with
  | [] => Ok content_length
  | h :: headers =>
    if negb (bytes_eqb (name h) (str "content-length")) then content_length_loop content_length headers
    else
      _ ← refuse_if (is_some content_length);
      _ ← refuse_if (negb (is_utf8 (value h)));
      _ ← refuse_if (negb (forallb is_digit (value h)));
      v ← ok_or (parse_u64 (value h)) message_error;
      content_length_loop (Some v) headers
  end.

Definition validate_content_length (headers : list Header) (received_body_size : Z) (skip_body_check : bool)
    : result Error unit :=
  content_length ← content_length_loop None headers;
  match content_length with
  | None => Ok ()
  | Some expected =>
    if skip_body_check then Ok () else refuse_if (negb (expected =? received_body_size))
  end.

(** ** The size of a field section (RFC 9114 Section 4.2.2) *)
Definition calculate_field_section_size (headers : list Header) : Z :=
  fold_left (fun acc h => acc + header_size h) headers 0.

Definition check_field_section_size (headers : list Header) (peer_max : option Z) : result Error unit :=
  match peer_max with
  | Some max_size =>
    if max_size <? calculate_field_section_size headers then Err (ConnectionError InternalError) else Ok ()
  | None => Ok ()
  end.

(** ** The grammar of messages *)
Definition REQUEST_PSEUDO_HEADERS : list bytes :=
  [str ":method"; str ":scheme"; str ":path"; str ":authority"; str ":protocol"].

Definition regular_field (h : Header) : Prop :=
  token is_lowercase_token_byte (name h) /\ value_grammar (value h) /\ name h ∉ CONNECTION_SPECIFIC_FIELDS.
Definition request_regular (h : Header) : Prop :=
  regular_field h /\ (name h = str "te" -> value h = str "trailers").
Definition response_regular (h : Header) : Prop := regular_field h /\ name h <> str "te".

(** The values of the headers with a name, in order. *)
Definition values_of (n : bytes) (hs : list Header) : list bytes :=
  map value (filter (fun h => name h = n) hs).

Definition http_scheme (c : bytes) : Prop := c = str "http" \/ c = str "https".

(** CONNECT with [:protocol] (RFC 9220), CONNECT without (RFC 9114 Section 4.4), and
    every other method (Section 4.3.1). *)
Definition extended_connect (sc p pr a ho : option bytes) : Prop :=
  exists c q u, sc = Some c /\ p = Some q /\ pr = Some u /\
    upgrade_token u /\ scheme_grammar c /\ path_grammar (str "CONNECT") q /\
    (http_scheme c -> a <> None \/ ho <> None).
Definition plain_connect (sc p pr a : option bytes) : Prop :=
  sc = None /\ p = None /\ pr = None /\ exists v, a = Some v /\ connect_authority_grammar v.
Definition plain_request (m : bytes) (sc p pr a ho : option bytes) : Prop :=
  pr = None /\ exists c q, sc = Some c /\ p = Some q /\ scheme_grammar c /\ q <> [] /\
    (http_scheme c -> path_grammar m q /\ (a <> None \/ ho <> None)).

(** The authority of the target is [:authority], or [host] in its place, and they agree. *)
Definition authority_rules (plain : Prop) (a ho : option bytes) : Prop :=
  (forall x y, a = Some x -> ho = Some y -> x = y) /\
  (a = None -> forall y, ho = Some y -> authority_grammar y) /\
  (plain \/ forall x, a = Some x -> authority_grammar x).

Definition request_target (m : bytes) (sc p a pr ho : option bytes) : Prop :=
  token is_tchar m /\
  ((m = str "CONNECT" /\ (extended_connect sc p pr a ho \/ plain_connect sc p pr a)) \/
   (m <> str "CONNECT" /\ plain_request m sc p pr a ho)) /\
  authority_rules (m = str "CONNECT" /\ pr = None) a ho.

Definition request_grammar (hs : list Header) : Prop :=
  exists pseudo fields m sc p a pr ho, hs = pseudo ++ fields /\
    Forall (fun h => name h ∈ REQUEST_PSEUDO_HEADERS /\ value_grammar (value h)) pseudo /\
    Forall request_regular fields /\
    values_of (str ":method") hs = [m] /\ values_of (str ":scheme") hs = option_list sc /\
    values_of (str ":path") hs = option_list p /\ values_of (str ":authority") hs = option_list a /\
    values_of (str ":protocol") hs = option_list pr /\ values_of (str "host") hs = option_list ho /\
    request_target m sc p a pr ho.

Definition response_grammar (hs : list Header) : Prop :=
  exists status fields, hs = status :: fields /\ Forall response_regular fields /\
    name status = str ":status" /\ len (value status) = 3 /\ digits (value status) /\
    value status <> str "101".

Definition trailer_grammar (hs : list Header) : Prop := Forall response_regular hs.

(** ** Refusals *)
Lemma refuse_if_Ok b u : refuse_if b = Ok u <-> b = false.
Proof. destruct b, u; cbn; naive_solver. Qed.

Lemma refuse_bind_Ok {A} b (k : result Error A) x :
  (_ ← refuse_if b; k) = Ok x <-> b = false /\ k = Ok x.
Proof. destruct b; cbn; naive_solver. Qed.

Lemma unit_bind_Ok {A} (r : result Error unit) (k : result Error A) x :
  (_ ← r; k) = Ok x <-> r = Ok () /\ k = Ok x.
Proof. destruct r as [[]|]; cbn; naive_solver. Qed.

(** Every refusal of this file is a message error of the stream. *)
Definition refuses_message {A} (r : result Error A) : Prop := forall e, r = Err e -> e = message_error.

Lemma refuses_bind {A B} (r : result Error A) (k : A -> result Error B) :
  refuses_message r -> (forall a, r = Ok a -> refuses_message (k a)) -> refuses_message (r ≫= k).
Proof. intros H1 H2 e. destruct r; cbn; [by apply H2|]. by intros [= <-]; apply H1. Qed.
Lemma refuses_if b : refuses_message (refuse_if b).
Proof. intros e. destruct b; cbn; by intros [= <-]. Qed.
Lemma refuses_Ok {A} (a : A) : refuses_message (Ok a).
Proof. done. Qed.
Lemma refuses_Err {A} : refuses_message (A := A) (Err message_error).
Proof. by intros e [= <-]. Qed.
Lemma refuses_ok_or {A} (o : option A) : refuses_message (ok_or o message_error).
Proof. destruct o; [apply refuses_Ok|apply refuses_Err]. Qed.
#[export] Hint Resolve refuses_bind refuses_if refuses_Ok refuses_Err refuses_ok_or : core.

Ltac refuses :=
  repeat first
    [ apply refuses_if | apply refuses_Ok | apply refuses_Err | apply refuses_ok_or
    | apply refuses_bind; [|intros ? _] | progress case_match | done ].

Lemma request_loop_refuses hs : forall s, refuses_message (request_loop s hs).
Proof.
  induction hs as [|h hs IH]; intros s; cbn [request_loop]; [apply refuses_Ok|].
  apply refuses_bind; [|intros; apply IH].
  unfold request_pseudo, request_field. refuses.
Qed.

Lemma check_request_refuses s : refuses_message (check_request s).
Proof. unfold check_request, check_extended_connect, check_plain_connect, check_other_method. refuses. Qed.

Lemma response_loop_refuses hs : forall st d, refuses_message (response_loop st d hs).
Proof.
  induction hs as [|h hs IH]; intros st d; cbn [response_loop]; [apply refuses_Ok|].
  unfold response_field. refuses; apply IH.
Qed.

Lemma trailers_refuse hs : refuses_message (validate_trailer_headers hs).
Proof.
  induction hs as [|h hs IH]; cbn [validate_trailer_headers]; [apply refuses_Ok|].
  unfold response_field. refuses; apply IH.
Qed.

(** ** Fields *)
Lemma token_check (f : Z -> bool) n : negb (bool_decide (n = [])) && forallb f n = true <-> token f n.
Proof. rewrite andb_true_iff, nonempty_true, forallb_Forall_true. done. Qed.

Lemma is_valid_method_spec m : is_valid_method m = true <-> token is_tchar m.
Proof. apply token_check. Qed.

Lemma is_valid_field_name_spec n : is_valid_field_name n = true <-> token is_lowercase_token_byte n.
Proof. apply token_check. Qed.

Lemma is_valid_field_value_spec v : is_valid_field_value v = true <-> value_grammar v.
Proof.
  unfold value_grammar. rewrite <- edges_ok, <- check_value_bytes_None, check_value_bytes_None.
  unfold is_valid_field_value. destruct v as [|b r]; [cbn; naive_solver|]. cbn [head].
  destruct (last (b :: r)) as [l|] eqn:El; [|by apply last_None in El].
  destruct (negb _ || _); [naive_solver|]. rewrite forallb_Forall_true.
  split; [intros H; split; [|done]|intros [H _]]; eapply Forall_impl; try exact H; cbn; intros x;
    rewrite !orb_true_iff, !Z.eqb_eq; naive_solver.
Qed.

Lemma is_valid_scheme_spec c : is_valid_scheme c = true <-> scheme_grammar c.
Proof.
  unfold is_valid_scheme, scheme_grammar. destruct c as [|first r]; [naive_solver|].
  rewrite if_negb_false, andb_true_iff, forallb_Forall_true. naive_solver.
Qed.

Lemma empty_or_bad (f : Z -> bool) n : bool_decide (n = []) || negb (forallb f n) = false <-> token f n.
Proof. rewrite <- token_check. destruct (bool_decide _), (forallb f n); done. Qed.

Lemma is_valid_protocol_spec v : is_valid_protocol v = true <-> upgrade_token v.
Proof.
  unfold is_valid_protocol, upgrade_token. destruct v as [|b0 r0].
  { split; [done|]. intros [[? _]|(n & ver & _ & _ & E)]; [done|]. by apply app_cons_not_nil in E. }
  set (v := b0 :: r0). pose proof (position_spec 47 v) as Hp. destruct (position _ v) as [i|].
  - destruct Hp as (n & ver & E & Hn & ->). rewrite E, take_z_app_len, drop_z_app_cons. cbn [some_and].
    assert (~ token is_tchar (n ++ 47 :: ver)) as Hnt.
    { intros [_ H%tchar_not_slash]. rewrite Forall_forall in H. apply (H 47); [set_solver|done]. }
    transitivity (token is_tchar n /\ token is_tchar ver).
    { rewrite <- !empty_or_bad. destruct (_ || negb (forallb _ n)), (_ || negb (forallb _ ver)); naive_solver. }
    split; [naive_solver|]. intros [?|(n' & ver' & H1 & H2 & E')]; [done|].
    apply slash_unique in E' as [-> ->]; [done|..].
    + apply Forall_forall. intros x Hx ->. done.
    + apply tchar_not_slash, H1.
  - cbn [some_and]. transitivity (token is_tchar v).
    { rewrite <- empty_or_bad. destruct (_ || _); naive_solver. }
    split; [by left|]. intros [?|(n & ver & _ & _ & E)]; [done|]. rewrite E in Hp. set_solver.
Qed.

Lemma is_connection_specific_false n : is_connection_specific n = false <-> n ∉ CONNECTION_SPECIFIC_FIELDS.
Proof.
  unfold is_connection_specific. rewrite <- not_true_iff_false, existsb_exists, list_elem_of_In.
  split; intros H ?; apply H; [by exists n; rewrite bytes_eqb_eq|].
  by destruct H0 as (x & ? & ->%bytes_eqb_eq).
Qed.

Lemma te_rule h :
  bytes_eqb (name h) (str "te") && negb (bytes_eqb (value h) (str "trailers")) = false <->
  (name h = str "te" -> value h = str "trailers").
Proof.
  rewrite andb_false_iff, negb_false_iff, bytes_eqb_eq, bytes_eqb_neq.
  destruct (decide (name h = str "te")); naive_solver.
Qed.

Lemma response_field_spec h : response_field h = Ok () <-> response_regular h.
Proof.
  unfold response_field, response_regular, regular_field.
  rewrite !refuse_bind_Ok, refuse_if_Ok, !negb_false_iff.
  rewrite is_valid_field_name_spec, is_valid_field_value_spec, is_connection_specific_false, bytes_eqb_neq.
  naive_solver.
Qed.

Lemma regular_not_pseudo h : regular_field h -> is_pseudo h = false.
Proof.
  intros ([Hne Hn] & _). unfold is_pseudo. destruct (name h) as [|c r]; [done|].
  inversion_clear Hn as [|? ? Hc _]. apply lowercase_not_upper in Hc as [_ ?]. lia.
Qed.

(** What the two implementations of the field checks agree on: a field that is valid here
    is one [Header::new] constructs. *)
Lemma regular_header_grammar h : regular_field h -> header_grammar (name h) (value h).
Proof.
  intros Hr. pose proof (regular_not_pseudo _ Hr) as Hp. destruct Hr as (Hn & Hv & _).
  split_and!; [by left|done|]. unfold is_pseudo in Hp.
  split_and!; intros E; rewrite E in Hp; vm_compute in Hp; discriminate Hp.
Qed.

(** ** The loop over a request's headers *)
Definition REQUEST_NAMES : list bytes := REQUEST_PSEUDO_HEADERS ++ [str "host"].

Definition field_of (s : RequestFields) (n : bytes) : option bytes :=
  if bytes_eqb n (str ":method") then rf_method s
  else if bytes_eqb n (str ":scheme") then rf_scheme s
  else if bytes_eqb n (str ":path") then rf_path s
  else if bytes_eqb n (str ":authority") then rf_authority s
  else if bytes_eqb n (str ":protocol") then rf_protocol s
  else if bytes_eqb n (str "host") then rf_host s
  else None.

(** [s'] holds what [s] holds and the values of [hs]. *)
Definition collects (s : RequestFields) (hs : list Header) (s' : RequestFields) : Prop :=
  Forall (fun n => option_list (field_of s' n) = option_list (field_of s n) ++ values_of n hs) REQUEST_NAMES.

Lemma values_of_cons n h hs : values_of n (h :: hs) = values_of n [h] ++ values_of n hs.
Proof. unfold values_of. rewrite (filter_app _ [h] hs). by rewrite map_app. Qed.

Lemma values_of_one n h : values_of n [h] = if bytes_eqb (name h) n then [value h] else [].
Proof.
  unfold values_of, bytes_eqb. rewrite filter_cons. by destruct (decide (name h = n)); case_bool_decide.
Qed.

Lemma collects_nil s : collects s [] s.
Proof. apply Forall_forall. intros n _. by rewrite app_nil_r. Qed.

Lemma collects_cons s h hs s1 s' : collects s [h] s1 -> (collects s1 hs s' <-> collects s (h :: hs) s').
Proof.
  unfold collects. rewrite !Forall_forall. intros H1. apply forall_proper. intros n.
  split; intros H Hn; specialize (H Hn); specialize (H1 n Hn); rewrite (values_of_cons n h hs), app_assoc in *;
    congruence.
Qed.

Lemma option_list_inj {A} (a b : option A) : option_list a = option_list b -> a = b.
Proof. by destruct a, b; intros H; simplify_eq/=. Qed.

(** The fields are determined, but for [pseudo_done]. *)
Lemma collects_unique s hs s1 s2 : collects s hs s1 -> collects s hs s2 ->
  rf_pseudo_done s1 = rf_pseudo_done s2 -> s1 = s2.
Proof.
  unfold collects. rewrite !Forall_forall. intros H1 H2 Hd.
  assert (forall n, n ∈ REQUEST_NAMES -> field_of s1 n = field_of s2 n) as H.
  { intros n Hn. apply option_list_inj. by rewrite H1, H2. }
  destruct s1, s2. cbn in Hd. subst. f_equal.
  - by apply (H (str ":method")); vm_compute; left.
  - by apply (H (str ":scheme")); vm_compute; right; left.
  - apply (H (str ":path")). vm_compute. by do 2 right; left.
  - apply (H (str ":authority")). vm_compute. by do 3 right; left.
  - apply (H (str ":protocol")). vm_compute. by do 4 right; left.
  - apply (H (str "host")). vm_compute. by do 5 right; left.
Qed.

(** A name occurs once at most. *)
Lemma collects_room s n h hs s' : n ∈ REQUEST_NAMES -> name h = n -> collects s (h :: hs) s' -> field_of s n = None.
Proof.
  unfold collects. rewrite Forall_forall. intros Hn E H. specialize (H n Hn).
  rewrite values_of_cons, values_of_one, E in H. rewrite (proj2 (bytes_eqb_eq n n)) in H by done.
  destruct (field_of s n), (field_of s' n); done.
Qed.

(** Decide the comparisons of literals. *)
Ltac eval_eqb :=
  repeat match goal with
  | |- context [bytes_eqb (str ?a) (str ?b)] =>
    let v := eval vm_compute in (bytes_eqb (str a) (str b)) in
    change (bytes_eqb (str a) (str b)) with v
  end; cbv iota.

(** Evaluate [field_of] and [values_of] of one header at the names of a request. *)
Ltac solve_collects E :=
  unfold collects, REQUEST_NAMES, REQUEST_PSEUDO_HEADERS; cbn [app];
  repeat (apply Forall_cons; split); [..|by constructor];
  rewrite values_of_one, E; unfold field_of; eval_eqb;
  cbn [rf_method rf_scheme rf_path rf_authority rf_protocol rf_host];
  rewrite ?app_nil_r; reflexivity.

Lemma request_pseudo_collects s h s' : request_pseudo s h = Ok s' ->
  name h ∈ REQUEST_PSEUDO_HEADERS /\ collects s [h] s' /\ rf_pseudo_done s' = rf_pseudo_done s.
Proof.
  unfold request_pseudo. destruct s as [m sc p a pr ho d].
  assert (forall n, bytes_eqb (name h) n = true -> n ∈ REQUEST_PSEUDO_HEADERS -> name h ∈ REQUEST_PSEUDO_HEADERS)
    as Hin by (by intros n ->%bytes_eqb_eq).
  repeat (destruct (bytes_eqb (name h) _) eqn:E;
    [case_match; [done|]; intros [= <-]; split; [eapply Hin; [exact E|vm_compute; set_solver]|];
     apply bytes_eqb_eq in E; match goal with H : is_some ?o = false |- _ => destruct o; [done|] end;
     split; [solve_collects E|done]|clear E]).
  done.
Qed.

Lemma request_pseudo_cases n : n ∈ REQUEST_PSEUDO_HEADERS ->
  n = str ":method" \/ n = str ":scheme" \/ n = str ":path" \/ n = str ":authority" \/ n = str ":protocol".
Proof. unfold REQUEST_PSEUDO_HEADERS. rewrite !elem_of_cons, elem_of_nil. tauto. Qed.

Lemma request_pseudo_accepts s h : name h ∈ REQUEST_PSEUDO_HEADERS -> field_of s (name h) = None ->
  exists s', request_pseudo s h = Ok s'.
Proof.
  intros Hin. unfold request_pseudo, field_of. destruct s as [m sc p a pr ho d].
  cbn [rf_method rf_scheme rf_path rf_authority rf_protocol rf_host].
  apply request_pseudo_cases in Hin. destruct_or!; rewrite Hin; eval_eqb; intros ->; cbn; eauto.
Qed.

Lemma request_pseudo_spec s h s' :
  request_pseudo s h = Ok s' <->
  name h ∈ REQUEST_PSEUDO_HEADERS /\ collects s [h] s' /\ rf_pseudo_done s' = rf_pseudo_done s.
Proof.
  split; [apply request_pseudo_collects|]. intros (Hin & Hc & Hd).
  destruct (request_pseudo_accepts s h Hin) as [s1 H1].
  { eapply (collects_room _ _ h [] s'); [|done..]. apply elem_of_app. by left. }
  rewrite H1. f_equal. apply request_pseudo_collects in H1 as (_ & Hc1 & Hd1).
  eapply collects_unique; eauto; congruence.
Qed.

Lemma request_pseudo_names h : name h ∈ REQUEST_PSEUDO_HEADERS -> is_pseudo h = true.
Proof.
  unfold is_pseudo. intros H%request_pseudo_cases. by destruct_or!; rewrite H.
Qed.

Lemma not_pseudo_name h n : is_pseudo h = false -> n ∈ REQUEST_PSEUDO_HEADERS -> bytes_eqb (name h) n = false.
Proof.
  intros Hp Hn. apply bytes_eqb_neq. intros E. rewrite <- E in Hn. apply request_pseudo_names in Hn. congruence.
Qed.

Ltac pseudo_names :=
  repeat match goal with
  | Hp : is_pseudo ?h = false |- context [bytes_eqb (name ?h) (str ?n)] =>
    rewrite (not_pseudo_name h (str n) Hp) by (vm_compute; set_solver)
  end.

Lemma request_field_spec s h s' : is_pseudo h = false ->
  request_field s h = Ok s' <->
  request_regular h /\ collects s [h] s' /\ rf_pseudo_done s' = true.
Proof.
  intros Hp. unfold request_field. destruct s as [m sc p a pr ho d].
  rewrite !refuse_bind_Ok, !negb_false_iff, te_rule, is_valid_field_name_spec, is_valid_field_value_spec.
  rewrite is_connection_specific_false.
  enough ((if bytes_eqb (name h) (str "host")
    then _ ← refuse_if (is_some ho); Ok (mkFields m sc p a pr (Some (value h)) true)
    else Ok (mkFields m sc p a pr ho true)) = Ok s' <->
    collects (mkFields m sc p a pr ho d) [h] s' /\ rf_pseudo_done s' = true) as ->.
  { unfold request_regular, regular_field. naive_solver. }
  destruct (bytes_eqb (name h) (str "host")) eqn:E.
  - rewrite refuse_bind_Ok. apply bytes_eqb_eq in E.
    assert (is_some ho = false -> collects (mkFields m sc p a pr ho d) [h] (mkFields m sc p a pr (Some (value h)) true)) as Hc.
    { destruct ho; [done|]. intros _. solve_collects E. }
    split; [intros [? [= <-]]; auto|]. intros [H Hd].
    assert (is_some ho = false) as Ho.
    { assert (field_of (mkFields m sc p a pr ho d) (str "host") = None) as Hn.
      { eapply collects_room; [|exact E|exact H]. apply elem_of_app. right. by left. }
      unfold field_of in Hn. revert Hn. eval_eqb. cbn. by intros ->. }
    split; [done|]. f_equal. eapply collects_unique; eauto.
  - assert (collects (mkFields m sc p a pr ho d) [h] (mkFields m sc p a pr ho true)) as Hc.
    { unfold collects, REQUEST_NAMES, REQUEST_PSEUDO_HEADERS. cbn [app].
      repeat (apply Forall_cons; split); [..|by constructor];
      rewrite values_of_one; pseudo_names; rewrite ?E; by rewrite app_nil_r. }
    split; [intros [= <-]; auto|]. intros [H Hd]. f_equal. eapply collects_unique; eauto.
Qed.

Lemma request_field_accepts s h : is_pseudo h = false -> request_regular h ->
  (name h = str "host" -> field_of s (str "host") = None) -> exists s', request_field s h = Ok s'.
Proof.
  intros Hp [(Hn & Hv & Hc) Hte] Hh. unfold request_field. destruct s as [m sc p a pr ho d].
  apply is_valid_field_name_spec in Hn as ->. apply is_valid_field_value_spec in Hv as ->.
  apply is_connection_specific_false in Hc as ->. apply te_rule in Hte as ->. cbn [negb refuse_if mbind result_bind].
  destruct (bytes_eqb (name h) (str "host")) eqn:E; [|by eexists]. apply bytes_eqb_eq in E.
  specialize (Hh E). unfold field_of in Hh. revert Hh. eval_eqb. cbn. intros ->. by eexists.
Qed.

Lemma request_loop_spec hs : forall s s',
  request_loop s hs = Ok s' <->
  exists pseudo fields, hs = pseudo ++ fields /\ (rf_pseudo_done s = true -> pseudo = []) /\
    Forall (fun h => name h ∈ REQUEST_PSEUDO_HEADERS /\ value_grammar (value h)) pseudo /\
    Forall request_regular fields /\ collects s hs s' /\
    rf_pseudo_done s' = rf_pseudo_done s || negb (bool_decide (fields = [])).
Proof.
  induction hs as [|h hs IH]; intros s s'; cbn [request_loop].
  - split.
    + intros [= <-]. exists [], []. split_and!; try done; [apply collects_nil|by rewrite orb_false_r].
    + intros (ps & fs & E & _ & _ & _ & Hc & Hd). symmetry in E. apply app_eq_nil in E as [-> ->].
      rewrite orb_false_r in Hd. f_equal. eapply collects_unique; [apply collects_nil|done..].
  - rewrite result_bind_Ok. destruct (is_pseudo h) eqn:Hp.
    + split.
      * intros (s1 & H1 & H2). rewrite !refuse_bind_Ok in H1. destruct H1 as (Hd & Hv & H1).
        apply negb_false_iff, is_valid_field_value_spec in Hv.
        apply request_pseudo_spec in H1 as (Hin & Hc & Hd1). apply IH in H2 as (ps & fs & -> & H0 & Hps & Hfs & Hc2 & Hd2).
        exists (h :: ps), fs. rewrite Hd in *. split_and!; try done; [by constructor|..].
        -- by apply (collects_cons _ _ _ _ _ Hc).
        -- by rewrite Hd2, Hd1.
      * intros ([|h' ps] & fs & E & H0 & Hps & Hfs & Hc & Hd); simplify_eq/=.
        { inversion_clear Hfs as [|? ? [Hr%regular_not_pseudo _] _]. congruence. }
        inversion_clear Hps as [|? ? [Hin Hv] Hps'].
        assert (rf_pseudo_done s = false) as Hds by (destruct (rf_pseudo_done s); [by specialize (H0 eq_refl)|done]).
        destruct (request_pseudo_accepts s h' Hin) as [s1 H1].
        { eapply collects_room; [|done|exact Hc]. apply elem_of_app. by left. }
        pose proof H1 as (_ & Hc1 & Hd1)%request_pseudo_spec. exists s1. split.
        { rewrite !refuse_bind_Ok. split_and!; [done|by apply negb_false_iff, is_valid_field_value_spec|done]. }
        apply IH. exists ps, fs. rewrite Hd1, Hds in *. split_and!; try done.
        by apply (collects_cons _ _ _ _ _ Hc1).
    + split.
      * intros (s1 & H1 & H2). apply request_field_spec in H1 as (Hr & Hc & Hd1); [|done].
        apply IH in H2 as (ps & fs & -> & H0 & Hps & Hfs & Hc2 & Hd2). rewrite (H0 Hd1) in *.
        exists [], (h :: fs). split_and!; try done; [by constructor|by apply (collects_cons _ _ _ _ _ Hc)|].
        rewrite Hd2, Hd1, orb_true_r. done.
      * intros ([|h' ps] & fs & E & H0 & Hps & Hfs & Hc & Hd); simplify_eq/=.
        2: { inversion_clear Hps as [|? ? [Hin _] _]. apply request_pseudo_names in Hin. congruence. }
        inversion_clear Hfs as [|? ? Hr Hfs'].
        assert (exists s1, request_field s h = Ok s1) as [s1 H1].
        { apply request_field_accepts; [done..|]. intros E.
          eapply collects_room; [|exact E|exact Hc]. apply elem_of_app. right. by left. }
        pose proof H1 as (_ & Hc1 & Hd1)%request_field_spec; [|done]. exists s1. split; [done|].
        apply IH. exists [], hs. rewrite Hd1, orb_true_r in *. split_and!; try done.
        by apply (collects_cons _ _ _ _ _ Hc1).
Qed.

(** ** The target of a request *)
Lemma some_and_false {A} (o : option A) f : some_and o f = false <-> forall x, o = Some x -> f x = false.
Proof. destruct o; cbn; naive_solver. Qed.
Lemma is_some_false {A} (o : option A) : is_some o = false <-> o = None.
Proof. destruct o; cbn; naive_solver. Qed.
Lemma is_some_true {A} (o : option A) : is_some o = true <-> exists x, o = Some x.
Proof. destruct o; cbn; naive_solver. Qed.

Lemma is_http_or_https_spec c : is_http_or_https c = true <-> http_scheme c.
Proof. unfold is_http_or_https, http_scheme. by rewrite orb_true_iff, !bytes_eqb_eq. Qed.

Lemma authority_mismatch_false a h :
  authority_mismatch a h = false <-> forall x y, a = Some x -> h = Some y -> x = y.
Proof.
  destruct a, h; cbn; rewrite ?negb_false_iff, ?bytes_eqb_eq; naive_solver.
Qed.

Lemma is_empty_false l : is_empty_bytes l = false <-> l <> [].
Proof. apply bool_decide_eq_false. Qed.

Lemma no_authority_false sc (a ho : option bytes) :
  some_and sc is_http_or_https && negb (is_some a) && negb (is_some ho) = false <->
  forall c, sc = Some c -> http_scheme c -> a <> None \/ ho <> None.
Proof.
  destruct sc as [c|]; cbn [some_and]; [|naive_solver].
  destruct (is_http_or_https c) eqn:E.
  - apply is_http_or_https_spec in E. destruct a, ho; cbn; naive_solver.
  - cbn. split; [|done]. intros _ c' [= <-] H%is_http_or_https_spec. congruence.
Qed.

(** An authority is not empty and has no userinfo. *)
Lemma authority_nonempty v : authority_grammar v -> v <> [].
Proof.
  intros [[? _]|[(h & p & _ & _ & _ & ->)|(c & _ & [->|(p & _ & ->)])]] E; try done.
  by destruct h.
Qed.

Lemma digits_no_at p : digits p -> 64 ∉ p.
Proof. intros H Hin. unfold digits in H. rewrite Forall_forall in H. by specialize (H _ Hin). Qed.

Lemma ip_literal_no_at c : ip_literal_grammar c -> 64 ∉ c.
Proof.
  intros [(r & -> & _ & _ & H)|[_ H]] Hin.
  - apply elem_of_cons in Hin as [?|Hin]; [done|]. rewrite Forall_forall in H. by specialize (H _ Hin).
  - rewrite Forall_forall in H. by specialize (H _ Hin).
Qed.

Lemma reg_name_no_at h : reg_name_grammar h -> 64 ∉ h.
Proof. intros [_ H]. revert H. by apply pct_string_not_elem. Qed.

Lemma authority_no_userinfo v : authority_grammar v -> 64 ∉ v.
Proof.
  intros [H%reg_name_no_at|[(h & p & H%reg_name_no_at & _ & Hp%digits_no_at & ->)|(c & H%ip_literal_no_at & E)]].
  - done.
  - set_solver.
  - unfold bracketed in E. destruct E as [->|(p & Hp%digits_no_at & ->)]; set_solver.
Qed.

Lemma connect_authority_nonempty v : connect_authority_grammar v -> v <> [].
Proof. intros (h & p & _ & _ & _ & ->) E. by destruct h. Qed.

(** Boolean refusals and the conditions they stand for. *)
Ltac refusals :=
  repeat first
    [ rewrite refuse_bind_Ok | rewrite refuse_if_Ok | rewrite orb_false_iff | rewrite negb_false_iff ].

Lemma check_extended_connect_spec s : let '(mkFields _ sc p a pr ho _) := s in is_some pr = true ->
  check_extended_connect s (str "CONNECT") = Ok () <->
  extended_connect sc p pr a ho /\ (forall x y, a = Some x -> ho = Some y -> x = y) /\
  a <> Some [] /\ ho <> Some [].
Proof.
  destruct s as [m sc p a pr ho d]. intros [u ->]%is_some_true. unfold check_extended_connect, extended_connect.
  cbn [rf_scheme rf_path rf_protocol rf_authority rf_host]. refusals.
  rewrite no_authority_false, authority_mismatch_false, !some_and_false, !is_some_true.
  setoid_rewrite negb_false_iff. setoid_rewrite is_valid_protocol_spec.
  setoid_rewrite is_valid_scheme_spec. setoid_rewrite is_valid_http_path_spec.
  setoid_rewrite is_empty_false. split.
  - intros (([c ->] & [q ->]) & Hpr & Hsc & Hp & Ha & Hm & Hae & Hhe).
    split_and!; try done; [|naive_solver..]. exists c, q, u. naive_solver.
  - intros ((c & q & u' & -> & -> & [= <-] & ? & ? & ? & ?) & ? & ? & ?). naive_solver.
Qed.

Lemma check_plain_connect_spec s : let '(mkFields _ sc p a pr _ _) := s in pr = None ->
  check_plain_connect s = Ok () <-> plain_connect sc p pr a.
Proof.
  destruct s as [m sc p a pr ho d]. intros ->. unfold check_plain_connect, plain_connect.
  cbn [rf_scheme rf_path rf_protocol rf_authority rf_host]. refusals. rewrite !is_some_false.
  destruct a as [[|b v]|].
  - split; [naive_solver|]. intros (_ & _ & _ & v & [= <-] & H). by apply connect_authority_nonempty in H.
  - refusals. rewrite is_valid_connect_authority_spec. naive_solver.
  - naive_solver.
Qed.

Lemma check_other_method_spec s m : let '(mkFields _ sc p a pr ho _) := s in
  check_other_method s m = Ok () <-> plain_request m sc p pr a ho.
Proof.
  destruct s as [m' sc p a pr ho d]. unfold check_other_method, plain_request.
  cbn [rf_scheme rf_path rf_protocol rf_authority rf_host]. refusals.
  rewrite !is_some_true, is_some_false, some_and_false.
  setoid_rewrite negb_false_iff. setoid_rewrite is_valid_scheme_spec.
  destruct sc as [c|]; [|naive_solver]. destruct p as [q|]; [|naive_solver].
  rewrite result_bind_Ok. cbn beta iota. setoid_rewrite refuse_bind_Ok. setoid_rewrite refuse_if_Ok.
  setoid_rewrite no_authority_false. setoid_rewrite is_empty_false. cbn [some_and].
  transitivity (pr = None /\ scheme_grammar c /\ q <> [] /\
    (is_http_or_https c && negb (is_valid_http_path q m) = false) /\ (http_scheme c -> a <> None \/ ho <> None)).
  { split; [naive_solver|]. intros (-> & ? & ? & ? & ?). split_and!; try done; eauto; [naive_solver|].
    exists (). naive_solver. }
  rewrite andb_false_iff, negb_false_iff, is_valid_http_path_spec, <- not_true_iff_false, is_http_or_https_spec.
  split.
  - intros (-> & ? & ? & Hh & ?). split; [done|]. exists c, q. naive_solver.
  - intros (-> & c' & q' & [= <-] & [= <-] & ? & ? & H). split_and!; try done; [|naive_solver].
    rewrite <- is_http_or_https_spec in *. destruct (is_http_or_https c); naive_solver.
Qed.

Lemma host_nonempty_false ho : some_and ho is_empty_bytes = false <-> ho <> Some [].
Proof. rewrite some_and_false. setoid_rewrite is_empty_false. naive_solver. Qed.

Lemma authority_nonempty_false m a :
  some_and a is_empty_bytes && negb (is_connect m) = false <-> (m <> str "CONNECT" -> a <> Some []).
Proof.
  rewrite andb_false_iff, host_nonempty_false, negb_false_iff. unfold is_connect. rewrite bytes_eqb_eq.
  destruct (decide (m = str "CONNECT")); naive_solver.
Qed.

Lemma host_authority_false (a ho : option bytes) :
  negb (is_some a) && some_and ho (fun h => negb (is_valid_authority h)) = false <->
  (a = None -> forall y, ho = Some y -> authority_grammar y).
Proof.
  rewrite andb_false_iff, negb_false_iff, is_some_true, some_and_false. setoid_rewrite negb_false_iff.
  setoid_rewrite is_valid_authority_spec. destruct a; naive_solver.
Qed.

Lemma userinfo_false sc a :
  some_and sc is_http_or_https && some_and a (existsb (Z.eqb 64)) = false <->
  forall c x, sc = Some c -> http_scheme c -> a = Some x -> 64 ∉ x.
Proof.
  rewrite andb_false_iff, !some_and_false. setoid_rewrite existsb_eqb_false.
  setoid_rewrite <- not_true_iff_false. setoid_rewrite is_http_or_https_spec.
  destruct sc as [c|]; [|naive_solver]. destruct (decide (http_scheme c)); naive_solver.
Qed.

Lemma authority_syntax_false m (pr a : option bytes) :
  (negb (is_connect m) || is_some pr) && some_and a (fun x => negb (is_valid_authority x)) = false <->
  (m = str "CONNECT" /\ pr = None \/ forall x, a = Some x -> authority_grammar x).
Proof.
  rewrite andb_false_iff, orb_false_iff, negb_false_iff, is_some_false, some_and_false.
  setoid_rewrite negb_false_iff. setoid_rewrite is_valid_authority_spec.
  unfold is_connect. rewrite bytes_eqb_eq. done.
Qed.

Definition request_kind (m : bytes) (sc p a pr ho : option bytes) : Prop :=
  (m = str "CONNECT" /\ (extended_connect sc p pr a ho \/ plain_connect sc p pr a)) \/
  (m <> str "CONNECT" /\ plain_request m sc p pr a ho).

Lemma check_kind_spec s m : let '(mkFields _ sc p a pr ho _) := s in
  (if is_connect m && is_some (rf_protocol s) then check_extended_connect s m
   else if is_connect m then check_plain_connect s else check_other_method s m) = Ok () <->
  request_kind m sc p a pr ho /\
  (is_some pr = true -> m = str "CONNECT" -> (forall x y, a = Some x -> ho = Some y -> x = y) /\
    a <> Some [] /\ ho <> Some []).
Proof.
  pose proof (check_extended_connect_spec s) as Hext. pose proof (check_plain_connect_spec s) as Hpl.
  pose proof (check_other_method_spec s m) as Hot. destruct s as [mo sc p a pr ho d].
  cbn [rf_protocol]. unfold request_kind, is_connect. destruct (bytes_eqb m (str "CONNECT")) eqn:Ec.
  - apply bytes_eqb_eq in Ec as ->. destruct pr as [u|]; cbn [is_some andb] in *.
    + rewrite Hext by done. unfold plain_connect. naive_solver.
    + rewrite Hpl by done. unfold extended_connect. naive_solver.
  - apply bytes_eqb_neq in Ec. cbn [andb]. rewrite Hot. naive_solver.
Qed.

(** The emptiness and userinfo checks are implied by the syntax of an authority. *)
Lemma request_kind_checks m sc p a pr ho :
  request_kind m sc p a pr ho -> authority_rules (m = str "CONNECT" /\ pr = None) a ho ->
  a <> Some [] /\ ho <> Some [] /\
  (forall c x, sc = Some c -> http_scheme c -> a = Some x -> 64 ∉ x).
Proof.
  intros Hk (Hm & Hn & Hau).
  assert (forall x, a = Some x -> x <> []) as Ha.
  { intros x ->. destruct Hau as [[-> ->]|Hau]; [|by apply authority_nonempty, Hau].
    destruct Hk as [[_ [(? & ? & ? & _ & _ & ? & _)|(_ & _ & _ & v & [= <-] & Hv)]]|[? _]]; try done.
    by apply connect_authority_nonempty. }
  split_and!.
  - intros E. by apply (Ha _ E).
  - intros ->. destruct a as [x|].
    + apply (Ha x); [done|]. by apply Hm.
    + by apply (authority_nonempty []); [apply Hn|].
  - intros c x -> Hc ->. destruct Hau as [[-> ->]|Hau]; [|by apply authority_no_userinfo, Hau].
    destruct Hk as [[_ [(? & ? & ? & _ & _ & ? & _)|(? & _)]]|[? _]]; done.
Qed.

Lemma check_request_spec s : let '(mkFields mo sc p a pr ho _) := s in
  check_request s = Ok () <-> exists m, mo = Some m /\ request_target m sc p a pr ho.
Proof.
  pose proof (check_kind_spec s) as Hk. destruct s as [mo sc p a pr ho d].
  unfold check_request. rewrite result_bind_Ok.
  cbn [rf_method rf_scheme rf_path rf_authority rf_protocol rf_host] in *.
  apply exist_proper. intros m. rewrite ok_or_Ok. apply and_iff_compat_l.
  rewrite refuse_bind_Ok, negb_false_iff, is_valid_method_spec. unfold request_target.
  apply and_iff_compat_l. rewrite unit_bind_Ok, Hk, !refuse_bind_Ok, refuse_if_Ok.
  rewrite authority_mismatch_false, host_nonempty_false, authority_nonempty_false.
  rewrite host_authority_false, userinfo_false, authority_syntax_false.
  change (_ \/ m <> str "CONNECT" /\ _) with (request_kind m sc p a pr ho).
  pose proof (request_kind_checks m sc p a pr ho) as Himp. unfold authority_rules in *. tauto.
Qed.

(** ** Whole sections *)
Lemma validate_request_Ok hs : validate_request_headers hs = Ok () <-> request_grammar hs.
Proof.
  unfold validate_request_headers, request_grammar. rewrite result_bind_Ok. split.
  - intros ([mo sc p a pr ho d] & Hl & Hc).
    apply request_loop_spec in Hl as (pseudo & fields & E & _ & Hp & Hf & Hv & _).
    pose proof (check_request_spec (mkFields mo sc p a pr ho d)) as Hs. cbn in Hs.
    apply Hs in Hc as (m & -> & Ht). exists pseudo, fields, m, sc, p, a, pr, ho.
    unfold collects, REQUEST_NAMES, REQUEST_PSEUDO_HEADERS in Hv. cbn [app] in Hv.
    rewrite !Forall_cons in Hv. split_and!; try done; symmetry; apply Hv.
  - intros (pseudo & fields & m & sc & p & a & pr & ho & E & Hp & Hf & Hm & Hsc & Hpa & Ha & Hpr & Hho & Ht).
    exists (mkFields (Some m) sc p a pr ho (negb (bool_decide (fields = [])))). split.
    + apply request_loop_spec. exists pseudo, fields. split_and!; try done.
      unfold collects, REQUEST_NAMES, REQUEST_PSEUDO_HEADERS. cbn [app].
      repeat (apply Forall_cons; split); [..|by constructor]; symmetry; assumption.
    + apply (check_request_spec (mkFields (Some m) sc p a pr ho _)). by exists m.
Qed.

Lemma fields_loop fields : forall st d, Forall response_regular fields -> response_loop st d fields = Ok st.
Proof.
  induction fields as [|h fs IH]; intros st d; [done|]. intros [Hr Hf]%Forall_cons.
  cbn [response_loop]. rewrite (regular_not_pseudo h) by apply Hr.
  apply response_field_spec in Hr as ->. by apply IH.
Qed.

Lemma response_loop_done hs : forall st st', response_loop st true hs = Ok st' ->
  st' = st /\ Forall response_regular hs.
Proof.
  induction hs as [|h hs IH]; intros st st'; cbn [response_loop]; [by intros [= <-]|].
  destruct (is_pseudo h); [by cbn|]. rewrite unit_bind_Ok, response_field_spec.
  intros [Hr [-> ?]%IH]. split; [done|by constructor].
Qed.

Lemma validate_response_Ok hs : validate_response_headers hs = Ok () <-> response_grammar hs.
Proof.
  unfold validate_response_headers, response_grammar. rewrite result_bind_Ok. split.
  - intros (st & Hl & Hst). destruct st as [v|]; [clear Hst|done].
    destruct hs as [|h hs]; [done|]. cbn [response_loop] in Hl. destruct (is_pseudo h) eqn:Hp.
    2: { apply unit_bind_Ok in Hl as [_ Hl]. by apply response_loop_done in Hl as [? _]. }
    cbn [refuse_if mbind result_bind] in Hl.
    destruct (bytes_eqb (name h) (str ":status")) eqn:En; [|done]. apply bytes_eqb_eq in En.
    rewrite !refuse_bind_Ok in Hl. destruct Hl as (_ & Hv & H101 & Hl).
    apply orb_false_iff in Hv as [Hlen Hd]. apply negb_false_iff in Hlen, Hd.
    apply Z.eqb_eq in Hlen. apply forallb_Forall_true in Hd. apply bytes_eqb_neq in H101.
    exists h, hs. split_and!; try done.
    destruct hs as [|h2 hs]; [constructor|]. cbn [response_loop] in Hl. destruct (is_pseudo h2) eqn:Hp2.
    + exfalso. cbn [refuse_if is_some mbind result_bind] in Hl. by destruct (bytes_eqb (name h2) (str ":status")).
    + rewrite unit_bind_Ok, response_field_spec in Hl. destruct Hl as [Hr Hl].
      constructor; [done|]. by apply response_loop_done in Hl as [_ ?].
  - intros (h & fs & -> & Hf & En & Hlen & Hd & H101). exists (Some (value h)). split; [|done].
    cbn [response_loop]. assert (is_pseudo h = true) as -> by (unfold is_pseudo; by rewrite En).
    rewrite En, (proj2 (bytes_eqb_eq _ _) eq_refl). apply forallb_Forall_true in Hd. apply bytes_eqb_neq in H101.
    rewrite Hlen, Hd, H101. cbn. by apply fields_loop.
Qed.

Lemma validate_trailer_Ok hs : validate_trailer_headers hs = Ok () <-> trailer_grammar hs.
Proof.
  unfold trailer_grammar. induction hs as [|h hs IH]; cbn [validate_trailer_headers]; [by split|].
  rewrite refuse_bind_Ok, unit_bind_Ok, response_field_spec, IH, Forall_cons. split; [naive_solver|].
  intros [Hr ?]. split_and!; try done. apply regular_not_pseudo, Hr.
Qed.

(** ** The announced length *)
Definition dec_value (l : bytes) : Z := fold_left (fun acc b => acc * 10 + (b - 48)) l 0.

Lemma digit_range b : is_digit b = true -> 48 <= b <= 57.
Proof. unfold is_digit, in_range. intros. zify_bool. lia. Qed.

Lemma dec_value_grows l : forall acc, digits l -> 0 <= acc ->
  acc <= fold_left (fun acc b => acc * 10 + (b - 48)) l acc.
Proof.
  induction l as [|b l IH]; intros acc; cbn; [lia|]. intros [Hb%digit_range Hl]%Forall_cons Ha.
  specialize (IH (acc * 10 + (b - 48)) Hl). lia.
Qed.

Lemma parse_digits_spec l : forall acc, digits l -> 0 <= acc <= U64_MAX ->
  let v := fold_left (fun acc b => acc * 10 + (b - 48)) l acc in
  parse_digits acc l = if v <=? U64_MAX then Some v else None.
Proof.
  induction l as [|b l IH]; intros acc; cbn [parse_digits fold_left].
  { intros _ Ha. by solve_cmp. }
  intros [Hb Hl]%Forall_cons Ha. rewrite Hb. apply digit_range in Hb. cbn [andb].
  pose proof (dec_value_grows l (acc * 10 + (b - 48)) Hl ltac:(lia)).
  destruct (Z.leb_spec (acc * 10 + (b - 48)) U64_MAX).
  - by apply IH; [|lia].
  - by solve_cmp.
Qed.

Lemma parse_u64_spec l : digits l ->
  parse_u64 l = if negb (bool_decide (l = [])) && (dec_value l <=? U64_MAX) then Some (dec_value l) else None.
Proof.
  intros Hd. unfold parse_u64, dec_value. destruct l as [|b l]; [done|].
  pose proof Hd as [Hb _]%Forall_cons. apply digit_range in Hb. replace (b =? 43) with false by lia.
  by rewrite parse_digits_spec.
Qed.

Lemma digits_utf8 l : digits l -> is_utf8 l = true.
Proof.
  induction l as [|b l IH]; [done|]. intros [Hb%digit_range Hl]%Forall_cons. cbn [is_utf8].
  solve_cmp. by apply IH.
Qed.

(** The values of the content-length fields: none, or one number below 2^64. *)
Definition announced_length (hs : list Header) (n : option Z) : Prop :=
  match n with
  | None => values_of (str "content-length") hs = []
  | Some v => exists l, values_of (str "content-length") hs = [l] /\ l <> [] /\ digits l /\
      dec_value l = v /\ v <= U64_MAX
  end.

Lemma content_length_loop_Some hs v r :
  content_length_loop (Some v) hs = Ok r <-> r = Some v /\ values_of (str "content-length") hs = [].
Proof.
  induction hs as [|h hs IH]; cbn [content_length_loop].
  - naive_solver.
  - rewrite values_of_cons, values_of_one. destruct (bytes_eqb _ _) eqn:E; cbn [negb].
    + naive_solver.
    + rewrite IH. naive_solver.
Qed.

Lemma content_length_loop_None hs r :
  content_length_loop None hs = Ok r <-> announced_length hs r.
Proof.
  unfold announced_length. induction hs as [|h hs IH]; cbn [content_length_loop].
  - destruct r; naive_solver.
  - rewrite values_of_cons, values_of_one. destruct (bytes_eqb _ _) eqn:E; cbn [negb].
    2: { rewrite IH. done. }
    cbn [is_some]. rewrite !refuse_bind_Ok, !negb_false_iff, result_bind_Ok.
    setoid_rewrite ok_or_Ok. setoid_rewrite content_length_loop_Some. cbn [app].
    rewrite forallb_Forall_true. split.
    + intros (_ & _ & Hd & v & Hp & -> & Hnil). rewrite parse_u64_spec in Hp by done.
      destruct (_ && _) eqn:Ec in Hp; [|done]. apply andb_true_iff in Ec as [Hne%nonempty_true Hmax].
      simplify_eq. exists (value h). rewrite Hnil. split_and!; try done. by apply Z.leb_le.
    + destruct r as [v|]; [|done]. intros (l & [= El Hnil] & Hne & Hd & <- & Hmax). subst l.
      split_and!; [done|by apply digits_utf8|done|]. exists (dec_value (value h)). split; [|done].
      rewrite parse_u64_spec by done. apply nonempty_true in Hne as ->. apply Z.leb_le in Hmax as ->. done.
Qed.

Lemma content_length_refuses hs : forall r, refuses_message (content_length_loop r hs).
Proof.
  induction hs as [|h hs IH]; intros r; cbn [content_length_loop]; [apply refuses_Ok|].
  case_match; [apply IH|]. refuses; apply IH.
Qed.

Lemma message_refused (r : result Error unit) (P : Prop) : (r = Ok () <-> P) -> refuses_message r -> ~ P ->
  r = Err message_error.
Proof. intros HP Hr Hn. destruct r as [[]|e]; [naive_solver|]. by rewrite (Hr e eq_refl). Qed.

Lemma validate_headers_refuses hs role : refuses_message (validate_headers hs role).
Proof.
  destruct role; cbn.
  - unfold validate_response_headers. apply refuses_bind; [apply response_loop_refuses|intros; refuses].
  - unfold validate_request_headers.
    apply refuses_bind; [apply request_loop_refuses|intros; apply check_request_refuses].
Qed.

Definition message_grammar (hs : list Header) (role : Role) : Prop :=
  match role with Server => request_grammar hs | Client => response_grammar hs end.

Lemma validate_headers_Ok hs role : validate_headers hs role = Ok () <-> message_grammar hs role.
Proof. destruct role; [apply validate_response_Ok|apply validate_request_Ok]. Qed.

Lemma values_of_elem n hs v l : values_of n hs = l -> v ∈ l -> exists h, h ∈ hs /\ name h = n /\ value h = v.
Proof.
  intros <- H. unfold values_of in H. apply list_elem_of_fmap in H as (h & -> & H).
  apply list_elem_of_filter in H as [? ?]. eauto.
Qed.

Lemma values_of_intro hs h : h ∈ hs -> value h ∈ values_of (name h) hs.
Proof. intros H. apply list_elem_of_fmap. exists h. split; [done|]. by apply list_elem_of_filter. Qed.

(** A pseudo-header of an accepted request has a value of its own grammar. *)
Lemma request_pseudo_grammar hs h : request_grammar hs -> h ∈ hs -> name h ∈ REQUEST_PSEUDO_HEADERS ->
  pseudo_value_grammar (name h) (value h).
Proof.
  intros (ps & fs & m & sc & p & a & pr & ho & _ & _ & _ & Hm & Hsc & _ & _ & Hpr & _ & Htok & Hk & _) Hin Hn.
  apply values_of_intro in Hin. unfold pseudo_value_grammar. split_and!; intros E; rewrite E in Hin.
  - rewrite Hm in Hin. apply list_elem_of_singleton in Hin as ->. done.
  - rewrite Hsc in Hin. destruct sc as [c|]; [|by apply elem_of_nil in Hin].
    apply list_elem_of_singleton in Hin as ->.
    destruct Hk as [[_ [(c' & ? & ? & [= <-] & _ & _ & _ & ? & _)|(? & _)]]|[_ (_ & c' & ? & [= <-] & _ & ? & _)]]; done.
  - rewrite E in Hn. apply request_pseudo_cases in Hn. destruct_or!; discriminate.
  - rewrite Hpr in Hin. destruct pr as [u|]; [|by apply elem_of_nil in Hin].
    apply list_elem_of_singleton in Hin as ->.
    destruct Hk as [[_ [(? & ? & u' & _ & _ & [= <-] & ? & _)|(_ & _ & ? & _)]]|[_ (? & _)]]; done.
Qed.

Lemma request_pseudo_known n : n ∈ REQUEST_PSEUDO_HEADERS -> n ∈ KNOWN_PSEUDO_HEADERS.
Proof.
  intros H%request_pseudo_cases. apply known_pseudo_elem. by destruct_or!; rewrite H.
Qed.

Lemma digits_value_grammar v : digits v -> value_grammar v.
Proof.
  unfold digits. intros H. assert (forall b, b ∈ v -> is_field_vchar b = true) as Hb.
  { intros b Hin. rewrite Forall_forall in H. specialize (H b Hin). apply digit_range in H.
    unfold is_field_vchar, in_range. by solve_cmp. }
  split_and!.
  - apply Forall_forall. auto.
  - intros b r ->. apply Hb. by left.
  - intros b r ->. apply Hb. apply elem_of_app. right. by left.
Qed.

Lemma message_header_grammar hs role : message_grammar hs role ->
  Forall (fun h => header_grammar (name h) (value h)) hs.
Proof.
  destruct role; cbn.
  - intros (h & fs & -> & Hf & En & Hlen & Hd & _). constructor.
    + split_and!; [right; apply known_pseudo_elem; by rewrite En|by apply digits_value_grammar|].
      rewrite En. split_and!; intros E; try discriminate E. done.
    + eapply Forall_impl; [exact Hf|]. intros h' [Hr _]. by apply regular_header_grammar.
  - intros Hg. pose proof Hg as (ps & fs & m & sc & p & a & pr & ho & E & Hp & Hf & _).
    apply Forall_forall. intros h Hin. pose proof Hin as Hin'. rewrite E in Hin'.
    apply elem_of_app in Hin' as [Hin'|Hin'].
    + rewrite Forall_forall in Hp. destruct (Hp h Hin') as [Hn Hv].
      split_and!; [right; by apply request_pseudo_known|done|]. by eapply request_pseudo_grammar.
    + rewrite Forall_forall in Hf. apply regular_header_grammar, Hf, Hin'.
Qed.

Lemma grammar_constructs hs : Forall (fun h => header_grammar (name h) (value h)) hs ->
  Forall (fun h => is_ok (header_new (name h) (value h)) = true) hs.
Proof. intros H. eapply Forall_impl; [exact H|]. cbn. intros h Hh. apply check_header_grammar in Hh. unfold header_new. by rewrite Hh. Qed.

(** ** Properties *)

(** C33. Header sections are accepted exactly when they are messages of the grammar written
    out above: a request is at most one of each pseudo-header, then regular fields, with a
    target that fits the method (Extended CONNECT, CONNECT, or any other), authorities and
    paths of [UriSyntax] and no contradicting [host]; a response is a status of three
    digits other than 101, then regular fields; a trailer section is regular fields only.
    Everything else is H3_MESSAGE_ERROR on the stream, and what is accepted consists of
    headers [Header::new] would construct, although the decoder skips its checks. The
    structure is that of RFC 9114; of RFC 3986 the grammar takes what the code takes: the
    content of brackets is checked for its characters only, an authority has no userinfo,
    and a path may begin with two slashes. *)
Theorem validate_headers_grammar hs :
  (forall role,
    (validate_headers hs role = Ok () <-> message_grammar hs role) /\
    (~ message_grammar hs role -> validate_headers hs role = Err (StreamError MessageError)) /\
    (validate_headers hs role = Ok () -> Forall (fun h => is_ok (header_new (name h) (value h)) = true) hs)) /\
  (validate_trailer_headers hs = Ok () <-> trailer_grammar hs) /\
  (~ trailer_grammar hs -> validate_trailer_headers hs = Err (StreamError MessageError)) /\
  (validate_trailer_headers hs = Ok () -> Forall (fun h => is_ok (header_new (name h) (value h)) = true) hs).
Proof.
  split.
  - intros role. pose proof (validate_headers_Ok hs role) as Hok. split_and!; [done|..].
    + intros Hn. apply (message_refused _ _ Hok); [apply validate_headers_refuses|done].
    + intros H%Hok%message_header_grammar. by apply grammar_constructs.
  - pose proof (validate_trailer_Ok hs) as Hok. split_and!; [done|..].
    + intros Hn. apply (message_refused _ _ Hok); [apply trailers_refuse|done].
    + intros H%Hok. apply grammar_constructs. eapply Forall_impl; [exact H|]. intros h [Hr _]. by apply regular_header_grammar.
Qed.

(** The announced length is checked: a section passes exactly when it has no
    content-length field, or one whose value is a decimal number of 64 bits that is the
    length of the received body (unless that check is skipped); everything else, several
    fields included, is a message error. *)
Theorem content_length_checked hs size skip :
  let valid := exists n, announced_length hs n /\ forall v, n = Some v -> skip = true \/ v = size in
  (validate_content_length hs size skip = Ok () <-> valid) /\
  (~ valid -> validate_content_length hs size skip = Err (StreamError MessageError)).
Proof.
  intros valid. assert (validate_content_length hs size skip = Ok () <-> valid) as Hok.
  { unfold validate_content_length, valid. rewrite result_bind_Ok. setoid_rewrite content_length_loop_None.
    apply exist_proper. intros n. apply and_iff_compat_l. destruct n as [v|]; [|naive_solver].
    destruct skip; [naive_solver|]. rewrite refuse_if_Ok, negb_false_iff, Z.eqb_eq. naive_solver. }
  split; [done|]. apply message_refused; [done|]. unfold validate_content_length.
  apply refuses_bind; [apply content_length_refuses|intros; refuses].
Qed.

Definition sample_request : list Header :=
  [mkHeader (str ":method") (str "GET") false; mkHeader (str ":scheme") (str "https") false;
   mkHeader (str ":path") (str "/a%20b?q=1") false; mkHeader (str ":authority") (str "[::1]:443") false;
   mkHeader (str "te") (str "trailers") false].

Lemma validate_headers_grammar_witness :
  message_grammar sample_request Server /\
  validate_headers (rev sample_request) Server = Err (StreamError MessageError) /\
  trailer_grammar [mkHeader (str "x-sum") (str "12") false] /\
  validate_trailer_headers sample_request = Err (StreamError MessageError).
Proof.
  destruct (validate_headers_grammar sample_request) as (H & H3 & H4 & _).
  destruct (validate_headers_grammar (rev sample_request)) as (H1 & _).
  destruct (validate_headers_grammar [mkHeader (str "x-sum") (str "12") false]) as (_ & H2 & _). split_and!.
  - apply (H Server). vm_compute. reflexivity.
  - apply (H1 Server). intros Hg. apply (H1 Server) in Hg. vm_compute in Hg. discriminate Hg.
  - apply H2. vm_compute. reflexivity.
  - apply H4. intros Hg. apply H3 in Hg. vm_compute in Hg. discriminate Hg.
Defined.

Lemma content_length_checked_witness :
  validate_content_length [mkHeader (str "content-length") (str "12") false] 12 false = Ok () /\
  validate_content_length [mkHeader (str "content-length") (str "+12") false] 12 false =
    Err (StreamError MessageError).
Proof.
  destruct (content_length_checked [mkHeader (str "content-length") (str "12") false] 12 false) as (H & _).
  destruct (content_length_checked [mkHeader (str "content-length") (str "+12") false] 12 false) as (H1 & H2).
  split.
  - apply H. exists (Some 12). split; [|by intros v [= <-]; right].
    exists (str "12"). split_and!; [reflexivity|discriminate|by repeat constructor|reflexivity|discriminate].
  - apply H2. intros Hv. apply H1 in Hv. vm_compute in Hv. discriminate Hv.
Defined.
