(* ===== verification/FlowControl.v ===== *)
(** webtransport/session/flow_control.rs: limits, counters, and the receiver's windows for
    streams and data. The windows follow RFC 9000 Section 4: the announced maximum grows
    with what the receiver has finished with. *)

From S2P Require Import Prelude.

(** [MAX_STREAMS_LIMIT] of webtransport/capsule.rs. *)
Definition MAX_STREAMS_LIMIT : Z := 2 ^ 60.

Record FlowControlLimits := mkLimits { max_streams_uni : Z; max_streams_bidi : Z; max_data : Z }.
Definition limits_new : FlowControlLimits := mkLimits 0 0 0.

Record FlowControlState := mkFlowState {
  streams_uni_opened : Z; streams_bidi_opened : Z; data_sent : Z;
  streams_uni_received : Z; streams_bidi_received : Z; data_received : Z; datagrams_received : Z }.
Definition flow_state_new : FlowControlState := mkFlowState 0 0 0 0 0 0 0.

(** ** [DirectionalStreamFlowControl] *)
Record DirectionalStreamFlowControl := mkStreamFc {
  concurrent_limit : Z; sf_advertised_max : Z; total_closed : Z; sf_total_received : Z }.

Definition stream_fc_new (limit : Z) : DirectionalStreamFlowControl := mkStreamFc limit limit 0 0.

Definition stream_fc_check_received (f : DirectionalStreamFlowControl) : bool :=
  sf_total_received f <? sf_advertised_max f.

Definition on_stream_received (f : DirectionalStreamFlowControl) : DirectionalStreamFlowControl :=
  mkStreamFc (concurrent_limit f) (sf_advertised_max f) (total_closed f) (saturating_add (sf_total_received f) 1).

Definition on_stream_closed (f : DirectionalStreamFlowControl) : DirectionalStreamFlowControl * option Z :=
  let closed := saturating_add (total_closed f) 1 in
  let f := mkStreamFc (concurrent_limit f) (sf_advertised_max f) closed (sf_total_received f) in
  if concurrent_limit f =? 0 then (f, None)
  else
    let remaining := saturating_sub (sf_advertised_max f) (sf_total_received f) in
    let threshold := concurrent_limit f / 2 in
    if remaining <=? threshold then
      let new_max := Z.min (saturating_add closed (concurrent_limit f)) MAX_STREAMS_LIMIT in
      if sf_advertised_max f <? new_max
      then (mkStreamFc (concurrent_limit f) new_max closed (sf_total_received f), Some new_max)
      else (f, None)
    else (f, None).

(** ** [DataFlowControl] *)
Record DataFlowControl := mkDataFc {
  initial_window : Z; df_advertised_max : Z; total_consumed : Z; df_total_received : Z }.

Definition data_fc_new (window : Z) : DataFlowControl := mkDataFc window window 0 0.

Definition data_fc_check_received (f : DataFlowControl) (n : Z) : bool :=
  n <=? saturating_sub (df_advertised_max f) (df_total_received f).

Definition on_data_received (f : DataFlowControl) (n : Z) : DataFlowControl :=
  mkDataFc (initial_window f) (df_advertised_max f) (total_consumed f) (saturating_add (df_total_received f) n).

Definition data_fc_on_data_consumed (f : DataFlowControl) (n : Z) : DataFlowControl * option Z :=
  let consumed := saturating_add (total_consumed f) n in
  let f := mkDataFc (initial_window f) (df_advertised_max f) consumed (df_total_received f) in
  if initial_window f =? 0 then (f, None)
  else
    let remaining := saturating_sub (df_advertised_max f) (df_total_received f) in
    let threshold := initial_window f / 2 in
    if remaining <=? threshold then
      let new_max := saturating_add consumed (initial_window f) in
      if df_advertised_max f <? new_max
      then (mkDataFc (initial_window f) new_max consumed (df_total_received f), Some new_max)
      else (f, None)
    else (f, None).

Record SendBlockedState := mkSendBlocked {
  last_streams_blocked_uni : option Z; last_streams_blocked_bidi : option Z; last_data_blocked : option Z }.
Definition send_blocked_new : SendBlockedState := mkSendBlocked None None None.

(** ** The window both have in common

    [received] units arrived, [finished] of them are done with, [announced] is the maximum
    told to the peer; the receiver is willing to hold [window] units. The window is kept
    when the announced maximum never promises more than that, and never leaves the peer
    without credit once everything is finished, short of [cap]. *)
Definition window_ok (cap window announced finished received : Z) : Prop :=
  0 <= finished <= received /\ received <= announced /\ announced <= finished + window /\
  announced <= U64_MAX /\
  (0 < window -> finished = received -> received < announced \/ cap <= announced).

Definition stream_fc_ok (f : DirectionalStreamFlowControl) : Prop :=
  0 <= concurrent_limit f <= MAX_STREAMS_LIMIT /\
  window_ok MAX_STREAMS_LIMIT (concurrent_limit f) (sf_advertised_max f) (total_closed f) (sf_total_received f).

Definition data_fc_ok (f : DataFlowControl) : Prop :=
  0 <= initial_window f <= U64_MAX /\
  window_ok U64_MAX (initial_window f) (df_advertised_max f) (total_consumed f) (df_total_received f).

Lemma stream_fc_new_ok limit : 0 <= limit <= MAX_STREAMS_LIMIT -> stream_fc_ok (stream_fc_new limit).
Proof. unfold stream_fc_ok, window_ok, MAX_STREAMS_LIMIT, U64_MAX. cbn. lia. Qed.

Lemma data_fc_new_ok window : 0 <= window <= U64_MAX -> data_fc_ok (data_fc_new window).
Proof. unfold data_fc_ok, window_ok, U64_MAX. cbn. lia. Qed.

Ltac unfold_windows :=
  unfold stream_fc_ok, data_fc_ok, window_ok, on_stream_received, on_data_received, saturating_add, saturating_sub, MAX_STREAMS_LIMIT, U64_MAX in *;
  cbn in *.

Lemma on_stream_received_ok f : stream_fc_ok f -> stream_fc_check_received f = true ->
  stream_fc_ok (on_stream_received f) /\ sf_total_received (on_stream_received f) = sf_total_received f + 1.
Proof.
  unfold stream_fc_check_received. intros Hf Hc. zify_bool. destruct f. unfold_windows. lia.
Qed.

Lemma on_data_received_ok f n : data_fc_ok f -> 0 <= n -> data_fc_check_received f n = true ->
  data_fc_ok (on_data_received f n) /\ df_total_received (on_data_received f n) = df_total_received f + n.
Proof.
  unfold data_fc_check_received. intros Hf Hn Hc. zify_bool. destruct f. unfold_windows. lia.
Qed.

(** Closing announces a larger maximum or none. *)
Definition announces (before after : Z) (o : option Z) : Prop :=
  match o with Some m => before < m /\ after = m | None => after = before end.

Lemma on_stream_closed_ok f : stream_fc_ok f -> total_closed f < sf_total_received f ->
  let '(f', o) := on_stream_closed f in
  stream_fc_ok f' /\ announces (sf_advertised_max f) (sf_advertised_max f') o /\
  total_closed f' = total_closed f + 1 /\ sf_total_received f' = sf_total_received f /\
  concurrent_limit f' = concurrent_limit f /\ (forall m, o = Some m -> m <= MAX_STREAMS_LIMIT).
Proof.
  intros Hf Hc. unfold on_stream_closed. destruct f as [lim adv clo rec]. unfold_windows.
  pose proof (Z.div_pos lim 2 ltac:(lia) ltac:(lia)).
  repeat case_z; unfold_windows; split_and!; try done; try lia; intros ? [= <-]; lia.
Qed.

Lemma data_consumed_ok f n : data_fc_ok f -> 0 <= n -> total_consumed f + n <= df_total_received f ->
  let '(f', o) := data_fc_on_data_consumed f n in
  data_fc_ok f' /\ announces (df_advertised_max f) (df_advertised_max f') o /\
  total_consumed f' = total_consumed f + n /\ df_total_received f' = df_total_received f /\
  initial_window f' = initial_window f.
Proof.
  intros Hf Hn Hc. unfold data_fc_on_data_consumed. destruct f as [win adv con rec]. unfold_windows.
  pose proof (Z.div_pos win 2 ltac:(lia) ltac:(lia)).
  repeat case_z; unfold_windows; split_and!; try done; try lia.
Qed.
