(* ===== verification/WtError.v ===== *)
(** webtransport/error.rs: WebTransport error codes, their HTTP/3 representation, and the
    error of a session. Names carry the prefix [Wt] where error.rs has the same one. *)

From S2P Require Import Prelude Utf8.

Inductive WtErrorCode :=
| BufferedStreamRejected | SessionGone | FlowControlError | AlpnError | RequirementsNotMet.

#[export] Instance WtErrorCode_eq_dec : EqDecision WtErrorCode.
Proof. solve_decision. Defined.

Definition wt_error_code (c : WtErrorCode) : Z :=
  match c with
  | BufferedStreamRejected => 0x3994bd84 | SessionGone => 0x170d7b68 | FlowControlError => 0x045d4487
  | AlpnError => 0x0817b3dd | RequirementsNotMet => 0x212c0d48
  end.

Definition wt_from_code (code : Z) : option WtErrorCode :=
  if code =? 0x3994bd84 then Some BufferedStreamRejected
  else if code =? 0x170d7b68 then Some SessionGone
  else if code =? 0x045d4487 then Some FlowControlError
  else if code =? 0x0817b3dd then Some AlpnError
  else if code =? 0x212c0d48 then Some RequirementsNotMet
  else None.

(** ** [ApplicationErrorCode] *)
Definition FIRST : Z := 0x52e4a40fa8db.
Definition LAST : Z := 0x52e5ac983162.

Definition to_http3_code (app_code : Z) : Z := FIRST + app_code + app_code / 0x1e.

Definition is_application_error (http3_code : Z) : bool := (FIRST <=? http3_code) && (http3_code <=? LAST).

Definition from_http3_code (http3_code : Z) : option Z :=
  if negb (is_application_error http3_code) then None
  else if u64_of (http3_code - 0x21) mod 0x1f =? 0 then None
  else
    let shifted := http3_code - FIRST in
    let app_code := shifted - shifted / 0x1f in
    if app_code <? 2 ^ 32 then Some app_code else None.

(** ** [Error] *)
Inductive WtError :=
| Protocol (c : WtErrorCode)
| Application (code : Z) (message : bytes)
| UnknownCode (code : Z).

#[export] Instance WtError_eq_dec : EqDecision WtError.
Proof. solve_decision. Defined.

Definition application (code : Z) (message : bytes) : WtError :=
  Application code (truncate_utf8 1024 message).

Definition wt_error_from_http3_code (code : Z) : WtError :=
  match wt_from_code code with
  | Some c => Protocol c
  | None =>
    match from_http3_code code with
    | Some app_code => Application app_code []
    | None => UnknownCode code
    end
  end.

Definition is_out_of_range_reset (e : WtError) : bool :=
  match e with UnknownCode _ => true | _ => false end.

Definition wt_error_to_http3_code (e : WtError) : Z :=
  match e with
  | Protocol c => wt_error_code c
  | Application code _ => to_http3_code code
  | UnknownCode code => code
  end.

(** ** Lemmas *)
Definition app_code_ok (n : Z) : Prop := 0 <= n < 2 ^ 32.

(** Code points of the form 0x1f * N + 0x21 are reserved. *)
Definition reserved (code : Z) : Prop := exists n, code = 0x1f * n + 0x21.

Lemma reserved_mod code : reserved code <-> (code - 0x21) mod 0x1f = 0.
Proof.
  unfold reserved. split.
  - intros [n ->]. replace (_ - _) with (n * 0x1f) by lia. apply Z_mod_mult.
  - intros H. exists ((code - 0x21) / 0x1f). pose proof (Z.div_mod (code - 0x21) 0x1f). lia.
Qed.

Lemma wt_from_code_code c : wt_from_code (wt_error_code c) = Some c.
Proof. by destruct c. Qed.

Lemma wt_from_code_Some code c : wt_from_code code = Some c -> wt_error_code c = code.
Proof.
  unfold wt_from_code. repeat (case_match; [intros [= <-]; symmetry; by apply Z.eqb_eq|]). done.
Qed.

Lemma to_http3_code_range n : app_code_ok n -> FIRST <= to_http3_code n <= LAST /\ ~ reserved (to_http3_code n).
Proof.
  unfold app_code_ok. intros H. rewrite reserved_mod. unfold to_http3_code, FIRST, LAST.
  pose proof (Z.div_mod n 0x1e). pose proof (Z.mod_pos_bound n 0x1e). split; [lia|].
  set (q := n / 30) in *. replace (_ - 33) with (n mod 30 + 1 + (2940063177767 + q) * 31) by lia.
  rewrite Z_mod_plus_full, Z.mod_small; lia.
Qed.

Lemma from_http3_code_to n : app_code_ok n -> from_http3_code (to_http3_code n) = Some n.
Proof.
  intros H. pose proof (to_http3_code_range n H) as [[H1 H2] Hr]. unfold from_http3_code, is_application_error.
  rewrite (proj2 (Z.leb_le _ _) H1), (proj2 (Z.leb_le _ _) H2). cbn [andb negb].
  rewrite reserved_mod in Hr. unfold u64_of.
  rewrite (Z.mod_small (_ - 33) (2 ^ 64)) by (unfold FIRST, LAST in *; lia).
  rewrite (proj2 (Z.eqb_neq _ _) Hr). unfold to_http3_code, app_code_ok in *.
  pose proof (Z.div_mod n 0x1e). pose proof (Z.mod_pos_bound n 0x1e).
  replace (FIRST + n + n / 30 - FIRST) with (n mod 30 + n / 30 * 31) by lia.
  rewrite Z.div_add, (Z.div_small (n mod 30)) by lia.
  replace (_ - _) with n by lia. by rewrite (proj2 (Z.ltb_lt n (2 ^ 32))) by lia.
Qed.

Lemma from_http3_code_Some code n : 0 <= code < 2 ^ 64 -> from_http3_code code = Some n ->
  app_code_ok n /\ to_http3_code n = code.
Proof.
  intros Hc. unfold from_http3_code, is_application_error, u64_of.
  destruct (_ && _) eqn:E; [|done]. cbn [negb]. zify_bool. unfold FIRST, LAST in *.
  rewrite (Z.mod_small (code - 33) (2 ^ 64)) by lia. case_z; [|by case_z]. case_z; [done|]. intros [= <-].
  unfold to_http3_code, app_code_ok, FIRST. set (s := code - 91141958510811) in *.
  replace (code - 33) with (s + 1 + 2940063177767 * 31) in * by lia.
  rewrite Z_mod_plus_full in *. pose proof (Z.div_mod s 31). pose proof (Z.mod_pos_bound s 31).
  assert (s mod 31 <> 30) as Hne.
  { intros E30. destruct n0. replace (s + 1) with (0 + (s / 31 + 1) * 31) by lia. by rewrite Z_mod_plus_full. }
  assert (0 <= s / 31) by (apply Z.div_pos; lia).
  assert ((s - s / 31) / 30 = s / 31) as Hd.
  { symmetry. apply Z.div_unique with (s mod 31); lia. }
  split; [lia|]. rewrite Hd. lia.
Qed.

Lemma from_http3_code_None code : 0 <= code < 2 ^ 64 ->
  from_http3_code code = None <-> ~ (FIRST <= code <= LAST /\ ~ reserved code).
Proof.
  intros Hc. destruct (from_http3_code code) as [n|] eqn:E.
  - apply from_http3_code_Some in E as [Hn <-]; [|done]. apply to_http3_code_range in Hn. naive_solver.
  - split; [|done]. intros _ [Hr Hs]. rewrite reserved_mod in Hs. revert E.
    unfold from_http3_code, is_application_error, u64_of, FIRST, LAST in *.
    rewrite (proj2 (Z.leb_le _ code)), (proj2 (Z.leb_le code _)) by lia. cbn [andb negb].
    rewrite (Z.mod_small (code - 33) (2 ^ 64)) by lia. rewrite (proj2 (Z.eqb_neq _ _) Hs).
    case_z; [done|]. exfalso. set (s := code - 91141958510811) in *.
    pose proof (Z.div_mod s 31). pose proof (Z.mod_pos_bound s 31). lia.
Qed.

(** ** Properties *)

(** Application error codes and HTTP/3 error codes: [to_http3_code] maps the 32-bit
    codes one to one onto the code points of the WebTransport range that are not reserved,
    [from_http3_code] is its inverse there and nothing elsewhere, and an error of a session
    keeps its meaning on the wire. *)
Theorem application_error_codes n code : app_code_ok n -> 0 <= code < 2 ^ 64 ->
  FIRST <= to_http3_code n <= LAST /\ ~ reserved (to_http3_code n) /\
  from_http3_code (to_http3_code n) = Some n /\
  (forall m, from_http3_code code = Some m <-> app_code_ok m /\ to_http3_code m = code) /\
  (from_http3_code code = None <-> ~ (FIRST <= code <= LAST /\ ~ reserved code)) /\
  wt_error_to_http3_code (wt_error_from_http3_code code) = code /\
  wt_error_from_http3_code (to_http3_code n) = Application n [].
Proof.
  intros Hn Hc. pose proof (to_http3_code_range n Hn) as [Hr Hs].
  pose proof (from_http3_code_to n Hn) as Hft.
  split_and!; try done; [apply Hr|apply Hr|..].
  - intros m. split; [by apply from_http3_code_Some|]. intros [Hm <-]. by apply from_http3_code_to.
  - by apply from_http3_code_None.
  - unfold wt_error_from_http3_code. destruct (wt_from_code code) as [c|] eqn:E; [by apply wt_from_code_Some|].
    destruct (from_http3_code code) as [m|] eqn:E2; [|done]. by apply from_http3_code_Some in E2 as [_ ?].
  - unfold wt_error_from_http3_code. rewrite Hft.
    destruct (wt_from_code (to_http3_code n)) as [c|] eqn:E; [|done].
    apply wt_from_code_Some in E. exfalso. revert E. unfold FIRST in Hr. destruct c; cbn [wt_error_code]; lia.
Qed.

Lemma application_error_codes_witness :
  from_http3_code (to_http3_code 0xffffffff) = Some 0xffffffff /\ from_http3_code 0x52e4a40fa8f9 = None.
Proof.
  destruct (application_error_codes 0xffffffff 0x52e4a40fa8f9) as (_ & _ & H & _ & H2 & _); [done..|].
  split; [exact H|]. apply H2. intros [_ Hn]. apply Hn. exists 2940063177768. reflexivity.
Defined.
