(* ===== verification/Capsule.v ===== *)
(** webtransport/capsule.rs: the capsules of a WebTransport session (RFC 9297 Section 3.2).
    [usize] has 64 bits. *)

From S2P Require Import Prelude Codec Utf8 Varint Frame FlowControl.

Definition MAX_CLOSE_SESSION_MESSAGE_LEN : nat := 1024.

Inductive CapsuleDecodeError := Malformed.

#[export] Instance CapsuleDecodeError_eq_dec : EqDecision CapsuleDecodeError.
Proof. solve_decision. Defined.

Inductive CapsuleValidationError :=
| MaxStreamsExceedsLimit | MaxStreamsDecreased | MaxDataExceedsLimit | MaxDataDecreased.

Definition PROHIBITED_WT_MAX_STREAM_DATA_CAPSULE_TYPE : Z := 0x190B4D3E.
Definition PROHIBITED_WT_STREAM_DATA_BLOCKED_CAPSULE_TYPE : Z := 0x190B4D42.

Inductive CapsuleType :=
| CtCloseSession | CtDrainSession | CtMaxData | CtMaxStreamsBidi | CtMaxStreamsUni | CtDataBlocked
| CtStreamsBlockedBidi | CtStreamsBlockedUni.

Definition capsule_type_code (t : CapsuleType) : Z :=
  match t with
  | CtCloseSession => 0x2843 | CtDrainSession => 0x78ae | CtMaxData => 0x190B4D3D
  | CtMaxStreamsBidi => 0x190B4D3F | CtMaxStreamsUni => 0x190B4D40 | CtDataBlocked => 0x190B4D41
  | CtStreamsBlockedBidi => 0x190B4D43 | CtStreamsBlockedUni => 0x190B4D44
  end.

Definition capsule_from_type (t : Z) : option CapsuleType :=
  if t =? 0x2843 then Some CtCloseSession
  else if t =? 0x78ae then Some CtDrainSession
  else if t =? 0x190B4D3D then Some CtMaxData
  else if t =? 0x190B4D3F then Some CtMaxStreamsBidi
  else if t =? 0x190B4D40 then Some CtMaxStreamsUni
  else if t =? 0x190B4D41 then Some CtDataBlocked
  else if t =? 0x190B4D43 then Some CtStreamsBlockedBidi
  else if t =? 0x190B4D44 then Some CtStreamsBlockedUni
  else None.

Inductive Capsule :=
| CloseSession (error_code : Z) (message : bytes)
| DrainSession
| MaxData (maximum : Z)
| MaxStreams (bidirectional : bool) (maximum : Z)
| DataBlocked (maximum : Z)
| StreamsBlocked (bidirectional : bool) (maximum : Z)
| UnknownCapsule (capsule_type : Z) (payload : bytes).

#[export] Instance Capsule_eq_dec : EqDecision Capsule.
Proof. solve_decision. Defined.

Definition capsule_type (c : Capsule) : Z :=
  match c with
  | CloseSession _ _ => capsule_type_code CtCloseSession
  | DrainSession => capsule_type_code CtDrainSession
  | MaxData _ => capsule_type_code CtMaxData
  | MaxStreams b _ => capsule_type_code (if b then CtMaxStreamsBidi else CtMaxStreamsUni)
  | DataBlocked _ => capsule_type_code CtDataBlocked
  | StreamsBlocked b _ => capsule_type_code (if b then CtStreamsBlockedBidi else CtStreamsBlockedUni)
  | UnknownCapsule t _ => t
  end.

Definition is_prohibited_in_http3_type (capsule_type : Z) : bool :=
  (capsule_type =? PROHIBITED_WT_MAX_STREAM_DATA_CAPSULE_TYPE) ||
  (capsule_type =? PROHIBITED_WT_STREAM_DATA_BLOCKED_CAPSULE_TYPE).
Definition is_prohibited_in_http3 (c : Capsule) : bool := is_prohibited_in_http3_type (capsule_type c).

Definition is_flow_control (c : Capsule) : bool :=
  match c with MaxData _ | MaxStreams _ _ | DataBlocked _ | StreamsBlocked _ _ => true | _ => false end.

(** ** Encoder: [None] is a panic, on a value that is no varint *)
Definition capsule_encode_varint (buf : bytes) (value : Z) : option bytes :=
  v ← ok (varint_new value); Some (encode_into_vec buf v).
Definition varint_encoded_len (value : Z) : option Z :=
  v ← ok (varint_new value); Some (encoded_len v).

Definition truncate_close_session_message (message : bytes) : bytes :=
  truncate_utf8 MAX_CLOSE_SESSION_MESSAGE_LEN message.

Definition encode_capsule_header (buf : bytes) (capsule_type length : Z) : option bytes :=
  buf ← capsule_encode_varint buf capsule_type; capsule_encode_varint buf length.

(** The arms with one varint as their payload. *)
Definition encode_varint_capsule (buf : bytes) (capsule_type maximum : Z) : option bytes :=
  payload_len ← varint_encoded_len maximum;
  buf ← encode_capsule_header buf capsule_type payload_len;
  capsule_encode_varint buf maximum.

Definition encode_capsule (c : Capsule) (buf : bytes) : option bytes :=
  match c with
  | CloseSession error_code message =>
    let message_bytes := truncate_close_session_message message in
    buf ← encode_capsule_header buf (capsule_type c) (4 + len message_bytes);
    Some (buf ++ to_be_bytes 4 error_code ++ message_bytes)
  | DrainSession => encode_capsule_header buf (capsule_type c) 0
  | MaxData m | MaxStreams _ m | DataBlocked m | StreamsBlocked _ m =>
    encode_varint_capsule buf (capsule_type c) m
  | UnknownCapsule t payload =>
    buf ← encode_capsule_header buf t (len payload); Some (buf ++ payload)
  end.

Definition encode_as_data_frame (c : Capsule) (buf : bytes) : option bytes :=
  capsule_bytes ← encode_capsule c [];
  let buf := encode_into_vec buf 0 in
  buf ← capsule_encode_varint buf (len capsule_bytes);
  Some (buf ++ capsule_bytes).

(** ** Decoder *)
Definition decode_exact_varint (payload : bytes) : result CapsuleDecodeError Z :=
  '(value, consumed) ← ok_or (ok (decode payload)) Malformed;
  if negb (consumed =? len payload) then Err Malformed else Ok value.

Definition decode_capsule_payload (capsule_type : Z) (payload : bytes) : result CapsuleDecodeError Capsule :=
  match capsule_from_type capsule_type with
  | Some CtCloseSession =>
    if len payload <? 4 then Err Malformed
    else
      let error_code := from_be_bytes (take_z 4 payload) in
      let message_bytes := drop_z 4 payload in
      if (MAX_CLOSE_SESSION_MESSAGE_LEN <? length message_bytes)%nat then Err Malformed
      else if negb (is_utf8 message_bytes) then Err Malformed
      else Ok (CloseSession error_code message_bytes)
  | Some CtDrainSession => if negb (bool_decide (payload = [])) then Err Malformed else Ok DrainSession
  | Some CtMaxData => m ← decode_exact_varint payload; Ok (MaxData m)
  | Some CtMaxStreamsBidi => m ← decode_exact_varint payload; Ok (MaxStreams true m)
  | Some CtMaxStreamsUni => m ← decode_exact_varint payload; Ok (MaxStreams false m)
  | Some CtDataBlocked => m ← decode_exact_varint payload; Ok (DataBlocked m)
  | Some CtStreamsBlockedBidi => m ← decode_exact_varint payload; Ok (StreamsBlocked true m)
  | Some CtStreamsBlockedUni => m ← decode_exact_varint payload; Ok (StreamsBlocked false m)
  | None => Ok (UnknownCapsule capsule_type payload)
  end.

Definition decode_capsule (buf : bytes) : result CapsuleDecodeError (option (Capsule * Z)) :=
  match ok (decode buf) with
  | None => Ok None
  | Some (capsule_type, len1) =>
    match ok (decode (drop_z len1 buf)) with
    | None => Ok None
    | Some (length, len2) =>
      let offset := len1 + len2 in
      match checked_add offset length with
      | None => Ok None
      | Some fin =>
        if len buf <? fin then Ok None
        else
          capsule ← decode_capsule_payload capsule_type (take_z length (drop_z offset buf));
          Ok (Some (capsule, fin))
      end
    end
  end.

(** ** Checks on limits *)
Definition validate_max_streams (maximum current_max : Z) : result CapsuleValidationError unit :=
  if MAX_STREAMS_LIMIT <? maximum then Err MaxStreamsExceedsLimit
  else if maximum <=? current_max then Err MaxStreamsDecreased else Ok ().
Definition validate_max_data (maximum current_max : Z) : result CapsuleValidationError unit :=
  if VARINT_MAX <? maximum then Err MaxDataExceedsLimit
  else if maximum <=? current_max then Err MaxDataDecreased else Ok ().

(** ** The wire format *)

(** A capsule whose fields fit the format. *)
Definition capsule_ok (c : Capsule) : Prop :=
  match c with
  | CloseSession e m => 0 <= e < 2 ^ 32 /\ bytes_ok m /\ is_utf8 m = true
  | DrainSession => True
  | MaxData m | MaxStreams _ m | DataBlocked m | StreamsBlocked _ m => varint_ok m
  | UnknownCapsule t p => varint_ok t /\ capsule_from_type t = None /\ bytes_ok p /\ len p <= VARINT_MAX
  end.

(** What the peer gets of it: a long message is cut. *)
Definition on_the_wire (c : Capsule) : Capsule :=
  match c with CloseSession e m => CloseSession e (truncate_close_session_message m) | _ => c end.

Definition capsule_payload (c : Capsule) : bytes :=
  match c with
  | CloseSession e m => to_be_bytes 4 e ++ truncate_close_session_message m
  | DrainSession => []
  | MaxData m | MaxStreams _ m | DataBlocked m | StreamsBlocked _ m => encode_raw m
  | UnknownCapsule _ p => p
  end.

Definition capsule_bytes (c : Capsule) : bytes :=
  encode_raw (capsule_type c) ++ encode_raw (len (capsule_payload c)) ++ capsule_payload c.

(** The outcomes of [decode_capsule], with "incomplete" as the error of a slice decoder. *)
Definition read_capsule (buf : bytes) : result (option CapsuleDecodeError) (Capsule * Z) :=
  match decode_capsule buf with
  | Ok (Some r) => Ok r
  | Ok None => Err None
  | Err e => Err (Some e)
  end.

(** ** Encoding *)
Lemma truncate_length m : is_utf8 m = true -> (length (truncate_close_session_message m) <= 1024)%nat.
Proof. intros H. apply (truncate_utf8_spec _ _ H). Qed.

Lemma capsule_type_ok c : capsule_ok c -> varint_ok (capsule_type c).
Proof. destruct c as [| | |[]| |[]|]; cbn; intros; unfold varint_ok, VARINT_MAX in *; naive_solver lia. Qed.

Lemma capsule_payload_ok c : capsule_ok c -> bytes_ok (capsule_payload c) /\ len (capsule_payload c) <= VARINT_MAX.
Proof.
  destruct c; cbn [capsule_ok capsule_payload].
  2: done.
  2-5: intros H; split; [apply encode_raw_ok|]; rewrite len_encode_raw by done; unfold encoded_len, VARINT_MAX;
    repeat case_z; lia.
  - intros (_ & Hm & Hu). pose proof (truncate_length _ Hu) as Hl. split.
    + apply Forall_app. split; [apply to_be_bytes_ok|by apply truncate_utf8_bytes].
    + rewrite len_app, len_to_be_bytes. unfold len, VARINT_MAX. lia.
  - naive_solver.
Qed.

Lemma varint_new_in v : varint_ok v -> varint_new v = Ok v.
Proof. unfold varint_new, varint_ok. intros. by solve_cmp. Qed.

Lemma varint_new_panics v : VARINT_MAX < v -> ok (varint_new v) = None.
Proof. unfold varint_new. intros. by solve_cmp. Qed.

Lemma capsule_encode_varint_app buf v : varint_ok v -> capsule_encode_varint buf v = Some (buf ++ encode_raw v).
Proof. intros H. unfold capsule_encode_varint. rewrite varint_new_in by done. cbn. by rewrite encode_into_vec_app. Qed.

Lemma encode_capsule_header_app buf t l : varint_ok t -> varint_ok l ->
  encode_capsule_header buf t l = Some (buf ++ encode_raw t ++ encode_raw l).
Proof.
  intros. unfold encode_capsule_header. rewrite capsule_encode_varint_app by done. cbn.
  rewrite capsule_encode_varint_app by done. by rewrite <- app_assoc.
Qed.

Lemma encode_varint_capsule_app buf t m : varint_ok t -> varint_ok m ->
  encode_varint_capsule buf t m = Some (buf ++ encode_raw t ++ encode_raw (len (encode_raw m)) ++ encode_raw m).
Proof.
  intros Ht Hm. unfold encode_varint_capsule, varint_encoded_len. rewrite varint_new_in by done. cbn.
  rewrite len_encode_raw by done. rewrite encode_capsule_header_app; [|done|].
  - cbn. rewrite capsule_encode_varint_app by done. by rewrite <- !app_assoc.
  - unfold encoded_len, varint_ok, VARINT_MAX. repeat case_z; lia.
Qed.

Lemma encode_capsule_spec c buf : capsule_ok c -> encode_capsule c buf = Some (buf ++ capsule_bytes c).
Proof.
  intros Hc. pose proof (capsule_type_ok c Hc) as Ht. pose proof (capsule_payload_ok c Hc) as [_ Hl].
  pose proof (len_nonneg (capsule_payload c)). assert (varint_ok (len (capsule_payload c))) as Hv by done.
  unfold capsule_bytes. destruct c; cbn [encode_capsule capsule_payload capsule_ok] in *.
  - rewrite len_app, len_to_be_bytes in *. rewrite encode_capsule_header_app by done. cbn. by rewrite <- !app_assoc.
  - rewrite encode_capsule_header_app by done. by rewrite app_nil_r.
  - by apply encode_varint_capsule_app.
  - by apply encode_varint_capsule_app.
  - by apply encode_varint_capsule_app.
  - by apply encode_varint_capsule_app.
  - cbn in Ht. rewrite encode_capsule_header_app by done. cbn. by rewrite <- !app_assoc.
Qed.

Lemma encode_as_data_frame_spec c buf : capsule_ok c -> len (capsule_bytes c) <= VARINT_MAX ->
  encode_as_data_frame c buf = Some (buf ++ encode_raw 0 ++ encode_raw (len (capsule_bytes c)) ++ capsule_bytes c).
Proof.
  intros Hc Hl. unfold encode_as_data_frame. rewrite encode_capsule_spec by done. cbn [mbind option_bind app].
  rewrite encode_into_vec_app by done. rewrite capsule_encode_varint_app.
  - cbn. by rewrite <- !app_assoc.
  - split; [apply len_nonneg|done].
Qed.

(** Encoding panics exactly on a field that is no varint. *)
Lemma encode_varint_capsule_panics buf t m : varint_ok t -> VARINT_MAX < m -> encode_varint_capsule buf t m = None.
Proof. intros Ht Hm. unfold encode_varint_capsule, varint_encoded_len. by rewrite varint_new_panics. Qed.

(** ** Decoding *)
Lemma decode_exact_varint_encoded m : varint_ok m -> decode_exact_varint (encode_raw m) = Ok m.
Proof.
  intros H. unfold decode_exact_varint. rewrite <- (app_nil_r (encode_raw m)) at 1.
  rewrite decode_encode_raw by done. cbn. rewrite len_encode_raw by done. by rewrite Z.eqb_refl.
Qed.

Lemma decode_exact_varint_inv p m : bytes_ok p -> decode_exact_varint p = Ok m -> varint_ok m.
Proof.
  unfold decode_exact_varint. intros Hp. destruct (decode p) as [[v n]|] eqn:E; cbn; [|done].
  case_match; [done|]. intros [= <-]. by apply decode_inv in E as [? _].
Qed.

Lemma decode_payload_encoded c : capsule_ok c ->
  decode_capsule_payload (capsule_type c) (capsule_payload c) = Ok (on_the_wire c).
Proof.
  destruct c as [e m| | |[]| |[]|t p]; cbn [capsule_ok capsule_type on_the_wire capsule_payload];
    unfold decode_capsule_payload; cbn [capsule_type_code].
  2: done.
  2-7: intros Hm; cbn; by rewrite decode_exact_varint_encoded.
  - intros (He & Hm & Hu). cbn [capsule_from_type Z.eqb Pos.eqb].
    pose proof (truncate_length _ Hu). rewrite len_app, len_to_be_bytes.
    pose proof (len_nonneg (truncate_close_session_message m)).
    assert (Z.of_nat 4 = len (to_be_bytes 4 e)) as E4 by by rewrite len_to_be_bytes.
    rewrite (take_z_app_eq 4), (drop_z_app_eq 4) by by rewrite len_to_be_bytes. solve_cmp.
    rewrite from_to_be_bytes, Z.mod_small by lia.
    destruct (Nat.ltb_spec MAX_CLOSE_SESSION_MESSAGE_LEN (length (truncate_close_session_message m))).
    { unfold MAX_CLOSE_SESSION_MESSAGE_LEN in *. lia. }
    destruct (truncate_utf8_spec MAX_CLOSE_SESSION_MESSAGE_LEN m Hu) as (Hut & _).
    unfold truncate_close_session_message. by rewrite Hut.
  - intros (_ & -> & _). done.
Qed.

Lemma capsule_from_type_Some t ct : capsule_from_type t = Some ct -> capsule_type_code ct = t.
Proof.
  unfold capsule_from_type. repeat (case_match; [intros [= <-]; symmetry; by apply Z.eqb_eq|]). done.
Qed.

Lemma decode_capsule_payload_inv t p c : varint_ok t -> bytes_ok p -> len p <= VARINT_MAX ->
  decode_capsule_payload t p = Ok c -> capsule_ok c /\ on_the_wire c = c /\ capsule_type c = t.
Proof.
  intros Ht Hp Hl. unfold decode_capsule_payload. destruct (capsule_from_type t) as [ct|] eqn:E.
  2: { intros [= <-]. done. }
  apply capsule_from_type_Some in E as <-. destruct ct.
  3-8: intros (m & Hm%decode_exact_varint_inv & [= <-])%result_bind_Ok; done.
  - case_z; [done|]. case_match eqn:El; [done|]. case_match eqn:Eu; [done|]. intros [= <-].
    apply negb_false_iff in Eu. apply Nat.ltb_ge in El. cbn.
    pose proof (from_be_bytes_range (take_z 4 p)) as Hr. rewrite len_take in Hr by lia.
    split_and!; [apply Hr; by apply bytes_ok_take|apply Hr; by apply bytes_ok_take|by apply bytes_ok_drop|done| |done].
    f_equal. by apply (truncate_utf8_spec MAX_CLOSE_SESSION_MESSAGE_LEN _ Eu).
  - case_match eqn:En; [done|]. by intros [= <-].
Qed.

Lemma read_capsule_header bs t n l m : decode bs = Ok (t, n) -> decode (drop_z n bs) = Ok (l, m) ->
  n <= 8 -> m <= 8 -> varint_ok l ->
  read_capsule bs =
    if len bs <? n + m + l then Err None
    else match decode_capsule_payload t (take_z l (drop_z (n + m) bs)) with
         | Ok c => Ok (c, n + m + l) | Err e => Err (Some e) end.
Proof.
  intros E1 E2 Hn Hm Hl. unfold read_capsule, decode_capsule. rewrite E1. cbn [ok]. rewrite E2. cbn [ok].
  unfold checked_add. rewrite (proj2 (Z.leb_le _ _)) by (unfold varint_ok, VARINT_MAX, U64_MAX in *; lia).
  case_z; [done|]. by destruct (decode_capsule_payload _ _).
Qed.

Lemma decode_len_le bs v n : bytes_ok bs -> decode bs = Ok (v, n) -> 0 < n <= 8.
Proof. intros Hb (_ & ? & _ & Hin & _)%decode_inv; [|done]. set_unfold in Hin. lia. Qed.

Lemma read_capsule_short1 bs e : decode bs = Err e -> read_capsule bs = Err None.
Proof. intros E. unfold read_capsule, decode_capsule. by rewrite E. Qed.
Lemma read_capsule_short2 bs t n e : decode bs = Ok (t, n) -> decode (drop_z n bs) = Err e -> read_capsule bs = Err None.
Proof. intros E1 E2. unfold read_capsule, decode_capsule. rewrite E1. cbn [ok]. by rewrite E2. Qed.

(** The three ways a read goes. *)
Lemma read_capsule_cases bs : bytes_ok bs ->
  read_capsule bs = Err None \/
  exists t n l m, decode bs = Ok (t, n) /\ decode (drop_z n bs) = Ok (l, m) /\ 0 < n /\ 0 < m /\
    varint_ok t /\ varint_ok l /\ n + m + l <= len bs /\
    read_capsule bs = match decode_capsule_payload t (take_z l (drop_z (n + m) bs)) with
      | Ok c => Ok (c, n + m + l) | Err e => Err (Some e) end.
Proof.
  intros Hb. destruct (decode bs) as [[t n]|e] eqn:E1; [|left; by eapply read_capsule_short1].
  destruct (decode (drop_z n bs)) as [[l m]|e] eqn:E2; [|left; by eapply read_capsule_short2].
  pose proof E1 as (Ht & Hn & _)%decode_inv; [|done].
  pose proof E2 as (Hl & Hm & _)%decode_inv; [|by apply bytes_ok_drop].
  apply decode_len_le in E1 as Hn8; [|done]. apply decode_len_le in E2 as Hm8; [|by apply bytes_ok_drop].
  rewrite (read_capsule_header _ _ _ _ _ E1 E2) by (done || lia). case_z; [by left|]. right.
  exists t, n, l, m. split_and!; try done; lia.
Qed.

Lemma encoded_len_small v : encoded_len v <= 8.
Proof. unfold encoded_len. repeat case_z; lia. Qed.

Lemma read_capsule_encoded c rest : capsule_ok c ->
  read_capsule (capsule_bytes c ++ rest) = Ok (on_the_wire c, len (capsule_bytes c)).
Proof.
  intros Hc. pose proof (capsule_type_ok c Hc) as Ht. pose proof (capsule_payload_ok c Hc) as [Hb Hl].
  pose proof (len_nonneg (capsule_payload c)). assert (varint_ok (len (capsule_payload c))) as Hv by done.
  unfold capsule_bytes. set (p := capsule_payload c) in *. rewrite <- !app_assoc.
  rewrite (read_capsule_header _ (capsule_type c) (encoded_len (capsule_type c)) (len p) (encoded_len (len p))).
  - rewrite !len_app, <- !len_encode_raw by done.
    rewrite (proj2 (Z.ltb_ge _ _)) by (pose proof (len_nonneg rest); lia).
    rewrite app_assoc, (drop_z_app_eq _ (encode_raw _ ++ encode_raw _)) by (rewrite len_app; lia).
    rewrite take_z_app_len. unfold p. rewrite decode_payload_encoded by done. f_equal. f_equal. lia.
  - by apply decode_encode_raw.
  - rewrite (drop_z_app_eq _ (encode_raw _)) by by rewrite len_encode_raw. by apply decode_encode_raw.
  - apply encoded_len_small.
  - apply encoded_len_small.
  - done.
Qed.

(** Capsules are a prefix code; the canonical ones are those with a short message. *)
#[export] Instance capsule_code :
  PrefixCode capsule_bytes read_capsule (fun c => capsule_ok c /\ on_the_wire c = c) None.
Proof.
  split.
  - intros c rest [Hc E]. by rewrite read_capsule_encoded, E.
  - intros bs c n Hb. destruct (read_capsule_cases bs Hb) as [->|(t & n' & l & m & _ & _ & ? & ? & _ & Hl & Hlen & ->)]; [done|].
    case_match; [|done]. intros [= _ <-]. unfold varint_ok in Hl. lia.
  - intros bs tail Hb. destruct (read_capsule_cases bs Hb) as [->|(t & n & l & m & E1 & E2 & Hn & Hm & Ht & Hl & Hlen & ->)]; [done|].
    intros _. apply decode_len_le in E1 as Hn8; [|done]. apply decode_len_le in E2 as Hm8; [|by apply bytes_ok_drop].
    pose proof E1 as (_ & Hnb & _ & _ & _ & E1')%decode_inv; [|done].
    pose proof E2 as (_ & Hmb & _ & _ & _ & E2')%decode_inv; [|by apply bytes_ok_drop].
    rewrite len_drop in Hmb by lia. destruct Hl as [Hl0 Hl1].
    rewrite (read_capsule_header (bs ++ tail) t n l m); [|done| |lia|lia|done].
    + rewrite len_app. pose proof (len_nonneg tail). rewrite (proj2 (Z.ltb_ge _ _)) by lia.
      rewrite drop_z_app_le, take_z_app_le by (rewrite ?len_drop; lia). done.
    + rewrite drop_z_app_le by lia. apply E2'.
Qed.

Lemma decode_read bs : decode_capsule bs =
  match read_capsule bs with Ok r => Ok (Some r) | Err None => Ok None | Err (Some e) => Err e end.
Proof. unfold read_capsule. by destruct (decode_capsule bs) as [[]|]. Qed.

Lemma decode_capsule_sound bs c n : bytes_ok bs -> decode_capsule bs = Ok (Some (c, n)) ->
  capsule_ok c /\ on_the_wire c = c /\ 0 < n <= len bs.
Proof.
  intros Hb. rewrite decode_read.
  destruct (read_capsule_cases bs Hb) as [->|(t & n' & l & m & _ & _ & Hn & Hm & Ht & Hl & Hlen & ->)]; [done|].
  destruct (decode_capsule_payload _ _) as [c'|] eqn:E; [|done]. intros [= -> <-].
  unfold varint_ok in Hl. apply decode_capsule_payload_inv in E as (? & ? & _).
  - split_and!; try done; lia.
  - done.
  - auto using bytes_ok_take, bytes_ok_drop.
  - rewrite len_take; [lia|]. rewrite len_drop; lia.
Qed.

(** ** Properties *)

(** C36. The capsule codec: a capsule whose fields fit the format encodes without a panic to
    bytes that decode to it whatever follows, alone and inside a DATA frame; no proper
    prefix of them is anything but incomplete. A close message beyond 1024 bytes arrives as
    a prefix of it that is UTF-8 and at most three bytes short of the limit. Whatever
    decodes fits the format, and no later byte changes an outcome but "incomplete". *)
Theorem capsule_codec c bs : capsule_ok c -> len (capsule_bytes c) <= VARINT_MAX -> bytes_ok bs ->
  (exists out, encode_capsule c [] = Some out /\
    (forall rest, decode_capsule (out ++ rest) = Ok (Some (on_the_wire c, len out))) /\
    (forall a b, out = a ++ b -> b <> [] -> decode_capsule a = Ok None) /\
    exists frame, encode_as_data_frame c [] = Some frame /\ decode_frame frame = Ok (Data out, len frame)) /\
  (forall e m, c = CloseSession e m -> exists k, on_the_wire c = CloseSession e (take k m) /\
    is_utf8 (take k m) = true /\ (length m <= 1024 -> take k m = m)%nat /\
    (1024 < length m -> 1021 <= length (take k m) <= 1024)%nat) /\
  (forall d n, decode_capsule bs = Ok (Some (d, n)) -> capsule_ok d /\ on_the_wire d = d /\ 0 < n <= len bs) /\
  (forall tail, decode_capsule bs <> Ok None -> decode_capsule (bs ++ tail) = decode_capsule bs).
Proof.
  intros Hc Hl Hb. pose proof (capsule_type_ok c Hc) as Ht. pose proof (capsule_payload_ok c Hc) as [Hp _].
  assert (bytes_ok (capsule_bytes c)) as Hcb by (repeat (apply Forall_app; split); auto with bytes).
  split_and!.
  - exists (capsule_bytes c). rewrite encode_capsule_spec by done. split_and!; [done|..].
    + intros rest. by rewrite decode_read, read_capsule_encoded.
    + intros a b E Hne. rewrite E in Hcb. apply Forall_app in Hcb as [Ha _].
      assert (read_capsule (capsule_bytes c) = Ok (on_the_wire c, len (capsule_bytes c))) as Hr.
      { rewrite <- (app_nil_r (capsule_bytes c)) at 1. by apply read_capsule_encoded. }
      destruct (decide (read_capsule a = Err None)) as [Hn|Hn]; [by rewrite decode_read, Hn|].
      exfalso. apply (pc_stable (PrefixCode := capsule_code) a b Ha) in Hn. rewrite <- E, Hr in Hn.
      symmetry in Hn. apply (pc_consumed (PrefixCode := capsule_code)) in Hn; [|done].
      rewrite E, len_app in Hn. destruct b; [done|]. rewrite len_cons in Hn. pose proof (len_nonneg b). lia.
    + exists (frame_bytes (Data (capsule_bytes c))). rewrite encode_as_data_frame_spec by done. split; [done|].
      rewrite <- (app_nil_r (frame_bytes _)) at 1. by apply decode_frame_bytes.
  - intros e m ->. destruct Hc as (_ & _ & Hu).
    destruct (truncate_utf8_spec MAX_CLOSE_SESSION_MESSAGE_LEN m Hu) as (H1 & H2 & (k & H3) & H4 & H5).
    exists k. cbn. unfold truncate_close_session_message. rewrite H3 in *.
    unfold MAX_CLOSE_SESSION_MESSAGE_LEN in *. split_and!; try done. intros ?. lia.
  - intros d n. by apply decode_capsule_sound.
  - intros tail Hn. rewrite !decode_read in *. f_equal.
    destruct (decide (read_capsule bs = Err None)) as [E|E]; [by rewrite E in Hn|].
    rewrite (pc_stable (PrefixCode := capsule_code) bs tail Hb E). by destruct (read_capsule bs) as [|[]].
Qed.

Lemma capsule_codec_witness :
  (exists out, encode_capsule (CloseSession 7 [0xc3; 0xa9]) [] = Some out /\
    decode_capsule (out ++ [1]) = Ok (Some (CloseSession 7 [0xc3; 0xa9], len out))) /\
  decode_capsule ([0x68; 0x43; 0x00] ++ [5]) = Err Malformed.
Proof.
  destruct (capsule_codec (CloseSession 7 [0xc3; 0xa9]) [0x68; 0x43; 0x00]) as ((out & E & H & _) & _ & _ & Hs).
  - split_and!; [lia|lia|solve_bytes|reflexivity].
  - vm_compute. discriminate.
  - solve_bytes.
  - split; [exists out; split; [exact E|exact (H [1])]|].
    rewrite Hs by (vm_compute; discriminate). vm_compute. reflexivity.
Defined.
