(* ===== verification/Datagram.v ===== *)
(** webtransport/datagram.rs: HTTP datagrams of a WebTransport session (RFC 9297
    Section 2.1). *)

From S2P Require Import Prelude Codec Varint.

Inductive DatagramError := DatagramInvalidSessionId | DatagramSessionIdOutOfRange.
Record Datagram := mkDatagram { dg_session_id : Z; dg_payload : bytes }.
Inductive DatagramDecodeError := DatagramBufferTooShort | InvalidQuarterStreamId.

#[export] Instance DatagramDecodeError_eq_dec : EqDecision DatagramDecodeError.
Proof. solve_decision. Defined.

Definition datagram_new (session_id : Z) (payload : bytes) : result DatagramError Datagram :=
  match varint_new session_id with
  | Err _ => Err DatagramSessionIdOutOfRange
  | Ok _ =>
    if negb (session_id mod 4 =? 0) then Err DatagramInvalidSessionId else Ok (mkDatagram session_id payload)
  end.

Definition quarter_stream_id (d : Datagram) : Z := dg_session_id d / 4.

(** [None] is the panic of the [expect]. *)
Definition encode_datagram (d : Datagram) (buf : bytes) : option bytes :=
  qsi ← ok (varint_new (quarter_stream_id d));
  Some (encode_into_vec buf qsi ++ dg_payload d).

Definition checked_mul (a b : Z) : option Z := if a * b <=? U64_MAX then Some (a * b) else None.

Definition decode_datagram (buf : bytes) : result DatagramDecodeError (Datagram * Z) :=
  '(qsi, varint_len) ← map_err (fun _ => DatagramBufferTooShort) (decode buf);
  if 2 ^ 60 - 1 <? qsi then Err InvalidQuarterStreamId
  else
    session_id ← ok_or (checked_mul qsi 4) InvalidQuarterStreamId;
    Ok (mkDatagram session_id (drop_z varint_len buf), len buf).

(** The ids of client-initiated bidirectional streams. *)
Definition session_id_ok (id : Z) : Prop := 0 <= id <= VARINT_MAX /\ id mod 4 = 0.

Lemma datagram_new_ok id payload d : 0 <= id -> datagram_new id payload = Ok d -> d = mkDatagram id payload /\ session_id_ok id.
Proof.
  intros Hi. unfold datagram_new, varint_new. case_z; [done|]. case_z; [|done]. by intros [= <-].
Qed.

Lemma encode_datagram_total d buf : session_id_ok (dg_session_id d) -> is_Some (encode_datagram d buf).
Proof.
  intros [Hi Hm]. unfold encode_datagram, quarter_stream_id, varint_new. pose proof (Z.div_mod (dg_session_id d) 4).
  rewrite (proj2 (Z.ltb_ge VARINT_MAX _)) by lia. cbn. eauto.
Qed.

(** What decodes is a datagram of such a session, and all of the buffer. *)
Lemma decode_datagram_sound bs d n : bytes_ok bs -> decode_datagram bs = Ok (d, n) ->
  session_id_ok (dg_session_id d) /\ n = len bs.
Proof.
  intros Hb. unfold decode_datagram. destruct (decode bs) as [[q m]|e] eqn:E; cbn; [|done].
  apply decode_inv in E as (Hq & _); [|done]. unfold varint_ok in Hq. case_z; [done|].
  unfold checked_mul. rewrite (proj2 (Z.leb_le _ U64_MAX)) by (unfold U64_MAX; lia). cbn. intros [= <- <-].
  unfold session_id_ok, VARINT_MAX. cbn. rewrite Z_mod_mult. lia.
Qed.

(** ** Properties *)

(** Datagrams round trip: [new] accepts exactly the ids of client-initiated
    bidirectional streams; such a datagram encodes without a panic and decodes to itself,
    all bytes consumed; and whatever decodes is a datagram of such a session, whose encoding
    decodes to it again. A quarter stream id beyond 2^60 - 1 is refused as such. *)
Theorem datagram_roundtrip id payload bs : 0 <= id -> bytes_ok bs ->
  match datagram_new id payload with
  | Ok d => session_id_ok id /\ d = mkDatagram id payload /\
      exists out, encode_datagram d [] = Some out /\ decode_datagram out = Ok (d, len out)
  | Err DatagramSessionIdOutOfRange => VARINT_MAX < id
  | Err DatagramInvalidSessionId => id mod 4 <> 0
  end /\
  match decode_datagram bs with
  | Ok (d, n) => session_id_ok (dg_session_id d) /\ n = len bs /\
      exists out, encode_datagram d [] = Some out /\ decode_datagram out = Ok (d, len out)
  | Err DatagramBufferTooShort => exists e, decode bs = Err e
  | Err InvalidQuarterStreamId => exists q n, decode bs = Ok (q, n) /\ 2 ^ 60 - 1 < q
  end.
Proof.
  intros Hid Hb.
  assert (forall d, session_id_ok (dg_session_id d) ->
    exists out, encode_datagram d [] = Some out /\ decode_datagram out = Ok (d, len out)) as Hrt.
  { intros [i p] [Hi Hm]. cbn in Hi, Hm. unfold encode_datagram, quarter_stream_id. cbn [dg_session_id dg_payload].
    pose proof (Z.div_mod i 4). unfold VARINT_MAX in Hi.
    assert (varint_ok (i / 4)) as Hq by (unfold varint_ok, VARINT_MAX; lia).
    unfold varint_new. rewrite (proj2 (Z.ltb_ge VARINT_MAX _)) by apply Hq. cbn.
    eexists. split; [done|]. rewrite encode_into_vec_app by done. unfold decode_datagram. cbn [app].
    rewrite decode_encode_raw by done. cbn. rewrite (proj2 (Z.ltb_ge (2 ^ 60 - 1) _)) by lia.
    unfold checked_mul. rewrite (proj2 (Z.leb_le _ U64_MAX)) by (unfold U64_MAX; lia). cbn.
    rewrite drop_z_app_eq by by rewrite len_encode_raw. do 3 f_equal. lia. }
  split.
  - unfold datagram_new, varint_new. case_z; [done|]. case_z; [|done]. cbn [negb].
    assert (session_id_ok id) by done. split_and!; [done..|]. by apply Hrt.
  - destruct (decode_datagram bs) as [[d n]|e] eqn:E.
    + apply decode_datagram_sound in E as [Hs ->]; [|done]. split_and!; [done..|]. by apply Hrt.
    + revert E. unfold decode_datagram. destruct (decode bs) as [[q m]|e'] eqn:Ed; cbn; [|intros [= <-]; by exists e'].
      case_z; [intros [= <-]; by exists q, m|]. apply decode_inv in Ed as ([? Hq] & _); [|done].
      unfold checked_mul. by rewrite (proj2 (Z.leb_le _ U64_MAX)) by (unfold U64_MAX; lia).
Qed.

Lemma datagram_roundtrip_witness :
  datagram_new 6 [1] = Err DatagramInvalidSessionId /\
  exists out, encode_datagram (mkDatagram 8 [7; 9]) [] = Some out /\
    decode_datagram out = Ok (mkDatagram 8 [7; 9], len out).
Proof.
  split; [reflexivity|].
  destruct (datagram_roundtrip 8 [7; 9] [2; 1]) as [(_ & _ & H) _]; [discriminate|solve_bytes|]. exact H.
Defined.
