(* ===== verification/Session.v ===== *)
(** webtransport/session/mod.rs: the state of one WebTransport session, its streams, limits
    and queued capsules.

    [streams] is a [HashMap]; where the source lists its keys, in no particular order, the
    model lists them in the order of [map_to_list]. *)

From S2P Require Import Prelude Codec Utf8 Varint FlowControl Capsule WtError WtStream.

Definition MAX_BUFFERED_STREAMS : Z := 100.
Definition MAX_BUFFERED_DATAGRAMS : Z := 100.

Record BufferedStream := mkBuffered { bs_stream_id : Z; is_bidirectional : bool }.

Inductive SessionState := Pending | Connecting | Established | Draining | Closed.

#[export] Instance SessionState_eq_dec : EqDecision SessionState.
Proof. solve_decision. Defined.

Definition can_create_stream (s : SessionState) : bool :=
  match s with Established | Draining => true | _ => false end.
Definition session_can_send (s : SessionState) : bool :=
  match s with Established | Draining => true | _ => false end.
Definition session_can_receive (s : SessionState) : bool :=
  match s with Established | Draining => true | _ => false end.

(** [CapsuleProcessError::Session]. *)
Definition CapsuleProcessError : Type := WtError.

Record Session := mkSession {
  sess_id : Z;
  state : SessionState;
  streams : gmap Z WtStream;
  remote_limits : FlowControlLimits;
  local_limits : FlowControlLimits;
  flow_state : FlowControlState;
  flow_control_enabled : bool;
  pending_capsules : list Capsule;
  pending_stream_resets : list Z;
  close_error : option WtError;
  buffered_streams : list BufferedStream;
  buffered_datagrams : list bytes;
  goaway_received : bool;
  close_session_received : bool;
  close_session_sent : bool;
  recv_stream_fc_uni : DirectionalStreamFlowControl;
  recv_stream_fc_bidi : DirectionalStreamFlowControl;
  recv_data_fc : DataFlowControl;
  send_blocked : SendBlockedState }.

(** Assignments to the fields. *)
Definition set_s_state (v : SessionState) (s : Session) : Session :=
  mkSession (sess_id s) v (streams s) (remote_limits s) (local_limits s) (flow_state s)
    (flow_control_enabled s) (pending_capsules s) (pending_stream_resets s) (close_error s)
    (buffered_streams s) (buffered_datagrams s) (goaway_received s) (close_session_received s)
    (close_session_sent s) (recv_stream_fc_uni s) (recv_stream_fc_bidi s) (recv_data_fc s) (send_blocked s).
Definition set_s_streams (v : gmap Z WtStream) (s : Session) : Session :=
  mkSession (sess_id s) (state s) v (remote_limits s) (local_limits s) (flow_state s) (flow_control_enabled s)
    (pending_capsules s) (pending_stream_resets s) (close_error s) (buffered_streams s) (buffered_datagrams s)
    (goaway_received s) (close_session_received s) (close_session_sent s) (recv_stream_fc_uni s)
    (recv_stream_fc_bidi s) (recv_data_fc s) (send_blocked s).
Definition set_s_remote_limits (v : FlowControlLimits) (s : Session) : Session :=
  mkSession (sess_id s) (state s) (streams s) v (local_limits s) (flow_state s) (flow_control_enabled s)
    (pending_capsules s) (pending_stream_resets s) (close_error s) (buffered_streams s) (buffered_datagrams s)
    (goaway_received s) (close_session_received s) (close_session_sent s) (recv_stream_fc_uni s)
    (recv_stream_fc_bidi s) (recv_data_fc s) (send_blocked s).
Definition set_s_local_limits (v : FlowControlLimits) (s : Session) : Session :=
  mkSession (sess_id s) (state s) (streams s) (remote_limits s) v (flow_state s) (flow_control_enabled s)
    (pending_capsules s) (pending_stream_resets s) (close_error s) (buffered_streams s) (buffered_datagrams s)
    (goaway_received s) (close_session_received s) (close_session_sent s) (recv_stream_fc_uni s)
    (recv_stream_fc_bidi s) (recv_data_fc s) (send_blocked s).
Definition set_s_flow_state (v : FlowControlState) (s : Session) : Session :=
  mkSession (sess_id s) (state s) (streams s) (remote_limits s) (local_limits s) v (flow_control_enabled s)
    (pending_capsules s) (pending_stream_resets s) (close_error s) (buffered_streams s) (buffered_datagrams s)
    (goaway_received s) (close_session_received s) (close_session_sent s) (recv_stream_fc_uni s)
    (recv_stream_fc_bidi s) (recv_data_fc s) (send_blocked s).
Definition set_s_flow_control_enabled (v : bool) (s : Session) : Session :=
  mkSession (sess_id s) (state s) (streams s) (remote_limits s) (local_limits s) (flow_state s) v
    (pending_capsules s) (pending_stream_resets s) (close_error s) (buffered_streams s) (buffered_datagrams s)
    (goaway_received s) (close_session_received s) (close_session_sent s) (recv_stream_fc_uni s)
    (recv_stream_fc_bidi s) (recv_data_fc s) (send_blocked s).
Definition set_s_pending_capsules (v : list Capsule) (s : Session) : Session :=
  mkSession (sess_id s) (state s) (streams s) (remote_limits s) (local_limits s) (flow_state s)
    (flow_control_enabled s) v (pending_stream_resets s) (close_error s) (buffered_streams s)
    (buffered_datagrams s) (goaway_received s) (close_session_received s) (close_session_sent s)
    (recv_stream_fc_uni s) (recv_stream_fc_bidi s) (recv_data_fc s) (send_blocked s).
Definition set_s_pending_stream_resets (v : list Z) (s : Session) : Session :=
  mkSession (sess_id s) (state s) (streams s) (remote_limits s) (local_limits s) (flow_state s)
    (flow_control_enabled s) (pending_capsules s) v (close_error s) (buffered_streams s)
    (buffered_datagrams s) (goaway_received s) (close_session_received s) (close_session_sent s)
    (recv_stream_fc_uni s) (recv_stream_fc_bidi s) (recv_data_fc s) (send_blocked s).
Definition set_s_close_error (v : option WtError) (s : Session) : Session :=
  mkSession (sess_id s) (state s) (streams s) (remote_limits s) (local_limits s) (flow_state s)
    (flow_control_enabled s) (pending_capsules s) (pending_stream_resets s) v (buffered_streams s)
    (buffered_datagrams s) (goaway_received s) (close_session_received s) (close_session_sent s)
    (recv_stream_fc_uni s) (recv_stream_fc_bidi s) (recv_data_fc s) (send_blocked s).
Definition set_s_buffered_streams (v : list BufferedStream) (s : Session) : Session :=
  mkSession (sess_id s) (state s) (streams s) (remote_limits s) (local_limits s) (flow_state s)
    (flow_control_enabled s) (pending_capsules s) (pending_stream_resets s) (close_error s) v
    (buffered_datagrams s) (goaway_received s) (close_session_received s) (close_session_sent s)
    (recv_stream_fc_uni s) (recv_stream_fc_bidi s) (recv_data_fc s) (send_blocked s).
Definition set_s_buffered_datagrams (v : list bytes) (s : Session) : Session :=
  mkSession (sess_id s) (state s) (streams s) (remote_limits s) (local_limits s) (flow_state s)
    (flow_control_enabled s) (pending_capsules s) (pending_stream_resets s) (close_error s)
    (buffered_streams s) v (goaway_received s) (close_session_received s) (close_session_sent s)
    (recv_stream_fc_uni s) (recv_stream_fc_bidi s) (recv_data_fc s) (send_blocked s).
Definition set_s_goaway_received (v : bool) (s : Session) : Session :=
  mkSession (sess_id s) (state s) (streams s) (remote_limits s) (local_limits s) (flow_state s)
    (flow_control_enabled s) (pending_capsules s) (pending_stream_resets s) (close_error s)
    (buffered_streams s) (buffered_datagrams s) v (close_session_received s) (close_session_sent s)
    (recv_stream_fc_uni s) (recv_stream_fc_bidi s) (recv_data_fc s) (send_blocked s).
Definition set_s_close_session_received (v : bool) (s : Session) : Session :=
  mkSession (sess_id s) (state s) (streams s) (remote_limits s) (local_limits s) (flow_state s)
    (flow_control_enabled s) (pending_capsules s) (pending_stream_resets s) (close_error s)
    (buffered_streams s) (buffered_datagrams s) (goaway_received s) v (close_session_sent s)
    (recv_stream_fc_uni s) (recv_stream_fc_bidi s) (recv_data_fc s) (send_blocked s).
Definition set_s_close_session_sent (v : bool) (s : Session) : Session :=
  mkSession (sess_id s) (state s) (streams s) (remote_limits s) (local_limits s) (flow_state s)
    (flow_control_enabled s) (pending_capsules s) (pending_stream_resets s) (close_error s)
    (buffered_streams s) (buffered_datagrams s) (goaway_received s) (close_session_received s) v
    (recv_stream_fc_uni s) (recv_stream_fc_bidi s) (recv_data_fc s) (send_blocked s).
Definition set_s_recv_stream_fc_uni (v : DirectionalStreamFlowControl) (s : Session) : Session :=
  mkSession (sess_id s) (state s) (streams s) (remote_limits s) (local_limits s) (flow_state s)
    (flow_control_enabled s) (pending_capsules s) (pending_stream_resets s) (close_error s)
    (buffered_streams s) (buffered_datagrams s) (goaway_received s) (close_session_received s)
    (close_session_sent s) v (recv_stream_fc_bidi s) (recv_data_fc s) (send_blocked s).
Definition set_s_recv_stream_fc_bidi (v : DirectionalStreamFlowControl) (s : Session) : Session :=
  mkSession (sess_id s) (state s) (streams s) (remote_limits s) (local_limits s) (flow_state s)
    (flow_control_enabled s) (pending_capsules s) (pending_stream_resets s) (close_error s)
    (buffered_streams s) (buffered_datagrams s) (goaway_received s) (close_session_received s)
    (close_session_sent s) (recv_stream_fc_uni s) v (recv_data_fc s) (send_blocked s).
Definition set_s_recv_data_fc (v : DataFlowControl) (s : Session) : Session :=
  mkSession (sess_id s) (state s) (streams s) (remote_limits s) (local_limits s) (flow_state s)
    (flow_control_enabled s) (pending_capsules s) (pending_stream_resets s) (close_error s)
    (buffered_streams s) (buffered_datagrams s) (goaway_received s) (close_session_received s)
    (close_session_sent s) (recv_stream_fc_uni s) (recv_stream_fc_bidi s) v (send_blocked s).
Definition set_s_send_blocked (v : SendBlockedState) (s : Session) : Session :=
  mkSession (sess_id s) (state s) (streams s) (remote_limits s) (local_limits s) (flow_state s)
    (flow_control_enabled s) (pending_capsules s) (pending_stream_resets s) (close_error s)
    (buffered_streams s) (buffered_datagrams s) (goaway_received s) (close_session_received s)
    (close_session_sent s) (recv_stream_fc_uni s) (recv_stream_fc_bidi s) (recv_data_fc s) v.

Definition session_new (session_id : Z) : Session :=
  mkSession session_id Pending ∅ limits_new limits_new flow_state_new true [] [] None [] [] false false false
    (stream_fc_new 0) (stream_fc_new 0) (data_fc_new 0) send_blocked_new.

Definition is_established (s : Session) : bool := bool_decide (state s = Established).
Definition is_closed (s : Session) : bool := bool_decide (state s = Closed).

(** ** Transitions *)
Definition set_connecting (s : Session) : Session :=
  match state s with Pending => set_s_state Connecting s | _ => s end.
Definition set_established (s : Session) : Session :=
  match state s with Pending | Connecting => set_s_state Established s | _ => s end.
Definition set_draining (s : Session) : Session :=
  match state s with Established => set_s_state Draining s | _ => s end.

Definition stream_ids_to_reset (s : Session) : list Z := map fst (map_to_list (streams s)).

Definition close (error : option WtError) (s : Session) : Session :=
  let s := if is_closed s then s else set_s_pending_stream_resets (stream_ids_to_reset s) s in
  set_s_close_error error (set_s_state Closed s).

(** ** Streams *)
Definition try_add_stream (stream : WtStream) (s : Session) : Session * bool :=
  if is_closed s then (s, false)
  else (set_s_streams (<[ws_stream_id stream := stream]> (streams s)) s, true).
Definition add_stream (stream : WtStream) (s : Session) : Session := fst (try_add_stream stream s).
Definition remove_stream (id : Z) (s : Session) : Session * option WtStream :=
  (set_s_streams (delete id (streams s)) s, streams s !! id).
Definition stream_count (s : Session) : Z := Z.of_nat (size (streams s)).

(** ** Limits *)
Definition initialize_local_limits (limits : FlowControlLimits) (s : Session) : Session :=
  set_s_recv_data_fc (data_fc_new (max_data limits))
    (set_s_recv_stream_fc_bidi (stream_fc_new (max_streams_bidi limits))
      (set_s_recv_stream_fc_uni (stream_fc_new (max_streams_uni limits))
        (set_s_local_limits limits s))).
Definition initialize_remote_limits (limits : FlowControlLimits) (s : Session) : Session :=
  set_s_remote_limits limits s.

Definition push_capsule (c : Capsule) (s : Session) : Session :=
  set_s_pending_capsules (pending_capsules s ++ [c]) s.

Definition queue_initial_flow_control_capsules (limits : FlowControlLimits) (s : Session) : Session :=
  let s := initialize_local_limits limits s in
  let s := if 0 <? max_streams_bidi limits then push_capsule (MaxStreams true (max_streams_bidi limits)) s else s in
  let s := if 0 <? max_streams_uni limits then push_capsule (MaxStreams false (max_streams_uni limits)) s else s in
  if 0 <? max_data limits then push_capsule (MaxData (max_data limits)) s else s.

(** The fields a direction selects. *)
Definition opened (bidirectional : bool) (f : FlowControlState) : Z :=
  if bidirectional then streams_bidi_opened f else streams_uni_opened f.
Definition set_opened (bidirectional : bool) (v : Z) (f : FlowControlState) : FlowControlState :=
  let '(mkFlowState uo bo ds ur br dr dg) := f in
  if bidirectional then mkFlowState uo v ds ur br dr dg else mkFlowState v bo ds ur br dr dg.
Definition set_data_sent (v : Z) (f : FlowControlState) : FlowControlState :=
  let '(mkFlowState uo bo _ ur br dr dg) := f in mkFlowState uo bo v ur br dr dg.
Definition max_streams (bidirectional : bool) (l : FlowControlLimits) : Z :=
  if bidirectional then max_streams_bidi l else max_streams_uni l.
Definition set_max_streams (bidirectional : bool) (v : Z) (l : FlowControlLimits) : FlowControlLimits :=
  let '(mkLimits u b d) := l in if bidirectional then mkLimits u v d else mkLimits v b d.
Definition set_max_data (v : Z) (l : FlowControlLimits) : FlowControlLimits :=
  let '(mkLimits u b _) := l in mkLimits u b v.
Definition last_streams_blocked (bidirectional : bool) (b : SendBlockedState) : option Z :=
  if bidirectional then last_streams_blocked_bidi b else last_streams_blocked_uni b.
Definition set_last_streams_blocked (bidirectional : bool) (v : option Z) (b : SendBlockedState) : SendBlockedState :=
  let '(mkSendBlocked u bi d) := b in if bidirectional then mkSendBlocked u v d else mkSendBlocked v bi d.
Definition set_last_data_blocked (v : option Z) (b : SendBlockedState) : SendBlockedState :=
  let '(mkSendBlocked u bi _) := b in mkSendBlocked u bi v.
Definition recv_stream_fc (bidirectional : bool) (s : Session) : DirectionalStreamFlowControl :=
  if bidirectional then recv_stream_fc_bidi s else recv_stream_fc_uni s.
Definition set_recv_stream_fc (bidirectional : bool) (f : DirectionalStreamFlowControl) (s : Session) : Session :=
  if bidirectional then set_s_recv_stream_fc_bidi f s else set_s_recv_stream_fc_uni f s.

(** ** Sending *)

(** [can_create_unidirectional_stream] and [can_create_bidirectional_stream]. *)
Definition can_create (bidirectional : bool) (s : Session) : bool :=
  can_create_stream (state s) &&
  ((opened bidirectional (flow_state s) <? max_streams bidirectional (remote_limits s)) ||
   negb (flow_control_enabled s)).

Definition can_send_data (n : Z) (s : Session) : bool :=
  session_can_send (state s) &&
  ((n <=? saturating_sub (max_data (remote_limits s)) (data_sent (flow_state s))) ||
   negb (flow_control_enabled s)).

Definition count_opened (bidirectional : bool) (s : Session) : Session :=
  set_s_flow_state (set_opened bidirectional (saturating_add (opened bidirectional (flow_state s)) 1) (flow_state s)) s.

Definition try_open_stream (bidirectional : bool) (s : Session) : Session * bool :=
  if negb (can_create_stream (state s)) then (s, false)
  else
    let limit := max_streams bidirectional (remote_limits s) in
    if negb (flow_control_enabled s) then (count_opened bidirectional s, true)
    else if opened bidirectional (flow_state s) <? limit then (count_opened bidirectional s, true)
    else if flow_control_enabled s &&
            negb (bool_decide (last_streams_blocked bidirectional (send_blocked s) = Some limit))
    then
      (push_capsule (StreamsBlocked bidirectional limit)
        (set_s_send_blocked (set_last_streams_blocked bidirectional (Some limit) (send_blocked s)) s), false)
    else (s, false).

Definition count_sent (n : Z) (s : Session) : Session :=
  set_s_flow_state (set_data_sent (saturating_add (data_sent (flow_state s)) n) (flow_state s)) s.

Definition try_send_data (n : Z) (s : Session) : Session * bool :=
  if negb (session_can_send (state s)) then (s, false)
  else if negb (flow_control_enabled s) then (count_sent n s, true)
  else if n <=? saturating_sub (max_data (remote_limits s)) (data_sent (flow_state s)) then (count_sent n s, true)
  else if flow_control_enabled s then
    let limit := max_data (remote_limits s) in
    if negb (bool_decide (last_data_blocked (send_blocked s) = Some limit)) then
      (push_capsule (DataBlocked limit)
        (set_s_send_blocked (set_last_data_blocked (Some limit) (send_blocked s)) s), false)
    else (s, false)
  else (s, false).

(** ** Receiving *)
Definition check_received_data (n : Z) (s : Session) : bool :=
  if negb (flow_control_enabled s) then true else data_fc_check_received (recv_data_fc s) n.

Definition add_received_data (n : Z) (s : Session) : Session :=
  let '(mkFlowState uo bo ds ur br dr dg) := flow_state s in
  set_s_recv_data_fc (on_data_received (recv_data_fc s) n)
    (set_s_flow_state (mkFlowState uo bo ds ur br (saturating_add dr n) dg) s).

Definition check_received_stream (bidirectional : bool) (s : Session) : bool :=
  if negb (flow_control_enabled s) then true else stream_fc_check_received (recv_stream_fc bidirectional s).

Definition add_received_stream (bidirectional : bool) (s : Session) : Session :=
  let '(mkFlowState uo bo ds ur br dr dg) := flow_state s in
  let f := if bidirectional then mkFlowState uo bo ds ur (saturating_add br 1) dr dg
           else mkFlowState uo bo ds (saturating_add ur 1) br dr dg in
  set_recv_stream_fc bidirectional (on_stream_received (recv_stream_fc bidirectional s)) (set_s_flow_state f s).

Definition on_remote_stream_closed (bidirectional : bool) (s : Session) : Session :=
  if negb (flow_control_enabled s) || is_closed s then s
  else
    let '(fc, o) := on_stream_closed (recv_stream_fc bidirectional s) in
    let s := set_recv_stream_fc bidirectional fc s in
    match o with
    | Some new_max =>
      set_s_local_limits (set_max_streams bidirectional new_max (local_limits s))
        (push_capsule (MaxStreams bidirectional new_max) s)
    | None => s
    end.

Definition on_data_consumed (n : Z) (s : Session) : Session :=
  if negb (flow_control_enabled s) || is_closed s then s
  else
    let '(fc, o) := data_fc_on_data_consumed (recv_data_fc s) n in
    let s := set_s_recv_data_fc fc s in
    match o with
    | Some new_max =>
      set_s_local_limits (set_max_data new_max (local_limits s)) (push_capsule (MaxData new_max) s)
    | None => s
    end.

Definition add_received_datagram (s : Session) : Session :=
  let '(mkFlowState uo bo ds ur br dr dg) := flow_state s in
  set_s_flow_state (mkFlowState uo bo ds ur br dr (saturating_add dg 1)) s.

(** ** Capsules and the end of the session *)
Definition queue_capsule (c : Capsule) (s : Session) : Session :=
  if is_closed s then s else push_capsule c s.

Definition take_pending_capsules (s : Session) : Session * list Capsule :=
  (set_s_pending_capsules [] s, pending_capsules s).

Definition close_with_error (code : Z) (message : bytes) (s : Session) : Session :=
  if is_closed s then s
  else
    let message := truncate_utf8 MAX_CLOSE_SESSION_MESSAGE_LEN message in
    let application_error := application code message in
    let s := queue_capsule (CloseSession code message) s in
    close (Some application_error) (set_s_close_session_sent true s).

Definition drain (s : Session) : Session :=
  match state s with Established => set_draining (queue_capsule DrainSession s) | _ => s end.

Definition buffer_incoming_stream (stream_id : Z) (bidirectional : bool) (s : Session) : Session * bool :=
  if MAX_BUFFERED_STREAMS <=? len (buffered_streams s) then (s, false)
  else (set_s_buffered_streams (buffered_streams s ++ [mkBuffered stream_id bidirectional]) s, true).
Definition take_buffered_streams (s : Session) : Session * list BufferedStream :=
  (set_s_buffered_streams [] s, buffered_streams s).
Definition buffer_datagram (data : bytes) (s : Session) : Session * bool :=
  if MAX_BUFFERED_DATAGRAMS <=? len (buffered_datagrams s) then (s, false)
  else (set_s_buffered_datagrams (buffered_datagrams s ++ [data]) s, true).
Definition take_buffered_datagrams (s : Session) : Session * list bytes :=
  (set_s_buffered_datagrams [] s, buffered_datagrams s).

Definition handle_goaway (s : Session) : Session := set_draining (set_s_goaway_received true s).

Definition take_pending_stream_resets (s : Session) : Session * list Z :=
  (set_s_pending_stream_resets [] s, pending_stream_resets s).

Definition on_connect_stream_closed (s : Session) : Session :=
  if negb (close_session_received s)
  then close (Some (application 0 [])) (set_s_close_session_received true s) else s.

(** "prohibited capsule received" *)
Definition PROHIBITED_MESSAGE : bytes :=
  [112; 114; 111; 104; 105; 98; 105; 116; 101; 100; 32; 99; 97; 112; 115; 117; 108; 101; 32; 114; 101; 99; 101;
   105; 118; 101; 100].

Definition process_capsule (c : Capsule) (s : Session) : Session * result CapsuleProcessError unit :=
  let flow_control_error := (s, Err (Protocol FlowControlError)) in
  if is_prohibited_in_http3 c then (s, Err (application 0 PROHIBITED_MESSAGE))
  else if negb (flow_control_enabled s) && is_flow_control c then (s, Ok ())
  else match c with
  | CloseSession error_code message =>
    (close (Some (application error_code message)) (set_s_close_session_received true s), Ok ())
  | DrainSession => (set_draining s, Ok ())
  | MaxData maximum =>
    if maximum <=? max_data (remote_limits s) then flow_control_error
    else (set_s_send_blocked (set_last_data_blocked None (send_blocked s))
            (set_s_remote_limits (set_max_data maximum (remote_limits s)) s), Ok ())
  | MaxStreams bidirectional maximum =>
    if MAX_STREAMS_LIMIT <? maximum then flow_control_error
    else if maximum <=? max_streams bidirectional (remote_limits s) then flow_control_error
    else (set_s_send_blocked (set_last_streams_blocked bidirectional None (send_blocked s))
            (set_s_remote_limits (set_max_streams bidirectional maximum (remote_limits s)) s), Ok ())
  | DataBlocked _ => (s, Ok ())
  | StreamsBlocked _ maximum => if MAX_STREAMS_LIMIT <? maximum then flow_control_error else (s, Ok ())
  | UnknownCapsule _ _ => (s, Ok ())
  end.

(** ** Lifecycle *)

(** The operations of a session once its limits are set. *)
Inductive session_step : Session -> Session -> Prop :=
| step_connecting s : session_step s (set_connecting s)
| step_established s : session_step s (set_established s)
| step_draining s : session_step s (set_draining s)
| step_goaway s : session_step s (handle_goaway s)
| step_drain s : session_step s (drain s)
| step_close e s : session_step s (close e s)
| step_close_with_error c m s : session_step s (close_with_error c m s)
| step_connect_closed s : session_step s (on_connect_stream_closed s)
| step_capsule c s : session_step s (fst (process_capsule c s))
| step_add_stream st s : session_step s (add_stream st s)
| step_remove_stream id s : session_step s (fst (remove_stream id s))
| step_open b s : session_step s (fst (try_open_stream b s))
| step_send n s : session_step s (fst (try_send_data n s))
| step_received_stream b s : session_step s (add_received_stream b s)
| step_received_data n s : session_step s (add_received_data n s)
| step_received_datagram s : session_step s (add_received_datagram s)
| step_stream_closed b s : session_step s (on_remote_stream_closed b s)
| step_consumed n s : session_step s (on_data_consumed n s)
| step_queue c s : session_step s (queue_capsule c s)
| step_take_capsules s : session_step s (fst (take_pending_capsules s))
| step_take_resets s : session_step s (fst (take_pending_stream_resets s))
| step_buffer_stream id b s : session_step s (fst (buffer_incoming_stream id b s))
| step_take_streams s : session_step s (fst (take_buffered_streams s))
| step_buffer_datagram d s : session_step s (fst (buffer_datagram d s))
| step_take_datagrams s : session_step s (fst (take_buffered_datagrams s)).

Definition rank (s : SessionState) : Z :=
  match s with Pending => 0 | Connecting => 1 | Established => 2 | Draining => 3 | Closed => 4 end.

(** What holds between a session and a later one. *)
Definition later (s s' : Session) : Prop :=
  sess_id s' = sess_id s /\ rank (state s) <= rank (state s') /\
  (goaway_received s = true -> goaway_received s' = true) /\
  (close_session_received s = true -> close_session_received s' = true) /\
  (close_session_sent s = true -> close_session_sent s' = true) /\
  (len (buffered_streams s) <= MAX_BUFFERED_STREAMS -> len (buffered_streams s') <= MAX_BUFFERED_STREAMS) /\
  (len (buffered_datagrams s) <= MAX_BUFFERED_DATAGRAMS -> len (buffered_datagrams s') <= MAX_BUFFERED_DATAGRAMS) /\
  (state s = Closed ->
    (pending_capsules s' = pending_capsules s \/ pending_capsules s' = []) /\
    (pending_stream_resets s' = pending_stream_resets s \/ pending_stream_resets s' = []) /\
    (forall b, opened b (flow_state s') = opened b (flow_state s)) /\
    data_sent (flow_state s') = data_sent (flow_state s) /\ streams s' ⊆ streams s).

Lemma later_refl s : later s s.
Proof. split_and!; try done; try lia. intros _. split_and!; try done; by left. Qed.

Lemma rank_closed s s' : state s = Closed -> rank (state s) <= rank (state s') -> state s' = Closed.
Proof. intros ->. by destruct (state s'). Qed.

Lemma later_trans s1 s2 s3 : later s1 s2 -> later s2 s3 -> later s1 s3.
Proof.
  intros (A1 & A2 & A3 & A4 & A5 & A6 & A7 & A8) (B1 & B2 & B3 & B4 & B5 & B6 & B7 & B8).
  split_and!; eauto; [congruence|lia|]. intros Hc.
  destruct (A8 Hc) as (C1 & C2 & C3 & C4 & C5).
  destruct (B8 (rank_closed _ _ Hc A2)) as (D1 & D2 & D3 & D4 & D5). split_and!.
  - destruct D1 as [-> | ->]; [done|by right].
  - destruct D2 as [-> | ->]; [done|by right].
  - intros b. by rewrite D3.
  - congruence.
  - by etrans.
Qed.

(** Closing ops, state changes and counters, as changes of single fields. *)
Lemma later_set_state v s : rank (state s) <= rank v -> later s (set_s_state v s).
Proof. intros H. by split_and!; cbn; auto. Qed.

Lemma later_set_close_error v s : later s (set_s_close_error v s).
Proof. apply (later_refl s). Qed.
Lemma later_set_remote_limits v s : later s (set_s_remote_limits v s).
Proof. apply (later_refl s). Qed.
Lemma later_set_local_limits v s : later s (set_s_local_limits v s).
Proof. apply (later_refl s). Qed.
Lemma later_set_send_blocked v s : later s (set_s_send_blocked v s).
Proof. apply (later_refl s). Qed.
Lemma later_set_recv_data_fc v s : later s (set_s_recv_data_fc v s).
Proof. apply (later_refl s). Qed.
Lemma later_set_recv_stream_fc b v s : later s (set_recv_stream_fc b v s).
Proof. destruct b; apply (later_refl s). Qed.
Lemma later_goaway s : later s (set_s_goaway_received true s).
Proof. by split_and!; cbn; auto. Qed.
Lemma later_close_received s : later s (set_s_close_session_received true s).
Proof. by split_and!; cbn; auto. Qed.
Lemma later_close_sent s : later s (set_s_close_session_sent true s).
Proof. by split_and!; cbn; auto. Qed.
#[export] Hint Resolve later_refl later_set_state later_set_close_error later_set_remote_limits later_set_local_limits
  later_set_send_blocked later_set_recv_data_fc later_set_recv_stream_fc later_goaway later_close_received
  later_close_sent : later.

(** Changes a closed session does not make. *)
Lemma later_open s s' : state s <> Closed -> sess_id s' = sess_id s -> rank (state s) <= rank (state s') ->
  goaway_received s' = goaway_received s -> close_session_received s' = close_session_received s ->
  close_session_sent s' = close_session_sent s -> buffered_streams s' = buffered_streams s ->
  buffered_datagrams s' = buffered_datagrams s -> later s s'.
Proof. intros Hc Hi Hr H1 H2 H3 H4 H5. unfold later. rewrite H1, H2, H3, H4, H5. by split_and!; auto. Qed.

Lemma later_push c s : state s <> Closed -> later s (push_capsule c s).
Proof. intros. by apply later_open. Qed.
Lemma later_resets v s : state s <> Closed -> later s (set_s_pending_stream_resets v s).
Proof. intros. by apply later_open. Qed.
Lemma later_count_opened b s : state s <> Closed -> later s (count_opened b s).
Proof. intros. by apply later_open. Qed.
Lemma later_count_sent n s : state s <> Closed -> later s (count_sent n s).
Proof. intros. by apply later_open. Qed.
#[export] Hint Resolve later_push later_resets later_count_opened later_count_sent : later.

Lemma not_closed s : is_closed s = false <-> state s <> Closed.
Proof. apply bool_decide_eq_false. Qed.

Lemma later_close e s : later s (close e s).
Proof.
  unfold close. eapply later_trans; [|apply later_set_close_error].
  destruct (is_closed s) eqn:E.
  - apply later_set_state. destruct (state s); cbn; lia.
  - apply not_closed in E. eapply later_trans; [apply later_resets, E|].
    apply later_set_state. cbn. destruct (state s); cbn; lia.
Qed.
Lemma later_set_draining s : later s (set_draining s).
Proof. unfold set_draining. destruct (state s) eqn:E; auto with later. apply later_set_state. by rewrite E. Qed.
Lemma later_queue c s : later s (queue_capsule c s).
Proof. unfold queue_capsule. destruct (is_closed s) eqn:E; auto with later. apply not_closed in E. auto with later. Qed.
#[export] Hint Resolve later_close later_set_draining later_queue : later.

(** Two changes in a row. *)
Ltac later_chain := repeat (eapply later_trans; [|solve [eauto with later]]); eauto with later.

Lemma later_process_capsule c s : later s (fst (process_capsule c s)).
Proof.
  unfold process_capsule. repeat case_match; cbn [fst]; auto with later; later_chain.
Qed.

Lemma later_try_open b s : later s (fst (try_open_stream b s)).
Proof.
  unfold try_open_stream. destruct (can_create_stream (state s)) eqn:E; cbn [negb fst]; auto with later.
  assert (state s <> Closed) by (intros Hc; by rewrite Hc in E).
  repeat case_match; cbn [fst]; auto with later.
  eapply later_trans; [apply later_set_send_blocked|]. by apply later_push.
Qed.

Lemma later_try_send n s : later s (fst (try_send_data n s)).
Proof.
  unfold try_send_data. destruct (session_can_send (state s)) eqn:E; cbn [negb fst]; auto with later.
  assert (state s <> Closed) by (intros Hc; by rewrite Hc in E).
  repeat case_match; cbn [fst]; auto with later.
  eapply later_trans; [apply later_set_send_blocked|]. by apply later_push.
Qed.

Lemma later_stream_closed b s : later s (on_remote_stream_closed b s).
Proof.
  unfold on_remote_stream_closed. destruct (is_closed s) eqn:E; [rewrite orb_true_r; auto with later|].
  apply not_closed in E. destruct (negb _); cbn [orb]; auto with later.
  destruct (on_stream_closed _) as [fc [m|]]; auto with later.
  eapply later_trans; [|apply later_set_local_limits].
  eapply later_trans; [apply later_set_recv_stream_fc|]. apply later_push. by destruct b.
Qed.

Lemma later_consumed n s : later s (on_data_consumed n s).
Proof.
  unfold on_data_consumed. destruct (is_closed s) eqn:E; [rewrite orb_true_r; auto with later|].
  apply not_closed in E. destruct (negb _); cbn [orb]; auto with later.
  destruct (data_fc_on_data_consumed _ _) as [fc [m|]]; auto with later.
  eapply later_trans; [|apply later_set_local_limits].
  eapply later_trans; [apply later_set_recv_data_fc|]. by apply later_push.
Qed.

(** Counters of what arrives. *)
Lemma later_received b s : later s (add_received_stream b s).
Proof.
  unfold add_received_stream. destruct (flow_state s) eqn:E. destruct b; split_and!; cbn; auto; try lia;
    intros ?; rewrite E; by split_and!; auto; intros [].
Qed.
Lemma later_received_data n s : later s (add_received_data n s).
Proof.
  unfold add_received_data. destruct (flow_state s) eqn:E. split_and!; cbn; auto; try lia.
  all: intros _; rewrite E; by split_and!; auto; intros [].
Qed.
Lemma later_received_datagram s : later s (add_received_datagram s).
Proof.
  unfold add_received_datagram. destruct (flow_state s) eqn:E. split_and!; cbn; auto; try lia.
  all: intros _; rewrite E; by split_and!; auto; intros [].
Qed.

Lemma later_buffers s s' : sess_id s' = sess_id s -> state s' = state s ->
  goaway_received s' = goaway_received s -> close_session_received s' = close_session_received s ->
  close_session_sent s' = close_session_sent s ->
  (len (buffered_streams s) <= MAX_BUFFERED_STREAMS -> len (buffered_streams s') <= MAX_BUFFERED_STREAMS) ->
  (len (buffered_datagrams s) <= MAX_BUFFERED_DATAGRAMS -> len (buffered_datagrams s') <= MAX_BUFFERED_DATAGRAMS) ->
  (pending_capsules s' = pending_capsules s \/ pending_capsules s' = []) ->
  (pending_stream_resets s' = pending_stream_resets s \/ pending_stream_resets s' = []) ->
  flow_state s' = flow_state s -> streams s' ⊆ streams s -> later s s'.
Proof.
  intros Hi Hs H1 H2 H3 H4 H5 H6 H7 H8 H9. unfold later. rewrite Hs, H1, H2, H3, H8. split_and!; auto; lia.
Qed.

Lemma step_later s s' : session_step s s' -> later s s'.
Proof.
  destruct 1; cbn [fst];
    auto using later_process_capsule, later_try_open, later_try_send, later_stream_closed, later_consumed,
      later_received, later_received_data, later_received_datagram with later.
  - unfold set_connecting. destruct (state s) eqn:E; auto with later. apply later_set_state. by rewrite E.
  - unfold set_established. destruct (state s) eqn:E; auto with later; apply later_set_state; by rewrite E.
  - unfold handle_goaway. later_chain.
  - unfold drain. destruct (state s); auto with later. later_chain.
  - unfold close_with_error. destruct (is_closed s); auto with later. later_chain.
  - unfold on_connect_stream_closed. case_match; auto with later. later_chain.
  - unfold add_stream, try_add_stream. destruct (is_closed s) eqn:E; cbn [fst]; auto with later.
    apply not_closed in E. by apply later_open.
  - unfold remove_stream. apply later_buffers; cbn; auto. apply delete_subseteq.
  - apply later_buffers; cbn; auto.
  - apply later_buffers; cbn; auto.
  - unfold buffer_incoming_stream. case_z; cbn [fst]; auto with later. apply later_buffers; cbn; auto.
    intros _. rewrite len_app. unfold MAX_BUFFERED_STREAMS in *. zlen.
  - apply later_buffers; cbn; auto. unfold MAX_BUFFERED_STREAMS. zlen.
  - unfold buffer_datagram. case_z; cbn [fst]; auto with later. apply later_buffers; cbn; auto.
    intros _. rewrite len_app. unfold MAX_BUFFERED_DATAGRAMS in *. zlen.
  - apply later_buffers; cbn; auto. unfold MAX_BUFFERED_DATAGRAMS. zlen.
Qed.

(** ** Properties *)

(** C32. The life of a session: whatever is called on it, in any order, its state only moves
    forward, from pending over connecting, established and draining to closed, and what it
    learned or announced about its end (GOAWAY, close received, close sent) is not
    forgotten. Its buffers keep their limits. Once it is closed it stays closed, its set of
    streams does not grow, it counts nothing more as opened or sent, and its pending
    capsules and resets are those it had, or have been taken. It may still hold streams,
    buffer what arrives and note limits of the peer. *)
Theorem session_lifecycle s s' : rtc session_step s s' -> later s s'.
Proof. induction 1 as [|s1 s2 s3 H _ IH]; [apply later_refl|]. eapply later_trans; [by apply step_later|done]. Qed.

Lemma session_lifecycle_witness :
  let s := close_with_error 7 [] (set_established (session_new 0)) in
  state s = Closed /\ pending_capsules (queue_capsule DrainSession s) = [CloseSession 7 []].
Proof.
  intros s. split; [reflexivity|].
  assert (later s (queue_capsule DrainSession s)) as H.
  { apply session_lifecycle. eapply rtc_l; [apply step_queue|apply rtc_refl]. }
  destruct H as (_ & _ & _ & _ & _ & _ & _ & H). destruct (H eq_refl) as ([E | E] & _); [exact E|].
  vm_compute in E. discriminate E.
Defined.
