(* ===== verification/SessionFlow.v ===== *)
(** Flow control between the two endpoints of a WebTransport session (session/mod.rs,
    session/flow_control.rs): one endpoint opens streams and sends data with the limits it
    has been given, the other counts, closes, consumes and announces larger limits. What is
    under way in either direction arrives in order, at any later time. *)

From S2P Require Import Prelude Varint FlowControl Capsule WtError WtStream Session.

(** ** One view of the three resources *)
Inductive resource := Streams (bidirectional : bool) | DataBytes.

#[export] Instance resource_eq_dec : EqDecision resource.
Proof. solve_decision. Defined.

(** At the sender: what it may use and what it has used. *)
Definition credit_limit (r : resource) (s : Session) : Z :=
  match r with Streams b => max_streams b (remote_limits s) | DataBytes => max_data (remote_limits s) end.
Definition credit_used (r : resource) (s : Session) : Z :=
  match r with Streams b => opened b (flow_state s) | DataBytes => data_sent (flow_state s) end.

(** At the receiver: its window, what it announced, what arrived, what is done with. *)
Definition window (r : resource) (s : Session) : Z :=
  match r with Streams b => concurrent_limit (recv_stream_fc b s) | DataBytes => initial_window (recv_data_fc s) end.
Definition announced (r : resource) (s : Session) : Z :=
  match r with Streams b => sf_advertised_max (recv_stream_fc b s) | DataBytes => df_advertised_max (recv_data_fc s) end.
Definition arrived (r : resource) (s : Session) : Z :=
  match r with Streams b => sf_total_received (recv_stream_fc b s) | DataBytes => df_total_received (recv_data_fc s) end.
Definition finished (r : resource) (s : Session) : Z :=
  match r with Streams b => total_closed (recv_stream_fc b s) | DataBytes => total_consumed (recv_data_fc s) end.

Definition window_cap (r : resource) : Z := match r with Streams _ => MAX_STREAMS_LIMIT | DataBytes => U64_MAX end.

Definition receiver_ok (r : resource) (s : Session) : Prop :=
  match r with Streams b => stream_fc_ok (recv_stream_fc b s) | DataBytes => data_fc_ok (recv_data_fc s) end.

(** The operations, by resource. *)
Definition try_use (r : resource) (n : Z) (s : Session) : Session * bool :=
  match r with Streams b => try_open_stream b s | DataBytes => try_send_data n s end.
Definition check_arrival (r : resource) (n : Z) (s : Session) : bool :=
  match r with Streams b => check_received_stream b s | DataBytes => check_received_data n s end.
Definition arrive (r : resource) (n : Z) (s : Session) : Session :=
  match r with Streams b => add_received_stream b s | DataBytes => add_received_data n s end.
Definition finish (r : resource) (n : Z) (s : Session) : Session :=
  match r with Streams b => on_remote_stream_closed b s | DataBytes => on_data_consumed n s end.

(** How many units a use takes. *)
Definition units (r : resource) (n : Z) : Prop := match r with Streams _ => n = 1 | DataBytes => 0 <= n end.

(** The new maximum a capsule announces for a resource. *)
Definition announcement (r : resource) (c : Capsule) : option Z :=
  match r, c with
  | Streams b, MaxStreams b' m => if Bool.eqb b b' then Some m else None
  | DataBytes, MaxData m => Some m
  | _, _ => None
  end.

(** ** The two endpoints and what is under way *)
Record system := mkSystem {
  sender : Session;
  forward : list (resource * Z);  (** opened streams and sent data, oldest first *)
  receiver : Session;
  backward : list Capsule }.      (** capsules the receiver sent, oldest first *)

Inductive system_step : system -> system -> Prop :=
| sys_use r n a a' fw b bw : units r n -> try_use r n a = (a', true) ->
    system_step (mkSystem a fw b bw) (mkSystem a' (fw ++ [(r, n)]) b bw)
| sys_blocked r n a a' fw b bw : units r n -> try_use r n a = (a', false) ->
    system_step (mkSystem a fw b bw) (mkSystem a' fw b bw)
| sys_arrive r n a fw b bw : check_arrival r n b = true ->
    system_step (mkSystem a ((r, n) :: fw) b bw) (mkSystem a fw (arrive r n b) bw)
| sys_finish r n a fw b bw : units r n -> finished r b + n <= arrived r b ->
    system_step (mkSystem a fw b bw) (mkSystem a fw (finish r n b) bw)
| sys_flush a fw b b' bw cs : take_pending_capsules b = (b', cs) ->
    system_step (mkSystem a fw b bw) (mkSystem a fw b' (bw ++ cs))
| sys_deliver c a a' fw b bw : process_capsule c a = (a', Ok ()) ->
    system_step (mkSystem a fw b (c :: bw)) (mkSystem a' fw b bw).

Definition limits_ok (l : FlowControlLimits) : Prop :=
  0 <= max_streams_uni l <= MAX_STREAMS_LIMIT /\ 0 <= max_streams_bidi l <= MAX_STREAMS_LIMIT /\
  0 <= max_data l <= VARINT_MAX.

(** Both sessions established with flow control, the receiver's limits in its SETTINGS. *)
Definition initial_system (id : Z) (l : FlowControlLimits) : system :=
  mkSystem (set_established (initialize_remote_limits l (session_new id))) []
           (set_established (initialize_local_limits l (session_new id))) [].

(** ** Invariant *)

(** Maxima under way: each is larger than the one before, from what the sender knows up to
    what the receiver announced last. *)
Fixpoint rising (lo : Z) (l : list Z) (hi : Z) : Prop :=
  match l with [] => lo = hi | x :: l => lo < x /\ rising x l hi end.

Definition in_flight (r : resource) (fw : list (resource * Z)) : Z :=
  fold_right (fun '(r', n) acc => (if decide (r = r') then n else 0) + acc) 0 fw.

Arguments in_flight : simpl never.

(** The limit of a resource in the receiver's SETTINGS. *)
Definition initial_limit (r : resource) (l : FlowControlLimits) : Z :=
  match r with Streams b => max_streams b l | DataBytes => max_data l end.

Definition system_inv (l : FlowControlLimits) (w : system) : Prop :=
  state (sender w) = Established /\ flow_control_enabled (sender w) = true /\
  state (receiver w) = Established /\ flow_control_enabled (receiver w) = true /\
  Forall (fun '(r, n) => units r n) (forward w) /\
  Forall (fun c => exists r m, announcement r c = Some m /\ m <= window_cap r)
    (backward w ++ pending_capsules (receiver w)) /\
  forall r,
    receiver_ok r (receiver w) /\ window r (receiver w) = initial_limit r l /\
    0 <= credit_used r (sender w) <= credit_limit r (sender w) /\
    credit_used r (sender w) = arrived r (receiver w) + in_flight r (forward w) /\
    rising (credit_limit r (sender w))
      (omap (announcement r) (backward w ++ pending_capsules (receiver w))) (announced r (receiver w)).

Lemma rising_le l : forall lo hi, rising lo l hi -> lo <= hi.
Proof. induction l as [|x l IH]; intros lo hi; cbn; [lia|]. intros [? ?%IH]. lia. Qed.

Lemma rising_snoc l x : forall lo hi, rising lo l hi -> hi < x -> rising lo (l ++ [x]) x.
Proof. induction l as [|y l IH]; intros lo hi; cbn; [intros ->; auto|]. intros [? ?] ?. eauto. Qed.

Lemma in_flight_cons r r' n fw : in_flight r ((r', n) :: fw) = (if decide (r = r') then n else 0) + in_flight r fw.
Proof. done. Qed.
Lemma in_flight_app r fw r' n : in_flight r (fw ++ [(r', n)]) = in_flight r fw + if decide (r = r') then n else 0.
Proof.
  unfold in_flight. induction fw as [|[r1 n1] fw IH]; cbn [app fold_right]; [lia|]. rewrite IH. lia.
Qed.

Lemma in_flight_nonneg r fw : Forall (fun '(r, n) => units r n) fw -> 0 <= in_flight r fw.
Proof.
  unfold in_flight. induction 1 as [|[r' n] fw Hn _ IH]; cbn [fold_right]; [lia|].
  destruct r'; cbn in Hn; case_decide; lia.
Qed.

Lemma receiver_window r s : receiver_ok r s ->
  window_ok (window_cap r) (window r s) (announced r s) (finished r s) (arrived r s).
Proof. by destruct r as [b|]; intros [_ ?]. Qed.

Lemma initial_system_inv id l : limits_ok l -> system_inv l (initial_system id l).
Proof.
  intros (Hu & Hb & Hd). unfold initial_system, system_inv. cbn. split_and!; try done; try apply List.Forall_nil.
  intros r. split_and!.
  - destruct r as [[]|]; cbn.
    + by apply stream_fc_new_ok.
    + by apply stream_fc_new_ok.
    + apply data_fc_new_ok. unfold VARINT_MAX, U64_MAX in *. lia.
  - by destruct r as [[]|].
  - by destruct r as [[]|].
  - destruct r as [[]|]; cbn; lia.
  - by destruct r as [[]|].
  - by destruct r as [[]|].
Qed.

(** ** Every step keeps it *)

(** What an operation leaves alone. *)
Definition same_receiver (s s' : Session) : Prop :=
  forall r, window r s' = window r s /\ announced r s' = announced r s /\ arrived r s' = arrived r s /\
    finished r s' = finished r s /\ (receiver_ok r s -> receiver_ok r s').
Definition same_sender (s s' : Session) : Prop :=
  forall r, credit_limit r s' = credit_limit r s /\ credit_used r s' = credit_used r s.

Lemma try_use_true r n s s' : state s = Established -> flow_control_enabled s = true -> units r n ->
  0 <= credit_used r s <= credit_limit r s -> credit_limit r s <= U64_MAX -> try_use r n s = (s', true) ->
  state s' = Established /\ flow_control_enabled s' = true /\
  credit_used r s + n <= credit_limit r s /\
  forall r', credit_limit r' s' = credit_limit r' s /\
    credit_used r' s' = credit_used r' s + if decide (r' = r) then n else 0.
Proof.
  intros Hs He Hn Hu Hl. destruct r as [b|]; cbn [try_use credit_used credit_limit] in *.
  - unfold try_open_stream. rewrite Hs, He. cbn [can_create_stream negb andb].
    case_z; [|case_match; congruence]. intros [= <-]. cbn in Hn. subst n.
    unfold count_opened, set_s_flow_state, set_opened, saturating_add. cbn.
    destruct (flow_state s) eqn:Ef. split_and!; try done; [lia|].
    intros r'. split; [done|]. destruct b, r' as [[]|]; cbn in *; rewrite ?Ef in *; cbn in *; case_decide;
      simplify_eq; lia.
  - unfold try_send_data. rewrite Hs, He. cbn [session_can_send negb].
    case_z; [|case_match; congruence]. intros [= <-]. cbn in Hn.
    unfold count_sent, set_s_flow_state, set_data_sent, saturating_add, saturating_sub in *. cbn.
    destruct (flow_state s) eqn:Ef. split_and!; try done; [cbn in *; lia|].
    intros r'. split; [done|]. destruct r' as [[]|]; cbn in *; rewrite ?Ef in *; cbn in *; case_decide;
      simplify_eq; lia.
Qed.

Lemma try_use_false r n s s' : try_use r n s = (s', false) ->
  state s' = state s /\ flow_control_enabled s' = flow_control_enabled s /\ same_sender s s'.
Proof.
  destruct r as [b|]; cbn [try_use]; unfold try_open_stream, try_send_data; repeat case_match; intros [= <-];
    split_and!; try done; by intros [[]|].
Qed.

Lemma check_arrival_ok r n s : flow_control_enabled s = true -> units r n ->
  arrived r s + n <= announced r s -> check_arrival r n s = true.
Proof.
  intros He Hn H. destruct r as [b|]; cbn in *; unfold check_received_stream, check_received_data; rewrite He; cbn.
  - unfold stream_fc_check_received. apply Z.ltb_lt. lia.
  - unfold data_fc_check_received, saturating_sub. apply Z.leb_le. lia.
Qed.

Lemma arrive_ok r n s : flow_control_enabled s = true -> units r n -> check_arrival r n s = true ->
  (forall r', receiver_ok r' s) ->
  state (arrive r n s) = state s /\ flow_control_enabled (arrive r n s) = true /\
  pending_capsules (arrive r n s) = pending_capsules s /\
  forall r', receiver_ok r' (arrive r n s) /\ announced r' (arrive r n s) = announced r' s /\
    window r' (arrive r n s) = window r' s /\
    arrived r' (arrive r n s) = arrived r' s + if decide (r' = r) then n else 0.
Proof.
  intros He Hn Hc Hok. pose proof (Hok r) as Hr. destruct r as [b|]; cbn in Hc, Hn, Hr |- *.
  - unfold check_received_stream in Hc. rewrite He in Hc. cbn in Hc. subst n.
    destruct (on_stream_received_ok _ Hr Hc) as [H1 H2].
    unfold add_received_stream. destruct (flow_state s). split_and!.
    1-3: by destruct b.
    intros r'. specialize (Hok r'). destruct b, r' as [[]|]; cbn in *; split_and!; try done;
      case_decide; simplify_eq; lia.
  - unfold check_received_data in Hc. rewrite He in Hc. cbn in Hc.
    destruct (on_data_received_ok _ _ Hr Hn Hc) as [H1 H2].
    unfold add_received_data. destruct (flow_state s). split_and!; try done.
    intros r'. specialize (Hok r'). destruct r' as [[]|]; cbn in *; split_and!; try done; case_decide; simplify_eq; lia.
Qed.

Lemma finish_ok r n s : state s = Established -> flow_control_enabled s = true -> units r n ->
  finished r s + n <= arrived r s -> (forall r', receiver_ok r' s) ->
  state (finish r n s) = Established /\ flow_control_enabled (finish r n s) = true /\
  (forall r', receiver_ok r' (finish r n s) /\ arrived r' (finish r n s) = arrived r' s /\
    window r' (finish r n s) = window r' s) /\
  ((pending_capsules (finish r n s) = pending_capsules s /\
    forall r', announced r' (finish r n s) = announced r' s) \/
   exists c m, pending_capsules (finish r n s) = pending_capsules s ++ [c] /\ m <= window_cap r /\
     announced r s < m /\ forall r', announcement r' c = (if decide (r' = r) then Some m else None) /\
       announced r' (finish r n s) = if decide (r' = r) then m else announced r' s).
Proof.
  intros Hs He Hn Hf Hok. pose proof (Hok r) as Hr. destruct r as [b|]; cbn in Hn, Hr, Hf |- *.
  - unfold on_remote_stream_closed, is_closed. rewrite He, Hs. cbn [negb orb]. rewrite bool_decide_eq_false_2 by done.
    pose proof (on_stream_closed_ok _ Hr ltac:(lia)) as H. destruct (on_stream_closed _) as [fc o].
    destruct H as (H1 & H2 & H3 & H4 & H5 & H6). split_and!.
    + destruct o; by destruct b.
    + destruct o; by destruct b.
    + intros r'. specialize (Hok r'). destruct o, b, r' as [[]|]; by cbn in *.
    + destruct o as [m|]; [right|left].
      * destruct H2 as [H2 H2']. exists (MaxStreams b m), m. split_and!; [by destruct b|by apply H6|done|].
        intros r'. destruct b, r' as [[]|]; cbn; split; case_decide; by simplify_eq.
      * split; [by destruct b|]. intros r'. destruct b, r' as [[]|]; by cbn in *.
  - unfold on_data_consumed, is_closed. rewrite He, Hs. cbn [negb orb]. rewrite bool_decide_eq_false_2 by done.
    pose proof (data_consumed_ok _ n Hr Hn ltac:(lia)) as H. destruct (data_fc_on_data_consumed _ _) as [fc o].
    destruct H as (H1 & H2 & H3 & H4 & H5). split_and!; try by destruct o.
    + intros r'. specialize (Hok r'). destruct o, r' as [[]|]; by cbn in *.
    + destruct o as [m|]; [right|left].
      * destruct H2 as [H2 H2']. exists (MaxData m), m. split_and!; try done.
        { destruct H1 as (_ & _ & _ & _ & H1 & _). cbn. lia. }
        intros r'. destruct r' as [[]|]; cbn; split; case_decide; by simplify_eq.
      * split; [done|]. intros r'. destruct r' as [[]|]; by cbn in *.
Qed.

Lemma deliver_ok r m c s : flow_control_enabled s = true -> announcement r c = Some m -> m <= window_cap r ->
  credit_limit r s < m ->
  exists s', process_capsule c s = (s', Ok ()) /\ state s' = state s /\ flow_control_enabled s' = true /\
    forall r', credit_limit r' s' = (if decide (r' = r) then m else credit_limit r' s) /\
      credit_used r' s' = credit_used r' s.
Proof.
  intros He Ha Hm Hl. unfold process_capsule, is_prohibited_in_http3. rewrite He. cbn [negb andb].
  destruct r as [b|], c; cbn in Ha; try done.
  - destruct (Bool.eqb b bidirectional) eqn:Eb; [|done]. apply eqb_prop in Eb as <-. simplify_eq.
    assert (is_prohibited_in_http3_type (capsule_type (MaxStreams b m)) = false) as -> by by destruct b.
    cbn in Hm, Hl. rewrite (proj2 (Z.ltb_ge _ _) Hm), (proj2 (Z.leb_gt _ _) Hl).
    eexists. split; [done|]. cbn. split_and!; try done. intros r'. destruct (remote_limits s) eqn:El.
    destruct b, r' as [[]|]; cbn; rewrite ?El; split; try done; case_decide; by simplify_eq.
  - simplify_eq. cbn [is_prohibited_in_http3_type capsule_type capsule_type_code].
    cbn in Hm, Hl. rewrite (proj2 (Z.leb_gt _ _) Hl).
    eexists. split; [done|]. cbn. split_and!; try done. intros r'. destruct (remote_limits s) eqn:El.
    destruct r' as [[]|]; cbn; rewrite ?El; split; try done; case_decide; by simplify_eq.
Qed.

Lemma announcement_inj r r' c m m' : announcement r c = Some m -> announcement r' c = Some m' -> r = r' /\ m = m'.
Proof.
  destruct r as [[]|], r' as [[]|], c as [| | |[]| | |]; cbn; try done; by intros [= ->] [= ->].
Qed.

Lemma limit_bounds l w r : system_inv l w ->
  credit_used r (sender w) <= credit_limit r (sender w) <= announced r (receiver w) /\
  announced r (receiver w) <= U64_MAX.
Proof.
  intros (_ & _ & _ & _ & _ & _ & H). destruct (H r) as (Hok & _ & Hu & _ & Hr%rising_le).
  pose proof (receiver_window r _ Hok) as (_ & _ & _ & ? & _). lia.
Qed.

Lemma arrival_accepted l a r n fw b bw : system_inv l (mkSystem a ((r, n) :: fw) b bw) ->
  check_arrival r n b = true.
Proof.
  intros Hi. pose proof (limit_bounds _ _ r Hi) as [Hb _]. destruct Hi as (_ & _ & _ & He & Hfw & _ & H).
  apply Forall_cons in Hfw as [Hn Hfw]. destruct (H r) as (_ & _ & _ & Hus & _).
  pose proof (in_flight_nonneg r fw Hfw). cbn in Hb, Hus, He.
  apply check_arrival_ok; [done..|]. rewrite in_flight_cons, decide_True in Hus by done. lia.
Qed.

Lemma delivery_accepted l a fw b c bw : system_inv l (mkSystem a fw b (c :: bw)) ->
  exists r m, announcement r c = Some m /\ credit_limit r a < m <= window_cap r.
Proof.
  intros (_ & _ & _ & _ & _ & Hc & H). cbn in Hc. apply Forall_cons in Hc as [(r & m & Ha & Hm) _].
  exists r, m. split; [done|]. destruct (H r) as (_ & _ & _ & _ & Hr). cbn in Hr. rewrite Ha in Hr.
  destruct Hr as [? _]. done.
Qed.

Lemma use_inv l r n a a' fw b bw : units r n -> try_use r n a = (a', true) ->
  system_inv l (mkSystem a fw b bw) -> system_inv l (mkSystem a' (fw ++ [(r, n)]) b bw).
Proof.
  intros Hn Hu Hi. pose proof (limit_bounds _ _ r Hi) as [Hl Hm].
  destruct Hi as (Hs & He & Hs' & He' & Hfw & Hc & H). cbn in *.
  destruct (try_use_true r n a a' Hs He Hn) as (Hs2 & He2 & Hfit & Hcr); [apply H|lia|done|].
  split_and!; cbn; try done; [by apply Forall_app; split; [|by apply Forall_singleton]|].
  intros r'. destruct (H r') as (Hok & Hw & Hur & Hus & Hr). destruct (Hcr r') as [-> ->].
  rewrite in_flight_app. split_and!; try done; case_decide; subst; destruct r; cbn in *; lia.
Qed.

Lemma arrive_inv l r n a fw b bw : system_inv l (mkSystem a ((r, n) :: fw) b bw) ->
  system_inv l (mkSystem a fw (arrive r n b) bw).
Proof.
  intros Hi. pose proof (arrival_accepted _ _ _ _ _ _ _ Hi) as Hc.
  destruct Hi as (Hs & He & Hs' & He' & Hfw & Hcs & H). cbn in *. apply Forall_cons in Hfw as [Hn Hfw].
  destruct (arrive_ok r n b He' Hn Hc) as (Hs2 & He2 & Hp & Har); [intros; apply H|].
  split_and!; cbn; rewrite ?Hp; try done; [congruence|].
  intros r'. destruct (H r') as (Hok & Hw & Hur & Hus & Hr). destruct (Har r') as (? & -> & -> & ->).
  split_and!; try done; try lia. rewrite Hus, in_flight_cons. lia.
Qed.

Lemma finish_inv l r n a fw b bw : units r n -> finished r b + n <= arrived r b ->
  system_inv l (mkSystem a fw b bw) -> system_inv l (mkSystem a fw (finish r n b) bw).
Proof.
  intros Hn Hf (Hs & He & Hs' & He' & Hfw & Hcs & H). cbn in *.
  destruct (finish_ok r n b Hs' He' Hn Hf) as (Hs2 & He2 & Hok & Hp); [intros; apply H|].
  assert (forall r', receiver_ok r' (finish r n b) /\ window r' (finish r n b) = initial_limit r' l /\
    0 <= credit_used r' a <= credit_limit r' a /\
    credit_used r' a = arrived r' (finish r n b) + in_flight r' fw) as H'.
  { intros r'. destruct (H r') as (_ & Hw & ? & ? & _). destruct (Hok r') as (? & -> & ->). done. }
  split_and!; cbn; try done.
  - destruct Hp as [[-> _]|(c & m & -> & Hm & _ & Ha)]; [done|].
    rewrite app_assoc. apply Forall_app. split; [done|]. apply Forall_singleton. exists r, m.
    destruct (Ha r) as [-> _]. by rewrite decide_True.
  - intros r'. destruct (H' r') as (? & ? & ? & ?). split_and!; try done; try lia.
    destruct (H r') as (_ & _ & _ & _ & Hr). destruct Hp as [[-> ->]|(c & m & -> & _ & Hlt & Ha)]; [done|].
    destruct (Ha r') as [E ->]. rewrite app_assoc, omap_app. cbn. rewrite E.
    case_decide; subst; [by eapply rising_snoc|]. by rewrite app_nil_r.
Qed.

Lemma deliver_inv l c a a' fw b bw : process_capsule c a = (a', Ok ()) ->
  system_inv l (mkSystem a fw b (c :: bw)) -> system_inv l (mkSystem a' fw b bw).
Proof.
  intros Hp Hi. destruct (delivery_accepted _ _ _ _ _ _ Hi) as (r & m & Ha & Hlt & Hm).
  destruct Hi as (Hs & He & Hs' & He' & Hfw & Hcs & H). cbn in *.
  destruct (deliver_ok r m c a He Ha Hm Hlt) as (s' & Hp' & Hs2 & He2 & Hcr). rewrite Hp in Hp'. simplify_eq.
  apply Forall_cons in Hcs as [_ Hcs]. split_and!; cbn; try done; try congruence.
  intros r'. destruct (H r') as (? & ? & Hu & ? & Hr). destruct (Hcr r') as [-> ->]. cbn in Hr.
  case_decide as Hd.
  - subst r'. rewrite Ha in Hr. destruct Hr as [? Hr]. split_and!; try done; lia.
  - destruct (announcement r' c) as [m'|] eqn:Ea; [by destruct (announcement_inj _ _ _ _ _ Ha Ea); subst|]. done.
Qed.

Lemma system_step_inv l w w' : system_step w w' -> system_inv l w -> system_inv l w'.
Proof.
  destruct 1 as [r n a a' fw b bw Hn Hu|r n a a' fw b bw Hn Hu|r n a fw b bw Hc|r n a fw b bw Hn Hf
    |a fw b b' bw cs Ht|c a a' fw b bw Hp]; intros Hi.
  - by eapply use_inv.
  - destruct (try_use_false _ _ _ _ Hu) as (E1 & E2 & Hsame). destruct Hi as (Hs & He & Hs' & He' & Hfw & Hcs & H).
    cbn in *. split_and!; cbn; try done; try congruence.
    intros r'. destruct (Hsame r') as [-> ->]. apply H.
  - by apply arrive_inv.
  - by apply finish_inv.
  - unfold take_pending_capsules in Ht. simplify_eq. destruct Hi as (Hs & He & Hs' & He' & Hfw & Hcs & H). cbn in *.
    by split_and!; cbn; rewrite ?app_nil_r.
  - by eapply deliver_inv.
Qed.

Lemma system_reachable_inv id l w : limits_ok l -> rtc system_step (initial_system id l) w -> system_inv l w.
Proof.
  intros Hl H. assert (system_inv l (initial_system id l)) as Hi by by apply initial_system_inv.
  induction H as [w|w1 w2 w3 Hs _ IH]; [done|]. apply IH. by eapply system_step_inv.
Qed.

(** ** Properties *)

(** C29. Flow control works between the endpoints: however opening, sending, arriving,
    closing, consuming and announcing interleave, and whatever is still under way, the
    receiver never has to refuse a stream or data, and the sender never has to refuse an
    announced limit; what the sender has used stays within what it knows, that within what
    was announced, and the receiver never promises to hold more than its window beyond what
    it has finished with. When all capsules have been delivered, the limit that the sender
    knows is the one announced; when all streams and data have arrived, what the receiver
    has counted is what the sender has used. *)
Theorem flow_control_agreement id l w : limits_ok l -> rtc system_step (initial_system id l) w ->
  (forall r n fw, forward w = (r, n) :: fw -> check_arrival r n (receiver w) = true) /\
  (forall c bw, backward w = c :: bw -> exists a, process_capsule c (sender w) = (a, Ok ())) /\
  (forall r, credit_used r (sender w) <= credit_limit r (sender w) <= announced r (receiver w) /\
    announced r (receiver w) <= finished r (receiver w) + initial_limit r l /\
    arrived r (receiver w) - finished r (receiver w) <= initial_limit r l) /\
  (backward w = [] -> pending_capsules (receiver w) = [] -> forall r, credit_limit r (sender w) = announced r (receiver w)) /\
  (forward w = [] -> forall r, credit_used r (sender w) = arrived r (receiver w)).
Proof.
  intros Hl Hr. pose proof (system_reachable_inv id l w Hl Hr) as Hi. destruct w as [a fw b bw]. cbn. split_and!.
  - intros r n fw' ->. by eapply arrival_accepted.
  - intros c bw' ->. destruct (delivery_accepted _ _ _ _ _ _ Hi) as (r & m & Ha & Hlt & Hm).
    destruct (deliver_ok r m c a) as (s' & ? & _); [apply Hi|done..|]. by exists s'.
  - intros r. pose proof (limit_bounds _ _ r Hi) as [Hb _]. destruct Hi as (_ & _ & _ & _ & _ & _ & H).
    destruct (H r) as (Hok & Hw & _). cbn in Hok, Hw. pose proof (receiver_window r b Hok) as (_ & ? & ? & _). rewrite Hw in *.
    cbn in *. lia.
  - intros Hbw Hp r. destruct Hi as (_ & _ & _ & _ & _ & _ & H). destruct (H r) as (_ & _ & _ & _ & Hris). cbn in Hris.
    by rewrite Hbw, Hp in Hris.
  - intros Hfw r. destruct Hi as (_ & _ & _ & _ & _ & _ & H). destruct (H r) as (_ & _ & _ & Hus & _). cbn in Hus.
    rewrite Hfw, Z.add_0_r in Hus. done.
Qed.

(** C30. Flow control does not deadlock: once everything under way has arrived and everything
    that arrived is finished with, the sender may open another stream or send another byte,
    for every resource with a window, unless the limit stands at the largest there is. *)
Theorem flow_control_live id l w r : limits_ok l -> rtc system_step (initial_system id l) w ->
  0 < initial_limit r l -> forward w = [] -> backward w = [] -> pending_capsules (receiver w) = [] ->
  finished r (receiver w) = arrived r (receiver w) -> credit_limit r (sender w) < window_cap r ->
  exists a, try_use r 1 (sender w) = (a, true).
Proof.
  intros Hl Hr H0 Hfw Hbw Hp Hf Hcap. pose proof (system_reachable_inv id l w Hl Hr) as Hi.
  destruct Hi as (Hs & He & _ & _ & _ & _ & H). destruct (H r) as (Hok & Hw & Hu & Hus & Hris).
  pose proof (receiver_window r _ Hok) as (_ & _ & _ & _ & Hlive). rewrite Hw in Hlive.
  rewrite Hbw, Hp in Hris. cbn in Hris. rewrite Hfw in Hus. unfold in_flight in Hus. cbn in Hus.
  assert (credit_used r (sender w) < credit_limit r (sender w)) as Hroom by (destruct (Hlive H0 Hf); lia).
  destruct r as [b|]; cbn in Hroom |- *.
  - unfold try_open_stream. rewrite Hs, He. cbn [can_create_stream negb]. rewrite (proj2 (Z.ltb_lt _ _) Hroom). by eexists.
  - unfold try_send_data. rewrite Hs, He. cbn [session_can_send negb].
    rewrite (proj2 (Z.leb_le 1 _)) by (unfold saturating_sub; lia). by eexists.
Qed.

(** A run in which the window of one stream slides twice. *)
Definition sample_limits : FlowControlLimits := mkLimits 0 1 10.
Definition sample_sender (s : Session) : Session := fst (try_open_stream true s).
Definition sample_receiver (s : Session) : Session :=
  fst (take_pending_capsules (on_remote_stream_closed true (add_received_stream true s))).
Definition sample_system : system :=
  mkSystem (fst (process_capsule (MaxStreams true 2) (sample_sender (sender (initial_system 0 sample_limits))))) []
    (sample_receiver (receiver (initial_system 0 sample_limits))) [].

Lemma sample_system_reachable : rtc system_step (initial_system 0 sample_limits) sample_system.
Proof.
  eapply rtc_l; [by apply (sys_use (Streams true) 1)|]. eapply rtc_l; [by apply (sys_arrive (Streams true) 1)|].
  eapply rtc_l; [by apply (sys_finish (Streams true) 1)|]. eapply rtc_l; [apply (sys_flush _ _ _ (receiver sample_system) _ [MaxStreams true 2]); vm_compute; reflexivity|].
  eapply rtc_l; [apply (sys_deliver _ _ (sender sample_system)); vm_compute; reflexivity|]. apply rtc_refl.
Qed.

Lemma flow_control_agreement_witness :
  credit_limit (Streams true) (sender sample_system) = 2 /\
  credit_used (Streams true) (sender sample_system) <= credit_limit (Streams true) (sender sample_system) /\
  announced (Streams true) (receiver sample_system) = credit_limit (Streams true) (sender sample_system) /\
  arrived (Streams true) (receiver sample_system) = credit_used (Streams true) (sender sample_system).
Proof.
  destruct (flow_control_agreement 0 sample_limits sample_system) as (_ & _ & Hle & Hlim & Hused);
    [repeat split; discriminate|apply sample_system_reachable|].
  split; [reflexivity|]. split; [apply Hle|]. split; [symmetry; apply Hlim; reflexivity|symmetry; apply Hused; reflexivity].
Defined.

Lemma flow_control_live_witness : exists a, try_open_stream true (sender sample_system) = (a, true).
Proof.
  apply (flow_control_live 0 sample_limits sample_system (Streams true));
    [repeat split; discriminate|apply sample_system_reachable|reflexivity..].
Defined.
