(* ===== verification/SfParser.v ===== *)
(** webtransport/connect/sf_parser.rs: the subset of Structured Fields (RFC 9651) that
    carries the application protocols of a WebTransport session, and the writing of such
    fields by request.rs and response.rs.

    The [str] functions used there ([replace], [split], [trim]) come first; they are the
    standard library's, on the bytes of a well-formed string. *)

From Stdlib Require Import String Ascii.
From S2P Require Import Prelude Utf8 Header.

(** ** The standard library on strings *)

(** [s.replace(c, rep)] for an ASCII character [c]. *)
Definition replace1 (c : Z) (rep s : bytes) : bytes := concat (map (fun b => if b =? c then rep else [b]) s).

(** [s.replace("ab", rep)] for ASCII characters [a] and [b]: left to right, without overlap. *)
Fixpoint replace2 (a b : Z) (rep s : bytes) : bytes :=
  match s with
  | x :: r =>
    match r with
    | y :: r' => if (x =? a) && (y =? b) then rep ++ replace2 a b rep r' else x :: replace2 a b rep r
    | [] => s
    end
  | [] => []
  end.

(** [s.split(c)] for an ASCII character [c]: one piece more than there are separators. *)
Fixpoint split (c : Z) (s : bytes) : list bytes :=
  match s with
  | [] => [[]]
  | b :: r => if b =? c then [] :: split c r
              else match split c r with p :: ps => (b :: p) :: ps | [] => [[b]] end
  end.

(** [char::is_whitespace] on the encodings of one, two and three bytes. *)
Definition is_ws1 (b : Z) : bool := in_bytes 9 13 b || (b =? 32).
Definition is_ws2 (b c : Z) : bool := (b =? 0xc2) && ((c =? 0x85) || (c =? 0xa0)).
Definition is_ws3 (b c d : Z) : bool :=
  (b =? 0xe1) && (c =? 0x9a) && (d =? 0x80) ||
  (b =? 0xe2) && (c =? 0x80) && (in_bytes 0x80 0x8a d || (d =? 0xa8) || (d =? 0xa9) || (d =? 0xaf)) ||
  (b =? 0xe2) && (c =? 0x81) && (d =? 0x9f) ||
  (b =? 0xe3) && (c =? 0x80) && (d =? 0x80).

Fixpoint trim_start (s : bytes) : bytes :=
  match s with
  | b :: r =>
    if is_ws1 b then trim_start r
    else match r with
    | c :: r1 =>
      if is_ws2 b c then trim_start r1
      else match r1 with d :: r2 => if is_ws3 b c d then trim_start r2 else s | [] => s end
    | [] => s
    end
  | [] => []
  end.

(** [trim_end], on the reversed bytes *)
Fixpoint trim_rev (s : bytes) : bytes :=
  match s with
  | b :: r =>
    if is_ws1 b then trim_rev r
    else match r with
    | c :: r1 =>
      if is_ws2 c b then trim_rev r1
      else match r1 with d :: r2 => if is_ws3 d c b then trim_rev r2 else s | [] => s end
    | [] => s
    end
  | [] => []
  end.

Definition trim (s : bytes) : bytes := rev (trim_rev (rev (trim_start s))).

(** ** The parser *)

(** The scan of [strip_sf_parameters]: the bytes before the first semicolon outside a string. *)
Fixpoint strip_scan (in_string escaped : bool) (s : bytes) : bytes :=
  match s with
  | [] => []
  | b :: r =>
    if escaped then b :: strip_scan in_string false r
    else if b =? 34 then b :: strip_scan (negb in_string) false r
    else if (b =? 92) && in_string then b :: strip_scan in_string true r
    else if (b =? 59) && negb in_string then []
    else b :: strip_scan in_string false r
  end.
Definition strip_sf_parameters (value : bytes) : bytes := strip_scan false false value.

(** The three replacements of [parse_sf_item_string]. *)
Definition sf_unescape (inner : bytes) : bytes :=
  replace1 0 [92] (replace2 92 34 [34] (replace2 92 92 [0] inner)).

Definition starts_with_quote (s : bytes) : bool := match s with b :: _ => b =? 34 | [] => false end.
Definition ends_with_quote (s : bytes) : bool := starts_with_quote (rev s).

Definition parse_sf_item_string (value : bytes) : option bytes :=
  let value := trim (strip_sf_parameters (trim value)) in
  if starts_with_quote value && ends_with_quote value && (2 <=? len value)
  then Some (sf_unescape (take_z (len value - 2) (drop_z 1 value)))
  else None.

Definition MAX_SF_INPUT_LEN : Z := 8192.
Definition MAX_SF_ELEMENTS : Z := 256.

Definition is_control (b : Z) : bool := (b <? 0x20) || (b =? 0x7f).

(** The loop over the pieces; [None] is the early return of the empty list. *)
Fixpoint sf_items (result : list bytes) (items : list bytes) : option (list bytes) :=
  match items with
  | [] => Some result
  | item :: items =>
    if MAX_SF_ELEMENTS <=? len result then None
    else match trim item with
    | [] => sf_items result items
    | item => match parse_sf_item_string item with
              | Some s => sf_items (result ++ [s]) items
              | None => None
              end
    end
  end.

Definition parse_sf_list_strings (value : bytes) : list bytes :=
  if MAX_SF_INPUT_LEN <? len value then []
  else if existsb is_control value then []
  else match sf_items [] (split 44 value) with Some result => result | None => [] end.

(** ** Writing: [format!("\"{}\"", p.replace('\\', "\\\\").replace('"', "\\\""))] *)
Definition sf_escape (p : bytes) : bytes := replace1 34 [92; 34] (replace1 92 [92; 92] p).
Definition sf_string (p : bytes) : bytes := 34 :: sf_escape p ++ [34].

(** [.collect::<Vec<_>>().join(", ")] *)
Fixpoint join (sep : bytes) (l : list bytes) : bytes :=
  match l with
  | [] => []
  | [s] => s
  | s :: l => s ++ sep ++ join sep l
  end.
Definition sf_list (ps : list bytes) : bytes := join [44; 32] (map sf_string ps).

(** What a list of strings must satisfy to be read back. *)
Definition sf_readable (ps : list bytes) : Prop :=
  len (sf_list ps) <= MAX_SF_INPUT_LEN /\ len ps <= MAX_SF_ELEMENTS /\
  Forall (Forall (fun b => is_control b = false /\ b <> 44)) ps.

(** ** Escaping *)

(** Bytes that are no part of the quoting. *)
Definition plain_byte (b : Z) : Prop := b <> 34 /\ b <> 92.

Definition escape1 (b : Z) : bytes := if b =? 92 then [92; 92] else if b =? 34 then [92; 34] else [b].

Lemma sf_escape_cons b p : sf_escape (b :: p) = escape1 b ++ sf_escape p.
Proof.
  unfold sf_escape, replace1, escape1. cbn [map concat].
  rewrite map_app, concat_app. f_equal. destruct (Z.eqb_spec b 92) as [->|]; [done|].
  cbn. by destruct (b =? 34).
Qed.

Lemma sf_escape_app p q : sf_escape (p ++ q) = sf_escape p ++ sf_escape q.
Proof. induction p as [|b p IH]; [done|]. cbn [app]. by rewrite !sf_escape_cons, IH, app_assoc. Qed.

(** The three kinds of bytes *)
Ltac by_byte b :=
  destruct (Z.eq_dec b 92) as [-> | ?]; [|destruct (Z.eq_dec b 34) as [-> | ?]; [|
    assert (escape1 b = [b]) as Hesc
      by (unfold escape1; by rewrite (proj2 (Z.eqb_neq b 92)), (proj2 (Z.eqb_neq b 34)) by done)]].

Lemma replace2_skip a b rep x s : x <> a -> replace2 a b rep (x :: s) = x :: replace2 a b rep s.
Proof. intros H. destruct s as [|y s]; [done|]. cbn. by rewrite (proj2 (Z.eqb_neq x a)). Qed.

Lemma replace2_skip2 a b rep x y s : y <> b -> replace2 a b rep (x :: y :: s) = x :: replace2 a b rep (y :: s).
Proof. intros H. cbn. by rewrite (proj2 (Z.eqb_neq y b)), andb_false_r by done. Qed.
Lemma replace2_hit a b rep s : replace2 a b rep (a :: b :: s) = rep ++ replace2 a b rep s.
Proof. cbn. by rewrite !Z.eqb_refl. Qed.

Lemma unescape_step1 p : Forall (fun b => b <> 0) p ->
  replace2 92 34 [34] (replace2 92 92 [0] (sf_escape p)) = map (fun b => if b =? 92 then 0 else b) p.
Proof.
  induction 1 as [|b p Hb _ IH]; [done|]. rewrite sf_escape_cons. by_byte b.
  - change (escape1 92) with [92; 92]. cbn [app map]. rewrite replace2_hit. cbn [app].
    by rewrite replace2_skip, IH by done.
  - change (escape1 34) with [92; 34]. cbn [app map]. rewrite replace2_skip2, (replace2_skip _ _ _ 34), replace2_hit by done.
    cbn [app]. by rewrite IH.
  - rewrite Hesc. cbn [app map]. rewrite !replace2_skip by done. rewrite IH.
    by rewrite (proj2 (Z.eqb_neq b 92)).
Qed.

Lemma sf_unescape_escape p : Forall (fun b => b <> 0) p -> sf_unescape (sf_escape p) = p.
Proof.
  intros H. unfold sf_unescape. rewrite unescape_step1 by done. unfold replace1. rewrite map_map.
  induction H as [|b p Hb _ IH]; [done|]. cbn. rewrite IH.
  destruct (Z.eqb_spec b 92) as [->|]; [done|]. by rewrite (proj2 (Z.eqb_neq b 0)).
Qed.

Lemma strip_scan_escape p rest :
  strip_scan true false (sf_escape p ++ 34 :: rest) = sf_escape p ++ 34 :: strip_scan false false rest.
Proof.
  induction p as [|b p IH]; [done|]. rewrite sf_escape_cons, <- !app_assoc. by_byte b.
  - cbn. by rewrite IH.
  - cbn. by rewrite IH.
  - rewrite Hesc. cbn [app strip_scan].
    rewrite (proj2 (Z.eqb_neq b 34)), (proj2 (Z.eqb_neq b 92)) by done. cbn. rewrite andb_false_r. by rewrite IH.
Qed.

(** ** Trimming *)
Lemma ws1_plain b : is_ws1 b = true -> plain_byte b.
Proof. unfold is_ws1, in_bytes, plain_byte. intros. zify_bool. lia. Qed.
Lemma ws2_plain b c : is_ws2 b c = true -> plain_byte b /\ plain_byte c.
Proof. unfold is_ws2, plain_byte. intros. zify_bool. lia. Qed.
Lemma ws3_plain b c d : is_ws3 b c d = true -> plain_byte b /\ plain_byte c /\ plain_byte d.
Proof. unfold is_ws3, in_bytes, plain_byte. intros. zify_bool. lia. Qed.
#[local] Hint Resolve ws1_plain : core.

Lemma trim_start_split s : exists w, s = w ++ trim_start s /\ Forall plain_byte w.
Proof.
  induction s as [s IH] using (induction_ltof1 _ (@length Z)). unfold ltof in IH.
  destruct s as [|b r]; [by exists []|]. cbn [trim_start].
  destruct (is_ws1 b) eqn:E1.
  { destruct (IH r) as (w & Hw & Hp); [cbn; lia|]. exists (b :: w). split; [cbn; by f_equal|auto]. }
  destruct r as [|c r]; [by exists []|]. destruct (is_ws2 b c) eqn:E2.
  { apply ws2_plain in E2 as [? ?]. destruct (IH r) as (w & Hw & Hp); [cbn; lia|].
    exists (b :: c :: w). split; [cbn; by rewrite <- Hw|auto]. }
  destruct r as [|d r]; [by exists []|]. destruct (is_ws3 b c d) eqn:E3; [|by exists []].
  apply ws3_plain in E3 as (? & ? & ?). destruct (IH r) as (w & Hw & Hp); [cbn; lia|].
  exists (b :: c :: d :: w). split; [cbn; by rewrite <- Hw|auto].
Qed.

Lemma trim_rev_split s : exists w, s = w ++ trim_rev s /\ Forall plain_byte w.
Proof.
  induction s as [s IH] using (induction_ltof1 _ (@length Z)). unfold ltof in IH.
  destruct s as [|b r]; [by exists []|]. cbn [trim_rev].
  destruct (is_ws1 b) eqn:E1.
  { destruct (IH r) as (w & Hw & Hp); [cbn; lia|]. exists (b :: w). split; [cbn; by f_equal|auto]. }
  destruct r as [|c r]; [by exists []|]. destruct (is_ws2 c b) eqn:E2.
  { apply ws2_plain in E2 as [? ?]. destruct (IH r) as (w & Hw & Hp); [cbn; lia|].
    exists (b :: c :: w). split; [cbn; by rewrite <- Hw|auto]. }
  destruct r as [|d r]; [by exists []|]. destruct (is_ws3 d c b) eqn:E3; [|by exists []].
  apply ws3_plain in E3 as (? & ? & ?). destruct (IH r) as (w & Hw & Hp); [cbn; lia|].
  exists (b :: c :: d :: w). split; [cbn; by rewrite <- Hw|auto].
Qed.

(** Trimming removes no byte of the quoting. *)
Lemma trim_split s : exists w w', s = w ++ trim s ++ w' /\ Forall plain_byte w /\ Forall plain_byte w'.
Proof.
  destruct (trim_start_split s) as (w & Hw & Hp). destruct (trim_rev_split (rev (trim_start s))) as (w' & Hw' & Hp').
  exists w, (rev w'). split_and!; [|done|by apply List.Forall_rev]. unfold trim.
  apply (f_equal (@rev Z)) in Hw'. rewrite rev_involutive, rev_app_distr in Hw'. by rewrite <- Hw'.
Qed.

Lemma trim_start_quote s : trim_start (34 :: s) = 34 :: s.
Proof. destruct s as [|c [|d s]]; done. Qed.

Lemma trim_rev_quote s : trim_rev (34 :: s) = 34 :: s.
Proof.
  destruct s as [|c [|d s]]; [done|cbn; unfold is_ws2; by rewrite andb_false_r|].
  cbn. unfold is_ws2, is_ws3, in_bytes. by rewrite !andb_false_r.
Qed.

Lemma trim_sf_string p : trim (sf_string p) = sf_string p.
Proof.
  unfold trim, sf_string. rewrite trim_start_quote. change (34 :: sf_escape p ++ [34]) with ((34 :: sf_escape p) ++ [34]).
  rewrite rev_app_distr. cbn [rev app]. rewrite trim_rev_quote. cbn [rev]. by rewrite rev_app_distr, rev_involutive.
Qed.

Lemma trim_space s : trim (32 :: s) = trim s.
Proof. done. Qed.

(** A written string reads back, alone and with the blank of the list before it. *)
Lemma parse_sf_string p : Forall (fun b => b <> 0) p -> parse_sf_item_string (sf_string p) = Some p.
Proof.
  intros H. unfold parse_sf_item_string. rewrite trim_sf_string.
  assert (strip_sf_parameters (sf_string p) = sf_string p) as ->.
  { unfold strip_sf_parameters, sf_string. cbn [strip_scan]. cbn. by rewrite strip_scan_escape. }
  rewrite trim_sf_string. unfold sf_string at 1 2 3 4.
  assert (ends_with_quote (34 :: sf_escape p ++ [34]) = true) as ->.
  { unfold ends_with_quote. change (34 :: sf_escape p ++ [34]) with ((34 :: sf_escape p) ++ [34]). by rewrite rev_app_distr. }
  cbn [starts_with_quote]. rewrite (proj2 (Z.leb_le 2 _)) by zlen. cbn [andb Z.eqb Pos.eqb].
  unfold sf_string. change (drop_z 1 (34 :: ?x)) with x.
  rewrite take_z_app_eq by zlen. by rewrite sf_unescape_escape.
Qed.

(** A first unescaped quote can only be the last byte: no piece of this form is a string. *)
Definition only_closing (s : bytes) : Prop := forall w r, s = w ++ 34 :: r -> Forall plain_byte w -> r = [].

Lemma only_closing_escape p : only_closing (sf_escape p ++ [34]).
Proof.
  induction p as [|b p IH].
  - intros w r H _. apply (f_equal (@length Z)) in H. rewrite !length_app in H. cbn in H. destruct r; [done|cbn in H; lia].
  - intros [|x w] r H Hw; rewrite sf_escape_cons in H; by_byte b; try discriminate H.
    + rewrite Hesc in H. by simplify_eq/=.
    + apply Forall_cons in Hw as [[_ ?] _]. by simplify_eq/=.
    + apply Forall_cons in Hw as [[_ ?] _]. by simplify_eq/=.
    + rewrite Hesc in H. apply Forall_cons in Hw as [_ Hw]. simplify_eq/=. eapply IH; [done|exact Hw].
Qed.

Lemma only_closing_prefix s k : only_closing (s ++ k) -> only_closing s.
Proof.
  intros H w r -> Hw. rewrite <- app_assoc in H. specialize (H w (r ++ k) eq_refl Hw).
  by apply app_nil in H as [? _].
Qed.

Lemma only_closing_suffix w s : Forall plain_byte w -> only_closing (w ++ s) -> only_closing s.
Proof. intros Hw H w' r -> Hw'. apply (H (w ++ w')); [by rewrite <- app_assoc|]. by apply Forall_app. Qed.

Lemma only_closing_trim s : only_closing s -> only_closing (trim s).
Proof.
  destruct (trim_split s) as (w & w' & Hs & Hw & _). intros H. rewrite Hs in H.
  eapply only_closing_prefix, only_closing_suffix; [exact Hw|exact H].
Qed.

Lemma strip_scan_prefix i e s : exists k, s = strip_scan i e s ++ k.
Proof.
  revert i e; induction s as [|b s IH]; intros i e; [by exists []|]. cbn [strip_scan].
  repeat case_match; try (by exists (b :: s)); cbn; edestruct IH as [k Hk]; exists k; rewrite <- Hk; done.
Qed.

Lemma only_closing_refused s : only_closing s -> parse_sf_item_string s = None.
Proof.
  intros H. unfold parse_sf_item_string.
  assert (only_closing (trim (strip_sf_parameters (trim s)))) as Hc.
  { apply only_closing_trim. destruct (strip_scan_prefix false false (trim s)) as [k Hk].
    eapply only_closing_prefix. unfold strip_sf_parameters. rewrite <- Hk. by apply only_closing_trim. }
  destruct (trim (strip_sf_parameters (trim s))) as [|b r]; [done|]. cbn [starts_with_quote].
  destruct (Z.eqb_spec b 34) as [->|]; [|done].
  rewrite (Hc [] r eq_refl) by constructor. done.
Qed.

Lemma trim_keeps_quote s : 34 ∈ s -> trim s <> [].
Proof.
  intros H E. destruct (trim_split s) as (w & w' & Hs & Hw & Hw'). rewrite E in Hs. rewrite Hs in H. cbn in H.
  rewrite elem_of_app in H. rewrite !Forall_forall in *. destruct H as [H|H]; [by destruct (Hw _ H)|by destruct (Hw' _ H)].
Qed.

(** ** The list *)
Lemma split_app c s t : exists p ps, split c s = p :: ps /\
  (forall q qs, split c t = q :: qs -> exists l x, split c s = l ++ [x] /\ split c (s ++ t) = l ++ (x ++ q) :: qs).
Proof.
  induction s as [|b s (p & ps & Hs & IH)].
  - exists [], []. split; [done|]. intros q qs Hq. by exists [], [].
  - cbn [split app]. destruct (b =? c).
    + exists [], (split c s). split; [done|]. intros q qs Hq. destruct (IH q qs Hq) as (l & x & E1 & E2).
      exists ([] :: l), x. by rewrite E1, E2.
    + rewrite Hs. exists (b :: p), ps. split; [done|]. intros q qs Hq. destruct (IH q qs Hq) as (l & x & E1 & E2).
      rewrite E2. rewrite Hs in E1. destruct l as [|y l]; cbn in *; simplify_eq.
      * exists [], (b :: x). done.
      * exists ((b :: y) :: l), x. done.
Qed.

Lemma split_sep c s t : split c (s ++ c :: t) = split c s ++ split c t.
Proof.
  destruct (split_app c s (c :: t)) as (_ & _ & _ & H). destruct (H [] (split c t)) as (l & x & -> & ->).
  - cbn. by rewrite Z.eqb_refl.
  - by rewrite app_nil_r, <- app_assoc.
Qed.

Lemma split_none c s : Forall (fun b => b <> c) s -> split c s = [s].
Proof. induction 1 as [|b s Hb _ IH]; [done|]. cbn. by rewrite (proj2 (Z.eqb_neq b c)), IH. Qed.

Lemma escape_no_comma p : Forall (fun b => b <> 44) p -> Forall (fun b => b <> 44) (sf_escape p).
Proof.
  induction 1 as [|b p Hb _ IH]; [constructor|]. rewrite sf_escape_cons. apply Forall_app. split; [|done].
  by_byte b; [by repeat constructor..|]. rewrite Hesc. by constructor.
Qed.

Lemma sf_string_no_comma p : Forall (fun b => b <> 44) p -> Forall (fun b => b <> 44) (sf_string p).
Proof.
  intros H. unfold sf_string. constructor; [done|]. apply Forall_app. split; [by apply escape_no_comma|by repeat constructor].
Qed.

(** The pieces of a list without commas in its strings. *)
Lemma split_sf_list p ps : Forall (Forall (fun b => b <> 44)) (p :: ps) ->
  split 44 (sf_list (p :: ps)) = sf_string p :: map (fun q => 32 :: sf_string q) ps.
Proof.
  revert p; induction ps as [|q ps IH]; intros p [Hp Hps]%Forall_cons.
  - by apply (split_none 44 (sf_string p)), sf_string_no_comma.
  - change (sf_list (p :: q :: ps)) with (sf_string p ++ 44 :: 32 :: sf_list (q :: ps)).
    rewrite split_sep, split_none by by apply sf_string_no_comma. cbn [app map]. f_equal.
    change (split 44 (32 :: ?s)) with (match split 44 s with p :: ps => (32 :: p) :: ps | [] => [[32]] end).
    by rewrite IH.
Qed.

Lemma sf_item_step result items item p : trim item = sf_string p -> Forall (fun b => b <> 0) p ->
  len result < MAX_SF_ELEMENTS -> sf_items result (item :: items) = sf_items (result ++ [p]) items.
Proof.
  intros Hi Hp Hl. cbn [sf_items]. rewrite (proj2 (Z.leb_gt _ _)) by done. rewrite Hi.
  pose proof (parse_sf_string p Hp) as E. unfold sf_string in *. by rewrite E.
Qed.

Lemma sf_items_read items ps result :
  Forall2 (fun item p => trim item = sf_string p /\ Forall (fun b => b <> 0) p) items ps ->
  len result <= MAX_SF_ELEMENTS ->
  sf_items result items = if decide (len result + len ps <= MAX_SF_ELEMENTS) then Some (result ++ ps) else None.
Proof.
  intros H. revert result; induction H as [|item p items ps [Hi Hp] _ IH]; intros result Hl.
  - cbn [sf_items]. rewrite decide_True by (unfold MAX_SF_ELEMENTS in *; zlen). by rewrite app_nil_r.
  - destruct (Z.ltb_spec (len result) MAX_SF_ELEMENTS) as [Hlt|Hge].
    + rewrite (sf_item_step result items item p) by done. rewrite IH by (unfold MAX_SF_ELEMENTS in *; zlen).
      rewrite len_app, len_cons, len_nil, <- app_assoc. cbn [app].
      destruct (decide _), (decide _); try done; zlen.
    + cbn [sf_items]. rewrite (proj2 (Z.leb_le _ _)) by done. rewrite decide_False; [done|]. zlen.
Qed.

Lemma sf_items_refused result items item : item ∈ items -> only_closing item -> 34 ∈ item ->
  sf_items result items = None.
Proof.
  intros Hin Hc Hq. revert result; induction Hin as [item items|item i items _ IH]; intros result; cbn [sf_items].
  - destruct (_ <=? _); [done|]. pose proof (trim_keeps_quote item Hq) as Hne.
    pose proof (only_closing_refused _ (only_closing_trim _ Hc)) as Hr. destruct (trim item) as [|b r]; [done|].
    by rewrite Hr.
  - destruct (_ <=? _); [done|]. specialize (IH Hc Hq). destruct (trim i) as [|b r]; [apply IH|].
    destruct (parse_sf_item_string (b :: r)); [apply IH|done].
Qed.

(** The last comma of a string with commas. *)
Lemma last_comma p : Exists (fun b => b = 44) p ->
  exists p1 p2, p = p1 ++ 44 :: p2 /\ Forall (fun b => b <> 44) p2.
Proof.
  induction p as [|b p IH]; intros H; [by inversion H|].
  destruct (Exists_dec (fun b => b = 44) p) as [He|Hne].
  - destruct (IH He) as (p1 & p2 & -> & ?). by exists (b :: p1), p2.
  - apply Exists_cons in H as [->|?]; [|done]. exists [], p. split; [done|]. by apply Forall_Exists_neg.
Qed.

Lemma sf_list_elem p ps : p ∈ ps -> exists s t, sf_list ps = s ++ sf_string p ++ t /\ (t = [] \/ exists t', t = 44 :: t').
Proof.
  unfold sf_list. induction 1 as [p ps|p q ps Hin (s & t & IH & Ht)]; cbn [map join].
  - destruct (map sf_string ps) as [|x l] eqn:E; [exists [], []; rewrite app_nil_r; auto|].
    exists [], ([44; 32] ++ join [44; 32] (x :: l)). split; [done|]. right. by eexists.
  - destruct (map sf_string ps) as [|x l] eqn:E; [destruct ps; [by inversion Hin|done]|].
    exists (sf_string q ++ [44; 32] ++ s), t. rewrite IH. by rewrite <- !app_assoc.
Qed.

Lemma sf_list_comma_refused ps result : Exists (Exists (fun b => b = 44)) ps ->
  sf_items result (split 44 (sf_list ps)) = None.
Proof.
  intros (p & Hin & Hp)%List.Exists_exists. apply last_comma in Hp as (p1 & p2 & -> & Hp2).
  destruct (sf_list_elem _ _ (proj2 (list_elem_of_In ps (p1 ++ 44 :: p2)) Hin)) as (s & t & -> & Ht).
  apply (sf_items_refused _ _ (sf_escape p2 ++ [34])); [|apply only_closing_escape|set_solver].
  unfold sf_string. rewrite sf_escape_app, sf_escape_cons. change (escape1 44) with [44]. cbn [app].
  assert (Hn : Forall (fun b => b <> 44) (sf_escape p2 ++ [34])).
  { apply Forall_app; split; [by apply escape_no_comma|by repeat constructor]. }
  assert (s ++ 34 :: ((sf_escape p1 ++ 44 :: sf_escape p2) ++ [34]) ++ t =
          (s ++ 34 :: sf_escape p1) ++ 44 :: ((sf_escape p2 ++ [34]) ++ t)) as ->.
  { by rewrite <- !app_assoc. }
  rewrite split_sep. apply elem_of_app. right. destruct Ht as [-> | (t' & ->)].
  - rewrite app_nil_r, split_none by done. set_solver.
  - rewrite split_sep, split_none by done. set_solver.
Qed.

Lemma escape_no_control p : existsb is_control (sf_escape p) = existsb is_control p.
Proof.
  induction p as [|b p IH]; [done|]. rewrite sf_escape_cons, existsb_app, IH. cbn [existsb]. f_equal.
  by_byte b; [done..|]. rewrite Hesc. cbn. apply orb_false_r.
Qed.

Lemma sf_list_controls ps : existsb is_control (sf_list ps) = existsb (existsb is_control) ps.
Proof.
  unfold sf_list. induction ps as [|p ps IH]; [done|].
  assert (Hs : existsb is_control (sf_string p) = existsb is_control p).
  { unfold sf_string. cbn [existsb]. change (is_control 34) with false. rewrite existsb_app, escape_no_control. cbn.
    change (is_control 34) with false. by rewrite orb_false_r. }
  cbn [map join existsb]. destruct (map sf_string ps) as [|x l] eqn:E.
  - destruct ps; [|done]. cbn [existsb]. by rewrite Hs, orb_false_r.
  - rewrite !existsb_app, Hs, IH. done.
Qed.

Lemma no_controls_iff ps : existsb (existsb is_control) ps = false <-> Forall (Forall (fun b => is_control b = false)) ps.
Proof.
  rewrite <- not_true_iff_false, existsb_exists, List.Forall_forall. split.
  - intros H p Hp. apply List.Forall_forall. intros b Hb. apply not_true_iff_false. intros Hc. apply H.
    exists p. split; [done|]. apply existsb_exists. by exists b.
  - intros H (p & Hp & (b & Hb & Hc)%existsb_exists). specialize (H p Hp). rewrite List.Forall_forall in H.
    by rewrite H in Hc.
Qed.

(** What is written is again a well-formed string. *)
Lemma sf_escape_high c : Forall (fun x => 0x80 <= x) c -> sf_escape c = c.
Proof.
  induction 1 as [|b c Hb _ IH]; [done|]. rewrite sf_escape_cons, IH. by_byte b; [lia..|]. by rewrite Hesc.
Qed.

Lemma sf_escape_utf8 p : is_utf8 p = true -> is_utf8 (sf_escape p) = true.
Proof.
  intros H. pattern p. apply is_utf8_ind; [done| |done]. clear p H. intros c r Hc _ IH.
  rewrite sf_escape_app. destruct (utf8_char_bytes c Hc) as [(b & -> & Hb)|Hh].
  - rewrite sf_escape_cons. change (sf_escape []) with (@nil Z). rewrite app_nil_r. by_byte b; [done..|].
    rewrite Hesc. cbn. by rewrite (proj2 (Z.ltb_lt b 0x80)).
  - rewrite sf_escape_high by done. destruct Hc as (b & r0 & -> & _ & _ & _ & Hrest). by rewrite Hrest.
Qed.

Lemma sf_string_utf8 p : is_utf8 p = true -> is_utf8 (sf_string p) = true.
Proof.
  intros H. change (is_utf8 (sf_string p)) with (is_utf8 (sf_escape p ++ [34])).
  by rewrite is_utf8_app by by apply sf_escape_utf8.
Qed.

Lemma sf_list_utf8 ps : Forall (fun p => is_utf8 p = true) ps -> is_utf8 (sf_list ps) = true.
Proof.
  induction 1 as [|p ps Hp _ IH]; [done|]. destruct ps as [|q ps]; [by apply (sf_string_utf8 p)|].
  change (sf_list (p :: q :: ps)) with (sf_string p ++ 44 :: 32 :: sf_list (q :: ps)).
  rewrite is_utf8_app by by apply sf_string_utf8. exact IH.
Qed.

#[export] Instance sf_readable_dec ps : Decision (sf_readable ps).
Proof. unfold sf_readable. apply _. Defined.

Lemma sf_list_read ps : parse_sf_list_strings (sf_list ps) = if decide (sf_readable ps) then ps else [].
Proof.
  unfold parse_sf_list_strings. destruct (Z.ltb_spec MAX_SF_INPUT_LEN (len (sf_list ps))) as [Hl|Hl].
  { rewrite decide_False; [done|]. intros [? _]. lia. }
  rewrite sf_list_controls. destruct (existsb (existsb is_control) ps) eqn:Ec.
  { rewrite decide_False; [done|]. intros (_ & _ & H).
    assert (existsb (existsb is_control) ps = false) as E; [|by rewrite E in Ec].
    apply no_controls_iff. eapply Forall_impl; [exact H|]. intros p Hp. eapply Forall_impl; [exact Hp|]. by intros b [? _]. }
  apply no_controls_iff in Ec. destruct (Exists_dec (Exists (fun b => b = 44)) ps) as [He|Hne].
  { rewrite sf_list_comma_refused by done. rewrite decide_False; [done|]. intros (_ & _ & H).
    apply List.Exists_exists in He as (p & Hp & Hc). rewrite List.Forall_forall in H. specialize (H p Hp).
    apply List.Exists_exists in Hc as (b & Hb & ->). rewrite List.Forall_forall in H. by destruct (H 44 Hb). }
  apply Forall_Exists_neg in Hne.
  assert (Hc : Forall (Forall (fun b => b <> 44)) ps).
  { eapply Forall_impl; [exact Hne|]. intros p Hp. by apply Forall_Exists_neg in Hp. }
  destruct ps as [|p ps]; [by destruct (decide _)|]. rewrite split_sf_list by done.
  rewrite (sf_items_read _ (p :: ps)); [|..].
  - change (len [] + len (p :: ps)) with (len (p :: ps)). destruct (decide (len _ <= _)) as [Hn|Hn].
    + rewrite decide_True; [done|]. split_and!; [done..|].
      apply List.Forall_forall. intros q Hq. apply List.Forall_forall. intros b Hb.
      rewrite !List.Forall_forall in Hc, Ec. specialize (Hc q Hq). specialize (Ec q Hq).
      rewrite List.Forall_forall in Hc, Ec. auto.
    + rewrite decide_False; [done|]. by intros (_ & ? & _).
  - assert (Hz : Forall (Forall (fun b => b <> 0)) (p :: ps)).
    { eapply Forall_impl; [exact Ec|]. intros q Hq. eapply Forall_impl; [exact Hq|]. by intros b Hb ->. }
    apply Forall_cons in Hz as [Hz0 Hz]. constructor; [split; [apply trim_sf_string|done]|].
    apply Forall2_fmap_l, Forall_Forall2_diag. eapply Forall_impl; [exact Hz|]. intros q Hq. split; [|done].
    by rewrite trim_space, trim_sf_string.
  - rewrite len_nil. unfold MAX_SF_ELEMENTS. lia.
Qed.

(** C35. A list of application protocols written as a Structured Fields list is read back
    exactly when the field is within the length limit, the list within the limit on its
    elements, and no name holds a control character or a comma; in every other case the
    reader ignores the whole field. Quotes and backslashes in a name survive. A single
    string, as in the response, reads back whatever it holds besides a NUL, commas
    included: the list reader splits at commas without regard to the quotes. *)
Theorem sf_list_roundtrip ps :
  parse_sf_list_strings (sf_list ps) = (if decide (sf_readable ps) then ps else []) /\
  Forall (fun p => Forall (fun b => b <> 0) p -> parse_sf_item_string (sf_string p) = Some p) ps.
Proof. split; [apply sf_list_read|]. apply List.Forall_forall. intros p _. apply parse_sf_string. Qed.
