(* ===== verification/Connect.v ===== *)
(** webtransport/connect/: the extended CONNECT request and response of a WebTransport
    session (mod.rs, request.rs, response.rs) and the transport capabilities a session
    needs (connect_error.rs).

    A Rust [String] is the bytes of a well-formed UTF-8 string. *)

From Stdlib Require Import String Ascii.
From S2P Require Import Prelude Utf8 Integer Frame Error Header UriSyntax Settings Stream Validation SfParser.

(** ** Transport capabilities *)
Inductive CapabilityError :=
| MissingWebTransportSetting | MissingEnableConnectProtocol | MissingH3Datagram
| MissingQuicDatagram | MissingResetStreamAt.

Record TransportCapabilities := mkCapabilities {
  cap_wt_enabled : bool; cap_enable_connect_protocol : bool; cap_h3_datagram : bool;
  cap_max_datagram_frame_size : bool; cap_reset_stream_at : bool }.

Definition capabilities_new : TransportCapabilities := mkCapabilities false false false false false.

Definition validate_capabilities (c : TransportCapabilities) : result CapabilityError unit :=
  if negb (cap_wt_enabled c) then Err MissingWebTransportSetting
  else if negb (cap_enable_connect_protocol c) then Err MissingEnableConnectProtocol
  else if negb (cap_h3_datagram c) then Err MissingH3Datagram
  else if negb (cap_max_datagram_frame_size c) then Err MissingQuicDatagram
  else if negb (cap_reset_stream_at c) then Err MissingResetStreamAt
  else Ok ().

(** ** Protocol tokens *)
Inductive ConnectError :=
| InvalidScheme | MissingAuthority | MissingPath | InvalidMethod | InvalidProtocol | InvalidEncoding.

Definition PROTOCOL_WEBTRANSPORT_H3 : bytes := str "webtransport-h3".
Definition PROTOCOL_WEBTRANSPORT_DRAFT02 : bytes := str "webtransport".

Inductive ProtocolToken := WebTransportH3 | WebTransport.
#[export] Instance ProtocolToken_eq_dec : EqDecision ProtocolToken.
Proof. solve_decision. Defined.

Definition token_as_str (t : ProtocolToken) : bytes :=
  match t with WebTransportH3 => PROTOCOL_WEBTRANSPORT_H3 | WebTransport => PROTOCOL_WEBTRANSPORT_DRAFT02 end.

Definition token_from_bytes (value : bytes) : option ProtocolToken :=
  if bytes_eqb value PROTOCOL_WEBTRANSPORT_H3 then Some WebTransportH3
  else if bytes_eqb value PROTOCOL_WEBTRANSPORT_DRAFT02 then Some WebTransport
  else None.

Definition from_draft_version (version : DraftVersion) : ProtocolToken :=
  match version with Draft02 | Draft07 | Draft14 => WebTransport | Draft15 | Draft17 => WebTransportH3 end.

Definition protocol_value (version : DraftVersion) : bytes := token_as_str (from_draft_version version).

(** ** The request *)
Record ConnectRequest := mkConnectRequest {
  protocol_token : ProtocolToken; cr_scheme : bytes; cr_authority : bytes; cr_path : bytes;
  cr_origin : option bytes; cr_available_protocols : list bytes }.

Definition connect_request_new (scheme authority path : bytes) : ConnectRequest :=
  mkConnectRequest WebTransportH3 scheme authority path None [].
Definition draft_version (version : DraftVersion) (r : ConnectRequest) : ConnectRequest :=
  mkConnectRequest (from_draft_version version) (cr_scheme r) (cr_authority r) (cr_path r) (cr_origin r) (cr_available_protocols r).
Definition origin (o : bytes) (r : ConnectRequest) : ConnectRequest :=
  mkConnectRequest (protocol_token r) (cr_scheme r) (cr_authority r) (cr_path r) (Some o) (cr_available_protocols r).
Definition available_protocols (ps : list bytes) (r : ConnectRequest) : ConnectRequest :=
  mkConnectRequest (protocol_token r) (cr_scheme r) (cr_authority r) (cr_path r) (cr_origin r) ps.

(** The local variables of the loop of [from_headers]. *)
Record ConnectFields := mkConnectFields {
  cf_method : option bytes; cf_protocol : option bytes; cf_scheme : option bytes;
  cf_authority : option bytes; cf_path : option bytes; cf_origin : option bytes;
  cf_available_protocols : option bytes; seen_regular : bool }.

Definition no_connect_fields : ConnectFields := mkConnectFields None None None None None None None false.

(** [core::str::from_utf8(value).map_err(|_| InvalidEncoding)?.to_string()] *)
Definition utf8_string (value : bytes) : result ConnectError bytes :=
  if is_utf8 value then Ok value else Err InvalidEncoding.

(** [if field.is_some() { return Err(InvalidEncoding); }] *)
Definition absent (field : option bytes) : result ConnectError unit :=
  if is_some field then Err InvalidEncoding else Ok ().

(** [name.starts_with(b":")] *)
Definition is_pseudo_name (name : bytes) : bool := match name with c :: _ => c =? 58 | [] => false end.

Definition connect_field (f : ConnectFields) (name value : bytes) : result ConnectError ConnectFields :=
  let '(mkConnectFields m pr sc a p o ap seen) := f in
  let pseudo := is_pseudo_name name in
  if pseudo && seen then Err InvalidEncoding
  else
    let seen := seen || negb pseudo in
    if bytes_eqb name (str ":method") then
      _ ← absent m; Ok (mkConnectFields (Some value) pr sc a p o ap seen)
    else if bytes_eqb name (str ":protocol") then
      _ ← absent pr; Ok (mkConnectFields m (Some value) sc a p o ap seen)
    else if bytes_eqb name (str ":scheme") then
      _ ← absent sc; s ← utf8_string value; Ok (mkConnectFields m pr (Some s) a p o ap seen)
    else if bytes_eqb name (str ":authority") then
      _ ← absent a; s ← utf8_string value; Ok (mkConnectFields m pr sc (Some s) p o ap seen)
    else if bytes_eqb name (str ":path") then
      _ ← absent p; s ← utf8_string value; Ok (mkConnectFields m pr sc a (Some s) o ap seen)
    else if bytes_eqb name (str "origin") then
      s ← utf8_string value; Ok (mkConnectFields m pr sc a p (Some s) ap seen)
    else if bytes_eqb name (str "wt-available-protocols") then
      s ← utf8_string value; Ok (mkConnectFields m pr sc a p o (Some s) seen)
    else Ok (mkConnectFields m pr sc a p o ap seen).

Fixpoint connect_fields (f : ConnectFields) (headers : list (bytes * bytes)) : result ConnectError ConnectFields :=
  match headers with
  | [] => Ok f
  | (name, value) :: headers => f ← connect_field f name value; connect_fields f headers
  end.

Definition unwrap_or_default (o : option bytes) : bytes := match o with Some s => s | None => [] end.

Definition from_headers (headers : list (bytes * bytes)) : result ConnectError ConnectRequest :=
  f ← connect_fields no_connect_fields headers;
  _ ← (match cf_method f with
       | Some m => if bytes_eqb m (str "CONNECT") then Ok () else Err InvalidMethod
       | None => Err InvalidMethod
       end);
  token ← (match cf_protocol f with
           | Some p => ok_or (token_from_bytes p) InvalidProtocol
           | None => Err InvalidProtocol
           end);
  Ok (mkConnectRequest token (unwrap_or_default (cf_scheme f)) (unwrap_or_default (cf_authority f))
        (unwrap_or_default (cf_path f)) (cf_origin f)
        (match cf_available_protocols f with Some v => parse_sf_list_strings v | None => [] end)).

Definition connect_to_headers (r : ConnectRequest) : result HeaderError (list Header) :=
  h1 ← header_new (str ":method") (str "CONNECT");
  h2 ← header_new (str ":protocol") (token_as_str (protocol_token r));
  h3 ← header_new (str ":scheme") (cr_scheme r);
  h4 ← header_new (str ":authority") (cr_authority r);
  h5 ← header_new (str ":path") (cr_path r);
  o ← (match cr_origin r with
       | Some o => h ← header_new (str "origin") o; Ok [h]
       | None => Ok []
       end);
  ap ← (match cr_available_protocols r with
        | [] => Ok []
        | ps => h ← header_new (str "wt-available-protocols") (sf_list ps); Ok [h]
        end);
  Ok ([h1; h2; h3; h4; h5] ++ o ++ ap).

Definition validate_connect (r : ConnectRequest) : result ConnectError unit :=
  if negb (bytes_eqb (cr_scheme r) (str "https")) then Err InvalidScheme
  else if is_empty_bytes (cr_authority r) then Err MissingAuthority
  else if is_empty_bytes (cr_path r) then Err MissingPath
  else Ok ().

(** ** The response *)
Record ConnectResponse := mkConnectResponse { status : Z; selected_protocol : option bytes }.

Definition connect_response_new (status : Z) : ConnectResponse := mkConnectResponse status None.
Definition with_protocol (protocol : bytes) (r : ConnectResponse) : ConnectResponse :=
  mkConnectResponse (status r) (Some protocol).

(** [u16::to_string]: at most five decimal digits. *)
Fixpoint to_decimal (n : nat) (v : Z) : bytes :=
  match n with
  | O => []
  | S n => if v <? 10 then [48 + v] else to_decimal n (v / 10) ++ [48 + v mod 10]
  end.

Definition response_to_headers (r : ConnectResponse) : result HeaderError (list Header) :=
  h ← header_new (str ":status") (to_decimal 5 (status r));
  p ← (match selected_protocol r with
       | Some proto => h ← header_new (str "wt-protocol") (sf_string proto); Ok [h]
       | None => Ok []
       end);
  Ok (h :: p).

Definition is_success (r : ConnectResponse) : bool := status r / 100 =? 2.

Definition is_protocol_valid (r : ConnectResponse) (request : ConnectRequest) : bool :=
  match selected_protocol r with
  | None => bool_decide (cr_available_protocols request = [])
  | Some proto =>
    if bool_decide (cr_available_protocols request = []) then false
    else existsb (bytes_eqb proto) (cr_available_protocols request)
  end.

Definition parse_protocol (header_value : bytes) : option bytes := parse_sf_item_string header_value.

(** ** Specification *)

(** Every field of a request is a Rust string. *)
Definition request_strings (r : ConnectRequest) : Prop :=
  is_utf8 (cr_scheme r) = true /\ is_utf8 (cr_authority r) = true /\ is_utf8 (cr_path r) = true /\
  (forall o, cr_origin r = Some o -> is_utf8 o = true) /\
  Forall (fun p => is_utf8 p = true) (cr_available_protocols r).

(** What the server reads: everything, besides a protocol list it cannot read back. *)
Definition received_request (r : ConnectRequest) : ConnectRequest :=
  available_protocols (if decide (sf_readable (cr_available_protocols r)) then cr_available_protocols r else []) r.

(** The name and value pairs an event delivers. *)
Definition header_pairs (hs : list Header) : list (bytes * bytes) := map (fun h => (name h, value h)) hs.

(** The header lines of a request. *)
Definition request_lines (r : ConnectRequest) : list (bytes * bytes) :=
  [(str ":method", str "CONNECT"); (str ":protocol", token_as_str (protocol_token r)); (str ":scheme", cr_scheme r);
   (str ":authority", cr_authority r); (str ":path", cr_path r)] ++
  match cr_origin r with Some o => [(str "origin", o)] | None => [] end ++
  match cr_available_protocols r with [] => [] | ps => [(str "wt-available-protocols", sf_list ps)] end.

Definition header_of (nv : bytes * bytes) : Header := mkHeader (fst nv) (snd nv) false.

(** ** Lemmas *)
Lemma header_new_Ok n v h : header_new n v = Ok h <-> h = mkHeader n v false /\ header_grammar n v.
Proof.
  rewrite <- check_header_grammar. unfold header_new. destruct (check_header n v); [split; [done|by intros [_ ?]]|].
  split; [by intros [= <-]|by intros [-> _]].
Qed.

(** Building the headers of some lines, stopping at the first one that is refused. *)
Fixpoint header_lines (l : list (bytes * bytes)) : result HeaderError (list Header) :=
  match l with
  | [] => Ok []
  | (n, v) :: l => h ← header_new n v; hs ← header_lines l; Ok (h :: hs)
  end.

Lemma header_lines_Ok l : forall hs, header_lines l = Ok hs <->
  hs = map header_of l /\ Forall (fun nv => header_grammar (fst nv) (snd nv)) l.
Proof.
  induction l as [|[n v] l IH]; intros hs; cbn [header_lines map].
  - split; [intros [= <-]; split; [done|constructor]|by intros [-> _]].
  - rewrite Forall_cons. cbn [fst snd]. rewrite result_bind_Ok. split.
    + intros (h & [-> Hg]%header_new_Ok & (k & [-> Hk]%IH & [= <-])%result_bind_Ok). done.
    + intros (-> & Hg & Hk). exists (mkHeader n v false). split; [by apply header_new_Ok|].
      apply result_bind_Ok. exists (map header_of l). split; [by apply IH|done].
Qed.

Lemma connect_header_lines r : connect_to_headers r = header_lines (request_lines r).
Proof.
  unfold connect_to_headers, request_lines. cbn [app header_lines].
  destruct (header_new (str ":method") _); [|done]. cbn [mbind result_bind].
  destruct (header_new (str ":protocol") _); [|done]. cbn [mbind result_bind].
  destruct (header_new (str ":scheme") _); [|done]. cbn [mbind result_bind].
  destruct (header_new (str ":authority") _); [|done]. cbn [mbind result_bind].
  destruct (header_new (str ":path") _); [|done]. cbn [mbind result_bind].
  destruct (cr_origin r) as [o|]; cbn [app header_lines mbind result_bind].
  - destruct (header_new (str "origin") o); [|done]. cbn [mbind result_bind].
    destruct (cr_available_protocols r) as [|p ps]; [done|]. cbn [header_lines].
    by destruct (header_new (str "wt-available-protocols") (sf_list (p :: ps))).
  - destruct (cr_available_protocols r) as [|p ps]; [done|]. cbn [header_lines].
    by destruct (header_new (str "wt-available-protocols") (sf_list (p :: ps))).
Qed.

Lemma response_header_lines r : response_to_headers r = header_lines
  ((str ":status", to_decimal 5 (status r)) ::
   match selected_protocol r with Some p => [(str "wt-protocol", sf_string p)] | None => [] end).
Proof.
  unfold response_to_headers. cbn [header_lines]. destruct (header_new (str ":status") _); [|done].
  cbn [mbind result_bind]. destruct (selected_protocol r) as [p|]; [|done]. cbn [header_lines].
  by destruct (header_new (str "wt-protocol") (sf_string p)).
Qed.

Lemma header_pairs_of l : header_pairs (map header_of l) = l.
Proof. unfold header_pairs. rewrite map_map. rewrite <- (map_id l) at 2. by apply map_ext; intros [n v]. Qed.

Lemma token_round t : token_from_bytes (token_as_str t) = Some t.
Proof. by destruct t. Qed.

(** The reader takes each of the lines the request writes. *)
Definition request_fields_of (r : ConnectRequest) : ConnectFields :=
  mkConnectFields (Some (str "CONNECT")) (Some (token_as_str (protocol_token r))) (Some (cr_scheme r))
    (Some (cr_authority r)) (Some (cr_path r)) (cr_origin r)
    (match cr_available_protocols r with [] => None | ps => Some (sf_list ps) end)
    (bool_decide (is_Some (cr_origin r)) || negb (bool_decide (cr_available_protocols r = []))).

Ltac eval_names :=
  eval_eqb;
  repeat match goal with
  | |- context [is_pseudo_name (str ?a)] =>
    let v := eval vm_compute in (is_pseudo_name (str a)) in change (is_pseudo_name (str a)) with v
  end; cbv iota beta zeta.

Lemma connect_fields_request r : request_strings r ->
  connect_fields no_connect_fields (request_lines r) = Ok (request_fields_of r).
Proof.
  intros (Hsc & Ha & Hp & Ho & Hps%sf_list_utf8). destruct r as [t sc a p o ps].
  cbn [cr_scheme cr_authority cr_path cr_origin cr_available_protocols] in *.
  unfold request_lines, request_fields_of. cbn [protocol_token cr_scheme cr_authority cr_path cr_origin cr_available_protocols].
  unfold no_connect_fields. cbn [app connect_fields]. unfold connect_field, absent, utf8_string.
  rewrite Hsc, Ha, Hp.
  assert (match ps with [] => True | q :: qs => is_utf8 (sf_list (q :: qs)) = true end) as Hl by by destruct ps.
  destruct o as [o|]; destruct ps as [|q qs]; cbn [app connect_fields];
    unfold connect_field, absent, utf8_string; rewrite ?(Ho o eq_refl), ?Hl; eval_names; reflexivity.
Qed.

Lemma from_headers_request r : request_strings r -> from_headers (request_lines r) = Ok (received_request r).
Proof.
  intros H. unfold from_headers. rewrite connect_fields_request by done. unfold request_fields_of.
  cbn [mbind result_bind cf_method cf_protocol cf_scheme cf_authority cf_path cf_origin cf_available_protocols].
  change (bytes_eqb (str "CONNECT") (str "CONNECT")) with true. cbn [mbind result_bind].
  rewrite token_round. cbn [ok_or mbind result_bind unwrap_or_default]. f_equal. unfold received_request, available_protocols.
  f_equal. destruct (cr_available_protocols r) as [|p ps] eqn:E; [by destruct (decide _)|].
  apply (sf_list_read (p :: ps)).
Qed.

(** ** What the server's validation makes of a request *)
Lemma token_upgrade t : upgrade_token (token_as_str t).
Proof. apply is_valid_protocol_spec. by destruct t. Qed.

(** The two regular lines of a request. *)
Lemma connect_regular (n v : bytes) :
  n = str "origin" \/ n = str "wt-available-protocols" -> value_grammar v -> request_regular (header_of (n, v)).
Proof.
  intros Hn Hv. split; [split_and!|]; cbn [header_of name value fst snd].
  - apply is_valid_field_name_spec. by destruct Hn as [-> | ->].
  - done.
  - apply is_connection_specific_false. by destruct Hn as [-> | ->].
  - intros E. exfalso. destruct Hn as [-> | ->]; vm_compute in E; discriminate E.
Qed.

Lemma request_lines_loop r : Forall (fun nv => header_grammar (fst nv) (snd nv)) (request_lines r) ->
  exists d, request_loop no_fields (map header_of (request_lines r)) = Ok
    (mkFields (Some (str "CONNECT")) (Some (cr_scheme r)) (Some (cr_path r)) (Some (cr_authority r))
       (Some (token_as_str (protocol_token r))) None d).
Proof.
  intros H. destruct r as [t sc a p o ps].
  unfold request_lines in *. cbn [protocol_token cr_scheme cr_authority cr_path cr_origin cr_available_protocols] in *.
  set (tok := token_as_str t) in *. set (l := sf_list) in *. clearbody tok l. rewrite map_app.
  eexists. apply request_loop_spec. eexists _, _. split; [reflexivity|]. rewrite Forall_app in H. destruct H as [H5 Hr].
  split; [done|]. split; [|split; [|split; [|reflexivity]]].
  - rewrite !Forall_cons in H5. destruct H5 as ((_ & H1 & _) & (_ & H2 & _) & (_ & H3 & _) & (_ & H4 & _) & (_ & H5 & _) & _).
    cbn [map header_of fst snd]. rewrite !Forall_cons, Forall_nil. cbn [name value].
    repeat match goal with |- _ /\ _ => split end;
      first [assumption | exact I | cbn [header_of name fst]; unfold REQUEST_PSEUDO_HEADERS; rewrite !elem_of_cons; tauto].
  - apply Forall_app in Hr as [Ho Hps].
    rewrite map_app. apply Forall_app. split.
    + destruct o as [o|]; [|constructor]. apply Forall_cons in Ho as [(_ & Hv & _) _].
      constructor; [|constructor]. apply connect_regular; auto.
    + destruct ps as [|q qs]; [constructor|]. apply Forall_cons in Hps as [(_ & Hv & _) _].
      constructor; [|constructor]. apply connect_regular; auto.
  - unfold collects, REQUEST_NAMES, REQUEST_PSEUDO_HEADERS. cbn [app].
    repeat (apply Forall_cons; split); [..|by constructor];
      destruct o as [o|]; destruct ps as [|q qs]; vm_compute; reflexivity.
Qed.


Lemma request_lines_valid r : Forall (fun nv => header_grammar (fst nv) (snd nv)) (request_lines r) ->
  validate_request_headers (map header_of (request_lines r)) = Ok () <->
  path_grammar (str "CONNECT") (cr_path r) /\ authority_grammar (cr_authority r).
Proof.
  intros H. destruct (request_lines_loop r H) as [d Hl]. unfold validate_request_headers. rewrite Hl. cbn [mbind result_bind].
  match goal with |- check_request ?s = _ <-> _ => pose proof (check_request_spec s) as Hs end. cbn iota in Hs. rewrite Hs. clear Hs.
  unfold request_target, authority_rules, extended_connect, plain_connect, plain_request. split.
  - intros (m & [= <-] & _ & [[_ [(c & q & u & [= <-] & [= <-] & _ & _ & _ & Hp & _)|(_ & _ & ? & _)]]|[? _]] & (_ & _ & Ha)); try done.
    split; [done|]. destruct Ha as [[_ ?]|Ha]; [done|]. by apply Ha.
  - intros [Hp Ha]. exists (str "CONNECT"). split; [done|]. split; [by apply is_valid_method_spec|]. split.
    + left. split; [done|]. left. eexists _, _, _. do 3 (split; [reflexivity|]). split; [apply token_upgrade|].
      split; [|by split; [|left]].
      rewrite !Forall_forall in H. unfold request_lines in H.
      specialize (H (str ":scheme", cr_scheme r)). apply H; [|done]. set_solver.
    + split; [done|]. split; [done|]. right. by intros x [= <-].
Qed.

(** C34. A WebTransport CONNECT request that can be written at all is read back by the
    server with the same token, scheme, authority, path and origin, and with the same list
    of protocols whenever that list is readable (and with none otherwise), so that
    [validate] answers the same on both sides. The header section it writes passes the
    request validation of the server exactly if path and authority are well formed. *)
Theorem connect_request_roundtrip r hs : request_strings r -> connect_to_headers r = Ok hs ->
  from_headers (header_pairs hs) = Ok (received_request r) /\
  validate_connect (received_request r) = validate_connect r /\
  (validate_headers hs Server = Ok () <->
   path_grammar (str "CONNECT") (cr_path r) /\ authority_grammar (cr_authority r)).
Proof.
  rewrite connect_header_lines. intros Hr [-> Hg]%header_lines_Ok. rewrite header_pairs_of.
  split; [by apply from_headers_request|]. split; [done|]. by apply request_lines_valid.
Qed.

Definition sample_connect : ConnectRequest :=
  available_protocols [str "moq-00"; str "a\b"] (origin (str "https://example.com")
    (connect_request_new (str "https") (str "example.com:443") (str "/wt"))).

Lemma connect_request_roundtrip_witness :
  exists hs, connect_to_headers sample_connect = Ok hs /\ from_headers (header_pairs hs) = Ok sample_connect /\
    validate_headers hs Server = Ok ().
Proof.
  eexists. split; [vm_compute; reflexivity|]. split.
  - etransitivity; [apply (connect_request_roundtrip sample_connect)|]; [|vm_compute; reflexivity..].
    split_and!; try (vm_compute; reflexivity); [by intros o [= <-]|by repeat constructor].
  - vm_compute. reflexivity.
Defined.

(** ** The response *)
Lemma sf_string_no_nul p : value_grammar (sf_string p) -> Forall (fun b => b <> 0) p.
Proof.
  intros (Hb & _ & _). unfold sf_string in Hb. apply Forall_cons in Hb as [_ Hb]. apply Forall_app in Hb as [Hb _].
  induction p as [|b p IH]; [constructor|]. rewrite sf_escape_cons in Hb. apply Forall_app in Hb as [H1 H2].
  constructor; [|by apply IH]. intros E; subst b. apply Forall_inv in H1. destruct H1 as [H1|[H1|H1]]; discriminate H1.
Qed.

Lemma to_decimal_digits n v : 0 <= v -> digits (to_decimal n v).
Proof.
  revert v; induction n as [|n IH]; intros v Hv; [constructor|]. cbn [to_decimal].
  destruct (Z.ltb_spec v 10) as [Hlt|Hge].
  - constructor; [|constructor]. unfold is_digit, in_range. apply andb_true_iff. lia.
  - apply Forall_app. split; [apply IH; apply Z.div_pos; lia|]. constructor; [|constructor].
    pose proof (Z.mod_pos_bound v 10). unfold is_digit, in_range. apply andb_true_iff. lia.
Qed.

Lemma div10_lt v k : 0 <= v -> v / 10 < k <-> v < 10 * k.
Proof. intros Hv. split; intros; [pose proof (Z.mod_pos_bound v 10); pose proof (Z.div_mod v 10); lia|apply Z.div_lt_upper_bound; lia]. Qed.

Lemma to_decimal_one n v : 0 <= v < 10 -> to_decimal (S n) v = [48 + v].
Proof. intros. cbn [to_decimal]. by rewrite (proj2 (Z.ltb_lt v 10)) by lia. Qed.
Lemma to_decimal_more n v : 10 <= v -> to_decimal (S n) v = to_decimal n (v / 10) ++ [48 + v mod 10].
Proof. intros. cbn [to_decimal]. by rewrite (proj2 (Z.ltb_ge v 10)) by lia. Qed.

Lemma len_to_decimal_pos n v : 1 <= len (to_decimal (S n) v).
Proof. cbn [to_decimal]. destruct (v <? 10); [rewrite len_cons, len_nil; lia|zlen]. Qed.
Lemma to_decimal_three v : 0 <= v < 2 ^ 16 -> len (to_decimal 5 v) = 3 <-> 100 <= v <= 999.
Proof.
  intros Hv. assert (0 <= v / 10 /\ 0 <= v / 10 / 10) as [? ?] by (split; repeat apply Z.div_pos; lia).
  pose proof (div10_lt v 10). pose proof (div10_lt v 100). pose proof (div10_lt (v / 10) 10).
  destruct (Z.ltb_spec v 10) as [?|?]; [rewrite to_decimal_one, len_cons, len_nil; lia|].
  rewrite to_decimal_more, len_app, len_cons, len_nil by done.
  destruct (Z.ltb_spec (v / 10) 10); [rewrite to_decimal_one, len_cons, len_nil; lia|].
  rewrite to_decimal_more, len_app, len_cons, len_nil by done.
  destruct (Z.ltb_spec (v / 10 / 10) 10) as [Hlt|Hge].
  - rewrite to_decimal_one, len_cons, len_nil by lia. pose proof (div10_lt (v / 10) 100). lia.
  - rewrite to_decimal_more, len_app, len_cons, len_nil by done.
    pose proof (len_to_decimal_pos 1 (v / 10 / 10 / 10)). pose proof (div10_lt (v / 10) 100). lia.
Qed.

Lemma to_decimal_101 v : 100 <= v <= 999 -> to_decimal 5 v = str "101" -> v = 101.
Proof.
  intros Hv. assert (0 <= v / 10) by (apply Z.div_pos; lia). assert (0 <= v / 10 / 10) by (apply Z.div_pos; lia).
  pose proof (div10_lt v 10). pose proof (div10_lt v 100). pose proof (div10_lt (v / 10) 10).
  rewrite to_decimal_more by lia. rewrite to_decimal_more by lia. rewrite to_decimal_one by lia.
  intros [= E1 E2 E3]. pose proof (Z.div_mod v 10). pose proof (Z.div_mod (v / 10) 10). lia.
Qed.

(** A response that can be written has a three-digit status, and the client reads
    back the protocol it names, commas, quotes and backslashes included; its header section
    passes response validation unless the status is 101; it is a success exactly for a 2xx
    status; and the selection is accepted exactly if it is one of the protocols the request
    offered, or neither side names one. *)
Theorem connect_response_negotiates resp req hs : 0 <= status resp < 2 ^ 16 -> response_to_headers resp = Ok hs ->
  100 <= status resp <= 999 /\
  (is_success resp = true <-> 200 <= status resp <= 299) /\
  (validate_headers hs Client = Ok () <-> status resp <> 101) /\
  (forall p, selected_protocol resp = Some p ->
     exists v, (str "wt-protocol", v) ∈ header_pairs hs /\ parse_protocol v = Some p) /\
  (is_protocol_valid resp req = true <->
     match selected_protocol resp with
     | Some p => p ∈ cr_available_protocols req
     | None => cr_available_protocols req = []
     end).
Proof.
  rewrite response_header_lines. intros Hs [-> Hg]%header_lines_Ok. apply Forall_cons in Hg as [(_ & _ & Hst) Hp].
  cbn [fst snd] in Hst. destruct Hst as (_ & _ & Hst & _). destruct (Hst eq_refl) as [Hlen Hd]. clear Hst.
  apply to_decimal_three in Hlen as Hrange; [|done]. split; [done|]. split; [|split; [|split]].
  - unfold is_success. rewrite Z.eqb_eq. split; intros.
    + pose proof (Z.div_mod (status resp) 100). pose proof (Z.mod_pos_bound (status resp) 100). lia.
    + symmetry. apply (Z.div_unique _ _ _ (status resp - 200)); lia.
  - change (validate_headers ?l Client) with (validate_response_headers l). rewrite validate_response_Ok.
    unfold response_grammar. split.
    + intros (h & fs & [= <- <-] & _ & _ & _ & _ & H101) E. apply H101. cbn [value header_of fst snd]. by rewrite E.
    + intros Hne. eexists _, _. split; [reflexivity|]. cbn [header_of name value fst snd].
      split_and!; try done.
      * destruct (selected_protocol resp) as [p|]; [|constructor]. apply Forall_cons in Hp as [(_ & Hv & _) _].
        constructor; [|constructor]. split; [split; [|split]|]; cbn [header_of name value fst snd].
        -- by apply is_valid_field_name_spec.
        -- done.
        -- by apply is_connection_specific_false.
        -- intros E. vm_compute in E. discriminate E.
      * intros E. apply Hne. by apply to_decimal_101.
  - intros p E. rewrite E in *. apply Forall_cons in Hp as [(_ & Hv & _) _]. exists (sf_string p).
    rewrite header_pairs_of. split; [set_solver|]. by apply parse_sf_string, sf_string_no_nul.
  - unfold is_protocol_valid. destruct (selected_protocol resp) as [p|]; [|by rewrite bool_decide_eq_true].
    destruct (bool_decide_reflect (cr_available_protocols req = [])) as [->|Hne]; [set_solver|].
    rewrite existsb_exists. setoid_rewrite <- list_elem_of_In. setoid_rewrite bytes_eqb_eq. naive_solver.
Qed.

Lemma connect_response_negotiates_witness :
  exists hs, response_to_headers (with_protocol (str "a,b") (connect_response_new 200)) = Ok hs /\
    (str "wt-protocol", sf_string (str "a,b")) ∈ header_pairs hs /\ validate_headers hs Client = Ok ().
Proof.
  eexists. split; [vm_compute; reflexivity|]. split; [apply elem_of_cons; right; apply elem_of_cons; by left|].
  eapply (connect_response_negotiates (with_protocol (str "a,b") (connect_response_new 200)) sample_connect);
    [|vm_compute; reflexivity|]; cbn; lia.
Defined.
