(* ===== verification/Display.v ===== *)
(** The [Display] implementations: error.rs, varint.rs, settings.rs, frame/mod.rs,
    qpack/header.rs, webtransport/error.rs, webtransport/datagram.rs and
    webtransport/connect/mod.rs. What a message shows of the bytes of a peer is escaped and
    cut ([write_escaped]). Of the [Debug] implementations only the one that hides values is
    modelled, with the [Debug] of strings, which follows the tables of the Unicode
    standard, as a parameter. *)

From Stdlib Require Import String Ascii.
From S2P Require Import Prelude Codec Varint Integer Header Settings Frame Error Utf8 WtError Datagram Connect.

(** ** Numbers: [{}], [{:#x}] and [0x{:02x}] *)
Definition decimal (v : Z) : bytes := to_decimal 20 v.
Definition hex_digit (v : Z) : Z := if v <? 10 then 48 + v else 87 + v.
Fixpoint to_hex (n : nat) (v : Z) : bytes :=
  match n with
  | O => []
  | S n => if v <? 16 then [hex_digit v] else to_hex n (v / 16) ++ [hex_digit (v mod 16)]
  end.
Definition hex (v : Z) : bytes := str "0x" ++ to_hex 16 v.
Definition two_hex (b : Z) : bytes := [hex_digit (b / 16); hex_digit (b mod 16)].

(** ** Bytes of a peer *)
Definition BACKSLASH : Z := 92.
(** [std::ascii::escape_default]. *)
Definition escape_default (b : Z) : bytes :=
  if b =? 9 then [BACKSLASH; 116]
  else if b =? 13 then [BACKSLASH; 114]
  else if b =? 10 then [BACKSLASH; 110]
  else if (b =? 39) || (b =? 34) || (b =? BACKSLASH) then [BACKSLASH; b]
  else if (0x20 <=? b) && (b <=? 0x7e) then [b]
  else [BACKSLASH; 120] ++ two_hex b.

Definition MAX_DISPLAY_LEN : Z := 64.
Definition write_escaped (l : bytes) : bytes :=
  flat_map escape_default (take_z MAX_DISPLAY_LEN l) ++ (if MAX_DISPLAY_LEN <? len l then str "..." else []).

(** ** The errors *)
Definition display_header_error (e : HeaderError) : bytes :=
  match e with
  | EmptyFieldName => str "field name must not be empty"
  | UppercaseFieldName name => str "field name must be lowercase: " ++ write_escaped name
  | InvalidFieldNameByte name byte => str "field name contains invalid byte 0x" ++ two_hex byte ++ str ": " ++ write_escaped name
  | InvalidFieldValueByte name byte =>
    str "field value contains invalid byte 0x" ++ two_hex byte ++ str " (name: " ++ write_escaped name ++ str ")"
  | FieldValueLeadingOrTrailingWhitespace name =>
    str "field value must not start or end with whitespace (name: " ++ write_escaped name ++ str ")"
  | UnknownPseudoHeader name => str "unknown pseudo header: " ++ write_escaped name
  | InvalidPseudoHeaderValue name value =>
    str "invalid pseudo header value for " ++ write_escaped name ++ str ": " ++ write_escaped value
  end.

(** The value that is out of range. *)
Definition display_varint_error (value : Z) : bytes :=
  str "varint value " ++ decimal value ++ str " exceeds the maximum allowed by RFC 9000 Section 16 (2^62 - 1)".

Definition display_setting_error (e : SettingError) : bytes :=
  match e with
  | Http2OnlyId id => str "http/2 only settings id received: " ++ hex id
  | InvalidBooleanValue id value => str "boolean settings " ++ hex id ++ str " has invalid value " ++ decimal value
  | DuplicateId id => str "duplicate settings id: " ++ hex id
  end.

Definition display_frame_decode_error (e : FrameDecodeError) : bytes :=
  match e with
  | FrameBufferTooShort => str "buffer too short"
  | InvalidLength => str "invalid frame length"
  | InvalidSetting e => str "invalid settings parameter: " ++ display_setting_error e
  | Http2Frame t => str "http/2 frame not allowed: " ++ hex t
  | ServerPushNotSupported t => str "server push not supported: " ++ hex t
  end.

Definition display_unknown_frame_error (e : UnknownFrameError) : bytes :=
  match e with
  | KnownFrameType t => str "known HTTP/3 frame type " ++ hex t ++ str " cannot be wrapped in Frame::Unknown"
  | Http2OnlyFrameType t => str "HTTP/2-only frame type " ++ hex t ++ str " cannot be wrapped in Frame::Unknown"
  end.

Definition display_qpack_error (e : QpackError) : bytes :=
  match e with
  | BufferTooShort => str "buffer too short"
  | InvalidIndex idx => str "invalid index: " ++ decimal idx
  | InvalidHuffman => str "invalid huffman encoding"
  | DecodeFailed => str "decode failed"
  | DynamicTableDisabled => str "dynamic table disabled (max capacity is zero)"
  | CapacityExceeded => str "capacity exceeds maximum table capacity"
  end.

Definition display_error_code (c : ErrorCode) : bytes :=
  match c with
  | NoError => str "H3_NO_ERROR"
  | GeneralProtocolError => str "H3_GENERAL_PROTOCOL_ERROR"
  | InternalError => str "H3_INTERNAL_ERROR"
  | StreamCreationError => str "H3_STREAM_CREATION_ERROR"
  | ClosedCriticalStream => str "H3_CLOSED_CRITICAL_STREAM"
  | FrameUnexpected => str "H3_FRAME_UNEXPECTED"
  | FrameError => str "H3_FRAME_ERROR"
  | ExcessiveLoad => str "H3_EXCESSIVE_LOAD"
  | IdError => str "H3_ID_ERROR"
  | SettingsError => str "H3_SETTINGS_ERROR"
  | MissingSettings => str "H3_MISSING_SETTINGS"
  | RequestRejected => str "H3_REQUEST_REJECTED"
  | RequestCancelled => str "H3_REQUEST_CANCELLED"
  | RequestIncomplete => str "H3_REQUEST_INCOMPLETE"
  | MessageError => str "H3_MESSAGE_ERROR"
  | QpackDecompressionFailed => str "QPACK_DECOMPRESSION_FAILED"
  | QpackEncoderStreamError => str "QPACK_ENCODER_STREAM_ERROR"
  | QpackDecoderStreamError => str "QPACK_DECODER_STREAM_ERROR"
  | H3DatagramError => str "H3_DATAGRAM_ERROR"
  end.

Definition display_wt_setup_error (e : WtSetupError) : bytes :=
  match e with
  | PeerSettingsNotReceived => str "peer SETTINGS not received"
  | WebTransportNotEnabled => str "WebTransport not enabled by peer"
  | UnknownDraftVersion => str "no WebTransport draft version is negotiated"
  | EnableConnectProtocolMissing => str "ENABLE_CONNECT_PROTOCOL not set by peer"
  | H3DatagramNotEnabled => str "H3_DATAGRAM not enabled by peer"
  | TransportNotVerified => str "QUIC transport parameters not verified"
  | ResetStreamAtNotSupported => str "reset_stream_at transport parameter not supported"
  | ProtocolMismatch => str ":protocol does not match negotiated draft version"
  end.

Definition display_error (e : Error) : bytes :=
  match e with
  | ConnectionError code => str "connection error: " ++ display_error_code code
  | StreamError code => str "stream error: " ++ display_error_code code
  | StreamNotFound id => str "stream not found: " ++ decimal id
  | StreamClosed id => str "stream closed: " ++ decimal id
  | FrameDecode e => str "frame decode error: " ++ display_frame_decode_error e
  | Qpack e => str "qpack error: " ++ display_qpack_error e
  | WtSessionDraining id => str "webtransport session draining: " ++ decimal id
  | WtSetup e => str "webtransport setup error: " ++ display_wt_setup_error e
  end.

(** ** WebTransport *)
Definition wt_description (c : WtErrorCode) : bytes :=
  match c with
  | BufferedStreamRejected => str "WebTransport data stream rejected due to lack of associated session"
  | SessionGone => str "WebTransport data stream aborted because the associated session has been closed"
  | FlowControlError => str "WebTransport session aborted because a flow control error was encountered"
  | AlpnError => str "WebTransport ALPN negotiation failed"
  | RequirementsNotMet => str "WebTransport requirements not met: missing required SETTINGS or transport parameters"
  end.

(** The message of an application is shown as it is. *)
Definition display_wt_error (e : WtError) : bytes :=
  match e with
  | Protocol code => str "webtransport protocol error: " ++ wt_description code
  | Application code message =>
    str "webtransport application error: " ++ hex code ++ (match message with [] => [] | _ => str " (" ++ message ++ str ")" end)
  | UnknownCode code => str "webtransport unknown error: " ++ hex code
  end.

Definition display_datagram_decode_error (e : DatagramDecodeError) : bytes :=
  match e with
  | DatagramBufferTooShort => str "datagram buffer too short"
  | InvalidQuarterStreamId => str "invalid quarter stream id"
  end.

Definition quoted (s : bytes) : bytes := [34] ++ s ++ [34].
Definition display_connect_error (e : ConnectError) : bytes :=
  match e with
  | InvalidScheme => str ":scheme must be " ++ quoted (str "https")
  | MissingAuthority => str ":authority is required"
  | MissingPath => str ":path is required"
  | InvalidMethod => str ":method must be " ++ quoted (str "CONNECT")
  | InvalidProtocol =>
    str ":protocol must be " ++ quoted PROTOCOL_WEBTRANSPORT_H3 ++ str " or " ++ quoted PROTOCOL_WEBTRANSPORT_DRAFT02
  | InvalidEncoding => str "header value is not valid UTF-8"
  end.

Definition display_capability_error (e : CapabilityError) : bytes :=
  match e with
  | MissingWebTransportSetting => str "SETTINGS_WT_ENABLED with value of 1 is required"
  | MissingEnableConnectProtocol => str "SETTINGS_ENABLE_CONNECT_PROTOCOL with value 1 is required"
  | MissingH3Datagram => str "SETTINGS_H3_DATAGRAM with value 1 is required"
  | MissingQuicDatagram => str "max_datagram_frame_size transport parameter > 0 is required"
  | MissingResetStreamAt => str "reset_stream_at transport parameter is required"
  end.

(** ** [Debug] of a header; [debug_str] is that of the string [from_utf8_lossy] gives *)
Definition SENSITIVE_HEADER_NAMES : list bytes :=
  [str "authorization"; str "proxy-authorization"; str "cookie"; str "set-cookie"].
Definition is_sensitive_header_name (n : bytes) : bool := existsb (bytes_eqb n) SENSITIVE_HEADER_NAMES.
Definition debug_header (debug_str : bytes -> bytes) (h : Header) : bytes :=
  str "Header { name: " ++ debug_str (name h) ++
  str ", value: " ++ debug_str (if is_sensitive_header_name (name h) then str "<redacted>" else value h) ++
  str ", never_indexed: " ++ (if never_indexed h then str "true" else str "false") ++ str " }".

(** ** What a message can contain *)
Definition printable (b : Z) : Prop := 0x20 <= b <= 0x7e.
Definition message (n : Z) (l : bytes) : Prop := Forall printable l /\ len l <= n.

#[export] Instance printable_dec b : Decision (printable b).
Proof. unfold printable. apply _. Defined.
#[export] Instance message_dec n l : Decision (message n l).
Proof. unfold message. apply _. Defined.

Lemma message_app m n a b : message m a -> message n b -> message (m + n) (a ++ b).
Proof. intros [Ha Hla] [Hb Hlb]. split; [by apply Forall_app|]. rewrite len_app. lia. Qed.
Lemma message_weaken m n a : message m a -> m <= n -> message n a.
Proof. intros [Ha Hl] Hmn. split; [done|lia]. Qed.
(** A literal: checked by evaluation. *)
Ltac literal := apply (bool_decide_unpack _); vm_compute; exact I.

Lemma to_decimal_message n : forall v, 0 <= v -> message (Z.of_nat n) (to_decimal n v).
Proof.
  induction n as [|n IH]; intros v Hv; cbn [to_decimal]; [by split|]. destruct (Z.ltb_spec v 10).
  - split; [apply Forall_singleton; unfold printable; lia|]. change (len [48 + v]) with 1. lia.
  - apply (message_weaken (Z.of_nat n + 1)); [|lia]. apply message_app; [by apply IH, Z.div_pos|].
    pose proof (Z.mod_pos_bound v 10). split; [apply Forall_singleton; unfold printable; lia|done].
Qed.
Lemma hex_digit_printable v : 0 <= v < 16 -> printable (hex_digit v).
Proof. intros Hv. unfold hex_digit, printable. destruct (Z.ltb_spec v 10); lia. Qed.
Lemma to_hex_message n : forall v, 0 <= v -> message (Z.of_nat n) (to_hex n v).
Proof.
  induction n as [|n IH]; intros v Hv; cbn [to_hex]; [by split|]. destruct (Z.ltb_spec v 16).
  - split; [by apply Forall_singleton, hex_digit_printable|]. change (len [hex_digit v]) with 1. lia.
  - apply (message_weaken (Z.of_nat n + 1)); [|lia]. apply message_app; [by apply IH, Z.div_pos|].
    split; [|done]. apply Forall_singleton, hex_digit_printable, Z.mod_pos_bound. lia.
Qed.
Lemma decimal_message v : 0 <= v -> message 20 (decimal v).
Proof. apply (to_decimal_message 20). Qed.
Lemma hex_message v : 0 <= v -> message 18 (hex v).
Proof. intros Hv. apply (message_app 2 16); [literal|by apply (to_hex_message 16)]. Qed.
Lemma two_hex_message b : 0 <= b < 256 -> message 2 (two_hex b).
Proof.
  intros Hb. split; [|done]. repeat apply List.Forall_cons; [apply hex_digit_printable|apply hex_digit_printable|done].
  - split; [apply Z.div_pos; lia|apply Z.div_lt_upper_bound; lia].
  - by apply Z.mod_pos_bound.
Qed.

Lemma escape_message b : 0 <= b < 256 -> message 4 (escape_default b).
Proof.
  intros Hb. unfold escape_default. repeat case_match; try literal.
  - split; [|done]. repeat apply List.Forall_cons; [unfold printable, BACKSLASH in *; lia..|done].
  - split; [|done]. apply Forall_singleton. unfold printable. lia.
  - apply (message_app 2 2); [literal|by apply two_hex_message].
Qed.

Lemma flat_map_message l : bytes_ok l -> message (4 * len l) (flat_map escape_default l).
Proof.
  induction 1 as [|b l Hb _ IH]; [by split|]. cbn [flat_map]. rewrite len_cons.
  replace (4 * (1 + len l)) with (4 + 4 * len l) by lia. apply message_app; [by apply escape_message|done].
Qed.
Lemma write_escaped_message l : bytes_ok l -> message 259 (write_escaped l).
Proof.
  intros Hl. unfold write_escaped. apply (message_app 256 3).
  - eapply message_weaken; [apply flat_map_message|].
    + unfold take_z. by apply Forall_take.
    + unfold MAX_DISPLAY_LEN, take_z, len. rewrite length_take. lia.
  - case_match; literal.
Qed.

(** What the escaped bytes were. *)
Definition un_hex (d : Z) : Z := if d <? 58 then d - 48 else d - 87.
Definition unescape_letter (c : Z) : Z := if c =? 116 then 9 else if c =? 114 then 13 else if c =? 110 then 10 else c.
Fixpoint unescape (l : bytes) : bytes :=
  match l with
  | [] => []
  | b :: l =>
    if b =? BACKSLASH then
      match l with
      | [] => []
      | c :: l =>
        if c =? 120 then match l with h :: d :: l => 16 * un_hex h + un_hex d :: unescape l | _ => [] end
        else unescape_letter c :: unescape l
      end
    else b :: unescape l
  end.

Lemma un_hex_digit v : 0 <= v < 16 -> un_hex (hex_digit v) = v.
Proof. intros Hv. unfold un_hex, hex_digit. destruct (Z.ltb_spec v 10); [rewrite (proj2 (Z.ltb_lt _ _)) by lia|rewrite (proj2 (Z.ltb_ge _ _)) by lia]; lia. Qed.

Lemma unescape_escape b l : 0 <= b < 256 -> unescape (escape_default b ++ l) = b :: unescape l.
Proof.
  intros Hb. unfold escape_default.
  destruct (Z.eqb_spec b 9) as [->|]; [done|]. destruct (Z.eqb_spec b 13) as [->|]; [done|]. destruct (Z.eqb_spec b 10) as [->|]; [done|].
  destruct (Z.eqb_spec b 39) as [->|]; [done|]. destruct (Z.eqb_spec b 34) as [->|]; [done|].
  destruct (Z.eqb_spec b BACKSLASH) as [->|Hbs]; [done|]. cbn [orb]. destruct (_ && _).
  - cbn [app unescape]. by rewrite (proj2 (Z.eqb_neq _ _) Hbs).
  - unfold two_hex. cbn [app unescape]. change (BACKSLASH =? BACKSLASH) with true. change (120 =? 120) with true. cbn iota.
    rewrite !un_hex_digit; [by rewrite <- Z.div_mod|by apply Z.mod_pos_bound|].
    split; [apply Z.div_pos; lia|apply Z.div_lt_upper_bound; lia].
Qed.

Lemma unescape_written l : bytes_ok l -> len l <= MAX_DISPLAY_LEN -> unescape (write_escaped l) = l.
Proof.
  intros Hl Hlen. unfold write_escaped. rewrite (proj2 (Z.ltb_ge _ _)) by lia. rewrite app_nil_r. unfold take_z. rewrite take_ge by (unfold MAX_DISPLAY_LEN, len in *; lia).
  clear Hlen. induction Hl as [|b l Hb _ IH]; [done|]. cbn [flat_map]. by rewrite unescape_escape, IH.
Qed.

(** The bytes and numbers that an error carries. *)
Definition header_error_ok (e : HeaderError) : Prop :=
  match e with
  | EmptyFieldName => True
  | UppercaseFieldName name | FieldValueLeadingOrTrailingWhitespace name | UnknownPseudoHeader name => bytes_ok name
  | InvalidFieldNameByte name byte | InvalidFieldValueByte name byte => bytes_ok name /\ 0 <= byte < 256
  | InvalidPseudoHeaderValue name value => bytes_ok name /\ bytes_ok value
  end.
Definition setting_error_ok (e : SettingError) : Prop :=
  match e with
  | Http2OnlyId id | DuplicateId id => 0 <= id
  | InvalidBooleanValue id value => 0 <= id /\ 0 <= value
  end.
Definition error_ok (e : Error) : Prop :=
  match e with
  | StreamNotFound id | StreamClosed id | WtSessionDraining id => 0 <= id
  | FrameDecode (InvalidSetting e) => setting_error_ok e
  | FrameDecode (Http2Frame t) | FrameDecode (ServerPushNotSupported t) => 0 <= t
  | Qpack (InvalidIndex idx) => 0 <= idx
  | _ => True
  end.

(** A message put together from its parts. *)
Lemma literal_message l : forallb (fun b => bool_decide (printable b)) l = true -> message (len l) l.
Proof. intros Hl%forallb_Forall_true. split; [|done]. apply (Forall_impl _ _ _ Hl). by intros b ?%bool_decide_eq_true. Qed.
Ltac message_parts :=
  repeat match goal with
  | |- message _ (_ ++ _) => eapply message_app
  | |- message _ (write_escaped _) => by apply write_escaped_message
  | |- message _ (two_hex _) => by apply two_hex_message
  | |- message _ (decimal _) => by apply decimal_message
  | |- message _ (hex _) => by apply hex_message
  | |- message _ (str _) => apply literal_message; vm_compute; reflexivity
  end.
Ltac message_within := eapply message_weaken; [message_parts|vm_compute; discriminate].

Lemma header_error_message e : header_error_ok e -> message 600 (display_header_error e).
Proof. destruct e; cbn [header_error_ok display_header_error]; intros He; try (destruct_and! He); message_within. Qed.
Lemma setting_error_message e : setting_error_ok e -> message 80 (display_setting_error e).
Proof. destruct e; cbn [setting_error_ok display_setting_error]; intros He; try (destruct_and! He); message_within. Qed.
Lemma error_message e : error_ok e -> message 140 (display_error e).
Proof.
  destruct e as [c|c|id|id|e|e|id|e]; cbn [error_ok display_error]; intros He.
  - destruct c; cbn [display_error_code]; message_within.
  - destruct c; cbn [display_error_code]; message_within.
  - message_within.
  - message_within.
  - destruct e as [| |e| |]; cbn [display_frame_decode_error] in *; [message_within|message_within| |message_within|message_within].
    eapply message_weaken; [eapply message_app; [message_parts|eapply message_app; [message_parts|by apply setting_error_message]]|vm_compute; discriminate].
  - destruct e; cbn [display_qpack_error] in *; message_within.
  - message_within.
  - destruct e; cbn [display_wt_setup_error]; message_within.
Qed.

(** The header checks report a byte of what they were given. *)
Lemma check_name_bytes_ok l e : bytes_ok l -> check_name_bytes l = Some e ->
  match e with CInvalidFieldNameByte b | CInvalidFieldValueByte b => 0 <= b < 256 | _ => True end.
Proof.
  induction 1 as [|b l Hb _ IH]; cbn [check_name_bytes]; [done|].
  destruct (is_upper b); [by intros [= <-]|]. destruct (negb _); [by intros [= <-]|exact IH].
Qed.
Lemma check_value_bytes_ok l e : bytes_ok l -> check_value_bytes l = Some e ->
  match e with CInvalidFieldNameByte b | CInvalidFieldValueByte b => 0 <= b < 256 | _ => True end.
Proof.
  induction 1 as [|b l Hb _ IH]; cbn [check_value_bytes]; [done|].
  destruct (negb _); [by intros [= <-]|exact IH].
Qed.
Lemma check_pseudo_value_error n v e : check_pseudo_value n v = Some e -> e = CInvalidPseudoHeaderValue.
Proof. unfold check_pseudo_value, check_upgrade_token. repeat case_match; congruence. Qed.

Lemma header_new_error_ok n v e : bytes_ok n -> bytes_ok v -> header_new n v = Err e -> header_error_ok e.
Proof.
  intros Hn Hv. unfold header_new. destruct (check_header n v) as [k|] eqn:Ek; [|done]. intros [= <-].
  assert (match k with CInvalidFieldNameByte b | CInvalidFieldValueByte b => 0 <= b < 256 | _ => True end) as Hk.
  { revert Ek. unfold check_header. destruct n as [|c rest]; [by intros [= <-]|].
    pose proof Hn as [Hc Hrest]%Forall_cons. destruct (check_name_bytes _) as [k1|] eqn:E1.
    { intros [= <-]. apply check_name_bytes_ok in E1; [done|]. by destruct (c =? 58). }
    destruct (_ && _); [by intros [= <-]|]. destruct (_ && _); [by intros [= <-]|].
    destruct (check_value_bytes v) as [k1|] eqn:E2.
    { intros [= <-]. exact (check_value_bytes_ok _ _ Hv E2). }
    cbv zeta. destruct (match head v with Some _ => _ | None => _ end); [by intros [= <-]|].
    destruct (c =? 58); [|done]. by intros ->%check_pseudo_value_error. }
  destruct k; cbn [header_error header_error_ok]; auto.
Qed.

(** Nothing of a sensitive value is shown, not even whether it is the same. *)
Lemma debug_header_hides debug_str n v v' b : is_sensitive_header_name n = true ->
  debug_header debug_str (mkHeader n v b) = debug_header debug_str (mkHeader n v' b).
Proof. intros Hs. unfold debug_header. cbn [name value never_indexed]. by rewrite Hs. Qed.

(** ** Properties *)

(** A refused header can be logged: whatever bytes the name and the value have, the
    message is at most 600 printable ASCII characters, so that it has no control character
    and no end of line of the peer's making; it shows the name, and a name of at most 64
    bytes can be read off what is shown. *)
Theorem header_error_display n v e : bytes_ok n -> bytes_ok v -> header_new n v = Err e ->
  message 600 (display_header_error e) /\
  (n <> [] -> exists before after, display_header_error e = before ++ write_escaped n ++ after) /\
  (len n <= MAX_DISPLAY_LEN -> unescape (write_escaped n) = n).
Proof.
  intros Hn Hv He. split; [exact (header_error_message _ (header_new_error_ok _ _ _ Hn Hv He))|]. split; [|by apply unescape_written].
  intros Hne. revert He. unfold header_new. destruct (check_header n v) as [k|] eqn:Ek; [|done]. intros [= <-].
  assert (k <> CEmptyFieldName) as Hk.
  { intros ->. revert Ek. destruct n as [|c rest]; [done|]. unfold check_header.
    assert (forall l, check_name_bytes l <> Some CEmptyFieldName) as H1.
    { induction l as [|b l IH]; cbn [check_name_bytes]; [done|]. by repeat case_match. }
    assert (forall l, check_value_bytes l <> Some CEmptyFieldName) as H2.
    { induction l as [|b l IH]; cbn [check_value_bytes]; [done|]. by repeat case_match. }
    destruct (check_name_bytes _) as [k1|] eqn:E1; [intros [= ->]; exact (H1 _ E1)|].
    destruct (_ && _); [done|]. destruct (_ && _); [done|]. destruct (check_value_bytes v) as [k1|] eqn:E2; [intros [= ->]; exact (H2 _ E2)|].
    cbv zeta. destruct (match head v with Some _ => _ | None => _ end); [done|]. destruct (c =? 58); [|done]. intros Hp%check_pseudo_value_error; discriminate Hp. }
  destruct k as [| |b|b| | |]; try done; cbn [header_error display_header_error].
  - eexists _, []. by rewrite app_nil_r.
  - eexists (str "field name contains invalid byte 0x" ++ two_hex b ++ str ": "), []. by rewrite app_nil_r, <- !app_assoc.
  - eexists (str "field value contains invalid byte 0x" ++ two_hex b ++ str " (name: "), _. by rewrite <- !app_assoc.
  - by eexists _, _.
  - eexists _, []. by rewrite app_nil_r.
  - by eexists _, _.
Qed.

(** ** Witness: a name that tries to start a new line of the log *)
Lemma header_error_display_witness :
  header_new [120; 13; 10; 120] [] = Err (InvalidFieldNameByte [120; 13; 10; 120] 13) /\
  message 600 (display_header_error (InvalidFieldNameByte [120; 13; 10; 120] 13)) /\
  unescape (write_escaped [120; 13; 10; 120]) = [120; 13; 10; 120].
Proof.
  assert (bytes_ok [120; 13; 10; 120]) as Hb by (apply (bool_decide_unpack _); vm_compute; exact I).
  destruct (header_error_display [120; 13; 10; 120] [] _ Hb ltac:(constructor) eq_refl) as (H1 & _ & H2).
  split; [reflexivity|]. split; [exact H1|]. apply H2. vm_compute. discriminate.
Defined.
