(* ===== verification/Event.v ===== *)
(** event.rs: what a connection reports to its user. The constructors of
    [WebTransportEvent] carry the prefix [Wt], those of [Event] the prefix [Ev]; the
    [Debug] implementation, which hides sensitive header values, is left out. *)

From S2P Require Import Prelude Settings Capsule.

(** A stream to reset at the end of a session, and how many of its bytes stay reliable. *)
Record WtStreamReset := mkStreamReset { reset_stream_id : Z; reliable_size : Z }.

Inductive WebTransportEvent :=
| WtBidiStreamOpen (stream_id session_id : Z)
| WtBidiStreamData (stream_id : Z) (data : bytes)
| WtBidiStreamEnd (stream_id : Z)
| WtUniStreamOpen (stream_id session_id : Z)
| WtUniStreamData (stream_id : Z) (data : bytes)
| WtUniStreamEnd (stream_id : Z)
| WtSessionClosed (session_id : Z) (reset_streams : list WtStreamReset) (error_code close_error_code : Z)
    (close_message : bytes)
| WtSessionEstablished (session_id : Z) (flow_control_enabled : bool)
| WtSessionDraining (session_id : Z)
| WtCapsule (session_id : Z) (capsule : Capsule)
| WtDatagram (session_id : Z) (payload : bytes)
| WtStreamResetEvent (session_id stream_id error_code final_size : Z)
| WtStreamStopSending (session_id stream_id error_code : Z)
| WtBufferedStreamRejected (stream_id error_code : Z).

Definition wt_event_stream_id (e : WebTransportEvent) : option Z :=
  match e with
  | WtBidiStreamOpen stream_id _ | WtBidiStreamData stream_id _ | WtBidiStreamEnd stream_id
  | WtUniStreamOpen stream_id _ | WtUniStreamData stream_id _ | WtUniStreamEnd stream_id
  | WtStreamResetEvent _ stream_id _ _ | WtStreamStopSending _ stream_id _
  | WtBufferedStreamRejected stream_id _ => Some stream_id
  | WtSessionClosed session_id _ _ _ _ | WtSessionEstablished session_id _ | WtSessionDraining session_id
  | WtCapsule session_id _ | WtDatagram session_id _ => Some session_id
  end.

Inductive Event :=
| EvSettingsReceived (settings : Settings) (wt_settings : option WtSettings)
| EvHeadersBegin (stream_id : Z)
| EvHeader (stream_id : Z) (name value : bytes)
| EvHeadersEnd (stream_id : Z)
| EvData (stream_id : Z) (data : bytes)
| EvStreamEnd (stream_id : Z)
| EvStreamReset (stream_id error_code : Z)
| EvStopSending (stream_id error_code : Z)
| EvGoawayReceived (id : Z)
| EvWebTransport (e : WebTransportEvent).

(** [EvSettingsReceived] and [EvGoawayReceived] belong to no stream. *)
Definition event_stream_id (e : Event) : option Z :=
  match e with
  | EvHeadersBegin stream_id | EvHeader stream_id _ _ | EvHeadersEnd stream_id | EvData stream_id _
  | EvStreamEnd stream_id | EvStreamReset stream_id _ | EvStopSending stream_id _ => Some stream_id
  | EvWebTransport wt => wt_event_stream_id wt
  | EvSettingsReceived _ _ | EvGoawayReceived _ => None
  end.
