(* ===== verification/WtSession.v ===== *)
(** connection/wt_types.rs: what a connection keeps of each WebTransport session. The
    window arithmetic is that of [FlowControl]; the buffers hold what arrives before the
    session is established.

    Names carry the prefix [ws_] where [Session], the application's view of the same
    session, has them too. A [HashSet] is a [gset]. *)

From S2P Require Import Prelude Session FlowControl Settings Capsule.

(** Result of [associate_or_buffer_stream]. *)
Inductive AssocOutcome := AoEstablished | AoBuffered | AoBufferOverflow.
#[export] Instance AssocOutcome_eq_dec : EqDecision AssocOutcome.
Proof. solve_decision. Defined.

(** [MAX_BUFFERED_STREAMS] and [MAX_BUFFERED_DATAGRAMS] are those of the session module. *)
Definition WT_MAX_BUFFERED_STREAMS : Z := MAX_BUFFERED_STREAMS.
Definition WT_MAX_BUFFERED_DATAGRAMS : Z := MAX_BUFFERED_DATAGRAMS.
Definition WT_MAX_PENDING_SESSIONS : Z := 16.
Definition WT_MAX_BUFFERED_STREAM_BYTES : Z := 64 * 1024.

Record BufferedStreamEntry := mkEntry { be_is_bidi : bool; be_data : bytes; be_fin : bool }.
Definition entry_new (is_bidi : bool) : BufferedStreamEntry := mkEntry is_bidi [] false.

Inductive WtSessionState := WtPending | WtEstablished | WtDraining | WtClosed.
#[export] Instance WtSessionState_eq_dec : EqDecision WtSessionState.
Proof. solve_decision. Defined.

Record WtSession := mkWtSession {
  ws_state : WtSessionState;
  associated_streams : gset Z;
  ws_buffered_streams : list Z;
  buffered_stream_entries : gmap Z BufferedStreamEntry;
  ws_buffered_datagrams : list bytes;
  capsule_buf : bytes;
  ws_available_protocols : list bytes;
  ws_flow_control_enabled : bool;
  ws_recv_stream_fc_uni : option DirectionalStreamFlowControl;
  ws_recv_stream_fc_bidi : option DirectionalStreamFlowControl;
  ws_recv_data_fc : option DataFlowControl;
  stream_received_data : gmap Z Z;
  ws_pending_capsules : list Capsule }.

Definition ws_eta (s : WtSession) : WtSession :=
  mkWtSession (ws_state s) (associated_streams s) (ws_buffered_streams s) (buffered_stream_entries s)
    (ws_buffered_datagrams s) (capsule_buf s) (ws_available_protocols s) (ws_flow_control_enabled s)
    (ws_recv_stream_fc_uni s) (ws_recv_stream_fc_bidi s) (ws_recv_data_fc s) (stream_received_data s)
    (ws_pending_capsules s).

(** Assignments to the fields. *)
Definition set_ws_state (v : WtSessionState) : WtSession -> WtSession :=
  ltac:(assign_field ws_eta ws_state v).
Definition set_associated_streams (v : gset Z) : WtSession -> WtSession :=
  ltac:(assign_field ws_eta associated_streams v).
Definition set_ws_buffered_streams (v : list Z) : WtSession -> WtSession :=
  ltac:(assign_field ws_eta ws_buffered_streams v).
Definition set_buffered_stream_entries (v : gmap Z BufferedStreamEntry) : WtSession -> WtSession :=
  ltac:(assign_field ws_eta buffered_stream_entries v).
Definition set_ws_buffered_datagrams (v : list bytes) : WtSession -> WtSession :=
  ltac:(assign_field ws_eta ws_buffered_datagrams v).
Definition set_capsule_buf (v : bytes) : WtSession -> WtSession :=
  ltac:(assign_field ws_eta capsule_buf v).
Definition set_ws_available_protocols (v : list bytes) : WtSession -> WtSession :=
  ltac:(assign_field ws_eta ws_available_protocols v).
Definition set_ws_flow_control_enabled (v : bool) : WtSession -> WtSession :=
  ltac:(assign_field ws_eta ws_flow_control_enabled v).
Definition set_ws_recv_stream_fc_uni (v : option DirectionalStreamFlowControl) : WtSession -> WtSession :=
  ltac:(assign_field ws_eta ws_recv_stream_fc_uni v).
Definition set_ws_recv_stream_fc_bidi (v : option DirectionalStreamFlowControl) : WtSession -> WtSession :=
  ltac:(assign_field ws_eta ws_recv_stream_fc_bidi v).
Definition set_ws_recv_data_fc (v : option DataFlowControl) : WtSession -> WtSession :=
  ltac:(assign_field ws_eta ws_recv_data_fc v).
Definition set_stream_received_data (v : gmap Z Z) : WtSession -> WtSession :=
  ltac:(assign_field ws_eta stream_received_data v).
Definition set_ws_pending_capsules (v : list Capsule) : WtSession -> WtSession :=
  ltac:(assign_field ws_eta ws_pending_capsules v).

Definition wt_session_new : WtSession :=
  mkWtSession WtPending ∅ [] ∅ [] [] [] false None None None ∅ [].

(** ** Flow control *)
Definition push_capsule (c : Capsule) (s : WtSession) : WtSession :=
  set_ws_pending_capsules (ws_pending_capsules s ++ [c]) s.
Definition push_if (b : bool) (c : Capsule) (s : WtSession) : WtSession :=
  if b then push_capsule c s else s.

Definition initialize_flow_control (local_wt : WtSettings) (queue_initial_capsules : bool) (s : WtSession) : WtSession :=
  if negb (ws_flow_control_enabled s) then s
  else
    let uni := wt_initial_max_streams_uni local_wt in
    let bidi := wt_initial_max_streams_bidi local_wt in
    let data := wt_initial_max_data local_wt in
    let s := set_ws_recv_stream_fc_uni (Some (stream_fc_new uni)) s in
    let s := set_ws_recv_stream_fc_bidi (Some (stream_fc_new bidi)) s in
    let s := set_ws_recv_data_fc (Some (data_fc_new data)) s in
    if negb queue_initial_capsules then s
    else
      let s := push_if (0 <? bidi) (MaxStreams true bidi) s in
      let s := push_if (0 <? uni) (MaxStreams false uni) s in
      push_if (0 <? data) (MaxData data) s.

(** [is_none_or]. *)
Definition none_or {A} (f : A -> bool) (o : option A) : bool := match o with Some x => f x | None => true end.

Definition check_received_stream (bidirectional : bool) (s : WtSession) : bool :=
  if negb (ws_flow_control_enabled s) then true
  else none_or stream_fc_check_received
    (if bidirectional then ws_recv_stream_fc_bidi s else ws_recv_stream_fc_uni s).

Definition add_received_stream (bidirectional : bool) (s : WtSession) : WtSession :=
  if bidirectional then set_ws_recv_stream_fc_bidi (option_map on_stream_received (ws_recv_stream_fc_bidi s)) s
  else set_ws_recv_stream_fc_uni (option_map on_stream_received (ws_recv_stream_fc_uni s)) s.

Definition check_received_data (n : Z) (s : WtSession) : bool :=
  if negb (ws_flow_control_enabled s) then true
  else none_or (fun fc => data_fc_check_received fc n) (ws_recv_data_fc s).

Definition add_received_data (n : Z) (s : WtSession) : WtSession :=
  set_ws_recv_data_fc (option_map (fun fc => on_data_received fc n) (ws_recv_data_fc s)) s.

Definition announce (new_max : option Z) (c : Z -> Capsule) (s : WtSession) : WtSession :=
  match new_max with Some m => push_capsule (c m) s | None => s end.

Definition on_remote_stream_closed (bidirectional : bool) (s : WtSession) : WtSession :=
  if negb (ws_flow_control_enabled s) then s
  else
    match (if bidirectional then ws_recv_stream_fc_bidi s else ws_recv_stream_fc_uni s) with
    | None => s
    | Some fc =>
      let '(fc, new_max) := on_stream_closed fc in
      let s := if bidirectional then set_ws_recv_stream_fc_bidi (Some fc) s
               else set_ws_recv_stream_fc_uni (Some fc) s in
      announce new_max (MaxStreams bidirectional) s
    end.

Definition ws_on_data_consumed (n : Z) (s : WtSession) : WtSession :=
  if negb (ws_flow_control_enabled s) then s
  else
    match ws_recv_data_fc s with
    | None => s
    | Some fc =>
      let '(fc, new_max) := data_fc_on_data_consumed fc n in
      announce new_max MaxData (set_ws_recv_data_fc (Some fc) s)
    end.

Definition take_pending_capsules (s : WtSession) : WtSession * list Capsule :=
  (set_ws_pending_capsules [] s, ws_pending_capsules s).

Definition get_stream_received_data (stream_id : Z) (s : WtSession) : Z :=
  default 0 (stream_received_data s !! stream_id).
Definition add_stream_received_data (stream_id n : Z) (s : WtSession) : WtSession :=
  set_stream_received_data
    (<[stream_id := saturating_add (get_stream_received_data stream_id s) n]> (stream_received_data s)) s.
Definition add_received_data_and_track (stream_id n : Z) (s : WtSession) : WtSession :=
  add_stream_received_data stream_id n (add_received_data n s).
Definition remove_stream_received_data (stream_id : Z) (s : WtSession) : WtSession :=
  set_stream_received_data (delete stream_id (stream_received_data s)) s.

(** ** Streams and buffers *)
Definition associate_stream (stream_id : Z) (s : WtSession) : WtSession :=
  set_associated_streams (associated_streams s ∪ {[stream_id]}) s.
Definition disassociate_stream (stream_id : Z) (s : WtSession) : WtSession :=
  set_associated_streams (associated_streams s ∖ {[stream_id]}) s.

Definition put_entry (stream_id : Z) (e : BufferedStreamEntry) (s : WtSession) : WtSession :=
  set_buffered_stream_entries (<[stream_id := e]> (buffered_stream_entries s)) s.

Definition buffer_stream (stream_id : Z) (is_bidi : bool) (s : WtSession) : WtSession * bool :=
  if WT_MAX_BUFFERED_STREAMS <=? len (ws_buffered_streams s) then (s, false)
  else
    (put_entry stream_id (entry_new is_bidi) (set_ws_buffered_streams (ws_buffered_streams s ++ [stream_id]) s), true).

Definition append_buffered_stream_data (stream_id : Z) (data : bytes) (s : WtSession) : WtSession * bool :=
  match buffered_stream_entries s !! stream_id with
  | None => (s, false)
  | Some e =>
    if WT_MAX_BUFFERED_STREAM_BYTES <? saturating_add (len (be_data e)) (len data) then (s, false)
    else (put_entry stream_id (mkEntry (be_is_bidi e) (be_data e ++ data) (be_fin e)) s, true)
  end.

Definition mark_buffered_stream_fin (stream_id : Z) (s : WtSession) : WtSession :=
  match buffered_stream_entries s !! stream_id with
  | None => s
  | Some e => put_entry stream_id (mkEntry (be_is_bidi e) (be_data e) true) s
  end.

Definition take_buffered_streams (s : WtSession) : WtSession * list Z :=
  (set_ws_buffered_streams [] s, ws_buffered_streams s).

Definition take_buffered_stream_entry (stream_id : Z) (s : WtSession) : WtSession * option BufferedStreamEntry :=
  (set_buffered_stream_entries (delete stream_id (buffered_stream_entries s)) s,
   buffered_stream_entries s !! stream_id).

Definition remove_buffered_stream (stream_id : Z) (s : WtSession) : WtSession * bool :=
  let kept := filter (fun id => id <> stream_id) (ws_buffered_streams s) in
  let '(s, e) := take_buffered_stream_entry stream_id (set_ws_buffered_streams kept s) in
  (s, match e with Some _ => true | None => false end).

Definition restore_buffered_stream (stream_id : Z) (e : BufferedStreamEntry) (s : WtSession) : WtSession :=
  put_entry stream_id e (set_ws_buffered_streams (ws_buffered_streams s ++ [stream_id]) s).

Definition buffer_datagram (data : bytes) (s : WtSession) : WtSession * bool :=
  if WT_MAX_BUFFERED_DATAGRAMS <=? len (ws_buffered_datagrams s) then (s, false)
  else (set_ws_buffered_datagrams (ws_buffered_datagrams s ++ [data]) s, true).

Definition take_buffered_datagrams (s : WtSession) : WtSession * list bytes :=
  (set_ws_buffered_datagrams [] s, ws_buffered_datagrams s).

(** ** What is kept for a session that is not established *)

(** At most 100 streams of at most 64 KiB and 100 datagrams wait for a session. *)
Record session_wf (s : WtSession) : Prop := {
  nw_streams : len (ws_buffered_streams s) <= WT_MAX_BUFFERED_STREAMS;
  nw_listed : dom (buffered_stream_entries s) ⊆ list_to_set (ws_buffered_streams s);
  nw_entries : map_Forall (fun _ e => len (be_data e) <= WT_MAX_BUFFERED_STREAM_BYTES) (buffered_stream_entries s);
  nw_datagrams : len (ws_buffered_datagrams s) <= WT_MAX_BUFFERED_DATAGRAMS;
  nw_capsules : bytes_ok (capsule_buf s) }.


Ltac session_fields := split; cbn; try assumption.

(** The parts of a session that the invariant is about. *)
Definition same_buffers (s s' : WtSession) : Prop :=
  ws_buffered_streams s' = ws_buffered_streams s /\ buffered_stream_entries s' = buffered_stream_entries s /\
  ws_buffered_datagrams s' = ws_buffered_datagrams s /\ capsule_buf s' = capsule_buf s.

#[export] Instance same_buffers_preorder : PreOrder same_buffers.
Proof. split; [done|]. intros s1 s2 s3 (? & ? & ? & ?) (? & ? & ? & ?). unfold same_buffers. intuition congruence. Qed.

Lemma same_buffers_wf s s' : same_buffers s s' -> session_wf s -> session_wf s'.
Proof. intros (H1 & H2 & H3 & H4) []. split; by rewrite ?H1, ?H2, ?H3, ?H4. Qed.

Lemma wt_session_new_wf : session_wf wt_session_new.
Proof. split; cbn; try done; set_solver. Qed.

(** ** Flow control leaves the buffers alone *)
Section same.
Context (s : WtSession).

Lemma set_ws_state_same v : same_buffers s (set_ws_state v s).
Proof. done. Qed.
Lemma associate_stream_same id : same_buffers s (associate_stream id s).
Proof. done. Qed.
Lemma add_received_stream_same b : same_buffers s (add_received_stream b s).
Proof. by destruct b. Qed.
Lemma track_same id n : same_buffers s (add_received_data_and_track id n s).
Proof. done. Qed.
Lemma on_remote_stream_closed_same b : same_buffers s (on_remote_stream_closed b s).
Proof.
  unfold on_remote_stream_closed. destruct (ws_flow_control_enabled s); [|done]. cbn [negb].
  unfold announce. repeat case_match; done.
Qed.
Lemma ws_on_data_consumed_same n : same_buffers s (ws_on_data_consumed n s).
Proof.
  unfold ws_on_data_consumed. destruct (ws_flow_control_enabled s); [|done]. cbn [negb].
  unfold announce. repeat case_match; done.
Qed.
Lemma initialize_flow_control_same wt b : same_buffers s (initialize_flow_control wt b s).
Proof.
  unfold initialize_flow_control, push_if. repeat case_match; done.
Qed.
End same.

(** ** The buffers *)
Section buffers.
Context (s : WtSession) (Hs : session_wf s).

Lemma take_entry_wf id : session_wf (fst (take_buffered_stream_entry id s)).
Proof.
  destruct Hs. session_fields.
  - set_solver.
  - by apply map_Forall_delete.
Qed.

Lemma buffer_stream_wf id b : session_wf (fst (buffer_stream id b s)).
Proof.
  unfold buffer_stream. destruct Hs. case_z; [done|]. session_fields.
  - rewrite len_app, len_cons, len_nil. lia.
  - rewrite dom_insert_L, list_to_set_app_L. set_solver.
  - apply map_Forall_insert_2; [by vm_compute|done].
Qed.

Lemma put_entry_wf id e e' : buffered_stream_entries s !! id = Some e ->
  len (be_data e') <= WT_MAX_BUFFERED_STREAM_BYTES -> session_wf (put_entry id e' s).
Proof.
  intros He Hl. destruct Hs. session_fields.
  - assert (id ∈ dom (buffered_stream_entries s)) by (apply elem_of_dom; eauto).
    rewrite dom_insert_L. set_solver.
  - by apply map_Forall_insert_2.
Qed.

Lemma append_buffered_wf id data : session_wf (fst (append_buffered_stream_data id data s)).
Proof.
  unfold append_buffered_stream_data. case_match eqn:E; [|done]. case_z; [done|]. apply (put_entry_wf _ _ _ E).
  cbn. rewrite len_app. unfold saturating_add, U64_MAX, WT_MAX_BUFFERED_STREAM_BYTES in *. lia.
Qed.

Lemma mark_fin_wf id : session_wf (mark_buffered_stream_fin id s).
Proof.
  unfold mark_buffered_stream_fin. case_match eqn:E; [|done]. apply (put_entry_wf _ _ _ E).
  apply (nw_entries _ Hs _ _ E).
Qed.

Lemma remove_buffered_wf id : session_wf (fst (remove_buffered_stream id s)).
Proof.
  unfold remove_buffered_stream, take_buffered_stream_entry. destruct Hs. cbn. session_fields.
  - etrans; [|exact nw_streams0]. unfold len. apply inj_le, length_filter.
  - intros x. rewrite dom_delete_L, elem_of_list_to_set, list_elem_of_filter. set_solver.
  - by apply map_Forall_delete.
Qed.

Lemma buffer_datagram_wf d : session_wf (fst (buffer_datagram d s)).
Proof.
  unfold buffer_datagram. destruct Hs. case_z; [done|]. session_fields. rewrite len_app, len_cons, len_nil. lia.
Qed.

Lemma set_capsule_buf_wf b : bytes_ok b -> session_wf (set_capsule_buf b s).
Proof. intros. destruct Hs. by session_fields. Qed.
Lemma take_datagrams_wf : session_wf (fst (take_buffered_datagrams s)).
Proof. destruct Hs. session_fields. by vm_compute. Qed.
End buffers.

(** ** Only [set_ws_state] changes the state of a session, and only what establishes it
    turns its flow control on *)
Definition standing (s : WtSession) : WtSessionState * bool := (ws_state s, ws_flow_control_enabled s).
Section state.
Context (s : WtSession).
Ltac same_state := repeat (progress (cbn; try done; try case_match)).

Lemma associate_stream_state id : standing (associate_stream id s) = standing s.
Proof. done. Qed.
Lemma disassociate_stream_state id : standing (disassociate_stream id s) = standing s.
Proof. done. Qed.
Lemma add_received_stream_state b : standing (add_received_stream b s) = standing s.
Proof. by destruct b. Qed.
Lemma add_received_data_state n : standing (add_received_data n s) = standing s.
Proof. done. Qed.
Lemma track_state id n : standing (add_received_data_and_track id n s) = standing s.
Proof. done. Qed.
Lemma forget_data_state id : standing (remove_stream_received_data id s) = standing s.
Proof. done. Qed.
Lemma announce_state o f s0 : standing (announce o f s0) = standing s0.
Proof. unfold announce. same_state. Qed.
Lemma push_if_state b c : standing (push_if b c s) = standing s.
Proof. by destruct b. Qed.
Lemma restore_state id e : standing (restore_buffered_stream id e s) = standing s.
Proof. done. Qed.
Lemma mark_fin_state id : standing (mark_buffered_stream_fin id s) = standing s.
Proof. unfold mark_buffered_stream_fin. same_state. Qed.
Lemma append_buffered_state id data : standing (fst (append_buffered_stream_data id data s)) = standing s.
Proof. unfold append_buffered_stream_data. same_state. Qed.
Lemma buffer_stream_state id b : standing (fst (buffer_stream id b s)) = standing s.
Proof. unfold buffer_stream. same_state. Qed.
Lemma buffer_datagram_state d : standing (fst (buffer_datagram d s)) = standing s.
Proof. unfold buffer_datagram. same_state. Qed.
Lemma take_streams_state : standing (fst (take_buffered_streams s)) = standing s.
Proof. done. Qed.
Lemma take_entry_state id : standing (fst (take_buffered_stream_entry id s)) = standing s.
Proof. done. Qed.
Lemma take_datagrams_state : standing (fst (take_buffered_datagrams s)) = standing s.
Proof. done. Qed.
Lemma remove_buffered_state id : standing (fst (remove_buffered_stream id s)) = standing s.
Proof. done. Qed.
Lemma on_remote_stream_closed_state b : standing (on_remote_stream_closed b s) = standing s.
Proof.
  unfold on_remote_stream_closed. destruct (negb _); [done|]. destruct b; (case_match; [|done]); destruct (on_stream_closed _);
    by rewrite announce_state.
Qed.
Lemma ws_on_data_consumed_state n : standing (ws_on_data_consumed n s) = standing s.
Proof.
  unfold ws_on_data_consumed. destruct (negb _); [done|]. case_match; [|done]. destruct (data_fc_on_data_consumed _ _).
  by rewrite announce_state.
Qed.
Lemma initialize_state wt b : standing (initialize_flow_control wt b s) = standing s.
Proof. unfold initialize_flow_control. destruct (negb _); [done|]. destruct (negb b); [done|]. by repeat destruct (0 <? _). Qed.
End state.
Create HintDb session_state discriminated.
#[export] Hint Rewrite associate_stream_state disassociate_stream_state add_received_stream_state add_received_data_state
  track_state forget_data_state restore_state mark_fin_state append_buffered_state buffer_stream_state buffer_datagram_state
  take_streams_state take_entry_state take_datagrams_state remove_buffered_state on_remote_stream_closed_state
  ws_on_data_consumed_state : session_state.
