(* ===== verification/Connection.v ===== *)
(** connection/mod.rs: the state of a connection, the effects of its methods, and its
    construction and set-up.

    A method that can fail is an [action]: it takes the connection, and returns the
    connection afterwards with a [result], so that what it changed before an error stays
    changed, as in the source. The outer [None] is a panic, or fuel that ran out.

    The two [HashMap]s and sets of stream ids are [gmap]s and [gset]s; where the source
    goes over one in no particular order, the model takes the order of [map_to_list].
    [blocked_by_ricnt] is a [BTreeSet], gone over in ascending order. *)

From Stdlib Require Import String Ascii.
From stdpp Require Import sorting.
From S2P Require Import Prelude Codec Varint Integer Utf8 Header Settings Frame Error Stream DynamicTable EncoderStream DecoderStream QpackEncoder QpackDecoder ControlStream RequestStream Validation Capsule Event WtSession.

(** What [init_h3_streams] returns. *)
Record H3InitData := mkInitData {
  init_control_stream_id : Z; control_data : bytes;
  init_encoder_stream_id : Z; encoder_data : bytes;
  init_decoder_stream_id : Z; decoder_data : bytes }.

Record PendingWtBidiPreNegotiation := mkPendingBidi { pb_data : bytes; pb_fin : bool }.

Record Connection := mkConnection {
  role : Role;
  local_settings : Settings;
  peer_settings : option Settings;
  limits : Limits;
  control_send : ControlStreamSend;
  control_recv : ControlStreamRecv;
  streams : gmap Z RequestStream;
  next_stream_id : Z;
  qpack_encoder : DynamicEncoder;
  qpack_dynamic_decoder : DynamicDecoder;
  encoder_stream : EncoderStream;
  encoder_stream_id : option Z;
  decoder_stream : bytes;
  decoder_stream_id : option Z;
  encoder_stream_recv : EncoderStreamReceiver;
  peer_encoder_stream_id : option Z;
  decoder_stream_recv : DecoderStreamReceiver;
  peer_decoder_stream_id : option Z;
  events : list Event;
  error : option Error;
  peer_goaway_last_id : option Z;
  last_sent_goaway_id : option Z;
  max_push_id : option Z;
  blocked_by_ricnt : gset (Z * Z);
  ignored_uni_streams : gset Z;
  pending_uni_streams : gmap Z bytes;
  wt_uni_streams : gmap Z Z;
  pending_wt_uni_streams : gmap Z bytes;
  wt_bidi_streams : gmap Z Z;
  pending_wt_bidi_streams : gmap Z bytes;
  pending_bidi_dispatch : gmap Z bytes;
  wt_sessions : gmap Z WtSession;
  closed_wt_sessions : gset Z;
  wt_transport_verified : bool;
  previous_wt_settings : option WtSettings;
  wt_reset_stream_at_supported : bool;
  deferred_encoder_set_capacity : option Z;
  deferred_section_acks : list Z;
  deferred_stream_cancellations : list Z;
  deferred_wt_connects : gmap Z (list Header);
  pending_wt_bidi_pre_negotiation : gmap Z PendingWtBidiPreNegotiation;
  ignored_pre_negotiation_wt_bidi : gset Z }.

Definition conn_eta (c : Connection) : Connection :=
  mkConnection
    (role c) (local_settings c) (peer_settings c) (limits c) (control_send c) (control_recv c)
    (streams c) (next_stream_id c) (qpack_encoder c) (qpack_dynamic_decoder c) (encoder_stream c)
    (encoder_stream_id c) (decoder_stream c) (decoder_stream_id c) (encoder_stream_recv c)
    (peer_encoder_stream_id c) (decoder_stream_recv c) (peer_decoder_stream_id c) (events c) (error c)
    (peer_goaway_last_id c) (last_sent_goaway_id c) (max_push_id c) (blocked_by_ricnt c)
    (ignored_uni_streams c) (pending_uni_streams c) (wt_uni_streams c) (pending_wt_uni_streams c)
    (wt_bidi_streams c) (pending_wt_bidi_streams c) (pending_bidi_dispatch c) (wt_sessions c)
    (closed_wt_sessions c) (wt_transport_verified c) (previous_wt_settings c)
    (wt_reset_stream_at_supported c) (deferred_encoder_set_capacity c) (deferred_section_acks c)
    (deferred_stream_cancellations c) (deferred_wt_connects c) (pending_wt_bidi_pre_negotiation c)
    (ignored_pre_negotiation_wt_bidi c).

(** Assignments to the fields; those without one never change. *)
Definition set_peer_settings (v : option Settings) : Connection -> Connection :=
  ltac:(assign_field conn_eta peer_settings v).
Definition set_limits (v : Limits) : Connection -> Connection :=
  ltac:(assign_field conn_eta limits v).
Definition set_control_send (v : ControlStreamSend) : Connection -> Connection :=
  ltac:(assign_field conn_eta control_send v).
Definition set_control_recv (v : ControlStreamRecv) : Connection -> Connection :=
  ltac:(assign_field conn_eta control_recv v).
Definition set_streams (v : gmap Z RequestStream) : Connection -> Connection :=
  ltac:(assign_field conn_eta streams v).
Definition set_next_stream_id (v : Z) : Connection -> Connection :=
  ltac:(assign_field conn_eta next_stream_id v).
Definition set_qpack_encoder (v : DynamicEncoder) : Connection -> Connection :=
  ltac:(assign_field conn_eta qpack_encoder v).
Definition set_qpack_dynamic_decoder (v : DynamicDecoder) : Connection -> Connection :=
  ltac:(assign_field conn_eta qpack_dynamic_decoder v).
Definition set_encoder_stream (v : EncoderStream) : Connection -> Connection :=
  ltac:(assign_field conn_eta encoder_stream v).
Definition set_encoder_stream_id (v : option Z) : Connection -> Connection :=
  ltac:(assign_field conn_eta encoder_stream_id v).
Definition set_decoder_stream (v : bytes) : Connection -> Connection :=
  ltac:(assign_field conn_eta decoder_stream v).
Definition set_decoder_stream_id (v : option Z) : Connection -> Connection :=
  ltac:(assign_field conn_eta decoder_stream_id v).
Definition set_encoder_stream_recv (v : EncoderStreamReceiver) : Connection -> Connection :=
  ltac:(assign_field conn_eta encoder_stream_recv v).
Definition set_peer_encoder_stream_id (v : option Z) : Connection -> Connection :=
  ltac:(assign_field conn_eta peer_encoder_stream_id v).
Definition set_decoder_stream_recv (v : DecoderStreamReceiver) : Connection -> Connection :=
  ltac:(assign_field conn_eta decoder_stream_recv v).
Definition set_peer_decoder_stream_id (v : option Z) : Connection -> Connection :=
  ltac:(assign_field conn_eta peer_decoder_stream_id v).
Definition set_events (v : list Event) : Connection -> Connection :=
  ltac:(assign_field conn_eta events v).
Definition set_error (v : option Error) : Connection -> Connection :=
  ltac:(assign_field conn_eta error v).
Definition set_peer_goaway_last_id (v : option Z) : Connection -> Connection :=
  ltac:(assign_field conn_eta peer_goaway_last_id v).
Definition set_last_sent_goaway_id (v : option Z) : Connection -> Connection :=
  ltac:(assign_field conn_eta last_sent_goaway_id v).
Definition set_max_push_id (v : option Z) : Connection -> Connection :=
  ltac:(assign_field conn_eta max_push_id v).
Definition set_blocked_by_ricnt (v : gset (Z * Z)) : Connection -> Connection :=
  ltac:(assign_field conn_eta blocked_by_ricnt v).
Definition set_ignored_uni_streams (v : gset Z) : Connection -> Connection :=
  ltac:(assign_field conn_eta ignored_uni_streams v).
Definition set_pending_uni_streams (v : gmap Z bytes) : Connection -> Connection :=
  ltac:(assign_field conn_eta pending_uni_streams v).
Definition set_wt_uni_streams (v : gmap Z Z) : Connection -> Connection :=
  ltac:(assign_field conn_eta wt_uni_streams v).
Definition set_pending_wt_uni_streams (v : gmap Z bytes) : Connection -> Connection :=
  ltac:(assign_field conn_eta pending_wt_uni_streams v).
Definition set_wt_bidi_streams (v : gmap Z Z) : Connection -> Connection :=
  ltac:(assign_field conn_eta wt_bidi_streams v).
Definition set_pending_wt_bidi_streams (v : gmap Z bytes) : Connection -> Connection :=
  ltac:(assign_field conn_eta pending_wt_bidi_streams v).
Definition set_pending_bidi_dispatch (v : gmap Z bytes) : Connection -> Connection :=
  ltac:(assign_field conn_eta pending_bidi_dispatch v).
Definition set_wt_sessions (v : gmap Z WtSession) : Connection -> Connection :=
  ltac:(assign_field conn_eta wt_sessions v).
Definition set_closed_wt_sessions (v : gset Z) : Connection -> Connection :=
  ltac:(assign_field conn_eta closed_wt_sessions v).
Definition set_wt_transport_verified (v : bool) : Connection -> Connection :=
  ltac:(assign_field conn_eta wt_transport_verified v).
Definition set_previous_wt_settings (v : option WtSettings) : Connection -> Connection :=
  ltac:(assign_field conn_eta previous_wt_settings v).
Definition set_wt_reset_stream_at_supported (v : bool) : Connection -> Connection :=
  ltac:(assign_field conn_eta wt_reset_stream_at_supported v).
Definition set_deferred_encoder_set_capacity (v : option Z) : Connection -> Connection :=
  ltac:(assign_field conn_eta deferred_encoder_set_capacity v).
Definition set_deferred_section_acks (v : list Z) : Connection -> Connection :=
  ltac:(assign_field conn_eta deferred_section_acks v).
Definition set_deferred_stream_cancellations (v : list Z) : Connection -> Connection :=
  ltac:(assign_field conn_eta deferred_stream_cancellations v).
Definition set_deferred_wt_connects (v : gmap Z (list Header)) : Connection -> Connection :=
  ltac:(assign_field conn_eta deferred_wt_connects v).
Definition set_pending_wt_bidi_pre_negotiation (v : gmap Z PendingWtBidiPreNegotiation) : Connection -> Connection :=
  ltac:(assign_field conn_eta pending_wt_bidi_pre_negotiation v).
Definition set_ignored_pre_negotiation_wt_bidi (v : gset Z) : Connection -> Connection :=
  ltac:(assign_field conn_eta ignored_pre_negotiation_wt_bidi v).

(** ** Actions *)
Definition action (A : Type) : Type := Connection -> option (Connection * result Error A).

#[export] Instance action_ret : MRet action := fun A a c => Some (c, Ok a).
#[export] Instance action_bind : MBind action := fun A B f m c =>
  match m c with
  | None => None
  | Some (c, Ok a) => f a c
  | Some (c, Err e) => Some (c, Err e)
  end.

Definition gets {A} (f : Connection -> A) : action A := fun c => Some (c, Ok (f c)).
Definition modify (f : Connection -> Connection) : action unit := fun c => Some (f c, Ok ()).
Definition throw {A} (e : Error) : action A := fun c => Some (c, Err e).
Definition done_with : action unit := fun c => Some (c, Ok ()).
Definition lift {A} (r : result Error A) : action A := fun c => Some (c, r).
(** [expect] and [unwrap]. *)
Definition expect {A} (o : option A) : action A := fun c => x ← o; Some (c, Ok x).
Definition throw_if (b : bool) (e : Error) : action unit := if b then throw e else done_with.

Definition get : action Connection := gets id.
(** A method that cannot fail and returns something. *)
Definition run_method {A} (f : Connection -> Connection * A) : action A := fun c =>
  let '(c, a) := f c in Some (c, Ok a).
Definition err_if (b : bool) (e : Error) : result Error unit := if b then Err e else Ok ().

(** [self.events.push_back(event)] and more of them. *)
Definition push_events (l : list Event) (c : Connection) : Connection := set_events (events c ++ l) c.
Definition push_event (e : Event) : Connection -> Connection := push_events [e].
Definition push_wt (e : WebTransportEvent) : Connection -> Connection := push_event (EvWebTransport e).

(** [if let Some(x) = self.streams.get_mut(&stream_id) { .. }], likewise for sessions. *)
Definition update_stream (stream_id : Z) (f : RequestStream -> RequestStream) (c : Connection) : Connection :=
  set_streams (alter f stream_id (streams c)) c.
Definition update_session (session_id : Z) (f : WtSession -> WtSession) (c : Connection) : Connection :=
  set_wt_sessions (alter f session_id (wt_sessions c)) c.

(** [contains_key], [contains], and [is_some_and]. *)
Definition has_key {V} (m : gmap Z V) (k : Z) : bool := bool_decide (is_Some (m !! k)).
(** [entry(..).or_insert(..)]. *)
Definition or_insert {V} (stream_id : Z) (v : V) (m : gmap Z V) : gmap Z V :=
  match m !! stream_id with Some _ => m | None => <[stream_id := v]> m end.
Definition in_set (s : gset Z) (x : Z) : bool := bool_decide (x ∈ s).
Definition is_id (o : option Z) (id : Z) : bool := bool_decide (o = Some id).

Definition check_error_state : action unit :=
  e ← gets error; match e with Some err => throw err | None => done_with end.

Definition remember_connection_error {A} (m : action A) : action A := fun c =>
  match m c with
  | Some (c, Err (ConnectionError e)) => Some (set_error (Some (ConnectionError e)) c, Err (ConnectionError e))
  | other => other
  end.

(** ** Construction *)

(** The settings sent: the defaults, overridden by what the caller sets. *)
Definition or_else {A} (a b : option A) : option A := match a with Some _ => a | None => b end.
Definition merge_settings (defaults s : Settings) : Settings :=
  mkSettings (or_else (qpack_max_table_capacity s) (qpack_max_table_capacity defaults))
    (or_else (max_field_section_size s) (max_field_section_size defaults))
    (or_else (qpack_blocked_streams s) (qpack_blocked_streams defaults))
    (or_else (enable_connect_protocol s) (enable_connect_protocol defaults))
    (or_else (h3_datagram s) (h3_datagram defaults)) (or_else (wt_settings s) (wt_settings defaults)).
Definition sync_limits (l : Limits) (s : Settings) : Limits :=
  mkLimits (default (limit_field_section_size l) (max_field_section_size s))
    (default (limit_table_capacity l) (qpack_max_table_capacity s))
    (default (limit_blocked_streams l) (qpack_blocked_streams s)) (limit_received_body_size l).

Definition conn_new (r : Role) (settings : Settings) : option Connection :=
  defaults ← ok (from_limits default_limits);
  let local := merge_settings defaults settings in
  control ← send_settings control_send_new local;
  let capacity := default 0 (qpack_max_table_capacity local) in
  let decoder := decoder_set_max_table_capacity decoder_new capacity in
  let decoder := match max_field_section_size local with
    | Some size => set_max_field_section_size decoder size
    | None => decoder
    end in
  Some (mkConnection r local None (sync_limits default_limits local) control control_recv_new ∅
    (match r with Client => 0 | Server => 1 end) encoder_new decoder encoder_stream_new None
    decoder_stream_new None (receiver_set_max_table_capacity receiver_new capacity) None
    dec_receiver_new None [] None None None None ∅ ∅ ∅ ∅ ∅ ∅ ∅ ∅ ∅ ∅ false None false None [] [] ∅ ∅ ∅).
Definition client (settings : Settings) : option Connection := conn_new Client settings.
Definition server (settings : Settings) : option Connection := conn_new Server settings.

(** ** The critical streams of this end *)
Definition creation_error : Error := ConnectionError StreamCreationError.

Definition validate_self_initiated_uni_stream_id (stream_id : Z) : action unit :=
  r ← gets role;
  let expected := match r with Client => 0x2 | Server => 0x3 end in
  throw_if (negb (Z.land stream_id 0x3 =? expected)) creation_error.

Definition control_send_id (c : Connection) : option Z := cs_stream_id (control_send c).
Definition control_recv_id (c : Connection) : option Z := cr_stream_id (control_recv c).

Definition set_control_stream_id (stream_id : Z) : action unit :=
  validate_self_initiated_uni_stream_id stream_id;;
  own ← gets control_send_id;
  throw_if (is_some own) creation_error;;
  enc ← gets encoder_stream_id; dec ← gets decoder_stream_id;
  throw_if (is_id enc stream_id || is_id dec stream_id) creation_error;;
  modify (fun c => set_control_send (control_send_set_stream_id (control_send c) stream_id) c).

(** [self.encoder_stream.encode_set_capacity(capacity).map_err(Error::Qpack)?]. *)
Definition send_set_capacity (capacity : Z) : action unit := fun c =>
  let '(s, r) := encode_set_capacity (encoder_stream c) capacity in
  Some (set_encoder_stream s c, map_err Qpack r).

Definition conn_set_encoder_stream_id (stream_id : Z) : action unit :=
  validate_self_initiated_uni_stream_id stream_id;;
  own ← gets encoder_stream_id;
  throw_if (is_some own) creation_error;;
  ctl ← gets control_send_id; dec ← gets decoder_stream_id;
  throw_if (is_id ctl stream_id || is_id dec stream_id) creation_error;;
  modify (set_encoder_stream_id (Some stream_id));;
  modify (fun c => set_encoder_stream (write_stream_type (encoder_stream c)) c);;
  deferred ← gets deferred_encoder_set_capacity;
  modify (set_deferred_encoder_set_capacity None);;
  match deferred with Some capacity => send_set_capacity capacity | None => done_with end.

Definition conn_set_decoder_stream_id (stream_id : Z) : action unit :=
  validate_self_initiated_uni_stream_id stream_id;;
  own ← gets decoder_stream_id;
  throw_if (is_some own) creation_error;;
  ctl ← gets control_send_id; enc ← gets encoder_stream_id;
  throw_if (is_id ctl stream_id || is_id enc stream_id) creation_error;;
  modify (set_decoder_stream_id (Some stream_id));;
  modify (fun c => set_decoder_stream (write_decoder_stream_type (decoder_stream c)) c);;
  modify (fun c => set_deferred_section_acks []
    (set_decoder_stream (fold_left encode_section_acknowledgment (deferred_section_acks c) (decoder_stream c)) c));;
  modify (fun c => set_deferred_stream_cancellations []
    (set_decoder_stream (fold_left encode_stream_cancellation (deferred_stream_cancellations c) (decoder_stream c)) c)).

Definition conn_set_max_received_body_size (size : Z) (c : Connection) : Connection :=
  let l := limits c in
  let c := set_limits (mkLimits (limit_field_section_size l) (limit_table_capacity l) (limit_blocked_streams l) size) c in
  set_streams ((fun s => set_max_received_body_size s size) <$> streams c) c.

(** [None] when the GOAWAY that was received carries a push id. *)
Definition peer_goaway_request_boundary (c : Connection) : option Z :=
  match role c with Client => peer_goaway_last_id c | Server => None end.

(** A stream that is reset, closed both ways with nothing left to send, or the CONNECT
    stream of a session that ended. *)
Definition stream_done (s : RequestStream) : bool :=
  is_reset (rq_state s) || (bool_decide (rq_state s = Closed) && is_send_complete s).
Definition remove_stream_if_done (stream_id : Z) (c : Connection) : Connection :=
  if some_and (streams c !! stream_id) stream_done || in_set (closed_wt_sessions c) stream_id
  then set_streams (delete stream_id (streams c)) c
  else c.

Definition clear_qpack_blocked (stream_id : Z) (c : Connection) : Connection :=
  let c := match streams c !! stream_id with
    | Some s =>
      if rq_qpack_blocked s
      then set_blocked_by_ricnt (blocked_by_ricnt c ∖ {[(rq_qpack_ricnt s, stream_id)]}) c
      else c
    | None => c
    end in
  update_stream stream_id (fun s => set_qpack_blocked s false 0 None) c.

(** Acknowledgments and cancellations wait until the decoder stream has an id. *)
Definition send_section_ack_if_needed (stream_id : Z) (c : Connection) : Connection :=
  if 0 <? dec_last_ric (qpack_dynamic_decoder c) then
    match decoder_stream_id c with
    | Some _ => set_decoder_stream (encode_section_acknowledgment (decoder_stream c) stream_id) c
    | None => set_deferred_section_acks (deferred_section_acks c ++ [stream_id]) c
    end
  else c.

Definition send_stream_cancellation_if_needed (stream_id : Z) : action unit :=
  local ← gets local_settings;
  if default 0 (qpack_max_table_capacity local) =? 0 then done_with
  else
    kind ← expect (from_stream_id stream_id);
    modify (fun c =>
      if is_bidirectional kind then
        match decoder_stream_id c with
        | Some _ => set_decoder_stream (encode_stream_cancellation (decoder_stream c) stream_id) c
        | None => set_deferred_stream_cancellations (deferred_stream_cancellations c ++ [stream_id]) c
        end
      else c).

(** ** What the headers say *)
Definition has_field (n v : bytes) (headers : list Header) : bool :=
  existsb (fun h => bytes_eqb (name h) n && bytes_eqb (value h) v) headers.
Definition has_name (n : bytes) (headers : list Header) : bool :=
  existsb (fun h => bytes_eqb (name h) n) headers.

Definition is_webtransport_connect (headers : list Header) : bool :=
  has_field (str ":method") (str "CONNECT") headers &&
  (has_field (str ":protocol") (str "webtransport-h3") headers ||
   has_field (str ":protocol") (str "webtransport") headers).

Definition is_plain_connect (headers : list Header) : bool :=
  has_field (str ":method") (str "CONNECT") headers && negb (has_name (str ":protocol") headers).

(** [str::parse::<u16>]. *)
Definition parse_u16 (l : bytes) : option Z :=
  v ← parse_u64 l; if v <? 2 ^ 16 then Some v else None.

(** The [:status] of the first header of that name, if it is a number. *)
Definition status_code (headers : list Header) : option Z :=
  h ← List.find (fun h => bytes_eqb (name h) (str ":status")) headers;
  if is_utf8 (value h) then parse_u16 (value h) else None.

Definition is_informational_status (headers : list Header) : bool :=
  some_and (status_code headers) (fun code => (code <? 200) && negb (code =? 101)).
Definition is_success_status (headers : list Header) : bool :=
  some_and (status_code headers) (fun code => (200 <=? code) && (code <? 300)).
Definition is_no_body_status (headers : list Header) : bool :=
  some_and (status_code headers) (fun code => (code <? 200) || (code =? 204) || (code =? 304)).
