(* ===== verification/ConnInvariant.v ===== *)
(** What holds of every connection, how one call may change it, and rules to prove both
    of the actions a method is made of. No code of its own.

    [conn_wf] is the invariant: the buffers behind the streams are in order, everything
    that is kept for the peer has its bound, ids are in range. [evolves] says which way a
    connection can change: settings are received once, GOAWAY identifiers only decrease,
    an ended session stays ended. [wp] is what the rules derive: the action does not
    panic, and its outcome satisfies both, whether it returns an error or not. *)

From S2P Require Import Prelude Codec Varint Header DynamicTable Settings Frame Error Stream EncoderStream DecoderStream QpackEncoder QpackDecoder ControlStream RequestStream Event WtSession Connection.

(** ** The invariant *)
Record stream_wf (s : RequestStream) : Prop := {
  sw_recv : q_wf (rq_recv_buf s);
  sw_send : q_wf (rq_send_buf s);
  sw_bytes : bytes_ok (recv_peek (rq_recv_buf s));
  sw_body : bytes_ok (rq_recv_body s) }.

Definition pending_entry_wf (p : PendingWtBidiPreNegotiation) : Prop :=
  bytes_ok (pb_data p) /\ len (pb_data p) <= WT_MAX_BUFFERED_STREAM_BYTES.

Definition MAX_DEFERRED : Z := 16.

(** The two low bits of a stream id say who opened it and which kind it is. *)
Definition bidi_id (id : Z) : Prop := id mod 4 < 2.
Definition request_id (id : Z) : Prop := varint_ok id /\ bidi_id id.

(** A connection never adds to the dynamic table of its encoder. *)
Definition encoder_unused (e : DynamicEncoder) : Prop := entries (enc_table e) = [].
(** The table of its decoder is what the peer's instructions make of it, within the
    capacity that the settings allow. *)
Definition decoder_fed (local : Settings) (r : EncoderStreamReceiver) (d : DynamicDecoder) : Prop :=
  bytes_ok (recv_buffer r) /\ recv_max_table_capacity r = default 0 (qpack_max_table_capacity local) /\
  decoder_table (recv_max_table_capacity r) (dec_table d).

(** [slack] places among the blocked streams are kept free. *)
Record conn_wf (slack : Z) (c : Connection) : Prop := {
  w_streams : map_Forall (fun id s => request_id id /\ stream_wf s) (streams c);
  w_next : 0 <= next_stream_id c /\ bidi_id (next_stream_id c);
  w_control_id : forall id, control_send_id c = Some id ->
    ~ bidi_id id /\ encoder_stream_id c <> Some id /\ decoder_stream_id c <> Some id;
  w_qpack_ids : forall id, encoder_stream_id c = Some id \/ decoder_stream_id c = Some id -> ~ bidi_id id;
  w_qpack_distinct : forall id, encoder_stream_id c = Some id -> decoder_stream_id c <> Some id;
  w_control_send : q_wf (cs_send_buf (control_send c));
  w_control_recv : q_wf (cr_recv_buf (control_recv c));
  w_control_bytes : bytes_ok (recv_peek (cr_recv_buf (control_recv c)));
  w_uni : map_Forall (fun _ id => varint_ok id) (wt_uni_streams c);
  w_bidi : map_Forall (fun _ id => varint_ok id) (wt_bidi_streams c);
  w_sessions : map_Forall (fun id s => varint_ok id /\ session_wf s) (wt_sessions c);
  w_pending_uni : map_Forall (fun _ b => bytes_ok b) (pending_uni_streams c);
  w_pending_wt_uni : map_Forall (fun _ b => bytes_ok b) (pending_wt_uni_streams c);
  w_pending_wt_bidi : map_Forall (fun _ b => bytes_ok b) (pending_wt_bidi_streams c);
  w_dispatch : map_Forall (fun _ b => bytes_ok b) (pending_bidi_dispatch c);
  w_pre : map_Forall (fun _ p => pending_entry_wf p) (pending_wt_bidi_pre_negotiation c);
  w_pre_size : Z.of_nat (size (pending_wt_bidi_pre_negotiation c)) <= WT_MAX_BUFFERED_STREAMS;
  w_deferred : map_Forall (fun id _ => varint_ok id) (deferred_wt_connects c);
  w_deferred_size : Z.of_nat (size (deferred_wt_connects c)) <= MAX_DEFERRED;
  w_blocked : Z.of_nat (size (blocked_by_ricnt c)) + slack <= limit_blocked_streams (limits c);
  w_settings : peer_settings c <> None -> cr_recv_state (control_recv c) = RecvReady;
  w_peer : forall s, peer_settings c = Some s -> settings_ok s;
  w_encoder : encoder_unused (qpack_encoder c);
  w_decoder : decoder_fed (local_settings c) (encoder_stream_recv c) (qpack_dynamic_decoder c) }.

(** ** The direction of change *)

(** Once there is a value it never increases. *)
Definition never_increases (before after : option Z) : Prop :=
  forall x, before = Some x -> exists y, after = Some y /\ y <= x.
Definition never_decreases (before after : option Z) : Prop :=
  forall x, before = Some x -> exists y, after = Some y /\ x <= y.

Record evolves (c c' : Connection) : Prop := {
  ev_role : role c' = role c;
  ev_local : local_settings c' = local_settings c;
  ev_blocked_limit : limit_blocked_streams (limits c') = limit_blocked_streams (limits c);
  ev_peer_settings : forall s, peer_settings c = Some s -> peer_settings c' = Some s;
  ev_goaway_received : never_increases (peer_goaway_last_id c) (peer_goaway_last_id c');
  ev_goaway_sent : never_increases (last_sent_goaway_id c) (last_sent_goaway_id c');
  ev_max_push_id : never_decreases (max_push_id c) (max_push_id c');
  ev_closed : closed_wt_sessions c ⊆ closed_wt_sessions c';
  ev_ignored_uni : ignored_uni_streams c ⊆ ignored_uni_streams c';
  ev_ignored_bidi : ignored_pre_negotiation_wt_bidi c ⊆ ignored_pre_negotiation_wt_bidi c';
  ev_next : next_stream_id c <= next_stream_id c' }.

Lemma never_increases_refl o : never_increases o o.
Proof. intros x ->. eauto with lia. Qed.
Lemma never_decreases_refl o : never_decreases o o.
Proof. intros x ->. eauto with lia. Qed.

#[export] Hint Resolve never_increases_refl never_decreases_refl : conn.

Lemma never_increases_trans a b c : never_increases a b -> never_increases b c -> never_increases a c.
Proof. intros H1 H2 x Hx. destruct (H1 x Hx) as (y & Hy & ?), (H2 y Hy) as (z & ? & ?). eauto with lia. Qed.
Lemma never_decreases_trans a b c : never_decreases a b -> never_decreases b c -> never_decreases a c.
Proof. intros H1 H2 x Hx. destruct (H1 x Hx) as (y & Hy & ?), (H2 y Hy) as (z & ? & ?). eauto with lia. Qed.

#[export] Instance evolves_preorder : PreOrder evolves.
Proof.
  split.
  - intros c. split; auto with conn; lia.
  - intros c1 c2 c3 [] []. split.
    1-3: congruence.
    1: auto.
    1-2: by eapply never_increases_trans.
    1: by eapply never_decreases_trans.
    1-3: by etrans.
    lia.
Qed.

Lemma conn_wf_slack j k c : k <= j -> conn_wf j c -> conn_wf k c.
Proof. intros ? []. split; try done. lia. Qed.

(** ** Rules *)
Definition wp {A} (k : Z) (m : action A) (c : Connection) (Q : A -> Connection -> Prop) : Prop :=
  exists c' r, m c = Some (c', r) /\ conn_wf k c' /\ evolves c c' /\
    match r with Ok a => Q a c' | Err _ => True end.

(** An action that may be run on every well-formed connection. *)
Definition safe {A} (m : action A) : Prop := forall k c, conn_wf k c -> wp k m c (fun _ _ => True).

Lemma wp_mono {A} k (m : action A) c Q Q' :
  wp k m c Q -> (forall a c', conn_wf k c' -> evolves c c' -> Q a c' -> Q' a c') -> wp k m c Q'.
Proof.
  intros (c' & r & Hm & Hw & He & Hr) HQ. exists c', r. split_and!; try done. destruct r; auto.
Qed.

Lemma wp_bind {A B} j k (m : action A) (f : A -> action B) c Q R : k <= j ->
  wp j m c Q -> (forall a c', conn_wf j c' -> evolves c c' -> Q a c' -> wp k (f a) c' R) -> wp k (m ≫= f) c R.
Proof.
  intros Hk (c' & r & Hm & Hw & He & Hr) Hf. unfold wp, mbind, action_bind. rewrite Hm.
  destruct r as [a|e].
  - destruct (Hf a c' Hw He Hr) as (c'' & r & -> & ? & ? & ?). exists c'', r. split_and!; try done.
    by etrans.
  - exists c', (Err e). split_and!; try done. by apply (conn_wf_slack j).
Qed.

(** The same slack before and after. *)
Lemma wp_seq {A B} k (m : action A) (f : A -> action B) c Q R :
  wp k m c Q -> (forall a c', conn_wf k c' -> evolves c c' -> Q a c' -> wp k (f a) c' R) -> wp k (m ≫= f) c R.
Proof. by apply wp_bind. Qed.

Lemma wp_safe {A B} k (m : action A) (f : A -> action B) c R : safe m -> conn_wf k c ->
  (forall a c', conn_wf k c' -> evolves c c' -> wp k (f a) c' R) -> wp k (m ≫= f) c R.
Proof. intros Hm Hw Hf. apply (wp_seq _ _ _ _ _ _ (Hm k c Hw)). auto. Qed.

Lemma wp_gets {A B} k (g : Connection -> A) (f : A -> action B) c R :
  wp k (f (g c)) c R -> wp k (gets g ≫= f) c R.
Proof. done. Qed.
Lemma wp_get {B} k (f : Connection -> action B) c R : wp k (f c) c R -> wp k (get ≫= f) c R.
Proof. done. Qed.

Lemma wp_modify k g c Q : conn_wf k (g c) -> evolves c (g c) -> Q tt (g c) -> wp k (modify g) c Q.
Proof. intros. by exists (g c), (Ok ()). Qed.
Lemma wp_modify_bind {B} k g (f : unit -> action B) c R : conn_wf k (g c) -> evolves c (g c) ->
  (conn_wf k (g c) -> wp k (f tt) (g c) R) -> wp k (modify g ≫= f) c R.
Proof.
  intros Hw He Hf. apply (wp_seq _ _ _ _ (fun _ c' => c' = g c)); [by apply wp_modify|].
  intros [] c' ? ? ->. auto.
Qed.

Lemma wp_ret {A} k (a : A) c (Q : A -> Connection -> Prop) : conn_wf k c -> Q a c -> wp k (mret a) c Q.
Proof. intros. by exists c, (Ok a). Qed.
Lemma wp_done k c (Q : unit -> Connection -> Prop) : conn_wf k c -> Q tt c -> wp k done_with c Q.
Proof. intros. by exists c, (Ok ()). Qed.
Lemma wp_throw {A} k e c (Q : A -> Connection -> Prop) : conn_wf k c -> wp k (throw e) c Q.
Proof. intros. by exists c, (Err e). Qed.
Lemma wp_throw_if k b e c (Q : unit -> Connection -> Prop) : conn_wf k c -> (b = false -> Q tt c) ->
  wp k (throw_if b e) c Q.
Proof. intros. destruct b; [by apply wp_throw|apply wp_done; auto]. Qed.
Lemma wp_throw_if_bind {B} k b e (f : unit -> action B) c R : conn_wf k c -> (b = false -> wp k (f tt) c R) ->
  wp k (throw_if b e ≫= f) c R.
Proof. intros ? Hf. destruct b; [by exists c, (Err e)|by apply Hf]. Qed.
Lemma wp_lift k (r : result Error unit) c (Q : unit -> Connection -> Prop) : conn_wf k c -> Q tt c -> wp k (lift r) c Q.
Proof. intros. exists c, r. by destruct r as [[]|]. Qed.
Lemma wp_lift_bind {A B} k (r : result Error A) (f : A -> action B) c R : conn_wf k c ->
  (forall a, r = Ok a -> wp k (f a) c R) -> wp k (lift r ≫= f) c R.
Proof. intros ? Hf. destruct r as [a|e]; [by apply Hf|by exists c, (Err e)]. Qed.
Lemma wp_expect_bind {A B} k (o : option A) (f : A -> action B) c R a : o = Some a ->
  wp k (f a) c R -> wp k (expect o ≫= f) c R.
Proof. by intros ->. Qed.

Lemma wp_method {A} k (g : Connection -> Connection * A) c (Q : A -> Connection -> Prop) :
  conn_wf k (fst (g c)) -> evolves c (fst (g c)) -> Q (snd (g c)) (fst (g c)) -> wp k (run_method g) c Q.
Proof. intros. unfold wp, run_method. destruct (g c) as [c' a]. by exists c', (Ok a). Qed.
Lemma wp_method_bind {A B} k (g : Connection -> Connection * A) (f : A -> action B) c R :
  conn_wf k (fst (g c)) -> evolves c (fst (g c)) ->
  (conn_wf k (fst (g c)) -> wp k (f (snd (g c))) (fst (g c)) R) -> wp k (run_method g ≫= f) c R.
Proof.
  intros Hw He Hf. apply (wp_seq _ _ _ _ (fun a c' => a = snd (g c) /\ c' = fst (g c))); [by apply wp_method|].
  intros ? ? ? ? [-> ->]. auto.
Qed.

Lemma wp_remember {A} k (m : action A) c Q : wp k m c Q -> wp k (remember_connection_error m) c Q.
Proof.
  intros (c' & r & Hm & Hw & He & Hr). unfold wp, remember_connection_error. rewrite Hm.
  destruct r as [a|[]]; try (eexists _, _; by split_and!).
  eexists _, _. split_and!; [done| | |done].
  - destruct Hw. by split.
  - destruct He. by split.
Qed.

Lemma wp_check k c (Q : unit -> Connection -> Prop) : conn_wf k c -> (error c = None -> Q tt c) -> wp k check_error_state c Q.
Proof.
  intros Hw HQ. unfold check_error_state. apply wp_gets. destruct (error c) as [e|] eqn:E.
  - by apply wp_throw.
  - apply wp_done; auto.
Qed.

Lemma check_error_safe : safe check_error_state.
Proof. intros k c Hw. by apply wp_check. Qed.

(** ** Assignments

    [wf_keep] leaves the clauses about the fields that changed, [ev_keep] the same for
    [evolves]; both are for goals about a connection with some fields assigned. *)
Ltac wf_keep :=
  match goal with H : conn_wf ?k ?c |- conn_wf ?k _ => destruct H; split; cbn; try assumption end.
Ltac ev_keep := split; cbn; auto with conn; try reflexivity; try lia.

Lemma map_Forall_alter_keep {V} (P : Z -> V -> Prop) (f : V -> V) i (m : gmap Z V) :
  map_Forall P m -> (forall x, m !! i = Some x -> P i x -> P i (f x)) -> map_Forall P (alter f i m).
Proof.
  intros Hm Hf j y Hj. apply lookup_alter_Some in Hj as [(<- & x & Hx & ->)|[_ Hj]]; eauto.
Qed.

Lemma map_Forall_or_insert {V} (P : Z -> V -> Prop) i v (m : gmap Z V) :
  map_Forall P m -> P i v -> map_Forall P (or_insert i v m).
Proof. intros Hm Hv. unfold or_insert. destruct (m !! i); [done|]. by apply map_Forall_insert_2. Qed.

Section updates.
Context (k : Z) (c : Connection) (Hw : conn_wf k c).

Lemma push_events_wf l : conn_wf k (push_events l c).
Proof. unfold push_events. by wf_keep. Qed.
Lemma push_event_wf e : conn_wf k (push_event e c).
Proof. apply push_events_wf. Qed.
Lemma push_wt_wf e : conn_wf k (push_wt e c).
Proof. apply push_events_wf. Qed.

Lemma set_wt_sessions_wf m : map_Forall (fun id s => varint_ok id /\ session_wf s) m -> conn_wf k (set_wt_sessions m c).
Proof. intros. by wf_keep. Qed.
Lemma insert_session_wf id s : varint_ok id -> session_wf s -> conn_wf k (set_wt_sessions (<[id := s]> (wt_sessions c)) c).
Proof. intros. apply set_wt_sessions_wf, map_Forall_insert_2; [done|apply Hw]. Qed.
Lemma update_session_wf id f :
  (forall s, wt_sessions c !! id = Some s -> session_wf s -> session_wf (f s)) -> conn_wf k (update_session id f c).
Proof.
  intros Hf. apply set_wt_sessions_wf, map_Forall_alter_keep; [apply Hw|]. intros s Hs []. eauto.
Qed.
Lemma session_at id s : wt_sessions c !! id = Some s -> varint_ok id /\ session_wf s.
Proof. intros Hs. exact (w_sessions _ _ Hw id s Hs). Qed.

Lemma set_streams_wf m : map_Forall (fun id s => request_id id /\ stream_wf s) m -> conn_wf k (set_streams m c).
Proof. intros. by wf_keep. Qed.
Lemma insert_stream_wf id s : request_id id -> stream_wf s -> conn_wf k (set_streams (<[id := s]> (streams c)) c).
Proof. intros. apply set_streams_wf, map_Forall_insert_2; [done|apply Hw]. Qed.
Lemma update_stream_wf id f : (forall s, stream_wf s -> stream_wf (f s)) -> conn_wf k (update_stream id f c).
Proof.
  intros Hf. apply set_streams_wf, map_Forall_alter_keep; [apply Hw|]. intros s Hs []. auto.
Qed.
Lemma stream_at id s : streams c !! id = Some s -> request_id id /\ stream_wf s.
Proof. intros Hs. exact (w_streams _ _ Hw id s Hs). Qed.

Lemma remove_stream_if_done_wf id : conn_wf k (remove_stream_if_done id c).
Proof.
  unfold remove_stream_if_done. case_match; [|done]. apply set_streams_wf, map_Forall_delete, Hw.
Qed.

Lemma send_section_ack_wf id : conn_wf k (send_section_ack_if_needed id c).
Proof. unfold send_section_ack_if_needed. repeat case_match; try done; by wf_keep. Qed.
End updates.

Lemma push_events_ev l c : evolves c (push_events l c).
Proof. ev_keep. Qed.
Lemma push_event_ev e c : evolves c (push_event e c).
Proof. ev_keep. Qed.
Lemma push_wt_ev e c : evolves c (push_wt e c).
Proof. ev_keep. Qed.
Lemma set_wt_sessions_ev m c : evolves c (set_wt_sessions m c).
Proof. ev_keep. Qed.
Lemma update_session_ev id f c : evolves c (update_session id f c).
Proof. ev_keep. Qed.
Lemma set_streams_ev m c : evolves c (set_streams m c).
Proof. ev_keep. Qed.
Lemma update_stream_ev id f c : evolves c (update_stream id f c).
Proof. ev_keep. Qed.
Lemma remove_stream_if_done_ev id c : evolves c (remove_stream_if_done id c).
Proof. unfold remove_stream_if_done. case_match; ev_keep. Qed.
Lemma send_section_ack_ev id c : evolves c (send_section_ack_if_needed id c).
Proof. unfold send_section_ack_if_needed. repeat case_match; ev_keep. Qed.

#[export] Hint Resolve push_events_wf push_event_wf push_wt_wf remove_stream_if_done_wf send_section_ack_wf
  push_events_ev push_event_ev push_wt_ev set_wt_sessions_ev update_session_ev set_streams_ev update_stream_ev
  remove_stream_if_done_ev send_section_ack_ev : conn.
#[export] Hint Extern 1 (evolves ?c ?c) => reflexivity : conn.

(** The syntax-directed part of a proof about an action; what is left are the branches,
    the calls of other actions, and side conditions the [conn] database does not have. *)
Ltac wp_step :=
  match goal with
  | |- wp _ (gets _ ≫= _) _ _ => apply wp_gets
  | |- wp _ (get ≫= _) _ _ => apply wp_get
  | |- wp _ (modify _ ≫= _) _ _ => apply wp_modify_bind; [try solve [auto with conn]|try solve [auto with conn]|intros ?]
  | |- wp _ (modify _) _ _ => apply wp_modify; [try solve [auto with conn]|try solve [auto with conn]|try done]
  | |- wp _ (throw_if _ _ ≫= _) _ _ => apply wp_throw_if_bind; [assumption|intros ?]
  | |- wp _ (throw_if _ _) _ _ => apply wp_throw_if; [assumption|try done]
  | |- wp _ (throw _) _ _ => apply wp_throw; assumption
  | |- wp _ done_with _ _ => apply wp_done; [assumption|try done]
  | |- wp _ (mret _) _ _ => apply wp_ret; [assumption|try done]
  | |- wp _ (lift _ ≫= _) _ _ => apply wp_lift_bind; [assumption|intros ? ?]
  | |- wp _ (lift _) _ _ => apply wp_lift; [assumption|try done]
  | |- wp _ (run_method _ ≫= _) _ _ => apply wp_method_bind
  end.
Ltac wp_steps := repeat (wp_step; cbn beta).

(** ** QPACK: the encoder stays unused, the decoder is fed by the peer *)
Lemma evict_loop_unused fuel n t : entries t = [] -> entries (evict_loop fuel n t) = [].
Proof. intros Ht. destruct fuel; cbn [evict_loop]; case_z; try done; by rewrite Ht. Qed.

Lemma set_capacity_unused e n : encoder_unused e -> encoder_unused (with_table e (set_capacity (enc_table e) n)).
Proof. intros He. by apply evict_loop_unused. Qed.
Lemma acknowledge_unused e n : encoder_unused e -> encoder_unused (acknowledge e n).
Proof. intros He. unfold acknowledge. by case_z. Qed.
Lemma track_section_unused e id ric : encoder_unused e -> encoder_unused (track_section e id ric).
Proof. intros He. unfold track_section. by case_z. Qed.
Lemma encode_section_unused e headers n : encoder_unused e -> encoder_unused (fst (encode_section e headers n)).
Proof. intros He. unfold encode_section. by destruct (_ || _). Qed.
Lemma decoder_instruction_unused e n i : encoder_unused e -> encoder_unused (fst (on_decoder_instruction e n i)).
Proof.
  intros He. destruct i as [s|s|m]; cbn [on_decoder_instruction]; [|done|by apply acknowledge_unused].
  unfold ack_section. destruct (_ !! s) as [[|ric l]|]; [done| |done]. by case_z.
Qed.
Lemma decoder_stream_loop_unused fuel total : forall r e r' e' ok, encoder_unused e ->
  decoder_stream_loop fuel r e total = (r', e', ok) -> encoder_unused e'.
Proof.
  induction fuel as [|fuel IH]; intros r e r' e' ok He; cbn [decoder_stream_loop];
    destruct (dec_process r total) as [r1 [[i|]|]]; try (by intros [= <- <- <-]);
    pose proof (decoder_instruction_unused e (known_received_count r1) i He) as H1;
    destruct (on_decoder_instruction e (known_received_count r1) i) as [e1 [|]]; try (by intros [= <- <- <-]).
  by apply IH.
Qed.

Lemma decode_section_table d data : dec_table (fst (decode_section d data)) = dec_table d.
Proof. unfold decode_section. case_z; [done|]. by destruct (mbind _ _) as [[ric n]|]. Qed.

Lemma decoder_fed_process local r d r' t res : decoder_fed local r d ->
  process_all r (dec_table d) = (r', t, res) ->
  decoder_fed local r' (mkDecoder t (dec_max_field_section_size d) (dec_max_table_capacity d) (dec_last_ric d)).
Proof.
  intros (Hb & Hc & Ht) (Ht' & Hb' & Hc')%process_loop_decoder_table; [|done..].
  split; [done|]. split; [by rewrite Hc'|]. by rewrite Hc'.
Qed.
Lemma decoder_fed_receive local r d data : decoder_fed local r d -> bytes_ok data ->
  decoder_fed local (EncoderStream.receive r data) d.
Proof. intros (Hb & Hc & Ht) Hd. split; [by apply bytes_ok_app|done]. Qed.

Lemma max_capacity_unused e n : encoder_unused e -> encoder_unused (encoder_set_max_table_capacity e n).
Proof. done. Qed.
Lemma max_blocked_unused e n : encoder_unused e -> encoder_unused (set_peer_max_blocked_streams e n).
Proof. done. Qed.
#[export] Hint Resolve max_capacity_unused max_blocked_unused track_section_unused : conn.
#[export] Hint Extern 1 (encoder_unused (qpack_encoder _)) =>
  match goal with H : conn_wf _ _ |- _ => exact (w_encoder _ _ H) end : conn.

Lemma decoder_fed_new local size : 0 <= default 0 (qpack_max_table_capacity local) ->
  let capacity := default 0 (qpack_max_table_capacity local) in
  let d := decoder_set_max_table_capacity decoder_new capacity in
  decoder_fed local (receiver_set_max_table_capacity receiver_new capacity) d /\
  decoder_fed local (receiver_set_max_table_capacity receiver_new capacity) (set_max_field_section_size d size).
Proof.
  intros Hc capacity. fold capacity in Hc.
  assert (EncoderStream.decoder_table capacity (set_capacity table_new capacity)) as Ht.
  { unfold set_capacity, evict_to_fit. cbn. case_z; split_and!; cbn; try done; try lia; by apply with_capacity_wf. }
  split; split_and!; cbn; try done; constructor.
Qed.

(** ** Actions that succeed *)
Lemma bind_ok {A B} (m : action A) (f : A -> action B) c c1 a : m c = Some (c1, Ok a) -> (m ≫= f) c = f a c1.
Proof. unfold mbind, action_bind. by intros ->. Qed.
Lemma modify_ok {B} g (f : unit -> action B) c : (modify g ≫= f) c = f tt (g c).
Proof. done. Qed.
Lemma get_ok {B} (f : Connection -> action B) c : (get ≫= f) c = f c c.
Proof. done. Qed.
Lemma gets_ok {A B} g (f : A -> action B) c : (gets g ≫= f) c = f (g c) c.
Proof. done. Qed.
Lemma lift_ok {A B} (a : A) (f : A -> action B) c r : r = Ok a -> (lift r ≫= f) c = f a c.
Proof. by intros ->. Qed.
Lemma throw_if_ok {B} b e (f : unit -> action B) c : b = false -> (throw_if b e ≫= f) c = f tt c.
Proof. by intros ->. Qed.
Lemma expect_ok {A B} (o : option A) (f : A -> action B) c a : o = Some a -> (expect o ≫= f) c = f a c.
Proof. by intros ->. Qed.
Lemma remember_ok {A} (m : action A) c c' a : m c = Some (c', Ok a) -> remember_connection_error m c = Some (c', Ok a).
Proof. unfold remember_connection_error. by intros ->. Qed.

(** ** Actions that have succeeded *)
Lemma bind_inv {A B} (m : action A) (f : A -> action B) c c' b : (m ≫= f) c = Some (c', Ok b) ->
  exists c1 a, m c = Some (c1, Ok a) /\ f a c1 = Some (c', Ok b).
Proof. unfold mbind, action_bind. destruct (m c) as [[c1 [a|e]]|]; try done. intros H. by exists c1, a. Qed.
Lemma throw_if_inv {B} b e (f : unit -> action B) c c' r : (throw_if b e ≫= f) c = Some (c', Ok r) ->
  b = false /\ f tt c = Some (c', Ok r).
Proof. by destruct b. Qed.
Lemma lift_inv {A B} (o : result Error A) (f : A -> action B) c c' b : (lift o ≫= f) c = Some (c', Ok b) ->
  exists a, o = Ok a /\ f a c = Some (c', Ok b).
Proof. destruct o as [a|]; [|done]. intros H. by exists a. Qed.
Lemma expect_inv {A B} (o : option A) (f : A -> action B) c c' b : (expect o ≫= f) c = Some (c', Ok b) ->
  exists a, o = Some a /\ f a c = Some (c', Ok b).
Proof. destruct o as [a|]; [|done]. intros H. by exists a. Qed.
Lemma check_error_inv {B} (f : unit -> action B) c c' b : (check_error_state ≫= f) c = Some (c', Ok b) ->
  error c = None /\ f tt c = Some (c', Ok b).
Proof. unfold check_error_state, mbind, action_bind, gets. by destruct (error c). Qed.
