(* ===== verification/ConnNegotiation.v ===== *)
(** connection/wt_session.rs and connection/wt_stream.rs: what the two SETTINGS frames and
    the transport parameters allow, and the conditions under which a WebTransport CONNECT
    request or response is acceptable. None of this changes the connection, apart from the
    two methods that record what the transport layer negotiated. *)

From Stdlib Require Import String Ascii.
From S2P Require Import Prelude Utf8 Header Settings Frame Error Stream Validation SfParser Connect WtSession Connection.

Definition conn_set_previous_wt_settings (s : WtSettings) (c : Connection) : Connection := set_previous_wt_settings (Some s) c.

Definition set_webtransport_transport_verified (max_datagram_frame_size_nonzero reset_stream_at_supported : bool)
    : action unit :=
  throw_if (negb max_datagram_frame_size_nonzero) (ConnectionError InternalError);;
  modify (set_wt_transport_verified true);;
  modify (set_wt_reset_stream_at_supported reset_stream_at_supported).

Definition local_wt (c : Connection) : option WtSettings := wt_settings (local_settings c).
Definition peer_wt (c : Connection) : option WtSettings := s ← peer_settings c; wt_settings s.

Definition peer_requires_initial_wt_capsules (c : Connection) : bool :=
  is_some_and requires_initial_capsule_flow_control_compat (peer_wt c).
Definition peer_wt_draft_version (c : Connection) : option DraftVersion :=
  wt ← peer_wt c; detect_draft_pattern wt.
Definition local_advertises_wt_enabled (c : Connection) : bool := is_some_and advertises_wt_enabled (local_wt c).

(** ** The draft version *)
Definition select_wt_draft_version (peer_settings : option Settings) (c : Connection) : option DraftVersion :=
  local ← local_wt c;
  match role c with
  | Client =>
    settings ← peer_settings;
    peer ← wt_settings settings;
    match first_mutual_draft local peer with
    | Some draft => Some draft
    | None => some_if (negb (advertises_any_draft_version local) && advertises_draft_version peer Draft17) Draft17
    end
  | Server =>
    settings ← peer_settings;
    match (peer ← wt_settings settings; first_mutual_draft local peer) with
    | Some draft => Some draft
    | None => some_if (advertises_draft_version local Draft17) Draft17
    end
  end.
Definition negotiated_wt_draft_version (c : Connection) : option DraftVersion :=
  select_wt_draft_version (peer_settings c) c.

Definition local_enables_wt (c : Connection) : bool :=
  match local_wt c with
  | None => false
  | Some local => negb (bool_decide (role c = Server) && negb (wt_is_enabled local))
  end.

Definition is_wt_fully_negotiated (c : Connection) : bool :=
  if negb (local_enables_wt c) then false
  else
    match peer_settings c with
    | None => false
    | Some peer =>
      if negb (bool_decide (h3_datagram peer = Some true)) then false
      else if negb (wt_transport_verified c) then false
      else
        match negotiated_wt_draft_version c with
        | None => bool_decide (role c = Server) && negb (local_advertises_wt_enabled c)
        | Some draft =>
          if bool_decide (role c = Client) && requires_enable_connect_protocol draft &&
             negb (bool_decide (enable_connect_protocol peer = Some true)) then false
          else if requires_reset_stream_at draft && negb (wt_reset_stream_at_supported c) then false
          else true
        end
    end.

Definition is_wt_flow_control_enabled (c : Connection) : bool :=
  match local_wt c, peer_wt c with
  | Some local, Some peer => flow_control_enabled_with_peer local peer
  | _, _ => false
  end.

(** ** Sessions in use *)
Definition count_sessions (p : WtSession -> bool) (c : Connection) : Z :=
  len (filter (fun x => p (snd x) = true) (map_to_list (wt_sessions c))).
Definition count_pending_wt_sessions : Connection -> Z :=
  count_sessions (fun s => bool_decide (ws_state s = WtPending)).
Definition count_active_wt_sessions : Connection -> Z :=
  count_sessions (fun s => match ws_state s with WtPending | WtEstablished | WtDraining => true | WtClosed => false end).

Definition wt_session_flow_control_enabled (session_id : Z) (c : Connection) : bool :=
  is_some_and ws_flow_control_enabled (wt_sessions c !! session_id).

(** ** CONNECT requests and responses *)
Definition has_forbidden_capsule_headers (headers : list Header) : bool :=
  has_name (str "content-length") headers || has_name (str "content-type") headers.
Definition is_forbidden_capsule_status (headers : list Header) : bool :=
  has_field (str ":status") (str "204") headers || has_field (str ":status") (str "205") headers ||
  has_field (str ":status") (str "206") headers.

Definition request_rejected : Error := StreamError RequestRejected.
Definition setup_error (e : WtSetupError) : Error := WtSetup e.

(** At the client, before it sends the request. *)
Definition validate_wt_connect_request (headers : list Header) (c : Connection) : result Error unit :=
  if negb (is_webtransport_connect headers) then Ok ()
  else
    _ ← err_if (has_forbidden_capsule_headers headers) message_error;
    peer ← ok_or (peer_settings c) (setup_error PeerSettingsNotReceived);
    _ ← err_if (negb (is_webtransport_enabled peer)) (setup_error WebTransportNotEnabled);
    draft ← ok_or (negotiated_wt_draft_version c) (setup_error UnknownDraftVersion);
    _ ← err_if (requires_enable_connect_protocol draft && negb (bool_decide (enable_connect_protocol peer = Some true)))
      (setup_error EnableConnectProtocolMissing);
    _ ← err_if (negb (bool_decide (h3_datagram peer = Some true))) (setup_error H3DatagramNotEnabled);
    _ ← err_if (negb (wt_transport_verified c)) (setup_error TransportNotVerified);
    _ ← err_if (requires_reset_stream_at draft && negb (wt_reset_stream_at_supported c))
      (setup_error ResetStreamAtNotSupported);
    _ ← err_if (negb (has_field (str ":protocol") (protocol_value draft) headers)) (setup_error ProtocolMismatch);
    err_if (negb (is_wt_flow_control_enabled c) && (1 <=? count_active_wt_sessions c)) request_rejected.

(** The part of the server's check that depends on the draft version. *)
Definition validate_protocol_for (draft : DraftVersion) (headers : list Header) (c : Connection) : result Error unit :=
  _ ← err_if (requires_reset_stream_at draft && negb (wt_reset_stream_at_supported c)) message_error;
  proto_header ← ok_or (List.find (fun h => bytes_eqb (name h) (str ":protocol")) headers) message_error;
  err_if (negb (bytes_eqb (protocol_value draft) (value proto_header))) message_error.

(** At the server, when the request arrives. *)
Definition validate_wt_connect_request_server (stream_id : Z) (headers : list Header) (c : Connection)
    : result Error unit :=
  if negb (bool_decide (role c = Server)) || negb (is_webtransport_connect headers) then Ok ()
  else
    _ ← err_if (has_forbidden_capsule_headers headers) message_error;
    _ ← err_if (negb (is_webtransport_enabled (local_settings c))) message_error;
    match peer_settings c with
    | None => Ok ()
    | Some peer =>
      let draft := negotiated_wt_draft_version c in
      _ ← err_if (negb (is_some draft) && local_advertises_wt_enabled c) message_error;
      _ ← err_if (negb (bool_decide (h3_datagram peer = Some true))) message_error;
      _ ← err_if (negb (wt_transport_verified c)) message_error;
      _ ← match draft with Some draft => validate_protocol_for draft headers c | None => Ok () end;
      _ ← err_if (negb (has_field (str ":scheme") (str "https") headers)) message_error;
      if is_wt_flow_control_enabled c then Ok ()
      else
        let pending := is_some_and (fun s => bool_decide (ws_state s = WtPending)) (wt_sessions c !! stream_id) in
        let active := count_active_wt_sessions c in
        let other_active := if pending then saturating_sub active 1 else active in
        err_if (1 <=? other_active) request_rejected
    end.

(** The first header of that name decides; a value that is not UTF-8 leaves what is there. *)
Definition offered_protocols (headers : list Header) : option (list bytes) :=
  h ← List.find (fun h => bytes_eqb (name h) (str "wt-available-protocols")) headers;
  if is_utf8 (value h) then Some (parse_sf_list_strings (value h)) else None.

(** [find_map]: the first header of that name whose value is a string item. *)
Fixpoint selected_wt_protocol (headers : list Header) : option bytes :=
  match headers with
  | [] => None
  | h :: headers =>
    match (if bytes_eqb (name h) (str "wt-protocol") && is_utf8 (value h) then parse_protocol (value h) else None) with
    | Some p => Some p
    | None => selected_wt_protocol headers
    end
  end.

(** A protocol was selected although none was offered, none although some were, or another. *)
Definition protocol_not_offered (available : list bytes) (selected : option bytes) : bool :=
  match available with
  | [] => is_some selected
  | _ => match selected with None => true | Some p => negb (bool_decide (p ∈ available)) end
  end.

(** At the server, before it sends the response. *)
Definition validate_wt_response_protocol (stream_id : Z) (headers : list Header) (c : Connection) : result Error unit :=
  if negb (is_success_status headers) then Ok ()
  else
    match wt_sessions c !! stream_id with
    | None => Ok ()
    | Some session =>
      _ ← err_if (has_forbidden_capsule_headers headers) message_error;
      _ ← err_if (is_forbidden_capsule_status headers) message_error;
      err_if (protocol_not_offered (ws_available_protocols session) (selected_wt_protocol headers))
        (ConnectionError InternalError)
    end.

(** ** Whose streams *)
Definition is_local_initiated_bidi (kind : StreamKind) (c : Connection) : bool :=
  bool_decide (kind = match role c with Client => ClientBidi | Server => ServerBidi end).
Definition is_local_initiated_uni (kind : StreamKind) (c : Connection) : bool :=
  bool_decide (kind = match role c with Client => ClientUni | Server => ServerUni end).
