(* ===== verification/ConnWtSession.v ===== *)
(** connection/wt_session.rs and connection/wt_capsule.rs: the life of a WebTransport
    session in a connection. A session is registered when its CONNECT request is sent or
    received (or when a stream of it arrives first), established by a successful response,
    and ended by either side; its id is then remembered and never used again. *)

From Stdlib Require Import String Ascii.
From S2P Require Import Prelude Codec Varint Utf8 Header Settings Frame Error Stream RequestStream Validation Capsule WtError WtStream Event WtSession Connection ConnInvariant ConnNegotiation.

(** ** Ending a session *)

(** The length of the header of a WebTransport stream; [None] is the panic of the [expect]. *)
Definition stream_header_len (type session_id : Z) : option Z :=
  id ← ok (varint_new session_id); Some (encoded_len type + encoded_len id).
Definition wt_stream_header_len (c : Connection) (stream_id : Z) : option Z :=
  match wt_bidi_streams c !! stream_id with
  | Some session_id => stream_header_len BIDIRECTIONAL_SIGNAL_VALUE session_id
  | None =>
    match wt_uni_streams c !! stream_id with
    | Some session_id => stream_header_len UNIDIRECTIONAL_STREAM_TYPE session_id
    | None => Some 0
    end
  end.

Definition remove_wt_stream (c : Connection) (stream_id : Z) : Connection :=
  set_wt_bidi_streams (delete stream_id (wt_bidi_streams c))
    (set_wt_uni_streams (delete stream_id (wt_uni_streams c)) c).

Definition SESSION_GONE : Z := wt_error_code SessionGone.
Definition FLOW_CONTROL_ERROR : Z := wt_error_code FlowControlError.
Definition ALPN_ERROR : Z := wt_error_code AlpnError.
Definition BUFFERED_STREAM_REJECTED : Z := wt_error_code BufferedStreamRejected.

Definition bury_session (session_id : Z) (c : Connection) : Connection :=
  set_closed_wt_sessions (closed_wt_sessions c ∪ {[session_id]})
    (set_wt_sessions (delete session_id (wt_sessions c)) c).

Definition terminate_wt_session_with (session_id error_code close_error_code : Z) (close_message : bytes) : action unit :=
  sessions ← gets wt_sessions;
  match sessions !! session_id with
  | None => done_with
  | Some session =>
    if bool_decide (ws_state session = WtClosed) then done_with
    else
      let associated := elements (associated_streams session) in
      let buffered := ws_buffered_streams session in
      c ← get;
      resets ← expect (mapM (fun sid => n ← wt_stream_header_len c sid; Some (mkStreamReset sid n)) associated);
      modify (fun c => fold_left remove_wt_stream associated c);;
      modify (push_wt (WtSessionClosed session_id (resets ++ map (fun sid => mkStreamReset sid 0) buffered)
        error_code close_error_code close_message));;
      modify (bury_session session_id)
  end.

Definition terminate_wt_session (session_id : Z) : action unit :=
  terminate_wt_session_with session_id SESSION_GONE 0 [].
Definition terminate_flow_control (session_id : Z) : action unit :=
  terminate_wt_session_with session_id FLOW_CONTROL_ERROR 0 [].

(** ** Streams that arrive before the session is established *)

(** [Err(())] is [None]. *)
Definition associate_or_buffer_stream (stream_id session_id : Z) (is_bidi : bool) (c : Connection)
    : Connection * option AssocOutcome :=
  let outcome (buffered : bool) := Some (if buffered then AoBuffered else AoBufferOverflow) in
  match wt_sessions c !! session_id with
  | Some session =>
    match ws_state session with
    | WtEstablished => (update_session session_id (associate_stream stream_id) c, Some AoEstablished)
    | WtPending =>
      let '(session, buffered) := buffer_stream stream_id is_bidi session in
      (set_wt_sessions (<[session_id := session]> (wt_sessions c)) c, outcome buffered)
    | WtDraining | WtClosed => (c, None)
    end
  | None =>
    if bool_decide (role c = Client) then (c, None)
    else if in_set (closed_wt_sessions c) session_id then (c, None)
    else if some_and (last_sent_goaway_id c) (fun last_id => last_id <=? session_id) then (c, None)
    else if WT_MAX_PENDING_SESSIONS <=? count_pending_wt_sessions c then (c, Some AoBufferOverflow)
    else
      let '(session, buffered) := buffer_stream stream_id is_bidi wt_session_new in
      (set_wt_sessions (<[session_id := session]> (wt_sessions c)) c, outcome buffered)
  end.

Definition stream_open_event (is_bidi : bool) (stream_id session_id : Z) : Event :=
  EvWebTransport (if is_bidi then WtBidiStreamOpen stream_id session_id else WtUniStreamOpen stream_id session_id).
Definition stream_data_event (is_bidi : bool) (stream_id : Z) (data : bytes) : Event :=
  EvWebTransport (if is_bidi then WtBidiStreamData stream_id data else WtUniStreamData stream_id data).
Definition stream_end_event (is_bidi : bool) (stream_id : Z) : Event :=
  EvWebTransport (if is_bidi then WtBidiStreamEnd stream_id else WtUniStreamEnd stream_id).

(** [skip_while(|id| id != x).skip(1)]. *)
Fixpoint after (x : Z) (l : list Z) : list Z :=
  match l with [] => [] | y :: l => if y =? x then l else after x l end.

(** Back into the buffer, at its end. *)
Definition restore_remaining (session : WtSession) (stream_id : Z) : WtSession :=
  match take_buffered_stream_entry stream_id session with
  | (session, Some e) => restore_buffered_stream stream_id e session
  | (session, None) => session
  end.

(** The loop of [deliver_buffered_streams]: the session, the events, the streams that are
    finished, and whether a flow control limit was exceeded. *)
Fixpoint deliver_loop (session_id : Z) (buffered rest : list Z) (session : WtSession) (evs : list Event)
    (closed : list (Z * bool)) : WtSession * list Event * list (Z * bool) * bool :=
  match rest with
  | [] => (session, evs, closed, false)
  | stream_id :: rest =>
    match take_buffered_stream_entry stream_id session with
    | (session, None) => deliver_loop session_id buffered rest session evs closed
    | (session, Some e) =>
      let is_bidi := be_is_bidi e in
      let n := len (be_data e) in
      if negb (check_received_stream is_bidi session) then
        let session := restore_buffered_stream stream_id e session in
        (fold_left restore_remaining (after stream_id buffered) session, evs, closed, true)
      else
        let session := associate_stream stream_id (add_received_stream is_bidi session) in
        let evs := evs ++ [stream_open_event is_bidi stream_id session_id] in
        let has_data := negb (is_empty_bytes (be_data e)) in
        if has_data && negb (check_received_data n session) then
          let session := fold_left restore_remaining (after stream_id buffered) session in
          (restore_buffered_stream stream_id e session, evs, closed, true)
        else
          let '(session, evs) :=
            if has_data then
              (add_received_data_and_track stream_id n session, evs ++ [stream_data_event is_bidi stream_id (be_data e)])
            else (session, evs) in
          let '(session, evs, closed) :=
            if be_fin e then
              (remove_stream_received_data stream_id (on_remote_stream_closed is_bidi session),
               evs ++ [stream_end_event is_bidi stream_id], closed ++ [(stream_id, is_bidi)])
            else (session, evs, closed) in
          deliver_loop session_id buffered rest session evs closed
    end
  end.

Definition remove_closed_stream (c : Connection) (x : Z * bool) : Connection :=
  let '(stream_id, is_bidi) := x in
  if is_bidi then set_wt_bidi_streams (delete stream_id (wt_bidi_streams c)) c
  else set_wt_uni_streams (delete stream_id (wt_uni_streams c)) c.

Definition deliver_buffered_streams (session_id : Z) (c : Connection) : Connection * bool :=
  match wt_sessions c !! session_id with
  | None => (c, false)
  | Some session =>
    let '(session, buffered) := take_buffered_streams session in
    let '(session, evs, closed, fc_violation) := deliver_loop session_id buffered buffered session [] [] in
    let '(session, datagrams) := if fc_violation then (session, []) else take_buffered_datagrams session in
    let c := fold_left remove_closed_stream closed (push_events evs c) in
    let c := push_events (map (fun payload => EvWebTransport (WtDatagram session_id payload)) datagrams) c in
    (set_wt_sessions (<[session_id := session]> (wt_sessions c)) c, fc_violation)
  end.

(** ** Capsules on the CONNECT stream *)
Definition drain_session (session_id : Z) (c : Connection) : Connection :=
  push_wt (WtSessionDraining session_id) (update_session session_id (set_ws_state WtDraining) c).

Definition handle_wt_capsule (session_id : Z) (capsule : Capsule) : action unit :=
  match capsule with
  | CloseSession error_code message => terminate_wt_session_with session_id SESSION_GONE error_code message
  | DrainSession =>
    modify (fun c =>
      match wt_sessions c !! session_id with
      | Some session =>
        match ws_state session with
        | WtEstablished | WtPending => drain_session session_id c
        | _ => c
        end
      | None => c
      end)
  | MaxData _ | MaxStreams _ _ | DataBlocked _ | StreamsBlocked _ _ =>
    modify (fun c =>
      if wt_session_flow_control_enabled session_id c then push_wt (WtCapsule session_id capsule) c else c)
  | UnknownCapsule _ _ =>
    if is_prohibited_in_http3 capsule
    then terminate_wt_session_with session_id SESSION_GONE 0 (str "prohibited capsule received")
    else done_with
  end.

Definition is_close_session (c : Capsule) : bool := match c with CloseSession _ _ => true | _ => false end.

(** The [while let] loop: every round but the last takes a capsule off the buffer, so one
    unit of fuel per byte and one more is enough. *)
Fixpoint wt_capsule_loop (fuel : nat) (session_id : Z) : action unit :=
  match fuel with
  | O => expect None
  | S fuel =>
    sessions ← gets wt_sessions;
    match sessions !! session_id with
    | None => done_with
    | Some session =>
      if is_empty_bytes (capsule_buf session) then done_with
      else
        match decode_capsule (capsule_buf session) with
        | Err _ => throw message_error
        | Ok None => done_with
        | Ok (Some (capsule, consumed)) =>
          modify (update_session session_id (set_capsule_buf (drop_z consumed (capsule_buf session))));;
          handle_wt_capsule session_id capsule;;
          throw_if (is_close_session capsule && (consumed <? len (capsule_buf session))) message_error;;
          wt_capsule_loop fuel session_id
        end
    end
  end.

Definition append_capsule_data (data : bytes) (s : WtSession) : WtSession := set_capsule_buf (capsule_buf s ++ data) s.

Definition process_wt_capsule_data (session_id : Z) (data : bytes) : action unit :=
  sessions ← gets wt_sessions;
  match sessions !! session_id with
  | None => done_with
  | Some session =>
    modify (update_session session_id (append_capsule_data data));;
    wt_capsule_loop (S (length (capsule_buf session ++ data))) session_id
  end.

Definition MAX_DEFERRED_DATA_BYTES : Z := 64 * 1024.
Definition PENDING_CAPSULE_BUF_LIMIT : Z := 64 * 1024.

(** Whether the DATA frame was for a session. The [expect]s say that the stream is there. *)
Definition handle_wt_data_frame (stream_id : Z) (data : bytes) : action bool :=
  c ← get;
  if has_key (deferred_wt_connects c) stream_id then
    stream ← expect (streams c !! stream_id);
    throw_if (MAX_DEFERRED_DATA_BYTES <? len (rq_recv_body stream) + len data) message_error;;
    mret true
  else
    match wt_sessions c !! stream_id with
    | None => throw_if (in_set (closed_wt_sessions c) stream_id) message_error;; mret false
    | Some session =>
      match ws_state session with
      | WtEstablished | WtDraining => process_wt_capsule_data stream_id data;; mret true
      | WtPending =>
        if bool_decide (peer_wt_draft_version c = Some Draft02) then mret true
        else if bool_decide (role c = Server) then
          throw_if (PENDING_CAPSULE_BUF_LIMIT <? len (capsule_buf session) + len data) message_error;;
          modify (update_session stream_id (append_capsule_data data));;
          mret true
        else throw message_error
      | WtClosed => throw message_error
      end
    end.

(** The FIN of the CONNECT stream. The result is not used by the caller. *)
Definition handle_wt_stream_end (stream_id : Z) : action bool :=
  c ← get;
  if has_key (deferred_wt_connects c) stream_id then
    modify (set_deferred_wt_connects (delete stream_id (deferred_wt_connects c)));; mret true
  else
    match wt_sessions c !! stream_id with
    | Some session =>
      if bool_decide (ws_state session = WtPending) then modify (bury_session stream_id);; mret true
      else
        throw_if (negb (is_empty_bytes (capsule_buf session))) message_error;;
        terminate_wt_session stream_id;; mret true
    | None => mret (in_set (closed_wt_sessions c) stream_id)
    end.

(** ** Registration and establishment *)
Definition take_offer (headers : list Header) (s : WtSession) : WtSession :=
  match offered_protocols headers with Some l => set_ws_available_protocols l s | None => s end.

Definition register_wt_connect_session (stream_id : Z) (headers : list Header) (c : Connection) : Connection :=
  if negb (bool_decide (role c = Server)) || negb (is_webtransport_connect headers) then c
  else
    let session := default wt_session_new (wt_sessions c !! stream_id) in
    let c := set_wt_sessions (<[stream_id := take_offer headers session]> (wt_sessions c)) c in
    update_stream stream_id (fun s => set_wt_connect (set_connect s)) c.

(** What both ends do to a pending session whose request succeeds; the result says whether
    there was one. *)
Definition establish_session (stream_id : Z) (c : Connection) : Connection * bool :=
  let fc_enabled := is_wt_flow_control_enabled c in
  let queue_initial_capsules := fc_enabled && peer_requires_initial_wt_capsules c in
  match wt_sessions c !! stream_id with
  | Some session =>
    if bool_decide (ws_state session = WtPending) then
      let session := set_ws_flow_control_enabled fc_enabled session in
      let session := match local_wt c with
        | Some wt => initialize_flow_control wt queue_initial_capsules session
        | None => session
        end in
      (set_wt_sessions (<[stream_id := set_ws_state WtEstablished session]> (wt_sessions c)) c, true)
    else (c, false)
  | None => (c, false)
  end.

(** The event and the buffered streams; the result is a flow control violation. *)
Definition announce_session (stream_id : Z) (c : Connection) : Connection * bool :=
  deliver_buffered_streams stream_id
    (push_wt (WtSessionEstablished stream_id (is_wt_flow_control_enabled c)) c).

(** At the client, when the response arrives. *)
Definition handle_wt_connect_response (stream_id : Z) (headers : list Header) : action unit :=
  c ← get;
  if negb (bool_decide (role c = Client)) || negb (is_success_status headers) then done_with
  else
    throw_if (has_key (wt_sessions c) stream_id && has_forbidden_capsule_headers headers) message_error;;
    throw_if (has_key (wt_sessions c) stream_id && is_forbidden_capsule_status headers) message_error;;
    let invalid := some_and (wt_sessions c !! stream_id) (fun session =>
      bool_decide (ws_state session = WtPending) &&
      protocol_not_offered (ws_available_protocols session) (selected_wt_protocol headers)) in
    if invalid then terminate_wt_session_with stream_id ALPN_ERROR 0 []
    else
      established ← run_method (establish_session stream_id);
      if negb established then done_with
      else
        modify (update_stream stream_id set_connect);;
        fc_violation ← run_method (announce_session stream_id);
        if fc_violation : bool then terminate_flow_control stream_id else done_with.

(** [if let Err(e) = .. { self.terminate_wt_session(stream_id); return Err(e); }] *)
Definition process_buffered_capsules (stream_id : Z) : action unit := fun c =>
  match process_wt_capsule_data stream_id [] c with
  | Some (c, Err e) => (terminate_wt_session stream_id;; throw e) c
  | other => other
  end.

(** At the server, when it sends the response. A session whose buffered capsules are
    malformed is ended before the error is returned. *)
Definition establish_wt_session_server (stream_id : Z) (headers : list Header) : action unit :=
  c ← get;
  if negb (bool_decide (role c = Server)) || negb (is_success_status headers) then done_with
  else
    established ← run_method (establish_session stream_id);
    if negb established then done_with
    else
      fc_violation ← run_method (announce_session stream_id);
      if fc_violation : bool then terminate_flow_control stream_id
      else
        sessions ← gets wt_sessions;
        if is_some_and (fun s => negb (is_empty_bytes (capsule_buf s))) (sessions !! stream_id) then
          process_buffered_capsules stream_id
        else done_with.

(** The events of a header section. *)
Definition header_events (stream_id : Z) (headers : list Header) : list Event :=
  EvHeadersBegin stream_id :: map (fun h => EvHeader stream_id (name h) (value h)) headers ++ [EvHeadersEnd stream_id].

(** One request that was held back until the SETTINGS frame, and all of them: an error
    ends the loop, after all have been taken out. *)
Definition process_deferred_wt_connect (stream_id : Z) (headers : list Header) : action unit :=
  c ← get;
  lift (validate_wt_connect_request_server stream_id headers c);;
  modify (register_wt_connect_session stream_id headers);;
  streams ← gets streams;
  match streams !! stream_id with
  | Some stream =>
    if is_empty_bytes (rq_recv_body stream) then done_with
    else modify (update_session stream_id (append_capsule_data (rq_recv_body stream)))
  | None => done_with
  end;;
  modify (push_events (header_events stream_id headers)).

Fixpoint process_deferred_list (l : list (Z * list Header)) : action unit :=
  match l with
  | [] => done_with
  | (stream_id, headers) :: l => process_deferred_wt_connect stream_id headers;; process_deferred_list l
  end.
Definition process_deferred_wt_connects : action unit :=
  deferred ← gets deferred_wt_connects;
  modify (set_deferred_wt_connects ∅);;
  process_deferred_list (map_to_list deferred).

(** ** RESET_STREAM and STOP_SENDING *)

(** [for session in self.wt_sessions.values_mut() { if session.remove_buffered_stream(..) ..}]. *)
Fixpoint remove_from_sessions (stream_id : Z) (l : list (Z * WtSession)) (m : gmap Z WtSession)
    : gmap Z WtSession * bool :=
  match l with
  | [] => (m, false)
  | (session_id, session) :: l =>
    let '(session, found) := remove_buffered_stream stream_id session in
    let m := <[session_id := session]> m in
    if found then (m, true) else remove_from_sessions stream_id l m
  end.

Definition remove_from_buffers (stream_id : Z) (c : Connection) : Connection * bool :=
  let '(m, found) := remove_from_sessions stream_id (map_to_list (wt_sessions c)) (wt_sessions c) in
  (set_wt_sessions m c, found).

(** The session of a data stream. *)
Definition wt_session_of (stream_id : Z) (c : Connection) : option Z :=
  match wt_uni_streams c !! stream_id with Some id => Some id | None => wt_bidi_streams c !! stream_id end.

Definition account_wt_stream_reset (session_id stream_id final_size : Z) : action bool :=
  c ← get;
  kind ← expect (from_stream_id stream_id);
  header_len ← expect (if is_local_initiated_bidi kind c then Some 0 else wt_stream_header_len c stream_id);
  let accounted := match wt_sessions c !! session_id with Some s => get_stream_received_data stream_id s | None => 0 end in
  let residual := saturating_sub (saturating_sub final_size header_len) accounted in
  match wt_sessions c !! session_id with
  | None => mret false
  | Some session =>
    if negb (check_received_data residual session) then terminate_flow_control session_id;; mret true
    else
      modify (update_session session_id (fun s => ws_on_data_consumed residual (add_received_data residual s)));;
      mret false
  end.

(** The reset of a data stream that belongs to a session. *)
Definition reset_data_stream (stream_id session_id error_code final_size : Z) : action unit :=
  is_bidi ← gets (fun c => has_key (wt_bidi_streams c) stream_id);
  kind ← expect (from_stream_id stream_id);
  local_uni ← gets (is_local_initiated_uni kind);
  if local_uni : bool then done_with
  else
    ended ← account_wt_stream_reset session_id stream_id final_size;
    if ended : bool then done_with
    else
      local_bidi ← gets (is_local_initiated_bidi kind);
      modify (update_session session_id (fun s =>
        let s := if local_bidi : bool then s else on_remote_stream_closed is_bidi s in
        disassociate_stream stream_id (remove_stream_received_data stream_id s)));;
      modify (fun c => remove_wt_stream c stream_id);;
      modify (push_wt (WtStreamResetEvent session_id stream_id error_code final_size)).

(** Whether the reset concerned WebTransport. *)
Definition handle_wt_stream_reset (stream_id error_code final_size : Z) : action bool :=
  c ← get;
  if has_key (wt_sessions c) stream_id then terminate_wt_session stream_id;; mret true
  else if in_set (closed_wt_sessions c) stream_id then mret true
  else if has_key (deferred_wt_connects c) stream_id then
    modify (set_deferred_wt_connects (delete stream_id (deferred_wt_connects c)));; mret true
  else if has_key (pending_wt_bidi_pre_negotiation c) stream_id then
    modify (set_pending_wt_bidi_pre_negotiation (delete stream_id (pending_wt_bidi_pre_negotiation c)));;
    modify (set_ignored_pre_negotiation_wt_bidi (ignored_pre_negotiation_wt_bidi c ∪ {[stream_id]}));;
    mret true
  else if in_set (ignored_pre_negotiation_wt_bidi c) stream_id then mret true
  else
    found ← run_method (remove_from_buffers stream_id);
    if found : bool then mret true
    else
      match wt_session_of stream_id c with
      | None => mret false
      | Some session_id => reset_data_stream stream_id session_id error_code final_size;; mret true
      end.

Definition handle_wt_stop_sending (stream_id error_code : Z) : action bool :=
  c ← get;
  if has_key (wt_sessions c) stream_id then terminate_wt_session stream_id;; mret true
  else if in_set (closed_wt_sessions c) stream_id then mret true
  else if has_key (pending_wt_bidi_pre_negotiation c) stream_id ||
          in_set (ignored_pre_negotiation_wt_bidi c) stream_id then mret true
  else
    match wt_session_of stream_id c with
    | None => mret false
    | Some session_id => modify (push_wt (WtStreamStopSending session_id stream_id error_code));; mret true
    end.

(** ** What the application reports and takes *)
Definition wt_data_consumed (session_id n : Z) : Connection -> Connection :=
  update_session session_id (ws_on_data_consumed n).

Definition take_wt_pending_capsules (session_id : Z) (c : Connection) : Connection * list Capsule :=
  match wt_sessions c !! session_id with
  | Some session =>
    let '(session, l) := take_pending_capsules session in
    (set_wt_sessions (<[session_id := session]> (wt_sessions c)) c, l)
  | None => (c, [])
  end.

(** ** Ending a session is always possible *)
Lemma stream_header_len_total type id : varint_ok id -> is_Some (stream_header_len type id).
Proof. intros H. unfold stream_header_len. rewrite varint_new_in by done. eauto. Qed.

Lemma wt_stream_header_len_total k c id : conn_wf k c -> is_Some (wt_stream_header_len c id).
Proof.
  intros Hw. unfold wt_stream_header_len. repeat case_match; eauto; apply stream_header_len_total;
    [eapply (w_bidi _ _ Hw)|eapply (w_uni _ _ Hw)]; done.
Qed.

Lemma remove_wt_stream_wf k c id : conn_wf k c -> conn_wf k (remove_wt_stream c id).
Proof. intros Hw. unfold remove_wt_stream. wf_keep; by apply map_Forall_delete. Qed.
Lemma remove_wt_stream_ev c id : evolves c (remove_wt_stream c id).
Proof. ev_keep. Qed.

Lemma bury_session_wf k id c : conn_wf k c -> conn_wf k (bury_session id c).
Proof. intros Hw. unfold bury_session. wf_keep. by apply map_Forall_delete. Qed.
Lemma bury_session_ev id c : evolves c (bury_session id c).
Proof. ev_keep. set_solver. Qed.
#[export] Hint Resolve remove_wt_stream_wf remove_wt_stream_ev bury_session_wf bury_session_ev : conn.

Section folds.
Context {A : Type} (f : Connection -> A -> Connection).
Lemma fold_wf k l c : (forall c x, conn_wf k c -> conn_wf k (f c x)) -> conn_wf k c -> conn_wf k (fold_left f l c).
Proof. intros Hf. revert c. induction l as [|x l IH]; cbn; auto. Qed.
Lemma fold_ev l c : (forall c x, evolves c (f c x)) -> evolves c (fold_left f l c).
Proof. intros Hf. revert c. induction l as [|x l IH]; intros c; cbn; [reflexivity|]. etrans; [apply Hf|apply IH]. Qed.
End folds.
#[export] Hint Resolve fold_wf fold_ev : conn.

Lemma terminate_safe id code close msg : safe (terminate_wt_session_with id code close msg).
Proof.
  intros k c Hw. unfold terminate_wt_session_with. wp_step. destruct (wt_sessions c !! id); [|by wp_steps].
  case_bool_decide; [by wp_steps|]. wp_step.
  edestruct (proj2 (mapM_is_Some (fun sid => n ← wt_stream_header_len c sid; Some (mkStreamReset sid n))
    (elements (associated_streams w)))) as [resets ->].
  - apply Forall_true. intros sid. cbn. destruct (wt_stream_header_len_total k c sid Hw) as [n ->]. eauto.
  - eapply wp_expect_bind; [done|]. wp_steps.
Qed.

(** ** The buffers when the session is established

    [room] further streams can be put back; the entries that are left belong to listed
    streams and to [l]. *)
Record holding (room : Z) (l : list Z) (s : WtSession) : Prop := {
  ho_streams : len (ws_buffered_streams s) + room <= WT_MAX_BUFFERED_STREAMS;
  ho_listed : dom (buffered_stream_entries s) ⊆ (list_to_set (ws_buffered_streams s) ∪ list_to_set l : gset Z);
  ho_entries : map_Forall (fun _ e => len (be_data e) <= WT_MAX_BUFFERED_STREAM_BYTES) (buffered_stream_entries s);
  ho_datagrams : len (ws_buffered_datagrams s) <= WT_MAX_BUFFERED_DATAGRAMS;
  ho_capsules : bytes_ok (capsule_buf s) }.

Lemma holding_wf room s : 0 <= room -> holding room [] s -> session_wf s.
Proof. intros ? []. split; try done; [lia|set_solver]. Qed.

Lemma holding_mono room room' (l l' : list Z) s : room' <= room -> (list_to_set l : gset Z) ⊆ list_to_set l' ->
  holding room l s -> holding room' l' s.
Proof. intros ? ? []. split; try done; [lia|set_solver]. Qed.

Lemma holding_same room l s s' : same_buffers s s' -> holding room l s -> holding room l s'.
Proof. intros (H1 & H2 & H3 & H4) []. split; by rewrite ?H1, ?H2, ?H3, ?H4. Qed.

Lemma holding_take s : session_wf s ->
  holding (len (ws_buffered_streams s)) (ws_buffered_streams s) (fst (take_buffered_streams s)).
Proof. intros []. split; cbn; try done; set_solver. Qed.

Lemma take_entry_holding room id l s : holding room (id :: l) s ->
  holding room l (fst (take_buffered_stream_entry id s)) /\
  forall e, buffered_stream_entries s !! id = Some e -> len (be_data e) <= WT_MAX_BUFFERED_STREAM_BYTES.
Proof.
  intros []. split; [|intros e He; exact (ho_entries0 _ _ He)].
  split; cbn; try done; [|by apply map_Forall_delete].
  rewrite dom_delete_L. set_solver.
Qed.

Lemma restore_holding room l id e s : len (be_data e) <= WT_MAX_BUFFERED_STREAM_BYTES -> holding room l s ->
  holding (room - 1) l (restore_buffered_stream id e s).
Proof.
  intros He []. split; cbn; try done.
  - rewrite len_app, len_cons, len_nil. lia.
  - rewrite dom_insert_L, list_to_set_app_L. set_solver.
  - by apply map_Forall_insert_2.
Qed.

Lemma restore_remaining_holding l room s : len l <= room -> holding room l s ->
  holding (room - len l) [] (fold_left restore_remaining l s).
Proof.
  revert room s. induction l as [|x l IH]; intros room s Hl Hs; cbn [fold_left].
  { rewrite len_nil. apply (holding_mono room _ []); [lia|done|done]. }
  rewrite len_cons in *. replace (room - (1 + len l)) with (room - 1 - len l) by lia.
  apply IH; [lia|]. unfold restore_remaining.
  destruct (take_entry_holding _ _ _ _ Hs) as [Ht He].
  unfold take_buffered_stream_entry in *. cbn in Ht |- *. destruct (buffered_stream_entries s !! x) as [e|].
  - apply restore_holding; auto.
  - apply (holding_mono room _ l); [lia|done|done].
Qed.

Lemma after_app (x : Z) (l k : list Z) : (list_to_set k : gset Z) ⊆ list_to_set (after x (l ++ x :: k)).
Proof.
  induction l as [|y l IH]; cbn; [by rewrite Z.eqb_refl|]. case_z; [|done]. rewrite list_to_set_app_L. set_solver.
Qed.
Lemma len_after x l k : len (after x (l ++ x :: k)) <= len (l ++ x :: k) - 1.
Proof.
  induction l as [|y l IH]; cbn; [rewrite Z.eqb_refl, len_cons; lia|]. rewrite len_cons. case_z; lia.
Qed.

Lemma deliver_loop_wf session_id buffered rest : forall before session evs closed, buffered = before ++ rest ->
  holding (len buffered) rest session ->
  session_wf (fst (fst (fst (deliver_loop session_id buffered rest session evs closed)))).
Proof.
  induction rest as [|id rest IH]; intros before session evs closed Hb Hs; cbn [deliver_loop].
  { apply (holding_wf (len buffered)); [apply len_nonneg|done]. }
  destruct (take_entry_holding _ _ _ _ Hs) as [Ht He].
  unfold take_buffered_stream_entry in *. cbn [fst] in Ht.
  assert (forall s evs closed, holding (len buffered) rest s ->
    session_wf (fst (fst (fst (deliver_loop session_id buffered rest s evs closed))))) as Hnext.
  { intros. apply (IH (before ++ [id])); [by rewrite <- app_assoc|done]. }
  destruct (buffered_stream_entries session !! id) as [e|]; [|by apply Hnext].
  set (s := set_buffered_stream_entries _ session) in *. specialize (He e eq_refl).
  pose proof (after_app id before rest) as Hset. pose proof (len_after id before rest) as Hlen. rewrite <- Hb in *.
  pose proof (len_nonneg (after id buffered)).
  destruct (check_received_stream _ _); cbn [negb].
  - set (s1 := associate_stream _ _). assert (holding (len buffered) rest s1) as H1.
    { apply (holding_same _ _ s); [|done]. etrans; [apply add_received_stream_same|apply associate_stream_same]. }
    destruct (negb (is_empty_bytes _) && negb _).
    + cbn [fst]. apply (holding_wf (len buffered - len (after id buffered) - 1)); [lia|].
      apply restore_holding; [done|]. apply restore_remaining_holding; [lia|].
      apply (holding_mono (len buffered) _ rest); [lia|done|done].
    + destruct (negb (is_empty_bytes _)), (be_fin e); apply Hnext; try done;
        (eapply holding_same; [|exact H1]); repeat (etrans; [|apply on_remote_stream_closed_same]); done.
  - cbn [fst]. apply (holding_wf (len buffered - 1 - len (after id buffered))); [lia|].
    apply restore_remaining_holding; [lia|]. apply (holding_mono (len buffered - 1) _ rest); [lia|done|].
    by apply restore_holding.
Qed.

(** ** The methods keep the invariant *)

(** Solves what is left of [conn_wf] and [evolves] after a case analysis. *)
Ltac conn_auto := repeat (case_match; simplify_eq/=); try done; eauto with conn.

Lemma associate_or_buffer_wf k c stream_id session_id b : conn_wf k c -> varint_ok session_id ->
  conn_wf k (fst (associate_or_buffer_stream stream_id session_id b c)).
Proof.
  intros Hw Hi. unfold associate_or_buffer_stream. destruct (wt_sessions c !! session_id) as [s|] eqn:E.
  - destruct (session_at _ _ Hw _ _ E) as [_ Hs]. destruct (ws_state s); try done.
    + pose proof (buffer_stream_wf s Hs stream_id b). destruct (buffer_stream stream_id b s).
      by apply insert_session_wf.
    + apply update_session_wf; [done|]. intros s' _. apply same_buffers_wf, associate_stream_same.
  - case_bool_decide; [done|]. destruct (in_set _ _); [done|]. destruct (some_and _ _); [done|]. case_z; [done|].
    pose proof (buffer_stream_wf _ wt_session_new_wf stream_id b). destruct (buffer_stream _ _ _).
    by apply insert_session_wf.
Qed.
Lemma associate_or_buffer_ev c stream_id session_id b :
  evolves c (fst (associate_or_buffer_stream stream_id session_id b c)).
Proof. unfold associate_or_buffer_stream. conn_auto. Qed.

Lemma remove_closed_stream_wf k c x : conn_wf k c -> conn_wf k (remove_closed_stream c x).
Proof.
  intros Hw. unfold remove_closed_stream. destruct x as [id []]; wf_keep; by apply map_Forall_delete.
Qed.
Lemma remove_closed_stream_ev c x : evolves c (remove_closed_stream c x).
Proof. unfold remove_closed_stream. destruct x as [id []]; ev_keep. Qed.
#[export] Hint Resolve associate_or_buffer_wf associate_or_buffer_ev remove_closed_stream_wf remove_closed_stream_ev : conn.

Lemma deliver_wf k c id : conn_wf k c -> conn_wf k (fst (deliver_buffered_streams id c)).
Proof.
  intros Hw. unfold deliver_buffered_streams. destruct (wt_sessions c !! id) as [s|] eqn:E; [|done].
  destruct (session_at _ _ Hw _ _ E) as [Hi Hs].
  pose proof (deliver_loop_wf id (ws_buffered_streams s) (ws_buffered_streams s) [] _ [] [] eq_refl (holding_take s Hs)) as Hd.
  unfold take_buffered_streams in *. cbn [fst] in Hd.
  destruct (deliver_loop _ _ _ _ _ _) as [[[s' evs] closed] bad]. cbn [fst] in Hd.
  assert (session_wf (fst (if bad then (s', []) else take_buffered_datagrams s'))) as Hd'.
  { destruct bad; [done|by apply take_datagrams_wf]. }
  destruct (if bad then _ else _) as [s'' datagrams]. cbn [fst] in Hd' |- *.
  apply insert_session_wf; auto 6 with conn.
Qed.
Lemma deliver_ev c id : evolves c (fst (deliver_buffered_streams id c)).
Proof.
  unfold deliver_buffered_streams, take_buffered_streams. destruct (wt_sessions c !! id); [|reflexivity].
  destruct (deliver_loop _ _ _ _ _ _) as [[[s' evs] closed] bad]. destruct (if bad then _ else _). cbn [fst].
  etrans; [|apply set_wt_sessions_ev]. etrans; [|apply push_events_ev]. etrans; [apply push_events_ev|].
  auto with conn.
Qed.

Lemma drain_session_wf k c id : conn_wf k c -> conn_wf k (drain_session id c).
Proof.
  intros Hw. unfold drain_session. apply push_wt_wf, update_session_wf; [done|].
  intros s _. apply same_buffers_wf, set_ws_state_same.
Qed.
Lemma drain_session_ev c id : evolves c (drain_session id c).
Proof. unfold drain_session. ev_keep. Qed.
#[export] Hint Resolve deliver_wf deliver_ev drain_session_wf drain_session_ev : conn.

(** ** Capsules *)

(** Sessions are removed, but the capsule buffer of one that stays is the same. *)
Definition bufs_kept (c c' : Connection) : Prop :=
  forall id s', wt_sessions c' !! id = Some s' -> exists s, wt_sessions c !! id = Some s /\ capsule_buf s' = capsule_buf s.
Lemma bufs_kept_same c c' : wt_sessions c' = wt_sessions c -> bufs_kept c c'.
Proof. intros He id s'. rewrite He. eauto. Qed.

Lemma fold_remove_sessions l : forall c, wt_sessions (fold_left remove_wt_stream l c) = wt_sessions c.
Proof. induction l as [|x l IH]; intros c; cbn; [done|]. by rewrite IH. Qed.

Lemma terminate_kept id code close msg k c : conn_wf k c ->
  wp k (terminate_wt_session_with id code close msg) c (fun _ c' => bufs_kept c c').
Proof.
  intros Hw. destruct (terminate_safe id code close msg k c Hw) as (c' & r & Hm & Hw' & He & _).
  exists c', r. split_and!; try done. destruct r as [[]|]; [|done]. revert Hm.
  unfold terminate_wt_session_with, gets, get, mbind, action_bind, expect. cbn.
  destruct (wt_sessions c !! id) as [s|]; [|by intros [= <-]; apply bufs_kept_same].
  case_bool_decide; [by intros [= <-]; apply bufs_kept_same|].
  destruct (mapM _ _) as [resets|]; [|done]. cbn. intros [= <-] j s'. cbn. rewrite fold_remove_sessions.
  intros Hj%lookup_delete_Some. destruct Hj. eauto.
Qed.

Lemma handle_wt_capsule_kept id cap k c : conn_wf k c ->
  wp k (handle_wt_capsule id cap) c (fun _ c' => bufs_kept c c').
Proof.
  intros Hw. destruct cap as [e m| |v|b v|v|b v|t p]; cbn [handle_wt_capsule].
  - by apply terminate_kept.
  - apply wp_modify.
    + repeat case_match; auto with conn.
    + repeat case_match; auto with conn.
    + destruct (wt_sessions c !! id) as [s|] eqn:E; [|by apply bufs_kept_same].
      assert (bufs_kept c (drain_session id c)).
      { intros j s'. cbn. intros Hj%lookup_alter_Some. destruct Hj as [(<- & s1 & Hs & ->)|[_ Hs]]; eauto. }
      destruct (ws_state s); try done; by apply bufs_kept_same.
  - apply wp_modify; case_match; auto with conn; by apply bufs_kept_same.
  - apply wp_modify; case_match; auto with conn; by apply bufs_kept_same.
  - apply wp_modify; case_match; auto with conn; by apply bufs_kept_same.
  - apply wp_modify; case_match; auto with conn; by apply bufs_kept_same.
  - case_match; [by apply terminate_kept|]. by apply wp_done, bufs_kept_same.
Qed.

Lemma wt_capsule_loop_wp id fuel : forall k c, conn_wf k c ->
  (forall s, wt_sessions c !! id = Some s -> (length (capsule_buf s) < fuel)%nat) -> (0 < fuel)%nat ->
  wp k (wt_capsule_loop fuel id) c (fun _ _ => True).
Proof.
  induction fuel as [|fuel IH]; intros k c Hw Hf H0; [lia|]. cbn [wt_capsule_loop]. wp_step.
  destruct (wt_sessions c !! id) as [s|] eqn:E; [|by wp_steps].
  destruct (is_empty_bytes (capsule_buf s)); [by wp_steps|].
  destruct (session_at _ _ Hw _ _ E) as [_ Hs].
  destruct (decode_capsule _) as [[[cap n]|]|] eqn:Hd; [|by wp_steps..].
  apply decode_capsule_sound in Hd as (_ & _ & Hn); [|apply Hs].
  apply wp_modify_bind; [|auto with conn|intros Hw1].
  { apply update_session_wf; [done|]. intros s' Hs' Hwf. apply set_capsule_buf_wf; [done|]. apply bytes_ok_drop, Hs. }
  eapply wp_seq; [by apply handle_wt_capsule_kept|]. intros [] c2 Hw2 _ Hk. wp_step.
  apply IH; [done| |].
  - intros s2 Hs2. apply Hk in Hs2 as (s1 & Hs1 & ->). cbn in Hs1.
    rewrite lookup_alter_eq, E in Hs1. injection Hs1 as <-. cbn. specialize (Hf s eq_refl).
    pose proof (len_drop n (capsule_buf s) ltac:(lia)). unfold len in *. lia.
  - specialize (Hf s eq_refl). unfold len in Hn. lia.
Qed.

Lemma append_capsule_wf data s : bytes_ok data -> session_wf s -> session_wf (append_capsule_data data s).
Proof. intros Hd Hs. apply set_capsule_buf_wf; [done|]. apply bytes_ok_app. split; [apply Hs|done]. Qed.

Lemma process_wt_capsule_data_safe id data : bytes_ok data -> safe (process_wt_capsule_data id data).
Proof.
  intros Hd k c Hw. unfold process_wt_capsule_data. wp_step.
  destruct (wt_sessions c !! id) as [s|] eqn:E; [|by wp_steps].
  apply wp_modify_bind; [|auto with conn|intros Hw1].
  { apply update_session_wf; [done|]. intros s' _. by apply append_capsule_wf. }
  apply wt_capsule_loop_wp; [done| |lia]. intros s1. cbn. rewrite lookup_alter_eq, E. intros [= <-]. cbn. lia.
Qed.

(** A call of an action that is safe, in the middle and at the end. *)
Ltac wp_call H := eapply wp_safe; [eapply H|assumption|intros ? ? ? ?].
Lemma safe_wp {A} (m : action A) k c : safe m -> conn_wf k c -> wp k m c (fun _ _ => True).
Proof. auto. Qed.

Lemma handle_wt_data_frame_wp id data k c : bytes_ok data -> is_Some (streams c !! id) -> conn_wf k c ->
  wp k (handle_wt_data_frame id data) c (fun _ _ => True).
Proof.
  intros Hd [st Hst] Hw. unfold handle_wt_data_frame. wp_step. case_match.
  { eapply wp_expect_bind; [done|]. wp_steps. }
  destruct (wt_sessions c !! id) as [s|] eqn:E; [|by wp_steps]. destruct (ws_state s).
  - case_bool_decide; [by wp_steps|]. case_bool_decide; [|by wp_steps]. wp_step.
    apply wp_modify_bind; [|auto with conn|intros; by wp_steps].
    apply update_session_wf; [done|]. intros s' _. by apply append_capsule_wf.
  - wp_call process_wt_capsule_data_safe; [done|]. by wp_steps.
  - wp_call process_wt_capsule_data_safe; [done|]. by wp_steps.
  - by wp_steps.
Qed.

Lemma delete_deferred_wf k c id : conn_wf k c -> conn_wf k (set_deferred_wt_connects (delete id (deferred_wt_connects c)) c).
Proof.
  intros Hw. wf_keep; [by apply map_Forall_delete|]. etrans; [|exact w_deferred_size].
  apply inj_le. rewrite map_size_delete. case_match; unfold Datatypes.id; lia.
Qed.
Lemma delete_deferred_ev c m : evolves c (set_deferred_wt_connects m c).
Proof. ev_keep. Qed.
#[export] Hint Resolve delete_deferred_wf delete_deferred_ev : conn.

Lemma handle_wt_stream_end_safe id : safe (handle_wt_stream_end id).
Proof.
  intros k c Hw. unfold handle_wt_stream_end. wp_step. case_match; [by wp_steps|].
  destruct (wt_sessions c !! id) as [s|]; [|by wp_steps]. case_bool_decide; [by wp_steps|]. wp_step.
  wp_call terminate_safe. by wp_steps.
Qed.

Lemma take_offer_same headers s : same_buffers s (take_offer headers s).
Proof. unfold take_offer. by case_match. Qed.

Lemma stream_wf_same s s' : rq_recv_buf s' = rq_recv_buf s -> rq_send_buf s' = rq_send_buf s ->
  rq_recv_body s' = rq_recv_body s -> stream_wf s -> stream_wf s'.
Proof. intros H1 H2 H3 []. split; by rewrite ?H1, ?H2, ?H3. Qed.

Lemma register_wf k c id headers : conn_wf k c -> varint_ok id -> conn_wf k (register_wt_connect_session id headers c).
Proof.
  intros Hw Hi. unfold register_wt_connect_session. case_match; [done|].
  apply update_stream_wf; [|by intros s; apply stream_wf_same].
  apply insert_session_wf; [done..|]. apply (same_buffers_wf _ _ (take_offer_same _ _)).
  destruct (wt_sessions c !! id) eqn:E; [apply (session_at _ _ Hw _ _ E)|apply wt_session_new_wf].
Qed.
Lemma register_ev c id headers : evolves c (register_wt_connect_session id headers c).
Proof. unfold register_wt_connect_session. case_match; ev_keep. Qed.

Lemma establish_wf k c id : conn_wf k c -> conn_wf k (fst (establish_session id c)).
Proof.
  intros Hw. unfold establish_session. destruct (wt_sessions c !! id) eqn:E; [|done]. case_bool_decide; [|done].
  destruct (session_at _ _ Hw _ _ E). apply insert_session_wf; [done..|].
  eapply same_buffers_wf; [|eassumption]. etrans; [|apply set_ws_state_same].
  case_match; [|done]. etrans; [|apply initialize_flow_control_same]. done.
Qed.
Lemma establish_ev c id : evolves c (fst (establish_session id c)).
Proof. unfold establish_session. conn_auto. Qed.
Lemma announce_wf k c id : conn_wf k c -> conn_wf k (fst (announce_session id c)).
Proof. unfold announce_session. auto with conn. Qed.
Lemma announce_ev c id : evolves c (fst (announce_session id c)).
Proof. unfold announce_session. etrans; [apply push_wt_ev|apply deliver_ev]. Qed.
#[export] Hint Resolve register_wf register_ev establish_wf establish_ev announce_wf announce_ev : conn.

Lemma handle_wt_connect_response_safe id headers : safe (handle_wt_connect_response id headers).
Proof.
  intros k c Hw. unfold handle_wt_connect_response. wp_step. case_match; [by wp_steps|]. do 2 wp_step.
  case_match; [by apply terminate_safe|]. apply wp_method_bind; [auto with conn..|intros Hw1].
  case_match; [by wp_steps|]. apply wp_modify_bind; [|auto with conn|intros Hw2].
  { apply update_stream_wf; [done|]. intros s. by apply stream_wf_same. }
  apply wp_method_bind; [auto with conn..|intros Hw3]. case_match; [by apply terminate_safe|by wp_steps].
Qed.

Lemma process_buffered_capsules_safe id : safe (process_buffered_capsules id).
Proof.
  intros k c Hw. unfold process_buffered_capsules.
  destruct (process_wt_capsule_data_safe id [] (Forall_nil_2 _) k c Hw) as (c' & r & Hm & Hw' & He & _).
  unfold wp. rewrite Hm. destruct r as [[]|e]; [by exists c', (Ok ())|].
  assert (wp k (terminate_wt_session id;; throw e : action unit) c' (fun _ _ => True)) as (c2 & r2 & ? & ? & ? & ?).
  { wp_call terminate_safe. by wp_steps. }
  exists c2, r2. split_and!; try done. by etrans.
Qed.

Lemma establish_wt_session_server_safe id headers : safe (establish_wt_session_server id headers).
Proof.
  intros k c Hw. unfold establish_wt_session_server. wp_step. case_match; [by wp_steps|].
  apply wp_method_bind; [auto with conn..|intros Hw1]. case_match; [by wp_steps|].
  apply wp_method_bind; [auto with conn..|intros Hw2]. case_match; [by apply terminate_safe|]. wp_step.
  case_match; [by apply process_buffered_capsules_safe|by wp_steps].
Qed.

Lemma process_deferred_wt_connect_safe id headers : varint_ok id -> safe (process_deferred_wt_connect id headers).
Proof.
  intros Hi k c Hw. unfold process_deferred_wt_connect. do 3 wp_step. wp_step.
  assert (forall o, (forall s, o = Some s -> stream_wf s) ->
    wp k (match o with
          | Some stream => if is_empty_bytes (rq_recv_body stream) then done_with
              else modify (update_session id (append_capsule_data (rq_recv_body stream)))
          | None => done_with end) (register_wt_connect_session id headers c) (fun _ _ => True)) as Hmid.
  { intros [s|] Hs; [|by wp_steps]. case_match; [by wp_steps|]. apply wp_modify; [|auto with conn|done].
    apply update_session_wf; [done|]. intros s' _. apply append_capsule_wf, (Hs s eq_refl). }
  eapply wp_seq; [apply Hmid|].
  - intros s Hs. by apply (stream_at _ _ H0 _ _ Hs).
  - intros [] c2 Hw2 _ _. by wp_steps.
Qed.

Lemma process_deferred_wt_connects_safe : safe process_deferred_wt_connects.
Proof.
  intros k c Hw. unfold process_deferred_wt_connects. wp_step.
  assert (Forall (fun x => varint_ok (fst x)) (map_to_list (deferred_wt_connects c))) as Hl.
  { apply Forall_forall. intros [id h] Hx%elem_of_map_to_list. exact (w_deferred _ _ Hw _ _ Hx). }
  apply wp_modify_bind; [|auto with conn|].
  { wf_keep; [apply map_Forall_empty|]. rewrite map_size_empty. by vm_compute. }
  generalize (set_deferred_wt_connects ∅ c). clear Hw. induction Hl as [|[id h] l Hi Hl IH]; intros c' Hw'; cbn.
  { by wp_steps. }
  wp_call process_deferred_wt_connect_safe; [done|]. auto.
Qed.

Lemma remove_from_sessions_wf (P : Z -> Prop) id l : forall m,
  Forall (fun x => P (fst x) /\ session_wf (snd x)) l -> map_Forall (fun i s => P i /\ session_wf s) m ->
  map_Forall (fun i s => P i /\ session_wf s) (fst (remove_from_sessions id l m)).
Proof.
  induction l as [|[i s] l IH]; intros m Hl Hm; cbn [remove_from_sessions]; [done|].
  apply Forall_cons in Hl as [[Hi Hs] Hl]. cbn [fst snd] in Hi, Hs.
  pose proof (remove_buffered_wf s Hs id) as Hr. destruct (remove_buffered_stream id s) as [s' found]. cbn in Hr.
  assert (map_Forall (fun i s => P i /\ session_wf s) (<[i := s']> m)) by by apply map_Forall_insert_2.
  destruct found; cbn; auto.
Qed.
Lemma remove_from_buffers_wf k c id : conn_wf k c -> conn_wf k (fst (remove_from_buffers id c)).
Proof.
  intros Hw. unfold remove_from_buffers.
  assert (Forall (fun x => varint_ok (fst x) /\ session_wf (snd x)) (map_to_list (wt_sessions c))) as Hl.
  { apply Forall_forall. intros [i s] Hx%elem_of_map_to_list. exact (w_sessions _ _ Hw _ _ Hx). }
  pose proof (remove_from_sessions_wf _ id _ _ Hl (w_sessions _ _ Hw)) as Hm.
  destruct (remove_from_sessions _ _ _). by apply set_wt_sessions_wf.
Qed.
Lemma remove_from_buffers_ev c id : evolves c (fst (remove_from_buffers id c)).
Proof. unfold remove_from_buffers. destruct (remove_from_sessions _ _ _). ev_keep. Qed.
#[export] Hint Resolve remove_from_buffers_wf remove_from_buffers_ev : conn.

Lemma from_stream_id_total id : is_Some (from_stream_id id).
Proof.
  unfold from_stream_id. assert (0 <= Z.land id 0x03 < 4) as Hr.
  { change 0x03 with (Z.ones 2). rewrite Z.land_ones by done. by apply Z.mod_pos_bound. }
  cbv zeta. repeat (case_z; [eauto|]). lia.
Qed.
Ltac wp_kind id := let kind := fresh "kind" in let E := fresh "Hkind" in
  destruct (from_stream_id_total id) as [kind E]; rewrite E; apply (wp_expect_bind _ _ _ _ _ kind eq_refl); clear E.

Lemma account_wt_stream_reset_safe session_id id final_size : safe (account_wt_stream_reset session_id id final_size).
Proof.
  intros k c Hw. unfold account_wt_stream_reset. wp_step. wp_kind id.
  assert (is_Some (if is_local_initiated_bidi kind c then Some 0 else wt_stream_header_len c id)) as [n Hn].
  { case_match; [eauto|]. by eapply wt_stream_header_len_total. }
  eapply wp_expect_bind; [exact Hn|]. destruct (wt_sessions c !! session_id) as [s|]; [|by wp_steps].
  destruct (negb _). { wp_call terminate_safe. by wp_steps. }
  apply wp_modify_bind; [|auto with conn|intros; by wp_steps]. apply update_session_wf; [done|].
  intros s' _. apply same_buffers_wf. etrans; [|apply ws_on_data_consumed_same]. done.
Qed.

Lemma reset_data_stream_safe id session_id code final_size : safe (reset_data_stream id session_id code final_size).
Proof.
  intros k c Hw. unfold reset_data_stream. wp_step. wp_kind id. wp_step. case_match; [by wp_steps|].
  wp_call account_wt_stream_reset_safe. case_match; [by wp_steps|]. wp_step.
  apply wp_modify_bind; [|auto with conn|intros; by wp_steps]. apply update_session_wf; [done|].
  intros s _. apply same_buffers_wf. case_match; [done|]. etrans; [apply on_remote_stream_closed_same|done].
Qed.

Lemma delete_pre_wf k c id : conn_wf k c ->
  conn_wf k (set_pending_wt_bidi_pre_negotiation (delete id (pending_wt_bidi_pre_negotiation c)) c).
Proof.
  intros Hw. wf_keep; [by apply map_Forall_delete|]. etrans; [|exact w_pre_size].
  apply inj_le. rewrite map_size_delete. case_match; unfold Datatypes.id; lia.
Qed.
Lemma set_pre_ev c m : evolves c (set_pending_wt_bidi_pre_negotiation m c).
Proof. ev_keep. Qed.
Lemma ignore_bidi_wf k c m : conn_wf k c -> conn_wf k (set_ignored_pre_negotiation_wt_bidi m c).
Proof. intros Hw. by wf_keep. Qed.
Lemma ignore_bidi_ev c m : ignored_pre_negotiation_wt_bidi c ⊆ m ->
  evolves c (set_ignored_pre_negotiation_wt_bidi m c).
Proof. intros. ev_keep. Qed.
#[export] Hint Resolve delete_pre_wf set_pre_ev ignore_bidi_wf : conn.

Lemma handle_wt_stream_reset_safe id code final_size : safe (handle_wt_stream_reset id code final_size).
Proof.
  intros k c Hw. unfold handle_wt_stream_reset. wp_step. case_match; [wp_call terminate_safe; by wp_steps|].
  case_match; [by wp_steps|]. case_match; [by wp_steps|]. case_match.
  { wp_step. apply wp_modify_bind; [auto with conn|apply ignore_bidi_ev; cbn; set_solver|intros; by wp_steps]. }
  case_match; [by wp_steps|]. apply wp_method_bind; [auto with conn..|intros Hw1]. case_match; [by wp_steps|].
  case_match; [|by wp_steps]. wp_call reset_data_stream_safe. by wp_steps.
Qed.

Lemma handle_wt_stop_sending_safe id code : safe (handle_wt_stop_sending id code).
Proof.
  intros k c Hw. unfold handle_wt_stop_sending. wp_step. case_match; [wp_call terminate_safe; by wp_steps|].
  repeat (case_match; try by wp_steps).
Qed.

Lemma wt_data_consumed_wf k c id n : conn_wf k c -> conn_wf k (wt_data_consumed id n c).
Proof.
  intros Hw. apply update_session_wf; [done|]. intros s _. apply same_buffers_wf, ws_on_data_consumed_same.
Qed.
Lemma take_wt_pending_capsules_wf k c id : conn_wf k c -> conn_wf k (fst (take_wt_pending_capsules id c)).
Proof.
  intros Hw. unfold take_wt_pending_capsules, take_pending_capsules.
  destruct (wt_sessions c !! id) as [s|] eqn:E; [|done]. destruct (session_at _ _ Hw _ _ E) as [Hi Hs].
  apply insert_session_wf; [done..|]. by apply (same_buffers_wf s).
Qed.
Lemma take_wt_pending_capsules_ev c id : evolves c (fst (take_wt_pending_capsules id c)).
Proof. unfold take_wt_pending_capsules, take_pending_capsules. conn_auto. Qed.
