(* ===== verification/ConnWtStream.v ===== *)
(** connection/wt_stream.rs: the streams and datagrams of WebTransport sessions in a
    connection. Bidirectional and unidirectional streams are treated alike once their
    header is read; [is_bidi] tells which of the two maps holds them. *)

From Stdlib Require Import String Ascii.
From S2P Require Import Prelude Codec Varint Header Settings Frame Error Stream Validation Capsule WtError WtStream Datagram Event WtSession Connection ConnInvariant ConnNegotiation ConnWtSession.

(** ** Datagrams *)
Definition datagram_error : Error := ConnectionError H3DatagramError.

Definition feed_datagram (data : bytes) : action unit :=
  check_error_state;;
  c ← get;
  if negb (is_wt_fully_negotiated c) then done_with
  else
    datagram ← lift (map_err (fun _ => datagram_error) (decode_datagram data));
    let session_id := dg_session_id (fst datagram) in
    let payload := dg_payload (fst datagram) in
    throw_if (negb (Z.land session_id 0x03 =? 0x00)) datagram_error;;
    match wt_sessions c !! session_id with
    | Some session =>
      match ws_state session with
      | WtEstablished | WtDraining => modify (push_wt (WtDatagram session_id payload))
      | WtPending => modify (update_session session_id (fun s => fst (buffer_datagram payload s)))
      | WtClosed => done_with
      end
    | None =>
      if in_set (closed_wt_sessions c) session_id then done_with
      else if bool_decide (role c = Client) then done_with
      else if some_and (last_sent_goaway_id c) (fun last_id => last_id <=? session_id) then done_with
      else if WT_MAX_PENDING_SESSIONS <=? count_pending_wt_sessions c then done_with
      else
        modify (fun c =>
          set_wt_sessions (<[session_id := fst (buffer_datagram payload wt_session_new)]> (wt_sessions c)) c)
    end.

Definition protocol_error : Error := ConnectionError GeneralProtocolError.

Definition send_datagram (session_id : Z) (payload : bytes) : action bytes :=
  c ← get;
  let local_datagram := bool_decide (h3_datagram (local_settings c) = Some true) in
  let peer_datagram := some_and (peer_settings c) (fun s => bool_decide (h3_datagram s = Some true)) in
  throw_if (negb local_datagram || negb peer_datagram) protocol_error;;
  throw_if (negb (Z.land session_id 0x03 =? 0x00)) protocol_error;;
  session ← lift (ok_or (wt_sessions c !! session_id) protocol_error);
  throw_if (bool_decide (ws_state session = WtDraining)) (Error.WtSessionDraining session_id);;
  throw_if (negb (bool_decide (ws_state session = WtEstablished))) protocol_error;;
  datagram ← lift (map_err (fun _ => ConnectionError InternalError) (datagram_new session_id payload));
  expect (encode_datagram datagram []).

(** ** Registration *)
Definition insert_wt_stream (is_bidi : bool) (stream_id session_id : Z) (c : Connection) : Connection :=
  if is_bidi then set_wt_bidi_streams (<[stream_id := session_id]> (wt_bidi_streams c)) c
  else set_wt_uni_streams (<[stream_id := session_id]> (wt_uni_streams c)) c.

Definition register_local_wt_stream (session_id stream_id : Z) : action unit :=
  kind ← expect (from_stream_id stream_id);
  c ← get;
  let is_local_bidi := is_local_initiated_bidi kind c in
  throw_if (negb is_local_bidi && negb (is_local_initiated_uni kind c)) (ConnectionError IdError);;
  throw_if (has_key (wt_bidi_streams c) stream_id || has_key (wt_uni_streams c) stream_id) creation_error;;
  throw_if (has_key (streams c) stream_id) creation_error;;
  session ← lift (ok_or (wt_sessions c !! session_id) protocol_error);
  throw_if (negb (bool_decide (ws_state session = WtEstablished))) protocol_error;;
  modify (update_session session_id (associate_stream stream_id));;
  modify (insert_wt_stream is_local_bidi stream_id session_id).

(** ** A stream whose session is known *)
Definition reject_stream (stream_id code : Z) (c : Connection) : Connection :=
  push_wt (WtBufferedStreamRejected stream_id code) c.

(** [if !session.append_buffered_stream_data(..) { .. }]: the buffer is full; false then. *)
Definition append_or_reject (is_bidi : bool) (stream_id session_id : Z) (data : bytes) (c : Connection)
    : Connection * bool :=
  match wt_sessions c !! session_id with
  | None => (c, true)
  | Some session =>
    match append_buffered_stream_data stream_id data session with
    | (session, true) => (set_wt_sessions (<[session_id := session]> (wt_sessions c)) c, true)
    | (session, false) =>
      let c := remove_closed_stream c (stream_id, is_bidi) in
      let session := fst (take_buffered_stream_entry stream_id session) in
      let c := set_wt_sessions (<[session_id := session]> (wt_sessions c)) c in
      (reject_stream stream_id BUFFERED_STREAM_REJECTED c, false)
    end
  end.

(** Data of an established session: counted, or too much for it (false). *)
Definition count_data (stream_id session_id : Z) (data : bytes) : action bool :=
  sessions ← gets wt_sessions;
  match sessions !! session_id with
  | None => mret true
  | Some session =>
    if negb (check_received_data (len data) session) then terminate_flow_control session_id;; mret false
    else modify (update_session session_id (add_received_data_and_track stream_id (len data)));; mret true
  end.

Definition deliver_data (is_bidi : bool) (stream_id session_id : Z) (data : bytes) : action unit :=
  ok ← count_data stream_id session_id data;
  if ok : bool then modify (push_event (stream_data_event is_bidi stream_id data)) else done_with.

(** The stream limit of an established session. *)
Definition count_stream (is_bidi : bool) (stream_id session_id : Z) : action bool :=
  sessions ← gets wt_sessions;
  match sessions !! session_id with
  | None => mret true
  | Some session =>
    if negb (check_received_stream is_bidi session) then
      modify (fun c => remove_closed_stream c (stream_id, is_bidi));;
      terminate_flow_control session_id;; mret false
    else modify (update_session session_id (add_received_stream is_bidi));; mret true
  end.

(** The end of both [resolve_wt_uni_stream_session_id] and [resolve_wt_bidi_stream_header],
    once the session id is read; [payload] is what follows it. *)
Definition attach_stream (is_bidi : bool) (stream_id session_id : Z) (payload : bytes) : action unit :=
  modify (insert_wt_stream is_bidi stream_id session_id);;
  outcome ← run_method (associate_or_buffer_stream stream_id session_id is_bidi);
  match outcome with
  | None =>
    modify (fun c => reject_stream stream_id SESSION_GONE (remove_closed_stream c (stream_id, is_bidi)))
  | Some AoBufferOverflow =>
    modify (fun c => reject_stream stream_id BUFFERED_STREAM_REJECTED (remove_closed_stream c (stream_id, is_bidi)))
  | Some AoBuffered =>
    if is_empty_bytes payload then done_with
    else run_method (append_or_reject is_bidi stream_id session_id payload);; done_with
  | Some AoEstablished =>
    ok ← count_stream is_bidi stream_id session_id;
    if negb ok then done_with
    else
      modify (push_event (stream_open_event is_bidi stream_id session_id));;
      if is_empty_bytes payload then done_with else deliver_data is_bidi stream_id session_id payload
  end.

(** ** Headers that arrive in pieces *)

(** [if let Some(pending) = map.get_mut(&id) { extend; clone } else { data.to_vec() }]. *)
Definition extend_pending (m : gmap Z bytes) (stream_id : Z) (data : bytes) : gmap Z bytes * bytes :=
  match m !! stream_id with
  | Some pending => (<[stream_id := pending ++ data]> m, pending ++ data)
  | None => (m, data)
  end.
Definition resolve_wt_uni_stream_session_id (stream_id : Z) (data : bytes) : action unit :=
  c ← get;
  let '(pending, buf) := extend_pending (pending_wt_uni_streams c) stream_id data in
  modify (set_pending_wt_uni_streams pending);;
  match decode buf with
  | Err _ => modify (set_pending_wt_uni_streams (or_insert stream_id buf pending))
  | Ok (session_id, id_len) =>
    throw_if (negb (Z.land session_id 0x03 =? 0x00)) (ConnectionError IdError);;
    modify (set_pending_wt_uni_streams (delete stream_id pending));;
    attach_stream false stream_id session_id (drop_z id_len buf)
  end.

Definition resolve_wt_bidi_stream_header (stream_id : Z) (data : bytes) : action unit :=
  c ← get;
  let '(pending, buf) := extend_pending (pending_wt_bidi_streams c) stream_id data in
  modify (set_pending_wt_bidi_streams pending);;
  match decode buf with
  | Err _ => modify (set_pending_wt_bidi_streams (or_insert stream_id buf pending))
  | Ok (signal_value, signal_len) =>
    throw_if (negb (signal_value =? BIDIRECTIONAL_SIGNAL_VALUE)) (ConnectionError FrameError);;
    let remaining := drop_z signal_len buf in
    match decode remaining with
    | Err _ => modify (set_pending_wt_bidi_streams (or_insert stream_id buf pending))
    | Ok (session_id, id_len) =>
      throw_if (negb (Z.land session_id 0x03 =? 0x00)) (ConnectionError IdError);;
      modify (set_pending_wt_bidi_streams (delete stream_id pending));;
      attach_stream true stream_id session_id (drop_z id_len remaining)
    end
  end.

(** ** Data and FIN *)
Definition session_pending (session_id : Z) (c : Connection) : bool :=
  is_some_and (fun s => bool_decide (ws_state s = WtPending)) (wt_sessions c !! session_id).

Definition close_remote_stream (is_bidi : bool) (stream_id session_id : Z) : Connection -> Connection :=
  update_session session_id (fun s => remove_stream_received_data stream_id (on_remote_stream_closed is_bidi s)).

(** A stream that is in [wt_bidi_streams] already. *)
Definition handle_known_bidi (stream_id session_id : Z) (data : bytes) (fin : bool) : action unit :=
  c ← get;
  if session_pending session_id c then
    ok ← (if is_empty_bytes data then mret true else run_method (append_or_reject true stream_id session_id data));
    if negb ok then done_with
    else if fin then modify (update_session session_id (mark_buffered_stream_fin stream_id)) else done_with
  else
    ok ← (if is_empty_bytes data then mret true else count_data stream_id session_id data);
    if negb ok then done_with
    else
      (if is_empty_bytes data then done_with else modify (push_event (stream_data_event true stream_id data)));;
      if negb fin then done_with
      else
        kind ← expect (from_stream_id stream_id);
        modify (fun c =>
          if is_local_initiated_bidi kind c then c
          else close_remote_stream true stream_id session_id
            (set_wt_bidi_streams (delete stream_id (wt_bidi_streams c)) c));;
        modify (push_wt (WtBidiStreamEnd stream_id)).

(** The FIN that comes with the header. *)
Definition finish_new_bidi (stream_id : Z) (c : Connection) : Connection :=
  let c := match wt_bidi_streams c !! stream_id with
    | None => c
    | Some session_id =>
      if session_pending session_id c then update_session session_id (mark_buffered_stream_fin stream_id) c
      else
        let c := set_wt_bidi_streams (delete stream_id (wt_bidi_streams c)) c in
        push_wt (WtBidiStreamEnd stream_id) (close_remote_stream true stream_id session_id c)
    end in
  set_pending_wt_bidi_streams (delete stream_id (pending_wt_bidi_streams c)) c.

Definition handle_wt_bidi_stream (stream_id : Z) (data : bytes) (fin : bool) : action unit :=
  c ← get;
  match wt_bidi_streams c !! stream_id with
  | Some session_id => handle_known_bidi stream_id session_id data fin
  | None =>
    resolve_wt_bidi_stream_header stream_id data;;
    if fin then modify (finish_new_bidi stream_id) else done_with
  end.

(** Whether the stream is a WebTransport stream; the caller does not look. *)
Definition handle_wt_uni_stream_data (stream_id : Z) (data : bytes) : action bool :=
  c ← get;
  match wt_uni_streams c !! stream_id with
  | None => mret false
  | Some session_id =>
    kind ← expect (from_stream_id stream_id);
    if is_local_initiated_uni kind c then mret true
    else if session_pending session_id c then
      run_method (append_or_reject false stream_id session_id data);; mret true
    else deliver_data false stream_id session_id data;; mret true
  end.

Definition handle_wt_uni_stream_fin (stream_id : Z) : action bool :=
  c ← get;
  match wt_uni_streams c !! stream_id with
  | None => mret false
  | Some session_id =>
    kind ← expect (from_stream_id stream_id);
    if is_local_initiated_uni kind c then mret true
    else if session_pending session_id c then
      modify (update_session session_id (mark_buffered_stream_fin stream_id));; mret true
    else
      modify (set_wt_uni_streams (delete stream_id (wt_uni_streams c)));;
      modify (close_remote_stream false stream_id session_id);;
      modify (push_wt (WtUniStreamEnd stream_id));; mret true
  end.

(** ** The methods keep the invariant *)
Lemma insert_wt_stream_wf k c b id session_id : conn_wf k c -> varint_ok session_id ->
  conn_wf k (insert_wt_stream b id session_id c).
Proof. intros Hw Hs. unfold insert_wt_stream. destruct b; wf_keep; by apply map_Forall_insert_2. Qed.
Lemma insert_wt_stream_ev c b id session_id : evolves c (insert_wt_stream b id session_id c).
Proof. unfold insert_wt_stream. destruct b; ev_keep. Qed.
Lemma reject_stream_wf k c id code : conn_wf k c -> conn_wf k (reject_stream id code c).
Proof. intros Hw. by apply push_wt_wf. Qed.
Lemma reject_stream_ev c id code : evolves c (reject_stream id code c).
Proof. apply push_wt_ev. Qed.
#[export] Hint Resolve insert_wt_stream_wf insert_wt_stream_ev reject_stream_wf reject_stream_ev : conn.

Lemma feed_datagram_safe data : bytes_ok data -> safe (feed_datagram data).
Proof.
  intros Hd k c Hw. unfold feed_datagram. apply wp_safe; [apply check_error_safe|done|]. intros [] c1 Hw1 _.
  wp_step. case_match; [by wp_steps|].
  apply wp_lift_bind; [done|]. intros [d n] Hdec. cbn [fst].
  destruct (decode_datagram data) as [[d' n']|] eqn:E; [|done]. injection Hdec as -> ->.
  apply decode_datagram_sound in E as [[Hid _] _]; [|done]. wp_step.
  destruct (wt_sessions c1 !! dg_session_id d) as [s|] eqn:Es.
  - destruct (ws_state s); try by wp_steps. apply wp_modify; [|auto with conn|done].
    apply update_session_wf; [done|]. intros s' _ Hs'. by apply buffer_datagram_wf.
  - repeat (case_match; [by wp_steps|]). apply wp_modify; [|auto with conn|done].
    apply insert_session_wf; [done..|]. apply buffer_datagram_wf, wt_session_new_wf.
Qed.

Lemma land_3_mod id : (Z.land id 0x03 =? 0x00) = (id mod 4 =? 0).
Proof. change 0x03 with (Z.ones 2). by rewrite Z.land_ones. Qed.

Lemma send_datagram_safe session_id payload : safe (send_datagram session_id payload).
Proof.
  intros k c Hw. unfold send_datagram. do 3 wp_step.
  destruct (wt_sessions c !! session_id) as [s|] eqn:Es; cbn [ok_or]; [|by apply wp_throw].
  destruct (session_at _ _ Hw _ _ Es) as [[Hid _] _]. do 4 wp_step.
  destruct (datagram_new session_id payload) as [d|] eqn:Ed; [|done].
  apply datagram_new_ok in Ed as [-> Hs]; [|done].
  destruct (encode_datagram_total (mkDatagram session_id payload) [] Hs) as [bs Hbs].
  cbn [map_err] in *. simplify_eq/=. unfold expect. rewrite Hbs. by exists c, (Ok bs).
Qed.

Lemma register_local_wt_stream_safe session_id id : safe (register_local_wt_stream session_id id).
Proof.
  intros k c Hw. unfold register_local_wt_stream. wp_kind id. do 4 wp_step.
  destruct (wt_sessions c !! session_id) as [s|] eqn:Es; cbn [ok_or]; [|by apply wp_throw].
  destruct (session_at _ _ Hw _ _ Es) as [Hid _]. do 2 wp_step.
  apply wp_modify_bind; [|auto with conn|intros; by wp_steps; auto with conn]. apply update_session_wf; [done|].
  intros s' _. apply same_buffers_wf, associate_stream_same.
Qed.

(** ** Streams *)
Lemma append_or_reject_wf k c b id session_id data : conn_wf k c ->
  conn_wf k (fst (append_or_reject b id session_id data c)).
Proof.
  intros Hw. unfold append_or_reject. destruct (wt_sessions c !! session_id) as [s|] eqn:E; [|done].
  destruct (session_at _ _ Hw _ _ E) as [Hi Hs]. pose proof (append_buffered_wf s Hs id data) as Ha.
  destruct (append_buffered_stream_data id data s) as [s' []]; cbn [fst] in Ha |- *; [by apply insert_session_wf|].
  apply reject_stream_wf. assert (conn_wf k (remove_closed_stream c (id, b))) as Hw' by auto with conn.
  apply insert_session_wf; [done..|]. by apply take_entry_wf.
Qed.
Lemma append_or_reject_ev c b id session_id data : evolves c (fst (append_or_reject b id session_id data c)).
Proof.
  unfold append_or_reject. destruct (wt_sessions c !! session_id); [|reflexivity].
  destruct (append_buffered_stream_data _ _ _) as [? []]; cbn [fst]; [auto with conn|].
  etrans; [|apply reject_stream_ev]. etrans; [|apply set_wt_sessions_ev]. auto with conn.
Qed.
#[export] Hint Resolve append_or_reject_wf append_or_reject_ev : conn.

Lemma count_data_safe id session_id data : safe (count_data id session_id data).
Proof.
  intros k c Hw. unfold count_data. wp_step. destruct (wt_sessions c !! session_id) as [s|]; [|by wp_steps].
  destruct (negb _). { wp_call terminate_safe. by wp_steps. }
  apply wp_modify_bind; [|auto with conn|intros; by wp_steps]. apply update_session_wf; [done|].
  intros s' _. apply same_buffers_wf, track_same.
Qed.

Lemma deliver_data_safe b id session_id data : safe (deliver_data b id session_id data).
Proof.
  intros k c Hw. unfold deliver_data. wp_call count_data_safe. case_match; by wp_steps.
Qed.

Lemma count_stream_safe b id session_id : safe (count_stream b id session_id).
Proof.
  intros k c Hw. unfold count_stream. wp_step. destruct (wt_sessions c !! session_id) as [s|]; [|by wp_steps].
  destruct (negb _). { wp_step. wp_call terminate_safe. by wp_steps. }
  apply wp_modify_bind; [|auto with conn|intros; by wp_steps]. apply update_session_wf; [done|].
  intros s' _. apply same_buffers_wf, add_received_stream_same.
Qed.

Lemma attach_stream_safe b id session_id payload : varint_ok session_id -> safe (attach_stream b id session_id payload).
Proof.
  intros Hs k c Hw. unfold attach_stream. wp_step. apply wp_method_bind; [auto with conn..|intros Hw1].
  set (c1 := fst _) in *. clearbody c1.
  destruct (snd _) as [[]|].
  - wp_call count_stream_safe. destruct (negb _); [by wp_steps|]. wp_step.
    case_match; [by wp_steps|by apply deliver_data_safe].
  - case_match; [by wp_steps|]. apply wp_method_bind; [auto with conn..|intros; by wp_steps].
  - apply wp_modify; [auto with conn| |done]. etrans; [apply remove_closed_stream_ev|apply reject_stream_ev].
  - apply wp_modify; [auto with conn| |done]. etrans; [apply remove_closed_stream_ev|apply reject_stream_ev].
Qed.

(** ** Headers in pieces *)
Lemma extend_pending_ok m id data : map_Forall (fun _ b => bytes_ok b) m -> bytes_ok data ->
  map_Forall (fun _ b => bytes_ok b) (fst (extend_pending m id data)) /\ bytes_ok (snd (extend_pending m id data)).
Proof.
  intros Hm Hd. unfold extend_pending. destruct (m !! id) as [p|] eqn:E; [|done]. cbn [fst snd].
  assert (bytes_ok (p ++ data)) by (apply bytes_ok_app; split; [exact (Hm _ _ E)|done]).
  split; [by apply map_Forall_insert_2|done].
Qed.

Lemma pending_wt_uni_wf k c m : conn_wf k c -> map_Forall (fun _ b => bytes_ok b) m ->
  conn_wf k (set_pending_wt_uni_streams m c).
Proof. intros. by wf_keep. Qed.
Lemma pending_wt_uni_ev c m : evolves c (set_pending_wt_uni_streams m c).
Proof. ev_keep. Qed.
Lemma pending_wt_bidi_wf k c m : conn_wf k c -> map_Forall (fun _ b => bytes_ok b) m ->
  conn_wf k (set_pending_wt_bidi_streams m c).
Proof. intros. by wf_keep. Qed.
Lemma pending_wt_bidi_ev c m : evolves c (set_pending_wt_bidi_streams m c).
Proof. ev_keep. Qed.
Lemma map_Forall_delete_bytes id (m : gmap Z bytes) : map_Forall (fun _ b => bytes_ok b) m ->
  map_Forall (fun _ b => bytes_ok b) (delete id m).
Proof. apply map_Forall_delete. Qed.
Lemma map_Forall_or_insert_bytes id b (m : gmap Z bytes) : map_Forall (fun _ b => bytes_ok b) m -> bytes_ok b ->
  map_Forall (fun _ b => bytes_ok b) (or_insert id b m).
Proof. apply (map_Forall_or_insert (fun _ b => bytes_ok b)). Qed.
#[export] Hint Resolve pending_wt_uni_wf pending_wt_uni_ev pending_wt_bidi_wf pending_wt_bidi_ev
  map_Forall_delete_bytes map_Forall_or_insert_bytes : conn.

Lemma resolve_wt_uni_safe id data : bytes_ok data -> safe (resolve_wt_uni_stream_session_id id data).
Proof.
  intros Hd k c Hw. unfold resolve_wt_uni_stream_session_id. wp_step.
  destruct (extend_pending_ok _ id data (w_pending_wt_uni _ _ Hw) Hd) as [Hm Hb].
  destruct (extend_pending _ _ _) as [m buf]. cbn [fst snd] in Hm, Hb. wp_step.
  destruct (decode buf) as [[v n]|] eqn:E; [|by wp_steps]. apply decode_inv in E as (Hv & _); [|done].
  do 2 wp_step. by apply attach_stream_safe.
Qed.

Lemma resolve_wt_bidi_safe id data : bytes_ok data -> safe (resolve_wt_bidi_stream_header id data).
Proof.
  intros Hd k c Hw. unfold resolve_wt_bidi_stream_header. wp_step.
  destruct (extend_pending_ok _ id data (w_pending_wt_bidi _ _ Hw) Hd) as [Hm Hb].
  destruct (extend_pending _ _ _) as [m buf]. cbn [fst snd] in Hm, Hb. wp_step.
  destruct (decode buf) as [[v n]|]; [|by wp_steps]. wp_step.
  destruct (decode (drop_z n buf)) as [[v' n']|] eqn:E; [|by wp_steps].
  apply decode_inv in E as (Hv & _); [|by apply bytes_ok_drop]. do 2 wp_step. by apply attach_stream_safe.
Qed.

(** ** Data and FIN *)
Lemma mark_fin_conn_wf k c session_id id : conn_wf k c -> conn_wf k (update_session session_id (mark_buffered_stream_fin id) c).
Proof. intros Hw. apply update_session_wf; [done|]. intros s _ Hs. by apply mark_fin_wf. Qed.
Lemma close_remote_wf k c b id session_id : conn_wf k c -> conn_wf k (close_remote_stream b id session_id c).
Proof.
  intros Hw. apply update_session_wf; [done|]. intros s _. apply same_buffers_wf.
  etrans; [apply on_remote_stream_closed_same|done].
Qed.
Lemma close_remote_ev c b id session_id : evolves c (close_remote_stream b id session_id c).
Proof. apply update_session_ev. Qed.
Lemma delete_bidi_wf k c id : conn_wf k c -> conn_wf k (set_wt_bidi_streams (delete id (wt_bidi_streams c)) c).
Proof. intros Hw. wf_keep. by apply map_Forall_delete. Qed.
Lemma delete_bidi_ev c m : evolves c (set_wt_bidi_streams m c).
Proof. ev_keep. Qed.
Lemma delete_uni_wf k c id : conn_wf k c -> conn_wf k (set_wt_uni_streams (delete id (wt_uni_streams c)) c).
Proof. intros Hw. wf_keep. by apply map_Forall_delete. Qed.
Lemma delete_uni_ev c m : evolves c (set_wt_uni_streams m c).
Proof. ev_keep. Qed.
#[export] Hint Resolve mark_fin_conn_wf close_remote_wf close_remote_ev delete_bidi_wf delete_bidi_ev delete_uni_wf delete_uni_ev : conn.

Lemma handle_known_bidi_safe id session_id data fin : safe (handle_known_bidi id session_id data fin).
Proof.
  intros k c Hw. unfold handle_known_bidi. wp_step. case_match.
  - assert (safe (if is_empty_bytes data then mret true else run_method (append_or_reject true id session_id data))) as Hs.
    { intros k1 c1 Hw1. case_match; [by wp_steps|]. apply wp_method; auto with conn. }
    wp_call Hs. destruct (negb _); [by wp_steps|]. destruct fin; by wp_steps.
  - assert (safe (if is_empty_bytes data then mret true else count_data id session_id data)) as Hs.
    { intros k1 c1 Hw1. case_match; [by wp_steps|]. by apply count_data_safe. }
    wp_call Hs. destruct (negb _); [by wp_steps|].
    assert (safe (if is_empty_bytes data then done_with else modify (push_event (stream_data_event true id data)))) as Hp.
    { intros k1 c1 Hw1. case_match; by wp_steps. }
    wp_call Hp. destruct (negb _); [by wp_steps|]. wp_kind id.
    apply wp_modify_bind; [destruct (is_local_initiated_bidi _ _); auto with conn| |intros; by wp_steps].
    destruct (is_local_initiated_bidi _ _); [done|]. etrans; [apply delete_bidi_ev|apply close_remote_ev].
Qed.

Lemma finish_new_bidi_wf k c id : conn_wf k c -> conn_wf k (finish_new_bidi id c).
Proof.
  intros Hw. unfold finish_new_bidi. set (c1 := match _ with Some _ => _ | None => _ end).
  assert (conn_wf k c1) as Hw1 by (subst c1; repeat case_match; auto with conn). clearbody c1.
  apply pending_wt_bidi_wf; [done|]. apply map_Forall_delete_bytes, Hw1.
Qed.
Lemma finish_new_bidi_ev c id : evolves c (finish_new_bidi id c).
Proof.
  unfold finish_new_bidi. etrans; [|apply pending_wt_bidi_ev]. case_match; [|reflexivity].
  case_match; [auto with conn|]. etrans; [|apply push_wt_ev]. etrans; [apply delete_bidi_ev|apply close_remote_ev].
Qed.

Lemma handle_wt_bidi_stream_safe id data fin : bytes_ok data -> safe (handle_wt_bidi_stream id data fin).
Proof.
  intros Hd k c Hw. unfold handle_wt_bidi_stream. wp_step. case_match; [by apply handle_known_bidi_safe|].
  wp_call resolve_wt_bidi_safe; [done|]. case_match; [|by wp_steps].
  apply wp_modify; [by apply finish_new_bidi_wf|apply finish_new_bidi_ev|done].
Qed.

Lemma handle_wt_uni_stream_data_safe id data : safe (handle_wt_uni_stream_data id data).
Proof.
  intros k c Hw. unfold handle_wt_uni_stream_data. wp_step. case_match; [|by wp_steps]. wp_kind id.
  case_match; [by wp_steps|]. case_match.
  - apply wp_method_bind; [auto with conn..|intros; by wp_steps].
  - wp_call deliver_data_safe. by wp_steps.
Qed.

Lemma handle_wt_uni_stream_fin_safe id : safe (handle_wt_uni_stream_fin id).
Proof.
  intros k c Hw. unfold handle_wt_uni_stream_fin. wp_step. case_match; [|by wp_steps]. wp_kind id.
  case_match; [by wp_steps|]. case_match; by wp_steps.
Qed.
