(* ===== verification/ConnReceive.v ===== *)
(** connection/mod.rs, the receiving side: bytes, resets and stop requests from the peer,
    and the events they give rise to. *)

From Stdlib Require Import String Ascii.
From stdpp Require Import sorting.
From S2P Require Import Prelude Codec Varint Integer Utf8 Header Settings Frame Error Stream DynamicTable EncoderStream DecoderStream QpackEncoder QpackDecoder ControlStream RequestStream Validation Capsule WtError WtStream Event WtSession Connection ConnNegotiation ConnWtSession ConnWtStream.

(** ** Streams that arrive before the SETTINGS frame *)
Definition reject_pre_negotiation (stream_id : Z) (c : Connection) : Connection :=
  reject_stream stream_id BUFFERED_STREAM_REJECTED
    (set_ignored_pre_negotiation_wt_bidi (ignored_pre_negotiation_wt_bidi c ∪ {[stream_id]}) c).

Definition buffer_pre_negotiation_wt_bidi (stream_id : Z) (data : bytes) (fin : bool) (c : Connection) : Connection :=
  let pending := pending_wt_bidi_pre_negotiation c in
  if negb (has_key pending stream_id) && (WT_MAX_BUFFERED_STREAMS <=? Z.of_nat (size pending))
  then reject_pre_negotiation stream_id c
  else
    let entry := default (mkPendingBidi [] false) (pending !! stream_id) in
    if WT_MAX_BUFFERED_STREAM_BYTES <? saturating_add (len (pb_data entry)) (len data)
    then reject_pre_negotiation stream_id (set_pending_wt_bidi_pre_negotiation (delete stream_id pending) c)
    else
      set_pending_wt_bidi_pre_negotiation
        (<[stream_id := mkPendingBidi (pb_data entry ++ data) (pb_fin entry || fin)]> pending) c.

Fixpoint dispatch_pending (negotiated : bool) (l : list (Z * PendingWtBidiPreNegotiation)) : action unit :=
  match l with
  | [] => done_with
  | (stream_id, entry) :: l =>
    (if negotiated then handle_wt_bidi_stream stream_id (pb_data entry) (pb_fin entry)
     else modify (reject_pre_negotiation stream_id));;
    dispatch_pending negotiated l
  end.
Definition process_pending_wt_bidi_pre_negotiation : action unit :=
  c ← get;
  modify (set_pending_wt_bidi_pre_negotiation ∅);;
  dispatch_pending (is_wt_fully_negotiated c) (map_to_list (pending_wt_bidi_pre_negotiation c)).

(** ** The QPACK streams of the peer *)
Definition with_dec_table (d : DynamicDecoder) (t : DynamicTable) : DynamicDecoder :=
  mkDecoder t (dec_max_field_section_size d) (dec_max_table_capacity d) (dec_last_ric d).

Definition process_encoder_stream : action unit := fun c =>
  let '(r, t, res) := process_all (encoder_stream_recv c) (dec_table (qpack_dynamic_decoder c)) in
  Some (set_qpack_dynamic_decoder (with_dec_table (qpack_dynamic_decoder c) t) (set_encoder_stream_recv r c),
    match res with Ok _ => Ok () | Err _ => Err (ConnectionError QpackEncoderStreamError) end).

Definition conn_process_decoder_stream : action unit := fun c =>
  let '(r, e, ok) := process_decoder_stream (decoder_stream_recv c) (qpack_encoder c) in
  Some (set_qpack_encoder e (set_decoder_stream_recv r c),
    if ok : bool then Ok () else Err (ConnectionError QpackDecoderStreamError)).

(** ** The control stream of the peer *)
Definition process_control : action (option Frame) := fun c =>
  '(r, res) ← control_process (control_recv c); Some (set_control_recv r c, res).

(** The table capacity the peer allows; the [expect] is on a capacity within it. *)
Definition apply_table_capacity (capacity : Z) : action unit :=
  modify (fun c => set_qpack_encoder (encoder_set_max_table_capacity (qpack_encoder c) capacity) c);;
  modify (fun c => set_encoder_stream (set_max_table_capacity (encoder_stream c) capacity) c);;
  l ← gets limits;
  let use_capacity := Z.min capacity (limit_table_capacity l) in
  e ← gets qpack_encoder;
  e ← expect (match encoder_set_table_capacity e use_capacity with (e, Ok _) => Some e | (_, Err _) => None end);
  modify (set_qpack_encoder e);;
  if 0 <? use_capacity then
    id ← gets encoder_stream_id;
    match id with
    | Some _ => send_set_capacity use_capacity
    | None => modify (set_deferred_encoder_set_capacity (Some use_capacity))
    end
  else done_with.

(** Are the peer's limits compared with those of the previous connection? *)
Definition limits_remembered (selected : option DraftVersion) (settings : Settings) (c : Connection) : bool :=
  match selected with
  | Some (Draft14 | Draft15) => true
  | Some (Draft02 | Draft07 | Draft17) => false
  | None =>
    is_some_and (fun wt => (advertises_draft_version wt Draft14 || advertises_draft_version wt Draft15) &&
      negb (advertises_draft_version wt Draft17)) (local_wt c) &&
    negb (is_some_and (fun wt => advertises_draft_version wt Draft17) (wt_settings settings))
  end.

Definition wt_limit (f : WtSettings -> Z) (o : option WtSettings) : Z := match o with Some wt => f wt | None => 0 end.
Definition max_sessions_draft14 (wt : WtSettings) : Z := default 0 (wt_max_sessions_draft14 wt).

Definition limits_reduced (selected : option DraftVersion) (settings : Settings) (prev : WtSettings) (c : Connection) : bool :=
  let new f := wt_limit f (wt_settings settings) in
  let compares_max_sessions := match selected with
    | Some draft => bool_decide (draft = Draft14)
    | None => is_some_and (fun wt => advertises_draft_version wt Draft14) (local_wt c)
    end in
  (new wt_initial_max_streams_uni <? wt_initial_max_streams_uni prev) ||
  (new wt_initial_max_streams_bidi <? wt_initial_max_streams_bidi prev) ||
  (new wt_initial_max_data <? wt_initial_max_data prev) ||
  (compares_max_sessions && (new max_sessions_draft14 <? max_sessions_draft14 prev)).

Definition settings_error : Error := ConnectionError SettingsError.

Definition handle_settings (payload : SettingsPayload) : action unit :=
  let settings := from_payload payload in
  match qpack_max_table_capacity settings with
  | Some capacity => apply_table_capacity capacity
  | None => done_with
  end;;
  match qpack_blocked_streams settings with
  | Some blocked => modify (fun c => set_qpack_encoder (set_peer_max_blocked_streams (qpack_encoder c) blocked) c)
  | None => done_with
  end;;
  c ← get;
  throw_if (bool_decide (role c = Client) &&
    is_some_and (fun wt => (1 <? wt_enabled wt) || (1 <? wt_enabled_draft17 wt)) (wt_settings settings)) settings_error;;
  let selected := select_wt_draft_version (Some settings) c in
  throw_if (bool_decide (role c = Client) && limits_remembered selected settings c &&
    is_some_and (fun prev => limits_reduced selected settings prev c) (previous_wt_settings c)) settings_error;;
  modify (set_peer_settings (Some settings));;
  modify (push_event (EvSettingsReceived settings (wt_settings settings)));;
  process_deferred_wt_connects;;
  process_pending_wt_bidi_pre_negotiation.

Definition id_error : Error := ConnectionError IdError.

(** The sessions a GOAWAY announces the end of. *)
Definition draining_sessions (goaway_id : Z) (c : Connection) : list Z :=
  map fst (filter (fun x => goaway_id <= fst x /\ (ws_state (snd x) = WtEstablished \/ ws_state (snd x) = WtPending))
    (map_to_list (wt_sessions c))).

Definition handle_goaway (goaway_id : Z) : action unit :=
  c ← get;
  throw_if (bool_decide (role c = Client) && negb (goaway_id mod 4 =? 0)) id_error;;
  throw_if (some_and (peer_goaway_last_id c) (fun prev_id => prev_id <? goaway_id)) id_error;;
  modify (set_peer_goaway_last_id (Some goaway_id));;
  modify (push_event (EvGoawayReceived goaway_id));;
  match role c with
  | Client => modify (fun c => fold_left (fun c sid => drain_session sid c) (draining_sessions goaway_id c) c)
  | Server => done_with
  end.

Definition handle_max_push_id (value : Z) : action unit :=
  c ← get;
  throw_if (bool_decide (role c = Client)) (ConnectionError FrameUnexpected);;
  throw_if (some_and (max_push_id c) (fun prev => value <? prev)) id_error;;
  modify (set_max_push_id (Some value)).

Definition handle_control_frame (f : Frame) : action unit :=
  match f with
  | SettingsFrame payload => handle_settings payload
  | Goaway id => handle_goaway id
  | MaxPushId value => handle_max_push_id value
  | _ => done_with
  end.

(** Every round takes a frame off the buffer. *)
Fixpoint control_stream_loop (fuel : nat) : action unit :=
  match fuel with
  | O => expect None
  | S fuel =>
    frame ← process_control;
    match frame with
    | None => done_with
    | Some f => handle_control_frame f;; control_stream_loop fuel
    end
  end.
Definition process_control_stream : action unit :=
  r ← gets control_recv;
  control_stream_loop (S (length (recv_peek (cr_recv_buf r)))).

(** ** Header sections *)
Definition MAX_DEFERRED_WT_CONNECTS : Z := 16.

(** The request is held back until the SETTINGS frame. *)
Definition defer_wt_connect (stream_id : Z) (headers : list Header) : action unit :=
  c ← get;
  throw_if (MAX_DEFERRED_WT_CONNECTS <=? Z.of_nat (size (deferred_wt_connects c))) message_error;;
  modify (fun c => set_deferred_wt_connects (<[stream_id := headers]> (deferred_wt_connects c)) c);;
  modify (send_section_ack_if_needed stream_id);;
  modify (update_stream stream_id (fun s => set_recv_headers s headers)).

(** What a header section says about the stream that carries it. *)
Definition note_headers (r : Role) (headers : list Header) (s : RequestStream) : RequestStream :=
  match r with
  | Server => if is_plain_connect headers then set_connect s else s
  | Client =>
    let s := if is_informational_status headers then notify_informational s else s in
    if is_success_status headers && rq_is_connect_request s then set_connect s else s
  end.

Definition publish_headers (stream_id : Z) (headers : list Header) (c : Connection) : Connection :=
  push_events (header_events stream_id headers) (send_section_ack_if_needed stream_id c).

Definition emit_header_events (stream_id : Z) (headers : list Header) (is_trailer : bool) : action unit :=
  if is_trailer then
    lift (validate_trailer_headers headers);;
    modify (publish_headers stream_id headers)
  else
    c ← get;
    lift (validate_headers headers (role c));;
    lift (validate_wt_connect_request_server stream_id headers c);;
    if bool_decide (role c = Server) && negb (is_some (peer_settings c)) && is_webtransport_connect headers
    then defer_wt_connect stream_id headers
    else
      modify (register_wt_connect_session stream_id headers);;
      modify (update_stream stream_id (note_headers (role c) headers));;
      handle_wt_connect_response stream_id headers;;
      modify (update_stream stream_id (fun s => set_recv_headers s headers));;
      modify (publish_headers stream_id headers).

(** ** Request streams *)
Definition decode_headers (encoded : bytes) : action DecodeOutput := fun c =>
  let '(d, r) := decode_section (qpack_dynamic_decoder c) encoded in
  Some (set_qpack_dynamic_decoder d c, map_err Qpack r).

Definition block_stream (stream_id : Z) (encoded : bytes) (is_trailer : bool) (c : Connection) : Connection :=
  let ricnt := dec_last_ric (qpack_dynamic_decoder c) in
  let c := update_stream stream_id (fun s => set_qpack_blocked s true ricnt (Some (encoded, is_trailer))) c in
  set_blocked_by_ricnt (blocked_by_ricnt c ∪ {[(ricnt, stream_id)]}) c.

(** A header or trailer section; true when the stream is blocked on it. *)
Definition receive_section (stream_id : Z) (encoded : bytes) (is_trailer : bool) : action bool :=
  out ← decode_headers encoded;
  match out with
  | Decoded headers => emit_header_events stream_id headers is_trailer;; mret false
  | Blocked =>
    c ← get;
    throw_if (limit_blocked_streams (limits c) <=? Z.of_nat (size (blocked_by_ricnt c)))
      (ConnectionError QpackDecompressionFailed);;
    modify (block_stream stream_id encoded is_trailer);; mret true
  end.

Definition check_content_length (headers : list Header) (stream_id : Z) : action unit :=
  c ← get;
  match streams c !! stream_id with
  | None => done_with
  | Some stream =>
    let skip := bool_decide (role c = Client) && (rq_is_head_request stream || is_no_body_status headers) in
    lift (validate_content_length headers (len (rq_recv_body stream)) skip)
  end.

Definition recv_headers_of (stream_id : Z) (c : Connection) : list Header :=
  match streams c !! stream_id with Some s => rq_recv_headers s | None => [] end.

(** One item from the stream; true when the loop stops. *)
Definition handle_received (stream_id : Z) (received : RawReceivedData) : action bool :=
  match received with
  | RawHeaders encoded => receive_section stream_id encoded false
  | RawTrailers encoded => receive_section stream_id encoded true
  | RawData data =>
    handled ← handle_wt_data_frame stream_id data;
    (if handled : bool then done_with else modify (push_event (EvData stream_id data)));; mret false
  | StreamEnd =>
    headers ← gets (recv_headers_of stream_id);
    check_content_length headers stream_id;;
    handle_wt_stream_end stream_id;;
    modify (fun c => if in_set (closed_wt_sessions c) stream_id then c else push_event (EvStreamEnd stream_id) c);;
    mret false
  end.

(** The [expect] is on the stream being there. *)
Definition process_stream_raw (stream_id : Z) : action (option RawReceivedData) := fun c =>
  stream ← streams c !! stream_id;
  '(stream, res) ← process_raw stream;
  Some (set_streams (<[stream_id := stream]> (streams c)) c, res).

Fixpoint stream_loop (fuel : nat) (stream_id : Z) : action unit :=
  match fuel with
  | O => expect None
  | S fuel =>
    received ← process_stream_raw stream_id;
    match received with
    | None => done_with
    | Some received =>
      stop ← handle_received stream_id received;
      if stop : bool then done_with else stream_loop fuel stream_id
    end
  end.

(** Every round takes a frame off the buffer, or ends the stream; after that one round
    finds nothing. *)
Definition stream_fuel (o : option RequestStream) : nat :=
  match o with Some s => 3 + length (recv_peek (rq_recv_buf s)) | None => 1 end.
Definition process_stream_frames (stream_id : Z) : action unit :=
  fuel ← gets (fun c => stream_fuel (streams c !! stream_id));
  stream_loop fuel stream_id;;
  modify (remove_stream_if_done stream_id).

Definition open_request_stream (stream_id : Z) (c : Connection) : Connection :=
  let fresh := set_max_received_body_size (request_new stream_id (role c)) (limit_received_body_size (limits c)) in
  set_streams (or_insert stream_id fresh (streams c)) c.

Definition handle_bidirectional_stream (stream_id : Z) (data : bytes) (fin : bool) : action unit :=
  c ← get;
  if in_set (closed_wt_sessions c) stream_id then
    throw_if (negb (is_empty_bytes data && fin)) message_error
  else
    throw_if (bool_decide (role c = Server) && negb (has_key (streams c) stream_id) &&
      some_and (last_sent_goaway_id c) (fun goaway_id => goaway_id <=? stream_id)) request_rejected;;
    modify (open_request_stream stream_id);;
    modify (update_stream stream_id (fun s => request_receive s data fin));;
    c ← get;
    stream ← expect (streams c !! stream_id);
    if rq_qpack_blocked stream then done_with else process_stream_frames stream_id.

(** ** Blocked streams *)

(** The order of pairs, in which a [BTreeSet] is gone over. *)
Definition pair_le (a b : Z * Z) : Prop := fst a < fst b \/ (fst a = fst b /\ snd a <= snd b).
#[export] Instance pair_le_dec a b : Decision (pair_le a b).
Proof. unfold pair_le. apply _. Defined.
Definition ascending (s : gset (Z * Z)) : list (Z * Z) := merge_sort pair_le (elements s).

Fixpoint take_while {A} (p : A -> bool) (l : list A) : list A :=
  match l with [] => [] | x :: l => if p x then x :: take_while p l else [] end.

Definition unblockable (c : Connection) : list (Z * Z) :=
  take_while (fun x => fst x <=? insert_count (dec_table (qpack_dynamic_decoder c))) (ascending (blocked_by_ricnt c)).

Definition take_blocked_header (stream_id : Z) (c : Connection) : Connection * option (bytes * bool) :=
  match streams c !! stream_id with
  | None => (c, None)
  | Some s =>
    let '(s, h) := take_qpack_blocked_header s in (set_streams (<[stream_id := s]> (streams c)) c, h)
  end.

(** The body of a stream that ended while its headers were blocked. *)
Definition check_blocked_length (stream_id : Z) (headers : list Header) : action unit :=
  c ← get;
  if some_and (streams c !! stream_id) (fun s => match rq_state s with RemoteClosed | Closed => true | _ => false end)
  then check_content_length headers stream_id
  else done_with.

Definition retry_stream (stream_id : Z) (encoded : bytes) (is_trailer : bool) : action unit :=
  out ← decode_headers encoded;
  match out with
  | Decoded headers =>
    modify (update_stream stream_id (fun s => set_qpack_blocked s false 0 None));;
    (if is_trailer then done_with else check_blocked_length stream_id headers);;
    emit_header_events stream_id headers is_trailer;;
    process_stream_frames stream_id
  | Blocked => modify (block_stream stream_id encoded is_trailer)
  end.

Fixpoint retry_list (l : list (Z * Z)) : action unit :=
  match l with
  | [] => done_with
  | (_, stream_id) :: l =>
    header ← run_method (take_blocked_header stream_id);
    match header with
    | None => retry_list l
    | Some (encoded, is_trailer) => retry_stream stream_id encoded is_trailer;; retry_list l
    end
  end.
Definition retry_blocked_streams : action unit :=
  l ← gets unblockable;
  modify (fun c => set_blocked_by_ricnt (blocked_by_ricnt c ∖ list_to_set l) c);;
  retry_list l.

(** ** Dispatch of bidirectional streams at the server *)
Definition dispatch_client_bidi_stream (stream_id : Z) (data : bytes) (fin : bool) : action unit :=
  c ← get;
  let '(pending, buf) := extend_pending (pending_bidi_dispatch c) stream_id data in
  modify (set_pending_bidi_dispatch pending);;
  let settle := modify (set_pending_bidi_dispatch (delete stream_id pending)) in
  match buf with
  | [] =>
    if fin then settle;; handle_bidirectional_stream stream_id [] fin
    else modify (set_pending_bidi_dispatch (or_insert stream_id [] pending))
  | first_byte :: _ =>
    if Z.shiftr first_byte 6 =? 0 then settle;; handle_bidirectional_stream stream_id buf fin
    else
      match decode buf with
      | Ok (value, _) =>
        settle;;
        if value =? BIDIRECTIONAL_SIGNAL_VALUE then
          if is_wt_fully_negotiated c then handle_wt_bidi_stream stream_id buf fin
          else if is_some (peer_settings c) then modify (reject_pre_negotiation stream_id)
          else modify (buffer_pre_negotiation_wt_bidi stream_id buf fin)
        else handle_bidirectional_stream stream_id buf fin
      | Err _ =>
        if fin then settle;; throw (ConnectionError FrameError)
        else modify (set_pending_bidi_dispatch (or_insert stream_id buf pending))
      end
  end.

(** ** Unidirectional streams *)

(** The FIN of a stream that must stay open (RFC 9114 Section 6.2.1). *)
Definition check_critical_fin (stream_id : Z) : action unit :=
  c ← get;
  if is_id (control_recv_id c) stream_id then
    throw_if (has_pending_data (control_recv c)) (ConnectionError FrameError);;
    throw (ConnectionError ClosedCriticalStream)
  else
    throw_if (is_id (peer_encoder_stream_id c) stream_id || is_id (peer_decoder_stream_id c) stream_id)
      (ConnectionError ClosedCriticalStream).

Definition receive_control (data : bytes) : action unit :=
  modify (fun c => set_control_recv (control_receive (control_recv c) data) c);; process_control_stream.
Definition receive_encoder (data : bytes) : action unit :=
  modify (fun c => set_encoder_stream_recv (receive (encoder_stream_recv c) data) c);; process_encoder_stream.
Definition receive_decoder (data : bytes) : action unit :=
  modify (fun c => set_decoder_stream_recv (dec_receive (decoder_stream_recv c) data) c);; conn_process_decoder_stream.
(** [if !remaining.is_empty() { .. }]. *)
Definition unless_empty (data : bytes) (m : action unit) : action unit := if is_empty_bytes data then done_with else m.

(** The dispatch on the stream type. *)
Definition open_uni_stream (stream_id stream_type : Z) (remaining : bytes) : action unit :=
  c ← get;
  if stream_type =? 0x00 then
    throw_if (is_some (control_recv_id c)) creation_error;;
    modify (set_control_recv (skip_stream_type (control_recv_set_stream_id (control_recv c) stream_id)));;
    unless_empty remaining (receive_control remaining)
  else if stream_type =? 0x02 then
    throw_if (is_some (peer_encoder_stream_id c)) creation_error;;
    modify (set_peer_encoder_stream_id (Some stream_id));;
    unless_empty remaining (receive_encoder remaining)
  else if stream_type =? 0x03 then
    throw_if (is_some (peer_decoder_stream_id c)) creation_error;;
    modify (set_peer_decoder_stream_id (Some stream_id));;
    unless_empty remaining (receive_decoder remaining)
  else if stream_type =? 0x01 then
    throw_if (bool_decide (role c = Server)) creation_error;; throw id_error
  else if stream_type =? UNIDIRECTIONAL_STREAM_TYPE then
    throw_if (negb (is_wt_fully_negotiated c)) (StreamError StreamCreationError);;
    resolve_wt_uni_stream_session_id stream_id remaining
  else modify (set_ignored_uni_streams (ignored_uni_streams c ∪ {[stream_id]})).

(** The FIN that comes with the type. *)
Definition finish_new_uni (stream_id : Z) : action unit :=
  check_critical_fin stream_id;;
  modify (fun c =>
    let c := match wt_uni_streams c !! stream_id with
      | Some _ => push_wt (WtUniStreamEnd stream_id) (set_wt_uni_streams (delete stream_id (wt_uni_streams c)) c)
      | None => c
      end in
    set_pending_wt_uni_streams (delete stream_id (pending_wt_uni_streams c)) c).

Definition handle_new_unidirectional_stream (stream_id : Z) (data : bytes) (fin : bool) : action unit :=
  c ← get;
  let '(pending, type_data) := extend_pending (pending_uni_streams c) stream_id data in
  modify (set_pending_uni_streams pending);;
  match decode type_data with
  | Err _ =>
    modify (set_pending_uni_streams
      (if fin then delete stream_id pending else or_insert stream_id data pending))
  | Ok (stream_type, type_len) =>
    modify (set_pending_uni_streams (delete stream_id pending));;
    open_uni_stream stream_id stream_type (drop_z type_len type_data);;
    if fin then finish_new_uni stream_id else done_with
  end.

Definition is_known_uni (stream_id : Z) (c : Connection) : bool :=
  is_id (control_recv_id c) stream_id || is_id (peer_encoder_stream_id c) stream_id ||
  is_id (peer_decoder_stream_id c) stream_id || has_key (wt_uni_streams c) stream_id ||
  has_key (pending_wt_uni_streams c) stream_id.

Definition receive_known_uni (stream_id : Z) (data : bytes) : action unit :=
  c ← get;
  if is_id (control_recv_id c) stream_id then receive_control data
  else if is_id (peer_encoder_stream_id c) stream_id then receive_encoder data
  else if is_id (peer_decoder_stream_id c) stream_id then receive_decoder data
  else if has_key (wt_uni_streams c) stream_id then handle_wt_uni_stream_data stream_id data;; done_with
  else resolve_wt_uni_stream_session_id stream_id data.

Definition finish_uni (stream_id : Z) : action unit :=
  check_critical_fin stream_id;;
  handle_wt_uni_stream_fin stream_id;;
  modify (fun c => set_pending_wt_uni_streams (delete stream_id (pending_wt_uni_streams c)) c);;
  modify (fun c => set_pending_uni_streams (delete stream_id (pending_uni_streams c)) c).

Definition handle_unidirectional_stream (stream_id : Z) (data : bytes) (fin : bool) : action unit :=
  c ← get;
  if in_set (ignored_uni_streams c) stream_id then done_with
  else
    kind ← expect (from_stream_id stream_id);
    if is_local_initiated_uni kind c then done_with
    else if negb (is_empty_bytes data) && negb (is_known_uni stream_id c)
    then handle_new_unidirectional_stream stream_id data fin
    else
      unless_empty data (receive_known_uni stream_id data);;
      if fin then finish_uni stream_id else done_with.

(** ** Entry points *)
Definition feed_bidirectional (stream_id : Z) (data : bytes) (fin : bool) (kind : StreamKind) : action unit :=
  c ← get;
  if bool_decide (role c = Client) && is_server_initiated kind then
    if is_wt_fully_negotiated c then handle_wt_bidi_stream stream_id data fin else throw creation_error
  else if has_key (wt_bidi_streams c) stream_id || has_key (pending_wt_bidi_streams c) stream_id then
    handle_wt_bidi_stream stream_id data fin
  else if has_key (pending_bidi_dispatch c) stream_id then dispatch_client_bidi_stream stream_id data fin
  else if in_set (ignored_pre_negotiation_wt_bidi c) stream_id then done_with
  else if has_key (pending_wt_bidi_pre_negotiation c) stream_id then
    modify (buffer_pre_negotiation_wt_bidi stream_id data fin)
  else if bool_decide (role c = Server) && is_client_initiated kind && negb (has_key (streams c) stream_id) then
    dispatch_client_bidi_stream stream_id data fin
  else fun c =>
    '(c, r) ← handle_bidirectional_stream stream_id data fin c;
    Some (remove_stream_if_done stream_id c, r).

Definition feed_stream (stream_id : Z) (data : bytes) (fin : bool) : action unit :=
  check_error_state;;
  remember_connection_error (
    kind ← expect (from_stream_id stream_id);
    if is_unidirectional kind then handle_unidirectional_stream stream_id data fin
    else feed_bidirectional stream_id data fin kind).

Definition poll_event : action (option Event) :=
  remember_connection_error (
    check_error_state;;
    retry_blocked_streams;;
    run_method (fun c => match events c with [] => (c, None) | e :: l => (set_events l c, Some e) end)).

Definition drain_events : action (list Event) :=
  remember_connection_error (
    check_error_state;;
    retry_blocked_streams;;
    run_method (fun c => (set_events [] c, events c))).

Definition is_peer_critical (stream_id : Z) (c : Connection) : bool :=
  is_id (control_recv_id c) stream_id || is_id (peer_encoder_stream_id c) stream_id ||
  is_id (peer_decoder_stream_id c) stream_id.

Definition reset_request (s : RequestStream) : RequestStream :=
  with_recv s (rq_recv_state s) (reset (rq_state s)) (rq_recv_body s) (rq_first_frame_processed s).
Definition stop_request (s : RequestStream) : RequestStream :=
  discard_send_data
    (with_recv s (rq_recv_state s) (close_local (rq_state s)) (rq_recv_body s) (rq_first_frame_processed s)).

Definition stream_reset (stream_id error_code final_size : Z) : action unit :=
  remember_connection_error (
    check_error_state;;
    c ← get;
    throw_if (is_peer_critical stream_id c) (ConnectionError ClosedCriticalStream);;
    modify (update_stream stream_id reset_request);;
    modify (fun c => set_pending_bidi_dispatch (delete stream_id (pending_bidi_dispatch c)) c);;
    modify (clear_qpack_blocked stream_id);;
    send_stream_cancellation_if_needed stream_id;;
    wt ← handle_wt_stream_reset stream_id error_code final_size;
    (if wt : bool then done_with else modify (push_event (EvStreamReset stream_id error_code)));;
    modify (remove_stream_if_done stream_id)).

Definition is_own_critical (stream_id : Z) (c : Connection) : bool :=
  is_id (control_send_id c) stream_id || is_id (encoder_stream_id c) stream_id || is_id (decoder_stream_id c) stream_id.

Definition stop_sending (stream_id error_code : Z) : action unit :=
  remember_connection_error (
    check_error_state;;
    c ← get;
    throw_if (is_own_critical stream_id c) (ConnectionError ClosedCriticalStream);;
    modify (update_stream stream_id stop_request);;
    modify (clear_qpack_blocked stream_id);;
    send_stream_cancellation_if_needed stream_id;;
    wt ← handle_wt_stop_sending stream_id error_code;
    (if wt : bool then done_with else modify (push_event (EvStopSending stream_id error_code)));;
    modify (remove_stream_if_done stream_id)).
