(* ===== verification/ConnSafety.v ===== *)
(** The connection is safe: whatever the peer sends, and whatever the application asks
    for, no method panics, the invariant of ConnInvariant is kept, and the connection
    changes only in the ways [evolves] allows. No code of its own. *)

From stdpp Require Import sorting.
From S2P Require Import Prelude Codec Varint Header Settings Frame Error Stream FrameStream DynamicTable EncoderStream QpackEncoder QpackDecoder ControlStream RequestStream Validation Capsule WtStream Event WtSession Connection ConnInvariant ConnNegotiation ConnWtSession ConnWtStream ConnReceive.

(** ** One item off a request stream *)

(** Rounds left for the loop over the stream. *)
Definition rounds (s : RequestStream) : nat :=
  match recv_peek (rq_recv_buf s) with
  | [] => if bool_decide (rq_recv_state s = RecvComplete) then 0 else 1
  | l => S (length l)
  end.

Lemma rounds_le s : (rounds s <= S (length (recv_peek (rq_recv_buf s))))%nat.
Proof. unfold rounds. destruct (recv_peek _); [case_bool_decide; lia|done]. Qed.

Lemma recv_consume_fits b n : q_wf b -> bytes_ok (recv_peek b) -> 0 < n <= len (recv_peek b) ->
  exists b', recv_consume b n = Some b' /\ q_wf b' /\ bytes_ok (recv_peek b') /\
    (length (recv_peek b') < length (recv_peek b))%nat.
Proof.
  intros Hw Hb Hn. destruct (q_consume_fits b n Hw) as (b' & E & Hw' & Hp); [cbn; lia|].
  cbn [q_consume q_peek recv_queue] in E, Hp. exists b'. rewrite Hp. split_and!; [done..|auto with bytes|].
  unfold drop_z. rewrite length_drop. unfold len in Hn. lia.
Qed.

Lemma handle_frame_wf r f : frame_ok f -> stream_wf r -> stream_wf (fst (handle_frame r f)).
Proof.
  intros Hf [? ? ? ?]. assert (forall d, f = Data d -> bytes_ok d) by (by intros d ->).
  unfold handle_frame. destruct f; try by split.
  - destruct (rq_recv_state r); try by split; destruct (rq_is_wt_connect r); try by split.
    all: destruct (rq_is_wt_connect r); try by split.
    all: case_z; split; try done; cbn; apply bytes_ok_app; auto.
  - destruct (rq_recv_state r); try by split. destruct (rq_is_connect r); by split.
Qed.

Definition received_ok (ev : RawReceivedData) : Prop :=
  match ev with RawHeaders l | RawTrailers l | RawData l => bytes_ok l | StreamEnd => True end.

Lemma handle_frame_received r f r' ev : frame_ok f -> handle_frame r f = (r', Ok (Some ev)) -> received_ok ev.
Proof.
  intros Hf. assert (forall d, f = Data d -> bytes_ok d) by (by intros d ->).
  assert (forall d, f = Headers d -> bytes_ok d) by (by intros d ->).
  unfold handle_frame. destruct f; try done.
  - destruct (rq_recv_state r), (rq_is_wt_connect r); try done; try case_z; try done; intros [= <- <-]; cbn; auto.
  - destruct (rq_recv_state r), (rq_is_connect r); try done; intros [= <- <-]; cbn; auto.
Qed.

Lemma process_raw_loop_ok fuel : forall s, stream_wf s -> (length (recv_peek (rq_recv_buf s)) < fuel)%nat ->
  exists s' res, process_raw_loop fuel s = Some (s', res) /\ stream_wf s' /\
    match res with Ok (Some ev) => received_ok ev /\ (rounds s' < rounds s)%nat | _ => True end.
Proof.
  induction fuel as [|fuel IH]; intros s Hs Hf; [lia|]. cbn [process_raw_loop].
  assert (forall l, recv_peek (rq_recv_buf s) = l -> l <> [] -> rounds s = S (length l)) as Hr.
  { intros l Hl Hne. unfold rounds. rewrite Hl. by destruct l. }
  destruct (recv_peek (rq_recv_buf s)) as [|x l] eqn:E.
  - destruct (recv_fin _ && negb _) eqn:Ec; [|by exists s, (Ok None)].
    apply andb_prop in Ec as [_ Hc]. apply negb_true_iff, bool_decide_eq_false in Hc.
    assert (stream_wf (with_recv s RecvComplete (close_remote (rq_state s)) (rq_recv_body s) (rq_first_frame_processed s)))
      as Hw by (by destruct Hs).
    assert (rounds s = 1%nat) as H1 by (unfold rounds; by rewrite E, bool_decide_false).
    destruct (rq_recv_state s); try (eexists _, _; split; [done|by split]);
      (eexists _, _; split; [done|]; split; [done|]; split; [done|]; rewrite H1; unfold rounds; cbn; rewrite E, bool_decide_true by done; lia).
  - rewrite <- E in *. destruct (read_request_frame _ _) as [[f n]|[e|]] eqn:Ef.
    + pose proof (read_frame_consumed _ _ _ _ _ _ (sw_bytes _ Hs) Ef) as Hn.
      pose proof (read_frame_decode _ _ _ _ _ _ Ef) as Hd. apply decode_frame_inv in Hd as [Hok _]; [|apply Hs].
      destruct (recv_consume_fits _ n (sw_recv _ Hs) (sw_bytes _ Hs) Hn) as (b & Eb & Hwb & Hbb & Hlt).
      rewrite Eb. cbn [mbind option_bind].
      assert (stream_wf (with_recv (with_recv_buf s b) (rq_recv_state s) (rq_state s) (rq_recv_body s) true)) as Hs1.
      { destruct Hs. by split. }
      cbn [rq_recv_state rq_state rq_recv_body with_recv_buf].
      set (s1 := with_recv _ _ _ _ _) in *. pose proof (handle_frame_wf _ _ Hok Hs1) as Hs2.
      assert (rq_recv_buf (fst (handle_frame s1 f)) = b) as Hb2 by by rewrite handle_frame_recv_buf.
      destruct (handle_frame s1 f) as [s2 [[ev|]|e]] eqn:Eh; cbn [fst] in *.
      * eexists _, _. split; [done|]. split; [done|]. split; [by eapply handle_frame_received|].
        rewrite (Hr _ eq_refl) by (by rewrite E). pose proof (rounds_le s2) as Hl. rewrite Hb2 in Hl. lia.
      * destruct (IH s2 Hs2) as (s' & res & Er & Hs' & Hres); [rewrite Hb2; lia|].
        exists s', res. split_and!; [done..|]. destruct res as [[ev|]|]; try done. destruct Hres as [? Hlt2]. split; [done|].
        rewrite (Hr _ eq_refl) by (by rewrite E). pose proof (rounds_le s2) as Hl. rewrite Hb2 in Hl. lia.
      * by eexists _, _.
    + by eexists _, _.
    + case_match; by eexists _, _.
Qed.

Lemma process_raw_ok s : stream_wf s ->
  exists s' res, process_raw s = Some (s', res) /\ stream_wf s' /\
    match res with Ok (Some ev) => received_ok ev /\ (rounds s' < rounds s)%nat | _ => True end.
Proof. intros Hs. apply process_raw_loop_ok; [done|lia]. Qed.

(** ** What an action leaves alone

    [keeps R m]: [m] changes the connection in [R], whatever its outcome. *)
Definition keeps (R : Connection -> Connection -> Prop) {A} (m : action A) : Prop :=
  forall c c' r, m c = Some (c', r) -> R c c'.

Section keeps.
Context (R : Connection -> Connection -> Prop) `{!PreOrder R}.

Lemma keeps_bind {A B} (m : action A) (f : A -> action B) :
  keeps R m -> (forall a, keeps R (f a)) -> keeps R (m ≫= f).
Proof using All.
  intros Hm Hf c c' r. unfold mbind, action_bind. destruct (m c) as [[c1 [a|e]]|] eqn:E; [|intros [= <- _]|done].
  - intros H. etrans; [exact (Hm _ _ _ E)|exact (Hf _ _ _ _ H)].
  - exact (Hm _ _ _ E).
Qed.
Lemma keeps_gets {A} (g : Connection -> A) : keeps R (gets g).
Proof using All. by intros c c' r [= <- _]. Qed.
Lemma keeps_get : keeps R get.
Proof using All. apply keeps_gets. Qed.
Lemma keeps_throw {A} e : keeps R (throw e : action A).
Proof using All. by intros c c' r [= <- _]. Qed.
Lemma keeps_done : keeps R done_with.
Proof using All. by intros c c' r [= <- _]. Qed.
Lemma keeps_ret {A} (a : A) : keeps R (mret a : action A).
Proof using All. by intros c c' r [= <- _]. Qed.
Lemma keeps_lift {A} (a : result Error A) : keeps R (lift a).
Proof using All. by intros c c' r [= <- _]. Qed.
Lemma keeps_expect {A} (a : option A) : keeps R (expect a).
Proof using All. intros c c' r. unfold expect. destruct a; cbn; [by intros [= <- _]|done]. Qed.
Lemma keeps_throw_if b e : keeps R (throw_if b e).
Proof using All. destruct b; [apply keeps_throw|apply keeps_done]. Qed.
Lemma keeps_modify f : (forall c, R c (f c)) -> keeps R (modify f).
Proof using All. by intros Hf c c' r [= <- _]. Qed.
Lemma keeps_method {A} (f : Connection -> Connection * A) : (forall c, R c (fst (f c))) -> keeps R (run_method f).
Proof using All. intros Hf c c' r. unfold run_method. specialize (Hf c). destruct (f c). by intros [= <- _]. Qed.
End keeps.

Create HintDb keeps discriminated.
#[export] Hint Resolve keeps_gets keeps_get keeps_throw keeps_done keeps_ret keeps_lift keeps_expect keeps_throw_if : keeps.
Ltac keep_step :=
  match goal with
  | |- keeps _ (_ ≫= _) => apply keeps_bind; [typeclasses eauto| |intros ?]
  | |- keeps _ (modify _) => apply keeps_modify; [typeclasses eauto|intros ?]
  | |- keeps _ (run_method _) => apply keeps_method; [typeclasses eauto|intros ?]
  | |- keeps _ (match ?x with _ => _ end) => destruct x
  | |- keeps _ _ => solve [auto with keeps typeclass_instances]
  end.
Ltac keep_steps := repeat keep_step.

(** The receiving halves of the request streams. *)
Definition same_recv (s s' : RequestStream) : Prop :=
  rq_recv_buf s' = rq_recv_buf s /\ (rq_recv_state s = RecvComplete <-> rq_recv_state s' = RecvComplete).
Definition streams_kept (c c' : Connection) : Prop :=
  forall id s, streams c !! id = Some s -> exists s', streams c' !! id = Some s' /\ same_recv s s'.

(** Besides, the control stream and the settings are as they were. *)
Definition conn_kept (c c' : Connection) : Prop :=
  streams_kept c c' /\ control_recv c' = control_recv c /\ peer_settings c' = peer_settings c.
Definition core (c : Connection) := (streams c, control_recv c, peer_settings c).

#[export] Instance conn_kept_preorder : PreOrder conn_kept.
Proof.
  split.
  - intros c. split; [|done]. intros id s Hs. by exists s.
  - intros c1 c2 c3 (H1 & E1 & F1) (H2 & E2 & F2). split; [|split; congruence]. intros id s Hs. destruct (H1 id s Hs) as (s2 & Hs2 & Hb2 & Hc2).
    destruct (H2 id s2 Hs2) as (s3 & Hs3 & Hb3 & Hc3). exists s3. split; [done|]. split; [congruence|tauto].
Qed.

Lemma kept_same c c' : core c' = core c -> conn_kept c c'.
Proof. intros [= E1 E2 E3]. split; [|done]. intros id s Hs. exists s. by rewrite E1. Qed.
Lemma kept_update id f c : (forall s, same_recv s (f s)) -> conn_kept c (update_stream id f c).
Proof.
  intros Hf. split; [|done]. intros j s Hs. cbn. destruct (decide (id = j)) as [->|].
  - rewrite lookup_alter_eq, Hs. by eexists.
  - rewrite lookup_alter_ne by done. by eexists.
Qed.
Lemma rounds_same s s' : same_recv s s' -> rounds s' = rounds s.
Proof.
  intros [Hb Hc]. unfold rounds. rewrite Hb. destruct (recv_peek _); [|done].
  by rewrite (bool_decide_ext _ _ Hc).
Qed.

Lemma fold_remove_core l : forall c, core (fold_left remove_wt_stream l c) = core c.
Proof. induction l as [|x l IH]; intros c; [done|]. cbn. by rewrite IH. Qed.
Lemma fold_closed_core l : forall c, core (fold_left remove_closed_stream l c) = core c.
Proof. induction l as [|[x []] l IH]; intros c; [done|..]; cbn; by rewrite IH. Qed.
Lemma deliver_core id c : core (fst (deliver_buffered_streams id c)) = core c.
Proof.
  unfold deliver_buffered_streams. destruct (wt_sessions c !! id) as [s|]; [|done].
  destruct (take_buffered_streams s) as [s1 l]. destruct (deliver_loop _ _ _ _ _ _) as [[[s2 evs] cl] []].
  - exact (fold_closed_core cl (push_events evs c)).
  - destruct (take_buffered_datagrams s2). exact (fold_closed_core cl (push_events evs c)).
Qed.

#[local] Notation kept := (keeps conn_kept).
Ltac same_core := apply kept_same; first [reflexivity|repeat case_match; reflexivity].

Lemma terminate_keeps id code close msg : kept (terminate_wt_session_with id code close msg).
Proof.
  unfold terminate_wt_session_with. keep_steps; try same_core. apply kept_same, fold_remove_core.
Qed.
Lemma terminate_session_keeps id : kept (terminate_wt_session id).
Proof. apply terminate_keeps. Qed.
Lemma terminate_flow_keeps id : kept (terminate_flow_control id).
Proof. apply terminate_keeps. Qed.
#[export] Hint Resolve terminate_keeps terminate_session_keeps terminate_flow_keeps : keeps.
Lemma handle_wt_capsule_keeps id cap : kept (handle_wt_capsule id cap).
Proof. unfold handle_wt_capsule. keep_steps; same_core. Qed.
#[export] Hint Resolve handle_wt_capsule_keeps : keeps.
Lemma wt_capsule_loop_keeps fuel id : kept (wt_capsule_loop fuel id).
Proof. induction fuel as [|fuel IH]; cbn [wt_capsule_loop]; keep_steps; same_core. Qed.
#[export] Hint Resolve wt_capsule_loop_keeps : keeps.
Lemma process_wt_capsule_data_keeps id data : kept (process_wt_capsule_data id data).
Proof. unfold process_wt_capsule_data. keep_steps; same_core. Qed.
#[export] Hint Resolve process_wt_capsule_data_keeps : keeps.
Lemma handle_wt_data_frame_keeps id data : kept (handle_wt_data_frame id data).
Proof. unfold handle_wt_data_frame. keep_steps; same_core. Qed.
Lemma handle_wt_stream_end_keeps id : kept (handle_wt_stream_end id).
Proof. unfold handle_wt_stream_end. keep_steps; same_core. Qed.
#[export] Hint Resolve handle_wt_data_frame_keeps handle_wt_stream_end_keeps : keeps.

Lemma establish_core id c : core (fst (establish_session id c)) = core c.
Proof. unfold establish_session. repeat case_match; done. Qed.
Lemma handle_wt_connect_response_keeps id headers : kept (handle_wt_connect_response id headers).
Proof.
  unfold handle_wt_connect_response. keep_steps; try same_core.
  - by apply kept_same, establish_core.
  - by apply kept_update.
  - unfold announce_session. apply kept_same. by rewrite deliver_core.
Qed.
Lemma register_keeps id headers c : conn_kept c (register_wt_connect_session id headers c).
Proof.
  unfold register_wt_connect_session. case_match; [done|].
  etrans; [|by apply kept_update]. same_core.
Qed.
#[export] Hint Resolve handle_wt_connect_response_keeps : keeps.

Lemma note_headers_same r headers s : same_recv s (note_headers r headers s).
Proof.
  unfold note_headers, notify_informational, same_recv. destruct s as [???? rs ?????????????].
  repeat (case_match; simplify_eq/=; try done).
Qed.
Lemma publish_keeps id headers c : conn_kept c (publish_headers id headers c).
Proof. unfold publish_headers, send_section_ack_if_needed. same_core. Qed.
Lemma emit_header_events_keeps id headers b : kept (emit_header_events id headers b).
Proof.
  unfold emit_header_events, defer_wt_connect. keep_steps.
  all: first [apply publish_keeps|apply register_keeps|by apply kept_update|
    apply kept_update; intros; apply note_headers_same|unfold send_section_ack_if_needed; same_core].
Qed.
#[export] Hint Resolve emit_header_events_keeps : keeps.

(** ** The loop over a request stream *)
Lemma wp_keeps {A} R k (m : action A) c Q : keeps R m -> wp k m c Q -> wp k m c (fun a c' => R c c' /\ Q a c').
Proof.
  intros Hm (c' & r & E & ? & ? & ?). exists c', r. split_and!; [done..|]. destruct r; [|done]. split; [by eapply Hm|done].
Qed.
Lemma wp_slack {A} j k (m : action A) c Q : k <= j -> wp j m c Q -> wp k m c (fun a c' => conn_wf j c' /\ Q a c').
Proof.
  intros ? (c' & r & E & ? & ? & ?). exists c', r. split_and!; [done|by apply (conn_wf_slack j)|done|]. by destruct r.
Qed.

Lemma set_decoder_wf k c d : conn_wf k c -> dec_table d = dec_table (qpack_dynamic_decoder c) ->
  conn_wf k (set_qpack_dynamic_decoder d c).
Proof. intros Hw Hd. pose proof (w_decoder _ _ Hw). wf_keep. unfold decoder_fed. by rewrite Hd. Qed.
Lemma set_decoder_ev c d : evolves c (set_qpack_dynamic_decoder d c).
Proof. ev_keep. Qed.
#[export] Hint Resolve set_decoder_wf set_decoder_ev : conn.

Lemma decode_headers_safe encoded : safe (decode_headers encoded).
Proof.
  intros k c Hw. unfold decode_headers. unfold wp. pose proof (decode_section_table (qpack_dynamic_decoder c) encoded) as Hd.
  destruct (decode_section (qpack_dynamic_decoder c) encoded) as [d r]. eexists _, _.
  split_and!; [done|auto with conn|auto with conn|by destruct (map_err _ _)].
Qed.
Lemma decode_headers_keeps encoded : kept (decode_headers encoded).
Proof.
  intros c c' r. unfold decode_headers. destruct (decode_section (qpack_dynamic_decoder c) encoded). intros [= <- _]. by apply kept_same.
Qed.
#[export] Hint Resolve decode_headers_keeps : keeps.

Lemma update_stream_same_wf k c id f : conn_wf k c ->
  (forall s, rq_recv_buf (f s) = rq_recv_buf s /\ rq_send_buf (f s) = rq_send_buf s /\ rq_recv_body (f s) = rq_recv_body s) ->
  conn_wf k (update_stream id f c).
Proof. intros Hw Hf. apply update_stream_wf; [done|]. intros s. destruct (Hf s) as (? & ? & ?). by apply stream_wf_same. Qed.

Lemma note_headers_parts r headers s : let s' := note_headers r headers s in
  rq_recv_buf s' = rq_recv_buf s /\ rq_send_buf s' = rq_send_buf s /\ rq_recv_body s' = rq_recv_body s.
Proof. unfold note_headers, notify_informational. repeat case_match; done. Qed.

Lemma insert_deferred_wf k c id headers : conn_wf k c -> varint_ok id ->
  Z.of_nat (size (deferred_wt_connects c)) < MAX_DEFERRED_WT_CONNECTS ->
  conn_wf k (set_deferred_wt_connects (<[id := headers]> (deferred_wt_connects c)) c).
Proof.
  intros Hw Hi Hn. wf_keep; [by apply map_Forall_insert_2|].
  rewrite map_size_insert. unfold MAX_DEFERRED_WT_CONNECTS, MAX_DEFERRED, Datatypes.id in *. case_match; lia.
Qed.

Lemma publish_wf k c id headers : conn_wf k c -> conn_wf k (publish_headers id headers c).
Proof. intros Hw. unfold publish_headers. auto with conn. Qed.
Lemma publish_ev c id headers : evolves c (publish_headers id headers c).
Proof. unfold publish_headers. etrans; [apply send_section_ack_ev|apply push_events_ev]. Qed.
#[export] Hint Resolve publish_wf publish_ev : conn.

Lemma defer_wt_connect_safe id headers : varint_ok id -> safe (defer_wt_connect id headers).
Proof.
  intros Hi k c Hw. unfold defer_wt_connect. do 2 wp_step.
  apply wp_modify_bind; [|auto with conn|intros Hw1].
  { apply insert_deferred_wf; [done..|]. lia. }
  wp_step. apply wp_modify; [|auto with conn|done]. by apply update_stream_same_wf.
Qed.

Lemma emit_header_events_safe id headers is_trailer : varint_ok id -> safe (emit_header_events id headers is_trailer).
Proof.
  intros Hi k c Hw. unfold emit_header_events. case_match; [by wp_steps|]. do 3 wp_step. case_match.
  { by apply defer_wt_connect_safe. }
  wp_step. apply wp_modify_bind; [|auto with conn|intros Hw2].
  { apply update_stream_same_wf; [done|]. intros s. apply note_headers_parts. }
  wp_call handle_wt_connect_response_safe. apply wp_modify_bind; [|auto with conn|intros Hw3; by wp_steps].
  by apply update_stream_same_wf.
Qed.

Lemma size_add_blocked (x : Z * Z) s : (size (s ∪ {[x]} : gset (Z * Z)) <= size s + 1)%nat.
Proof. rewrite size_union_alt. pose proof (subseteq_size ({[x]} ∖ s) {[x]} ltac:(set_solver)). rewrite size_singleton in *. lia. Qed.
Lemma block_stream_ev id c encoded b : evolves c (block_stream id encoded b c).
Proof. ev_keep. Qed.
Lemma block_stream_keeps id c encoded b : conn_kept c (block_stream id encoded b c).
Proof.
  unfold block_stream. etrans; [by apply (kept_update id
    (fun s => set_qpack_blocked s true (dec_last_ric (qpack_dynamic_decoder c)) (Some (encoded, b))))|].
  by apply kept_same.
Qed.
Lemma receive_section_keeps id encoded b : kept (receive_section id encoded b).
Proof. unfold receive_section. keep_steps. apply block_stream_keeps. Qed.
Lemma handle_received_keeps id ev : kept (handle_received id ev).
Proof.
  unfold handle_received, check_content_length. pose proof (receive_section_keeps id) as Hr.
  keep_steps; try apply Hr; try same_core. 
Qed.
Lemma check_content_length_safe headers i : safe (check_content_length headers i).
Proof. intros k' c Hw. unfold check_content_length. wp_step. case_match; by wp_steps. Qed.

(** A call at [j] may leave [k] places free: at most one stream becomes blocked. *)
Definition one_less (j k : Z) : Prop := j = k + 1 \/ j = 0 /\ k = 0.

Section stream.
Context (j k : Z) (Hjk : one_less j k) (id : Z) (Hid : varint_ok id).

Lemma one_less_le : k <= j.
Proof using Hjk. destruct Hjk; lia. Qed.

Lemma block_stream_wf c encoded b : conn_wf j c ->
  Z.of_nat (size (blocked_by_ricnt c)) < limit_blocked_streams (limits c) -> conn_wf k (block_stream id encoded b c).
Proof using Hjk.
  intros Hw Hn. unfold block_stream. set (c1 := update_stream _ _ _).
  assert (conn_wf j c1) as Hw1 by by apply update_stream_same_wf.
  assert (blocked_by_ricnt c1 = blocked_by_ricnt c) as E by done. assert (limits c1 = limits c) as El by done.
  clearbody c1. rewrite <- El, <- E in Hn. apply (conn_wf_slack _ k) in Hw1 as Hw2; [|apply one_less_le].
  pose proof (w_blocked _ _ Hw1). wf_keep.
  pose proof (size_add_blocked (dec_last_ric (qpack_dynamic_decoder c), id) (blocked_by_ricnt c1)). destruct Hjk; lia.
Qed.
Lemma receive_section_wp c encoded b : conn_wf j c ->
  wp k (receive_section id encoded b) c (fun stop c' => stop = false -> conn_wf j c').
Proof using All.
  intros Hw. unfold receive_section. eapply (wp_bind j); [apply one_less_le|by apply decode_headers_safe|].
  intros [headers|] c1 Hw1 _ _.
  - eapply (wp_bind j); [apply one_less_le|by apply emit_header_events_safe|]. intros [] c2 Hw2 _ _.
    apply wp_ret; [|done]. apply (conn_wf_slack j); [apply one_less_le|done].
  - wp_step. eapply (wp_bind j _ _ _ _ (fun _ c' => c' = c1 /\
      Z.of_nat (size (blocked_by_ricnt c1)) < limit_blocked_streams (limits c1))); [apply one_less_le| |].
    { apply wp_throw_if; [done|]. intros ?. split; [done|]. lia. }
    intros [] c' _ _ [-> Hn]. apply wp_modify_bind; [by apply block_stream_wf|apply block_stream_ev|].
    intros Hw2. by apply wp_ret.
Qed.

Lemma safe_stop {B} (m : action B) (stop : bool) c : safe m -> conn_wf j c ->
  wp k (m;; mret stop) c (fun stop c' => stop = false -> conn_wf j c').
Proof using Hjk.
  intros Hm Hw. eapply (wp_bind j); [apply one_less_le|by apply Hm|]. intros _ c1 Hw1 _ _.
  apply wp_ret; [|done]. apply (conn_wf_slack j); [apply one_less_le|done].
Qed.

Lemma handle_received_wp c ev : conn_wf j c -> is_Some (streams c !! id) -> received_ok ev ->
  wp k (handle_received id ev) c (fun stop c' => conn_kept c c' /\ (stop = false -> conn_wf j c')).
Proof using All.
  intros Hw Hs Hev. apply wp_keeps; [apply handle_received_keeps|]. destruct ev; cbn [handle_received].
  - by apply receive_section_wp.
  - by apply receive_section_wp.
  - eapply (wp_bind j); [apply one_less_le|by apply handle_wt_data_frame_wp|]. intros b c1 Hw1 _ _.
    apply safe_stop; [|done]. intros k' c' Hw'. destruct b; by wp_steps.
  - wp_step. set (h := recv_headers_of id c). clearbody h.
    assert (safe (check_content_length h id;; handle_wt_stream_end id;;
      modify (fun c => if in_set (closed_wt_sessions c) id then c else push_event (EvStreamEnd id) c))) as Hm.
    { intros k' c' Hw'. wp_call check_content_length_safe. wp_call handle_wt_stream_end_safe.
      apply wp_modify; [case_match; auto with conn|case_match; auto with conn|done]. }
    pose proof (safe_stop _ false c Hm Hw) as H. revert H. unfold wp, mbind, action_bind, modify.
    destruct (check_content_length h id c) as [[c1 [[]|]]|]; [|done..].
    destruct (handle_wt_stream_end id c1) as [[c2 [[]|]]|]; done.
Qed.

Lemma process_stream_raw_wp c s : conn_wf j c -> streams c !! id = Some s ->
  wp j (process_stream_raw id) c (fun o c' => match o with
    | Some ev => received_ok ev /\ exists s', streams c' !! id = Some s' /\ (rounds s' < rounds s)%nat
    | None => True end).
Proof using Hid.
  intros Hw Hs. unfold process_stream_raw, wp. rewrite Hs. cbn [mbind option_bind].
  destruct (stream_at _ _ Hw _ _ Hs) as [Hr Hsw].
  destruct (process_raw_ok s Hsw) as (s' & res & -> & Hs' & Hres). cbn [mbind option_bind]. eexists _, _.
  split; [done|]. split; [by apply insert_stream_wf|]. split; [auto with conn|].
  destruct res as [[ev|]|]; try done. destruct Hres. split; [done|]. exists s'. split; [|done]. cbn. by rewrite lookup_insert_eq.
Qed.

Lemma stream_loop_wp fuel : forall c s, conn_wf j c -> streams c !! id = Some s -> (rounds s < fuel)%nat ->
  wp k (stream_loop fuel id) c (fun _ _ => True).
Proof using All.
  induction fuel as [|fuel IH]; intros c s Hw Hs Hf; [lia|]. cbn [stream_loop].
  eapply (wp_bind j); [apply one_less_le|by eapply process_stream_raw_wp|].
  intros [ev|] c1 Hw1 _; [intros (Hev & s1 & Hs1 & Hr)|intros _].
  - eapply wp_seq; [apply handle_received_wp; [done|by eexists|done]|]. intros stop c2 Hw2 _ [[Hk _] Hst].
    destruct stop; [by wp_steps|]. destruct (Hk _ _ Hs1) as (s2 & Hs2 & Hsame).
    apply (IH c2 s2); [auto|done|]. rewrite (rounds_same _ _ Hsame). lia.
  - apply wp_done; [|done]. apply (conn_wf_slack j); [apply one_less_le|done].
Qed.

Lemma process_stream_frames_wp c : conn_wf j c -> is_Some (streams c !! id) ->
  wp k (process_stream_frames id) c (fun _ _ => True).
Proof using All.
  intros Hw [s Hs]. unfold process_stream_frames. wp_step.
  eapply wp_seq; [eapply stream_loop_wp; [done|done|]|].
  - rewrite Hs. cbn [stream_fuel]. pose proof (rounds_le s). lia.
  - intros [] c1 Hw1 _ _. by wp_steps.
Qed.
End stream.

(** ** Bidirectional streams *)
Lemma insert_new_stream_wf k c id : conn_wf k c -> request_id id -> conn_wf k (open_request_stream id c).
Proof.
  intros Hw Hi. apply set_streams_wf; [done|].
  apply (map_Forall_or_insert (fun id s => request_id id /\ stream_wf s)); [apply Hw|].
  split; [done|]. split; cbn; try by left; try constructor.
Qed.
Lemma open_request_stream_ev c id : evolves c (open_request_stream id c).
Proof. unfold open_request_stream. auto with conn. Qed.
#[export] Hint Resolve open_request_stream_ev : conn.

Lemma request_receive_wf s data fin : stream_wf s -> bytes_ok data -> stream_wf (request_receive s data fin).
Proof.
  intros [Hr ? Hb ?] Hd. unfold request_receive. pose proof (q_push_wf (B := RecvBuffer) _ data Hr) as Hw.
  pose proof (q_push_peek (B := RecvBuffer) _ data Hr) as Hp.
  cbn [q_push q_peek recv_queue] in Hw, Hp. assert (bytes_ok (recv_peek (recv_push (rq_recv_buf s) data))).
  { rewrite Hp. by apply bytes_ok_app. }
  destruct fin; by split.
Qed.

Lemma lookup_update_stream c id f s : streams c !! id = Some s -> streams (update_stream id f c) !! id = Some (f s).
Proof. intros Hs. cbn. by rewrite lookup_alter_eq, Hs. Qed.

Lemma handle_bidirectional_stream_safe id data fin : request_id id -> bytes_ok data ->
  forall c, conn_wf 0 c -> wp 0 (handle_bidirectional_stream id data fin) c (fun _ _ => True).
Proof.
  intros Hi Hd c Hw. unfold handle_bidirectional_stream. wp_step. case_match; [by wp_steps|]. wp_step.
  apply wp_modify_bind; [by apply insert_new_stream_wf|auto with conn|intros Hw1].
  apply wp_modify_bind; [|auto with conn|intros Hw2].
  { apply update_stream_wf; [done|]. intros. by apply request_receive_wf. }
  wp_step. assert (is_Some (streams (open_request_stream id c) !! id)) as [s Hs].
  { cbn. unfold or_insert. destruct (streams c !! id) eqn:E; [eauto|]. rewrite lookup_insert_eq. eauto. }
  apply (lookup_update_stream _ _ (fun s => request_receive s data fin)) in Hs.
  eapply wp_expect_bind; [exact Hs|].
  case_match; [by wp_steps|]. apply (process_stream_frames_wp 0); [by right|apply Hi|done|by eexists].
Qed.

(** ** Blocked streams *)
Lemma take_blocked_header_wf k c id : conn_wf k c -> conn_wf k (fst (take_blocked_header id c)).
Proof.
  intros Hw. unfold take_blocked_header. destruct (streams c !! id) as [s|] eqn:E; [|done].
  destruct (stream_at _ _ Hw _ _ E) as [Hi Hs]. apply insert_stream_wf; [done..|]. by apply stream_wf_same with s.
Qed.
Lemma take_blocked_header_ev c id : evolves c (fst (take_blocked_header id c)).
Proof. unfold take_blocked_header. destruct (streams c !! id); [apply set_streams_ev|done]. Qed.
Lemma take_blocked_header_some c id h : snd (take_blocked_header id c) = Some h ->
  is_Some (streams (fst (take_blocked_header id c)) !! id).
Proof.
  unfold take_blocked_header. destruct (streams c !! id) as [s|] eqn:E; [|done]. intros _. cbn.
  rewrite lookup_insert_eq. eauto.
Qed.

Lemma check_blocked_length_safe id headers : safe (check_blocked_length id headers).
Proof.
  intros k c Hw. unfold check_blocked_length. wp_step. case_match; [by apply check_content_length_safe|by wp_steps].
Qed.
Lemma check_blocked_length_keeps id headers : kept (check_blocked_length id headers).
Proof. unfold check_blocked_length, check_content_length. keep_steps. Qed.

Lemma wp_kept_bind {A B} j k (m : action A) (f : A -> action B) c id R : k <= j -> safe m -> kept m ->
  conn_wf j c -> is_Some (streams c !! id) ->
  (forall a c', conn_wf j c' -> is_Some (streams c' !! id) -> wp k (f a) c' R) -> wp k (m ≫= f) c R.
Proof.
  intros Hle Hm Hk Hw [s Hs] Hf. eapply (wp_bind j); [done|apply wp_keeps; [exact Hk|by apply Hm]|].
  intros a c' Hw' _ [[Hk' _] _]. apply Hf; [done|]. destruct (Hk' _ _ Hs) as (s' & ? & _). by exists s'.
Qed.

Lemma retry_stream_wp k c id encoded b : 0 <= k -> conn_wf (k + 1) c -> is_Some (streams c !! id) ->
  wp k (retry_stream id encoded b) c (fun _ _ => True).
Proof.
  intros Hk Hw Hs. assert (request_id id) as [Hi _] by (destruct Hs as [s Hs]; apply (stream_at _ _ Hw _ _ Hs)).
  unfold retry_stream. apply (wp_kept_bind (k + 1) _ _ _ _ id);
    [lia|apply decode_headers_safe|apply decode_headers_keeps|done..|].
  intros [headers|] c1 Hw1 Hs1.
  - apply (wp_kept_bind (k + 1) _ _ _ _ id); [lia| | |done..|intros _ c2 Hw2 Hs2].
    { intros k' c' Hw'. apply wp_modify; [by apply update_stream_same_wf|auto with conn|done]. }
    { keep_steps. by apply kept_update. }
    apply (wp_kept_bind (k + 1) _ _ _ _ id); [lia| | |done..|intros _ c3 Hw3 Hs3].
    { intros k' c' Hw'. destruct b; [by wp_steps|by apply check_blocked_length_safe]. }
    { destruct b; [keep_steps|apply check_blocked_length_keeps]. }
    apply (wp_kept_bind (k + 1) _ _ _ _ id);
      [lia|by apply emit_header_events_safe|apply emit_header_events_keeps|done..|intros _ c4 Hw4 Hs4].
    apply (process_stream_frames_wp (k + 1)); [by left|done..].
  - apply wp_modify; [|apply block_stream_ev|done]. apply (block_stream_wf (k + 1)); [by left|done|].
    pose proof (w_blocked _ _ Hw1). lia.
Qed.

Lemma retry_list_wp l : forall c, conn_wf (Z.of_nat (length l)) c -> wp 0 (retry_list l) c (fun _ _ => True).
Proof.
  induction l as [|[ric id] l IH]; intros c Hw; cbn [retry_list]; [by wp_steps|].
  cbn [length] in Hw. set (k := Z.of_nat (length l)) in *. assert (conn_wf (k + 1) c) as Hw'.
  { replace (k + 1) with (Z.of_nat (S (length l))) by lia. done. }
  apply (wp_bind k 0 _ _ _ (fun h c' => conn_wf (k + 1) c' /\ (h <> None -> is_Some (streams c' !! id)))); [lia| |].
  - assert (conn_wf (k + 1) (fst (take_blocked_header id c))) by by apply take_blocked_header_wf.
    apply wp_method; [|apply take_blocked_header_ev|].
    + apply (conn_wf_slack (k + 1)); [lia|done].
    + split; [done|]. destruct (snd _) as [h|] eqn:E; [|done]. intros _. by eapply take_blocked_header_some.
  - intros [[encoded b]|] c1 Hw1 _ [Hw2 Hs]; [|by apply IH].
    eapply (wp_bind k); [lia|apply retry_stream_wp; [lia|done|by apply Hs]|]. intros [] c2 Hw3 _ _. by apply IH.
Qed.

Lemma take_while_sublist {A} (p : A -> bool) l : sublist (take_while p l) l.
Proof. induction l as [|x l IH]; cbn; [done|]. destruct (p x); [by constructor|apply sublist_nil_l]. Qed.

Lemma unblockable_spec c : (list_to_set (unblockable c) : gset (Z * Z)) ⊆ blocked_by_ricnt c /\ NoDup (unblockable c).
Proof.
  assert (Permutation (ascending (blocked_by_ricnt c)) (elements (blocked_by_ricnt c))) as Hp
    by apply merge_sort_Permutation.
  assert (sublist (unblockable c) (ascending (blocked_by_ricnt c))) as Hsub by apply take_while_sublist. split.
  - intros x Hx%elem_of_list_to_set. apply elem_of_elements. rewrite <- Hp.
    by apply (sublist_subseteq _ _ Hsub).
  - eapply sublist_NoDup; [|exact Hsub]. rewrite Hp. apply NoDup_elements.
Qed.

Lemma retry_blocked_streams_safe c : conn_wf 0 c -> wp 0 retry_blocked_streams c (fun _ _ => True).
Proof.
  intros Hw. unfold retry_blocked_streams. wp_step. destruct (unblockable_spec c) as [Hsub Hnd].
  set (l := unblockable c) in *. assert (Z.of_nat (size (blocked_by_ricnt c ∖ list_to_set l)) + Z.of_nat (length l)
    = Z.of_nat (size (blocked_by_ricnt c))) as Hsize.
  { rewrite size_difference by done. rewrite size_list_to_set by done.
    apply subseteq_size in Hsub. rewrite size_list_to_set in Hsub by done. lia. }
  eapply (wp_bind (Z.of_nat (length l)) 0 _ _ _ (fun _ _ => True)); [lia| |intros [] c1 Hw1 _ _; by apply retry_list_wp].
  apply wp_modify; [|ev_keep|done]. destruct Hw. split; try assumption. cbn. lia.
Qed.

(** ** The control stream *)
Definition control_wf (r : ControlStreamRecv) : Prop :=
  q_wf (cr_recv_buf r) /\ bytes_ok (recv_peek (cr_recv_buf r)).
Definition buffered (r : ControlStreamRecv) : nat := length (recv_peek (cr_recv_buf r)).

Definition control_step (c c' : ControlStreamRecv) (r : result Error (option Frame)) : Prop :=
  control_wf c' /\ (cr_recv_state c = RecvReady -> cr_recv_state c' = RecvReady) /\
  match r with
  | Ok (Some f) => (buffered c' < buffered c)%nat /\
    match f with SettingsFrame p => cr_recv_state c <> RecvReady /\ cr_recv_state c' = RecvReady /\ payload_wf p | _ => True end
  | _ => True
  end.

Lemma control_consume_ok c n : control_wf c -> 0 < n <= len (recv_peek (cr_recv_buf c)) ->
  exists c', control_consume c n = Some c' /\ control_wf c' /\ cr_recv_state c' = cr_recv_state c /\
    (buffered c' < buffered c)%nat.
Proof.
  intros [Hw Hb] Hn. destruct (recv_consume_fits _ n Hw Hb Hn) as (b & E & Hwb & Hbb & Hlt).
  unfold control_consume. rewrite E. by eexists.
Qed.

Lemma control_loop_ok fuel : forall c, control_wf c -> (1 < fuel \/ cr_recv_state c <> WaitingType /\ 0 < fuel)%nat ->
  exists c' r, control_loop fuel c = Some (c', r) /\ control_step c c' r.
Proof.
  induction fuel as [|fuel IH]; intros c Hw Hf; [lia|]. cbn [control_loop].
  destruct (recv_peek (cr_recv_buf c)) as [|x l] eqn:E; [by exists c, (Ok None)|].
  pose proof (len_nonneg l) as Hl. destruct (cr_recv_state c) eqn:Es.
  { case_match; [by exists c, (Err (ConnectionError StreamCreationError))|].
    destruct (control_consume_ok c 1 Hw) as (c1 & E1 & Hw1 & _ & Hlt); [rewrite E, len_cons; lia|].
    rewrite E1. cbn [mbind option_bind].
    destruct (IH (with_recv_state c1 WaitingSettings)) as (c' & r & Er & Hw' & _ & Hr); [done|right; destruct Hf as [|[]]; [split; [done|lia]|done]|].
    exists c', r. split; [done|]. split; [done|]. split; [by rewrite Es|]. destruct r as [[f|]|]; try done.
    destruct Hr as [Hlt2 Hs]. change (buffered (with_recv_state c1 WaitingSettings)) with (buffered c1) in Hlt2.
    split; [lia|]. destruct f; try done. rewrite Es. by destruct Hs as (_ & ? & ?). }
  all: rewrite <- E; destruct (read_frame _ _ _ _) as [[f n]|[e|]] eqn:Ef;
    [|by eexists _, _; split; [done|]; split; [done|]; rewrite ?Es..].
  all: pose proof (read_frame_decode _ _ _ _ _ _ Ef) as Hok; apply decode_frame_inv in Hok as [Hok _]; [|apply Hw];
    apply read_frame_consumed in Ef; [|apply Hw];
    destruct (control_consume_ok c n Hw Ef) as (c1 & E1 & Hw1 & Es1 & Hlt); rewrite E1; cbn [mbind option_bind];
    destruct f; eexists _, _; (split; [done|]); (split; [done|]); (split; [cbn; congruence|]);
    first [done|split; [done|]; first [done|split_and!; [cbn; congruence..|exact Hok]]].
Qed.

Lemma control_process_ok c : control_wf c -> exists c' r, control_process c = Some (c', r) /\ control_step c c' r.
Proof. intros Hw. apply control_loop_ok; [done|]. left. lia. Qed.

Lemma set_control_recv_wf k c r : conn_wf k c -> control_wf r ->
  (cr_recv_state (control_recv c) = RecvReady -> cr_recv_state r = RecvReady) -> conn_wf k (set_control_recv r c).
Proof. intros Hw [] ?. wf_keep; auto. Qed.
Lemma set_control_recv_ev c r : evolves c (set_control_recv r c).
Proof. ev_keep. Qed.
#[export] Hint Resolve set_control_recv_ev : conn.

Lemma process_control_wp k c : conn_wf k c -> wp k process_control c (fun o c' =>
  match o with
  | Some f => (buffered (control_recv c') < buffered (control_recv c))%nat /\
    match f with SettingsFrame p => peer_settings c' = None /\ cr_recv_state (control_recv c') = RecvReady /\ payload_wf p | _ => True end
  | None => True
  end).
Proof.
  intros Hw. destruct (control_process_ok (control_recv c)) as (r & o & E & Hr & Hs & Ho); [split; apply Hw|].
  unfold wp, process_control. rewrite E. cbn [mbind option_bind]. eexists _, _.
  split; [done|]. split; [by apply set_control_recv_wf|]. split; [auto with conn|]. destruct o as [[f|]|]; try done.
  destruct Ho as [? Hf]. split; [done|]. destruct f; try done. destruct Hf as (Hn & Hr' & Hok). split; [|done].
  cbn. destruct (peer_settings c) eqn:Ep; [|done]. destruct Hn. by apply (w_settings _ _ Hw); rewrite Ep.
Qed.

(** *** SETTINGS *)
Lemma set_encoder_wf k c e : conn_wf k c -> encoder_unused e -> conn_wf k (set_qpack_encoder e c).
Proof. intros Hw He. by wf_keep. Qed.
Lemma set_encoder_ev c e : evolves c (set_qpack_encoder e c).
Proof. ev_keep. Qed.
Lemma set_encoder_stream_wf k c s : conn_wf k c -> conn_wf k (set_encoder_stream s c).
Proof. intros Hw. by wf_keep. Qed.
Lemma set_encoder_stream_ev c s : evolves c (set_encoder_stream s c).
Proof. ev_keep. Qed.
Lemma set_deferred_capacity_wf k c s : conn_wf k c -> conn_wf k (set_deferred_encoder_set_capacity s c).
Proof. intros Hw. by wf_keep. Qed.
Lemma set_deferred_capacity_ev c s : evolves c (set_deferred_encoder_set_capacity s c).
Proof. ev_keep. Qed.
#[export] Hint Resolve set_encoder_wf set_encoder_ev set_encoder_stream_wf set_encoder_stream_ev
  set_deferred_capacity_wf set_deferred_capacity_ev : conn.

Lemma send_set_capacity_safe n : safe (send_set_capacity n).
Proof.
  intros k c Hw. unfold send_set_capacity, wp. destruct (encode_set_capacity (encoder_stream c) n) as [s r].
  eexists _, _. split_and!; [done|auto with conn..|by destruct (map_err _ _)].
Qed.

Lemma apply_table_capacity_safe n : safe (apply_table_capacity n).
Proof.
  intros k c Hw. unfold apply_table_capacity. do 4 wp_step.
  set (e := encoder_set_max_table_capacity (qpack_encoder c) n).
  eapply wp_expect_bind.
  { cbn. unfold encoder_set_table_capacity. rewrite (proj2 (Z.ltb_ge _ _)); [done|]. cbn. lia. }
  apply wp_modify_bind; [|auto with conn|intros ?].
  { apply set_encoder_wf; [auto with conn|]. apply (set_capacity_unused e), (w_encoder _ _ Hw). }
  case_match; [|by wp_steps]. wp_step. case_match; [by apply send_set_capacity_safe|by wp_steps].
Qed.
Lemma send_set_capacity_keeps n : keeps conn_kept (send_set_capacity n).
Proof.
  intros c c' r. unfold send_set_capacity. destruct (encode_set_capacity (encoder_stream c) n). intros [= <- _]. by apply kept_same.
Qed.
#[export] Hint Resolve send_set_capacity_keeps : keeps.
Lemma apply_table_capacity_keeps n : keeps conn_kept (apply_table_capacity n).
Proof. unfold apply_table_capacity. keep_steps; same_core. Qed.

Lemma reject_pre_wf k c id : conn_wf k c -> conn_wf k (reject_pre_negotiation id c).
Proof. intros Hw. unfold reject_pre_negotiation. auto with conn. Qed.
Lemma reject_pre_ev c id : evolves c (reject_pre_negotiation id c).
Proof. unfold reject_pre_negotiation. etrans; [|apply reject_stream_ev]. apply ignore_bidi_ev. set_solver. Qed.
#[export] Hint Resolve reject_pre_wf reject_pre_ev : conn.

Lemma dispatch_pending_safe b l : Forall (fun x => bytes_ok (pb_data (snd x))) l -> safe (dispatch_pending b l).
Proof.
  induction 1 as [|[id p] l Hp _ IH]; intros k c Hw; cbn [dispatch_pending]; [by wp_steps|].
  assert (safe (if b then handle_wt_bidi_stream id (pb_data p) (pb_fin p) else modify (reject_pre_negotiation id))) as Hs.
  { intros k' c' Hw'. destruct b; [by apply handle_wt_bidi_stream_safe|by wp_steps]. }
  wp_call Hs. by apply IH.
Qed.

Lemma process_pending_safe : safe process_pending_wt_bidi_pre_negotiation.
Proof.
  intros k c Hw. unfold process_pending_wt_bidi_pre_negotiation. wp_step.
  assert (Forall (fun x => bytes_ok (pb_data (snd x))) (map_to_list (pending_wt_bidi_pre_negotiation c))) as Hl.
  { apply Forall_forall. intros [id p] Hx%elem_of_map_to_list. exact (proj1 (w_pre _ _ Hw _ _ Hx)). }
  apply wp_modify_bind; [|auto with conn|intros Hw1; by apply dispatch_pending_safe].
  wf_keep; [apply map_Forall_empty|]. rewrite map_size_empty. by vm_compute.
Qed.

Lemma set_peer_settings_wf k c s : conn_wf k c -> cr_recv_state (control_recv c) = RecvReady -> settings_ok s ->
  conn_wf k (set_peer_settings (Some s) c).
Proof. intros Hw Hr Hs. wf_keep; [done|]. by intros s' [= <-]. Qed.
Lemma set_peer_settings_ev c s : peer_settings c = None -> evolves c (set_peer_settings (Some s) c).
Proof. intros Hn. ev_keep. intros s'. by rewrite Hn. Qed.

(** Streams of sessions do not concern the request streams. *)
Lemma associate_or_buffer_core a b d c : core (fst (associate_or_buffer_stream a b d c)) = core c.
Proof.
  unfold associate_or_buffer_stream. repeat first [done|case_match|destruct (buffer_stream _ _ _)].
Qed.
Lemma append_or_reject_core a b d l c : core (fst (append_or_reject a b d l c)) = core c.
Proof. unfold append_or_reject. destruct (wt_sessions c !! d); [|done]. destruct (append_buffered_stream_data _ _ _) as [? []]; by destruct a. Qed.
Lemma handle_wt_bidi_stream_keeps id data fin : kept (handle_wt_bidi_stream id data fin).
Proof.
  unfold handle_wt_bidi_stream, handle_known_bidi, resolve_wt_bidi_stream_header, attach_stream, deliver_data,
    count_stream, count_data.
  keep_steps; try same_core; apply kept_same; auto using associate_or_buffer_core, append_or_reject_core.
  unfold finish_new_bidi. by repeat case_match.
Qed.
#[export] Hint Resolve handle_wt_bidi_stream_keeps : keeps.
Lemma dispatch_pending_keeps b l : kept (dispatch_pending b l).
Proof. induction l as [|[id p] l IH]; cbn [dispatch_pending]; keep_steps; same_core. Qed.
#[export] Hint Resolve dispatch_pending_keeps : keeps.
Lemma process_deferred_list_keeps l : kept (process_deferred_list l).
Proof.
  induction l as [|[id h] l IH]; cbn [process_deferred_list]; unfold process_deferred_wt_connect; keep_steps; try same_core.
  apply register_keeps.
Qed.
#[export] Hint Resolve process_deferred_list_keeps : keeps.

Lemma handle_settings_wp k c payload : conn_wf k c -> peer_settings c = None ->
  cr_recv_state (control_recv c) = RecvReady -> payload_wf payload -> wp k (handle_settings payload) c (fun _ _ => True).
Proof.
  intros Hw Hn Hr Hp. unfold handle_settings. pose proof (from_payload_ok _ (pw_settings _ Hp)) as Hs.
  set (s := from_payload payload) in *. clearbody s.
  eapply wp_seq; [apply (wp_keeps conn_kept _ _ _ (fun _ _ => True))|].
  { case_match; [apply apply_table_capacity_keeps|keep_steps]. }
  { case_match; [by apply apply_table_capacity_safe|by wp_steps]. }
  intros [] c1 Hw1 _ [(_ & E1 & E2) _]. rewrite <- E2 in Hn. rewrite <- E1 in Hr. clear dependent c.
  eapply wp_seq; [apply (wp_keeps conn_kept _ _ _ (fun _ _ => True))|].
  { case_match; keep_steps. same_core. }
  { case_match; by wp_steps. }
  intros [] c2 Hw2 _ [(_ & E1 & E2) _]. rewrite <- E2 in Hn. rewrite <- E1 in Hr. clear dependent c1.
  do 3 wp_step. apply wp_modify_bind; [by apply set_peer_settings_wf|by apply set_peer_settings_ev|intros Hw3].
  wp_step. wp_call process_deferred_wt_connects_safe. by apply process_pending_safe.
Qed.

(** The buffer of the control stream is left alone. *)
Definition control_kept (c c' : Connection) : Prop := control_recv c' = control_recv c.
#[export] Instance control_kept_preorder : PreOrder control_kept.
Proof. split; [by intros c|]. intros c1 c2 c3 ??. unfold control_kept in *. congruence. Qed.
Lemma keeps_control {A} (m : action A) : kept m -> keeps control_kept m.
Proof. intros Hm c c' r E. by destruct (Hm _ _ _ E) as (_ & ? & _). Qed.

Lemma handle_control_frame_keeps f : keeps control_kept (handle_control_frame f).
Proof.
  assert (forall id, keeps control_kept (handle_goaway id)) as Hg.
  { intros id. unfold handle_goaway. keep_steps; try done. unfold control_kept. generalize (draining_sessions id c).
    intros l. revert c. induction l as [|x l IH]; intros c; [done|]. cbn [fold_left]. by rewrite IH. }
  assert (forall p, keeps control_kept (handle_settings p)) as Hs.
  { intros p. pose proof (fun n => keeps_control _ (apply_table_capacity_keeps n)).
    pose proof (fun l => keeps_control _ (process_deferred_list_keeps l)).
    pose proof (fun b l => keeps_control _ (dispatch_pending_keeps b l)).
    unfold handle_settings, process_deferred_wt_connects, process_pending_wt_bidi_pre_negotiation. keep_steps; auto; done. }
  destruct f; cbn [handle_control_frame]; auto; try apply keeps_done, _. unfold handle_max_push_id. by keep_steps.
Qed.

(** *** GOAWAY and MAX_PUSH_ID *)
Lemma handle_goaway_safe id : safe (handle_goaway id).
Proof.
  intros k c Hw. unfold handle_goaway. wp_step. wp_step. wp_step.
  apply wp_modify_bind; [by wf_keep| |intros Hw1].
  { ev_keep. intros x Hx. rewrite Hx in *. cbn [some_and] in *. exists id. split; [done|]. lia. }
  wp_step. case_match; [|by wp_steps].
  apply wp_modify; [apply fold_wf; auto with conn|apply fold_ev; auto with conn|done].
Qed.

Lemma handle_max_push_id_safe id : safe (handle_max_push_id id).
Proof.
  intros k c Hw. unfold handle_max_push_id. wp_step. wp_step. wp_step. apply wp_modify; [by wf_keep| |done].
  ev_keep. intros x Hx. rewrite Hx in *. cbn [some_and] in *. exists id. split; [done|]. lia.
Qed.


Lemma handle_control_frame_wp k c f : conn_wf k c ->
  match f with SettingsFrame p => peer_settings c = None /\ cr_recv_state (control_recv c) = RecvReady /\ payload_wf p | _ => True end ->
  wp k (handle_control_frame f) c (fun _ _ => True).
Proof.
  intros Hw Hf. destruct f; cbn [handle_control_frame]; try by wp_steps.
  - destruct Hf as (? & ? & ?). by apply handle_settings_wp.
  - by apply handle_goaway_safe.
  - by apply handle_max_push_id_safe.
Qed.

Lemma control_stream_loop_wp k fuel : forall c, conn_wf k c -> (buffered (control_recv c) < fuel)%nat ->
  wp k (control_stream_loop fuel) c (fun _ _ => True).
Proof.
  induction fuel as [|fuel IH]; intros c Hw Hf; [lia|]. cbn [control_stream_loop].
  eapply wp_seq; [by apply process_control_wp|]. intros [f|] c1 Hw1 _; [intros [Hlt Hs]|intros _; by wp_steps].
  eapply wp_seq; [apply (wp_keeps control_kept); [apply handle_control_frame_keeps|by apply handle_control_frame_wp]|].
  intros [] c2 Hw2 _ [Hk _]. apply IH; [done|]. rewrite Hk. lia.
Qed.

Lemma process_control_stream_safe : safe process_control_stream.
Proof. intros k c Hw. unfold process_control_stream. wp_step. apply control_stream_loop_wp; [done|]. unfold buffered. lia. Qed.

(** ** Entry points, which start and end without places kept free *)
Definition safe0 {A} (m : action A) : Prop := forall c, conn_wf 0 c -> wp 0 m c (fun _ _ => True).
Lemma safe_safe0 {A} (m : action A) : safe m -> safe0 m.
Proof. intros Hm c Hw. by apply Hm. Qed.
Lemma wp_safe0 {A B} (m : action A) (f : A -> action B) c R : safe0 m -> conn_wf 0 c ->
  (forall a c', conn_wf 0 c' -> evolves c c' -> wp 0 (f a) c' R) -> wp 0 (m ≫= f) c R.
Proof. intros Hm Hw Hf. apply (wp_seq _ _ _ _ _ _ (Hm c Hw)). auto. Qed.
Ltac wp_call0 H := eapply wp_safe0; [exact H|assumption|intros ? ? ? ?].

Lemma process_encoder_stream_safe : safe process_encoder_stream.
Proof.
  intros k c Hw. unfold process_encoder_stream, wp.
  destruct (process_all (encoder_stream_recv c) (dec_table (qpack_dynamic_decoder c))) as [[r t] res] eqn:E.
  eexists _, _. split; [done|]. split; [pose proof (w_decoder _ _ Hw); wf_keep; by eapply decoder_fed_process|]. split; [ev_keep|by destruct res].
Qed.
Lemma process_decoder_stream_safe : safe conn_process_decoder_stream.
Proof.
  intros k c Hw. unfold conn_process_decoder_stream, wp.
  destruct (process_decoder_stream (decoder_stream_recv c) (qpack_encoder c)) as [[r e] ok] eqn:E.
  eexists _, _. split; [done|]. split; [pose proof (w_encoder _ _ Hw); wf_keep; by eapply decoder_stream_loop_unused|]. split; [ev_keep|by destruct ok].
Qed.

Lemma control_receive_wf k c data : conn_wf k c -> bytes_ok data ->
  conn_wf k (set_control_recv (control_receive (control_recv c) data) c).
Proof.
  intros Hw Hd. pose proof (w_control_recv _ _ Hw) as Hr. pose proof (w_control_bytes _ _ Hw).
  pose proof (q_push_wf (B := RecvBuffer) _ data Hr) as Hq. pose proof (q_push_peek (B := RecvBuffer) _ data Hr) as Hp.
  cbn [q_push q_peek recv_queue] in Hq, Hp. apply set_control_recv_wf; [done| |done].
  split; [done|]. cbn. rewrite Hp. by apply bytes_ok_app.
Qed.

Lemma receive_control_safe data : bytes_ok data -> safe (receive_control data).
Proof.
  intros Hd k c Hw. unfold receive_control.
  apply wp_modify_bind; [by apply control_receive_wf|auto with conn|intros; by apply process_control_stream_safe].
Qed.
Lemma receive_encoder_safe data : bytes_ok data -> safe (receive_encoder data).
Proof.
  intros Hd k c Hw. unfold receive_encoder.
  apply wp_modify_bind; [pose proof (w_decoder _ _ Hw); wf_keep; by apply decoder_fed_receive|ev_keep|intros; by apply process_encoder_stream_safe].
Qed.
Lemma receive_decoder_safe data : safe (receive_decoder data).
Proof.
  intros k c Hw. unfold receive_decoder.
  apply wp_modify_bind; [by wf_keep|ev_keep|intros; by apply process_decoder_stream_safe].
Qed.
Lemma unless_empty_safe data m : safe m -> safe (unless_empty data m).
Proof. intros Hm k c Hw. unfold unless_empty. case_match; [by wp_steps|by apply Hm]. Qed.

(** *** Unidirectional streams *)
Lemma set_control_stream_wf k c id : conn_wf k c ->
  conn_wf k (set_control_recv (skip_stream_type (control_recv_set_stream_id (control_recv c) id)) c).
Proof.
  intros Hw. unfold skip_stream_type. apply set_control_recv_wf; [done| |].
  - destruct (cr_recv_state _); (split; [exact (w_control_recv _ _ Hw)|exact (w_control_bytes _ _ Hw)]).
  - intros E. cbn. by rewrite E.
Qed.
Lemma ignore_uni_wf k c m : conn_wf k c -> conn_wf k (set_ignored_uni_streams m c).
Proof. intros Hw. by wf_keep. Qed.
Lemma set_peer_encoder_wf k c o : conn_wf k c -> conn_wf k (set_peer_encoder_stream_id o c).
Proof. intros Hw. by wf_keep. Qed.
Lemma set_peer_encoder_ev c o : evolves c (set_peer_encoder_stream_id o c).
Proof. ev_keep. Qed.
Lemma set_peer_decoder_wf k c o : conn_wf k c -> conn_wf k (set_peer_decoder_stream_id o c).
Proof. intros Hw. by wf_keep. Qed.
Lemma set_peer_decoder_ev c o : evolves c (set_peer_decoder_stream_id o c).
Proof. ev_keep. Qed.
Lemma pending_uni_wf k c m : conn_wf k c -> map_Forall (fun _ b => bytes_ok b) m -> conn_wf k (set_pending_uni_streams m c).
Proof. intros Hw Hm. by wf_keep. Qed.
Lemma pending_uni_ev c m : evolves c (set_pending_uni_streams m c).
Proof. ev_keep. Qed.
Lemma dispatch_wf k c m : conn_wf k c -> map_Forall (fun _ b => bytes_ok b) m -> conn_wf k (set_pending_bidi_dispatch m c).
Proof. intros Hw Hm. by wf_keep. Qed.
Lemma dispatch_ev c m : evolves c (set_pending_bidi_dispatch m c).
Proof. ev_keep. Qed.
#[export] Hint Resolve set_control_stream_wf ignore_uni_wf set_peer_encoder_wf set_peer_encoder_ev set_peer_decoder_wf
  set_peer_decoder_ev pending_uni_wf pending_uni_ev dispatch_wf dispatch_ev : conn.
Lemma drop_pending_wt_uni_wf k c id : conn_wf k c -> conn_wf k (set_pending_wt_uni_streams (delete id (pending_wt_uni_streams c)) c).
Proof. intros Hw. apply pending_wt_uni_wf; [done|]. apply map_Forall_delete, Hw. Qed.
Lemma drop_pending_uni_wf k c id : conn_wf k c -> conn_wf k (set_pending_uni_streams (delete id (pending_uni_streams c)) c).
Proof. intros Hw. apply pending_uni_wf; [done|]. apply map_Forall_delete, Hw. Qed.
Lemma drop_dispatch_wf k c id : conn_wf k c -> conn_wf k (set_pending_bidi_dispatch (delete id (pending_bidi_dispatch c)) c).
Proof. intros Hw. apply dispatch_wf; [done|]. apply map_Forall_delete, Hw. Qed.
#[export] Hint Resolve drop_pending_wt_uni_wf drop_pending_uni_wf drop_dispatch_wf : conn.

Lemma open_uni_stream_safe id type remaining : bytes_ok remaining -> safe (open_uni_stream id type remaining).
Proof.
  intros Hd k c Hw. unfold open_uni_stream. wp_step. repeat (case_match; [|clear H]).
  - do 2 wp_step. by apply (unless_empty_safe _ _ (receive_control_safe _ Hd)).
  - do 2 wp_step. by apply (unless_empty_safe _ _ (receive_encoder_safe _ Hd)).
  - do 2 wp_step. by apply (unless_empty_safe _ _ (receive_decoder_safe _)).
  - by wp_steps.
  - wp_step. by apply resolve_wt_uni_safe.
  - apply wp_modify; [auto with conn|ev_keep; set_solver|done].
Qed.

Lemma check_critical_fin_safe id : safe (check_critical_fin id).
Proof. intros k c Hw. unfold check_critical_fin. wp_step. case_match; by wp_steps. Qed.

Lemma finish_new_uni_safe id : safe (finish_new_uni id).
Proof.
  intros k c Hw. unfold finish_new_uni. wp_call check_critical_fin_safe. apply wp_modify; [| |done].
  - apply drop_pending_wt_uni_wf. destruct (wt_uni_streams c' !! id); auto with conn.
  - destruct (wt_uni_streams c' !! id); [|auto with conn].
    etrans; [|apply pending_wt_uni_ev]. etrans; [|apply push_wt_ev]. apply delete_uni_ev.
Qed.

Lemma handle_new_uni_safe id data fin : bytes_ok data -> safe (handle_new_unidirectional_stream id data fin).
Proof.
  intros Hd k c Hw. unfold handle_new_unidirectional_stream. wp_step.
  destruct (extend_pending_ok _ id data (w_pending_uni _ _ Hw) Hd) as [Hm Hb].
  destruct (extend_pending _ _ _) as [m buf]. cbn [fst snd] in Hm, Hb. wp_step.
  destruct (decode buf) as [[type n]|].
  - wp_step. wp_call open_uni_stream_safe; [by apply bytes_ok_drop|]. destruct fin; [by apply finish_new_uni_safe|by wp_steps].
  - wp_step. destruct fin; auto with conn.
Qed.

Lemma receive_known_uni_safe id data : bytes_ok data -> safe (receive_known_uni id data).
Proof.
  intros Hd k c Hw. unfold receive_known_uni. wp_step. repeat (case_match; [|clear H]).
  - by apply receive_control_safe.
  - by apply receive_encoder_safe.
  - by apply receive_decoder_safe.
  - wp_call handle_wt_uni_stream_data_safe. by wp_steps.
  - by apply resolve_wt_uni_safe.
Qed.

Lemma finish_uni_safe id : safe (finish_uni id).
Proof.
  intros k c Hw. unfold finish_uni. wp_call check_critical_fin_safe. wp_call handle_wt_uni_stream_fin_safe.
  do 2 wp_step.
Qed.

Lemma handle_uni_safe id data fin : bytes_ok data -> safe (handle_unidirectional_stream id data fin).
Proof.
  intros Hd k c Hw. unfold handle_unidirectional_stream. wp_step. case_match; [by wp_steps|]. wp_kind id.
  case_match; [by wp_steps|]. case_match; [by apply handle_new_uni_safe|].
  wp_call (unless_empty_safe data _ (receive_known_uni_safe id data Hd)).
  destruct fin; [by apply finish_uni_safe|by wp_steps].
Qed.

(** *** Bidirectional streams *)
Lemma buffer_pre_wf k c id data fin : conn_wf k c -> bytes_ok data -> conn_wf k (buffer_pre_negotiation_wt_bidi id data fin c).
Proof.
  intros Hw Hd. unfold buffer_pre_negotiation_wt_bidi. case_match eqn:Ec; [auto with conn|].
  set (e := default _ _). assert (bytes_ok (pb_data e)) as He.
  { unfold e. destruct (_ !! id) as [p|] eqn:Ep; [exact (proj1 (w_pre _ _ Hw _ _ Ep))|constructor]. }
  case_z; [auto with conn|]. wf_keep.
  - apply map_Forall_insert_2; [|done]. split; cbn; [by apply bytes_ok_app|].
    rewrite len_app. unfold saturating_add, U64_MAX in *. pose proof (len_nonneg (pb_data e)). pose proof (len_nonneg data).
    unfold WT_MAX_BUFFERED_STREAM_BYTES in *. lia.
  - rewrite map_size_insert. apply andb_false_iff in Ec. unfold Datatypes.id, has_key in *.
    destruct (_ !! id) eqn:Ep in |- *; [lia|]. destruct Ec as [Ec|Ec]; [|lia].
    rewrite Ep, bool_decide_false in Ec; [done|]. by intros [].
Qed.
Lemma buffer_pre_ev c id data fin : evolves c (buffer_pre_negotiation_wt_bidi id data fin c).
Proof.
  unfold buffer_pre_negotiation_wt_bidi. case_match; [auto with conn|]. case_z; [|auto with conn].
  etrans; [apply set_pre_ev|apply reject_pre_ev].
Qed.
#[export] Hint Resolve buffer_pre_wf buffer_pre_ev : conn.

Lemma dispatch_client_bidi_safe id data fin : request_id id -> bytes_ok data -> safe0 (dispatch_client_bidi_stream id data fin).
Proof.
  intros Hi Hd c Hw. unfold dispatch_client_bidi_stream. wp_step.
  destruct (extend_pending_ok _ id data (w_dispatch _ _ Hw) Hd) as [Hm Hb].
  destruct (extend_pending _ _ _) as [m buf]. cbn [fst snd] in Hm, Hb. wp_step.
  destruct buf as [|x buf].
  { destruct fin; wp_step. by apply handle_bidirectional_stream_safe. }
  case_match; [wp_step; by apply handle_bidirectional_stream_safe|].
  destruct (decode (x :: buf)) as [[v n]|].
  - wp_step. case_match; [|by apply handle_bidirectional_stream_safe].
    case_match; [by apply handle_wt_bidi_stream_safe|]. case_match; wp_steps.
  - destruct fin; by wp_steps.
Qed.

Lemma feed_bidirectional_safe id data fin kind : request_id id -> bytes_ok data -> safe0 (feed_bidirectional id data fin kind).
Proof.
  intros Hi Hd c Hw. unfold feed_bidirectional. wp_step.
  case_match; [case_match; [by apply handle_wt_bidi_stream_safe|by wp_steps]|].
  case_match; [by apply handle_wt_bidi_stream_safe|]. case_match; [by apply dispatch_client_bidi_safe|].
  case_match; [by wp_steps|]. case_match; [by wp_steps|]. case_match; [by apply dispatch_client_bidi_safe|].
  destruct (handle_bidirectional_stream_safe id data fin Hi Hd c Hw) as (c' & r & E & Hw' & He & _).
  unfold wp. rewrite E. cbn [mbind option_bind]. eexists _, _. split; [done|]. split; [auto with conn|].
  split; [etrans; [exact He|auto with conn]|by destruct r].
Qed.

Lemma remember_safe0 {A} (m : action A) : safe0 m -> safe0 (remember_connection_error m).
Proof. intros Hm c Hw. by apply wp_remember, Hm. Qed.

Lemma from_stream_id_bidi id kind : from_stream_id id = Some kind -> is_unidirectional kind = false -> bidi_id id.
Proof.
  unfold from_stream_id, bidi_id. change 0x03 with (Z.ones 2). rewrite Z.land_ones by done. change (2 ^ 2) with 4.
  cbv zeta. repeat (case_z; [intros [= <-]; cbn; try done; lia|]). done.
Qed.

Lemma feed_stream_safe id data fin : varint_ok id -> bytes_ok data -> safe0 (feed_stream id data fin).
Proof.
  intros Hi Hd c Hw. unfold feed_stream. wp_call check_error_safe. apply remember_safe0; [|done].
  intros c1 Hw1. destruct (from_stream_id_total id) as [kind E]. eapply wp_expect_bind; [exact E|].
  case_match; [by apply handle_uni_safe|]. apply feed_bidirectional_safe; [split; [done|]|done..]. by eapply from_stream_id_bidi.
Qed.

Lemma poll_event_safe : safe0 poll_event.
Proof.
  apply remember_safe0. intros c Hw. wp_call check_error_safe. wp_call0 (fun c => retry_blocked_streams_safe c).
  apply wp_method; [| |done]; destruct (events c'0); cbn [fst]; try done; [by wf_keep|ev_keep].
Qed.
Lemma drain_events_safe : safe0 drain_events.
Proof.
  apply remember_safe0. intros c Hw. wp_call check_error_safe. wp_call0 (fun c => retry_blocked_streams_safe c).
  apply wp_method; [by wf_keep|ev_keep|done].
Qed.

Lemma clear_blocked_wf k c id : conn_wf k c -> conn_wf k (clear_qpack_blocked id c).
Proof.
  intros Hw. unfold clear_qpack_blocked. apply update_stream_same_wf; [|done].
  destruct (streams c !! id) as [s|]; [|done]. case_match; [|done]. wf_keep.
  pose proof (subseteq_size (blocked_by_ricnt c ∖ {[(rq_qpack_ricnt s, id)]}) (blocked_by_ricnt c) ltac:(set_solver)). lia.
Qed.
Lemma clear_blocked_ev c id : evolves c (clear_qpack_blocked id c).
Proof. unfold clear_qpack_blocked. etrans; [|apply update_stream_ev]. repeat case_match; ev_keep. Qed.
#[export] Hint Resolve clear_blocked_wf clear_blocked_ev : conn.

Lemma send_stream_cancellation_safe id : safe (send_stream_cancellation_if_needed id).
Proof.
  intros k c Hw. unfold send_stream_cancellation_if_needed. wp_step. case_match; [by wp_steps|]. wp_kind id.
  apply wp_modify; [repeat case_match; try done; by wf_keep|repeat case_match; ev_keep|done].
Qed.

Lemma discard_wf s : stream_wf s -> stream_wf (stop_request s).
Proof. intros []. split; cbn; try done. by left. Qed.

Lemma stream_reset_safe id code final_size : safe0 (stream_reset id code final_size).
Proof.
  apply remember_safe0. intros c Hw. wp_call check_error_safe. do 2 wp_step.
  apply wp_modify_bind; [by apply update_stream_same_wf|auto with conn|intros Hw1]. do 2 wp_step.
  wp_call send_stream_cancellation_safe. wp_call handle_wt_stream_reset_safe. 
  assert (safe (if a1 then done_with else modify (push_event (EvStreamReset id code)))) as Hs.
  { intros k2 c2 ?. destruct a1; by wp_steps. }
  wp_call Hs. by wp_steps.
Qed.

Lemma stop_sending_safe id code : safe0 (stop_sending id code).
Proof.
  apply remember_safe0. intros c Hw. wp_call check_error_safe. do 2 wp_step.
  apply wp_modify_bind; [apply update_stream_wf; [done|intros; by apply discard_wf]|auto with conn|intros Hw1]. wp_step.
  wp_call send_stream_cancellation_safe. wp_call handle_wt_stop_sending_safe.
  assert (safe (if a1 then done_with else modify (push_event (EvStopSending id code)))) as Hs.
  { intros k2 c2 ?. destruct a1; by wp_steps. }
  wp_call Hs. by wp_steps.
Qed.
