(* ===== verification/ConnSend.v ===== *)
(** connection/mod.rs, the sending side: the data of every stream that is waiting to be
    sent, and requests, responses, bodies and GOAWAY. *)

From Stdlib Require Import String Ascii.
From S2P Require Import Prelude Codec Varint Integer Utf8 Header Settings Frame Error Stream EncoderStream DecoderStream QpackEncoder ControlStream RequestStream Validation Capsule Event Datagram WtSession Connection ConnNegotiation ConnWtSession.

Definition internal_error : Error := ConnectionError InternalError.

(** ** Stream data *)

(** The ids of the streams with something to send; request streams in no particular order. *)
Definition writable_streams (c : Connection) : list Z :=
  flatten [
    (if control_has_pending (control_send c) then control_send_id c else None);
    (if negb (is_empty_bytes (send_buffer (encoder_stream c))) then encoder_stream_id c else None);
    (if negb (is_empty_bytes (decoder_stream c)) then decoder_stream_id c else None)] ++
  map fst (filter (fun x => has_pending_send (snd x) = true) (map_to_list (streams c))).

(** What waits on stream [stream_id]; the critical streams come first. *)
Definition pending_data (stream_id : Z) (c : Connection) : option bytes :=
  let sources := [
    (is_id (control_send_id c) stream_id, control_get_data (control_send c));
    (is_id (encoder_stream_id c) stream_id, send_buffer (encoder_stream c));
    (is_id (decoder_stream_id c) stream_id, decoder_stream c);
    (true, match streams c !! stream_id with Some s => fst (get_send_data s) | None => [] end)] in
  option_map snd (List.find (fun x => fst x && negb (is_empty_bytes (snd x))) sources).

(** A FIN is handed out once, after the data; on a CONNECT stream it ends the session. *)
Definition get_stream_data (stream_id : Z) : action (option (bytes * bool)) :=
  c ← get;
  if some_and (streams c !! stream_id) has_fin_pending then
    modify (update_stream stream_id mark_fin_sent);;
    (if has_key (wt_sessions c) stream_id then terminate_wt_session stream_id else done_with);;
    mret (Some ([], true))
  else mret (option_map (fun data => (data, false)) (pending_data stream_id c)).

(** A panic when more is consumed than there is. *)
Definition consume_stream_data (stream_id n : Z) : action unit :=
  c ← get;
  if is_id (control_send_id c) stream_id then
    s ← expect (control_consume_data (control_send c) n);
    modify (set_control_send s)
  else if is_id (encoder_stream_id c) stream_id then
    modify (set_encoder_stream (consume_data (encoder_stream c) n))
  else if is_id (decoder_stream_id c) stream_id then
    modify (set_decoder_stream (consume_decoder_data (decoder_stream c) n))
  else
    match streams c !! stream_id with
    | Some stream =>
      stream ← expect (consume_send_data stream n);
      modify (set_streams (<[stream_id := stream]> (streams c)));;
      modify (remove_stream_if_done stream_id)
    | None => done_with
    end.

Definition take_stream_data (stream_id : Z) : action (option (bytes * bool)) :=
  o ← get_stream_data stream_id;
  match o with
  | None => mret None
  | Some (data, fin) =>
    if is_empty_bytes data && negb fin then mret None
    else consume_stream_data stream_id (len data);; mret (Some (data, fin))
  end.

Definition init_h3_streams (control_stream_id encoder_stream_id decoder_stream_id : Z) : action H3InitData :=
  set_control_stream_id control_stream_id;;
  conn_set_encoder_stream_id encoder_stream_id;;
  conn_set_decoder_stream_id decoder_stream_id;;
  control ← take_stream_data control_stream_id;
  encoder ← take_stream_data encoder_stream_id;
  decoder ← take_stream_data decoder_stream_id;
  let data (o : option (bytes * bool)) := match o with Some (d, _) => d | None => [] end in
  mret (mkInitData control_stream_id (data control) encoder_stream_id (data encoder) decoder_stream_id (data decoder)).

(** ** Header sections *)

(** [for _ in 0..4]: the buffer doubles every time. *)
Fixpoint encode_attempts (n : nat) (headers : list Header) (blocked_count buf_size : Z) : action bytes :=
  match n with
  | O => throw internal_error
  | S n => fun c =>
    let '(e, run) := encode_section (qpack_encoder c) headers blocked_count in
    let c := set_qpack_encoder e c in
    match run (replicate (Z.to_nat buf_size) 0) with
    | (buf, Some n) => Some (c, Ok (take_z n buf))
    | (_, None) =>
      (buf_size ← lift (ok_or (checked_mul buf_size 2) internal_error);
       encode_attempts n headers blocked_count buf_size) c
    end
  end.
Definition encode_qpack_headers (headers : list Header) (blocked_count : Z) : action bytes :=
  encode_attempts 4 headers blocked_count (estimate_encoded_size headers + 64).

Definition check_peer_section_size (headers : list Header) (c : Connection) : result Error unit :=
  check_field_section_size headers (s ← peer_settings c; max_field_section_size s).

(** The section is registered with the encoder once it is queued. *)
Definition track_sent_section (stream_id : Z) (c : Connection) : Connection :=
  set_qpack_encoder (track_section (qpack_encoder c) stream_id (enc_last_ric (qpack_encoder c))) c.

(** ** Requests *)
Definition request_stream_for (stream_id : Z) (headers : list Header) (c : Connection) : RequestStream :=
  let s := set_max_received_body_size (request_new stream_id (role c)) (limit_received_body_size (limits c)) in
  let s := if is_webtransport_connect headers then set_wt_connect s else s in
  let s := if has_field (str ":method") (str "HEAD") headers then set_is_head_request s true else s in
  if is_plain_connect headers then set_connect_request s else s.

Definition register_sent_connect (stream_id : Z) (headers : list Header) (c : Connection) : Connection :=
  if is_webtransport_connect headers
  then set_wt_sessions (<[stream_id := take_offer headers wt_session_new]> (wt_sessions c)) c
  else c.

Definition send_request (headers : list Header) (fin : bool) : action Z :=
  check_error_state;;
  c ← get;
  throw_if (negb (bool_decide (role c = Client))) internal_error;;
  throw_if (negb (is_some (control_send_id c))) internal_error;;
  lift (validate_request_headers headers);;
  lift (check_peer_section_size headers c);;
  lift (validate_wt_connect_request headers c);;
  throw_if (some_and (peer_goaway_request_boundary c) (fun goaway_id => goaway_id <=? next_stream_id c)) request_rejected;;
  qpack_buf ← encode_qpack_headers headers (blocked_streams_count (qpack_encoder c));
  let stream_id := next_stream_id c in
  next ← expect (checked_add stream_id 4);
  modify (set_next_stream_id next);;
  throw_if (has_field (str ":method") (str "CONNECT") headers && fin) message_error;;
  sent ← expect (send_encoded_headers (request_stream_for stream_id headers c) qpack_buf fin false);
  lift (snd sent);;
  modify (track_sent_section stream_id);;
  modify (fun c => set_streams (<[stream_id := fst sent]> (streams c)) c);;
  modify (register_sent_connect stream_id headers);;
  mret stream_id.

(** ** Responses *)
Definition is_interim_status (v : bytes) : bool :=
  match v with
  | [a; b; d] => (a =? 49) && is_digit b && is_digit d && negb (bytes_eqb v (str "101"))
  | _ => false
  end.
Definition is_interim (headers : list Header) : bool :=
  existsb (fun h => bytes_eqb (name h) (str ":status") && is_interim_status (value h)) headers.

(** A final response other than 2xx ends a pending session. *)
Definition reject_session (stream_id : Z) (headers : list Header) (c : Connection) : Connection :=
  if negb (is_interim headers) && negb (is_success_status headers) &&
     is_some_and (fun s => bool_decide (ws_state s = WtPending)) (wt_sessions c !! stream_id)
  then bury_session stream_id c
  else c.

Definition send_response (stream_id : Z) (headers : list Header) (fin : bool) : action unit :=
  check_error_state;;
  c ← get;
  throw_if (negb (bool_decide (role c = Server))) internal_error;;
  lift (validate_response_headers headers);;
  lift (check_peer_section_size headers c);;
  lift (validate_wt_response_protocol stream_id headers c);;
  qpack_buf ← encode_qpack_headers headers (blocked_streams_count (qpack_encoder c));
  stream ← lift (ok_or (streams c !! stream_id) (StreamNotFound stream_id));
  sent ← expect (send_encoded_headers stream qpack_buf fin (is_interim headers));
  modify (fun c => set_streams (<[stream_id := fst sent]> (streams c)) c);;
  lift (snd sent);;
  modify (reject_session stream_id headers);;
  establish_wt_session_server stream_id headers;;
  modify (track_sent_section stream_id).

(** ** Bodies and GOAWAY *)
Definition conn_send_body (stream_id : Z) (data : bytes) (fin : bool) : action unit :=
  remember_connection_error (
    check_error_state;;
    c ← get;
    stream ← lift (ok_or (streams c !! stream_id) (StreamNotFound stream_id));
    sent ← expect (send_body stream data fin);
    modify (set_streams (<[stream_id := fst sent]> (streams c)));;
    lift (snd sent)).

Definition goaway_error : Error := ConnectionError IdError.

Definition conn_send_goaway (id : Z) : action unit :=
  remember_connection_error (
    check_error_state;;
    c ← get;
    throw_if (match role c with Server => negb (id mod 4 =? 0) | Client => negb (id =? 0) end) goaway_error;;
    throw_if (some_and (last_sent_goaway_id c) (fun last_id => last_id <? id)) goaway_error;;
    sent ← expect (send_goaway (control_send c) id);
    modify (set_control_send (fst sent));;
    lift (snd sent);;
    modify (set_last_sent_goaway_id (Some id))).
