(* ===== verification/ConnSendSafety.v ===== *)
(** The sending side of a connection is safe, in the sense of ConnInvariant: encoding a
    header section never writes past its buffer, and a frame that fits into a varint is
    queued. No code of its own. *)

From S2P Require Import Prelude Codec Varint Integer Huffman Wire Header Settings Frame Error Stream FrameStream StaticTable DynamicTable EncoderStream DecoderStream QpackEncoder ControlStream RequestStream Validation Capsule WtStream Event Datagram WtSession Connection ConnInvariant ConnNegotiation ConnWtSession ConnWtStream ConnReceive ConnSafety ConnSend.

(** ** Writers that keep the size of the buffer, whether they succeed or not *)
Definition len_safe (w : writer) : Prop := forall buf, len (fst (w buf)) = len buf.

Lemma writes_len_safe w bs : Writes w bs -> len_safe w.
Proof.
  intros Hw buf. destruct (Z.leb_spec (len bs) (len buf)).
  - rewrite writes_fit by done. cbn [fst]. pose proof (len_nonneg bs). rewrite len_app, len_drop by lia. lia.
  - destruct (writes_short (w := w) (bs := bs) buf) as (b & -> & ?); [lia|done].
Qed.
Lemma then_len_safe w1 w2 : len_safe w1 -> len_safe w2 -> len_safe (then_write w1 w2).
Proof.
  intros H1 H2 buf. unfold then_write, at_offset. specialize (H1 buf). destruct (w1 buf) as [b1 [off|]]; [|done].
  cbn [fst] in H1. rewrite <- H1. specialize (H2 (drop_z off b1)). destruct (w2 (drop_z off b1)) as [t r]. cbn [fst] in H2.
  assert (len (take_z off b1 ++ t) = len b1); [|by destruct r].
  rewrite len_app, H2, <- len_app. unfold take_z, drop_z. by rewrite take_drop.
Qed.
Lemma each_len_safe {A} (f : A -> writer) l : (forall x, len_safe (f x)) -> len_safe (write_each f l).
Proof. intros Hf. induction l as [|x l IH]; [done|]. intros buf. cbn [write_each]. by apply then_len_safe. Qed.

Lemma encode_cont_len fuel : forall buf off r, len (fst (encode_cont fuel buf off r)) = len buf.
Proof.
  induction fuel as [|fuel IH]; intros buf off r; cbn [encode_cont]; [|case_z]; try (case_z; cbn [fst]; rewrite ?IH; by rewrite ?length_set_at).
Qed.
Lemma encode_integer_len_safe v b p : len_safe (encode_integer v b p).
Proof.
  intros buf. unfold encode_integer. destruct (_ || _); [done|]. cbv zeta.
  destruct (v <? _), (len buf =? 0); try done; cbn [fst]; rewrite ?encode_cont_len; by rewrite length_set_at.
Qed.
Lemma flush_len fuel : forall buf off acc bits, len (fst (fst (fst (flush fuel buf off acc bits)))) = len buf.
Proof.
  induction fuel as [|fuel IH]; intros; cbn [flush]; [done|]. case_z; [|done]. rewrite IH. apply length_set_at.
Qed.
Lemma encode_loop_len data : forall buf off acc bits, len (fst (fst (fst (encode_loop data buf off acc bits)))) = len buf.
Proof.
  induction data as [|x data IH]; intros; cbn [encode_loop]; [done|]. cbv zeta.
  match goal with |- context [flush ?n ?b ?o ?a ?k] => pose proof (flush_len n b o a k) as Hf; destruct (flush n b o a k) as [[[? ?] ?] ?] end.
  by rewrite IH.
Qed.
Lemma huffman_encode_len_safe data : len_safe (huffman_encode data).
Proof.
  intros buf. unfold huffman_encode. case_z; [done|]. pose proof (encode_loop_len data buf 0 0 0).
  destruct (encode_loop data buf 0 0 0) as [[[b off] acc] bits]. case_z; cbn [fst] in *; rewrite ?length_set_at; done.
Qed.
Lemma ret_len_len_safe n w : len_safe w -> len_safe (ret_len n w).
Proof. intros Hw buf. unfold ret_len. specialize (Hw buf). by destruct (w buf) as [? [?|]]. Qed.
Lemma put_byte_len_safe b : len_safe (put_byte b).
Proof. intros [|x buf]; done. Qed.
Lemma copy_slice_len_safe data : len_safe (copy_slice data).
Proof. eapply writes_len_safe, _. Qed.
#[local] Hint Resolve then_len_safe each_len_safe encode_integer_len_safe huffman_encode_len_safe ret_len_len_safe
  put_byte_len_safe copy_slice_len_safe : core.

Lemma encode_string_len_safe data huffman : len_safe (encode_string data huffman).
Proof. unfold encode_string. destruct (_ && _); auto. Qed.
Lemma encode_string_with_prefix_len_safe data b p huffman : len_safe (encode_string_with_prefix data b p huffman).
Proof. unfold encode_string_with_prefix. destruct (_ && _); auto. Qed.
#[local] Hint Resolve encode_string_len_safe encode_string_with_prefix_len_safe : core.

Lemma encode_section_len_safe e headers n : len_safe (snd (encode_section e headers n)).
Proof.
  unfold encode_section. destruct (_ || _); cbn [snd].
  - unfold encode_static_only. repeat apply then_len_safe; auto. apply each_len_safe. intros h.
    unfold encode_header_static_only. destruct (find_static_entry _ _) as [[?|] [?|]];
      unfold encode_indexed_field_static, encode_literal_with_name_ref_static, encode_literal_with_literal_name; auto.
  - unfold encode_with_dynamic. repeat apply then_len_safe; auto. apply each_len_safe. intros h.
    unfold encode_header_with_dynamic, encode_indexed_field_static, encode_literal_with_name_ref_static,
      encode_literal_with_literal_name, encode_indexed_field_dynamic, encode_literal_with_name_ref_dynamic.
    destruct (find_entry _ _ _) as [[?|] [?|]], (find_static_entry _ _) as [[?|] [?|]]; auto.
Qed.

(** ** Frames *)
Lemma payload_frame_total t payload : varint_ok t -> len payload <= VARINT_MAX ->
  exists bs, encode_payload_frame t payload (replicate (Z.to_nat (encoded_len t + encoded_len (len payload) + len payload)) 0)
    = (bs, Some (encoded_len t + encoded_len (len payload) + len payload)).
Proof.
  intros Ht Hl. pose proof (len_nonneg payload). pose proof (writes_payload_frame t payload Ht Hl) as Hw.
  pose proof (encoded_len_pos t). pose proof (encoded_len_pos (len payload)).
  assert (len (encode_raw t ++ encode_raw (len payload) ++ payload) = encoded_len t + encoded_len (len payload) + len payload) as E.
  { rewrite !len_app, !len_encode_raw by (done || by split). lia. }
  rewrite <- E. eexists. apply writes_fit. by rewrite len_replicate, len_to_nat.
Qed.

Lemma frame_to_vec_fits f payload : f = Data payload \/ f = Headers payload -> len payload <= VARINT_MAX ->
  is_Some (frame_to_vec f).
Proof.
  intros Hf Hl. pose proof (len_nonneg payload). pose proof (encoded_len_pos (frame_type f)).
  pose proof (encoded_len_pos (len payload)).
  assert (encoded_frame_len f = Some (encoded_len (frame_type f) + encoded_len (len payload) + len payload)) as E.
  { destruct Hf as [-> | ->]; unfold encoded_frame_len; rewrite varint_new_ok by done; cbn [ok mbind option_bind].
    all: unfold checked_add, U64_MAX, VARINT_MAX in *; cbn [frame_type] in *; by solve_cmp. }
  unfold frame_to_vec. rewrite E. cbn [mbind option_bind]. unfold encode_frame. rewrite E.
  rewrite len_replicate, Z2Nat.id, Z.ltb_irrefl by lia.
  destruct Hf as [-> | ->]; cbn [frame_type].
  all: destruct (payload_frame_total (frame_type_code TData) payload) as (b1 & E1); [done..|].
  all: destruct (payload_frame_total (frame_type_code THeaders) payload) as (b2 & E2); [done..|].
  - unfold encode_data_frame. rewrite E1. by eexists.
  - unfold encode_headers_frame. rewrite E2. by eexists.
Qed.

(** ** What is queued on a request stream *)
Lemma stream_push_wf s data : stream_wf s -> q_wf (send_push (rq_send_buf s) data).
Proof. intros [_ Hs _ _]. exact (q_push_wf (B := SendBuffer) _ data Hs). Qed.

Lemma finish_stream_wf s fin : stream_wf s -> stream_wf (finish_send s fin).
Proof. intros []. unfold finish_send. destruct fin; by split. Qed.

Lemma send_encoded_headers_ok s encoded fin interim : stream_wf s -> len encoded <= VARINT_MAX ->
  exists s' r, send_encoded_headers s encoded fin interim = Some (s', r) /\ stream_wf s'.
Proof.
  intros Hs Hl. unfold send_encoded_headers. destruct (negb _); [by eexists _, _|].
  destruct (headers_refused s interim); [by eexists _, _|]. destruct (interim && fin); [by eexists _, _|].
  destruct (frame_to_vec_fits (Headers encoded) encoded) as [frame E]; [by right|done|]. rewrite E. cbn [mbind option_bind].
  eexists _, _. split; [done|]. apply finish_stream_wf. pose proof (stream_push_wf s frame Hs). destruct Hs. by split.
Qed.

Lemma send_body_ok s data fin : stream_wf s -> len data <= VARINT_MAX ->
  exists s' r, send_body s data fin = Some (s', r) /\ stream_wf s'.
Proof.
  intros Hs Hl. unfold send_body. destruct (negb _); [by eexists _, _|].
  destruct (rq_send_state s); try by eexists _, _.
  all: destruct data as [|x data]; [eexists _, _; split; [done|]; by apply finish_stream_wf|].
  all: destruct (frame_to_vec_fits (Data (x :: data)) (x :: data)) as [frame E]; [by left|done|]; rewrite E.
  all: cbn [mbind option_bind]; eexists _, _; (split; [done|]); apply finish_stream_wf;
    pose proof (stream_push_wf s frame Hs); destruct Hs; by split.
Qed.

Lemma consume_send_data_ok s n : stream_wf s -> 0 <= n <= len (send_peek (rq_send_buf s)) ->
  exists s', consume_send_data s n = Some s' /\ stream_wf s'.
Proof.
  intros Hs Hn. destruct (q_consume_fits (B := SendBuffer) (rq_send_buf s) n (sw_send _ Hs) Hn) as (b & E & Hb & _).
  cbn [q_consume send_queue] in E. unfold consume_send_data. rewrite E. eexists. split; [done|]. destruct Hs. by split.
Qed.

(** ** Stream data *)
Lemma update_mark_fin_wf k c id : conn_wf k c -> conn_wf k (update_stream id mark_fin_sent c).
Proof. intros Hw. apply update_stream_wf; [done|]. intros s []. by split. Qed.
#[export] Hint Resolve update_mark_fin_wf : conn.

Lemma get_stream_data_safe id : safe (get_stream_data id).
Proof.
  intros k c Hw. unfold get_stream_data. wp_step. case_match; [|by wp_steps]. wp_step.
  assert (safe (if has_key (wt_sessions c) id then terminate_wt_session id else done_with)) as Hs.
  { intros k' c' Hw'. case_match; [by apply terminate_safe|by wp_steps]. }
  wp_call Hs. by wp_steps.
Qed.

(** What may be consumed of a stream without a panic. *)
Definition consumable (id n : Z) (c : Connection) : Prop :=
  0 <= n /\
  if is_id (control_send_id c) id then n <= len (control_get_data (control_send c))
  else if is_id (encoder_stream_id c) id || is_id (decoder_stream_id c) id then True
  else forall s, streams c !! id = Some s -> n <= len (send_peek (rq_send_buf s)).

Lemma control_send_wf k c s : conn_wf k c -> q_wf (cs_send_buf s) ->
  cs_stream_id s = control_send_id c -> conn_wf k (set_control_send s c).
Proof. intros Hw ? E. wf_keep. unfold control_send_id in *. cbn. by rewrite E. Qed.
Lemma control_send_ev c s : evolves c (set_control_send s c).
Proof. ev_keep. Qed.

Lemma consume_stream_data_wp k c id n : conn_wf k c -> consumable id n c ->
  wp k (consume_stream_data id n) c (fun _ _ => True).
Proof.
  intros Hw (Hn & Hc). unfold consume_stream_data. wp_step. destruct (is_id (control_send_id c) id).
  { destruct (q_consume_fits (B := SendBuffer) (cs_send_buf (control_send c)) n (w_control_send _ _ Hw))
      as (b & E & Hb & _); [by split|]. cbn [q_consume send_queue] in E.
    eapply wp_expect_bind; [unfold control_consume_data; by rewrite E|].
    apply wp_modify; [by apply control_send_wf|apply control_send_ev|done]. }
  destruct (is_id (encoder_stream_id c) id); [by wp_steps|].
  destruct (is_id (decoder_stream_id c) id); [apply wp_modify; [by wf_keep|ev_keep|done]|]. cbn [orb] in Hc.
  destruct (streams c !! id) as [s|] eqn:E; [|by wp_steps]. destruct (stream_at _ _ Hw _ _ E) as [Hi Hsw].
  destruct (consume_send_data_ok s n Hsw) as (s' & Es & Hs'); [split; [done|by apply Hc]|].
  eapply wp_expect_bind; [exact Es|]. apply wp_modify_bind; [by apply insert_stream_wf|auto with conn|intros; by wp_steps].
Qed.

(** What waits on a stream may be consumed. *)
Lemma pending_data_consumable k c id data : conn_wf k c -> pending_data id c = Some data -> consumable id (len data) c.
Proof.
  intros Hw Hp. split; [apply len_nonneg|]. unfold pending_data in Hp. cbn [List.find fst snd] in Hp.
  destruct (is_id (control_send_id c) id) eqn:Hid; cbn [andb] in Hp.
  - destruct (is_empty_bytes (control_get_data (control_send c))); cbn [negb] in Hp; [|by injection Hp as <-].
    apply bool_decide_eq_true in Hid. destruct (w_control_id _ _ Hw _ Hid) as (Hb & He & Hd). exfalso.
    unfold is_id in Hp. rewrite !bool_decide_false in Hp by done. cbn [andb] in Hp.
    destruct (streams c !! id) as [s|] eqn:Es; [|done]. by destruct (stream_at _ _ Hw _ _ Es) as [[_ ?] _].
  - destruct (is_id (encoder_stream_id c) id); [done|]. destruct (is_id (decoder_stream_id c) id); [done|]. cbn [andb orb] in *.
    intros s Hs. rewrite Hs in Hp. cbn [fst get_send_data] in Hp.
    destruct (is_empty_bytes (send_peek (rq_send_buf s))); [done|]. by injection Hp as <-.
Qed.

Lemma consumable_nothing k c id : conn_wf k c -> consumable id 0 c.
Proof.
  intros Hw. split; [done|]. pose proof (len_nonneg (control_get_data (control_send c))). case_match; [done|].
  case_match; [done|]. intros s _. apply len_nonneg.
Qed.

Lemma take_stream_data_safe id : safe (take_stream_data id).
Proof.
  intros k c Hw. unfold take_stream_data.
  eapply (wp_seq _ _ _ _ (fun o c' => match o with Some (data, _) => consumable id (len data) c' | None => True end)).
  - unfold get_stream_data. wp_step. case_match.
    + wp_step. assert (safe (if has_key (wt_sessions c) id then terminate_wt_session id else done_with)) as Hs.
      { intros k' c' Hw'. case_match; [by apply terminate_safe|by wp_steps]. }
      wp_call Hs. apply wp_ret; [done|]. by eapply consumable_nothing.
    + apply wp_ret; [done|]. destruct (pending_data id c) eqn:E; [|done]. by eapply pending_data_consumable.
  - intros [[data fin]|] c1 Hw1 _ Hc; [|by wp_steps]. case_match; [by wp_steps|].
    eapply wp_seq; [by apply consume_stream_data_wp|]. intros [] c2 Hw2 _ _. by wp_steps.
Qed.

(** ** The critical streams of this end *)
Lemma land_3 id : Z.land id 0x3 = id mod 4.
Proof. change 0x3 with (Z.ones 2). by rewrite Z.land_ones. Qed.

Lemma validate_self_wp k c id : conn_wf k c ->
  wp k (validate_self_initiated_uni_stream_id id) c (fun _ c' => c' = c /\ ~ bidi_id id).
Proof.
  intros Hw. unfold validate_self_initiated_uni_stream_id. wp_step. apply wp_throw_if; [done|].
  rewrite land_3. unfold bidi_id. intros H. split; [done|]. destruct (role c); lia.
Qed.

Lemma set_control_stream_id_safe id : safe (set_control_stream_id id).
Proof.
  intros k c Hw. unfold set_control_stream_id. eapply wp_seq; [by apply validate_self_wp|].
  intros [] ? _ _ [-> Hb]. do 5 wp_step. apply wp_modify; [|apply control_send_ev|done]. wf_keep.
  intros id' [= <-]. split; [done|]. unfold is_id in *.
  repeat case_bool_decide; done.
Qed.

Lemma conn_set_encoder_stream_id_safe id : safe (conn_set_encoder_stream_id id).
Proof.
  intros k c Hw. unfold conn_set_encoder_stream_id. eapply wp_seq; [by apply validate_self_wp|].
  intros [] ? _ _ [-> Hb]. do 5 wp_step. apply wp_modify_bind; [|ev_keep|intros Hw1].
  { wf_keep.
    - intros id' Hid. destruct (w_control_id id' Hid) as (? & ? & ?). split_and!; [done| |done].
      unfold is_id in *. intros [= <-]. repeat case_bool_decide; done.
    - intros id' [[= <-]|?]; [done|]. apply w_qpack_ids. by right.
    - intros id' [= <-]. unfold is_id in *. by repeat case_bool_decide. }
  do 3 wp_step. case_match; [by apply send_set_capacity_safe|by wp_steps].
Qed.

Lemma set_decoder_stream_wf k c s : conn_wf k c -> conn_wf k (set_decoder_stream s c).
Proof. intros Hw. by wf_keep. Qed.
Lemma set_decoder_stream_ev c s : evolves c (set_decoder_stream s c).
Proof. ev_keep. Qed.
Lemma set_acks_wf k c l : conn_wf k c -> conn_wf k (set_deferred_section_acks l c).
Proof. intros Hw. by wf_keep. Qed.
Lemma set_acks_ev c l : evolves c (set_deferred_section_acks l c).
Proof. ev_keep. Qed.
Lemma set_cancellations_wf k c l : conn_wf k c -> conn_wf k (set_deferred_stream_cancellations l c).
Proof. intros Hw. by wf_keep. Qed.
Lemma set_cancellations_ev c l : evolves c (set_deferred_stream_cancellations l c).
Proof. ev_keep. Qed.
Lemma flush_wf k c f d : (forall k c, conn_wf k c -> conn_wf k (f c)) -> conn_wf k c -> conn_wf k (f (set_decoder_stream d c)).
Proof. intros Hf Hw. by apply Hf, set_decoder_stream_wf. Qed.
Lemma flush_ev c f d : (forall c, evolves c (f c)) -> evolves c (f (set_decoder_stream d c)).
Proof. intros Hf. etrans; [apply set_decoder_stream_ev|apply Hf]. Qed.

Lemma conn_set_decoder_stream_id_safe id : safe (conn_set_decoder_stream_id id).
Proof.
  intros k c Hw. unfold conn_set_decoder_stream_id. eapply wp_seq; [by apply validate_self_wp|].
  intros [] ? _ _ [-> Hb]. do 5 wp_step. apply wp_modify_bind; [|ev_keep|intros Hw1].
  { wf_keep.
    - intros id' Hid. destruct (w_control_id id' Hid) as (? & ? & ?). split_and!; [done..|].
      unfold is_id in *. intros [= <-]. repeat case_bool_decide; done.
    - intros id' [?|[= <-]]; [|done]. apply w_qpack_ids. by left.
    - intros id' Hid [= <-]. unfold is_id in *. by repeat case_bool_decide. }
  generalize dependent (set_decoder_stream_id (Some id) c). clear Hw. intros c1 Hw1.
  apply wp_modify_bind; [by apply set_decoder_stream_wf|apply set_decoder_stream_ev|intros Hw2].
  clear Hw1. generalize dependent (set_decoder_stream (write_decoder_stream_type (decoder_stream c1)) c1). intros c2 Hw2.
  apply wp_modify_bind; [|apply (flush_ev _ (set_deferred_section_acks [])); intros; apply set_acks_ev|].
  { apply (flush_wf _ _ (set_deferred_section_acks []) _); [intros; by apply set_acks_wf|done]. }
  intros Hw3. generalize dependent (set_deferred_section_acks []
    (set_decoder_stream (fold_left encode_section_acknowledgment (deferred_section_acks c2) (decoder_stream c2)) c2)).
  intros c3 Hw3. apply wp_modify; [|apply (flush_ev _ (set_deferred_stream_cancellations [])); intros; apply set_cancellations_ev|done].
  apply (flush_wf _ _ (set_deferred_stream_cancellations []) _); [intros; by apply set_cancellations_wf|done].
Qed.

Lemma init_h3_streams_safe a b d : safe (init_h3_streams a b d).
Proof.
  intros k c Hw. unfold init_h3_streams. wp_call set_control_stream_id_safe. wp_call conn_set_encoder_stream_id_safe.
  wp_call conn_set_decoder_stream_id_safe. do 3 wp_call take_stream_data_safe. by wp_steps.
Qed.

(** ** Header sections *)
Definition section_fits (headers : list Header) : Prop := 8 * (estimate_encoded_size headers + 64) <= VARINT_MAX.

(** Nothing but the encoder changes. *)
Definition encoder_only (c c' : Connection) : Prop := exists e, c' = set_qpack_encoder e c.

Lemma encode_attempts_wp n : forall k c headers blocked size, conn_wf k c -> size * 2 ^ (Z.of_nat n - 1) <= VARINT_MAX ->
  wp k (encode_attempts n headers blocked size) c (fun bs c' => len bs <= VARINT_MAX /\ encoder_only c c').
Proof.
  induction n as [|n IH]; intros k c headers blocked size Hw Hn; cbn [encode_attempts]; [by wp_steps|].
  pose proof (encode_section_len_safe (qpack_encoder c) headers blocked (replicate (Z.to_nat size) 0)) as Hl.
  pose proof (encode_section_unused _ headers blocked (w_encoder _ _ Hw)) as He.
  unfold wp. destruct (encode_section (qpack_encoder c) headers blocked) as [e run]. cbn [fst snd] in Hl, He.
  assert (1 <= 2 ^ Z.of_nat n) by (apply Z.pow_le_mono_r with (b := 0); lia).
  replace (Z.of_nat (S n) - 1) with (Z.of_nat n) in Hn by lia.
  destruct (run _) as [buf [m|]]; cbn [fst] in Hl; rewrite len_replicate in Hl.
  - eexists _, _. split; [done|]. split; [auto with conn|]. split; [auto with conn|]. split; [|by eexists].
    assert (len (take_z m buf) <= len buf) by (unfold len, take_z; rewrite length_take; lia).
    assert (size <= size * 2 ^ Z.of_nat n \/ size < 0) by nia. unfold VARINT_MAX in *. lia.
  - set (c1 := set_qpack_encoder e c). assert (conn_wf k c1) as Hw1 by (unfold c1; auto with conn).
    assert (wp k (size ← lift (ok_or (checked_mul size 2) internal_error); encode_attempts n headers blocked size) c1
      (fun bs c' => len bs <= VARINT_MAX /\ encoder_only c1 c')) as (c' & r & E & ? & ? & Hr).
    { apply wp_lift_bind; [done|]. intros a Ha. apply IH; [done|]. unfold checked_mul in Ha.
      destruct (_ <=? _) in Ha; [|done]. injection Ha as <-. destruct n as [|n]; [unfold VARINT_MAX; lia|].
      replace (Z.of_nat (S n)) with (Z.of_nat (S n) - 1 + 1) in Hn by lia. rewrite Z.pow_add_r in Hn by lia. lia. }
    exists c', r. split; [done|]. split; [done|]. split; [etrans; [|done]; unfold c1; auto with conn|].
    destruct r; [|done]. destruct Hr as [? [e2 ->]]. split; [done|]. by exists e2.
Qed.

Lemma encode_qpack_headers_wp k c headers blocked : conn_wf k c -> section_fits headers ->
  wp k (encode_qpack_headers headers blocked) c (fun bs c' => len bs <= VARINT_MAX /\ encoder_only c c').
Proof. intros Hw Hf. apply encode_attempts_wp; [done|]. unfold section_fits in Hf. change (2 ^ (Z.of_nat 4 - 1)) with 8. lia. Qed.

(** ** Requests, responses, bodies and GOAWAY *)

Lemma request_stream_for_wf id headers c : stream_wf (request_stream_for id headers c).
Proof.
  unfold request_stream_for. repeat (case_match; try (split; cbn; try (by left); constructor)).
Qed.

Lemma register_sent_wf k c id headers : conn_wf k c -> varint_ok id -> conn_wf k (register_sent_connect id headers c).
Proof.
  intros Hw Hi. unfold register_sent_connect. case_match; [|done]. apply insert_session_wf; [done..|].
  apply (same_buffers_wf _ _ (take_offer_same _ _)), wt_session_new_wf.
Qed.
Lemma register_sent_ev c id headers : evolves c (register_sent_connect id headers c).
Proof. unfold register_sent_connect. case_match; auto with conn. Qed.
Lemma track_sent_wf k c id : conn_wf k c -> conn_wf k (track_sent_section id c).
Proof. unfold track_sent_section. auto with conn. Qed.
Lemma track_sent_ev c id : evolves c (track_sent_section id c).
Proof. unfold track_sent_section. auto with conn. Qed.
#[export] Hint Resolve register_sent_wf register_sent_ev track_sent_wf track_sent_ev : conn.

Lemma check_error_wp {B} k c (f : unit -> action B) R : conn_wf k c -> (error c = None -> wp k (f tt) c R) ->
  wp k (check_error_state ≫= f) c R.
Proof.
  intros Hw Hf. unfold check_error_state, wp, mbind, action_bind, gets. destruct (error c) as [e|]; [|by apply Hf].
  by exists c, (Err e).
Qed.

(** A request that is sent gets the next id, below what the peer's GOAWAY allows. *)
Lemma send_request_wp k c headers fin : conn_wf k c -> section_fits headers -> next_stream_id c <= VARINT_MAX ->
  wp k (send_request headers fin) c (fun id c' =>
    id = next_stream_id c /\ next_stream_id c' = id + 4 /\ is_Some (streams c' !! id) /\ role c = Client /\
    (forall g, peer_goaway_last_id c = Some g -> id < g)).
Proof.
  intros Hw Hf Hn. unfold send_request. apply check_error_wp; [done|]. intros _. wp_step.
  wp_step. wp_step. wp_step. wp_step. wp_step. wp_step.
  eapply wp_seq; [by apply encode_qpack_headers_wp|]. intros buf ? Hw1 _ [Hl [e ->]].
  set (c1 := set_qpack_encoder e c) in *. destruct (w_next _ _ Hw) as [Hn0 Hb].
  eapply wp_expect_bind. { unfold checked_add. rewrite (proj2 (Z.leb_le _ _)); [done|]. unfold U64_MAX, VARINT_MAX in *. lia. }
  apply wp_modify_bind; [|ev_keep|intros Hw2].
  { wf_keep. split; [lia|]. unfold bidi_id in *. replace (next_stream_id c + 4) with (next_stream_id c + 1 * 4) by lia.
    by rewrite Z.mod_add. }
  wp_step. destruct (send_encoded_headers_ok (request_stream_for (next_stream_id c) headers c1) buf fin false)
    as (s & r & E & Hs); [apply request_stream_for_wf|done|].
  eapply wp_expect_bind; [exact E|]. cbn [fst snd]. do 2 wp_step.
  apply wp_modify_bind; [|auto with conn|intros Hw4]. { apply insert_stream_wf; [done|by split|done]. }
  apply wp_modify_bind; [apply register_sent_wf; [done|by split]|auto with conn|intros Hw5].
  assert (role c = Client) as Hrole by (by destruct (role c)).
  apply wp_ret; [done|]. split; [done|]. split; [|split; [|split; [done|]]].
  - unfold register_sent_connect. by case_match.
  - unfold register_sent_connect. case_match; cbn; rewrite lookup_insert_eq; by eexists.
  - intros g Hg. unfold peer_goaway_request_boundary in *. rewrite Hrole, Hg in *. cbn [some_and] in *. lia.
Qed.

Lemma reject_session_wf k c id headers : conn_wf k c -> conn_wf k (reject_session id headers c).
Proof. intros Hw. unfold reject_session. case_match; [by apply bury_session_wf|done]. Qed.
Lemma reject_session_ev c id headers : evolves c (reject_session id headers c).
Proof. unfold reject_session. case_match; [apply bury_session_ev|done]. Qed.
#[export] Hint Resolve reject_session_wf reject_session_ev : conn.

Lemma send_response_safe id headers fin : section_fits headers -> safe (send_response id headers fin).
Proof.
  intros Hf k c Hw. unfold send_response. apply check_error_wp; [done|]. intros _. do 5 wp_step.
  eapply wp_seq; [by apply encode_qpack_headers_wp|]. intros buf ? Hw1 _ [Hl [e ->]].
  set (c1 := set_qpack_encoder e c) in *. apply wp_lift_bind; [done|]. intros s Hs.
  destruct (streams c !! id) as [s'|] eqn:Es; [|done]. injection Hs as ->.
  destruct (stream_at _ _ Hw _ _ Es) as [Hi Hsw].
  destruct (send_encoded_headers_ok s buf fin (is_interim headers)) as (s2 & r & E & Hs2); [done..|].
  eapply wp_expect_bind; [exact E|]. cbn [fst snd].
  apply wp_modify_bind; [by apply insert_stream_wf|auto with conn|intros Hw2]. do 2 wp_step.
  wp_call establish_wt_session_server_safe. by wp_steps.
Qed.

Lemma send_body_safe id data fin : len data <= VARINT_MAX -> safe0 (conn_send_body id data fin).
Proof.
  intros Hl. apply remember_safe0. intros c Hw. wp_call check_error_safe. wp_step.
  apply wp_lift_bind; [done|]. intros s Hs. destruct (streams c' !! id) as [s'|] eqn:Es; [|done]. injection Hs as ->.
  destruct (stream_at _ _ H _ _ Es) as [Hi Hsw]. destruct (send_body_ok s data fin Hsw Hl) as (s2 & r & E & Hs2).
  eapply wp_expect_bind; [exact E|]. apply wp_modify_bind; [by apply insert_stream_wf|auto with conn|intros Hw2].
  by wp_steps.
Qed.

Lemma send_goaway_ok s id : q_wf (cs_send_buf s) -> varint_ok id ->
  exists s' r, send_goaway s id = Some (s', r) /\ q_wf (cs_send_buf s') /\ cs_stream_id s' = cs_stream_id s.
Proof.
  intros Hs Hi. unfold send_goaway. destruct (cs_send_state s); [by eexists _, _|].
  rewrite frame_to_vec_spec by by apply goaway_encodable. cbn [mbind option_bind]. eexists _, _.
  split; [done|]. split; [|done]. exact (q_push_wf (B := SendBuffer) _ _ Hs).
Qed.

Lemma send_goaway_safe id : varint_ok id -> safe0 (conn_send_goaway id).
Proof.
  intros Hi. apply remember_safe0. intros c0 Hw0. wp_call check_error_safe. rename c' into c. do 3 wp_step.
  destruct (send_goaway_ok (control_send c) id (w_control_send _ _ H) Hi) as (s & r & E & Hs & Hid).
  eapply wp_expect_bind; [exact E|]. cbn [fst snd].
  apply wp_modify_bind; [by apply control_send_wf|apply control_send_ev|intros Hw2]. wp_step.
  apply wp_modify; [by wf_keep| |done]. ev_keep. intros x Hx. rewrite Hx in *. cbn [some_and] in *.
  exists id. split; [done|]. lia.
Qed.

(** ** What the transport layer tells, and the rest *)
Lemma set_transport_verified_safe a b : safe (set_webtransport_transport_verified a b).
Proof.
  intros k c Hw. unfold set_webtransport_transport_verified. wp_step.
  apply wp_modify_bind; [by wf_keep|ev_keep|intros Hw1]. apply wp_modify; [by wf_keep|ev_keep|done].
Qed.
Lemma set_previous_wf k c s : conn_wf k c -> conn_wf k (conn_set_previous_wt_settings s c).
Proof. intros Hw. by wf_keep. Qed.
Lemma set_max_body_wf k c n : conn_wf k c -> conn_wf k (conn_set_max_received_body_size n c).
Proof.
  intros Hw. unfold conn_set_max_received_body_size. apply set_streams_wf; [by wf_keep|].
  intros id s. cbn. rewrite lookup_fmap. intros (s' & Hs & ->)%fmap_Some.
  destruct (stream_at _ _ Hw _ _ Hs) as [? []]. split; [done|]. by split.
Qed.
