(* ===== verification/ConnRun.v ===== *)
(** connection/client.rs and connection/server.rs: the calls an application and its QUIC
    stack make on a connection, in any order, and what holds of every run of them. *)

From Stdlib Require Import String Ascii.
From S2P Require Import Prelude Codec Varint Header DynamicTable EncoderStream Settings Frame Error Stream FrameStream QpackEncoder QpackDecoder ControlStream RequestStream Validation Capsule Event Datagram WtSession Connection ConnInvariant ConnNegotiation ConnWtSession ConnWtStream ConnReceive ConnSafety ConnSend ConnSendSafety.

(** The methods that change the connection; [OpSendRequest] and [OpSetPrevious] are the
    client's, [OpSendResponse] is the server's. *)
Inductive conn_op :=
| OpSetControlStreamId (stream_id : Z)
| OpInitH3Streams (control_stream_id encoder_stream_id decoder_stream_id : Z)
| OpFeedStream (stream_id : Z) (data : bytes) (fin : bool)
| OpSetMaxReceivedBodySize (size : Z)
| OpPollEvent
| OpDrainEvents
| OpGetStreamData (stream_id : Z)
| OpTakeStreamData (stream_id : Z)
| OpConsumeStreamData (stream_id n : Z)
| OpSendRequest (headers : list Header) (fin : bool)
| OpSendResponse (stream_id : Z) (headers : list Header) (fin : bool)
| OpSendBody (stream_id : Z) (data : bytes) (fin : bool)
| OpSendGoaway (id : Z)
| OpStreamReset (stream_id error_code final_size : Z)
| OpStopSending (stream_id error_code : Z)
| OpFeedDatagram (data : bytes)
| OpSendDatagram (session_id : Z) (payload : bytes)
| OpRegisterLocalWtStream (session_id stream_id : Z)
| OpSetPreviousWtSettings (s : WtSettings)
| OpSetTransportVerified (max_datagram_frame_size_nonzero reset_stream_at_supported : bool)
| OpWtDataConsumed (session_id n : Z)
| OpTakeWtPendingCapsules (session_id : Z).

(** What a call returns, apart from an error. *)
Inductive output :=
| OutUnit | OutInit (d : H3InitData) | OutEvent (e : option Event) | OutEvents (l : list Event)
| OutData (d : option (bytes * bool)) | OutStream (id : Z) | OutBytes (b : bytes) | OutCapsules (l : list Capsule).

Definition returning {A} (f : A -> output) (m : action A) : action output := a ← m; mret (f a).
Notation unit_of := (returning (fun _ : unit => OutUnit)).

Definition run_op (op : conn_op) : action output :=
  match op with
  | OpSetControlStreamId id => unit_of (set_control_stream_id id)
  | OpInitH3Streams a b d => returning OutInit (init_h3_streams a b d)
  | OpFeedStream id data fin => unit_of (feed_stream id data fin)
  | OpSetMaxReceivedBodySize n => unit_of (modify (conn_set_max_received_body_size n))
  | OpPollEvent => returning OutEvent poll_event
  | OpDrainEvents => returning OutEvents drain_events
  | OpGetStreamData id => returning OutData (get_stream_data id)
  | OpTakeStreamData id => returning OutData (take_stream_data id)
  | OpConsumeStreamData id n => unit_of (consume_stream_data id n)
  | OpSendRequest headers fin => returning OutStream (send_request headers fin)
  | OpSendResponse id headers fin => unit_of (send_response id headers fin)
  | OpSendBody id data fin => unit_of (conn_send_body id data fin)
  | OpSendGoaway id => unit_of (conn_send_goaway id)
  | OpStreamReset id code final_size => unit_of (stream_reset id code final_size)
  | OpStopSending id code => unit_of (stop_sending id code)
  | OpFeedDatagram data => unit_of (feed_datagram data)
  | OpSendDatagram id payload => returning OutBytes (send_datagram id payload)
  | OpRegisterLocalWtStream session_id id => unit_of (register_local_wt_stream session_id id)
  | OpSetPreviousWtSettings s => unit_of (modify (conn_set_previous_wt_settings s))
  | OpSetTransportVerified a b => unit_of (set_webtransport_transport_verified a b)
  | OpWtDataConsumed id n => unit_of (modify (wt_data_consumed id n))
  | OpTakeWtPendingCapsules id => returning OutCapsules (run_method (take_wt_pending_capsules id))
  end.

(** A sequence of calls; an error of one does not keep the caller from the next. *)
Fixpoint run_ops (ops : list conn_op) (c : Connection) : option (Connection * list (result Error output)) :=
  match ops with
  | [] => Some (c, [])
  | op :: ops => '(c, r) ← run_op op c; '(c, rs) ← run_ops ops c; Some (c, r :: rs)
  end.

Lemma run_ops_app ops1 ops2 : forall c c1 rs1 c2 rs2, run_ops ops1 c = Some (c1, rs1) -> run_ops ops2 c1 = Some (c2, rs2) ->
  run_ops (ops1 ++ ops2) c = Some (c2, rs1 ++ rs2).
Proof.
  induction ops1 as [|op ops1 IH]; intros c c1 rs1 c2 rs2; cbn [run_ops app]; [by intros [= -> <-]|].
  destruct (run_op op c) as [[c3 r]|]; [|done]. cbn [mbind option_bind].
  destruct (run_ops ops1 c3) as [[c4 rs]|] eqn:E; [|done]. cbn [mbind option_bind]. intros [= <- <-] H2.
  by rewrite (IH _ _ _ _ _ E H2).
Qed.
Lemma run_one op c c1 r : run_op op c = Some (c1, r) -> run_ops [op] c = Some (c1, [r]).
Proof. cbn [run_ops]. by intros ->. Qed.
Lemma returning_ok {A} (f : A -> output) (m : action A) c c1 a : m c = Some (c1, Ok a) -> returning f m c = Some (c1, Ok (f a)).
Proof. intros E. unfold returning. by rewrite (bind_ok _ _ _ _ _ E). Qed.
Lemma returning_eq {A} (f : A -> output) (m : action A) c : returning f m c =
  match m c with Some (c', Ok a) => Some (c', Ok (f a)) | Some (c', Err e) => Some (c', Err e) | None => None end.
Proof. unfold returning, mbind, action_bind. by destruct (m c) as [[? [|]]|]. Qed.
Lemma run_ops_app_none ops1 ops2 : forall c c1 rs1, run_ops ops1 c = Some (c1, rs1) -> run_ops ops2 c1 = None ->
  run_ops (ops1 ++ ops2) c = None.
Proof.
  induction ops1 as [|op ops1 IH]; intros c c1 rs1; cbn [run_ops app]; [by intros [= -> <-]|].
  destruct (run_op op c) as [[c3 r]|]; [|done]. cbn [mbind option_bind].
  destruct (run_ops ops1 c3) as [[c4 rs]|] eqn:E; [|done]. cbn [mbind option_bind]. intros [= <- <-] H2.
  by rewrite (IH _ _ _ E H2).
Qed.

(** ** What the caller has to see to

    Ids and lengths that QUIC can carry, headers and bodies that fit into a frame, no more
    consumed than is there, and no more than 2^60 requests. *)
Definition op_ok (op : conn_op) (c : Connection) : Prop :=
  match op with
  | OpFeedStream id data _ => varint_ok id /\ bytes_ok data
  | OpConsumeStreamData id n => consumable id n c
  | OpSendRequest headers _ => section_fits headers /\ next_stream_id c <= VARINT_MAX
  | OpSendResponse _ headers _ => section_fits headers
  | OpSendBody _ data _ => len data <= VARINT_MAX
  | OpSendGoaway id => varint_ok id
  | OpFeedDatagram data => bytes_ok data
  | _ => True
  end.

Fixpoint ops_ok (ops : list conn_op) (c : Connection) : Prop :=
  match ops with
  | [] => True
  | op :: ops => op_ok op c /\ match run_op op c with Some (c, _) => ops_ok ops c | None => True end
  end.

#[export] Instance consumable_dec id n c : Decision (consumable id n c).
Proof.
  unfold consumable. apply and_dec; [apply _|]. destruct (is_id (control_send_id c) id); [apply _|].
  destruct (_ || _); [by left|]. destruct (streams c !! id) as [s|] eqn:E.
  - destruct (decide (n <= len (send_peek (rq_send_buf s)))) as [H|H]; [left|right].
    + by intros s' [= <-].
    + intros H'. by apply H, H'.
  - by left.
Defined.
#[export] Instance op_ok_dec op c : Decision (op_ok op c).
Proof. destruct op; cbn [op_ok]; unfold varint_ok, section_fits; apply _. Defined.
#[export] Instance ops_ok_dec ops : forall c, Decision (ops_ok ops c).
Proof. induction ops as [|op ops IH]; intros c; cbn [ops_ok]; [by left|]. apply and_dec; [apply _|]. destruct (run_op op c) as [[c' r]|]; [apply IH|by left]. Defined.

(** ** Every call is safe *)
Lemma returning_safe0 {A} (f : A -> output) (m : action A) c : conn_wf 0 c ->
  wp 0 m c (fun _ _ => True) -> wp 0 (returning f m) c (fun _ _ => True).
Proof. intros Hw Hm. unfold returning. eapply wp_seq; [exact Hm|]. intros a c' Hw' _ _. by wp_steps. Qed.

Lemma run_op_safe op c : conn_wf 0 c -> op_ok op c -> wp 0 (run_op op) c (fun _ _ => True).
Proof.
  intros Hw Hop. destruct op; cbn [run_op op_ok] in *; apply returning_safe0; try done.
  - by apply set_control_stream_id_safe.
  - by apply init_h3_streams_safe.
  - destruct Hop. by apply feed_stream_safe.
  - apply wp_modify; [by apply set_max_body_wf|ev_keep|done].
  - by apply poll_event_safe.
  - by apply drain_events_safe.
  - by apply get_stream_data_safe.
  - by apply take_stream_data_safe.
  - by apply consume_stream_data_wp.
  - destruct Hop. eapply wp_mono; [by apply send_request_wp|done].
  - by apply send_response_safe.
  - by apply send_body_safe.
  - by apply send_goaway_safe.
  - by apply stream_reset_safe.
  - by apply stop_sending_safe.
  - by apply feed_datagram_safe.
  - by apply send_datagram_safe.
  - by apply register_local_wt_stream_safe.
  - apply wp_modify; [by apply set_previous_wf|ev_keep|done].
  - by apply set_transport_verified_safe.
  - apply wp_modify; [by apply wt_data_consumed_wf|apply update_session_ev|done].
  - apply wp_method; [by apply take_wt_pending_capsules_wf|apply take_wt_pending_capsules_ev|done].
Qed.

Lemma run_ops_safe ops : forall c, conn_wf 0 c -> ops_ok ops c ->
  exists c' rs, run_ops ops c = Some (c', rs) /\ conn_wf 0 c' /\ evolves c c'.
Proof.
  induction ops as [|op ops IH]; intros c Hw Hops; [by exists c, []|]. destruct Hops as [Hop Hops]. cbn [run_ops].
  destruct (run_op_safe op c Hw Hop) as (c1 & r & E & Hw1 & He1 & _). rewrite E in *. cbn [mbind option_bind].
  destruct (IH c1 Hw1 Hops) as (c2 & rs & E2 & Hw2 & He2). rewrite E2. cbn [mbind option_bind].
  exists c2, (r :: rs). split_and!; [done..|]. by etrans.
Qed.

(** ** A new connection *)
Lemma merge_settings_ok d s : settings_ok d -> settings_ok s -> settings_ok (merge_settings d s).
Proof.
  intros (? & ? & ? & ?) (? & ? & ? & ?). unfold settings_ok, merge_settings. cbn.
  destruct (qpack_max_table_capacity s), (max_field_section_size s), (qpack_blocked_streams s), (wt_settings s); done.
Qed.

Lemma conn_new_wf r s : settings_ok s -> exists c, conn_new r s = Some c /\ conn_wf 0 c.
Proof.
  intros Hs. unfold conn_new. set (d := from_limits default_limits). vm_compute in d. subst d. cbn [ok mbind option_bind].
  set (d := mkSettings _ _ _ _ _ _). assert (settings_ok (merge_settings d s)) as Hm.
  { apply merge_settings_ok; [|done]. repeat split; vm_compute; discriminate. }
  assert (0 <= limit_blocked_streams (sync_limits default_limits (merge_settings d s))) as Hb.
  { destruct Hm as (_ & _ & Hb & _). cbn [sync_limits limit_blocked_streams]. by destruct (qpack_blocked_streams _) as [v|]; [destruct Hb|]. }
  set (l := merge_settings d s) in *. clearbody l. destruct (from_settings_spec l Hm) as (p & Hp & _).
  pose proof (settings_frame_encodable l p Hm Hp) as Hf. unfold send_settings. cbn [cs_send_state control_send_new].
  rewrite Hp. cbn [mbind option_bind]. rewrite frame_to_vec_spec by done. cbn [mbind option_bind].
  eexists. split; [done|]. split;
    try match goal with |- map_Forall _ _ => apply map_Forall_empty end; try done.
  - by destruct r.
  - by intros id [|].
  - by left.
  - by left.
  - cbn [local_settings encoder_stream_recv qpack_dynamic_decoder].
    destruct (decoder_fed_new l (default 0 (max_field_section_size l))) as [H1 H2]; [|by destruct (max_field_section_size l)].
    destruct Hm as (Hc & _). by destruct (qpack_max_table_capacity l); [destruct Hc|].
Qed.

(** ** Runs *)
Definition conn_step (c c' : Connection) : Prop := exists op res, op_ok op c /\ run_op op c = Some (c', res).

Inductive reachable (r : Role) (s : Settings) : Connection -> Prop :=
| reach_new c : conn_new r s = Some c -> reachable r s c
| reach_step c c' : reachable r s c -> conn_step c c' -> reachable r s c'.

Lemma step_safe c c' : conn_wf 0 c -> conn_step c c' -> conn_wf 0 c' /\ evolves c c'.
Proof.
  intros Hw (op & res & Hop & E). destruct (run_op_safe op c Hw Hop) as (c1 & r1 & E1 & ? & ? & _).
  rewrite E in E1. by injection E1 as <- <-.
Qed.

Lemma reachable_wf r s c : settings_ok s -> reachable r s c -> conn_wf 0 c.
Proof.
  intros Hs. induction 1 as [c Hc|c c' _ IH Hstep].
  - destruct (conn_new_wf r s Hs) as (c1 & E & Hw). rewrite Hc in E. by injection E as <-.
  - by apply (step_safe c c').
Qed.

Lemma steps_evolve c c' : conn_wf 0 c -> rtc conn_step c c' -> conn_wf 0 c' /\ evolves c c'.
Proof.
  intros Hw. induction 1 as [c|c c1 c2 Hs _ IH]; [done|]. destruct (step_safe _ _ Hw Hs) as [Hw1 He].
  destruct (IH Hw1) as [Hw2 He2]. split; [done|]. by etrans.
Qed.

Lemma run_ops_steps ops : forall c c' rs, ops_ok ops c -> run_ops ops c = Some (c', rs) -> rtc conn_step c c'.
Proof.
  induction ops as [|op ops IH]; intros c c' rs Hops; cbn [run_ops].
  { intros [= <- _]. apply rtc_refl. }
  destruct Hops as [Hop Hops]. destruct (run_op op c) as [[c1 r]|] eqn:E; [|done]. cbn [mbind option_bind].
  destruct (run_ops ops c1) as [[c2 rs2]|] eqn:E2; [|done]. cbn [mbind option_bind]. intros [= <- _].
  eapply rtc_l; [by exists op, r|by eapply IH].
Qed.
Lemma reachable_steps r s c c' : reachable r s c -> rtc conn_step c c' -> reachable r s c'.
Proof. intros Hr. induction 1 as [|c c1 c2 Hs _ IH]; [done|]. apply IH. by eapply reach_step. Qed.

Lemma reachable_role r s c : settings_ok s -> reachable r s c -> role c = r.
Proof.
  intros Hs. induction 1 as [c Hc|c c' Hr IH Hstep].
  - revert Hc. unfold conn_new. destruct (ok _); [|done]. cbn [mbind option_bind].
    destruct (send_settings _ _); [|done]. by intros [= <-].
  - destruct (step_safe _ _ (reachable_wf _ _ _ Hs Hr) Hstep) as [_ He]. by rewrite (ev_role _ _ He).
Qed.

(** ** An error ends the connection *)

(** The calls that refuse a connection with an error, and those of them that record theirs. *)
Definition guarded (op : conn_op) : bool :=
  match op with
  | OpFeedStream _ _ _ | OpPollEvent | OpDrainEvents | OpSendRequest _ _ | OpSendResponse _ _ _ | OpSendBody _ _ _
  | OpSendGoaway _ | OpStreamReset _ _ _ | OpStopSending _ _ | OpFeedDatagram _ => true
  | _ => false
  end.
Definition records (op : conn_op) : bool :=
  match op with
  | OpSendRequest _ _ | OpSendResponse _ _ _ | OpFeedDatagram _ => false
  | _ => guarded op
  end.

Lemma set_error_same c e : error c = Some e -> set_error (Some e) c = c.
Proof. destruct c. cbn. by intros ->. Qed.

Lemma check_error_stops {A} (m : action A) c e : error c = Some e -> (check_error_state;; m) c = Some (c, Err e).
Proof. intros E. unfold check_error_state, mbind, action_bind, gets. by rewrite E. Qed.
Lemma remember_stops {A} (m : action A) c e : error c = Some (ConnectionError e) ->
  remember_connection_error (check_error_state;; m) c = Some (c, Err (ConnectionError e)).
Proof. intros E. unfold remember_connection_error. rewrite (check_error_stops _ _ _ E). by rewrite set_error_same. Qed.
Lemma returning_err {A} (f : A -> output) (m : action A) c c' e : m c = Some (c', Err e) ->
  returning f m c = Some (c', Err e).
Proof. intros E. unfold returning, mbind, action_bind. by rewrite E. Qed.
Lemma returning_err_inv {A} (f : A -> output) (m : action A) c c' e : returning f m c = Some (c', Err e) ->
  m c = Some (c', Err e).
Proof.
  unfold returning, mbind, action_bind, mret, action_ret. destruct (m c) as [[? [|]]|]; try done. by intros [= <- <-].
Qed.

Lemma guarded_stops op c e : guarded op = true -> error c = Some (ConnectionError e) ->
  run_op op c = Some (c, Err (ConnectionError e)).
Proof.
  intros Hg E. destruct op; try done; cbn [run_op]; apply returning_err;
    unfold feed_stream, poll_event, drain_events, send_request, send_response, conn_send_body, conn_send_goaway,
      stream_reset, stop_sending, feed_datagram;
    first [by apply remember_stops|by apply check_error_stops].
Qed.

Lemma remember_records {A} (m : action A) c c' e : remember_connection_error m c = Some (c', Err (ConnectionError e)) ->
  error c' = Some (ConnectionError e).
Proof.
  unfold remember_connection_error. destruct (m c) as [[c1 [a|[]]]|]; try done. by intros [= <- <-].
Qed.

Lemma records_error op c c' e : records op = true -> run_op op c = Some (c', Err (ConnectionError e)) ->
  error c' = Some (ConnectionError e).
Proof.
  intros Hr. destruct op; try done; cbn [run_op]; intros E%returning_err_inv;
    try (by eapply remember_records).
  revert E. unfold feed_stream, check_error_state. cbn [mbind action_bind gets]. unfold mbind, action_bind, gets.
  destruct (error c) as [e0|] eqn:Ee; [|apply remember_records]. by intros [= <- ->].
Qed.

(** The other calls leave the error as it is. *)
Definition same_error (c c' : Connection) : Prop := error c' = error c.
#[export] Instance same_error_preorder : PreOrder same_error.
Proof. split; [done|]. intros c1 c2 c3 H1 H2. unfold same_error in *. congruence. Qed.

Lemma fold_remove_error l : forall c, error (fold_left remove_wt_stream l c) = error c.
Proof. induction l as [|x l IH]; intros c; [done|]. cbn [fold_left]. by rewrite IH. Qed.
Ltac errs := first [reflexivity|unfold same_error, remove_stream_if_done, insert_wt_stream; repeat case_match; reflexivity].

Lemma terminate_error id : keeps same_error (terminate_wt_session id).
Proof.
  unfold terminate_wt_session, terminate_wt_session_with. keep_steps; try errs. unfold same_error. cbn. apply fold_remove_error.
Qed.
#[export] Hint Resolve terminate_error : keeps.
Lemma get_data_error id : keeps same_error (get_stream_data id).
Proof. unfold get_stream_data. keep_steps; errs. Qed.
Lemma consume_data_error id n : keeps same_error (consume_stream_data id n).
Proof. unfold consume_stream_data. keep_steps; errs. Qed.
#[export] Hint Resolve get_data_error consume_data_error : keeps.
Lemma take_data_error id : keeps same_error (take_stream_data id).
Proof. unfold take_stream_data. keep_steps. Qed.
Lemma send_set_capacity_error n : keeps same_error (send_set_capacity n).
Proof. intros c c' r. unfold send_set_capacity. destruct (encode_set_capacity _ _). by intros [= <- _]. Qed.
#[export] Hint Resolve take_data_error send_set_capacity_error : keeps.
Lemma control_id_error id : keeps same_error (set_control_stream_id id).
Proof. unfold set_control_stream_id, validate_self_initiated_uni_stream_id. keep_steps; errs. Qed.
#[export] Hint Resolve control_id_error : keeps.
Lemma init_error a b d : keeps same_error (init_h3_streams a b d).
Proof.
  unfold init_h3_streams, conn_set_encoder_stream_id, conn_set_decoder_stream_id, validate_self_initiated_uni_stream_id.
  keep_steps; errs.
Qed.
Lemma send_datagram_error id payload : keeps same_error (send_datagram id payload).
Proof. unfold send_datagram. keep_steps. Qed.
Lemma register_error sid id : keeps same_error (register_local_wt_stream sid id).
Proof. unfold register_local_wt_stream. keep_steps; errs. Qed.
#[export] Hint Resolve init_error send_datagram_error register_error : keeps.

Lemma unguarded_error op : guarded op = false -> keeps same_error (run_op op).
Proof.
  destruct op; try done; intros _; cbn [run_op]; unfold returning, set_webtransport_transport_verified; keep_steps; try errs.
  unfold take_wt_pending_capsules. case_match; [|done]. by destruct (take_pending_capsules _).
Qed.

Lemma run_ops_error ops : forall c c' rs e, error c = Some (ConnectionError e) -> run_ops ops c = Some (c', rs) ->
  error c' = Some (ConnectionError e).
Proof.
  induction ops as [|op ops IH]; intros c c' rs e Ee; cbn [run_ops]; [by intros [= <- _]|].
  destruct (run_op op c) as [[c1 r]|] eqn:E; [|done]. cbn [mbind option_bind].
  destruct (run_ops ops c1) as [[c2 rs2]|] eqn:E2; [|done]. cbn [mbind option_bind]. intros [= <- _].
  apply (IH _ _ _ e) in E2; [done|]. destruct (guarded op) eqn:Hg.
  - rewrite (guarded_stops _ _ _ Hg Ee) in E. by injection E as <- _.
  - by rewrite (unguarded_error op Hg _ _ _ E).
Qed.

Lemma size_list_to_set_le (l : list Z) : (size (list_to_set l : gset Z) <= length l)%nat.
Proof.
  induction l as [|x l IH]; [done|]. cbn [list_to_set length]. rewrite size_union_alt, size_singleton.
  pose proof (subseteq_size (list_to_set l ∖ {[x]}) (list_to_set l : gset Z) ltac:(set_solver)). lia.
Qed.

(** The state after a sequence of calls. *)
Definition state_after (r : Role) (s : Settings) (ops : list conn_op) : option Connection :=
  c ← conn_new r s; '(c, _) ← run_ops ops c; Some c.
Definition all_ok (r : Role) (s : Settings) (ops : list conn_op) : bool :=
  match conn_new r s with Some c => bool_decide (ops_ok ops c) | None => false end.

Lemma state_after_reachable r s ops c : all_ok r s ops = true -> state_after r s ops = Some c -> reachable r s c.
Proof.
  unfold all_ok, state_after. destruct (conn_new r s) as [c0|] eqn:E; [|done]. intros Hok%bool_decide_eq_true.
  cbn [mbind option_bind]. destruct (run_ops ops c0) as [[c1 rs]|] eqn:Er; [|done]. cbn [mbind option_bind]. intros [= <-].
  eapply reachable_steps; [by apply reach_new|by eapply run_ops_steps].
Qed.

(** ** Properties *)

(** C1. The connection is safe: a connection can be made with any valid settings, and in
    every state it can get into, no call panics, whatever bytes, resets and datagrams the
    peer sends and whatever the application asks for. The state stays well formed, and
    changes only in the ways [evolves] allows. *)
Theorem connection_safe r s : settings_ok s ->
  is_Some (conn_new r s) /\
  forall c, reachable r s c -> conn_wf 0 c /\
    forall op, op_ok op c -> exists c' res, run_op op c = Some (c', res) /\ evolves c c'.
Proof.
  intros Hs. split.
  - destruct (conn_new_wf r s Hs) as (c & -> & _). by eexists.
  - intros c Hc. pose proof (reachable_wf _ _ _ Hs Hc) as Hw. split; [done|]. intros op Hop.
    destruct (run_op_safe op c Hw Hop) as (c' & res & ? & _ & ? & _). by exists c', res.
Qed.

(** C4. What a peer can make a connection hold is bounded: the streams blocked on QPACK,
    the table of the QPACK decoder, the WebTransport streams that wait for the SETTINGS
    frame or for a session, and their bytes, the datagrams that wait for a session, the
    CONNECT requests that are held back. *)
Theorem connection_resources_bounded r s c : settings_ok s -> reachable r s c ->
  Z.of_nat (size (blocked_by_ricnt c)) <= limit_blocked_streams (limits c) /\
  total_size (entries (dec_table (qpack_dynamic_decoder c))) <=
    default 0 (qpack_max_table_capacity (local_settings c)) /\
  Z.of_nat (size (pending_wt_bidi_pre_negotiation c)) <= 100 /\
  (forall id p, pending_wt_bidi_pre_negotiation c !! id = Some p -> len (pb_data p) <= 65536) /\
  Z.of_nat (size (deferred_wt_connects c)) <= 16 /\
  (forall id w, wt_sessions c !! id = Some w ->
    Z.of_nat (size (buffered_stream_entries w)) <= 100 /\ len (ws_buffered_datagrams w) <= 100 /\
    forall sid e, buffered_stream_entries w !! sid = Some e -> len (be_data e) <= 65536).
Proof.
  intros Hs Hr. pose proof (reachable_wf _ _ _ Hs Hr) as Hw. split_and!.
  - pose proof (w_blocked _ _ Hw). lia.
  - destruct (w_decoder _ _ Hw) as (_ & <- & Ht & _ & Hf & Hm). unfold table_fits in Hf. rewrite <- (wf_size _ Ht). lia.
  - apply (w_pre_size _ _ Hw).
  - intros id p Hp. apply (w_pre _ _ Hw _ _ Hp).
  - apply (w_deferred_size _ _ Hw).
  - intros id w Hsess. destruct (session_at _ _ Hw _ _ Hsess) as [_ [Hn Hl He Hd _]]. split_and!; [|done|].
    + rewrite <- size_dom. apply subseteq_size in Hl. etrans; [|exact Hn]. unfold len.
      pose proof (size_list_to_set_le (ws_buffered_streams w)). lia.
    + intros sid e Hb. exact (He _ _ Hb).
Qed.

(** C5. A connection error is final. Once [feed_stream], [poll_event], [drain_events],
    [send_body], [send_goaway], [stream_reset] or [stop_sending] has returned a connection
    error, the connection keeps that error whatever calls follow, and after any of them
    each of these calls, and [send_request], [send_response] and [feed_datagram], returns
    it and changes nothing. The calls that do not look at the error are [send_datagram],
    the ones that hand out the bytes of streams and capsules or say that they were taken,
    [register_local_wt_stream] and the ones that configure the connection. *)
Theorem connection_error_is_final op c c' e : records op = true -> run_op op c = Some (c', Err (ConnectionError e)) ->
  error c' = Some (ConnectionError e) /\
  (forall ops c'' rs, run_ops ops c' = Some (c'', rs) -> error c'' = Some (ConnectionError e) /\
    forall op', guarded op' = true -> run_op op' c'' = Some (c'', Err (ConnectionError e))) /\
  forall ops, Forall (fun op => guarded op = true) ops -> run_ops ops c' = Some (c', map (fun _ => Err (ConnectionError e)) ops).
Proof.
  intros Hr E. apply (records_error _ _ _ _ Hr) in E. split; [done|]. split.
  - intros ops c'' rs Hrun. pose proof (run_ops_error _ _ _ _ _ E Hrun) as E'. split; [done|]. intros op' Hg. by apply guarded_stops.
  - intros ops. induction 1 as [|o ops Ho _ IH]; [done|]. cbn [run_ops map]. rewrite (guarded_stops _ _ _ Ho E). cbn [mbind option_bind]. by rewrite IH.
Qed.

(** C6. GOAWAY stops a client: after the peer's GOAWAY with identifier [g], and whatever
    happens then, every request that is sent has a stream id below [g]; and the ids that
    requests get only increase. *)
Theorem goaway_bounds_requests r s c c1 c2 c3 headers fin id : settings_ok s -> reachable r s c ->
  rtc conn_step c c1 -> op_ok (OpSendRequest headers fin) c1 ->
  run_op (OpSendRequest headers fin) c1 = Some (c2, Ok (OutStream id)) -> rtc conn_step c2 c3 ->
  r = Client /\ (forall g, peer_goaway_last_id c = Some g -> id < g) /\ next_stream_id c <= id < next_stream_id c3.
Proof.
  intros Hs Hr H1 [Hf Hn] E H2. pose proof (reachable_wf _ _ _ Hs Hr) as Hw. destruct (steps_evolve _ _ Hw H1) as [Hw1 He].
  destruct (send_request_wp 0 c1 headers fin Hw1 Hf Hn) as (c' & res & E' & Hw' & _ & Hres).
  cbn [run_op] in E. unfold returning, mbind, action_bind in E. rewrite E' in E.
  destruct res as [i|]; [|done]. injection E as -> ->. destruct Hres as (-> & Hnext & _ & Hrole & Hg).
  destruct (steps_evolve _ _ Hw' H2) as [_ He2]. split_and!.
  - rewrite <- (reachable_role _ _ _ Hs Hr), <- (ev_role _ _ He). done.
  - intros g Hc. destruct (ev_goaway_received _ _ He g Hc) as (g' & Hg' & ?). specialize (Hg g' Hg'). lia.
  - apply (ev_next _ _ He).
  - pose proof (ev_next _ _ He2). lia.
Qed.

(** C7. What a connection has been told stays so: the peer's settings are received once
    and never change, the identifiers of GOAWAY frames in either direction never increase
    and MAX_PUSH_ID never decreases, and a WebTransport session that ended, or a stream
    that is ignored, is never taken up again. *)
Theorem connection_history r s c c' : settings_ok s -> reachable r s c -> rtc conn_step c c' ->
  (forall p, peer_settings c = Some p -> peer_settings c' = Some p) /\
  (forall g, peer_goaway_last_id c = Some g -> exists g', peer_goaway_last_id c' = Some g' /\ g' <= g) /\
  (forall g, last_sent_goaway_id c = Some g -> exists g', last_sent_goaway_id c' = Some g' /\ g' <= g) /\
  (forall m, max_push_id c = Some m -> exists m', max_push_id c' = Some m' /\ m <= m') /\
  (forall id, in_set (closed_wt_sessions c) id = true -> in_set (closed_wt_sessions c') id = true) /\
  (forall id, in_set (ignored_uni_streams c) id = true -> in_set (ignored_uni_streams c') id = true).
Proof.
  intros Hs Hr H. destruct (steps_evolve _ _ (reachable_wf _ _ _ Hs Hr) H) as [_ He]. unfold in_set.
  split_and!; [apply He|apply He|apply He|apply He|..]; intros id Hid%bool_decide_eq_true; apply bool_decide_eq_true;
    destruct He; set_solver.
Qed.

(** ** Witnesses *)
Definition get_headers : list Header :=
  [mkHeader (str ":method") (str "GET") false; mkHeader (str ":scheme") (str "https") false;
   mkHeader (str ":authority") (str "example.com") false; mkHeader (str ":path") (str "/") false].

(** A client that has sent a request and received SETTINGS, a GOAWAY and a datagram. *)
Definition client_ops : list conn_op :=
  [OpInitH3Streams 2 6 10; OpSendRequest get_headers true; OpFeedStream 3 [0x00; 0x04; 0x00; 0x07] false;
   OpFeedStream 3 [0x01; 0x08] false; OpPollEvent; OpTakeStreamData 0; OpFeedDatagram [0x00; 0x01]].

Lemma connection_safe_witness :
  exists c, state_after Client settings_new client_ops = Some c /\ conn_wf 0 c /\
    exists c' res, run_op (OpFeedStream 0 [0x01; 0x40] false) c = Some (c', res).
Proof.
  destruct (connection_safe Client settings_new) as [_ H]; [repeat split|].
  destruct (state_after Client settings_new client_ops) as [c|] eqn:E; [|vm_compute in E; discriminate].
  exists c. split; [reflexivity|]. destruct (H c) as [Hw Hop].
  { apply (state_after_reachable _ _ client_ops); [vm_compute; reflexivity|exact E]. }
  split; [exact Hw|]. destruct (Hop (OpFeedStream 0 [0x01; 0x40] false)) as (c' & res & Hr & _).
  { apply (bool_decide_unpack _). vm_compute. exact I. }
  exists c', res. exact Hr.
Defined.

Lemma connection_resources_bounded_witness :
  exists c, state_after Client settings_new client_ops = Some c /\
    Z.of_nat (size (blocked_by_ricnt c)) <= limit_blocked_streams (limits c).
Proof.
  destruct (state_after Client settings_new client_ops) as [c|] eqn:E; [|vm_compute in E; discriminate].
  exists c. split; [reflexivity|].
  apply (connection_resources_bounded Client settings_new c); [repeat split|].
  apply (state_after_reachable _ _ client_ops); [vm_compute; reflexivity|exact E].
Defined.

(** A second control stream ends the connection. *)
Lemma connection_error_is_final_witness :
  exists c c', state_after Client settings_new client_ops = Some c /\
    run_op (OpFeedStream 7 [0x00] false) c = Some (c', Err (ConnectionError StreamCreationError)) /\
    run_ops [OpFeedStream 3 [0x07; 0x01; 0x04] false; OpSendBody 0 [0x61] true; OpPollEvent] c' =
      Some (c', [Err (ConnectionError StreamCreationError); Err (ConnectionError StreamCreationError);
        Err (ConnectionError StreamCreationError)]) /\
    exists c'' rs, run_ops [OpTakeStreamData 0; OpSetMaxReceivedBodySize 1; OpSendDatagram 0 [0x61]] c' = Some (c'', rs) /\
      run_op (OpFeedDatagram [0x00]) c'' = Some (c'', Err (ConnectionError StreamCreationError)).
Proof.
  destruct (state_after Client settings_new client_ops) as [c|] eqn:E; [|vm_compute in E; discriminate].
  vm_compute in E. match type of E with Some ?x = _ =>
    assert (exists c', run_op (OpFeedStream 7 [0x00] false) x = Some (c', Err (ConnectionError StreamCreationError)) /\
      exists c'' rs, run_ops [OpTakeStreamData 0; OpSetMaxReceivedBodySize 1; OpSendDatagram 0 [0x61]] c' = Some (c'', rs))
      as (c' & Hc' & c'' & rs & Hrun) by (eexists; split; [vm_compute; reflexivity|eexists _, _; vm_compute; reflexivity])
  end. injection E as <-.
  destruct (connection_error_is_final (OpFeedStream 7 [0x00] false) _ _ _ eq_refl Hc') as (_ & Hlater & Hall).
  eexists _, c'. split; [reflexivity|]. split; [exact Hc'|]. split.
  - apply (Hall [_; _; _]). repeat (apply List.Forall_cons; [reflexivity|]). constructor.
  - exists c'', rs. split; [exact Hrun|]. apply (Hlater _ _ _ Hrun). reflexivity.
Defined.

Lemma goaway_bounds_requests_witness :
  exists c c2 id, state_after Client settings_new client_ops = Some c /\ peer_goaway_last_id c = Some 8 /\
    run_op (OpSendRequest get_headers true) c = Some (c2, Ok (OutStream id)) /\ id < 8.
Proof.
  destruct (state_after Client settings_new client_ops) as [c|] eqn:E; [|vm_compute in E; discriminate].
  assert (all_ok Client settings_new client_ops = true) as Hok by (vm_compute; reflexivity).
  pose proof (state_after_reachable _ _ _ _ Hok E) as Hr. vm_compute in E. injection E as <-.
  match type of Hr with reachable _ _ ?c =>
    assert (exists c2 id, run_op (OpSendRequest get_headers true) c = Some (c2, Ok (OutStream id))) as (c2 & id & E2)
      by (eexists _, _; vm_compute; reflexivity);
    assert (op_ok (OpSendRequest get_headers true) c) as Hop by (apply (bool_decide_unpack _); vm_compute; exact I)
  end.
  eexists _, c2, id. split; [reflexivity|]. split; [reflexivity|]. split; [exact E2|].
  destruct (goaway_bounds_requests Client settings_new _ _ _ _ _ _ _ ltac:(repeat split) Hr (rtc_refl _ _) Hop E2 (rtc_refl _ _))
    as (_ & Hg & _).
  apply Hg. reflexivity.
Defined.

Lemma connection_history_witness :
  exists c c', state_after Client settings_new client_ops = Some c /\
    rtc conn_step c c' /\ exists g', peer_goaway_last_id c' = Some g' /\ g' <= 8.
Proof.
  destruct (state_after Client settings_new client_ops) as [c|] eqn:E; [|vm_compute in E; discriminate].
  assert (all_ok Client settings_new client_ops = true) as Hok by (vm_compute; reflexivity).
  pose proof (state_after_reachable _ _ _ _ Hok E) as Hr. vm_compute in E. injection E as <-.
  match type of Hr with reachable _ _ ?c =>
    assert (exists c' rs, run_ops [OpFeedStream 3 [0x07; 0x01; 0x04] false] c = Some (c', rs)) as (c' & rs & E2)
      by (eexists _, _; vm_compute; reflexivity);
    assert (ops_ok [OpFeedStream 3 [0x07; 0x01; 0x04] false] c) as Hop by (apply (bool_decide_unpack _); vm_compute; exact I)
  end.
  pose proof (run_ops_steps _ _ _ _ Hop E2) as Hstep. eexists _, c'. split; [reflexivity|]. split; [exact Hstep|].
  destruct (connection_history Client settings_new _ _ ltac:(repeat split) Hr Hstep) as (_ & Hg & _).
  apply (Hg 8). reflexivity.
Defined.
