(* ===== verification/ConnEvents.v ===== *)
(** The queue of events of a connection: no call but the two that hand events out takes
    one away, what is handed out comes in the order it was queued in, and an application
    that polls until there is nothing comes to an end. Calls only add what a driver can act
    on, a session that was established only ends with an event that says so, and sessions
    only start on streams that have been opened. No code of its own. *)

From Stdlib Require Import String Ascii.
From stdpp Require Import sorting.
From S2P Require Import Prelude Codec Varint Integer Header DynamicTable EncoderStream Settings Frame Error Stream FrameStream QpackEncoder QpackDecoder ControlStream RequestStream Validation Capsule Event Datagram WtSession Connection ConnInvariant ConnNegotiation ConnWtSession ConnWtStream ConnReceive ConnSafety ConnSend ConnSendSafety ConnRun.

(** ** What a call may do to the queue, and to what waits for the decoder *)

(** A code that a stream can be reset with. *)
Definition event_ok (e : Event) : bool :=
  match e with EvWebTransport (WtBufferedStreamRejected _ code) => code <=? VARINT_MAX | _ => true end.

(** A session that is established, on a stream that has been opened, and the end of one. *)
Definition live_state (s : WtSession) : bool := match ws_state s with WtEstablished | WtDraining => true | _ => false end.
Definition live (id : Z) (c : Connection) : bool := some_and (wt_sessions c !! id) live_state.
Definition opened (id : Z) (c : Connection) : Prop := role c = Server \/ id < next_stream_id c.
Definition says_closed (id : Z) (e : Event) : bool :=
  match e with EvWebTransport (WtSessionClosed sid _ _ _ _) => sid =? id | _ => false end.

Definition says_established (id : Z) (e : Event) : bool :=
  match e with EvWebTransport (WtSessionEstablished sid _) => sid =? id | _ => false end.
(** Without limits of its own an endpoint has no session with flow control. *)
Definition no_flow (c : Connection) : Prop := some_and (local_wt c) declares_flow_control = false.
Definition unmetered (id : Z) (c : Connection) : Prop := wt_session_flow_control_enabled id c = false.
(** An event that can be acted on, and not the start of a session. *)
Definition plain (e : Event) : bool :=
  event_ok e && match e with EvWebTransport (WtSessionEstablished _ _) => false | _ => true end.

(** [new] is what was added; no session ends without a word, and what starts is a session.
    A client has a new session only on a stream it has opened, and flow control is not
    turned on where there are no limits. *)
Record changed (new : list Event) (c c' : Connection) : Prop := {
  ch_ok : forallb event_ok new = true;
  ch_role : role c' = role c;
  ch_next : next_stream_id c <= next_stream_id c';
  ch_live : forall id, opened id c -> live id c = true -> live id c' = true \/ existsb (says_closed id) new = true;
  ch_established : forall id, opened id c -> existsb (says_established id) new = true ->
    live id c' = true \/ existsb (says_closed id) new = true;
  ch_none : forall id, role c = Client -> next_stream_id c' = next_stream_id c -> wt_sessions c !! id = None ->
    wt_sessions c' !! id = None /\ existsb (says_established id) new = false;
  ch_settings : local_settings c' = local_settings c;
  ch_flow : forall id, no_flow c -> unmetered id c -> unmetered id c' }.
Lemma no_flow_settings c c' : local_settings c' = local_settings c -> no_flow c -> no_flow c'.
Proof. unfold no_flow, local_wt. by intros ->. Qed.
Lemma ch_opened new c c' : changed new c c' -> forall id, opened id c -> opened id c'.
Proof. intros [_ Hr Hn _ _ _ _ _] id [Ho|Ho]; [left; congruence|right; lia]. Qed.
Definition grows (c c' : Connection) : Prop := exists new, events c' = events c ++ new /\ changed new c c'.
(** Every call but a request takes no stream id. *)
Definition same_next (c c' : Connection) : Prop := next_stream_id c' = next_stream_id c.
Definition steady (c c' : Connection) : Prop := grows c c' /\ same_next c c'.


Lemma changed_trans a b c c1 c2 : changed a c c1 -> changed b c1 c2 -> changed (a ++ b) c c2.
Proof.
  intros HA HB. pose proof (ch_opened _ _ _ HA) as Hop. destruct HA as [A1 A2 A3 A4 A5 A6 A7 A8], HB as [B1 B2 B3 B4 B5 B6 B7 B8].
  assert (forall id, opened id c -> live id c1 = true \/ existsb (says_closed id) a = true ->
    live id c2 = true \/ existsb (says_closed id) (a ++ b) = true) as Hl.
  { intros id Ho [Hl|Hc]; rewrite existsb_app; [|right; by rewrite Hc].
    destruct (B4 id (Hop id Ho) Hl) as [?| ->]; [by left|right]. by rewrite orb_true_r. }
  split; [by rewrite forallb_app, A1, B1|congruence|lia|auto| | |congruence|].
  - intros id Ho. rewrite existsb_app, orb_true_iff. intros [He|He]; [by auto|].
    destruct (B5 id (Hop id Ho) He) as [H1|H1]; [by left|]. right. by rewrite existsb_app, H1, orb_true_r.
  - intros id Hc Hn Hs. destruct (A6 id Hc ltac:(lia) Hs) as [Hs1 He1]. destruct (B6 id ltac:(congruence) ltac:(lia) Hs1) as [Hs2 He2].
    split; [done|]. by rewrite existsb_app, He1, He2.
  - intros id Hn Hu. apply B8; [by eapply no_flow_settings|auto].
Qed.
(** What keeps the sessions that are live, and opens none. *)
Definition session_kept (id : Z) (c c' : Connection) : Prop :=
  (live id c = true -> live id c' = true) /\ (role c = Client -> wt_sessions c !! id = None -> wt_sessions c' !! id = None) /\
  (no_flow c -> unmetered id c -> unmetered id c').
Lemma session_kept_same id c c' : wt_sessions c' = wt_sessions c -> session_kept id c c'.
Proof. intros Hs. unfold session_kept, live, unmetered, wt_session_flow_control_enabled. by rewrite Hs. Qed.
Definition keeps_live (c c' : Connection) : Prop :=
  role c' = role c /\ next_stream_id c' = next_stream_id c /\ local_settings c' = local_settings c /\ forall id, session_kept id c c'.
Lemma keeps_same c c' : role c' = role c -> next_stream_id c' = next_stream_id c -> local_settings c' = local_settings c ->
  wt_sessions c' = wt_sessions c -> keeps_live c c'.
Proof. intros Hr Hn Hl Hs. split_and!; [done..|]. intros id. by apply session_kept_same. Qed.
Lemma plain_ok l : forallb plain l = true -> forallb event_ok l = true /\ forall id, existsb (says_established id) l = false.
Proof.
  induction l as [|e l IH]; [done|]. cbn. rewrite andb_true_iff. intros [He Hl]. destruct (IH Hl) as [-> H]. unfold plain in He.
  apply andb_true_iff in He as [-> He]. split; [done|]. intros id. rewrite H. by destruct e as [| | | | | | | | |[]].
Qed.
Lemma changed_keeps new c c' : forallb plain new = true -> keeps_live c c' -> changed new c c'.
Proof.
  intros [Hn He]%plain_ok (Hr & Hx & Hs & Hl). split; [done|done|lia| | | |done|].
  - intros id _ H. left. by apply Hl.
  - intros id _. by rewrite He.
  - intros id Hc _ Hn'. split; [by apply Hl|done].
  - intros id. apply Hl.
Qed.

(** Besides, there is no new error, the decoder's table is as it was, and streams were only added to the blocked
    ones that wait for more than it holds. *)
Definition counted (c : Connection) : Z := insert_count (dec_table (qpack_dynamic_decoder c)).
Record queued (c c' : Connection) : Prop := {
  qu_events : steady c c';
  qu_error : error c' = error c;
  qu_table : dec_table (qpack_dynamic_decoder c') = dec_table (qpack_dynamic_decoder c);
  qu_blocked : forall x, x ∈ blocked_by_ricnt c' -> x ∈ blocked_by_ricnt c \/ counted c < fst x }.

#[export] Instance grows_preorder : PreOrder grows.
Proof.
  split; [intros c; exists []; split; [by rewrite app_nil_r|by apply changed_keeps; [|apply keeps_same]]|].
  intros c1 c2 c3 (l1 & H1 & O1) (l2 & H2 & O2). exists (l1 ++ l2). split; [by rewrite H2, H1, app_assoc|by eapply changed_trans].
Qed.
#[export] Instance same_next_preorder : PreOrder same_next.
Proof. split; [by intros c|]. intros c1 c2 c3 ??. unfold same_next in *. congruence. Qed.
#[export] Instance steady_preorder : PreOrder steady.
Proof. split; [by intros c|]. intros c1 c2 c3 [] []. by split; etrans. Qed.
#[export] Instance queued_preorder : PreOrder queued.
Proof.
  split.
  - intros c. split; [done|done|done|by left].
  - intros c1 c2 c3 [H1 X1 E1 B1] [H2 X2 E2 B2]. split; [by etrans|congruence|congruence|]. intros x Hx.
    destruct (B2 x Hx) as [Hx'|Hx']; [by apply B1|right]. unfold counted in *. by rewrite <- E1.
Qed.

Lemma keeps_grows {A} (m : action A) : keeps queued m -> keeps steady m.
Proof. intros Hm c c' r E. apply (Hm _ _ _ E). Qed.

(** What a change of other fields, and an event, are. *)
Definition queue (c : Connection) :=
  (events c, error c, dec_table (qpack_dynamic_decoder c), blocked_by_ricnt c, role c, next_stream_id c, local_settings c).
Lemma queued_lives c c' : queue c' = queue c -> (forall id, session_kept id c c') -> queued c c'.
Proof.
  intros [= E1 E2 E3 E4 E5 E6 E7] Hl. split; [split; [exists []; split; [by rewrite app_nil_r|by apply changed_keeps]|done]|done|done|].
  intros x. rewrite E4. by left.
Qed.
Lemma queued_same c c' : queue c' = queue c -> wt_sessions c' = wt_sessions c -> queued c c'.
Proof. intros Hq Hs. apply queued_lives; [done|]. intros id. by apply session_kept_same. Qed.

Definition told (c : Connection) := (events c, wt_sessions c, role c, next_stream_id c, local_settings c).
Lemma grows_same c c' : told c' = told c -> steady c c'.
Proof. intros [= E1 E2 E3 E4 E5]. split; [|done]. exists []. split; [by rewrite app_nil_r|]. by apply changed_keeps; [|apply keeps_same]. Qed.

(** Changes of sessions: from [s] to [s'] in [c]. *)
Definition session_goes (c : Connection) (s s' : WtSession) : Prop :=
  (live_state s = true -> live_state s' = true) /\ (no_flow c -> ws_flow_control_enabled s = false -> ws_flow_control_enabled s' = false).
Lemma goes_standing c s s' : standing s' = standing s -> session_goes c s s'.
Proof. intros [= E1 E2]. unfold session_goes, live_state. by rewrite E1, E2. Qed.
Lemma kept_change id s' c c' : wt_sessions c' !! id = Some s' ->
  match wt_sessions c !! id with Some s => session_goes c s s' | None => role c = Server /\ ws_flow_control_enabled s' = false end ->
  session_kept id c c'.
Proof.
  intros E Hs. unfold session_kept, live, unmetered, wt_session_flow_control_enabled. rewrite E. destruct (wt_sessions c !! id) as [s|].
  - destruct Hs as [Hl Hf]. split_and!; [exact Hl|done|exact Hf].
  - destruct Hs as [Hr Hf]. split_and!; [done|intros ?; congruence|by intros _ _].
Qed.
Lemma kept_elsewhere id c c' : wt_sessions c' !! id = wt_sessions c !! id -> session_kept id c c'.
Proof. intros Hs. unfold session_kept, live, unmetered, wt_session_flow_control_enabled. by rewrite Hs. Qed.
Lemma kept_gone id c c' : live id c = false -> wt_sessions c' !! id = None -> session_kept id c c'.
Proof.
  intros Hl Hs. unfold session_kept, unmetered, wt_session_flow_control_enabled. by rewrite Hl, Hs.
Qed.
Lemma session_update id f c : (forall s, session_goes c s (f s)) -> forall j, session_kept j c (update_session id f c).
Proof.
  intros Hf j. destruct (decide (id = j)) as [->|Hne]; [|by apply kept_elsewhere; cbn; rewrite lookup_alter_ne].
  destruct (wt_sessions c !! j) as [s|] eqn:E.
  - apply (kept_change _ (f s)); [cbn; by rewrite lookup_alter_eq, E|by rewrite E].
  - apply kept_elsewhere. cbn. by rewrite lookup_alter_eq, E.
Qed.
(** A session that is there, or a new one at the server. *)
Lemma kept_insert id s c :
  match wt_sessions c !! id with Some s' => session_goes c s' s | None => role c = Server /\ ws_flow_control_enabled s = false end ->
  forall j, session_kept j c (set_wt_sessions (<[id := s]> (wt_sessions c)) c).
Proof.
  intros Hs j. destruct (decide (id = j)) as [->|Hne]; [|by apply kept_elsewhere; cbn; rewrite lookup_insert_ne].
  apply (kept_change _ s); [cbn; by rewrite lookup_insert_eq|done].
Qed.
Lemma queued_update id f c : (forall s, session_goes c s (f s)) -> queued c (update_session id f c).
Proof. intros Hf. apply queued_lives; [done|by apply session_update]. Qed.
Lemma queued_insert id s c :
  match wt_sessions c !! id with Some s' => session_goes c s' s | None => role c = Server /\ ws_flow_control_enabled s = false end ->
  queued c (set_wt_sessions (<[id := s]> (wt_sessions c)) c).
Proof. intros Hs. apply queued_lives; [done|by apply kept_insert]. Qed.

Lemma queued_push l c : forallb plain l = true -> queued c (push_events l c).
Proof. intros Hl. split; [split; [exists l; split; [done|by apply changed_keeps; [|apply keeps_same]]|done]|done|done|by left]. Qed.
Lemma queued_pushed l c c' : forallb plain l = true -> queued c c' -> queued c (push_events l c').
Proof. intros Hl H. etrans; [exact H|by apply queued_push]. Qed.
Lemma queued_then f c c' : (forall c, queued c (f c)) -> queued c c' -> queued c (f c').
Proof. intros Hf H. by etrans. Qed.

Lemma queued_fold {A} (f : Connection -> A -> Connection) l : (forall c x, queued c (f c x)) -> forall c, queued c (fold_left f l c).
Proof. intros Hf. induction l as [|x l IH]; intros c; [done|]. cbn [fold_left]. etrans; [apply Hf|apply IH]. Qed.
Lemma queued_remove id c : queued c (remove_stream_if_done id c).
Proof. unfold remove_stream_if_done. case_match; [by apply queued_same|done]. Qed.
Lemma queued_remove_wt c id : queued c (remove_wt_stream c id).
Proof. by apply queued_same. Qed.
Lemma queued_remove_closed c x : queued c (remove_closed_stream c x).
Proof. destruct x as [? []]; by apply queued_same. Qed.


(** What is queued, and not a rejection. *)
Lemma forallb_map_ok {A} (f : A -> Event) l : (forall x, plain (f x) = true) -> forallb plain (map f l) = true.
Proof. intros Hf. induction l as [|x l IH]; [done|]. cbn. by rewrite Hf. Qed.
Lemma stream_event_ok b id sid data : plain (stream_open_event b id sid) = true /\
  plain (stream_data_event b id data) = true /\ plain (stream_end_event b id) = true.
Proof. by destruct b. Qed.
Lemma header_events_ok id headers : forallb plain (header_events id headers) = true.
Proof. unfold header_events. cbn. by rewrite forallb_app, forallb_map_ok. Qed.
Ltac events_ok := solve
  [ done | apply header_events_ok | by apply forallb_map_ok | repeat match goal with b : bool |- _ => destruct b end; done ].
Ltac lives := solve
  [ let s := fresh in intros s; apply goes_standing; first [reflexivity|autorewrite with session_state; reflexivity]
  | let s := fresh in let Hs := fresh in intros s; split; intros; first [eassumption|reflexivity] ].
Ltac queue_step := first
  [ done | apply queued_same; reflexivity
  | apply queued_push; events_ok
  | apply queued_remove
  | apply queued_update; lives
  | apply queued_pushed; [events_ok|queue_step]
  | eapply (queued_then (set_pending_wt_uni_streams _)); [intros; by apply queued_same|queue_step]
  | eapply (queued_then (push_wt _)); [intros; apply (queued_push [_]); events_ok|queue_step]
  | eapply (queued_then (update_session _ _)); [intros; apply queued_update; lives|queue_step] ].
Ltac same_queue := first
  [ done | queue_step
  | repeat case_match; first [done|queue_step] ].

#[local] Notation quiet := (keeps queued).

(** ** WebTransport sessions *)
Lemma fold_remove_wt l : forall c, let c' := fold_left remove_wt_stream l c in
  queue c' = queue c /\ wt_sessions c' = wt_sessions c.
Proof. induction l as [|x l IH]; intros c; [done|]. cbn [fold_left]. apply (IH (remove_wt_stream c x)). Qed.
(** The one place where an established session ends: the event says so. *)
Lemma queued_buried id resets code close msg c :
  queued c (bury_session id (push_wt (WtSessionClosed id resets code close msg) c)).
Proof.
  split; [|done|done|by left]. split; [|done]. eexists. split; [reflexivity|]. split; [done|done|done| |done| |done|].
  - intros j _ Hl. cbn [existsb says_closed].
    destruct (Z.eqb_spec id j) as [->|Hne]; [by right|left]. unfold live in *. cbn. by rewrite lookup_delete_ne.
  - intros j _ _ Hs. split; [|done]. cbn. by apply lookup_delete_None; right.
  - intros j _. unfold unmetered, wt_session_flow_control_enabled. cbn.
    destruct (decide (id = j)) as [->|Hne]; [by rewrite lookup_delete_eq|by rewrite lookup_delete_ne].
Qed.
Lemma terminate_quiet id code close msg : quiet (terminate_wt_session_with id code close msg).
Proof.
  intros c c' r. unfold terminate_wt_session_with. rewrite gets_ok. destruct (wt_sessions c !! id) as [s|]; [|by intros [= <- _]].
  case_bool_decide; [by intros [= <- _]|]. rewrite get_ok. destruct (mapM _ _) as [resets|]; [|done].
  rewrite (expect_ok _ _ _ resets eq_refl), !modify_ok. intros [= <- _]. etrans; [|apply queued_buried]. apply queued_same; apply fold_remove_wt.
Qed.
Lemma terminate_session_quiet id : quiet (terminate_wt_session id).
Proof. apply terminate_quiet. Qed.
Lemma terminate_flow_quiet id : quiet (terminate_flow_control id).
Proof. apply terminate_quiet. Qed.
#[export] Hint Resolve terminate_quiet terminate_session_quiet terminate_flow_quiet : keeps.
Lemma handle_wt_capsule_quiet id cap : quiet (handle_wt_capsule id cap).
Proof. unfold handle_wt_capsule. keep_steps; same_queue. Qed.
#[export] Hint Resolve handle_wt_capsule_quiet : keeps.
Lemma wt_capsule_loop_quiet fuel id : quiet (wt_capsule_loop fuel id).
Proof. induction fuel as [|fuel IH]; cbn [wt_capsule_loop]; keep_steps; same_queue. Qed.
#[export] Hint Resolve wt_capsule_loop_quiet : keeps.
Lemma process_wt_capsule_data_quiet id data : quiet (process_wt_capsule_data id data).
Proof. unfold process_wt_capsule_data. keep_steps; same_queue. Qed.
#[export] Hint Resolve process_wt_capsule_data_quiet : keeps.
Lemma handle_wt_data_frame_quiet id data : quiet (handle_wt_data_frame id data).
Proof. unfold handle_wt_data_frame. keep_steps; same_queue. Qed.
Lemma handle_wt_stream_end_quiet id : quiet (handle_wt_stream_end id).
Proof.
  intros c c' r. unfold handle_wt_stream_end. rewrite get_ok.
  destruct (has_key _ _); [rewrite modify_ok; intros [= <- _]; same_queue|].
  destruct (wt_sessions c !! id) as [s|] eqn:Es; [|intros [= <- _]; same_queue]. case_bool_decide as Hp.
  - rewrite modify_ok. intros [= <- _]. apply queued_lives; [done|]. intros j.
    destruct (decide (id = j)) as [->|Hne]; [|by apply kept_elsewhere; cbn; rewrite lookup_delete_ne].
    apply kept_gone; [|by cbn; rewrite lookup_delete_eq]. unfold live, live_state. by rewrite Es; cbn; rewrite Hp.
  - assert (quiet (throw_if (negb (is_empty_bytes (capsule_buf s))) message_error;; terminate_wt_session id;; mret true)) as Hq by keep_steps.
    apply Hq.
Qed.
#[export] Hint Resolve handle_wt_data_frame_quiet handle_wt_stream_end_quiet : keeps.

Lemma deliver_loop_ok sid buffered rest : forall s evs cl, forallb plain evs = true ->
  forallb plain (snd (fst (fst (deliver_loop sid buffered rest s evs cl)))) = true.
Proof.
  induction rest as [|id rest IH]; intros s evs cl He; cbn [deliver_loop]; [done|].
  destruct (take_buffered_stream_entry id s) as [s1 [e|]]; [|by apply IH].
  assert (forall evs e, forallb plain evs = true -> plain e = true -> forallb plain (evs ++ [e]) = true) as Hsnoc.
  { intros l x Hl Hx. rewrite forallb_app, Hl. cbn. by rewrite Hx. }
  destruct (negb (check_received_stream _ _)); [done|].
  destruct (stream_event_ok (be_is_bidi e) id sid (be_data e)) as (H1 & H2 & H3). pose proof (Hsnoc evs _ He H1) as He1.
  destruct (_ && negb _); [done|]. destruct (negb (is_empty_bytes _)), (be_fin e); apply IH; auto.
Qed.

Lemma restore_all_state l : forall s, standing (fold_left restore_remaining l s) = standing s.
Proof.
  induction l as [|id l IH]; intros s; [done|]. cbn [fold_left]. rewrite IH. unfold restore_remaining.
  pose proof (take_entry_state s id) as E. by destruct (take_buffered_stream_entry id s) as [s1 [e|]].
Qed.
Lemma deliver_loop_state sid buffered rest : forall s evs cl,
  standing (fst (fst (fst (deliver_loop sid buffered rest s evs cl)))) = standing s.
Proof.
  induction rest as [|id rest IH]; intros s evs cl; cbn [deliver_loop]; [done|].
  pose proof (take_entry_state s id) as <-. destruct (take_buffered_stream_entry id s) as [s1 [e|]]; cbn [fst]; [|by rewrite IH].
  destruct (negb (check_received_stream _ _)); [cbn [fst]; by rewrite restore_all_state, restore_state|].
  destruct (_ && negb _); [cbn [fst]; by rewrite restore_state, restore_all_state, associate_stream_state, add_received_stream_state|].
  destruct (negb (is_empty_bytes _)), (be_fin e); rewrite IH; by autorewrite with session_state.
Qed.

Lemma remove_closed_sessions l : forall c, wt_sessions (fold_left remove_closed_stream l c) = wt_sessions c.
Proof. induction l as [|[x []] l IH]; intros c; cbn [fold_left]; [done|by rewrite IH|by rewrite IH]. Qed.
Lemma deliver_quiet id c : queued c (fst (deliver_buffered_streams id c)).
Proof.
  unfold deliver_buffered_streams. destruct (wt_sessions c !! id) as [s|] eqn:Es; [|done].
  pose proof (take_streams_state s) as Et. destruct (take_buffered_streams s) as [s1 l].
  pose proof (deliver_loop_ok id l l s1 [] [] eq_refl) as Hok. pose proof (deliver_loop_state id l l s1 [] []) as Hst.
  destruct (deliver_loop _ _ _ _ _ _) as [[[s2 evs] cl] b]. cbn [fst snd] in *.
  assert (exists s3 dgs, (if b then (s2, []) else take_buffered_datagrams s2) = (s3, dgs) /\ standing s3 = standing s) as (s3 & dgs & -> & E3).
  { destruct b; [by exists s2, []; rewrite Hst, Et|]. eexists _, _. split; [reflexivity|]. by rewrite <- Et, <- Hst. }
  cbn [fst]. set (c1 := push_events _ (fold_left _ _ _)).
  assert (queued c c1 /\ wt_sessions c1 = wt_sessions c) as [Hq Hw].
  { split; [etrans; [|by apply queued_push, forallb_map_ok]; etrans; [|apply queued_fold, queued_remove_closed]; by apply queued_push|].
    unfold c1. cbn. by rewrite remove_closed_sessions. }
  etrans; [exact Hq|]. apply queued_insert. rewrite Hw, Es. by apply goes_standing.
Qed.
(** The one place where a session starts. *)
Lemma announce_quiet id c : live id c = true -> queued c (fst (announce_session id c)).
Proof.
  intros Hl. unfold announce_session. etrans; [|apply deliver_quiet].
  split; [|done|done|by left]. split; [|done]. eexists. split; [reflexivity|]. split; [done|done|done|by left| | |done|done].
  - intros j _. cbn [existsb says_established]. destruct (Z.eqb_spec id j) as [<-|]; [|done]. by left.
  - intros j _ _ Hs. split; [done|]. cbn [existsb says_established]. destruct (Z.eqb_spec id j) as [<-|]; [|done].
    unfold live in Hl. by rewrite Hs in Hl.
Qed.
Lemma establish_quiet id c : queued c (fst (establish_session id c)).
Proof.
  unfold establish_session. destruct (wt_sessions c !! id) as [s|] eqn:Es; [|done]. case_bool_decide as Hp; [|done]. cbn [fst].
  apply queued_insert. rewrite Es. split; [done|]. unfold no_flow, is_wt_flow_control_enabled. intros Hn _. cbn [ws_flow_control_enabled set_ws_state].
  assert (forall wt b s', ws_flow_control_enabled (initialize_flow_control wt b s') = ws_flow_control_enabled s') as Hi.
  { intros wt b s'. by injection (initialize_state s' wt b). }
  destruct (local_wt c) as [wt|]; [|done]. cbn [some_and] in Hn. rewrite Hi. cbn. unfold flow_control_enabled_with_peer.
  rewrite Hn. by destruct (peer_wt c).
Qed.
Lemma establish_live id c : snd (establish_session id c) = true -> live id (fst (establish_session id c)) = true.
Proof.
  unfold establish_session. destruct (wt_sessions c !! id) as [s|] eqn:Es; [|done]. case_bool_decide as Hp; [|done]. intros _.
  unfold live. cbn. by rewrite lookup_insert_eq.
Qed.
(** What is done once the session is there. *)
Lemma established_quiet id (m : action unit) : (forall c c' r, live id c = true -> m c = Some (c', r) -> queued c c') ->
  quiet (established ← run_method (establish_session id); if negb established then done_with else m).
Proof.
  intros Hm c c' r. unfold run_method at 1, mbind at 1, action_bind at 1. pose proof (establish_quiet id c) as Hq.
  pose proof (establish_live id c) as Hl. destruct (establish_session id c) as [c1 b]. cbn [fst snd] in *. destruct b; cbn [negb].
  - intros E. etrans; [exact Hq|]. by eapply Hm; [apply Hl|].
  - by intros [= <- _].
Qed.
Lemma announced_quiet id (m : bool -> action unit) : (forall b, quiet (m b)) -> forall c c' r, live id c = true ->
  (violation ← run_method (announce_session id); m violation) c = Some (c', r) -> queued c c'.
Proof.
  intros Hm c c' r Hl. unfold run_method at 1, mbind at 1, action_bind at 1. pose proof (announce_quiet id c Hl) as Hq.
  destruct (announce_session id c) as [c1 b]. cbn [fst] in *. intros E. etrans; [exact Hq|by eapply Hm].
Qed.
Lemma handle_wt_connect_response_quiet id headers : quiet (handle_wt_connect_response id headers).
Proof.
  unfold handle_wt_connect_response.
  assert (quiet (established ← run_method (establish_session id); if negb established then done_with
    else modify (update_stream id set_connect);; run_method (announce_session id) ≫= (fun violation : bool =>
      if violation then terminate_flow_control id else done_with))) as Hest.
  { apply established_quiet. intros c c' r Hl. rewrite modify_ok. intros E. etrans; [by apply (queued_same c (update_stream id set_connect c))|].
    revert E. apply announced_quiet; [intros b; keep_steps|done]. }
  match type of Hest with quiet ?m => set (m) in * end. clearbody a. keep_steps.
Qed.
Lemma process_buffered_capsules_quiet id : quiet (process_buffered_capsules id).
Proof.
  intros c c' r. unfold process_buffered_capsules. destruct (process_wt_capsule_data id [] c) as [[c1 [[]|e]]|] eqn:E; [| |done].
  - intros [= <- _]. by eapply process_wt_capsule_data_quiet.
  - intros E2. etrans; [by eapply process_wt_capsule_data_quiet|].
    eapply (keeps_bind queued (terminate_wt_session id)); [keep_steps|intros ?; apply (keeps_throw queued e)|exact E2].
Qed.
#[export] Hint Resolve process_buffered_capsules_quiet : keeps.
Lemma establish_server_quiet id headers : quiet (establish_wt_session_server id headers).
Proof.
  unfold establish_wt_session_server.
  assert (quiet (established ← run_method (establish_session id); if negb established then done_with
    else run_method (announce_session id) ≫= (fun violation : bool =>
      if violation then terminate_flow_control id
      else sessions ← gets wt_sessions;
        if is_some_and (fun s => negb (is_empty_bytes (capsule_buf s))) (sessions !! id) then process_buffered_capsules id else done_with))) as Hest.
  { apply established_quiet. intros c c' r Hl. apply announced_quiet; [intros b; keep_steps|done]. }
  match type of Hest with quiet ?m => set (m) in * end. clearbody a. keep_steps.
Qed.
#[export] Hint Resolve handle_wt_connect_response_quiet : keeps.

(** ** Request streams *)
Lemma register_quiet id headers c : queued c (register_wt_connect_session id headers c).
Proof.
  unfold register_wt_connect_session. destruct (_ || _) eqn:Er; [done|]. apply orb_false_iff in Er as [Hr%negb_false_iff%bool_decide_eq_true _].
  set (c1 := set_wt_sessions _ c). apply (queued_then (update_stream id _)); [intros; by apply queued_same|]. apply queued_insert.
  destruct (wt_sessions c !! id) as [s|]; cbn [default]; [apply goes_standing|split; [done|]]; unfold take_offer; by case_match.
Qed.
Lemma section_ack_quiet id c : queued c (send_section_ack_if_needed id c).
Proof. apply queued_same; unfold send_section_ack_if_needed; by repeat case_match. Qed.
Lemma publish_quiet id headers c : queued c (publish_headers id headers c).
Proof. unfold publish_headers. apply queued_pushed; [apply header_events_ok|]. apply section_ack_quiet. Qed.
Lemma emit_header_events_quiet id headers b : quiet (emit_header_events id headers b).
Proof.
  unfold emit_header_events, defer_wt_connect.
  keep_steps; first [apply publish_quiet|apply register_quiet|apply section_ack_quiet|same_queue].
Qed.
#[export] Hint Resolve emit_header_events_quiet : keeps.

(** A section is blocked on more insertions than there were. *)
Lemma decode_section_blocked d data : snd (decode_section d data) = Ok Blocked ->
  insert_count (dec_table d) < dec_last_ric (fst (decode_section d data)).
Proof.
  unfold decode_section. case_match; [done|]. destruct (_ ≫= _) as [[ric n]|]; [|done]. cbn -[decode_integer].
  destruct (_ && _) eqn:E; [intros _; lia|]. case_match; [done|].
  destruct (decode_integer _ _) as [[db dl]|]; [|done]. cbn [mbind result_bind].
  destruct (decode_base _ _ _); [|done]. cbn [mbind result_bind]. by destruct (decode_lines _ _ _ _ _).
Qed.

Lemma decode_headers_quiet encoded : quiet (decode_headers encoded).
Proof.
  intros c c' r. unfold decode_headers. pose proof (decode_section_table (qpack_dynamic_decoder c) encoded) as Hd.
  destruct (decode_section _ _) as [d o]. intros [= <- _].
  split; [|done|done|by left]. split; [|done]. exists []. split; [by rewrite app_nil_r|by apply changed_keeps; [|apply keeps_same]].
Qed.
Lemma block_stream_quiet id encoded b c : counted c < dec_last_ric (qpack_dynamic_decoder c) ->
  queued c (block_stream id encoded b c).
Proof.
  intros Hc. split; [split; [exists []; split; [by rewrite app_nil_r|by apply changed_keeps; [|apply keeps_same]]|done]|done|done|]. cbn. intros x [Hx|Hx%elem_of_singleton]%elem_of_union; [by left|].
  right. by subst x.
Qed.

(** A decoding action, and what follows it: a call that may block the stream is only made
    when the section has to wait. *)
Lemma decode_then_quiet {A} encoded (f : DecodeOutput -> action A) :
  (forall headers, quiet (f (Decoded headers))) ->
  (forall c c' r, counted c < dec_last_ric (qpack_dynamic_decoder c) -> f Blocked c = Some (c', r) -> queued c c') ->
  quiet (out ← decode_headers encoded; f out).
Proof.
  intros Hd Hb c c' r. unfold mbind, action_bind. destruct (decode_headers encoded c) as [[c1 o]|] eqn:E; [|done].
  pose proof (decode_headers_quiet encoded c c1 o E) as H1. destruct o as [[headers|]|e]; [| |by intros [= <- _]].
  - intros H. etrans; [exact H1|by eapply Hd].
  - intros H. etrans; [exact H1|]. apply (Hb _ _ r); [|done].
    revert E. unfold decode_headers, counted.
    pose proof (decode_section_blocked (qpack_dynamic_decoder c) encoded) as Hbl.
    pose proof (decode_section_table (qpack_dynamic_decoder c) encoded) as Ht.
    destruct (decode_section _ _) as [d o]. cbn [fst snd] in *. destruct o as [o|]; [|done]. intros [= <- ->]. cbn.
    rewrite Ht. by apply Hbl.
Qed.

Lemma receive_section_quiet id encoded b : quiet (receive_section id encoded b).
Proof.
  apply decode_then_quiet; [intros headers; keep_steps|]. intros c c' r Hc.
  unfold get, gets, throw_if, mbind, action_bind, modify, throw, done_with, mret, action_ret.
  destruct (_ <=? _); [by intros [= <- _]|]. intros [= <- _]. by apply block_stream_quiet.
Qed.
Lemma process_raw_quiet id : quiet (process_stream_raw id).
Proof.
  intros c c' r. unfold process_stream_raw. destruct (streams c !! id); [|done]. cbn [mbind option_bind].
  destruct (process_raw _) as [[s o]|]; [|done]. cbn [mbind option_bind]. intros [= <- _]. by apply queued_same.
Qed.
#[export] Hint Resolve decode_headers_quiet receive_section_quiet process_raw_quiet : keeps.
Lemma handle_received_quiet id ev : quiet (handle_received id ev).
Proof. unfold handle_received, check_content_length. keep_steps; same_queue. Qed.
#[export] Hint Resolve handle_received_quiet : keeps.
Lemma stream_loop_quiet fuel id : quiet (stream_loop fuel id).
Proof. induction fuel as [|fuel IH]; cbn [stream_loop]; keep_steps. Qed.
#[export] Hint Resolve stream_loop_quiet : keeps.
Lemma process_stream_frames_quiet id : quiet (process_stream_frames id).
Proof. unfold process_stream_frames. keep_steps. same_queue. Qed.
#[export] Hint Resolve process_stream_frames_quiet : keeps.

Lemma retry_stream_quiet id encoded b : quiet (retry_stream id encoded b).
Proof.
  apply decode_then_quiet.
  - intros headers. unfold check_blocked_length, check_content_length. keep_steps. same_queue.
  - intros c c' r Hc [= <- _]. by apply block_stream_quiet.
Qed.
#[export] Hint Resolve retry_stream_quiet : keeps.
Lemma take_blocked_header_quiet id c : queued c (fst (take_blocked_header id c)).
Proof. unfold take_blocked_header. case_match; by apply queued_same. Qed.
Lemma retry_list_quiet l : quiet (retry_list l).
Proof. induction l as [|[ric id] l IH]; cbn [retry_list]; keep_steps; apply take_blocked_header_quiet. Qed.

(** ** Polling *)
#[export] Instance pair_le_total : Total pair_le.
Proof. intros [a b] [c d]. unfold pair_le. cbn. lia. Qed.
#[export] Instance pair_le_trans : Transitive pair_le.
Proof. intros [a b] [c d] [e f]. unfold pair_le. cbn. lia. Qed.

Lemma take_while_sorted n l x : StronglySorted pair_le l -> x ∈ l -> fst x <= n -> x ∈ take_while (fun x => fst x <=? n) l.
Proof.
  induction 1 as [|y l Hs IH Hy]; intros Hx Hn; [by apply not_elem_of_nil in Hx|]. cbn [take_while].
  assert (fst y <=? n = true) as ->.
  { apply elem_of_cons in Hx as [->|Hx]; [lia|]. rewrite Forall_forall in Hy. specialize (Hy x Hx). unfold pair_le in Hy. lia. }
  apply elem_of_cons in Hx as [->|Hx]; [by left|right; auto].
Qed.

Lemma elem_of_ascending s x : x ∈ ascending s <-> x ∈ s.
Proof. unfold ascending. rewrite merge_sort_Permutation. apply elem_of_elements. Qed.

(** Nothing that is blocked can go on. *)
Definition settled (c : Connection) : Prop := forall x, x ∈ blocked_by_ricnt c -> counted c < fst x.

Lemma settled_unblockable c : settled c -> unblockable c = [].
Proof.
  intros Hs. unfold unblockable. destruct (ascending (blocked_by_ricnt c)) as [|x l] eqn:E; [done|]. cbn [take_while].
  assert (x ∈ blocked_by_ricnt c) as Hx by (apply elem_of_ascending; rewrite E; by left).
  specialize (Hs x Hx). unfold counted in Hs. by solve_cmp.
Qed.

Lemma retry_settles c c' r : retry_blocked_streams c = Some (c', r) -> steady c c' /\ settled c' /\ error c' = error c.
Proof.
  unfold retry_blocked_streams, gets, modify, mbind, action_bind. set (c1 := set_blocked_by_ricnt _ c). intros E.
  assert (queued c1 c') as [Hg He Ht Hb] by by eapply retry_list_quiet. assert (counted c' = counted c) as Hc by (unfold counted; by rewrite Ht).
  split_and!; [by etrans; [apply (grows_same c c1)|]| |by rewrite He]. intros x Hx. rewrite Hc. destruct (Hb x Hx) as [Hx1|Hx1]; [|done].
  cbn in Hx1. apply elem_of_difference in Hx1 as [Hx1 Hn]. rewrite elem_of_list_to_set in Hn.
  apply Z.lt_nge. intros Hle. apply Hn, take_while_sorted; [|by apply elem_of_ascending|done].
  apply (StronglySorted_merge_sort pair_le).
Qed.

Lemma retry_settled c : settled c -> retry_blocked_streams c = Some (c, Ok ()).
Proof.
  intros Hs. unfold retry_blocked_streams, gets, modify, mbind, action_bind. rewrite settled_unblockable by done.
  cbn [list_to_set retry_list]. rewrite difference_empty_L. by destruct c.
Qed.

Lemma poll_settled c : settled c -> error c = None ->
  poll_event c = Some (match events c with [] => (c, Ok None) | e :: l => (set_events l c, Ok (Some e)) end).
Proof.
  intros Hs He. unfold poll_event.
  assert ((check_error_state;; retry_blocked_streams;;
    run_method (fun c => match events c with [] => (c, None) | e :: l => (set_events l c, Some e) end)) c =
    Some (match events c with [] => (c, Ok None) | e :: l => (set_events l c, Ok (Some e)) end)) as E.
  { unfold check_error_state. rewrite (bind_ok _ _ c c tt) by by rewrite gets_ok, He.
    rewrite (bind_ok _ _ _ _ _ (retry_settled _ Hs)). unfold run_method. by destruct (events c). }
  destruct (events c); by apply remember_ok.
Qed.

(** A call that hands events out either fails, or takes them from the queue after what
    could go on has done so. *)
Lemma after_retry {A} (f : Connection -> Connection * A) c c' r :
  remember_connection_error (check_error_state;; retry_blocked_streams;; run_method f) c = Some (c', r) ->
  (exists e, r = Err e /\ steady c c') \/
  exists c1, settled c1 /\ error c1 = None /\ steady c c1 /\ c' = fst (f c1) /\ r = Ok (snd (f c1)).
Proof.
  unfold remember_connection_error. destruct (error c) as [e|] eqn:He.
  { rewrite (check_error_stops _ _ _ He). intros E. left. exists e. by destruct e; injection E as <- <-; (split; [done|by apply grows_same]). }
  unfold check_error_state at 1. rewrite (bind_ok _ _ c c tt) by by rewrite gets_ok, He. unfold mbind at 1, action_bind.
  destruct (retry_blocked_streams c) as [[c1 [[]|e]]|] eqn:E; [| |done]; destruct (retry_settles _ _ _ E) as (Hg & Hs & He1).
  - unfold run_method. destruct (f c1) as [c2 a] eqn:Ef. intros [= <- <-]. right. exists c1. rewrite Ef, He1. by split_and!.
  - intros E2. left. exists e. by destruct e; injection E2 as <- <-; (split; [done|etrans; [exact Hg|by apply grows_same]]).
Qed.

(** Polling on, one event after the other. *)
Lemma poll_queue l : forall c, settled c -> error c = None -> events c = l ->
  run_ops (replicate (S (length l)) OpPollEvent) c =
    Some (set_events [] c, map (fun e => Ok (OutEvent (Some e))) l ++ [Ok (OutEvent None)]).
Proof.
  induction l as [|e l IH]; intros c Hs He Hl.
  - cbn. unfold returning, mbind, action_bind. rewrite poll_settled, Hl by done. cbn. destruct c. cbn in *. by subst.
  - cbn [length]. rewrite replicate_S. cbn [run_ops run_op]. unfold returning at 1, mbind at 3, action_bind. rewrite poll_settled, Hl by done.
    unfold mret, action_ret. cbn [mbind option_bind]. rewrite IH by done. done.
Qed.

(** Polling hands out [l], one event after the other, and then none; nothing that is still
    registered as blocked could go on. *)
Definition polls_out (l : list Event) (c c' : Connection) : Prop :=
  run_ops (replicate (S (length l)) OpPollEvent) c = Some (c', map (fun e => Ok (OutEvent (Some e))) l ++ [Ok (OutEvent None)]) /\
  events c' = [] /\ settled c'.

Lemma settled_polls c : settled c -> error c = None -> exists c', polls_out (events c) c c'.
Proof. intros Hs He. exists (set_events [] c). split; [by apply poll_queue|]. by split. Qed.

(** A poll that fails on a connection without an error has settled it too. *)
Lemma poll_fails c c' e : error c = None -> poll_event c = Some (c', Err e) ->
  steady c c' /\ settled c' /\ error c' = match e with ConnectionError _ => Some e | _ => None end.
Proof.
  intros He. unfold poll_event, remember_connection_error, check_error_state.
  rewrite (bind_ok _ _ c c tt) by by rewrite gets_ok, He. unfold mbind at 1, action_bind.
  destruct (retry_blocked_streams c) as [[c1 [[]|e1]]|] eqn:E; [| |done]; destruct (retry_settles _ _ _ E) as (Hg & Hs & He1).
  - unfold run_method. by destruct (events c1).
  - rewrite He in He1. destruct e1; intros [= <- <-]; (split_and!; [|exact Hs|done]); (etrans; [exact Hg|by apply grows_same]).
Qed.
Lemma poll_succeeds c c' o : error c = None -> poll_event c = Some (c', Ok o) -> exists new c2, polls_out (events c ++ new) c c2.
Proof.
  intros Herr E. destruct (after_retry _ _ _ _ E) as [(e & Hno & _)|(c1 & Hs & He & [(new & Hg & _) _] & Ec & Er)]; [done|].
  exists new, (set_events [] c1). split; [|by split]. rewrite <- Hg, <- (poll_queue _ c1 Hs He eq_refl).
  rewrite replicate_S. cbn [run_ops run_op]. unfold returning, mbind at 3 6, action_bind.
  rewrite E, poll_settled by done. injection Er as ->. rewrite Ec. by destruct (events c1).
Qed.

(** C23. An application that polls comes to an end, from any state a connection can get into.
    On a connection that has ended with an error each poll returns that error. Otherwise
    polling hands out the events that were queued, in order, then those of the streams
    that can go on, and then none; after that every stream that is still registered as
    blocked on QPACK waits for more insertions than have arrived. Before it does so, at
    most one poll fails, on a stream that could go on: with a connection error, which ends
    the connection, or with another one, after which the queued events and those that
    came before the error are still handed out in order. The other streams that could go
    on then are no longer registered as blocked (the code forgets them), and nothing is
    claimed of them. *)
Theorem polling_ends r s c : settings_ok s -> reachable r s c ->
  match error c with
  | Some e => run_op OpPollEvent c = Some (c, Err e)
  | None => exists new,
      (exists c', polls_out (events c ++ new) c c') \/
      exists c1 e, run_op OpPollEvent c = Some (c1, Err e) /\ events c1 = events c ++ new /\
        match e with ConnectionError _ => error c1 = Some e | _ => exists c', polls_out (events c ++ new) c1 c' end
  end.
Proof.
  intros Hset Hr. destruct (run_op_safe OpPollEvent c (reachable_wf _ _ _ Hset Hr) I) as (c0 & r0 & E0 & _).
  cbn [run_op] in E0 |- *. rewrite returning_eq in E0 |- *. destruct (error c) as [e|] eqn:Herr.
  - unfold poll_event, remember_connection_error. rewrite (check_error_stops _ _ _ Herr). destruct e; try done. by rewrite set_error_same.
  - destruct (poll_event c) as [[c2 [o|e]]|] eqn:E; [| |done].
    + destruct (poll_succeeds _ _ _ Herr E) as (new & c' & Hp). exists new. left. by exists c'.
    + destruct (poll_fails _ _ _ Herr E) as ([(new & Hev & _) _] & Hs & He2). exists new. right. exists c2, e. split_and!; [done|done|].
      destruct e; [done|..]; rewrite <- Hev; by apply settled_polls.
Qed.

(** ** No call takes an event away *)
Lemma grows_push l c : forallb plain l = true -> steady c (push_events l c).
Proof. intros Hl. by apply queued_push. Qed.
Lemma grows_pushed l c c' : forallb plain l = true -> steady c c' -> steady c (push_events l c').
Proof. intros Hl H. etrans; [exact H|by apply grows_push]. Qed.
Lemma grows_then f c c' : (forall c, steady c (f c)) -> steady c c' -> steady c (f c').
Proof. intros Hf H. by etrans. Qed.
Lemma grows_fold {A} (f : Connection -> A -> Connection) l : (forall c x, steady c (f c x)) -> forall c, steady c (fold_left f l c).
Proof. intros Hf. induction l as [|x l IH]; intros c; [done|]. cbn [fold_left]. etrans; [apply Hf|apply IH]. Qed.

#[local] Notation growing := (keeps steady).
Ltac same_events := first
  [ by apply grows_same
  | apply grows_push; events_ok
  | apply grows_same; repeat case_match; reflexivity
  | apply qu_events; queue_step
  | repeat case_match; first [by apply grows_same | apply qu_events; queue_step | apply grows_pushed; [events_ok|by apply grows_same]]
  | apply queued_remove ].
Ltac growing_by H := apply keeps_grows, H.

Lemma terminate_grows id code close msg : growing (terminate_wt_session_with id code close msg).
Proof. growing_by terminate_quiet. Qed.
Lemma terminate_session_grows id : growing (terminate_wt_session id).
Proof. growing_by terminate_quiet. Qed.
Lemma terminate_flow_grows id : growing (terminate_flow_control id).
Proof. growing_by terminate_quiet. Qed.
Lemma handle_wt_connect_response_grows id headers : growing (handle_wt_connect_response id headers).
Proof. growing_by handle_wt_connect_response_quiet. Qed.
Lemma process_stream_frames_grows id : growing (process_stream_frames id).
Proof. growing_by process_stream_frames_quiet. Qed.
Lemma process_wt_capsule_data_grows id data : growing (process_wt_capsule_data id data).
Proof. growing_by process_wt_capsule_data_quiet. Qed.
Lemma wt_capsule_loop_grows fuel id : growing (wt_capsule_loop fuel id).
Proof. growing_by wt_capsule_loop_quiet. Qed.
Lemma retry_grows : growing retry_blocked_streams.
Proof. intros c c' r E. apply (retry_settles _ _ _ E). Qed.
#[export] Hint Resolve terminate_grows terminate_session_grows terminate_flow_grows handle_wt_connect_response_grows
  process_stream_frames_grows process_wt_capsule_data_grows wt_capsule_loop_grows retry_grows : keeps.

Lemma check_error_grows : growing check_error_state.
Proof. unfold check_error_state. keep_steps. Qed.
Lemma remember_grows {A} (m : action A) : growing m -> growing (remember_connection_error m).
Proof.
  intros Hm c c' r. unfold remember_connection_error. destruct (m c) as [[c1 [a|e]]|] eqn:E; [|destruct e|done];
    intros [= <- _]; (etrans; [exact (Hm _ _ _ E)|by apply grows_same]).
Qed.
Lemma returning_grows {A} (f : A -> output) (m : action A) : growing m -> growing (returning f m).
Proof. intros Hm. unfold returning. keep_steps. Qed.
#[export] Hint Resolve check_error_grows : keeps.

(** *** WebTransport streams *)
Lemma session_grows id s s' c : wt_sessions c !! id = Some s -> standing s' = standing s ->
  steady c (set_wt_sessions (<[id := s']> (wt_sessions c)) c).
Proof. intros Es E. apply queued_insert. rewrite Es. by apply goes_standing. Qed.
Lemma update_grows id f c : (forall s, standing (f s) = standing s) -> steady c (update_session id f c).
Proof. intros Hf. apply queued_update. intros s. by apply goes_standing. Qed.
Lemma remove_closed_grows b id c : steady c (remove_closed_stream c (id, b)).
Proof. apply grows_same. by destruct b. Qed.
Lemma append_grows a b d l c : steady c (fst (append_or_reject a b d l c)).
Proof.
  unfold append_or_reject. destruct (wt_sessions c !! d) as [s|] eqn:Es; [|done]. pose proof (append_buffered_state s b l) as Hs.
  destruct (append_buffered_stream_data _ _ _) as [s' []]; cbn [fst] in *; [by eapply session_grows|].
  apply (grows_pushed [_]); [done|]. etrans; [apply (remove_closed_grows a b)|]. apply (session_grows _ s); [by destruct a|].
  by rewrite take_entry_state.
Qed.
Lemma associate_grows id sid b c : steady c (fst (associate_or_buffer_stream id sid b c)).
Proof.
  unfold associate_or_buffer_stream. destruct (wt_sessions c !! sid) as [s|] eqn:Es.
  - destruct (ws_state s); try done; [|by apply update_grows].
    pose proof (buffer_stream_state s id b). destruct (buffer_stream _ _ _). by eapply session_grows.
  - case_bool_decide; [done|]. destruct (in_set _ _); [done|]. destruct (some_and _ _); [done|]. case_match; [done|].
    pose proof (buffer_stream_state wt_session_new id b) as Hb. destruct (buffer_stream _ _ _) as [s o]. injection Hb as _ Hf.
    apply queued_insert. rewrite Es. split; [by destruct (role c)|exact Hf].
Qed.
Lemma insert_grows b id sid c : steady c (insert_wt_stream b id sid c).
Proof. apply grows_same. by destruct b. Qed.
Lemma reject_grows b id code c : code <=? VARINT_MAX = true -> steady c (reject_stream id code (remove_closed_stream c (id, b))).
Proof. intros Hc. apply grows_pushed; [unfold plain; cbn; by rewrite Hc|apply remove_closed_grows]. Qed.
#[local] Hint Extern 0 (_ <=? _ = true) => reflexivity : core.
#[local] Hint Resolve append_grows associate_grows insert_grows remove_closed_grows reject_grows : core.

Lemma deliver_data_grows b id sid data : growing (deliver_data b id sid data).
Proof. unfold deliver_data, count_data. keep_steps; same_events. Qed.
#[export] Hint Resolve deliver_data_grows : keeps.
Lemma attach_stream_grows b id sid data : growing (attach_stream b id sid data).
Proof. unfold attach_stream, count_stream. keep_steps; auto; same_events. Qed.
#[export] Hint Resolve attach_stream_grows : keeps.
Lemma resolve_uni_grows id data : growing (resolve_wt_uni_stream_session_id id data).
Proof. unfold resolve_wt_uni_stream_session_id. keep_steps; same_events. Qed.
Lemma resolve_bidi_grows id data : growing (resolve_wt_bidi_stream_header id data).
Proof. unfold resolve_wt_bidi_stream_header. keep_steps; same_events. Qed.
#[export] Hint Resolve resolve_uni_grows resolve_bidi_grows : keeps.
Lemma close_remote_quiet b id sid c : queued c (close_remote_stream b id sid c).
Proof. apply queued_update. lives. Qed.
Lemma handle_known_bidi_grows id sid data fin : growing (handle_known_bidi id sid data fin).
Proof. unfold handle_known_bidi, count_data. keep_steps; auto; same_events. Qed.
#[export] Hint Resolve handle_known_bidi_grows : keeps.
Lemma finish_new_bidi_grows id c : steady c (finish_new_bidi id c).
Proof.
  unfold finish_new_bidi. apply (grows_then (set_pending_wt_bidi_streams _)); [intros; by apply grows_same|].
  destruct (wt_bidi_streams c !! id); [|done].
  destruct (session_pending _ _); [apply qu_events; queue_step|]. apply (grows_pushed [_]); [done|].
  apply (grows_then (close_remote_stream _ _ _)); [intros; apply close_remote_quiet|]. by apply grows_same.
Qed.
Lemma handle_wt_bidi_stream_grows id data fin : growing (handle_wt_bidi_stream id data fin).
Proof. unfold handle_wt_bidi_stream. keep_steps. apply finish_new_bidi_grows. Qed.
Lemma handle_wt_uni_data_grows id data : growing (handle_wt_uni_stream_data id data).
Proof. unfold handle_wt_uni_stream_data. keep_steps; auto. Qed.
Lemma handle_wt_uni_fin_grows id : growing (handle_wt_uni_stream_fin id).
Proof. unfold handle_wt_uni_stream_fin. keep_steps; same_events. Qed.
#[export] Hint Resolve handle_wt_bidi_stream_grows handle_wt_uni_data_grows handle_wt_uni_fin_grows : keeps.

(** *** What arrives *)
Lemma reject_pre_grows id c : steady c (reject_pre_negotiation id c).
Proof. apply grows_pushed; [done|by apply grows_same]. Qed.
Lemma buffer_pre_grows id data fin c : steady c (buffer_pre_negotiation_wt_bidi id data fin c).
Proof.
  unfold buffer_pre_negotiation_wt_bidi. case_match; [apply reject_pre_grows|]. case_match; [|by apply grows_same].
  apply grows_pushed; [done|by apply grows_same].
Qed.
#[local] Hint Resolve reject_pre_grows buffer_pre_grows : core.
Lemma dispatch_pending_grows b l : growing (dispatch_pending b l).
Proof. induction l as [|[id p] l IH]; cbn [dispatch_pending]; keep_steps; auto. Qed.
Lemma process_deferred_grows l : growing (process_deferred_list l).
Proof.
  induction l as [|[id h] l IH]; cbn [process_deferred_list]; unfold process_deferred_wt_connect; keep_steps;
    first [apply register_quiet|same_events].
Qed.
#[export] Hint Resolve dispatch_pending_grows process_deferred_grows : keeps.

Lemma send_set_capacity_grows n : growing (send_set_capacity n).
Proof. intros c c' r. unfold send_set_capacity. destruct (encode_set_capacity _ _). intros [= <- _]. by apply grows_same. Qed.
#[export] Hint Resolve send_set_capacity_grows : keeps.
Lemma handle_control_frame_grows f : growing (handle_control_frame f).
Proof.
  assert (forall p, growing (handle_settings p)) as Hs.
  { intros p. unfold handle_settings, apply_table_capacity, process_deferred_wt_connects, process_pending_wt_bidi_pre_negotiation.
    keep_steps; same_events. }
  assert (forall id, growing (handle_goaway id)) as Hg.
  { intros id. unfold handle_goaway. keep_steps; try same_events.
    apply grows_fold. intros c' x. apply qu_events. unfold drain_session. queue_step. }
  destruct f; cbn [handle_control_frame]; auto; unfold handle_max_push_id; keep_steps; same_events.
Qed.
Lemma process_control_grows : growing process_control.
Proof.
  intros c c' r. unfold process_control. destruct (control_process _) as [[s o]|]; [|done]. cbn. intros [= <- _].
  by apply grows_same.
Qed.
#[export] Hint Resolve handle_control_frame_grows process_control_grows : keeps.
Lemma control_stream_loop_grows fuel : growing (control_stream_loop fuel).
Proof. induction fuel as [|fuel IH]; cbn [control_stream_loop]; keep_steps. Qed.
Lemma process_encoder_grows : growing process_encoder_stream.
Proof. intros c c' r. unfold process_encoder_stream. destruct (process_all _ _) as [[s t] o]. intros [= <- _]. by apply grows_same. Qed.
Lemma process_decoder_grows : growing conn_process_decoder_stream.
Proof.
  intros c c' r. unfold conn_process_decoder_stream. destruct (process_decoder_stream _ _) as [[s t] o]. intros [= <- _].
  by apply grows_same.
Qed.
#[export] Hint Resolve control_stream_loop_grows process_encoder_grows process_decoder_grows : keeps.

Lemma handle_bidi_grows id data fin : growing (handle_bidirectional_stream id data fin).
Proof. unfold handle_bidirectional_stream. keep_steps; same_events. Qed.
#[export] Hint Resolve handle_bidi_grows : keeps.
Lemma dispatch_client_bidi_grows id data fin : growing (dispatch_client_bidi_stream id data fin).
Proof. unfold dispatch_client_bidi_stream. keep_steps; auto; same_events. Qed.
#[export] Hint Resolve dispatch_client_bidi_grows : keeps.
Lemma feed_bidirectional_grows id data fin kind : growing (feed_bidirectional id data fin kind).
Proof.
  unfold feed_bidirectional. keep_steps; auto. intros c c' r.
  destruct (handle_bidirectional_stream id data fin c) as [[c1 o]|] eqn:E; [|done]. cbn. intros [= <- _].
  etrans; [exact (handle_bidi_grows _ _ _ _ _ _ E)|apply queued_remove].
Qed.
Lemma check_critical_fin_grows id : growing (check_critical_fin id).
Proof. unfold check_critical_fin. keep_steps. Qed.
Lemma unless_empty_grows data m : growing m -> growing (unless_empty data m).
Proof. intros Hm. unfold unless_empty. keep_steps. Qed.
#[export] Hint Resolve feed_bidirectional_grows check_critical_fin_grows unless_empty_grows : keeps.
Lemma receive_control_grows data : growing (receive_control data).
Proof. unfold receive_control, process_control_stream. keep_steps; same_events. Qed.
Lemma receive_encoder_grows data : growing (receive_encoder data).
Proof. unfold receive_encoder. keep_steps; same_events. Qed.
Lemma receive_decoder_grows data : growing (receive_decoder data).
Proof. unfold receive_decoder. keep_steps; same_events. Qed.
#[export] Hint Resolve receive_control_grows receive_encoder_grows receive_decoder_grows : keeps.
Lemma handle_uni_grows id data fin : growing (handle_unidirectional_stream id data fin).
Proof.
  unfold handle_unidirectional_stream, handle_new_unidirectional_stream, open_uni_stream, finish_new_uni, finish_uni, receive_known_uni.
  keep_steps; try (apply unless_empty_grows; keep_steps); same_events.
Qed.
#[export] Hint Resolve handle_uni_grows : keeps.
Lemma feed_stream_grows id data fin : growing (feed_stream id data fin).
Proof.
  unfold feed_stream. keep_steps. apply remember_grows. keep_steps.
Qed.

Lemma cancellation_grows id : growing (send_stream_cancellation_if_needed id).
Proof. unfold send_stream_cancellation_if_needed. keep_steps; same_events. Qed.
Lemma clear_blocked_grows id c : steady c (clear_qpack_blocked id c).
Proof. unfold clear_qpack_blocked. repeat case_match; by apply grows_same. Qed.
#[export] Hint Resolve cancellation_grows : keeps.
Definition map_kept (m0 m : gmap Z WtSession) : Prop := forall i, standing <$> m !! i = standing <$> m0 !! i.
Lemma remove_from_sessions_kept id (m0 : gmap Z WtSession) l : Forall (fun x => m0 !! fst x = Some (snd x)) l -> forall m,
  map_kept m0 m -> map_kept m0 (fst (remove_from_sessions id l m)).
Proof.
  induction 1 as [|[j s] l Hj _ IH]; intros m Hm; cbn [remove_from_sessions]; [done|].
  pose proof (remove_buffered_state s id) as Es. destruct (remove_buffered_stream id s) as [s' found]. cbn [fst snd] in *.
  assert (map_kept m0 (<[j := s']> m)) as Hm'.
  { intros i. destruct (decide (j = i)) as [->|Hne]; [|by rewrite lookup_insert_ne; auto].
    rewrite lookup_insert_eq, Hj. cbn in *. by rewrite Es. }
  destruct found; [exact Hm'|]. by apply IH.
Qed.
Lemma remove_from_buffers_grows id c : steady c (fst (remove_from_buffers id c)).
Proof.
  unfold remove_from_buffers. pose proof (remove_from_sessions_kept id (wt_sessions c) (map_to_list (wt_sessions c))) as H.
  assert (Forall (fun x => wt_sessions c !! fst x = Some (snd x)) (map_to_list (wt_sessions c))) as Hl.
  { apply Forall_forall. by intros [i s] Hx%elem_of_map_to_list. }
  specialize (H Hl _ (fun _ => eq_refl)). destruct (remove_from_sessions _ _ _) as [m found]. apply queued_lives; [done|].
  intros i. specialize (H i). cbn [fst] in H. destruct (wt_sessions c !! i) as [s|] eqn:Es.
  - destruct (m !! i) as [s'|] eqn:Em; [|done]. apply (kept_change _ s'); [exact Em|]. rewrite Es. apply goes_standing.
    change (Some (standing s') = Some (standing s)) in H. congruence.
  - apply kept_elsewhere. cbn. rewrite Es. by destruct (m !! i).
Qed.
#[local] Hint Resolve clear_blocked_grows remove_from_buffers_grows queued_remove : core.
Lemma handle_wt_reset_grows id code n : growing (handle_wt_stream_reset id code n).
Proof.
  unfold handle_wt_stream_reset, reset_data_stream, account_wt_stream_reset. keep_steps; auto; same_events.
Qed.
Lemma handle_wt_stop_grows id code : growing (handle_wt_stop_sending id code).
Proof. unfold handle_wt_stop_sending. keep_steps; same_events. Qed.
#[export] Hint Resolve handle_wt_reset_grows handle_wt_stop_grows : keeps.
Lemma stream_reset_grows id code n : growing (stream_reset id code n).
Proof. apply remember_grows. keep_steps; auto; same_events. Qed.
Lemma stop_sending_grows id code : growing (stop_sending id code).
Proof. apply remember_grows. keep_steps; auto; same_events. Qed.
Lemma feed_datagram_grows data : growing (feed_datagram data).
Proof.
  unfold feed_datagram. apply keeps_bind; [exact _|keep_steps|]. intros _ c c' r. rewrite get_ok.
  destruct (negb (is_wt_fully_negotiated c)); [by intros [= <- _]|].
  unfold lift, throw_if, mbind, action_bind, throw, done_with, mret, action_ret.
  destruct (map_err _ (decode_datagram data)) as [[d n]|]; [|by intros [= <- _]]. cbn [fst].
  destruct (negb (_ =? _)); [by intros [= <- _]|].
  destruct (wt_sessions c !! dg_session_id d) as [s|] eqn:Es.
  - destruct (ws_state s); unfold modify, done_with, mret, action_ret; intros [= <- _]; same_events.
  - destruct (in_set _ _); [by intros [= <- _]|]. case_bool_decide; [by intros [= <- _]|].
    destruct (some_and _ _); [by intros [= <- _]|]. destruct (_ <=? _); [by intros [= <- _]|]. unfold modify.
    intros [= <- _]. apply queued_insert. rewrite Es. by destruct (role c).
Qed.

(** *** What is sent *)
Lemma consume_grows id n : growing (consume_stream_data id n).
Proof. unfold consume_stream_data. keep_steps; same_events. Qed.
Lemma get_stream_data_grows id : growing (get_stream_data id).
Proof. unfold get_stream_data. keep_steps; same_events. Qed.
#[export] Hint Resolve consume_grows get_stream_data_grows : keeps.
Lemma take_stream_data_grows id : growing (take_stream_data id).
Proof. unfold take_stream_data. keep_steps. Qed.
Lemma set_ids_grow id : growing (set_control_stream_id id) /\ growing (conn_set_encoder_stream_id id) /\ growing (conn_set_decoder_stream_id id).
Proof.
  unfold set_control_stream_id, conn_set_encoder_stream_id, conn_set_decoder_stream_id, validate_self_initiated_uni_stream_id.
  split_and!; keep_steps; same_events.
Qed.
Lemma init_grows a b d : growing (init_h3_streams a b d).
Proof.
  destruct (set_ids_grow a) as (Ha & _), (set_ids_grow b) as (_ & Hb & _), (set_ids_grow d) as (_ & _ & Hd).
  pose proof take_stream_data_grows. unfold init_h3_streams. keep_steps; auto.
Qed.
Definition as_told (c c' : Connection) : Prop := told c' = told c.
#[local] Instance as_told_preorder : PreOrder as_told.
Proof. split; [done|]. intros c1 c2 c3 H1 H2. unfold as_told in *. by rewrite H2, H1. Qed.
Lemma encode_attempts_told n headers blocked : forall size, keeps as_told (encode_attempts n headers blocked size).
Proof.
  induction n as [|n IH]; intros size; cbn [encode_attempts]; [keep_steps|]. intros c c' r.
  destruct (encode_section _ _ _) as [e run]. destruct (run _) as [buf [m|]]; [by intros [= <- _]|].
  unfold lift, mbind, action_bind. destruct (ok_or _ _); [|by intros [= <- _]]. intros E%IH. unfold as_told in *. by rewrite E.
Qed.
Lemma encode_headers_grows headers blocked : growing (encode_qpack_headers headers blocked).
Proof. intros c c' r E. apply grows_same. by eapply encode_attempts_told. Qed.
#[export] Hint Resolve encode_headers_grows : keeps.
(** A stream id is taken: the session of a CONNECT request is under it. *)
Definition asks (c c' : Connection) : Prop := told c' = told c \/
  role c = Client /\ events c' = events c /\ role c' = role c /\ local_settings c' = local_settings c /\ next_stream_id c < next_stream_id c' /\
  (unmetered (next_stream_id c) c -> unmetered (next_stream_id c) c') /\ forall id, id <> next_stream_id c -> wt_sessions c' !! id = wt_sessions c !! id.
Lemma asks_grows c c' : asks c c' -> grows c c'.
Proof.
  intros [H|(Hc & He & Hr & Hset & Hn & Hu & Hs)]; [apply (grows_same c c' H)|].
  exists []. rewrite app_nil_r. split; [done|]. split; [done|done|lia| |done| |done|].
  - intros id [Ho|Ho]; [congruence|]. intros Hl. left. unfold live in *. rewrite Hs by lia. done.
  - intros id _ Hx Hi. lia.
  - intros id _. destruct (decide (id = next_stream_id c)) as [->|Hne]; [exact Hu|].
    unfold unmetered, wt_session_flow_control_enabled. by rewrite Hs.
Qed.
(** What comes before. *)
Lemma told_then {A B} (P : Connection -> Prop) c0 c1 c' (m : action A) (f : A -> action B) r :
  (forall c2, told c2 = told c0 -> P c2) -> (m ≫= f) c1 = Some (c', r) -> keeps as_told m ->
  told c1 = told c0 -> (forall a c2, told c2 = told c0 -> f a c2 = Some (c', r) -> P c') -> P c'.
Proof.
  intros HP E Hm H1 Hf. unfold mbind, action_bind in E. destruct (m c1) as [[c2 [a|e]]|] eqn:Em; [| |done];
    (assert (told c2 = told c0) as H2 by (rewrite <- H1; by eapply Hm)); [by eapply Hf|].
  injection E as <- <-. by apply HP.
Qed.
Lemma told_ok {A B} (m : action A) (f : A -> action B) c c' b : (m ≫= f) c = Some (c', Ok b) -> keeps as_told m ->
  exists a c1, told c1 = told c /\ f a c1 = Some (c', Ok b).
Proof.
  intros E Hm. unfold mbind, action_bind in E. destruct (m c) as [[c1 [a|e]]|] eqn:Em; [|done..]. exists a, c1. split; [by eapply Hm|done].
Qed.
Lemma send_request_asks headers fin c c' r : send_request headers fin c = Some (c', r) -> asks c c'.
Proof.
  intros E. assert (forall c2, told c2 = told c -> asks c c2) as Hsame by (intros; by left).
  unfold send_request in E. apply (told_then (asks c) c _ _ _ _ _ Hsame E); [unfold check_error_state; solve [keep_steps]|done|clear E; intros _ c0 H0].
  rewrite get_ok. destruct (decide (role c0 = Client)) as [Hr|Hr]; [|rewrite bool_decide_false by done; intros [= <- _]; by apply Hsame].
  do 7 (intros E; apply (told_then (asks c) c _ _ _ _ _ Hsame E);
    [first [apply encode_attempts_told|solve [keep_steps]]|done|clear E; intros ? ? ?]).
  injection H0 as E0 E1 E2 E3 E4.
  destruct (checked_add (next_stream_id c0) 4) as [next|] eqn:En; [|done]. rewrite (expect_ok _ _ _ next eq_refl), modify_ok.
  match goal with H : told ?x = told c |- context [set_next_stream_id next ?x] => injection H as ? ? ? ? ? end.
  assert (next_stream_id c < next) as Hx by (unfold checked_add in En; case_match; simplify_eq; lia).
  set (c9 := set_next_stream_id next _).
  assert (forall c2, told c2 = told c9 -> asks c c2) as Hid.
  { intros c12 [= F1 F2 F3 F4 F5]. right. unfold unmetered, wt_session_flow_control_enabled. split_and!; congruence. }
  clear Hsame. assert (told c9 = told c9) as Hc9 by done. revert Hc9. generalize c9 at 1 3. intros c10 Hc9.
  do 3 (intros E; apply (told_then (asks c) c9 _ _ _ _ _ Hid E); [solve [keep_steps; reflexivity]|done|clear E Hc9; intros ? ? Hc9]).
  rewrite !modify_ok. intros [= <- _]. set (x := set_streams _ _). assert (told x = told c9) as Ex by done.
  unfold register_sent_connect. case_match; [|by apply Hid]. injection Ex as F1 F2 F3 F4 F5. right. cbn. split_and!; try congruence.
  { intros _. unfold unmetered, wt_session_flow_control_enabled. cbn. rewrite lookup_insert. case_decide; [|congruence]. unfold take_offer. by case_match. }
  intros id Hne. rewrite lookup_insert_ne by congruence. congruence.
Qed.
Lemma send_request_grows headers fin : keeps grows (send_request headers fin).
Proof. intros c c' r E. by eapply asks_grows, send_request_asks. Qed.
Lemma establish_server_grows id headers : growing (establish_wt_session_server id headers).
Proof. growing_by establish_server_quiet. Qed.
#[export] Hint Resolve establish_server_grows : keeps.
Lemma send_response_grows id headers fin : growing (send_response id headers fin).
Proof.
  unfold send_response. keep_steps; try same_events.
  unfold reject_session. case_match eqn:E; [|done]. apply queued_lives; [done|]. intros j.
  destruct (decide (id = j)) as [->|Hne]; [|by apply kept_elsewhere; cbn; rewrite lookup_delete_ne].
  apply kept_gone; [|by cbn; rewrite lookup_delete_eq]. apply andb_true_iff in E as [_ E]. unfold live.
  destruct (wt_sessions _ !! j); [|done]. cbn in *. apply bool_decide_eq_true in E. unfold live_state. by rewrite E.
Qed.
Lemma run_method_ok {A B} (m : Connection -> Connection * A) (f : A -> action B) c c1 a : m c = (c1, a) -> (run_method m ≫= f) c = f a c1.
Proof. intros E. unfold run_method, mbind, action_bind. by rewrite E. Qed.
(** A final response of success to a request for a session starts the session. *)
Definition pending_session (id : Z) (c : Connection) : bool := some_and (wt_sessions c !! id) (fun s => bool_decide (ws_state s = WtPending)).
Lemma establish_server_starts id headers c c' r : role c = Server -> is_success_status headers = true -> pending_session id c = true ->
  establish_wt_session_server id headers c = Some (c', r) -> exists c1, live id c1 = true /\ events c1 = events c /\ grows c1 c' /\ role c1 = Server.
Proof.
  intros Hr Hs Hp. unfold establish_wt_session_server. rewrite get_ok, bool_decide_true, Hs by done. cbn [negb orb].
  unfold pending_session in Hp. destruct (wt_sessions c !! id) as [s|] eqn:Es; [|done]. cbn [some_and] in Hp.
  assert (exists c1, establish_session id c = (c1, true) /\ live id c1 = true /\ events c1 = events c /\ role c1 = Server) as (c1 & E1 & Hl & He & Hr1).
  { unfold establish_session. rewrite Es, Hp. eexists. split; [reflexivity|]. split_and!; try done. unfold live. cbn. by rewrite lookup_insert_eq. }
  rewrite (run_method_ok _ _ _ _ _ E1). cbn [negb]. intros E. exists c1. split_and!; [done|done| |done].
  apply qu_events. revert E. apply announced_quiet; [intros b; keep_steps|done].
Qed.
Lemma pending_told id c c1 : told c1 = told c -> pending_session id c1 = pending_session id c.
Proof. intros [= _ Hs _ _ _]. unfold pending_session. by rewrite Hs. Qed.
Lemma send_response_starts id headers fin c c' : send_response id headers fin c = Some (c', Ok ()) -> is_success_status headers = true ->
  pending_session id c = true -> live id c' = true \/ existsb (says_closed id) (events c') = true.
Proof.
  intros E Hs Hp. unfold send_response in E. apply told_ok in E as (_ & c0 & H0 & E); [|unfold check_error_state; solve [keep_steps]].
  rewrite get_ok in E. destruct (decide (role c0 = Server)) as [Hr|Hr]; [|by rewrite bool_decide_false in E].
  do 9 (apply told_ok in E as (? & ? & ? & E); [|first [apply encode_attempts_told|solve [keep_steps; reflexivity]]]).
  rewrite modify_ok in E. match type of E with (_ ≫= _) (reject_session id headers ?x) = _ => set (c1 := x) in * end.
  assert (told c1 = told c /\ told c1 = told c0) as [Ht Ht0] by (split; congruence). rewrite <- (pending_told id c c1 Ht) in Hp.
  assert (role c1 = Server) as Hr1 by (injection Ht0; congruence).
  unfold reject_session in E. rewrite Hs, andb_false_r in E. cbn [andb] in E.
  unfold mbind at 1, action_bind at 1 in E. destruct (establish_wt_session_server id headers c1) as [[c2 [[]|e]]|] eqn:Ee; [|done..].
  destruct (establish_server_starts id headers c1 c2 _ Hr1 Hs Hp Ee) as (c3 & Hl & _ & (new & Hn & Hch) & Hr3).
  injection E as <-.
  destruct (ch_live _ _ _ Hch id (or_introl Hr3) Hl) as [Hx|Hx]; [by left|right]. change (existsb (says_closed id) (events c2) = true).
  by rewrite Hn, existsb_app, Hx, orb_true_r.
Qed.

Lemma send_body_grows id data fin : growing (conn_send_body id data fin).
Proof. apply remember_grows. keep_steps; same_events. Qed.
Lemma send_goaway_grows id : growing (conn_send_goaway id).
Proof. apply remember_grows. keep_steps; same_events. Qed.
Lemma send_datagram_grows id payload : growing (ConnWtStream.send_datagram id payload).
Proof. unfold ConnWtStream.send_datagram. keep_steps. Qed.
Lemma register_local_grows sid id : growing (register_local_wt_stream sid id).
Proof. unfold register_local_wt_stream. keep_steps; auto; same_events. Qed.
Lemma take_capsules_grows id c : steady c (fst (take_wt_pending_capsules id c)).
Proof. unfold take_wt_pending_capsules. destruct (wt_sessions c !! id) eqn:Es; [|done]. by eapply session_grows. Qed.

Lemma run_op_grows op : match op with
  | OpPollEvent | OpDrainEvents => True
  | OpSendRequest _ _ => keeps grows (run_op op)
  | _ => keeps steady (run_op op)
  end.
Proof.
  destruct op; try exact I; cbn [run_op]; try apply returning_grows.
  - by apply set_ids_grow.
  - apply init_grows.
  - apply feed_stream_grows.
  - keep_steps. same_events.
  - apply get_stream_data_grows.
  - apply take_stream_data_grows.
  - apply consume_grows.
  - pose proof (send_request_grows headers fin). unfold returning. keep_steps; auto.
  - apply send_response_grows.
  - apply send_body_grows.
  - apply send_goaway_grows.
  - apply stream_reset_grows.
  - apply stop_sending_grows.
  - apply feed_datagram_grows.
  - apply send_datagram_grows.
  - apply register_local_grows.
  - keep_steps. same_events.
  - unfold set_webtransport_transport_verified. keep_steps; same_events.
  - keep_steps. same_events.
  - keep_steps. apply take_capsules_grows.
Qed.

(** What the calls handed out. *)
Definition handed_out (rs : list (result Error output)) : list Event :=
  flat_map (fun r => match r with Ok (OutEvent (Some e)) => [e] | Ok (OutEvents l) => l | _ => [] end) rs.

(** [out] was taken from the front; what was added can be acted on. *)
Definition hands (out : list Event) (c c' : Connection) : Prop :=
  exists new, out ++ events c' = events c ++ new /\ changed new c c'.
Lemma hands_trans a b c c1 c2 : hands a c c1 -> hands b c1 c2 -> hands (a ++ b) c c2.
Proof.
  intros (l1 & H1 & O1) (l2 & H2 & O2). exists (l1 ++ l2). split; [by rewrite <- app_assoc, H2, !app_assoc, H1|].
  by eapply changed_trans.
Qed.

(** The two calls that hand events out: those at the front of the queue. *)
Lemma changed_events new l c c' : changed new c c' -> changed new c (set_events l c').
Proof. by intros [A1 A2 A3 A4 A5 A6 A7 A8]. Qed.
Lemma poll_steady c c' r : run_op OpPollEvent c = Some (c', r) -> hands (handed_out [r]) c c' /\ same_next c c'.
Proof.
  cbn [run_op]. unfold returning, mbind, action_bind. destruct (poll_event c) as [[c2 r2]|] eqn:E; [|done].
  destruct (after_retry _ _ _ _ E) as [(e & -> & Hg)|(c1 & _ & _ & [(l & Hg & Hl) Hn] & -> & ->)]; [by intros [= <- <-]|].
  destruct (events c1) eqn:Ev; cbn; intros [= <- <-]; (split; [exists l; rewrite <- Hg, ?Ev; (split; [done|])|exact Hn]);
    first [done|by apply changed_events].
Qed.
Lemma drain_steady c c' r : run_op OpDrainEvents c = Some (c', r) -> hands (handed_out [r]) c c' /\ same_next c c'.
Proof.
  cbn [run_op]. unfold returning, mbind, action_bind. destruct (drain_events c) as [[c2 r2]|] eqn:E; [|done].
  destruct (after_retry _ _ _ _ E) as [(e & -> & Hg)|(c1 & _ & _ & [(l & Hg & Hl) Hn] & -> & ->)]; intros [= <- <-]; [done|].
  split; [|exact Hn]. exists l. rewrite <- Hg. split; [cbn; by rewrite !app_nil_r|by apply changed_events].
Qed.
Lemma drain_grows c c' r : run_op OpDrainEvents c = Some (c', r) -> hands (handed_out [r]) c c'.
Proof. apply drain_steady. Qed.
Lemma other_grows op c c' r : match op with OpPollEvent | OpDrainEvents => False | _ => True end ->
  run_op op c = Some (c', r) -> handed_out [r] = [] /\ grows c c'.
Proof.
  intros Hop E. pose proof (run_op_grows op) as Hg. split.
  - destruct op; try done; cbn [run_op] in E; unfold returning, mbind, action_bind in E;
      match type of E with match ?x with _ => _ end = _ => destruct x as [[? [?|?]]|] end; try done; by injection E as <- <-.
  - destruct op; try done; first [by eapply Hg|by apply (Hg _ _ _ E)].
Qed.
Lemma run_op_hands op c c' r : run_op op c = Some (c', r) -> hands (handed_out [r]) c c'.
Proof.
  intros E. destruct op; first [by eapply poll_steady|by eapply drain_steady|
    edestruct other_grows as [-> ?]; [|exact E|done]; exact I].
Qed.

Lemma run_ops_fifo ops : forall c c' rs, run_ops ops c = Some (c', rs) -> hands (handed_out rs) c c'.
Proof.
  induction ops as [|op ops IH]; intros c c' rs; cbn [run_ops]; [intros [= <- <-]; by apply (reflexivity (R := grows))|].
  destruct (run_op op c) as [[c1 r]|] eqn:E; [|done]. cbn [mbind option_bind].
  destruct (run_ops ops c1) as [[c2 rs2]|] eqn:E2; [|done]. cbn [mbind option_bind]. intros [= <- <-].
  change (handed_out (r :: rs2)) with (handed_out ([r] ++ rs2)). unfold handed_out. rewrite flat_map_app.
  apply (hands_trans _ _ _ c1); [by eapply run_op_hands|by apply IH].
Qed.

(** Stream ids are taken by requests only. *)
Definition is_request (op : conn_op) : bool := match op with OpSendRequest _ _ => true | _ => false end.
Lemma run_ops_next ops : forall c c' rs, existsb is_request ops = false -> run_ops ops c = Some (c', rs) -> same_next c c'.
Proof.
  induction ops as [|op ops IH]; intros c c' rs; cbn [run_ops existsb]; [by intros _ [= <- _]|]. intros [Hop Hops]%orb_false_iff.
  destruct (run_op op c) as [[c1 r]|] eqn:E; [|done]. cbn [mbind option_bind].
  destruct (run_ops ops c1) as [[c2 rs2]|] eqn:E2; [|done]. cbn [mbind option_bind]. intros [= <- _].
  etrans; [|by eapply IH]. pose proof (run_op_grows op) as Hg.
  destruct op; first [done|by apply (Hg _ _ _ E)|by eapply poll_steady|by eapply drain_steady].
Qed.

(** In every state, the codes in the events that wait are codes for a stream. *)
Lemma reachable_events_ok r s c : reachable r s c -> forallb event_ok (events c) = true.
Proof.
  induction 1 as [c Hc|c c' _ IH (op & res & _ & Hop)].
  - revert Hc. unfold conn_new. destruct (ok _) as [d|]; [|done]. cbn [mbind option_bind].
    destruct (send_settings _ _); [|done]. by intros [= <-].
  - destruct (run_op_hands _ _ _ _ Hop) as (new & En & Hch). pose proof (ch_ok _ _ _ Hch) as Hn.
    assert (forallb event_ok (events c ++ new) = true) as Hall by by rewrite forallb_app, IH, Hn.
    rewrite <- En, forallb_app in Hall. by apply andb_true_iff in Hall as [_ ?].
Qed.

(** The limits a connection was opened with stay, and without any no session has flow
    control. *)
Lemma reachable_unmetered r s c : reachable r s c ->
  wt_settings (local_settings c) = wt_settings s /\ (some_and (wt_settings s) declares_flow_control = false -> forall id, unmetered id c).
Proof.
  induction 1 as [c Hc|c c' _ [IHs IH] (op & res & _ & Hop)].
  - revert Hc. unfold conn_new. destruct (ok (from_limits default_limits)) as [d|] eqn:Ed; [|done]. cbn [mbind option_bind].
    destruct (send_settings _ _); [|done]. intros [= <-]. vm_compute in Ed. injection Ed as <-. split; [cbn; by destruct (wt_settings s)|done].
  - destruct (run_op_hands _ _ _ _ Hop) as (new & _ & Hch). split; [by rewrite (ch_settings _ _ _ Hch)|]. intros Hn id.
    apply (ch_flow _ _ _ Hch); [|by apply IH]. unfold no_flow, local_wt. by rewrite IHs.
Qed.

(** Events are a queue: whatever calls are made on a connection, what they handed out
    and what is still queued is what was queued at first, in its order, followed by what
    was added since; a call that hands nothing out takes nothing away. *)
Theorem events_fifo ops : forall c c' rs, run_ops ops c = Some (c', rs) ->
  exists new, handed_out rs ++ events c' = events c ++ new.
Proof. intros c c' rs Hrun. destruct (run_ops_fifo _ _ _ _ Hrun) as (new & H & _). by exists new. Qed.

(** C22. No WebTransport session ends without the application being told: whatever calls are
    made on a connection, a session that was established (or draining) on a stream that has
    been opened is so still, or a [SessionClosed] for it is among the events that the calls
    added: it was handed out, or it waits to be. *)
Theorem session_end_told ops : forall c c' rs id, run_ops ops c = Some (c', rs) -> opened id c -> live id c = true ->
  exists new, handed_out rs ++ events c' = events c ++ new /\ (live id c' = true \/ existsb (says_closed id) new = true).
Proof.
  intros c c' rs id Hrun Ho Hl. destruct (run_ops_fifo _ _ _ _ Hrun) as (new & H & Hch). exists new. split; [done|].
  by apply (ch_live _ _ _ Hch).
Qed.

(** ** Witnesses *)

(** A client that has received SETTINGS and a GOAWAY, and has not asked for events. *)
Definition listening_client : list conn_op :=
  [OpInitH3Streams 2 6 10; OpSendRequest get_headers true; OpFeedStream 3 [0x00; 0x04; 0x00; 0x07] false;
   OpFeedStream 3 [0x01; 0x08] false].

Lemma polling_ends_witness :
  exists c, state_after Client settings_new listening_client = Some c /\ error c = None /\ exists new,
    (exists c', polls_out (events c ++ new) c c') \/
    exists c1 e, run_op OpPollEvent c = Some (c1, Err e) /\ events c1 = events c ++ new /\
      match e with ConnectionError _ => error c1 = Some e | _ => exists c', polls_out (events c ++ new) c1 c' end.
Proof.
  destruct (state_after Client settings_new listening_client) as [c|] eqn:E; [|vm_compute in E; discriminate].
  assert (error c = None) as He by (vm_compute in E; injection E as <-; reflexivity).
  assert (reachable Client settings_new c) as Hr.
  { apply (state_after_reachable _ _ listening_client); [vm_compute; reflexivity|exact E]. }
  exists c. split; [reflexivity|]. split; [exact He|].
  pose proof (polling_ends Client settings_new c ltac:(repeat split) Hr) as H. rewrite He in H. exact H.
Defined.

Lemma events_fifo_witness :
  exists c c' rs, state_after Client settings_new listening_client = Some c /\
    run_ops [OpPollEvent; OpFeedStream 3 [0x07; 0x01; 0x04] false; OpDrainEvents] c = Some (c', rs) /\
    exists new, handed_out rs ++ events c' = events c ++ new.
Proof.
  destruct (state_after Client settings_new listening_client) as [c|] eqn:E; [|vm_compute in E; discriminate].
  destruct (run_ops [OpPollEvent; OpFeedStream 3 [0x07; 0x01; 0x04] false; OpDrainEvents] c) as [[c' rs]|] eqn:E2.
  - exists c, c', rs. split; [reflexivity|]. split; [exact E2|]. exact (events_fifo _ _ _ _ E2).
  - exfalso. vm_compute in E. injection E as <-. vm_compute in E2. discriminate.
Defined.

(** A client whose session the server has accepted. *)
Definition wt_offer : Settings := enable_webtransport_client settings_new (for_draft_versions [Draft02; Draft07; Draft14; Draft15; Draft17] 1).
Definition wt_request : list Header :=
  [mkHeader (str ":method") (str "CONNECT") false; mkHeader (str ":protocol") (str "webtransport-h3") false;
   mkHeader (str ":scheme") (str "https") false; mkHeader (str ":authority") (str "example.com") false;
   mkHeader (str ":path") (str "/") false].
Definition peer_offer : bytes :=
  [0x00; 0x04; 46; 1; 80; 0; 6; 128; 0; 64; 0; 7; 64; 100; 8; 1; 51; 1; 172; 124; 240; 0; 1; 160; 184; 147; 59; 1; 171; 96; 55; 66;
   1; 192; 0; 0; 0; 198; 113; 112; 106; 1; 148; 233; 205; 41; 1; 33; 0].
Definition session_client : list conn_op :=
  [OpInitH3Streams 2 6 10; OpSetTransportVerified true true; OpFeedStream 3 peer_offer false; OpSendRequest wt_request false;
   OpFeedStream 0 [0x01; 0x03; 0x00; 0x00; 0xd9] false; OpDrainEvents].

(** The server ends the CONNECT stream. *)
Lemma session_end_told_witness :
  exists c c' rs, state_after Client wt_offer session_client = Some c /\ live 0 c = true /\
    run_ops [OpFeedStream 0 [] true] c = Some (c', rs) /\ live 0 c' = false /\
    exists new, handed_out rs ++ events c' = events c ++ new /\ existsb (says_closed 0) new = true.
Proof.
  destruct (state_after Client wt_offer session_client) as [c|] eqn:E; [|vm_compute in E; discriminate].
  destruct (run_ops [OpFeedStream 0 [] true] c) as [[c' rs]|] eqn:E2.
  - assert (live 0 c = true /\ live 0 c' = false /\ next_stream_id c = 4) as (Hl & Hd & Hn).
    { vm_compute in E. injection E as <-. vm_compute in E2. injection E2 as <- _. vm_compute. repeat split. }
    exists c, c', rs. split; [reflexivity|]. split; [exact Hl|]. split; [exact E2|]. split; [exact Hd|].
    destruct (session_end_told [OpFeedStream 0 [] true] c c' rs 0 E2) as (new & Hnew & [Hx|Hx]); [right; lia|exact Hl|congruence|].
    exists new. split; [exact Hnew|exact Hx].
  - exfalso. vm_compute in E. injection E as <-. vm_compute in E2. discriminate.
Defined.
