(* ===== verification/ConnExchange.v ===== *)
(** Two connections put together: a message that one of them sends on a request stream is
    what the other reports, whatever the chunks it arrives in. No code of its own.

    The first half is the receiving connection: [stage] says how much of a message it has
    taken in, and every chunk moves it on. The second half is the sending connection,
    whose requests and responses are frames of that form. *)

From Stdlib Require Import String Ascii.
From S2P Require Import Prelude Codec Varint Wire Header DynamicTable QpackEncoder QpackDecoder Qpack Settings Frame Error Stream WtStream FrameStream ControlStream RequestStream Validation Capsule Event WtSession Connection ConnInvariant ConnNegotiation ConnWtSession ConnWtStream ConnReceive ConnSafety ConnSend ConnSendSafety ConnRun.

(** ** The frame at the front of the buffer *)
Lemma consume_front b frame rest : q_wf b -> recv_peek b = frame ++ rest ->
  exists b', recv_consume b (len frame) = Some b' /\ q_wf b' /\ recv_peek b' = rest /\ recv_fin b' = recv_fin b.
Proof.
  intros Hw Hp. destruct (q_consume_fits b (len frame) Hw) as (b' & E & Hw' & Hp').
  { cbn [q_peek recv_queue]. rewrite Hp, len_app. pose proof (len_nonneg rest). pose proof (len_nonneg frame). lia. }
  cbn [q_consume q_peek recv_queue] in E, Hp'. exists b'. split_and!; [done..| |].
  - by rewrite Hp', Hp, drop_z_app_len.
  - revert E. unfold recv_consume. destruct (drain_half _ _) as [[? ?]|]; [|done]. by intros [= <-].
Qed.

Lemma frame_not_empty f rest : frame_encodable f -> exists x l, frame_bytes f ++ rest = x :: l.
Proof.
  intros (Hok & Hl & _). pose proof (frame_type_ok f Hok) as Ht. pose proof (encoded_len_pos (frame_type f)).
  unfold frame_bytes. rewrite <- !app_assoc. destruct (encode_raw (frame_type f)) as [|x l] eqn:E; [|by eexists _, _].
  pose proof (len_encode_raw _ Ht) as H'. rewrite E, len_nil in H'. lia.
Qed.

(** [process_raw] on a whole frame that is delivered. *)
Lemma process_raw_frame s f rest s' ev : q_wf (rq_recv_buf s) -> frame_encodable f -> frame_type f <> 0x04 ->
  recv_peek (rq_recv_buf s) = frame_bytes f ++ rest ->
  handle_frame (processed s) f = (s', Ok (Some ev)) ->
  exists b, process_raw s = Some (with_recv_buf s' b, Ok (Some ev)) /\
    q_wf b /\ recv_peek b = rest /\ recv_fin b = recv_fin (rq_recv_buf s).
Proof.
  intros Hw Hf Ht Hp Hh. destruct (consume_front _ _ _ Hw Hp) as (b & Eb & Hb). exists b. split; [|done].
  unfold process_raw. cbn [process_raw_loop]. destruct (frame_not_empty f rest Hf) as (x & l & E). rewrite Hp, E, <- E.
  pose proof (parse_request_frame s f rest Hf Ht) as Hr. unfold parse_request in Hr.
  destruct (read_request_frame s (frame_bytes f ++ rest)) as [[g n]|]; [|done]. injection Hr as -> _ ->.
  rewrite Eb. cbn [mbind option_bind].
  change (with_recv (with_recv_buf s b) _ _ _ true) with (with_recv_buf (processed s) b).
  by rewrite handle_frame_buf, Hh.
Qed.

(** ... and when there is no whole frame left. *)
Lemma process_raw_waits s : recv_fin (rq_recv_buf s) = false ->
  parse_request s (recv_peek (rq_recv_buf s)) = Err None -> process_raw s = Some (s, Ok None).
Proof.
  intros Hf Hp. unfold process_raw. cbn [process_raw_loop]. rewrite Hf. destruct (recv_peek (rq_recv_buf s)) as [|x l] eqn:E; [done|].
  rewrite <- E in *. unfold parse_request in Hp.
  by destruct (read_request_frame s (recv_peek (rq_recv_buf s))) as [[g n]|[e|]].
Qed.

(** A piece of a frame is not one. *)
Lemma parse_request_piece s f piece rest : frame_encodable f -> frame_type f <> 0x04 -> rest <> [] ->
  frame_bytes f = piece ++ rest -> parse_request s piece = Err None.
Proof.
  intros Hf Ht Hr E. assert (bytes_ok (frame_bytes f)) as Hb by (apply frame_bytes_ok, Hf).
  rewrite E in Hb. apply bytes_ok_app in Hb as [Hp _].
  assert (parse_request s piece <> Err None -> False) as H.
  2: { destruct (parse_request s piece) as [?|[?|]]; try done; by destruct H. }
  intros Hne. pose proof (parse_request_stable s piece rest Hp Hne) as Hs. pose proof (parse_request_frame s f [] Hf Ht) as Hw.
  rewrite app_nil_r, E, Hs in Hw. apply parse_request_consumed in Hw as [_ Hw]; [|done].
  rewrite len_app in Hw. destruct rest; [done|]. rewrite len_cons in Hw. pose proof (len_nonneg rest). lia.
Qed.

(** What has arrived of a sequence of frames: some whole ones, and a piece of the next. *)
Lemma cut_frames fs : Forall (fun f => frame_encodable f) fs -> forall arrived rest,
  arrived ++ rest = concat (map frame_bytes fs) ->
  exists whole left piece, fs = whole ++ left /\ arrived = concat (map frame_bytes whole) ++ piece /\
    piece ++ rest = concat (map frame_bytes left) /\
    forall s, Forall (fun f => frame_type f <> 0x04) fs -> parse_request s piece = Err None.
Proof.
  induction 1 as [|f fs Hf _ IH]; intros arrived rest; cbn [map concat].
  { intros [-> ->]%app_nil. by exists [], [], []. }
  intros E. apply app_eq_app in E as (l & [[E1 E2]|[E1 E2]]).
  - symmetry in E2. destruct (IH l rest E2) as (whole & left & piece & -> & -> & Ep & Hs).
    exists (f :: whole), left, piece. split_and!; [done| |done|].
    + rewrite E1. cbn [map concat]. by rewrite app_assoc.
    + intros s Ht. inversion Ht. by apply Hs.
  - destruct l as [|x l].
    + rewrite app_nil_r in E1. cbn [app] in E2. destruct (IH [] (concat (map frame_bytes fs)) eq_refl) as (whole & left & piece & Ef & Ea & Ep & Hs).
      symmetry in Ea. apply app_nil in Ea as [Ea ->]. exists [f], fs, []. split_and!; [done| |by rewrite E2|done].
      cbn. by rewrite !app_nil_r, E1.
    + exists [], (f :: fs), arrived. split_and!; [done|done|cbn [map concat]; by rewrite E1, E2, app_assoc|].
      intros s Ht. inversion Ht. by apply (parse_request_piece s f arrived (x :: l)).
Qed.

(** ** Taking in a message *)
Definition with_events (l : list Event) (c c' : Connection) : Prop := events c' = events c ++ l.

(** What a stream does not touch of its connection. *)
Definition context (c : Connection) :=
  (role c, error c, limits c, last_sent_goaway_id c,
   (closed_wt_sessions c, wt_sessions c, deferred_wt_connects c),
   (wt_bidi_streams c, pending_wt_bidi_streams c, pending_bidi_dispatch c,
    pending_wt_bidi_pre_negotiation c, ignored_pre_negotiation_wt_bidi c),
   (blocked_by_ricnt c, insert_count (dec_table (qpack_dynamic_decoder c)))).

(** The stream is one for requests, and not in use for WebTransport. *)
Record ordinary (id : Z) (c : Connection) : Prop := {
  or_error : error c = None;
  or_kind : from_stream_id id = Some ClientBidi;
  or_bidi : wt_bidi_streams c !! id = None;
  or_pending : pending_wt_bidi_streams c !! id = None;
  or_dispatch : pending_bidi_dispatch c !! id = None;
  or_ignored : in_set (ignored_pre_negotiation_wt_bidi c) id = false;
  or_early : pending_wt_bidi_pre_negotiation c !! id = None;
  or_closed : in_set (closed_wt_sessions c) id = false;
  or_session : wt_sessions c !! id = None;
  or_deferred : deferred_wt_connects c !! id = None }.

Lemma ordinary_context id c c' : context c' = context c -> ordinary id c -> ordinary id c'.
Proof.
  unfold context. intros [= ? ? ? ? ? ? ? ? ? ? ? ? ? ?] []. split; try congruence; unfold in_set in *; by congruence.
Qed.

Lemma establish_nothing id c : wt_sessions c !! id = None ->
  run_method (establish_session id) c = Some (c, Ok false).
Proof. intros Hn. unfold run_method, establish_session. by rewrite Hn. Qed.

Section delivery.
Context (id : Z) (enc : bytes) (hs : list Header) (ds : list bytes) (c0 : Connection) (taken : list Event).

(** Of the events that came after those of [c0], some have been taken. *)
Definition so_far (l : list Event) (c : Connection) : Prop := taken ++ events c = events c0 ++ l.
Lemma so_far_with l ev c c' : with_events ev c c' -> so_far l c -> so_far (l ++ ev) c'.
Proof using. unfold with_events, so_far. intros -> H. by rewrite !app_assoc, H. Qed.

Definition message_frames : list Frame := Headers enc :: map Data ds.
Definition delivered (n : nat) : list Event := header_events id hs ++ map (EvData id) (take n ds).

(** The message is one the receiver takes. *)
Record acceptable (limit : Z) (head : bool) : Prop := {
  ac_frames : Forall (fun f => frame_encodable f) message_frames;
  ac_decodes : snd (decode_section (qpack_dynamic_decoder c0) enc) = Ok (Decoded hs);
  ac_valid : validate_headers hs (role c0) = Ok ();
  ac_plain : is_webtransport_connect hs = false;
  ac_final : role c0 = Client -> is_informational_status hs = false;
  ac_limit : len (concat ds) <= limit < U64_MAX;
  ac_length : validate_content_length hs (len (concat ds))
    (bool_decide (role c0 = Client) && (head || is_no_body_status hs)) = Ok () }.
Context (limit : Z) (head : bool) (Hok : acceptable limit head) (Hord : ordinary id c0).

(** What is left of the message, and what the stream and the connection are like. *)
Inductive stage_at (c : Connection) (s : RequestStream) : list Frame -> list Event -> Prop :=
| stage_headers : rq_recv_state s = WaitingHeaders -> rq_recv_body s = [] ->
    qpack_dynamic_decoder c = qpack_dynamic_decoder c0 -> stage_at c s message_frames []
| stage_body n : rq_recv_state s = ReceivingBody -> rq_recv_headers s = hs -> (n <= length ds)%nat ->
    rq_recv_body s = concat (take n ds) -> stage_at c s (map Data (drop n ds)) (delivered n).

Record stage (fin : bool) (buf : bytes) (left : list Frame) (c : Connection) (s : RequestStream) : Prop := {
  sg_stream : streams c !! id = Some s;
  sg_context : context c = context c0;
  sg_wf : q_wf (rq_recv_buf s);
  sg_buf : recv_peek (rq_recv_buf s) = buf;
  sg_fin : recv_fin (rq_recv_buf s) = fin;
  sg_open : rq_state s = Open \/ rq_state s = LocalClosed;
  sg_blocked : rq_qpack_blocked s = false;
  sg_wt : rq_is_wt_connect s = false;
  sg_head : rq_is_head_request s = head;
  sg_limit : rq_max_received_body_size s = limit;
  sg_at : exists l, stage_at c s left l /\ so_far l c }.

(** What a header section that is not for WebTransport does to the connection. *)
Lemma emit_header_events_plain c s : context c = context c0 -> streams c !! id = Some s ->
  exists c', emit_header_events id hs false c = Some (c', Ok ()) /\ context c' = context c /\
    with_events (header_events id hs) c c' /\
    streams c' !! id = Some (set_recv_headers (note_headers (role c) hs s) hs).
Proof using Hok Hord.
  intros Hc Hs. pose proof (ordinary_context _ _ _ Hc Hord) as Ho. assert (role c = role c0) as Hr by (by injection Hc).
  unfold emit_header_events. rewrite get_ok, (lift_ok tt), (lift_ok tt).
  2: { unfold validate_wt_connect_request_server. by rewrite (ac_plain _ _ Hok), orb_true_r. }
  2: { rewrite Hr. apply Hok. }
  rewrite (ac_plain _ _ Hok), andb_false_r, modify_ok.
  assert (register_wt_connect_session id hs c = c) as ->.
  { unfold register_wt_connect_session. by rewrite (ac_plain _ _ Hok), orb_true_r. }
  rewrite modify_ok. set (c1 := update_stream id (note_headers (role c) hs) c).
  assert (handle_wt_connect_response id hs c1 = Some (c1, Ok ())) as E.
  { unfold handle_wt_connect_response. rewrite get_ok. destruct (_ || _); [done|].
    assert (wt_sessions c1 !! id = None) as Hn by apply Ho. unfold has_key. rewrite Hn, !throw_if_ok by done.
    cbn [some_and]. by rewrite (bind_ok _ _ _ _ _ (establish_nothing _ _ Hn)). }
  rewrite (bind_ok _ _ _ _ _ E), modify_ok. eexists. split; [done|].
  unfold publish_headers, send_section_ack_if_needed.
  split; [|split].
  - by repeat case_match.
  - unfold with_events. by repeat case_match.
  - repeat case_match; cbn; rewrite lookup_alter_eq, lookup_alter_eq, Hs; done.
Qed.
Lemma process_raw_here c s s' res : streams c !! id = Some s -> process_raw s = Some (s', res) ->
  process_stream_raw id c = Some (set_streams (<[id := s']> (streams c)) c, res).
Proof using. intros Hs Hp. unfold process_stream_raw. rewrite Hs. cbn [mbind option_bind]. by rewrite Hp. Qed.

(** One round of the loop takes one frame. *)
Lemma round_ok c s s' ev n c' : streams c !! id = Some s -> process_raw s = Some (s', Ok (Some ev)) ->
  handle_received id ev (set_streams (<[id := s']> (streams c)) c) = Some (c', Ok false) ->
  stream_loop (S n) id c = stream_loop n id c'.
Proof using.
  intros Hs Hp Hh. cbn [stream_loop]. rewrite (bind_ok _ _ _ _ _ (process_raw_here _ _ _ _ Hs Hp)).
  by rewrite (bind_ok _ _ _ _ _ Hh).
Qed.

Lemma decode_here c : qpack_dynamic_decoder c = qpack_dynamic_decoder c0 ->
  exists d, decode_headers enc c = Some (set_qpack_dynamic_decoder d c, Ok (Decoded hs)) /\
    dec_table d = dec_table (qpack_dynamic_decoder c).
Proof using Hok.
  intros Hd. unfold decode_headers. rewrite Hd. pose proof (ac_decodes _ _ Hok) as H.
  pose proof (decode_section_table (qpack_dynamic_decoder c0) enc) as Ht.
  destruct (decode_section _ enc) as [d r]. cbn [snd fst] in H, Ht. rewrite H. by exists d.
Qed.

Lemma receive_headers c s : context c = context c0 -> streams c !! id = Some s ->
  qpack_dynamic_decoder c = qpack_dynamic_decoder c0 ->
  exists c', handle_received id (RawHeaders enc) c = Some (c', Ok false) /\ context c' = context c /\
    with_events (header_events id hs) c c' /\
    streams c' !! id = Some (set_recv_headers (note_headers (role c) hs s) hs).
Proof using Hok Hord.
  intros Hc Hs Hd. destruct (decode_here c Hd) as (d & Ed & Ht). set (c1 := set_qpack_dynamic_decoder d c) in *.
  assert (context c1 = context c) as Hc1 by (unfold context; cbn; by rewrite Ht).
  destruct (emit_header_events_plain c1 s) as (c2 & E2 & Hc2 & He2 & Hs2); [by rewrite Hc1|done|].
  exists c2. cbn [handle_received]. unfold receive_section. rewrite (bind_ok _ _ _ _ _ Ed), (bind_ok _ _ _ _ _ E2), Hc2. done.
Qed.

Lemma receive_data c d : context c = context c0 ->
  handle_received id (RawData d) c = Some (push_event (EvData id d) c, Ok false).
Proof using Hord.
  intros Hc. pose proof (ordinary_context _ _ _ Hc Hord) as Ho. cbn [handle_received].
  assert (handle_wt_data_frame id d c = Some (c, Ok false)) as E; [|by rewrite (bind_ok _ _ _ _ _ E)].
  unfold handle_wt_data_frame. rewrite get_ok. unfold has_key. rewrite (or_deferred _ _ Ho), (or_session _ _ Ho), (or_closed _ _ Ho).
  done.
Qed.

(** Whatever is noted of the headers, DATA frames can follow. *)
Lemma note_headers_final r s : (r = Client -> is_informational_status hs = false) ->
  let s' := note_headers r hs s in
  rq_recv_state s' = rq_recv_state s /\ rq_state s' = rq_state s /\ rq_qpack_blocked s' = rq_qpack_blocked s /\
  rq_is_wt_connect s' = rq_is_wt_connect s /\ rq_is_head_request s' = rq_is_head_request s /\
  rq_max_received_body_size s' = rq_max_received_body_size s /\ rq_recv_body s' = rq_recv_body s /\
  rq_recv_buf s' = rq_recv_buf s.
Proof using. intros Hi. unfold note_headers. destruct r; [rewrite Hi by done|]; by case_match. Qed.

Lemma message_frames_types : Forall (fun f => frame_type f <> 0x04) message_frames.
Proof using. constructor; [done|]. by apply Forall_map, Forall_true. Qed.
Lemma body_fits n d : (ds !! n) = Some d -> len (concat (take n ds)) + len d <= limit.
Proof using Hok.
  intros Hd. rewrite <- len_app. replace (concat (take n ds) ++ d) with (concat (take (S n) ds)).
  2: { rewrite (take_S_r _ _ _ Hd), concat_app. cbn. by rewrite app_nil_r. }
  pose proof (ac_limit _ _ Hok). rewrite <- (take_drop (S n) ds), concat_app, len_app in H.
  pose proof (len_nonneg (concat (drop (S n) ds))). lia.
Qed.

Lemma headers_step fin buf c s : stage fin (frame_bytes (Headers enc) ++ buf) message_frames c s ->
  rq_recv_state s = WaitingHeaders -> rq_recv_body s = [] -> qpack_dynamic_decoder c = qpack_dynamic_decoder c0 ->
  so_far [] c ->
  exists c' s', stage fin buf (map Data ds) c' s' /\ forall n, stream_loop (S n) id c = stream_loop n id c'.
Proof using Hok Hord.
  intros [Hs Hc Hw Hb Hf Ho Hbl Hwt Hh Hl _] Hst Hbody Hd He.
  pose proof (Forall_inv (ac_frames _ _ Hok)) as Hfr.
  destruct (process_raw_frame s (Headers enc) buf _ (RawHeaders enc) Hw Hfr ltac:(done) Hb
    ltac:(unfold handle_frame; cbn; by rewrite Hst)) as (b & Hp & Hwb & Hpb & Hfb).
  set (s1 := with_recv_buf _ _) in *. destruct (receive_headers (set_streams (<[id := s1]> (streams c)) c) s1)
    as (c' & Hr & Hc' & He' & Hs'); [done|by apply lookup_insert_eq|done|].
  exists c', (set_recv_headers (note_headers (role c) hs s1) hs).
  split; [|intros n; by apply (round_ok c s s1 (RawHeaders enc))].
  destruct (note_headers_final (role c) s1) as (N1 & N2 & N3 & N4 & N5 & N6 & N7 & N8).
  { assert (role c = role c0) as -> by (by injection Hc). apply Hok. }
  split; cbn -[note_headers].
  - exact Hs'.
  - by rewrite Hc'.
  - by rewrite N8.
  - by rewrite N8.
  - rewrite N8. cbn. by rewrite Hfb.
  - by rewrite N2.
  - by rewrite N3.
  - by rewrite N4.
  - by rewrite N5.
  - by rewrite N6.
  - exists (delivered 0). split; [apply (stage_body _ _ 0)|].
    + exact N1.
    + done.
    + lia.
    + exact (eq_trans N7 Hbody).
    + unfold delivered. rewrite app_nil_r. by apply (so_far_with [] _ _ _ He').
Qed.

Lemma data_step fin buf n d c s : stage fin (frame_bytes (Data d) ++ buf) (map Data (drop n ds)) c s ->
  ds !! n = Some d -> rq_recv_state s = ReceivingBody -> rq_recv_headers s = hs ->
  rq_recv_body s = concat (take n ds) -> so_far (delivered n) c ->
  exists c' s', stage fin buf (map Data (drop (S n) ds)) c' s' /\ forall n, stream_loop (S n) id c = stream_loop n id c'.
Proof using Hok Hord.
  intros [Hs Hc Hw Hb Hf Ho Hbl Hwt Hh Hl _] Hn Hst Hrh Hbody He. pose proof (body_fits n d Hn) as Hfit.
  assert (frame_encodable (Data d)) as Hfr.
  { pose proof (Forall_inv_tail (ac_frames _ _ Hok)) as H. rewrite Forall_forall in H. apply H.
    apply list_elem_of_fmap_2. by apply list_elem_of_lookup_2 in Hn. }
  pose proof (ac_limit _ _ Hok). pose proof (len_nonneg (concat (take n ds))). pose proof (len_nonneg d).
  destruct (process_raw_frame s (Data d) buf
    (with_recv (processed s) ReceivingBody (rq_state s) (concat (take (S n) ds)) true) (RawData d) Hw Hfr ltac:(done) Hb)
    as (b & Hp & Hwb & Hpb & Hfb).
  { unfold handle_frame, saturating_add. cbn. rewrite Hst, Hwt, Hbody, Hl. solve_cmp.
    rewrite (take_S_r _ _ _ Hn), concat_app. cbn. by rewrite app_nil_r. }
  set (s1 := with_recv_buf _ _) in *. eexists _, s1. split.
  2: { intros m. apply (round_ok c s s1 (RawData d)); [done..|]. by apply receive_data. }
  split; cbn; try done.
  - by apply lookup_insert_eq.
  - by rewrite Hfb.
  - exists (delivered (S n)). apply lookup_lt_Some in Hn as Hlt. split; [by apply (stage_body _ _ (S n))|].
    unfold so_far, delivered in *. cbn [events push_event push_events set_events set_streams]. rewrite app_assoc.
    by rewrite He, (take_S_r _ _ _ Hn), map_app, <- !app_assoc.
Qed.

Lemma stage_step fin buf f left c s : stage fin (frame_bytes f ++ buf) (f :: left) c s ->
  exists c' s', stage fin buf left c' s' /\ forall n, stream_loop (S n) id c = stream_loop n id c'.
Proof using Hok Hord.
  intros Hs. pose proof (sg_at _ _ _ _ _ Hs) as (l & Hat & He). remember (f :: left) as fs eqn:E.
  destruct Hat as [Hst Hb Hd|n Hst Hr Hn Hb].
  - injection E as <- <-. by eapply headers_step.
  - destruct (drop n ds) as [|d rest] eqn:Ed; [done|]. injection E as <- <-.
    assert (ds !! n = Some d) as Hd by (rewrite <- (Nat.add_0_r n), <- lookup_drop; by rewrite Ed).
    assert (rest = drop (S n) ds) as -> by (replace (S n) with (n + 1)%nat by lia; by rewrite <- drop_drop, Ed).
    change (Data d :: map Data ?l) with (map Data (d :: l)) in Hs. rewrite <- Ed in Hs. by eapply data_step.
Qed.

Lemma stage_steps whole : forall fin left buf c s,
  stage fin (concat (map frame_bytes whole) ++ buf) (whole ++ left) c s ->
  exists c' s', stage fin buf left c' s' /\ forall n, stream_loop (length whole + n) id c = stream_loop n id c'.
Proof using Hok Hord.
  induction whole as [|f whole IH]; intros fin left buf c s Hs; [by exists c, s|].
  cbn [map concat app] in Hs. rewrite <- app_assoc in Hs.
  destruct (stage_step _ _ _ _ _ _ Hs) as (c1 & s1 & Hs1 & E1). destruct (IH _ _ _ _ _ Hs1) as (c2 & s2 & Hs2 & E2).
  exists c2, s2. split; [done|]. intros n. cbn [length Nat.add]. by rewrite E1.
Qed.

Lemma frames_enough fs : Forall (fun f => frame_encodable f) fs -> (length fs <= length (concat (map frame_bytes fs)))%nat.
Proof using.
  induction 1 as [|f fs Hf _ IH]; [done|]. cbn [map concat length]. rewrite length_app.
  destruct (frame_not_empty f [] Hf) as (x & l & E). rewrite app_nil_r in E. rewrite E. cbn. lia.
Qed.

Lemma left_encodable c s fin buf left : stage fin buf left c s -> Forall (fun f => frame_encodable f) left.
Proof using Hok.
  intros Hs. destruct (sg_at _ _ _ _ _ Hs) as (l & Hat & _). pose proof (ac_frames _ _ Hok) as H. destruct Hat; [done|].
  apply Forall_inv_tail in H. rewrite <- (take_drop n ds), map_app in H. by apply Forall_app in H as [_ H].
Qed.
Lemma left_types c s fin buf left : stage fin buf left c s -> Forall (fun f => frame_type f <> 0x04) left.
Proof using.
  intros Hs. destruct (sg_at _ _ _ _ _ Hs) as (l & Hat & _). destruct Hat; [apply message_frames_types|].
  by apply Forall_map, Forall_true.
Qed.

Lemma not_done c s buf left fin : stage fin buf left c s -> remove_stream_if_done id c = c.
Proof using Hord.
  intros Hs. unfold remove_stream_if_done. rewrite (sg_stream _ _ _ _ _ Hs). cbn [some_and].
  rewrite (or_closed _ _ (ordinary_context _ _ _ (sg_context _ _ _ _ _ Hs) Hord)). unfold stream_done.
  by destruct (sg_open _ _ _ _ _ Hs) as [-> | ->].
Qed.

(** The loop takes the whole frames, and stops at a piece of one. *)
Lemma process_chunk c s arrived rest left : stage false arrived left c s ->
  arrived ++ rest = concat (map frame_bytes left) ->
  exists c' s' buf' left', process_stream_frames id c = Some (c', Ok ()) /\ stage false buf' left' c' s' /\
    buf' ++ rest = concat (map frame_bytes left').
Proof using Hok Hord.
  intros Hs Hcat. pose proof (left_encodable _ _ _ _ _ Hs) as Hf. pose proof (left_types _ _ _ _ _ Hs) as Ht.
  destruct (cut_frames left Hf arrived rest Hcat) as (whole & left' & piece & -> & -> & Hrest & Hpiece).
  apply Forall_app in Hf as [Hf _]. pose proof (frames_enough whole Hf) as Hn.
  destruct (stage_steps _ _ _ _ _ _ Hs) as (c' & s' & Hs' & Hloop).
  exists c', s', piece, left'. split; [|done]. unfold process_stream_frames. rewrite gets_ok.
  assert (stream_loop (stream_fuel (streams c !! id)) id c = Some (c', Ok ())) as E.
  { rewrite (sg_stream _ _ _ _ _ Hs). cbn [stream_fuel]. rewrite (sg_buf _ _ _ _ _ Hs), length_app.
    match goal with |- stream_loop ?n _ _ = _ => replace n with (length whole + S (n - length whole - 1))%nat by lia end.
    rewrite Hloop. cbn [stream_loop]. pose proof (process_raw_waits s' (sg_fin _ _ _ _ _ Hs')) as Hw.
    rewrite (sg_buf _ _ _ _ _ Hs') in Hw. specialize (Hw (Hpiece s' Ht)).
    rewrite (bind_ok _ _ _ _ _ (process_raw_here _ _ _ _ (sg_stream _ _ _ _ _ Hs') Hw)).
    rewrite insert_id by apply Hs'. by destruct c'. }
  rewrite (bind_ok _ _ _ _ _ E). unfold modify. by rewrite (not_done _ _ _ _ _ Hs').
Qed.

(** A chunk that arrives on a stream that is there. *)
Lemma receive_chunk fin buf left c s data : stage false buf left c s ->
  stage fin (buf ++ data) left (update_stream id (fun s => request_receive s data fin) c) (request_receive s data fin).
Proof using.
  intros [Hs Hc Hw Hb Hf Ho Hbl Hwt Hh Hl Hat].
  pose proof (q_push_wf (B := RecvBuffer) _ data Hw) as Hw'. pose proof (q_push_peek (B := RecvBuffer) _ data Hw) as Hp.
  cbn [q_push q_peek recv_queue] in Hw', Hp. split; try done.
  - cbn. by rewrite lookup_alter_eq, Hs.
  - cbn. by destruct fin.
  - cbn. rewrite <- Hb, <- Hp. by destruct fin.
  - cbn. by destruct fin.
  - destruct Hat as (l & Hat & He). exists l. split; [|done]. destruct Hat; by constructor.
Qed.

Lemma handle_open c s fin buf left data : stage false buf left c s ->
  handle_bidirectional_stream id data fin c =
    process_stream_frames id (update_stream id (fun s => request_receive s data fin) c).
Proof using Hord.
  intros Hs. pose proof (ordinary_context _ _ _ (sg_context _ _ _ _ _ Hs) Hord) as Ho.
  unfold handle_bidirectional_stream. rewrite get_ok, (or_closed _ _ Ho). unfold has_key. rewrite (sg_stream _ _ _ _ _ Hs).
  rewrite throw_if_ok by by rewrite andb_false_r. rewrite modify_ok.
  assert (open_request_stream id c = c) as ->.
  { unfold open_request_stream, or_insert. rewrite (sg_stream _ _ _ _ _ Hs). by destruct c. }
  rewrite modify_ok, get_ok. pose proof (receive_chunk fin _ _ _ _ data Hs) as Hr.
  rewrite (expect_ok _ _ _ _ (sg_stream _ _ _ _ _ Hr)). by rewrite (sg_blocked _ _ _ _ _ Hr).
Qed.

Lemma feed_open c s buf left data fin c1 : stage false buf left c s ->
  handle_bidirectional_stream id data fin c = Some (c1, Ok ()) ->
  feed_stream id data fin c = Some (remove_stream_if_done id c1, Ok ()).
Proof using Hord.
  intros Hs Hh. pose proof (ordinary_context _ _ _ (sg_context _ _ _ _ _ Hs) Hord) as Ho.
  unfold feed_stream, check_error_state. rewrite (bind_ok _ _ c c tt) by by rewrite gets_ok, (or_error _ _ Ho).
  unfold remember_connection_error. rewrite (expect_ok _ _ _ _ (or_kind _ _ Ho)). cbn [is_unidirectional].
  unfold feed_bidirectional. rewrite get_ok. cbn [is_server_initiated is_client_initiated]. unfold has_key.
  rewrite andb_false_r, (or_bidi _ _ Ho), (or_pending _ _ Ho), (or_dispatch _ _ Ho), (or_ignored _ _ Ho), (or_early _ _ Ho),
    (sg_stream _ _ _ _ _ Hs), andb_false_r.
  cbn. by rewrite Hh.
Qed.

Lemma feed_more c s buf left data rest : stage false buf left c s ->
  buf ++ data ++ rest = concat (map frame_bytes left) ->
  exists c' s' buf' left', feed_stream id data false c = Some (c', Ok ()) /\ stage false buf' left' c' s' /\
    buf' ++ rest = concat (map frame_bytes left').
Proof using Hok Hord.
  intros Hs Hcat. pose proof (receive_chunk false _ _ _ _ data Hs) as Hr. rewrite app_assoc in Hcat.
  destruct (process_chunk _ _ _ _ _ Hr Hcat) as (c' & s' & buf' & left' & Hp & Hs' & Hrest).
  exists c', s', buf', left'. split; [|done]. rewrite (feed_open _ _ _ _ _ _ _ Hs (eq_trans (handle_open _ _ _ _ _ _ Hs) Hp)).
  by rewrite (not_done _ _ _ _ _ Hs').
Qed.

Definition ended (c : Connection) : Prop :=
  so_far (delivered (length ds) ++ [EvStreamEnd id]) c /\ context c = context c0.

(** The FIN: the end of the message is reported, once the length of the body is checked. *)
Lemma end_round c s : stage true [] [] c s -> exists c', (forall n, stream_loop (S (S n)) id c = Some (c', Ok ())) /\
  ended c'.
Proof using Hok Hord.
  intros Hs. destruct (sg_at _ _ _ _ _ Hs) as (l & Hat & He). remember (@nil Frame) as left eqn:El in Hat.
  destruct Hat as [Hst Hb Hd|n Hst Hr Hn Hb]; [discriminate|].
  apply map_eq_nil in El. assert (n = length ds) as ->.
  { pose proof (length_drop ds n) as Hl. rewrite El in Hl. cbn in Hl. lia. }
  rewrite firstn_all in Hb. pose proof (sg_context _ _ _ _ _ Hs) as Hc. pose proof (ordinary_context _ _ _ Hc Hord) as Ho.
  set (s1 := with_recv s RecvComplete (close_remote (rq_state s)) (rq_recv_body s) (rq_first_frame_processed s)).
  assert (process_raw s = Some (s1, Ok (Some StreamEnd))) as E1.
  { unfold process_raw. cbn [process_raw_loop]. by rewrite (sg_buf _ _ _ _ _ Hs), (sg_fin _ _ _ _ _ Hs), Hst. }
  assert (process_raw s1 = Some (s1, Ok None)) as E2.
  { unfold process_raw. cbn [process_raw_loop s1 with_recv rq_recv_buf rq_recv_state].
    by rewrite (sg_buf _ _ _ _ _ Hs), (sg_fin _ _ _ _ _ Hs). }
  set (c1 := set_streams (<[id := s1]> (streams c)) c).
  assert (streams c1 !! id = Some s1) as Hs1 by apply lookup_insert_eq.
  assert (handle_received id StreamEnd c1 = Some (push_event (EvStreamEnd id) c1, Ok false)) as Eh.
  { cbn [handle_received]. rewrite gets_ok. unfold recv_headers_of. rewrite Hs1.
    assert (check_content_length (rq_recv_headers s1) id c1 = Some (c1, Ok ())) as Ec.
    { unfold check_content_length. rewrite get_ok, Hs1. cbn [s1 with_recv rq_recv_headers rq_recv_body rq_is_head_request].
      rewrite Hr, Hb, (sg_head _ _ _ _ _ Hs). change (role c1) with (role c).
      assert (role c = role c0) as -> by (by injection Hc). unfold lift. by rewrite (ac_length _ _ Hok). }
    rewrite (bind_ok _ _ _ _ _ Ec).
    assert (handle_wt_stream_end id c1 = Some (c1, Ok (in_set (closed_wt_sessions c1) id))) as Ew.
    { unfold handle_wt_stream_end. rewrite get_ok. unfold has_key.
      change (deferred_wt_connects c1) with (deferred_wt_connects c). change (wt_sessions c1) with (wt_sessions c).
      by rewrite (or_deferred _ _ Ho), (or_session _ _ Ho). }
    rewrite (bind_ok _ _ _ _ _ Ew), modify_ok. change (closed_wt_sessions c1) with (closed_wt_sessions c).
    by rewrite (or_closed _ _ Ho). }
  exists (push_event (EvStreamEnd id) c1). split.
  - intros n. rewrite (round_ok _ _ _ _ (S n) _ (sg_stream _ _ _ _ _ Hs) E1 Eh). cbn [stream_loop].
    rewrite (bind_ok _ _ _ _ _ (process_raw_here (push_event (EvStreamEnd id) c1) _ _ _ Hs1 E2)).
    change (streams (push_event (EvStreamEnd id) c1)) with (streams c1). rewrite insert_id by done. done.
  - split; [by apply (so_far_with _ [_] c)|exact Hc].
Qed.

Lemma remove_ended c : ended c -> ended (remove_stream_if_done id c).
Proof using. unfold remove_stream_if_done. by case_match. Qed.

Lemma process_last c s arrived left : stage true arrived left c s ->
  arrived = concat (map frame_bytes left) ->
  exists c', process_stream_frames id c = Some (c', Ok ()) /\
    ended c'.
Proof using Hok Hord.
  intros Hr Hcat. pose proof (left_encodable _ _ _ _ _ Hr) as Hf. pose proof (frames_enough left Hf) as Hn.
  rewrite <- Hcat in Hn. pose proof Hr as Hr'. rewrite <- (app_nil_r arrived), Hcat, <- (app_nil_r left) in Hr'.
  rewrite (app_nil_r left) in Hr' at 1. destruct (stage_steps _ _ _ _ _ _ Hr') as (c1 & s1 & Hs1 & Hloop).
  destruct (end_round c1 s1 Hs1) as (c2 & Hend & He2). exists (remove_stream_if_done id c2).
  split; [|by apply remove_ended].
  unfold process_stream_frames. rewrite gets_ok, (sg_stream _ _ _ _ _ Hr). cbn [stream_fuel]. rewrite (sg_buf _ _ _ _ _ Hr).
  assert (stream_loop (3 + length arrived) id c = Some (c2, Ok ())) as El; [|by rewrite (bind_ok _ _ _ _ _ El)].
  replace (3 + length arrived)%nat with (length left + S (S (length arrived + 1 - length left)))%nat by lia.
  by rewrite Hloop.
Qed.

Lemma feed_last c s buf left data : stage false buf left c s ->
  buf ++ data = concat (map frame_bytes left) ->
  exists c', feed_stream id data true c = Some (c', Ok ()) /\
    ended c'.
Proof using Hok Hord.
  intros Hs Hcat. pose proof (receive_chunk true _ _ _ _ data Hs) as Hr.
  destruct (process_last _ _ _ _ Hr Hcat) as (c1 & E & He).
  eexists. split; [exact (feed_open _ _ _ _ _ _ _ Hs (eq_trans (handle_open _ _ _ _ _ _ Hs) E))|].
  by apply remove_ended.
Qed.

(** Where a message begins: on a stream that waits for one, or on a new stream at a
    server that has not announced its end. *)
Inductive awaited : Prop :=
| awaited_known s : stage false [] message_frames c0 s -> awaited
| awaited_new : taken = [] -> role c0 = Server -> streams c0 !! id = None ->
    (forall g, last_sent_goaway_id c0 = Some g -> id < g) ->
    limit = limit_received_body_size (limits c0) -> head = false -> awaited.

Lemma new_stage : taken = [] -> role c0 = Server -> streams c0 !! id = None ->
  limit = limit_received_body_size (limits c0) -> head = false ->
  exists s, stage false [] message_frames (open_request_stream id c0) s.
Proof using.
  intros Ht Hr Hs Hl Hh. unfold open_request_stream, or_insert. rewrite Hs.
  exists (set_max_received_body_size (request_new id (role c0)) (limit_received_body_size (limits c0))). split; cbn; try done.
  - by apply lookup_insert_eq.
  - by left.
  - by left.
  - exists []. split; [by constructor|]. unfold so_far. by rewrite Ht, app_nil_r.
Qed.

Lemma feed_new data fin c1 : role c0 = Server -> streams c0 !! id = None ->
  (forall g, last_sent_goaway_id c0 = Some g -> id < g) ->
  (exists l, data = 0x01 :: l) ->
  process_stream_frames id (update_stream id (fun s => request_receive s data fin) (open_request_stream id c0)) = Some (c1, Ok ()) ->
  feed_stream id data fin c0 = Some (c1, Ok ()).
Proof using Hord.
  intros Hr Hs Hg [l ->] Hp. set (data := 1 :: l) in *.
  assert (is_Some (streams (open_request_stream id c0) !! id)) as [s Hsome].
  { unfold open_request_stream, or_insert. rewrite Hs. cbn. rewrite lookup_insert_eq. by eexists. }
  assert (rq_qpack_blocked s = false) as Hbl.
  { revert Hsome. unfold open_request_stream, or_insert. rewrite Hs. cbn. rewrite lookup_insert_eq. by intros [= <-]. }
  assert (handle_bidirectional_stream id data fin c0 = Some (c1, Ok ())) as Eh.
  { unfold handle_bidirectional_stream. rewrite get_ok, (or_closed _ _ Hord).
    rewrite throw_if_ok, modify_ok, modify_ok, get_ok.
    2: { unfold has_key. rewrite Hr, Hs. cbn. destruct (last_sent_goaway_id c0) as [g|]; [|done]. cbn.
         specialize (Hg g eq_refl). by solve_cmp. }
    rewrite (expect_ok _ _ _ (request_receive s data fin)).
    { change (rq_qpack_blocked (request_receive s data fin)) with (rq_qpack_blocked s). by rewrite Hbl. }
    unfold update_stream. cbn [set_streams streams]. by rewrite lookup_alter_eq, Hsome. }
  unfold feed_stream, check_error_state. rewrite (bind_ok _ _ c0 c0 tt) by by rewrite gets_ok, (or_error _ _ Hord).
  unfold remember_connection_error. rewrite (expect_ok _ _ _ _ (or_kind _ _ Hord)). cbn [is_unidirectional].
  unfold feed_bidirectional. rewrite get_ok. cbn [is_server_initiated is_client_initiated]. unfold has_key.
  rewrite andb_false_r, (or_bidi _ _ Hord), (or_pending _ _ Hord), (or_dispatch _ _ Hord), (or_ignored _ _ Hord),
    (or_early _ _ Hord), Hs, Hr. change (bool_decide (Server = Client)) with false. change (bool_decide (Server = Server)) with true.
  change (bool_decide (is_Some (@None Z))) with false. change (bool_decide (is_Some (@None bytes))) with false.
  change (bool_decide (is_Some (@None PendingWtBidiPreNegotiation))) with false.
  change (bool_decide (is_Some (@None RequestStream))) with false. cbn [andb negb orb].
  unfold dispatch_client_bidi_stream. rewrite get_ok. unfold extend_pending. rewrite (or_dispatch _ _ Hord).
  rewrite modify_ok. unfold data. cbn [Z.shiftr]. fold data. rewrite delete_id by apply Hord.
  change (Z.shiftr 1 6 =? 0) with true. cbn iota. rewrite modify_ok.
  replace (set_pending_bidi_dispatch _ (set_pending_bidi_dispatch _ c0)) with c0 by by destruct c0.
  by rewrite Eh.
Qed.

Lemma message_starts data rest : data <> [] -> data ++ rest = concat (map frame_bytes message_frames) ->
  exists l, data = 0x01 :: l.
Proof using.
  intros Hne Hcat. destruct data as [|x l]; [done|]. exists l. f_equal. unfold message_frames in Hcat. cbn in Hcat.
  by injection Hcat.
Qed.

(** The first chunk on a new stream. *)
Lemma feed_first data rest : taken = [] -> role c0 = Server -> streams c0 !! id = None ->
  (forall g, last_sent_goaway_id c0 = Some g -> id < g) -> limit = limit_received_body_size (limits c0) -> head = false ->
  data <> [] -> data ++ rest = concat (map frame_bytes message_frames) ->
  exists c s buf left, feed_stream id data false c0 = Some (c, Ok ()) /\ stage false buf left c s /\
    buf ++ rest = concat (map frame_bytes left).
Proof using Hok Hord.
  intros Ht Hr Hs Hg Hl Hh Hd Hcat. destruct (new_stage Ht Hr Hs Hl Hh) as (s & Hst).
  pose proof (receive_chunk false _ _ _ _ data Hst) as Hrec.
  destruct (process_chunk _ _ _ _ _ Hrec Hcat) as (c1 & s1 & buf & left & E & Hs1 & Hrest).
  exists c1, s1, buf, left. split; [|done]. apply feed_new; try done. by eapply message_starts.
Qed.

(** All the chunks, the last one with the FIN. *)
Definition feed_ops (chunks : list bytes) (last : bytes) : list conn_op :=
  map (fun d => OpFeedStream id d false) chunks ++ [OpFeedStream id last true].
Definition all_unit (ops : list conn_op) : list (result Error output) := map (fun _ => Ok OutUnit) ops.

Lemma run_feed_cons d fin c c1 ops c2 : feed_stream id d fin c = Some (c1, Ok ()) ->
  run_ops ops c1 = Some (c2, all_unit ops) ->
  run_ops (OpFeedStream id d fin :: ops) c = Some (c2, all_unit (OpFeedStream id d fin :: ops)).
Proof using.
  intros H1 H2. cbn [run_ops run_op]. unfold returning. rewrite (bind_ok _ _ _ _ _ H1). unfold mret, action_ret.
  cbn [mbind option_bind]. rewrite H2. done.
Qed.

Lemma feeds_known chunks : forall c s buf left last, stage false buf left c s ->
  buf ++ concat chunks ++ last = concat (map frame_bytes left) ->
  exists c', run_ops (feed_ops chunks last) c = Some (c', all_unit (feed_ops chunks last)) /\
    ended c'.
Proof using Hok Hord.
  induction chunks as [|d chunks IH]; intros c s buf left last Hs Hcat; cbn [concat app] in Hcat.
  - destruct (feed_last _ _ _ _ _ Hs Hcat) as (c' & E & He). exists c'. split; [|done].
    by apply (run_feed_cons _ _ _ _ [] _ E).
  - rewrite <- app_assoc in Hcat. destruct (feed_more _ _ _ _ _ _ Hs Hcat) as (c1 & s1 & buf1 & left1 & E & Hs1 & Hrest).
    destruct (IH _ _ _ _ _ Hs1 Hrest) as (c2 & E2 & He). exists c2. split; [|done].
    by apply (run_feed_cons _ _ _ _ (feed_ops chunks last) _ E).
Qed.

Lemma message_delivered chunks last : awaited -> Forall (fun d => d <> []) chunks ->
  concat chunks ++ last = concat (map frame_bytes message_frames) ->
  exists c', run_ops (feed_ops chunks last) c0 = Some (c', all_unit (feed_ops chunks last)) /\
    ended c'.
Proof using Hok Hord.
  intros [s Hs|Ht Hr Hs Hg Hl Hh] Hne Hcat; [by apply (feeds_known _ _ _ _ _ _ Hs)|].
  destruct chunks as [|d chunks]; cbn [concat app] in Hcat.
  - destruct (new_stage Ht Hr Hs Hl Hh) as (s & Hst). pose proof (receive_chunk true _ _ _ _ last Hst) as Hrec.
    destruct (process_last _ _ _ _ Hrec Hcat) as (c1 & E & He). exists c1. split; [|done].
    apply (run_feed_cons last true c0 c1 [] c1); [|done]. apply feed_new; try done.
    apply (message_starts _ []); [|by rewrite app_nil_r]. intros ->. by destruct (frame_bytes (Headers enc)) eqn:En.
  - pose proof (Forall_inv Hne) as Hd. rewrite <- app_assoc in Hcat.
    destruct (feed_first d (concat chunks ++ last)) as (c1 & s1 & buf & left & E & Hs1 & Hrest); [done..|].
    destruct (feeds_known _ _ _ _ _ _ Hs1 Hrest) as (c2 & E2 & He). exists c2. split; [|done].
    by apply (run_feed_cons d false c0 c1 (feed_ops chunks last) c2).
Qed.
End delivery.
