(* ===== verification/ConnClose.v ===== *)
(** A session's CONNECT stream: a capsule that closes the session, sent as a DATA frame, is
    reported with its code and message, whatever the chunks it arrives in. No code of its
    own. *)

From Stdlib Require Import String Ascii.
From S2P Require Import Prelude Codec Varint Wire Header DynamicTable QpackEncoder QpackDecoder Qpack Settings Frame Error Stream WtStream FrameStream ControlStream RequestStream Validation Capsule Event WtSession Connection ConnInvariant ConnNegotiation ConnWtSession ConnWtStream ConnReceive ConnSafety ConnSend ConnSendSafety ConnRun ConnEvents ConnExchange.

(** The stream [id] carries a session that is live: no capsule and no FIN has arrived in
    part, and [buf] of the frame that comes. *)
Record carrying (id : Z) (buf : bytes) (c : Connection) (s : RequestStream) (w : WtSession) : Prop := {
  cy_error : error c = None;
  cy_kind : from_stream_id id = Some ClientBidi;
  cy_bidi : wt_bidi_streams c !! id = None;
  cy_pending : pending_wt_bidi_streams c !! id = None;
  cy_dispatch : pending_bidi_dispatch c !! id = None;
  cy_ignored : in_set (ignored_pre_negotiation_wt_bidi c) id = false;
  cy_early : pending_wt_bidi_pre_negotiation c !! id = None;
  cy_closed : in_set (closed_wt_sessions c) id = false;
  cy_deferred : deferred_wt_connects c !! id = None;
  cy_session : wt_sessions c !! id = Some w;
  cy_live : live_state w = true;
  cy_capsules : capsule_buf w = [];
  cy_stream : streams c !! id = Some s;
  cy_wf : q_wf (rq_recv_buf s);
  cy_buf : recv_peek (rq_recv_buf s) = buf;
  cy_fin : recv_fin (rq_recv_buf s) = false;
  cy_state : rq_recv_state s = ReceivingBody;
  cy_open : rq_state s = Open \/ rq_state s = LocalClosed;
  cy_blocked : rq_qpack_blocked s = false;
  cy_wt : rq_is_wt_connect s = true }.

Section close.
Context (id : Z).

Lemma carrying_not_done buf c s w : carrying id buf c s w -> remove_stream_if_done id c = c.
Proof using.
  intros H. unfold remove_stream_if_done. rewrite (cy_stream _ _ _ _ _ H), (cy_closed _ _ _ _ _ H). cbn [some_and]. unfold stream_done.
  by destruct (cy_open _ _ _ _ _ H) as [-> | ->].
Qed.

(** A chunk arrives. *)
Definition received (data : bytes) (c : Connection) : Connection := update_stream id (fun s => request_receive s data false) c.
Lemma carrying_received buf c s w data : carrying id buf c s w ->
  carrying id (buf ++ data) (received data c) (request_receive s data false) w.
Proof using.
  intros []. pose proof (q_push_wf (B := RecvBuffer) _ data cy_wf0) as Hw'. pose proof (q_push_peek (B := RecvBuffer) _ data cy_wf0) as Hp.
  cbn [q_push q_peek recv_queue] in Hw', Hp. split; try done.
  - cbn. by rewrite lookup_alter_eq, cy_stream0.
  - cbn. by rewrite Hp, cy_buf0.
Qed.
Lemma carrying_handle buf c s w data : carrying id buf c s w ->
  handle_bidirectional_stream id data false c = process_stream_frames id (received data c).
Proof using.
  intros H. unfold handle_bidirectional_stream. rewrite get_ok, (cy_closed _ _ _ _ _ H). unfold has_key. rewrite (cy_stream _ _ _ _ _ H).
  rewrite throw_if_ok by by rewrite andb_false_r. rewrite modify_ok.
  assert (open_request_stream id c = c) as ->.
  { unfold open_request_stream, or_insert. rewrite (cy_stream _ _ _ _ _ H). by destruct c. }
  rewrite modify_ok, get_ok. pose proof (carrying_received _ _ _ _ data H) as Hr.
  rewrite (expect_ok _ _ _ _ (cy_stream _ _ _ _ _ Hr)). by rewrite (cy_blocked _ _ _ _ _ Hr).
Qed.
Lemma carrying_feed buf c s w data c1 : carrying id buf c s w -> process_stream_frames id (received data c) = Some (c1, Ok ()) ->
  feed_stream id data false c = Some (remove_stream_if_done id c1, Ok ()).
Proof using.
  intros H E. unfold feed_stream, check_error_state. rewrite (bind_ok _ _ c c tt) by by rewrite gets_ok, (cy_error _ _ _ _ _ H).
  unfold remember_connection_error. rewrite (expect_ok _ _ _ _ (cy_kind _ _ _ _ _ H)). cbn [is_unidirectional].
  unfold feed_bidirectional. rewrite get_ok. cbn [is_server_initiated is_client_initiated]. unfold has_key.
  rewrite andb_false_r, (cy_bidi _ _ _ _ _ H), (cy_pending _ _ _ _ _ H), (cy_dispatch _ _ _ _ _ H), (cy_ignored _ _ _ _ _ H),
    (cy_early _ _ _ _ _ H), (cy_stream _ _ _ _ _ H), andb_false_r.
  cbn. by rewrite (carrying_handle _ _ _ _ _ H), E.
Qed.

(** A piece of the frame: nothing happens yet. *)
Lemma feed_piece f buf c s w data rest : carrying id buf c s w -> frame_encodable f -> frame_type f <> 0x04 -> rest <> [] ->
  frame_bytes f = (buf ++ data) ++ rest ->
  feed_stream id data false c = Some (received data c, Ok ()).
Proof using.
  intros H Hf Ht Hr E. pose proof (carrying_received _ _ _ _ data H) as H1.
  assert (process_stream_frames id (received data c) = Some (received data c, Ok ())) as Ep.
  { unfold process_stream_frames. rewrite gets_ok, (cy_stream _ _ _ _ _ H1). cbn [stream_fuel stream_loop].
    pose proof (process_raw_waits _ (cy_fin _ _ _ _ _ H1)) as Hw. rewrite (cy_buf _ _ _ _ _ H1) in Hw.
    specialize (Hw (parse_request_piece _ f _ _ Hf Ht Hr E)).
    assert (stream_loop (3 + length (recv_peek (rq_recv_buf (request_receive s data false)))) id (received data c) = Some (received data c, Ok ())) as El.
    { cbn [Nat.add stream_loop]. rewrite (bind_ok _ _ _ _ _ (process_raw_here _ _ _ _ _ (cy_stream _ _ _ _ _ H1) Hw)).
      rewrite insert_id by apply H1. by destruct (received data c). }
    rewrite (bind_ok _ _ _ _ _ El). unfold modify. by rewrite (carrying_not_done _ _ _ _ H1). }
  rewrite (carrying_feed _ _ _ _ _ _ H Ep). by rewrite (carrying_not_done _ _ _ _ H1).
Qed.

(** The session is over, and the stream takes no more than its end. *)
Record over (c : Connection) : Prop := {
  ov_error : error c = None;
  ov_kind : from_stream_id id = Some ClientBidi;
  ov_bidi : wt_bidi_streams c !! id = None;
  ov_pending : pending_wt_bidi_streams c !! id = None;
  ov_dispatch : pending_bidi_dispatch c !! id = None;
  ov_ignored : in_set (ignored_pre_negotiation_wt_bidi c) id = false;
  ov_early : pending_wt_bidi_pre_negotiation c !! id = None;
  ov_closed : in_set (closed_wt_sessions c) id = true }.
Definition closed_event (resets : list WtStreamReset) (code : Z) (msg : bytes) : Event :=
  EvWebTransport (WtSessionClosed id resets SESSION_GONE code msg).

Lemma removed_streams l : forall c, let c' := fold_left remove_wt_stream l c in
  (events c', error c', pending_wt_bidi_streams c', pending_bidi_dispatch c', ignored_pre_negotiation_wt_bidi c',
   pending_wt_bidi_pre_negotiation c', blocked_by_ricnt c', qpack_dynamic_decoder c', streams c') =
  (events c, error c, pending_wt_bidi_streams c, pending_bidi_dispatch c, ignored_pre_negotiation_wt_bidi c,
   pending_wt_bidi_pre_negotiation c, blocked_by_ricnt c, qpack_dynamic_decoder c, streams c) /\
  (wt_bidi_streams c !! id = None -> wt_bidi_streams c' !! id = None).
Proof using.
  induction l as [|x l IH]; intros c; [done|]. cbn [fold_left]. destruct (IH (remove_wt_stream c x)) as [-> H]. split; [done|].
  intros Hb. apply H. cbn. by rewrite lookup_delete_None; right.
Qed.

Lemma terminate_shape code msg c c' r w : wt_sessions c !! id = Some w -> live_state w = true ->
  terminate_wt_session_with id SESSION_GONE code msg c = Some (c', r) ->
  r = Ok () /\ wt_sessions c' !! id = None /\ in_set (closed_wt_sessions c') id = true /\
  (exists resets, events c' = events c ++ [closed_event resets code msg]) /\
  (error c' = error c /\ pending_wt_bidi_streams c' = pending_wt_bidi_streams c /\ pending_bidi_dispatch c' = pending_bidi_dispatch c /\
   ignored_pre_negotiation_wt_bidi c' = ignored_pre_negotiation_wt_bidi c /\
   pending_wt_bidi_pre_negotiation c' = pending_wt_bidi_pre_negotiation c /\ streams c' = streams c) /\
  (blocked_by_ricnt c' = blocked_by_ricnt c /\ qpack_dynamic_decoder c' = qpack_dynamic_decoder c) /\
  (wt_bidi_streams c !! id = None -> wt_bidi_streams c' !! id = None).
Proof using.
  intros Hs Hl. unfold terminate_wt_session_with. rewrite gets_ok, Hs, bool_decide_false by by intros E; unfold live_state in Hl; rewrite E in Hl.
  rewrite get_ok. destruct (mapM _ _) as [resets|]; [|done]. rewrite (expect_ok _ _ _ resets eq_refl), !modify_ok.
  destruct (removed_streams (elements (associated_streams w)) c) as [[= E1 E2 E3 E4 E5 E6 E7 E8 E9] Eb].
  unfold modify. intros [= <- <-]. split; [done|]. split; [cbn; by apply lookup_delete_eq|].
  split; [cbn; unfold in_set; apply bool_decide_eq_true; set_solver|].
  split; [eexists; cbn; by rewrite E1|]. cbn. split_and!; done.
Qed.

Lemma capsule_not_empty c : capsule_ok c -> exists x l, capsule_bytes c = x :: l.
Proof using.
  intros Hc. pose proof (read_capsule_encoded c [] Hc) as H. rewrite app_nil_r in H. destruct (capsule_bytes c); [done|by eexists _, _].
Qed.
Lemma close_processed code msg c c' r w : wt_sessions c !! id = Some w -> live_state w = true -> capsule_buf w = [] ->
  capsule_ok (CloseSession code msg) ->
  process_wt_capsule_data id (capsule_bytes (CloseSession code msg)) c = Some (c', r) ->
  exists c1 w1, r = Ok () /\ queue c1 = queue c /\ c1 = set_wt_sessions (wt_sessions c1) c /\ wt_sessions c1 !! id = Some w1 /\ live_state w1 = true /\
    terminate_wt_session_with id SESSION_GONE code (truncate_close_session_message msg) c1 = Some (c', Ok ()).
Proof using.
  intros Hs Hl Hb Hc. set (bs := capsule_bytes (CloseSession code msg)). destruct (capsule_not_empty _ Hc) as (x & l & Ebs). fold bs in Ebs.
  unfold process_wt_capsule_data. rewrite gets_ok, Hs, Hb, modify_ok. cbn [app].
  set (c0 := update_session id (append_capsule_data bs) c).
  assert (wt_sessions c0 !! id = Some (append_capsule_data bs w)) as Hs0 by (cbn; by rewrite lookup_alter_eq, Hs).
  cbn [wt_capsule_loop]. rewrite gets_ok, Hs0. assert (capsule_buf (append_capsule_data bs w) = bs) as -> by (cbn; by rewrite Hb).
  replace (is_empty_bytes bs) with false by (by rewrite Ebs). pose proof (read_capsule_encoded _ [] Hc) as Hr. rewrite app_nil_r in Hr.
  rewrite decode_read. fold bs in Hr. rewrite Hr. cbn [on_the_wire handle_wt_capsule is_close_session andb]. rewrite modify_ok.
  set (c1 := update_session id _ c0). set (w1 := set_capsule_buf (drop_z (len bs) bs) (append_capsule_data bs w)).
  assert (wt_sessions c1 !! id = Some w1) as Hs1 by (cbn; by rewrite lookup_alter_eq, lookup_alter_eq, Hs).
  assert (live_state w1 = true) as Hl1 by done.
  unfold mbind at 1, action_bind at 1. destruct (terminate_wt_session_with _ _ _ _ _) as [[c2 r2]|] eqn:Et; [|done].
  destruct (terminate_shape _ _ _ _ _ _ Hs1 Hl1 Et) as (-> & Hn & _). rewrite throw_if_ok by by rewrite Z.ltb_irrefl.
  rewrite Ebs. cbn [length wt_capsule_loop]. rewrite gets_ok, Hn. intros [= <- <-].
  exists c1, w1. split_and!; try done.
Qed.

(** What the connection has become. *)
Definition closed_from (code : Z) (msg : bytes) (c c' : Connection) : Prop := over c' /\
  blocked_by_ricnt c' = blocked_by_ricnt c /\ dec_table (qpack_dynamic_decoder c') = dec_table (qpack_dynamic_decoder c) /\
  exists resets, events c' = events c ++ [closed_event resets code (truncate_close_session_message msg)].
Lemma over_remove c : over c -> over (remove_stream_if_done id c).
Proof using. intros []. unfold remove_stream_if_done. by case_match. Qed.
Lemma closed_remove code msg c c' : closed_from code msg c c' -> closed_from code msg c (remove_stream_if_done id c').
Proof using. intros (Ho & H). split; [by apply over_remove|]. unfold remove_stream_if_done. by case_match. Qed.

Lemma close_received code msg c s w c' r : capsule_ok (CloseSession code msg) -> frame_encodable (Data (capsule_bytes (CloseSession code msg))) ->
  carrying id (frame_bytes (Data (capsule_bytes (CloseSession code msg)))) c s w ->
  process_stream_frames id c = Some (c', r) -> r = Ok () /\ closed_from code msg c c'.
Proof using.
  intros Hc Hf H. set (bs := capsule_bytes _) in *. unfold process_stream_frames. rewrite gets_ok, (cy_stream _ _ _ _ _ H). cbn [stream_fuel].
  destruct (process_raw_frame s (Data bs) [] (processed s) (RawData bs) (cy_wf _ _ _ _ _ H) Hf ltac:(done)) as (b & Ep & Hwb & Hpb & Hfb).
  { by rewrite app_nil_r, (cy_buf _ _ _ _ _ H). }
  { unfold handle_frame. cbn. by rewrite (cy_state _ _ _ _ _ H), (cy_wt _ _ _ _ _ H). }
  set (s1 := with_recv_buf (processed s) b) in *. set (c1 := set_streams (<[id := s1]> (streams c)) c).
  assert (forall n, stream_loop (S (S n)) id c = match process_wt_capsule_data id bs c1 with
    | Some (c2, Ok _) => stream_loop (S n) id c2 | Some (c2, Err e) => Some (c2, Err e) | None => None end) as Hloop.
  { intros n. change (stream_loop (S (S n)) id c) with ((received ← process_stream_raw id; match received with
      | None => done_with | Some received => stop ← handle_received id received; if stop : bool then done_with else stream_loop (S n) id end) c).
    rewrite (bind_ok _ _ _ _ _ (process_raw_here _ _ _ _ _ (cy_stream _ _ _ _ _ H) Ep)).
    fold c1. cbn [handle_received].
    assert (handle_wt_data_frame id bs c1 = (process_wt_capsule_data id bs;; mret true) c1) as Eh.
    { unfold handle_wt_data_frame. rewrite get_ok. change (deferred_wt_connects c1) with (deferred_wt_connects c). unfold has_key.
      rewrite (cy_deferred _ _ _ _ _ H). change (wt_sessions c1) with (wt_sessions c). rewrite (cy_session _ _ _ _ _ H).
      pose proof (cy_live _ _ _ _ _ H) as Hl. unfold live_state in Hl. by destruct (ws_state w). }
    unfold mbind at 1 2, action_bind at 1 2. rewrite Eh. unfold mbind at 1, action_bind at 1.
    destruct (process_wt_capsule_data id bs c1) as [[c2 [[]|e]]|]; done. }
  unfold mbind, action_bind. cbn [Nat.add]. rewrite Hloop. destruct (process_wt_capsule_data id bs c1) as [[c2 r2]|] eqn:E2; [|done].
  destruct (close_processed code msg c1 c2 r2 w) as (c3 & w1 & -> & Hq & E3 & Hs3 & Hl3 & Et); [apply H..|done|done|].
  destruct (terminate_shape _ _ _ _ _ _ Hs3 Hl3 Et) as (_ & Hn & Hcl & Hev & (X1 & X2 & X3 & X4 & X5 & X6) & (X7 & X8) & X9).
  rewrite E3 in X1, X2, X3, X4, X5, X6, X7, X8, X9, Hev. cbn in X1, X2, X3, X4, X5, X6, X7, X8, X9, Hev.
  assert (streams c2 !! id = Some s1) as Hs2 by (rewrite X6; by apply lookup_insert_eq).
  assert (process_raw s1 = Some (s1, Ok None)) as Ew.
  { apply process_raw_waits; [by rewrite <- (cy_fin _ _ _ _ _ H), <- Hfb|]. change (rq_recv_buf s1) with b. by rewrite Hpb. }
  assert (forall n, stream_loop (S n) id c2 = Some (c2, Ok ())) as E4.
  { intros n. cbn [stream_loop]. rewrite (bind_ok _ _ _ _ _ (process_raw_here _ _ _ _ _ Hs2 Ew)).
    rewrite insert_id by done. by destruct c2. }
  rewrite E4. unfold modify. intros [= <- <-]. split; [done|]. apply closed_remove. split; [|split; [done|split; [by rewrite X8|done]]].
  destruct H. split; try congruence; first [by auto|unfold in_set in *; congruence].
Qed.

(** The chunk that completes the frame. *)
Lemma feed_close code msg buf c s w data c' r : capsule_ok (CloseSession code msg) ->
  frame_encodable (Data (capsule_bytes (CloseSession code msg))) -> carrying id buf c s w ->
  buf ++ data = frame_bytes (Data (capsule_bytes (CloseSession code msg))) ->
  feed_stream id data false c = Some (c', r) -> r = Ok () /\ closed_from code msg c c'.
Proof using.
  intros Hc Hf H E. pose proof (carrying_received _ _ _ _ data H) as H1. rewrite E in H1.
  unfold feed_stream, check_error_state. rewrite (bind_ok _ _ c c tt) by by rewrite gets_ok, (cy_error _ _ _ _ _ H).
  unfold remember_connection_error. rewrite (expect_ok _ _ _ _ (cy_kind _ _ _ _ _ H)). cbn [is_unidirectional].
  unfold feed_bidirectional. rewrite get_ok. cbn [is_server_initiated is_client_initiated]. unfold has_key.
  rewrite andb_false_r, (cy_bidi _ _ _ _ _ H), (cy_pending _ _ _ _ _ H), (cy_dispatch _ _ _ _ _ H), (cy_ignored _ _ _ _ _ H),
    (cy_early _ _ _ _ _ H), (cy_stream _ _ _ _ _ H), andb_false_r.
  cbn. rewrite (carrying_handle _ _ _ _ _ H).
  destruct (process_stream_frames id (received data c)) as [[c1 r1]|] eqn:Ep; [|done].
  destruct (close_received _ _ _ _ _ _ _ Hc Hf H1 Ep) as [-> Hx]. cbn. intros [= <- <-]. split; [done|]. by apply closed_remove.
Qed.

(** The FIN that follows is taken without a word. *)
Lemma over_handles_fin c : over c -> handle_bidirectional_stream id [] true c = Some (c, Ok ()).
Proof using. intros H. unfold handle_bidirectional_stream. by rewrite get_ok, (ov_closed _ H). Qed.
Lemma feed_fin c : over c -> exists c', feed_stream id [] true c = Some (c', Ok ()) /\ events c' = events c /\ error c' = None /\
  blocked_by_ricnt c' = blocked_by_ricnt c /\ qpack_dynamic_decoder c' = qpack_dynamic_decoder c.
Proof using.
  intros H. unfold feed_stream, check_error_state. rewrite (bind_ok _ _ c c tt) by by rewrite gets_ok, (ov_error _ H).
  unfold remember_connection_error. rewrite (expect_ok _ _ _ _ (ov_kind _ H)). cbn [is_unidirectional].
  unfold feed_bidirectional. rewrite get_ok. cbn [is_server_initiated is_client_initiated]. unfold has_key.
  rewrite andb_false_r, (ov_bidi _ H), (ov_pending _ H), (ov_dispatch _ H), (ov_ignored _ H), (ov_early _ H), andb_true_r.
  change (bool_decide (is_Some (@None _))) with false. cbn [orb]. change (bool_decide (is_Some (@None _))) with false. cbn [orb].
  destruct (_ && _).
  - unfold dispatch_client_bidi_stream. rewrite get_ok. unfold extend_pending. rewrite (ov_dispatch _ H), !modify_ok.
    rewrite over_handles_fin by (destruct H; split; try done; cbn; by rewrite lookup_delete_None; left).
    eexists. split; [done|]. cbn. by destruct H.
  - rewrite over_handles_fin by done. cbn. eexists. split; [done|]. unfold remove_stream_if_done. by case_match; destruct H.
Qed.
Lemma drain_takes_all c : settled c -> error c = None -> drain_events c = Some (set_events [] c, Ok (events c)).
Proof using.
  intros Hs He. unfold drain_events. apply remember_ok. unfold check_error_state. rewrite (bind_ok _ _ c c tt) by by rewrite gets_ok, He.
  rewrite (bind_ok _ _ _ _ _ (retry_settled _ Hs)). done.
Qed.
Lemma settled_same c c' : blocked_by_ricnt c' = blocked_by_ricnt c -> dec_table (qpack_dynamic_decoder c') = dec_table (qpack_dynamic_decoder c) ->
  settled c -> settled c'.
Proof using. intros E1 E2 Hs x. rewrite E1. unfold counted. rewrite E2. apply Hs. Qed.
Lemma carrying_taken buf c s w : carrying id buf c s w -> carrying id buf (set_events [] c) s w.
Proof using. by intros []. Qed.
Lemma over_taken c : over c -> over (set_events [] c).
Proof using. by intros []. Qed.
End close.

(** ** What a server makes of more data *)
Definition wt_answer : Settings := enable_webtransport_server settings_new (for_draft_versions [Draft02; Draft07; Draft14; Draft15; Draft17] 1).
Definition client_offer : bytes :=
  [0x00; 0x04; 44; 1; 80; 0; 6; 128; 0; 64; 0; 7; 64; 100; 51; 1; 172; 124; 240; 0; 1; 160; 184; 147; 59; 1; 171; 96; 55; 66; 1; 192; 0; 0;
   0; 198; 113; 112; 106; 1; 148; 233; 205; 41; 1; 33; 0].
(** A server that has accepted a session. *)
Definition session_server : list conn_op :=
  [OpInitH3Streams 3 7 11; OpSetTransportVerified true true; OpFeedStream 2 client_offer false;
   OpFeedStream 0 (frame_bytes (Headers (section_bytes true 0 (map static_line wt_request)))) false;
   OpSendResponse 0 [mkHeader (str ":status") (str "200") false] false; OpDrainEvents].
Definition close_seven : bytes := [0x00; 0x07; 0x68; 0x43; 0x04; 0x00; 0x00; 0x00; 0x07].

(** After the close, data on the CONNECT stream is to be answered with H3_MESSAGE_ERROR. It is,
    unless it looks like the header of a WebTransport stream: the server has forgotten the
    stream, takes it for a new one, and rejects it as one whose session is gone. *)
Example data_after_close :
  (c ← state_after Server wt_answer (session_server ++ [OpFeedStream 0 close_seven false; OpDrainEvents]);
   '(_, rs) ← run_ops [OpFeedStream 0 [0x40; 0x41; 0x00; 0x61] false; OpDrainEvents; OpFeedStream 0 [0x00; 0x00] false] c; Some rs) =
  Some [Ok OutUnit; Ok (OutEvents [EvWebTransport (WtBufferedStreamRejected 0 SESSION_GONE)]); Err (StreamError MessageError)].
Proof. vm_compute. reflexivity. Qed.
