(* ===== verification/ConnOutgoing.v ===== *)
(** What a connection has to send, stream by stream, and what [take_stream_data] makes of
    it when it is called until there is nothing more. No code of its own. *)

From S2P Require Import Prelude Codec Varint Header EncoderStream DecoderStream Settings Error Stream FrameStream QpackEncoder QpackDecoder ControlStream RequestStream Validation Capsule Event Datagram WtSession Connection ConnInvariant ConnNegotiation ConnWtSession ConnWtStream ConnReceive ConnSafety ConnSend ConnSendSafety.

(** ** What waits on a stream

    The bytes, and whether a FIN follows them: it does not when the stream is dropped with
    its last byte, because it was reset or its session is over. *)
Definition fin_set (s : RequestStream) : bool := send_fin (rq_send_buf s) && negb (send_fin_sent (rq_send_buf s)).
Definition fin_due (id : Z) (c : Connection) : bool := some_and (streams c !! id) has_fin_pending.
Definition fin_after_data (id : Z) (c : Connection) : bool :=
  some_and (streams c !! id) (fun s => fin_set s && negb (is_reset (rq_state s))) && negb (in_set (closed_wt_sessions c) id).
Definition waiting (id : Z) (c : Connection) : list (bytes * bool) :=
  match pending_data id c with
  | Some data => (data, false) :: (if fin_after_data id c then [([], true)] else [])
  | None => if fin_due id c then [([], true)] else []
  end.

(** The fields that sending on one stream does not touch for another. *)
Definition sends (c : Connection) := (control_send c, encoder_stream_id c, decoder_stream_id c, encoder_stream c, decoder_stream c).
Definition same_sends (id : Z) (c c' : Connection) : Prop :=
  sends c' = sends c /\ streams c' !! id = streams c !! id /\
  in_set (closed_wt_sessions c') id = in_set (closed_wt_sessions c) id.

Lemma same_sends_waiting id c c' : same_sends id c c' -> waiting id c' = waiting id c.
Proof.
  intros ([= E1 E2 E3 E4 E5] & Es & Ec).
  unfold waiting, pending_data, fin_after_data, fin_due, control_send_id. by rewrite Es, Ec, E1, E2, E3, E4, E5.
Qed.

(** The end of a session leaves what is sent as it was. *)
Definition session_ended (id : Z) (c c' : Connection) : Prop :=
  sends c' = sends c /\ streams c' = streams c /\
  forall id', id' <> id -> in_set (closed_wt_sessions c') id' = in_set (closed_wt_sessions c) id'.
#[export] Instance session_ended_preorder id : PreOrder (session_ended id).
Proof.
  split; [done|]. intros c1 c2 c3 (E1 & E2 & E3) (F1 & F2 & F3). split; [congruence|]. split; [congruence|].
  intros id' Hne. by rewrite F3, E3.
Qed.

Lemma terminate_ends id : keeps (session_ended id) (terminate_wt_session id).
Proof.
  unfold terminate_wt_session, terminate_wt_session_with. keep_steps; try done.
  - match goal with |- session_ended _ _ (fold_left _ ?l ?c) => generalize c; generalize l end. intros ids.
    induction ids as [|x ids IH]; intros c0; [done|].
    cbn [fold_left]. by etrans; [|apply IH].
  - split; [done|]. split; [done|]. intros id' Hne. unfold in_set. apply bool_decide_ext. cbn. set_solver.
Qed.

Lemma not_own k c id : conn_wf k c -> bidi_id id ->
  is_id (control_send_id c) id = false /\ is_id (encoder_stream_id c) id = false /\ is_id (decoder_stream_id c) id = false.
Proof.
  intros Hw Hi. unfold is_id. split_and!; apply bool_decide_eq_false; intros E.
  - by destruct (w_control_id _ _ Hw id E).
  - apply (w_qpack_ids _ _ Hw id); [by left|done].
  - apply (w_qpack_ids _ _ Hw id); [by right|done].
Qed.

(** ** Request streams *)
Lemma consume_stream k c id s n : conn_wf k c -> streams c !! id = Some s -> 0 <= n <= len (send_peek (rq_send_buf s)) ->
  exists s', send_peek (rq_send_buf s') = drop_z n (send_peek (rq_send_buf s)) /\ fin_set s' = fin_set s /\
    rq_state s' = rq_state s /\ q_wf (rq_send_buf s') /\
    consume_stream_data id n c = Some (remove_stream_if_done id (set_streams (<[id := s']> (streams c)) c), Ok ()).
Proof.
  intros Hw Hs Hn. destruct (stream_at _ _ Hw _ _ Hs) as [[_ Hi] Hsw]. destruct (not_own _ _ _ Hw Hi) as (E1 & E2 & E3).
  destruct (q_consume_fits (B := SendBuffer) (rq_send_buf s) n (sw_send _ Hsw) Hn) as (b & Eb & Hb & Hp).
  cbn [q_consume q_peek send_queue] in Eb, Hp. exists (with_send s b (rq_send_state s) (rq_state s)).
  split; [done|]. split.
  { unfold fin_set. cbn. revert Eb. unfold send_consume. destruct (drain_half _ _) as [[? ?]|]; [|done]. by intros [= <-]. }
  split; [done|]. split; [done|]. unfold consume_stream_data. rewrite get_ok, E1, E2, E3, Hs.
  rewrite (expect_ok _ _ _ (with_send s b (rq_send_state s) (rq_state s))) by (unfold consume_send_data; by rewrite Eb).
  by rewrite modify_ok.
Qed.

Lemma waiting_stream k c id s : conn_wf k c -> streams c !! id = Some s ->
  waiting id c = match send_peek (rq_send_buf s) with
    | [] => if fin_set s then [([], true)] else []
    | data => (data, false) :: (if fin_set s && negb (is_reset (rq_state s)) && negb (in_set (closed_wt_sessions c) id) then [([], true)] else [])
    end.
Proof.
  intros Hw Hs. destruct (stream_at _ _ Hw _ _ Hs) as [[_ Hi] Hsw]. destruct (not_own _ _ _ Hw Hi) as (E1 & E2 & E3).
  unfold waiting, pending_data, fin_due, fin_after_data. rewrite E1, E2, E3, Hs. cbn [List.find fst snd andb some_and get_send_data].
  unfold is_empty_bytes, has_fin_pending, fin_set. rewrite is_data_consumed_peek by apply Hsw.
  destruct (send_peek (rq_send_buf s)) as [|x data]; cbn [bool_decide].
  - rewrite bool_decide_true by done. cbn. by destruct (send_fin _), (send_fin_sent _).
  - by rewrite bool_decide_false by done.
Qed.

(** A stream that has nothing left, or is gone. *)
Lemma waiting_gone k c id : conn_wf k c -> bidi_id id -> streams c !! id = None -> waiting id c = [].
Proof.
  intros Hw Hi Hs. destruct (not_own _ _ _ Hw Hi) as (E1 & E2 & E3).
  unfold waiting, pending_data, fin_due. by rewrite E1, E2, E3, Hs.
Qed.

(** What is left of a stream after its last byte. *)
Definition put_back (id : Z) (s : RequestStream) (c : Connection) : Connection :=
  remove_stream_if_done id (set_streams (<[id := s]> (streams c)) c).

Lemma put_back_waiting k c id s : conn_wf k (put_back id s c) -> bidi_id id -> send_peek (rq_send_buf s) = [] ->
  waiting id (put_back id s c) =
    if fin_set s && negb (is_reset (rq_state s)) && negb (in_set (closed_wt_sessions c) id) then [([], true)] else [].
Proof.
  unfold put_back, remove_stream_if_done. cbn [streams set_streams closed_wt_sessions]. rewrite lookup_insert_eq. cbn [some_and].
  unfold stream_done. intros Hw Hi Hp.
  destruct (is_reset (rq_state s)) eqn:Er, (in_set (closed_wt_sessions c) id) eqn:Ec; cbn [orb andb negb] in *;
    rewrite ?orb_true_r in *; try (rewrite andb_false_r || idtac).
  1-3: rewrite ?andb_false_r; cbn [andb]; apply (waiting_gone k); [done|done|]; cbn; apply lookup_delete_eq.
  rewrite orb_false_r, !andb_true_r in *. destruct (bool_decide _ && is_send_complete s) eqn:Ed.
  - rewrite (waiting_gone k); [|done|done|cbn; apply lookup_delete_eq]. apply andb_true_iff in Ed as [_ Hc].
    unfold is_send_complete, fin_set in *. destruct (send_fin _); [by rewrite Hc|done].
  - rewrite (waiting_stream k _ _ s); [by rewrite Hp|done|]. cbn. apply lookup_insert_eq.
Qed.

Lemma put_back_same c id s id' : id' <> id -> same_sends id' c (put_back id s c).
Proof.
  intros Hne. unfold put_back, remove_stream_if_done. case_match; (split; [done|split; [|done]]); cbn.
  - by rewrite lookup_delete_ne, lookup_insert_ne by done.
  - by rewrite lookup_insert_ne by done.
Qed.

(** ** One call *)

(** [take_stream_data] hands out what waits first, leaves the rest, and leaves the other
    streams alone. *)
Definition takes (id : Z) (c c' : Connection) : Prop :=
  take_stream_data id c = Some (c', Ok (head (waiting id c))) /\ waiting id c' = tail (waiting id c) /\
  forall id', id' <> id -> waiting id' c' = waiting id' c.

Lemma take_wf k id c c' r : conn_wf k c -> take_stream_data id c = Some (c', r) -> conn_wf k c'.
Proof. intros Hw E. destruct (take_stream_data_safe id k c Hw) as (c2 & r2 & E2 & Hw2 & _). rewrite E in E2. by injection E2 as <- _. Qed.

Lemma take_data k c id s x data : conn_wf k c -> streams c !! id = Some s -> send_peek (rq_send_buf s) = x :: data ->
  exists c', takes id c c'.
Proof.
  intros Hw Hs Hp. pose proof (stream_at _ _ Hw _ _ Hs) as [[_ Hi] Hsw]. destruct (not_own _ _ _ Hw Hi) as (E1 & E2 & E3).
  destruct (consume_stream k c id s (len (x :: data)) Hw Hs) as (s' & Hp' & Hf & Hst & Hq & Ec); [rewrite Hp; pose proof (len_nonneg (x :: data)); lia|].
  fold (put_back id s' c) in Ec. pose proof (waiting_stream k c id s Hw Hs) as Hwait. rewrite Hp in Hwait. exists (put_back id s' c).
  assert (take_stream_data id c = Some (put_back id s' c, Ok (Some (x :: data, false)))) as E.
  { unfold take_stream_data. rewrite (bind_ok _ _ c c (Some (x :: data, false))).
    - change (is_empty_bytes (x :: data)) with false. cbn [andb]. by rewrite (bind_ok _ _ _ _ _ Ec).
    - unfold get_stream_data. rewrite get_ok, Hs. cbn [some_and]. unfold has_fin_pending.
      rewrite is_data_consumed_peek, Hp by apply Hsw. replace (len (x :: data) =? 0) with false by (rewrite len_cons; pose proof (len_nonneg data); by solve_cmp).
      rewrite andb_false_r. cbn [andb]. unfold pending_data. rewrite E1, E2, E3, Hs. cbn [List.find fst snd andb get_send_data].
      by rewrite Hp. }
  split; [by rewrite Hwait|]. split.
  - rewrite Hwait. cbn [tail]. rewrite (put_back_waiting k); [by rewrite Hf, Hst|exact (take_wf _ _ _ _ _ Hw E)|done|].
    by rewrite Hp', Hp, drop_z_all by lia.
  - intros id' Hne. by apply same_sends_waiting, put_back_same.
Qed.

Lemma terminate_ok id c c' r : terminate_wt_session id c = Some (c', r) -> r = Ok ().
Proof.
  unfold terminate_wt_session, terminate_wt_session_with. rewrite gets_ok.
  destruct (wt_sessions c !! id) as [session|]; [|by intros [= _ <-]]. case_bool_decide; [by intros [= _ <-]|].
  rewrite get_ok. unfold expect. unfold mbind at 1, action_bind at 1. destruct (mapM _ _ ≫= _) as [[c1 [a|e]]|] eqn:E; [| |done].
  - rewrite !modify_ok. by intros [= _ <-].
  - exfalso. revert E. by destruct (mapM _ _).
Qed.

Lemma take_fin_due k c id s : conn_wf k c -> streams c !! id = Some s -> send_peek (rq_send_buf s) = [] -> fin_set s = true ->
  exists c', takes id c c'.
Proof.
  intros Hw Hs Hp Hf. pose proof (stream_at _ _ Hw _ _ Hs) as [[_ Hi] Hsw].
  pose proof (waiting_stream k c id s Hw Hs) as Hwait. rewrite Hp, Hf in Hwait.
  set (c1 := update_stream id mark_fin_sent c).
  assert (streams c1 !! id = Some (mark_fin_sent s)) as Hs1 by (unfold c1, update_stream; cbn; by rewrite lookup_alter_eq, Hs).
  assert (exists c2, get_stream_data id c = Some (c2, Ok (Some ([], true))) /\ session_ended id c1 c2 /\ conn_wf k c2)
    as (c2 & Eg & (Ee1 & Ee2 & Ee3) & Hw2).
  { destruct (get_stream_data_safe id k c Hw) as (c2 & r & E & Hw2 & _). rewrite E. revert E. unfold get_stream_data.
    rewrite get_ok, Hs. cbn [some_and]. unfold has_fin_pending. rewrite is_data_consumed_peek, Hp by apply Hsw.
    unfold fin_set in Hf. replace (send_fin (rq_send_buf s) && _ && _) with true by (cbn; by rewrite andb_true_r).
    rewrite modify_ok. fold c1. case_match.
    - unfold mbind, action_bind. destruct (terminate_wt_session id c1) as [[c3 r3]|] eqn:Et; [|done].
      rewrite (terminate_ok _ _ _ _ Et). intros [= <- <-]. exists c3. split; [done|]. split; [exact (terminate_ends id _ _ _ Et)|done].
    - intros [= <- <-]. by exists c1. }
  destruct (consume_stream k c2 id (mark_fin_sent s) 0 Hw2) as (s' & Hp' & Hf' & Hst & Hq & Ec); [by rewrite Ee2| |].
  { split; [done|apply len_nonneg]. }
  fold (put_back id s' c2) in Ec. exists (put_back id s' c2).
  assert (take_stream_data id c = Some (put_back id s' c2, Ok (Some ([], true)))) as E.
  { unfold take_stream_data. rewrite (bind_ok _ _ _ _ _ Eg). change (is_empty_bytes [] && negb true) with false. cbn iota.
    change (len []) with 0. by rewrite (bind_ok _ _ _ _ _ Ec). }
  split; [by rewrite Hwait|]. split.
  - rewrite Hwait. cbn [tail]. rewrite (put_back_waiting k); [|exact (take_wf _ _ _ _ _ Hw E)|done|].
    + rewrite Hf'. unfold fin_set, mark_fin_sent. cbn. by rewrite andb_false_r.
    + rewrite Hp'. cbn [rq_send_buf with_send mark_fin_sent]. change (send_peek (send_mark_fin_sent ?b)) with (send_peek b).
      by rewrite drop_z_0, Hp.
  - intros id' Hne. rewrite (same_sends_waiting _ _ _ (put_back_same c2 id s' id' Hne)). apply same_sends_waiting.
    split; [by rewrite Ee1|]. split; [|by rewrite Ee3]. rewrite Ee2. unfold c1, update_stream. cbn. by rewrite lookup_alter_ne.
Qed.

(** *** The streams of this end *)
Lemma consume_all_buffer (buf : bytes) : consume_buffer buf (len buf) = [].
Proof. unfold consume_buffer. by rewrite Z.leb_refl. Qed.

(** No two of them are one stream, and none is a request stream. *)
Lemma other_critical k c id id' : conn_wf k c -> id' <> id ->
  (is_id (control_send_id c) id = true -> is_id (control_send_id c) id' = false) /\
  (is_id (encoder_stream_id c) id = true -> is_id (encoder_stream_id c) id' = false) /\
  (is_id (decoder_stream_id c) id = true -> is_id (decoder_stream_id c) id' = false).
Proof. intros Hw Hne. unfold is_id. split_and!; intros ->%bool_decide_eq_true; apply bool_decide_eq_false; congruence. Qed.

Lemma no_stream k c id : conn_wf k c -> ~ bidi_id id -> streams c !! id = None.
Proof. intros Hw Hi. destruct (streams c !! id) as [s|] eqn:E; [|done]. by destruct (stream_at _ _ Hw _ _ E) as [[_ ?] _]. Qed.

Lemma take_nothing k c id : conn_wf k c -> waiting id c = [] -> takes id c c.
Proof.
  intros Hw Hwait. split; [|by rewrite Hwait]. rewrite Hwait. cbn [head]. revert Hwait. unfold waiting.
  unfold take_stream_data, get_stream_data, fin_due. destruct (pending_data id c) as [data|] eqn:Ep; [done|].
  destruct (some_and _ _) eqn:Es; [done|]. intros _. rewrite (bind_ok _ _ c c None); [done|].
  by rewrite get_ok, Es, Ep.
Qed.

Lemma take_critical k c id data : conn_wf k c -> streams c !! id = None -> pending_data id c = Some data ->
  exists c', takes id c c'.
Proof.
  intros Hw Hs Hp. assert (waiting id c = [(data, false)]) as Hwait by (unfold waiting, fin_after_data; by rewrite Hp, Hs).
  assert (data <> []) as Hne.
  { intros ->. revert Hp. unfold pending_data. destruct (List.find _ _) as [[b d]|] eqn:Ef; [|done].
    apply List.find_some in Ef as [_ [_ Hd]%andb_true_iff]. cbn in *. by intros [= ->]. }
  assert (forall c', consume_stream_data id (len data) c = Some (c', Ok ()) ->
    take_stream_data id c = Some (c', Ok (head (waiting id c)))) as Htake.
  { intros c' Ec. rewrite Hwait. unfold take_stream_data. rewrite (bind_ok _ _ c c (Some (data, false))).
    - unfold is_empty_bytes. rewrite bool_decide_false by done. cbn [andb]. by rewrite (bind_ok _ _ _ _ _ Ec).
    - unfold get_stream_data. rewrite get_ok, Hs. cbn [some_and]. by rewrite Hp. }
  unfold takes. revert Htake. rewrite Hwait. cbn [tail head]. intros Htake.
  destruct (is_id (control_send_id c) id) eqn:Hc; [|destruct (is_id (encoder_stream_id c) id) eqn:He;
    [|destruct (is_id (decoder_stream_id c) id) eqn:Hd]].
  - pose proof Hc as Hid%bool_decide_eq_true. destruct (w_control_id _ _ Hw _ Hid) as (_ & He & Hd).
    assert (is_id (encoder_stream_id c) id = false /\ is_id (decoder_stream_id c) id = false) as [He' Hd'].
    { unfold is_id. by rewrite !bool_decide_false by done. }
    assert (data = control_get_data (control_send c)) as ->.
    { revert Hp. unfold pending_data. rewrite Hc, He', Hd', Hs. cbn [List.find fst snd andb].
      destruct (is_empty_bytes (control_get_data _)); cbn; [done|by intros [= <-]]. }
    destruct (q_consume_fits (B := SendBuffer) (cs_send_buf (control_send c)) (len (control_get_data (control_send c)))
      (w_control_send _ _ Hw)) as (b & Eb & Hb & Hpk); [split; [apply len_nonneg|done]|]. cbn [q_consume q_peek send_queue] in Eb, Hpk.
    eexists. split; [apply Htake; unfold consume_stream_data; rewrite get_ok, Hc; unfold control_consume_data; by rewrite Eb|].
    split.
    + unfold waiting, pending_data, fin_due, control_send_id, control_get_data. cbn. rewrite Hpk, drop_z_all by done.
      change (is_empty_bytes []) with true. unfold is_id in *. rewrite Hs, He', Hd'. by rewrite andb_false_r.
    + intros id' Hdiff. destruct (other_critical _ _ _ _ Hw Hdiff) as (H1 & _). specialize (H1 Hc).
      unfold waiting, pending_data, fin_due, fin_after_data, control_send_id in *. cbn. rewrite H1. done.
  - pose proof He as Hid%bool_decide_eq_true.
    assert (is_id (decoder_stream_id c) id = false) as Hd'.
    { apply bool_decide_eq_false. by apply (w_qpack_distinct _ _ Hw). }
    assert (data = send_buffer (encoder_stream c)) as ->.
    { revert Hp. unfold pending_data. rewrite Hc, He, Hd', Hs. cbn [List.find fst snd andb].
      destruct (is_empty_bytes (send_buffer _)); cbn; [done|by intros [= <-]]. }
    eexists. split; [apply Htake; unfold consume_stream_data; rewrite get_ok, Hc, He; done|]. split.
    + unfold waiting, pending_data, fin_due, control_send_id in *. cbn. rewrite consume_all_buffer, Hc, Hd', Hs.
      change (is_empty_bytes []) with true. by rewrite andb_false_r.
    + intros id' Hdiff. destruct (other_critical _ _ _ _ Hw Hdiff) as (_ & H1 & _). specialize (H1 He).
      unfold waiting, pending_data, fin_due, fin_after_data, control_send_id in *. cbn. by rewrite H1.
  - assert (data = decoder_stream c) as ->.
    { revert Hp. unfold pending_data. rewrite Hc, He, Hd, Hs. cbn [List.find fst snd andb].
      destruct (is_empty_bytes (decoder_stream c)); cbn; [done|by intros [= <-]]. }
    eexists. split; [apply Htake; unfold consume_stream_data; rewrite get_ok, Hc, He, Hd; done|]. split.
    + unfold waiting, pending_data, fin_due, control_send_id in *. cbn. unfold consume_decoder_data. rewrite consume_all_buffer, Hc, He, Hs.
      change (is_empty_bytes []) with true. by rewrite andb_false_r.
    + intros id' Hdiff. destruct (other_critical _ _ _ _ Hw Hdiff) as (_ & _ & H1). specialize (H1 Hd).
      unfold waiting, pending_data, fin_due, fin_after_data, control_send_id in *. cbn. by rewrite H1.
  - exfalso. revert Hp. unfold pending_data. by rewrite Hc, He, Hd, Hs.
Qed.

Lemma take_waiting k c id : conn_wf k c -> exists c', takes id c c' /\ conn_wf k c'.
Proof.
  intros Hw. assert (exists c', takes id c c') as [c' Ht].
  { destruct (streams c !! id) as [s|] eqn:Hs.
    - destruct (send_peek (rq_send_buf s)) eqn:Hp; [|by eapply take_data].
      destruct (fin_set s) eqn:Hf; [by eapply take_fin_due|]. exists c. apply (take_nothing k); [done|].
      by rewrite (waiting_stream k c id s), Hp, Hf.
    - destruct (pending_data id c) eqn:Hp; [by eapply take_critical|]. exists c. apply (take_nothing k); [done|].
      unfold waiting, fin_due. by rewrite Hp, Hs. }
  exists c'. split; [done|]. destruct Ht as [E _]. exact (take_wf _ _ _ _ _ Hw E).
Qed.

Lemma elem_of_flatten {A} (x : A) (l : list (option A)) : Some x ∈ l -> x ∈ flatten l.
Proof.
  induction l as [|[y|] l IH]; intros H; [by apply elem_of_nil in H|..]; apply elem_of_cons in H as [H|H]; cbn [flatten].
  - injection H as ->. left.
  - right. by apply IH.
  - done.
  - by apply IH.
Qed.
Lemma elem_of_list_here' {A} (x y : A) l : x = y -> x ∈ y :: l.
Proof. intros ->. left. Qed.
Lemma peek_pending b : negb (is_empty_bytes (send_peek b)) = true -> send_has_pending b = true.
Proof.
  intros Hne%negb_true_iff%bool_decide_eq_false. unfold send_has_pending. apply orb_true_iff. left. apply Z.ltb_lt.
  destruct (Z.ltb_spec (send_consumed b) (len (send_data b))) as [|Hge]; [done|]. unfold send_peek in Hne. by rewrite drop_z_all in Hne.
Qed.

(** No stream keeps anything that is not listed. *)
Lemma waiting_writable k c id : conn_wf k c -> waiting id c <> [] -> id ∈ writable_streams c.
Proof.
  intros Hw Hwait. unfold writable_streams. apply elem_of_app. destruct (streams c !! id) as [s|] eqn:Hs.
  - right. apply list_elem_of_In, in_map_iff. exists (id, s). split; [done|]. apply list_elem_of_In, list_elem_of_filter. split; [|by apply elem_of_map_to_list].
    cbn [snd]. unfold has_pending_send, send_has_pending. rewrite (waiting_stream k c id s) in Hwait by done. unfold fin_set in Hwait.
    destruct (send_peek (rq_send_buf s)) as [|x l] eqn:Hp.
    + destruct (_ && negb _) in Hwait |- *; [by rewrite orb_true_r|done].
    + change (send_has_pending (rq_send_buf s) = true). apply peek_pending. by rewrite Hp.
  - left. apply elem_of_flatten. revert Hwait. unfold waiting, fin_due. rewrite Hs. cbn [some_and]. unfold pending_data. rewrite Hs.
    destruct (List.find _ _) as [[b data]|] eqn:Ef; [intros _|done]. apply List.find_some in Ef as [Hin [Hb Hd]%andb_true_iff].
    cbn [fst snd] in Hb, Hd. subst b.
    assert (forall (o : option Z) pending, is_id o id = true -> pending = true -> Some id = if pending then o else None) as Hown.
    { by intros o pending ->%bool_decide_eq_true ->. }
    destruct Hin as [[= Hid <-]|[[= Hid <-]|[[= Hid <-]|[[= <-]|[]]]]]; [| | |done].
    + apply elem_of_list_here', Hown; [by rewrite Hid|]. by apply peek_pending.
    + apply list_elem_of_further, elem_of_list_here', Hown; [by rewrite Hid|done].
    + do 2 apply list_elem_of_further. apply elem_of_list_here', Hown; [by rewrite Hid|done].
Qed.

(** What waits on a stream has one of four shapes. *)
Lemma waiting_shape k c id : conn_wf k c ->
  waiting id c = [] \/ waiting id c = [([], true)] \/
  exists data, data <> [] /\ (waiting id c = [(data, false)] \/ waiting id c = [(data, false); ([], true)]).
Proof.
  intros Hw. unfold waiting. destruct (pending_data id c) as [data|] eqn:Ep.
  - right. right. exists data. split; [|destruct (fin_after_data id c); auto]. intros ->. revert Ep. unfold pending_data.
    destruct (List.find _ _) as [[b d]|] eqn:Ef; [|done]. apply List.find_some in Ef as [_ [_ Hd]%andb_true_iff].
    cbn in *. by intros [= ->].
  - destruct (fin_due id c); auto.
Qed.

Lemma writable_nodup k c : conn_wf k c -> NoDup (writable_streams c).
Proof.
  intros Hw. assert (forall (b1 b2 b3 : bool), let l := flatten [if b1 then control_send_id c else None;
      if b2 then encoder_stream_id c else None; if b3 then decoder_stream_id c else None] in
    NoDup l /\ Forall (fun id => ~ bidi_id id) l) as Hown.
  { intros b1 b2 b3. pose proof (w_control_id _ _ Hw) as H1. pose proof (w_qpack_ids _ _ Hw) as H2. pose proof (w_qpack_distinct _ _ Hw) as H3.
    destruct b1, b2, b3, (control_send_id c) as [a|], (encoder_stream_id c) as [b|], (decoder_stream_id c) as [d|]; cbn [flatten];
      try destruct (H1 _ eq_refl) as (? & ? & ?); try pose proof (H2 _ (or_introl eq_refl)); try pose proof (H2 _ (or_intror eq_refl));
      try pose proof (H3 _ eq_refl); (split; [repeat constructor; set_solver|by repeat constructor]). }
  destruct (Hown (control_has_pending (control_send c)) (negb (is_empty_bytes (send_buffer (encoder_stream c))))
    (negb (is_empty_bytes (decoder_stream c)))) as [Hn Hb]. unfold writable_streams.
  set (l := flatten _) in *. clearbody l. apply NoDup_app. split; [done|].
  assert (forall id, id ∈ map fst (filter (fun x => has_pending_send (snd x) = true) (map_to_list (streams c))) -> bidi_id id) as Hs.
  { intros id Hin. apply list_elem_of_In, in_map_iff in Hin as ([id' s] & <- & Hin). apply list_elem_of_In, list_elem_of_filter in Hin as [_ Hin].
    apply elem_of_map_to_list in Hin. by destruct (stream_at _ _ Hw _ _ Hin) as [[_ ?] _]. }
  split; [intros id Hin Hin2; by apply (proj1 (Forall_forall _ _) Hb id Hin), Hs|].
  eapply sublist_NoDup; [apply (NoDup_fst_map_to_list (streams c))|]. change (map fst) with (fmap (M := list) (@fst Z RequestStream)).
  apply fmap_sublist, sublist_filter.
Qed.
