(* ===== verification/ConnEndToEnd.v ===== *)
(** The sending connection, and the two of them: a request that a client sends is what
    the server reports. No code of its own; ConnExchange has the receiving side. *)

From Stdlib Require Import String Ascii.
From S2P Require Import Prelude Codec Varint Integer Wire Header DynamicTable QpackEncoder QpackDecoder Qpack Settings Frame Error Stream WtStream FrameStream ControlStream RequestStream Validation Capsule Event WtSession Connection ConnInvariant ConnNegotiation ConnWtSession ConnWtStream ConnReceive ConnSafety ConnSend ConnSendSafety ConnOutgoing ConnRun ConnExchange.

(** ** What the checks look at: names and values, not the never-indexed mark *)
Lemma unmarked_request_loop headers : forall s, request_loop s (map unmarked headers) = request_loop s headers.
Proof.
  induction headers as [|h headers IH]; intros s; [done|]. cbn [map request_loop].
  change (is_pseudo (unmarked h)) with (is_pseudo h). change (request_pseudo s (unmarked h)) with (request_pseudo s h).
  change (request_field s (unmarked h)) with (request_field s h). change (value (unmarked h)) with (value h).
  by destruct (if is_pseudo h then _ else _) as [s'|]; cbn [mbind result_bind]; [apply IH|].
Qed.
Lemma unmarked_response_loop headers : forall o b, response_loop o b (map unmarked headers) = response_loop o b headers.
Proof.
  induction headers as [|h headers IH]; intros o b; [done|]. cbn [map response_loop].
  change (is_pseudo (unmarked h)) with (is_pseudo h). change (response_field (unmarked h)) with (response_field h).
  change (value (unmarked h)) with (value h). change (name (unmarked h)) with (name h).
  destruct (is_pseudo h).
  - destruct (refuse_if b) as [|]; [|done]. cbn [mbind result_bind]. destruct (bytes_eqb _ _); [|done].
    repeat (destruct (refuse_if _) as [|]; [|done]; cbn [mbind result_bind]). apply IH.
  - destruct (response_field h) as [|]; [|done]. apply IH.
Qed.
Lemma unmarked_validate headers r : validate_headers (map unmarked headers) r = validate_headers headers r.
Proof.
  destruct r; cbn [validate_headers]; unfold validate_request_headers, validate_response_headers.
  - by rewrite unmarked_response_loop.
  - by rewrite unmarked_request_loop.
Qed.
Lemma unmarked_content_length headers n skip :
  validate_content_length (map unmarked headers) n skip = validate_content_length headers n skip.
Proof.
  unfold validate_content_length. assert (forall o, content_length_loop o (map unmarked headers) = content_length_loop o headers) as H;
    [|by rewrite H].
  induction headers as [|h headers IH]; intros o; [done|]. cbn [map content_length_loop].
  change (name (unmarked h)) with (name h). change (value (unmarked h)) with (value h).
  destruct (negb _); [apply IH|]. repeat (destruct (refuse_if _) as [|]; [|done]; cbn [mbind result_bind]).
  destruct (ok_or _ _) as [v|]; [|done]. apply IH.
Qed.
Lemma unmarked_field n v headers : has_field n v (map unmarked headers) = has_field n v headers.
Proof. unfold has_field. induction headers as [|h headers IH]; [done|]. cbn. by rewrite IH. Qed.
Lemma unmarked_wt_connect headers : is_webtransport_connect (map unmarked headers) = is_webtransport_connect headers.
Proof. unfold is_webtransport_connect. by rewrite !unmarked_field. Qed.
Lemma unmarked_status headers : status_code (map unmarked headers) = status_code headers.
Proof.
  unfold status_code. assert (List.find (fun h => bytes_eqb (name h) (str ":status")) (map unmarked headers) =
    option_map unmarked (List.find (fun h => bytes_eqb (name h) (str ":status")) headers)) as ->.
  { induction headers as [|h headers IH]; [done|]. cbn. by destruct (bytes_eqb _ _). }
  by destruct (List.find _ headers).
Qed.
Lemma unmarked_events id headers : header_events id (map unmarked headers) = header_events id headers.
Proof. unfold header_events. do 2 f_equal. induction headers as [|h headers IH]; [done|]. cbn in *. by rewrite IH. Qed.

(** ** The header section of a connection *)

(** The encoder having nothing in its table, a section is made of static lines, which
    every decoder reads. *)
Definition static_section (huffman : bool) (headers : list Header) : bytes :=
  section_bytes huffman 0 (map static_line headers).

Lemma static_section_decodes huffman headers d : Forall header_encodable headers ->
  table_wf (dec_table d) -> total_header_size headers <= dec_max_field_section_size d ->
  snd (decode_section d (static_section huffman headers)) = Ok (Decoded (map unmarked headers)).
Proof.
  intros Hh Hw Hs. pose proof (len_nonneg (entries (dec_table d))). destruct Hw as [_ _ Hc Hd _].
  unfold static_section. rewrite (decode_section_bytes d huffman 0 0 _ (map unmarked headers)); try done; try lia.
  - cbn [snd]. by solve_cmp.
  - intros _. rewrite total_header_size_unmarked. split; [|done]. apply Forall2_map_diag.
    intros h Hin. rewrite Forall_forall in Hh. by apply static_line_resolves, Hh.
Qed.

Lemma static_section_ok huffman headers : Forall header_encodable headers -> bytes_ok (static_section huffman headers).
Proof.
  intros Hh. unfold static_section, section_bytes. change (integer_bytes 0 8 0) with [0].
  apply bytes_ok_app. split; [by repeat constructor|]. apply bytes_ok_app. split; [by repeat constructor|].
  apply Forall_concat, Forall_map, Forall_map. apply (Forall_impl _ _ _ Hh). intros h Hin.
  destruct (static_line_resolves table_new 0 0 h Hin) as [Hl _]. by apply (field_line_bytes_ok _ _ huffman) in Hl as [_ ?].
Qed.

Lemma encode_attempts_static n headers blocked : Forall header_ok headers -> forall size c c' bs,
  encoder_unused (qpack_encoder c) -> encode_attempts n headers blocked size c = Some (c', Ok bs) ->
  encoder_only c c' /\ exists huffman, bs = static_section huffman headers.
Proof.
  intros Hh. induction n as [|n IH]; intros size c c' bs Hu; cbn [encode_attempts]; [done|].
  pose proof (encode_section_unused _ headers blocked Hu) as Hu'. pose proof (writes_static_section (qpack_encoder c) headers Hh) as Hw.
  unfold encode_section in *. unfold is_empty in *. rewrite Hu in *. cbn [orb fst] in *.
  destruct (encode_static_only _ _ _) as [buf [m|]] eqn:E.
  - intros [= <- <-]. destruct (writes_result _ _ _ _ _ Hw E) as (_ & -> & _). split; by eexists.
  - unfold mbind, action_bind, lift. destruct (ok_or _ _) as [size'|]; [|done]. intros H.
    apply IH in H as [[e ->] Hbs]; [|done]. split; [|done]. by exists e.
Qed.

(** ** A message that is being sent *)
Record sending (id : Z) (pending : bytes) (fin : bool) (c : Connection) : Prop := {
  sn_wf : conn_wf 0 c;
  sn_id : bidi_id id;
  sn_error : error c = None;
  sn_session : wt_sessions c !! id = None;
  sn_closed : in_set (closed_wt_sessions c) id = false;
  sn_stream : exists s, streams c !! id = Some s /\ q_wf (rq_send_buf s) /\ send_peek (rq_send_buf s) = pending /\
    send_fin (rq_send_buf s) = fin /\ send_fin_sent (rq_send_buf s) = false /\ rq_state s <> Reset /\
    (fin = false -> can_send (rq_state s) = true /\ (rq_send_state s = HeadersSent \/ rq_send_state s = SendingBody)) }.

Lemma data_frame d : bytes_ok d -> len d <= VARINT_MAX -> frame_to_vec (Data d) = Some (frame_bytes (Data d)).
Proof. intros. apply frame_to_vec_spec. by apply data_encodable. Qed.

(** What a call that only replaces the stream leaves. *)
Lemma sending_stream id pending fin c pending' fin' s : sending id pending fin c -> stream_wf s ->
  send_peek (rq_send_buf s) = pending' -> send_fin (rq_send_buf s) = fin' ->
  send_fin_sent (rq_send_buf s) = false -> rq_state s <> Reset ->
  (fin' = false -> can_send (rq_state s) = true /\ (rq_send_state s = HeadersSent \/ rq_send_state s = SendingBody)) ->
  sending id pending' fin' (set_streams (<[id := s]> (streams c)) c).
Proof.
  intros [Hw Hi He Hs Hc (s0 & Hs0 & _)] Hsw Hp Hf Hfs Hr Hst. split; try done.
  - destruct (w_streams _ _ Hw _ _ Hs0) as [Hreq _]. by apply insert_stream_wf.
  - exists s. split_and!; try done; [by apply lookup_insert_eq|apply Hsw].
Qed.

Lemma send_body_data id pending c d fin : sending id pending false c -> bytes_ok d -> d <> [] -> len d <= VARINT_MAX ->
  exists c', conn_send_body id d fin c = Some (c', Ok ()) /\ sending id (pending ++ frame_bytes (Data d)) fin c'.
Proof.
  intros Hs Hb Hne Hl. pose proof Hs as [Hw Hi He Hns Hc (s & Hst & Hq & Hp & Hf & Hfs & Hr & Hsend)].
  destruct (Hsend eq_refl) as [Hcan Hstate].
  set (s0 := with_send s (send_push (rq_send_buf s) (frame_bytes (Data d))) SendingBody (rq_state s)).
  set (s' := finish_send s0 fin). assert (send_body s d fin = Some (s', Ok ())) as E.
  { unfold send_body. rewrite Hcan. cbn [negb]. destruct d as [|x d]; [done|].
    destruct Hstate as [-> | ->]; by rewrite (data_frame _ Hb Hl). }
  exists (set_streams (<[id := s']> (streams c)) c). split.
  - apply remember_ok. rewrite (bind_ok check_error_state _ c c tt), get_ok, (lift_ok s).
    + by rewrite (expect_ok _ _ _ _ E).
    + by rewrite Hst.
    + unfold check_error_state. by rewrite gets_ok, He.
  - destruct (w_streams _ _ Hw _ _ Hst) as [_ Hsw]. pose proof (stream_push_wf s (frame_bytes (Data d)) Hsw).
    assert (stream_wf s0) as Hsw0 by (destruct Hsw; by split).
    apply (sending_stream _ _ _ _ _ _ s' Hs).
    + by apply finish_stream_wf.
    + unfold s'. assert (send_peek (rq_send_buf s0) = pending ++ frame_bytes (Data d)) as <- by (cbn -[frame_bytes]; by rewrite send_push_peek, Hp by done). by destruct fin.
    + by destruct fin.
    + by destruct fin.
    + unfold s'. destruct fin; cbn; [by destruct (rq_state s)|done].
    + intros ->. split; [done|by right].
Qed.

Lemma send_body_end id pending c : sending id pending false c ->
  exists c', conn_send_body id [] true c = Some (c', Ok ()) /\ sending id pending true c'.
Proof.
  intros Hs. pose proof Hs as [Hw Hi He Hns Hc (s & Hst & Hq & Hp & Hf & Hfs & Hr & Hsend)].
  destruct (Hsend eq_refl) as [Hcan Hstate]. set (s' := finish_send s true).
  assert (send_body s [] true = Some (s', Ok ())) as E.
  { unfold send_body. rewrite Hcan. cbn [negb]. by destruct Hstate as [-> | ->]. }
  exists (set_streams (<[id := s']> (streams c)) c). split.
  - apply remember_ok. rewrite (bind_ok check_error_state _ c c tt), get_ok, (lift_ok s).
    + by rewrite (expect_ok _ _ _ _ E).
    + by rewrite Hst.
    + unfold check_error_state. by rewrite gets_ok, He.
  - destruct (w_streams _ _ Hw _ _ Hst) as [_ Hsw]. apply (sending_stream _ _ _ _ _ _ s' Hs); try done.
    + by apply finish_stream_wf.
    + cbn. by destruct (rq_state s).
Qed.

Lemma send_bodies id ds : forall pending c, sending id pending false c ->
  Forall (fun d => bytes_ok d /\ d <> [] /\ len d <= VARINT_MAX) ds ->
  exists c', run_ops (map (fun d => OpSendBody id d false) ds) c = Some (c', all_unit (map (fun d => OpSendBody id d false) ds)) /\
    sending id (pending ++ concat (map frame_bytes (map Data ds))) false c'.
Proof.
  induction ds as [|d ds IH]; intros pending c Hs Hd; [exists c; by rewrite app_nil_r|].
  inversion Hd as [|? ? (Hb & Hne & Hl) Hd']; subst. destruct (send_body_data _ _ _ d false Hs Hb Hne Hl) as (c1 & E1 & Hs1).
  destruct (IH _ _ Hs1 Hd') as (c2 & E2 & Hs2). exists c2. cbn [map concat]. rewrite app_assoc. split; [|done].
  cbn [run_ops run_op]. unfold returning at 1. rewrite (bind_ok _ _ _ _ _ E1). unfold mret, action_ret.
  cbn [mbind option_bind]. by rewrite E2.
Qed.

(** What is consumed of a request stream that is not finished yet. *)
Lemma consume_all id pending c : sending id pending true c -> 
  exists c', consume_stream_data id (len pending) c = Some (c', Ok ()) /\ sending id [] true c'.
Proof.
  intros Hs. pose proof Hs as [Hw Hi He Hns Hc (s & Hst & Hq & Hp & Hf & Hfs & Hr & Hsend)].
  destruct (not_own 0 c id Hw Hi) as (E1 & E2 & E3).
  destruct (q_consume_fits (B := SendBuffer) (rq_send_buf s) (len pending) Hq) as (b & Eb & Hb & Hpb).
  { cbn [q_peek send_queue]. rewrite Hp. pose proof (len_nonneg pending). lia. }
  cbn [q_consume q_peek send_queue] in Eb, Hpb.
  assert (send_fin b = true /\ send_fin_sent b = false) as [Hbf Hbs].
  { revert Eb. unfold send_consume. destruct (drain_half _ _) as [[? ?]|]; [|done]. intros [= <-]. cbn. by rewrite Hf, Hfs. }
  set (s' := with_send s b (rq_send_state s) (rq_state s)).
  exists (set_streams (<[id := s']> (streams c)) c). split.
  - unfold consume_stream_data. rewrite get_ok, E1, E2, E3, Hst.
    rewrite (expect_ok _ _ _ s') by (unfold consume_send_data; by rewrite Eb). rewrite modify_ok. unfold modify.
    set (c1 := set_streams _ _).
    replace (remove_stream_if_done id c1) with c1; [done|]. unfold remove_stream_if_done.
    change (closed_wt_sessions c1) with (closed_wt_sessions c). rewrite Hc. unfold c1. cbn [streams set_streams].
    rewrite lookup_insert_eq. cbn [some_and]. unfold stream_done, is_send_complete. cbn. rewrite Hbf, Hbs, andb_false_r.
    by destruct (rq_state s).
  - destruct (w_streams _ _ Hw _ _ Hst) as [_ Hsw]. apply (sending_stream _ _ _ _ _ _ s' Hs); try done.
    + destruct Hsw. by split.
    + cbn. by rewrite Hpb, Hp, drop_z_all by lia.
Qed.

Lemma take_pending id pending c : sending id pending true c -> pending <> [] ->
  exists c', take_stream_data id c = Some (c', Ok (Some (pending, false))) /\ sending id [] true c'.
Proof.
  intros Hs Hne. pose proof Hs as [Hw Hi He Hns Hc (s & Hst & Hq & Hp & Hf & Hfs & Hr & Hsend)].
  destruct (not_own 0 c id Hw Hi) as (E1 & E2 & E3). destruct (consume_all _ _ _ Hs) as (c' & Ec & Hs').
  exists c'. split; [|done].
  assert (get_stream_data id c = Some (c, Ok (Some (pending, false)))) as Eg.
  { unfold get_stream_data. rewrite get_ok, Hst. cbn [some_and]. unfold has_fin_pending.
    rewrite is_data_consumed_peek, Hp by done.
    replace (len pending =? 0) with false by (destruct pending; [done|]; rewrite len_cons; pose proof (len_nonneg pending); by solve_cmp).
    rewrite andb_false_r. cbn [andb]. unfold pending_data. rewrite E1, E2, E3, Hst. cbn [List.find fst snd andb get_send_data].
    rewrite Hp. unfold is_empty_bytes. by rewrite bool_decide_false by done. }
  unfold take_stream_data. rewrite (bind_ok _ _ _ _ _ Eg). unfold is_empty_bytes. rewrite bool_decide_false by done.
  cbn [andb]. by rewrite (bind_ok _ _ _ _ _ Ec).
Qed.

Lemma take_fin id c : sending id [] true c -> exists c', take_stream_data id c = Some (c', Ok (Some ([], true))).
Proof.
  intros Hs. pose proof Hs as [Hw Hi He Hns Hc (s & Hst & Hq & Hp & Hf & Hfs & Hr & Hsend)].
  set (c1 := update_stream id mark_fin_sent c).
  assert (get_stream_data id c = Some (c1, Ok (Some ([], true)))) as Eg.
  { unfold get_stream_data. rewrite get_ok, Hst. cbn [some_and]. unfold has_fin_pending.
    rewrite is_data_consumed_peek, Hp, Hf, Hfs by done. cbn [andb negb Z.eqb len length Z.of_nat].
    change ((len [] =? 0) && true) with true. cbn iota. rewrite modify_ok. unfold has_key. rewrite Hns. done. }
  assert (consume_stream_data id 0 c1 <> None) as Hn.
  { destruct (consume_stream_data_wp 0 c1 id 0) as (c2 & r & E & _); [by apply update_mark_fin_wf| |by rewrite E].
    apply (consumable_nothing 0). by apply update_mark_fin_wf. }
  assert (exists c2, consume_stream_data id 0 c1 = Some (c2, Ok ())) as [c2 E2].
  { destruct (not_own 0 c id Hw Hi) as (E1 & E2 & E3). revert Hn. unfold consume_stream_data. rewrite get_ok.
    change (control_send_id c1) with (control_send_id c). change (encoder_stream_id c1) with (encoder_stream_id c).
    change (decoder_stream_id c1) with (decoder_stream_id c). rewrite E1, E2, E3.
    destruct (streams c1 !! id) as [s1|]; [|by eexists]. unfold expect, mbind, action_bind, option_bind, modify.
    destruct (consume_send_data s1 0); [by eexists|done]. }
  exists c2. unfold take_stream_data. rewrite (bind_ok _ _ _ _ _ Eg).
  change (is_empty_bytes [] && negb true) with false. cbn iota. change (len []) with 0. by rewrite (bind_ok _ _ _ _ _ E2).
Qed.

Lemma request_stream_for_fresh id headers c :
  let s := request_stream_for id headers c in rq_state s = Open /\ rq_send_state s = ReqInitial /\ rq_send_buf s = send_new.
Proof. cbv zeta. unfold request_stream_for. by repeat case_match. Qed.

(** What a request that was accepted leaves to send. *)
Lemma send_request_sends c headers fin id c' : conn_wf 0 c -> op_ok (OpSendRequest headers fin) c ->
  Forall header_encodable headers -> is_webtransport_connect headers = false ->
  send_request headers fin c = Some (c', Ok id) ->
  wt_sessions c' !! id = None -> in_set (closed_wt_sessions c') id = false ->
  validate_request_headers headers = Ok () /\
  exists huffman, len (static_section huffman headers) <= VARINT_MAX /\
    sending id (frame_bytes (Headers (static_section huffman headers))) fin c'.
Proof.
  intros Hw [Hfit Hnext] Hh Hwt E Hns Hc. destruct (w_next _ _ Hw) as [_ Hbidi].
  destruct (send_request_wp 0 c headers fin Hw Hfit Hnext) as (c1 & r & E1 & Hw' & _). rewrite E in E1. injection E1 as <- <-.
  assert (Forall header_ok headers) as Hok by (apply (Forall_impl _ _ _ Hh); by intros h [[] []]).
  unfold send_request in E. apply check_error_inv in E as [He E]. rewrite get_ok in E.
  apply throw_if_inv in E as [Hrole E]. apply throw_if_inv in E as [_ E]. apply lift_inv in E as ([] & Hv & E).
  apply lift_inv in E as (? & _ & E). apply lift_inv in E as (? & _ & E). apply throw_if_inv in E as [_ E].
  apply bind_inv in E as (c2 & buf & Ebuf & E).
  destruct (encode_qpack_headers_wp 0 c headers (blocked_streams_count (qpack_encoder c)) Hw Hfit) as (c3 & r3 & E3 & _ & _ & Hr3).
  rewrite Ebuf in E3. injection E3 as <- <-. destruct Hr3 as [Hlen _].
  apply encode_attempts_static in Ebuf as [[e ->] [huffman ->]]; [|done|apply (w_encoder _ _ Hw)].
  split; [done|]. exists huffman. split; [done|].
  apply expect_inv in E as (next & _ & E). rewrite modify_ok in E. apply throw_if_inv in E as [_ E].
  apply expect_inv in E as ([s res] & Es & E). cbn [fst snd] in E. apply lift_inv in E as ([] & -> & E).
  rewrite !modify_ok in E. unfold mret, action_ret in E. injection E as <- <-.
  revert Hns Hc Hw'. unfold register_sent_connect. rewrite Hwt. intros Hns Hc Hw'.
  split; try done. cbn [streams set_streams]. exists s. split; [by rewrite lookup_insert_eq|].
  revert Es. destruct (request_stream_for_fresh (next_stream_id c) headers c) as (H1 & H2 & H3).
  set (s0 := request_stream_for _ _ _) in *.
  unfold send_encoded_headers.
  rewrite H1. cbn [can_send negb]. unfold headers_refused. rewrite H2. cbn [andb].
  rewrite frame_to_vec_spec by (apply headers_encodable; [by apply static_section_ok|done]). cbn [mbind option_bind finish_send].
  intros [= <-]. destruct fin; cbn -[frame_bytes static_section]; rewrite ?H1, ?H3; split_and!; try done; try by left.
  intros _. split; [done|by left].
Qed.

(** ** From one connection to the other *)
Definition body_calls (id : Z) (ds : list bytes) : list conn_op := map (fun d => OpSendBody id d false) ds ++ [OpSendBody id [] true].
Definition body_ok (d : bytes) : Prop := bytes_ok d /\ d <> [] /\ len d <= VARINT_MAX.

(** The pieces of a body, the end of the stream, and the two calls that hand the stream
    to QUIC: the bytes, then the FIN. *)
Definition send_ops (id : Z) (ds : list bytes) : list conn_op := body_calls id ds ++ [OpTakeStreamData id; OpTakeStreamData id].
Definition send_results (id : Z) (ds : list bytes) (sent : bytes) : list (result Error output) :=
  all_unit (body_calls id ds) ++ [Ok (OutData (Some (sent, false))); Ok (OutData (Some ([], true)))].

Lemma message_sent id ds pending c : sending id pending false c -> pending <> [] -> Forall body_ok ds ->
  exists c', run_ops (send_ops id ds) c = Some (c', send_results id ds (pending ++ concat (map frame_bytes (map Data ds)))).
Proof.
  intros Hs Hne Hd. destruct (send_bodies _ _ _ _ Hs Hd) as (c1 & E1 & Hs1).
  destruct (send_body_end _ _ _ Hs1) as (c2 & E2 & Hs2). destruct (take_pending _ _ _ Hs2) as (c3 & E3 & Hs3).
  { intros E%app_eq_nil. by apply Hne, E. }
  destruct (take_fin _ _ Hs3) as (c4 & E4). exists c4. unfold send_ops, send_results, body_calls, all_unit. rewrite map_app.
  apply (run_ops_app _ _ _ c2).
  - apply (run_ops_app _ _ _ c1 _ _ _ E1). apply run_one. exact (returning_ok (fun _ => OutUnit) _ _ _ _ E2).
  - apply (run_ops_app [_] [_] _ c3 [_] _ [_]); apply run_one; [exact (returning_ok OutData _ _ _ _ E3)|exact (returning_ok OutData _ _ _ _ E4)].
Qed.

(** A stream on which nothing has been sent. *)
Record unanswered (id : Z) (c : Connection) : Prop := {
  ua_session : wt_sessions c !! id = None;
  ua_closed : in_set (closed_wt_sessions c) id = false;
  ua_stream : exists s, streams c !! id = Some s /\ send_peek (rq_send_buf s) = [] /\ send_fin (rq_send_buf s) = false /\
    send_fin_sent (rq_send_buf s) = false /\ rq_send_state s = ReqInitial }.

Lemma send_response_sends c id headers c' : conn_wf 0 c -> bidi_id id -> section_fits headers -> unanswered id c ->
  Forall header_encodable headers -> is_interim headers = false -> send_response id headers false c = Some (c', Ok ()) ->
  role c = Server /\ validate_response_headers headers = Ok () /\
  exists huffman, len (static_section huffman headers) <= VARINT_MAX /\
    sending id (frame_bytes (Headers (static_section huffman headers))) false c'.
Proof.
  intros Hw Hid Hfit [Hns Hc (s & Hs & Hp & Hf & Hfs & Hst)] Hh Hi E.
  destruct (send_response_safe id headers false Hfit 0 c Hw) as (c1 & r & E1 & Hw' & _). rewrite E in E1. injection E1 as <- <-.
  assert (Forall header_ok headers) as Hok by (apply (Forall_impl _ _ _ Hh); by intros h [[] []]).
  unfold send_response in E. apply check_error_inv in E as [He E]. rewrite get_ok in E.
  apply throw_if_inv in E as [Hrole E]. apply lift_inv in E as ([] & Hv & E).
  apply lift_inv in E as (? & _ & E). apply lift_inv in E as (? & _ & E).
  apply bind_inv in E as (c2 & buf & Ebuf & E).
  destruct (encode_qpack_headers_wp 0 c headers (blocked_streams_count (qpack_encoder c)) Hw Hfit) as (c3 & r3 & E3 & _ & _ & Hr3).
  rewrite Ebuf in E3. injection E3 as <- <-. destruct Hr3 as [Hlen _].
  apply encode_attempts_static in Ebuf as [[e ->] [huffman ->]]; [|done|apply (w_encoder _ _ Hw)].
  apply negb_false_iff, bool_decide_eq_true in Hrole. split; [done|]. split; [done|]. exists huffman. split; [done|].
  apply lift_inv in E as (s1 & Es1 & E). change (streams (set_qpack_encoder e c)) with (streams c) in Es1.
  rewrite Hs in Es1. injection Es1 as <-. apply expect_inv in E as ([s2 res] & Es & E). rewrite modify_ok in E.
  cbn [fst snd] in E. apply lift_inv in E as ([] & -> & E).
  destruct (w_streams _ _ Hw _ _ Hs) as [_ Hsw].
  assert (can_send (rq_state s) = true) as Hcan.
  { revert Es. unfold send_encoded_headers. by destruct (can_send (rq_state s)). }
  revert Es. unfold send_encoded_headers, headers_refused. rewrite Hcan, Hst, Hi. cbn [negb andb].
  rewrite frame_to_vec_spec by (apply headers_encodable; [by apply static_section_ok|done]). cbn [mbind option_bind finish_send].
  intros [= <-]. set (c4 := set_streams _ _) in E. rewrite modify_ok in E.
  replace (reject_session id headers c4) with c4 in E.
  2: { unfold reject_session. change (wt_sessions c4) with (wt_sessions c). rewrite Hns. by rewrite andb_false_r. }
  assert (establish_wt_session_server id headers c4 = Some (c4, Ok ())) as Eest.
  { unfold establish_wt_session_server. rewrite get_ok. destruct (_ || _); [done|].
    by rewrite (bind_ok _ _ _ _ _ (establish_nothing id c4 Hns)). }
  rewrite (bind_ok _ _ _ _ _ Eest) in E. unfold modify in E. injection E as <-.
  split; try done. cbn [streams set_streams track_sent_section set_qpack_encoder c4].
  eexists. split; [apply lookup_insert_eq|]. cbn -[frame_bytes static_section].
  destruct Hsw as [_ Hb _ _]. split_and!; try done.
  - exact (q_push_wf (B := SendBuffer) _ _ Hb).
  - by rewrite send_push_peek, Hp.
  - intros E. by rewrite E in Hcan.
  - intros _. split; [done|by left].
Qed.

(** A receiver that is ready for a message: on a stream of its own request, or, at a
    server that has not announced its end, on a new one. *)
Inductive expects (id limit : Z) (head : bool) (c : Connection) : Prop :=
| expects_answer s : streams c !! id = Some s -> recv_peek (rq_recv_buf s) = [] -> recv_fin (rq_recv_buf s) = false ->
    rq_state s = Open \/ rq_state s = LocalClosed -> rq_qpack_blocked s = false -> rq_is_wt_connect s = false ->
    rq_recv_state s = WaitingHeaders -> rq_recv_body s = [] ->
    head = rq_is_head_request s -> limit = rq_max_received_body_size s -> expects id limit head c
| expects_request : role c = Server -> streams c !! id = None ->
    (forall g, last_sent_goaway_id c = Some g -> id < g) ->
    head = false -> limit = limit_received_body_size (limits c) -> expects id limit head c.

Lemma expects_awaited id limit head c enc hs ds : conn_wf 0 c -> expects id limit head c ->
  awaited id enc hs ds c [] limit head.
Proof.
  intros Hw [s Hs Hp Hf Ho Hb Hwt Hst Hbody -> ->|Hr Hs Hg -> ->]; [|by constructor].
  destruct (w_streams _ _ Hw _ _ Hs) as [_ [Hq _ _ _]]. apply (awaited_known _ _ _ _ _ _ _ _ s). split; try done.
  exists []. split; [by constructor|]. unfold so_far. by rewrite app_nil_r.
Qed.

(** [sent] carries the message, which is one that an endpoint in role [r] accepts. *)
Record carries (r : Role) (headers : list Header) (ds : list bytes) (head : bool) (enc sent : bytes) : Prop := {
  ca_section : exists huffman, enc = static_section huffman headers;
  ca_bytes : sent = frame_bytes (Headers enc) ++ concat (map frame_bytes (map Data ds));
  ca_headers : Forall header_encodable headers;
  ca_section_len : len enc <= VARINT_MAX;
  ca_body : Forall body_ok ds;
  ca_valid : validate_headers headers r = Ok ();
  ca_plain : is_webtransport_connect headers = false;
  ca_final : r = Client -> is_informational_status headers = false;
  ca_length : validate_content_length headers (len (concat ds))
    (bool_decide (r = Client) && (head || is_no_body_status headers)) = Ok () }.

(** A receiver in role [r], in any state it can get into, that expects a message on the
    stream, and for which this one is not too large. *)
Record receives (id : Z) (r : Role) (headers : list Header) (ds : list bytes) (limit : Z) (head : bool) (c : Connection) : Prop := {
  rc_reachable : exists settings, settings_ok settings /\ reachable r settings c;
  rc_ordinary : ordinary id c;
  rc_expects : expects id limit head c;
  rc_section : total_header_size headers <= dec_max_field_section_size (qpack_dynamic_decoder c);
  rc_body : len (concat ds) <= limit < U64_MAX }.

(** What was sent, cut up in any way, arrives as the message it was. *)
Definition arrives (id : Z) (r : Role) (headers : list Header) (ds : list bytes) (limit : Z) (head : bool) (sent : bytes) : Prop :=
  forall c chunks last, receives id r headers ds limit head c -> Forall (fun d => d <> []) chunks -> concat chunks ++ last = sent ->
  exists c', run_ops (feed_ops id chunks last) c = Some (c', all_unit (feed_ops id chunks last)) /\
    events c' = events c ++ header_events id headers ++ map (EvData id) ds ++ [EvStreamEnd id].

Lemma carries_acceptable id r headers ds limit head enc sent c : carries r headers ds head enc sent ->
  receives id r headers ds limit head c -> acceptable enc (map unmarked headers) ds c limit head.
Proof.
  intros [[huffman ->] _ Hh Hlen Hds Hv Hwt Hinf Hcl] [(settings & Hset & Hr) _ _ Hsize Hlim].
  pose proof (reachable_role _ _ _ Hset Hr) as Hrole. destruct (w_decoder _ _ (reachable_wf _ _ _ Hset Hr)) as (_ & _ & Ht & _). split.
  - constructor; [by apply headers_encodable; [by apply static_section_ok|]|]. apply Forall_map.
    apply (Forall_impl _ _ _ Hds). intros d (? & _ & ?). by apply data_encodable.
  - by apply static_section_decodes.
  - by rewrite Hrole, unmarked_validate.
  - by rewrite unmarked_wt_connect.
  - rewrite Hrole. unfold is_informational_status. by rewrite unmarked_status.
  - done.
  - unfold is_no_body_status. by rewrite Hrole, unmarked_content_length, unmarked_status.
Qed.
Lemma carries_arrives id r headers ds limit head enc sent : carries r headers ds head enc sent ->
  arrives id r headers ds limit head sent.
Proof.
  intros Hca c chunks last Hrc Hne Hcat. pose proof (carries_acceptable _ _ _ _ _ _ _ _ _ Hca Hrc) as Hac.
  destruct Hrc as [(settings & Hset & Hr) Hord Hex _ _].
  destruct (message_delivered id enc (map unmarked headers) ds c [] limit head) with (chunks := chunks) (last := last)
    as (c' & E & He & _); try done.
  - apply expects_awaited; [by apply (reachable_wf _ _ _ Hset Hr)|done].
  - by rewrite Hcat, (ca_bytes _ _ _ _ _ _ Hca).
  - exists c'. split; [done|]. unfold so_far, delivered in He. cbn [app] in He.
    by rewrite He, unmarked_events, firstn_all, <- !app_assoc.
Qed.

Lemma transfer id r headers huffman ds head c : sending id (frame_bytes (Headers (static_section huffman headers))) false c ->
  Forall header_encodable headers -> len (static_section huffman headers) <= VARINT_MAX -> Forall body_ok ds ->
  validate_headers headers r = Ok () -> is_webtransport_connect headers = false ->
  (r = Client -> is_informational_status headers = false) ->
  validate_content_length headers (len (concat ds))
    (bool_decide (r = Client) && (head || is_no_body_status headers)) = Ok () ->
  exists sent c', run_ops (send_ops id ds) c = Some (c', send_results id ds sent) /\
    carries r headers ds head (static_section huffman headers) sent.
Proof.
  intros Hs Hh Hlen Hds Hv Hwt Hinf Hcl. destruct (message_sent _ ds _ _ Hs) as (c' & E); [|done|].
  { intros En. by apply (f_equal length) in En. }
  eexists _, c'. split; [exact E|]. by split; [exists huffman|..].
Qed.

(** C2. A request that a client sends is what the server reports: the client being in any
    state it can get into, once it has accepted the headers it takes the body in any
    pieces and hands over bytes and a FIN; and a server in any state it can get into that
    is fed those bytes, in any chunks, accepts every chunk and adds to its events exactly
    the headers, the pieces of the body and the end of the stream. *)
Theorem request_end_to_end settings c c1 id headers ds limit : settings_ok settings -> reachable Client settings c ->
  op_ok (OpSendRequest headers false) c -> run_op (OpSendRequest headers false) c = Some (c1, Ok (OutStream id)) ->
  wt_sessions c1 !! id = None -> in_set (closed_wt_sessions c1) id = false ->
  Forall header_encodable headers -> is_webtransport_connect headers = false -> Forall body_ok ds ->
  validate_content_length headers (len (concat ds)) false = Ok () ->
  exists sent c2, run_ops (send_ops id ds) c1 = Some (c2, send_results id ds sent) /\
    arrives id Server headers ds limit false sent.
Proof.
  intros Hset Hr Hop E Hns Hc Hh Hwt Hds Hcl. pose proof (reachable_wf _ _ _ Hset Hr) as Hw.
  cbn [run_op] in E. unfold returning in E. apply bind_inv in E as (c2 & id2 & E & E2). injection E2 as -> ->.
  destruct (send_request_sends _ _ _ _ _ Hw Hop Hh Hwt E Hns Hc) as (Hv & huffman & Hl & Hs).
  destruct (transfer id Server headers huffman ds false c1) as (sent & c3 & Et & Hca); [done..|].
  exists sent, c3. split; [exact Et|]. by apply (carries_arrives _ _ _ _ _ _ _ _ Hca).
Qed.

(** C3. A response that a server sends is what the client reports, under the conditions of
    [request_end_to_end] for the other direction; for the answer to a HEAD request, and
    for a status without a body, the content length says nothing of the body. *)
Theorem response_end_to_end settings c c1 id headers ds limit head : settings_ok settings -> reachable Server settings c ->
  bidi_id id -> unanswered id c ->
  op_ok (OpSendResponse id headers false) c -> run_op (OpSendResponse id headers false) c = Some (c1, Ok OutUnit) ->
  Forall header_encodable headers -> is_webtransport_connect headers = false ->
  is_interim headers = false -> is_informational_status headers = false -> Forall body_ok ds ->
  validate_content_length headers (len (concat ds)) (head || is_no_body_status headers) = Ok () ->
  exists sent c2, run_ops (send_ops id ds) c1 = Some (c2, send_results id ds sent) /\
    arrives id Client headers ds limit head sent.
Proof.
  intros Hset Hr Hid Hun Hop E Hh Hwt Hi Hinf Hds Hcl. pose proof (reachable_wf _ _ _ Hset Hr) as Hw.
  cbn [run_op] in E. unfold returning in E. apply bind_inv in E as (c2 & [] & E & E2). injection E2 as ->.
  destruct (send_response_sends _ _ _ _ Hw Hid Hop Hun Hh Hi E) as (_ & Hv & huffman & Hl & Hs).
  destruct (transfer id Client headers huffman ds head c1) as (sent & c3 & Et & Hca); [done..|].
  exists sent, c3. split; [exact Et|]. by apply (carries_arrives _ _ _ _ _ _ _ _ Hca).
Qed.

(** ** Witnesses *)
Definition post_headers : list Header := get_headers ++ [mkHeader (str "content-length") (str "5") false].
Definition post_body : list bytes := [str "he"; str "llo"].
Definition ok_headers : list Header := [mkHeader (str ":status") (str "200") false; mkHeader (str "server") (str "h3") false].

Definition idle_client : list conn_op := [OpInitH3Streams 2 6 10; OpFeedStream 3 [0x00; 0x04; 0x00] false].
Definition idle_server : list conn_op := [OpInitH3Streams 3 7 11; OpFeedStream 2 [0x00; 0x04; 0x00] false].
Definition asking_client : list conn_op := idle_client ++ [OpSendRequest get_headers true].
Definition asked_server : list conn_op := idle_server ++ [OpFeedStream 0 (frame_bytes (Headers (static_section true get_headers))) true].

Lemma post_arrives : exists s, state_after Server settings_new idle_server = Some s /\
  receives 0 Server post_headers post_body 16777216 false s.
Proof.
  destruct (state_after Server settings_new idle_server) as [s|] eqn:E; [|vm_compute in E; discriminate].
  assert (reachable Server settings_new s) as Hr.
  { apply (state_after_reachable _ _ idle_server); [vm_compute; reflexivity|exact E]. }
  exists s. split; [reflexivity|]. vm_compute in E. injection E as <-. split.
  - exists settings_new. split; [repeat split|exact Hr].
  - by split.
  - by apply expects_request.
  - by vm_compute.
  - by split; vm_compute.
Qed.

Lemma answer_arrives : exists c, state_after Client settings_new asking_client = Some c /\
  receives 0 Client ok_headers post_body 16777216 false c.
Proof.
  destruct (state_after Client settings_new asking_client) as [c|] eqn:E; [|vm_compute in E; discriminate].
  assert (reachable Client settings_new c) as Hr.
  { apply (state_after_reachable _ _ asking_client); [vm_compute; reflexivity|exact E]. }
  exists c. split; [reflexivity|]. vm_compute in E. injection E as <-. split.
  - exists settings_new. split; [repeat split|exact Hr].
  - by split.
  - eapply expects_answer; try done. by right.
  - by vm_compute.
  - by split; vm_compute.
Qed.

Lemma post_encodable : Forall header_encodable post_headers.
Proof. repeat constructor; by vm_compute. Qed.
Lemma ok_encodable : Forall header_encodable ok_headers.
Proof. repeat constructor; by vm_compute. Qed.
Lemma post_body_ok : Forall body_ok post_body.
Proof. repeat constructor; by vm_compute. Qed.

Lemma request_end_to_end_witness :
  exists c c1 c2 s s' sent, state_after Client settings_new idle_client = Some c /\
    run_op (OpSendRequest post_headers false) c = Some (c1, Ok (OutStream 0)) /\
    run_ops (send_ops 0 post_body) c1 = Some (c2, send_results 0 post_body sent) /\
    state_after Server settings_new idle_server = Some s /\
    run_ops (feed_ops 0 [] sent) s = Some (s', [Ok OutUnit]) /\
    events s' = events s ++ header_events 0 post_headers ++ [EvData 0 (str "he"); EvData 0 (str "llo"); EvStreamEnd 0].
Proof.
  destruct (state_after Client settings_new idle_client) as [c|] eqn:E; [|vm_compute in E; discriminate].
  assert (reachable Client settings_new c) as Hr.
  { apply (state_after_reachable _ _ idle_client); [vm_compute; reflexivity|exact E]. }
  assert (op_ok (OpSendRequest post_headers false) c) as Hop.
  { vm_compute in E. injection E as <-. apply (bool_decide_unpack _). vm_compute. exact I. }
  destruct (run_op (OpSendRequest post_headers false) c) as [[c1 r]|] eqn:E1; [|exfalso; vm_compute in E; injection E as <-; vm_compute in E1; discriminate].
  assert (r = Ok (OutStream 0) /\ wt_sessions c1 !! 0 = None /\ in_set (closed_wt_sessions c1) 0 = false) as (-> & Hn & Hc).
  { vm_compute in E. injection E as <-. vm_compute in E1. injection E1 as <- <-. repeat split. }
  destruct post_arrives as (s & Es & Hs).
  destruct (request_end_to_end settings_new c c1 0 post_headers post_body 16777216) as (sent & c2 & E2 & Harr);
    [repeat split|exact Hr|exact Hop|exact E1|exact Hn|exact Hc|exact post_encodable
    |vm_compute; reflexivity|exact post_body_ok|vm_compute; reflexivity|].
  destruct (Harr s [] sent Hs) as (s' & E3 & He); [constructor|reflexivity|].
  exists c, c1, c2, s, s', sent. split; [reflexivity|]. split; [exact E1|]. split; [exact E2|]. split; [exact Es|]. split; [exact E3|exact He].
Defined.

Lemma response_end_to_end_witness :
  exists c c1 c2 s s' sent, state_after Server settings_new asked_server = Some c /\
    run_op (OpSendResponse 0 ok_headers false) c = Some (c1, Ok OutUnit) /\
    run_ops (send_ops 0 post_body) c1 = Some (c2, send_results 0 post_body sent) /\
    state_after Client settings_new asking_client = Some s /\
    run_ops (feed_ops 0 [] sent) s = Some (s', [Ok OutUnit]) /\
    events s' = events s ++ header_events 0 ok_headers ++ [EvData 0 (str "he"); EvData 0 (str "llo"); EvStreamEnd 0].
Proof.
  destruct (state_after Server settings_new asked_server) as [c|] eqn:E; [|vm_compute in E; discriminate].
  assert (reachable Server settings_new c) as Hr.
  { apply (state_after_reachable _ _ asked_server); [vm_compute; reflexivity|exact E]. }
  assert (op_ok (OpSendResponse 0 ok_headers false) c) as Hop.
  { vm_compute in E. injection E as <-. apply (bool_decide_unpack _). vm_compute. exact I. }
  assert (unanswered 0 c) as Hun.
  { vm_compute in E. injection E as <-. split; [reflexivity|reflexivity|]. eexists. split; [reflexivity|repeat split]. }
  assert (exists c1, run_op (OpSendResponse 0 ok_headers false) c = Some (c1, Ok OutUnit)) as (c1 & E1).
  { vm_compute in E. injection E as <-. eexists. vm_compute. reflexivity. }
  destruct answer_arrives as (s & Es & Hs).
  destruct (response_end_to_end settings_new c c1 0 ok_headers post_body 16777216 false) as (sent & c2 & E2 & Harr);
    [repeat split|exact Hr|reflexivity|exact Hun|exact Hop|exact E1|exact ok_encodable|vm_compute; reflexivity..|exact post_body_ok|vm_compute; reflexivity|].
  destruct (Harr s [] sent Hs) as (s' & E3 & He); [constructor|reflexivity|].
  exists c, c1, c2, s, s', sent. split; [reflexivity|]. split; [exact E1|]. split; [exact E2|]. split; [exact Es|]. split; [exact E3|exact He].
Defined.
