(* ===== verification/ConnMidway.v ===== *)
(** A message on its way, while the receiver's events are taken and its QPACK streams are
    read between the chunks: no code of its own, but what a task that polls a connection
    after every chunk relies on. *)

From Stdlib Require Import String Ascii.
From S2P Require Import Prelude Codec Varint Header Settings Frame Error Stream EncoderStream DecoderStream QpackEncoder QpackDecoder Qpack ControlStream RequestStream Validation Capsule Event WtSession Connection ConnInvariant ConnNegotiation ConnWtSession ConnWtStream ConnReceive ConnSafety ConnSend ConnSendSafety ConnRun ConnEvents ConnExchange ConnOutgoing ConnEndToEnd.

(** ** What does not disturb a stream; [seen] are the events that were taken *)
Record undisturbed (id : Z) (seen : list Event) (c c' : Connection) : Prop := {
  un_stream : streams c' !! id = streams c !! id;
  un_context : context c' = context c;
  un_decoder : qpack_dynamic_decoder c' = qpack_dynamic_decoder c;
  un_events : events c = seen ++ events c' }.

Lemma undisturbed_refl id c : undisturbed id [] c c.
Proof. done. Qed.
Lemma undisturbed_trans id a b c c1 c2 : undisturbed id a c c1 -> undisturbed id b c1 c2 -> undisturbed id (a ++ b) c c2.
Proof. intros [A1 A2 A3 A4] [B1 B2 B3 B4]. split; try congruence. by rewrite A4, B4, app_assoc. Qed.

(** No stream can be unblocked, and there is no error. *)
Definition settled (c : Connection) : Prop := error c = None /\ unblockable c = [].
Lemma context_settled c c' : context c' = context c -> settled c -> settled c'.
Proof.
  unfold context, settled, unblockable. intros [= Hr He ? ? ? ? ? ? ? ? ? ? Hb Hi]. by rewrite He, Hb, Hi.
Qed.

Lemma drain_settled id c : settled c ->
  drain_events c = Some (set_events [] c, Ok (events c)) /\ undisturbed id (events c) c (set_events [] c).
Proof.
  intros [He Hu]. split.
  - unfold drain_events, remember_connection_error, check_error_state.
    rewrite (bind_ok _ _ c c tt) by by rewrite gets_ok, He.
    assert (retry_blocked_streams c = Some (c, Ok ())) as Er; [|by rewrite (bind_ok _ _ _ _ _ Er)].
    unfold retry_blocked_streams. rewrite gets_ok, Hu, modify_ok. cbn [retry_list list_to_set foldr].
    replace (blocked_by_ricnt c ∖ _) with (blocked_by_ricnt c) by set_solver. by destruct c.
  - by split; [..|cbn; rewrite app_nil_r].
Qed.

(** Reading a stream that is not one for requests. *)
Lemma take_undisturbed id id' c c' o : streams c !! id' = None -> take_stream_data id' c = Some (c', Ok o) ->
  undisturbed id [] c c'.
Proof.
  intros Hs. unfold take_stream_data, get_stream_data.
  rewrite (bind_ok _ _ c c (option_map (fun data => (data, false)) (pending_data id' c))) by by rewrite get_ok, Hs.
  destruct (pending_data id' c) as [data|]; cbn [option_map]; [|by intros [= <- _]].
  destruct (_ && _); [by intros [= <- _]|]. intros (c1 & [] & E1 & [= <- _])%bind_inv. revert E1.
  unfold consume_stream_data. rewrite get_ok, Hs. unfold expect, done_with, modify, mret, action_ret.
  destruct (is_id _ _); [|destruct (is_id _ _); [|destruct (is_id _ _)]]; [|by intros [= <-]..].
  destruct (control_consume_data _ _); [|done]. by intros [= <-].
Qed.

(** ** A message of which [rest] is still to come

    [before] are the events that were queued when it began, [taken] those that have been
    taken since. *)
Inductive midway (id : Z) (headers : list Header) (ds : list bytes) (before taken : list Event) (rest : bytes) (c : Connection) : Prop :=
| midway_intro c0 enc limit head s buf left :
    acceptable enc (map unmarked headers) ds c0 limit head -> ordinary id c0 -> unblockable c0 = [] -> events c0 = before ->
    stage id enc (map unmarked headers) ds c0 taken limit head false buf left c s ->
    buf ++ rest = concat (map frame_bytes left) -> midway id headers ds before taken rest c.

(** What is reported of a message. *)
Definition message_events (id : Z) (headers : list Header) (ds : list bytes) : list Event :=
  header_events id headers ++ map (EvData id) ds ++ [EvStreamEnd id].

Lemma midway_settled id headers ds before taken rest c : midway id headers ds before taken rest c -> settled c.
Proof.
  intros [c0 enc limit head s buf left Hac Hord Hu _ Hs _]. apply (context_settled c0); [apply Hs|]. split; [apply Hord|done].
Qed.
Lemma midway_stream id headers ds before taken rest c : midway id headers ds before taken rest c -> is_Some (streams c !! id).
Proof. intros [c0 enc limit head s buf left Hac Hord Hu _ Hs _]. exists s. apply Hs. Qed.

(** The events so far, and some are still to come. *)
Lemma midway_events id headers ds before taken rest c : midway id headers ds before taken rest c ->
  exists x more, taken ++ events c ++ x :: more = before ++ message_events id headers ds.
Proof.
  intros [c0 enc limit head s buf left Hac Hord Hu <- Hs _]. destruct (sg_at _ _ _ _ _ _ _ _ _ _ _ _ _ Hs) as (l & Hat & Hso).
  unfold so_far, message_events in *. destruct Hat as [_ _ _|n _ _ Hn _].
  - exists (EvHeadersBegin id). eexists. by rewrite (app_assoc taken), Hso, app_nil_r.
  - destruct (map (EvData id) (drop n ds) ++ [EvStreamEnd id]) as [|x more] eqn:Em; [by apply app_eq_nil in Em as [_ ?]|].
    exists x, more. rewrite (app_assoc taken), Hso, <- Em. unfold delivered. rewrite unmarked_events, <- !app_assoc. do 2 f_equal.
    by rewrite app_assoc, <- map_app, take_drop.
Qed.

Lemma midway_undisturbed id headers ds before taken rest c c' seen : midway id headers ds before taken rest c ->
  undisturbed id seen c c' -> midway id headers ds before (taken ++ seen) rest c'.
Proof.
  intros [c0 enc limit head s buf left Hac Hord Hu Hb [Hs Hc Hw Hp Hf Ho Hbl Hwt Hh Hl (l & Hat & Hso)] Hcat] [A1 A2 A3 A4].
  apply (midway_intro _ _ _ _ _ _ _ c0 enc limit head s buf left); try done. split; try done; [congruence..|].
  exists l. split; [destruct Hat; [constructor; congruence|by constructor]|].
  unfold so_far in *. by rewrite <- app_assoc, <- A4.
Qed.

(** A chunk. *)
Lemma midway_feed id headers ds before taken data rest c : midway id headers ds before taken (data ++ rest) c ->
  exists c', feed_stream id data false c = Some (c', Ok ()) /\ midway id headers ds before taken rest c'.
Proof.
  intros [c0 enc limit head s buf left Hac Hord Hu Hb Hs Hcat].
  destruct (feed_more _ _ _ _ _ _ _ _ Hac Hord _ _ _ _ _ _ Hs Hcat) as (c' & s' & buf' & left' & E & Hs' & Hrest).
  exists c'. split; [done|]. by apply (midway_intro _ _ _ _ _ _ _ c0 enc limit head s' buf' left').
Qed.
(** The last of it. *)
Lemma midway_last id headers ds before taken rest c : midway id headers ds before taken rest c ->
  exists c', feed_stream id rest true c = Some (c', Ok ()) /\ settled c' /\
    taken ++ events c' = before ++ message_events id headers ds.
Proof.
  intros [c0 enc limit head s buf left Hac Hord Hu Hb Hs Hcat].
  destruct (feed_last _ _ _ _ _ _ _ _ Hac Hord _ _ _ _ _ Hs Hcat) as (c' & E & He & Hc).
  exists c'. split; [done|]. split; [apply (context_settled c0); [done|]; split; [apply Hord|done]|].
  unfold so_far, delivered in He. unfold message_events. by rewrite He, Hb, unmarked_events, firstn_all, <- !app_assoc.
Qed.

(** The answer to a request. *)
Lemma midway_answer id r headers ds limit head enc sent c : carries r headers ds head enc sent ->
  receives id r headers ds limit head c -> is_Some (streams c !! id) -> unblockable c = [] ->
  midway id headers ds (events c) [] sent c.
Proof.
  intros Hca Hrc [s Hs] Hu. pose proof (carries_acceptable _ _ _ _ _ _ _ _ _ Hca Hrc) as Hac.
  destruct Hrc as [(settings & Hset & Hr) Hord Hex _ _].
  destruct (expects_awaited id limit head c enc (map unmarked headers) ds) as [s0 Hst|_ _ Hn]; [by apply (reachable_wf _ _ _ Hset Hr)|done| |congruence].
  apply (midway_intro _ _ _ _ _ _ _ c enc limit head s0 [] (message_frames enc ds)); try done. by rewrite (ca_bytes _ _ _ _ _ _ Hca).
Qed.

(** ** A stream that a server has been told of before its first byte *)
Definition unannounced (id : Z) (c : Connection) : Connection :=
  set_pending_bidi_dispatch (delete id (pending_bidi_dispatch c)) c.

(** [base] is the connection without the announcement. *)
Record announced (id : Z) (headers : list Header) (ds : list bytes) (sent : bytes) (base : Connection) (taken : list Event)
    (c : Connection) : Prop := {
  an_message : exists enc limit, carries Server headers ds false enc sent /\ receives id Server headers ds limit false base;
  an_stream : streams base !! id = None;
  an_settled : unblockable base = [];
  an_goaway : forall g, last_sent_goaway_id base = Some g -> id < g;
  an_pending : pending_bidi_dispatch c !! id = Some [];
  an_base : undisturbed id taken base (unannounced id c) }.

Lemma has_key_none {A} (m : gmap Z A) k : m !! k = None -> has_key m k = false.
Proof. intros Hk. unfold has_key. rewrite Hk. done. Qed.
Lemma has_key_some {A} (m : gmap Z A) k x : m !! k = Some x -> has_key m k = true.
Proof. intros Hk. unfold has_key. by rewrite Hk. Qed.

(** At a server such a stream, and one it does not know at all, is looked at first. *)
Lemma feed_dispatches id data fin c : ordinary id (unannounced id c) -> role c = Server -> streams c !! id = None ->
  feed_stream id data fin c = remember_connection_error (dispatch_client_bidi_stream id data fin) c.
Proof.
  intros Hord Hr Hs. unfold feed_stream, check_error_state.
  rewrite (bind_ok _ _ c c tt) by (rewrite gets_ok; by rewrite (or_error _ _ Hord : error c = None)).
  unfold remember_connection_error. rewrite (expect_ok _ _ _ _ (or_kind _ _ Hord)). cbn [is_unidirectional].
  unfold feed_bidirectional. rewrite get_ok. cbn [is_server_initiated is_client_initiated].
  rewrite andb_false_r, (has_key_none (wt_bidi_streams c) id (or_bidi _ _ Hord)),
    (has_key_none (pending_wt_bidi_streams c) id (or_pending _ _ Hord)). cbn [orb].
  destruct (has_key (pending_bidi_dispatch c) id); [done|].
  rewrite (or_ignored _ _ Hord : in_set (ignored_pre_negotiation_wt_bidi c) id = false).
  by rewrite (has_key_none (pending_wt_bidi_pre_negotiation c) id (or_early _ _ Hord)), (has_key_none _ _ Hs), Hr.
Qed.

Lemma unannounced_known id c : pending_bidi_dispatch c !! id = None -> unannounced id c = c.
Proof. intros Hp. unfold unannounced. rewrite delete_id by done. by destruct c. Qed.

Lemma announce id headers ds enc sent limit c : carries Server headers ds false enc sent ->
  receives id Server headers ds limit false c -> streams c !! id = None -> unblockable c = [] ->
  exists c', feed_stream id [] false c = Some (c', Ok ()) /\ announced id headers ds sent c [] c' /\ events c' = events c.
Proof.
  intros Hca Hrc Hs Hu. pose proof Hrc as [(settings & Hset & Hr) Hord Hex Hsec Hlim].
  pose proof (reachable_role _ _ _ Hset Hr) as Hrole.
  assert (forall g, last_sent_goaway_id c = Some g -> id < g) as Hg by (destruct Hex; [congruence|done]).
  pose proof (or_dispatch _ _ Hord) as Hn. set (c' := set_pending_bidi_dispatch (<[id := []]> (pending_bidi_dispatch c)) c).
  assert (unannounced id c' = c) as Eu by (unfold unannounced, c'; cbn; rewrite delete_insert_id by done; by destruct c).
  exists c'. split; [|split; [|done]].
  - rewrite feed_dispatches by (try done; by rewrite unannounced_known).
    unfold remember_connection_error, dispatch_client_bidi_stream. rewrite get_ok. unfold extend_pending. rewrite Hn, modify_ok.
    unfold modify, or_insert. rewrite Hn. done.
  - split; try done; [by exists enc, limit|by apply lookup_insert_eq|by rewrite Eu].
Qed.

Lemma announced_undisturbed id headers ds sent base taken seen c c' : announced id headers ds sent base taken c ->
  undisturbed id seen c c' -> announced id headers ds sent base (taken ++ seen) c'.
Proof.
  intros [Hm Hs Hu Hg Hp Hb] [A1 A2 A3 A4]. unfold context in A2. injection A2 as ? ? ? ? ? ? ? ? ? Hpend ? ? ? ?.
  split; try done; [by rewrite Hpend|]. apply (undisturbed_trans _ taken seen _ _ _ Hb). unfold unannounced. split; try done.
  unfold context. cbn. congruence.
Qed.
Lemma announced_settled id headers ds sent base taken c : announced id headers ds sent base taken c -> settled c.
Proof.
  intros [(enc & limit & _ & Hrc) Hs Hu Hg Hp Hb]. change (settled (unannounced id c)).
  apply (context_settled base); [apply Hb|]. split; [apply (rc_ordinary _ _ _ _ _ _ _ Hrc)|done].
Qed.
Lemma announced_events id headers ds sent base taken c : announced id headers ds sent base taken c ->
  taken ++ events c = events base.
Proof. intros [_ _ _ _ _ Hb]. symmetry. apply Hb. Qed.

(** The first chunk. *)
Lemma announced_feed id headers ds sent base taken data rest c : announced id headers ds sent base taken c ->
  data <> [] -> data ++ rest = sent ->
  exists c', feed_stream id data false c = Some (c', Ok ()) /\ midway id headers ds (events c) [] rest c'.
Proof.
  intros [(enc & limit & Hca & Hrc) Hs Hu Hg Hp [B1 B2 B3 B4]] Hd Hcat. set (u := unannounced id c) in *.
  pose proof (carries_acceptable _ _ _ _ _ _ _ _ _ Hca Hrc) as Hac. pose proof (ca_bytes _ _ _ _ _ _ Hca) as Hbytes.
  destruct Hrc as [(settings & Hset & Hr) Hord Hex _ _]. pose proof (reachable_role _ _ _ Hset Hr) as Hrole.
  assert (limit = limit_received_body_size (limits base)) as Hlimit by (by destruct Hex; [congruence|]).
  assert (role u = role base /\ limits u = limits base /\ last_sent_goaway_id u = last_sent_goaway_id base) as (Br & Bl & Bg).
  { revert B2. clearbody u. unfold context. by intros [= -> ? -> -> ? ? ? ? ? ? ? ? ? ?]. }
  assert (acceptable enc (map unmarked headers) ds u limit false) as Hacu.
  { destruct Hac as [K1 K2 K3 K4 K5 K6 K7]. split; rewrite ?B3, ?Br; done. }
  assert (ordinary id u) as Hou by by apply (ordinary_context _ base).
  assert (unblockable u = []) as Huu by (apply (context_settled base u B2); split; [apply Hord|done]).
  destruct (feed_first id enc (map unmarked headers) ds u [] limit false Hacu Hou data rest) as (c1 & s1 & buf & left & E1 & Hs1 & Hrest);
    [done|by rewrite Br|by rewrite B1|by rewrite Bg|by rewrite Bl|done|done|by rewrite Hcat|].
  exists c1. split; [|by apply (midway_intro _ _ _ _ _ _ _ u enc limit false s1 buf left)].
  rewrite <- E1. assert (pending_bidi_dispatch u !! id = None) as Hpu by apply lookup_delete_eq.
  assert (role c = Server) as Hrc by (change (role u = Server); by rewrite Br).
  assert (streams c !! id = None) as Hsc by (change (streams u !! id = None); by rewrite B1).
  rewrite !feed_dispatches by (try done; by rewrite unannounced_known).
  destruct (message_starts enc ds data rest) as [l ->]; [done|by rewrite Hcat|].
  assert (dispatch_client_bidi_stream id (1 :: l) false c = dispatch_client_bidi_stream id (1 :: l) false u) as Edis.
  { unfold dispatch_client_bidi_stream. rewrite !get_ok. unfold extend_pending. rewrite Hp, Hpu, !modify_ok. cbn [app].
    change (Z.shiftr 1 6 =? 0) with true. cbn iota. rewrite !modify_ok. f_equal. unfold u, unannounced.
    cbn [set_pending_bidi_dispatch pending_bidi_dispatch]. rewrite delete_insert_eq, delete_delete_eq. done. }
  unfold remember_connection_error. by rewrite Edis.
Qed.
