(* ===== verification/S2nSession.v ===== *)
(** crates/tokio-s2n-quic/src/error.rs, and the parts of src/webtransport/ of that crate
    that do not wait for the transport: the flow control of what an endpoint sends
    (flow_control.rs), the headers of streams that are accepted, the events that are
    passed on (session.rs), and the events of a handshake (client.rs, server.rs). The
    mutexes around this state are held within one call and are left out. *)

From Stdlib Require Import String Ascii.
From S2P Require Import Prelude Codec Varint Header Settings Error WtStream Validation WtError Capsule FlowControl Session Connect Display Event.

(** ** Errors; what the transport reports is a type of its own *)
Inductive FlowControlResource := BidirectionalStream | UnidirectionalStream | SessionData.

Inductive S2nError {T : Type} :=
| Transport (e : T)
| Http3 (e : Error)
| ConnectionClosed
| S2nStreamClosed
| InvalidState (msg : bytes)
| Internal (msg : bytes)
| FlowControlBlocked (resource : FlowControlResource).
Arguments S2nError : clear implicits.

(** [display_transport]: the [Display] of what the transport reports. *)
Definition display_s2n_error {T} (display_transport : T -> bytes) (e : S2nError T) : bytes :=
  match e with
  | Transport e => str "transport error: " ++ display_transport e
  | Http3 e => str "http3 error: " ++ display_error e
  | ConnectionClosed => str "connection closed"
  | S2nStreamClosed => str "stream closed"
  | InvalidState msg => str "invalid state: " ++ msg
  | Internal msg => str "internal error: " ++ msg
  | FlowControlBlocked BidirectionalStream => str "webtransport bidirectional stream limit reached"
  | FlowControlBlocked UnidirectionalStream => str "webtransport unidirectional stream limit reached"
  | FlowControlBlocked SessionData => str "webtransport session data limit reached"
  end.
(** [From<HeaderError>]. *)
Definition s2n_header_error {T} (e : HeaderError) : S2nError T := InvalidState (str "invalid header: " ++ display_header_error e).

(** ** [WtSendFlowControl] *)
Definition peer_wt_send_limits (peer : option Settings) : FlowControlLimits :=
  match s ← peer; wt_settings s with
  | None => limits_new
  | Some wt => mkLimits (wt_initial_max_streams_uni wt) (wt_initial_max_streams_bidi wt) (wt_initial_max_data wt)
  end.

Record WtSendFlowControl := mkSendFc {
  fc_enabled : bool; fc_limits : FlowControlLimits; opened_bidi : Z; opened_uni : Z; fc_data_sent : Z }.

Definition send_fc_new (enabled : bool) (limits : FlowControlLimits) : WtSendFlowControl := mkSendFc enabled limits 0 0 0.

Definition fc_opened (bidirectional : bool) (f : WtSendFlowControl) : Z :=
  if bidirectional then opened_bidi f else opened_uni f.
Definition fc_count_opened (bidirectional : bool) (f : WtSendFlowControl) : WtSendFlowControl :=
  let opened := saturating_add (fc_opened bidirectional f) 1 in
  if bidirectional then mkSendFc (fc_enabled f) (fc_limits f) opened (opened_uni f) (fc_data_sent f)
  else mkSendFc (fc_enabled f) (fc_limits f) (opened_bidi f) opened (fc_data_sent f).
Definition fc_count_sent (n : Z) (f : WtSendFlowControl) : WtSendFlowControl :=
  mkSendFc (fc_enabled f) (fc_limits f) (opened_bidi f) (opened_uni f) (saturating_add (fc_data_sent f) n).
Definition set_fc_limits (l : FlowControlLimits) (f : WtSendFlowControl) : WtSendFlowControl :=
  mkSendFc (fc_enabled f) l (opened_bidi f) (opened_uni f) (fc_data_sent f).

Definition fc_try_open_stream {T} (bidirectional : bool) (f : WtSendFlowControl)
    : WtSendFlowControl * result (S2nError T) unit :=
  if negb (fc_enabled f) then (fc_count_opened bidirectional f, Ok ())
  else if max_streams bidirectional (fc_limits f) <=? fc_opened bidirectional f
  then (f, Err (FlowControlBlocked (if bidirectional then BidirectionalStream else UnidirectionalStream)))
  else (fc_count_opened bidirectional f, Ok ()).

Definition fc_try_send_data {T} (n : Z) (f : WtSendFlowControl) : WtSendFlowControl * result (S2nError T) unit :=
  if negb (fc_enabled f) then (fc_count_sent n f, Ok ())
  else if saturating_sub (max_data (fc_limits f)) (fc_data_sent f) <? n
  then (f, Err (FlowControlBlocked SessionData))
  else (fc_count_sent n f, Ok ()).

Definition fc_process_capsule (c : Capsule) (f : WtSendFlowControl)
    : WtSendFlowControl * result CapsuleValidationError unit :=
  if negb (fc_enabled f) then (f, Ok ())
  else
    match c with
    | MaxStreams bidirectional maximum =>
      match validate_max_streams maximum (max_streams bidirectional (fc_limits f)) with
      | Err e => (f, Err e)
      | Ok _ => (set_fc_limits (set_max_streams bidirectional maximum (fc_limits f)) f, Ok ())
      end
    | MaxData maximum =>
      match validate_max_data maximum (max_data (fc_limits f)) with
      | Err e => (f, Err e)
      | Ok _ => (set_fc_limits (set_max_data maximum (fc_limits f)) f, Ok ())
      end
    | StreamsBlocked _ maximum => if MAX_STREAMS_LIMIT <? maximum then (f, Err MaxStreamsExceedsLimit) else (f, Ok ())
    | DataBlocked _ => (f, Ok ())
    | CloseSession _ _ | DrainSession | UnknownCapsule _ _ => (f, Ok ())
    end.

(** ** The headers of accepted streams; [None] asks for more bytes *)
Inductive UniStreamHeader :=
| UniWebTransport (data_offset : Z) | UniHttp3 | UniMalformedSessionId | UniForeignSession.

Definition classify_uni_stream_header (buf : bytes) (expected_session_id : option Z) : option UniStreamHeader :=
  match classify_uni_stream_checked buf with
  | Ok (WebTransportUni received data_offset) =>
    match expected_session_id with
    | Some session_id => if negb (received =? session_id) then Some UniForeignSession else Some (UniWebTransport data_offset)
    | None => Some (UniWebTransport data_offset)
    end
  | Ok (Http3Uni _ _) => Some UniHttp3
  | Err HeaderBufferTooShort => None
  | Err InvalidFormat => Some UniHttp3
  | Err (InvalidSessionId | SessionIdOutOfRange) => Some UniMalformedSessionId
  end.

Inductive BiStreamHeader :=
| BiComplete (pending : bytes) | BiNotWebTransport | BiMalformedSessionId | BiForeignSession.

Definition classify_bi_stream_header (buf : bytes) (id : Z) : option BiStreamHeader :=
  match decode_bidirectional_checked buf with
  | Ok (header, consumed) =>
    if session_id header =? id then Some (BiComplete (drop_z consumed buf)) else Some BiForeignSession
  | Err HeaderBufferTooShort => None
  | Err InvalidFormat => Some BiNotWebTransport
  | Err (InvalidSessionId | SessionIdOutOfRange) => Some BiMalformedSessionId
  end.

(** ** Events for the application *)

(** A panic on a code beyond 32 bits. *)
Definition flow_control_error_code : option Z :=
  let code := wt_error_code FlowControlError in if code <? 2 ^ 32 then Some code else None.
Definition flow_control_error_capsule : option Capsule :=
  code ← flow_control_error_code; Some (CloseSession code []).
Definition flow_control_error_session_closed (session_id : Z) : option WebTransportEvent :=
  code ← flow_control_error_code;
  Some (WtSessionClosed session_id [] (wt_error_code FlowControlError) code []).
Definition synthesized_session_closed (session_id : Z) : WebTransportEvent :=
  WtSessionClosed session_id [] (wt_error_code SessionGone) 0 [].

Definition is_forwardable_wt_event (e : WebTransportEvent) : bool :=
  match e with
  | WtSessionClosed _ _ _ _ _ | WtSessionDraining _ | WtBufferedStreamRejected _ _ => true
  | _ => false
  end.

(** ** The handshake of a client *)

(** [parse::<u16>]: a value that is no UTF-8 has a byte that is no digit either. *)
Definition parse_status (value : bytes) : option Z :=
  v ← parse_u64 value; if v <? 2 ^ 16 then Some v else None.

Record HandshakeState := mkHandshake {
  latest_status : option Z; session_established : bool;
  pending_wt_events : list WebTransportEvent; pending_flow_control_capsules : list Capsule }.

Definition handshake_event {T} (h : HandshakeState) (e : Event) : HandshakeState * result (S2nError T) unit :=
  let '(mkHandshake status established events capsules) := h in
  match e with
  | EvHeader _ n v =>
    if bytes_eqb n (str ":status") then (mkHandshake (parse_status v) established events capsules, Ok ()) else (h, Ok ())
  | EvHeadersEnd _ =>
    match status with
    | Some code =>
      if (100 <=? code) && (code <? 200) then (mkHandshake None established events capsules, Ok ())
      else if negb ((200 <=? code) && (code <? 300)) then (h, Err ConnectionClosed)
      else (h, Ok ())
    | None => (h, Ok ())
    end
  | EvWebTransport (WtSessionEstablished _ _) => (mkHandshake status true events capsules, Ok ())
  | EvWebTransport wt =>
    if match wt with WtSessionClosed _ _ _ _ _ | WtSessionDraining _ => negb established | _ => false end
    then (h, Err ConnectionClosed)
    else
      match wt with
      | WtCapsule _ capsule => (mkHandshake status established events (capsules ++ [capsule]), Ok ())
      | _ => if is_forwardable_wt_event wt then (mkHandshake status established (events ++ [wt]) capsules, Ok ()) else (h, Ok ())
      end
  | _ => (h, Ok ())
  end.

Fixpoint process_handshake_events {T} (l : list Event) (h : HandshakeState) : HandshakeState * result (S2nError T) unit :=
  match l with
  | [] => (h, Ok ())
  | e :: l => match handshake_event h e with (h, Ok _) => process_handshake_events l h | (h, Err e) => (h, Err e) end
  end.

(** ** The handshake of a server *)
Record RequestState := mkRequest {
  collected_headers : list (bytes * bytes); headers_complete : bool; request_wt_events : list WebTransportEvent }.

Definition collect_request_event (r : RequestState) (e : Event) : RequestState :=
  let '(mkRequest headers complete events) := r in
  match e with
  | EvHeader _ n v => mkRequest (headers ++ [(n, v)]) complete events
  | EvHeadersEnd _ => mkRequest headers true events
  | EvWebTransport wt => if is_forwardable_wt_event wt then mkRequest headers complete (events ++ [wt]) else r
  | _ => r
  end.
Definition collect_request_events (l : list Event) (r : RequestState) : RequestState := fold_left collect_request_event l r.

(** ** The two flow controls of the repository

    What [WtSendFlowControl] keeps is kept by [Session] of webtransport/session/ as well. *)
Inductive send_op := SendOpen (bidirectional : bool) | SendData (n : Z) | SendCapsule (c : Capsule).

Definition accepted {S E} (x : S * result E unit) : S * bool := (fst x, is_ok (snd x)).
Definition fc_run {T} (op : send_op) (f : WtSendFlowControl) : WtSendFlowControl * bool :=
  match op with
  | SendOpen bidirectional => accepted (fc_try_open_stream (T := T) bidirectional f)
  | SendData n => accepted (fc_try_send_data (T := T) n f)
  | SendCapsule c => accepted (fc_process_capsule c f)
  end.
Definition session_run (op : send_op) (s : Session) : Session * bool :=
  match op with
  | SendOpen bidirectional => try_open_stream bidirectional s
  | SendData n => try_send_data n s
  | SendCapsule c => accepted (process_capsule c s)
  end.

(** A sequence of operations, and which of them were accepted. *)
Fixpoint run_all {S Op} (run : Op -> S -> S * bool) (ops : list Op) (s : S) : S * list bool :=
  match ops with
  | [] => (s, [])
  | op :: ops => let '(s, b) := run op s in let '(s, bs) := run_all run ops s in (s, b :: bs)
  end.

Definition send_op_ok (op : send_op) : Prop :=
  match op with
  | SendOpen _ => True
  | SendData n => 0 <= n
  | SendCapsule c => is_flow_control c = true /\ capsule_ok c
  end.

Record agrees (f : WtSendFlowControl) (s : Session) : Prop := {
  ag_open : can_create_stream (state s) = true;
  ag_enabled : fc_enabled f = flow_control_enabled s;
  ag_limits : fc_limits f = remote_limits s;
  ag_opened : forall b, fc_opened b f = opened b (flow_state s);
  ag_sent : fc_data_sent f = data_sent (flow_state s) }.

(** Within the limits, while flow control is on. *)
Definition within_limits (f : WtSendFlowControl) : Prop :=
  fc_enabled f = true ->
  (forall b, 0 <= fc_opened b f <= max_streams b (fc_limits f) /\ max_streams b (fc_limits f) <= U64_MAX) /\
  0 <= fc_data_sent f <= max_data (fc_limits f) /\ max_data (fc_limits f) <= U64_MAX.

Lemma agrees_opened f s b : agrees f s -> agrees (fc_count_opened b f) (count_opened b s).
Proof.
  intros [Ho He Hl Hn Hs]. split; try done.
  - by destruct b.
  - by destruct b.
  - intros b'. specialize (Hn b'). pose proof (Hn : fc_opened b' f = _) as Hb. unfold count_opened, fc_count_opened.
    destruct (flow_state s) as [uo bo ds ur br dr dg], b, b'; cbn in *; congruence.
  - unfold count_opened. destruct (flow_state s) as [uo bo ds ur br dr dg], b; cbn in *; congruence.
Qed.
Lemma agrees_sent f s n : agrees f s -> agrees (fc_count_sent n f) (count_sent n s).
Proof.
  intros [Ho He Hl Hn Hs]. unfold count_sent. split; try done.
  - intros b. specialize (Hn b). destruct (flow_state s) as [uo bo ds ur br dr dg], b; cbn in *; congruence.
  - destruct (flow_state s) as [uo bo ds ur br dr dg]; cbn in *; congruence.
Qed.
Lemma agrees_limits f s l b : agrees f s -> agrees (set_fc_limits l f) (set_s_send_blocked b (set_s_remote_limits l s)).
Proof. by intros []. Qed.
Lemma agrees_blocked f s c b : agrees f s -> agrees f (push_capsule c (set_s_send_blocked b s)).
Proof. by intros []. Qed.

Lemma within_opened f b : within_limits f -> fc_opened b f < max_streams b (fc_limits f) -> within_limits (fc_count_opened b f).
Proof.
  intros Hw Hlt He. assert (fc_enabled f = true) as He' by by destruct b. destruct (Hw He') as [Ho Hs].
  assert (saturating_add (fc_opened b f) 1 = fc_opened b f + 1) as E.
  { unfold saturating_add. specialize (Ho b). lia. }
  split; [|by destruct b]. intros b'. specialize (Ho b). pose proof (proj1 (Hw He') b') as Hb'.
  destruct b, b'; cbn in *; rewrite ?E; lia.
Qed.

Lemma within_sent f n : within_limits f -> 0 <= n <= saturating_sub (max_data (fc_limits f)) (fc_data_sent f) ->
  within_limits (fc_count_sent n f).
Proof.
  intros Hw Hn He. destruct (Hw He) as [Ho Hs]. split; [intros b; specialize (Ho b); by destruct b|].
  unfold saturating_sub in Hn. cbn. unfold saturating_add. lia.
Qed.
Lemma within_new_limits f l : within_limits f ->
  (forall b, max_streams b (fc_limits f) <= max_streams b l /\ max_streams b l <= U64_MAX) ->
  max_data (fc_limits f) <= max_data l /\ max_data l <= U64_MAX -> within_limits (set_fc_limits l f).
Proof.
  intros Hw Hm Hd He. destruct (Hw He) as [Ho Hs]. split; [|cbn; lia].
  intros b. specialize (Ho b). specialize (Hm b). destruct b; cbn in *; lia.
Qed.
Lemma within_disabled f : fc_enabled f = false -> within_limits f.
Proof. intros E E'. congruence. Qed.

(** One operation: the same answer from both, and they go on agreeing. *)
Definition same_step {T} (op : send_op) (f : WtSendFlowControl) (s : Session) : Prop :=
  snd (fc_run (T := T) op f) = snd (session_run op s) /\
  agrees (fst (fc_run (T := T) op f)) (fst (session_run op s)) /\ within_limits (fst (fc_run (T := T) op f)).

Lemma open_agrees {T} b f s : agrees f s -> within_limits f -> same_step (T := T) (SendOpen b) f s.
Proof.
  intros Ha Hw. pose proof Ha as [Ho He Hl Hn Hs]. unfold same_step, fc_run, session_run, fc_try_open_stream, try_open_stream, accepted.
  rewrite Ho, He, Hl, Hn. cbn [negb]. destruct (flow_control_enabled s) eqn:E; cbn [negb andb].
  - destruct (Z.leb_spec (max_streams b (remote_limits s)) (opened b (flow_state s))) as [Hle|Hlt]; cbn [fst snd is_ok].
    + rewrite (proj2 (Z.ltb_ge _ _)) by lia. case_match; cbn [fst snd]; split_and!; try done. by apply agrees_blocked.
    + rewrite (proj2 (Z.ltb_lt _ _)) by lia. split_and!; [done|by apply agrees_opened|].
      apply within_opened; [done|]. by rewrite Hn, Hl.
  - split_and!; [done|by apply agrees_opened|]. apply within_disabled. destruct b; cbn; congruence.
Qed.

Lemma send_agrees {T} n f s : 0 <= n -> agrees f s -> within_limits f -> same_step (T := T) (SendData n) f s.
Proof.
  intros Hn0 Ha Hw. pose proof Ha as [Ho He Hl Hn Hs]. unfold same_step, fc_run, session_run, fc_try_send_data, try_send_data, accepted.
  replace (session_can_send (state s)) with true by (by destruct (state s)). rewrite He, Hl, Hs. cbn [negb].
  destruct (flow_control_enabled s) eqn:E; cbn [negb].
  - destruct (Z.ltb_spec (saturating_sub (max_data (remote_limits s)) (data_sent (flow_state s))) n) as [Hlt|Hle]; cbn [fst snd is_ok].
    + rewrite (proj2 (Z.leb_gt _ _)) by lia. case_match; cbn [fst snd]; split_and!; try done. by apply agrees_blocked.
    + rewrite (proj2 (Z.leb_le _ _)) by lia. split_and!; [done|by apply agrees_sent|].
      apply within_sent; [done|]. rewrite Hl, Hs. lia.
  - split_and!; [done|by apply agrees_sent|]. apply within_disabled. cbn. congruence.
Qed.

Lemma capsule_agrees {T} c f s : send_op_ok (SendCapsule c) -> agrees f s -> within_limits f -> same_step (T := T) (SendCapsule c) f s.
Proof.
  intros [Hc Hok] Ha Hw. pose proof Ha as [Ho He Hl Hn Hs]. unfold same_step, fc_run, session_run, fc_process_capsule, process_capsule, accepted.
  replace (is_prohibited_in_http3 c) with false by (by destruct c as [| | |[]| |[]|]). rewrite Hc, andb_true_r, He, Hl.
  destruct (flow_control_enabled s) eqn:E; cbn [negb]; [|by split_and!].
  destruct c as [| |m|b m|m|b m|]; try done; cbn [capsule_ok] in Hok; unfold validate_max_data, validate_max_streams.
  - rewrite (proj2 (Z.ltb_ge _ _)) by (unfold varint_ok in Hok; lia).
    destruct (Z.leb_spec m (max_data (remote_limits s))); cbn [fst snd is_ok]; [by split_and!|].
    split_and!; [done|by apply agrees_limits|]. apply within_new_limits; [done|..]; rewrite Hl.
    + intros b. destruct (Hw ltac:(congruence)) as [Hb _]. specialize (Hb b). rewrite Hl in Hb. destruct (remote_limits s), b; cbn in *; lia.
    + destruct (remote_limits s). cbn in *. unfold varint_ok, VARINT_MAX, U64_MAX in *. lia.
  - destruct (Z.ltb_spec MAX_STREAMS_LIMIT m); cbn [fst snd is_ok]; [by split_and!|].
    destruct (Z.leb_spec m (max_streams b (remote_limits s))); cbn [fst snd is_ok]; [by split_and!|].
    split_and!; [done|by apply agrees_limits|]. destruct (Hw ltac:(congruence)) as [Hb Hd]. rewrite Hl in *.
    apply within_new_limits; [done|..]; rewrite Hl.
    + intros b'. specialize (Hb b'). unfold varint_ok, VARINT_MAX, U64_MAX in *. destruct (remote_limits s), b, b'; cbn in *; lia.
    + destruct (remote_limits s), b; cbn in *; lia.
  - destruct (_ <? _); by split_and!.
Qed.

(** C31. The crate's own flow control agrees with that of [Session]: started alike, and
    whatever streams are opened, data sent and flow control capsules received
    ([is_flow_control]), the two accept and refuse the same operations; while flow control
    is on, what was opened and sent stays within what the peer allows. The other capsules
    leave the crate's flow control as it is; a [Session] may refuse them or close. *)
Theorem send_flow_control_equivalent {T} ops f s : agrees f s -> within_limits f -> Forall send_op_ok ops ->
  (let '(f', answers) := run_all (fc_run (T := T)) ops f in let '(s', answers') := run_all session_run ops s in
   answers = answers' /\ agrees f' s' /\ within_limits f') /\
  forall c, is_flow_control c = false -> fc_process_capsule c f = (f, Ok ()).
Proof.
  intros Ha Hw Hops. split; [|intros c Hc; unfold fc_process_capsule; destruct (fc_enabled f); [by destruct c|done]].
  revert f s Ha Hw. induction ops as [|op ops IH]; intros f s Ha Hw; [by cbn|]. inversion Hops as [|? ? Hop Hops']; subst.
  assert (same_step (T := T) op f s) as (E & Ha1 & Hw1).
  { destruct op; [by apply open_agrees|by apply send_agrees|by apply capsule_agrees]. }
  cbn [run_all]. destruct (fc_run op f) as [f1 b], (session_run op s) as [s1 b1]. cbn [fst snd] in *.
  specialize (IH Hops' f1 s1 Ha1 Hw1). destruct (run_all fc_run ops f1) as [f2 bs], (run_all session_run ops s1) as [s2 bs'].
  destruct IH as (-> & ? & ?). by rewrite E.
Qed.

(** Both as they are when a session is established with flow control. *)
Lemma agrees_initial id l : agrees (send_fc_new true l) (set_established (initialize_remote_limits l (session_new id))).
Proof. split; try done. Qed.

(** ** Headers and handshakes *)

(** What more bytes make of a result. *)
Definition bi_extend (r : BiStreamHeader) (more : bytes) : BiStreamHeader :=
  match r with BiComplete pending => BiComplete (pending ++ more) | _ => r end.

Lemma classify_bi_stable buf id more r : bytes_ok buf -> classify_bi_stream_header buf id = Some r ->
  classify_bi_stream_header (buf ++ more) id = Some (bi_extend r more).
Proof.
  intros Hb. unfold classify_bi_stream_header, decode_bidirectional_checked.
  destruct (decode_stream_header BIDIRECTIONAL_SIGNAL_VALUE buf) as [[h n]|e] eqn:E.
  - pose proof (pc_consumed (PrefixCode := stream_header_prefix_code BIDIRECTIONAL_SIGNAL_VALUE ltac:(by right)) _ _ _ Hb E) as Hn.
    rewrite decode_stream_header_stable, E by (done || by rewrite E). case_match; intros [= <-]; [|done].
    cbn [bi_extend]. by rewrite drop_z_app_le by lia.
  - intros Hr. assert (e <> HeaderBufferTooShort) as He by (intros ->; done).
    rewrite decode_stream_header_stable, E by (done || by rewrite E; congruence). destruct e; by simplify_eq.
Qed.
Lemma classify_uni_stable buf expected more r : bytes_ok buf -> classify_uni_stream_header buf expected = Some r ->
  classify_uni_stream_header (buf ++ more) expected = Some r.
Proof.
  intros Hb. unfold classify_uni_stream_header, classify_uni_stream_checked.
  destruct (decode buf) as [[t n]|] eqn:E; [|done].
  pose proof (decode_inv _ _ _ Hb E) as (_ & Hn & _ & _ & _ & ->). cbn [ok ok_or mbind result_bind].
  destruct (t =? UNIDIRECTIONAL_STREAM_TYPE); [|done]. rewrite drop_z_app_le by lia.
  destruct (decode (drop_z n buf)) as [[id m]|] eqn:E2; [|done].
  by apply decode_inv in E2 as (_ & _ & _ & _ & _ & ->); [|auto with bytes].
Qed.

Lemma header_bytes_ok type h : bytes_ok (stream_header_bytes type h).
Proof. apply bytes_ok_app. auto with bytes. Qed.

(** The header that one endpoint writes is the one the other accepts, however the bytes
    arrive: the whole header gives the session it names, with the data that follows it, a
    part of the header asks for more, and whatever the bytes are, once there is an answer
    more of them only extend the data. *)
Theorem accepted_stream_header h : header_valid h -> exists bi uni,
  encode_bidirectional [] h = Some bi /\ encode_unidirectional [] h = Some uni /\
  (forall data id, classify_bi_stream_header (bi ++ data) id =
    Some (if session_id h =? id then BiComplete data else BiForeignSession)) /\
  (forall data id, classify_uni_stream_header (uni ++ data) (Some id) =
    Some (if session_id h =? id then UniWebTransport (len uni) else UniForeignSession)) /\
  (forall p q id, q <> [] -> p ++ q = bi -> classify_bi_stream_header p id = None) /\
  (forall p q id, q <> [] -> p ++ q = uni -> classify_uni_stream_header p id = None) /\
  forall buf more, bytes_ok buf ->
    (forall id r, classify_bi_stream_header buf id = Some r -> classify_bi_stream_header (buf ++ more) id = Some (bi_extend r more)) /\
    forall id r, classify_uni_stream_header buf id = Some r -> classify_uni_stream_header (buf ++ more) id = Some r.
Proof.
  intros Hh. assert (wt_stream_type BIDIRECTIONAL_SIGNAL_VALUE) as Hbt by by right.
  assert (wt_stream_type UNIDIRECTIONAL_STREAM_TYPE) as Hut by by left.
  pose proof (stream_header_prefix_code _ Hbt). pose proof (stream_header_prefix_code _ Hut).
  set (bi := stream_header_bytes BIDIRECTIONAL_SIGNAL_VALUE h). set (uni := stream_header_bytes UNIDIRECTIONAL_STREAM_TYPE h).
  exists bi, uni. split_and!.
  - by apply encode_stream_header_spec.
  - by apply encode_stream_header_spec.
  - intros data id. unfold classify_bi_stream_header, decode_bidirectional_checked.
    unfold bi. rewrite (pc_decode (enc := stream_header_bytes BIDIRECTIONAL_SIGNAL_VALUE)) by done. rewrite drop_z_app_len. by destruct (session_id h =? id).
  - intros data id. unfold classify_uni_stream_header. rewrite classify_spec. unfold decode_unidirectional_checked.
    unfold uni. rewrite (pc_decode (enc := stream_header_bytes UNIDIRECTIONAL_STREAM_TYPE)) by done. by destruct (session_id h =? id).
  - intros p q id Hq Hp. unfold classify_bi_stream_header, decode_bidirectional_checked.
    by rewrite (pc_partial (stream_header_bytes BIDIRECTIONAL_SIGNAL_VALUE) _ _ _ h p q Hh (header_bytes_ok _ h) Hp Hq).
  - intros p q id Hq Hp. unfold classify_uni_stream_header. rewrite classify_spec. unfold decode_unidirectional_checked.
    by rewrite (pc_partial (stream_header_bytes UNIDIRECTIONAL_STREAM_TYPE) _ _ _ h p q Hh (header_bytes_ok _ h) Hp Hq).
  - intros buf more Hb. split; intros id r Hr; [by apply classify_bi_stable|by apply classify_uni_stable].
Qed.

(** *** The events of a handshake *)
Definition established_by (e : Event) : bool :=
  match e with EvWebTransport (WtSessionEstablished _ _) => true | _ => false end.
Definition capsules_of (l : list Event) : list Capsule :=
  flat_map (fun e => match e with EvWebTransport (WtCapsule _ c) => [c] | _ => [] end) l.
Definition forwarded (l : list Event) : list WebTransportEvent :=
  flat_map (fun e => match e with EvWebTransport wt => if is_forwardable_wt_event wt then [wt] else [] | _ => [] end) l.

(** The two reasons to give up: a final response that is not 2xx, and the end of a session
    that has not been established. *)
Definition gives_up (h : HandshakeState) (e : Event) : Prop :=
  match e with
  | EvHeadersEnd _ => exists code, latest_status h = Some code /\ ~ 100 <= code < 300
  | EvWebTransport (WtSessionClosed _ _ _ _ _ | WtSessionDraining _) => session_established h = false
  | _ => False
  end.

Definition absorbed (l : list Event) (h h' : HandshakeState) : Prop :=
  session_established h' = session_established h || existsb established_by l /\
  pending_wt_events h' = pending_wt_events h ++ forwarded l /\
  pending_flow_control_capsules h' = pending_flow_control_capsules h ++ capsules_of l.

Ltac handshake_kept :=
  left; eexists; split; [reflexivity|]; cbn; rewrite ?app_nil_r, ?orb_false_r, ?orb_true_r;
  split_and!; [reflexivity..|]; try (intros ?; first [contradiction|discriminate]).

Lemma handshake_event_spec {T} h e :
  (exists h', handshake_event (T := T) h e = (h', Ok ()) /\ absorbed [e] h h' /\ ~ gives_up h e) \/
  (handshake_event (T := T) h e = (h, Err ConnectionClosed) /\ gives_up h e).
Proof.
  destruct h as [status est evs caps]. unfold absorbed, gives_up.
  destruct e as [| | |id| | | | | |wt]; try handshake_kept.
  - cbn [handshake_event]. destruct (bytes_eqb _ _); handshake_kept.
  - cbn [handshake_event latest_status]. destruct status as [code|]; [|handshake_kept; by intros (? & ? & _)].
    destruct ((100 <=? code) && (code <? 200)) eqn:E1; [|destruct ((200 <=? code) && (code <? 300)) eqn:E2]; cbn [negb].
    + handshake_kept. intros (? & [= <-] & ?). lia.
    + handshake_kept. intros (? & [= <-] & ?). lia.
    + right. split; [done|]. exists code. split; [done|]. lia.
  - destruct wt; try handshake_kept; destruct est; first [handshake_kept|by right].
Qed.

(** The events of a handshake are all accounted for, however they are batched: until a
    final response that is not 2xx, or the end of a session that was not established,
    every event for the application and every capsule is kept, in order, and the session
    counts as established exactly when its event has been seen; the loop gives up at the
    first such event and at no other. *)
Theorem handshake_events_kept {T} l : forall h,
  match process_handshake_events (T := T) l h with
  | (h', Ok _) => absorbed l h h'
  | (h', Err e) => e = ConnectionClosed /\ exists seen e rest, l = seen ++ e :: rest /\ absorbed seen h h' /\ gives_up h' e
  end /\
  forall more, process_handshake_events (T := T) (l ++ more) h =
    match process_handshake_events l h with (h', Ok _) => process_handshake_events more h' | failed => failed end.
Proof.
  induction l as [|e l IH]; intros h; cbn [process_handshake_events app].
  - split; [|done]. unfold absorbed. cbn. by rewrite orb_false_r, !app_nil_r.
  - destruct (handshake_event_spec (T := T) h e) as [(h1 & -> & Ha & _)|[-> Hg]].
    + destruct (IH h1) as [H1 H2]. split; [|done]. destruct Ha as (A1 & A2 & A3). cbn in A1, A2, A3.
      rewrite orb_false_r in A1. rewrite app_nil_r in A2, A3.
      destruct (process_handshake_events l h1) as [h2 [[]|e2]].
      * destruct H1 as (B1 & B2 & B3). unfold absorbed. rewrite B1, B2, B3, A1, A2, A3. cbn. by rewrite <- !app_assoc, orb_assoc.
      * destruct H1 as (-> & seen & e' & rest & -> & (B1 & B2 & B3) & Hg). split; [done|]. exists (e :: seen), e', rest.
        split; [done|]. split; [|done]. unfold absorbed. rewrite B1, B2, B3, A1, A2, A3. cbn. by rewrite <- !app_assoc, orb_assoc.
    + split; [|done]. split; [done|]. exists [], e, l. split; [done|]. split; [|done].
      unfold absorbed. cbn. by rewrite orb_false_r, !app_nil_r.
Qed.

(** ** Witnesses *)
Lemma send_flow_control_equivalent_witness :
  let l := mkLimits 1 2 100 in
  let ops := [SendOpen true; SendData 60; SendData 60; SendCapsule (MaxData 200); SendData 60; SendOpen false; SendOpen false] in
  snd (run_all (fc_run (T := unit)) ops (send_fc_new true l)) = [true; true; false; true; true; true; false] /\
  snd (run_all session_run ops (set_established (initialize_remote_limits l (session_new 0)))) =
    snd (run_all (fc_run (T := unit)) ops (send_fc_new true l)).
Proof.
  intros l ops. split; [vm_compute; reflexivity|].
  assert (within_limits (send_fc_new true l)) as Hw.
  { intros _. split; [intros []; vm_compute; repeat split; discriminate|vm_compute; repeat split; discriminate]. }
  assert (Forall send_op_ok ops) as Hops.
  { repeat (apply List.Forall_cons; [vm_compute; repeat split; discriminate|]). constructor. }
  destruct (send_flow_control_equivalent (T := unit) ops _ _ (agrees_initial 0 l) Hw Hops) as [H _].
  destruct (run_all (fc_run (T := unit)) ops (send_fc_new true l)) as [f' answers].
  destruct (run_all session_run ops (set_established (initialize_remote_limits l (session_new 0)))) as [s' answers'].
  destruct H as (E & _). symmetry. exact E.
Defined.

Lemma accepted_stream_header_witness : exists bi,
  encode_bidirectional [] (mkStreamHeader 4) = Some bi /\ classify_bi_stream_header (bi ++ [1; 2]) 4 = Some (BiComplete [1; 2]).
Proof.
  destruct (accepted_stream_header (mkStreamHeader 4)) as (bi & uni & E & _ & H & _); [split; [split; vm_compute; discriminate|reflexivity]|].
  exists bi. split; [exact E|exact (H [1; 2] 4)].
Defined.
