(* ===== verification/S2nState.v ===== *)
(** crates/tokio-s2n-quic/src/internal/: the connection with the ids of its own streams,
    as the tasks of that crate share it, and how they report what the transport gives
    them. The client's and the server's struct have the same fields and methods, but for
    [prepare_response] (server) and [send_request] (client); the role of the connection
    tells them apart. A task holds the lock for one call. *)

From Stdlib Require Import String Ascii.
From S2P Require Import Prelude Codec Varint Header Settings Error Stream EncoderStream QpackEncoder ControlStream RequestStream Validation Capsule Event Datagram WtSession Connection ConnInvariant ConnNegotiation ConnWtSession ConnWtStream ConnReceive ConnSafety ConnSend ConnSendSafety ConnRun ConnEvents S2nSession.

Record ConnectionState := mkConnectionState {
  h3_conn : Connection;
  st_control_stream_id : option Z; st_encoder_stream_id : option Z; st_decoder_stream_id : option Z }.

Definition connection_state_new (r : Role) (settings : Settings) : option ConnectionState :=
  c ← conn_new r settings; Some (mkConnectionState c None None None).

(** What a task tells the connection about a unidirectional stream. *)
Inductive UniRecvAction := UniData (data : bytes) | UniFin | UniReset (error_code : Z) | UniIgnore.

Section state.
Context {T : Type}.

Definition state_action (A : Type) : Type := ConnectionState -> option (ConnectionState * result (S2nError T) A).
#[export] Instance state_ret : MRet state_action := fun _ a s => Some (s, Ok a).
#[export] Instance state_bind : MBind state_action := fun _ _ f m s =>
  match m s with
  | Some (s, Ok a) => f a s
  | Some (s, Err e) => Some (s, Err e)
  | None => None
  end.

(** [self.h3_conn.method(..)?]. *)
Definition with_conn (c : Connection) (s : ConnectionState) : ConnectionState :=
  mkConnectionState c (st_control_stream_id s) (st_encoder_stream_id s) (st_decoder_stream_id s).
Definition on_conn {A} (m : action A) : state_action A := fun s =>
  match m (h3_conn s) with
  | Some (c, r) => Some (with_conn c s, map_err Http3 r)
  | None => None
  end.

Definition state_init_h3_streams (control_stream_id encoder_stream_id decoder_stream_id : Z) : state_action H3InitData := fun s =>
  on_conn (init_h3_streams control_stream_id encoder_stream_id decoder_stream_id)
    (mkConnectionState (h3_conn s) (Some control_stream_id) (Some encoder_stream_id) (Some decoder_stream_id)).

(** [take_stream_data] returns an [Option]: it has no errors. *)
Definition state_get_stream_data (stream_id : Z) : state_action (option (bytes * bool)) := on_conn (take_stream_data stream_id).

Fixpoint drain_ids (ids : list Z) : state_action (list (Z * bytes)) :=
  match ids with
  | [] => mret []
  | stream_id :: ids =>
    taken ← state_get_stream_data stream_id;
    rest ← drain_ids ids;
    mret (match taken with Some (data, _) => (stream_id, data) :: rest | None => rest end)
  end.
Definition drain_qpack_data : state_action (list (Z * bytes)) := fun s =>
  drain_ids (flatten [st_encoder_stream_id s; st_decoder_stream_id s]) s.

Definition state_drain_events : state_action (list Event) := on_conn drain_events.
Definition feed_stream_only (stream_id : Z) (data : bytes) (fin : bool) : state_action unit :=
  on_conn (feed_stream stream_id data fin).
Definition process_stream_data (stream_id : Z) (data : bytes) (fin : bool) : state_action (list Event) :=
  on_conn (feed_stream stream_id data fin);; state_drain_events.

Definition prepare_response (stream_id : Z) (headers : list Header) (body : bytes) : state_action unit :=
  on_conn (send_response stream_id headers false);; on_conn (conn_send_body stream_id body true).
Definition state_send_request (headers : list Header) (fin : bool) : state_action Z := on_conn (send_request headers fin).

(** The final size is not known here. *)
Definition stream_reset_only (stream_id error_code : Z) : state_action unit := on_conn (stream_reset stream_id error_code 0).
Definition state_stream_reset (stream_id error_code : Z) : state_action (list Event) :=
  stream_reset_only stream_id error_code;; state_drain_events.
Definition connect_stream_reset (stream_id error_code : Z) : state_action (list Event) := state_stream_reset stream_id error_code.

(** Whether the task goes on. *)
Definition apply_uni_recv_action (stream_id : Z) (a : UniRecvAction) : state_action bool :=
  match a with
  | UniData data => feed_stream_only stream_id data false;; mret true
  | UniFin => feed_stream_only stream_id [] true;; mret false
  | UniReset error_code => stream_reset_only stream_id error_code;; mret false
  | UniIgnore => mret false
  end.

(** The transport's error, of which only the code of a reset matters. *)
Definition classify_uni_recv {E} (stream_reset_code : E -> option Z) (r : result E (option bytes)) : UniRecvAction :=
  match r with
  | Ok (Some data) => UniData data
  | Ok None => UniFin
  | Err e => match stream_reset_code e with Some code => UniReset code | None => UniIgnore end
  end.

(** The code a stream is reset with after an error; a panic when it is no varint. *)
Definition reset_code_on_stream_error (e : S2nError T) : option (option Z) :=
  match e with
  | Http3 (StreamError code) => if error_code code <=? VARINT_MAX then Some (Some (error_code code)) else None
  | _ => Some None
  end.

(** ** Every call is a sequence of calls of the connection *)
Inductive state_op :=
| SoInitH3Streams (control_stream_id encoder_stream_id decoder_stream_id : Z)
| SoDrainQpackData
| SoProcessStreamData (stream_id : Z) (data : bytes) (fin : bool)
| SoFeedStreamOnly (stream_id : Z) (data : bytes) (fin : bool)
| SoDrainEvents
| SoPrepareResponse (stream_id : Z) (headers : list Header) (body : bytes)
| SoSendRequest (headers : list Header) (fin : bool)
| SoGetStreamData (stream_id : Z)
| SoStreamReset (stream_id error_code : Z)
| SoStreamResetOnly (stream_id error_code : Z)
| SoConnectStreamReset (stream_id error_code : Z)
| SoApplyUniRecvAction (stream_id : Z) (a : UniRecvAction).

(** What a call hands out, as far as it is events. *)
Definition silent {A} (m : state_action A) : state_action (list Event) := m;; mret [].
Definition run_state_op (op : state_op) : state_action (list Event) :=
  match op with
  | SoInitH3Streams a b d => silent (state_init_h3_streams a b d)
  | SoDrainQpackData => silent drain_qpack_data
  | SoProcessStreamData id data fin => process_stream_data id data fin
  | SoFeedStreamOnly id data fin => silent (feed_stream_only id data fin)
  | SoDrainEvents => state_drain_events
  | SoPrepareResponse id headers body => silent (prepare_response id headers body)
  | SoSendRequest headers fin => silent (state_send_request headers fin)
  | SoGetStreamData id => silent (state_get_stream_data id)
  | SoStreamReset id code => state_stream_reset id code
  | SoStreamResetOnly id code => silent (stream_reset_only id code)
  | SoConnectStreamReset id code => connect_stream_reset id code
  | SoApplyUniRecvAction id a => silent (apply_uni_recv_action id a)
  end.

Definition calls (op : state_op) (s : ConnectionState) : list conn_op :=
  match op with
  | SoInitH3Streams a b d => [OpInitH3Streams a b d]
  | SoDrainQpackData => map OpTakeStreamData (flatten [st_encoder_stream_id s; st_decoder_stream_id s])
  | SoProcessStreamData id data fin => [OpFeedStream id data fin; OpDrainEvents]
  | SoFeedStreamOnly id data fin => [OpFeedStream id data fin]
  | SoDrainEvents => [OpDrainEvents]
  | SoPrepareResponse id headers body => [OpSendResponse id headers false; OpSendBody id body true]
  | SoSendRequest headers fin => [OpSendRequest headers fin]
  | SoGetStreamData id => [OpTakeStreamData id]
  | SoStreamReset id code | SoConnectStreamReset id code => [OpStreamReset id code 0; OpDrainEvents]
  | SoStreamResetOnly id code => [OpStreamReset id code 0]
  | SoApplyUniRecvAction id a =>
    match a with
    | UniData data => [OpFeedStream id data false]
    | UniFin => [OpFeedStream id [] true]
    | UniReset code => [OpStreamReset id code 0]
    | UniIgnore => []
    end
  end.

(** [m] makes the calls [ops], all of them unless one fails, and hands out what [ev] says. *)
Definition follows {A} (ev : A -> list Event) (m : state_action A) (s : ConnectionState) (ops : list conn_op) : Prop :=
  match m s with
  | Some (s', r) => exists made rs, made `prefix_of` ops /\ run_ops made (h3_conn s) = Some (h3_conn s', rs) /\
    match r with Ok a => made = ops /\ handed_out rs = ev a | Err _ => handed_out rs = [] end
  | None => exists made, made `prefix_of` ops /\ run_ops made (h3_conn s) = None
  end.

Lemma handed_out_app a b : handed_out (a ++ b) = handed_out a ++ handed_out b.
Proof. apply flat_map_app. Qed.

Lemma follows_ret {A} ev (a : A) s : ev a = [] -> follows ev (mret a) s [].
Proof. intros E. exists [], []. by rewrite E. Qed.
Lemma follows_bind {A B} ev ev' (m : state_action A) (f : A -> state_action B) s ops1 ops2 : (forall a, ev a = []) ->
  follows ev m s ops1 -> (forall a s', follows ev' (f a) s' ops2) -> follows ev' (m ≫= f) s (ops1 ++ ops2).
Proof.
  intros He Hm Hf. unfold follows, mbind, state_bind in *. destruct (m s) as [[s1 [a|e]]|].
  - destruct Hm as (made & rs & _ & Hrun & -> & Hout). specialize (Hf a s1). rewrite He in Hout.
    destruct (f a s1) as [[s2 r]|].
    + destruct Hf as (made2 & rs2 & Hp & Hrun2 & Hr). exists (ops1 ++ made2), (rs ++ rs2). split; [by apply prefix_app|].
      split; [by apply (run_ops_app _ _ _ _ _ _ _ Hrun)|]. rewrite handed_out_app, Hout.
      destruct r; [destruct Hr as [-> Hr]; by split|done].
    + destruct Hf as (made2 & Hp & Hn). exists (ops1 ++ made2). split; [by apply prefix_app|]. by apply (run_ops_app_none _ _ _ _ _ Hrun).
  - destruct Hm as (made & rs & Hp & Hrun & Hout). exists made, rs. split; [by apply prefix_app_r|done].
  - destruct Hm as (made & Hp & Hrun). exists made. split; [by apply prefix_app_r|done].
Qed.

(** One call of the connection. *)
Lemma follows_call {A} ev (f : A -> output) op (m : action A) s : run_op op = returning f m ->
  (forall a, handed_out [Ok (f a)] = ev a) -> follows ev (on_conn m) s [op].
Proof.
  intros Hop Hev. unfold follows, on_conn. destruct (m (h3_conn s)) as [[c r]|] eqn:E.
  - destruct r as [a|e]; exists [op]; eexists; (split; [done|]); (split; [apply run_one; by rewrite Hop, returning_eq, E|]);
      [split; [done|apply Hev]|done].
  - exists [op]. split; [done|]. cbn [run_ops]. by rewrite Hop, returning_eq, E.
Qed.

Lemma follows_drain s : follows (fun l => l) state_drain_events s [OpDrainEvents].
Proof. apply (follows_call _ OutEvents); [done|]. intros l. apply app_nil_r. Qed.
Lemma follows_silent {A} (m : state_action A) s ops : follows (fun _ => []) m s ops -> follows (fun l => l) (silent m) s ops.
Proof.
  intros H. unfold silent. rewrite <- (app_nil_r ops). apply (follows_bind (fun _ => [])); [done..|]. intros a s'. by apply follows_ret.
Qed.
Lemma follows_take id s : follows (fun _ => []) (state_get_stream_data id) s [OpTakeStreamData id].
Proof. by apply (follows_call _ OutData). Qed.
Lemma follows_feed id data fin s : follows (fun _ => []) (feed_stream_only id data fin) s [OpFeedStream id data fin].
Proof. by apply (follows_call _ (fun _ => OutUnit)). Qed.
Lemma follows_reset id code s : follows (fun _ => []) (stream_reset_only id code) s [OpStreamReset id code 0].
Proof. by apply (follows_call _ (fun _ => OutUnit)). Qed.

Lemma follows_drain_ids ids : forall s, follows (fun _ => []) (drain_ids ids) s (map OpTakeStreamData ids).
Proof.
  induction ids as [|id ids IH]; intros s; cbn [drain_ids map]; [by apply follows_ret|].
  apply (follows_bind (fun _ => []) _ _ _ _ [OpTakeStreamData id]); [done|apply follows_take|]. intros taken s1.
  rewrite <- (app_nil_r (map OpTakeStreamData ids)). apply (follows_bind (fun _ => [])); [done|apply IH|].
  intros rest s2. by apply follows_ret.
Qed.

Lemma follows_then_drain {A} (m : state_action A) op s : follows (fun _ => []) m s [op] ->
  follows (fun l => l) (m;; state_drain_events) s [op; OpDrainEvents].
Proof. intros H. apply (follows_bind (fun _ => []) _ _ _ _ [op]); [done..|]. intros _ s'. apply follows_drain. Qed.
Lemma follows_uni id a s : follows (fun _ => []) (apply_uni_recv_action id a) s (calls (SoApplyUniRecvAction id a) s).
Proof.
  destruct a; cbn [apply_uni_recv_action calls]; [..|by apply follows_ret];
    rewrite <- (app_nil_r [_]); apply (follows_bind (fun _ => [])); try done;
    first [apply follows_feed|apply follows_reset|intros [] s'; by apply follows_ret].
Qed.

Lemma state_op_follows op s : follows (fun l => l) (run_state_op op) s (calls op s).
Proof.
  destruct op; cbn [run_state_op].
  - apply follows_silent. by apply (follows_call _ OutInit _ _ (mkConnectionState (h3_conn s) _ _ _)).
  - apply follows_silent, follows_drain_ids.
  - apply follows_then_drain, follows_feed.
  - apply follows_silent, follows_feed.
  - apply follows_drain.
  - apply follows_silent, (follows_bind (fun _ => []) _ _ _ _ [_]); [done|by apply (follows_call _ (fun _ => OutUnit))|].
    intros _ s'. by apply (follows_call _ (fun _ => OutUnit)).
  - apply follows_silent. by apply (follows_call _ OutStream).
  - apply follows_silent, follows_take.
  - apply follows_then_drain, follows_reset.
  - apply follows_silent, follows_reset.
  - apply follows_then_drain, follows_reset.
  - apply follows_silent, follows_uni.
Qed.
End state.

Lemma ops_ok_prefix made : forall ops c, made `prefix_of` ops -> ops_ok ops c -> ops_ok made c.
Proof.
  induction made as [|op made IH]; intros ops c [rest ->]; [done|]. cbn [app ops_ok]. intros [Hop Hrest]. split; [done|].
  destruct (run_op op c) as [[c' r]|]; [|done]. apply (IH (made ++ rest)); [by exists rest|done].
Qed.

(** What follows calls of the connection is as safe as they are, and loses no event. *)
Lemma follows_safe {T A} (ev : A -> list Event) (m : state_action A) r settings s ops : settings_ok settings ->
  reachable r settings (h3_conn s) -> ops_ok ops (h3_conn s) -> follows (T := T) ev m s ops ->
  exists s' res, m s = Some (s', res) /\ reachable r settings (h3_conn s') /\
    hands (match res with Ok a => ev a | Err _ => [] end) (h3_conn s) (h3_conn s').
Proof.
  intros Hset Hr Hok Hf. pose proof (reachable_wf _ _ _ Hset Hr) as Hw. unfold follows in Hf. destruct (m s) as [[s' res]|].
  - destruct Hf as (made & rs & Hp & Hrun & Hres). exists s', res. split; [done|].
    split; [by eapply reachable_steps, run_ops_steps, Hrun; [|by eapply ops_ok_prefix]|].
    replace (match res with Ok a => ev a | Err _ => [] end) with (handed_out rs) by (destruct res; [apply Hres|done]).
    by eapply run_ops_fifo.
  - destruct Hf as (made & Hp & Hrun). destruct (run_ops_safe made (h3_conn s) Hw) as (c' & rs & E & _); [by eapply ops_ok_prefix|].
    congruence.
Qed.

Lemma prefix_no_request made ops : made `prefix_of` ops -> existsb is_request ops = false -> existsb is_request made = false.
Proof. intros [rest ->]. rewrite existsb_app. by intros [? _]%orb_false_iff. Qed.
Lemma follows_next {T A} (ev : A -> list Event) (m : state_action A) s ops s' res : existsb is_request ops = false ->
  follows (T := T) ev m s ops -> m s = Some (s', res) -> same_next (h3_conn s) (h3_conn s').
Proof.
  intros Hops Hf E. unfold follows in Hf. rewrite E in Hf. destruct Hf as (made & rs & Hp & Hrun & _).
  eapply run_ops_next; [|exact Hrun]. by eapply prefix_no_request.
Qed.

(** ** Properties *)

(** The calls of the s2n-quic tasks keep the connection safe and lose no event: in any
    state the connection can get into, none panics, the connection goes on to such a
    state, so that all that holds of those holds between the calls, and the events handed
    out with those still queued are those that were queued, in order, then new ones. *)
Theorem state_calls_safe {T} r settings op s : settings_ok settings -> reachable r settings (h3_conn s) ->
  ops_ok (calls op s) (h3_conn s) ->
  exists s' res, run_state_op (T := T) op s = Some (s', res) /\ reachable r settings (h3_conn s') /\
    exists new, match res with Ok l => l | Err _ => [] end ++ events (h3_conn s') = events (h3_conn s) ++ new.
Proof.
  intros Hset Hr Hok. destruct (follows_safe (T := T) _ _ _ _ _ _ Hset Hr Hok (state_op_follows op s)) as (s' & res & E & Hr' & new & Hn & _).
  exists s', res. split; [done|]. split; [done|]. by exists new.
Qed.

(** What the transport says of a unidirectional stream is told to the connection for
    what it is: an error of the whole transport is not told at all, so that it is not
    mistaken for the end of a critical stream; the end or the reset of the peer's control
    stream ends the connection with H3_CLOSED_CRITICAL_STREAM. *)
Theorem uni_recv_reports {T E} (stream_reset_code : E -> option Z) (e : E) id kind (s : ConnectionState) : 
  let receive r := apply_uni_recv_action (T := T) id (classify_uni_recv stream_reset_code r) s in
  let closed o := exists s', o = Some (s', Err (Http3 (ConnectionError ClosedCriticalStream))) /\
    error (h3_conn s') = Some (ConnectionError ClosedCriticalStream) in
  (stream_reset_code e = None -> receive (Err e) = Some (s, Ok false)) /\
  (error (h3_conn s) = None -> is_id (control_recv_id (h3_conn s)) id = true ->
    (from_stream_id id = Some kind -> is_unidirectional kind = true -> is_local_initiated_uni kind (h3_conn s) = false ->
     in_set (ignored_uni_streams (h3_conn s)) id = false -> has_pending_data (control_recv (h3_conn s)) = false ->
     closed (receive (Ok None))) /\
    (is_Some (stream_reset_code e) -> closed (receive (Err e)))).
Proof.
  intros receive closed. split; [unfold receive; cbn; by intros ->|]. intros He Hid. split.
  - intros Hk Hu Hl Hi Hp. unfold closed, receive. cbn [classify_uni_recv apply_uni_recv_action].
    set (c := h3_conn s) in *. exists (with_conn (set_error (Some (ConnectionError ClosedCriticalStream)) c) s). split; [|done].
    unfold feed_stream_only, mbind, state_bind, on_conn. fold c. unfold feed_stream, check_error_state.
    rewrite (bind_ok _ _ c c tt) by by rewrite gets_ok, He. unfold remember_connection_error.
    rewrite (expect_ok _ _ _ _ Hk), Hu. unfold handle_unidirectional_stream. rewrite get_ok, Hi, (expect_ok _ _ _ _ Hk), Hl.
    change (is_empty_bytes []) with true. cbn [negb andb unless_empty]. unfold unless_empty. change (is_empty_bytes []) with true.
    unfold finish_uni, check_critical_fin. unfold done_with at 1. rewrite (bind_ok _ _ c c tt) by done.
    unfold mbind, action_bind, get, gets, Datatypes.id. rewrite Hid. unfold throw_if. by rewrite Hp.
  - intros [code Hcode]. unfold closed, receive. cbn [classify_uni_recv]. rewrite Hcode. cbn [apply_uni_recv_action].
    set (c := h3_conn s) in *. exists (with_conn (set_error (Some (ConnectionError ClosedCriticalStream)) c) s). split; [|done].
    unfold stream_reset_only, mbind, state_bind, on_conn. fold c. unfold stream_reset, remember_connection_error, check_error_state.
    rewrite (bind_ok _ _ c c tt) by by rewrite gets_ok, He. rewrite get_ok. unfold is_peer_critical. rewrite Hid. done.
Qed.

(** ** Witnesses *)
Definition state_of (c : Connection) : ConnectionState := mkConnectionState c (Some 2) (Some 6) (Some 10).

(** A GOAWAY frame arrives at a client whose events have not been taken yet. *)
Lemma state_calls_safe_witness :
  exists c s' res, state_after Client settings_new listening_client = Some c /\
    run_state_op (T := unit) (SoProcessStreamData 3 [0x07; 0x01; 0x04] false) (state_of c) = Some (s', res) /\
    exists new, match res with Ok l => l | Err _ => [] end ++ events (h3_conn s') = events c ++ new.
Proof.
  destruct (state_after Client settings_new listening_client) as [c|] eqn:E; [|vm_compute in E; discriminate].
  assert (reachable Client settings_new c) as Hr.
  { apply (state_after_reachable _ _ listening_client); [vm_compute; reflexivity|exact E]. }
  assert (ops_ok (calls (SoProcessStreamData 3 [0x07; 0x01; 0x04] false) (state_of c)) c) as Hok.
  { vm_compute in E. injection E as <-. apply (bool_decide_unpack _). vm_compute. exact I. }
  destruct (state_calls_safe (T := unit) Client settings_new _ (state_of c) ltac:(repeat split) Hr Hok) as (s' & res & E1 & _ & E2).
  exists c, s', res. split; [reflexivity|]. split; [exact E1|exact E2].
Defined.

Lemma uni_recv_reports_witness :
  exists c s', state_after Client settings_new listening_client = Some c /\
    apply_uni_recv_action (T := unit) 3 (classify_uni_recv (fun code : option Z => code) (Err None)) (state_of c) = Some (state_of c, Ok false) /\
    apply_uni_recv_action (T := unit) 3 (classify_uni_recv (fun code : option Z => code) (Ok None)) (state_of c) =
      Some (s', Err (Http3 (ConnectionError ClosedCriticalStream))).
Proof.
  destruct (state_after Client settings_new listening_client) as [c|] eqn:E; [|vm_compute in E; discriminate].
  destruct (uni_recv_reports (T := unit) (fun code : option Z => code) None 3 ServerUni (state_of c)) as [H1 H2].
  assert (error c = None /\ is_id (control_recv_id c) 3 = true /\ is_local_initiated_uni ServerUni c = false /\
    in_set (ignored_uni_streams c) 3 = false /\ has_pending_data (control_recv c) = false) as (A1 & A2 & A3 & A4 & A5).
  { vm_compute in E. injection E as <-. vm_compute. repeat split. }
  destruct (proj1 (H2 A1 A2)) as (s' & E' & _); [reflexivity|reflexivity|exact A3|exact A4|exact A5|].
  exists c, s'. split; [reflexivity|]. split; [exact (H1 eq_refl)|exact E'].
Defined.
