(* ===== verification/S2nTasks.v ===== *)
(** crates/tokio-s2n-quic/src/h3/: the tasks of [H3Client] and [H3ServerConnection]. Every
    stream of the peer is read by a task of its own, one task writes the QPACK streams
    that the others fill through a channel, and the application's task sends a request
    and waits for the response, or waits for a request and answers it.

    A task that waits is woken by what arrives on its stream or by a notification, and in
    between the others use the connection. A loop that waits is a function of the list of
    these happenings ([Wake]); when the list ends it goes on waiting. The QUIC library is
    a parameter: [stream_reset_code], the code of the error that says that the peer has
    reset a stream, and [quic], its answer to what is done to the task's stream after
    what has been done to it. *)

From Stdlib Require Import String Ascii.
From S2P Require Import Prelude Codec Varint Header Settings Error Stream EncoderStream QpackEncoder ControlStream RequestStream Validation Capsule Event Datagram WtSession Connect Display Connection ConnInvariant ConnNegotiation ConnWtSession ConnWtStream ConnReceive ConnSafety ConnSend ConnSendSafety ConnRun ConnEvents ConnOutgoing S2nSession S2nState.

(** ** What the application asks for and gets *)
Record H3ClientRequest := mkH3ClientRequest {
  cq_method : bytes; cq_path : bytes; cq_authority : option bytes; cq_headers : list (bytes * bytes); cq_body : bytes }.
Definition client_request_get (path : bytes) : H3ClientRequest := mkH3ClientRequest (str "GET") path None [] [].
Definition client_request_post (path : bytes) : H3ClientRequest := mkH3ClientRequest (str "POST") path None [] [].
Definition with_authority (authority : bytes) (r : H3ClientRequest) : H3ClientRequest :=
  mkH3ClientRequest (cq_method r) (cq_path r) (Some authority) (cq_headers r) (cq_body r).
Definition with_header (n v : bytes) (r : H3ClientRequest) : H3ClientRequest :=
  mkH3ClientRequest (cq_method r) (cq_path r) (cq_authority r) (cq_headers r ++ [(n, v)]) (cq_body r).
Definition with_body (body : bytes) (r : H3ClientRequest) : H3ClientRequest :=
  mkH3ClientRequest (cq_method r) (cq_path r) (cq_authority r) (cq_headers r) body.

Record H3ClientResponse := mkH3ClientResponse { cr_status : Z; cr_headers : list (bytes * bytes); cr_body : bytes }.
Record H3Request := mkH3Request { hr_headers : list (bytes * bytes); hr_stream_id : Z; hr_body : bytes }.
Definition field_of_request (n : bytes) (r : H3Request) : bytes :=
  match List.find (fun h => bytes_eqb (fst h) n) (hr_headers r) with Some (_, value) => value | None => [] end.
Definition request_method : H3Request -> bytes := field_of_request (str ":method").
Definition request_path : H3Request -> bytes := field_of_request (str ":path").

Record H3Response := mkH3Response { hs_status : Z; hs_headers : list (bytes * bytes); hs_body : bytes }.
Definition h3_response_new (status : Z) : H3Response := mkH3Response status [] [].
Definition response_header (n v : bytes) (r : H3Response) : H3Response :=
  mkH3Response (hs_status r) (hs_headers r ++ [(n, v)]) (hs_body r).
Definition response_body (body : bytes) (r : H3Response) : H3Response := mkH3Response (hs_status r) (hs_headers r) body.

(** What a task does to the QUIC stream it owns. *)
Inductive StreamAction := ActSend (data : bytes) | ActFinish | ActReset (code : Z) | ActStopSending (code : Z).

Section tasks.
Context {E : Type} (stream_reset_code : E -> option Z) (quic : list StreamAction -> StreamAction -> result E unit).

(** ** The shared connection, and a task with its stream

    [tk_qpack_tx] is what has been sent into the channel of the QPACK task,
    [tk_unblocked] the permit of [qpack_unblock_notify]. *)
Record Task := mkTask {
  tk_state : ConnectionState; tk_qpack_tx : list (Z * bytes); tk_unblocked : bool; tk_performed : list StreamAction }.

Definition task (A : Type) : Type := Task -> option (Task * result (S2nError E) A).
#[export] Instance task_ret : MRet task := fun _ a t => Some (t, Ok a).
#[export] Instance task_bind : MBind task := fun _ _ f m t =>
  match m t with
  | Some (t, Ok a) => f a t
  | Some (t, Err e) => Some (t, Err e)
  | None => None
  end.
Definition failing {A} (e : S2nError E) : task A := fun t => Some (t, Err e).
Definition of_result {A} (r : result (S2nError E) A) : state_action (T := E) A := fun s => Some (s, r).

Definition with_state (s : ConnectionState) (t : Task) : Task :=
  mkTask s (tk_qpack_tx t) (tk_unblocked t) (tk_performed t).
Definition set_unblocked (b : bool) (t : Task) : Task :=
  mkTask (tk_state t) (tk_qpack_tx t) b (tk_performed t).
Definition push_qpack (l : list (Z * bytes)) (t : Task) : Task :=
  mkTask (tk_state t) (tk_qpack_tx t ++ l) (tk_unblocked t) (tk_performed t).
Definition perform (a : StreamAction) (t : Task) : Task :=
  mkTask (tk_state t) (tk_qpack_tx t) (tk_unblocked t) (tk_performed t ++ [a]).

(** [self.state.lock()...]: one call, or a few, while the lock is held. *)
Definition locked {A} (m : state_action (T := E) A) : task A := fun t =>
  match m (tk_state t) with
  | Some (s, r) => Some (with_state s t, r)
  | None => None
  end.
Definition update_task (f : Task -> Task) : task unit := fun t => Some (f t, Ok ()).
Definition or_handle {A} (m : task A) (handle : S2nError E -> task A) : task A := fun t =>
  match m t with
  | Some (t, Err e) => handle e t
  | other => other
  end.
(** [let _ = ..]. *)
Definition ignoring {A} (m : task A) : task unit := fun t =>
  match m t with Some (t, _) => Some (t, Ok ()) | None => None end.

Definition quic_action (a : StreamAction) : task unit := fun t =>
  Some (perform a t, map_err Transport (quic (tk_performed t) a)).

Definition flush_qpack : task unit :=
  data ← locked drain_qpack_data; update_task (push_qpack data).

Definition reset_stream_on_stream_error (e : S2nError E) : task unit :=
  match reset_code_on_stream_error e with
  | Some (Some code) => ignoring (quic_action (ActReset code))
  | Some None => mret ()
  | None => fun _ => None
  end.

(** ** The tasks that read the peer's unidirectional streams

    [unwrap_or_default]: after an error the task ends. *)
Definition uni_turn (stream_id : Z) (r : result E (option bytes)) : task bool :=
  cont ← or_handle (locked (apply_uni_recv_action stream_id (classify_uni_recv stream_reset_code r))) (fun _ => mret false);
  flush_qpack;;
  update_task (set_unblocked true);;
  mret cont.
Fixpoint uni_task (stream_id : Z) (received : list (result E (option bytes))) : task unit :=
  match received with
  | [] => mret ()
  | r :: received => cont ← uni_turn stream_id r; if (cont : bool) then uni_task stream_id received else mret ()
  end.

(** The task that writes the QPACK streams, with what the transport says to each item
    after the ones before: items of other streams are dropped, and an error ends it. *)
Fixpoint qpack_task (send : list (Z * bytes) -> Z * bytes -> result E unit) (encoder_stream_id decoder_stream_id : Z)
    (items written : list (Z * bytes)) : list (Z * bytes) :=
  match items with
  | [] => written
  | (stream_id, data) :: items =>
    if (stream_id =? encoder_stream_id) || (stream_id =? decoder_stream_id)
    then match send written (stream_id, data) with
         | Ok _ => qpack_task send encoder_stream_id decoder_stream_id items (written ++ [(stream_id, data)])
         | Err _ => written
         end
    else qpack_task send encoder_stream_id decoder_stream_id items written
  end.

(** ** The loop of a task that waits for a message

    [collect] is what the task does with an event; it may give up, after some actions on
    its stream, and may panic. *)
Inductive Wake := Received (r : result E (option bytes)) | Notified | UniTurn (stream_id : Z) (r : result E (option bytes)).
Inductive outcome (Acc : Type) := Waiting (acc : Acc) | Done (r : result (S2nError E) Acc).
#[global] Arguments Waiting {Acc} _.
#[global] Arguments Done {Acc} _.
Definition refusal : Type := list StreamAction * S2nError E.

Section event_loop.
Context {Acc : Type} (stream_id : Z) (collect : Acc -> Event -> option (result refusal Acc)) (finished : Acc -> bool).

Fixpoint collect_all (l : list Event) (acc : Acc) : option (result refusal Acc) :=
  match l with
  | [] => Some (Ok acc)
  | e :: l =>
    match collect acc e with
    | Some (Ok acc) => collect_all l acc
    | other => other
    end
  end.

(** The actions of a refusal, whose results are ignored. *)
Fixpoint refuse_stream (l : list StreamAction) : task unit :=
  match l with
  | [] => mret ()
  | a :: l => ignoring (quic_action a);; refuse_stream l
  end.

(** From the top of the loop to the check whether the message is complete. *)
Definition loop_turn (acc : Acc) : task Acc :=
  l ← locked state_drain_events;
  match collect_all l acc with
  | Some (Ok acc) => flush_qpack;; mret acc
  | Some (Err (actions, e)) => refuse_stream actions;; failing e
  | None => fun _ => None
  end.

(** What [recv_stream.receive()] returned; the answer says whether it was the end. *)
Definition stream_received (r : result E (option bytes)) : task bool :=
  match r with
  | Ok o =>
    let fin := negb (is_some o) in
    or_handle (locked (feed_stream_only stream_id (default [] o) fin)) (fun e => reset_stream_on_stream_error e;; failing e);;
    flush_qpack;;
    mret fin
  | Err e =>
    match stream_reset_code e with
    | Some code => ignoring (locked (state_stream_reset stream_id code));; flush_qpack
    | None => mret ()
    end;;
    failing (Transport e)
  end.

Definition and_then_wait (m : task Acc) (wait : Acc -> Task -> option (Task * outcome Acc)) (t : Task)
    : option (Task * outcome Acc) :=
  match m t with
  | Some (t, Ok acc) => if finished acc then Some (t, Done (Ok acc)) else wait acc t
  | Some (t, Err e) => Some (t, Done (Err e))
  | None => None
  end.

(** [select!]: a notification counts if there is one; after the end of the stream it is
    not read any more. *)
Fixpoint waiting_loop (script : list Wake) (peer_fin : bool) (acc : Acc) (t : Task) : option (Task * outcome Acc) :=
  match script with
  | [] => Some (t, Waiting acc)
  | Received r :: script =>
    if peer_fin then waiting_loop script peer_fin acc t
    else match stream_received r t with
         | Some (t, Ok fin) => and_then_wait (loop_turn acc) (waiting_loop script fin) t
         | Some (t, Err e) => Some (t, Done (Err e))
         | None => None
         end
  | Notified :: script =>
    if tk_unblocked t then and_then_wait (loop_turn acc) (waiting_loop script peer_fin) (set_unblocked false t)
    else waiting_loop script peer_fin acc t
  | UniTurn id r :: script =>
    match uni_turn id r t with
    | Some (t, _) => waiting_loop script peer_fin acc t
    | None => None
    end
  end.
Definition event_loop (script : list Wake) (acc : Acc) : Task -> option (Task * outcome Acc) :=
  and_then_wait (loop_turn acc) (waiting_loop script false).
End event_loop.

Definition bind_outcome {A B} (m : task A) (f : A -> Task -> option (Task * outcome B)) (t : Task) : option (Task * outcome B) :=
  match m t with
  | Some (t, Ok a) => f a t
  | Some (t, Err e) => Some (t, Done (Err e))
  | None => None
  end.
Definition map_outcome {A B} (f : A -> B) (o : outcome A) : outcome B :=
  match o with Waiting a => Waiting (f a) | Done (Ok a) => Done (Ok (f a)) | Done (Err e) => Done (Err e) end.

(** [while let Some((data, fin)) = s.get_stream_data(stream_id)]. *)
Fixpoint collect_stream_data (fuel : nat) (stream_id : Z) (data : bytes) (fin : bool) : state_action (T := E) (bytes * bool) :=
  match fuel with
  | O => fun _ => None
  | S fuel =>
    taken ← state_get_stream_data stream_id;
    match taken with
    | None => mret (data, fin)
    | Some (chunk, fin) =>
      if (fin : bool) then mret (data ++ chunk, fin) else collect_stream_data fuel stream_id (data ++ chunk) fin
    end
  end.
(** Data, then a FIN or nothing. *)
Definition DATA_TAKES : nat := 2.

Definition make_header (n v : bytes) : result (S2nError E) Header := map_err s2n_header_error (header_new n v).
Fixpoint make_headers (l : list (bytes * bytes)) : result (S2nError E) (list Header) :=
  match l with
  | [] => Ok []
  | (n, v) :: l => h ← make_header n v; headers ← make_headers l; mret (h :: headers)
  end.

(** ** [H3Client::send_request] *)
Definition client_request_fields (r : H3ClientRequest) : list (bytes * bytes) :=
  [(str ":method", cq_method r); (str ":path", cq_path r); (str ":scheme", str "https")] ++
  match cq_authority r with Some authority => [(str ":authority", authority)] | None => [] end ++
  cq_headers r.

(** [assert_eq!]. *)
Definition assert_id (h3_stream_id stream_id : Z) : state_action (T := E) unit := fun s =>
  if h3_stream_id =? stream_id then Some (s, Ok ()) else None.

(** The request while the lock is held: the bytes for its stream. *)
Definition client_request_data (request : H3ClientRequest) (stream_id : Z) : state_action (T := E) (bytes * bool) :=
  headers ← of_result (make_headers (client_request_fields request));
  let fin := is_empty_bytes (cq_body request) in
  h3_stream_id ← state_send_request headers fin;
  (if fin then mret () else on_conn (conn_send_body h3_stream_id (cq_body request) true));;
  assert_id h3_stream_id stream_id;;
  collect_stream_data DATA_TAKES h3_stream_id [] false.

Definition quic_send_all (data : bytes) (fin : bool) : task unit :=
  quic_action (ActSend data);; if fin then quic_action ActFinish else mret ().

Record Incoming := mkIncoming { in_headers : list (bytes * bytes); in_complete : bool; in_body : bytes; in_ended : bool }.
Definition incoming_new : Incoming := mkIncoming [] false [] false.

Definition collect_response (stream_id : Z) (acc : Incoming) (e : Event) : option (result refusal Incoming) :=
  let '(mkIncoming headers complete body ended) := acc in
  Some (Ok (match e with
            | EvHeader sid n v => if sid =? stream_id then mkIncoming (headers ++ [(n, v)]) complete body ended else acc
            | EvData sid d => if sid =? stream_id then mkIncoming headers complete (body ++ d) ended else acc
            | EvStreamEnd sid => if sid =? stream_id then mkIncoming headers complete body true else acc
            | _ => acc
            end)).

(** The first [:status], or 0. *)
Definition response_of (i : Incoming) : H3ClientResponse :=
  mkH3ClientResponse
    (default 0 (h ← List.find (fun h => bytes_eqb (fst h) (str ":status")) (in_headers i); parse_status (snd h)))
    (in_headers i) (in_body i).

(** The first half: the request is sent. *)
Definition client_ask (request : H3ClientRequest) (stream_id : Z) : task unit :=
  '(request_data, request_fin) ← locked (client_request_data request stream_id);
  flush_qpack;;
  quic_send_all request_data request_fin.

(** [opened] is what [open_bidirectional_stream] returned. *)
Definition h3_client_send_request (request : H3ClientRequest) (opened : result E Z) (script : list Wake)
    : Task -> option (Task * outcome H3ClientResponse) :=
  bind_outcome (fun t => Some (t, map_err Transport opened)) (fun stream_id =>
  bind_outcome (client_ask request stream_id) (fun _ t =>
  '(t, o) ← event_loop stream_id (collect_response stream_id) in_ended script incoming_new t;
  Some (t, map_outcome response_of o))).

(** ** [H3ServerConnection::accept_request] and [H3Request::send_response] *)
Definition not_supported : S2nError E := InvalidState (str "WebTransport is not supported by H3Server").

Definition collect_request (stream_id : Z) (acc : Incoming) (e : Event) : option (result refusal Incoming) :=
  let '(mkIncoming headers complete body ended) := acc in
  match e with
  | EvHeader sid n v => Some (Ok (if sid =? stream_id then mkIncoming (headers ++ [(n, v)]) complete body ended else acc))
  | EvHeadersEnd sid => Some (Ok (if sid =? stream_id then mkIncoming headers true body ended else acc))
  | EvData sid d => Some (Ok (if sid =? stream_id then mkIncoming headers complete (body ++ d) ended else acc))
  | EvStreamEnd sid => Some (Ok (if sid =? stream_id then mkIncoming headers complete body true else acc))
  | EvWebTransport (WtBufferedStreamRejected sid code) =>
    if sid =? stream_id then
      if code <=? VARINT_MAX then Some (Err ([ActReset code; ActStopSending code], not_supported)) else None
    else Some (Ok acc)
  | EvWebTransport wt =>
    if bool_decide (wt_event_stream_id wt = Some stream_id) then Some (Err ([], not_supported)) else Some (Ok acc)
  | _ => Some (Ok acc)
  end.
Definition request_complete (i : Incoming) : bool := in_complete i && in_ended i.

(** [accepted] is what the acceptor returned. *)
Definition accept_request (accepted : result E (option Z)) (script : list Wake) : Task -> option (Task * outcome H3Request) :=
  bind_outcome (fun t => Some (t, o ← map_err Transport accepted; ok_or o ConnectionClosed)) (fun stream_id =>
  bind_outcome (ignoring (locked (feed_stream_only stream_id [] false))) (fun _ t =>
  '(t, o) ← event_loop stream_id (collect_request stream_id) request_complete script incoming_new t;
  Some (t, map_outcome (fun i => mkH3Request (in_headers i) stream_id (in_body i)) o))).

Definition server_response_fields (r : H3Response) : list (bytes * bytes) :=
  (str ":status", decimal (hs_status r)) :: hs_headers r.
Definition server_response_data (stream_id : Z) (response : H3Response) : state_action (T := E) (bytes * bool) :=
  headers ← of_result (make_headers (server_response_fields response));
  prepare_response stream_id headers (hs_body response);;
  collect_stream_data DATA_TAKES stream_id [] false.

(** [responded]: [send_stream] has been taken by an earlier call. *)
Definition h3_request_send_response (request : H3Request) (responded : bool) (response : H3Response) : task unit :=
  '(data, fin) ← locked (server_response_data (hr_stream_id request) response);
  flush_qpack;;
  (if responded then failing (InvalidState (str "response already sent")) else mret ());;
  quic_send_all data fin.

(** ** Every call of a task is safe and takes events from the front of the queue only

    [gives seen t t']: [seen] are the events that were taken out of the queue. *)
Section safety.
Context (r : Role) (settings : Settings) (Hset : settings_ok settings).

Definition conn_of (t : Task) : Connection := h3_conn (tk_state t).
Definition task_ok (t : Task) : Prop := reachable r settings (conn_of t).
Definition gives (seen : list Event) (t t' : Task) : Prop := hands seen (conn_of t) (conn_of t').

Lemma gives_same t t' : conn_of t' = conn_of t -> gives [] t t'.
Proof. intros Ec. unfold gives. rewrite Ec. apply (reflexivity (R := grows)). Qed.
Lemma gives_trans a b t t1 t2 : gives a t t1 -> gives b t1 t2 -> gives (a ++ b) t t2.
Proof. apply hands_trans. Qed.
(** What is taken can be acted on. *)
Lemma gives_ok seen t t' : task_ok t -> gives seen t t' -> forallb event_ok seen = true.
Proof.
  intros Ht (new & En & [Hn _ _]). assert (forallb event_ok (events (conn_of t) ++ new) = true) as H.
  { by rewrite forallb_app, (reachable_events_ok _ _ _ Ht), Hn. }
  rewrite <- En, forallb_app in H. by apply andb_true_iff in H as [? _].
Qed.

(** [m] comes to an end without a panic; [ev] are the events its result holds. *)
Definition safely {A} (ev : A -> list Event) (m : task A) (t : Task) (Q : A -> Task -> Prop) : Prop :=
  exists t' res, m t = Some (t', res) /\ task_ok t' /\
    match res with Ok a => gives (ev a) t t' /\ Q a t' | Err _ => exists seen, gives seen t t' end.
Notation quietly m t Q := (safely (fun _ => []) m t Q).

Lemma safely_ret {A} ev (a : A) t (Q : A -> Task -> Prop) : task_ok t -> ev a = [] -> Q a t -> safely ev (mret a) t Q.
Proof. intros Ht Ea HQ. exists t, (Ok a). rewrite Ea. split_and!; try done. by apply gives_same. Qed.
Lemma safely_bind {A B} (ev : B -> list Event) (m : task A) (f : A -> task B) t (Q : A -> Task -> Prop) R :
  quietly m t Q -> (forall a t', task_ok t' -> Q a t' -> safely ev (f a) t' R) -> safely ev (m ≫= f) t R.
Proof.
  intros (t1 & res & Em & Ht1 & Hres) Hf. unfold safely, mbind, task_bind. rewrite Em. destruct res as [a|e].
  - destruct Hres as [Hg HQ]. destruct (Hf a t1 Ht1 HQ) as (t2 & res & E2 & Ht2 & H2). exists t2, res. split; [done|]. split; [done|].
    destruct res; [|destruct H2 as [seen H2]; exists seen]; [split; [|by apply H2]; destruct H2 as [H2 _]|];
      by apply (gives_trans [] _ _ _ _ Hg).
  - by exists t1, (Err e).
Qed.
Lemma safely_mono {A} ev (m : task A) t (Q R : A -> Task -> Prop) : safely ev m t Q -> (forall a t', Q a t' -> R a t') ->
  safely ev m t R.
Proof. intros (t' & res & Em & Ht & H) HQ. exists t', res. split; [done|]. split; [done|]. destruct res; [|done]. naive_solver. Qed.

Lemma locked_safely {A} (ev : A -> list Event) (m : state_action (T := E) A) t ops : task_ok t ->
  ops_ok ops (conn_of t) -> follows ev m (tk_state t) ops -> safely ev (locked m) t (fun _ _ => True).
Proof using Hset.
  intros Ht Hok Hf. destruct (follows_safe ev m r settings (tk_state t) ops Hset Ht Hok Hf) as (s' & res & E' & Hr & new & Hn).
  exists (with_state s' t), res. unfold locked. rewrite E'. split; [done|]. split; [done|].
  destruct res; [split; [|done]; by exists new|]. exists []. by exists new.
Qed.
Lemma update_quietly f t : conn_of (f t) = conn_of t -> task_ok t -> quietly (update_task f) t (fun _ _ => True).
Proof using. intros Ef Ht. exists (f t), (Ok ()). split_and!; [done|unfold task_ok; by rewrite Ef|by apply gives_same|done]. Qed.
Lemma action_quietly a t : task_ok t -> quietly (quic_action a) t (fun _ _ => True).
Proof using.
  intros Ht. exists (perform a t), (map_err Transport (quic (tk_performed t) a)). split; [done|]. split; [done|].
  destruct (map_err _ _); [split; [|done]|exists []]; by apply gives_same.
Qed.
Lemma failing_safely {A} (ev : A -> list Event) e t Q : task_ok t -> safely ev (failing e) t Q.
Proof using. intros Ht. exists t, (Err e). split_and!; [done..|]. exists []. by apply gives_same. Qed.

Lemma take_ops_ok ids c : ops_ok (map OpTakeStreamData ids) c.
Proof using. revert c. induction ids as [|id ids IH]; intros c; [done|]. split; [done|]. by destruct (run_op _ _) as [[c' res]|]. Qed.
Lemma one_op_ok op c : op_ok op c -> ops_ok [op] c.
Proof using. intros Hop. split; [done|]. by destruct (run_op op c) as [[c' res]|]. Qed.
Lemma then_drain_ok op c : op_ok op c -> ops_ok [op; OpDrainEvents] c.
Proof using. intros Hop. split; [done|]. destruct (run_op op c) as [[c' res]|]; [by apply one_op_ok|done]. Qed.

(** One [take_stream_data] hands out what waits first, and does not fail. *)
Lemma take_ok id s : reachable r settings (h3_conn s) ->
  exists s', state_get_stream_data (T := E) id s = Some (s', Ok (head (waiting id (h3_conn s)))) /\
    reachable r settings (h3_conn s') /\ waiting id (h3_conn s') = tail (waiting id (h3_conn s)) /\
    grows (h3_conn s) (h3_conn s').
Proof using Hset.
  intros Hr. destruct (take_waiting 0 (h3_conn s) id (reachable_wf _ _ _ Hset Hr)) as (c' & (Et & Hw & _) & _).
  assert (state_get_stream_data (T := E) id s = Some (with_conn c' s, Ok (head (waiting id (h3_conn s))))) as E1.
  { unfold state_get_stream_data, on_conn. by rewrite Et. }
  destruct (follows_safe (T := E) (fun _ => []) (state_get_stream_data id) r settings s [OpTakeStreamData id]) as (s1 & res & E2 & Hr2 & Hg);
    [done|done|by apply one_op_ok|apply follows_take|]. rewrite E1 in E2. injection E2 as <- <-. by exists (with_conn c' s).
Qed.
(** The QPACK streams always give up what they hold. *)
Lemma drain_ids_ok ids : forall s, reachable r settings (h3_conn s) -> exists s' l, drain_ids (T := E) ids s = Some (s', Ok l).
Proof using Hset.
  induction ids as [|id ids IH]; intros s Hr; [by exists s, []|]. cbn [drain_ids].
  destruct (take_ok id s Hr) as (s1 & E1 & Hr1 & _). destruct (IH _ Hr1) as (s2 & l & E2).
  unfold mbind, state_bind. rewrite E1, E2. by eexists _, _.
Qed.
Lemma flush_ok t : task_ok t -> exists t', flush_qpack t = Some (t', Ok ()) /\ task_ok t' /\ gives [] t t'.
Proof using Hset.
  intros Ht. destruct (drain_ids_ok (flatten [st_encoder_stream_id (tk_state t); st_decoder_stream_id (tk_state t)]) (tk_state t) Ht)
    as (s' & l & El).
  destruct (locked_safely (fun _ => []) drain_qpack_data t _ Ht (take_ops_ok _ _) (follows_drain_ids _ _)) as (t1 & res & E1 & Ht1 & H1).
  unfold flush_qpack, mbind, task_bind. rewrite E1. revert E1. unfold locked, drain_qpack_data. rewrite El. intros [= <- <-].
  eexists. split; [done|]. split; [exact Ht1|]. apply H1.
Qed.
Lemma flush_quietly t : task_ok t -> quietly flush_qpack t (fun _ _ => True).
Proof using Hset. intros Ht. destruct (flush_ok t Ht) as (t' & Em & Ht' & Hg). by exists t', (Ok ()). Qed.
Lemma or_handle_quietly {A} (m : state_action (T := E) A) handle t ops (Q : A -> Task -> Prop) : task_ok t ->
  ops_ok ops (conn_of t) -> follows (fun _ => []) m (tk_state t) ops -> (forall a t', Q a t') ->
  (forall e t', task_ok t' -> quietly (handle e) t' Q) -> quietly (or_handle (locked m) handle) t Q.
Proof using Hset.
  intros Ht Hok Hf HQ Hh. destruct (follows_safe _ m r settings (tk_state t) ops Hset Ht Hok Hf) as (s' & res & E' & Hr & new & Hn).
  unfold safely, or_handle, locked. rewrite E'. assert (gives [] t (with_state s' t)) as Hg by (exists new; by destruct res).
  destruct res as [a|e]; [by exists (with_state s' t), (Ok a)|].
  destruct (Hh e (with_state s' t) Hr) as (t2 & res & E2 & Ht2 & H2). exists t2, res. split; [done|]. split; [done|].
  destruct res; [destruct H2; split; [|done]|destruct H2 as [seen H2]; exists seen]; by apply (gives_trans [] _ _ _ _ Hg).
Qed.
Lemma ignoring_call_quietly {A} (m : state_action (T := E) A) t ops : task_ok t -> ops_ok ops (conn_of t) ->
  follows (fun _ => []) m (tk_state t) ops -> quietly (ignoring (locked m)) t (fun _ _ => True).
Proof using Hset.
  intros Ht Hok Hf. destruct (follows_safe _ m r settings (tk_state t) ops Hset Ht Hok Hf) as (s' & res & E' & Hr & Hn).
  exists (with_state s' t), (Ok ()). unfold ignoring, locked. rewrite E'. split_and!; [done..| |done]. by destruct res.
Qed.
(** Events that are taken and not used. *)
Lemma ignoring_safe {A} (ev : A -> list Event) (m : task A) t Q : safely ev m t Q ->
  exists t', ignoring m t = Some (t', Ok ()) /\ task_ok t' /\ exists seen, gives seen t t'.
Proof using.
  intros (t' & res & E1 & Ht & H). exists t'. unfold ignoring. rewrite E1. split_and!; [done..|].
  destruct res; [destruct H as [H _]; by eexists|done].
Qed.
Lemma ignoring_action_quietly a t : task_ok t -> quietly (ignoring (quic_action a)) t (fun _ _ => True).
Proof using. intros Ht. exists (perform a t), (Ok ()). split_and!; try done. by apply gives_same. Qed.

Lemma reset_on_error_quietly e t : task_ok t -> quietly (reset_stream_on_stream_error e) t (fun _ _ => True).
Proof using.
  intros Ht. assert (quietly (mret ()) t (fun _ _ => True)) as Hret by by apply safely_ret.
  unfold reset_stream_on_stream_error, reset_code_on_stream_error. destruct e as [|[|code| | | | | |]| | | | |]; try exact Hret.
  destruct code; by apply ignoring_action_quietly.
Qed.

(** What QUIC hands over. *)
Definition recv_ok (received : result E (option bytes)) : Prop :=
  match received with Ok (Some data) => bytes_ok data | _ => True end.
Definition wake_ok (w : Wake) : Prop :=
  match w with Received received => recv_ok received | Notified => True | UniTurn id received => varint_ok id /\ recv_ok received end.

Lemma uni_ops_ok id received s : varint_ok id -> recv_ok received ->
  ops_ok (calls (SoApplyUniRecvAction id (classify_uni_recv stream_reset_code received)) s) (h3_conn s).
Proof using.
  intros Hid Hr. unfold classify_uni_recv. destruct received as [[data|]|e]; [| |destruct (stream_reset_code e)]; cbn [calls];
    try (apply one_op_ok; split; try done; constructor); done.
Qed.
Lemma uni_turn_ok id received t : task_ok t -> varint_ok id -> recv_ok received ->
  exists t' cont, uni_turn id received t = Some (t', Ok cont) /\ task_ok t' /\ gives [] t t'.
Proof using Hset.
  intros Ht Hid Hr. set (a := classify_uni_recv stream_reset_code received).
  destruct (follows_safe (T := E) _ (apply_uni_recv_action id a) r settings (tk_state t) _ Hset Ht (uni_ops_ok id received _ Hid Hr) (follows_uni _ _ _))
    as (s1 & res & E1 & Hr1 & new & Hn).
  set (t1 := with_state s1 t). assert (gives [] t t1) as Hg1 by (exists new; by destruct res).
  destruct (flush_ok t1 Hr1) as (t2 & E2 & Ht2 & Hg2).
  assert (or_handle (locked (apply_uni_recv_action id a)) (fun _ => mret false) t = Some (t1, Ok (match res with Ok cont => cont | Err _ => false end))) as E3.
  { unfold or_handle, locked. rewrite E1. by destruct res. }
  unfold uni_turn, mbind, task_bind. fold a. rewrite E3, E2. eexists _, _. split; [done|]. split; [done|].
  by apply (gives_trans [] [] _ t1).
Qed.

Lemma received_quietly id received t : task_ok t -> varint_ok id -> recv_ok received ->
  quietly (stream_received id received) t (fun _ _ => True).
Proof using Hset.
  intros Ht Hid Hr. destruct received as [o|e]; cbn [stream_received].
  - eapply (safely_bind _ _ _ _ (fun _ _ => True)).
    + eapply or_handle_quietly; [done| |apply follows_feed|done|].
      * apply one_op_ok. split; [done|]. destruct o; [done|constructor].
      * intros e t1 Ht1. eapply safely_bind; [by apply reset_on_error_quietly|]. intros [] t2 Ht2 _. by apply failing_safely.
    + intros [] t1 Ht1 _. eapply safely_bind; [by apply flush_quietly|]. intros [] t2 Ht2 _. by apply safely_ret.
  - destruct (stream_reset_code e) as [code|].
    + destruct (ignoring_safe (fun l => l) (locked (state_stream_reset id code)) t (fun _ _ => True)) as (t1 & E1 & Ht1 & seen & Hg).
      { apply (locked_safely _ _ _ [OpStreamReset id code 0; OpDrainEvents]); [done|by apply then_drain_ok|apply follows_then_drain, follows_reset]. }
      destruct (flush_ok t1 Ht1) as (t2 & E2 & Ht2 & H2). exists t2, (Err (Transport e)).
      unfold mbind, task_bind. rewrite E1, E2. split; [done|]. split; [done|].
      exists (seen ++ []). by apply (gives_trans _ _ _ t1).
    + eapply (safely_bind _ _ _ _ (fun _ _ => True)); [by apply safely_ret|]. intros [] t1 Ht1 _. by apply failing_safely.
Qed.

(** ** The loop hands every event to [collect], in order *)
Section collecting.
Context {Acc : Type} (stream_id : Z) (Hid : varint_ok stream_id)
  (collect : Acc -> Event -> option (result refusal Acc)) (finished : Acc -> bool).

Lemma collect_all_app a b acc : collect_all collect (a ++ b) acc =
  match collect_all collect a acc with Some (Ok acc) => collect_all collect b acc | other => other end.
Proof using. revert acc. induction a as [|e a IH]; intros acc; [done|]. cbn. destruct (collect acc e) as [[acc1|f]|]; [apply IH|done..]. Qed.

(** A result of the loop, or of one turn: without a panic, unless [collect] panics at an
    event it has been given. *)
Definition collected (acc : Acc) (t : Task) (o : option (Task * outcome Acc)) : Prop :=
  match o with
  | Some (t', o) => task_ok t' /\ exists seen, gives seen t t' /\
    match o with
    | Waiting acc' => collect_all collect seen acc = Some (Ok acc') /\ finished acc' = false
    | Done (Ok acc') => collect_all collect seen acc = Some (Ok acc') /\ finished acc' = true
    | Done (Err _) => True
    end
  | None => exists seen t1, gives seen t t1 /\ collect_all collect seen acc = None
  end.

Lemma collected_after seen acc t acc1 t1 o : gives seen t t1 -> collect_all collect seen acc = Some (Ok acc1) ->
  collected acc1 t1 o -> collected acc t o.
Proof using.
  intros Hg Hc. destruct o as [[t2 o]|]; cbn [collected].
  - intros (Ht & seen2 & Hg2 & Ho). split; [done|]. exists (seen ++ seen2). split; [by apply (gives_trans _ _ _ t1)|].
    rewrite collect_all_app, Hc. done.
  - intros (seen2 & t2 & Hg2 & Ho). exists (seen ++ seen2), t2. split; [by apply (gives_trans _ _ _ t1)|]. by rewrite collect_all_app, Hc.
Qed.
Lemma collected_quiet acc t t1 o : gives [] t t1 -> collected acc t1 o -> collected acc t o.
Proof using. intros Hg. by apply (collected_after []). Qed.

Lemma refuse_quietly l : forall t, task_ok t -> quietly (refuse_stream l) t (fun _ _ => True).
Proof using.
  induction l as [|a l IH]; intros t Ht; [by apply safely_ret|]. eapply safely_bind; [by apply ignoring_action_quietly|].
  intros [] t1 Ht1 _. by apply IH.
Qed.

Lemma turn_collects acc t wait : task_ok t -> (forall acc1 t1, task_ok t1 -> finished acc1 = false -> collected acc1 t1 (wait acc1 t1)) ->
  collected acc t (and_then_wait finished (loop_turn collect acc) wait t).
Proof using Hset.
  intros Ht Hwait. unfold and_then_wait, loop_turn, mbind, task_bind.
  destruct (locked_safely (fun l => l) state_drain_events t [OpDrainEvents] Ht) as (t1 & res & E1 & Ht1 & H1);
    [by apply one_op_ok|apply follows_drain|].
  rewrite E1. destruct res as [l|e]; [|cbn [collected]; split; [done|]; destruct H1 as [seen H1]; by exists seen].
  destruct H1 as [Hg _]. destruct (collect_all collect l acc) as [[acc1|[actions e]]|] eqn:Ec.
  - destruct (flush_quietly t1 Ht1) as (t2 & res & E2 & Ht2 & H2). rewrite E2. destruct res as [[]|e].
    + destruct H2 as [H2 _]. apply (collected_after l _ _ acc1 t1 _ Hg Ec). apply (collected_quiet _ _ t2 _ H2). unfold mret, task_ret.
      destruct (finished acc1) eqn:Ef; [|by apply Hwait]. cbn [collected]. split; [done|]. exists []. split; [by apply gives_same|done].
    + cbn [collected]. split; [done|]. destruct H2 as [seen H2]. exists (l ++ seen). split; [|done]. by apply (gives_trans _ _ _ t1).
  - destruct (refuse_quietly actions t1 Ht1) as (t2 & res & E2 & Ht2 & H2). rewrite E2. destruct res as [[]|e2]; cbn [collected].
    + split; [done|]. exists l. split; [|done]. destruct H2 as [H2 _]. rewrite <- (app_nil_r l). by apply (gives_trans _ _ _ t1).
    + split; [done|]. destruct H2 as [seen H2]. exists (l ++ seen). split; [|done]. by apply (gives_trans _ _ _ t1).
  - cbn [collected]. by exists l, t1.
Qed.

Lemma waiting_loop_collects script : forall peer_fin acc t, task_ok t -> Forall wake_ok script -> finished acc = false ->
  collected acc t (waiting_loop stream_id collect finished script peer_fin acc t).
Proof using Hset Hid.
  induction script as [|w script IH]; intros peer_fin acc t Ht Hs Hf; cbn [waiting_loop].
  { split; [done|]. exists []. split; [by apply gives_same|done]. }
  inversion Hs as [|? ? Hw Hs']; subst. destruct w as [received| |id received].
  - destruct peer_fin; [by apply IH|]. destruct (received_quietly stream_id received t Ht Hid Hw) as (t1 & res & E1 & Ht1 & H1).
    rewrite E1. destruct res as [fin|e]; [|cbn [collected]; split; [done|]; destruct H1 as [seen H1]; by exists seen].
    destruct H1 as [H1 _]. apply (collected_quiet _ _ t1 _ H1). apply turn_collects; [done|]. intros acc2 t2 Ht2 Hf2. by apply IH.
  - destruct (tk_unblocked t); [|by apply IH]. apply (collected_quiet _ _ (set_unblocked false t)); [by apply gives_same|].
    apply turn_collects; [done|]. intros acc2 t2 Ht2 Hf2. by apply IH.
  - destruct Hw as [Hid' Hr]. destruct (uni_turn_ok id received t Ht Hid' Hr) as (t1 & cont & E1 & Ht1 & H1). rewrite E1.
    apply (collected_quiet _ _ t1 _ H1). by apply IH.
Qed.

Lemma event_loop_collects script acc t : task_ok t -> Forall wake_ok script ->
  collected acc t (event_loop stream_id collect finished script acc t).
Proof using Hset Hid. intros Ht Hs. apply turn_collects; [done|]. intros acc1 t1 Ht1 Hf. by apply waiting_loop_collects. Qed.
End collecting.

(** ** What is sent: the data that waits, and the FIN if one is due *)
Lemma collect_waiting id data fin s : reachable r settings (h3_conn s) ->
  exists s', collect_stream_data DATA_TAKES id data fin s = Some (s', Ok (data ++ concat (map fst (waiting id (h3_conn s))),
      match last (waiting id (h3_conn s)) with Some (_, fin) => fin | None => fin end)) /\
    reachable r settings (h3_conn s') /\ grows (h3_conn s) (h3_conn s').
Proof using Hset.
  intros Hr. destruct (take_ok id s Hr) as (s1 & E1 & Hr1 & Hw1 & Hn1). destruct (take_ok id s1 Hr1) as (s2 & E2 & Hr2 & _ & Hn2).
  rewrite Hw1 in E2. assert (grows (h3_conn s) (h3_conn s2)) as Hn by by etrans.
  unfold DATA_TAKES. cbn [collect_stream_data]. unfold mbind, state_bind. rewrite E1.
  destruct (waiting_shape 0 (h3_conn s) id (reachable_wf _ _ _ Hset Hr)) as [-> | [-> | (d & _ & [Hs | Hs])]].
  - exists s1. cbn. rewrite app_nil_r. done.
  - exists s1. cbn. done.
  - rewrite Hs in *. exists s2. cbn. cbn in E2. rewrite E2, app_nil_r. done.
  - rewrite Hs in *. exists s2. cbn. cbn in E2. rewrite E2, !app_nil_r. done.
Qed.

Lemma locked_bind {A B} (m : state_action (T := E) A) (f : A -> state_action (T := E) B) t :
  locked (m ≫= f) t = (locked m ≫= fun a => locked (f a)) t.
Proof using. unfold locked, mbind, task_bind, state_bind. destruct (m (tk_state t)) as [[s [a|e]]|]; try done. Qed.
Lemma locked_bind_quietly {A B} (m : state_action (T := E) A) (f : A -> state_action (T := E) B) t (Q : A -> Task -> Prop) R :
  quietly (locked m) t Q -> (forall a t', task_ok t' -> Q a t' -> quietly (locked (f a)) t' R) -> quietly (locked (m ≫= f)) t R.
Proof using.
  intros Hm Hf. unfold safely. rewrite locked_bind. by apply (safely_bind _ _ _ _ Q).
Qed.
Lemma locked_ret_quietly {A} (a : A) t (Q : A -> Task -> Prop) : task_ok t -> Q a t -> quietly (locked (mret a)) t Q.
Proof using. intros Ht HQ. exists t, (Ok a). split; [by destruct t|]. split; [done|]. split; [by apply gives_same|done]. Qed.
Lemma of_result_quietly {A} (o : result (S2nError E) A) t : task_ok t -> quietly (locked (of_result o)) t (fun a t' => o = Ok a /\ t' = t).
Proof using.
  intros Ht. exists t, o. split; [by destruct t|]. split; [done|]. destruct o; [split; [by apply gives_same|done]|].
  exists []. by apply gives_same.
Qed.
Lemma collect_quietly id data fin t : task_ok t -> quietly (locked (collect_stream_data DATA_TAKES id data fin)) t (fun _ _ => True).
Proof using Hset.
  intros Ht. destruct (collect_waiting id data fin (tk_state t) Ht) as (s' & Ec & Hr & Hn).
  exists (with_state s' t). eexists. split; [unfold locked; by rewrite Ec|]. split; [done|]. by split.
Qed.

Lemma call_quietly {A} (f : A -> output) op (m : action A) t : task_ok t -> op_ok op (conn_of t) -> run_op op = returning f m ->
  (forall a, handed_out [Ok (f a)] = []) -> quietly (locked (on_conn m)) t (fun _ _ => True).
Proof using Hset.
  intros Ht Hop Hrun Hout. apply (locked_safely _ _ _ [op]); [done|by apply one_op_ok|]. by apply (follows_call _ f).
Qed.
Lemma body_quietly id data fin t : task_ok t -> len data <= VARINT_MAX ->
  quietly (locked (on_conn (conn_send_body id data fin))) t (fun _ _ => True).
Proof using Hset. intros Ht Hl. by apply (call_quietly (fun _ => OutUnit) (OpSendBody id data fin)). Qed.

(** A request: no panic, when QUIC has given the stream the id that the connection gives
    the request. *)
Lemma request_quietly request t : task_ok t -> next_stream_id (conn_of t) <= VARINT_MAX -> len (cq_body request) <= VARINT_MAX ->
  (forall headers, make_headers (client_request_fields request) = Ok headers -> section_fits headers) ->
  quietly (locked (client_request_data request (next_stream_id (conn_of t)))) t (fun _ _ => True).
Proof using Hset.
  intros Ht Hn Hl Hf. eapply locked_bind_quietly; [by apply of_result_quietly|]. intros headers ? _ [Hh ->].
  specialize (Hf _ Hh). set (fin := is_empty_bytes (cq_body request)). set (id := next_stream_id (conn_of t)).
  apply (locked_bind_quietly _ _ _ (fun h3_stream_id _ => h3_stream_id = id)).
  - destruct (send_request_wp 0 (conn_of t) headers fin (reachable_wf _ _ _ Hset Ht) Hf Hn) as (c' & res & E1 & _ & _ & Hres).
    destruct (call_quietly OutStream (OpSendRequest headers fin) (send_request headers fin) t Ht) as (t1 & res1 & E2 & Ht1 & H1); [done..|].
    exists t1, res1. split; [done|]. split; [done|]. destruct res1 as [a|]; [|done]. split; [apply H1|].
    revert E2. unfold locked, on_conn. fold (conn_of t). rewrite E1. intros [= _ Er]. destruct res as [a'|]; [|done].
    injection Er as <-. apply Hres.
  - intros ? t1 Ht1 ->. eapply (locked_bind_quietly _ _ _ (fun _ _ => True)).
    { destruct fin; [by apply locked_ret_quietly|by apply body_quietly]. }
    intros [] t2 Ht2 _. eapply (locked_bind_quietly _ _ _ (fun _ _ => True)); [|intros [] t3 Ht3 _; by apply collect_quietly].
    exists t2, (Ok ()). unfold locked, assert_id. rewrite Z.eqb_refl. split; [by destruct t2|]. split; [done|]. by split; [apply gives_same|].
Qed.

Lemma ask_quietly request t : task_ok t -> next_stream_id (conn_of t) <= VARINT_MAX -> len (cq_body request) <= VARINT_MAX ->
  (forall headers, make_headers (client_request_fields request) = Ok headers -> section_fits headers) ->
  quietly (client_ask request (next_stream_id (conn_of t))) t (fun _ _ => True).
Proof using Hset.
  intros Ht Hn Hl Hf. eapply safely_bind; [by apply request_quietly|]. intros [data fin] t1 Ht1 _.
  eapply safely_bind; [by apply flush_quietly|]. intros [] t2 Ht2 _.
  eapply safely_bind; [by apply action_quietly|]. intros [] t3 Ht3 _. destruct fin; [by apply action_quietly|by apply safely_ret].
Qed.

(** A response, likewise. *)
Lemma response_quietly id response t : task_ok t -> len (hs_body response) <= VARINT_MAX ->
  (forall headers, make_headers (server_response_fields response) = Ok headers -> section_fits headers) ->
  quietly (locked (server_response_data id response)) t (fun _ _ => True).
Proof using Hset.
  intros Ht Hl Hf. eapply locked_bind_quietly; [by apply of_result_quietly|]. intros headers ? _ [Hh ->].
  eapply (locked_bind_quietly _ _ _ (fun _ _ => True)); [|intros [] t1 Ht1 _; by apply collect_quietly].
  eapply (locked_bind_quietly _ _ _ (fun _ _ => True)); [|intros [] t1 Ht1 _; by apply body_quietly].
  apply (call_quietly (fun _ => OutUnit) (OpSendResponse id headers false)); [done|by apply Hf|done..].
Qed.
End safety.
End tasks.
