(* ===== verification/S2nGather.v ===== *)
(** What a task of an [H3Client] or [H3Server] makes of the events of its stream: no code
    of its own. The loop that waits for a message is compared with what a list of events
    says of a stream. *)

From Stdlib Require Import String Ascii.
From S2P Require Import Prelude Codec Varint Header Settings Frame Error Stream EncoderStream QpackEncoder ControlStream RequestStream Validation Capsule Event WtSession Connect Display Connection ConnInvariant ConnNegotiation ConnWtSession ConnWtStream ConnReceive ConnSafety ConnSend ConnSendSafety ConnRun ConnEvents ConnExchange ConnOutgoing ConnEndToEnd S2nSession S2nState S2nTasks.

(** ** A message in a list of events *)
Definition header_of (id : Z) (e : Event) : option (bytes * bytes) :=
  match e with EvHeader sid n v => if sid =? id then Some (n, v) else None | _ => None end.
Definition data_of (id : Z) (e : Event) : option bytes :=
  match e with EvData sid d => if sid =? id then Some d else None | _ => None end.
Definition says_headers_end (id : Z) (e : Event) : bool := match e with EvHeadersEnd sid => sid =? id | _ => false end.
Definition says_stream_end (id : Z) (e : Event) : bool := match e with EvStreamEnd sid => sid =? id | _ => false end.
Definition gathered (id : Z) (l : list Event) : Incoming :=
  mkIncoming (omap (header_of id) l) (existsb (says_headers_end id) l) (concat (omap (data_of id) l)) (existsb (says_stream_end id) l).

(** A client does not look at the end of the headers. *)
Definition gathered_response (id : Z) (l : list Event) : Incoming :=
  mkIncoming (omap (header_of id) l) false (concat (omap (data_of id) l)) (existsb (says_stream_end id) l).
(** An event that makes a server give up. *)
Definition webtransport_of (id : Z) (e : Event) : bool :=
  match e with EvWebTransport wt => bool_decide (wt_event_stream_id wt = Some id) | _ => false end.

Definition add_incoming (a b : Incoming) : Incoming :=
  mkIncoming (in_headers a ++ in_headers b) (in_complete a || in_complete b) (in_body a ++ in_body b) (in_ended a || in_ended b).
Lemma add_incoming_new a : add_incoming incoming_new a = a.
Proof. by destruct a. Qed.

Lemma add_incoming_assoc a b c : add_incoming (add_incoming a b) c = add_incoming a (add_incoming b c).
Proof. unfold add_incoming. cbn. by rewrite !app_assoc, !orb_assoc. Qed.
Lemma gathered_cons id e l : gathered id (e :: l) = add_incoming (gathered id [e]) (gathered id l).
Proof. unfold gathered, add_incoming. destruct e; cbn; try (destruct (_ =? id)); cbn; by rewrite ?app_nil_r. Qed.
Lemma gathered_response_cons id e l : gathered_response id (e :: l) = add_incoming (gathered_response id [e]) (gathered_response id l).
Proof. unfold gathered_response, add_incoming. destruct e; cbn; try (destruct (_ =? id)); cbn; by rewrite ?app_nil_r. Qed.

Section gather.
Context {E : Type} (id : Z).

Lemma collect_response_one acc e :
  collect_response (E := E) id acc e = Some (Ok (add_incoming acc (gathered_response id [e]))).
Proof.
  destruct acc as [h c b en]. unfold add_incoming, gathered_response.
  destruct e; cbn; try (destruct (_ =? id)); cbn; by rewrite ?app_nil_r, ?orb_false_r, ?orb_true_r.
Qed.
Lemma collect_response_gathers l : forall acc,
  collect_all (E := E) (collect_response id) l acc = Some (Ok (add_incoming acc (gathered_response id l))).
Proof.
  induction l as [|e l IH]; intros acc; [destruct acc; unfold add_incoming; cbn; by rewrite !app_nil_r, !orb_false_r|].
  cbn [collect_all]. by rewrite collect_response_one, IH, (gathered_response_cons id e l), add_incoming_assoc.
Qed.

Lemma collect_request_one acc e : webtransport_of id e = false ->
  collect_request (E := E) id acc e = Some (Ok (add_incoming acc (gathered id [e]))).
Proof.
  destruct acc as [h c b en]. unfold add_incoming, gathered.
  destruct e as [| | | | | | | | |wt]; cbn; try (destruct (_ =? id)); cbn; rewrite ?app_nil_r, ?orb_false_r, ?orb_true_r; try done.
  destruct wt; cbn; try (by intros ->). intros He%bool_decide_eq_false. by replace (stream_id =? id) with false by (symmetry; apply Z.eqb_neq; congruence).
Qed.
Lemma collect_request_gathers l : existsb (webtransport_of id) l = false -> forall acc,
  collect_all (E := E) (collect_request id) l acc = Some (Ok (add_incoming acc (gathered id l))).
Proof.
  induction l as [|e l IH]; intros Hw acc; [destruct acc; unfold add_incoming; cbn; by rewrite !app_nil_r, !orb_false_r|].
  cbn [existsb] in Hw. apply orb_false_iff in Hw as [He Hw]. cbn [collect_all].
  by rewrite (collect_request_one _ _ He), IH, (gathered_cons id e l), add_incoming_assoc.
Qed.

(** With such an event, it gives up or panics. *)
Lemma collect_request_gives_up l : existsb (webtransport_of id) l = true -> forall acc,
  (exists f, collect_all (E := E) (collect_request id) l acc = Some (Err f)) \/
  (collect_all (E := E) (collect_request id) l acc = None /\
   exists code, EvWebTransport (WtBufferedStreamRejected id code) ∈ l /\ VARINT_MAX < code).
Proof.
  induction l as [|e l IH]; intros Hw acc; [done|]. cbn [existsb] in Hw. cbn [collect_all].
  destruct (webtransport_of id e) eqn:He.
  - clear IH Hw. destruct acc as [h c b en]. destruct e as [| | | | | | | | |wt]; try done. cbn in He.
    destruct wt; cbn [collect_request]; rewrite ?He; try (left; by eexists).
    apply bool_decide_eq_true in He as [= ->]. rewrite Z.eqb_refl. destruct (Z.leb_spec error_code VARINT_MAX); [left; by eexists|].
    right. split; [done|]. exists error_code. split; [by left|done].
  - rewrite (collect_request_one _ _ He). destruct (IH Hw (add_incoming acc (gathered id [e]))) as [H|(Hn & code & Hin & Hc)]; [by left|right].
    split; [done|]. exists code. split; [by right|done].
Qed.
End gather.

(** ** Properties *)
Section gathers.
Context {E : Type} (stream_reset_code : E -> option Z) (quic : list StreamAction -> StreamAction -> result E unit).
Context (r : Role) (settings : Settings) (Hset : settings_ok settings).
Notation task_ok := (task_ok r settings).

Lemma bind_outcome_quietly {A B} (m : task (E := E) A) (f : A -> Task -> option (Task * outcome (E := E) B)) t Q
    (R : list Event -> outcome (E := E) B -> Prop) :
  safely (E := E) r settings (fun _ => []) m t Q -> (forall seen e, R seen (Done (Err e))) ->
  (forall a t1, task_ok t1 -> Q a t1 -> exists t' o seen, f a t1 = Some (t', o) /\ task_ok t' /\ gives seen t1 t' /\ R seen o) ->
  exists t' o seen, bind_outcome m f t = Some (t', o) /\ task_ok t' /\ gives seen t t' /\ R seen o.
Proof using.
  intros (t1 & res & E1 & Ht1 & H1) HR Hf. unfold bind_outcome. rewrite E1. destruct res as [a|e].
  - destruct H1 as [Hg HQ]. destruct (Hf a t1 Ht1 HQ) as (t2 & o & seen & E2 & Ht2 & Hg2 & Ho). exists t2, o, seen.
    split_and!; try done. by apply (gives_trans [] _ _ t1).
  - destruct H1 as [seen Hg]. exists t1, (Done (Err e)), seen. by split_and!.
Qed.

(** What the loop ends with, for an Acc and a way to gather. *)
Lemma loop_collects {B} id collect finished script acc t (f : Incoming -> B) (R : list Event -> outcome (E := E) B -> Prop) :
  task_ok t -> varint_ok id -> Forall wake_ok script ->
  (forall seen, forallb event_ok seen = true -> collect_all (E := E) collect seen acc <> None) ->
  (forall seen e, R seen (Done (Err e))) ->
  (forall seen i, collect_all (E := E) collect seen acc = Some (Ok i) ->
     R seen (map_outcome f (if finished i : bool then Done (Ok i) else Waiting i))) ->
  exists t' o seen, ('(t, o) ← event_loop stream_reset_code quic id collect finished script acc t; Some (t, map_outcome f o)) =
      Some (t', o) /\ task_ok t' /\ gives seen t t' /\ R seen o.
Proof using Hset.
  intros Ht Hid Hs Hn He HR.
  pose proof (event_loop_collects stream_reset_code quic r settings Hset id Hid collect finished script acc t Ht Hs) as Hc.
  destruct (event_loop _ _ _ _ _ _ _ _) as [[t' o]|]; cbn [collected] in Hc.
  - destruct Hc as (Ht' & seen & Hg & Ho). exists t', (map_outcome f o), seen. split_and!; try done.
    destruct o as [i|[i|e]]; [destruct Ho as [Hc Hf]; specialize (HR _ _ Hc); by rewrite Hf in HR..|apply He].
  - destruct Hc as (seen & t1 & Hg & Hc). by destruct (Hn seen (gives_ok _ _ _ _ _ Ht Hg)).
Qed.

(** C14. A client's [send_request] gives the application the response that the events
    tell of: it never panics, as long as QUIC gives the request's stream the id that the
    connection gives it. The events it takes ([seen]) are those from the front of the
    connection's queue, in order, whatever arrives on whichever stream and whatever the
    other tasks do. The call returns a response only when one of them has reported the end
    of the stream, and goes on waiting only as long as none has; the response is made of
    the headers and the data among them of this stream, in their order, and of no other's.
    The other events it takes, those of other streams, SETTINGS and GOAWAY, are dropped,
    as the code's last match arm says ([hello_answered_drops] below). *)
Theorem send_request_gathers request script t : let id := next_stream_id (conn_of t) in
  task_ok t -> id <= VARINT_MAX -> len (cq_body request) <= VARINT_MAX ->
  (forall headers, make_headers (E := E) (client_request_fields request) = Ok headers -> section_fits headers) -> Forall wake_ok script ->
  exists t' o seen, h3_client_send_request stream_reset_code quic request (Ok id) script t = Some (t', o) /\
    task_ok t' /\ gives seen t t' /\
    match o with
    | Waiting resp => resp = response_of (gathered id seen) /\ existsb (says_stream_end id) seen = false
    | Done (Ok resp) => resp = response_of (gathered id seen) /\ existsb (says_stream_end id) seen = true
    | Done (Err _) => True
    end.
Proof using Hset.
  intros id Ht Hid Hl Hf Hs. pose proof (w_next _ _ (reachable_wf _ _ _ Hset Ht)) as Hnext.
  unfold h3_client_send_request. cbn [map_err]. unfold bind_outcome at 1.
  apply (bind_outcome_quietly _ _ _ (fun _ _ => True)); [by apply ask_quietly|done|].
  intros [] t2 Ht2 _. apply loop_collects; [done| |done| |done|].
  - destruct Hnext. split; [lia|done].
  - intros seen _. by rewrite collect_response_gathers.
  - intros seen i. rewrite collect_response_gathers, add_incoming_new. intros [= <-]. cbn [in_ended gathered_response].
    by destruct (existsb (says_stream_end id) seen) eqn:Ee.
Qed.

Definition request_of (id : Z) (i : Incoming) : H3Request := mkH3Request (in_headers i) id (in_body i).

(** C15. A server's [accept_request], likewise, for the stream that QUIC accepted: it
    returns a request only when the end of its headers and the end of its stream have
    been reported; if a WebTransport event is reported for the stream, it gives up. *)
Theorem accept_request_gathers id script t : task_ok t -> varint_ok id -> Forall wake_ok script ->
  exists t' o seen, accept_request stream_reset_code quic (Ok (Some id)) script t = Some (t', o) /\
    task_ok t' /\ gives seen t t' /\
    match o with
    | Waiting req => req = request_of id (gathered id seen) /\ existsb (says_headers_end id) seen && existsb (says_stream_end id) seen = false /\
        existsb (webtransport_of id) seen = false
    | Done (Ok req) => req = request_of id (gathered id seen) /\ existsb (says_headers_end id) seen && existsb (says_stream_end id) seen = true /\
        existsb (webtransport_of id) seen = false
    | Done (Err _) => True
    end.
Proof using Hset.
  intros Ht Hid Hs. unfold accept_request. cbn [map_err mbind result_bind ok_or]. unfold bind_outcome at 1.
  apply (bind_outcome_quietly _ _ _ (fun _ _ => True)); [|done|].
  { apply (ignoring_call_quietly _ _ Hset _ _ [OpFeedStream id [] false]); [done| |apply follows_feed]. apply one_op_ok. by split. }
  intros [] t1 Ht1 _. apply loop_collects; [done|done|done| |done|].
  - intros seen Hok Hn. destruct (existsb (webtransport_of id) seen) eqn:Ew.
    + destruct (collect_request_gives_up (E := E) id seen Ew incoming_new) as [[f Hf]|(_ & code & Hin & Hc)]; [congruence|].
      rewrite forallb_forall in Hok. apply list_elem_of_In in Hin. specialize (Hok _ Hin). cbn in Hok. lia.
    + by rewrite collect_request_gathers in Hn.
  - intros seen i. destruct (existsb (webtransport_of id) seen) eqn:Ew.
    + by destruct (collect_request_gives_up (E := E) id seen Ew incoming_new) as [[f Hf]|(Hn & _)]; rewrite ?Hf, ?Hn.
    + rewrite collect_request_gathers, add_incoming_new by done. intros [= <-].
      change (request_complete (gathered id seen)) with (existsb (says_headers_end id) seen && existsb (says_stream_end id) seen).
      by destruct (_ && _) eqn:Ec.
Qed.
End gathers.

(** ** Witnesses *)

(** A connection with its streams open, and a transport that takes everything; the error
    of a stream is the code it was reset with. *)
Definition client_task (c : Connection) : Task := mkTask (mkConnectionState c (Some 2) (Some 6) (Some 10)) [] false [].
Definition server_task (c : Connection) : Task := mkTask (mkConnectionState c (Some 3) (Some 7) (Some 11)) [] false [].
Definition takes_all (performed : list StreamAction) (a : StreamAction) : result Z unit := Ok tt.

Definition hello_request : H3ClientRequest :=
  with_body (str "hello") (with_header (str "x-a") (str "b") (with_authority (str "example") (client_request_post (str "/")))).
Definition ok_bytes : bytes := frame_bytes (Headers (static_section true ok_headers)) ++ frame_bytes (Data (str "hello")).
Definition post_bytes : bytes := frame_bytes (Headers (static_section true post_headers)) ++ frame_bytes (Data (str "hello")).
(** The peer sends [sent] in two chunks; a GOAWAY and SETTINGS come on its control stream. *)
Definition arriving (control : Z) (sent : bytes) : list (Wake (E := Z)) :=
  [Received (Ok (Some (take 7 sent))); UniTurn control (Ok (Some [0x07; 0x01; 0x04])); Notified;
   Received (Ok (Some (drop 7 sent))); Received (Ok None)].

Lemma arriving_ok control sent : varint_ok control -> bytes_ok sent -> Forall wake_ok (arriving control sent).
Proof.
  intros Hc Hs. assert (bytes_ok [0x07; 0x01; 0x04]) by by apply (bool_decide_unpack _).
  apply Forall_cons_2; [by apply Forall_take|]. apply Forall_cons_2; [by split|]. apply Forall_cons_2; [done|].
  apply Forall_cons_2; [by apply Forall_drop|]. by apply Forall_singleton.
Qed.

Lemma send_request_gathers_witness : exists c t' o seen, state_after Client settings_new idle_client = Some c /\
  h3_client_send_request Some takes_all hello_request (Ok 0) (arriving 3 ok_bytes) (client_task c) = Some (t', o) /\
  gives seen (client_task c) t' /\
  match o with
  | Waiting resp => resp = response_of (gathered 0 seen) /\ existsb (says_stream_end 0) seen = false
  | Done (Ok resp) => resp = response_of (gathered 0 seen) /\ existsb (says_stream_end 0) seen = true
  | Done (Err _) => True
  end.
Proof.
  destruct (state_after Client settings_new idle_client) as [c|] eqn:E; [|vm_compute in E; discriminate].
  assert (reachable Client settings_new c) as Hr.
  { apply (state_after_reachable _ _ idle_client); [vm_compute; reflexivity|exact E]. }
  assert (next_stream_id (conn_of (client_task c)) = 0) as Hn.
  { unfold conn_of, client_task, tk_state, h3_conn. vm_compute in E. injection E as <-. reflexivity. }
  pose proof (send_request_gathers Some takes_all Client settings_new ltac:(repeat split) hello_request (arriving 3 ok_bytes) (client_task c)) as H.
  cbv zeta in H. rewrite Hn in H. destruct H as (t' & o & seen & E1 & _ & Hg & Ho).
  - exact Hr.
  - vm_compute; discriminate.
  - vm_compute; discriminate.
  - intros headers Hh. vm_compute in Hh. injection Hh as <-. vm_compute. discriminate.
  - apply arriving_ok; [split; vm_compute; discriminate|apply (bool_decide_unpack _); vm_compute; exact I].
  - exists c, t', o, seen. split; [reflexivity|]. split; [exact E1|]. split; [exact Hg|exact Ho].
Defined.

Lemma accept_request_gathers_witness : exists c t' o seen, state_after Server settings_new idle_server = Some c /\
  accept_request Some takes_all (Ok (Some 0)) (arriving 2 post_bytes) (server_task c) = Some (t', o) /\
  gives seen (server_task c) t' /\
  match o with
  | Waiting req => req = request_of 0 (gathered 0 seen) /\ existsb (says_headers_end 0) seen && existsb (says_stream_end 0) seen = false /\
      existsb (webtransport_of 0) seen = false
  | Done (Ok req) => req = request_of 0 (gathered 0 seen) /\ existsb (says_headers_end 0) seen && existsb (says_stream_end 0) seen = true /\
      existsb (webtransport_of 0) seen = false
  | Done (Err _) => True
  end.
Proof.
  destruct (state_after Server settings_new idle_server) as [c|] eqn:E; [|vm_compute in E; discriminate].
  assert (reachable Server settings_new c) as Hr.
  { apply (state_after_reachable _ _ idle_server); [vm_compute; reflexivity|exact E]. }
  destruct (accept_request_gathers Some takes_all Server settings_new ltac:(repeat split) 0 (arriving 2 post_bytes) (server_task c))
    as (t' & o & seen & E1 & _ & Hg & Ho).
  - exact Hr.
  - split; vm_compute; discriminate.
  - apply arriving_ok; [split; vm_compute; discriminate|apply (bool_decide_unpack _); vm_compute; exact I].
  - exists c, t', o, seen. split; [reflexivity|]. split; [exact E1|]. split; [exact Hg|exact Ho].
Defined.

(** What they come to here. *)
Example hello_answered :
  (c ← state_after Client settings_new idle_client;
   '(t, o) ← h3_client_send_request Some takes_all hello_request (Ok 0) (arriving 3 ok_bytes) (client_task c); Some o) =
  Some (Done (Ok (mkH3ClientResponse 200 [(str ":status", str "200"); (str "server", str "h3")] (str "hello")))).
Proof. vm_compute. reflexivity. Qed.
(** The events of the SETTINGS and GOAWAY frames were taken with those of the response, and dropped. *)
Example hello_answered_drops :
  (c ← state_after Client settings_new idle_client;
   '(t, o) ← h3_client_send_request Some takes_all hello_request (Ok 0) (arriving 3 ok_bytes) (client_task c);
   '(c1, _) ← run_op (OpFeedStream 3 [0x07; 0x01; 0x04] false) c;
   Some (match events c1 with [EvSettingsReceived _ _; EvGoawayReceived 4] => true | _ => false end, events (conn_of t))) = Some (true, []).
Proof. vm_compute. reflexivity. Qed.
Example post_accepted :
  (c ← state_after Server settings_new idle_server;
   '(t, o) ← accept_request Some takes_all (Ok (Some 0)) (arriving 2 post_bytes) (server_task c); Some o) =
  Some (Done (Ok (mkH3Request (map (fun h => (name h, value h)) post_headers) 0 (str "hello")))).
Proof. vm_compute. reflexivity. Qed.

(** *** What an application may not expect *)

(** A request that is refused after QUIC has opened a stream for it leaves the numbering
    of QUIC one stream ahead of the connection's, and the next one panics. *)
Definition spaced_request : H3ClientRequest := with_header (str "bad name") (str "x") (client_request_get (str "/")).
Example refused_then_panic : exists c t,
  (c ← state_after Client settings_new idle_client;
   '(t, o) ← h3_client_send_request Some takes_all spaced_request (Ok 0) [] (client_task c); Some (c, o)) =
    Some (c, Done (Err t)) /\
  (c ← state_after Client settings_new idle_client;
   '(t, _) ← h3_client_send_request Some takes_all spaced_request (Ok 0) [] (client_task c);
   h3_client_send_request Some takes_all hello_request (Ok 4) [] t) = None.
Proof. eexists _, _. vm_compute. split; reflexivity. Qed.

(** The fields of an interim response come before those of the final one, and the status
    is that of the interim one. *)
Definition interim_bytes : bytes :=
  frame_bytes (Headers (static_section true [mkHeader (str ":status") (str "103") false])) ++ ok_bytes.
Example interim_status :
  (c ← state_after Client settings_new idle_client;
   '(t, o) ← h3_client_send_request Some takes_all hello_request (Ok 0) (arriving 3 interim_bytes) (client_task c); Some o) =
  Some (Done (Ok (mkH3ClientResponse 103
    [(str ":status", str "103"); (str ":status", str "200"); (str "server", str "h3")] (str "hello")))).
Proof. vm_compute. reflexivity. Qed.
