(* ===== verification/S2nExchange.v ===== *)
(** The tasks of an [H3Client] and an [H3Server] put together: no code of their own. What
    one sends as a response or a request, the loop of the other gathers, in whatever
    chunks it arrives and however often the loop is woken in between. *)

From Stdlib Require Import String Ascii.
From S2P Require Import Prelude Codec Varint Header Settings Frame Error Stream FrameStream EncoderStream QpackEncoder QpackDecoder Qpack ControlStream RequestStream Validation Capsule Event WtSession Connect Display Connection ConnInvariant ConnNegotiation ConnWtSession ConnWtStream ConnReceive ConnSafety ConnSend ConnSendSafety ConnRun ConnEvents ConnExchange ConnOutgoing ConnEndToEnd ConnMidway S2nSession S2nState S2nTasks S2nGather.

(** ** A message among the events *)
Definition not_about (id : Z) (l : list Event) : Prop := Forall (fun e => event_stream_id e <> Some id) l.
Definition plain (headers : list Header) : list (bytes * bytes) := map (fun h => (name h, value h)) headers.

Lemma gathered_app id a b : gathered id (a ++ b) = add_incoming (gathered id a) (gathered id b).
Proof.
  induction a as [|e a IH]; [by rewrite add_incoming_new|]. rewrite <- app_comm_cons, (gathered_cons id e (a ++ b)), IH.
  by rewrite (gathered_cons id e a), add_incoming_assoc.
Qed.
Lemma gathered_not_about id l : not_about id l -> gathered id l = incoming_new /\ existsb (webtransport_of id) l = false.
Proof.
  induction 1 as [|e l He _ [IH1 IH2]]; [done|]. rewrite gathered_cons, IH1. cbn [existsb]. rewrite IH2.
  assert (forall sid, Some sid <> Some id -> sid =? id = false) as Hne by (intros sid ?; apply Z.eqb_neq; congruence).
  unfold gathered. destruct e as [| | | | | | | | |wt]; cbn in *; rewrite ?(Hne _ He); try done. by rewrite bool_decide_false.
Qed.
Lemma gathered_data id ds : gathered id (map (EvData id) ds) = mkIncoming [] false (concat ds) false.
Proof.
  induction ds as [|d ds IH]; [done|]. cbn [map]. rewrite gathered_cons, IH. unfold gathered. cbn. rewrite Z.eqb_refl. cbn. by rewrite app_nil_r.
Qed.
Lemma gathered_message id headers ds :
  gathered id (message_events id headers ds) = mkIncoming (plain headers) true (concat ds) true.
Proof.
  unfold message_events, header_events. rewrite gathered_app, gathered_app, gathered_data, gathered_cons, gathered_app.
  assert (gathered id (map (fun h => EvHeader id (name h) (value h)) headers) = mkIncoming (plain headers) false [] false) as ->.
  { induction headers as [|h headers IH]; [done|]. cbn [map plain]. rewrite gathered_cons, IH. unfold gathered. cbn. by rewrite Z.eqb_refl. }
  unfold gathered, add_incoming. cbn. rewrite Z.eqb_refl. cbn. by rewrite !app_nil_r.
Qed.
Lemma message_no_webtransport id headers ds : existsb (webtransport_of id) (message_events id headers ds) = false.
Proof.
  unfold message_events, header_events. rewrite !existsb_app. cbn. rewrite existsb_app. cbn.
  assert (forall A (f : A -> Event) l, (forall x, webtransport_of id (f x) = false) -> existsb (webtransport_of id) (map f l) = false) as H.
  { intros A f l Hf. induction l as [|x l IH]; [done|]. cbn. by rewrite Hf, IH. }
  by rewrite !H.
Qed.

(** Only all of it has the end. *)
Lemma end_is_last id l headers ds seen more : not_about id l -> seen ++ more = l ++ message_events id headers ds ->
  existsb (says_stream_end id) seen = match more with [] => true | _ => false end.
Proof.
  intros Hl Hs. destruct (gathered_not_about _ _ Hl) as [Hg _].
  destruct more as [|x m _] using rev_ind.
  - rewrite app_nil_r in Hs. subst seen. change (in_ended (gathered id (l ++ message_events id headers ds)) = true).
    by rewrite gathered_app, Hg, gathered_message.
  - replace (match m ++ [x] with [] => true | _ => false end) with false by by destruct m.
    unfold message_events in Hs. rewrite !app_assoc in Hs. apply app_inj_tail in Hs as [Hs _].
    assert (in_ended (gathered id (seen ++ m)) = false) as He.
    { rewrite Hs, !gathered_app, Hg, gathered_data. unfold header_events. rewrite gathered_cons, gathered_app.
      assert (in_ended (gathered id (map (fun h => EvHeader id (name h) (value h)) headers)) = false) as Hh.
      { clear Hs. induction headers as [|h headers IH]; [done|exact IH]. }
      unfold add_incoming. cbn [in_ended]. rewrite Hh. done. }
    rewrite gathered_app in He. cbn in He. by apply orb_false_iff in He as [? _].
Qed.

(** ** A task that waits for a message *)
Section gathering.
Context {E : Type} (stream_reset_code : E -> option Z) (quic : list StreamAction -> StreamAction -> result E unit).
Context (r : Role) (settings : Settings) (Hset : settings_ok settings).
Notation task_ok := (task_ok r settings).

Definition own_qpack (s : ConnectionState) : Prop :=
  Forall (fun q => ~ bidi_id q) (flatten [st_encoder_stream_id s; st_decoder_stream_id s]).
(** What a task does in between leaves every stream alone. *)
Definition calm (seen : list Event) (t t' : Task) : Prop :=
  task_ok t' /\ own_qpack (tk_state t') /\ tk_performed t' = tk_performed t /\ forall id, undisturbed id seen (conn_of t) (conn_of t').

Lemma drain_ids_calm ids : forall s s' l, conn_wf 0 (h3_conn s) -> Forall (fun q => ~ bidi_id q) ids ->
  drain_ids (T := E) ids s = Some (s', Ok l) ->
  st_encoder_stream_id s' = st_encoder_stream_id s /\ st_decoder_stream_id s' = st_decoder_stream_id s /\
  forall id, undisturbed id [] (h3_conn s) (h3_conn s').
Proof using.
  induction ids as [|q ids IH]; intros s s' l Hw Hq; cbn [drain_ids]; [by intros [= <- _]|].
  inversion Hq as [|? ? Hq1 Hq2]; subst. unfold mbind, state_bind, state_get_stream_data, on_conn.
  destruct (take_stream_data q (h3_conn s)) as [[c1 [o|e]]|] eqn:E1; cbn [map_err]; [|done..].
  destruct (drain_ids ids (with_conn c1 s)) as [[s2 [l2|e]]|] eqn:E2; [|done..]. intros [= <- _].
  destruct (IH (with_conn c1 s) _ _ (take_wf _ _ _ _ _ Hw E1) Hq2 E2) as (H1 & H2 & H3). split; [done|]. split; [done|]. intros id.
  apply (undisturbed_trans id [] [] _ c1); [|apply H3]. by apply (take_undisturbed id q _ _ o); [apply (no_stream 0)|].
Qed.
Lemma flush_calm t : task_ok t -> own_qpack (tk_state t) -> exists t', flush_qpack (E := E) t = Some (t', Ok ()) /\ calm [] t t'.
Proof using Hset.
  intros Ht Hq. destruct (flush_ok (E := E) r settings Hset t Ht) as (t' & Ef & Ht' & _). exists t'. split; [done|].
  pose proof (reachable_wf _ _ _ Hset Ht) as Hw. revert Ef. unfold flush_qpack, mbind, task_bind, locked, drain_qpack_data.
  destruct (drain_ids _ _) as [[s1 [l|e]]|] eqn:E1; [|done..]. intros [= <-].
  destruct (drain_ids_calm _ _ _ _ Hw Hq E1) as (H1 & H2 & H3). split; [done|]. split; [|done].
  unfold own_qpack. cbn. by rewrite H1, H2.
Qed.
Lemma calm_trans a b t t1 t2 : calm a t t1 -> calm b t1 t2 -> calm (a ++ b) t t2.
Proof using.
  intros (A1 & A2 & A3 & A4) (B1 & B2 & B3 & B4). split; [done|]. split; [done|]. split; [congruence|]. intros id.
  by apply (undisturbed_trans _ _ _ _ (conn_of t1)).
Qed.

Section loop.
Context {Acc : Type} (id : Z) (Hid : varint_ok id) (collect : Acc -> Event -> option (result (refusal (E := E)) Acc)) (finished : Acc -> bool).
Notation gather_all := (collect_all collect).

Lemma turn_calm acc acc' t : task_ok t -> own_qpack (tk_state t) -> settled (conn_of t) ->
  gather_all (events (conn_of t)) acc = Some (Ok acc') ->
  exists t', loop_turn quic collect acc t = Some (t', Ok acc') /\ calm (events (conn_of t)) t t'.
Proof using Hset.
  intros Ht Hq Hs Hc. destruct (drain_settled 0 _ Hs) as [Ed _].
  set (t1 := with_state (with_conn (set_events [] (conn_of t)) (tk_state t)) t).
  assert (locked (E := E) state_drain_events t = Some (t1, Ok (events (conn_of t)))) as E1.
  { unfold locked, state_drain_events, on_conn. fold (conn_of t). by rewrite Ed. }
  assert (calm (events (conn_of t)) t t1) as H1.
  { destruct (locked_safely (E := E) r settings Hset (fun l => l) state_drain_events t [OpDrainEvents] Ht) as (t2 & res & E2 & Ht2 & _);
      [by apply one_op_ok|apply follows_drain|]. rewrite E1 in E2. injection E2 as <- <-.
    split; [done|]. split; [done|]. split; [done|]. intros id'. by apply drain_settled. }
  destruct (flush_calm t1) as (t2 & E2 & H2); [apply H1|apply H1|]. exists t2. unfold loop_turn, mbind, task_bind.
  rewrite E1, Hc, E2. split; [done|]. rewrite <- (app_nil_r (events _)). by apply (calm_trans _ _ _ t1).
Qed.

Lemma received_calm o c' t : task_ok t -> own_qpack (tk_state t) ->
  match o with Some data => bytes_ok data | None => True end ->
  feed_stream id (default [] o) (negb (is_some o)) (conn_of t) = Some (c', Ok ()) ->
  exists t', stream_received stream_reset_code quic id (Ok o) t = Some (t', Ok (negb (is_some o))) /\
    tk_performed t' = tk_performed t /\ task_ok t' /\ own_qpack (tk_state t') /\ forall id, undisturbed id [] c' (conn_of t').
Proof using Hset Hid.
  intros Ht Hq Ho Ef. set (t1 := with_state (with_conn c' (tk_state t)) t).
  assert (locked (E := E) (feed_stream_only id (default [] o) (negb (is_some o))) t = Some (t1, Ok ())) as E1.
  { unfold locked, feed_stream_only, on_conn. fold (conn_of t). by rewrite Ef. }
  assert (task_ok t1) as Ht1.
  { destruct (locked_safely (E := E) r settings Hset (fun _ => []) (feed_stream_only id (default [] o) (negb (is_some o))) t
      [OpFeedStream id (default [] o) (negb (is_some o))] Ht)
      as (t2 & res & E2 & Ht2 & _); [|apply follows_feed|]; [|rewrite E1 in E2; by injection E2 as <- <-].
    apply one_op_ok. split; [done|]. destruct o; [done|constructor]. }
  destruct (flush_calm t1 Ht1 Hq) as (t2 & E2 & H2 & H3 & H4 & H5). exists t2.
  unfold stream_received, mbind, task_bind, or_handle. rewrite E1, E2. split; [done|]. split; [done|]. done.
Qed.

(** What wakes the loop until all of [rest] has arrived, and the end. *)
Inductive delivers : list (Wake (E := E)) -> bytes -> Prop :=
| delivers_end more : delivers (Received (Ok None) :: more) []
| delivers_chunk data script rest : bytes_ok data -> data <> [] -> delivers script rest ->
    delivers (Received (Ok (Some data)) :: script) (data ++ rest)
| delivers_notified script rest : delivers script rest -> delivers (Notified :: script) rest.

Section message.
Context (headers : list Header) (ds : list bytes) (total : list Event) (acc0 : Acc)
  (Hcollect : forall seen more, seen ++ more = total -> exists acc, gather_all seen acc0 = Some (Ok acc) /\
     finished acc = match more with [] => true | _ => false end).
Notation loop script acc t := (waiting_loop stream_reset_code quic id collect finished script false acc t).

(** One turn of the loop, when not all has been gathered yet. *)
Lemma turn_goes_on past acc t x more : past ++ events (conn_of t) ++ x :: more = total -> settled (conn_of t) ->
  gather_all past acc0 = Some (Ok acc) -> task_ok t -> own_qpack (tk_state t) ->
  exists t' acc', loop_turn quic collect acc t = Some (t', Ok acc') /\ finished acc' = false /\
    gather_all (past ++ events (conn_of t)) acc0 = Some (Ok acc') /\ calm (events (conn_of t)) t t'.
Proof using Hset Hcollect.
  intros Htot Hs Hacc Ht Hq. destruct (Hcollect (past ++ events (conn_of t)) (x :: more)) as (acc1 & Hc1 & Hf1); [by rewrite <- app_assoc|].
  destruct (turn_calm acc acc1 t Ht Hq Hs) as (t1 & E1 & H1); [|by exists t1, acc1].
  revert Hc1. by rewrite collect_all_app, Hacc.
Qed.
Lemma midway_turn past before taken rest acc t : midway id headers ds before taken rest (conn_of t) ->
  past ++ before ++ message_events id headers ds = total -> gather_all (past ++ taken) acc0 = Some (Ok acc) ->
  task_ok t -> own_qpack (tk_state t) ->
  exists t' acc', loop_turn quic collect acc t = Some (t', Ok acc') /\ finished acc' = false /\
    midway id headers ds before (taken ++ events (conn_of t)) rest (conn_of t') /\
    gather_all (past ++ taken ++ events (conn_of t)) acc0 = Some (Ok acc') /\ task_ok t' /\ own_qpack (tk_state t') /\
    tk_performed t' = tk_performed t.
Proof using Hset Hcollect.
  intros Hm Htot Hacc Ht Hq. destruct (midway_events _ _ _ _ _ _ _ Hm) as (x & more & Em).
  destruct (turn_goes_on (past ++ taken) acc t x more) as (t1 & acc1 & E1 & Hf1 & Hc1 & A1 & A2 & A3 & A4); try done.
  - by rewrite <- Htot, <- Em, <- !app_assoc.
  - by apply (midway_settled id headers ds before taken rest).
  - exists t1, acc1. rewrite <- app_assoc in Hc1. split_and!; try done. by apply (midway_undisturbed _ _ _ _ _ _ (conn_of t)).
Qed.

(** [acc] is what has been gathered of the events up to now. *)
Lemma loop_gathers script rest : delivers script rest -> forall past before taken acc t,
  midway id headers ds before taken rest (conn_of t) -> past ++ before ++ message_events id headers ds = total ->
  gather_all (past ++ taken) acc0 = Some (Ok acc) -> task_ok t -> own_qpack (tk_state t) ->
  exists t' acc', loop script acc t = Some (t', Done (Ok acc')) /\ gather_all total acc0 = Some (Ok acc') /\
    tk_performed t' = tk_performed t.
Proof using Hset Hid Hcollect.
  induction 1 as [more|data script1 rest1 Hb Hd Hdel IH|script1 rest1 Hdel IH]; intros past before taken acc t Hm Htot Hacc Ht Hq;
    cbn [waiting_loop].
  - destruct (midway_last _ _ _ _ _ _ _ Hm) as (c1 & E1 & Hs1 & Hall).
    destruct (received_calm None c1 t Ht Hq I E1) as (t1 & E2 & Hp1 & Ht1 & Hq1 & H1). rewrite E2. unfold and_then_wait.
    assert (events (conn_of t1) = events c1) as Hev by (destruct (H1 id) as [_ _ _ ->]; done).
    destruct (Hcollect total []) as (acc1 & Hc1 & Hf1); [by rewrite app_nil_r|].
    destruct (turn_calm acc acc1 t1 Ht1 Hq1) as (t2 & E3 & A1 & A2 & A3 & A4).
    + by apply (context_settled c1); [apply (H1 id)|].
    + revert Hc1. rewrite <- Htot, <- Hall, app_assoc, collect_all_app, Hacc, Hev. done.
    + rewrite E3, Hf1. exists t2, acc1. split; [done|]. split; [done|]. by rewrite A3.
  - destruct (midway_feed _ _ _ _ _ _ _ _ Hm) as (c1 & E1 & Hm1).
    destruct (received_calm (Some data) c1 t Ht Hq Hb E1) as (t1 & E2 & Hp1 & Ht1 & Hq1 & H1). rewrite E2. unfold and_then_wait.
    pose proof (midway_undisturbed _ _ _ _ _ _ _ _ _ Hm1 (H1 id)) as Hm2. rewrite app_nil_r in Hm2. clear Hm1. rename Hm2 into Hm1.
    destruct (midway_turn _ _ _ _ _ _ Hm1 Htot Hacc Ht1 Hq1) as (t2 & acc2 & E3 & Hf2 & Hm2 & Hc2 & Ht2 & Hq2 & Hp2). rewrite E3, Hf2.
    destruct (IH _ _ _ _ _ Hm2 Htot Hc2 Ht2 Hq2) as (t3 & acc3 & E4 & Hc3 & Hp3). exists t3, acc3. split; [done|]. split; [done|].
    by rewrite Hp3, Hp2.
  - destruct (tk_unblocked t); [|by apply (IH past before taken)]. unfold and_then_wait.
    destruct (midway_turn past before taken rest1 acc (set_unblocked false t) Hm Htot Hacc Ht Hq) as (t2 & acc2 & E3 & Hf2 & Hm2 & Hc2 & Ht2 & Hq2 & Hp2).
    rewrite E3, Hf2. destruct (IH _ _ _ _ _ Hm2 Htot Hc2 Ht2 Hq2) as (t3 & acc3 & E4 & Hc3 & Hp3). exists t3, acc3.
    split; [done|]. split; [done|]. by rewrite Hp3, Hp2.
Qed.


(** The stream has been announced, and nothing has arrived yet. *)
Lemma announced_turn sent base taken acc t : announced id headers ds sent base taken (conn_of t) ->
  events base ++ message_events id headers ds = total -> gather_all taken acc0 = Some (Ok acc) ->
  task_ok t -> own_qpack (tk_state t) ->
  exists t' acc', loop_turn quic collect acc t = Some (t', Ok acc') /\ finished acc' = false /\
    announced id headers ds sent base (taken ++ events (conn_of t)) (conn_of t') /\
    gather_all (taken ++ events (conn_of t)) acc0 = Some (Ok acc') /\ task_ok t' /\ own_qpack (tk_state t') /\
    tk_performed t' = tk_performed t.
Proof using Hset Hcollect.
  intros Ha Htot Hacc Ht Hq. pose proof (announced_events _ _ _ _ _ _ _ Ha) as Em.
  assert (exists x more, message_events id headers ds = x :: more) as (x & more & Ex) by (eexists _, _; reflexivity).
  destruct (turn_goes_on taken acc t x more) as (t1 & acc1 & E1 & Hf1 & Hc1 & A1 & A2 & A3 & A4); try done.
  - by rewrite <- Htot, <- Em, <- app_assoc, Ex.
  - by apply (announced_settled id headers ds sent base taken).
  - exists t1, acc1. split_and!; try done. by apply (announced_undisturbed _ _ _ _ _ _ _ (conn_of t)).
Qed.

Lemma loop_gathers_announced script sent : delivers script sent -> forall base taken acc t,
  announced id headers ds sent base taken (conn_of t) -> events base ++ message_events id headers ds = total ->
  gather_all taken acc0 = Some (Ok acc) -> task_ok t -> own_qpack (tk_state t) ->
  exists t' acc', loop script acc t = Some (t', Done (Ok acc')) /\ gather_all total acc0 = Some (Ok acc') /\
    tk_performed t' = tk_performed t.
Proof using Hset Hid Hcollect.
  induction 1 as [more|data script1 rest1 Hb Hd Hdel IH|script1 rest1 Hdel IH]; intros base taken acc t Ha Htot Hacc Ht Hq;
    cbn [waiting_loop].
  - destruct Ha as [(enc & limit & Hca & _) _ _ _ _ _]. pose proof (ca_bytes _ _ _ _ _ _ Hca) as Hbytes. done.
  - destruct (announced_feed _ _ _ _ _ _ data rest1 _ Ha Hd eq_refl) as (c1 & E1 & Hm1).
    destruct (received_calm (Some data) c1 t Ht Hq Hb E1) as (t1 & E2 & Hp1 & Ht1 & Hq1 & H1). rewrite E2. unfold and_then_wait.
    pose proof (midway_undisturbed _ _ _ _ _ _ _ _ _ Hm1 (H1 id)) as Hm2. change ([] ++ []) with (@nil Event) in Hm2.
    assert (taken ++ events (conn_of t) ++ message_events id headers ds = total) as Htot2.
    { by rewrite app_assoc, (announced_events _ _ _ _ _ _ _ Ha). }
    destruct (midway_turn taken (events (conn_of t)) [] rest1 acc t1 Hm2 Htot2) as (t2 & acc2 & E3 & Hf2 & Hm3 & Hc2 & Ht2 & Hq2 & Hp2);
      [by rewrite app_nil_r|done..|]. rewrite E3, Hf2.
    destruct (loop_gathers _ _ Hdel taken (events (conn_of t)) _ acc2 t2 Hm3 Htot2 Hc2 Ht2 Hq2) as (t3 & acc3 & E4 & Hc3 & Hp3).
    exists t3, acc3. split; [done|]. split; [done|]. by rewrite Hp3, Hp2.
  - destruct (tk_unblocked t); [|by apply (IH base taken)]. unfold and_then_wait.
    destruct (announced_turn _ _ _ acc (set_unblocked false t) Ha Htot Hacc Ht Hq) as (t2 & acc2 & E3 & Hf2 & Ha2 & Hc2 & Ht2 & Hq2 & Hp2).
    rewrite E3, Hf2. destruct (IH _ _ _ _ Ha2 Htot Hc2 Ht2 Hq2) as (t3 & acc3 & E4 & Hc3 & Hp3). exists t3, acc3.
    split; [done|]. split; [done|]. by rewrite Hp3, Hp2.
Qed.
End message.
End loop.

(** A client that waits for the answer to its request. *)
Lemma answer_gathered id headers ds limit head enc sent script t : varint_ok id -> delivers script sent ->
  carries Client headers ds head enc sent -> receives id Client headers ds limit head (conn_of t) ->
  is_Some (streams (conn_of t) !! id) -> unblockable (conn_of t) = [] -> not_about id (events (conn_of t)) ->
  task_ok t -> own_qpack (tk_state t) ->
  exists t', event_loop stream_reset_code quic id (collect_response id) in_ended script incoming_new t =
      Some (t', Done (Ok (mkIncoming (plain headers) false (concat ds) true))) /\ tk_performed t' = tk_performed t.
Proof using Hset.
  intros Hid Hdel Hca Hrc Hs Hu Hn Ht Hq. set (c := conn_of t) in *. set (total := events c ++ message_events id headers ds).
  assert (forall seen more, seen ++ more = total -> exists acc, collect_all (E := E) (collect_response id) seen incoming_new = Some (Ok acc) /\
    in_ended acc = match more with [] => true | _ => false end) as Hcollect.
  { intros seen more Htot. eexists. rewrite collect_response_gathers, add_incoming_new. split; [done|]. by apply (end_is_last id (events c) headers ds). }
  pose proof (midway_answer _ _ _ _ _ _ _ _ _ Hca Hrc Hs Hu) as Hm. fold c in Hm.
  destruct (midway_turn id (collect_response id) in_ended headers ds total incoming_new Hcollect [] (events c) [] sent incoming_new t)
    as (t1 & acc1 & E1 & Hf1 & Hm1 & Hc1 & Ht1 & Hq1 & Hp1); [done..|].
  destruct (loop_gathers id Hid (collect_response id) in_ended headers ds total incoming_new Hcollect script sent Hdel [] (events c) _ acc1 t1 Hm1)
    as (t2 & acc2 & E2 & Hc2 & Hp2); [done..|].
  exists t2. unfold event_loop, and_then_wait. rewrite E1, Hf1, E2. split; [|by rewrite Hp2, Hp1]. do 4 f_equal.
  rewrite collect_response_gathers, add_incoming_new in Hc2. injection Hc2 as <-.
  destruct (gathered_not_about _ _ Hn) as [Hg _]. pose proof (gathered_app id (events c) (message_events id headers ds)) as Ha.
  rewrite Hg, gathered_message, add_incoming_new in Ha. unfold gathered_response. fold total in Ha. unfold gathered in Ha. by injection Ha as -> _ -> ->.
Qed.

(** A server to which QUIC gives a new stream. *)
Lemma request_gathered id headers ds limit enc sent script t : varint_ok id -> delivers script sent ->
  carries Server headers ds false enc sent -> receives id Server headers ds limit false (conn_of t) ->
  streams (conn_of t) !! id = None -> unblockable (conn_of t) = [] -> not_about id (events (conn_of t)) ->
  task_ok t -> own_qpack (tk_state t) ->
  exists t', accept_request stream_reset_code quic (Ok (Some id)) script t =
      Some (t', Done (Ok (mkH3Request (plain headers) id (concat ds)))) /\ tk_performed t' = tk_performed t.
Proof using Hset.
  intros Hid Hdel Hca Hrc Hs Hu Hn Ht Hq. set (c := conn_of t) in *. set (total := events c ++ message_events id headers ds).
  destruct (gathered_not_about _ _ Hn) as [Hg Hw].
  assert (forall seen more, seen ++ more = total -> exists acc, collect_all (E := E) (collect_request id) seen incoming_new = Some (Ok acc) /\
    request_complete acc = match more with [] => true | _ => false end) as Hcollect.
  { intros seen more Htot. exists (gathered id seen). split.
    - rewrite <- (add_incoming_new (gathered id seen)). apply collect_request_gathers.
      assert (existsb (webtransport_of id) (seen ++ more) = false) as H.
      { rewrite Htot. unfold total. by rewrite existsb_app, Hw, message_no_webtransport. }
      rewrite existsb_app in H. by apply orb_false_iff in H as [? _].
    - pose proof (end_is_last id (events c) headers ds seen more Hn Htot) as He. unfold request_complete.
      change (in_ended (gathered id seen)) with (existsb (says_stream_end id) seen). rewrite He. destruct more; [|by rewrite andb_false_r].
      rewrite app_nil_r in Htot. subst seen. unfold total. by rewrite gathered_app, Hg, gathered_message. }
  destruct (announce _ _ _ _ _ _ _ Hca Hrc Hs Hu) as (c1 & E1 & Ha & He). fold c in E1, Ha, He.
  set (t1 := with_state (with_conn c1 (tk_state t)) t).
  assert (ignoring (locked (E := E) (feed_stream_only id [] false)) t = Some (t1, Ok ())) as Ei.
  { unfold ignoring, locked, feed_stream_only, on_conn. fold (conn_of t). fold c. by rewrite E1. }
  assert (task_ok t1) as Ht1.
  { destruct (ignoring_call_quietly (E := E) r settings Hset (feed_stream_only id [] false) t [OpFeedStream id [] false] Ht) as (t' & res & E' & Ht' & _);
      [apply one_op_ok; by split|apply follows_feed|]. rewrite Ei in E'. by injection E' as <- _. }
  destruct (announced_turn id (collect_request id) request_complete headers ds total incoming_new Hcollect sent c [] incoming_new t1)
    as (t2 & acc2 & E2 & Hf2 & Ha2 & Hc2 & Ht2 & Hq2 & Hp2); [done..|].
  destruct (loop_gathers_announced id Hid (collect_request id) request_complete headers ds total incoming_new Hcollect script sent Hdel c _ acc2 t2 Ha2)
    as (t3 & acc3 & E3 & Hc3 & Hp3); [done..|].
  exists t3. unfold accept_request, bind_outcome. cbn [map_err mbind result_bind ok_or]. rewrite Ei.
  unfold event_loop, and_then_wait. rewrite E2, Hf2, E3. cbn [mbind option_bind map_outcome]. split; [|by rewrite Hp3, Hp2].
  rewrite collect_request_gathers, add_incoming_new in Hc3 by (unfold total; by rewrite existsb_app, Hw, message_no_webtransport).
  injection Hc3 as <-. unfold total. by rewrite gathered_app, Hg, gathered_message, add_incoming_new.
Qed.
End gathering.

(** ** What a task sends *)
Definition pieces (body : bytes) : list bytes := if is_empty_bytes body then [] else [body].
Lemma concat_pieces body : concat (pieces body) = body.
Proof. unfold pieces, is_empty_bytes. destruct (bool_decide_reflect (body = [])); [done|apply app_nil_r]. Qed.
Lemma pieces_ok body : bytes_ok body -> len body <= VARINT_MAX -> Forall body_ok (pieces body).
Proof.
  intros Hb Hl. unfold pieces, is_empty_bytes. destruct (bool_decide_reflect (body = [])); [done|]. by apply Forall_singleton.
Qed.

Section sends.
Context {E : Type} (quic : list StreamAction -> StreamAction -> result E unit) (Htakes : forall l a, quic l a = Ok ()).
Context (settings : Settings) (Hset : settings_ok settings).

Lemma collect_sending id pending s : sending id pending true (h3_conn s) -> pending <> [] ->
  exists s', collect_stream_data (E := E) DATA_TAKES id [] false s = Some (s', Ok (pending, true)).
Proof using.
  intros Hs Hne. destruct (take_pending _ _ _ Hs Hne) as (c1 & E1 & Hs1). destruct (take_fin _ _ Hs1) as (c2 & E2).
  eexists. unfold DATA_TAKES. cbn [collect_stream_data]. unfold mbind, state_bind, state_get_stream_data, on_conn.
  rewrite E1. cbn [map_err h3_conn with_conn]. rewrite E2. cbn [map_err app]. by rewrite app_nil_r.
Qed.

(** The body, and the end of the stream. *)
Lemma send_whole_body id pending c body : sending id pending false c -> bytes_ok body -> len body <= VARINT_MAX ->
  exists c', conn_send_body id body true c = Some (c', Ok ()) /\
    sending id (pending ++ concat (map frame_bytes (map Data (pieces body)))) true c'.
Proof using.
  intros Hs Hb Hl. unfold pieces, is_empty_bytes. destruct (bool_decide_reflect (body = [])) as [->|Hne].
  - rewrite app_nil_r. by apply send_body_end.
  - cbn [map concat]. rewrite app_nil_r. by apply send_body_data.
Qed.

Lemma flush_performed t t' res : flush_qpack (E := E) t = Some (t', res) -> tk_performed t' = tk_performed t.
Proof using.
  unfold flush_qpack, mbind, task_bind, locked. destruct (drain_qpack_data (tk_state t)) as [[s [l|e]]|]; [..|done]; by intros [= <- _].
Qed.
Lemma flush_then_send r t data : task_ok r settings t ->
  exists t', (flush_qpack;; quic_send_all quic data true) t = Some (t', Ok ()) /\
    tk_performed t' = tk_performed t ++ [ActSend data; ActFinish].
Proof using Htakes Hset.
  intros Ht. destruct (flush_ok (E := E) r settings Hset t Ht) as (t1 & E1 & _). eexists.
  unfold quic_send_all, quic_action, mbind, task_bind. rewrite E1, !Htakes. cbn [map_err]. split; [done|].
  cbn. by rewrite (flush_performed _ _ _ E1), <- app_assoc.
Qed.

(** The request is accepted by the connection: all of it is sent, and the FIN. *)
Lemma client_asks request headers c1 t : let id := next_stream_id (conn_of t) in let fin := is_empty_bytes (cq_body request) in
  task_ok Client settings t -> op_ok (OpSendRequest headers fin) (conn_of t) ->
  make_headers (E := E) (client_request_fields request) = Ok headers -> Forall header_encodable headers ->
  is_webtransport_connect headers = false -> send_request headers fin (conn_of t) = Some (c1, Ok id) ->
  wt_sessions c1 !! id = None -> in_set (closed_wt_sessions c1) id = false ->
  bytes_ok (cq_body request) -> len (cq_body request) <= VARINT_MAX ->
  validate_content_length headers (len (cq_body request)) false = Ok () ->
  exists t' enc sent, client_ask quic request id t = Some (t', Ok ()) /\
    tk_performed t' = tk_performed t ++ [ActSend sent; ActFinish] /\ carries Server headers (pieces (cq_body request)) false enc sent.
Proof using Htakes Hset.
  intros id fin Ht Hop Hmk Hh Hwt Esend Hns Hc Hb Hl Hcl. pose proof (reachable_wf _ _ _ Hset Ht) as Hw.
  destruct (send_request_sends _ _ _ _ _ Hw Hop Hh Hwt Esend Hns Hc) as (Hv & huffman & Hlen & Hs).
  set (enc := static_section huffman headers) in *. set (sent := frame_bytes (Headers enc) ++ concat (map frame_bytes (map Data (pieces (cq_body request))))).
  assert (exists c2, (if fin then mret () else on_conn (T := E) (conn_send_body id (cq_body request) true)) (with_conn c1 (tk_state t)) =
    Some (with_conn c2 (tk_state t), Ok ()) /\ sending id sent true c2) as (c2 & E2 & Hs2).
  { unfold sent, fin in *. unfold pieces. destruct (is_empty_bytes (cq_body request)) eqn:Ee.
    - exists c1. split; [done|]. by rewrite app_nil_r.
    - destruct (send_whole_body _ _ _ _ Hs Hb Hl) as (c2 & E2 & Hs2). unfold pieces in Hs2. rewrite Ee in Hs2. exists c2. split; [|done].
      unfold on_conn. cbn [h3_conn with_conn]. by rewrite E2. }
  destruct (collect_sending _ _ (with_conn c2 (tk_state t)) Hs2) as (s3 & E3). { intros En. by apply (f_equal length) in En. }
  assert (locked (E := E) (client_request_data request id) t = Some (with_state s3 t, Ok (sent, true))) as Edata.
  { unfold locked, client_request_data, of_result, mbind, state_bind. rewrite Hmk. unfold state_send_request, on_conn at 1.
    fold (conn_of t) fin. rewrite Esend. cbn [map_err]. rewrite E2. unfold assert_id. rewrite Z.eqb_refl. by rewrite E3. }
  destruct (request_quietly (E := E) Client settings Hset request t Ht) as (t1 & res & E1 & Ht1 & _); [apply Hop|done| |].
  { intros headers' Hmk'. rewrite Hmk in Hmk'. injection Hmk' as <-. apply Hop. }
  fold id in E1. rewrite Edata in E1. injection E1 as <- <-. destruct (flush_then_send Client _ sent Ht1) as (t2 & E4 & Hp).
  exists t2, enc, sent. split; [|split; [exact Hp|]].
  - unfold client_ask, mbind at 1, task_bind at 1. by rewrite Edata.
  - split; try done; [by exists huffman|by apply pieces_ok|by rewrite concat_pieces].
Qed.

(** The response is accepted by the connection, likewise. *)
Lemma server_answers request response headers head c1 t : let id := hr_stream_id request in
  task_ok Server settings t -> bidi_id id -> unanswered id (conn_of t) -> section_fits headers ->
  make_headers (E := E) (server_response_fields response) = Ok headers -> Forall header_encodable headers ->
  is_webtransport_connect headers = false -> is_interim headers = false -> is_informational_status headers = false ->
  send_response id headers false (conn_of t) = Some (c1, Ok ()) ->
  bytes_ok (hs_body response) -> len (hs_body response) <= VARINT_MAX ->
  validate_content_length headers (len (hs_body response)) (head || is_no_body_status headers) = Ok () ->
  exists t' enc sent, h3_request_send_response quic request false response t = Some (t', Ok ()) /\
    tk_performed t' = tk_performed t ++ [ActSend sent; ActFinish] /\ carries Client headers (pieces (hs_body response)) head enc sent.
Proof using Htakes Hset.
  intros id Ht Hid Hun Hfit Hmk Hh Hwt Hi Hinf Esend Hb Hl Hcl. pose proof (reachable_wf _ _ _ Hset Ht) as Hw.
  destruct (send_response_sends _ _ _ _ Hw Hid Hfit Hun Hh Hi Esend) as (_ & Hv & huffman & Hlen & Hs).
  set (enc := static_section huffman headers) in *. set (sent := frame_bytes (Headers enc) ++ concat (map frame_bytes (map Data (pieces (hs_body response))))).
  destruct (send_whole_body _ _ _ _ Hs Hb Hl) as (c2 & E2 & Hs2).
  destruct (collect_sending _ _ (with_conn c2 (tk_state t)) Hs2) as (s3 & E3). { intros En. by apply (f_equal length) in En. }
  assert (locked (E := E) (server_response_data id response) t = Some (with_state s3 t, Ok (sent, true))) as Edata.
  { unfold locked, server_response_data, of_result, prepare_response, mbind, state_bind. rewrite Hmk. unfold on_conn at 1.
    fold (conn_of t). rewrite Esend. cbn [map_err]. unfold on_conn at 1. cbn [h3_conn with_conn]. rewrite E2. cbn [map_err].
    change (with_conn c2 (with_conn c1 (tk_state t))) with (with_conn c2 (tk_state t)). by rewrite E3. }
  destruct (response_quietly (E := E) Server settings Hset id response t Ht Hl) as (t1 & res & E1 & Ht1 & _).
  { intros headers' Hmk'. rewrite Hmk in Hmk'. by injection Hmk' as <-. }
  rewrite Edata in E1. injection E1 as <- <-. destruct (flush_then_send Server _ sent Ht1) as (t2 & E4 & Hp).
  exists t2, enc, sent. split; [|split; [exact Hp|]].
  - unfold h3_request_send_response, mbind at 1, task_bind at 1. fold id. rewrite Edata. rewrite <- E4.
    unfold mbind, task_bind. by destruct (flush_qpack _) as [[t3 [[]|e]]|].
  - split; try done; [by exists huffman|by apply pieces_ok|]. rewrite concat_pieces. cbn [bool_decide]. done.
Qed.
End sends.

(** ** What the application gets *)
Lemma make_headers_plain {E} l headers : make_headers (E := E) l = Ok headers -> plain headers = l.
Proof.
  revert headers. induction l as [|[n v] l IH]; intros headers; cbn [make_headers]; [by intros [= <-]|].
  unfold make_header, header_new. destruct (check_header n v); [done|]. cbn [map_err mbind result_bind].
  destruct (make_headers l) as [hs|]; [|done]. intros [= <-]. cbn. f_equal. by apply IH.
Qed.

Lemma dec_value_snoc l b : dec_value (l ++ [b]) = dec_value l * 10 + (b - 48).
Proof. unfold dec_value. by rewrite fold_left_app. Qed.
Lemma to_decimal_value n : forall v, 0 <= v < 10 ^ Z.of_nat n -> dec_value (to_decimal n v) = v.
Proof.
  induction n as [|n IH]; intros v Hv; [cbn in *; lia|]. cbn [to_decimal]. destruct (Z.ltb_spec v 10).
  - unfold dec_value. cbn. lia.
  - rewrite dec_value_snoc, IH; [pose proof (Z.div_mod v 10); lia|]. rewrite Nat2Z.inj_succ, Z.pow_succ_r in Hv by lia.
    split; [apply Z.div_pos; lia|apply Z.div_lt_upper_bound; lia].
Qed.
Lemma parse_status_decimal v : 0 <= v < 2 ^ 16 -> parse_status (decimal v) = Some v.
Proof.
  intros Hv. unfold parse_status, decimal. rewrite parse_u64_spec by (apply to_decimal_digits; lia).
  rewrite to_decimal_value by lia. rewrite bool_decide_false by (intros En; pose proof (len_to_decimal_pos 19 v) as Hl; rewrite En in Hl; by vm_compute in Hl).
  assert (v <=? U64_MAX = true) as -> by (unfold U64_MAX; lia). cbn. by solve_cmp.
Qed.
Lemma carries_bytes r headers ds head enc sent : carries r headers ds head enc sent -> bytes_ok sent /\ sent <> [].
Proof.
  intros [[huffman ->] -> Hh _ Hds _ _ _ _]. split; [|intros En; by apply (f_equal length) in En].
  apply bytes_ok_app. split; [by apply frame_bytes_ok, static_section_ok|]. apply Forall_concat, Forall_map, Forall_map.
  apply (Forall_impl _ _ _ Hds). intros d (Hb & _). by apply frame_bytes_ok.
Qed.

(** A server's task to which QUIC gives the stream, and a client's that has sent its
    request, in any state they can get into. *)
Record can_accept (settings : Settings) (id : Z) (headers : list Header) (ds : list bytes) (limit : Z) (t : Task) : Prop := {
  can_settings : settings_ok settings;
  can_task : task_ok Server settings t;
  can_qpack : own_qpack (tk_state t);
  can_receive : receives id Server headers ds limit false (conn_of t);
  can_new : streams (conn_of t) !! id = None;
  can_unblock : unblockable (conn_of t) = [];
  can_events : not_about id (events (conn_of t)) }.
Record awaits_answer (settings : Settings) (id : Z) (headers : list Header) (ds : list bytes) (limit : Z) (head : bool) (t : Task) : Prop := {
  aw_settings : settings_ok settings;
  aw_task : task_ok Client settings t;
  aw_qpack : own_qpack (tk_state t);
  aw_receive : receives id Client headers ds limit head (conn_of t);
  aw_asked : is_Some (streams (conn_of t) !! id);
  aw_unblock : unblockable (conn_of t) = [];
  aw_events : not_about id (events (conn_of t)) }.

(** ** Properties *)

(** C12. What a client's [send_request] asks is what a server's [accept_request] returns.
    Once the connection accepts the headers, with a transport that takes everything, the
    client sends bytes and finishes the stream, and nothing else; and a server to which
    these bytes arrive, cut up in any way, with any notifications in between, returns a
    request with exactly the fields and the body of the client's. *)
Theorem request_served {E} (quic : list StreamAction -> StreamAction -> result E unit) settings request headers c1 t :
  let id := next_stream_id (conn_of t) in let fin := is_empty_bytes (cq_body request) in
  (forall l a, quic l a = Ok tt) -> settings_ok settings -> task_ok Client settings t ->
  op_ok (OpSendRequest headers fin) (conn_of t) ->
  make_headers (E := E) (client_request_fields request) = Ok headers -> Forall header_encodable headers ->
  is_webtransport_connect headers = false -> send_request headers fin (conn_of t) = Some (c1, Ok id) ->
  wt_sessions c1 !! id = None -> in_set (closed_wt_sessions c1) id = false ->
  bytes_ok (cq_body request) -> len (cq_body request) <= VARINT_MAX ->
  validate_content_length headers (len (cq_body request)) false = Ok () ->
  exists t' sent, client_ask quic request id t = Some (t', Ok tt) /\
    tk_performed t' = tk_performed t ++ [ActSend sent; ActFinish] /\ bytes_ok sent /\ sent <> [] /\
    forall E' stream_reset_code (quic' : list StreamAction -> StreamAction -> result E' unit) settings' limit script ts,
      can_accept settings' id headers (pieces (cq_body request)) limit ts -> delivers script sent ->
      exists ts', accept_request stream_reset_code quic' (Ok (Some id)) script ts =
        Some (ts', Done (Ok (mkH3Request (client_request_fields request) id (cq_body request)))) /\
        tk_performed ts' = tk_performed ts.
Proof.
  intros id fin Hq Hset Ht Hop Hmk Hh Hwt Es Hns Hc Hb Hl Hcl.
  destruct (client_asks quic Hq settings Hset request headers c1 t) as (t' & enc & sent & E1 & Hp & Hca); [done..|].
  destruct (carries_bytes _ _ _ _ _ _ Hca) as [Hsb Hsn]. exists t', sent. split_and!; try done.
  intros E' src quic' settings' limit script ts [Hset' Hts Hqp Hrc Hnew Hu Hn] Hdel.
  assert (varint_ok id) as Hid.
  { destruct (w_next _ _ (reachable_wf _ _ _ Hset Ht)) as [? _]. destruct Hop. split; [lia|done]. }
  destruct (request_gathered src quic' Server settings' Hset' id headers (pieces (cq_body request)) limit enc sent script ts)
    as (ts' & E2 & Hp2); [done..|].
  rewrite (make_headers_plain _ _ Hmk), concat_pieces in E2. by exists ts'.
Qed.

(** C13. What a server's [send_response] answers is what the client's [send_request]
    returns, likewise: the status, the fields and the body, for a response to which the
    checks of the connection do not object and which is not an interim one. *)
Theorem response_served {E} (quic : list StreamAction -> StreamAction -> result E unit) settings request response headers head c1 t :
  let id := hr_stream_id request in
  (forall l a, quic l a = Ok tt) -> settings_ok settings -> task_ok Server settings t ->
  varint_ok id -> bidi_id id -> unanswered id (conn_of t) -> section_fits headers ->
  make_headers (E := E) (server_response_fields response) = Ok headers -> Forall header_encodable headers ->
  is_webtransport_connect headers = false -> is_interim headers = false -> is_informational_status headers = false ->
  send_response id headers false (conn_of t) = Some (c1, Ok tt) ->
  bytes_ok (hs_body response) -> len (hs_body response) <= VARINT_MAX -> 0 <= hs_status response < 2 ^ 16 ->
  validate_content_length headers (len (hs_body response)) (head || is_no_body_status headers) = Ok () ->
  exists t' sent, h3_request_send_response quic request false response t = Some (t', Ok tt) /\
    tk_performed t' = tk_performed t ++ [ActSend sent; ActFinish] /\ bytes_ok sent /\ sent <> [] /\
    forall E' stream_reset_code (quic' : list StreamAction -> StreamAction -> result E' unit) settings' limit script tc,
      awaits_answer settings' id headers (pieces (hs_body response)) limit head tc -> delivers script sent ->
      exists tc' i, event_loop stream_reset_code quic' id (collect_response id) in_ended script incoming_new tc = Some (tc', Done (Ok i)) /\
        response_of i = mkH3ClientResponse (hs_status response) (server_response_fields response) (hs_body response) /\
        tk_performed tc' = tk_performed tc.
Proof.
  intros id Hq Hset Ht Hid Hbi Hun Hfit Hmk Hh Hwt Hi Hinf Es Hb Hl Hst Hcl.
  destruct (server_answers quic Hq settings Hset request response headers head c1 t) as (t' & enc & sent & E1 & Hp & Hca); [done..|].
  destruct (carries_bytes _ _ _ _ _ _ Hca) as [Hsb Hsn]. exists t', sent. split_and!; try done.
  intros E' src quic' settings' limit script tc [Hset' Htc Hqp Hrc Hasked Hu Hn] Hdel.
  destruct (answer_gathered src quic' Client settings' Hset' id headers (pieces (hs_body response)) limit head enc sent script tc)
    as (tc' & E2 & Hp2); [done..|].
  rewrite (make_headers_plain _ _ Hmk), concat_pieces in E2. eexists tc', _. split; [exact E2|]. split; [|done].
  unfold response_of, server_response_fields. cbn [in_headers in_body List.find fst]. rewrite (proj2 (bytes_eqb_eq (str ":status") _) eq_refl).
  cbn [mbind option_bind snd]. by rewrite (parse_status_decimal _ Hst).
Qed.

(** ** Witnesses *)
Definition hello_headers : list Header :=
  match make_headers (E := Z) (client_request_fields hello_request) with Ok headers => headers | Err _ => [] end.
Definition hello_response : H3Response := response_body (str "hi") (response_header (str "server") (str "h3") (h3_response_new 200)).
Definition hi_headers : list Header :=
  match make_headers (E := Z) (server_response_fields hello_response) with Ok headers => headers | Err _ => [] end.
(** The transport delivers all at once, after and before a notification. *)
Definition delivered_by (sent : bytes) : list (Wake (E := Z)) := [Notified; Received (Ok (Some sent)); Notified; Received (Ok None)].
Lemma delivered_delivers sent : bytes_ok sent -> sent <> [] -> delivers (delivered_by sent) sent.
Proof.
  intros Hb Hn. apply delivers_notified. rewrite <- (app_nil_r sent) at 2. apply delivers_chunk; [done..|].
  apply delivers_notified, delivers_end.
Qed.

Lemma idle_server_accepts : exists s, state_after Server settings_new idle_server = Some s /\
  can_accept settings_new 0 hello_headers (pieces (cq_body hello_request)) 16777216 (server_task s).
Proof.
  destruct (state_after Server settings_new idle_server) as [s|] eqn:Es; [|vm_compute in Es; discriminate].
  assert (reachable Server settings_new s) as Hr.
  { apply (state_after_reachable _ _ idle_server); [vm_compute; reflexivity|exact Es]. }
  exists s. split; [reflexivity|]. vm_compute in Es. injection Es as <-. split; try done.
  - by repeat constructor.
  - split; [exists settings_new; split; [repeat split|exact Hr]|by split|by apply expects_request|by vm_compute|by split; vm_compute].
  - by apply (bool_decide_unpack _).
Qed.
Lemma asking_client_awaits : exists c, state_after Client settings_new asking_client = Some c /\
  awaits_answer settings_new 0 hi_headers (pieces (hs_body hello_response)) 16777216 false (client_task c).
Proof.
  destruct (state_after Client settings_new asking_client) as [c|] eqn:Es; [|vm_compute in Es; discriminate].
  assert (reachable Client settings_new c) as Hr.
  { apply (state_after_reachable _ _ asking_client); [vm_compute; reflexivity|exact Es]. }
  exists c. split; [reflexivity|]. vm_compute in Es. injection Es as <-. split; try done.
  - by repeat constructor.
  - split; [exists settings_new; split; [repeat split|exact Hr]|by split| |by vm_compute|by split; vm_compute].
    eapply expects_answer; try done. by right.
  - by apply (bool_decide_unpack _).
Qed.

Lemma request_served_witness : exists c t' s ts' sent, state_after Client settings_new idle_client = Some c /\
  client_ask takes_all hello_request 0 (client_task c) = Some (t', Ok tt) /\ tk_performed t' = [ActSend sent; ActFinish] /\
  state_after Server settings_new idle_server = Some s /\
  accept_request Some takes_all (Ok (Some 0)) (delivered_by sent) (server_task s) =
    Some (ts', Done (Ok (mkH3Request (client_request_fields hello_request) 0 (str "hello")))).
Proof.
  destruct (state_after Client settings_new idle_client) as [c|] eqn:Ec; [|vm_compute in Ec; discriminate].
  assert (reachable Client settings_new c) as Hr.
  { apply (state_after_reachable _ _ idle_client); [vm_compute; reflexivity|exact Ec]. }
  assert (next_stream_id (conn_of (client_task c)) = 0 /\ op_ok (OpSendRequest hello_headers false) (conn_of (client_task c)) /\
    exists c1, send_request hello_headers false (conn_of (client_task c)) = Some (c1, Ok 0) /\
      wt_sessions c1 !! 0 = None /\ in_set (closed_wt_sessions c1) 0 = false) as (Hn & Hop & c1 & E1 & Hns & Hc).
  { unfold conn_of, client_task, tk_state, h3_conn. vm_compute in Ec. injection Ec as <-. split; [reflexivity|].
    split; [apply (bool_decide_unpack _); vm_compute; exact I|]. eexists. split; [vm_compute; reflexivity|]. split; vm_compute; reflexivity. }
  destruct idle_server_accepts as (s & Es & Hs).
  pose proof (request_served takes_all settings_new hello_request hello_headers c1 (client_task c)) as H. cbv zeta in H.
  rewrite Hn in H. destruct H as (t' & sent & E2 & Hp & Hb & Hne & Hserve);
    [reflexivity|repeat split|exact Hr|exact Hop|vm_compute; reflexivity|repeat constructor; vm_compute; intuition discriminate
    |vm_compute; reflexivity|exact E1|exact Hns|exact Hc|apply (bool_decide_unpack _); vm_compute; exact I|vm_compute; discriminate|vm_compute; reflexivity|].
  destruct (Hserve Z Some takes_all settings_new 16777216 (delivered_by sent) (server_task s) Hs (delivered_delivers _ Hb Hne))
    as (ts' & E3 & _).
  exists c, t', s, ts', sent. split; [reflexivity|]. split; [exact E2|]. split; [exact Hp|]. split; [exact Es|exact E3].
Defined.

Lemma response_served_witness : exists s t' c tc' i sent, state_after Server settings_new asked_server = Some s /\
  h3_request_send_response takes_all (mkH3Request (plain get_headers) 0 []) false hello_response (server_task s) = Some (t', Ok tt) /\
  tk_performed t' = [ActSend sent; ActFinish] /\ state_after Client settings_new asking_client = Some c /\
  event_loop Some takes_all 0 (collect_response 0) in_ended (delivered_by sent) incoming_new (client_task c) = Some (tc', Done (Ok i)) /\
  response_of i = mkH3ClientResponse 200 [(str ":status", str "200"); (str "server", str "h3")] (str "hi").
Proof.
  destruct (state_after Server settings_new asked_server) as [s|] eqn:Es; [|vm_compute in Es; discriminate].
  assert (reachable Server settings_new s) as Hr.
  { apply (state_after_reachable _ _ asked_server); [vm_compute; reflexivity|exact Es]. }
  assert (unanswered 0 (conn_of (server_task s)) /\
    exists c1, send_response 0 hi_headers false (conn_of (server_task s)) = Some (c1, Ok tt)) as (Hun & c1 & E1).
  { unfold conn_of, server_task, tk_state, h3_conn. vm_compute in Es. injection Es as <-. split.
    - split; [reflexivity|reflexivity|]. eexists. split; [reflexivity|repeat split].
    - eexists. vm_compute. reflexivity. }
  destruct asking_client_awaits as (c & Ec & Hc).
  pose proof (response_served takes_all settings_new (mkH3Request (plain get_headers) 0 []) hello_response hi_headers false c1 (server_task s)) as H.
  cbv zeta in H. destruct H as (t' & sent & E2 & Hp & Hb & Hne & Hserve);
    [reflexivity|repeat split|exact Hr|split; vm_compute; discriminate|vm_compute; reflexivity|exact Hun|vm_compute; discriminate
    |vm_compute; reflexivity|repeat constructor; vm_compute; intuition discriminate|vm_compute; reflexivity..|exact E1
    |apply (bool_decide_unpack _); vm_compute; exact I|vm_compute; discriminate|split; vm_compute; [discriminate|reflexivity]
    |vm_compute; reflexivity|].
  destruct (Hserve Z Some takes_all settings_new 16777216 (delivered_by sent) (client_task c) Hc (delivered_delivers _ Hb Hne))
    as (tc' & i & E3 & Hi & _).
  exists s, t', c, tc', i, sent. split; [reflexivity|]. split; [exact E2|]. split; [exact Hp|]. split; [exact Ec|].
  split; [exact E3|exact Hi].
Defined.
