(* ===== verification/S2nConnect.v ===== *)
(** crates/tokio-s2n-quic/src/webtransport/: the two tasks of the CONNECT stream of a session,
    which client.rs and server.rs have alike, and [WtSession] as far as it talks to them
    (session.rs). One task owns the receiving half: it hands what arrives to the
    connection, the session's flow control capsules to the flow control of what is sent,
    and the session's events to the application. The other owns the sending half and does
    what it is told through a channel.

    What the rest of the program does while the receiving task waits is part of its state:
    each [await] takes the next list of [Other] steps. *)

From Stdlib Require Import String Ascii.
From S2P Require Import Prelude Codec Varint Header Settings Frame Error Stream EncoderStream FrameStream QpackEncoder ControlStream RequestStream WtStream Validation WtError Capsule FlowControl Session Event Datagram WtSession Connect Display Connection ConnInvariant ConnNegotiation ConnWtSession ConnWtStream ConnReceive ConnSafety ConnSend ConnSendSafety ConnRun ConnEvents ConnClose S2nSession S2nState S2nTasks.

(** [done] of the first, which reports the result to [close], is not kept. *)
Inductive ConnectCommand := CmdSendAndFinish (data : bytes) | CmdFinish | CmdReset (error_code : Z).

(** What is done while the task waits: the tasks of the unidirectional streams call the
    connection, the application opens streams and sends data, tells the sending task
    something, or drops the receiver of the events. *)
Inductive Other :=
| OtherUni (stream_id : Z) (a : UniRecvAction)
| OtherFeed (stream_id : Z) (data : bytes) (fin : bool)
| OtherOpens (bidirectional : bool)
| OtherSends (n : Z)
| OtherCommands (c : ConnectCommand)
| OtherLeaves.

Record WtTask := mkWtTask {
  wt_state : ConnectionState; send_fc : WtSendFlowControl; connect_tx : list ConnectCommand;
  event_tx : list WebTransportEvent; listening : bool; meanwhile : list (list Other) }.

Definition set_wt_state (s : ConnectionState) (t : WtTask) : WtTask :=
  mkWtTask s (send_fc t) (connect_tx t) (event_tx t) (listening t) (meanwhile t).
Definition set_send_fc (f : WtSendFlowControl) (t : WtTask) : WtTask :=
  mkWtTask (wt_state t) f (connect_tx t) (event_tx t) (listening t) (meanwhile t).
Definition push_command (c : ConnectCommand) (t : WtTask) : WtTask :=
  mkWtTask (wt_state t) (send_fc t) (connect_tx t ++ [c]) (event_tx t) (listening t) (meanwhile t).
Definition push_delivered (e : WebTransportEvent) (t : WtTask) : WtTask :=
  mkWtTask (wt_state t) (send_fc t) (connect_tx t) (event_tx t ++ [e]) (listening t) (meanwhile t).
Definition stop_listening (t : WtTask) : WtTask :=
  mkWtTask (wt_state t) (send_fc t) (connect_tx t) (event_tx t) false (meanwhile t).
Definition set_meanwhile (l : list (list Other)) (t : WtTask) : WtTask :=
  mkWtTask (wt_state t) (send_fc t) (connect_tx t) (event_tx t) (listening t) l.

Section connect.
Context {E : Type}.

(** ** The steps of the task: [Some (t, None)] when it has returned *)
Definition turn (A : Type) : Type := WtTask -> option (WtTask * option A).
#[export] Instance turn_ret : MRet turn := fun _ a t => Some (t, Some a).
#[export] Instance turn_bind : MBind turn := fun _ _ f m t =>
  match m t with
  | Some (t, Some a) => f a t
  | Some (t, None) => Some (t, None)
  | None => None
  end.
Definition return_early {A} : turn A := fun t => Some (t, None).
Definition update_wt (f : WtTask -> WtTask) : turn unit := fun t => Some (f t, Some tt).

(** One call of the connection while the lock is held. *)
Definition call {A} (m : state_action (T := E) A) : turn (result (S2nError E) A) := fun t =>
  match m (wt_state t) with
  | Some (s, r) => Some (set_wt_state s t, Some r)
  | None => None
  end.

Definition other_step (o : Other) (t : WtTask) : option WtTask :=
  match o with
  | OtherUni id a => '(s, _) ← apply_uni_recv_action (T := E) id a (wt_state t); Some (set_wt_state s t)
  | OtherFeed id data fin => '(s, _) ← feed_stream_only (T := E) id data fin (wt_state t); Some (set_wt_state s t)
  | OtherOpens bidirectional => Some (set_send_fc (fst (fc_try_open_stream (T := E) bidirectional (send_fc t))) t)
  | OtherSends n => Some (set_send_fc (fst (fc_try_send_data (T := E) n (send_fc t))) t)
  | OtherCommands c => Some (push_command c t)
  | OtherLeaves => Some (stop_listening t)
  end.
Fixpoint other_steps (l : list Other) (t : WtTask) : option WtTask :=
  match l with [] => Some t | o :: l => t ← other_step o t; other_steps l t end.
Definition await : turn unit := fun t =>
  match meanwhile t with
  | [] => Some (t, Some tt)
  | l :: rest => t ← other_steps l (set_meanwhile rest t); Some (t, Some tt)
  end.

(** [event_tx.send(..).await]: an error when the receiver is gone. A full channel is waited for. *)
Definition put_event (e : WebTransportEvent) : turn bool := fun t =>
  if listening t then Some (push_delivered e t, Some true) else Some (t, Some false).
Definition send_event (e : WebTransportEvent) : turn bool := await;; put_event e.
(** [if event_tx.send(..).await.is_err() { return; }]. *)
Definition deliver (e : WebTransportEvent) : turn unit :=
  sent ← send_event e; if (sent : bool) then mret tt else return_early.
(** [let _ = event_tx.send(..).await]. *)
Definition try_deliver (e : WebTransportEvent) : turn unit := send_event e;; mret tt.
(** A panic in what it is given. *)
Definition some_or_panic {A} (o : option A) : turn A := fun t => x ← o; Some (t, Some x).

(** [apply_flow_control_capsule(..).is_err()]. *)
Definition apply_flow_control_capsule (c : Capsule) : turn bool := fun t =>
  let '(f, r) := fc_process_capsule c (send_fc t) in Some (set_send_fc f t, Some (negb (is_ok r))).

(** ** Telling the sending task *)
Definition send_command (c : ConnectCommand) : turn unit := update_wt (push_command c).
Definition send_capsule_and_finish (c : Capsule) : turn unit :=
  buf ← some_or_panic (encode_as_data_frame c []); send_command (CmdSendAndFinish buf).
Definition terminate_with_flow_control_error : turn unit :=
  c ← some_or_panic flow_control_error_capsule; send_capsule_and_finish c.
Definition deliver_flow_control_error (session_id : Z) : turn unit :=
  e ← some_or_panic (flow_control_error_session_closed session_id); try_deliver e.

Definition is_session_closed (e : WebTransportEvent) : bool :=
  match e with WtSessionClosed _ _ _ _ _ => true | _ => false end.

(** ** The receiving task *)

(** What had arrived during the handshake: capsules, then events. *)
Fixpoint pending_capsules (session_id : Z) (l : list Capsule) : turn unit :=
  match l with
  | [] => mret tt
  | c :: l =>
    violated ← apply_flow_control_capsule c;
    if (violated : bool) then
      terminate_with_flow_control_error;; deliver_flow_control_error session_id;; return_early
    else pending_capsules session_id l
  end.
(** The result says whether a [SessionClosed] has been delivered. *)
Fixpoint pending_events (l : list WebTransportEvent) (delivered : bool) : turn bool :=
  match l with
  | [] => mret delivered
  | e :: l => deliver e;; pending_events l (delivered || is_session_closed e)
  end.

(** What is received, and what the connection makes of it; whether it was the end. *)
Definition connect_received (session_id : Z) (r : result E (option bytes)) : turn (result (S2nError E) (list Event) * bool) :=
  match r with
  | Ok (Some data) => res ← call (process_stream_data session_id data false); mret (res, false)
  | Ok None => res ← call (process_stream_data session_id [] true); mret (res, true)
  | Err _ => res ← call (connect_stream_reset session_id (wt_error_code SessionGone)); mret (res, true)
  end.

(** The events left after an error, up to the first [SessionClosed]. *)
Fixpoint residual_events (l : list Event) : turn bool :=
  match l with
  | [] => mret false
  | EvWebTransport wt :: l =>
    if is_forwardable_wt_event wt then
      deliver wt;; if is_session_closed wt then mret true else residual_events l
    else residual_events l
  | _ :: l => residual_events l
  end.
Definition is_message_error (e : S2nError E) : bool :=
  match e with Http3 (StreamError MessageError) => true | _ => false end.
Definition connect_failed (session_id : Z) (e : S2nError E) (delivered : bool) : turn unit :=
  (if is_message_error e then send_command (CmdReset (error_code MessageError)) else mret tt);;
  residual ← call state_drain_events;
  told ← residual_events (match residual with Ok l => l | Err _ => [] end);
  if negb told && negb delivered then try_deliver (synthesized_session_closed session_id) else mret tt.

(** What a turn remembers: whether a [SessionClosed] was delivered, and whether a capsule
    was refused. *)
Definition connect_event (session_id : Z) (x : bool * bool) (e : Event) : turn (bool * bool) :=
  let '(delivered, violated) := x in
  match e with
  | EvWebTransport (WtCapsule capsule_session_id capsule) =>
    if capsule_session_id =? session_id then
      refused ← apply_flow_control_capsule capsule; mret (delivered, violated || refused)
    else mret x
  | EvWebTransport wt =>
    if is_forwardable_wt_event wt then deliver wt;; mret (delivered || is_session_closed wt, violated) else mret x
  | _ => mret x
  end.
Fixpoint connect_events (session_id : Z) (x : bool * bool) (l : list Event) : turn (bool * bool) :=
  match l with
  | [] => mret x
  | e :: l => x ← connect_event session_id x e; connect_events session_id x l
  end.

Definition connect_turn (session_id : Z) (r : result E (option bytes)) (delivered : bool) : turn bool :=
  await;;
  '(result, terminated) ← connect_received session_id r;
  match result with
  | Err e => connect_failed session_id e delivered;; return_early
  | Ok l =>
    '(delivered, violated) ← connect_events session_id (delivered, false) l;
    if (violated : bool) then
      terminate_with_flow_control_error;;
      (if delivered : bool then mret tt else deliver_flow_control_error session_id);;
      return_early
    else if (terminated : bool) then return_early else mret delivered
  end.
Fixpoint connect_loop (session_id : Z) (received : list (result E (option bytes))) (delivered : bool) : turn unit :=
  match received with
  | [] => mret tt
  | r :: received => delivered ← connect_turn session_id r delivered; connect_loop session_id received delivered
  end.

Definition run_connect_recv_task_inner (session_id : Z) (capsules : list Capsule) (events : list WebTransportEvent)
    (received : list (result E (option bytes))) : turn unit :=
  pending_capsules session_id capsules;;
  delivered ← pending_events events false;
  connect_loop session_id received delivered.
(** The result says whether the task has come to its end; if not it waits for more. *)
Definition run_connect_recv_task (session_id : Z) (capsules : list Capsule) (events : list WebTransportEvent)
    (received : list (result E (option bytes))) (t : WtTask) : option (WtTask * bool) :=
  match run_connect_recv_task_inner session_id capsules events received t with
  | Some (t, None) => Some (push_command CmdFinish t, true)
  | Some (t, Some _) => Some (t, false)
  | None => None
  end.
(** The client's and the server's are written twice, and are the same. *)
Definition run_client_connect_recv_task := run_connect_recv_task.
Definition run_server_connect_recv_task := run_connect_recv_task.
Definition connect_recv_task (r : Role) := match r with Client => run_client_connect_recv_task | Server => run_server_connect_recv_task end.

(** ** The sending task: the actions on the stream, and what each [close] is told *)
Context (quic : list StreamAction -> StreamAction -> result E unit).
Fixpoint run_connect_send_task (commands : list ConnectCommand) (performed : list StreamAction)
    : option (list StreamAction * list (result (S2nError E) unit)) :=
  match commands with
  | [] => Some (performed, [])
  | CmdSendAndFinish data :: commands =>
    let sent := performed ++ [ActSend data] in
    let '(performed, result) := match quic performed (ActSend data) with
      | Ok _ => (sent ++ [ActFinish], map_err Transport (quic sent ActFinish))
      | Err e => (sent, Err (Transport e))
      end in
    '(performed, results) ← run_connect_send_task commands performed; Some (performed, result :: results)
  | CmdFinish :: commands => run_connect_send_task commands (performed ++ [ActFinish])
  | CmdReset error_code :: commands =>
    if error_code <=? VARINT_MAX then run_connect_send_task commands (performed ++ [ActReset error_code]) else None
  end.

(** ** [WtSession]: what [close] and [drop] tell the sending task *)
Definition session_close (code : Z) (reason : bytes) : option ConnectCommand :=
  buf ← encode_as_data_frame (CloseSession code reason) []; Some (CmdSendAndFinish buf).
(** The receiving task is aborted, so that nothing is received any more. *)
Definition session_drop : list Other := [OtherCommands CmdFinish; OtherLeaves].
End connect.

(** ** What the connection does in between *)

(** The queue is empty after it has been handed out. *)
Lemma drain_empties c c' l : drain_events c = Some (c', Ok l) -> events c' = [].
Proof. intros H. destruct (after_retry _ _ _ _ H) as [(e & [=] & _)|(c1 & _ & _ & _ & -> & _)]. done. Qed.

(** A session is over once the stream of its CONNECT request is reset. *)
Lemma terminated_not_live id code close msg c c' : terminate_wt_session_with id code close msg c = Some (c', Ok ()) -> live id c' = false.
Proof.
  unfold terminate_wt_session_with. rewrite gets_ok. unfold live. destruct (wt_sessions c !! id) as [s|] eqn:Es; [|by intros [= <-]; rewrite Es].
  case_bool_decide as Hc; [intros [= <-]; rewrite Es; cbn; unfold live_state; by rewrite Hc|]. rewrite get_ok.
  destruct (mapM _ _) as [resets|]; [|done]. rewrite (expect_ok _ _ _ resets eq_refl), !modify_ok. intros [= <-].
  cbn. by rewrite lookup_delete_eq.
Qed.
Lemma clear_blocked_sessions id c : wt_sessions (clear_qpack_blocked id c) = wt_sessions c.
Proof. unfold clear_qpack_blocked. by repeat case_match. Qed.
Lemma cancellation_sessions id c c' r : send_stream_cancellation_if_needed id c = Some (c', r) -> wt_sessions c' = wt_sessions c.
Proof.
  unfold send_stream_cancellation_if_needed. rewrite gets_ok. case_match; [by intros [= <- _]|].
  unfold expect, mbind at 1, action_bind. destruct (from_stream_id id) as [kind|]; [|done]. cbn [mbind option_bind]. unfold modify.
  intros [= <- _]. by repeat case_match.
Qed.
Lemma remove_done_live id j c : live j (remove_stream_if_done id c) = live j c.
Proof. unfold remove_stream_if_done. by case_match. Qed.
Lemma reset_ends_session id code n c c' : live id c = true -> stream_reset id code n c = Some (c', Ok ()) -> live id c' = false.
Proof.
  intros Hl. unfold stream_reset, remember_connection_error. intros E.
  match type of E with match ?m with _ => _ end = _ => destruct m as [[c1 [[]|e]]|] eqn:E1 end; [|by destruct e|done]. injection E as <-.
  apply check_error_inv in E1 as [_ E1]. rewrite get_ok in E1. apply throw_if_inv in E1 as [_ E1]. rewrite !modify_ok in E1.
  apply bind_inv in E1 as (c2 & [] & E2 & E1). apply bind_inv in E1 as (c3 & wt & E3 & E1).
  assert (live id c3 = false) as H3.
  { apply cancellation_sessions in E2. rewrite clear_blocked_sessions in E2. cbn in E2.
    unfold handle_wt_stream_reset in E3. rewrite get_ok in E3. unfold has_key in E3. rewrite E2 in E3. unfold live in Hl.
    destruct (wt_sessions c !! id) as [s|] eqn:Es; [|done].
    apply bind_inv in E3 as (c4 & [] & E4 & E3). injection E3 as <- _. by eapply terminated_not_live. }
  apply bind_inv in E1 as (c4 & [] & E4 & E1). injection E1 as <-. rewrite remove_done_live. by destruct wt; injection E4 as <-.
Qed.

(** Taking the events after a call. *)
Lemma state_drain_empties {T} s s' l : state_drain_events (T := T) s = Some (s', Ok l) ->
  events (h3_conn s') = [] /\ hands l (h3_conn s) (h3_conn s').
Proof.
  unfold state_drain_events, on_conn. destruct (drain_events (h3_conn s)) as [[c [l'|e]]|] eqn:E; [|done|done]. intros [= <- <-]. cbn.
  split; [by eapply drain_empties|]. pose proof (drain_grows (h3_conn s) c (Ok (OutEvents l'))) as H. cbn [handed_out flat_map] in H.
  rewrite app_nil_r in H. apply H. cbn [run_op]. unfold returning, mbind, action_bind. by rewrite E.
Qed.
Lemma then_drain_empties {T A} (m : state_action (T := T) A) s s' l : (m;; state_drain_events) s = Some (s', Ok l) ->
  exists s1 a, m s = Some (s1, Ok a) /\ events (h3_conn s') = [] /\ hands l (h3_conn s1) (h3_conn s').
Proof. unfold mbind, state_bind. destruct (m s) as [[s1 [a|e]]|]; [|done|done]. intros H. exists s1, a. split; [done|by apply (state_drain_empties (T := T))]. Qed.
(** The reset of a session's stream is told. *)
Lemma reset_tells {T} id code s s' l : opened id (h3_conn s) -> live id (h3_conn s) = true ->
  connect_stream_reset (T := T) id code s = Some (s', Ok l) -> existsb (says_closed id) l = true.
Proof.
  intros Ho Hl. unfold connect_stream_reset, state_stream_reset. intros (s1 & a & E1 & Hq & new & Hn & Hch)%then_drain_empties.
  unfold stream_reset_only, on_conn in E1. destruct (stream_reset id code 0 (h3_conn s)) as [[c [[]|e]]|] eqn:E; [|done|done].
  injection E1 as <- <-. cbn in Hn. rewrite Hq, app_nil_r in Hn. destruct (stream_reset_grows _ _ _ _ _ _ E) as [(new1 & Hn1 & Hch1) _].
  destruct (ch_live _ _ _ Hch1 id Ho Hl) as [Hl1|Ht]; [by rewrite (reset_ends_session _ _ _ _ _ Hl E) in Hl1|].
  rewrite Hn, Hn1, !existsb_app, Ht. by rewrite orb_true_r.
Qed.

(** The application never goes beyond what the peer allows. *)
Lemma open_within {T} b f : within_limits f -> within_limits (fst (fc_try_open_stream (T := T) b f)).
Proof.
  intros Hw. unfold fc_try_open_stream. destruct (fc_enabled f) eqn:He; cbn [negb fst].
  - destruct (Z.leb_spec (max_streams b (fc_limits f)) (fc_opened b f)); [done|by apply within_opened].
  - apply within_disabled. by destruct b.
Qed.
Lemma send_within {T} n f : 0 <= n -> within_limits f -> within_limits (fst (fc_try_send_data (T := T) n f)).
Proof.
  intros Hn Hw. unfold fc_try_send_data. destruct (fc_enabled f) eqn:He; cbn [negb fst]; [|by apply within_disabled].
  destruct (Z.ltb_spec (saturating_sub (max_data (fc_limits f)) (fc_data_sent f)) n); [done|by apply within_sent].
Qed.
Lemma capsule_within c f : within_limits f -> within_limits (fst (fc_process_capsule c f)).
Proof.
  intros Hw. unfold fc_process_capsule. destruct (fc_enabled f) eqn:He; cbn [negb fst]; [|done]. destruct (Hw He) as [Ho Hs].
  destruct c as [| |m|b m|m|b m|]; try done; unfold validate_max_data, validate_max_streams.
  - destruct (Z.ltb_spec VARINT_MAX m); [done|]. destruct (Z.leb_spec m (max_data (fc_limits f))); [done|]. cbn [fst].
    apply within_new_limits; [done|..].
    + intros b. specialize (Ho b). destruct (fc_limits f), b; cbn in *; lia.
    + destruct (fc_limits f). cbn in *. unfold VARINT_MAX, U64_MAX in *. lia.
  - destruct (Z.ltb_spec MAX_STREAMS_LIMIT m); [done|]. destruct (Z.leb_spec m (max_streams b (fc_limits f))); [done|]. cbn [fst].
    apply within_new_limits; [done|..].
    + intros b'. specialize (Ho b'). unfold MAX_STREAMS_LIMIT, U64_MAX in *. destruct (fc_limits f), b, b'; cbn in *; lia.
    + destruct (fc_limits f), b; cbn in *; lia.
  - by case_match.
Qed.

(** ** The task does not panic, and what it tells *)
Section safety.
Context {E : Type} (r : Role) (settings : Settings) (Hset : settings_ok settings).

Definition wt_conn (t : WtTask) : Connection := h3_conn (wt_state t).

(** A stream can be reset with the code. *)
Definition command_ok (c : ConnectCommand) : Prop := match c with CmdReset code => code <= VARINT_MAX | _ => True end.
(** What the others do is what QUIC and the application can do. *)
Definition other_ok (o : Other) : Prop :=
  match o with
  | OtherUni id a => varint_ok id /\ match a with UniData data => bytes_ok data | _ => True end
  | OtherFeed id data _ => varint_ok id /\ bytes_ok data
  | OtherSends n => 0 <= n
  | OtherCommands c => command_ok c
  | OtherOpens _ | OtherLeaves => True
  end.

Record wt_ok (t : WtTask) : Prop := {
  wk_conn : reachable r settings (wt_conn t);
  wk_limits : within_limits (send_fc t);
  wk_commands : Forall command_ok (connect_tx t);
  wk_meanwhile : Forall (Forall other_ok) (meanwhile t) }.

Lemma command_wt_ok c t : wt_ok t -> command_ok c -> wt_ok (push_command c t).
Proof. intros [H1 H2 H3 H4] Hc. split; try done. apply Forall_app. by split; [|constructor]. Qed.

(** [seen] was taken out of the queue, [out] went to the application. *)
Record passes (seen : list Event) (out : list WebTransportEvent) (t t' : WtTask) : Prop := {
  ps_hands : hands seen (wt_conn t) (wt_conn t');
  ps_out : event_tx t' = event_tx t ++ out;
  ps_listening : listening t' = true -> listening t = true;
  ps_commands : exists cs, connect_tx t' = connect_tx t ++ cs }.

Lemma passes_same t t' : wt_conn t' = wt_conn t -> event_tx t' = event_tx t -> listening t' = listening t ->
  connect_tx t' = connect_tx t -> passes [] [] t t'.
Proof.
  intros H1 H2 H3 H4. split; [unfold hands; rewrite H1; apply (reflexivity (R := grows))|by rewrite app_nil_r|by rewrite H3|].
  exists []. by rewrite app_nil_r.
Qed.
Lemma passes_trans a b oa ob t t1 t2 : passes a oa t t1 -> passes b ob t1 t2 -> passes (a ++ b) (oa ++ ob) t t2.
Proof.
  intros [H1 H2 H3 [c1 H4]] [G1 G2 G3 [c2 G4]]. split; [by eapply hands_trans|by rewrite G2, H2, app_assoc|auto|].
  exists (c1 ++ c2). by rewrite G4, H4, app_assoc.
Qed.

(** [m] comes to an end without a panic; [Q] is about its result, what it took and what it told. *)
Definition turns {A} (m : turn A) (t : WtTask) (Q : option A -> list Event -> list WebTransportEvent -> WtTask -> Prop) : Prop :=
  exists t' o seen out, m t = Some (t', o) /\ wt_ok t' /\ passes seen out t t' /\ Q o seen out t'.

Lemma turns_bind {A B} (m : turn A) (f : A -> turn B) t Q R : turns m t Q ->
  (forall a seen out t', wt_ok t' -> passes seen out t t' -> Q (Some a) seen out t' ->
    turns (f a) t' (fun o seen2 out2 => R o (seen ++ seen2) (out ++ out2))) ->
  (forall seen out t', passes seen out t t' -> Q None seen out t' -> R None seen out t') -> turns (m ≫= f) t R.
Proof.
  intros (t1 & o & seen & out & Em & Ht1 & Hp & HQ) Hf Hn. destruct o as [a|].
  - destruct (Hf a seen out t1 Ht1 Hp HQ) as (t2 & o & s2 & o2 & E2 & Ht2 & Hp2 & HR). exists t2, o, (seen ++ s2), (out ++ o2).
    split; [unfold mbind, turn_bind; by rewrite Em|]. split_and!; [done|by eapply passes_trans|done].
  - exists t1, None, seen, out. split; [unfold mbind, turn_bind; by rewrite Em|]. split_and!; [done..|by apply Hn].
Qed.
Lemma turns_ret {A} (a : A) t (Q : option A -> list Event -> list WebTransportEvent -> WtTask -> Prop) : wt_ok t ->
  Q (Some a) [] [] t -> turns (mret a) t Q.
Proof. intros Ht HQ. exists t, (Some a), [], []. split_and!; [done..|by apply passes_same|done]. Qed.
Lemma turns_return {A} t (Q : option A -> list Event -> list WebTransportEvent -> WtTask -> Prop) : wt_ok t ->
  Q None [] [] t -> turns return_early t Q.
Proof. intros Ht HQ. exists t, None, [], []. split_and!; [done..|by apply passes_same|done]. Qed.
Lemma turns_mono {A} (m : turn A) t (Q R : option A -> list Event -> list WebTransportEvent -> WtTask -> Prop) :
  turns m t Q -> (forall o seen out t', passes seen out t t' -> Q o seen out t' -> R o seen out t') -> turns m t R.
Proof. intros (t' & o & seen & out & Em & Ht & Hp & HQ) HR. exists t', o, seen, out. split_and!; try done. by apply HR. Qed.

(** *** What the others do *)
Lemma one_op_fine op c : op_ok op c -> ops_ok [op] c.
Proof using. intros Hop. split; [done|]. by destruct (run_op op c) as [[c' res]|]. Qed.
Lemma state_call {A} (ev : A -> list Event) (m : state_action (T := E) A) t ops : wt_ok t -> ops_ok ops (wt_conn t) ->
  follows ev m (wt_state t) ops ->
  exists s res, m (wt_state t) = Some (s, res) /\ wt_ok (set_wt_state s t) /\
    passes (match res with Ok a => ev a | Err _ => [] end) [] t (set_wt_state s t).
Proof using Hset.
  intros [Hc Hl Hcs Hm] Hok Hf. destruct (follows_safe ev m r settings (wt_state t) ops Hset Hc Hok Hf) as (s & res & Em & Hr & Hh).
  exists s, res. split; [done|]. split; [by split|]. split; [done|by rewrite app_nil_r|done|]. exists []. by rewrite app_nil_r.
Qed.
Lemma other_step_ok o t : wt_ok t -> other_ok o ->
  exists t', other_step (E := E) o t = Some t' /\ wt_ok t' /\ passes [] [] t t' /\ meanwhile t' = meanwhile t.
Proof using Hset.
  intros Ht Ho. destruct o as [id a|id data fin|b|n|c|]; cbn [other_step].
  - destruct Ho as [Hid Ha]. destruct (state_call (fun _ => []) (apply_uni_recv_action id a) t
      (calls (SoApplyUniRecvAction id a) (wt_state t)) Ht)
      as (s & res & -> & Hok & Hp); [|apply follows_uni|].
    { destruct a; cbn [calls]; try done; apply one_op_fine; split; try done; constructor. }
    eexists. split; [done|]. split_and!; try done. by destruct res.
  - destruct Ho as [Hid Hb]. destruct (state_call (fun _ => []) (feed_stream_only id data fin) t [OpFeedStream id data fin] Ht)
      as (s & res & -> & Hok & Hp); [by apply one_op_fine|apply follows_feed|].
    eexists. split; [done|]. split_and!; try done. by destruct res.
  - eexists. split; [done|]. destruct Ht. split_and!; [|by apply passes_same|done]. split; [done| |done|done]. by apply open_within.
  - eexists. split; [done|]. destruct Ht. split_and!; [|by apply passes_same|done]. split; [done| |done|done]. by apply send_within.
  - eexists. split; [done|]. split_and!; [by apply command_wt_ok| |done]. split; [apply (reflexivity (R := grows))|by rewrite app_nil_r|done|by exists [c]].
  - eexists. split; [done|]. destruct Ht. split_and!; [by split| |done]. split; [apply (reflexivity (R := grows))|by rewrite app_nil_r|done|].
    exists []. by rewrite app_nil_r.
Qed.
Lemma other_steps_ok l : forall t, wt_ok t -> Forall other_ok l ->
  exists t', other_steps (E := E) l t = Some t' /\ wt_ok t' /\ passes [] [] t t'.
Proof using Hset.
  induction l as [|o l IH]; intros t Ht Hl; cbn [other_steps]; [exists t; split_and!; [done..|by apply passes_same]|].
  inversion Hl as [|? ? Ho Hl']; subst. destruct (other_step_ok o t Ht Ho) as (t1 & -> & Ht1 & Hp1 & _). cbn [mbind option_bind].
  destruct (IH t1 Ht1 Hl') as (t2 & -> & Ht2 & Hp2). exists t2. split_and!; [done..|]. by apply (passes_trans [] [] [] [] _ t1).
Qed.
Lemma await_turns t : wt_ok t -> turns (await (E := E)) t (fun o seen out _ => o = Some tt /\ seen = [] /\ out = []).
Proof using Hset.
  intros Ht. unfold turns, await. destruct (meanwhile t) as [|l rest] eqn:Em; [by exists t, (Some tt), [], []; split_and!; [done..|by apply passes_same|done|done|done]|].
  pose proof Ht as [Hc Hl Hcs Hm]. rewrite Em in Hm. inversion Hm as [|? ? H1 H2]; subst.
  destruct (other_steps_ok l (set_meanwhile rest t)) as (t1 & -> & Ht1 & Hp1); [by split|done|].
  exists t1, (Some tt), [], []. split_and!; try done. apply (passes_trans [] [] [] [] _ (set_meanwhile rest t)); [by apply passes_same|done].
Qed.

(** *** The pieces of the receiving task *)
Lemma call_turns {A} (ev : A -> list Event) (m : state_action (T := E) A) t ops : wt_ok t -> ops_ok ops (wt_conn t) ->
  follows ev m (wt_state t) ops ->
  turns (call m) t (fun o seen out t' => exists res s', m (wt_state t) = Some (s', res) /\ wt_state t' = s' /\ o = Some res /\
    seen = (match res with Ok a => ev a | Err _ => [] end) /\ out = [] /\ listening t' = listening t).
Proof using Hset.
  intros Ht Hok Hf. destruct (state_call ev m t ops Ht Hok Hf) as (s & res & Em & Hk & Hp).
  exists (set_wt_state s t), (Some res). eexists _, _. unfold call. rewrite Em. split_and!; [done|done|exact Hp|]. by exists res, s.
Qed.
Lemma update_turns f t : wt_ok (f t) -> passes [] [] t (f t) ->
  turns (update_wt f) t (fun o seen out t' => o = Some tt /\ seen = [] /\ out = [] /\ t' = f t).
Proof using. intros Hk Hp. by exists (f t), (Some tt), [], []. Qed.
Lemma command_turns c t : wt_ok t -> command_ok c -> turns (send_command c) t (fun o seen out t' => o = Some tt /\ seen = [] /\ out = [] /\ t' = push_command c t).
Proof using.
  intros Ht Hc. apply update_turns; [by apply command_wt_ok|]. split; [apply (reflexivity (R := grows))|by rewrite app_nil_r|done|by exists [c]].
Qed.
Lemma panic_turns {A} (o : option A) x t : o = Some x -> wt_ok t ->
  turns (some_or_panic o) t (fun o seen out t' => o = Some x /\ seen = [] /\ out = [] /\ t' = t).
Proof using. intros -> Ht. exists t, (Some x), [], []. split_and!; try done. by apply passes_same. Qed.

Lemma send_event_turns e t : wt_ok t -> turns (send_event (E := E) e) t (fun o seen out t' => seen = [] /\
  ((o = Some true /\ out = [e] /\ listening t' = true) \/ (o = Some false /\ out = [] /\ listening t' = false))).
Proof using Hset.
  intros Ht. eapply turns_bind; [by apply await_turns| |by intros ? ? ? _ (? & _)].
  intros a seen out t1 Ht1 Hp (_ & -> & ->). unfold turns, put_event. destruct (listening t1) eqn:El.
  - exists (push_delivered e t1), (Some true), [], [e]. destruct Ht1. split_and!; [done|by split| |done|by left].
    split; [apply (reflexivity (R := grows))|done|done|exists []; by rewrite app_nil_r].
  - exists t1, (Some false), [], []. split_and!; [done..|by apply passes_same|done|by right].
Qed.
Lemma deliver_turns e t : wt_ok t -> turns (deliver (E := E) e) t (fun o seen out t' => seen = [] /\
  match o with Some _ => out = [e] /\ listening t' = true | None => out = [] /\ listening t' = false end).
Proof using Hset.
  intros Ht. eapply turns_bind; [by apply send_event_turns| |by intros ? ? ? _ (? & [[? _]|[? _]])].
  intros a seen out t1 Ht1 Hp (-> & [([= ->] & -> & Hl)|([= ->] & -> & Hl)]); [by apply turns_ret|by apply turns_return].
Qed.
Lemma try_deliver_turns e t : wt_ok t -> turns (try_deliver (E := E) e) t (fun o seen out t' => o = Some tt /\ seen = [] /\
  (listening t' = true -> out = [e])).
Proof using Hset.
  intros Ht. eapply turns_bind; [by apply send_event_turns| |by intros ? ? ? _ (? & [[? _]|[? _]])].
  intros a seen out t1 Ht1 Hp (-> & [([= ->] & -> & Hl)|([= ->] & -> & Hl)]); apply turns_ret; try done. by rewrite Hl.
Qed.
Lemma apply_turns c t : wt_ok t -> turns (apply_flow_control_capsule c) t (fun o seen out t' => (exists b, o = Some b) /\ seen = [] /\
  out = [] /\ listening t' = listening t).
Proof using.
  intros [H1 H2 H3 H4]. unfold turns, apply_flow_control_capsule. pose proof (capsule_within c _ H2) as Hw.
  destruct (fc_process_capsule c (send_fc t)) as [f x]. eexists _, _, [], []. split; [done|]. split; [by split|]. split; [by apply passes_same|].
  split_and!; [by eexists|done..].
Qed.

(** What is told of a refused capsule. *)
Definition close_flow_control : Capsule := CloseSession 0x045d4487 [].
Definition close_flow_control_frame : bytes := [0x00; 0x07; 0x68; 0x43; 0x04; 0x04; 0x5d; 0x44; 0x87].
Definition flow_control_closed (session_id : Z) : WebTransportEvent :=
  WtSessionClosed session_id [] (wt_error_code FlowControlError) 0x045d4487 [].
Lemma terminate_turns t : wt_ok t -> turns terminate_with_flow_control_error t
  (fun o seen out t' => o = Some tt /\ seen = [] /\ out = [] /\ t' = push_command (CmdSendAndFinish close_flow_control_frame) t).
Proof using.
  intros Ht. eapply turns_bind; [by apply (panic_turns _ close_flow_control)| |by intros ? ? ? _ (? & _)].
  intros ? ? ? t1 Ht1 _ ([= ->] & -> & -> & ->). eapply turns_bind; [by apply (panic_turns _ close_flow_control_frame)| |by intros ? ? ? _ (? & _)].
  intros ? ? ? t1 _ _ ([= ->] & -> & -> & ->). by apply command_turns.
Qed.
Lemma flow_control_closed_turns session_id t : wt_ok t -> turns (deliver_flow_control_error (E := E) session_id) t
  (fun o seen out t' => o = Some tt /\ seen = [] /\ (listening t' = true -> out = [flow_control_closed session_id])).
Proof using Hset.
  intros Ht. eapply turns_bind; [by apply (panic_turns _ (flow_control_closed session_id))| |by intros ? ? ? _ (? & _)].
  intros ? ? ? t1 Ht1 _ ([= ->] & -> & -> & ->). by apply try_deliver_turns.
Qed.

Definition tells_end (out : list WebTransportEvent) : Prop := existsb is_session_closed out = true.
Lemma tells_end_app a b : tells_end (a ++ b) <-> tells_end a \/ tells_end b.
Proof using. unfold tells_end. by rewrite existsb_app, orb_true_iff. Qed.

Lemma pending_capsules_turns session_id l : forall t, wt_ok t -> turns (pending_capsules (E := E) session_id l) t (fun o seen out t' =>
  match o with Some _ => seen = [] /\ out = [] | None => listening t' = true -> tells_end out end).
Proof using Hset.
  induction l as [|c l IH]; intros t Ht; cbn [pending_capsules]; [by apply turns_ret|].
  eapply turns_bind; [by apply apply_turns| |by intros ? ? ? _ ((? & ?) & _)].
  intros violated ? ? t1 Ht1 _ (_ & -> & -> & _). destruct violated; [|eapply turns_mono; [by apply IH|by intros []]].
  eapply turns_bind; [by apply terminate_turns| |by intros ? ? ? _ (? & _)]. intros ? ? ? t2 Ht2 _ (_ & -> & -> & _).
  eapply turns_bind; [by apply flow_control_closed_turns| |by intros ? ? ? _ (? & _)]. intros ? ? out t3 Ht3 _ (_ & -> & Ho).
  apply turns_return; [done|]. intros Hl. by rewrite (Ho Hl).
Qed.
Lemma pending_events_turns l : forall delivered t, wt_ok t -> turns (pending_events (E := E) l delivered) t (fun o seen out t' =>
  match o with Some d => seen = [] /\ out = l /\ d = delivered || existsb is_session_closed l | None => listening t' = false end).
Proof using Hset.
  induction l as [|e l IH]; intros d t Ht; cbn [pending_events]; [apply turns_ret; [done|]; by rewrite orb_false_r|].
  eapply turns_bind; [by apply deliver_turns| |by intros ? ? ? _ (? & ? & ?)].
  intros ? ? ? t1 Ht1 _ (-> & -> & Hl). eapply turns_mono; [by apply IH|]. intros [d'|]; [|done]. intros ? ? ? _ (-> & -> & ->).
  split_and!; [done..|]. cbn. by rewrite orb_assoc.
Qed.

(** What the application is told of a list of events. *)
Lemma forwarded_app a b : forwarded (a ++ b) = forwarded a ++ forwarded b.
Proof using. apply flat_map_app. Qed.
Lemma told_forwarded id l : existsb (says_closed id) l = true -> tells_end (forwarded l).
Proof using.
  induction l as [|e l IH]; [done|]. cbn [existsb forwarded flat_map]. rewrite orb_true_iff. intros [He|Hl]; apply tells_end_app; [left|right; auto].
  by destruct e as [| | | | | | | | |[]]; try done.
Qed.

Lemma connect_events_turns session_id l : forall x t, wt_ok t -> turns (connect_events (E := E) session_id x l) t (fun o seen out t' =>
  seen = [] /\ match o with Some x' => out = forwarded l /\ fst x' = fst x || existsb is_session_closed out | None => listening t' = false end).
Proof using Hset.
  induction l as [|e l IH]; intros x t Ht; cbn [connect_events]; [apply turns_ret; [done|]; split_and!; try done; by rewrite orb_false_r|].
  eapply (turns_bind _ _ _ (fun o seen out t' => seen = [] /\ match o with
    | Some x' => out = forwarded [e] /\ fst x' = fst x || existsb is_session_closed out | None => listening t' = false end)).
  - assert (forwarded [e] = [] -> turns (mret x) t (fun o seen out t' => seen = [] /\ match o with
      | Some x' => out = forwarded [e] /\ fst x' = fst x || existsb is_session_closed out | None => listening t' = false end)) as Hret.
    { intros He. apply turns_ret; [done|]. rewrite He. split_and!; try done. by rewrite orb_false_r. }
    destruct x as [d v]. cbn [connect_event]. destruct e as [| | | | | | | | |wt]; try by apply Hret.
    assert (match wt with WtCapsule _ _ => True | _ => turns (if is_forwardable_wt_event wt then deliver (E := E) wt;; mret (d || is_session_closed wt, v) else mret (d, v)) t
      (fun o seen out t' => seen = [] /\ match o with
      | Some x' => out = forwarded [EvWebTransport wt] /\ fst x' = d || existsb is_session_closed out | None => listening t' = false end) end) as Hd.
    { destruct (is_forwardable_wt_event wt) eqn:Ef; [|by destruct wt; try done; apply Hret].
      assert (forwarded [EvWebTransport wt] = [wt]) as -> by (cbn; by rewrite Ef).
      destruct wt; try done; (eapply turns_bind; [by apply deliver_turns| |by intros ? ? ? _ (? & ? & ?)];
        intros ? ? ? t1 Ht1 _ (-> & -> & Hl); apply turns_ret; [done|]; cbn; split_and!; try done; by rewrite ?orb_false_r). }
    destruct wt; try exact Hd. destruct (_ =? _); [|by apply Hret].
    eapply turns_bind; [by apply apply_turns| |by intros ? ? ? _ ((? & ?) & _)]. intros ? ? ? t1 Ht1 _ (_ & -> & -> & _).
    apply turns_ret; [done|]. cbn. split_and!; try done. by rewrite orb_false_r.
  - intros x1 ? ? t1 Ht1 _ (-> & -> & Hx). eapply turns_mono; [by apply IH|]. intros o seen out t2 _ (-> & Ho). split; [done|].
    destruct o as [x2|]; [|done]. destruct Ho as [-> Hx2]. change (e :: l) with ([e] ++ l). rewrite forwarded_app. split; [done|].
    by rewrite Hx2, Hx, existsb_app, orb_assoc.
  - by intros ? ? ? _ (-> & ?).
Qed.

(** *** A turn *)
Section turn.
Context (session_id : Z) (Hid : varint_ok session_id).

Definition ended (r : result E (option bytes)) : bool := match r with Ok (Some _) => false | _ => true end.
Lemma received_turns received t : wt_ok t -> recv_ok received -> opened session_id (wt_conn t) ->
  turns (connect_received session_id received) t (fun o seen out t' => exists res, o = Some (res, ended received) /\ out = [] /\
    seen = match res with Ok l => l | Err _ => [] end /\
    match res with
    | Ok l => events (wt_conn t') = [] /\
        match received with Err _ => live session_id (wt_conn t) = true -> existsb (says_closed session_id) l = true | _ => True end
    | Err _ => True
    end).
Proof using Hset Hid.
  intros Ht Hr Ho.
  assert (forall data fin, bytes_ok data -> turns (call (process_stream_data (T := E) session_id data fin)) t (fun o seen out t' => exists res,
    o = Some res /\ out = [] /\ seen = match res with Ok l => l | Err _ => [] end /\
    match res with Ok l => events (wt_conn t') = [] | Err _ => True end)) as Hdata.
  { intros data fin Hb. eapply turns_mono.
    { apply (call_turns (fun l => l) _ t [OpFeedStream session_id data fin; OpDrainEvents]); [done| |apply follows_then_drain, follows_feed].
      split; [done|]. destruct (run_op _ _) as [[c' res]|]; [by apply one_op_fine|done]. }
    intros o seen out t' _ (res & s' & Em & Es & -> & -> & -> & _). exists res. split_and!; try done. destruct res as [l|]; [|done].
    apply then_drain_empties in Em as (s1 & a & _ & Hq & _). unfold wt_conn. by rewrite Es. }
  destruct received as [[data|]|e]; cbn [connect_received].
  - eapply turns_bind; [by apply Hdata| |by intros ? ? ? _ (? & [=] & _)].
    intros ? ? ? t1 Ht1 _ (res & [= ->] & -> & -> & H). apply turns_ret; [done|]. exists res. split_and!; [done..|by rewrite app_nil_r|by destruct res].
  - eapply turns_bind; [by apply Hdata; constructor| |by intros ? ? ? _ (? & [=] & _)].
    intros ? ? ? t1 Ht1 _ (res & [= ->] & -> & -> & H). apply turns_ret; [done|]. exists res. split_and!; [done..|by rewrite app_nil_r|by destruct res].
  - eapply turns_bind; [| |].
    + apply (call_turns (fun l => l) _ t [OpStreamReset session_id (wt_error_code SessionGone) 0; OpDrainEvents]);
        [done| |apply follows_then_drain, follows_reset].
      split; [done|]. destruct (run_op _ _) as [[c' res]|]; [by apply one_op_fine|done].
    + intros ? ? ? t1 Ht1 _ (res & s' & Em & Es & [= ->] & -> & -> & _). apply turns_ret; [done|]. exists res.
      split_and!; [done..|by rewrite app_nil_r|]. destruct res as [l|]; [|done]. split.
      * unfold connect_stream_reset, state_stream_reset in Em. apply then_drain_empties in Em as (s1 & a & _ & Hq & _). unfold wt_conn. by rewrite Es.
      * intros Hl. by eapply reset_tells.
    + by intros ? ? ? _ (? & ? & _ & _ & [=] & _).
Qed.

Lemma residual_turns l : forall t, wt_ok t -> turns (residual_events (E := E) l) t (fun o seen out t' =>
  match o with Some told => told = true -> tells_end out | None => listening t' = false end).
Proof using Hset.
  induction l as [|e l IH]; intros t Ht; cbn [residual_events]; [by apply turns_ret|].
  destruct e as [| | | | | | | | |wt]; try by apply IH. destruct (is_forwardable_wt_event wt); [|by apply IH].
  eapply turns_bind; [by apply deliver_turns| |by intros ? ? ? _ (? & ? & ?)]. intros ? ? ? t1 Ht1 _ (-> & -> & Hl).
  destruct (is_session_closed wt) eqn:Ec; [apply turns_ret; [done|]; intros _; apply tells_end_app; left; unfold tells_end; cbn; by rewrite Ec|].
  eapply turns_mono; [by apply IH|]. intros [told|]; [|done]. intros ? out ? _ H Hd. apply tells_end_app. right. auto.
Qed.
Lemma failed_turns e delivered t : wt_ok t -> turns (connect_failed (E := E) session_id e delivered) t (fun o seen out t' =>
  listening t' = true -> delivered = true \/ tells_end out).
Proof using Hset.
  intros Ht. eapply (turns_bind _ _ _ (fun o seen out t' => o = Some tt)).
  { destruct (is_message_error e); [eapply turns_mono; [by apply command_turns|]; by intros ? ? ? ? _ (? & _)|by apply turns_ret]. }
  2: by intros. intros ? ? ? t1 Ht1 _ _. eapply turns_bind.
  { apply (call_turns (fun l => l) _ t1 [OpDrainEvents]); [done|by apply one_op_fine|apply follows_drain]. }
  2: by intros ? ? ? _ (? & ? & _ & _ & [=] & _).
  intros residual ? ? t2 Ht2 _ _. eapply turns_bind; [by apply residual_turns| |by intros ? ? ? _ ->].
  intros told ? ? t3 Ht3 _ Htold. destruct told; [apply turns_ret; [done|]; intros _; right; rewrite !tells_end_app; auto|].
  destruct delivered; [apply turns_ret; [done|by left]|]. cbn [negb andb].
  eapply turns_mono; [by apply try_deliver_turns|]. intros ? ? ? ? _ (_ & _ & Hout) Hl. right. rewrite !tells_end_app, (Hout Hl). by right; right; right.
Qed.

(** The application knows of the end, or there is something left to tell it. *)
Definition to_tell (c : Connection) : Prop := live session_id c = true \/ existsb (says_closed session_id) (events c) = true.
Lemma opened_pass seen out t t' : passes seen out t t' -> opened session_id (wt_conn t) -> opened session_id (wt_conn t').
Proof using. intros [(new & _ & Hch) _ _ _] Ho. by apply (ch_opened _ _ _ Hch). Qed.
Lemma to_tell_hands seen c c' : hands seen c c' -> opened session_id c -> to_tell c -> tells_end (forwarded seen) \/ to_tell c'.
Proof using.
  intros (new & Hn & Hch) Ho Ht. assert (live session_id c' = true \/ existsb (says_closed session_id) (seen ++ events c') = true) as [?|H].
  { rewrite Hn, existsb_app, orb_true_iff. destruct Ht as [Hl|He]; [|auto]. destruct (ch_live _ _ _ Hch _ Ho Hl); auto. }
  { right. by left. }
  rewrite existsb_app, orb_true_iff in H. destruct H as [H|H]; [left; by eapply told_forwarded|right; by right].
Qed.
Lemma to_tell_pass seen out t t' : passes seen out t t' -> opened session_id (wt_conn t) -> to_tell (wt_conn t) ->
  tells_end (forwarded seen) \/ to_tell (wt_conn t').
Proof using. intros [Hh _ _ _]. by apply to_tell_hands. Qed.

Lemma connect_turn_turns (received : result E (option bytes)) delivered t : wt_ok t -> recv_ok received -> opened session_id (wt_conn t) ->
  turns (connect_turn (E := E) session_id received delivered) t (fun o seen out t' => match o with
    | Some d => out = forwarded seen /\ d = delivered || existsb is_session_closed out
    | None => listening t' = true -> delivered = true \/ to_tell (wt_conn t) -> delivered = true \/ tells_end out \/
        (received = Ok None /\ to_tell (wt_conn t'))
    end).
Proof using Hset Hid.
  intros Ht Hr Ho. eapply turns_bind; [by apply await_turns| |by intros ? ? ? _ (? & _)].
  intros _ ? ? t1 Ht1 Hp1 (_ & -> & ->). pose proof (opened_pass _ _ _ _ Hp1 Ho) as Ho1.
  eapply turns_bind; [by apply received_turns| |by intros ? ? ? _ (? & [=] & _)].
  intros ? ? ? t2 Ht2 Hp2 (res & [= ->] & -> & -> & Hres). destruct res as [l|e].
  - destruct Hres as [Hq Hrst]. eapply turns_bind; [by apply connect_events_turns| |].
    + intros [d v] ? out t3 Ht3 Hp3 (-> & -> & Hd). cbn [fst] in Hd. destruct v.
      * eapply turns_bind; [by apply terminate_turns| |by intros ? ? ? _ (? & _)]. intros ? ? ? t4 Ht4 _ (_ & -> & -> & _).
        eapply (turns_bind _ _ _ (fun o _ out t' => o = Some tt /\ (listening t' = true -> d = true \/ tells_end out))).
        { destruct d; [apply turns_ret; auto|]. eapply turns_mono; [by apply flow_control_closed_turns|].
          intros ? ? ? ? _ (-> & -> & H). split; [done|]. intros Hl. right. by rewrite (H Hl). }
        2: by intros ? ? ? _ (? & _).
        intros ? ? ? t5 Ht5 _ (_ & H). apply turns_return; [done|]. intros Hl _. destruct (H Hl) as [->|Hout].
        { symmetry in Hd. apply orb_true_iff in Hd as [->|Hd]; [by left|right; left]. rewrite !tells_end_app. tauto. }
        right. left. rewrite !tells_end_app. tauto.
      * destruct (ended received) eqn:Ee.
        { apply turns_return; [done|]. intros Hl Htell. destruct Htell as [->|Htell]; [by left|]. right.
          assert (tells_end (forwarded l) \/ to_tell (wt_conn t3)) as [Hout|Htell3].
          { pose proof (passes_trans [] _ [] _ _ _ _ Hp1 Hp2) as Hp. destruct (to_tell_pass _ _ _ _ Hp Ho Htell) as [?|H2]; [by left|].
            destruct (to_tell_pass [] _ _ _ Hp3 (opened_pass _ _ _ _ Hp Ho) H2) as [[=]|?]; by right. }
          - left. rewrite !tells_end_app. tauto.
          - destruct received as [[data|]|e]; [done|by right|].
            assert (tells_end (forwarded l)) as Hf; [|left; rewrite !tells_end_app; tauto].
            destruct (to_tell_pass [] _ _ _ Hp1 Ho Htell) as [[=]|[Hl1|Hq1]]; [by eapply told_forwarded, Hrst|].
            destruct (ps_hands _ _ _ _ Hp2) as (new & Hn & _). rewrite Hq, app_nil_r in Hn. eapply told_forwarded.
            by rewrite Hn, existsb_app, Hq1. }
        { apply turns_ret; [done|]. cbn [app]. rewrite !app_nil_r. done. }
    + intros ? ? ? _ (-> & Hl) Hl'. congruence.
  - eapply turns_bind; [by apply failed_turns| |].
    + intros ? ? ? t3 Ht3 _ H. apply turns_return; [done|]. intros Hl _. destruct (H Hl) as [?|?]; [by left|]. right. left. rewrite !tells_end_app. tauto.
    + intros ? ? ? _ H Hl _. destruct (H Hl) as [?|?]; [by left|]. right. left. rewrite ?tells_end_app. tauto.
Qed.

Lemma connect_loop_turns received : forall delivered t, wt_ok t -> Forall recv_ok received -> opened session_id (wt_conn t) ->
  turns (connect_loop (E := E) session_id received delivered) t (fun o seen out t' => match o with
    | Some _ => out = forwarded seen
    | None => listening t' = true -> delivered = true \/ to_tell (wt_conn t) -> delivered = true \/ tells_end out \/
        (Ok None ∈ received /\ to_tell (wt_conn t'))
    end).
Proof using Hset Hid.
  induction received as [|x received IH]; intros d t Ht Hr Ho; cbn [connect_loop]; [by apply turns_ret|].
  inversion Hr as [|? ? Hx Hr']; subst. eapply turns_bind; [by apply connect_turn_turns| |].
  - intros d1 seen1 out1 t1 Ht1 Hp1 (-> & Hd). pose proof (opened_pass _ _ _ _ Hp1 Ho) as Ho1.
    eapply turns_mono; [by apply IH|]. intros [[]|] seen out t2 Hp2 H; [by rewrite forwarded_app, H|].
    intros Hl Htell. destruct d; [by left|]. right. cbn [orb] in Hd.
    assert (d1 = true \/ to_tell (wt_conn t1)) as H1.
    { destruct Htell as [[=]|Htell]. rewrite Hd. by apply (to_tell_pass _ _ _ _ Hp1). }
    rewrite tells_end_app. destruct (H Hl H1) as [Hd1|[Hout|[Hin Htell2]]]; [left; left; unfold tells_end; by rewrite <- Hd|by left; right|].
    right. split; [by right|done].
  - intros seen out t1 _ H Hl Htell. destruct (H Hl Htell) as [?|[?|[-> ?]]]; [by left|by right; left|]. right. right. split; [by left|done].
Qed.
End turn.
End safety.

Lemma recv_task_same {E} r : connect_recv_task (E := E) r = run_connect_recv_task.
Proof. by destruct r. Qed.
Lemma connect_task_runs {E} r settings session_id capsules pending (received : list (result E (option bytes))) t :
  settings_ok settings -> wt_ok r settings t -> varint_ok session_id -> Forall recv_ok received -> opened session_id (wt_conn t) ->
  to_tell session_id (wt_conn t) \/ tells_end pending ->
  exists t' o seen out, run_connect_recv_task_inner session_id capsules pending received t = Some (t', o) /\
    wt_ok r settings t' /\ passes seen out t t' /\
    (listening t' = true -> match o with
    | Some _ => out = pending ++ forwarded seen /\ (tells_end out \/ to_tell session_id (wt_conn t'))
    | None => tells_end out \/ (Ok None ∈ received /\ to_tell session_id (wt_conn t'))
    end).
Proof.
  intros Hset Ht Hid Hr Ho Htell.
  assert (turns r settings (run_connect_recv_task_inner session_id capsules pending received) t (fun o seen out t' => listening t' = true -> match o with
    | Some _ => out = pending ++ forwarded seen /\ (tells_end out \/ to_tell session_id (wt_conn t'))
    | None => tells_end out \/ (Ok None ∈ received /\ to_tell session_id (wt_conn t'))
    end)) as H; [|done].
  unfold run_connect_recv_task_inner. eapply turns_bind; [by eapply pending_capsules_turns| |by intros ? ? ? _ H Hl; left; apply H].
    intros _ ? ? t1 Ht1 Hp1 (-> & ->). pose proof (opened_pass _ _ _ _ _ Hp1 Ho) as Ho1.
    eapply turns_bind; [by eapply pending_events_turns| |by intros ? ? ? _ -> ].
    intros d ? ? t2 Ht2 Hp2 (-> & -> & Hd). cbn [orb] in Hd. pose proof (opened_pass _ _ _ _ _ Hp2 Ho1) as Ho2.
    assert (d = true \/ to_tell session_id (wt_conn t2)) as Htell2.
    { destruct Htell as [Htell|Htell]; [right|left; by rewrite Hd]. destruct (to_tell_pass _ _ _ _ _ Hp1 Ho Htell) as [[=]|H1].
      destruct (to_tell_pass _ _ _ _ _ Hp2 Ho1 H1) as [[=]|H2]. done. }
    eapply turns_mono; [by eapply connect_loop_turns|]. intros [[]|] seen out t3 Hp3 H Hl; cbn [app].
    - split; [by rewrite H|]. rewrite tells_end_app. destruct Htell2 as [->|Htell2]; [left; by left|].
      destruct (to_tell_pass _ _ _ _ _ Hp3 Ho2 Htell2) as [H3|H3]; [left; right; by rewrite H|by right].
    - rewrite tells_end_app. destruct (H Hl Htell2) as [->|[Hout|Hin]]; [left; by left|left; by right|by right].
Qed.

(** ** The sending half comes to its end *)
Definition is_close_command (c : ConnectCommand) : bool := match c with CmdSendAndFinish _ => true | _ => false end.
Lemma send_task_app {E} (quic : list StreamAction -> StreamAction -> result E unit) l : forall performed, Forall command_ok l ->
  exists acts results, run_connect_send_task quic (l ++ [CmdFinish]) performed = Some (performed ++ acts ++ [ActFinish], results) /\
    length results = length (List.filter is_close_command l).
Proof.
  induction l as [|[data| |code] l IH]; intros performed Hl; cbn [app run_connect_send_task].
  - by exists [], [].
  - inversion Hl as [|? ? _ Hl']; subst. destruct (quic performed (ActSend data)) as [[]|e].
    + destruct (IH ((performed ++ [ActSend data]) ++ [ActFinish]) Hl') as (acts & res & -> & Hn). cbn [mbind option_bind].
      eexists (ActSend data :: ActFinish :: acts), _. split; [by rewrite <- !app_assoc|]. cbn. by rewrite Hn.
    + destruct (IH (performed ++ [ActSend data]) Hl') as (acts & res & -> & Hn). cbn [mbind option_bind].
      eexists (ActSend data :: acts), _. split; [by rewrite <- !app_assoc|]. cbn. by rewrite Hn.
  - inversion Hl as [|? ? _ Hl']; subst. destruct (IH (performed ++ [ActFinish]) Hl') as (acts & res & -> & Hn).
    exists (ActFinish :: acts), res. split; [by rewrite <- !app_assoc|done].
  - inversion Hl as [|? ? Hc Hl']; subst. cbn in Hc. rewrite (proj2 (Z.leb_le _ _)) by done.
    destruct (IH (performed ++ [ActReset code]) Hl') as (acts & res & -> & Hn). exists (ActReset code :: acts), res.
    split; [by rewrite <- !app_assoc|done].
Qed.

(** ** A close arrives *)
Section closing.
Context {E : Type} (r : Role) (settings : Settings) (Hset : settings_ok settings) (id : Z) (code : Z) (msg : bytes).
Context (Hc : capsule_ok (CloseSession code msg)).
Let frame : Frame := Data (capsule_bytes (CloseSession code msg)).
Let closed (resets : list WtStreamReset) : WebTransportEvent := WtSessionClosed id resets SESSION_GONE code (truncate_close_session_message msg).

Lemma close_length : len (capsule_bytes (CloseSession code msg)) <= VARINT_MAX.
Proof using Hc.
  pose proof (capsule_payload_ok _ Hc) as [_ Hl]. unfold capsule_bytes. destruct Hc as (_ & _ & Hu). pose proof (truncate_length _ Hu).
  pose proof (capsule_type_ok _ Hc) as Ht. assert (varint_ok (len (capsule_payload (CloseSession code msg)))) as Hv by (split; [apply len_nonneg|done]).
  rewrite !len_app, (len_encode_raw _ Ht), (len_encode_raw _ Hv).
  pose proof (encoded_len_small (capsule_type (CloseSession code msg))).
  pose proof (encoded_len_small (len (capsule_payload (CloseSession code msg)))).
  assert (len (capsule_payload (CloseSession code msg)) <= 4 + 1024); [|unfold VARINT_MAX; lia].
  cbn [capsule_payload]. rewrite len_app, len_to_be_bytes. unfold len. lia.
Qed.
Lemma close_encodable : frame_encodable frame.
Proof using Hc.
  pose proof (capsule_payload_ok _ Hc) as [Hb _]. split; [|split; [apply close_length|done]]. unfold frame, frame_ok, capsule_bytes.
  apply Forall_app; split; [apply encode_raw_ok|apply Forall_app; split; [apply encode_raw_ok|exact Hb]].
Qed.
Lemma close_command : session_close code msg = Some (CmdSendAndFinish (frame_bytes frame)).
Proof using Hc. unfold session_close. by rewrite encode_as_data_frame_spec by (exact Hc || apply close_length). Qed.

(** The task is where it waits for more, the connection has nothing left to tell, and no one else acts. *)
Record waits (t : WtTask) : Prop := {
  wa_ok : wt_ok r settings t;
  wa_listening : listening t = true;
  wa_alone : meanwhile t = [];
  wa_settled : settled (wt_conn t);
  wa_told : events (wt_conn t) = [] }.
Notation takes_in data fin := (process_stream_data (T := E) id data fin).

Lemma process_fed data fin s c : feed_stream id data fin (h3_conn s) = Some (c, Ok ()) -> settled c -> error c = None ->
  takes_in data fin s = Some (with_conn (set_events [] c) s, Ok (events c)).
Proof using.
  intros Hf Hs He. unfold process_stream_data, mbind, state_bind, on_conn. rewrite Hf. cbn. unfold state_drain_events, on_conn. cbn.
  by rewrite drain_takes_all.
Qed.
Lemma turn_data data d t s l t' d' : meanwhile t = [] -> takes_in data false (wt_state t) = Some (s, Ok l) ->
  connect_events (E := E) id (d, false) l (set_wt_state s t) = Some (t', Some (d', false)) ->
  connect_turn (E := E) id (Ok (Some data)) d t = Some (t', Some d').
Proof using.
  intros Hm Hp He. unfold connect_turn, connect_received, call. unfold mbind at 1, turn_bind at 1. unfold await. rewrite Hm.
  unfold mbind at 1, turn_bind at 1. unfold mbind at 1, turn_bind at 1. rewrite Hp. unfold mret, turn_ret. unfold mbind, turn_bind. by rewrite He.
Qed.
Lemma turn_fin d t s : meanwhile t = [] -> takes_in [] true (wt_state t) = Some (s, Ok []) ->
  connect_turn (E := E) id (Ok None) d t = Some (set_wt_state s t, None).
Proof using.
  intros Hm Hp. unfold connect_turn, connect_received, call. unfold mbind at 1, turn_bind at 1. unfold await. rewrite Hm.
  unfold mbind at 1, turn_bind at 1. unfold mbind at 1, turn_bind at 1. by rewrite Hp.
Qed.

(** Nothing is left that a drain could find. *)
Lemma waits_after t s : waits t -> reachable r settings (h3_conn s) -> settled (h3_conn s) -> events (h3_conn s) = [] ->
  waits (set_wt_state s t).
Proof using. intros [[H1 H2 H3 H4] Hl Hm _ _] Hr Hs He. split; try done. Qed.
Lemma process_reaches data fin t s res : waits t -> varint_ok id -> bytes_ok data -> takes_in data fin (wt_state t) = Some (s, res) ->
  reachable r settings (h3_conn s).
Proof using Hset.
  intros [[H1 _ _ _] _ _ _ _] Hid Hb Hp.
  destruct (follows_safe (T := E) (fun l => l) (process_stream_data id data fin) r settings (wt_state t) [OpFeedStream id data fin; OpDrainEvents])
    as (s' & res' & Hp' & Hr & _); [done|done| |apply follows_then_drain, follows_feed|by rewrite Hp in Hp'; injection Hp' as <- <-].
  split; [done|]. destruct (run_op _ _) as [[c' ?]|]; [by apply one_op_fine|done].
Qed.

(** The pieces of the frame, then what completes it. *)
Lemma carrying_settled buf c s w data : carrying id buf c s w -> settled c -> settled (set_events [] (received id data c)).
Proof using. intros _ Hs. by apply (settled_same c). Qed.
Lemma pieces_wait chunks : forall buf rest d t s w, waits t -> varint_ok id -> carrying id buf (wt_conn t) s w -> Forall bytes_ok chunks ->
  rest <> [] -> frame_bytes frame = (buf ++ concat chunks) ++ rest ->
  exists t' s', (forall received, connect_loop (E := E) id (map (fun data => Ok (Some data)) chunks ++ received) d t =
      connect_loop id received d t') /\ waits t' /\
    carrying id (buf ++ concat chunks) (wt_conn t') s' w /\ event_tx t' = event_tx t /\ connect_tx t' = connect_tx t.
Proof using All.
  induction chunks as [|data chunks IH]; intros buf rest d t s w Ht Hid Hcy Hb Hne Hf.
  - exists t, s. cbn. by rewrite app_nil_r.
  - inversion Hb as [|? ? Hb1 Hb2]; subst. cbn [concat] in *. rewrite app_assoc in Hf.
    pose proof (feed_piece id frame buf _ _ _ data (concat chunks ++ rest) Hcy close_encodable ltac:(done)) as Hfeed.
    assert (concat chunks ++ rest <> []) as Hne2 by by (destruct (concat chunks)).
    specialize (Hfeed Hne2). rewrite <- app_assoc in Hf. specialize (Hfeed Hf).
    pose proof (carrying_received id _ _ _ _ data Hcy) as Hcy1.
    pose proof (process_fed data false (wt_state t) _ Hfeed (settled_same _ _ eq_refl eq_refl (wa_settled _ Ht)) (cy_error _ _ _ _ _ Hcy)) as Hp.
    change (events (received id data (wt_conn t))) with (events (wt_conn t)) in Hp. rewrite (wa_told _ Ht) in Hp.
    set (s1 := with_conn _ _) in Hp. pose proof (process_reaches _ _ _ _ _ Ht Hid Hb1 Hp) as Hr1.
    assert (waits (set_wt_state s1 t)) as Ht1 by (apply waits_after; [done|done|exact (wa_settled _ Ht)|done]).
    destruct (IH (buf ++ data) rest d (set_wt_state s1 t) _ w Ht1 Hid (carrying_taken id _ _ _ _ Hcy1) Hb2 Hne) as (t' & s' & Hl & Ht' & Hcy' & He & Hx).
    { rewrite Hf. by rewrite <- !app_assoc. }
    exists t', s'. split_and!; [|done|by rewrite app_assoc|done|done]. intros received. cbn [map app connect_loop].
    unfold mbind at 1, turn_bind at 1. rewrite (turn_data data d t s1 [] (set_wt_state s1 t) d); [apply Hl|apply Ht|done|done].
Qed.

(** The whole close: pieces, the last chunk, the FIN. *)
Lemma close_told chunks last d t s w : waits t -> varint_ok id -> carrying id [] (wt_conn t) s w -> Forall bytes_ok chunks -> bytes_ok last ->
  last <> [] -> concat chunks ++ last = frame_bytes frame ->
  exists t' resets, connect_loop (E := E) id (map (fun data => Ok (Some data)) (chunks ++ [last]) ++ [Ok None]) d t = Some (t', None) /\
    event_tx t' = event_tx t ++ [closed resets] /\ connect_tx t' = connect_tx t.
Proof using All.
  intros Ht Hid Hcy Hb Hbl Hne Hf. destruct (pieces_wait chunks [] last d t s w Ht Hid Hcy Hb Hne ltac:(done)) as (t1 & s1 & Hl & Ht1 & Hcy1 & He1 & Hx1).
  rewrite map_app, <- app_assoc, Hl. cbn [map app connect_loop].
  assert (exists c2 x, feed_stream id last false (wt_conn t1) = Some (c2, x)) as (c2 & x & E2).
  { pose proof (reachable_wf _ _ _ Hset (wk_conn _ _ _ (wa_ok _ Ht1))) as Hw.
    destruct (run_op_safe (OpFeedStream id last false) (wt_conn t1) Hw) as (c2 & x & E2 & _); [done|].
    cbn [run_op] in E2. unfold returning, mbind, action_bind in E2. destruct (feed_stream _ _ _ _) as [[c3 y]|]; [by exists c3, y|done]. }
  destruct (feed_close id code msg _ _ _ _ last c2 x Hc close_encodable Hcy1) as [-> (Hov & Hbl2 & Hdt & resets & Hev)]; [by cbn; rewrite Hf|done|].
  rewrite (wa_told _ Ht1) in Hev. cbn [app] in Hev.
  assert (settled c2) as Hs2 by (apply (settled_same (wt_conn t1)); [done|done|apply Ht1]).
  pose proof (process_fed last false (wt_state t1) c2 E2 Hs2 (ov_error id _ Hov)) as Hp2. rewrite Hev in Hp2.
  set (s2 := with_conn (set_events [] c2) (wt_state t1)) in *. set (t2 := push_delivered (closed resets) (set_wt_state s2 t1)).
  unfold mbind at 1, turn_bind at 1.
  rewrite (turn_data last d t1 s2 [EvWebTransport (closed resets)] t2 true); [|apply Ht1|exact Hp2|].
  2: { unfold t2. cbn. unfold deliver, send_event, await, put_event, mbind, turn_bind. cbn. rewrite (wa_alone _ Ht1). cbn.
       rewrite (wa_listening _ Ht1). cbn. by rewrite orb_true_r. }
  destruct (feed_fin id (set_events [] c2) (over_taken id _ Hov)) as (c3 & E3 & Hev3 & He3 & Hb3 & Hq3).
  assert (settled c3) as Hs3 by (apply (settled_same c2); [done|by rewrite Hq3|done]).
  pose proof (process_fed [] true (wt_state t2) c3 E3 Hs3 He3) as Hp3. rewrite Hev3 in Hp3.
  unfold mbind at 1, turn_bind at 1. rewrite (turn_fin true t2 _ (wa_alone _ Ht1) Hp3). eexists _, resets. split; [done|]. cbn.
  by rewrite He1, Hx1.
Qed.
End closing.

(** ** Properties *)

(** C18. The receiving task of a session's CONNECT stream, whatever arrives on the stream and
    whatever the other tasks and the application do while it waits, does not panic, keeps
    the connection in a reachable state, and keeps what the application has opened and sent
    within what the peer allows. While it runs, an application that listens has got, in
    order, the events of the handshake and every event for it that was taken from the
    connection, and no more. When it has ended, the sending task goes through what it was
    told without a panic, answers every [close], and finishes the stream last; and an
    application that still listens has been told that the session is over: only when the
    stream has ended with a FIN may the connection still hold the session or the event
    that says so. *)
Theorem connect_task_tells {E} (quic : list StreamAction -> StreamAction -> result E unit) r settings session_id capsules pending (received : list (result E (option bytes))) t :
  settings_ok settings -> wt_ok r settings t -> varint_ok session_id -> Forall recv_ok received -> opened session_id (wt_conn t) ->
  to_tell session_id (wt_conn t) \/ tells_end pending ->
  exists t' ended seen out, connect_recv_task r session_id capsules pending received t = Some (t', ended) /\
    wt_ok r settings t' /\ passes seen out t t' /\
    (ended = true -> exists performed results, run_connect_send_task quic (connect_tx t') [] = Some (performed ++ [ActFinish], results) /\
      length results = length (List.filter is_close_command (connect_tx t'))) /\
    (listening t' = true ->
      if ended then tells_end out \/ (Ok None ∈ received /\ to_tell session_id (wt_conn t'))
      else out = pending ++ forwarded seen /\ (tells_end out \/ to_tell session_id (wt_conn t'))).
Proof.
  intros Hset Ht Hid Hr Ho Htell.
  destruct (connect_task_runs r settings session_id capsules pending received t Hset Ht Hid Hr Ho Htell) as (t' & o & seen & out & Em & Ht' & Hp & HQ).
  rewrite recv_task_same. unfold run_connect_recv_task. rewrite Em. destruct o as [[]|].
  - exists t', false, seen, out. by split_and!.
  - exists (push_command CmdFinish t'), true, seen, out. split_and!; [done|by apply command_wt_ok| | |].
    + rewrite <- (app_nil_r seen), <- (app_nil_r out). apply (passes_trans _ [] _ [] _ t'); [done|].
      split; [apply (reflexivity (R := grows))|by rewrite app_nil_r|done|by exists [CmdFinish]].
    + intros _. cbn [push_command connect_tx]. destruct (send_task_app quic (connect_tx t') [] (wk_commands _ _ _ Ht')) as (acts & results & E1 & El).
      exists acts, results. split; [exact E1|]. rewrite El, List.filter_app. cbn. by rewrite app_nil_r.
    + intros Hl. by apply HQ.
Qed.

(** C19. [close] reaches the application at the other end: the bytes that it gives to the sending
    task for a code and a reason, arriving at the other end's CONNECT stream in whatever
    pieces and followed by the FIN, end the receiving task there, which tells an
    application that listens, once, that the session is closed with that code and that
    reason (cut to the 1024 bytes that the capsule has room for), and has the sending
    task finish its half. *)
Theorem close_arrives {E} r settings id code reason data chunks last t s w : settings_ok settings -> varint_ok id ->
  capsule_ok (CloseSession code reason) -> session_close code reason = Some (CmdSendAndFinish data) ->
  waits r settings t -> carrying id [] (wt_conn t) s w ->
  Forall bytes_ok chunks -> bytes_ok last -> last <> [] -> concat chunks ++ last = data ->
  exists t' resets, run_connect_recv_task (E := E) id [] [] (map (fun data => Ok (Some data)) (chunks ++ [last]) ++ [Ok None]) t = Some (t', true) /\
    event_tx t' = event_tx t ++ [WtSessionClosed id resets SESSION_GONE code (truncate_close_session_message reason)] /\
    connect_tx t' = connect_tx t ++ [CmdFinish].
Proof.
  intros Hset Hid Hc Hd Ht Hcy Hb Hbl Hne Hcat. rewrite (close_command code reason Hc) in Hd. injection Hd as <-.
  destruct (close_told (E := E) r settings Hset id code reason Hc chunks last false t s w) as (t' & resets & El & He & Hx); try done.
  exists (push_command CmdFinish t'), resets. unfold run_connect_recv_task, run_connect_recv_task_inner.
  cbn [pending_capsules pending_events].
  unfold mret, turn_ret. unfold mbind, turn_bind. rewrite El. cbn. by rewrite He, Hx.
Qed.

(** ** Witnesses *)
Definition session_task (c : Connection) (others : list (list Other)) : WtTask :=
  mkWtTask (state_of c) (send_fc_new true (mkLimits 1 1 10)) [] [] true others.

(** While the task waits, the application opens a stream and sends, and a GOAWAY comes in; the peer resets the stream. *)
Lemma connect_task_tells_witness :
  exists c t' ended seen out, state_after Client wt_offer session_client = Some c /\
    run_connect_recv_task (E := Z) 0 [MaxData 20] [] [Err 7]
      (session_task c [[OtherOpens true; OtherSends 3; OtherUni 3 (UniData [0x07; 0x01; 0x04])]]) = Some (t', ended) /\
    passes seen out (session_task c [[OtherOpens true; OtherSends 3; OtherUni 3 (UniData [0x07; 0x01; 0x04])]]) t' /\
    ended = true /\ listening t' = true /\ tells_end out.
Proof.
  destruct (state_after Client wt_offer session_client) as [c|] eqn:Ec; [|vm_compute in Ec; discriminate].
  assert (reachable Client wt_offer c) as Hr.
  { apply (state_after_reachable _ _ session_client); [vm_compute; reflexivity|exact Ec]. }
  assert (next_stream_id c = 4 /\ live 0 c = true) as (Hn & Hl).
  { vm_compute in Ec. injection Ec as <-. vm_compute. repeat split. }
  set (t := session_task c [[OtherOpens true; OtherSends 3; OtherUni 3 (UniData [0x07; 0x01; 0x04])]]).
  assert (wt_ok Client wt_offer t) as Ht.
  { split; [exact Hr| |constructor|].
    - intros _. split; [intros []; cbn; unfold U64_MAX; lia|cbn; unfold U64_MAX; lia].
    - repeat constructor; try (unfold varint_ok, VARINT_MAX; lia). all: cbn; try lia; solve_bytes. }
  destruct (connect_task_tells (E := Z) (fun _ _ => Ok ()) Client wt_offer 0 [MaxData 20] [] [Err 7] t) as (t' & ended & seen & out & Er & _ & Hp & _ & Htold).
  - apply (bool_decide_unpack _). vm_compute. exact I.
  - exact Ht.
  - unfold varint_ok, VARINT_MAX. lia.
  - repeat constructor.
  - right. unfold wt_conn. cbn. lia.
  - left. left. exact Hl.
  - assert (ended = true /\ listening t' = true) as [He Hli].
    { unfold t in Er. vm_compute in Ec. injection Ec as <-. vm_compute in Er. injection Er as <- <-. split; reflexivity. }
    exists c, t', ended, seen, out. split; [reflexivity|]. split; [exact Er|]. split; [exact Hp|]. split; [exact He|]. split; [exact Hli|].
    specialize (Htold Hli). rewrite He in Htold. destruct Htold as [H|[H _]]; [exact H|]. inversion H as [|? ? ? H']; inversion H'.
Defined.

(** The close of a server with code 7, in two pieces. *)
Lemma close_arrives_witness :
  exists c t' resets, state_after Client wt_offer session_client = Some c /\
    session_close 7 [] = Some (CmdSendAndFinish close_seven) /\
    run_connect_recv_task (E := Z) 0 [] [] [Ok (Some [0x00; 0x07; 0x68]); Ok (Some [0x43; 0x04; 0x00; 0x00; 0x00; 0x07]); Ok None]
      (session_task c []) = Some (t', true) /\
    event_tx t' = [WtSessionClosed 0 resets SESSION_GONE 7 []] /\ connect_tx t' = [CmdFinish].
Proof.
  destruct (state_after Client wt_offer session_client) as [c|] eqn:Ec; [|vm_compute in Ec; discriminate].
  assert (reachable Client wt_offer c) as Hr.
  { apply (state_after_reachable _ _ session_client); [vm_compute; reflexivity|exact Ec]. }
  assert (exists s w, carrying 0 [] c s w /\ events c = [] /\ settled c) as (s & w & Hcy & He & Hs).
  { vm_compute in Ec. injection Ec as <-.
    match goal with |- context [carrying 0 [] ?c] =>
      destruct (streams c !! 0) as [s|] eqn:Es; [|vm_compute in Es; discriminate];
      destruct (wt_sessions c !! 0) as [w|] eqn:Ew; [|vm_compute in Ew; discriminate]
    end.
    exists s, w. split; [|split; [reflexivity|]].
    - vm_compute in Es, Ew. injection Es as <-. injection Ew as <-. split; try (vm_compute; reflexivity); [|left; vm_compute; reflexivity].
      apply (bool_decide_unpack _). vm_compute. exact I.
    - intros x Hx. exfalso. revert Hx. apply not_elem_of_empty. }
  destruct (close_arrives (E := Z) Client wt_offer 0 7 [] close_seven [[0x00; 0x07; 0x68]] [0x43; 0x04; 0x00; 0x00; 0x00; 0x07] (session_task c []) s w)
    as (t' & resets & Er & Het & Hct).
  - apply (bool_decide_unpack _). vm_compute. exact I.
  - unfold varint_ok, VARINT_MAX. lia.
  - split; [lia|]. split; [constructor|reflexivity].
  - vm_compute. reflexivity.
  - split; [|reflexivity|reflexivity|exact Hs|exact He]. split; [exact Hr| |constructor|constructor].
    intros _. split; [intros []; cbn; unfold U64_MAX; lia|cbn; unfold U64_MAX; lia].
  - exact Hcy.
  - repeat constructor; lia.
  - repeat constructor; lia.
  - discriminate.
  - reflexivity.
  - exists c, t', resets. split; [reflexivity|]. split; [vm_compute; reflexivity|]. split; [exact Er|]. split; [exact Het|exact Hct].
Defined.
