(* ===== verification/S2nStreams.v ===== *)
(** crates/tokio-s2n-quic/src/webtransport/: the streams of a session (session.rs), and the
    routing of the peer's unidirectional streams (client.rs, server.rs). The application
    opens streams, sends on them and finishes them under the flow control that they share;
    at the other end the header of a stream says what becomes of it, and what follows the
    header is what the application there reads.

    QUIC is a parameter: [quic] is its answer to an action on the sending half of a stream
    after what has been done to it, and what [receive] returns is a list. *)

From Stdlib Require Import String Ascii.
From S2P Require Import Prelude Codec Varint Header Settings Error Stream WtStream Validation WtError Capsule FlowControl Session Connect Display Event Connection ConnInvariant ConnRun ConnEvents S2nSession S2nState S2nTasks S2nConnect.

Section streams.
Context {E : Type} (stream_reset_code : E -> option Z) (quic : Z -> list StreamAction -> StreamAction -> result E unit).

(** ** [WtSession], [WtBiStream] and [WtSendStream]: what the application sends

    [wh_streams] has what was done to the sending half of every open stream. *)
Record WtHandle := mkWtHandle { wh_session_id : Z; wh_send_fc : WtSendFlowControl; wh_streams : gmap Z (list StreamAction) }.
Definition set_wh_send_fc (f : WtSendFlowControl) (h : WtHandle) : WtHandle := mkWtHandle (wh_session_id h) f (wh_streams h).
Definition set_performed (stream_id : Z) (performed : list StreamAction) (h : WtHandle) : WtHandle :=
  mkWtHandle (wh_session_id h) (wh_send_fc h) (<[stream_id := performed]> (wh_streams h)).

(** [open_bi_stream] and [open_uni_stream]; a panic when the session's id is no session id.
    [opened] is what opening the QUIC stream returned. *)
Definition open_wt_stream (bidirectional : bool) (opened : result E Z) (h : WtHandle) : option (WtHandle * result (S2nError E) unit) :=
  let '(f, allowed) := fc_try_open_stream bidirectional (wh_send_fc h) in
  let h := set_wh_send_fc f h in
  match allowed, opened with
  | Err e, _ => Some (h, Err e)
  | Ok _, Err e => Some (h, Err (Transport e))
  | Ok _, Ok stream_id =>
    header ← ok (stream_header_new (wh_session_id h));
    data ← (if bidirectional then encode_bidirectional else encode_unidirectional) [] header;
    match quic stream_id [] (ActSend data) with
    | Ok _ => Some (set_performed stream_id [ActSend data] h, Ok ())
    | Err e => Some (h, Err (Transport e))
    end
  end.

(** The methods of a stream: [None] when there is no such stream. *)
Definition stream_action (stream_id : Z) (a : StreamAction) (h : WtHandle) : option (WtHandle * result (S2nError E) unit) :=
  performed ← wh_streams h !! stream_id;
  Some (set_performed stream_id (performed ++ [a]) h, map_err Transport (quic stream_id performed a)).
Definition wt_stream_send (stream_id : Z) (data : bytes) (h : WtHandle) : option (WtHandle * result (S2nError E) unit) :=
  let '(f, allowed) := fc_try_send_data (len data) (wh_send_fc h) in
  let h := set_wh_send_fc f h in
  match allowed with
  | Err e => Some (h, Err e)
  | Ok _ => stream_action stream_id (ActSend data) h
  end.
Definition wt_stream_finish (stream_id : Z) (h : WtHandle) : option (WtHandle * result (S2nError E) unit) :=
  stream_action stream_id ActFinish h.

(** What the application does, and the answers. *)
Inductive wt_op := WtOpen (bidirectional : bool) (opened : result E Z) | WtSend (stream_id : Z) (data : bytes) | WtFinish (stream_id : Z).
Definition run_wt_op (op : wt_op) (h : WtHandle) : option (WtHandle * result (S2nError E) unit) :=
  match op with
  | WtOpen bidirectional opened => open_wt_stream bidirectional opened h
  | WtSend stream_id data => wt_stream_send stream_id data h
  | WtFinish stream_id => wt_stream_finish stream_id h
  end.
Fixpoint run_wt_ops (ops : list wt_op) (h : WtHandle) : option (WtHandle * list (result (S2nError E) unit)) :=
  match ops with
  | [] => Some (h, [])
  | op :: ops => '(h, r) ← run_wt_op op h; '(h, rs) ← run_wt_ops ops h; Some (h, r :: rs)
  end.

(** ** What the application reads *)
Record RecvHalf := mkRecvHalf { rh_pending : bytes; rh_received : list (result E (option bytes)) }.

(** [None] while it waits. *)
Definition wt_stream_recv (h : RecvHalf) : RecvHalf * option (result (S2nError E) bytes) :=
  if negb (is_empty_bytes (rh_pending h)) then (mkRecvHalf [] (rh_received h), Some (Ok (rh_pending h)))
  else
    match rh_received h with
    | [] => (h, None)
    | Ok (Some data) :: received => (mkRecvHalf [] received, Some (Ok data))
    | Ok None :: received => (mkRecvHalf [] received, Some (Err S2nStreamClosed))
    | Err e :: received => (mkRecvHalf [] received, Some (Err (Transport e)))
    end.

(** ** The peer's streams *)

(** A panic on a code that is no varint. *)
Definition id_error_application_error : option Z :=
  let code := error_code IdError in if code <=? VARINT_MAX then Some code else None.

(** [closed_with]: the code the connection was closed with. *)
Inductive Accepting :=
| AcceptWaits (header_buf : bytes)
| AcceptReturns (r : result (S2nError E) RecvHalf) (closed_with : option Z).

Definition not_webtransport : S2nError E :=
  InvalidState (str "received bidirectional stream is not a WebTransport stream").
Fixpoint accept_bi_loop (session_id : Z) (header_buf : bytes) (received : list (result E (option bytes))) : option Accepting :=
  match received with
  | [] => Some (AcceptWaits header_buf)
  | Ok (Some data) :: received =>
    let header_buf := header_buf ++ data in
    match classify_bi_stream_header header_buf session_id with
    | None => accept_bi_loop session_id header_buf received
    | Some (BiComplete pending) => Some (AcceptReturns (Ok (mkRecvHalf pending received)) None)
    | Some BiNotWebTransport => Some (AcceptReturns (Err not_webtransport) None)
    | Some (BiMalformedSessionId | BiForeignSession) =>
      code ← id_error_application_error;
      Some (AcceptReturns (Err (Http3 (ConnectionError IdError))) (Some code))
    end
  | Ok None :: _ => Some (AcceptReturns (Err S2nStreamClosed) None)
  | Err e :: _ => Some (AcceptReturns (Err (Transport e)) None)
  end.
(** [accepted] is what the acceptor returned: a stream, whose id is kept for the
    application, with what is received on it. *)
Definition accept_bi_stream (session_id : Z) (accepted : result E (option (Z * list (result E (option bytes))))) : option Accepting :=
  match accepted with
  | Err e => Some (AcceptReturns (Err (Transport e)) None)
  | Ok None => Some (AcceptReturns (Err S2nStreamClosed) None)
  | Ok (Some (_, received)) => accept_bi_loop session_id [] received
  end.

(** The task of a unidirectional stream: it reads the header, or hands all that arrives to
    the connection, or has come to its end, having handed the stream to the session or not. *)
Inductive Routing :=
| RoutingHeader (type_buf : bytes)
| RoutingHttp3
| RoutingSession (pending : bytes)
| RoutingOver (closed_with : option Z).

(** [let _ = state.lock()...feed_stream_only(..)]. *)
Definition feed_ignoring (stream_id : Z) (data : bytes) (fin : bool) (s : ConnectionState) : option ConnectionState :=
  '(s, _) ← feed_stream_only (T := E) stream_id data fin s; Some s.

(** [expected]: the id the session must have, if any. The slice panics out of range. *)
Definition route_header (expected : option Z) (stream_id : Z) (type_buf : bytes) (s : ConnectionState) : option (ConnectionState * Routing) :=
  match classify_uni_stream_header type_buf expected with
  | None => Some (s, RoutingHeader type_buf)
  | Some (UniWebTransport data_offset) =>
    if data_offset <=? len type_buf then Some (s, RoutingSession (drop_z data_offset type_buf)) else None
  | Some UniHttp3 => s ← feed_ignoring stream_id type_buf false s; Some (s, RoutingHttp3)
  | Some UniMalformedSessionId =>
    s ← feed_ignoring stream_id type_buf false s; code ← id_error_application_error; Some (s, RoutingOver (Some code))
  | Some UniForeignSession => code ← id_error_application_error; Some (s, RoutingOver (Some code))
  end.
Definition route_http3 (stream_id : Z) (r : result E (option bytes)) (s : ConnectionState) : option (ConnectionState * Routing) :=
  '(s, cont) ← apply_uni_recv_action (T := E) stream_id (classify_uni_recv stream_reset_code r) s;
  Some (s, match cont with Ok true => RoutingHttp3 | _ => RoutingOver None end).
Definition route_turn (expected : option Z) (stream_id : Z) (x : Routing) (r : result E (option bytes)) (s : ConnectionState)
    : option (ConnectionState * Routing) :=
  match x with
  | RoutingHeader type_buf =>
    match r with
    | Ok (Some data) => route_header expected stream_id (type_buf ++ data) s
    | Ok None => s ← feed_ignoring stream_id [] true s; Some (s, RoutingOver None)
    | Err _ => Some (s, RoutingOver None)
    end
  | RoutingHttp3 => route_http3 stream_id r s
  | RoutingSession _ | RoutingOver _ => Some (s, x)
  end.

(** The session a stream must name: the client checks it here, the server only in
    [accept_bi_stream]. *)
Definition route_expects (r : Role) (session_id : Z) : option Z := match r with Client => Some session_id | Server => None end.

Definition has_returned (x : Routing) : bool := match x with RoutingSession _ | RoutingOver _ => true | _ => false end.
(** What is received, each with what the other tasks do to the connection before it comes.
    What the task has not received when it ends is left for the session. *)
Fixpoint route_uni_stream (expected : option Z) (stream_id : Z) (script : list ((ConnectionState -> ConnectionState) * result E (option bytes)))
    (x : Routing) (s : ConnectionState) : option (ConnectionState * Routing * list (result E (option bytes))) :=
  match script with
  | [] => Some (s, x, [])
  | (others, r) :: rest =>
    if has_returned x then Some (s, x, map snd script)
    else '(s, x) ← route_turn expected stream_id x r (others s); route_uni_stream expected stream_id rest x s
  end.
End streams.

(** ** What the sending half of a stream carries *)
Section sending.
Context {E : Type} (quic : Z -> list StreamAction -> StreamAction -> result E unit).

(** The bytes, and whether the stream is finished. *)
Fixpoint carried (performed : list StreamAction) : bytes * bool :=
  match performed with
  | [] => ([], false)
  | ActSend data :: performed => let '(rest, fin) := carried performed in (data ++ rest, fin)
  | ActFinish :: _ => ([], true)
  | _ :: performed => carried performed
  end.
(** QUIC accepts what is sent on a stream until it is finished. *)
Definition reliable (stream_id : Z) : Prop := forall performed a, is_ok (quic stream_id performed a) = negb (snd (carried performed)).

(** What the application has been told it sent on a stream, and whether it finished it. *)
Fixpoint sent_on (stream_id : Z) (ops : list (wt_op (E := E))) (rs : list (result (S2nError E) unit)) : bytes :=
  match ops, rs with
  | WtSend id data :: ops, r :: rs => (if (id =? stream_id) && is_ok r then data else []) ++ sent_on stream_id ops rs
  | _ :: ops, _ :: rs => sent_on stream_id ops rs
  | _, _ => []
  end.
Definition finishes (stream_id : Z) (op : wt_op (E := E)) : bool := match op with WtFinish id => id =? stream_id | _ => false end.

(** The application has the stream, and QUIC does not use an id again. *)
Definition wt_op_ok (op : wt_op (E := E)) (h : WtHandle) : Prop :=
  match op with
  | WtOpen _ (Ok id) => wh_streams h !! id = None
  | WtOpen _ (Err _) => True
  | WtSend id _ | WtFinish id => is_Some (wh_streams h !! id)
  end.
Fixpoint wt_ops_ok (ops : list wt_op) (h : WtHandle) : Prop :=
  match ops with
  | [] => True
  | op :: ops => wt_op_ok op h /\ match run_wt_op quic op h with Some (h, _) => wt_ops_ok ops h | None => True end
  end.

Lemma carried_app p a : carried (p ++ [a]) =
  if snd (carried p) then carried p
  else match a with ActSend data => (fst (carried p) ++ data, false) | ActFinish => (fst (carried p), true) | _ => carried p end.
Proof using.
  induction p as [|b p IH]; [destruct a; cbn; by rewrite ?app_nil_r|]. destruct b; cbn [app carried]; try done.
  rewrite IH. destruct (carried p) as [d fin]. cbn [fst snd]. destruct fin; [done|]. destruct a; by rewrite ?app_assoc.
Qed.

Definition handle_ok (h : WtHandle) : Prop := header_valid (mkStreamHeader (wh_session_id h)) /\ within_limits (wh_send_fc h).

(** One action of the application on stream [stream_id], as QUIC carries it. *)
Definition grown (stream_id : Z) (op : wt_op) (r : result (S2nError E) unit) (h h' : WtHandle) : Prop := forall p,
  reliable stream_id -> wh_streams h !! stream_id = Some p -> exists p', wh_streams h' !! stream_id = Some p' /\
  carried p' = (fst (carried p) ++ sent_on stream_id [op] [r], snd (carried p) || finishes stream_id op).

Lemma grown_other stream_id op r h h' : wh_streams h' !! stream_id = wh_streams h !! stream_id ->
  sent_on stream_id [op] [r] = [] -> finishes stream_id op = false -> grown stream_id op r h h'.
Proof using. intros He Hs Hf p _ Hp. exists p. rewrite He, Hs, Hf, app_nil_r, orb_false_r. split; [done|]. by destruct (carried p). Qed.

Definition header_bytes (bidirectional : bool) (session_id : Z) : bytes :=
  stream_header_bytes (if bidirectional then BIDIRECTIONAL_SIGNAL_VALUE else UNIDIRECTIONAL_STREAM_TYPE) (mkStreamHeader session_id).
Lemma open_run b opened h : handle_ok h -> exists h' r, open_wt_stream quic b opened h = Some (h', r) /\ handle_ok h' /\
  wh_session_id h' = wh_session_id h /\
  ((exists id, opened = Ok id /\ r = Ok () /\ wh_streams h' = <[id := [ActSend (header_bytes b (wh_session_id h))]]> (wh_streams h)) \/
   (is_ok r = false /\ wh_streams h' = wh_streams h)).
Proof using.
  intros [Hv Hw]. unfold open_wt_stream. pose proof (open_within (T := E) b _ Hw) as Hw'.
  destruct (fc_try_open_stream b (wh_send_fc h)) as [f [[]|e]]; cbn [fst] in Hw'.
  2: { eexists _, _. split; [done|]. split; [by split|]. split; [done|]. by right. }
  destruct opened as [id|e]; [|eexists _, _; split; [done|]; split; [by split|]; split; [done|]; by right].
  change (wh_session_id (set_wh_send_fc f h)) with (wh_session_id h).
  rewrite (proj2 (stream_header_new_spec (wh_session_id h) (mkStreamHeader (wh_session_id h)) ltac:(destruct Hv as [[] _]; done)) (conj eq_refl Hv)).
  cbn [ok mbind option_bind].
  replace ((if b then encode_bidirectional else encode_unidirectional) [] (mkStreamHeader (wh_session_id h)))
    with (Some (header_bytes b (wh_session_id h))) by (destruct b; symmetry; apply encode_stream_header_spec; try done; first [by left|by right]).
  cbn [mbind option_bind]. destruct (quic id [] _) as [[]|e]; eexists _, _; (split; [done|]); (split; [by split|]); (split; [done|]).
  - left. by exists id.
  - by right.
Qed.

Lemma action_run id a h p : wh_streams h !! id = Some p -> stream_action quic id a h =
  Some (set_performed id (p ++ [a]) h, map_err Transport (quic id p a)).
Proof using. intros Hp. unfold stream_action. by rewrite Hp. Qed.
Lemma action_grown stream_id op id a h p : wh_streams h !! id = Some p ->
  (id = stream_id -> a = match op with WtSend _ data => ActSend data | _ => ActFinish end /\ match op with WtOpen _ _ => False | _ => True end) ->
  match op with WtSend i _ | WtFinish i => i = id | _ => False end ->
  grown stream_id op (map_err Transport (quic id p a)) h (set_performed id (p ++ [a]) h).
Proof using.
  intros Hp Ha Hop. destruct (Z.eq_dec id stream_id) as [->|Hne].
  - intros p1 Hrel Hp1. simplify_eq. destruct (Ha eq_refl) as [-> _]. exists (p ++ [match op with WtSend _ data => ActSend data | _ => ActFinish end]).
    split; [apply lookup_insert_eq|]. rewrite carried_app. pose proof (Hrel p (match op with WtSend _ data => ActSend data | _ => ActFinish end)) as Hq.
    destruct op as [|i data|i]; [done|subst i..]; cbn [sent_on finishes].
    + rewrite Z.eqb_refl. destruct (quic stream_id p (ActSend data)); cbn in *; destruct (snd (carried p)) eqn:Ef; try done; cbn; rewrite ?app_nil_r; try done.
      by destruct (carried p); cbn in *; subst.
    + rewrite Z.eqb_refl, app_nil_r. destruct (carried p) as [d []]; done.
  - apply grown_other.
    + cbn. by apply lookup_insert_ne.
    + destruct op as [|i data|i]; [done|subst i..]; cbn; [|done]. by rewrite (proj2 (Z.eqb_neq _ _)) by done.
    + destruct op as [|i data|i]; [done|done|subst i]; cbn. by apply Z.eqb_neq.
Qed.

Lemma op_run op h : handle_ok h -> wt_op_ok op h -> exists h' r, run_wt_op quic op h = Some (h', r) /\ handle_ok h' /\
  wh_session_id h' = wh_session_id h /\ forall id, grown id op r h h'.
Proof using.
  intros Hh Hop. pose proof Hh as [Hv Hw]. destruct op as [b opened|id data|id]; cbn [run_wt_op wt_op_ok] in *.
  - destruct (open_run b opened h Hh) as (h' & r & E1 & Hh' & Hs & Hcase). exists h', r. split_and!; try done. intros id'.
    destruct Hcase as [(id & -> & -> & Hst)|[Hr Hst]]; [|by apply grown_other; [rewrite Hst|..]].
    intros p Hrel Hp. apply (grown_other id' (WtOpen b (Ok id)) (Ok ()) h h'); try done. rewrite Hst.
    apply lookup_insert_ne. intros <-. congruence.
  - unfold wt_stream_send. pose proof (send_within (T := E) (len data) _ ltac:(apply len_nonneg) Hw) as Hw'.
    destruct (fc_try_send_data (len data) (wh_send_fc h)) as [f [[]|e]]; cbn [fst] in Hw'.
    + destruct Hop as [p Hp]. rewrite (action_run id _ (set_wh_send_fc f h) p) by done. eexists _, _. split; [done|]. split; [by split|]. split; [done|].
      intros id'. intros p' Hrel Hp'. apply (action_grown id' (WtSend id data) id (ActSend data) (set_wh_send_fc f h) p); done.
    + eexists _, _. split; [done|]. split; [by split|]. split; [done|]. intros id'. apply grown_other; [done| |done]. cbn. by rewrite andb_false_r.
  - destruct Hop as [p Hp]. unfold wt_stream_finish. rewrite (action_run id _ h p) by done. eexists _, _. split; [done|].
    split; [by split|]. split; [done|]. intros id'. by apply action_grown.
Qed.

Lemma ops_run ops : forall h, handle_ok h -> wt_ops_ok ops h -> exists h' rs, run_wt_ops quic ops h = Some (h', rs) /\ handle_ok h' /\
  wh_session_id h' = wh_session_id h /\ forall id p, reliable id -> wh_streams h !! id = Some p -> exists p', wh_streams h' !! id = Some p' /\
  carried p' = (fst (carried p) ++ sent_on id ops rs, snd (carried p) || existsb (finishes id) ops).
Proof using.
  induction ops as [|op ops IH]; intros h Hh Hops.
  - exists h, []. split_and!; try done. intros id p _ Hp. exists p. cbn. rewrite app_nil_r, orb_false_r. split; [done|by destruct (carried p)].
  - cbn [run_wt_ops wt_ops_ok] in *. destruct Hops as [Hop Hops]. destruct (op_run op h Hh Hop) as (h1 & r & E1 & Hh1 & Hs1 & Hg).
    rewrite E1 in *. cbn [mbind option_bind]. destruct (IH h1 Hh1 Hops) as (h2 & rs & E2 & Hh2 & Hs2 & Hg2). rewrite E2. cbn [mbind option_bind].
    exists h2, (r :: rs). split_and!; [done|done|congruence|]. intros id p Hrel Hp. destruct (Hg id p Hrel Hp) as (p1 & Hp1 & Hc1).
    destruct (Hg2 id p1 Hrel Hp1) as (p2 & Hp2 & Hc2). exists p2. split; [done|]. rewrite Hc2, Hc1. cbn [fst snd existsb]. rewrite <- app_assoc, orb_assoc.
    f_equal. f_equal. destruct op; cbn [sent_on]; by rewrite ?app_nil_r.
Qed.
Lemma opened_stream b id h h1 : handle_ok h -> run_wt_op quic (WtOpen b (Ok id)) h = Some (h1, Ok ()) ->
  handle_ok h1 /\ wh_session_id h1 = wh_session_id h /\ wh_streams h1 !! id = Some [ActSend (header_bytes b (wh_session_id h))].
Proof using.
  intros Hh E1. destruct (open_run b (Ok id) h Hh) as (h' & r & E2 & Hh' & Hs & Hcase). cbn [run_wt_op] in E1. rewrite E2 in E1. injection E1 as -> ->.
  split_and!; [done..|]. destruct Hcase as [(id' & [= <-] & _ & ->)|[? _]]; [apply lookup_insert_eq|done].
Qed.
End sending.

(** ** What the receiving half hands out *)
Section receiving.
Context {E : Type}.

(** The bytes before anything else is received, and what that is. *)
Fixpoint leading (received : list (result E (option bytes))) : bytes :=
  match received with Ok (Some data) :: received => data ++ leading received | _ => [] end.
Fixpoint ending (received : list (result E (option bytes))) : option (result E unit) :=
  match received with
  | Ok (Some _) :: received => ending received
  | Ok None :: _ => Some (Ok ())
  | Err e :: _ => Some (Err e)
  | [] => None
  end.
Definition stream_end (received : list (result E (option bytes))) : option (S2nError E) :=
  match ending received with Some (Ok _) => Some S2nStreamClosed | Some (Err e) => Some (Transport e) | None => None end.
Definition all_read (h : RecvHalf (E := E)) : bytes := rh_pending h ++ leading (rh_received h).

(** [n] reads, all of them successful. *)
Fixpoint reads (n : nat) (h : RecvHalf (E := E)) : option (RecvHalf * bytes) :=
  match n with
  | O => Some (h, [])
  | S n =>
    match wt_stream_recv h with
    | (h, Some (Ok data)) => '(h, rest) ← reads n h; Some (h, data ++ rest)
    | _ => None
    end
  end.

Lemma reads_all (h : RecvHalf (E := E)) : exists n h', reads n h = Some (h', all_read h) /\
  snd (wt_stream_recv h') = option_map Err (stream_end (rh_received h)).
Proof using.
  destruct h as [pending received]. unfold all_read, stream_end. cbn [rh_pending rh_received].
  assert (exists n h', reads n (mkRecvHalf [] received) = Some (h', leading received) /\
    snd (wt_stream_recv h') = option_map Err (match ending received with Some (Ok _) => Some S2nStreamClosed | Some (Err e) => Some (Transport e) | None => None end))
    as (n & h' & Hr & He).
  { induction received as [|[[data|]|e] received IH]; try by eexists O, _.
    destruct IH as (n & h' & Hr & He). exists (S n), h'. cbn. by rewrite Hr. }
  destruct pending as [|x pending]; [by exists n, h'|]. exists (S n), h'. cbn. by rewrite Hr.
Qed.

(** *** The header of a bidirectional stream *)
Definition bi_verdict (session_id : Z) (received : list (result E (option bytes))) (buf : bytes) (a : Accepting (E := E)) : Prop :=
  match classify_bi_stream_header buf session_id with
  | Some (BiComplete pending) => exists half, a = AcceptReturns (Ok half) None /\ all_read half = pending /\ stream_end (rh_received half) = stream_end received
  | Some BiNotWebTransport => a = AcceptReturns (Err not_webtransport) None
  | Some (BiMalformedSessionId | BiForeignSession) => a = AcceptReturns (Err (Http3 (ConnectionError IdError))) (Some 0x108)
  | None => a = match stream_end received with Some e => AcceptReturns (Err e) None | None => AcceptWaits buf end
  end.
Lemma accept_bi_spec session_id received : forall buf, bytes_ok buf -> Forall recv_ok received -> classify_bi_stream_header buf session_id = None ->
  exists a, accept_bi_loop session_id buf received = Some a /\ bi_verdict session_id received (buf ++ leading received) a.
Proof using.
  induction received as [|[[data|]|e] received IH]; intros buf Hb Hr Hc; cbn [accept_bi_loop leading].
  - eexists. split; [done|]. unfold bi_verdict. by rewrite app_nil_r, Hc.
  - inversion Hr as [|? ? Hd Hr']; subst. cbn in Hd. assert (bytes_ok (buf ++ data)) as Hb' by by apply bytes_ok_app.
    destruct (classify_bi_stream_header (buf ++ data) session_id) as [x|] eqn:Ex.
    + pose proof (classify_bi_stable _ _ (leading received) _ Hb' Ex) as Hs. rewrite <- app_assoc in Hs. unfold bi_verdict. rewrite Hs.
      destruct x as [pending| | |]; eexists; (split; [done|]); try done. by exists (mkRecvHalf pending received).
    + rewrite app_assoc. by apply IH; [|exact Hr'|].
  - eexists. split; [done|]. unfold bi_verdict. by rewrite app_nil_r, Hc.
  - eexists. split; [done|]. unfold bi_verdict. by rewrite app_nil_r, Hc.
Qed.

(** *** The routing of a unidirectional stream *)
Section routing.
Context (stream_reset_code : E -> option Z) (r : Role) (settings : Settings) (Hset : settings_ok settings).
Context (expected : option Z) (stream_id : Z) (Hid : varint_ok stream_id).

Notation sound s := (reachable r settings (h3_conn s)).
(** The other tasks keep the connection reachable. *)
Definition meanwhile_ok (others : ConnectionState -> ConnectionState) : Prop := forall s, sound s -> sound (others s).

Lemma call_sound {A} (m : state_action (T := E) A) s ops : sound s -> ops_ok ops (h3_conn s) -> follows (fun _ => []) m s ops ->
  exists s' res, m s = Some (s', res) /\ sound s'.
Proof using Hset.
  intros Hs Hok Hf. destruct (follows_safe (fun _ => []) m r settings s ops Hset Hs Hok Hf) as (s' & res & Em & Hs' & _). by exists s', res.
Qed.
Lemma feed_ignoring_sound data fin s : sound s -> bytes_ok data -> exists s', feed_ignoring (E := E) stream_id data fin s = Some s' /\ sound s'.
Proof using Hset Hid.
  intros Hs Hb. destruct (call_sound (feed_stream_only stream_id data fin) s [OpFeedStream stream_id data fin]) as (s' & res & Em & Hs');
    [done|by apply one_op_fine|apply follows_feed|]. exists s'. unfold feed_ignoring. by rewrite Em.
Qed.
Lemma uni_offset buf n : bytes_ok buf -> classify_uni_stream_header buf expected = Some (UniWebTransport n) -> n <=? len buf = true.
Proof using.
  intros Hb. unfold classify_uni_stream_header. rewrite classify_spec. unfold decode_unidirectional_checked.
  destruct (decode_stream_header _ buf) as [[h k]|e] eqn:Ed.
  - pose proof (pc_consumed (PrefixCode := stream_header_prefix_code UNIDIRECTIONAL_STREAM_TYPE ltac:(by left)) _ _ _ Hb Ed) as Hk.
    intros H. apply Z.leb_le. destruct expected as [id|]; [destruct (negb _); [done|]|]; injection H as <-; lia.
  - destruct e; try done. destruct (decode buf) as [[? ?]|]; done.
Qed.

(** What becomes of a stream, by the bytes that have come. *)
Definition uni_verdict (received rest : list (result E (option bytes))) (buf : bytes) (x : Routing) : Prop :=
  match classify_uni_stream_header buf expected with
  | Some (UniWebTransport n) => exists half, x = RoutingSession (rh_pending half) /\ rest = rh_received half /\
      all_read half = drop_z n buf /\ stream_end rest = stream_end received
  | Some UniHttp3 => x = RoutingHttp3 \/ x = RoutingOver None
  | Some (UniMalformedSessionId | UniForeignSession) => x = RoutingOver (Some 0x108)
  | None => x = match stream_end received with Some _ => RoutingOver None | None => RoutingHeader buf end
  end.

Lemma route_returned x script s : has_returned x = true ->
  route_uni_stream stream_reset_code expected stream_id script x s = Some (s, x, map snd script).
Proof using. intros Hx. destruct script as [|[others received] script]; [done|]. cbn [route_uni_stream]. by rewrite Hx. Qed.
Lemma route_http3_runs script : forall s, sound s -> Forall (fun y => meanwhile_ok (fst y) /\ recv_ok (snd y)) script ->
  exists s' x rest, route_uni_stream stream_reset_code expected stream_id script RoutingHttp3 s = Some (s', x, rest) /\ sound s' /\
    (x = RoutingHttp3 \/ x = RoutingOver None).
Proof using Hset Hid.
  induction script as [|[others received] script IH]; intros s Hs Hscript; cbn [route_uni_stream has_returned].
  - eexists _, _, _. split_and!; [done..|by left].
  - inversion Hscript as [|? ? [Ho Hr] Hscript']; subst. cbn [fst snd] in *. cbn [route_turn]. unfold route_http3.
    set (a := classify_uni_recv stream_reset_code received).
    destruct (call_sound (apply_uni_recv_action stream_id a) (others s) (calls (SoApplyUniRecvAction stream_id a) (others s))) as (s1 & cont & -> & Hs1);
      [by apply Ho|by apply uni_ops_ok|apply follows_uni|]. cbn [mbind option_bind].
    destruct cont as [[]|e]; [by apply IH|..]; (eexists _, _, _; split; [by apply route_returned|]; split; [done|by right]).
Qed.
Lemma route_spec script : forall buf s, sound s -> bytes_ok buf -> classify_uni_stream_header buf expected = None ->
  Forall (fun y => meanwhile_ok (fst y) /\ recv_ok (snd y)) script ->
  exists s' x rest, route_uni_stream stream_reset_code expected stream_id script (RoutingHeader buf) s = Some (s', x, rest) /\ sound s' /\
    uni_verdict (map snd script) rest (buf ++ leading (map snd script)) x.
Proof using Hset Hid.
  induction script as [|[others received] script IH]; intros buf s Hs Hb Hc Hscript; cbn [route_uni_stream has_returned map snd fst].
  - eexists _, _, _. split_and!; [done..|]. unfold uni_verdict. cbn. by rewrite app_nil_r, Hc.
  - inversion Hscript as [|? ? [Ho Hr] Hscript']; subst. cbn [fst snd] in *. specialize (Ho s Hs). cbn [route_turn].
    destruct received as [[data|]|e]; cbn [leading].
    + assert (bytes_ok (buf ++ data)) as Hb' by by apply bytes_ok_app. unfold route_header.
      destruct (classify_uni_stream_header (buf ++ data) expected) as [x|] eqn:Ex.
      * pose proof (classify_uni_stable _ _ (leading (map snd script)) _ Hb' Ex) as Hst. rewrite <- app_assoc in Hst.
        unfold uni_verdict. rewrite Hst. destruct x as [n| | |]; [|destruct (feed_ignoring_sound (buf ++ data) false (others s) Ho Hb') as (s1 & -> & Hs1)..|];
          cbn [mbind option_bind].
        -- rewrite (uni_offset _ _ Hb' Ex). cbn [mbind option_bind]. eexists _, _, _. split; [by apply route_returned|]. split; [done|].
           exists (mkRecvHalf (drop_z n (buf ++ data)) (map snd script)). split_and!; try done. unfold all_read. cbn [rh_pending rh_received].
           apply uni_offset, Z.leb_le in Ex; [|done]. by rewrite app_assoc, (drop_z_app_le n (buf ++ data)) by done.
        -- by apply route_http3_runs.
        -- eexists _, _, _. split; [by apply route_returned|]. by split.
        -- eexists _, _, _. split; [by apply route_returned|]. by split.
      * cbn [mbind option_bind]. rewrite app_assoc. by apply IH.
    + destruct (feed_ignoring_sound [] true (others s) Ho ltac:(constructor)) as (s1 & -> & Hs1). cbn [mbind option_bind].
      eexists _, _, _. split; [by apply route_returned|]. split; [done|]. unfold uni_verdict. cbn. by rewrite app_nil_r, Hc.
    + eexists _, _, _. split; [by apply route_returned|]. split; [done|]. unfold uni_verdict. cbn. by rewrite app_nil_r, Hc.
Qed.
End routing.

(** A stream of the session, in either direction. *)
Lemma header_accepted r id data : header_valid (mkStreamHeader id) ->
  classify_bi_stream_header [] id = None /\ classify_uni_stream_header [] (route_expects r id) = None /\
  classify_bi_stream_header (header_bytes true id ++ data) id = Some (BiComplete data) /\
  (exists n, classify_uni_stream_header (header_bytes false id ++ data) (route_expects r id) = Some (UniWebTransport n) /\
    drop_z n (header_bytes false id ++ data) = data).
Proof using.
  intros Hv. pose proof (stream_header_prefix_code BIDIRECTIONAL_SIGNAL_VALUE ltac:(by right)).
  pose proof (stream_header_prefix_code UNIDIRECTIONAL_STREAM_TYPE ltac:(by left)).
  split_and!; [done|by destruct r| |].
  - unfold classify_bi_stream_header, decode_bidirectional_checked, header_bytes.
    rewrite (pc_decode (enc := stream_header_bytes BIDIRECTIONAL_SIGNAL_VALUE)) by done. by rewrite drop_z_app_len, Z.eqb_refl.
  - exists (len (header_bytes false id)). split; [|apply drop_z_app_len].
    unfold classify_uni_stream_header. rewrite classify_spec. unfold decode_unidirectional_checked, header_bytes.
    rewrite (pc_decode (enc := stream_header_bytes UNIDIRECTIONAL_STREAM_TYPE)) by done. cbn [session_id].
    destruct r; cbn [route_expects]; by rewrite ?Z.eqb_refl.
Qed.

(** *** The same, read from the bytes

    How a stream begins: a varint for its type, then, if the type is the one looked for,
    the id of a session. *)
Inductive StreamStart := StartsShort | StartsOther | StartsWith (id : Z) (rest : bytes).
Definition stream_start (type : Z) (buf : bytes) : StreamStart :=
  match decode buf with
  | Err _ => StartsShort
  | Ok (t, n) =>
    if t =? type then
      match decode (drop_z n buf) with Err _ => StartsShort | Ok (id, m) => StartsWith id (drop_z (n + m) buf) end
    else StartsOther
  end.

Definition bi_outcome (session_id : Z) (received : list (result E (option bytes))) (a : Accepting (E := E)) : Prop :=
  match stream_start 0x41 (leading received) with
  | StartsShort => a = match stream_end received with Some e => AcceptReturns (Err e) None | None => AcceptWaits (leading received) end
  | StartsOther => a = AcceptReturns (Err not_webtransport) None
  | StartsWith id rest =>
    if bool_decide (id = session_id /\ id mod 4 = 0)
    then exists half, a = AcceptReturns (Ok half) None /\ all_read half = rest /\ stream_end (rh_received half) = stream_end received
    else a = AcceptReturns (Err (Http3 (ConnectionError IdError))) (Some 0x108)
  end.
Definition uni_outcome (r : Role) (session_id : Z) (received rest : list (result E (option bytes))) (x : Routing) : Prop :=
  match stream_start 0x54 (leading received) with
  | StartsShort => x = match stream_end received with Some _ => RoutingOver None | None => RoutingHeader (leading received) end
  | StartsOther => x = RoutingHttp3 \/ x = RoutingOver None
  | StartsWith id data =>
    if bool_decide (id mod 4 = 0 /\ (r = Client -> id = session_id))
    then exists half, x = RoutingSession (rh_pending half) /\ rest = rh_received half /\
      all_read half = data /\ stream_end rest = stream_end received
    else x = RoutingOver (Some 0x108)
  end.

Lemma classify_bi_start buf id : classify_bi_stream_header buf id =
  match stream_start 0x41 buf with
  | StartsShort => None
  | StartsOther => Some BiNotWebTransport
  | StartsWith i rest => Some (if negb (i mod 4 =? 0) then BiMalformedSessionId else if i =? id then BiComplete rest else BiForeignSession)
  end.
Proof using.
  unfold classify_bi_stream_header, decode_bidirectional_checked, decode_stream_header, decode_varint, stream_start.
  change BIDIRECTIONAL_SIGNAL_VALUE with 0x41. destruct (decode buf) as [[t n]|]; [|done]. cbn [ok ok_or mbind result_bind].
  destruct (t =? 0x41); [|done]. cbn [negb]. destruct (decode (drop_z n buf)) as [[i m]|]; [|done].
  cbn [ok ok_or mbind result_bind]. destruct (i mod 4 =? 0); [|done]. cbn. by destruct (i =? id).
Qed.
Lemma classify_uni_start buf expected : match stream_start 0x54 buf with
  | StartsShort => classify_uni_stream_header buf expected = None
  | StartsOther => classify_uni_stream_header buf expected = Some UniHttp3
  | StartsWith i rest => exists n, drop_z n buf = rest /\ classify_uni_stream_header buf expected =
      Some (if negb (i mod 4 =? 0) then UniMalformedSessionId
        else if match expected with Some id => negb (i =? id) | None => false end then UniForeignSession else UniWebTransport n)
  end.
Proof using.
  unfold classify_uni_stream_header, classify_uni_stream_checked, stream_start. change UNIDIRECTIONAL_STREAM_TYPE with 0x54.
  destruct (decode buf) as [[t n]|]; [|done]. cbn [ok ok_or mbind result_bind]. destruct (t =? 0x54); [|done].
  destruct (decode (drop_z n buf)) as [[i m]|]; [|done]. cbn [ok ok_or mbind result_bind]. exists (n + m). split; [done|].
  destruct (i mod 4 =? 0); [|done]. cbn. destruct expected as [id|]; [|done]. by destruct (i =? id).
Qed.
Lemma bi_verdict_outcome session_id received a : bi_verdict session_id received (leading received) a -> bi_outcome session_id received a.
Proof using.
  unfold bi_verdict, bi_outcome. rewrite classify_bi_start. destruct (stream_start 0x41 _) as [| |id rest]; [done..|].
  case_bool_decide as Hb.
  - destruct Hb as [-> ->]. by rewrite !Z.eqb_refl.
  - destruct (Z.eqb_spec (id mod 4) 0); [|done]. cbn [negb]. destruct (Z.eqb_spec id session_id); [|done]. by destruct Hb.
Qed.
Lemma uni_verdict_outcome r session_id received rest x :
  uni_verdict (route_expects r session_id) received rest (leading received) x -> uni_outcome r session_id received rest x.
Proof using.
  unfold uni_verdict, uni_outcome. pose proof (classify_uni_start (leading received) (route_expects r session_id)) as H.
  destruct (stream_start 0x54 _) as [| |id left]; [by rewrite H..|]. destruct H as (n & <- & ->).
  case_bool_decide as Hb.
  - destruct Hb as [-> Hc]. rewrite Z.eqb_refl. destruct r; [|done]. cbn [route_expects negb]. by rewrite Hc, Z.eqb_refl.
  - destruct (Z.eqb_spec (id mod 4) 0); [|done]. destruct r; cbn [route_expects negb]; [|by destruct Hb].
    destruct (Z.eqb_spec id session_id); [|done]. by destruct Hb.
Qed.

Lemma leading_chunks chunks (rest : list (result E (option bytes))) : leading (map (fun data => Ok (Some data)) chunks ++ rest) = concat chunks ++ leading rest.
Proof using. induction chunks as [|d chunks IH]; [done|]. cbn. by rewrite IH, app_assoc. Qed.
Lemma ending_chunks chunks (rest : list (result E (option bytes))) : ending (map (fun data => Ok (Some data)) chunks ++ rest) = ending rest.
Proof using. by induction chunks. Qed.
Lemma script_recv_ok r settings (script : list ((ConnectionState -> ConnectionState) * result E (option bytes))) chunks rest :
  Forall (fun y => meanwhile_ok r settings (fst y)) script -> Forall bytes_ok chunks -> Forall recv_ok rest ->
  map snd script = map (fun data => Ok (Some data)) chunks ++ rest ->
  Forall (fun y => meanwhile_ok r settings (fst y) /\ recv_ok (snd y)) script.
Proof using.
  intros Hm Hb Hr He. apply Forall_and. split; [done|]. apply Forall_map. rewrite He. apply Forall_app. split; [by apply Forall_map|done].
Qed.

(** A header of the session, then data: the stream is given to the application. *)
Lemma streams_arrive (stream_reset_code : E -> option Z) r settings id stream_id (bidirectional : bool) script s data :
  header_valid (mkStreamHeader id) -> settings_ok settings -> varint_ok stream_id -> reachable r settings (h3_conn s) ->
  Forall (fun y => meanwhile_ok r settings (fst y) /\ recv_ok (snd y)) script ->
  leading (map snd script) = header_bytes bidirectional id ++ data ->
  exists half,
    (if bidirectional then accept_bi_stream id (Ok (Some (stream_id, map snd script))) = Some (AcceptReturns (Ok half) None)
     else exists s', route_uni_stream stream_reset_code (route_expects r id) stream_id script (RoutingHeader []) s =
       Some (s', RoutingSession (rh_pending half), rh_received half)) /\
    all_read half = data /\ stream_end (rh_received half) = stream_end (map snd script).
Proof using.
  intros Hv Hset Hid Hs Hscript Hl. destruct (header_accepted r id data Hv) as (Hb0 & Hu0 & Hb & n & Hu & Hd).
  assert (Forall recv_ok (map snd script)) as Hr by (apply Forall_map; eapply Forall_impl; [exact Hscript|]; by intros y []).
  destruct bidirectional.
  - destruct (accept_bi_spec id (map snd script) [] ltac:(done) Hr Hb0) as (a & Ha & Hver). unfold bi_verdict in Hver. cbn [app] in Hver. rewrite Hl, Hb in Hver.
    destruct Hver as (half & -> & Hall & Hst). by exists half.
  - destruct (route_spec stream_reset_code r settings Hset (route_expects r id) stream_id Hid script [] s Hs ltac:(done) Hu0 Hscript)
      as (s' & x & rest & Hrun & _ & Hver). unfold uni_verdict in Hver. cbn [app] in Hver. rewrite Hl, Hu, Hd in Hver.
    destruct Hver as (half & -> & -> & Hall & Hst). exists half. split_and!; [by exists s'|done..].
Qed.
End receiving.

(** ** Properties *)

(** C21. What becomes of a stream of the peer depends on its bytes and not on how they are cut,
    and [stream_start] reads those bytes without the classifiers of the code.
    For a bidirectional stream, [accept_bi_stream] waits, or fails with the end of the
    stream, exactly while the type, or the id after the type WT_STREAM, is not complete; it
    returns the stream, with what follows the header still to be read, exactly when the type is
    WT_STREAM (0x41) and the id is that of this session and a multiple of four; for another id it closes the
    connection with H3_ID_ERROR (0x108), for another type it fails without closing. The
    task of a unidirectional stream, whatever the other tasks do meanwhile, does not panic
    and leaves the connection reachable. It hands the stream to the session exactly when
    its type is 0x54 and its id is a multiple of four and, at the client, that of this
    session; for another id it closes the connection. A server does not compare the id: it
    hands a stream of any session to its own. Streams of other types are neither handed to
    the session nor a reason to close. *)
Theorem streams_routed {E} (stream_reset_code : E -> option Z) r settings session_id stream_id script s :
  settings_ok settings -> varint_ok stream_id -> reachable r settings (h3_conn s) ->
  Forall (fun y => meanwhile_ok r settings (fst y) /\ recv_ok (snd y)) script ->
  let received := map snd script in
  (exists a, accept_bi_stream session_id (Ok (Some (stream_id, received))) = Some a /\ bi_outcome session_id received a) /\
  exists s' x rest, route_uni_stream stream_reset_code (route_expects r session_id) stream_id script (RoutingHeader []) s = Some (s', x, rest) /\
    reachable r settings (h3_conn s') /\ uni_outcome r session_id received rest x.
Proof.
  intros Hset Hid Hs Hscript received. assert (Forall recv_ok received) as Hr.
  { apply Forall_map. eapply Forall_impl; [exact Hscript|]. by intros y []. }
  split.
  - destruct (accept_bi_spec session_id received []) as (a & Ha & Hver); [done..|]. exists a. split; [done|]. by apply bi_verdict_outcome.
  - destruct (route_spec stream_reset_code r settings Hset (route_expects r session_id) stream_id Hid script [] s)
      as (s' & x & rest & Hrun & Hs' & Hver); [by destruct r..|]. exists s', x, rest. split_and!; [done..|]. by apply uni_verdict_outcome.
Qed.

(** C20. A stream of a session arrives whole. Once the application has opened a stream of
    either kind, it may do what it likes with this and the other streams of the session:
    nothing panics, and what it has opened and sent stays within what the peer allows. The
    bytes that QUIC carries for the stream, cut into any pieces, make the other end give
    the stream to its application, which reads what the calls of [send] on this stream
    that succeeded were given, in order and nothing else; then it is told that the stream
    is closed if it has been finished, and waits otherwise. *)
Theorem stream_arrives {E} (quic : Z -> list StreamAction -> StreamAction -> result E unit) (stream_reset_code : E -> option Z)
    (bidirectional : bool) id ops h h1 :
  handle_ok h -> reliable quic id -> run_wt_op quic (WtOpen bidirectional (Ok id)) h = Some (h1, Ok ()) -> wt_ops_ok quic ops h1 ->
  exists h' rs performed, run_wt_ops quic ops h1 = Some (h', rs) /\ within_limits (wh_send_fc h') /\
    wh_streams h' !! id = Some performed /\
  forall r settings s script chunks, settings_ok settings -> varint_ok id -> reachable r settings (h3_conn s) ->
    Forall (meanwhile_ok r settings) (map fst script) -> Forall bytes_ok chunks -> concat chunks = fst (carried performed) ->
    map snd script = map (fun data => Ok (Some data)) chunks ++ (if existsb (finishes id) ops then [Ok None] else []) ->
  exists half n half',
    (if bidirectional then accept_bi_stream (wh_session_id h) (Ok (Some (id, map snd script))) = Some (AcceptReturns (Ok half) None)
     else exists s', route_uni_stream stream_reset_code (route_expects r (wh_session_id h)) id script (RoutingHeader []) s =
       Some (s', RoutingSession (rh_pending half), rh_received half)) /\
    reads n half = Some (half', sent_on id ops rs) /\
    snd (wt_stream_recv half') = if existsb (finishes id) ops then Some (Err S2nStreamClosed) else None.
Proof.
  intros Hh Hrel Eopen Hops. destruct (opened_stream quic bidirectional id h h1 Hh Eopen) as (Hh1 & Hsid & Hp1).
  destruct (ops_run quic ops h1 Hh1 Hops) as (h' & rs & Erun & [_ Hw] & _ & Hc). destruct (Hc id _ Hrel Hp1) as (performed & Hp & Hcarried).
  exists h', rs, performed. split_and!; [done..|]. intros r settings s script chunks Hset Hid Hs Hm Hb Hcat Hrec.
  cbn [carried fst snd orb] in Hcarried. rewrite app_nil_r in Hcarried.
  assert (leading (map snd script) = header_bytes bidirectional (wh_session_id h) ++ sent_on id ops rs) as Hlead.
  { rewrite Hrec, leading_chunks, Hcat, Hcarried. cbn. by destruct (existsb _ _); rewrite app_nil_r. }
  assert (stream_end (map snd script) = if existsb (finishes id) ops then Some S2nStreamClosed else None) as Hend.
  { rewrite Hrec. unfold stream_end. rewrite ending_chunks. by destruct (existsb _ _). }
  destruct (streams_arrive stream_reset_code r settings (wh_session_id h) id bidirectional script s (sent_on id ops rs))
    as (half & Hgot & Hall & Hst); try done; [apply Hh| |].
  { rewrite Forall_map in Hm. apply (script_recv_ok r settings script chunks (if existsb (finishes id) ops then [Ok None] else [])); try done.
    by destruct (existsb _ _); repeat constructor. }
  destruct (reads_all half) as (n & half' & Hn & Hr'). exists half, n, half'. split; [done|]. rewrite Hn, Hall. split; [done|].
  rewrite Hr', Hst, Hend. by destruct (existsb _ _).
Qed.

(** ** Witnesses *)

(** What another task does with one call. *)
Definition by_call {E} (op : state_op) (s : ConnectionState) : ConnectionState :=
  match run_state_op (T := E) op s with Some (s, _) => s | None => s end.
Lemma by_call_ok {E} r settings op : settings_ok settings -> (forall s, ops_ok (calls op s) (h3_conn s)) -> meanwhile_ok r settings (by_call (E := E) op).
Proof.
  intros Hset Hop s Hs. unfold by_call.
  destruct (follows_safe (fun l => l) (run_state_op (T := E) op) r settings s (calls op s) Hset Hs (Hop s)) as (s' & res & -> & Hs' & _);
    [apply state_op_follows|done].
Qed.

(** A stream of session 0, its header in two pieces; a GOAWAY comes in between. *)
Lemma streams_routed_witness :
  exists c s' half, state_after Client wt_offer session_client = Some c /\
    route_uni_stream (fun code : Z => Some code) (Some 0) 7
      [(by_call (E := Z) SoDrainEvents, Ok (Some [0x40])); (by_call (E := Z) (SoFeedStreamOnly 3 [0x07; 0x01; 0x04] false), Ok (Some [0x54; 0x00; 0x08])); (id, Ok None)]
      (RoutingHeader []) (state_of c) = Some (s', RoutingSession (rh_pending half), rh_received half) /\
    reachable Client wt_offer (h3_conn s') /\ all_read half = [0x08].
Proof.
  destruct (state_after Client wt_offer session_client) as [c|] eqn:Ec; [|vm_compute in Ec; discriminate].
  assert (reachable Client wt_offer c) as Hr.
  { apply (state_after_reachable _ _ session_client); [vm_compute; reflexivity|exact Ec]. }
  assert (settings_ok wt_offer) as Hset by (apply (bool_decide_unpack _); vm_compute; exact I).
  destruct (streams_routed (fun code : Z => Some code) Client wt_offer 0 7
    [(by_call (E := Z) SoDrainEvents, Ok (Some [0x40])); (by_call (E := Z) (SoFeedStreamOnly 3 [0x07; 0x01; 0x04] false), Ok (Some [0x54; 0x00; 0x08])); (id, Ok None)]
    (state_of c)) as (_ & s' & x & rest & Erun & Hs' & Hver).
  - exact Hset.
  - unfold varint_ok, VARINT_MAX. lia.
  - exact Hr.
  - assert (forall s, ops_ok [OpDrainEvents] (h3_conn s)) as H1.
    { intros s. split; [exact I|]. destruct (run_op _ _) as [[? ?]|]; exact I. }
    assert (forall s, ops_ok [OpFeedStream 3 [0x07; 0x01; 0x04] false] (h3_conn s)) as H2.
    { intros s. split; [split; [unfold varint_ok, VARINT_MAX; lia|solve_bytes]|]. destruct (run_op _ _) as [[? ?]|]; exact I. }
    apply Forall_cons_2; [split; [apply by_call_ok; [exact Hset|exact H1]|cbn; solve_bytes]|].
    apply Forall_cons_2; [split; [apply by_call_ok; [exact Hset|exact H2]|cbn; solve_bytes]|].
    apply Forall_cons_2; [split; [intros s Hs; exact Hs|exact I]|]. constructor.
  - destruct Hver as (half & -> & -> & Hall & _). exists c, s', half. split; [reflexivity|]. split; [exact Erun|]. split; [exact Hs'|exact Hall].
Defined.

(** The peer allows ten bytes; what is sent after the end is refused by QUIC. *)
Definition careful_quic (stream_id : Z) (performed : list StreamAction) (a : StreamAction) : result Z unit :=
  if snd (carried performed) then Err 5 else Ok ().
Lemma stream_arrives_witness :
  exists c half n half', state_after Client wt_offer session_client = Some c /\
    accept_bi_stream 0 (Ok (Some (4, [Ok (Some [0x40]); Ok (Some [0x41; 0x00; 1; 2]); Ok (Some [3; 4]); Ok None]))) = Some (AcceptReturns (E := Z) (Ok half) None) /\
    reads n half = Some (half', [1; 2; 3; 4]) /\ snd (wt_stream_recv half') = Some (Err S2nStreamClosed).
Proof.
  destruct (state_after Client wt_offer session_client) as [c|] eqn:Ec; [|vm_compute in Ec; discriminate].
  assert (reachable Client wt_offer c) as Hr.
  { apply (state_after_reachable _ _ session_client); [vm_compute; reflexivity|exact Ec]. }
  set (ops := [WtSend 4 [1; 2; 3]; WtSend 4 [7; 7; 7; 7; 7; 7; 7; 7]; WtSend 4 [4]; WtFinish 4; WtSend 4 [9]] : list (wt_op (E := Z))).
  set (h := mkWtHandle 0 (send_fc_new true (mkLimits 1 1 10)) ∅).
  destruct (run_wt_op careful_quic (WtOpen true (Ok 4)) h) as [[h1 [[]|e]]|] eqn:E1; [|vm_compute in E1; discriminate..].
  destruct (stream_arrives careful_quic (fun code : Z => Some code) true 4 ops h h1) as (h' & rs & performed & Erun & _ & Hp & Harr).
  - split; [split; [unfold varint_ok, VARINT_MAX; cbn; lia|reflexivity]|]. intros _. split; [intros []; cbn; unfold U64_MAX; lia|cbn; unfold U64_MAX; lia].
  - intros p a. unfold careful_quic. destruct (snd (carried p)); reflexivity.
  - exact E1.
  - vm_compute in E1. injection E1 as <-. cbn. repeat split; eexists; reflexivity.
  - destruct (Harr Client wt_offer (state_of c)
      [(id, Ok (Some [0x40])); (id, Ok (Some [0x41; 0x00; 1; 2])); (id, Ok (Some [3; 4])); (id, Ok None)]
      [[0x40]; [0x41; 0x00; 1; 2]; [3; 4]]) as (half & n & half' & Hacc & Hreads & Hlast).
    + apply (bool_decide_unpack _). vm_compute. exact I.
    + unfold varint_ok, VARINT_MAX. lia.
    + exact Hr.
    + repeat (apply Forall_cons_2; [intros s Hs; exact Hs|]). constructor.
    + repeat constructor; cbn; lia.
    + vm_compute in E1. injection E1 as <-. vm_compute in Erun. injection Erun as <- <-. vm_compute in Hp. injection Hp as <-. reflexivity.
    + reflexivity.
    + exists c, half, n, half'. split; [reflexivity|]. split; [exact Hacc|]. split; [|exact Hlast].
      vm_compute in E1. injection E1 as <-. vm_compute in Erun. injection Erun as _ <-. exact Hreads.
Defined.
