(* ===== verification/S2nHandshake.v ===== *)
(** crates/tokio-s2n-quic/src/webtransport/client.rs and server.rs: how a session comes about.
    [WtClient::connect] opens the streams of the connection and that of the CONNECT request,
    waits for the peer's SETTINGS, asks and waits for the response; the server's
    [WtSessionRequest] is made from what arrives on the first stream of the client, and is
    accepted or rejected. Both then start the tasks of S2nConnect.v.

    What a handshake waits for is given by a list; before each item, the tasks of the peer's
    unidirectional streams (S2nStreams.v) use the connection. When the list ends it goes on
    waiting. QUIC is a parameter, as in S2nTasks.v. *)

From Stdlib Require Import String Ascii.
From S2P Require Import Prelude Codec Varint Header Settings Frame Error Stream EncoderStream QpackEncoder ControlStream RequestStream WtStream Validation WtError Capsule FlowControl Session Event Datagram WtSession Connect Display Connection ConnInvariant ConnNegotiation ConnWtSession ConnWtStream ConnReceive ConnSafety ConnSend ConnSendSafety ConnRun ConnEvents ConnClose ConnOutgoing S2nSession S2nState S2nTasks S2nConnect S2nStreams.

Section handshake.
Context {E : Type} (quic : list StreamAction -> StreamAction -> result E unit).

(** ** A task that may go on waiting: [None] for a result then *)
Definition handshake (A : Type) : Type := Task -> option (Task * option (result (S2nError E) A)).
#[export] Instance handshake_ret : MRet handshake := fun _ a t => Some (t, Some (Ok a)).
#[export] Instance handshake_bind : MBind handshake := fun _ _ f m t =>
  match m t with
  | Some (t, Some (Ok a)) => f a t
  | Some (t, Some (Err e)) => Some (t, Some (Err e))
  | Some (t, None) => Some (t, None)
  | None => None
  end.
Definition at_once {A} (m : task (E := E) A) : handshake A := fun t =>
  match m t with Some (t, r) => Some (t, Some r) | None => None end.
Definition fails {A} (e : S2nError E) : handshake A := fun t => Some (t, Some (Err e)).
Definition goes_on_waiting {A} : handshake A := fun t => Some (t, None).
Definition of_transport {A} (r : result E A) : handshake A := fun t => Some (t, Some (map_err Transport r)).
Definition of_outcome {A} (r : result (S2nError E) A) : handshake A := fun t => Some (t, Some r).
(** The other tasks use the connection. *)
Definition meanwhile_do (others : ConnectionState -> ConnectionState) : handshake unit := fun t =>
  Some (with_state (others (tk_state t)) t, Some (Ok ())).
Definition reads_conn {A} (f : Connection -> A) : handshake A := fun t => Some (t, Some (Ok (f (h3_conn (tk_state t))))).

(** ** The critical streams, at both ends

    [control], [encoder] and [decoder] are what opening them returned. *)
Definition initial_data (control_stream_id encoder_stream_id decoder_stream_id : Z) : state_action (T := E) H3InitData :=
  init ← state_init_h3_streams control_stream_id encoder_stream_id decoder_stream_id;
  on_conn (set_webtransport_transport_verified true true);;
  mret init.
Definition send_initial (send : Z -> bytes -> result E unit) (stream_id : Z) (data : bytes) : handshake unit :=
  if negb (is_empty_bytes data) then of_transport (send stream_id data) else mret ().
Definition open_critical_streams (send : Z -> bytes -> result E unit) (control encoder decoder : result E Z) : handshake unit :=
  control_stream_id ← of_transport control;
  encoder_stream_id ← of_transport encoder;
  decoder_stream_id ← of_transport decoder;
  init ← at_once (locked (initial_data control_stream_id encoder_stream_id decoder_stream_id));
  send_initial send control_stream_id (control_data init);;
  send_initial send encoder_stream_id (encoder_data init);;
  send_initial send decoder_stream_id (decoder_data init).

(** The wait for the peer's SETTINGS: woken by a notification, or by the end of the task that
    accepts the peer's streams (true). *)
Fixpoint wait_peer_settings (script : list ((ConnectionState -> ConnectionState) * bool)) : handshake unit :=
  ready ← reads_conn (fun c => is_some (peer_settings c));
  if (ready : bool) then mret ()
  else
    match script with
    | [] => goes_on_waiting
    | (others, closed) :: script =>
      meanwhile_do others;;
      if (closed : bool) then
        ready ← reads_conn (fun c => is_some (peer_settings c));
        if (ready : bool) then mret () else fails ConnectionClosed
      else wait_peer_settings script
    end.

(** ** The loop that waits for the other end's headers

    [absorb] is what it makes of events, [finished] whether that is enough, [leaves] whether
    it then ends without another look at the queue. *)
Inductive Woken := WokenReceived (r : result E (option bytes)) | WokenNotified.
Section handshake_loop.
Context {Acc : Type} (stream_id : Z) (absorb : list Event -> Acc -> result (S2nError E) Acc) (finished leaves : Acc -> bool).

Definition handshake_received (r : result E (option bytes)) (acc : Acc) : handshake Acc :=
  match r with
  | Err e => fails (Transport e)
  | Ok o =>
    let fin := negb (is_some o) in
    l ← at_once (or_handle (locked (process_stream_data stream_id (default [] o) fin))
      (fun e => reset_stream_on_stream_error quic e;; failing e));
    acc ← of_outcome (absorb l acc);
    if fin && negb (finished acc) then fails ConnectionClosed else mret acc
  end.
Fixpoint handshake_loop (script : list ((ConnectionState -> ConnectionState) * Woken)) (acc : Acc) : handshake Acc :=
  l ← at_once (locked state_drain_events);
  acc ← of_outcome (absorb l acc);
  if finished acc then mret acc
  else
    match script with
    | [] => goes_on_waiting
    | (others, woken) :: script =>
      meanwhile_do others;;
      match woken with
      | WokenNotified => handshake_loop script acc
      | WokenReceived r =>
        acc ← handshake_received r acc;
        if leaves acc then mret acc else handshake_loop script acc
      end
    end.
End handshake_loop.

(** ** [WtClient::connect] *)
Record ClientConfig := mkClientConfig { cc_server_name : bytes; cc_draft_version : DraftVersion }.
(** What the session starts with. *)
Record WtSessionStart := mkSessionStart {
  ss_session_id : Z; ss_send_fc : WtSendFlowControl; ss_capsules : list Capsule; ss_events : list WebTransportEvent }.

Definition unexpected_stream_id (expected got : Z) : S2nError E :=
  Internal (str "unexpected CONNECT stream id: expected " ++ decimal expected ++ str ", got " ++ decimal got).
Definition connect_headers (config : ClientConfig) (path : bytes) : result (S2nError E) (list Header) :=
  map_err s2n_header_error
    (connect_to_headers (draft_version (cc_draft_version config) (connect_request_new (str "https") (cc_server_name config) path))).
Definition connect_request_data (config : ClientConfig) (path : bytes) (connect_stream_id : Z) : state_action (T := E) bytes :=
  headers ← of_result (connect_headers config path);
  h3_stream_id ← state_send_request headers false;
  if negb (h3_stream_id =? connect_stream_id) then of_result (Err (unexpected_stream_id connect_stream_id h3_stream_id))
  else
    taken ← state_get_stream_data h3_stream_id;
    mret (match taken with Some (data, _) => data | None => [] end).

Definition absorb_response (l : list Event) (h : HandshakeState) : result (S2nError E) HandshakeState :=
  match process_handshake_events l h with (h, Ok _) => Ok h | (_, Err e) => Err e end.
Definition handshake_new : HandshakeState := mkHandshake None false [] [].
Definition session_send_fc (session_id : Z) (c : Connection) : WtSendFlowControl :=
  send_fc_new (wt_session_flow_control_enabled session_id c) (peer_wt_send_limits (peer_settings c)).

(** [connect] is what opening the stream of the request returned; [during_send] is what the
    other tasks do while the request is sent. *)
Definition wt_client_connect (send : Z -> bytes -> result E unit) (config : ClientConfig) (path : bytes)
    (control encoder decoder connect : result E Z) (settings_script : list ((ConnectionState -> ConnectionState) * bool))
    (during_send : ConnectionState -> ConnectionState) (response_script : list ((ConnectionState -> ConnectionState) * Woken))
    : handshake WtSessionStart :=
  open_critical_streams send control encoder decoder;;
  connect_stream_id ← of_transport connect;
  wait_peer_settings settings_script;;
  request_data ← at_once (locked (connect_request_data config path connect_stream_id));
  meanwhile_do during_send;;
  at_once (quic_action quic (ActSend request_data));;
  h ← handshake_loop connect_stream_id absorb_response session_established (fun _ => false) response_script handshake_new;
  send_fc ← reads_conn (session_send_fc connect_stream_id);
  mret (mkSessionStart connect_stream_id send_fc (pending_flow_control_capsules h) (pending_wt_events h)).

(** ** [WtSessionRequest]: from the first stream of the client, accepted or rejected *)
Record WtSessionRequest := mkSessionRequest {
  sr_path : bytes; sr_authority : bytes; sr_stream_id : Z; sr_pending_wt_events : list WebTransportEvent }.

Definition absorb_request (l : list Event) (r : RequestState) : result (S2nError E) RequestState := Ok (collect_request_events l r).
Definition request_new_state : RequestState := mkRequest [] false [].
Definition status_headers (status : Z) : result (S2nError E) (list Header) :=
  map_err s2n_header_error (response_to_headers (connect_response_new status)).
Definition send_reject_response (stream_id status : Z) : task (E := E) unit :=
  '(data, fin) ← locked (
    headers ← of_result (status_headers status);
    on_conn (send_response stream_id headers true);;
    collect_stream_data DATA_TAKES stream_id [] false);
  quic_send_all quic data fin.

Definition validate_request (stream_id : Z) (r : RequestState) : handshake ConnectRequest :=
  match from_headers (collected_headers r) with
  | Ok request => mret request
  | Err (InvalidMethod | InvalidProtocol) => at_once (send_reject_response stream_id 405);; fails ConnectionClosed
  | Err e => fails (Internal (str "invalid CONNECT request: " ++ display_connect_error e))
  end.

(** [accepted] is what the acceptor returned, after what the other tasks do [before]. *)
Definition from_connection (send : Z -> bytes -> result E unit) (control encoder decoder : result E Z)
    (before : ConnectionState -> ConnectionState) (accepted : result E (option Z))
    (settings_script : list ((ConnectionState -> ConnectionState) * bool))
    (request_script : list ((ConnectionState -> ConnectionState) * Woken)) : handshake WtSessionRequest :=
  open_critical_streams send control encoder decoder;;
  meanwhile_do before;;
  o ← of_transport accepted;
  connect_stream_id ← of_outcome (ok_or o ConnectionClosed);
  at_once (ignoring (locked (feed_stream_only connect_stream_id [] false)));;
  wait_peer_settings settings_script;;
  r ← handshake_loop connect_stream_id absorb_request headers_complete headers_complete request_script request_new_state;
  request ← validate_request connect_stream_id r;
  mret (mkSessionRequest (cr_path request) (cr_authority request) connect_stream_id (request_wt_events r)).

Definition accept_event (session_id : Z) (x : list Capsule * list WebTransportEvent) (e : Event) : list Capsule * list WebTransportEvent :=
  let '(capsules, events) := x in
  match e with
  | EvWebTransport (WtCapsule capsule_session_id capsule) =>
    if capsule_session_id =? session_id then (capsules ++ [capsule], events) else x
  | EvWebTransport wt => if is_forwardable_wt_event wt then (capsules, events ++ [wt]) else x
  | _ => x
  end.
Definition request_accept (request : WtSessionRequest) (during_send : ConnectionState -> ConnectionState) : handshake WtSessionStart :=
  let stream_id := sr_stream_id request in
  headers ← of_outcome (status_headers 200);
  at_once (or_handle (locked (on_conn (send_response stream_id headers false)))
    (fun e => reset_stream_on_stream_error quic e;; failing e));;
  '(data, fin) ← at_once (locked (collect_stream_data DATA_TAKES stream_id [] false));
  meanwhile_do during_send;;
  at_once (quic_send_all quic data fin);;
  l ← at_once (locked state_drain_events);
  let '(capsules, events) := fold_left (accept_event stream_id) l ([], sr_pending_wt_events request) in
  send_fc ← reads_conn (session_send_fc stream_id);
  mret (mkSessionStart stream_id send_fc capsules events).

Definition reject_status_error (status : Z) : S2nError E :=
  InvalidState (str "reject status must be 4xx or 5xx, got " ++ decimal status).
Definition request_reject (request : WtSessionRequest) (status : Z) : task (E := E) unit :=
  if negb ((400 <=? status) && (status <=? 599)) then failing (reject_status_error status)
  else send_reject_response (sr_stream_id request) status.
End handshake.

(** ** Every handshake is safe and takes events from the front of the queue only *)
Section safety.
Context {E : Type} (quic : list StreamAction -> StreamAction -> result E unit) (r : Role) (settings : Settings) (Hset : settings_ok settings).
Notation task_ok := (S2nTasks.task_ok r settings).

(** What the other tasks do keeps the connection reachable, takes no event, and makes no request. *)
Definition others_ok (others : ConnectionState -> ConnectionState) : Prop := forall s, reachable r settings (h3_conn s) ->
  reachable r settings (h3_conn (others s)) /\ hands [] (h3_conn s) (h3_conn (others s)) /\ same_next (h3_conn s) (h3_conn (others s)).

(** [seen] is what was taken out of the queue; [Q] is about a result. *)
Definition runs {A} (m : handshake (E := E) A) (t : Task) (Q : A -> list Event -> Task -> Prop) : Prop :=
  exists t' o seen, m t = Some (t', o) /\ task_ok t' /\ gives seen t t' /\ match o with Some (Ok a) => Q a seen t' | _ => True end.

Lemma runs_ret {A} (a : A) t (Q : A -> list Event -> Task -> Prop) : task_ok t -> Q a [] t -> runs (mret a) t Q.
Proof using. intros Ht HQ. exists t, (Some (Ok a)), []. split_and!; try done. by apply gives_same. Qed.
Lemma runs_bind {A B} (m : handshake A) (f : A -> handshake B) t Q R : runs m t Q ->
  (forall a seen t', task_ok t' -> gives seen t t' -> Q a seen t' -> runs (f a) t' (fun b seen2 => R b (seen ++ seen2))) -> runs (m ≫= f) t R.
Proof using.
  intros (t1 & o & seen & Em & Ht1 & Hg & HQ) Hf. destruct o as [[a|e]|].
  - destruct (Hf a seen t1 Ht1 Hg HQ) as (t2 & o & seen2 & E2 & Ht2 & Hg2 & HR). exists t2, o, (seen ++ seen2).
    split; [unfold mbind, handshake_bind; by rewrite Em|]. split_and!; [done|by eapply gives_trans|done].
  - exists t1, (Some (Err e)), seen. split; [unfold mbind, handshake_bind; by rewrite Em|]. by split_and!.
  - exists t1, None, seen. split; [unfold mbind, handshake_bind; by rewrite Em|]. by split_and!.
Qed.
Lemma runs_mono {A} (m : handshake A) t (Q R : A -> list Event -> Task -> Prop) : runs m t Q ->
  (forall a seen t', gives seen t t' -> Q a seen t' -> R a seen t') -> runs m t R.
Proof using.
  intros (t' & o & seen & Em & Ht & Hg & HQ) HR. exists t', o, seen. split_and!; try done. destruct o as [[a|e]|]; auto.
Qed.
Lemma runs_fails {A} e t (Q : A -> list Event -> Task -> Prop) : task_ok t -> runs (fails e) t Q.
Proof using. intros Ht. exists t, (Some (Err e)), []. split_and!; try done. by apply gives_same. Qed.
Lemma runs_waits {A} t (Q : A -> list Event -> Task -> Prop) : task_ok t -> runs goes_on_waiting t Q.
Proof using. intros Ht. exists t, None, []. split_and!; try done. by apply gives_same. Qed.
Lemma runs_outcome {A} (o : result (S2nError E) A) t : task_ok t -> runs (of_outcome o) t (fun a seen t' => seen = [] /\ t' = t /\ o = Ok a).
Proof using. intros Ht. exists t, (Some o), []. split_and!; [done|done|by apply gives_same|by destruct o]. Qed.
Lemma runs_transport {A} (o : result E A) t : task_ok t -> runs (of_transport o) t (fun a seen t' => seen = [] /\ t' = t /\ o = Ok a).
Proof using. intros Ht. exists t, (Some (map_err Transport o)), []. split_and!; [done|done|by apply gives_same|by destruct o]. Qed.
Lemma runs_reads {A} (f : Connection -> A) t : task_ok t -> runs (reads_conn f) t (fun a seen t' => seen = [] /\ t' = t /\ a = f (conn_of t)).
Proof using. intros Ht. exists t, (Some (Ok (f (conn_of t)))), []. split_and!; try done. by apply gives_same. Qed.
Lemma runs_meanwhile others t : task_ok t -> others_ok others -> runs (meanwhile_do others) t (fun _ seen t' => seen = [] /\ same_next (conn_of t) (conn_of t')).
Proof using.
  intros Ht Ho. destruct (Ho _ Ht) as (Hr & Hh & Hn). exists (with_state (others (tk_state t)) t), (Some (Ok ())), []. by split_and!.
Qed.
Lemma runs_at_once {A} (ev : A -> list Event) (m : task A) t Q : safely r settings ev m t Q ->
  runs (at_once m) t (fun a seen t' => seen = ev a /\ Q a t' /\ m t = Some (t', Ok a)).
Proof using.
  intros (t' & res & Em & Ht & H). unfold runs, at_once. rewrite Em. destruct res as [a|e].
  - destruct H as [Hg HQ]. exists t', (Some (Ok a)), (ev a). by split_and!.
  - destruct H as [seen Hg]. exists t', (Some (Err e)), seen. by split_and!.
Qed.
Lemma action_runs a t : task_ok t -> runs (at_once (quic_action quic a)) t (fun _ seen t' => seen = [] /\ same_next (conn_of t) (conn_of t')).
Proof using.
  intros Ht. exists (perform a t), (Some (map_err Transport (quic (tk_performed t) a))), []. split_and!; [done|done|by apply gives_same|by destruct (map_err _ _)].
Qed.
(** A piece that takes no event, then the rest. *)
Lemma runs_then {A B} (m : handshake A) (f : A -> handshake B) t Q R : runs m t (fun a seen t' => seen = [] /\ Q a t') ->
  (forall a t', task_ok t' -> gives [] t t' -> Q a t' -> runs (f a) t' R) -> runs (m ≫= f) t R.
Proof using.
  intros Hm Hf. eapply runs_bind; [exact Hm|]. intros a seen t' Ht Hg [-> HQ]. by apply Hf.
Qed.

(** *** The pieces *)
Lemma locked_runs {A} (ev : A -> list Event) (m : state_action (T := E) A) t ops : task_ok t -> ops_ok ops (conn_of t) ->
  existsb is_request ops = false -> follows ev m (tk_state t) ops ->
  safely r settings ev (locked m) t (fun _ t' => same_next (conn_of t) (conn_of t')).
Proof using Hset.
  intros Ht Hok Hn Hf. destruct (locked_safely r settings Hset ev m t ops Ht Hok Hf) as (t1 & res & E1 & Ht1 & H1).
  exists t1, res. split; [done|]. split; [done|]. destruct res as [a|]; [|done]. split; [apply H1|]. revert E1. unfold locked.
  destruct (m (tk_state t)) as [[s' res]|] eqn:Em; [|done]. intros [= <- ->]. by eapply follows_next.
Qed.
Lemma initial_data_runs a b d t : task_ok t -> runs (at_once (locked (initial_data a b d))) t (fun _ seen t' => seen = [] /\ same_next (conn_of t) (conn_of t')).
Proof using Hset.
  intros Ht. eapply runs_mono.
  - apply (runs_at_once (fun _ => [])), (locked_runs _ _ _ ([OpInitH3Streams a b d] ++ [OpSetTransportVerified true true])); [done| |done|].
    + split; [done|]. destruct (run_op _ _) as [[c res]|]; [by apply one_op_ok|done].
    + apply (follows_bind (fun _ => [])); [done|by apply (follows_call _ OutInit _ _ (mkConnectionState (h3_conn (tk_state t)) _ _ _))|].
      intros init s. change [OpSetTransportVerified true true] with ([OpSetTransportVerified true true] ++ []).
      apply (follows_bind (fun _ => [])); [done|by apply (follows_call _ (fun _ => OutUnit))|]. intros [] s'. by apply follows_ret.
  - by intros init seen t' _ (-> & Hn & _).
Qed.
Lemma send_initial_runs send id data t : task_ok t -> runs (send_initial send id data) t (fun _ seen t' => seen = [] /\ t' = t).
Proof using.
  intros Ht. unfold send_initial. destruct (negb _); [|by apply runs_ret]. eapply runs_mono; [by apply runs_transport|]. by intros ? ? ? _ (? & ? & _).
Qed.
Lemma open_runs send control encoder decoder t : task_ok t ->
  runs (open_critical_streams send control encoder decoder) t (fun _ seen t' => seen = [] /\ same_next (conn_of t) (conn_of t')).
Proof using Hset.
  intros Ht. unfold open_critical_streams. do 3 (eapply runs_then; [by apply runs_transport|]; intros ? ? _ _ [-> _]).
  eapply runs_then; [by apply initial_data_runs|]. intros init t1 Ht1 _ Hn.
  do 2 (eapply runs_then; [by apply send_initial_runs|]; intros [] ? _ _ ->).
  eapply runs_mono; [by apply send_initial_runs|]. by intros [] ? ? _ (-> & ->).
Qed.

Lemma wait_runs script : forall t, task_ok t -> Forall (fun x => others_ok (fst x)) script ->
  runs (wait_peer_settings (E := E) script) t (fun _ seen t' => seen = [] /\ same_next (conn_of t) (conn_of t') /\ is_some (peer_settings (conn_of t')) = true).
Proof using.
  induction script as [|[others closed] script IH]; intros t Ht Hs; cbn [wait_peer_settings];
    (eapply runs_then; [by apply runs_reads|]; intros ready ? _ _ [-> Hready]; destruct ready; [by apply runs_ret|]); [by apply runs_waits|].
  inversion Hs as [|? ? Ho Hs']; subst. cbn [fst] in Ho. eapply runs_then; [by apply runs_meanwhile|]. intros [] t1 Ht1 _ Hn. destruct closed.
  - eapply runs_then; [by apply runs_reads|]. intros ready ? _ _ [-> Hr1]. destruct ready; [by apply runs_ret|by apply runs_fails].
  - eapply runs_mono; [by apply IH|]. intros [] seen t' _ (-> & Hn2 & Hp). split_and!; [done|by etrans|done].
Qed.

(** *** The loop: every event goes into the result, in order *)
Section loop.
Context {Acc : Type} (stream_id : Z) (Hid : varint_ok stream_id) (absorb : list Event -> Acc -> result (S2nError E) Acc) (finished leaves : Acc -> bool).
Context (into : list Event -> Acc -> Acc -> Prop).
Context (into_nil : forall a, into [] a a) (into_trans : forall l1 l2 a b c, into l1 a b -> into l2 b c -> into (l1 ++ l2) a c).
Context (absorb_into : forall l a b, absorb l a = Ok b -> into l a b).
Context (leaves_finished : forall a, leaves a = true -> finished a = true).

Lemma drained_runs t (m : task (E := E) (list Event)) acc : safely r settings (fun l => l) m t (fun _ t' => same_next (conn_of t) (conn_of t')) ->
  runs (l ← at_once m; of_outcome (absorb l acc)) t (fun acc' seen t' => into seen acc acc' /\ same_next (conn_of t) (conn_of t')).
Proof using absorb_into.
  intros Hm. eapply runs_bind; [by apply (runs_at_once (fun l => l))|]. intros l ? t1 Ht1 _ (-> & Hn & _).
  eapply runs_mono; [by apply runs_outcome|]. intros acc' ? ? _ (-> & -> & Ea). rewrite app_nil_r. split; [by apply absorb_into|done].
Qed.
Lemma or_fail_safely id data fin t : task_ok t -> varint_ok id -> bytes_ok data ->
  safely r settings (fun l => l) (or_handle (locked (process_stream_data (T := E) id data fin))
    (fun e => reset_stream_on_stream_error quic e;; failing e)) t (fun _ t' => same_next (conn_of t) (conn_of t')).
Proof using Hset.
  intros Ht Hi Hb. destruct (locked_runs (fun l => l) (process_stream_data (T := E) id data fin) t [OpFeedStream id data fin; OpDrainEvents] Ht)
    as (t1 & res & E1 & Ht1 & H1); [by apply then_drain_ok|done|apply follows_then_drain, follows_feed|].
  unfold or_handle, safely. rewrite E1. destruct res as [l|e]; [by exists t1, (Ok l)|]. destruct H1 as [seen Hg].
  destruct (reset_on_error_quietly quic r settings e t1 Ht1) as (t2 & res2 & E2 & Ht2 & H2). unfold mbind, task_bind. rewrite E2.
  destruct res2 as [[]|e2]; eexists _, (Err _); (split; [done|]); (split; [done|]).
  - destruct H2 as [Hg2 _]. exists (seen ++ []). by eapply gives_trans.
  - destruct H2 as [seen2 Hg2]. exists (seen ++ seen2). by eapply gives_trans.
Qed.
Lemma handshake_received_runs received acc t : task_ok t -> recv_ok received ->
  runs (handshake_received quic stream_id absorb finished received acc) t (fun acc' seen t' => into seen acc acc' /\ same_next (conn_of t) (conn_of t')).
Proof using Hset Hid absorb_into.
  intros Ht Hr. destruct received as [o|e]; cbn [handshake_received]; [|by apply runs_fails].
  assert (bytes_ok (default [] o)) as Hb by (destruct o; [done|constructor]).
  pose proof (drained_runs t _ acc (or_fail_safely stream_id (default [] o) (negb (is_some o)) t Ht Hid Hb)) as Hd.
  destruct Hd as (t1 & x & seen & E1 & Ht1 & Hg & Hi). revert E1. unfold runs, mbind, handshake_bind.
  destruct (at_once _ t) as [[t2 [[l|e]|]]|]; [| | |done]; try (intros [= <- <-]; by eexists _, _, seen).
  unfold of_outcome. destruct (absorb l acc) as [acc'|e]; intros [= -> <-]; [|by eexists _, _, seen].
  destruct (_ && _); by eexists _, _, seen.
Qed.
Lemma handshake_loop_runs script : forall acc t, task_ok t ->
  Forall (fun x => others_ok (fst x) /\ match snd x with WokenReceived received => recv_ok received | WokenNotified => True end) script ->
  runs (handshake_loop quic stream_id absorb finished leaves script acc) t (fun acc' seen t' =>
    into seen acc acc' /\ finished acc' = true /\ same_next (conn_of t) (conn_of t')).
Proof using Hset Hid absorb_into into_trans leaves_finished.
  induction script as [|[others woken] script IH]; intros acc t Ht Hs; cbn [handshake_loop].
  all: eapply runs_bind; [apply (runs_at_once (fun l => l)), (locked_runs (fun l => l) _ t [OpDrainEvents]);
         [done|by apply one_op_ok|done|apply follows_drain]|]; intros l ? t1 Ht1 _ (-> & Hn1 & _).
  all: eapply runs_then; [by apply runs_outcome|]; intros acc1 ? _ _ [-> Ea]; apply absorb_into in Ea.
  all: destruct (finished acc1) eqn:Ef; [apply runs_ret; [done|]; by rewrite app_nil_r|].
  - by apply runs_waits.
  - inversion Hs as [|? ? [Ho Hr] Hs']; subst. cbn [fst snd] in *. eapply runs_then; [by apply runs_meanwhile|]. intros [] t2 Ht2 _ Hn2.
    destruct woken as [received|].
    + eapply runs_bind; [by apply handshake_received_runs|]. intros acc2 seen2 t3 Ht3 _ [Hi2 Hn3]. destruct (leaves acc2) eqn:El.
      * apply runs_ret; [done|]. rewrite app_nil_r. split_and!; [eapply into_trans; [exact Ea|exact Hi2]|by apply leaves_finished|by repeat (etrans; [eassumption|])].
      * eapply runs_mono; [by apply IH|]. intros acc3 seen3 t4 _ (Hi3 & Hf3 & Hn4). split_and!; [|done|by repeat (etrans; [eassumption|])].
        eapply into_trans; [exact Ea|]. eapply into_trans; [exact Hi2|exact Hi3].
    + eapply runs_mono; [by apply IH|]. intros acc3 seen3 t4 _ (Hi3 & Hf3 & Hn4). split_and!; [|done|by repeat (etrans; [eassumption|])].
      eapply into_trans; [exact Ea|exact Hi3].
Qed.
End loop.
End safety.

(** ** Which session has started *)

(** Before the request: none. [pre] are the events that have been taken. *)
Definition fresh (c : Connection) : Prop :=
  role c = Client /\ forall id, wt_sessions c !! id = None /\ existsb (says_established id) (events c) = false.
Lemma fresh_step c c' : hands [] c c' -> same_next c c' -> fresh c -> fresh c'.
Proof.
  intros (new & En & Hch) Hn [Hr Hf]. split; [by rewrite (ch_role _ _ _ Hch)|]. intros id. destruct (Hf id) as [Hs He].
  destruct (ch_none _ _ _ Hch id Hr Hn Hs) as [Hs' He']. split; [done|]. cbn in En. by rewrite En, existsb_app, He, He'.
Qed.
(** After it: only its own, and when that has started the application can be told of its end. *)
Record started (id : Z) (pre : list Event) (c : Connection) : Prop := {
  sd_role : role c = Client;
  sd_opened : opened id c;
  sd_others : forall j, j <> id -> wt_sessions c !! j = None /\ existsb (says_established j) (pre ++ events c) = false;
  sd_live : existsb (says_established id) (pre ++ events c) = true -> live id c = true \/ existsb (says_closed id) (pre ++ events c) = true }.
Lemma started_step id pre seen c c' : hands seen c c' -> same_next c c' -> started id pre c -> started id (pre ++ seen) c'.
Proof.
  intros (new & En & Hch) Hn [Hr Ho Hj Hl].
  assert ((pre ++ seen) ++ events c' = (pre ++ events c) ++ new) as E by by rewrite <- !app_assoc, En.
  split; [by rewrite (ch_role _ _ _ Hch)|by eapply ch_opened| |]; rewrite E.
  - intros j Hne. destruct (Hj j Hne) as [Hs He]. destruct (ch_none _ _ _ Hch j Hr Hn Hs) as [Hs' He'].
    split; [done|]. by rewrite existsb_app, He, He'.
  - rewrite !existsb_app, <- !existsb_app. rewrite existsb_app, orb_true_iff. intros He. rewrite existsb_app.
    assert (live id c = true \/ existsb (says_closed id) (pre ++ events c) = true \/ existsb (says_established id) new = true) as [H|[H|H]].
    { destruct He as [He|He]; [destruct (Hl He); by auto|by auto]. }
    + destruct (ch_live _ _ _ Hch id Ho H) as [?| ->]; [by left|right]. by rewrite orb_true_r.
    + right. by rewrite H.
    + destruct (ch_established _ _ _ Hch id Ho H) as [?| ->]; [by left|right]. by rewrite orb_true_r.
Qed.
Lemma request_starts headers fin c c' id : fresh c -> send_request headers fin c = Some (c', Ok id) -> id = next_stream_id c ->
  next_stream_id c < next_stream_id c' -> started id [] c'.
Proof.
  intros [Hr Hf] E -> Hlt. destruct (send_request_asks _ _ _ _ _ E) as [[= _ _ _ Hn _]|(_ & He & Hr' & _ & _ & _ & Hs)]; [lia|].
  split; [congruence|by right| |]; rewrite He; cbn [app].
  - intros j Hne. rewrite Hs by done. apply Hf.
  - intros Hx. by rewrite (proj2 (Hf _)) in Hx.
Qed.
Lemma established_says l : existsb established_by l = true -> exists id, existsb (says_established id) l = true.
Proof.
  induction l as [|e l IH]; [done|]. cbn. rewrite orb_true_iff. intros [He|Hl]; [|destruct (IH Hl) as [id H]; exists id; by rewrite H, orb_true_r].
  destruct e as [| | | | | | | | |[]]; try done. eexists. cbn. by rewrite Z.eqb_refl.
Qed.
Lemma started_told id seen c : started id seen c -> existsb established_by seen = true ->
  to_tell id c \/ tells_end (forwarded seen).
Proof.
  intros [_ _ Hj Hl] [j He]%established_says. destruct (Z.eq_dec j id) as [->|Hne].
  - destruct Hl as [H|H]; [by rewrite existsb_app, He|by left; left|]. rewrite existsb_app, orb_true_iff in H.
    destruct H as [H|H]; [right; by eapply told_forwarded|left; by right].
  - destruct (Hj j Hne) as [_ H]. by rewrite existsb_app, He in H.
Qed.

(** The limits that the peer's settings give are those of 64-bit integers. *)
Lemma send_fc_within r settings id c : settings_ok settings -> reachable r settings c -> within_limits (session_send_fc id c).
Proof.
  intros Hset Hr _. pose proof (w_peer _ _ (reachable_wf _ _ _ Hset Hr)) as Hp. unfold session_send_fc, send_fc_new, peer_wt_send_limits. cbn [fc_limits fc_data_sent].
  assert (forall b, fc_opened b (mkSendFc (wt_session_flow_control_enabled id c) (match s ← peer_settings c; wt_settings s with
    | Some wt => mkLimits (wt_initial_max_streams_uni wt) (wt_initial_max_streams_bidi wt) (wt_initial_max_data wt) | None => limits_new end) 0 0 0) = 0) as Ho by by intros [].
  destruct (peer_settings c) as [s|]; cbn [mbind option_bind] in *; [|split; [intros []; cbn; unfold U64_MAX; lia|cbn; unfold U64_MAX; lia]].
  destruct (Hp s eq_refl) as (_ & _ & _ & Hw). destruct (wt_settings s) as [w|]; [|split; [intros []; cbn; unfold U64_MAX; lia|cbn; unfold U64_MAX; lia]].
  destruct Hw as (_ & _ & H1 & H2 & H3 & _). unfold varint_ok, VARINT_MAX, U64_MAX in *. split; [intros []; cbn; lia|cbn; lia].
Qed.

Lemma absorb_response_into {E} l h h' : absorb_response (E := E) l h = Ok h' -> absorbed l h h'.
Proof.
  unfold absorb_response. pose proof (proj1 (handshake_events_kept (T := E) l h)) as H. destruct (process_handshake_events l h) as [h1 [[]|e]]; [|done].
  by intros [= <-].
Qed.
Lemma absorbed_trans a b h h1 h2 : absorbed a h h1 -> absorbed b h1 h2 -> absorbed (a ++ b) h h2.
Proof.
  intros (A1 & A2 & A3) (B1 & B2 & B3). unfold absorbed, forwarded, capsules_of in *. rewrite existsb_app, !flat_map_app, orb_assoc, !app_assoc. split_and!; congruence.
Qed.

(** What is received is bytes, and the other tasks are as before. *)
Definition woken_ok {E} (r : Role) (settings : Settings) (x : (ConnectionState -> ConnectionState) * Woken (E := E)) : Prop :=
  others_ok r settings (fst x) /\ match snd x with WokenReceived received => recv_ok received | WokenNotified => True end.

(** ** The client *)
Section client.
Context {E : Type} (quic : list StreamAction -> StreamAction -> result E unit) (settings : Settings) (Hset : settings_ok settings).
Notation task_ok := (S2nTasks.task_ok Client settings).
Notation goes := (runs (E := E) Client settings).

Lemma request_runs config path id t : task_ok t -> next_stream_id (conn_of t) <= VARINT_MAX ->
  (forall headers, connect_headers (E := E) config path = Ok headers -> section_fits headers) -> fresh (conn_of t) ->
  goes (at_once (locked (connect_request_data config path id))) t (fun _ seen t' => seen = [] /\ started id [] (conn_of t') /\ varint_ok id).
Proof using Hset.
  intros Ht Hn Hfit Hfr. pose proof (reachable_wf _ _ _ Hset Ht) as Hw.
  eapply runs_mono.
  - apply (runs_at_once _ _ (fun _ => []) _ _ (fun _ t' => started id [] (conn_of t') /\ varint_ok id)).
    eapply (locked_bind_quietly _ _ _ _ _ (fun headers t' => connect_headers config path = Ok headers /\ t' = t)); [exact (of_result_quietly Client settings (connect_headers config path) t Ht)|].
    intros headers ? _ [Hh ->]. specialize (Hfit _ Hh).
    destruct (send_request_wp 0 (conn_of t) headers false Hw Hfit Hn) as (c' & res & E1 & _ & _ & Hres).
    eapply (locked_bind_quietly _ _ _ _ _ (fun h3_stream_id t' => started h3_stream_id [] (conn_of t') /\ varint_ok h3_stream_id)).
    + destruct (call_quietly (E := E) _ _ Hset OutStream (OpSendRequest headers false) (send_request headers false) t Ht) as (t1 & res1 & E2 & Ht1 & H1); [done..|].
      exists t1, res1. split; [exact E2|]. split; [done|]. destruct res1 as [a|]; [|done]. split; [apply H1|].
      revert E2. unfold locked, on_conn. fold (conn_of t). rewrite E1. intros [= <- Er]. destruct res as [a'|]; [|done].
      injection Er as <-. destruct Hres as (-> & Hx & _). unfold conn_of at 1. cbn [tk_state with_state h3_conn with_conn]. split.
      * eapply request_starts; [exact Hfr|exact E1|done|]. unfold conn_of at 2. cbn [tk_state with_state h3_conn with_conn]. lia.
      * destruct (w_next _ _ Hw) as [? _]. by split.
    + intros h3_stream_id t1 Ht1 [Hst Hv]. destruct (Z.eqb_spec h3_stream_id id) as [->|Hne]; cbn [negb].
      * eapply (locked_bind_quietly _ _ _ _ _ (fun _ t' => started id [] (conn_of t'))); [|intros o t2 Ht2 H; by apply locked_ret_quietly].
        destruct (locked_runs Client settings Hset (fun _ => []) (state_get_stream_data (T := E) id) t1 [OpTakeStreamData id] Ht1) as (t2 & res2 & E2 & Ht2 & H2);
          [by apply one_op_ok|done|apply follows_take|]. exists t2, res2. split; [done|]. split; [done|]. destruct res2 as [o|]; [|done].
        destruct H2 as [Hg Hx]. split; [done|]. by apply (started_step id [] [] (conn_of t1)).
      * apply (safely_mono _ _ _ _ _ (fun _ _ => False)); [|done]. exists t1, (Err (unexpected_stream_id id h3_stream_id)).
        split; [by destruct t1|]. split; [done|]. exists []. by apply gives_same.
  - by intros data seen t' _ (-> & H & _).
Qed.

Lemma connect_runs send config path control encoder decoder connect settings_script during_send response_script t :
  task_ok t -> next_stream_id (conn_of t) <= VARINT_MAX -> fresh (conn_of t) ->
  (forall headers, connect_headers (E := E) config path = Ok headers -> section_fits headers) ->
  Forall (fun x => others_ok Client settings (fst x)) settings_script -> others_ok Client settings during_send -> Forall (woken_ok Client settings) response_script ->
  goes (wt_client_connect quic send config path control encoder decoder connect settings_script during_send response_script) t (fun start seen t' =>
    connect = Ok (ss_session_id start) /\ varint_ok (ss_session_id start) /\ started (ss_session_id start) seen (conn_of t') /\
    existsb established_by seen = true /\ ss_events start = forwarded seen /\ ss_capsules start = capsules_of seen /\
    ss_send_fc start = session_send_fc (ss_session_id start) (conn_of t')).
Proof using Hset.
  intros Ht Hn Hf Hfit Hs1 Hs2 Hs3. unfold wt_client_connect.
  eapply runs_then; [by apply open_runs|]. intros [] t1 Ht1 Hg1 Hn1.
  eapply runs_then; [by apply runs_transport|]. intros id ? _ _ [-> Hid].
  eapply runs_then; [by apply wait_runs|]. intros [] t2 Ht2 Hg2 [Hn2 _].
  pose proof (fresh_step _ _ Hg2 Hn2 (fresh_step _ _ Hg1 Hn1 Hf)) as Hf2. unfold same_next in Hn1, Hn2.
  eapply runs_then; [apply request_runs; [done|lia|done|done]|]. intros data t3 Ht3 _ [Hst Hv].
  eapply runs_then; [by apply runs_meanwhile|]. intros [] t4 Ht4 Hg4 Hn4. apply (started_step id [] [] _ _ Hg4 Hn4) in Hst.
  eapply runs_then; [by apply action_runs|]. intros [] t5 Ht5 Hg5 Hn5. apply (started_step id [] [] _ _ Hg5 Hn5) in Hst.
  eapply runs_bind.
  { apply (handshake_loop_runs quic Client settings Hset id Hv absorb_response session_established (fun _ => false) absorbed absorbed_trans
      absorb_response_into ltac:(done) response_script handshake_new t5 Ht5 Hs3). }
  intros h seen t6 Ht6 Hg6 ((Ha1 & Ha2 & Ha3) & Hfin & Hn6). apply (started_step id [] _ _ _ Hg6 Hn6) in Hst.
  eapply runs_then; [by apply runs_reads|]. intros fc ? _ _ [-> ->]. apply runs_ret; [done|]. rewrite app_nil_r.
  cbn in Ha1, Ha2, Ha3. rewrite Ha1 in Hfin. by split_and!.
Qed.
End client.

Lemma new_fresh settings c : conn_new Client settings = Some c -> fresh c /\ next_stream_id c = 0.
Proof.
  unfold conn_new. destruct (ok _) as [d|]; [|done]. cbn [mbind option_bind]. destruct (send_settings _ _) as [x|]; [|done].
  cbn [mbind option_bind]. by intros [= <-].
Qed.

(** ** The server *)
Definition own_capsules (id : Z) (l : list Event) : list Capsule :=
  flat_map (fun e => match e with EvWebTransport (WtCapsule sid c) => if sid =? id then [c] else [] | _ => [] end) l.
Lemma accept_events_kept id l : forall cs es, fold_left (accept_event id) l (cs, es) = (cs ++ own_capsules id l, es ++ forwarded l).
Proof.
  induction l as [|e l IH]; intros cs es; cbn [fold_left own_capsules forwarded flat_map]; [by rewrite !app_nil_r|].
  destruct e as [| | | | | | | | |wt]; cbn [accept_event]; try by apply IH.
  destruct wt; cbn [is_forwardable_wt_event app]; try (by rewrite IH, <- ?app_assoc). destruct (_ =? _); by rewrite IH, <- ?app_assoc.
Qed.
Lemma collect_kept l : forall r, request_wt_events (collect_request_events l r) = request_wt_events r ++ forwarded l.
Proof.
  induction l as [|e l IH]; intros [hs b es]; cbn [collect_request_events fold_left forwarded flat_map]; [by rewrite app_nil_r|].
  rewrite (IH _). destruct e as [| | | | | | | | |wt]; cbn; try done. destruct (is_forwardable_wt_event wt); cbn; by rewrite <- ?app_assoc.
Qed.
(** What the other end is told with a status fits into any section. *)
Lemma status_fits {E} status headers : 100 <= status <= 599 -> status_headers (E := E) status = Ok headers -> section_fits headers.
Proof.
  intros Hs. unfold status_headers.
  assert (forallb (fun n => match response_to_headers (connect_response_new (Z.of_nat n)) with Ok hs => bool_decide (section_fits hs) | Err _ => true end)
    (seq 100 500) = true) as H by (vm_compute; reflexivity).
  rewrite forallb_forall in H. specialize (H (Z.to_nat status)). rewrite Z2Nat.id in H by lia.
  destruct (response_to_headers _) as [hs|e]; cbn; [|done]. intros [= <-]. apply (bool_decide_unpack _). rewrite H; [done|]. apply in_seq. lia.
Qed.

(** A session that waits for an answer, or whose end can be told. *)
Definition begun (id : Z) (c : Connection) : Prop := pending_session id c = true \/ to_tell id c.

Section server.
Context {E : Type} (quic : list StreamAction -> StreamAction -> result E unit) (settings : Settings) (Hset : settings_ok settings).
Notation task_ok := (S2nTasks.task_ok Server settings).
Notation goes := (runs (E := E) Server settings).
Notation calmly m t := (safely Server settings (fun _ => []) m t (fun _ _ => True)).

Lemma send_all_quietly data fin t : task_ok t -> calmly (quic_send_all quic data fin) t.
Proof using.
  intros Ht. eapply safely_bind; [by apply action_quietly|]. intros [] t1 Ht1 _. destruct fin; [by apply action_quietly|by apply safely_ret].
Qed.
Lemma reject_quietly id status t : task_ok t -> 100 <= status <= 599 -> calmly (send_reject_response quic id status) t.
Proof using Hset.
  intros Ht Hs. eapply safely_bind; [|intros [data fin] t2 Ht2 _; by apply send_all_quietly].
  eapply locked_bind_quietly; [by apply of_result_quietly|]. intros headers ? _ [Hh ->].
  eapply (locked_bind_quietly _ _ _ _ _ (fun _ _ => True)); [|intros [] t1 Ht1 _; by apply collect_quietly].
  apply (call_quietly _ _ Hset (fun _ => OutUnit) (OpSendResponse id headers true)); [done|by eapply status_fits|done..].
Qed.
Lemma or_fail_ok {A} (m : task (E := E) A) t t' a :
  or_handle m (fun e => reset_stream_on_stream_error quic e;; failing e) t = Some (t', Ok a) -> m t = Some (t', Ok a).
Proof using.
  unfold or_handle. destruct (m t) as [[t1 [b|e]]|]; [done| |done]. unfold mbind, task_bind. destruct (reset_stream_on_stream_error _ _ _) as [[t2 [[]|]]|]; done.
Qed.
Lemma tell_gives id seen t t' : task_ok t -> gives seen t t' -> to_tell id (conn_of t) -> tells_end (forwarded seen) \/ to_tell id (conn_of t').
Proof using Hset. intros Ht Hg. apply to_tell_hands; [exact Hg|]. left. by apply (reachable_role _ settings). Qed.
Lemma tell_quietly id t t' : task_ok t -> gives [] t t' -> to_tell id (conn_of t) -> to_tell id (conn_of t').
Proof using Hset. intros Ht Hg Hx. by destruct (tell_gives id [] t t' Ht Hg Hx). Qed.

Lemma accept_runs request during_send t : task_ok t -> others_ok Server settings during_send ->
  goes (request_accept quic request during_send) t (fun start seen t' =>
    ss_session_id start = sr_stream_id request /\ ss_events start = sr_pending_wt_events request ++ forwarded seen /\
    ss_capsules start = own_capsules (sr_stream_id request) seen /\ ss_send_fc start = session_send_fc (sr_stream_id request) (conn_of t') /\
    (begun (sr_stream_id request) (conn_of t) -> tells_end (forwarded seen) \/ to_tell (sr_stream_id request) (conn_of t'))).
Proof using Hset.
  intros Ht Hd. unfold request_accept. set (id := sr_stream_id request).
  eapply runs_then; [by apply runs_outcome|]. intros headers ? _ _ [-> Hh].
  eapply runs_then.
  { eapply (runs_at_once Server settings (fun _ => [])), (or_handle_quietly _ _ Hset _ _ _ [OpSendResponse id headers false]); [done| | |intros ? ?; exact I|].
    - apply one_op_ok. by eapply (status_fits 200).
    - by apply (follows_call _ (fun _ => OutUnit)).
    - intros e t1 Ht1. eapply safely_bind; [by apply reset_on_error_quietly|]. intros [] t2 Ht2 _. by apply failing_safely. }
  intros [] t1 Ht1 Hg1 [_ E1]. apply or_fail_ok in E1.
  assert (begun id (conn_of t) -> to_tell id (conn_of t1)) as Htell.
  { intros [Hp|Hx]; [|exact (tell_quietly id _ _ Ht Hg1 Hx)]. revert E1. unfold locked, on_conn. fold (conn_of t).
    destruct (send_response id headers false (conn_of t)) as [[c [[]|e]]|] eqn:Es; cbn; [|done..]. intros [= <-].
    eapply send_response_starts; [exact Es| |exact Hp]. vm_compute in Hh. by injection Hh as <-. }
  eapply runs_then; [by apply (runs_at_once Server settings (fun _ => [])), collect_quietly|]. intros [data fin] t2 Ht2 Hg2 _.
  eapply runs_then; [by apply runs_meanwhile|]. intros [] t3 Ht3 Hg3 _.
  eapply runs_then; [by apply (runs_at_once Server settings (fun _ => [])), send_all_quietly|]. intros [] t4 Ht4 Hg4 _.
  eapply runs_bind; [apply (runs_at_once Server settings (fun l => l)), (locked_runs Server settings Hset (fun l => l) _ t4 [OpDrainEvents]);
    [done|by apply one_op_ok|done|apply follows_drain]|]. intros l seen t5 Ht5 Hg5 (-> & _).
  rewrite accept_events_kept. eapply runs_then; [by apply runs_reads|]. intros fc ? _ _ [-> ->]. apply runs_ret; [done|]. rewrite app_nil_r.
  split_and!; try done. intros Hb. eapply tell_gives; [exact Ht4|exact Hg5|]. eapply tell_quietly; [exact Ht3|exact Hg4|].
  eapply tell_quietly; [exact Ht2|exact Hg3|]. eapply tell_quietly; [exact Ht1|exact Hg2|]. by apply Htell.
Qed.


(** The request is what the headers say. *)
Definition requested (id : Z) (seen : list Event) (request : WtSessionRequest) : Prop :=
  exists q, headers_complete (collect_request_events seen request_new_state) = true /\
    from_headers (collected_headers (collect_request_events seen request_new_state)) = Ok q /\
    request = mkSessionRequest (cr_path q) (cr_authority q) id (forwarded seen).
Lemma validate_runs id q t : task_ok t ->
  goes (validate_request quic id q) t (fun request seen t' => seen = [] /\ from_headers (collected_headers q) = Ok request).
Proof using Hset.
  intros Ht. unfold validate_request. destruct (from_headers (collected_headers q)) as [request|e]; [by apply runs_ret|].
  destruct e; try by apply runs_fails.
  all: eapply runs_bind; [by apply (runs_at_once Server settings (fun _ => [])), reject_quietly|]; intros ? ? ? ? _ _; by apply runs_fails.
Qed.
Lemma from_connection_runs send control encoder decoder before acc settings_script request_script t :
  task_ok t -> (forall id, acc = Ok (Some id) -> varint_ok id) -> others_ok Server settings before ->
  Forall (fun x => others_ok Server settings (fst x)) settings_script ->
  Forall (woken_ok Server settings) request_script ->
  goes (from_connection quic send control encoder decoder before acc settings_script request_script) t (fun request seen t' =>
    acc = Ok (Some (sr_stream_id request)) /\ requested (sr_stream_id request) seen request).
Proof using Hset.
  intros Ht Hv Hb Hs1 Hs2. unfold from_connection.
  eapply runs_then; [by apply open_runs|]. intros [] t1 Ht1 _ _.
  eapply runs_then; [by apply runs_meanwhile|]. intros [] t2 Ht2 _ _.
  eapply runs_then; [by apply runs_transport|]. intros o ? _ _ [-> Ha].
  eapply runs_then; [by apply runs_outcome|]. intros id ? _ _ [-> Hid]. destruct o as [id'|]; [injection Hid as ->|done]. specialize (Hv _ Ha).
  eapply runs_then.
  { apply (runs_at_once Server settings (fun _ => [])), (ignoring_call_quietly _ _ Hset _ _ [OpFeedStream id [] false]); [done| |apply follows_feed].
    apply one_op_ok. by split. }
  intros [] t3 Ht3 _ _. eapply runs_then; [by apply wait_runs|]. intros [] t4 Ht4 _ _.
  eapply runs_bind.
  { apply (handshake_loop_runs quic Server settings Hset id Hv absorb_request headers_complete headers_complete
      (fun l a b => b = collect_request_events l a)); try done.
    - intros l1 l2 a b c -> ->. unfold collect_request_events. by rewrite fold_left_app.
    - intros l a b. unfold absorb_request. by intros [= <-]. }
  intros q seen t5 Ht5 _ (-> & Hc & _). eapply runs_then; [by apply validate_runs|]. intros request t6 Ht6 _ Hq.
  apply runs_ret; [done|]. rewrite app_nil_r. split; [done|]. exists request. cbn [sr_stream_id]. by rewrite collect_kept.
Qed.
End server.

(** The receiving task of a session that has started (S2nConnect.v), with what the other tasks do while it waits. *)
Definition session_started (start : WtSessionStart) (t : Task) (meanwhile : list (list Other)) : WtTask :=
  mkWtTask (tk_state t) (ss_send_fc start) [] [] true meanwhile.
(** It runs without a panic, whatever arrives, and [more] is taken from the connection. While it runs, an
    application that listens has got the events the session started with and those taken since,
    in order; when it has ended, the application has been told that the session is over
    (after a FIN the connection may still hold the event that says so). *)
Definition told_to_the_end {E} (r : Role) (settings : Settings) (start : WtSessionStart) (t : Task) : Prop :=
  forall meanwhile (received : list (result E (option bytes))), Forall (Forall other_ok) meanwhile -> Forall recv_ok received ->
  exists t' ended more, connect_recv_task r (ss_session_id start) (ss_capsules start) (ss_events start) received
      (session_started start t meanwhile) = Some (t', ended) /\ reachable r settings (wt_conn t') /\ hands more (conn_of t) (wt_conn t') /\
    (listening t' = true -> if ended then tells_end (event_tx t') \/ (Ok None ∈ received /\ to_tell (ss_session_id start) (wt_conn t'))
      else event_tx t' = ss_events start ++ forwarded more /\ (tells_end (event_tx t') \/ to_tell (ss_session_id start) (wt_conn t'))).
Lemma session_told {E} r settings start t : settings_ok settings -> S2nTasks.task_ok r settings t -> varint_ok (ss_session_id start) ->
  opened (ss_session_id start) (conn_of t) -> ss_send_fc start = session_send_fc (ss_session_id start) (conn_of t) ->
  to_tell (ss_session_id start) (conn_of t) \/ tells_end (ss_events start) -> told_to_the_end (E := E) r settings start t.
Proof.
  intros Hset Ht Hv Ho Hfc Htell meanwhile received Hm Hr.
  destruct (connect_task_runs r settings (ss_session_id start) (ss_capsules start) (ss_events start) received (session_started start t meanwhile))
    as (t' & o & more & out & Em & Ht' & Hp & HQ); try done.
  { split; try done. cbn [session_started send_fc]. rewrite Hfc. by eapply send_fc_within. }
  pose proof (ps_hands _ _ _ _ Hp) as Hh. pose proof (ps_out _ _ _ _ Hp) as Hout. cbn in Hout. rewrite recv_task_same. unfold run_connect_recv_task. rewrite Em.
  destruct o as [[]|].
  - exists t', false, more. split_and!; [done|apply Ht'|done|]. intros Hl. rewrite Hout. by apply HQ.
  - exists (push_command CmdFinish t'), true, more. split_and!; [done|apply Ht'|done|]. cbn [push_command event_tx]. rewrite Hout. exact HQ.
Qed.

(** ** Properties *)

(** C16. A client's session, from the first byte to its end. On a new connection, whatever QUIC
    answers, whatever arrives and whatever the other tasks do, [WtClient::connect] does not
    panic and keeps the connection in a reachable state. When it returns a session, the
    session is that of the stream that QUIC opened for the request, an event said that it
    has been established, and the session starts with every event for the application and
    every flow control capsule taken from the connection so far, in order. The receiving
    task that it starts does not panic; while it runs, an application that listens has been
    told all those events and all that were taken since, in order; once it has ended, such
    an application has been told that the session is over, or a FIN came and the connection
    still has the event. What is not claimed is that the other events from before reach
    the application of a task that has ended: on an error they may be dropped. *)
Theorem client_session_told {E} (quic : list StreamAction -> StreamAction -> result E unit) settings s send config path
    control encoder decoder connect settings_script during_send response_script :
  settings_ok settings -> connection_state_new Client settings = Some s ->
  (forall headers, connect_headers (E := E) config path = Ok headers -> section_fits headers) ->
  Forall (fun x => others_ok Client settings (fst x)) settings_script -> others_ok Client settings during_send ->
  Forall (woken_ok Client settings) response_script ->
  exists t o, wt_client_connect quic send config path control encoder decoder connect settings_script during_send response_script
      (mkTask s [] false []) = Some (t, o) /\ reachable Client settings (conn_of t) /\
  forall start, o = Some (Ok start) -> connect = Ok (ss_session_id start) /\
    (exists seen, hands seen (h3_conn s) (conn_of t) /\ existsb established_by seen = true /\
      ss_events start = forwarded seen /\ ss_capsules start = capsules_of seen) /\
    told_to_the_end (E := E) Client settings start t.
Proof.
  intros Hset Hnew Hfit Hs1 Hs2 Hs3. unfold connection_state_new in Hnew. destruct (conn_new Client settings) as [c|] eqn:Ec; [|done].
  injection Hnew as <-. destruct (new_fresh _ _ Ec) as [Hf Hn]. set (s := mkConnectionState c None None None).
  destruct (connect_runs quic settings Hset send config path control encoder decoder connect settings_script during_send response_script
    (mkTask s [] false [])) as (t & o & seen & Em & Ht & Hh & HQ); try done.
  { by apply reach_new. } { change (next_stream_id c <= VARINT_MAX). rewrite Hn. unfold VARINT_MAX. lia. }
  exists t, o. split_and!; [done|done|]. intros start ->. destruct HQ as (Hc & Hv & Hst & He & Hev & Hcap & Hfc).
  split; [done|]. split; [by exists seen|]. apply session_told; [done|done|done|by apply (sd_opened _ _ _ Hst)|done|].
  rewrite Hev. by apply (started_told (ss_session_id start) seen).
Qed.

(** C17. A server's session, likewise. [WtSessionRequest::from_connection] does not panic and
    returns a request only for the first stream of the client, when the headers that came are
    complete and [ConnectRequest::from_headers] accepts them, with the events taken meanwhile.
    Whatever the other tasks did since, [accept] does not panic; it returns a session with
    the events that came with the request and those taken since, in order, and, if the
    connection knew the session as a request to be answered (or already as one that is
    over), the receiving task tells a listening application what C16 says: all of them
    while it runs, and once it has ended that the session is over, unless a FIN came and
    the connection still has that event. [reject] does not panic; when it succeeds it has
    taken no event from the connection; it refuses, changing nothing, a status that is not
    4xx or 5xx. *)
Theorem server_session_told {E} (quic : list StreamAction -> StreamAction -> result E unit) settings s send control encoder decoder
    before acceptor settings_script request_script :
  settings_ok settings -> connection_state_new Server settings = Some s ->
  (forall id, acceptor = Ok (Some id) -> varint_ok id) -> others_ok Server settings before ->
  Forall (fun x => others_ok Server settings (fst x)) settings_script -> Forall (woken_ok Server settings) request_script ->
  exists t o, from_connection quic send control encoder decoder before acceptor settings_script request_script (mkTask s [] false []) = Some (t, o) /\
    reachable Server settings (conn_of t) /\
  forall request, o = Some (Ok request) -> acceptor = Ok (Some (sr_stream_id request)) /\
    (exists seen, hands seen (h3_conn s) (conn_of t) /\ requested (sr_stream_id request) seen request) /\
  forall since, others_ok Server settings since -> let t1 := with_state (since (tk_state t)) t in
    (forall during_send, others_ok Server settings during_send ->
      exists t2 o2, request_accept quic request during_send t1 = Some (t2, o2) /\ reachable Server settings (conn_of t2) /\
      forall start, o2 = Some (Ok start) -> ss_session_id start = sr_stream_id request /\
        (exists more, hands more (conn_of t1) (conn_of t2) /\ ss_events start = sr_pending_wt_events request ++ forwarded more /\
          ss_capsules start = own_capsules (sr_stream_id request) more) /\
        (begun (sr_stream_id request) (conn_of t1) -> told_to_the_end (E := E) Server settings start t2)) /\
    (forall status, exists t2 res, request_reject quic request status t1 = Some (t2, res) /\ reachable Server settings (conn_of t2) /\
      (res = Ok tt -> hands [] (conn_of t1) (conn_of t2)) /\ (~ 400 <= status <= 599 -> t2 = t1 /\ res = Err (reject_status_error status))).
Proof.
  intros Hset Hnew Hv Hb Hs1 Hs2. unfold connection_state_new in Hnew. destruct (conn_new Server settings) as [c|] eqn:Ec; [|done].
  injection Hnew as <-. set (s := mkConnectionState c None None None).
  destruct (from_connection_runs quic settings Hset send control encoder decoder before acceptor settings_script request_script (mkTask s [] false []))
    as (t & o & seen & Em & Ht & Hh & HQ); try done; [by apply reach_new|].
  exists t, o. split_and!; [done|done|]. intros request ->. destruct HQ as [Ha Hq]. specialize (Hv _ Ha).
  split; [done|]. split; [by exists seen|]. intros since Hsince t1. destruct (Hsince _ Ht) as (Ht1 & _ & _). split.
  - intros during_send Hd. destruct (accept_runs quic settings Hset request during_send t1) as (t2 & o2 & more & E2 & Ht2 & Hg & HQ2); [done..|].
    exists t2, o2. split_and!; [done|done|]. intros start ->. destruct HQ2 as (Hid & Hev & Hcap & Hfc & Htell). split; [done|].
    split; [by exists more|]. intros Hbegun. apply session_told; rewrite ?Hid; try done; [left; by apply (reachable_role _ settings)|].
    rewrite Hev. destruct (Htell Hbegun) as [H|H]; [right; apply tells_end_app; by right|by left].
  - intros status. unfold request_reject. destruct (_ && _) eqn:Es; cbn [negb].
    + destruct (reject_quietly quic settings Hset (sr_stream_id request) status t1) as (t2 & res & E2 & Ht2 & Hres); [done|lia|].
      exists t2, res. split_and!; [done|done| |lia]. intros ->. apply Hres.
    + by exists t1, (Err (reject_status_error status)).
Qed.

(** ** Witnesses *)

(** The task of a unidirectional stream feeds what has arrived on it. *)
Definition others_feed (id : Z) (data : bytes) (s : ConnectionState) : ConnectionState :=
  match feed_stream_only (T := unit) id data false s with Some (s, _) => s | None => s end.
Lemma others_feed_ok r settings id data : settings_ok settings -> varint_ok id -> bytes_ok data -> others_ok r settings (others_feed id data).
Proof.
  intros Hset Hid Hb s Hs.
  destruct (follows_safe (T := unit) (fun _ => []) (feed_stream_only id data false) r settings s [OpFeedStream id data false] Hset Hs)
    as (s' & res & Em & Hs' & Hh); [by apply one_op_fine|apply follows_feed|].
  unfold others_feed. rewrite Em. split; [done|]. split; [by destruct res|].
  eapply (follows_next (fun _ => []) _ _ [OpFeedStream id data false]); [done|apply follows_feed|exact Em].
Qed.
Definition wt_request_bytes : bytes := frame_bytes (Headers (section_bytes true 0 (map static_line wt_request))).
Lemma idle_ok r settings : others_ok r settings id.
Proof. intros s Hs. split; [done|]. split; [apply (reflexivity (R := grows))|done]. Qed.
Definition example_config : ClientConfig := mkClientConfig (str "example.com") Draft15.

(** The server's SETTINGS arrive before the request, the response after it; then the stream is reset. *)
Lemma client_session_told_witness :
  exists s t start seen t', connection_state_new Client wt_offer = Some s /\
    wt_client_connect (E := Z) (fun _ _ => Ok ()) (fun _ _ => Ok ()) example_config (str "/") (Ok 2) (Ok 6) (Ok 10) (Ok 0)
      [(others_feed 3 peer_offer, false)] (others_feed 3 [0x07; 0x01; 0x04])
      [(id, WokenNotified); (id, WokenReceived (Ok (Some [0x01; 0x03; 0x00; 0x00; 0xd9])))] (mkTask s [] false []) = Some (t, Some (Ok start)) /\
    ss_session_id start = 0 /\ existsb established_by seen = true /\ ss_events start = forwarded seen /\
    run_connect_recv_task (E := Z) 0 (ss_capsules start) (ss_events start) [Err 7] (session_started start t []) = Some (t', true) /\
    tells_end (event_tx t').
Proof.
  assert (settings_ok wt_offer) as Hset by (apply (bool_decide_unpack _); vm_compute; exact I).
  destruct (connection_state_new Client wt_offer) as [s|] eqn:Es; [|vm_compute in Es; discriminate].
  destruct (client_session_told (E := Z) (fun _ _ => Ok ()) wt_offer s (fun _ _ => Ok ()) example_config (str "/") (Ok 2) (Ok 6) (Ok 10) (Ok 0)
    [(others_feed 3 peer_offer, false)] (others_feed 3 [0x07; 0x01; 0x04])
    [(id, WokenNotified); (id, WokenReceived (Ok (Some [0x01; 0x03; 0x00; 0x00; 0xd9])))]) as (t & o & Em & _ & Hstart).
  - exact Hset.
  - exact Es.
  - intros headers Hh. vm_compute in Hh. injection Hh as <-. apply (bool_decide_unpack _). vm_compute. exact I.
  - apply Forall_cons_2; [|constructor]. apply others_feed_ok; [exact Hset|unfold varint_ok, VARINT_MAX; lia|].
    apply (bool_decide_unpack _). vm_compute. exact I.
  - apply others_feed_ok; [exact Hset|unfold varint_ok, VARINT_MAX; lia|cbn; solve_bytes].
  - apply Forall_cons_2; [split; [apply idle_ok|exact I]|].
    apply Forall_cons_2; [|constructor].
    split; [apply idle_ok|cbn; solve_bytes].
  - assert (exists start, o = Some (Ok start)) as [start ->].
    { vm_compute in Es. injection Es as <-. vm_compute in Em. injection Em as _ <-. eexists. reflexivity. }
    destruct (Hstart start eq_refl) as (Hid & (seen & _ & He & Hev & _) & Hrun).
    assert (ss_session_id start = 0) as H0 by (injection Hid as <-; reflexivity).
    destruct (Hrun [] [Err 7]) as (t' & ended & more & Er & _ & _ & Htold); [constructor|repeat constructor|].
    rewrite H0 in Er. exists s, t, start, seen, t'. split; [reflexivity|]. split; [exact Em|]. split; [exact H0|]. split; [exact He|]. split; [exact Hev|].
    assert (ended = true /\ listening t' = true) as [He2 Hl].
    { vm_compute in Es. injection Es as <-. vm_compute in Em. injection Em as <- <-. vm_compute in Er. injection Er as <- <-. split; reflexivity. }
    rewrite He2 in Er. split; [exact Er|]. specialize (Htold Hl). rewrite He2 in Htold. destruct Htold as [H|[H _]]; [exact H|].
    inversion H as [|? ? ? H']; inversion H'.
Defined.

(** The client's SETTINGS arrive while the server waits for them, then the request, which is
    accepted; the stream is reset. A status of 200 is no rejection. *)
Lemma server_session_told_witness :
  exists s t request t2 start t', connection_state_new Server wt_answer = Some s /\
    from_connection (E := Z) (fun _ _ => Ok ()) (fun _ _ => Ok ()) (Ok 3) (Ok 7) (Ok 11) id (Ok (Some 0)) [(others_feed 2 client_offer, false)]
      [(id, WokenNotified); (id, WokenReceived (Ok (Some wt_request_bytes)))] (mkTask s [] false []) = Some (t, Some (Ok request)) /\
    sr_stream_id request = 0 /\ sr_path request = str "/" /\
    request_reject (E := Z) (fun _ _ => Ok ()) request 200 t = Some (t, Err (reject_status_error 200)) /\
    request_accept (E := Z) (fun _ _ => Ok ()) request (others_feed 2 [0x07; 0x01; 0x04]) t = Some (t2, Some (Ok start)) /\
    run_connect_recv_task (E := Z) 0 (ss_capsules start) (ss_events start) [Err 7] (session_started start t2 []) = Some (t', true) /\
    tells_end (event_tx t').
Proof.
  assert (settings_ok wt_answer) as Hset by (apply (bool_decide_unpack _); vm_compute; exact I).
  destruct (connection_state_new Server wt_answer) as [s|] eqn:Es; [|vm_compute in Es; discriminate].
  destruct (server_session_told (E := Z) (fun _ _ => Ok ()) wt_answer s (fun _ _ => Ok ()) (Ok 3) (Ok 7) (Ok 11) id (Ok (Some 0))
    [(others_feed 2 client_offer, false)] [(id, WokenNotified); (id, WokenReceived (Ok (Some wt_request_bytes)))]) as (t & o & Em & _ & Hreq).
  - exact Hset.
  - exact Es.
  - intros x Hx. injection Hx as <-. unfold varint_ok, VARINT_MAX. lia.
  - apply idle_ok.
  - apply Forall_cons_2; [|constructor]. apply others_feed_ok; [exact Hset|unfold varint_ok, VARINT_MAX; lia|].
    apply (bool_decide_unpack _). vm_compute. exact I.
  - apply Forall_cons_2; [split; [apply idle_ok|exact I]|]. apply Forall_cons_2; [|constructor].
    split; [apply idle_ok|]. apply (bool_decide_unpack _). vm_compute. exact I.
  - assert (exists request, o = Some (Ok request) /\ sr_stream_id request = 0 /\ sr_path request = str "/") as (request & -> & H0 & Hpath).
    { vm_compute in Es. injection Es as <-. vm_compute in Em. injection Em as _ <-. eexists. repeat split; reflexivity. }
    destruct (Hreq request eq_refl) as (_ & _ & Hsince). destruct (Hsince id (idle_ok _ _)) as [Hacc Hrej].
    assert (with_state (id (tk_state t)) t = t) as Et by (destruct t; reflexivity). rewrite Et in Hacc, Hrej.
    destruct (Hacc (others_feed 2 [0x07; 0x01; 0x04])) as (t2 & o2 & E2 & _ & Hstart).
    { apply others_feed_ok; [exact Hset|unfold varint_ok, VARINT_MAX; lia|cbn; solve_bytes]. }
    destruct (Hrej 200) as (t3 & res & E3 & _ & _ & Hno). destruct Hno as [-> ->]; [lia|].
    assert (pending_session 0 (conn_of t) = true /\ exists start, o2 = Some (Ok start)) as [Hp [start ->]].
    { vm_compute in Es. injection Es as <-. vm_compute in Em. injection Em as <- <-. vm_compute in E2. injection E2 as _ <-.
      split; [vm_compute; reflexivity|eexists; reflexivity]. }
    destruct (Hstart start eq_refl) as (Hid & _ & Hrun). rewrite H0 in Hid, Hrun.
    destruct (Hrun (or_introl Hp) [] [Err 7]) as (t' & ended & more & Er & _ & _ & Htold); [constructor|repeat constructor|].
    rewrite Hid in Er. exists s, t, request, t2, start, t'.
    split; [reflexivity|]. split; [exact Em|]. split; [exact H0|]. split; [exact Hpath|]. split; [exact E3|]. split; [exact E2|].
    assert (ended = true /\ listening t' = true) as [He2 Hl].
    { vm_compute in Es. injection Es as <-. vm_compute in Em. injection Em as <- <-. vm_compute in E2. injection E2 as <- <-.
      vm_compute in Er. injection Er as <- <-. split; reflexivity. }
    rewrite He2 in Er. split; [exact Er|]. specialize (Htold Hl). rewrite He2 in Htold. destruct Htold as [H|[H _]]; [exact H|].
    inversion H as [|? ? ? H']; inversion H'.
Defined.
