(* ===== verification/NgDriver.v ===== *)
(** crates/tokio-ngtcp2/src/h3.rs and lib.rs: the driver that connects the HTTP/3
    connection with a QUIC connection of the library shiguredo_ngtcp2_tokio. That library
    is not part of the repository: its QUIC connection is a parameter, the class
    [Transport], and what the driver relies on is [TransportLaws]. The calls that wait
    ([flush], [recv_event]) are single steps of the transport. *)

From Stdlib Require Import String Ascii.
From S2P Require Import Prelude Codec Varint Header EncoderStream DecoderStream Settings Error Stream FrameStream QpackEncoder QpackDecoder ControlStream RequestStream Validation Capsule Event Datagram WtSession Connection ConnInvariant ConnNegotiation ConnWtSession ConnWtStream ConnReceive ConnSafety ConnSend ConnSendSafety ConnRun ConnEvents ConnOutgoing.

(** ** Errors; [E] is what QUIC reports *)
Inductive NgError {E : Type} :=
| NgQuic (e : E)
| NgHttp3 (e : Error)
| NgTimeout
| NgInvalidArgument (msg : bytes)
| NgInvalidState (msg : bytes)
| NgWebTransportClosed (error_code : Z) (message : bytes).
Arguments NgError : clear implicits.

Definition is_stream_error {E} (e : NgError E) : bool :=
  match e with NgHttp3 (StreamError _) => true | _ => false end.

(** ** The QUIC connection *)

(** The events that the driver tells apart. *)
Inductive QuicEvent :=
| QStreamData (stream_id : Z) (data : bytes) (fin : bool)
| QStreamReset (stream_id final_size app_error_code : Z)
| QDatagram (data : bytes)
| QConnectionClosed
| QOther.

(** [q_recv_event] gives [None] when the time is over. *)
Class Transport (Q E : Type) := {
  q_poll_event : Q -> Q * option QuicEvent;
  q_is_closed : Q -> bool;
  q_has_pending_data : Q -> bool;
  q_reset_stream : Z -> Z -> Q -> Q * result E unit;
  q_write_stream : Z -> bytes -> bool -> Q -> Q * result E unit;
  q_extend_max_stream_offset : Z -> Z -> Q -> Q;
  q_open_uni_stream : Q -> Q * result E Z;
  q_open_bidi_stream : Q -> Q * result E Z;
  q_flush : Q -> Q * result E unit;
  q_recv_event : Q -> Q * option (result E QuicEvent);
  q_can_send_datagram : Q -> bool;
  q_send_datagram : bytes -> Q -> Q * result E unit }.

(** [StreamId] is [i64]: the conversions to and from [u64]. *)
Definition id_of_quic (stream_id : Z) : Z := u64_of stream_id.
Definition id_to_quic (stream_id : Z) : Z := (stream_id + 2 ^ 63) mod 2 ^ 64 - 2 ^ 63.

(** ** [H3State] *)
Record H3State {E : Type} := mkH3State {
  h_conn : Connection; h_events : list Event; h_stream_errors : list (NgError E) }.
Arguments H3State : clear implicits.
Arguments mkH3State {E} _ _ _.

Definition h3_state_new {E} (r : Role) (settings : Settings) : option (H3State E) :=
  c ← conn_new r settings; Some (mkH3State c [] []).

Section driver.
Context {Q E : Type} `{!Transport Q E}.

Record Driver := mkDriver { h3 : H3State E; quic : Q }.

Definition drive (A : Type) : Type := Driver -> option (Driver * result (NgError E) A).
#[export] Instance drive_ret : MRet drive := fun _ a d => Some (d, Ok a).
#[export] Instance drive_bind : MBind drive := fun _ _ f m d =>
  match m d with
  | Some (d, Ok a) => f a d
  | Some (d, Err e) => Some (d, Err e)
  | None => None
  end.
Definition fail {A} (e : NgError E) : drive A := fun d => Some (d, Err e).

Definition with_h3 (h : H3State E) (d : Driver) : Driver := mkDriver h (quic d).
Definition set_conn (c : Connection) (d : Driver) : Driver :=
  with_h3 (mkH3State c (h_events (h3 d)) (h_stream_errors (h3 d))) d.
Definition queue_events (l : list Event) (d : Driver) : Driver :=
  with_h3 (mkH3State (h_conn (h3 d)) (h_events (h3 d) ++ l) (h_stream_errors (h3 d))) d.
Definition queue_error (e : NgError E) (d : Driver) : Driver :=
  with_h3 (mkH3State (h_conn (h3 d)) (h_events (h3 d)) (h_stream_errors (h3 d) ++ [e])) d.

(** [self.conn.method(..)?] and [quic.method(..)?]. *)
Definition on_h3 {A} (m : action A) : drive A := fun d =>
  match m (h_conn (h3 d)) with
  | Some (c, r) => Some (set_conn c d, map_err NgHttp3 r)
  | None => None
  end.
Definition on_quic {A} (f : Q -> Q * result E A) : drive A := fun d =>
  let '(q, r) := f (quic d) in Some (mkDriver (h3 d) q, map_err NgQuic r).

Definition h3_init_h3_streams : drive unit :=
  control ← on_quic q_open_uni_stream;
  encoder ← on_quic q_open_uni_stream;
  decoder ← on_quic q_open_uni_stream;
  init ← on_h3 (init_h3_streams (id_of_quic control) (id_of_quic encoder) (id_of_quic decoder));
  on_quic (q_write_stream (id_to_quic (init_control_stream_id init)) (control_data init) false);;
  on_quic (q_write_stream (id_to_quic (init_encoder_stream_id init)) (encoder_data init) false);;
  on_quic (q_write_stream (id_to_quic (init_decoder_stream_id init)) (decoder_data init) false);;
  on_quic q_flush.

Definition h3_set_transport_verified : drive unit := on_h3 (set_webtransport_transport_verified true true).

Definition h3_poll_event : drive (option Event) := fun d =>
  let h := h3 d in
  match h_events h with
  | [] => Some (d, Ok None)
  | e :: events => Some (with_h3 (mkH3State (h_conn h) events (h_stream_errors h)) d, Ok (Some e))
  end.
Definition h3_take_stream_error : drive (option (NgError E)) := fun d =>
  let h := h3 d in
  match h_stream_errors h with
  | [] => Some (d, Ok None)
  | e :: errors => Some (with_h3 (mkH3State (h_conn h) (h_events h) errors) d, Ok (Some e))
  end.
(** Each is written to the log. *)
Definition log_stream_errors : drive unit := fun d =>
  Some (with_h3 (mkH3State (h_conn (h3 d)) (h_events (h3 d)) []) d, Ok ()).

Definition record_error (e : NgError E) : drive unit :=
  if is_stream_error e then fun d => Some (queue_error e d, Ok ()) else fail e.
(** [if let Err(e) = m { self.record_error(e)? }]. *)
Definition recording (m : drive unit) : drive unit := fun d =>
  match m d with
  | Some (d, Err e) => record_error e d
  | other => other
  end.

Definition h3_send_request (headers : list Header) (fin : bool) : drive Z := fun d =>
  match role (h_conn (h3 d)) with
  | Client => on_h3 (send_request headers fin) d
  | Server => fail (NgInvalidState (str "send_request is client only")) d
  end.
Definition h3_send_response (stream_id : Z) (headers : list Header) (fin : bool) : drive unit := fun d =>
  match role (h_conn (h3 d)) with
  | Server => on_h3 (send_response stream_id headers fin) d
  | Client => fail (NgInvalidState (str "send_response is server only")) d
  end.
Definition h3_send_body (stream_id : Z) (data : bytes) (fin : bool) : drive unit := on_h3 (conn_send_body stream_id data fin).
Definition h3_register_local_wt_stream (session_id stream_id : Z) : drive unit :=
  on_h3 (register_local_wt_stream session_id stream_id).

(** [encode_as_data_frame] of each; a panic when a capsule cannot be encoded. *)
Definition h3_take_wt_capsules (session_id : Z) : drive (list bytes) := fun d =>
  let '(c, capsules) := take_wt_pending_capsules session_id (h_conn (h3 d)) in
  match mapM (fun capsule => encode_as_data_frame capsule []) capsules with
  | Some frames => Some (set_conn c d, Ok frames)
  | None => None
  end.
Definition h3_wt_data_consumed (session_id n : Z) : drive unit := on_h3 (modify (wt_data_consumed session_id n)).

Definition h3_send_wt_datagram (session_id : Z) (payload : bytes) : drive unit := fun d =>
  if q_can_send_datagram (quic d) then
    (encoded ← on_h3 (send_datagram session_id payload); on_quic (q_send_datagram encoded)) d
  else fail (NgInvalidState (str "peer does not support DATAGRAM")) d.

(** ** The exchange with QUIC *)
Definition handle_quic_event (event : QuicEvent) : drive unit :=
  match event with
  | QStreamData stream_id data fin => fun d =>
    match feed_stream (id_of_quic stream_id) data fin (h_conn (h3 d)) with
    | Some (c, Ok _) => Some (mkDriver (h3 (set_conn c d)) (q_extend_max_stream_offset stream_id (len data) (quic d)), Ok ())
    | Some (c, Err (StreamError code)) => on_quic (q_reset_stream stream_id (error_code code)) (set_conn c d)
    | Some (c, Err e) => Some (set_conn c d, Err (NgHttp3 e))
    | None => None
    end
  | QStreamReset stream_id final_size app_error_code => on_h3 (stream_reset (id_of_quic stream_id) app_error_code final_size)
  | QDatagram data => on_h3 (feed_datagram data)
  | QConnectionClosed | QOther => mret ()
  end.

Definition is_connection_closed (e : QuicEvent) : bool := match e with QConnectionClosed => true | _ => false end.

(** [while let Some(event) = quic.poll_event()]; [closed] tells whether the end of the
    connection was among the events. *)
Fixpoint handle_events (fuel : nat) (closed : bool) : drive bool := fun d =>
  match fuel with
  | O => None
  | S fuel =>
    let '(q, o) := q_poll_event (quic d) in
    let d := mkDriver (h3 d) q in
    match o with
    | None => Some (d, Ok closed)
    | Some event => (recording (handle_quic_event event);; handle_events fuel (closed || is_connection_closed event)) d
    end
  end.

(** [while let Some((data, fin)) = self.conn.take_stream_data(stream_id)]. *)
Fixpoint write_stream_loop (fuel : nat) (stream_id : Z) : drive unit := fun d =>
  match fuel with
  | O => None
  | S fuel =>
    (taken ← on_h3 (take_stream_data stream_id);
     match taken with
     | None => mret ()
     | Some (data, fin) =>
       on_quic (q_write_stream (id_to_quic stream_id) data fin);;
       if is_empty_bytes data && fin then mret () else write_stream_loop fuel stream_id
     end) d
  end.
(** A stream has at most data, a FIN, and nothing to give. *)
Definition TAKES : nat := 3.
Fixpoint write_streams (ids : list Z) : drive unit :=
  match ids with
  | [] => mret ()
  | stream_id :: ids => write_stream_loop TAKES stream_id;; write_streams ids
  end.
Definition write_pending : drive unit := fun d => write_streams (writable_streams (h_conn (h3 d))) d.

Definition collect_events : drive unit := fun d =>
  match drain_events (h_conn (h3 d)) with
  | Some (c, Ok events) => Some (queue_events events (set_conn c d), Ok ())
  | Some (c, Err e) => record_error (NgHttp3 e) (set_conn c d)
  | None => None
  end.

Definition pump (fuel : nat) : drive unit :=
  closed ← handle_events fuel false;
  (if (closed : bool) then mret () else write_pending);;
  on_quic q_flush;;
  _ ← handle_events fuel false;
  collect_events.

(** Wait for an event, then go on with [next]; the connection may be closed, or the time over. *)
Definition wait_event (next : drive unit) : drive unit := fun d =>
  if q_is_closed (quic d) then Some (d, Ok ())
  else
    let '(q, o) := q_recv_event (quic d) in
    let d := mkDriver (h3 d) q in
    match o with
    | Some (Ok event) =>
      (recording (handle_quic_event event);; if is_connection_closed event then mret () else next) d
    | Some (Err _) | None => Some (d, Ok ())
    end.
(** The fuel bounds both how often it waits and each [pump]. *)
Fixpoint pump_wait_loop (fuel : nat) : drive unit :=
  match fuel with
  | O => fun _ => None
  | S fuel => pump fuel;; wait_event (pump_wait_loop fuel)
  end.
Definition pump_wait (fuel : nat) : drive unit := pump_wait_loop fuel;; pump fuel.

(** ** What the driver relies on

    [pending_quic] are the events that wait to be polled. Polling takes the first of them,
    only waiting adds to them ([flush] may read from the socket), what is added has a
    valid stream id, and time runs out. *)
Definition quic_event_ok (e : QuicEvent) : Prop :=
  match e with
  | QStreamData stream_id data _ => varint_ok stream_id /\ bytes_ok data
  | QDatagram data => bytes_ok data
  | _ => True
  end.

#[export] Instance quic_event_ok_dec e : Decision (quic_event_ok e).
Proof. destruct e; cbn [quic_event_ok]; unfold varint_ok; apply _. Defined.

Class TransportLaws := {
  pending_quic : Q -> list QuicEvent;
  patience : Q -> nat;
  law_poll q : snd (q_poll_event q) = head (pending_quic q) /\ pending_quic (fst (q_poll_event q)) = tail (pending_quic q) /\
    patience (fst (q_poll_event q)) = patience q;
  law_write id data fin q : let q' := fst (q_write_stream id data fin q) in pending_quic q' = pending_quic q /\ patience q' = patience q;
  law_reset id code q : let q' := fst (q_reset_stream id code q) in pending_quic q' = pending_quic q /\ patience q' = patience q;
  law_extend id n q : let q' := q_extend_max_stream_offset id n q in pending_quic q' = pending_quic q /\ patience q' = patience q;
  law_open_uni q : let q' := fst (q_open_uni_stream q) in pending_quic q' = pending_quic q /\ patience q' = patience q;
  law_datagram data q : let q' := fst (q_send_datagram data q) in pending_quic q' = pending_quic q /\ patience q' = patience q;
  law_open_bidi q : let q' := fst (q_open_bidi_stream q) in pending_quic q' = pending_quic q /\ patience q' = patience q;
  law_flush q : let q' := fst (q_flush q) in
    (exists l, Forall quic_event_ok l /\ pending_quic q' = pending_quic q ++ l) /\ patience q' = patience q;
  law_recv q : let '(q', o) := q_recv_event q in
    (exists l, Forall quic_event_ok l /\ pending_quic q' = pending_quic q ++ l) /\
    match o with Some (Ok event) => quic_event_ok event /\ (patience q' < patience q)%nat | _ => (patience q' <= patience q)%nat end }.

(** ** What is written

    [write_all] gives the transport what waits, until it refuses something. *)
Fixpoint write_all (l : list (Z * (bytes * bool))) (q : Q) : Q * result E unit :=
  match l with
  | [] => (q, Ok ())
  | (id, (data, fin)) :: l =>
    match q_write_stream (id_to_quic id) data fin q with
    | (q, Ok _) => write_all l q
    | (q, Err e) => (q, Err e)
    end
  end.
Definition on_stream (id : Z) (l : list (bytes * bool)) : list (Z * (bytes * bool)) := map (pair id) l.

Lemma write_all_app l1 l2 : forall q, write_all (l1 ++ l2) q =
  match write_all l1 q with (q, Ok _) => write_all l2 q | other => other end.
Proof.
  induction l1 as [|[id [data fin]] l1 IH]; intros q; [done|]. cbn [app write_all].
  destruct (q_write_stream _ _ _ _) as [q' [[]|e]]; [apply IH|done].
Qed.

(** The connection goes from [c] to [c'] by calls of [take_stream_data]; [l] is what the
    transport is given, which is all that waits on the streams [ids] unless it refuses. *)
Record transfers (ids : list Z) (d d' : Driver) (res : result (NgError E) unit) : Prop := {
  tr_steps : rtc conn_step (h_conn (h3 d)) (h_conn (h3 d'));
  tr_wf : conn_wf 0 (h_conn (h3 d'));
  tr_grows : grows (h_conn (h3 d)) (h_conn (h3 d'));
  tr_state : h3 d' = mkH3State (h_conn (h3 d')) (h_events (h3 d)) (h_stream_errors (h3 d));
  tr_written : let '(q, r) := write_all (flat_map (fun id => on_stream id (waiting id (h_conn (h3 d)))) ids) (quic d) in
    quic d' = q /\ res = map_err NgQuic r;
  tr_others : forall id, id ∉ ids -> waiting id (h_conn (h3 d')) = waiting id (h_conn (h3 d));
  tr_emptied : is_ok res = true -> forall id, id ∈ ids -> waiting id (h_conn (h3 d')) = [] }.

Lemma takes_step id c c' : takes id c c' -> conn_step c c' /\ grows c c'.
Proof.
  intros [Et _]. split.
  - exists (OpTakeStreamData id). eexists. split; [exact I|]. cbn [run_op]. by rewrite (returning_ok _ _ _ _ _ Et).
  - by apply (take_stream_data_grows id _ _ _ Et).
Qed.

(** One turn of the loop. *)
Lemma on_take id d c' : takes id (h_conn (h3 d)) c' ->
  on_h3 (take_stream_data id) d = Some (set_conn c' d, Ok (head (waiting id (h_conn (h3 d))))).
Proof. intros [Et _]. unfold on_h3. by rewrite Et. Qed.

Lemma loop_turn fuel id d c' : takes id (h_conn (h3 d)) c' ->
  write_stream_loop (S fuel) id d =
    match waiting id (h_conn (h3 d)) with
    | [] => Some (set_conn c' d, Ok ())
    | (data, fin) :: _ =>
      match q_write_stream (id_to_quic id) data fin (quic d) with
      | (q, Ok _) =>
        let d' := mkDriver (h3 (set_conn c' d)) q in
        if is_empty_bytes data && fin then Some (d', Ok ()) else write_stream_loop fuel id d'
      | (q, Err e) => Some (mkDriver (h3 (set_conn c' d)) q, Err (NgQuic e))
      end
    end.
Proof.
  intros Ht. cbn [write_stream_loop]. unfold mbind at 1, drive_bind at 1. rewrite (on_take _ _ _ Ht).
  destruct (waiting id (h_conn (h3 d))) as [|[data fin] l]; [done|]. cbn [head].
  unfold mbind, drive_bind, on_quic. cbn [quic set_conn with_h3]. destruct (q_write_stream _ _ _ _) as [q [[]|e]]; [|done].
  cbn. by destruct (_ && fin).
Qed.

Lemma transfers_nil d : conn_wf 0 (h_conn (h3 d)) -> transfers [] d d (Ok ()).
Proof. intros Hw. split; try done; [by destruct d as [[]]|]. intros _ id Hin. by apply elem_of_nil in Hin. Qed.

(** What a prefix of the takes leaves, when the transport has refused. *)
Lemma transfers_stop id d c' e (q : Q) : conn_wf 0 c' -> rtc conn_step (h_conn (h3 d)) c' -> grows (h_conn (h3 d)) c' ->
  (forall id', id' <> id -> waiting id' c' = waiting id' (h_conn (h3 d))) ->
  write_all (on_stream id (waiting id (h_conn (h3 d)))) (quic d) = (q, e) ->
  (is_ok e = true -> waiting id c' = []) ->
  transfers [id] d (mkDriver (h3 (set_conn c' d)) q) (map_err NgQuic e).
Proof.
  intros Hw Hs Hg Ho Hq He. split; try done.
  - cbn [flat_map]. by rewrite app_nil_r, Hq.
  - intros id' Hid. apply Ho. set_solver.
  - intros Hok id' ->%list_elem_of_singleton. apply He. by destruct e.
Qed.

Lemma write_loop id d : conn_wf 0 (h_conn (h3 d)) ->
  exists d' res, write_stream_loop TAKES id d = Some (d', res) /\ transfers [id] d d' res.
Proof.
  intros Hw. set (c := h_conn (h3 d)) in *. destruct (take_waiting 0 c id Hw) as (c1 & Ht & Hw1).
  destruct (takes_step _ _ _ Ht) as [Hs1 Hg1]. pose proof Ht as (_ & Htl & Ho1). unfold TAKES. rewrite (loop_turn _ _ _ _ Ht). fold c.
  assert (forall e q, write_all (on_stream id (waiting id c)) (quic d) = (q, e) -> (is_ok e = true -> waiting id c1 = []) ->
    transfers [id] d (mkDriver (h3 (set_conn c1 d)) q) (map_err NgQuic e)) as Hstop1.
  { intros e q. apply transfers_stop; try done. by apply rtc_once. }
  destruct (waiting_shape 0 c id Hw) as [Hs|[Hs|(data & Hne & Hs)]].
  - rewrite Hs in *. eexists _, _. split; [done|]. by apply (Hstop1 (Ok ()) (quic d)).
  - rewrite Hs in *. cbn [on_stream map write_all] in Hstop1.
    destruct (q_write_stream _ _ _ _) as [q [[]|e]]; eexists _, _; (split; [done|]); [by apply (Hstop1 (Ok ()))|by apply (Hstop1 (Err e))].
  - assert (waiting id c = (data, false) :: waiting id c1) as Hc1 by (rewrite Htl; by destruct Hs as [-> | ->]).
    rewrite Hc1 in Hstop1 |- *. cbn [on_stream map write_all] in Hstop1. rewrite andb_false_r.
    destruct (q_write_stream (id_to_quic id) data false (quic d)) as [q1 [[]|e]] eqn:Eq.
    2: { eexists _, _. split; [done|]. by apply (Hstop1 (Err e)). }
    set (d1 := mkDriver (h3 (set_conn c1 d)) q1). change c1 with (h_conn (h3 d1)) in Hw1.
    destruct (take_waiting 0 _ id Hw1) as (c2 & Ht2 & Hw2). destruct (takes_step _ _ _ Ht2) as [Hs2 Hg2].
    pose proof Ht2 as (_ & Htl2 & Ho2). cbn zeta. rewrite (loop_turn _ _ _ _ Ht2). change (h_conn (h3 d1)) with c1 in *.
    assert (forall e q, write_all (on_stream id (waiting id c1)) q1 = (q, e) -> (is_ok e = true -> waiting id c2 = []) ->
      transfers [id] d (mkDriver (h3 (set_conn c2 d)) q) (map_err NgQuic e)) as Hstop2.
    { intros e q Hq. apply transfers_stop; [done|by eapply rtc_l, rtc_once|by etrans| |].
      - intros id' Hne'. by rewrite Ho2, Ho1.
      - fold c. rewrite Hc1. cbn [on_stream map write_all]. by rewrite Eq. }
    assert (waiting id c1 = [] \/ waiting id c1 = [([], true)]) as [H1|H1].
    { rewrite Htl. destruct Hs as [-> | ->]; [by left|by right]. }
    + rewrite H1 in *. eexists _, _. split; [done|]. by apply (Hstop2 (Ok ()) q1).
    + rewrite H1 in *. cbn [on_stream map write_all] in Hstop2. cbn [quic d1].
      destruct (q_write_stream _ [] true q1) as [q [[]|e]]; eexists _, _; (split; [done|]); [by apply (Hstop2 (Ok ()))|by apply (Hstop2 (Err e))].
Qed.

Lemma transfers_cons id ids d d1 d' res : id ∉ ids -> transfers [id] d d1 (Ok ()) -> transfers ids d1 d' res ->
  transfers (id :: ids) d d' res.
Proof.
  intros Hid [A1 A2 A3 A4 A5 A6 A7] [B1 B2 B3 B4 B5 B6 B7]. split; try done.
  - by etrans.
  - by etrans.
  - rewrite B4, A4. done.
  - cbn [flat_map] in A5 |- *. rewrite app_nil_r in A5. rewrite write_all_app.
    destruct (write_all _ (quic d)) as [q [[]|e]]; destruct A5 as [Eq Er]; [|done]. rewrite <- Eq.
    revert B5. replace (flat_map (fun id => on_stream id (waiting id (h_conn (h3 d1)))) ids)
      with (flat_map (fun id => on_stream id (waiting id (h_conn (h3 d)))) ids); [done|].
    clear -A6 Hid. induction ids as [|x ids IH]; [done|]. cbn [flat_map]. rewrite IH by set_solver. f_equal.
    rewrite A6 by set_solver. done.
  - intros id' Hin. rewrite B6, A6 by set_solver. done.
  - intros Hok id' [->|Hin]%elem_of_cons; [|by apply B7]. rewrite B6 by done. apply A7; [done|]. by left.
Qed.

(** What the transport refuses ends the loop. *)
Lemma transfers_cut id ids d d' e : transfers [id] d d' (Err e) -> transfers (id :: ids) d d' (Err e).
Proof.
  intros [A1 A2 A3 A4 A5 A6 _]. split; try done.
  - cbn [flat_map] in A5 |- *. rewrite app_nil_r in A5. rewrite write_all_app.
    destruct (write_all _ (quic d)) as [q [[]|e']]; destruct A5; [done|by split].
  - intros id' Hin. apply A6. set_solver.
Qed.

Lemma write_streams_transfers ids : forall d, conn_wf 0 (h_conn (h3 d)) -> NoDup ids ->
  exists d' res, write_streams ids d = Some (d', res) /\ transfers ids d d' res.
Proof.
  induction ids as [|id ids IH]; intros d Hw Hn; cbn [write_streams].
  { exists d, (Ok ()). split; [done|]. by apply transfers_nil. }
  apply NoDup_cons in Hn as [Hid Hn]. destruct (write_loop id d Hw) as (d1 & r1 & E1 & Ht1).
  unfold mbind, drive_bind. rewrite E1. destruct r1 as [[]|e].
  - destruct (IH d1) as (d2 & r2 & E2 & Ht2); [apply Ht1|done|]. exists d2, r2. split; [done|]. by eapply transfers_cons.
  - exists d1, (Err e). split; [done|]. by apply transfers_cut.
Qed.

Lemma write_pending_transfers d : conn_wf 0 (h_conn (h3 d)) ->
  exists d' res, write_pending d = Some (d', res) /\ transfers (writable_streams (h_conn (h3 d))) d d' res.
Proof. intros Hw. apply write_streams_transfers; [done|]. by eapply writable_nodup. Qed.

(** Afterwards nothing waits, on any stream. *)
Lemma transfers_nothing_left d d' : conn_wf 0 (h_conn (h3 d)) ->
  transfers (writable_streams (h_conn (h3 d))) d d' (Ok ()) -> forall id, waiting id (h_conn (h3 d')) = [].
Proof.
  intros Hw Ht id. destruct (decide (id ∈ writable_streams (h_conn (h3 d)))) as [Hin|Hin]; [by apply (tr_emptied _ _ _ _ Ht)|].
  rewrite (tr_others _ _ _ _ Ht) by done. destruct (waiting id _) eqn:Ew; [done|]. exfalso. apply Hin, (waiting_writable 0); [done|].
  by rewrite Ew.
Qed.

(** ** Safety of the exchange *)
Section safety.
Context `{!TransportLaws}.
Context (r : Role) (settings : Settings) (Hset : settings_ok settings).

Record driver_ok (d : Driver) : Prop := {
  dr_conn : reachable r settings (h_conn (h3 d));
  dr_errors : Forall (fun e => is_stream_error e = true) (h_stream_errors (h3 d));
  dr_pending : Forall quic_event_ok (pending_quic (quic d)) }.

(** No event and no stream error is lost: those queued come first, new ones are added. *)
Definition all_events (d : Driver) : list Event := h_events (h3 d) ++ events (h_conn (h3 d)).
Record advances (d d' : Driver) : Prop := {
  ad_events : exists new, all_events d' = all_events d ++ new;
  ad_errors : exists new, h_stream_errors (h3 d') = h_stream_errors (h3 d) ++ new }.
#[export] Instance advances_preorder : PreOrder advances.
Proof.
  split; [intros d; split; exists []; by rewrite app_nil_r|].
  intros d1 d2 d3 [[l1 E1] [l2 E2]] [[l3 E3] [l4 E4]].
  split; [exists (l1 ++ l3); by rewrite E3, E1, app_assoc|exists (l2 ++ l4); by rewrite E4, E2, app_assoc].
Qed.

(** [m] comes to an end, with [P]. *)
Definition drives {A} (m : drive A) (d : Driver) (P : Driver -> result (NgError E) A -> Prop) : Prop :=
  exists d' res, m d = Some (d', res) /\ driver_ok d' /\ advances d d' /\ P d' res.

Lemma drives_ret {A} (a : A) d (P : Driver -> result (NgError E) A -> Prop) : driver_ok d -> P d (Ok a) -> drives (mret a) d P.
Proof. intros Hd HP. by exists d, (Ok a). Qed.
Lemma drives_bind {A B} (m : drive A) (f : A -> drive B) d P R : drives m d P ->
  (forall a d', driver_ok d' -> P d' (Ok a) -> drives (f a) d' R) -> (forall e d', P d' (Err e) -> R d' (Err e)) ->
  drives (m ≫= f) d R.
Proof.
  intros (d1 & res & E1 & Hd1 & Ha1 & HP) Hf He. unfold drives, mbind, drive_bind. rewrite E1. destruct res as [a|e].
  - destruct (Hf a d1 Hd1 HP) as (d2 & res & E2 & Hd2 & Ha2 & HR). exists d2, res. split; [done|]. split; [done|]. split; [by etrans|done].
  - exists d1, (Err e). auto.
Qed.
Lemma drives_mono {A} (m : drive A) d (P R : Driver -> result (NgError E) A -> Prop) : drives m d P ->
  (forall d' res, P d' res -> R d' res) -> drives m d R.
Proof. intros (d1 & res & ? & ? & ? & ?) Himpl. exists d1, res. auto. Qed.

Definition same_quic (d d' : Driver) : Prop :=
  pending_quic (quic d') = pending_quic (quic d) /\ patience (quic d') = patience (quic d).
Definition kind_error (b : bool) {A} (res : result (NgError E) A) : Prop :=
  match res with Ok _ => True | Err e => is_stream_error e = b end.

(** A call of the connection. *)
Lemma conn_call op c c' res : reachable r settings c -> op_ok op c ->
  match op with OpPollEvent | OpDrainEvents => False | _ => True end ->
  run_op op c = Some (c', res) -> reachable r settings c' /\ grows c c'.
Proof.
  intros Hr Hop Hq Er. split; [eapply reach_step; [done|by exists op, res]|]. by eapply other_grows.
Qed.

Lemma set_conn_ok d c : driver_ok d -> reachable r settings c -> driver_ok (set_conn c d).
Proof. intros [] Hr. by split. Qed.
Lemma set_conn_advances d c : grows (h_conn (h3 d)) c -> advances d (set_conn c d).
Proof. intros (l & El & _). split; [exists l; unfold all_events; cbn; by rewrite El, app_assoc|exists []; by rewrite app_nil_r]. Qed.

Lemma drives_conn {A} (m : action A) (f : A -> output) op d : driver_ok d -> run_op op = returning f m -> op_ok op (h_conn (h3 d)) ->
  match op with OpPollEvent | OpDrainEvents => False | _ => True end ->
  drives (on_h3 m) d (fun d' _ => same_quic d d').
Proof.
  intros Hd Hop Hok Hq. pose proof (reachable_wf _ _ _ Hset (dr_conn _ Hd)) as Hw.
  destruct (run_op_safe op _ Hw Hok) as (c' & res & Er & _). pose proof (conn_call _ _ _ _ (dr_conn _ Hd) Hok Hq Er) as [Hr Hg].
  rewrite Hop, returning_eq in Er. unfold drives, on_h3. destruct (m (h_conn (h3 d))) as [[c1 r1]|]; [|done].
  exists (set_conn c1 d), (map_err NgHttp3 r1). assert (c1 = c') as -> by (destruct r1; congruence).
  split; [done|]. split; [by apply set_conn_ok|]. split; [by apply set_conn_advances|done].
Qed.

Lemma drives_quic {A} (f : Q -> Q * result E A) d (P : Driver -> result (NgError E) A -> Prop) : driver_ok d ->
  Forall quic_event_ok (pending_quic (fst (f (quic d)))) ->
  P (mkDriver (h3 d) (fst (f (quic d)))) (map_err NgQuic (snd (f (quic d)))) -> drives (on_quic f) d P.
Proof.
  intros [] Hp HP. unfold drives, on_quic. destruct (f (quic d)) as [q res]. eexists _, _. split; [done|]. split; [by split|].
  split; [|done]. split; exists []; unfold all_events; cbn; by rewrite app_nil_r.
Qed.

Lemma handle_safe event d : driver_ok d -> quic_event_ok event -> drives (handle_quic_event event) d (fun d' _ => same_quic d d').
Proof.
  intros Hd He. destruct event as [id data fin|id size code|data| |]; cbn [handle_quic_event].
  - destruct He as [Hid Hb]. assert (id_of_quic id = id) as Eid.
    { unfold id_of_quic, u64_of, varint_ok, VARINT_MAX in *. apply Z.mod_small. lia. }
    rewrite Eid. pose proof (reachable_wf _ _ _ Hset (dr_conn _ Hd)) as Hw.
    assert (op_ok (OpFeedStream id data fin) (h_conn (h3 d))) as Hok by done.
    destruct (run_op_safe _ _ Hw Hok) as (c' & res & Er & _). pose proof (conn_call _ _ _ _ (dr_conn _ Hd) Hok I Er) as [Hr Hg]. cbn [run_op] in Er. rewrite returning_eq in Er.
    destruct (feed_stream id data fin (h_conn (h3 d))) as [[c1 r1]|] eqn:Ef; [|done].
    assert (c1 = c') as -> by (destruct r1; congruence). pose proof (set_conn_ok d c' Hd Hr) as Hd1. pose proof (set_conn_advances d c' Hg) as Ha.
    destruct r1 as [[]|e].
    + unfold drives. rewrite Ef. destruct (law_extend id (len data) (quic d)) as [L1 L2]. eexists _, _. split; [done|].
      split; [destruct Hd1; split; try done; cbn in *; by rewrite L1|]. split; [by destruct Ha|by split].
    + destruct e as [| code| | | | | |]; try (eexists _, _; rewrite Ef; done).
      destruct (law_reset id (error_code code) (quic d)) as [L1 L2]. cbn zeta in L1, L2.
      destruct (drives_quic (q_reset_stream id (error_code code)) (set_conn c' d) (fun d' _ => same_quic d d')) as (d2 & r2 & E2 & ? & ? & ?).
      * done.
      * cbn. rewrite L1. apply Hd.
      * by split.
      * exists d2, r2. rewrite Ef. split; [exact E2|]. split; [done|]. split; [by etrans|done].
  - by apply (drives_conn _ (fun _ => OutUnit) (OpStreamReset (id_of_quic id) code size)).
  - by apply (drives_conn _ (fun _ => OutUnit) (OpFeedDatagram data)).
  - by apply drives_ret.
  - by apply drives_ret.
Qed.

(** The same of a loop: with enough fuel it comes to an end, the same for all fuel from there on. *)
Definition settles {A} (m : nat -> drive A) (d : Driver) (P : Driver -> result (NgError E) A -> Prop) : Prop :=
  exists n d' res, (forall fuel, (n <= fuel)%nat -> m fuel d = Some (d', res)) /\ driver_ok d' /\ advances d d' /\ P d' res.

Lemma settles_const {A} (m : drive A) d P : drives m d P -> settles (fun _ => m) d P.
Proof. intros (d' & res & Em & Hm). exists O, d', res. by split. Qed.
Lemma settles_bind {A B} (m : nat -> drive A) (f : A -> nat -> drive B) d P R : settles m d P ->
  (forall a d', driver_ok d' -> P d' (Ok a) -> settles (f a) d' R) -> (forall e d', P d' (Err e) -> R d' (Err e)) ->
  settles (fun fuel => m fuel ≫= fun a => f a fuel) d R.
Proof.
  intros (n1 & d1 & res & E1 & Hd1 & Ha1 & HP) Hf He. destruct res as [a|e].
  - destruct (Hf a d1 Hd1 HP) as (n2 & d2 & res & E2 & Hd2 & Ha2 & HR). exists (n1 + n2)%nat, d2, res.
    split; [|split; [done|split; [by etrans|done]]]. intros fuel Hn. unfold mbind, drive_bind.
    rewrite E1 by lia. apply E2. lia.
  - exists n1, d1, (Err e). split; [|auto]. intros fuel Hn. unfold mbind, drive_bind. by rewrite E1.
Qed.

Lemma recording_safe m d : drives m d (fun d' _ => same_quic d d') ->
  drives (recording m) d (fun d' res => same_quic d d' /\ kind_error false res).
Proof.
  intros (d1 & res & E1 & Hd1 & Ha1 & HP). unfold drives, recording. rewrite E1. destruct res as [[]|e]; [by exists d1, (Ok ())|].
  unfold record_error. destruct (is_stream_error e) eqn:Ee; [|by exists d1, (Err e)].
  exists (queue_error e d1), (Ok ()). split; [done|]. split; [|split; [|by split; [apply HP|]]].
  - destruct Hd1. split; try done. apply Forall_app. by split; [|apply Forall_singleton].
  - etrans; [exact Ha1|]. split; [exists []; unfold all_events; cbn; by rewrite app_nil_r|by exists [e]].
Qed.

Definition polled (d d' : Driver) {A} (res : result (NgError E) A) : Prop :=
  patience (quic d') = patience (quic d) /\ kind_error false res /\ (is_ok res = true -> pending_quic (quic d') = []).

Lemma handle_events_settle k : forall closed d, driver_ok d -> length (pending_quic (quic d)) = k ->
  settles (fun fuel => handle_events fuel closed) d (fun d' res => polled d d' res).
Proof.
  induction k as [|k IH]; intros closed d Hd Hk; destruct (law_poll (quic d)) as (L1 & L2 & L3).
  - apply nil_length_inv in Hk. rewrite Hk in L1, L2. destruct (q_poll_event (quic d)) as [q o] eqn:Eq. cbn [fst snd head tail] in *. subst o.
    exists 1%nat, (mkDriver (h3 d) q), (Ok closed). split; [|split; [|split; [|done]]].
    + intros [|fuel] Hn; [lia|]. cbn [handle_events]. by rewrite Eq.
    + destruct Hd. split; try done. cbn. by rewrite L2.
    + split; exists []; unfold all_events; cbn; by rewrite app_nil_r.
  - destruct (pending_quic (quic d)) as [|event l] eqn:Ep; [done|]. cbn [length] in Hk.
    destruct (q_poll_event (quic d)) as [q o] eqn:Eq. cbn [fst snd head tail] in *. subst o.
    pose proof (dr_pending _ Hd) as Hf. rewrite Ep in Hf. apply Forall_cons in Hf as [He Hl].
    set (d1 := mkDriver (h3 d) q). assert (driver_ok d1) as Hd1 by (destruct Hd; split; try done; cbn; by rewrite L2).
    assert (settles (fun fuel => recording (handle_quic_event event);; handle_events fuel (closed || is_connection_closed event)) d1
      (fun d' res => polled d d' res)) as (n & d2 & res & E2 & Hd2 & Ha2 & HP).
    { eapply (settles_bind (fun _ => recording (handle_quic_event event)) (fun _ fuel => handle_events fuel (closed || is_connection_closed event))).
      - by apply settles_const, recording_safe, handle_safe.
      - intros [] d3 Hd3 [[S1 S2] _]. cbn [quic d1] in S1, S2.
        destruct (IH (closed || is_connection_closed event) d3 Hd3) as (n & d2 & res & E2 & Hd2 & Ha2 & P1 & P2 & P3); [rewrite S1, L2; lia|].
        exists n, d2, res. split; [done|]. split; [done|]. split; [done|]. split; [congruence|by split].
      - intros e d3 [[S1 S2] Hk3]. cbn [quic d1] in S1, S2. split; [congruence|by split]. }
    exists (S n), d2, res. split; [|split; [done|split; [|done]]].
    + intros [|fuel] Hn; [lia|]. cbn [handle_events]. rewrite Eq. apply E2. lia.
    + etrans; [|exact Ha2]. split; exists []; unfold all_events; cbn; by rewrite app_nil_r.
Qed.

Lemma write_all_quiet l : forall q, pending_quic (fst (write_all l q)) = pending_quic q /\ patience (fst (write_all l q)) = patience q.
Proof.
  induction l as [|[id [data fin]] l IH]; intros q; [done|]. cbn [write_all].
  destruct (law_write (id_to_quic id) data fin q) as [L1 L2]. destruct (q_write_stream _ _ _ _) as [q' [[]|e]]; [|done].
  cbn [fst] in L1, L2. destruct (IH q') as [-> ->]. by split.
Qed.

Lemma write_pending_safe d : driver_ok d -> drives write_pending d (fun d' res => same_quic d d' /\ kind_error false res).
Proof.
  intros Hd. destruct (write_pending_transfers d) as (d' & res & Ew & [T1 _ T3 T4 T5 _ _]); [by eapply reachable_wf, Hd|].
  pose proof (write_all_quiet (flat_map (fun id => on_stream id (waiting id (h_conn (h3 d)))) (writable_streams (h_conn (h3 d)))) (quic d)) as [L1 L2].
  destruct (write_all _ (quic d)) as [q rq]. cbn [fst] in L1, L2. destruct T5 as [<- ->]. eexists _, _. split; [exact Ew|].
  split; [|split; [|split; [by split|by destruct rq]]].
  - destruct Hd as [Hr Hs Hp]. split; [by eapply reachable_steps|by rewrite T4|by rewrite L1].
  - destruct T3 as (l & El & _). split; [exists l|exists []]; unfold all_events; rewrite T4; cbn; [by rewrite El, app_assoc|by rewrite app_nil_r].
Qed.

Lemma flush_safe d : driver_ok d -> drives (on_quic q_flush) d (fun d' res => patience (quic d') = patience (quic d) /\ kind_error false res).
Proof.
  intros Hd. destruct (law_flush (quic d)) as [(l & Hl & L1) L2]. cbn zeta in L1, L2. apply drives_quic; [done| |].
  - rewrite L1. apply Forall_app. by split; [apply Hd|].
  - split; [done|]. by destruct (snd (q_flush (quic d))).
Qed.

Lemma collect_safe d : driver_ok d -> drives collect_events d (fun d' res => same_quic d d' /\ kind_error false res).
Proof.
  intros Hd. pose proof (reachable_wf _ _ _ Hset (dr_conn _ Hd)) as Hw.
  destruct (run_op_safe OpDrainEvents _ Hw I) as (c' & res & Er & _).
  assert (reachable r settings c') as Hr by (eapply reach_step; [apply Hd|by exists OpDrainEvents, res]).
  destruct (drain_grows _ _ _ Er) as (l & Hl & Hlok). cbn [run_op] in Er. rewrite returning_eq in Er. unfold drives, collect_events.
  destruct (drain_events (h_conn (h3 d))) as [[c1 r1]|]; [|done]. assert (c1 = c') as -> by (destruct r1; congruence).
  pose proof (set_conn_ok d c' Hd Hr) as Hd1. destruct r1 as [evs|e].
  - injection Er as <-. cbn [handed_out flat_map] in Hl. rewrite app_nil_r in Hl. eexists _, _. split; [done|].
    split; [by destruct Hd1|]. split; [|by split]. split; [exists l|exists []]; unfold all_events; cbn; [|by rewrite app_nil_r].
    by rewrite <- !app_assoc, Hl.
  - injection Er as <-. cbn [handed_out flat_map app] in Hl.
    assert (advances d (set_conn c' d)) as Ha by (apply set_conn_advances; by exists l).
    unfold record_error. destruct (is_stream_error (NgHttp3 e)) eqn:Ee; [|by eexists _, _].
    eexists _, _. split; [done|]. split; [|split; [|by split]].
    + destruct Hd1. split; try done. apply Forall_app. by split; [|apply Forall_singleton].
    + destruct Ha as [[l1 E1] [l2 E2]]. split; [exists l1; exact E1|by exists [NgHttp3 e]].
Qed.

Lemma pump_settles d : driver_ok d -> settles pump d (fun d' res => polled d d' res).
Proof.
  intros Hd. unfold pump.
  apply (settles_bind (fun fuel => handle_events fuel false)
    (fun closed fuel => (if closed then mret () else write_pending);; on_quic q_flush;; _ ← handle_events fuel false; collect_events) _ (fun d1 res => polled d d1 res)).
  - by eapply handle_events_settle.
  - intros closed d1 Hd1 (P1 & _ & _).
    apply (settles_bind (fun _ => if closed then mret () else write_pending)
      (fun _ fuel => on_quic q_flush;; _ ← handle_events fuel false; collect_events) _ (fun d2 res => patience (quic d2) = patience (quic d) /\ kind_error false res)).
    { apply settles_const. destruct closed; [by apply drives_ret|]. eapply drives_mono; [by apply write_pending_safe|].
      intros d2 res [[_ S2] Hk]. split; [congruence|done]. }
    2: { intros e d2 [? ?]. by split. }
    intros [] d2 Hd2 [P2 _].
    apply (settles_bind (fun _ => on_quic q_flush) (fun _ fuel => _ ← handle_events fuel false; collect_events) _
      (fun d3 res => patience (quic d3) = patience (quic d) /\ kind_error false res)).
    { apply settles_const. eapply drives_mono; [by apply flush_safe|]. intros d3 res [? ?]. split; [congruence|done]. }
    2: { intros e d3 [? ?]. by split. }
    intros [] d3 Hd3 [P3 _].
    apply (settles_bind (fun fuel => handle_events fuel false) (fun _ _ => collect_events) _ (fun d4 res => polled d d4 res)).
    + destruct (handle_events_settle _ false d3 Hd3 eq_refl) as (n & d4 & res & E4 & Hd4 & Ha4 & P4 & K4 & Q4).
      exists n, d4, res. split; [done|]. split; [done|]. split; [done|]. split; [congruence|by split].
    + intros b d4 Hd4 (P4 & _ & Q4). apply settles_const. eapply drives_mono; [by apply collect_safe|].
      intros d5 res [[S1 S2] Hk]. split; [congruence|]. split; [done|]. intros _. rewrite S1. by apply Q4.
    + intros e d4 (? & ? & ?). by split_and!.
  - intros e d1 (? & ? & ?). by split_and!.
Qed.

Lemma settles_mono {A} (m : nat -> drive A) d (P R : Driver -> result (NgError E) A -> Prop) : settles m d P ->
  (forall d' res, P d' res -> R d' res) -> settles m d R.
Proof. intros (n & d1 & res & ? & ? & ? & ?) Himpl. exists n, d1, res. auto. Qed.

(** Waiting: [next] is only reached with less patience. *)
Lemma wait_settles next d (P : Driver -> result (NgError E) unit -> Prop) : driver_ok d ->
  (forall d', driver_ok d' -> P d' (Ok ())) -> (forall e d', is_stream_error e = false -> P d' (Err e)) ->
  (forall d', driver_ok d' -> (patience (quic d') < patience (quic d))%nat -> settles next d' P) ->
  settles (fun fuel => wait_event (next fuel)) d P.
Proof.
  intros Hd Hok Herr Hnext. pose proof (law_recv (quic d)) as L. destruct (q_is_closed (quic d)) eqn:Ec.
  { exists O, d, (Ok ()). split; [|split; [done|split; [done|by apply Hok]]]. intros fuel _. unfold wait_event. by rewrite Ec. }
  destruct (q_recv_event (quic d)) as [q o] eqn:Eq. destruct L as [(l & Hl & L1) L2]. set (d1 := mkDriver (h3 d) q).
  assert (driver_ok d1) as Hd1.
  { destruct Hd. split; try done. cbn. rewrite L1. apply Forall_app. by split. }
  assert (advances d d1) as Ha1 by (split; exists []; unfold all_events; cbn; by rewrite app_nil_r).
  destruct o as [[event|e]|]; [|exists O, d1, (Ok ()); (split; [|split; [done|split; [done|by apply Hok]]]); intros fuel _;
    unfold wait_event; by rewrite Ec, Eq..].
  destruct L2 as [He L2].
  assert (settles (fun fuel => recording (handle_quic_event event);; if is_connection_closed event then mret () else next fuel) d1 P)
    as (n & d2 & res & E2 & Hd2 & Ha2 & HP).
  { eapply (settles_bind (fun _ => recording (handle_quic_event event)) (fun _ fuel => if is_connection_closed event then mret () else next fuel)).
    - by apply settles_const, recording_safe, handle_safe.
    - intros [] d2 Hd2 [[S1 S2] _]. cbn [quic d1] in S1, S2. destruct (is_connection_closed event).
      + by apply settles_const, drives_ret, Hok.
      + apply Hnext; [done|]. by rewrite S2.
    - intros e d2 [_ Hk]. by apply Herr. }
  exists n, d2, res. split; [|split; [done|split; [by etrans|done]]]. intros fuel Hn. unfold wait_event. rewrite Ec, Eq. by apply E2.
Qed.

Lemma pump_wait_loop_settles k : forall d, driver_ok d -> (patience (quic d) < k)%nat ->
  settles pump_wait_loop d (fun _ res => kind_error false res).
Proof.
  induction k as [|k IH]; intros d Hd Hk; [lia|].
  assert (settles (fun fuel => pump fuel;; wait_event (pump_wait_loop fuel)) d (fun _ res => kind_error false res))
    as (n & d2 & res & E2 & Hd2 & Ha2 & HP).
  { apply (settles_bind pump (fun _ fuel => wait_event (pump_wait_loop fuel)) _ (fun d' res => polled d d' res)).
    - by apply pump_settles.
    - intros [] d1 Hd1 [P1 _]. apply wait_settles; try done. intros d3 Hd3 Hlt. apply IH; [done|]. lia.
    - by intros e d1 (_ & ? & _). }
  exists (S n), d2, res. split; [|by split_and!]. intros [|fuel] Hn; [lia|]. cbn [pump_wait_loop]. apply E2. lia.
Qed.

Lemma pump_wait_settles d : driver_ok d ->
  settles pump_wait d (fun d' res => kind_error false res /\ (is_ok res = true -> pending_quic (quic d') = [])).
Proof.
  intros Hd. unfold pump_wait. apply (settles_bind pump_wait_loop (fun _ => pump) _ (fun _ res => kind_error false res)).
  - eapply pump_wait_loop_settles; [done|]. apply Nat.lt_succ_diag_r.
  - intros [] d1 Hd1 _. eapply settles_mono; [by apply pump_settles|]. by intros d2 res (_ & ? & ?).
  - done.
Qed.

(** The streams that a new connection opens. *)
Lemma quic_call_safe {A} (f : Q -> Q * result E A) d : driver_ok d ->
  pending_quic (fst (f (quic d))) = pending_quic (quic d) -> drives (on_quic f) d (fun _ _ => True).
Proof. intros Hd Hp. apply drives_quic; [done| |done]. rewrite Hp. apply Hd. Qed.
Lemma init_streams_safe d : driver_ok d -> drives h3_init_h3_streams d (fun _ _ => True).
Proof.
  intros Hd. unfold h3_init_h3_streams.
  do 3 (eapply drives_bind; [apply quic_call_safe; [eassumption|apply law_open_uni]| |done]; intros ? ? ? _).
  eapply drives_bind; [eapply drives_mono; [eapply (drives_conn _ OutInit (OpInitH3Streams _ _ _)); try done|intros; exact I]| |done]. intros init d4 Hd4 _.
  do 3 (eapply drives_bind; [apply quic_call_safe; [eassumption|apply law_write]| |done]; intros ? ? ? _).
  eapply drives_mono; [by apply flush_safe|done].
Qed.
End safety.
End driver.
Arguments Driver : clear implicits.
Arguments mkDriver {Q E} _ _.

(** ** Properties *)

(** The driver drives the connection safely: whatever QUIC reports, [pump] and
    [pump_wait] come to an end without a panic and leave the connection in a state it can
    get into; they lose no event and no stream error, which stay in order; only an error
    that is not a stream error makes them fail; when they succeed, nothing QUIC had to
    report is left. *)
Theorem driver_safe {Q E} `{!Transport Q E, !TransportLaws} r settings (d : Driver Q E) :
  settings_ok settings -> driver_ok r settings d -> forall drive, drive = pump \/ drive = pump_wait ->
  exists n d' res, (forall fuel, (n <= fuel)%nat -> drive fuel d = Some (d', res)) /\
    driver_ok r settings d' /\ advances d d' /\
    match res with Ok _ => pending_quic (quic d') = [] | Err e => is_stream_error e = false end.
Proof.
  intros Hset Hd drive Hdrive.
  assert (settles r settings drive d (fun d' res => kind_error false res /\ (is_ok res = true -> pending_quic (quic d') = [])))
    as (n & d' & res & E1 & Hd' & Ha & Hk & Hp).
  { destruct Hdrive as [-> | ->]; [|by apply pump_wait_settles]. eapply settles_mono; [by apply pump_settles|].
    by intros d' res (_ & ? & ?). }
  exists n, d', res. split; [done|]. split; [done|]. split; [done|]. destruct res; [by apply Hp|done].
Qed.

(** C9. What the connection has to send is given to QUIC, all of it and nothing else: for
    each stream the bytes that wait in one piece, then the FIN, if one is due; unless QUIC
    refuses, no stream has anything left to give. *)
Theorem write_pending_sends_all {Q E} `{!Transport Q E} r settings (d : Driver Q E) :
  settings_ok settings -> reachable r settings (h_conn (h3 d)) ->
  exists d' res, write_pending d = Some (d', res) /\
    (let '(q, refused) := write_all (flat_map (fun id => on_stream id (waiting id (h_conn (h3 d))))
        (writable_streams (h_conn (h3 d)))) (quic d) in
      quic d' = q /\ res = map_err NgQuic refused) /\
    (res = Ok () -> forall id, take_stream_data id (h_conn (h3 d')) = Some (h_conn (h3 d'), Ok None)).
Proof.
  intros Hset Hr. pose proof (reachable_wf _ _ _ Hset Hr) as Hw. destruct (write_pending_transfers d Hw) as (d' & res & Ew & Ht).
  exists d', res. split; [done|]. split; [apply Ht|]. intros -> id. pose proof (transfers_nothing_left d d' Hw Ht id) as Hn.
  destruct (take_nothing 0 _ id (tr_wf _ _ _ _ Ht) Hn) as [Et _]. by rewrite Hn in Et.
Qed.

(** ** Witnesses: a transport that keeps what it is given *)
Record TestQuic := mkTestQuic { tq_pending : list QuicEvent; tq_later : list QuicEvent; tq_written : list (Z * bytes * bool); tq_next_uni : Z }.

#[export] Instance test_transport : Transport TestQuic unit := {
  q_poll_event q := match tq_pending q with
    | [] => (q, None)
    | event :: l => (mkTestQuic l (tq_later q) (tq_written q) (tq_next_uni q), Some event)
    end;
  q_is_closed _ := false;
  q_has_pending_data _ := false;
  q_reset_stream _ _ q := (q, Ok ());
  q_write_stream id data fin q := (mkTestQuic (tq_pending q) (tq_later q) (tq_written q ++ [(id, data, fin)]) (tq_next_uni q), Ok ());
  q_extend_max_stream_offset _ _ q := q;
  q_open_uni_stream q := (mkTestQuic (tq_pending q) (tq_later q) (tq_written q) (tq_next_uni q + 4), Ok (tq_next_uni q));
  q_open_bidi_stream q := (q, Ok 0);
  q_flush q := (q, Ok ());
  q_recv_event q := match tq_later q with
    | [] => (q, None)
    | event :: l => (mkTestQuic (tq_pending q) l (tq_written q) (tq_next_uni q), if bool_decide (quic_event_ok event) then Some (Ok event) else None)
    end;
  q_can_send_datagram _ := true;
  q_send_datagram _ q := (q, Ok ()) }.

#[export] Instance test_transport_laws : TransportLaws.
Proof.
  refine {| pending_quic := tq_pending; patience q := length (tq_later q) |}; try done.
  - by intros [[|event l] later out next].
  - intros q. split; [|done]. exists []. by rewrite app_nil_r.
  - intros [pending [|event l] out next]; cbn; [split; [exists []; by rewrite app_nil_r|done]|].
    destruct (decide (quic_event_ok event)) as [Hok|Hok].
    + rewrite bool_decide_true by done. split; [exists []; by rewrite app_nil_r|]. split; [done|lia].
    + rewrite bool_decide_false by done. split; [exists []; by rewrite app_nil_r|lia].
Defined.

(** A client that has sent a request and gets SETTINGS, then a HEADERS frame that is no
    request's. *)
Definition asking_client : list conn_op := [OpInitH3Streams 2 6 10; OpSendRequest get_headers true].
Definition asking_driver (c : Connection) : Driver TestQuic unit :=
  mkDriver (mkH3State c [] []) (mkTestQuic [QStreamData 3 [0x00; 0x04; 0x00; 0x07; 0x01; 0x04] false; QOther] [] [] 2).

Lemma asking_driver_ok c : reachable Client settings_new c -> driver_ok Client settings_new (asking_driver c).
Proof.
  intros Hr. split; [exact Hr|constructor|]. apply (bool_decide_unpack _). vm_compute. exact I.
Qed.

Lemma driver_safe_witness :
  exists c n d' res, state_after Client settings_new asking_client = Some c /\
    (forall fuel, (n <= fuel)%nat -> pump fuel (asking_driver c) = Some (d', res)) /\
    driver_ok Client settings_new d' /\ advances (asking_driver c) d' /\
    match res with Ok _ => tq_pending (quic d') = [] | Err e => is_stream_error e = false end.
Proof.
  destruct (state_after Client settings_new asking_client) as [c|] eqn:E; [|vm_compute in E; discriminate].
  assert (reachable Client settings_new c) as Hr.
  { apply (state_after_reachable _ _ asking_client); [vm_compute; reflexivity|exact E]. }
  destruct (driver_safe Client settings_new (asking_driver c) ltac:(repeat split) (asking_driver_ok c Hr) pump (or_introl eq_refl))
    as (n & d' & res & H1 & H2 & H3 & H4).
  exists c, n, d', res. split; [reflexivity|]. split; [exact H1|]. split; [exact H2|]. split; [exact H3|exact H4].
Defined.

(** The request goes out in one piece, followed by the FIN. *)
Lemma write_pending_sends_all_witness :
  exists c d' data, state_after Client settings_new asking_client = Some c /\
    write_pending (asking_driver c) = Some (d', Ok ()) /\ tq_written (quic d') = [(0, data, false); (0, [], true)] /\
    forall id, take_stream_data id (h_conn (h3 d')) = Some (h_conn (h3 d'), Ok None).
Proof.
  destruct (state_after Client settings_new asking_client) as [c|] eqn:E; [|vm_compute in E; discriminate].
  assert (reachable Client settings_new c) as Hr.
  { apply (state_after_reachable _ _ asking_client); [vm_compute; reflexivity|exact E]. }
  destruct (write_pending_sends_all Client settings_new (asking_driver c) ltac:(repeat split) Hr) as (d' & res & H1 & H2 & H3).
  assert (exists data, write_all (flat_map (fun id => on_stream id (waiting id (h_conn (h3 (asking_driver c)))))
    (writable_streams (h_conn (h3 (asking_driver c))))) (quic (asking_driver c)) =
    (mkTestQuic (tq_pending (quic (asking_driver c))) [] [(0, data, false); (0, [], true)] 2, Ok ())) as [data Hd].
  { vm_compute in E. injection E as <-. eexists. vm_compute. reflexivity. }
  rewrite Hd in H2. destruct H2 as [Hq ->]. exists c, d', data. split; [reflexivity|]. split; [exact H1|].
  split; [rewrite Hq; reflexivity|apply H3; reflexivity].
Defined.
