(* ===== verification/NgEndpoint.v ===== *)
(** crates/tokio-ngtcp2/src/client.rs, server.rs and webtransport.rs: the client and the
    server on top of the driver (NgDriver.v), one connection at a time; NgClient.v,
    NgServer.v and NgWtServer.v hold the rest. Deadlines are a number of rounds; sockets
    and the configuration of QUIC are not modelled. The handlers of an application are
    functions on a state of its own. *)

From Stdlib Require Import String Ascii.
From S2P Require Import Prelude Codec Varint Header EncoderStream DecoderStream Settings Error Stream WtStream FrameStream QpackEncoder QpackDecoder ControlStream RequestStream Frame Validation Capsule Connect Display Event Datagram WtSession Connection ConnInvariant ConnNegotiation ConnWtSession ConnWtStream ConnReceive ConnSafety ConnSend ConnSendSafety ConnRun ConnEvents ConnOutgoing ConnExchange ConnEndToEnd NgDriver.

(** [Display] of an error; [display_quic] is that of QUIC's. *)
Definition display_ng_error {E} (display_quic : E -> bytes) (e : NgError E) : bytes :=
  match e with
  | NgQuic e => str "QUIC error: " ++ display_quic e
  | NgHttp3 e => str "HTTP/3 error: " ++ display_error e
  | NgTimeout => str "operation timed out"
  | NgInvalidArgument msg => str "invalid argument: " ++ msg
  | NgInvalidState msg => str "invalid state: " ++ msg
  | NgWebTransportClosed code message => str "WebTransport session closed: error_code=" ++ decimal code ++ str " message=" ++ message
  end.

Section endpoint.
Context {Q E : Type} `{!Transport Q E}.
Notation drive := (drive (Q := Q) (E := E)).

(** A step that depends on the state. *)
Definition inspect {A} (f : Driver Q E -> drive A) : drive A := fun d => f d d.

(** ** [Client] *)
Definition pending_stream_error : drive unit :=
  e ← h3_take_stream_error; match e with Some e => fail e | None => mret () end.

Definition open_bidi_stream : drive Z := opened ← on_quic q_open_bidi_stream; mret (id_of_quic opened).
Definition open_bidi_stream_for (stream_id : Z) : drive unit :=
  opened ← open_bidi_stream;
  if negb (opened =? stream_id) then fail (NgInvalidState (str "QUIC and HTTP/3 stream id mismatch for request")) else mret ().

Definition client_send_request (headers : list Header) : drive Z :=
  stream_id ← h3_send_request headers true; open_bidi_stream_for stream_id;; mret stream_id.
Definition client_send_request_with_body (headers : list Header) (body : bytes) : drive Z :=
  stream_id ← h3_send_request headers false;
  open_bidi_stream_for stream_id;;
  h3_send_body stream_id body true;;
  mret stream_id.
Definition client_send_request_streaming (headers : list Header) : drive Z :=
  stream_id ← h3_send_request headers false; open_bidi_stream_for stream_id;; mret stream_id.

Definition write_wt_stream (stream_id : Z) (data : bytes) (fin : bool) : drive unit :=
  on_quic (q_write_stream (id_to_quic stream_id) data fin).

Definition client_flush (fuel : nat) : drive unit := pump fuel;; pending_stream_error.
Definition client_recv (fuel : nat) : drive unit := pump_wait fuel;; pending_stream_error.

(** [rounds]: how often the deadline lets it wait. *)
Fixpoint client_handshake (rounds fuel : nat) : drive unit := inspect (fun d =>
  match peer_settings (h_conn (h3 d)) with
  | Some _ => mret ()
  | None =>
    match rounds with
    | O => fail NgTimeout
    | S rounds => pump_wait fuel;; pending_stream_error;; client_handshake rounds fuel
    end
  end).

Definition client_send_wt_datagram (session_id : Z) (payload : bytes) (fuel : nat) : drive bool := inspect (fun d =>
  if negb (q_can_send_datagram (quic d)) then mret false
  else h3_send_wt_datagram session_id payload;; client_flush fuel;; mret true).

(** ** [ClientWebTransportSession]: the calls that only read its [session_id] *)
Definition ng_wt_settings : WtSettings := for_draft_versions [Draft02; Draft07; Draft14; Draft15; Draft17] 1.
Definition client_settings : Settings := enable_webtransport_client settings_new ng_wt_settings.
Definition server_settings : Settings := enable_webtransport_server settings_new ng_wt_settings.

Definition not_established : NgError E := NgInvalidState (str "WebTransport session is not established").

(** The header that a stream of the session starts with; a panic when it cannot be encoded. *)
Definition write_stream_header (session_id stream_id : Z) : drive unit :=
  match stream_header_new session_id with
  | Err _ => fail (NgInvalidState (str "invalid WebTransport session id"))
  | Ok header => match encode_bidirectional [] header with Some bs => write_wt_stream stream_id bs false | None => fun _ => None end
  end.
Definition wt_open_bidi_stream (session : option Z) : drive Z :=
  match session with
  | None => fail not_established
  | Some session_id =>
    stream_id ← open_bidi_stream;
    h3_register_local_wt_stream session_id stream_id;;
    write_stream_header session_id stream_id;;
    mret stream_id
  end.

Fixpoint write_capsules (session_id : Z) (frames : list bytes) : drive unit :=
  match frames with
  | [] => mret ()
  | frame :: frames => write_wt_stream session_id frame false;; write_capsules session_id frames
  end.
Definition take_and_write_capsules (session_id : Z) : drive unit :=
  frames ← h3_take_wt_capsules session_id; write_capsules session_id frames.
Definition deliver_capsules (session : option Z) (fuel : nat) : drive unit :=
  match session with
  | None => mret ()
  | Some session_id => inspect (fun d =>
    if negb (wt_session_flow_control_enabled session_id (h_conn (h3 d))) then mret ()
    else take_and_write_capsules session_id;; client_flush fuel)
  end.
Definition wt_recv (session : option Z) (fuel : nat) : drive unit := client_recv fuel;; deliver_capsules session fuel.

Fixpoint wt_send_stream_data_loop (session : option Z) (rounds fuel : nat) : drive unit :=
  client_flush fuel;;
  inspect (fun d =>
    if negb (q_has_pending_data (quic d)) then deliver_capsules session fuel
    else
      match rounds with
      | O => fail NgTimeout
      | S rounds => client_recv fuel;; wt_send_stream_data_loop session rounds fuel
      end).
Definition wt_send_stream_data (session : option Z) (stream_id : Z) (data : bytes) (fin : bool) (rounds fuel : nat) : drive unit :=
  write_wt_stream stream_id data fin;; wt_send_stream_data_loop session rounds fuel.

Definition wt_send_datagram (session : option Z) (data : bytes) (fuel : nat) : drive bool :=
  match session with
  | None => mret false
  | Some session_id => client_send_wt_datagram session_id data fuel
  end.

(** What the application is handed counts as consumed. *)
Definition consume_event (session_id : Z) (e : WebTransportEvent) : drive unit :=
  match e with
  | WtBidiStreamData _ data | WtUniStreamData _ data => h3_wt_data_consumed session_id (len data)
  | _ => mret ()
  end.
Definition wt_poll (session : option Z) : drive (option Event) :=
  e ← h3_poll_event;
  (match e, session with Some (EvWebTransport wt), Some session_id => consume_event session_id wt | _, _ => mret () end);;
  mret e.

End endpoint.

(** ** The handlers of a server *)
Section serving.
Context {Q E : Type} `{!Transport Q E} {S : Type}.
Notation drive := (drive (Q := Q) (E := E)).

(** Calls with the state [S] of a handler beside the driver. *)
Definition serving (A : Type) : Type := S -> Driver Q E -> option (S * Driver Q E * result (NgError E) A).
#[export] Instance serving_ret : MRet serving := fun _ a s d => Some (s, d, Ok a).
#[export] Instance serving_bind : MBind serving := fun _ _ f m s d =>
  match m s d with
  | Some (s, d, Ok a) => f a s d
  | Some (s, d, Err e) => Some (s, d, Err e)
  | None => None
  end.
Definition driving {A} (m : drive A) : serving A := fun s d =>
  match m d with Some (d, r) => Some (s, d, r) | None => None end.
Definition update (f : S -> S) : serving unit := fun s d => Some (f s, d, Ok ()).

(** A stream error is written to the log. *)
Definition tolerating (m : drive unit) : drive unit := fun d =>
  match m d with
  | Some (d, Err e) => if is_stream_error e then Some (d, Ok ()) else Some (d, Err e)
  | other => other
  end.

(** [while let Some(event) = state.h3.poll_event()]. *)
Fixpoint serve_events (step : Event -> serving unit) (fuel : nat) : serving unit :=
  match fuel with
  | O => fun _ _ => None
  | Datatypes.S fuel =>
    e ← driving h3_poll_event;
    match e with
    | None => mret ()
    | Some e => step e;; serve_events step fuel
    end
  end.

(** [pump_connection]: what the handler answers is sent on the stream of the event. *)
Definition send_answer (stream_id : Z) (headers : list Header) (body : bytes) : drive unit :=
  h3_send_response stream_id headers false;; h3_send_body stream_id body true.
Definition serve_event (handler : S -> Event -> S * option (list Header * bytes)) (e : Event) : serving unit := fun s d =>
  let '(s, answer) := handler s e in
  match answer, event_stream_id e with
  | Some (headers, body), Some stream_id => driving (tolerating (send_answer stream_id headers body)) s d
  | _, _ => Some (s, d, Ok ())
  end.
Definition pump_connection (handler : S -> Event -> S * option (list Header * bytes)) (fuel : nat) : serving unit :=
  driving (pump_wait fuel);;
  driving log_stream_errors;;
  serve_events (serve_event handler) fuel;;
  driving (pump fuel);;
  driving log_stream_errors.

(** [add_connection]. *)
Definition server_add_connection (fuel : nat) : drive unit :=
  h3_init_h3_streams;; h3_set_transport_verified;; pump fuel.
End serving.

(** ** [ServerWebTransportSession]: one connection *)
Record WtConnectionState := mkWtConnectionState {
  wc_sessions : gset Z; wc_stream_sessions : gmap Z Z; wc_request_headers : gmap Z (list (bytes * bytes)) }.
Definition wt_connection_state_new : WtConnectionState := mkWtConnectionState ∅ ∅ ∅.

Definition set_wc_sessions (v : gset Z) (w : WtConnectionState) : WtConnectionState :=
  mkWtConnectionState v (wc_stream_sessions w) (wc_request_headers w).
Definition set_wc_stream_sessions (v : gmap Z Z) (w : WtConnectionState) : WtConnectionState :=
  mkWtConnectionState (wc_sessions w) v (wc_request_headers w).
Definition set_wc_request_headers (v : gmap Z (list (bytes * bytes))) (w : WtConnectionState) : WtConnectionState :=
  mkWtConnectionState (wc_sessions w) (wc_stream_sessions w) v.

Definition is_wt_connect (headers : list (bytes * bytes)) : bool :=
  existsb (fun nv => bytes_eqb (fst nv) (str ":method") && bytes_eqb (snd nv) (str "CONNECT")) headers &&
  existsb (fun nv => bytes_eqb (fst nv) (str ":protocol")) headers.

Section wt_serving.
(** [iter] is the order in which a [HashSet] gives its elements. *)
Context {Q E : Type} `{!Transport Q E} {H : Type} (iter : gset Z -> list Z) (handler : H -> Z -> Event -> H * bool).
Notation drive := (drive (Q := Q) (E := E)).
Notation serving := (serving (Q := Q) (E := E) (S := WtConnectionState * H)).

Definition resolve_session (stream_id : option Z) (w : WtConnectionState) : option Z :=
  match s ← stream_id; wc_stream_sessions w !! s with
  | Some session_id => Some session_id
  | None => head (iter (wc_sessions w))
  end.

Definition update_wt (f : WtConnectionState -> WtConnectionState) : serving unit := update (fun s => (f (fst s), snd s)).
Definition call_handler (session_id : Z) (e : Event) : serving bool := fun s d =>
  let '(h, b) := handler (snd s) session_id e in Some ((fst s, h), d, Ok b).
Definition with_wt {A} (f : WtConnectionState -> serving A) : serving A := fun s d => f (fst s) s d.

(** The answer to a CONNECT request that the handler accepts. *)
Definition accept_connect (stream_id : Z) : drive unit :=
  match response_to_headers (connect_response_new 200) with
  | Err e => fail (NgInvalidArgument (str "invalid CONNECT response: " ++ display_header_error e))
  | Ok response => tolerating (h3_send_response stream_id response false)
  end.

Definition finish_headers (stream_id : Z) : serving unit := with_wt (fun w =>
  let headers := default [] (wc_request_headers w !! stream_id) in
  update_wt (set_wc_request_headers (delete stream_id (wc_request_headers w)));;
  if is_wt_connect headers && is_ok (from_headers headers) then
    accepted ← call_handler stream_id (EvHeadersEnd stream_id);
    if (accepted : bool) then driving (accept_connect stream_id) else mret ()
  else mret ()).

Definition serve_wt_event (wt : WebTransportEvent) : serving unit :=
  match wt with
  | WtSessionEstablished session_id _ =>
    update_wt (fun w => set_wc_sessions (wc_sessions w ∪ {[session_id]}) w);;
    _ ← call_handler session_id (EvWebTransport wt); mret ()
  | WtBidiStreamOpen stream_id session_id | WtUniStreamOpen stream_id session_id =>
    update_wt (fun w => set_wc_stream_sessions (<[stream_id := session_id]> (wc_stream_sessions w)) w);;
    _ ← call_handler session_id (EvWebTransport wt); mret ()
  | other => with_wt (fun w =>
    let session_id := default (default 0 (head (iter (wc_sessions w)))) (resolve_session (wt_event_stream_id other) w) in
    driving (consume_event session_id other);;
    _ ← call_handler session_id (EvWebTransport other); mret ())
  end.

Definition serve_wt (e : Event) : serving unit :=
  match e with
  | EvHeader stream_id n v =>
    update_wt (fun w => set_wc_request_headers
      (<[stream_id := default [] (wc_request_headers w !! stream_id) ++ [(n, v)]]> (wc_request_headers w)) w)
  | EvHeadersEnd stream_id => finish_headers stream_id
  | EvWebTransport wt => serve_wt_event wt
  | _ => mret ()
  end.

Fixpoint send_capsules (sessions : list Z) : drive unit :=
  match sessions with
  | [] => mret ()
  | session_id :: sessions =>
    inspect (fun d => if negb (wt_session_flow_control_enabled session_id (h_conn (h3 d))) then mret ()
      else take_and_write_capsules session_id);;
    send_capsules sessions
  end.

(** [open_bidi_stream_inner], on the first of the sessions. *)
Definition server_open_bidi_stream : serving Z := with_wt (fun w =>
  match head (iter (wc_sessions w)) with
  | None => driving (fail not_established)
  | Some session_id =>
    stream_id ← driving open_bidi_stream;
    driving (h3_register_local_wt_stream session_id stream_id);;
    update_wt (fun w => set_wc_stream_sessions (<[stream_id := session_id]> (wc_stream_sessions w)) w);;
    driving (write_stream_header session_id stream_id);;
    mret stream_id
  end).

Definition drive_connection (fuel : nat) : serving unit :=
  driving (pump_wait fuel);;
  driving log_stream_errors;;
  serve_events serve_wt fuel;;
  with_wt (fun w => driving (send_capsules (iter (wc_sessions w))));;
  driving (pump fuel);;
  driving log_stream_errors.
End wt_serving.

(** ** Streams and consumption, at either end *)
Section streams_safe.
Context {Q E : Type} `{!Transport Q E, !TransportLaws}.
Context (r : Role) (settings : Settings) (Hset : settings_ok settings).
Notation Driver := (Driver Q E).
Notation driver_ok := (driver_ok (Q := Q) (E := E) r settings).
(** What does not touch the events that have been collected. *)
Definition calm (d d' : Driver) : Prop := h_events (h3 d') = h_events (h3 d).
(** What a call of the connection leaves. *)
Lemma on_h3_frame {A} (m : action A) (d d' : Driver) res : on_h3 m d = Some (d', res) ->
  h_events (h3 d') = h_events (h3 d) /\ h_stream_errors (h3 d') = h_stream_errors (h3 d).
Proof using. unfold on_h3. destruct (m _) as [[c x]|]; [|done]. by intros [= <- _]. Qed.

Lemma open_bidi_safe d : driver_ok d -> drives r settings (open_bidi_stream (Q := Q) (E := E)) d (fun _ _ => True).
Proof using.
  intros Hd. unfold open_bidi_stream. eapply drives_bind; [|intros a d' Hd' _; by apply drives_ret|done].
  apply quic_call_safe; [done|]. apply law_open_bidi.
Qed.
Lemma quic_write_safe id data fin d : driver_ok d -> drives r settings (write_wt_stream (Q := Q) (E := E) id data fin) d (fun _ _ => True).
Proof using. intros Hd. apply quic_call_safe; [done|]. apply law_write. Qed.
Lemma write_stream_header_safe sid id d : 0 <= sid -> driver_ok d ->
  drives r settings (write_stream_header (Q := Q) (E := E) sid id) d (fun _ _ => True).
Proof using.
  intros Hs Hd. unfold write_stream_header. destruct (stream_header_new sid) as [header|e] eqn:Eh; [|by eexists d, _].
  apply stream_header_new_spec in Eh as [-> Hv]; [|done]. unfold encode_bidirectional. rewrite encode_stream_header_spec by (by right || done).
  by apply quic_write_safe.
Qed.
Lemma consume_safe sid wt d : driver_ok d -> exists d', consume_event sid wt d = Some (d', Ok ()) /\ driver_ok d' /\ advances d d' /\ calm d d'.
Proof using Hset.
  intros Hd. assert (forall n, exists d', h3_wt_data_consumed sid n d = Some (d', Ok ()) /\ driver_ok d' /\ advances d d' /\ calm d d') as Hc.
  { intros n. destruct (drives_conn r settings Hset (modify (wt_data_consumed sid n)) (fun _ => OutUnit) (OpWtDataConsumed sid n) d)
      as (d' & res & E1 & Hd' & Ha & _); [done..|]. exists d'. injection E1 as <- <-. by split_and!. }
  unfold consume_event. destruct wt; first [apply Hc|by exists d].
Qed.

End streams_safe.

(** ** The turn of a server's connection *)
Section turning.
Context {Q E : Type} `{!Transport Q E, !TransportLaws} {S : Type}.
Context (r : Role) (settings : Settings) (Hset : settings_ok settings).
Notation Driver := (Driver Q E).
Notation driver_ok := (driver_ok (Q := Q) (E := E) r settings).

(** The events [served] were taken from the front, new ones were added. *)
Definition flows (d d' : Driver) (served : list Event) : Prop := exists new, served ++ all_events d' = all_events d ++ new.
Lemma flows_trans d d1 d2 a b : flows d d1 a -> flows d1 d2 b -> flows d d2 (a ++ b).
Proof. intros [l1 E1] [l2 E2]. exists (l1 ++ l2). by rewrite <- app_assoc, E2, app_assoc, E1, app_assoc. Qed.
Lemma flows_advances d d' : advances d d' -> flows d d' [].
Proof. intros [[l El] _]. by exists l. Qed.



(** What is done for an event: the state [S] changes as [next] says, whatever the
    connection answers. *)
Context (step : Event -> serving (Q := Q) (E := E) (S := S) unit) (next : S -> Event -> S).
Definition serves_event : Prop := forall e s d, driver_ok d ->
  exists d' res, step e s d = Some (next s e, d', res) /\ driver_ok d' /\ advances d d' /\ calm d d' /\ kind_error false res.
Context (Hstep : serves_event).

(** The loop over the events that are queued. *)
Lemma serve_events_safe k : forall s d, driver_ok d -> length (h_events (h3 d)) = k ->
  exists s' d' res served, (forall fuel, (k < fuel)%nat -> serve_events step fuel s d = Some (s', d', res)) /\
    driver_ok d' /\ flows d d' served /\ s' = fold_left next served s /\ kind_error false res.
Proof using Hstep.
  induction k as [|k IH]; intros s d Hd Hk.
  - apply nil_length_inv in Hk. exists s, d, (Ok ()), []. split; [|split; [done|split; [|done]]].
    + intros [|fuel] Hf; [lia|]. cbn [serve_events]. unfold mbind, serving_bind, driving, h3_poll_event. by rewrite Hk.
    + exists []. by rewrite app_nil_r.
  - destruct (h_events (h3 d)) as [|e l] eqn:El; [done|]. injection Hk as Hk.
    set (d1 := with_h3 (mkH3State (h_conn (h3 d)) l (h_stream_errors (h3 d))) d).
    assert (driver_ok d1) as Hd1 by (by destruct Hd).
    assert (flows d d1 [e]) as Hfl by (exists []; unfold all_events; cbn; by rewrite El, app_nil_r).
    destruct (Hstep e s d1 Hd1) as (d2 & res2 & E2 & Hd2 & Ha2 & Hc2 & Hk2).
    assert (forall fuel, serve_events step (Datatypes.S fuel) s d =
      match res2 with Ok _ => serve_events step fuel (next s e) d2 | Err e' => Some (next s e, d2, Err e') end) as Hturn.
    { intros fuel. cbn [serve_events]. unfold mbind at 1, serving_bind at 1, driving at 1, h3_poll_event at 1. rewrite El. fold d1.
      unfold mbind, serving_bind. rewrite E2. by destruct res2. }
    destruct res2 as [[]|e2].
    + destruct (IH (next s e) d2 Hd2) as (s3 & d3 & res3 & served & E3 & Hd3 & Hf3 & Hs3 & Hk3); [by rewrite Hc2|].
      exists s3, d3, res3, (e :: served). split; [|split; [done|split; [|split; [done|done]]]].
      * intros [|fuel] Hf; [lia|]. rewrite Hturn. apply E3. lia.
      * apply (flows_trans _ d1 _ [e]); [done|]. apply (flows_trans _ d2 _ []); [by apply flows_advances|done].
    + exists (next s e), d2, (Err e2), [e]. split; [|split; [done|split; [|done]]].
      * intros [|fuel] Hf; [lia|]. by rewrite Hturn.
      * rewrite <- (app_nil_r [e]). apply (flows_trans _ d1 _ [e] []); [done|by apply flows_advances].
Qed.

(** A turn; [extra] is what is done after the events, which comes to nothing. *)
Context (extra : serving (Q := Q) (E := E) (S := S) unit) (Hextra : forall s d, driver_ok d -> extra s d = Some (s, d, Ok ())).
Definition turn (fuel : nat) : serving unit :=
  driving (pump_wait fuel);; driving log_stream_errors;; serve_events step fuel;; extra;; driving (pump fuel);; driving log_stream_errors.
Definition turned (served : list Event) (d d' : Driver) (res : result (NgError E) unit) : Prop :=
  flows d d' served /\
  match res with Ok _ => h_stream_errors (h3 d') = [] /\ pending_quic (quic d') = [] | Err e => is_stream_error e = false end.
Lemma log_safe d : driver_ok d -> exists d', log_stream_errors d = Some (d', Ok ()) /\ driver_ok d' /\ flows d d' [] /\
  h_stream_errors (h3 d') = [] /\ pending_quic (quic d') = pending_quic (quic d).
Proof using. intros [Hr Hn Hp]. eexists. split; [done|]. split; [by split|]. split; [exists []; by rewrite app_nil_r|done]. Qed.
Lemma turn_serves s d : driver_ok d -> exists n s' d' res served,
  (forall fuel, (n <= fuel)%nat -> turn fuel s d = Some (s', d', res)) /\ driver_ok d' /\
  s' = fold_left next served s /\ turned served d d' res.
Proof using Hset Hstep Hextra.
  intros Hd. destruct (pump_wait_settles r settings Hset d Hd) as (n1 & d1 & res1 & E1 & Hd1 & Ha1 & Hk1 & _).
  destruct res1 as [[]|e1].
  2: { exists n1, s, d1, (Err e1), []. split; [|split; [done|split; [done|split; [by apply flows_advances|done]]]].
       intros fuel Hf. unfold turn. unfold mbind at 1, serving_bind at 1, driving at 1. by rewrite E1. }
  destruct (log_safe d1 Hd1) as (d2 & E2 & Hd2 & Hf2 & _ & _).
  destruct (serve_events_safe _ s d2 Hd2 eq_refl) as (s3 & d3 & res3 & served & E3 & Hd3 & Hf3 & Hs3 & Hk3).
  set (k := length (h_events (h3 d2))) in *.
  assert (flows d d3 served) as Hflow.
  { apply (flows_trans _ d1 _ []); [by apply flows_advances|]. by apply (flows_trans _ d2 _ []). }
  destruct res3 as [[]|e3].
  2: { exists (n1 + Datatypes.S k)%nat, s3, d3, (Err e3), served. split; [|by split_and!].
       intros fuel Hf. unfold turn, mbind, serving_bind, driving. rewrite E1 by lia. rewrite E2. by rewrite E3 by lia. }
  destruct (pump_settles r settings Hset d3 Hd3) as (n4 & d4 & res4 & E4 & Hd4 & Ha4 & _ & Hk4 & Hp4).
  assert (flows d d4 served) as Hflow4.
  { rewrite <- (app_nil_r served). apply (flows_trans _ d3 _ served []); [done|by apply flows_advances]. }
  destruct res4 as [[]|e4].
  2: { exists (n1 + Datatypes.S k + n4)%nat, s3, d4, (Err e4), served. split; [|by split_and!].
       intros fuel Hf. unfold turn, mbind, serving_bind, driving. rewrite E1 by lia. rewrite E2, E3, Hextra by (lia || done).
       by rewrite E4 by lia. }
  destruct (log_safe d4 Hd4) as (d5 & E5 & Hd5 & Hf5 & Her5 & Hp5).
  exists (n1 + Datatypes.S k + n4)%nat, s3, d5, (Ok ()), served. split; [|split; [done|split; [done|split; [|]]]].
  - intros fuel Hf. unfold turn, mbind, serving_bind, driving. rewrite E1 by lia. rewrite E2, E3, Hextra by (lia || done).
    rewrite E4 by lia. by rewrite E5.
  - rewrite <- (app_nil_r served). by apply (flows_trans _ d4 _ served []).
  - split; [done|]. rewrite Hp5. by apply Hp4.
Qed.
End turning.

(** ** What a server's handler is given *)
Section answering.
Context {Q E : Type} `{!Transport Q E, !TransportLaws} {S : Type}.
Context (r : Role) (settings : Settings) (Hset : settings_ok settings).
Context (handler : S -> Event -> S * option (list Header * bytes)).

(** Header sections and bodies that fit into a frame. *)
Definition answers_ok : Prop := forall s e headers body,
  snd (handler s e) = Some (headers, body) -> section_fits headers /\ len body <= VARINT_MAX.
Context (Hanswers : answers_ok).

Notation Driver := (Driver Q E).
Notation driver_ok := (driver_ok (Q := Q) (E := E) r settings).

(** What the handler's state is after it has been given [served]. *)
Definition handled (served : list Event) (s : S) : S := fold_left (fun s e => fst (handler s e)) served s.

Lemma send_response_safe' id headers fin d : driver_ok d -> section_fits headers ->
  drives r settings (h3_send_response id headers fin) d (fun d' _ => calm d d').
Proof.
  intros Hd Hf. unfold h3_send_response, drives. destruct (role (h_conn (h3 d))).
  - by exists d, (Err (NgInvalidState (str "send_response is server only"))).
  - destruct (drives_conn r settings Hset (send_response id headers fin) (fun _ => OutUnit) (OpSendResponse id headers fin) d)
      as (d' & res & E1 & Hd' & Ha & _); try done.
    exists d', res. split; [done|]. split; [done|]. split; [done|]. by apply (on_h3_frame _ _ _ _ E1).
Qed.
Lemma send_body_safe' id body fin d : driver_ok d -> len body <= VARINT_MAX ->
  drives r settings (h3_send_body id body fin) d (fun d' _ => calm d d').
Proof.
  intros Hd Hl. destruct (drives_conn r settings Hset (conn_send_body id body fin) (fun _ => OutUnit) (OpSendBody id body fin) d)
    as (d' & res & E1 & Hd' & Ha & _); try done.
  exists d', res. split; [done|]. split; [done|]. split; [done|]. by apply (on_h3_frame _ _ _ _ E1).
Qed.

Lemma answer_safe id headers body d : driver_ok d -> section_fits headers -> len body <= VARINT_MAX ->
  drives r settings (tolerating (send_answer id headers body)) d (fun d' res => calm d d' /\ kind_error false res).
Proof.
  intros Hd Hf Hl. assert (drives r settings (send_answer id headers body) d (fun d' _ => calm d d')) as (d' & res & E1 & Hd' & Ha & Hc).
  { eapply drives_bind; [by apply send_response_safe'| |done]. intros [] d1 Hd1 Hc1.
    eapply drives_mono; [by apply send_body_safe'|]. intros d2 res Hc2. unfold calm in *. congruence. }
  unfold drives, tolerating. rewrite E1. destruct res as [[]|e]; [by exists d', (Ok ())|].
  destruct (is_stream_error e) eqn:Ee; by eexists _, _.
Qed.

Lemma serve_event_safe : serves_event r settings (serve_event (Q := Q) (E := E) handler) (fun s e => fst (handler s e)).
Proof using Hset Hanswers.
  intros e s d Hd. pose proof (Hanswers s e) as Han. unfold serve_event. destruct (handler s e) as [s2 answer]. cbn [fst snd] in *.
  destruct answer as [[headers body]|]; [|by eexists _, _]. destruct (event_stream_id e) as [id|]; [|by eexists _, _].
  destruct (Han headers body eq_refl) as [Hf Hl]. destruct (answer_safe id headers body d Hd Hf Hl) as (d2 & res & E2 & ? & ? & ? & ?).
  unfold driving. rewrite E2. by exists d2, res.
Qed.
(** A turn of a connection hands the events queued first to the handler, once each and in
    order, and keeps the others. *)
Lemma server_serves (s : S) (d : Driver) : driver_ok d ->
  exists n s' d' res served, (forall fuel, (n <= fuel)%nat -> pump_connection handler fuel s d = Some (s', d', res)) /\
    driver_ok d' /\ s' = handled served s /\ turned served d d' res.
Proof using Hset Hanswers.
  intros Hd. assert (forall fuel, pump_connection handler fuel s d = turn (serve_event handler) (mret ()) fuel s d) as Et by done.
  destruct (turn_serves r settings Hset _ _ serve_event_safe (mret ()) (fun _ _ _ => eq_refl) s d Hd) as (n & s' & d' & res & served & E1 & Hres).
  exists n, s', d', res, served. split; [|exact Hres]. intros fuel Hf. rewrite Et. by apply E1.
Qed.
End answering.

(** ** What a WebTransport server's handler is given *)
Section wt_answering.
Context {Q E : Type} `{!Transport Q E, !TransportLaws} {App : Type}.
Context (settings : Settings) (Hset : settings_ok settings) (Hno : some_and (wt_settings settings) declares_flow_control = false).
Context (iter : gset Z -> list Z) (handler : App -> Z -> Event -> App * bool).
Notation Driver := (Driver Q E).
Notation driver_ok := (driver_ok (Q := Q) (E := E) Server settings).

(** What is noted of an event, and what the handler is given: a valid CONNECT request to
    accept, and every event of a session with the session it belongs to. *)
Definition note_event (e : Event) (w : WtConnectionState) : WtConnectionState :=
  match e with
  | EvHeader id n v => set_wc_request_headers (<[id := default [] (wc_request_headers w !! id) ++ [(n, v)]]> (wc_request_headers w)) w
  | EvHeadersEnd id => set_wc_request_headers (delete id (wc_request_headers w)) w
  | EvWebTransport (WtSessionEstablished id _) => set_wc_sessions (wc_sessions w ∪ {[id]}) w
  | EvWebTransport (WtBidiStreamOpen id sid) | EvWebTransport (WtUniStreamOpen id sid) =>
    set_wc_stream_sessions (<[id := sid]> (wc_stream_sessions w)) w
  | _ => w
  end.
Definition session_of (wt : WebTransportEvent) (w : WtConnectionState) : Z :=
  match wt with
  | WtSessionEstablished sid _ | WtBidiStreamOpen _ sid | WtUniStreamOpen _ sid => sid
  | other => default (default 0 (head (iter (wc_sessions w)))) (resolve_session iter (wt_event_stream_id other) w)
  end.
Definition wt_given (e : Event) (w : WtConnectionState) : option (Z * Event) :=
  match e with
  | EvHeadersEnd id =>
    let headers := default [] (wc_request_headers w !! id) in
    if is_wt_connect headers && is_ok (from_headers headers) then Some (id, EvHeadersEnd id) else None
  | EvWebTransport wt => Some (session_of wt w, e)
  | _ => None
  end.
Definition wt_next (s : WtConnectionState * App) (e : Event) : WtConnectionState * App :=
  (note_event e (fst s), match wt_given e (fst s) with Some (sid, e) => fst (handler (snd s) sid e) | None => snd s end).

Lemma accept_connect_safe id d : driver_ok d -> drives Server settings (accept_connect id) d (fun d' res => calm d d' /\ kind_error false res).
Proof using Hset.
  intros Hd. unfold accept_connect. destruct (response_to_headers (connect_response_new 200)) as [response|e] eqn:Er; [|vm_compute in Er; discriminate].
  assert (section_fits response) as Hf.
  { vm_compute in Er. injection Er as <-. apply (bool_decide_unpack _). vm_compute. exact I. }
  unfold drives, tolerating. destruct (send_response_safe' Server settings Hset id response false d Hd Hf) as (d' & res & E1 & Hd' & Ha & Hc).
  rewrite E1. destruct res as [[]|e]; [by exists d', (Ok ())|]. destruct (is_stream_error e) eqn:Ee; by eexists _, _.
Qed.
Lemma serve_wt_safe : serves_event Server settings (serve_wt (Q := Q) (E := E) iter handler) wt_next.
Proof using Hset.
  intros e [w h] d Hd. unfold wt_next. cbn [fst snd].
  assert (forall s' : WtConnectionState * App, exists d' (res : result (NgError E) unit), Some (s', d, Ok ()) = Some (s', d', res) /\ driver_ok d' /\ advances d d' /\ calm d d' /\ kind_error false res) as Hdone.
  { intros s'. by exists d, (Ok ()). }
  destruct e as [| | |id| | | | | |wt]; try apply Hdone.
  - cbn [serve_wt wt_given]. unfold finish_headers, with_wt, update_wt, update. unfold mbind, serving_bind, mret, serving_ret. cbn [fst snd].
    destruct (is_wt_connect _ && is_ok _); [|apply Hdone]. unfold call_handler. cbn [snd fst]. destruct (handler h id (EvHeadersEnd id)) as [h' accepted]. cbn [fst].
    destruct accepted; [|apply Hdone]. unfold driving. destruct (accept_connect_safe id d Hd) as (d' & res & E1 & ? & ? & ? & ?). rewrite E1. by exists d', res.
  - cbn [serve_wt wt_given].
    destruct wt eqn:Ewt; cbn [serve_wt_event session_of note_event];
      unfold update_wt, update, with_wt, call_handler, driving, mbind, serving_bind, mret, serving_ret; cbn [fst snd];
      try (match goal with |- context [consume_event ?sid ?w ?d] => destruct (consume_safe Server settings Hset sid w d Hd) as (d' & -> & Hd' & Ha & Hc) end;
        cbn [fst snd]; destruct (handler _ _ _) as [h' b]; by exists d', (Ok ()));
      destruct (handler _ _ _) as [h' b]; apply Hdone.
Qed.

(** No session has flow control, so there are no capsules to send. *)
Lemma send_capsules_none sessions d : driver_ok d -> send_capsules sessions d = Some (d, Ok ()).
Proof using Hno.
  intros Hd. induction sessions as [|sid sessions IH]; [done|]. cbn [send_capsules]. unfold inspect, mbind, drive_bind.
  assert (wt_session_flow_control_enabled sid (h_conn (h3 d)) = false) as -> by by apply (reachable_unmetered Server settings _ (dr_conn _ _ _ Hd)).
  cbn [negb]. unfold mret, drive_ret. apply IH.
Qed.
(** A turn of a connection: no panic, and every event is handled once and in order. *)
Lemma wt_server_serves (s : WtConnectionState * App) d : driver_ok d ->
  exists n s' d' res served, (forall fuel, (n <= fuel)%nat -> drive_connection iter handler fuel s d = Some (s', d', res)) /\
    driver_ok d' /\ s' = fold_left wt_next served s /\ turned served d d' res.
Proof using Hset Hno.
  apply (turn_serves Server settings Hset _ _ serve_wt_safe (with_wt (fun w => driving (send_capsules (iter (wc_sessions w)))))).
  intros [w h] d0 Hd0. unfold with_wt, driving. by rewrite send_capsules_none.
Qed.
End wt_answering.

(** ** Examples: a server that answers each request, and counts them *)
Definition answering_handler (n : nat) (e : Event) : nat * option (list Header * bytes) :=
  match e with EvHeadersEnd _ => (S n, Some (ok_headers, str "hi")) | _ => (n, None) end.
Definition serving_driver (l : list QuicEvent) (c : Connection) : Driver TestQuic unit :=
  mkDriver (mkH3State c [] []) (mkTestQuic l [] [] 3).
Definition arriving_request : QuicEvent := QStreamData 0 (frame_bytes (Headers (static_section true get_headers))) false.

Lemma answering_handler_ok : answers_ok answering_handler.
Proof.
  intros n e headers body. destruct e; cbn; try discriminate. intros [= <- <-]. split; apply (bool_decide_unpack _); vm_compute; exact I.
Qed.

(** A request that is cancelled before it is answered: [StreamNotFound] is no stream error,
    and the whole connection is given up. *)
Example cancelled_request_ends_connection :
  exists c d', state_after Server settings_new idle_server = Some c /\
    pump_connection answering_handler 20 0%nat (serving_driver [arriving_request; QStreamReset 0 100 0x10c] c) =
      Some (1%nat, d', Err (NgHttp3 (StreamNotFound 0))).
Proof.
  destruct (state_after Server settings_new idle_server) as [c|] eqn:E; [|vm_compute in E; discriminate].
  vm_compute in E. injection E as <-. eexists _, _. split; [reflexivity|]. vm_compute. reflexivity.
Qed.
