(* ===== verification/NgClient.v ===== *)
(** crates/tokio-ngtcp2/src/client.rs and webtransport.rs: the client from its connection
    on, and its WebTransport session with the [session_id] it keeps. What an application
    can call is one type, [client_call], so that one theorem speaks of every call. *)

From Stdlib Require Import String Ascii.
From S2P Require Import Prelude Codec Varint Header EncoderStream DecoderStream Settings Error Stream FrameStream QpackEncoder QpackDecoder ControlStream RequestStream Frame Validation Event Datagram Connect Display WtStream WtSession Connection ConnInvariant ConnNegotiation ConnWtSession ConnWtStream ConnReceive ConnSafety ConnSend ConnSendSafety ConnRun ConnEvents ConnOutgoing ConnExchange ConnEndToEnd NgDriver NgEndpoint.

Section client.
Context {Q E : Type} `{!Transport Q E}.
Notation drive := (NgDriver.drive (Q := Q) (E := E)).

(** [connect_with_settings], once QUIC has given a connection or an error; the client of a
    WebTransport session is connected with [client_settings]. *)
Definition connect_with_settings (fuel : nat) (h3_settings : Settings) (connected : result E Q) : option (result (NgError E) (Driver Q E)) :=
  match connected with
  | Err e => Some (Err (NgQuic e))
  | Ok q =>
    h ← h3_state_new Client h3_settings;
    '(d, r) ← (h3_init_h3_streams;; pump fuel) (mkDriver h q);
    Some (match r with Ok _ => Ok d | Err e => Err e end)
  end.
(** [ClientWebTransportSession::handshake]. *)
Definition session_handshake (rounds fuel : nat) : drive unit := client_handshake rounds fuel;; h3_set_transport_verified.

(** Calls with the [session_id] beside the driver. *)
Notation serving := (NgEndpoint.serving (Q := Q) (E := E) (S := option Z)).
Definition with_session {A} (f : option Z -> drive A) : serving A := fun s d => driving (f s) s d.

(** [open_session]. *)
Definition session_outcome (e : Event) : option (result (NgError E) Z) :=
  match e with
  | EvWebTransport (WtSessionEstablished session_id _) => Some (Ok session_id)
  | EvWebTransport (WtSessionClosed _ _ _ close_error_code close_message) => Some (Err (NgWebTransportClosed close_error_code close_message))
  | _ => None
  end.
(** [while let Some(event) = self.client.poll()], until there is an outcome. *)
Fixpoint poll_outcome (fuel : nat) : drive (option Z) :=
  match fuel with
  | O => fun _ => None
  | S fuel =>
    e ← h3_poll_event;
    match e with
    | None => mret None
    | Some e =>
      match session_outcome e with
      | Some (Ok session_id) => mret (Some session_id)
      | Some (Err error) => fail error
      | None => poll_outcome fuel
      end
    end
  end.
Fixpoint await_session (rounds fuel : nat) : serving Z :=
  driving (client_flush fuel);;
  driving (client_recv fuel);;
  outcome ← driving (poll_outcome fuel);
  match outcome with
  | Some session_id =>
    update (fun _ => Some session_id);;
    with_session (fun session => deliver_capsules session fuel);;
    mret session_id
  | None =>
    match rounds with
    | O => driving (fail NgTimeout)
    | S rounds => await_session rounds fuel
    end
  end.
Definition open_session (authority path : bytes) (rounds fuel : nat) : serving Z := fun s d =>
  match negotiated_wt_draft_version (h_conn (h3 d)) with
  | None => driving (fail (NgInvalidState (str "no WebTransport draft version is negotiated"))) s d
  | Some draft =>
    match connect_to_headers (draft_version draft (connect_request_new (str "https") authority path)) with
    | Err e => driving (fail (NgInvalidArgument (str "invalid CONNECT headers: " ++ display_header_error e))) s d
    | Ok headers => (driving (client_send_request_streaming headers);; await_session rounds fuel) s d
    end
  end.

(** Everything an application can call, with what comes back. *)
Inductive client_call :=
| CallSendRequest (headers : list Header)
| CallSendRequestWithBody (headers : list Header) (body : bytes)
| CallPoll
| CallFlush
| CallRecv
| CallHandshake (rounds : nat)
| CallSessionHandshake (rounds : nat)
| CallOpenSession (authority path : bytes) (rounds : nat)
| CallOpenBidiStream
| CallSendStreamData (stream_id : Z) (data : bytes) (fin : bool) (rounds : nat)
| CallSendDatagram (data : bytes)
| CallSessionPoll
| CallSessionRecv.
Inductive client_answer := AnsUnit | AnsId (id : Z) | AnsFlag (sent : bool) | AnsEvent (e : option Event).

Definition answering {A} (f : A -> client_answer) (m : serving A) : serving client_answer := a ← m; mret (f a).
Definition run_call (call : client_call) (fuel : nat) : serving client_answer :=
  match call with
  | CallSendRequest headers => answering AnsId (driving (client_send_request headers))
  | CallSendRequestWithBody headers body => answering AnsId (driving (client_send_request_with_body headers body))
  | CallPoll => answering AnsEvent (driving h3_poll_event)
  | CallFlush => answering (fun _ => AnsUnit) (driving (client_flush fuel))
  | CallRecv => answering (fun _ => AnsUnit) (driving (client_recv fuel))
  | CallHandshake rounds => answering (fun _ => AnsUnit) (driving (client_handshake rounds fuel))
  | CallSessionHandshake rounds => answering (fun _ => AnsUnit) (driving (session_handshake rounds fuel))
  | CallOpenSession authority path rounds => answering AnsId (open_session authority path rounds fuel)
  | CallOpenBidiStream => answering AnsId (with_session wt_open_bidi_stream)
  | CallSendStreamData stream_id data fin rounds =>
    answering (fun _ => AnsUnit) (with_session (fun session => wt_send_stream_data session stream_id data fin rounds fuel))
  | CallSendDatagram data => answering AnsFlag (with_session (fun session => wt_send_datagram session data fuel))
  | CallSessionPoll => answering AnsEvent (with_session wt_poll)
  | CallSessionRecv => answering (fun _ => AnsUnit) (with_session (fun session => wt_recv session fuel))
  end.
End client.

(** ** No call panics or loses an event *)
Section safety.
Context {Q E : Type} `{!Transport Q E, !TransportLaws}.
Context (settings : Settings) (Hset : settings_ok settings) (Hno : some_and (wt_settings settings) declares_flow_control = false).
Notation Driver := (Driver Q E).
Notation driver_ok := (driver_ok (Q := Q) (E := E) Client settings).
Notation serving := (NgEndpoint.serving (Q := Q) (E := E) (S := option Z)).

(** [m] comes to an end, the same for all fuel from some point on; [taken] are the events
    that were taken from the front of the queue. *)
Definition runs {A} (m : nat -> serving A) (s : option Z) (d : Driver) (P : option Z -> Driver -> result (NgError E) A -> list Event -> Prop) : Prop :=
  exists n s' d' r taken, (forall fuel, (n <= fuel)%nat -> m fuel s d = Some (s', d', r)) /\ driver_ok d' /\ flows d d' taken /\ P s' d' r taken.
Lemma call_bind {A B} (m : nat -> serving A) (f : A -> nat -> serving B) s d P R : runs m s d P ->
  (forall a s' d' taken, driver_ok d' -> P s' d' (Ok a) taken -> runs (f a) s' d' (fun s2 d2 r more => R s2 d2 r (taken ++ more))) ->
  (forall e s' d' taken, P s' d' (Err e) taken -> R s' d' (Err e) taken) ->
  runs (fun fuel => m fuel ≫= fun a => f a fuel) s d R.
Proof.
  intros (n1 & s1 & d1 & r & taken & E1 & Hd1 & Hf1 & HP) Hf He. destruct r as [a|e].
  - destruct (Hf a s1 d1 taken Hd1 HP) as (n2 & s2 & d2 & r & more & E2 & Hd2 & Hf2 & HR). exists (n1 + n2)%nat, s2, d2, r, (taken ++ more).
    split; [|split; [done|split; [by eapply flows_trans|done]]]. intros fuel Hn. unfold mbind, serving_bind. rewrite E1 by lia. apply E2. lia.
  - exists n1, s1, d1, (Err e), taken. split; [|split; [done|split; [done|by apply He]]]. intros fuel Hn. unfold mbind, serving_bind. by rewrite E1.
Qed.
Lemma call_mono {A} (m : nat -> serving A) s d (P R : option Z -> Driver -> result (NgError E) A -> list Event -> Prop) : runs m s d P ->
  (forall s' d' r taken, P s' d' r taken -> R s' d' r taken) -> runs m s d R.
Proof. intros (n & s' & d' & r & taken & ? & ? & ? & ?) HR. exists n, s', d', r, taken. auto. Qed.
Lemma call_ret {A} (a : A) s d (P : option Z -> Driver -> result (NgError E) A -> list Event -> Prop) : driver_ok d -> P s d (Ok a) [] ->
  runs (fun _ => mret a) s d P.
Proof. intros Hd HP. exists O, s, d, (Ok a), []. split; [done|split; [done|split; [by exists []; rewrite app_nil_r|done]]]. Qed.
Lemma call_fail {A} e s d (P : option Z -> Driver -> result (NgError E) A -> list Event -> Prop) : driver_ok d -> P s d (Err e) [] ->
  runs (fun _ => driving (fail e)) s d P.
Proof. intros Hd HP. exists O, s, d, (Err e), []. split; [done|split; [done|split; [by exists []; rewrite app_nil_r|done]]]. Qed.

(** Nothing was taken, and the session is the one it was. *)
Definition keeping {A} (s : option Z) (s' : option Z) (_ : Driver) (_ : result (NgError E) A) (taken : list Event) : Prop := s' = s /\ taken = [].
Notation calmly m := (forall s d, driver_ok d -> runs m s d (keeping s)).
Lemma calmly_bind {A B} (m : nat -> serving A) (f : A -> nat -> serving B) : calmly m -> (forall a, calmly (f a)) ->
  calmly (fun fuel => m fuel ≫= fun a => f a fuel).
Proof.
  intros Hm Hf s d Hd. eapply call_bind; [by apply Hm| |by intros e s' d' taken []].
  intros a s' d' taken Hd' [-> ->]. eapply call_mono; [by apply Hf|]. by intros s2 d2 r more [-> ->].
Qed.
Lemma calmly_settles {A} (m : nat -> drive (Q := Q) (E := E) A) : (forall d, driver_ok d -> exists P, settles Client settings m d P) -> calmly (fun fuel => driving (m fuel)).
Proof.
  intros Hm s d Hd. destruct (Hm d Hd) as (P & n & d' & r & E1 & Hd' & Ha & _). exists n, s, d', r, [].
  split; [|split; [done|split; [by apply flows_advances|done]]]. intros fuel Hf. unfold driving. by rewrite E1.
Qed.
Lemma calmly_drives {A} (m : drive (Q := Q) (E := E) A) : (forall d, driver_ok d -> drives Client settings m d (fun _ _ => True)) -> calmly (fun _ => driving m).
Proof. intros Hm. apply (calmly_settles (fun _ => m)). intros d Hd. exists (fun _ _ => True). by apply settles_const, Hm. Qed.
Lemma calmly_ret {A} (a : A) : calmly (fun _ => mret a).
Proof. intros s d Hd. by apply call_ret. Qed.
Lemma calmly_fail {A} e : calmly (fun _ => driving (fail (A := A) e)).
Proof. intros s d Hd. by apply call_fail. Qed.
Lemma call_eq {A} (m m' : nat -> serving A) s d P : (forall fuel, m' fuel s d = m fuel s d) -> runs m s d P -> runs m' s d P.
Proof. intros He (n & s' & d' & r & taken & E1 & Hx). exists n, s', d', r, taken. split; [|done]. intros fuel Hf. rewrite He. by apply E1. Qed.
Lemma calmly_eq {A} (m m' : nat -> serving A) : (forall fuel s d, m' fuel s d = m fuel s d) -> calmly m -> calmly m'.
Proof. intros He Hm s d Hd. eapply call_eq; [intros fuel; apply He|by apply Hm]. Qed.
(** A call that depends on the driver it is made on. *)
Lemma call_inspect {A} (f : Driver -> nat -> drive (Q := Q) (E := E) A) s d P : runs (fun fuel => driving (f d fuel)) s d P ->
  runs (fun fuel => driving (inspect (fun d => f d fuel))) s d P.
Proof. by apply call_eq. Qed.
Lemma driving_bind {A B} (m : drive (Q := Q) (E := E) A) (f : A -> drive B) (s : option Z) d :
  driving (m ≫= f) s d = (driving m ≫= fun a => driving (f a)) s d.
Proof. unfold driving, mbind, serving_bind, drive_bind. by destruct (m d) as [[d1 [a|e]]|]. Qed.

Lemma stream_error_calm : calmly (fun _ => driving pending_stream_error).
Proof.
  intros s d Hd. destruct Hd as [Hr He Hp]. unfold pending_stream_error. destruct (h_stream_errors (h3 d)) as [|e l] eqn:Ee.
  - exists O, s, d, (Ok ()), []. split; [|split; [by split; rewrite ?Ee|split; [by exists []; rewrite app_nil_r|done]]].
    intros fuel _. unfold driving, mbind, drive_bind, h3_take_stream_error. by rewrite Ee.
  - set (d1 := with_h3 (mkH3State (h_conn (h3 d)) (h_events (h3 d)) l) d). exists O, s, d1, (Err e), [].
    split; [|split; [split; try done; by inversion He|split; [by exists []; rewrite app_nil_r|done]]].
    intros fuel _. unfold driving, mbind, drive_bind, h3_take_stream_error. by rewrite Ee.
Qed.
Lemma client_flush_calm : calmly (fun fuel => driving (client_flush fuel)).
Proof.
  eapply calmly_eq; [intros fuel s d; apply driving_bind|]. apply (calmly_bind (fun fuel => driving (pump fuel)) (fun _ _ => driving pending_stream_error)).
  - apply calmly_settles. intros d Hd. eexists. by apply pump_settles.
  - intros _. apply stream_error_calm.
Qed.
Lemma client_recv_calm : calmly (fun fuel => driving (client_recv fuel)).
Proof.
  eapply calmly_eq; [intros fuel s d; apply driving_bind|]. apply (calmly_bind (fun fuel => driving (pump_wait fuel)) (fun _ _ => driving pending_stream_error)).
  - apply calmly_settles. intros d Hd. eexists. by apply pump_wait_settles.
  - intros _. apply stream_error_calm.
Qed.
Lemma calmly_drive_bind {A B} (m : nat -> drive (Q := Q) (E := E) A) (f : A -> nat -> drive (Q := Q) (E := E) B) : calmly (fun fuel => driving (m fuel)) ->
  (forall a, calmly (fun fuel => driving (f a fuel))) -> calmly (fun fuel => driving (m fuel ≫= fun a => f a fuel)).
Proof.
  intros Hm Hf. eapply calmly_eq; [intros fuel s d; apply driving_bind|]. by apply (calmly_bind (fun fuel => driving (m fuel)) (fun a fuel => driving (f a fuel))).
Qed.
Lemma call_drives {A} (m : drive (Q := Q) (E := E) A) s d : drives Client settings m d (fun _ _ => True) -> runs (fun _ => driving m) s d (keeping s).
Proof.
  intros (d' & r & E1 & Hd' & Ha & _). exists O, s, d', r, []. split; [|split; [done|split; [by apply flows_advances|done]]].
  intros fuel _. unfold driving. by rewrite E1.
Qed.

(** *** Requests *)
Definition request_fits (headers : list Header) (d : Driver) : Prop := section_fits headers /\ next_stream_id (h_conn (h3 d)) <= VARINT_MAX.
Lemma send_request_drives headers fin d : driver_ok d -> request_fits headers d ->
  drives Client settings (h3_send_request (Q := Q) (E := E) headers fin) d (fun _ _ => True).
Proof.
  intros Hd [Hf Hn]. unfold h3_send_request, drives. rewrite (reachable_role Client settings _ Hset (dr_conn _ _ _ Hd)).
  eapply (drives_mono _ _ (on_h3 (send_request headers fin))); [by apply (drives_conn Client settings Hset _ OutStream (OpSendRequest headers fin))|done].
Qed.
Lemma open_for_drives id d : driver_ok d -> drives Client settings (open_bidi_stream_for (Q := Q) (E := E) id) d (fun _ _ => True).
Proof.
  intros Hd. unfold open_bidi_stream_for. eapply drives_bind; [by apply open_bidi_safe| |done]. intros opened d1 Hd1 _.
  destruct (negb _); [by eexists d1, _|by apply drives_ret].
Qed.
Lemma client_send_drives headers fin d : driver_ok d -> request_fits headers d ->
  drives Client settings (stream_id ← h3_send_request headers fin; open_bidi_stream_for stream_id;; mret stream_id) d (fun _ _ => True).
Proof.
  intros Hd Hf. eapply drives_bind; [by apply send_request_drives| |done]. intros id d1 Hd1 _.
  eapply drives_bind; [by apply open_for_drives| |done]. intros [] d2 Hd2 _. by apply drives_ret.
Qed.
Lemma client_send_body_drives headers body d : driver_ok d -> request_fits headers d -> len body <= VARINT_MAX ->
  drives Client settings (client_send_request_with_body (Q := Q) (E := E) headers body) d (fun _ _ => True).
Proof.
  intros Hd Hf Hl. eapply drives_bind; [by apply send_request_drives| |done]. intros id d1 Hd1 _.
  eapply drives_bind; [by apply open_for_drives| |done]. intros [] d2 Hd2 _.
  eapply drives_bind; [eapply drives_mono; [by apply (drives_conn Client settings Hset _ (fun _ => OutUnit) (OpSendBody id body true))|done]| |done].
  intros [] d3 Hd3 _. by apply drives_ret.
Qed.

(** *** Waiting for the peer *)
Lemma handshake_calm rounds : calmly (fun fuel => driving (client_handshake (Q := Q) (E := E) rounds fuel)).
Proof.
  induction rounds as [|rounds IH]; intros s d Hd; cbn [client_handshake].
  - apply (call_inspect (fun d _ => match peer_settings (h_conn (h3 d)) with Some _ => mret () | None => fail NgTimeout end)).
    destruct (peer_settings _); [by apply call_ret|by apply call_fail].
  - apply (call_inspect (fun d fuel => match peer_settings (h_conn (h3 d)) with
      | Some _ => mret () | None => pump_wait fuel;; pending_stream_error;; client_handshake rounds fuel end)).
    destruct (peer_settings _); [by apply call_ret|].
    apply (calmly_drive_bind pump_wait (fun _ fuel => pending_stream_error;; client_handshake rounds fuel)); [| |done].
    + apply calmly_settles. intros d0 Hd0. eexists. by apply pump_wait_settles.
    + intros _. apply (calmly_drive_bind (fun _ => pending_stream_error) (fun _ => client_handshake rounds)); [apply stream_error_calm|by intros _].
Qed.
Lemma session_handshake_calm rounds : calmly (fun fuel => driving (session_handshake (Q := Q) (E := E) rounds fuel)).
Proof.
  apply (calmly_drive_bind (client_handshake rounds) (fun _ _ => h3_set_transport_verified)); [apply handshake_calm|]. intros _.
  apply calmly_drives. intros d Hd. eapply drives_mono; [by apply (drives_conn Client settings Hset _ (fun _ => OutUnit) (OpSetTransportVerified true true))|done].
Qed.

(** *** The session *)
(** No session has flow control, so there are no capsules to deliver. *)
Lemma deliver_calm session : calmly (fun fuel => driving (deliver_capsules (Q := Q) (E := E) session fuel)).
Proof using Hno.
  intros s d Hd. exists O, s, d, (Ok ()), []. split; [|split; [done|split; [by exists []; rewrite app_nil_r|done]]]. intros fuel _.
  unfold driving, deliver_capsules, inspect. destruct session as [sid|]; [|done].
  by rewrite (proj2 (reachable_unmetered Client settings _ (dr_conn _ _ _ Hd)) Hno sid).
Qed.
Lemma session_recv_calm session : calmly (fun fuel => driving (wt_recv (Q := Q) (E := E) session fuel)).
Proof. apply (calmly_drive_bind client_recv (fun _ fuel => deliver_capsules session fuel)); [apply client_recv_calm|intros _; apply deliver_calm]. Qed.
Lemma send_loop_calm session rounds : calmly (fun fuel => driving (wt_send_stream_data_loop (Q := Q) (E := E) session rounds fuel)).
Proof.
  induction rounds as [|rounds IH].
  - apply (calmly_drive_bind client_flush (fun _ fuel => inspect (fun d => if negb (q_has_pending_data (quic d)) then deliver_capsules session fuel else fail NgTimeout)));
      [apply client_flush_calm|]. intros _ s d Hd.
    apply (call_inspect (fun d fuel => if negb (q_has_pending_data (quic d)) then deliver_capsules session fuel else fail NgTimeout)).
    destruct (negb _); [by apply deliver_calm|by apply call_fail].
  - apply (calmly_drive_bind client_flush (fun _ fuel => inspect (fun d => if negb (q_has_pending_data (quic d)) then deliver_capsules session fuel
      else client_recv fuel;; wt_send_stream_data_loop session rounds fuel))); [apply client_flush_calm|].
    intros _ s d Hd. apply (call_inspect (fun d fuel => if negb (q_has_pending_data (quic d)) then deliver_capsules session fuel
      else client_recv fuel;; wt_send_stream_data_loop session rounds fuel)). destruct (negb _); [by apply deliver_calm|].
    by apply (calmly_drive_bind client_recv (fun _ => wt_send_stream_data_loop session rounds)); [apply client_recv_calm|intros _|].
Qed.
Lemma send_data_calm session id data fin rounds : calmly (fun fuel => driving (wt_send_stream_data (Q := Q) (E := E) session id data fin rounds fuel)).
Proof.
  apply (calmly_drive_bind (fun _ => write_wt_stream id data fin) (fun _ => wt_send_stream_data_loop session rounds)); [|intros _; apply send_loop_calm].
  apply calmly_drives. intros d Hd. by apply quic_write_safe.
Qed.
Lemma datagram_calm session data : calmly (fun fuel => driving (wt_send_datagram (Q := Q) (E := E) session data fuel)).
Proof.
  destruct session as [sid|]; [|apply calmly_ret]. intros s d Hd. unfold wt_send_datagram, client_send_wt_datagram.
  apply (call_inspect (fun d fuel => if negb (q_can_send_datagram (quic d)) then mret false else h3_send_wt_datagram sid data;; client_flush fuel;; mret true)).
  destruct (negb _); [by apply call_ret|].
  apply (calmly_drive_bind (fun _ => h3_send_wt_datagram sid data) (fun _ fuel => client_flush fuel;; mret true)); [| |done].
  - apply calmly_drives. intros d0 Hd0. unfold h3_send_wt_datagram, drives. destruct (q_can_send_datagram _); [|by eexists d0, _].
    apply (drives_bind Client settings _ _ _ (fun _ _ => True)); [|intros encoded d1 Hd1 _; apply quic_call_safe; [done|apply law_datagram]|done].
    eapply drives_mono; [by apply (drives_conn Client settings Hset _ OutBytes (OpSendDatagram sid data))|done].
  - intros _. apply (calmly_drive_bind client_flush (fun _ _ => mret true)); [apply client_flush_calm|intros _; apply calmly_ret].
Qed.
Lemma open_stream_drives session d : driver_ok d -> (forall sid, session = Some sid -> 0 <= sid) ->
  drives Client settings (wt_open_bidi_stream (Q := Q) (E := E) session) d (fun _ _ => True).
Proof.
  intros Hd Hs. destruct session as [sid|]; [|by eexists d, _]. unfold wt_open_bidi_stream.
  eapply drives_bind; [by apply open_bidi_safe| |done]. intros id d1 Hd1 _.
  eapply drives_bind; [eapply drives_mono; [by apply (drives_conn Client settings Hset _ (fun _ => OutUnit) (OpRegisterLocalWtStream sid id))|done]| |done].
  intros [] d2 Hd2 _. eapply drives_bind; [apply write_stream_header_safe; [by apply Hs|done]| |done]. intros [] d3 Hd3 _. by apply drives_ret.
Qed.

(** *** Polling *)
Definition polled_event (s s' : option Z) (_ : Driver) (r : result (NgError E) (option Event)) (taken : list Event) : Prop :=
  s' = s /\ match r with Ok o => taken = option_list o | Err _ => False end.
Lemma poll_runs s d : driver_ok d -> runs (fun _ => driving h3_poll_event) s d (polled_event s).
Proof.
  intros [Hr He Hp]. destruct (h_events (h3 d)) as [|e l] eqn:Ee.
  - exists O, s, d, (Ok None), []. split; [|split; [done|split; [by exists []; rewrite app_nil_r|done]]].
    intros fuel _. unfold driving, h3_poll_event. by rewrite Ee.
  - exists O, s, (with_h3 (mkH3State (h_conn (h3 d)) l (h_stream_errors (h3 d))) d), (Ok (Some e)), [e].
    split; [|split; [by split|split; [|done]]]; [intros fuel _; unfold driving, h3_poll_event; by rewrite Ee|].
    exists []. unfold all_events. cbn. by rewrite Ee, app_nil_r.
Qed.
Lemma session_poll_runs session s d : driver_ok d -> runs (fun _ => driving (wt_poll (Q := Q) (E := E) session)) s d (polled_event s).
Proof.
  intros Hd. destruct (poll_runs s d Hd) as (n & s1 & d1 & r & taken & E1 & Hd1 & Hf1 & -> & Hr). specialize (E1 n (le_n n)).
  destruct r as [o|]; [|done]. unfold driving in E1. destruct (h3_poll_event d) as [[d2 r2]|] eqn:Ep; [|done]. injection E1 as -> ->.
  assert (exists d3, (match o, session with Some (EvWebTransport wt), Some session_id => consume_event session_id wt | _, _ => mret () end) d1 =
    Some (d3, Ok ()) /\ driver_ok d3 /\ advances d1 d3) as (d3 & E3 & Hd3 & Ha3).
  { destruct o as [[]|]; try by exists d1. destruct session as [sid|]; [|by exists d1].
    destruct (consume_safe Client settings Hset sid e d1 Hd1) as (d3 & E3 & ? & ? & _). by exists d3. }
  exists O, s, d3, (Ok o), taken. split; [|split; [done|split; [|done]]].
  - intros fuel _. unfold driving, wt_poll, mbind, drive_bind. rewrite Ep. by rewrite E3.
  - rewrite <- (app_nil_r taken). by eapply flows_trans; [|apply flows_advances].
Qed.

(** *** Opening a session *)
Definition no_outcome (e : Event) : Prop := session_outcome (E := E) e = None.
(** The events taken decide: they end with the one that says what became of the session. *)
Definition decided (s s' : option Z) (r : result (NgError E) Z) (taken : list Event) : Prop :=
  match r with
  | Ok sid => s' = Some sid /\ exists pre metered, taken = pre ++ [EvWebTransport (WtSessionEstablished sid metered)] /\ Forall no_outcome pre
  | Err e => s' = s /\ (Forall no_outcome taken \/ exists pre x, taken = pre ++ [x] /\ Forall no_outcome pre /\ session_outcome x = Some (Err e))
  end.
Definition looked (s s' : option Z) (_ : Driver) (r : result (NgError E) (option Z)) (taken : list Event) : Prop :=
  s' = s /\ match r with
  | Ok None => Forall no_outcome taken
  | Ok (Some sid) => exists pre metered, taken = pre ++ [EvWebTransport (WtSessionEstablished sid metered)] /\ Forall no_outcome pre
  | Err e => exists pre x, taken = pre ++ [x] /\ Forall no_outcome pre /\ session_outcome x = Some (Err e)
  end.
Lemma looked_further s s' d e r taken : no_outcome e -> looked s s' d r taken -> looked s s' d r ([e] ++ taken).
Proof.
  intros He [Hs Hr]. split; [done|]. destruct r as [[sid|]|x].
  - destruct Hr as (pre & metered & -> & Hp). exists (e :: pre), metered. split; [done|by constructor].
  - by constructor.
  - destruct Hr as (pre & y & -> & Hp & Hy). exists (e :: pre), y. split; [done|]. split; [by constructor|done].
Qed.
Lemma poll_outcome_runs k : forall s d, driver_ok d -> length (h_events (h3 d)) = k ->
  runs (fun fuel => driving (poll_outcome (Q := Q) (E := E) fuel)) s d (looked s).
Proof.
  induction k as [|k IH]; intros s d Hd Hk.
  - apply nil_length_inv in Hk. exists 1%nat, s, d, (Ok None), []. split; [|split; [done|split; [by exists []; rewrite app_nil_r|done]]].
    intros [|fuel] Hf; [lia|]. unfold driving, mbind, drive_bind. cbn [poll_outcome]. unfold mbind, drive_bind, h3_poll_event. by rewrite Hk.
  - destruct (h_events (h3 d)) as [|e l] eqn:El; [done|]. injection Hk as Hk.
    set (d1 := with_h3 (mkH3State (h_conn (h3 d)) l (h_stream_errors (h3 d))) d).
    assert (driver_ok d1) as Hd1 by (by destruct Hd).
    assert (flows d d1 [e]) as Hf1 by (exists []; unfold all_events; cbn; by rewrite El, app_nil_r).
    assert (forall fuel, driving (poll_outcome (S fuel)) s d = match session_outcome e with
      | Some (Ok sid) => Some (s, d1, Ok (Some sid)) | Some (Err error) => Some (s, d1, Err error) | None => driving (poll_outcome fuel) s d1 end) as Hturn.
    { intros fuel. unfold driving. cbn [poll_outcome]. unfold mbind, drive_bind, h3_poll_event. rewrite El. fold d1. by destruct (session_outcome e) as [[]|]. }
    destruct (session_outcome e) as [[sid|error]|] eqn:Eo.
    + exists 1%nat, s, d1, (Ok (Some sid)), [e]. split; [|split; [done|split; [done|split; [done|]]]].
      * intros [|fuel] Hf; [lia|]. apply Hturn.
      * destruct e as [| | | | | | | | |[]]; try done. injection Eo as ->. by exists [], flow_control_enabled.
    + exists 1%nat, s, d1, (Err error), [e]. split; [|split; [done|split; [done|split; [done|by exists [], e]]]].
      intros [|fuel] Hf; [lia|]. apply Hturn.
    + destruct (IH s d1 Hd1 Hk) as (n & s' & d' & r & taken & E1 & Hd' & Hf' & Hl).
      exists (S n), s', d', r, ([e] ++ taken). split; [|split; [done|split; [by eapply flows_trans|by apply looked_further]]].
      intros [|fuel] Hf; [lia|]. rewrite Hturn. apply E1. lia.
Qed.
Lemma decided_later s s' r pre taken : Forall no_outcome pre -> decided s s' r taken -> decided s s' r (pre ++ taken).
Proof.
  intros Hp. destruct r as [sid|e]; cbn [decided].
  - intros (Hs & l & metered & -> & Hl). split; [done|]. exists (pre ++ l), metered. rewrite app_assoc. split; [done|]. by apply Forall_app.
  - intros (Hs & [Hl|(l & x & -> & Hl & Hx)]); (split; [done|]); [left; by apply Forall_app|right].
    exists (pre ++ l), x. rewrite app_assoc. split; [done|]. split; [by apply Forall_app|done].
Qed.
Lemma await_session_runs rounds : forall s d, driver_ok d -> runs (await_session (Q := Q) (E := E) rounds) s d (fun s' _ => decided s s').
Proof using Hset Hno.
  assert (forall next : nat -> serving Z, (forall s d, driver_ok d -> runs next s d (fun s' _ => decided s s')) -> forall s d, driver_ok d ->
    runs (fun fuel => driving (client_flush fuel);; driving (client_recv fuel);; outcome ← driving (poll_outcome fuel);
      match outcome with
      | Some session_id => update (fun _ => Some session_id);; with_session (fun session => deliver_capsules session fuel);; mret session_id
      | None => next fuel
      end) s d (fun s' _ => decided s s')) as Hturn.
  { intros next Hnext s d Hd. eapply (call_bind (fun fuel => driving (client_flush fuel))); [by apply client_flush_calm| |intros e s' d' taken [-> ->]; split; [done|by left]].
    intros [] s1 d1 t1 Hd1 [-> ->]. eapply (call_bind (fun fuel => driving (client_recv fuel))); [by apply client_recv_calm| |intros e s' d' taken [-> ->]; split; [done|by left]].
    intros [] s2 d2 t2 Hd2 [-> ->]. cbn [app]. eapply (call_bind (fun fuel => driving (poll_outcome fuel))); [by apply (poll_outcome_runs _ s d2 Hd2 eq_refl)| |].
    - intros [sid|] s3 d3 t3 Hd3 [-> Hl].
      + destruct (deliver_calm (Some sid) (Some sid) d3 Hd3) as (n & s4 & d4 & r & t4 & E4 & Hd4 & Hf4 & -> & ->).
        assert (r = Ok () /\ d4 = d3) as [-> ->].
        { specialize (E4 n (le_n n)). unfold driving, deliver_capsules, inspect in E4.
          rewrite (proj2 (reachable_unmetered Client settings _ (dr_conn _ _ _ Hd3)) Hno sid) in E4. by injection E4 as <- <-. }
        exists n, (Some sid), d3, (Ok sid), []. split; [|split; [done|split; [done|]]]; [|rewrite app_nil_r; by split].
        intros fuel Hf. specialize (E4 fuel Hf). unfold update, with_session, mbind, serving_bind. by rewrite E4.
      + eapply call_mono; [by apply Hnext|]. intros s4 d4 r t4 Hdec. by apply decided_later.
    - intros e s3 d3 t3 [-> Hl]. split; [done|by right]. }
  induction rounds as [|rounds IH].
  - apply (Hturn (fun _ => driving (fail NgTimeout))). intros s d Hd. apply call_fail; [done|]. split; [done|by left].
  - apply (Hturn (await_session rounds)). exact IH.
Qed.
(** The request for a session fits into a frame, whatever the version. *)
Definition session_request_fits (authority path : bytes) (d : Driver) : Prop := next_stream_id (h_conn (h3 d)) <= VARINT_MAX /\
  forall draft headers, connect_to_headers (draft_version draft (connect_request_new (str "https") authority path)) = Ok headers -> section_fits headers.
Lemma open_session_runs authority path rounds s d : driver_ok d -> session_request_fits authority path d ->
  runs (open_session (Q := Q) (E := E) authority path rounds) s d (fun s' _ => decided s s').
Proof using Hset Hno.
  intros Hd [Hn Hfit]. destruct (negotiated_wt_draft_version (h_conn (h3 d))) as [draft|] eqn:Ev.
  - destruct (connect_to_headers (draft_version draft (connect_request_new (str "https") authority path))) as [headers|e] eqn:Eh.
    + eapply (call_eq (fun fuel => driving (client_send_request_streaming headers);; await_session rounds fuel));
        [intros fuel; unfold open_session; by rewrite Ev, Eh|].
      eapply (call_bind (fun _ => driving (client_send_request_streaming headers)));
        [apply call_drives, client_send_drives; [done|split; [by eapply Hfit|done]]| |intros e s' d' taken [-> ->]; split; [done|by left]].
      intros id s1 d1 t1 Hd1 [-> ->]. by apply await_session_runs.
    + eapply (call_eq (fun _ => driving (fail (NgInvalidArgument (str "invalid CONNECT headers: " ++ display_header_error e)))));
        [intros fuel; unfold open_session; by rewrite Ev, Eh|]. apply call_fail; [done|]. split; [done|by left].
  - eapply (call_eq (fun _ => driving (fail (NgInvalidState (str "no WebTransport draft version is negotiated")))));
      [intros fuel; unfold open_session; by rewrite Ev|]. apply call_fail; [done|]. split; [done|by left].
Qed.

(** *** Every call *)
(** Header sections and bodies that fit into a frame, and a [session_id] that is a [u64]. *)
Definition call_ok (call : client_call) (s : option Z) (d : Driver) : Prop :=
  match call with
  | CallSendRequest headers => request_fits headers d
  | CallSendRequestWithBody headers body => request_fits headers d /\ len body <= VARINT_MAX
  | CallOpenSession authority path _ => session_request_fits authority path d
  | CallOpenBidiStream => forall sid, s = Some sid -> 0 <= sid
  | _ => True
  end.
(** What a call took from the queue: what it returned, or what decided about the session. *)
Definition call_done (call : client_call) (s s' : option Z) (r : result (NgError E) client_answer) (taken : list Event) : Prop :=
  match call with
  | CallPoll | CallSessionPoll => s' = s /\ exists o, r = Ok (AnsEvent o) /\ taken = option_list o
  | CallOpenSession _ _ _ => exists r', r = AnsId <$> r' /\ decided s s' r' taken
  | _ => s' = s /\ taken = []
  end.
Lemma answering_runs {A} (f : A -> client_answer) (m : nat -> serving A) s d P R : runs m s d P ->
  (forall s' d' r taken, P s' d' r taken -> R s' d' (f <$> r) taken) -> runs (fun fuel => answering f (m fuel)) s d R.
Proof.
  intros (n & s' & d' & r & taken & E1 & Hd' & Hf & HP) HR. exists n, s', d', (f <$> r), taken. split; [|split; [done|split; [done|by apply HR]]].
  intros fuel Hn. unfold answering, mbind, serving_bind. rewrite E1 by done. by destruct r.
Qed.
Lemma answering_calm {A} (f : A -> client_answer) (m : nat -> serving A) s d : runs m s d (keeping s) ->
  runs (fun fuel => answering f (m fuel)) s d (fun s' _ _ taken => s' = s /\ taken = []).
Proof. intros Hm. by eapply answering_runs. Qed.
Lemma answering_poll m s d : runs (fun _ => driving m) s d (polled_event s) ->
  runs (fun _ => answering AnsEvent (driving m)) s d (fun s' _ r taken => s' = s /\ exists o, r = Ok (AnsEvent o) /\ taken = option_list o).
Proof.
  intros Hm. eapply (answering_runs AnsEvent (fun _ => driving m)); [exact Hm|]. intros s' d' [o|e] taken [-> Hr]; [|done].
  split; [done|]. by exists o.
Qed.
Lemma call_runs call s d : driver_ok d -> call_ok call s d -> runs (run_call call) s d (fun s' _ r taken => call_done call s s' r taken).
Proof using Hset Hno.
  intros Hd Hok. destruct call; cbn [call_ok call_done] in *.
  - apply (answering_calm _ (fun _ => driving (client_send_request headers))), call_drives, client_send_drives; done.
  - apply (answering_calm _ (fun _ => driving (client_send_request_with_body headers body))), call_drives, client_send_body_drives; tauto.
  - by apply answering_poll, poll_runs.
  - by apply (answering_calm _ (fun fuel => driving (client_flush fuel))), client_flush_calm.
  - by apply (answering_calm _ (fun fuel => driving (client_recv fuel))), client_recv_calm.
  - by apply (answering_calm _ (fun fuel => driving (client_handshake rounds fuel))), handshake_calm.
  - by apply (answering_calm _ (fun fuel => driving (session_handshake rounds fuel))), session_handshake_calm.
  - eapply (answering_runs AnsId (open_session authority path rounds)); [by apply open_session_runs|]. intros s' d' r taken Hdec. by exists r.
  - by apply (answering_calm _ (fun _ => with_session wt_open_bidi_stream)), call_drives, open_stream_drives.
  - by apply (answering_calm _ (fun fuel => driving (wt_send_stream_data s stream_id data fin rounds fuel))), send_data_calm.
  - by apply (answering_calm _ (fun fuel => driving (wt_send_datagram s data fuel))), datagram_calm.
  - by apply answering_poll, session_poll_runs.
  - by apply (answering_calm _ (fun fuel => driving (wt_recv s fuel))), session_recv_calm.
Qed.
Lemma connect_safe (connected : result E Q) : match connected with Ok q => Forall quic_event_ok (pending_quic q) | Err _ => True end ->
  exists n r, (forall fuel, (n <= fuel)%nat -> connect_with_settings fuel settings connected = Some r) /\
    match r with Ok d => driver_ok d | Err _ => True end.
Proof using Hset.
  intros Hq. unfold connect_with_settings. destruct connected as [q|e]; [|by exists O, (Err (NgQuic e))].
  unfold h3_state_new. destruct (conn_new_wf Client settings Hset) as (c & Ec & _). rewrite Ec. cbn [mbind option_bind].
  set (d := mkDriver (mkH3State c [] []) q). assert (driver_ok d) as Hd by (split; [by apply reach_new|constructor|done]).
  assert (settles Client settings (fun fuel => h3_init_h3_streams (Q := Q) (E := E);; pump fuel) d (fun _ _ => True)) as (n & d' & r & E1 & Hd' & _).
  { apply (settles_bind Client settings (fun _ => h3_init_h3_streams) (fun _ => pump) _ (fun _ _ => True));
      [by apply settles_const, (init_streams_safe Client settings Hset)| |done].
    intros [] d1 Hd1 _. eapply settles_mono; [by apply (pump_settles Client settings Hset)|done]. }
  exists n, (match r with Ok _ => Ok d' | Err e => Err e end). split; [|by destruct r]. intros fuel Hf. by rewrite E1.
Qed.
End safety.

(** ** Properties *)

(** C8. A client never panics: connecting gives a client or an error, and every call that
    an application can then make comes to an end, whatever QUIC reports and however long
    it waits, in a state in which the next call can be made. No event is lost: those
    queued come first and new ones are added behind; only polling takes one, the one it
    returns, and opening a session takes those up to the one that says what became of it,
    which is the session whose id it returns and keeps. *)
Theorem client_calls_safe {Q E} `{!Transport Q E, !TransportLaws} settings :
  settings_ok settings -> some_and (wt_settings settings) declares_flow_control = false ->
  (forall connected : result E Q, match connected with Ok q => Forall quic_event_ok (pending_quic q) | Err _ => True end ->
    exists n r, (forall fuel, (n <= fuel)%nat -> connect_with_settings fuel settings connected = Some r) /\
      match r with Ok d => driver_ok Client settings d | Err _ => True end) /\
  forall call s (d : Driver Q E), driver_ok Client settings d -> call_ok call s d ->
    exists n s' d' r taken, (forall fuel, (n <= fuel)%nat -> run_call call fuel s d = Some (s', d', r)) /\
      driver_ok Client settings d' /\ flows d d' taken /\ call_done call s s' r taken.
Proof. intros Hset Hno. split; [by apply connect_safe|intros call s d Hd Hok; by apply (call_runs settings Hset Hno)]. Qed.

(** ** Witnesses: a session that the server accepts *)
Definition verified_client : list conn_op := [OpInitH3Streams 2 6 10; OpSetTransportVerified true true; OpFeedStream 3 peer_offer false].
Definition accepted_driver (c : Connection) : Driver TestQuic unit :=
  mkDriver (mkH3State c [] []) (mkTestQuic [] [QStreamData 0 [0x01; 0x03; 0x00; 0x00; 0xd9] false] [] 14).
Definition opening : client_call := CallOpenSession (str "example.com") (str "/") 3.

Lemma client_calls_safe_witness :
  exists c n s' d' r taken, state_after Client client_settings verified_client = Some c /\
    (forall fuel, (n <= fuel)%nat -> run_call opening fuel None (accepted_driver c) = Some (s', d', r)) /\
    driver_ok Client client_settings d' /\ flows (accepted_driver c) d' taken /\ call_done opening None s' r taken.
Proof.
  destruct (state_after Client client_settings verified_client) as [c|] eqn:Ec; [|vm_compute in Ec; discriminate].
  assert (reachable Client client_settings c) as Hr.
  { apply (state_after_reachable _ _ verified_client); [vm_compute; reflexivity|exact Ec]. }
  assert (next_stream_id c = 0) as Hn by (vm_compute in Ec; injection Ec as <-; reflexivity).
  destruct (client_calls_safe (Q := TestQuic) (E := unit) client_settings) as [_ Hcalls].
  - apply (bool_decide_unpack _). vm_compute. exact I.
  - reflexivity.
  - destruct (Hcalls opening None (accepted_driver c)) as (n & s' & d' & r & taken & Erun & Hd' & Hf & Hdone).
    + split; [exact Hr|constructor|constructor].
    + split; [cbn; rewrite Hn; discriminate|]. intros draft headers Hh.
      assert (match connect_to_headers (draft_version draft (connect_request_new (str "https") (str "example.com") (str "/"))) with
        | Ok hs => bool_decide (section_fits hs) | Err _ => true end = true) as Hfit by (destruct draft; vm_compute; reflexivity).
      rewrite Hh in Hfit. by apply bool_decide_eq_true in Hfit.
    + exists c, n, s', d', r, taken. split; [reflexivity|]. split; [exact Erun|]. split; [exact Hd'|]. split; [exact Hf|exact Hdone].
Defined.

(** The session is there, and the events before it are gone. *)
Example session_opens :
  exists c d', state_after Client client_settings verified_client = Some c /\
    run_call opening 20 None (accepted_driver c) = Some (Some 0, d', Ok (AnsId 0)).
Proof.
  destruct (state_after Client client_settings verified_client) as [c|] eqn:Ec; [|vm_compute in Ec; discriminate].
  vm_compute in Ec. injection Ec as <-. eexists _, _. split; [reflexivity|]. vm_compute. reflexivity.
Qed.
