(* ===== verification/NgServer.v ===== *)
(** crates/tokio-ngtcp2/src/server.rs: the server, which drives all its connections in turn
    and takes in new ones. A connection that fails is given up and the others go on.

    The type of connection ids and what QUIC's server answers to [accept] belong to the
    library shiguredo_ngtcp2_tokio, and are parameters; [accept] with its deadline is a
    value: [None] when the time is over. The order in which a [HashMap] is walked is a
    parameter as well. *)

From Stdlib Require Import String Ascii.
From S2P Require Import Prelude Codec Varint Header EncoderStream DecoderStream Settings Error Stream FrameStream QpackEncoder QpackDecoder ControlStream RequestStream Frame Validation Event WtSession Connection ConnInvariant ConnNegotiation ConnWtSession ConnWtStream ConnReceive ConnSafety ConnSend ConnSendSafety ConnRun ConnEvents ConnOutgoing ConnExchange ConnEndToEnd NgDriver NgEndpoint.

(** [for conn_id in failed { map.remove(&conn_id); }]. *)
Definition remove_failed {Id V} `{Countable Id} (failed : list Id) (m : gmap Id V) : gmap Id V :=
  fold_left (fun m id => delete id m) failed m.

Section server.
Context {Q E S Addr Id : Type} `{!Transport Q E, Countable Id}.

(** [ConnectionState]; its [conn_id] is its key in the map. *)
Record Served := mkServed { sv_driver : Driver Q E; sv_addr : Addr }.
Notation connections := (gmap Id Served).

(** One connection after the other, in the order given; the ids of those that failed. *)
Section driving.
Context (drive_one : Id -> Addr -> S -> Driver Q E -> option (S * Driver Q E * result (NgError E) unit)).
Fixpoint drive_each (ids : list Id) (s : S) (cs : connections) : option (S * connections * list Id) :=
  match ids with
  | [] => Some (s, cs, [])
  | id :: ids =>
    match cs !! id with
    | None => drive_each ids s cs
    | Some c =>
      '(s, d, r) ← drive_one id (sv_addr c) s (sv_driver c);
      '(s, cs, failed) ← drive_each ids s (<[id := mkServed d (sv_addr c)]> cs);
      Some (s, cs, if is_ok r then failed else id :: failed)
    end
  end.
End driving.

Context (order : connections -> list Id) (settings : Settings) (handler : Addr -> S -> Event -> S * option (list Header * bytes)).
Definition drive_connections (fuel : nat) (s : S) (cs : connections) : option (S * connections) :=
  '(s, cs, failed) ← drive_each (fun _ addr => pump_connection (handler addr) fuel) (order cs) s cs;
  Some (s, remove_failed failed cs).

(** [add_connection], for a connection that QUIC has accepted. *)
Definition add_connection (fuel : nat) (id : Id) (addr : Addr) (q : Q) (cs : connections) : option (connections * result (NgError E) unit) :=
  h ← h3_state_new Server settings;
  '(d, r) ← server_add_connection fuel (mkDriver h q);
  Some (match r with Ok _ => (<[id := mkServed d addr]> cs, Ok ()) | Err e => (cs, Err e) end).
Definition accept_connections (fuel : nat) (answer : option (result E (option (Id * Addr * Q)))) (cs : connections)
    : option (connections * result (NgError E) unit) :=
  match answer with
  | Some (Ok (Some (id, addr, q))) => add_connection fuel id addr q cs
  | Some (Ok None) | None => Some (cs, Ok ())
  | Some (Err e) => Some (cs, Err (NgQuic e))
  end.

(** One round of [run_inner], and as many as there are answers. *)
Definition run_round (fuel : nat) (answer : option (result E (option (Id * Addr * Q)))) (s : S) (cs : connections)
    : option (S * connections * result (NgError E) unit) :=
  '(s, cs) ← drive_connections fuel s cs;
  '(cs, r) ← accept_connections fuel answer cs;
  Some (s, cs, r).
Fixpoint run_inner (fuel : nat) (answers : list (option (result E (option (Id * Addr * Q))))) (s : S) (cs : connections)
    : option (S * connections * result (NgError E) unit) :=
  match answers with
  | [] => Some (s, cs, Ok ())
  | answer :: answers =>
    '(s, cs, r) ← run_round fuel answer s cs;
    match r with Ok _ => run_inner fuel answers s cs | Err e => Some (s, cs, Err e) end
  end.
End server.
Arguments Served : clear implicits.
Arguments mkServed {Q E Addr} _ _.

(** ** No connection can harm the others *)
Section turns.
Context {Q E S Addr Id : Type} `{!Transport Q E, !TransportLaws, Countable Id}.
Context (settings : Settings).
Notation connections := (gmap Id (Served Q E Addr)).

Definition served_ok (c : Served Q E Addr) : Prop := driver_ok Server settings (sv_driver c).
Definition server_ok (cs : connections) : Prop := map_Forall (fun _ => served_ok) cs.

(** The turn of a connection, and what it makes of the state for the events it had. *)
Context (drive_one : nat -> Id -> Addr -> S -> Driver Q E -> option (S * Driver Q E * result (NgError E) unit)).
Context (told : Id -> Addr -> list Event -> S -> S).
Definition turns_serve : Prop := forall id addr s d, driver_ok Server settings d -> exists n s' d' r served,
  (forall fuel, (n <= fuel)%nat -> drive_one fuel id addr s d = Some (s', d', r)) /\ driver_ok Server settings d' /\
  s' = told id addr served s /\ turned served d d' r.
Context (Hturn : turns_serve).

(** [given]: the events each connection had for the application. *)
Definition all_told (cs : connections) (given : Id -> list Event) (ids : list Id) (s : S) : S :=
  fold_left (fun s id => match cs !! id with Some c => told id (sv_addr c) (given id) s | None => s end) ids s.
Lemma all_told_ext cs cs' given given' ids : (forall id, id ∈ ids -> cs !! id = cs' !! id /\ given id = given' id) ->
  forall s, all_told cs given ids s = all_told cs' given' ids s.
Proof using.
  induction ids as [|id ids IH]; intros Hx s; [done|]. cbn [all_told fold_left]. destruct (Hx id) as [-> ->]; [left|].
  apply IH. intros x Hin. apply Hx. by right.
Qed.

Lemma drive_each_serves ids : forall s cs, NoDup ids -> server_ok cs ->
  exists n s' cs' failed given,
    (forall fuel, (n <= fuel)%nat -> drive_each (drive_one fuel) ids s cs = Some (s', cs', failed)) /\
    server_ok cs' /\ s' = all_told cs given ids s /\
    (forall id, id ∉ ids \/ cs !! id = None -> cs' !! id = cs !! id /\ id ∉ failed) /\
    (forall id c, id ∈ ids -> cs !! id = Some c -> exists d r, turned (given id) (sv_driver c) d r /\
      cs' !! id = Some (mkServed d (sv_addr c)) /\ (id ∈ failed <-> is_ok r = false)).
Proof using Hturn.
  induction ids as [|id ids IH]; intros s cs Hnd Hok.
  { exists O, s, cs, [], (fun _ => []). split_and!; try done; [intros id _; split; [done|apply not_elem_of_nil]|].
    intros id c Hin. by apply elem_of_nil in Hin. }
  apply NoDup_cons in Hnd as [Hid Hnd]. destruct (cs !! id) as [c|] eqn:Ec.
  - destruct (Hturn id (sv_addr c) s (sv_driver c)) as (n1 & s1 & d1 & r1 & served & E1 & Hd1 & Hs1 & Hr1); [by apply (Hok id)|].
    destruct (IH s1 (<[id := mkServed d1 (sv_addr c)]> cs) Hnd) as (n2 & s2 & cs2 & failed & given & E2 & Hok2 & Hs2 & Hout & Hin); [by apply map_Forall_insert_2|].
    assert (forall x, x ∈ ids -> x <> id) as Hne by (intros x Hx ->; done).
    destruct (Hout id) as [Hc2 Hnf]; [by left|]. rewrite lookup_insert_eq in Hc2.
    exists (n1 + n2)%nat, s2, cs2, (if is_ok r1 then failed else id :: failed), (fun x => if decide (x = id) then served else given x).
    split_and!; [|done| | |].
    + intros fuel Hf. cbn [drive_each]. rewrite Ec, E1 by lia. cbn [mbind option_bind]. rewrite E2 by lia. by destruct r1.
    + cbn [all_told fold_left]. rewrite Ec, decide_True by done. rewrite <- Hs1, Hs2. apply all_told_ext.
      intros x Hx. specialize (Hne x Hx). by rewrite lookup_insert_ne, decide_False by congruence.
    + intros x Hx. assert (x <> id) as Hxid by (intros ->; destruct Hx as [Hx|Hx]; [apply Hx; left|congruence]).
      destruct (Hout x) as [-> Hn]; [rewrite lookup_insert_ne by congruence; destruct Hx as [Hx|Hx]; [left|by right]; intros Hy; apply Hx; by right|].
      rewrite lookup_insert_ne by congruence. split; [done|]. destruct (is_ok r1); [done|]. intros [->|Hy]%elem_of_cons; done.
    + intros x cx Hx Hcx. destruct (decide (x = id)) as [->|Hxid].
      * assert (cx = c) as -> by congruence. exists d1, r1. split; [done|]. split; [done|]. destruct r1; cbn [is_ok]; [done|].
        split; [done|]. intros _. left.
      * apply elem_of_cons in Hx as [->|Hx]; [done|]. destruct (Hin x cx Hx) as (d & r & Hfate & Hc & Hfl); [by rewrite lookup_insert_ne by congruence|].
        exists d, r. split; [done|]. split; [done|]. rewrite <- Hfl. destruct (is_ok r1); [done|]. rewrite elem_of_cons. naive_solver.
  - destruct (IH s cs Hnd Hok) as (n & s' & cs' & failed & given & E1 & Hok' & Hs & Hout & Hin). exists n, s', cs', failed, given.
    split_and!; [|done| | |].
    + intros fuel Hf. cbn [drive_each]. rewrite Ec. by apply E1.
    + cbn [all_told fold_left]. by rewrite Ec.
    + intros x [Hx|Hx]; apply Hout; [left|by right]. intros Hy. apply Hx. by right.
    + intros x cx [->|Hx]%elem_of_cons Hcx; [congruence|by apply Hin].
Qed.

(** What is left of the connections [cs] after each has had its turn. *)
Definition driven (cs : connections) (given : Id -> list Event) (kept : connections) : Prop := forall id,
  match cs !! id with
  | None => kept !! id = None
  | Some c => exists d r, turned (given id) (sv_driver c) d r /\ kept !! id = if is_ok r then Some (mkServed d (sv_addr c)) else None
  end.
Definition order_ok (order : connections -> list Id) : Prop := forall cs, NoDup (order cs) /\ forall id, id ∈ order cs <-> is_Some (cs !! id).
Lemma remove_failed_lookup {V} failed : forall (cs : gmap Id V) id, remove_failed failed cs !! id = if decide (id ∈ failed) then None else cs !! id.
Proof using.
  unfold remove_failed. induction failed as [|x failed IH]; intros cs id; cbn [fold_left].
  - rewrite decide_False; [done|apply not_elem_of_nil].
  - rewrite (IH (delete x cs)). destruct (decide (id ∈ failed)) as [Hin|Hin]; [rewrite decide_True; [done|by right]|].
    destruct (decide (id = x)) as [->|Hne]; [rewrite lookup_delete_eq, decide_True; [done|left]|].
    rewrite lookup_delete_ne by congruence. rewrite decide_False; [done|]. by intros [->|?]%elem_of_cons.
Qed.
Lemma drive_all_serves order s cs : order_ok order -> server_ok cs ->
  exists n s' cs' failed given, (forall fuel, (n <= fuel)%nat -> drive_each (drive_one fuel) (order cs) s cs = Some (s', cs', failed)) /\
    server_ok (remove_failed failed cs') /\ s' = all_told cs given (order cs) s /\ driven cs given (remove_failed failed cs') /\
    (forall id, id ∈ failed <-> is_Some (cs !! id) /\ remove_failed failed cs' !! id = None).
Proof using Hturn.
  intros Horder Hok. destruct (Horder cs) as [Hnd Hall].
  destruct (drive_each_serves (order cs) s cs Hnd Hok) as (n & s' & cs' & failed & given & E1 & Hok' & Hs & Hout & Hin).
  exists n, s', cs', failed, given. split_and!; [done| |done| |].
  { intros id c. rewrite remove_failed_lookup. destruct (decide _); [done|apply Hok']. }
  2: { intros id. rewrite remove_failed_lookup. destruct (cs !! id) as [c|] eqn:Ec.
    - destruct (Hin id c) as (d & r & _ & -> & _); [apply Hall; by eexists|done|]. destruct (decide _); naive_solver.
    - destruct (Hout id) as [_ Hnf]; [by right|]. split; [done|]. by intros [[] _]. }
  intros id. rewrite remove_failed_lookup. destruct (cs !! id) as [c|] eqn:Ec.
  - destruct (Hin id c) as (d & r & Ht & Hc & Hfl); [apply Hall; by eexists|done|]. exists d, r. split; [done|].
    destruct (decide (id ∈ failed)) as [Hf|Hf]; rewrite Hfl in Hf; [by rewrite Hf|]. apply not_false_is_true in Hf. by rewrite Hf, Hc.
  - destruct (Hout id) as [Hc _]; [by right|]. rewrite Hc, Ec. by destruct (decide _).
Qed.
End turns.

(** ** New connections *)
Section accepting.
Context {Q E Addr Id : Type} `{!Transport Q E, !TransportLaws, Countable Id}.
Context (settings : Settings) (Hset : settings_ok settings).
Notation connections := (gmap Id (Served Q E Addr)).
Notation server_ok := (server_ok (Q := Q) (E := E) (Addr := Addr) (Id := Id) settings).

Lemma add_connection_safe id addr q (cs : connections) : Forall quic_event_ok (pending_quic q) -> server_ok cs ->
  exists n cs' r, (forall fuel, (n <= fuel)%nat -> add_connection settings fuel id addr q cs = Some (cs', r)) /\ server_ok cs' /\
    match r with Ok _ => exists c, cs' = <[id := c]> cs /\ sv_addr c = addr | Err _ => cs' = cs end.
Proof using Hset.
  intros Hq Hok. unfold add_connection, h3_state_new. destruct (conn_new_wf Server settings Hset) as (c & Ec & _). rewrite Ec. cbn [mbind option_bind].
  set (d := mkDriver (mkH3State c [] []) q). assert (driver_ok Server settings d) as Hd by (split; [by apply reach_new|constructor|done]).
  assert (settles Server settings (fun fuel => server_add_connection (Q := Q) (E := E) fuel) d (fun _ _ => True)) as (n & d' & r & E1 & Hd' & _ & _).
  { apply (settles_bind Server settings (fun _ => h3_init_h3_streams) (fun _ fuel => h3_set_transport_verified;; pump fuel) _ (fun _ _ => True));
      [by apply settles_const, (init_streams_safe Server settings Hset)| |done]. intros [] d1 Hd1 _.
    apply (settles_bind Server settings (fun _ => h3_set_transport_verified) (fun _ => pump) _ (fun _ _ => True)); [| |done].
    - apply settles_const. eapply drives_mono; [eapply (drives_conn _ _ Hset _ (fun _ => OutUnit) (OpSetTransportVerified true true)); done|done].
    - intros [] d2 Hd2 _. eapply settles_mono; [by apply (pump_settles Server settings Hset)|done]. }
  destruct r as [[]|e].
  - exists n, (<[id := mkServed d' addr]> cs), (Ok ()). split; [intros fuel Hf; by rewrite E1|]. split; [by apply map_Forall_insert_2|by eexists].
  - exists n, cs, (Err e). split; [intros fuel Hf; by rewrite E1|]. by split.
Qed.


Definition answer_ok (answer : option (result E (option (Id * Addr * Q)))) : Prop :=
  match answer with Some (Ok (Some (_, _, q))) => Forall quic_event_ok (pending_quic q) | _ => True end.
(** What the answer of [accept] adds, and how the round ends. *)
Definition taken_in (answer : option (result E (option (Id * Addr * Q)))) (kept cs' : connections) (r : result (NgError E) unit) : Prop :=
  match answer with
  | Some (Ok (Some (id, addr, _))) =>
    (r = Ok () /\ exists c, cs' = <[id := c]> kept /\ sv_addr c = addr) \/ (is_ok r = false /\ cs' = kept)
  | Some (Err e) => r = Err (NgQuic e) /\ cs' = kept
  | Some (Ok None) | None => r = Ok () /\ cs' = kept
  end.
Lemma accept_safe answer kept : answer_ok answer -> server_ok kept ->
  exists n cs' r, (forall fuel, (n <= fuel)%nat -> accept_connections settings fuel answer kept = Some (cs', r)) /\ server_ok cs' /\ taken_in answer kept cs' r.
Proof using Hset.
  intros Hans Hkept. destruct answer as [[[[[id addr] q]|]|e]|]; cbn [accept_connections taken_in]; try (eexists O, kept, _; by split_and!).
  destruct (add_connection_safe id addr q kept Hans Hkept) as (n & cs' & r & E1 & Hok & Hr). exists n, cs', r. split_and!; [done..|].
  destruct r as [[]|e]; [left|right]; by split.
Qed.

End accepting.

(** ** Rounds *)
Section rounds.
Context {Q E S Addr Id : Type} `{!Transport Q E, !TransportLaws, Countable Id}.
Context (settings : Settings) (Hset : settings_ok settings) (handler : Addr -> S -> Event -> S * option (list Header * bytes)).
Context (Hanswers : forall addr, answers_ok (handler addr)) (order : gmap Id (Served Q E Addr) -> list Id) (Horder : order_ok order).
Notation connections := (gmap Id (Served Q E Addr)).
Notation server_ok := (server_ok (Q := Q) (E := E) (Addr := Addr) (Id := Id) settings).

(** The handler is given the events of a connection with its address. *)
Definition hands_over (_ : Id) (addr : Addr) (served : list Event) (s : S) : S := handled (handler addr) served s.
Lemma pump_turns_serve : turns_serve settings (fun fuel _ addr => pump_connection (Q := Q) (E := E) (handler addr) fuel) hands_over.
Proof using Hset Hanswers. intros id addr s d Hd. by apply (server_serves Server settings Hset (handler addr) (Hanswers addr)). Qed.

Lemma round_serves answer s cs : answer_ok answer -> server_ok cs ->
  exists n s' cs' r, (forall fuel, (n <= fuel)%nat -> run_round order settings handler fuel answer s cs = Some (s', cs', r)) /\ server_ok cs' /\
    exists given kept, s' = all_told hands_over cs given (order cs) s /\ driven cs given kept /\ taken_in answer kept cs' r.
Proof using All.
  intros Hans Hok. destruct (drive_all_serves settings _ _ pump_turns_serve order s cs Horder Hok) as (n1 & s1 & cs1 & failed & given & E1 & Hok1 & Hs1 & Hd & _).
  destruct (accept_safe settings Hset answer _ Hans Hok1) as (n2 & cs2 & r & E2 & Hok2 & Htaken).
  exists (n1 + n2)%nat, s1, cs2, r. split_and!; [|done|by exists given, (remove_failed failed cs1)].
  intros fuel Hf. unfold run_round, drive_connections. rewrite (E1 fuel) by lia. cbn [mbind option_bind]. by rewrite E2 by lia.
Qed.
Lemma rounds_safe answers : forall s cs, Forall answer_ok answers -> server_ok cs ->
  exists n s' cs' r, (forall fuel, (n <= fuel)%nat -> run_inner order settings handler fuel answers s cs = Some (s', cs', r)) /\ server_ok cs'.
Proof using All.
  induction answers as [|answer answers IH]; intros s cs Hans Hok; [by exists O, s, cs, (Ok ())|].
  inversion Hans as [|? ? Ha Hans']; subst. destruct (round_serves answer s cs Ha Hok) as (n1 & s1 & cs1 & r1 & E1 & Hok1 & _). destruct r1 as [[]|e].
  - destruct (IH s1 cs1 Hans' Hok1) as (n2 & s2 & cs2 & r2 & E2 & Hok2). exists (n1 + n2)%nat, s2, cs2, r2. split; [|done].
    intros fuel Hf. cbn [run_inner]. rewrite E1 by lia. cbn [mbind option_bind]. apply E2. lia.
  - exists n1, s1, cs1, (Err e). split; [|done]. intros fuel Hf. cbn [run_inner]. by rewrite E1.
Qed.
End rounds.

(** ** Properties *)

(** C10. A server with any number of connections: no round panics, whatever QUIC reports on any
    connection and whatever is accepted, in whichever order they are driven. In a round
    each connection has its turn: the handler is given the events it had queued first,
    once each and in order. A connection on which something other than a stream error
    happened is given up; every other one stays, with its stream errors logged and nothing
    unread, and no connection changes because of another. Only accepting a new connection
    can end the loop. *)
Theorem server_isolates {Q E S Addr Id} `{!Transport Q E, !TransportLaws, Countable Id} settings
    (handler : Addr -> S -> Event -> S * option (list Header * bytes)) (order : gmap Id (Served Q E Addr) -> list Id) (s : S) cs :
  settings_ok settings -> (forall addr, answers_ok (handler addr)) -> order_ok order -> server_ok settings cs ->
  (forall answers, Forall answer_ok answers ->
    exists n s' cs' r, (forall fuel, (n <= fuel)%nat -> run_inner order settings handler fuel answers s cs = Some (s', cs', r)) /\ server_ok settings cs') /\
  (forall answer, answer_ok answer ->
    exists n s' cs' r, (forall fuel, (n <= fuel)%nat -> run_round order settings handler fuel answer s cs = Some (s', cs', r)) /\ server_ok settings cs' /\
    exists given kept, s' = all_told (hands_over handler) cs given (order cs) s /\ driven cs given kept /\ taken_in answer kept cs' r).
Proof.
  intros Hset Hans Hord Hok. split; [intros answers Hal; by apply rounds_safe|intros answer Ha; by apply round_serves].
Qed.

(** ** Witnesses *)
Definition ids_in_order {V} (cs : gmap Z V) : list Z := map fst (map_to_list cs).
Lemma ids_in_order_ok {V} (cs : gmap Z V) : NoDup (ids_in_order cs) /\ forall id, id ∈ ids_in_order cs <-> is_Some (cs !! id).
Proof.
  split; [apply NoDup_fst_map_to_list|]. intros id. unfold ids_in_order. split.
  - intros H. apply list_elem_of_In, in_map_iff in H as ([x v] & <- & H). apply list_elem_of_In, elem_of_map_to_list in H. by exists v.
  - intros [v H]. apply list_elem_of_In, in_map_iff. exists (id, v). split; [done|]. by apply list_elem_of_In, elem_of_map_to_list.
Qed.
Definition newcomer (l : list QuicEvent) : TestQuic := mkTestQuic l [] [] 3.
Definition bad_control : QuicEvent := QStreamData 2 [0x00; 0x01; 0x00] false.
Definition two_connections (c : Connection) : gmap Z (Served TestQuic unit Z) :=
  <[1 := mkServed (serving_driver [arriving_request] c) 10]> (<[2 := mkServed (serving_driver [bad_control] c) 20]> ∅).

(** One connection has a request, the other a control stream without SETTINGS; a third is accepted. *)
Lemma server_isolates_witness :
  exists c n s' cs' r given kept, state_after Server settings_new idle_server = Some c /\
    (forall fuel, (n <= fuel)%nat -> run_round ids_in_order settings_new (fun _ => answering_handler) fuel (Some (Ok (Some (3, 30, newcomer [])))) 0%nat (two_connections c) =
      Some (s', cs', r)) /\
    server_ok settings_new cs' /\ driven (two_connections c) given kept /\ taken_in (Some (Ok (Some (3, 30, newcomer [])))) kept cs' r.
Proof.
  destruct (state_after Server settings_new idle_server) as [c|] eqn:E; [|vm_compute in E; discriminate].
  assert (reachable Server settings_new c) as Hr.
  { apply (state_after_reachable _ _ idle_server); [vm_compute; reflexivity|exact E]. }
  destruct (server_isolates settings_new (fun _ : Z => answering_handler) ids_in_order 0%nat (two_connections c)) as [_ Hround].
  - repeat split.
  - intros addr. exact answering_handler_ok.
  - intros cs. apply ids_in_order_ok.
  - unfold two_connections. apply map_Forall_insert_2; [|apply map_Forall_insert_2; [|apply map_Forall_empty]].
    + split; [exact Hr|constructor|]. apply (bool_decide_unpack _). vm_compute. exact I.
    + split; [exact Hr|constructor|]. apply (bool_decide_unpack _). vm_compute. exact I.
  - destruct (Hround (Some (Ok (Some (3, 30, newcomer []))))) as (n & s' & cs' & r & Erun & Hok & given & kept & _ & Hdriven & Htaken); [constructor|].
    exists c, n, s', cs', r, given, kept. split; [reflexivity|]. split; [exact Erun|]. split; [exact Hok|]. split; [exact Hdriven|exact Htaken].
Defined.

(** In that round the request is answered, the bad connection is gone and the third is there. *)
Example bad_connection_is_dropped :
  exists c cs', state_after Server settings_new idle_server = Some c /\
    run_round ids_in_order settings_new (fun _ => answering_handler) 20 (Some (Ok (Some (3, 30, newcomer [])))) 0%nat (two_connections c) = Some (1%nat, cs', Ok ()) /\
    ids_in_order cs' = [3; 1].
Proof.
  destruct (state_after Server settings_new idle_server) as [c|] eqn:E; [|vm_compute in E; discriminate].
  vm_compute in E. injection E as <-. eexists _, _. split; [reflexivity|]. vm_compute. split; reflexivity.
Qed.
(** The same data on a connection that has just been accepted ends the loop, and with it
    every other connection. *)
Example bad_newcomer_ends_server :
  exists c s' cs', state_after Server settings_new idle_server = Some c /\
    run_inner ids_in_order settings_new (fun _ => answering_handler) 20 [Some (Ok (Some (3, 30, newcomer [bad_control]))); None] 0%nat (two_connections c) =
      Some (s', cs', Err (NgHttp3 (ConnectionError MissingSettings))).
Proof.
  destruct (state_after Server settings_new idle_server) as [c|] eqn:E; [|vm_compute in E; discriminate].
  vm_compute in E. injection E as <-. eexists _, _, _. split; [reflexivity|]. vm_compute. reflexivity.
Qed.
