(* ===== verification/NgWtServer.v ===== *)
(** crates/tokio-ngtcp2/src/webtransport.rs: [ServerWebTransportSession], the WebTransport
    server, which drives all its connections, keeps what it knows of the sessions of each,
    and takes in new ones.

    As in [NgServer], what QUIC's server answers to [accept] is a value, [None] when the
    time is over; a deadline is the number of such answers. The orders in which a
    [HashMap] and a [HashSet] are walked are parameters. *)

From Stdlib Require Import String Ascii.
From S2P Require Import Prelude Codec Varint Header EncoderStream DecoderStream Settings Error Stream FrameStream QpackEncoder QpackDecoder ControlStream RequestStream Frame Validation Event WtStream WtSession Connection ConnInvariant ConnNegotiation ConnWtSession ConnWtStream ConnReceive ConnSafety ConnSend ConnSendSafety ConnRun ConnEvents ConnOutgoing ConnExchange ConnEndToEnd NgDriver NgEndpoint NgServer.

Section wt_server.
Context {Q E App Addr Id : Type} `{!Transport Q E, Countable Id}.
Notation connections := (gmap Id (Served Q E Addr)).

(** [ServerWebTransportSession]: the connections of its server, and their sessions. *)
Record ServerWebTransportSession := mkWtServer { sw_connections : connections; sw_wt : gmap Id WtConnectionState }.
Notation answered := (option (result E (option (Id * Addr * Q)))).

Context (iter : gset Z -> list Z) (order : connections -> list Id) (handler : Addr -> App -> Z -> Event -> App * bool).

(** One connection of [drive_all], with the entry of its sessions. *)
Definition drive_one (fuel : nat) (id : Id) (addr : Addr) (s : gmap Id WtConnectionState * App) (d : Driver Q E)
    : option (gmap Id WtConnectionState * App * Driver Q E * result (NgError E) unit) :=
  let '(wt, app) := s in
  '(w, app, d, r) ← drive_connection iter (handler addr) fuel (default wt_connection_state_new (wt !! id), app) d;
  Some (<[id := w]> wt, app, d, r).
Definition drive_all (fuel : nat) (app : App) (srv : ServerWebTransportSession) : option (App * ServerWebTransportSession) :=
  '(wt, app, cs, failed) ← drive_each (drive_one fuel) (order (sw_connections srv)) (sw_wt srv, app) (sw_connections srv);
  Some (app, mkWtServer (remove_failed failed cs) (remove_failed failed wt)).

Definition wt_add_connection (fuel : nat) (id : Id) (addr : Addr) (q : Q) (srv : ServerWebTransportSession) : option (ServerWebTransportSession * result (NgError E) unit) :=
  '(cs, r) ← add_connection server_settings fuel id addr q (sw_connections srv);
  Some (mkWtServer cs (if is_ok r then <[id := wt_connection_state_new]> (sw_wt srv) else sw_wt srv), r).
Definition wt_accept (fuel : nat) (answer : answered) (srv : ServerWebTransportSession) : option (ServerWebTransportSession * result (NgError E) unit) :=
  match answer with
  | Some (Ok (Some (id, addr, q))) => wt_add_connection fuel id addr q srv
  | Some (Ok None) | None => Some (srv, Ok ())
  | Some (Err e) => Some (srv, Err (NgQuic e))
  end.

(** A round of the loops of [run] and [recv_once], and [recv_once]: at the deadline the
    connections have had their turn. *)
Definition wt_round (fuel : nat) (answer : answered) (app : App) (srv : ServerWebTransportSession) : option (App * ServerWebTransportSession * result (NgError E) unit) :=
  '(app, srv) ← drive_all fuel app srv;
  '(srv, r) ← wt_accept fuel answer srv;
  Some (app, srv, r).
Fixpoint recv_once (fuel : nat) (answers : list answered) (app : App) (srv : ServerWebTransportSession) : option (App * ServerWebTransportSession * result (NgError E) unit) :=
  match answers with
  | [] => '(app, srv) ← drive_all fuel app srv; Some (app, srv, Ok ())
  | answer :: answers =>
    '(app, srv, r) ← wt_round fuel answer app srv;
    match r with Ok _ => recv_once fuel answers app srv | Err e => Some (app, srv, Err e) end
  end.
(** [run], as far as there are answers. *)
Fixpoint wt_run (fuel : nat) (answers : list answered) (app : App) (srv : ServerWebTransportSession) : option (App * ServerWebTransportSession * result (NgError E) unit) :=
  match answers with
  | [] => Some (app, srv, Ok ())
  | answer :: answers =>
    '(app, srv, r) ← wt_round fuel answer app srv;
    match r with Ok _ => wt_run fuel answers app srv | Err e => Some (app, srv, Err e) end
  end.

(** [flush]: every connection is pumped until none has anything left to send. The first
    that fails ends the walk; the answers are joined. *)
Fixpoint over_connections (m : Driver Q E -> option (Driver Q E * result (NgError E) bool)) (ids : list Id) (cs : connections)
    : option (connections * result (NgError E) bool) :=
  match ids with
  | [] => Some (cs, Ok false)
  | id :: ids =>
    match cs !! id with
    | None => over_connections m ids cs
    | Some c =>
      '(d, r) ← m (sv_driver c);
      let cs := <[id := mkServed d (sv_addr c)]> cs in
      match r with
      | Err e => Some (cs, Err e)
      | Ok b => '(cs, r) ← over_connections m ids cs; Some (cs, match r with Ok b' => Ok (b || b') | Err e => Err e end)
      end
    end
  end.
Definition pump_and_look (fuel : nat) : NgDriver.drive (Q := Q) (E := E) bool :=
  pump fuel;; pending ← inspect (fun d => mret (q_has_pending_data (quic d))); log_stream_errors;; mret pending.
(** [rounds]: how often the deadline lets it wait. *)
Fixpoint flush_all (rounds fuel : nat) (cs : connections) : option (connections * result (NgError E) unit) :=
  '(cs, r) ← over_connections (pump_and_look fuel) (order cs) cs;
  match r with
  | Err e => Some (cs, Err e)
  | Ok false => Some (cs, Ok ())
  | Ok true =>
    match rounds with
    | O => Some (cs, Err NgTimeout)
    | S rounds =>
      '(cs, r) ← over_connections (pump_wait fuel;; mret false) (order cs) cs;
      match r with Err e => Some (cs, Err e) | Ok _ => flush_all rounds fuel cs end
    end
  end.
Definition wt_server_flush (rounds fuel : nat) (srv : ServerWebTransportSession) : option (ServerWebTransportSession * result (NgError E) unit) :=
  '(cs, r) ← flush_all rounds fuel (sw_connections srv); Some (mkWtServer cs (sw_wt srv), r).

(** [open_bidi_stream_for] and [send_stream_data_for], on the first connection with that address. *)
Definition connection_not_found : NgError E := NgInvalidState (str "connection not found").
Definition find_connection `{EqDecision Addr} (addr : Addr) (cs : connections) : option Id :=
  List.find (fun id => some_and (cs !! id) (fun c => bool_decide (sv_addr c = addr))) (order cs).
Definition open_bidi_stream_inner (id : Id) (srv : ServerWebTransportSession) : option (ServerWebTransportSession * result (NgError E) Z) :=
  match sw_wt srv !! id ≫= (fun w => head (iter (wc_sessions w))), sw_connections srv !! id, sw_wt srv !! id with
  | Some _, Some c, Some w =>
    '(w, _, d, r) ← server_open_bidi_stream iter (w, tt) (sv_driver c);
    Some (mkWtServer (<[id := mkServed d (sv_addr c)]> (sw_connections srv)) (<[id := w]> (sw_wt srv)), r)
  | Some _, None, _ => Some (srv, Err connection_not_found)
  | _, _, _ => Some (srv, Err not_established)
  end.
Definition wt_open_bidi_stream_for `{EqDecision Addr} (addr : Addr) (srv : ServerWebTransportSession) : option (ServerWebTransportSession * result (NgError E) Z) :=
  match find_connection addr (sw_connections srv) with
  | None => Some (srv, Err connection_not_found)
  | Some id => open_bidi_stream_inner id srv
  end.
Definition send_stream_data_inner (id : Id) (stream_id : Z) (data : bytes) (fin : bool) (srv : ServerWebTransportSession) : option (ServerWebTransportSession * result (NgError E) unit) :=
  match sw_connections srv !! id with
  | None => Some (srv, Err connection_not_found)
  | Some c =>
    '(d, r) ← write_wt_stream stream_id data fin (sv_driver c);
    Some (mkWtServer (<[id := mkServed d (sv_addr c)]> (sw_connections srv)) (sw_wt srv), r)
  end.
Definition send_stream_data_for `{EqDecision Addr} (addr : Addr) (stream_id : Z) (data : bytes) (fin : bool) (srv : ServerWebTransportSession)
    : option (ServerWebTransportSession * result (NgError E) unit) :=
  match find_connection addr (sw_connections srv) with
  | None => Some (srv, Err connection_not_found)
  | Some id => send_stream_data_inner id stream_id data fin srv
  end.
End wt_server.

(** ** The server and its connections *)
Section safety.
Context {Q E App Addr Id : Type} `{!Transport Q E, !TransportLaws, Countable Id}.
Context (iter : gset Z -> list Z) (order : gmap Id (Served Q E Addr) -> list Id) (Horder : order_ok order).
Context (handler : Addr -> App -> Z -> Event -> App * bool).
Notation connections := (gmap Id (Served Q E Addr)).
Notation WtServer := (ServerWebTransportSession (Q := Q) (E := E) (Addr := Addr) (Id := Id)).
Notation server_ok := (server_ok (Q := Q) (E := E) (Addr := Addr) (Id := Id) server_settings).
Notation driver_ok := (driver_ok (Q := Q) (E := E) Server server_settings).

Lemma server_settings_ok : settings_ok server_settings.
Proof using. repeat split; vm_compute; by intros. Qed.
Lemma server_settings_no_flow : some_and (wt_settings server_settings) declares_flow_control = false.
Proof using. reflexivity. Qed.

(** What the events of a connection make of its sessions and of the application. *)
Definition tells (id : Id) (addr : Addr) (served : list Event) (s : gmap Id WtConnectionState * App) : gmap Id WtConnectionState * App :=
  let '(w, app) := fold_left (wt_next iter (handler addr)) served (default wt_connection_state_new (fst s !! id), snd s) in
  (<[id := w]> (fst s), app).
Definition noted (served : list Event) (w : WtConnectionState) : WtConnectionState := fold_left (fun w e => note_event e w) served w.
Lemma next_notes addr served : forall w app, fst (fold_left (wt_next iter (handler addr)) served (w, app)) = noted served w.
Proof using. induction served as [|e served IH]; intros w app; [done|]. cbn [fold_left]. unfold wt_next at 2. cbn [fst]. apply IH. Qed.

Lemma drive_one_serves : turns_serve server_settings (drive_one (Q := Q) (E := E) iter handler) tells.
Proof using.
  intros id addr [wt app] d Hd.
  destruct (wt_server_serves server_settings server_settings_ok server_settings_no_flow iter (handler addr)
    (default wt_connection_state_new (wt !! id), app) d Hd) as (n & [w app'] & d' & r & served & E1 & Hd' & Hs & Ht).
  exists n, (<[id := w]> wt, app'), d', r, served. split_and!; [|done| |done].
  - intros fuel Hf. unfold drive_one. by rewrite E1.
  - unfold tells. cbn [fst snd]. by rewrite <- Hs.
Qed.

(** The sessions of each connection are what its own events make them. *)
Lemma told_sessions (cs : connections) given ids : NoDup ids -> forall wt app id,
  fst (all_told tells cs given ids (wt, app)) !! id =
    if decide (id ∈ ids /\ is_Some (cs !! id)) then Some (noted (given id) (default wt_connection_state_new (wt !! id))) else wt !! id.
Proof using.
  induction 1 as [|x ids Hx _ IH]; intros wt app id.
  { rewrite decide_False; [done|]. by intros [Hin%elem_of_nil _]. }
  cbn [all_told fold_left]. destruct (cs !! x) as [c|] eqn:Ec.
  - destruct (tells x (sv_addr c) (given x) (wt, app)) as [wt1 app1] eqn:Et. fold (all_told tells cs given ids (wt1, app1)). rewrite IH.
    unfold tells in Et. cbn [fst snd] in Et. pose proof (next_notes (sv_addr c) (given x) (default wt_connection_state_new (wt !! x)) app) as Hn.
    destruct (fold_left _ _ _) as [w app2]. cbn [fst] in Hn. injection Et as <- <-. destruct (decide (id = x)) as [->|Hne].
    + rewrite decide_False by by intros []. rewrite decide_True by (split; [left|by eexists]). by rewrite lookup_insert_eq, Hn.
    + rewrite lookup_insert_ne by congruence. apply decide_ext. rewrite elem_of_cons. naive_solver.
  - fold (all_told tells cs given ids (wt, app)). rewrite IH. apply decide_ext. rewrite elem_of_cons.
    split; [naive_solver|]. intros [[->|Hin] Hs]; [|done]. rewrite Ec in Hs. by destruct Hs.
Qed.

(** [drive_all]: what becomes of the connections, of their sessions and of the application. *)
Definition sessions_follow (cs : connections) (given : Id -> list Event) (srv srv' : WtServer) : Prop := forall id,
  sw_wt srv' !! id = match cs !! id with
    | None => sw_wt srv !! id
    | Some _ => if sw_connections srv' !! id then Some (noted (given id) (default wt_connection_state_new (sw_wt srv !! id))) else None
    end.
Definition all_driven (app : App) (srv : WtServer) (app' : App) (srv' : WtServer) : Prop := exists given,
  app' = snd (all_told tells (sw_connections srv) given (order (sw_connections srv)) (sw_wt srv, app)) /\
  driven (sw_connections srv) given (sw_connections srv') /\ sessions_follow (sw_connections srv) given srv srv'.
Lemma drive_all_safe app srv : server_ok (sw_connections srv) ->
  exists n app' srv', (forall fuel, (n <= fuel)%nat -> drive_all iter order handler fuel app srv = Some (app', srv')) /\
    server_ok (sw_connections srv') /\ all_driven app srv app' srv'.
Proof using Horder.
  intros Hok. destruct (drive_all_serves server_settings _ _ drive_one_serves order (sw_wt srv, app) _ Horder Hok)
    as (n & [wt app'] & cs & failed & given & E1 & Hok' & Hs & Hd & Hfailed).
  exists n, app', (mkWtServer (remove_failed failed cs) (remove_failed failed wt)). split_and!; [|done|].
  { intros fuel Hf. unfold drive_all. by rewrite E1. }
  exists given. rewrite <- Hs. split_and!; [done..|]. intros id. cbn [sw_wt sw_connections].
  destruct (Horder (sw_connections srv)) as [Hnd Hall].
  pose proof (told_sessions (sw_connections srv) given _ Hnd (sw_wt srv) app id) as Ht. rewrite <- Hs in Ht. cbn [fst] in Ht.
  rewrite remove_failed_lookup, Ht. specialize (Hfailed id). specialize (Hall id).
  destruct (sw_connections srv !! id) as [c|]; destruct (remove_failed failed cs !! id); repeat case_decide; naive_solver.
Qed.

(** A new connection has no sessions. *)
Definition wt_taken (answer : option (result E (option (Id * Addr * Q)))) (srv srv' : WtServer) (r : result (NgError E) unit) : Prop :=
  taken_in answer (sw_connections srv) (sw_connections srv') r /\
  sw_wt srv' = match answer, r with Some (Ok (Some (id, _, _))), Ok _ => <[id := wt_connection_state_new]> (sw_wt srv) | _, _ => sw_wt srv end.
Lemma wt_accept_safe answer srv : answer_ok answer -> server_ok (sw_connections srv) ->
  exists n srv' r, (forall fuel, (n <= fuel)%nat -> wt_accept fuel answer srv = Some (srv', r)) /\ server_ok (sw_connections srv') /\ wt_taken answer srv srv' r.
Proof using.
  intros Hans Hok. destruct (accept_safe server_settings server_settings_ok answer _ Hans Hok) as (n & cs & r & E1 & Hok' & Ht).
  destruct answer as [[[[[id addr] q]|]|e]|]; [|by exists O, srv, (Ok ())|by exists O, srv, (Err (NgQuic e))|by exists O, srv, (Ok ())].
  exists n, (mkWtServer cs (if is_ok r then <[id := wt_connection_state_new]> (sw_wt srv) else sw_wt srv)), r. split_and!; [|done|split; [done|by destruct r]].
  intros fuel Hf. cbn [wt_accept]. unfold wt_add_connection. specialize (E1 fuel Hf). cbn [accept_connections] in E1. by rewrite E1.
Qed.

Lemma wt_round_safe answer app srv : answer_ok answer -> server_ok (sw_connections srv) ->
  exists n app' srv1 srv' r, (forall fuel, (n <= fuel)%nat -> wt_round iter order handler fuel answer app srv = Some (app', srv', r)) /\
    server_ok (sw_connections srv') /\ all_driven app srv app' srv1 /\ wt_taken answer srv1 srv' r.
Proof using Horder.
  intros Hans Hok. destruct (drive_all_safe app srv Hok) as (n1 & app' & srv1 & E1 & Hok1 & Hd).
  destruct (wt_accept_safe answer srv1 Hans Hok1) as (n2 & srv' & r & E2 & Hok' & Ht).
  exists (n1 + n2)%nat, app', srv1, srv', r. split_and!; [|done..|apply Ht]. intros fuel Hf. unfold wt_round.
  rewrite E1 by lia. cbn [mbind option_bind]. by rewrite E2 by lia.
Qed.
Lemma wt_rounds_safe answers : Forall answer_ok answers -> forall app srv, server_ok (sw_connections srv) ->
  exists n app' srv' r, (forall fuel, (n <= fuel)%nat -> wt_run iter order handler fuel answers app srv = Some (app', srv', r) /\
      recv_once iter order handler fuel answers app srv = match r with
        | Ok _ => '(app, srv) ← drive_all iter order handler fuel app' srv'; Some (app, srv, Ok ())
        | Err e => Some (app', srv', Err e)
        end) /\ server_ok (sw_connections srv').
Proof using Horder.
  induction 1 as [|answer answers Ha _ IH]; intros app srv Hok; [by exists O, app, srv, (Ok ())|].
  destruct (wt_round_safe answer app srv Ha Hok) as (n1 & app1 & _ & srv1 & r1 & E1 & Hok1 & _). destruct r1 as [[]|e].
  - destruct (IH app1 srv1 Hok1) as (n2 & app2 & srv2 & r2 & E2 & Hok2). exists (n1 + n2)%nat, app2, srv2, r2. split; [|done].
    intros fuel Hf. cbn [wt_run recv_once]. rewrite E1 by lia. cbn [mbind option_bind]. apply E2. lia.
  - exists n1, app1, srv1, (Err e). split; [|done]. intros fuel Hf. cbn [wt_run recv_once]. by rewrite E1.
Qed.
Lemma recv_once_safe answers app srv : Forall answer_ok answers -> server_ok (sw_connections srv) ->
  exists n app' srv' r, (forall fuel, (n <= fuel)%nat -> recv_once iter order handler fuel answers app srv = Some (app', srv', r)) /\
    server_ok (sw_connections srv').
Proof using Horder.
  intros Hans Hok. destruct (wt_rounds_safe answers Hans app srv Hok) as (n1 & app1 & srv1 & r1 & E1 & Hok1). destruct r1 as [[]|e].
  - destruct (drive_all_safe app1 srv1 Hok1) as (n2 & app2 & srv2 & E2 & Hok2 & _). exists (n1 + n2)%nat, app2, srv2, (Ok ()). split; [|done].
    intros fuel Hf. destruct (E1 fuel) as [_ ->]; [lia|]. by rewrite E2 by lia.
  - exists n1, app1, srv1, (Err e). split; [|done]. intros fuel Hf. by destruct (E1 fuel) as [_ ->].
Qed.

(** *** Flushing *)
Definition ends (m : nat -> NgDriver.drive (Q := Q) (E := E) bool) : Prop := forall d, driver_ok d ->
  exists n d' r, (forall fuel, (n <= fuel)%nat -> m fuel d = Some (d', r)) /\ driver_ok d'.
Lemma over_safe m ids : ends m -> forall cs, server_ok cs ->
  exists n cs' r, (forall fuel, (n <= fuel)%nat -> over_connections (Addr := Addr) (Id := Id) (m fuel) ids cs = Some (cs', r)) /\ server_ok cs'.
Proof using.
  intros Hm. induction ids as [|id ids IH]; intros cs Hok; [by exists O, cs, (Ok false)|]. cbn [over_connections]. destruct (cs !! id) as [c|] eqn:Ec; [|by apply IH].
  destruct (Hm (sv_driver c) (Hok id c Ec)) as (n1 & d & r & E1 & Hd). destruct r as [b|e].
  - destruct (IH (<[id := mkServed d (sv_addr c)]> cs)) as (n2 & cs' & r' & E2 & Hok'); [by apply map_Forall_insert_2|].
    exists (n1 + n2)%nat, cs', (match r' with Ok b' => Ok (b || b') | Err e => Err e end). split; [|done].
    intros fuel Hf. rewrite E1 by lia. cbn [mbind option_bind]. by rewrite E2 by lia.
  - exists n1, (<[id := mkServed d (sv_addr c)]> cs), (Err e). split; [|by apply map_Forall_insert_2]. intros fuel Hf. by rewrite E1.
Qed.
Lemma pump_ends : ends pump_and_look.
Proof using.
  intros d Hd. destruct (pump_settles Server server_settings server_settings_ok d Hd) as (n & d1 & r & E1 & Hd1 & _). unfold pump_and_look.
  destruct r as [[]|e]; [|by exists n, d1, (Err e); split; [|done]; intros fuel Hf; unfold mbind, drive_bind; rewrite E1].
  destruct (log_safe Server server_settings d1 Hd1) as (d2 & E2 & Hd2 & _). exists n, d2, (Ok (q_has_pending_data (quic d1))). split; [|done].
  intros fuel Hf. unfold mbind, drive_bind. rewrite E1 by done. unfold inspect, mret at 1, drive_ret. by rewrite E2.
Qed.
Lemma wait_ends : ends (fun fuel => pump_wait fuel;; mret false).
Proof using.
  intros d Hd. destruct (pump_wait_settles Server server_settings server_settings_ok d Hd) as (n & d1 & r & E1 & Hd1 & _).
  exists n, d1, (match r with Ok _ => Ok false | Err e => Err e end). split; [|done]. intros fuel Hf. unfold mbind, drive_bind. rewrite E1 by done. by destruct r.
Qed.
Lemma flush_all_safe rounds : forall cs, server_ok cs ->
  exists n cs' r, (forall fuel, (n <= fuel)%nat -> flush_all order rounds fuel cs = Some (cs', r)) /\ server_ok cs'.
Proof using.
  induction rounds as [|rounds IH]; intros cs Hok;
    (destruct (over_safe _ (order cs) pump_ends cs Hok) as (n1 & cs1 & r1 & E1 & Hok1); destruct r1 as [[]|e];
     [|by exists n1, cs1, (Ok ()); split; [|done]; intros fuel Hf; cbn [flush_all]; rewrite E1
      |by exists n1, cs1, (Err e); split; [|done]; intros fuel Hf; cbn [flush_all]; rewrite E1]).
  - exists n1, cs1, (Err NgTimeout). split; [|done]. intros fuel Hf. cbn [flush_all]. by rewrite E1.
  - destruct (over_safe _ (order cs1) wait_ends cs1 Hok1) as (n2 & cs2 & r2 & E2 & Hok2). destruct r2 as [b|e].
    + destruct (IH cs2 Hok2) as (n3 & cs3 & r3 & E3 & Hok3). exists (n1 + n2 + n3)%nat, cs3, r3. split; [|done].
      intros fuel Hf. cbn [flush_all]. rewrite E1 by lia. cbn [mbind option_bind]. rewrite E2 by lia. cbn [mbind option_bind]. apply E3. lia.
    + exists (n1 + n2)%nat, cs2, (Err e). split; [|done]. intros fuel Hf. cbn [flush_all]. rewrite E1 by lia. cbn [mbind option_bind]. by rewrite E2 by lia.
Qed.

(** *** Streams of the server: session ids are [u64]. *)
Definition sessions_u64 (w : WtConnectionState) : Prop := forall id, head (iter (wc_sessions w)) = Some id -> 0 <= id.
Lemma server_open_safe w d : sessions_u64 w -> driver_ok d ->
  exists w' d' r, server_open_bidi_stream (Q := Q) (E := E) iter (w, tt) d = Some (w', tt, d', r) /\ driver_ok d'.
Proof using.
  intros Hw Hd. unfold server_open_bidi_stream, with_wt. cbn [fst].
  destruct (head (iter (wc_sessions w))) as [sid|] eqn:Es; [|by exists w, d, (Err not_established)].
  destruct (open_bidi_safe Server server_settings d Hd) as (d1 & r1 & E1 & Hd1 & _).
  unfold mbind, serving_bind, driving. rewrite E1. destruct r1 as [id|e]; [|by exists w, d1, (Err e)].
  destruct (drives_conn Server server_settings server_settings_ok (register_local_wt_stream sid id) (fun _ => OutUnit) (OpRegisterLocalWtStream sid id) d1)
    as (d2 & r2 & E2 & Hd2 & _); [done..|]. change (on_h3 (register_local_wt_stream sid id)) with (h3_register_local_wt_stream (Q := Q) (E := E) sid id) in E2.
  rewrite E2. destruct r2 as [[]|e]; [|by exists w, d2, (Err e)]. unfold update_wt, update. cbn [fst snd].
  destruct (write_stream_header_safe Server server_settings sid id d2) as (d3 & r3 & E3 & Hd3 & _); [by apply Hw|done|]. rewrite E3. destruct r3; by eexists _, _, _.
Qed.
Lemma wt_open_safe `{EqDecision Addr} addr srv : map_Forall (fun _ => sessions_u64) (sw_wt srv) -> server_ok (sw_connections srv) ->
  exists srv' r, wt_open_bidi_stream_for iter order addr srv = Some (srv', r) /\ server_ok (sw_connections srv').
Proof using.
  intros Hw Hok. unfold wt_open_bidi_stream_for. destruct (find_connection _ _ _) as [id|]; [|by eexists srv, _]. unfold open_bidi_stream_inner.
  destruct (_ ≫= _); [|by eexists srv, _]. destruct (sw_connections srv !! id) as [c|] eqn:Ec; [|by eexists srv, _].
  destruct (sw_wt srv !! id) as [w|] eqn:Ew; [|by eexists srv, _].
  destruct (server_open_safe w (sv_driver c) (Hw id w Ew) (Hok id c Ec)) as (w' & d' & r & E1 & Hd'). rewrite E1.
  eexists _, r. split; [reflexivity|]. by apply map_Forall_insert_2.
Qed.
Lemma send_stream_data_safe `{EqDecision Addr} addr id data fin srv : server_ok (sw_connections srv) ->
  exists srv' r, send_stream_data_for order addr id data fin srv = Some (srv', r) /\ server_ok (sw_connections srv').
Proof using.
  intros Hok. unfold send_stream_data_for. destruct (find_connection _ _ _) as [x|]; [|by eexists srv, _]. unfold send_stream_data_inner.
  destruct (sw_connections srv !! x) as [c|] eqn:Ec; [|by eexists srv, _].
  destruct (quic_write_safe Server server_settings id data fin (sv_driver c) (Hok x c Ec)) as (d' & r & E1 & Hd' & _). rewrite E1.
  eexists _, r. split; [reflexivity|]. by apply map_Forall_insert_2.
Qed.
End safety.

(** ** Properties *)

(** C11. A WebTransport server with any number of connections never panics, whatever QUIC
    reports, whatever is accepted and in whichever order connections are driven, in [run],
    [recv_once] and [flush]. In a round each connection has its turn: its events are noted
    and handed to the application once each and in order; a connection that fails is given
    up with its sessions and changes no other; the sessions of the others are what their
    own events make them, and a new connection starts with none. *)
Theorem wt_server_isolates {Q E App Addr Id} `{!Transport Q E, !TransportLaws, Countable Id} iter
    (order : gmap Id (Served Q E Addr) -> list Id) (handler : Addr -> App -> Z -> Event -> App * bool) app (srv : ServerWebTransportSession) :
  order_ok order -> server_ok server_settings (sw_connections srv) ->
  (forall answers, Forall answer_ok answers ->
    (exists n app' srv' r, (forall fuel, (n <= fuel)%nat -> recv_once iter order handler fuel answers app srv = Some (app', srv', r)) /\
      server_ok server_settings (sw_connections srv')) /\
    exists n app' srv' r, (forall fuel, (n <= fuel)%nat -> wt_run iter order handler fuel answers app srv = Some (app', srv', r)) /\
      server_ok server_settings (sw_connections srv')) /\
  (forall answer, answer_ok answer ->
    exists n app' driven_srv srv' r, (forall fuel, (n <= fuel)%nat -> wt_round iter order handler fuel answer app srv = Some (app', srv', r)) /\
      server_ok server_settings (sw_connections srv') /\ all_driven iter order handler app srv app' driven_srv /\ wt_taken answer driven_srv srv' r) /\
  (forall rounds, exists n srv' r, (forall fuel, (n <= fuel)%nat -> wt_server_flush order rounds fuel srv = Some (srv', r)) /\
    server_ok server_settings (sw_connections srv') /\ sw_wt srv' = sw_wt srv).
Proof.
  intros Hord Hok. split_and!.
  - intros answers Hans. split; [by apply recv_once_safe|].
    destruct (wt_rounds_safe iter order Hord handler answers Hans app srv Hok) as (n & app' & srv' & r & E1 & Hok').
    exists n, app', srv', r. split; [|done]. intros fuel Hf. by apply E1.
  - intros answer Hans. by apply wt_round_safe.
  - intros rounds. destruct (flush_all_safe order rounds _ Hok) as (n & cs & r & E1 & Hok').
    exists n, (mkWtServer cs (sw_wt srv)), r. split_and!; [|done..]. intros fuel Hf. unfold wt_server_flush. by rewrite E1.
Qed.

(** ** Witnesses: a server that accepts every session, and notes what it is given *)
Definition verified_server : list conn_op := [OpInitH3Streams 3 7 11; OpSetTransportVerified true true].
Definition ascending_ids (s : gset Z) : list Z := elements s.
Definition noting_handler (_ : Z) (seen : list (Z * Event)) (session_id : Z) (e : Event) : list (Z * Event) * bool :=
  (seen ++ [(session_id, e)], true).
Definition wt_servers (l : list QuicEvent) (c : Connection) : ServerWebTransportSession (Q := TestQuic) (E := unit) (Addr := Z) (Id := Z) :=
  mkWtServer (<[1 := mkServed (serving_driver l c) 10]> (<[2 := mkServed (serving_driver [bad_control] c) 20]> ∅))
    (<[1 := wt_connection_state_new]> (<[2 := wt_connection_state_new]> ∅)).
(** SETTINGS of a client, and its request for a session. *)
Definition arriving_session : list QuicEvent :=
  [QStreamData 2 peer_offer false; QStreamData 0 (frame_bytes (Headers (static_section true wt_request))) false].

Lemma wt_server_isolates_witness :
  exists c n app' driven_srv srv' r, state_after Server server_settings verified_server = Some c /\
    (forall fuel, (n <= fuel)%nat ->
      wt_round ascending_ids ids_in_order noting_handler fuel (Some (Ok (Some (3, 30, newcomer [])))) [] (wt_servers arriving_session c) = Some (app', srv', r)) /\
    all_driven ascending_ids ids_in_order noting_handler [] (wt_servers arriving_session c) app' driven_srv /\
    wt_taken (Some (Ok (Some (3, 30, newcomer [])))) driven_srv srv' r.
Proof.
  destruct (state_after Server server_settings verified_server) as [c|] eqn:E; [|vm_compute in E; discriminate].
  assert (reachable Server server_settings c) as Hr.
  { apply (state_after_reachable _ _ verified_server); [vm_compute; reflexivity|exact E]. }
  destruct (wt_server_isolates ascending_ids ids_in_order noting_handler [] (wt_servers arriving_session c)) as (_ & Hround & _).
  - intros cs. apply ids_in_order_ok.
  - unfold wt_servers. apply map_Forall_insert_2; [|apply map_Forall_insert_2; [|apply map_Forall_empty]].
    + split; [exact Hr|constructor|]. apply (bool_decide_unpack _). vm_compute. exact I.
    + split; [exact Hr|constructor|]. apply (bool_decide_unpack _). vm_compute. exact I.
  - destruct (Hround (Some (Ok (Some (3, 30, newcomer []))))) as (n & app' & srv1 & srv' & r & Erun & _ & Hdriven & Htaken); [constructor|].
    exists c, n, app', srv1, srv', r. split; [reflexivity|]. split; [exact Erun|]. split; [exact Hdriven|exact Htaken].
Defined.

(** In that round the request is handed over and accepted; the bad connection is gone, with
    its sessions, and the third one is there. In the next one the session is established. *)
Example session_is_accepted :
  exists c srv', state_after Server server_settings verified_server = Some c /\
    wt_run ascending_ids ids_in_order noting_handler 20 [Some (Ok (Some (3, 30, newcomer []))); None] [] (wt_servers arriving_session c) =
      Some ([(0, EvHeadersEnd 0); (0, EvWebTransport (WtSessionEstablished 0 false))], srv', Ok ()) /\
    ids_in_order (sw_connections srv') = [3; 1] /\ ids_in_order (sw_wt srv') = [3; 1] /\
    (elements ∘ wc_sessions <$> sw_wt srv' !! 1) = Some [0].
Proof.
  destruct (state_after Server server_settings verified_server) as [c|] eqn:E; [|vm_compute in E; discriminate].
  vm_compute in E. injection E as <-. eexists _, _. split; [reflexivity|]. vm_compute. repeat split; reflexivity.
Qed.

(** A session that is over is not forgotten: when the next one gets a datagram, the handler
    may be told that it belongs to the first. *)
Example datagram_of_another_session :
  let w := noted [EvWebTransport (WtSessionEstablished 0 false); EvWebTransport (WtSessionClosed 0 [] 0 0 []);
    EvWebTransport (WtSessionEstablished 4 false)] wt_connection_state_new in
  wt_given (fun _ => [0; 4]) (EvWebTransport (WtDatagram 4 [1])) w = Some (0, EvWebTransport (WtDatagram 4 [1])) /\
  elements (wc_sessions w) ≡ₚ [0; 4].
Proof. split; [reflexivity|]. apply (bool_decide_unpack _). vm_compute. exact I. Qed.
